(* ===== verification/_CoqProject ===== *)
-Q . S2P
Prelude.v
GoStrings.v
GoFloat.v
Ns.v
Sha256.v
Utf8.v
GoPath.v
Kv.v
Paging.v
AppNames.v
Inet.v
Scheduler.v
HostPort.v
Ipam.v
Stage.v
SpecConfig.v
AppVersion.v
Base64.v
Auth.v
Packages.v
PackageStore.v
PackageTransfer.v
PackageSelect.v
Resources.v
Zone.v
Users.v
UsersLogic.v
AuditLog.v
AuditLogic.v
StateFlow.v
Hostlet.v
Control.v
Refresh.v
RefreshLogic.v
RefreshPorts.v
RefreshPlace.v
RefreshDeleted.v
Deploy.v
DeployLogic.v
AuditCollect.v
Metrics.v
Alerts.v
AlertsLogic.v
Varint.v
Monstore.v
MonstoreLogic.v
Gateway.v
GatewayLogic.v
Ingate.v
IngateLogic.v
IngateWriter.v
IngateWriterLogic.v
IngateHttp.v
IngateHttpLogic.v
Dns.v
DnsLogic.v
InConf.v
InConfLogic.v
AgentTask.v
AgentTaskLogic.v
AgentStatus.v
AgentStatusLogic.v
Leader.v
LeaderLogic.v
ZoneReport.v
ZoneReportLogic.v
ZoneService.v
ZoneServiceLogic.v
Counter.v
HostPoll.v
HostPollLogic.v
Sha1.v
Quota.v
QuotaLogic.v
GoFloatText.v
MetricRegistry.v
MetricsPage.v
MetricsPageLogic.v
HostNetwork.v
Archive.v
