(* ===== verification/Prelude.v ===== *)
(** A verification development for innerstack, a platform that runs application
    containers on the hosts of a zone.  The hosts of a zone elect a leader; its zonelet
    ([src/internal/zonelet]) keeps hosts and application instances in a key-value
    database, decides which host runs which replica, and hands out addresses and
    ports; on every host an agent (the hostlet, [src/internal/hostlet]) reports to the
    leader, brings its containers in line with the answer, and relays the progress that
    a small agent inside each container (the inagent, [src/internal/inagent]) sends it.
    Around this loop stand the packages, users and keys, the audit log, alerts, metrics,
    a gateway ([src/cmd/ingate]) and a name server ([src/internal/indns]).  The
    development models the loop from end to end, and these services, and proves what
    makes them correct.  A file [XLogic] holds the theorems about the definitions of [X].

    * Parts

    Shared ground:
    - [Prelude]: Go integers with their wrap-around, errors, [sort.Slice] and the
      iteration of maps as classes (any order the language allows), counting loops.
    - [GoStrings], [GoFloat], [GoPath], [Utf8], [Varint], [Base64], [Sha256]: the parts of
      Go's strings, strconv, float64, path, unicode/utf8, encoding and crypto in use.
    - [Kv]: the database client as classes with the laws the program relies on, and
      a store in memory that has them.  [Paging]: loops over the pages of a range.
      [Ns]: the keys ([src/pkg/inapi/ns.go]).
    - [AppNames]: container names and stage keys ([src/pkg/inapi/app.go],
      [hoststatus.go], [hostapi.go]); [Inet]: addresses ([src/pkg/inetutil]).

    The zone leader ([src/internal/zonelet]):
    - [Leader]: the lease that makes a host the leader ([task_leader.go],
      [src/internal/status]), with the passes of all hosts interleaved call by call.
    - [Scheduler]: which host and volume a replica fits on ([scheduler/]).
    - [HostPort], [Ipam]: ports and addresses ([network/]); the host records of the
      address manager are shared between two maps, so they live in a store of their own.
    - [Stage]: the tree of deploy stages, written by leader, host and inagent
      ([src/pkg/inapi/app.go], [service_internal.go], [service_instance.go],
      [hoststatus.go]).
    - [Zone]: the records of the database and the sets that cache them, with pointers as
      positions ([src/pkg/inapi/kv.go], [types.go]).
    - [Refresh]: one pass of the scheduler, [schedulerRefresh] of [task_scheduler.go], as
      a composition of the above in a monad of state and error.  [RefreshLogic] has the
      rules of that monad; [RefreshPorts], [RefreshPlace], [RefreshDeleted] its theorems.
    - [SpecConfig], [Resources], [AppVersion]: the schemas and values of applications,
      resource quantities, and versions ([src/pkg/inapi/valid.go], [src/internal/inutil],
      [service_instance.go], [service_appspec.go]).
    - [Deploy]: the requests on instances ([service_instance.go]).
    - [ZoneReport]: the report of a host, and what it is told to run
      ([service_internal.go]); [ZoneService]: the requests on the zone and its hosts
      ([service.go], [service_logs.go]), with the ends of these calls on a host.
    - [Packages]: upload, listing, download and choice of packages ([service_package.go],
      [src/internal/cli/pkg_push.go], [src/internal/hostlet/pkg_download.go]); theorems in
      [PackageStore], [PackageTransfer], [PackageSelect].
    - [Archive]: the archive of a package, from the build directory to the directory of the
      host ([src/internal/pkgbuild]).
    - [Auth], [Users]: keys, scopes, tokens, and the requests on users ([src/pkg/inauth],
      [src/internal/auth], [service_user.go]).
    - [AuditLog], [AuditCollect]: the hash-chained log and its records
      ([src/internal/audit], [service_audit.go]).
    - [Metrics], [Monstore], [Alerts]: the cached metrics, their history, and the alerts
      ([metrics.go], [monstore.go], [alerts.go], [service_metrics.go]).
    - [Gateway]: the ingress records ([service_gateway.go], [service_internal_gateway.go]).

    The host ([src/internal/hostlet]):
    - [StateFlow]: the lifecycle of a replica ([src/internal/stateflow]) and the table of
      its transitions.  [Hostlet]: the persistent records of a host, stop, destroy,
      deletion and the sweep of orphaned containers.  [Control]: one control step of a
      replica ([task_container.go]).
    - [AgentTask], [AgentStatus], [InConf]: the inagent, its tasks, its reports with the
      end of them on the host, and the configuration it reads ([src/internal/inagent],
      [inagent_api.go], [src/pkg/inconf]).
    - [HostPoll]: the turn of a host, what it measures, reports and takes over from the
      answer ([task_status.go]); [Counter]: the sliding counters behind its rates
      ([src/internal/inutil/stat.go]).
    - [Quota]: the quotas of the file system ([xfsquota.go]), with [Sha1].
    - [HostNetwork]: the device, the forwarding entries and the routes to the other hosts
      of the zone's map ([task_network.go], [network/network.go]).

    Beside them:
    - [Ingate], [IngateHttp], [IngateWriter]: the gateway, its routing table and refresh,
      its handling of a request, and its writers ([src/cmd/ingate/main.go]).
    - [Dns]: the name server ([src/internal/indns]).
    - [MetricRegistry], [MetricsPage]: the metrics of a process in their text format
      ([src/pkg/inmetrics], [src/internal/metrics]), and the pages of the leader and of a
      host ([src/internal/metricspage], [metrics_export.go]); [GoFloatText]: the decimals
      they show.

    * What the theorems show

    One leader: however the passes of the hosts interleave, no two lead at once unless a
    clock is behind that of the store ([LeaderLogic]).

    Decisions: the scheduler picks a least-occupied host that fits and fails exactly when
    none does ([Scheduler]), the port allocator grants free ports and fails exactly at its
    limit ([HostPort]), registered hosts never share a bridge ([Ipam]).  Wherever a pass
    stops, no port of a host is bound twice ([RefreshPorts]), at most one replica is
    placed, with room beside all claims ([RefreshPlace]), and deleted instances are
    neither changed nor written ([RefreshDeleted]).

    Requests: stored limits are in range, a deletion is final until the deadline of its
    record ([DeployLogic]); schemas and
    values are accepted exactly if they are valid, and defaults are filled once
    ([SpecConfig]); a host that joined may report for itself only ([ZoneServiceLogic]); a
    complete package is whole, what is pushed is what is downloaded, and the newest
    release stored is chosen ([PackageStore], [PackageTransfer], [PackageSelect]); a tree that is
    packed is what the host extracts ([Archive]).

    The loop between leader and host: a host is told exactly its instances with what they
    depend on, and its report changes of the instances the stages only, and of the hosts
    itself ([ZoneReportLogic]); what it records reaches the leader's tree exactly
    ([Stage]).  A start gives the commands that leave the container up in the engine, and a
    replica that runs as it should is left alone ([Control], [StateFlow]); orphans go only after the grace period
    and wanted containers are spared ([Hostlet]), and after a turn the wanted ones are
    exactly those of the replicas placed on the host ([HostPollLogic]).  A cycle of the
    quotas limits the running containers and no others in the file systems that hold them,
    under numbers of their own ([QuotaLogic]).  A turn of the network leaves a route to every other host
    ([HostNetwork]).  Inside a container startup tasks run in
    order and once ([AgentTaskLogic]), a turn of the agent reaches the host, which takes a
    report only with the secret of its replica ([AgentStatusLogic]), and rendering
    replaces exactly the place holders ([InConfLogic]).

    Security and records: a token is accepted exactly if it is signed, fresh and unused
    ([Auth]); listings end and are complete, and disabling a user disables up to 1000 keys
    ([UsersLogic]); the audit log verifies after any history, and its head pins the whole
    log ([AuditLogic]); the alert of a host is a function of its reports ([AlertsLogic]);
    blocks of metrics decode, and a query finds what was sampled ([MonstoreLogic]).

    Gateway and names: ingress records stay well formed ([GatewayLogic]); a request takes
    the deepest route, from its own domain, below the root of a local route, and the client
    gets what was written ([IngateLogic], [IngateHttpLogic], [IngateWriterLogic]); every
    reply of the name server has its origin in the records or upstream ([DnsLogic]).  The
    pages of metrics show exact counts, each family once, to those who have the token
    ([MetricsPageLogic]).

    Theorems and examples that are not of this kind state behaviour that falls short of
    its purpose, such as [RefreshPlace.unschedulable_instance_blocks],
    [Control.destroy_of_created_ignored], [LeaderLogic.clock_behind_two_leaders],
    [QuotaLogic.refused_limit_counts] and [HostNetwork.entries_lost_with_bridge].

    * Conventions

    An [error] is its message; messages of wrapped errors may be abbreviated.  A
    [panic] of the source is an error whose text says so, and the theorems that
    matter exclude it.  Time and random draws are arguments: a handler reads the
    clock once.  Locks are not modelled: a handler is one step, except where the text of
    its file cuts it ([Leader], [AgentTask], [UserSet] of [Users], flushes of [Monstore]
    and deliveries of [Alerts]).

    Code outside the repository is a class, with its laws beside it where the theorems
    need them: the database ([Kv], [KvLaws], [KvReliable], [KvDeletePrev], [KvRangeLaws],
    [KvRevert], [KvTtl] with deadlines; [Lease] with expiry), the container engine and the file system
    ([HostEnv]), the order of equal elements in a sort ([SortSlice]) and of a map's
    iteration ([MapRange]), the IPv6 syntax ([Ip6Syntax]), SemVer ([Semver]), tokens
    ([TokenLib]), randomness ([Entropy]), the encoding of audit records ([AuditCodec]),
    domains and URLs ([DomainLib], [UrlLib]), compression and files of the gateway
    ([Gzip], [HttpEnv]), DNS messages and upstream servers ([DnsLib], [Upstream]), cron
    expressions and processes ([Cron], [Shell]), the calls of a host ([PeerLib]), and the
    quota command with the directories it is about ([QuotaEnv]), and the devices of the
    kernel ([NetEnv]).
    Each has an instance, used by the witnesses.

    Recursion is structural over lists, trees and counted ranges, with three exceptions
    that have fuel: the loops over pages, where more than the entries of the range is
    enough ([Paging.page_loop_spec]), the walk up a path in [lookup_index] of [Ingate],
    which has the length of the path and two, and the throttled writer of [IngateWriter],
    which has the length of the data and one.

    * What is not modelled

    Pure input and output: the servers of gRPC and HTTP and their start ([src/cmd],
    [src/internal/server], [data], [cli]), the container driver ([docker.go]), gathering the
    files of a build and its script ([pkgbuild]), reading and writing configuration files
    ([src/internal/config]), the command line beyond the push of a package, logs and
    signals, and generated code beyond the records it declares.  The C++ agent and the
    sessions of [src/pkg/inauth/session.go], whose manager the source has commented out,
    are left out too. *)
From Stdlib Require Import ZArith Lia Permutation Sorted.
From stdpp Require Export base list strings gmap sets sorting.

(** * Notations *)

Declare Scope go_scope.
Delimit Scope go_scope with go.

(** ** Machine integers

    A Go [int64], [uint64], [uint32], [int32] or [uint16] is the [Z] it denotes;
    every arithmetic operation of the source that can leave the range is followed
    by the wrap-around of its width. *)

Definition wrap_s (w z : Z) : Z := ((z + 2 ^ (w - 1)) mod 2 ^ w - 2 ^ (w - 1))%Z.
Definition wrap_u (w z : Z) : Z := (z mod 2 ^ w)%Z.

Definition i64 (z : Z) : Z := wrap_s 64 z.
Definition i32 (z : Z) : Z := wrap_s 32 z.
Definition u64 (z : Z) : Z := wrap_u 64 z.
Definition u32 (z : Z) : Z := wrap_u 32 z.
Definition u16 (z : Z) : Z := wrap_u 16 z.

Definition in_i64 (z : Z) : Prop := (- 2 ^ 63 <= z < 2 ^ 63)%Z.
Definition in_i32 (z : Z) : Prop := (- 2 ^ 31 <= z < 2 ^ 31)%Z.
Definition in_u64 (z : Z) : Prop := (0 <= z < 2 ^ 64)%Z.
Definition in_u32 (z : Z) : Prop := (0 <= z < 2 ^ 32)%Z.

Notation "x +64 y" := (i64 (x + y)%Z) (at level 50, left associativity) : go_scope.
Notation "x -64 y" := (i64 (x - y)%Z) (at level 50, left associativity) : go_scope.
Notation "x *64 y" := (i64 (x * y)%Z) (at level 40, left associativity) : go_scope.
Open Scope go_scope.

Lemma wrap_s_id w z : (0 < w)%Z -> (- 2 ^ (w - 1) <= z < 2 ^ (w - 1))%Z -> wrap_s w z = z.
Proof.
  intros Hw Hz. unfold wrap_s.
  assert (2 ^ w = 2 * 2 ^ (w - 1))%Z as E by (rewrite <- Z.pow_succ_r by lia; f_equal; lia).
  rewrite Z.mod_small by lia. lia.
Qed.

Lemma wrap_s_range w z : (0 < w)%Z -> (- 2 ^ (w - 1) <= wrap_s w z < 2 ^ (w - 1))%Z.
Proof.
  intros Hw. unfold wrap_s.
  assert (2 ^ w = 2 * 2 ^ (w - 1))%Z as E by (rewrite <- Z.pow_succ_r by lia; f_equal; lia).
  pose proof (Z.mod_pos_bound (z + 2 ^ (w - 1)) (2 ^ w)) as B.
  pose proof (Z.pow_pos_nonneg 2 (w - 1)). lia.
Qed.

Lemma i64_id z : in_i64 z -> i64 z = z.
Proof. intros H. apply wrap_s_id; [lia | exact H]. Qed.

Lemma i64_range z : in_i64 (i64 z).
Proof. apply (wrap_s_range 64); lia. Qed.

Lemma i32_id z : in_i32 z -> i32 z = z.
Proof. intros H. apply wrap_s_id; [lia | exact H]. Qed.

Lemma u64_id z : in_u64 z -> u64 z = z.
Proof. intros H. apply Z.mod_small, H. Qed.

Lemma u64_range z : in_u64 (u64 z).
Proof. apply Z.mod_pos_bound; reflexivity. Qed.

Lemma u32_id z : in_u32 z -> u32 z = z.
Proof. intros H. apply Z.mod_small, H. Qed.

Lemma u32_range z : in_u32 (u32 z).
Proof. apply Z.mod_pos_bound; reflexivity. Qed.

(** [i64] differs from its argument by a multiple of 2^64. *)
Lemma i64_ex z : exists k, i64 z = (z + k * 2 ^ 64)%Z.
Proof.
  exists (- ((z + 2 ^ 63) / 2 ^ 64))%Z. unfold i64, wrap_s.
  change (64 - 1)%Z with 63%Z.
  rewrite Z.mod_eq by lia. lia.
Qed.

(** [go_int] turns the range predicates and the wrap-arounds that stay in range
    into plain arithmetic and calls [lia]. *)
Ltac go_unfold := unfold in_i64, in_i32, in_u64, in_u32 in *.
Ltac go_int :=
  repeat match goal with
  | |- context [i64 ?z] => rewrite (i64_id z) by (go_unfold; lia)
  | H : context [i64 ?z] |- _ => rewrite (i64_id z) in H by (go_unfold; lia)
  | |- context [u32 ?z] => rewrite (u32_id z) by (go_unfold; lia)
  | H : context [u32 ?z] |- _ => rewrite (u32_id z) in H by (go_unfold; lia)
  end; go_unfold; try lia.

(** ** Bits *)

Lemma lor_shiftl_add a b k : (0 <= k)%Z -> (0 <= b < 2 ^ k)%Z ->
  Z.lor (Z.shiftl a k) b = (a * 2 ^ k + b)%Z.
Proof.
  intros Hk Hb. rewrite <- Z.add_nocarry_lor; [by rewrite Z.shiftl_mul_pow2 by lia|].
  apply Z.bits_inj'. intros n Hn. rewrite Z.land_spec, Z.bits_0.
  destruct (Z.lt_ge_cases n k); [by rewrite Z.shiftl_spec_low|].
  destruct (Z.eq_dec b 0%Z) as [->|]; [by rewrite Z.bits_0, andb_false_r|].
  rewrite (Z.bits_above_log2 b n); [by rewrite andb_false_r|lia|].
  apply Z.lt_le_trans with k; [apply Z.log2_lt_pow2; lia|lia].
Qed.

(** Clearing the low [k] bits of a 32-bit value. *)
Lemma land_high v k : (0 <= k <= 32)%Z -> in_u32 v ->
  Z.land v (2 ^ 32 - 2 ^ k) = (v / 2 ^ k * 2 ^ k)%Z.
Proof.
  intros Hk Hv.
  assert (E : (2 ^ 32 - 2 ^ k = Z.shiftl (Z.ones (32 - k)) k)%Z).
  { rewrite Z.shiftl_mul_pow2, Z.ones_equiv by lia. rewrite Z.mul_pred_l, <- Z.pow_add_r by lia.
    f_equal. f_equal. lia. }
  rewrite E, <- Z.shiftl_mul_pow2, <- Z.shiftr_div_pow2 by lia.
  apply Z.bits_inj'. intros n Hn. rewrite Z.land_spec.
  destruct (Z.lt_ge_cases n k) as [Hlt|Hge].
  - rewrite !Z.shiftl_spec_low by lia. by rewrite andb_false_r.
  - rewrite !Z.shiftl_spec, Z.shiftr_spec by lia. replace (n - k + k)%Z with n by lia.
    destruct (Z.lt_ge_cases n 32).
    + rewrite Z.ones_spec_low by lia. by rewrite andb_true_r.
    + rewrite Z.ones_spec_high by lia. rewrite andb_false_r.
      destruct (Z.eq_dec v 0%Z) as [->|]; [by rewrite Z.bits_0|].
      rewrite (Z.bits_above_log2 v n); [done|apply Hv|].
      apply Z.lt_le_trans with 32%Z; [apply Z.log2_lt_pow2; destruct Hv; lia|lia].
Qed.

(** ** Errors

    A Go function that returns [(T, error)] returns a [result T]; an [error] is
    the message the code builds. *)

Inductive result (A : Type) : Type :=
| Ok (a : A)
| Err (e : string).
Arguments Ok {A} a.
Arguments Err {A} e.

Definition rbind {A B} (x : result A) (k : A -> result B) : result B :=
  match x with Ok a => k a | Err e => Err e end.
Definition is_ok {A} (x : result A) : bool := match x with Ok _ => true | Err _ => false end.

Notation "'let?' x := e 'in' k" := (rbind e (fun x => k))
  (at level 10, x pattern, e at level 200, k at level 200) : go_scope.

Lemma rbind_ok {A B} (x : result A) (k : A -> result B) b :
  rbind x k = Ok b <-> exists a, x = Ok a /\ k a = Ok b.
Proof. destruct x; simpl; naive_solver. Qed.

(** ** [sort.Slice]

    Go's [sort.Slice] is not stable and its algorithm is not part of its contract:
    what it promises is a permutation of the slice in which no element is preceded
    by one that [less] puts after it.  The model takes any function with that
    contract, so that a theorem holds whatever the order of equal elements. *)

Definition strict_weak {A} (less : A -> A -> bool) : Prop :=
  (forall x, less x x = false) /\
  (forall x y z, less x y = true -> less y z = true -> less x z = true) /\
  (forall x y z, less x y = false -> less y z = false -> less x z = false).

Class SortSlice := sort_slice : forall {A}, (A -> A -> bool) -> list A -> list A.

Class SortSliceLaws (S : SortSlice) := {
  sort_slice_perm : forall A (less : A -> A -> bool) (l : list A), sort_slice less l ≡ₚ l;
  sort_slice_sorted : forall A (less : A -> A -> bool) (l : list A),
    strict_weak less -> StronglySorted (fun x y => less y x = false) (sort_slice less l) }.

Fixpoint insert_by {A} (less : A -> A -> bool) (x : A) (l : list A) : list A :=
  match l with
  | [] => [x]
  | y :: l' => if less x y then x :: l else y :: insert_by less x l'
  end.

(** The insertion sort that the Go library runs on short slices. *)
Definition insertion_sort {A} (less : A -> A -> bool) (l : list A) : list A :=
  foldl (fun acc x => insert_by less x acc) [] l.

#[export] Instance insertion_SortSlice : SortSlice := fun A => @insertion_sort A.

Lemma insert_by_perm {A} (less : A -> A -> bool) x l : insert_by less x l ≡ₚ x :: l.
Proof.
  induction l as [|y l IH]; simpl; [done|].
  destruct (less x y); [done|]. rewrite IH. apply Permutation_swap.
Qed.

Lemma insert_by_sorted {A} (less : A -> A -> bool) x l :
  strict_weak less -> StronglySorted (fun x y => less y x = false) l ->
  StronglySorted (fun x y => less y x = false) (insert_by less x l).
Proof.
  intros (Hirr & Htr & Hneg) Hs.
  assert (Hasym : forall a b, less a b = true -> less b a = false).
  { intros a b Hab. destruct (less b a) eqn:E; [|done].
    specialize (Htr _ _ _ Hab E). by rewrite Hirr in Htr. }
  induction Hs as [|y l Hs IH Hy]; simpl; [by repeat constructor|].
  destruct (less x y) eqn:E.
  - constructor; [by constructor|]. constructor; [by apply Hasym|].
    eapply Forall_impl; [exact Hy|]. intros z Hz. simpl in Hz.
    eapply Hneg; [exact Hz | by apply Hasym].
  - constructor; [done|]. rewrite insert_by_perm. by constructor.
Qed.

#[export] Instance insertion_SortSliceLaws : SortSliceLaws insertion_SortSlice.
Proof.
  split; intros A less l; unfold sort_slice, insertion_SortSlice, insertion_sort.
  - assert (H : forall acc, foldl (fun acc x => insert_by less x acc) acc l ≡ₚ acc ++ l).
    { induction l as [|x l IH]; intros acc; simpl; [by rewrite app_nil_r|].
      rewrite IH, insert_by_perm. simpl. by rewrite Permutation_middle. }
    by rewrite H.
  - intros Hw.
    assert (H : forall acc, StronglySorted (fun x y => less y x = false) acc ->
      StronglySorted (fun x y => less y x = false)
        (foldl (fun acc x => insert_by less x acc) acc l)).
    { induction l as [|x l IH]; intros acc Ha; simpl; [done|].
      apply IH. by apply insert_by_sorted. }
    apply H. constructor.
Qed.

Lemma sort_slice_elem `{SortSliceLaws} {A} (less : A -> A -> bool) l x :
  x ∈ sort_slice less l <-> x ∈ l.
Proof. by rewrite sort_slice_perm. Qed.

Lemma sort_slice_length `{SortSliceLaws} {A} (less : A -> A -> bool) l :
  length (sort_slice less l) = length l.
Proof. apply Permutation_length, sort_slice_perm. Qed.

(** The head of a sorted slice is a minimum. *)
Lemma sort_slice_head_min `{SortSliceLaws} {A} (less : A -> A -> bool) l h :
  strict_weak less -> head (sort_slice less l) = Some h ->
  h ∈ l /\ forall x, x ∈ l -> less x h = false.
Proof.
  intros Hw Hh. pose proof (sort_slice_sorted A less l Hw) as Hs.
  assert (Hmem : forall x, x ∈ sort_slice less l <-> x ∈ l) by (intro; apply sort_slice_elem).
  destruct (sort_slice less l) as [|y l'] eqn:E; [done|].
  injection Hh as ->. split; [apply Hmem; set_solver|].
  intros x Hx. apply Hmem in Hx. apply elem_of_cons in Hx as [->|Hx].
  - apply Hw.
  - apply StronglySorted_inv in Hs as [_ Hf]. rewrite Forall_forall in Hf. by apply Hf.
Qed.

(** A comparison of an integer key is a strict weak order. *)
Lemma strict_weak_key {A} (f : A -> Z) : strict_weak (fun x y => f x <? f y)%Z.
Proof. split; [|split]; intros; lia. Qed.

Lemma strict_weak_key_desc {A} (f : A -> Z) : strict_weak (fun x y => f y <? f x)%Z.
Proof. split; [|split]; intros; lia. Qed.

(** ** Go maps

    The order in which [range] visits a map is not specified: the model takes any
    enumeration of the bindings. *)

Class MapRange := map_range : forall {K V} `{Countable K}, gmap K V -> list (K * V).
Class MapRangeLaws (R : MapRange) := {
  map_range_perm : forall K V `{Countable K} (m : gmap K V), map_range m ≡ₚ map_to_list m }.

#[export] Instance list_MapRange : MapRange := fun K V _ _ m => map_to_list m.
#[export] Instance list_MapRangeLaws : MapRangeLaws list_MapRange.
Proof. split. intros. reflexivity. Qed.

Lemma elem_of_map_range `{MapRangeLaws} {K V} `{Countable K} (m : gmap K V) k v :
  (k, v) ∈ map_range m <-> m !! k = Some v.
Proof. by rewrite map_range_perm, elem_of_map_to_list. Qed.

Lemma NoDup_map_range `{MapRangeLaws} {K V} `{Countable K} (m : gmap K V) :
  NoDup (map fst (map_range m)).
Proof. rewrite map_range_perm. apply NoDup_fst_map_to_list. Qed.

(** ** Counting loops

    [for p := lo; p < lo+n; p++ { if ok(p) { ... } }]: the first [p] that passes. *)
Fixpoint first_from (ok : Z -> bool) (lo : Z) (n : nat) : option Z :=
  match n with
  | O => None
  | S n' => if ok lo then Some lo else first_from ok (lo + 1)%Z n'
  end.

Lemma first_from_Some ok lo n p : first_from ok lo n = Some p ->
  (lo <= p < lo + Z.of_nat n)%Z /\ ok p = true /\ forall q, (lo <= q < p)%Z -> ok q = false.
Proof.
  revert lo. induction n as [|n IH]; intros lo; simpl; [done|].
  destruct (ok lo) eqn:E.
  - intros [= <-]. split_and!; [lia|lia|done|]. intros q Hq. lia.
  - intros H. apply IH in H as (Hr & Hp & Hq). split_and!; [lia|lia|done|].
    intros q ?. destruct (decide (q = lo)) as [->|]; [done|]. apply Hq. lia.
Qed.

Lemma first_from_None ok lo n : first_from ok lo n = None <->
  forall p, (lo <= p < lo + Z.of_nat n)%Z -> ok p = false.
Proof.
  revert lo. induction n as [|n IH]; intros lo; simpl; [split; [lia|done]|].
  destruct (ok lo) eqn:E.
  - split; [done|]. intros H. rewrite H in E by lia. done.
  - rewrite IH. split; intros H p Hp; [|apply H; lia].
    destruct (decide (p = lo)) as [->|]; [done|]. apply H. lia.
Qed.

(** Introduces an equality of tuples as substitutions, without looking into the
    components. *)
Ltac intro_tuple :=
  let H := fresh in
  intros H;
  repeat (let H2 := fresh in apply pair_equal_spec in H as [H H2]; try subst);
  try subst.

Create HintDb go discriminated.
#[export] Hint Resolve i64_range u64_range u32_range strict_weak_key strict_weak_key_desc : go.
