(* ===== verification/GoStrings.v ===== *)
(** Go strings as the program uses them: searching and splitting at a byte, prefix
    tests, decimal printing and parsing ([strconv], [%d]), hexadecimal printing, and
    the lemmas about them that the components share. *)
From Stdlib Require Import ZArith Lia Ascii.
From stdpp Require Export pretty.
From S2P Require Import Prelude.
Local Open Scope string_scope.
Local Open Scope Z_scope.

#[global] Arguments String.append : simpl nomatch.

(** ** Bytes *)

Definition byte_of (c : ascii) : Z := Z.of_N (N_of_ascii c).
Definition is_digit (c : ascii) : bool := (48 <=? byte_of c) && (byte_of c <=? 57).
Definition is_lower (c : ascii) : bool := (97 <=? byte_of c) && (byte_of c <=? 122).
Definition is_upper (c : ascii) : bool := (65 <=? byte_of c) && (byte_of c <=? 90).
Definition is_alpha (c : ascii) : bool := is_lower c || is_upper c.
Definition is_alnum (c : ascii) : bool := is_alpha c || is_digit c.
Definition to_lower_byte (c : ascii) : ascii :=
  if is_upper c then ascii_of_N (Z.to_N (byte_of c + 32)) else c.

(** ** Strings *)

Fixpoint s_all (p : ascii -> bool) (s : string) : bool :=
  match s with EmptyString => true | String c s' => p c && s_all p s' end.
Fixpoint s_any (p : ascii -> bool) (s : string) : bool :=
  match s with EmptyString => false | String c s' => p c || s_any p s' end.
Definition isc (c d : ascii) : bool := bool_decide (c = d).
Definition notc (c d : ascii) : bool := negb (isc c d).

(** [strings.Cut] at a byte. *)
Fixpoint cut_at (c : ascii) (s : string) : option (string * string) :=
  match s with
  | EmptyString => None
  | String d s' =>
      if isc c d then Some (EmptyString, s')
      else match cut_at c s' with Some (a, b) => Some (String d a, b) | None => None end
  end.

(** Around the last occurrence ([strings.LastIndexByte]). *)
Fixpoint cut_last (c : ascii) (s : string) : option (string * string) :=
  match s with
  | EmptyString => None
  | String d s' =>
      match cut_last c s' with
      | Some (a, b) => Some (String d a, b)
      | None => if isc c d then Some (EmptyString, s') else None
      end
  end.

(** [strings.Split] at a byte. *)
Fixpoint split_at (c : ascii) (s : string) : list string :=
  match s with
  | EmptyString => [EmptyString]
  | String d s' =>
      if isc c d then EmptyString :: split_at c s'
      else match split_at c s' with
           | [] => [String d EmptyString]
           | w :: ws => String d w :: ws
           end
  end.

(** [strings.Join] *)
Fixpoint join (sep : string) (l : list string) : string :=
  match l with
  | [] => ""
  | [s] => s
  | s :: l' => s +:+ sep +:+ join sep l'
  end.

Fixpoint to_lower (s : string) : string :=
  match s with EmptyString => EmptyString | String c s' => String (to_lower_byte c) (to_lower s') end.

Definition has_prefix (s p : string) : bool := String.prefix p s.
Definition slen (s : string) : Z := Z.of_nat (String.length s).

(** [s < t] on Go strings: lexicographic on bytes. *)
Definition str_lt (s t : string) : bool := String.ltb s t.

(** [strings.TrimSpace] on ASCII. *)
Definition is_space (c : ascii) : bool := ((9 <=? byte_of c) && (byte_of c <=? 13)) || (byte_of c =? 32).
Fixpoint trim_left (s : string) : string :=
  match s with String c s' => if is_space c then trim_left s' else s | EmptyString => "" end.
Fixpoint trim_right (s : string) : string :=
  match s with
  | EmptyString => ""
  | String c s' =>
    match trim_right s' with
    | EmptyString => if is_space c then "" else String c ""
    | r => String c r
    end
  end.
Definition trim_space (s : string) : string := trim_right (trim_left s).

(** ** Decimal *)

(** [strconv.Itoa], [%d] *)
Definition itoa (z : Z) : string := pretty z.

(** Reads decimal digits to the end of the string. *)
Fixpoint dec_acc (s : string) (acc : N) : option N :=
  match s with
  | EmptyString => Some acc
  | String c s' =>
      if is_digit c then dec_acc s' (10 * acc + (N_of_ascii c - 48))%N else None
  end.

(** [strconv.ParseUint(s, 10, w)]: digits only, in range. *)
Definition parse_uint (w : Z) (s : string) : option Z :=
  match s with
  | EmptyString => None
  | _ => match dec_acc s 0 with
         | Some n => if Z.of_N n <? 2 ^ w then Some (Z.of_N n) else None
         | None => None
         end
  end.

(** [strconv.Atoi] without the range check; digits with a sign. *)
Definition parse_int (s : string) : option Z :=
  let digits t := match t with EmptyString => None | _ => Z.of_N <$> dec_acc t 0 end in
  match s with
  | String "-" t => Z.opp <$> digits t
  | String "+" t => digits t
  | _ => digits s
  end.
(** [strconv.ParseInt(s, 10, w)] *)
Definition parse_int_w (w : Z) (s : string) : option Z :=
  match parse_int s with
  | Some z => if (- 2 ^ (w - 1) <=? z) && (z <? 2 ^ (w - 1)) then Some z else None
  | None => None
  end.

(** [strings.Contains] *)
Fixpoint contains (s sub : string) : bool :=
  has_prefix s sub || match s with "" => false | String _ s => contains s sub end.

(** ** Facts *)

Lemma isc_refl c : isc c c = true.
Proof. by apply bool_decide_eq_true. Qed.

Lemma s_all_app p s t : s_all p (s +:+ t) = s_all p s && s_all p t.
Proof. induction s as [|c s IH]; simpl; [done|]. by rewrite IH, andb_assoc. Qed.

Lemma s_all_impl (p q : ascii -> bool) s :
  (forall c, p c = true -> q c = true) -> s_all p s = true -> s_all q s = true.
Proof.
  intros Hpq. induction s as [|c s IH]; simpl; [done|].
  rewrite !andb_true_iff. intros [? ?]. auto.
Qed.

Lemma cut_at_app c a b : s_all (notc c) a = true -> cut_at c (a +:+ String c b) = Some (a, b).
Proof.
  induction a as [|d a IH]; simpl; [by rewrite isc_refl|].
  rewrite andb_true_iff. intros [Hd Ha]. unfold notc in Hd.
  destruct (isc c d); [done|]. by rewrite IH.
Qed.

Lemma cut_at_none c a : s_all (notc c) a = true -> cut_at c a = None.
Proof.
  induction a as [|d a IH]; simpl; [done|].
  rewrite andb_true_iff. intros [Hd Ha]. unfold notc in Hd.
  destruct (isc c d); [done|]. by rewrite IH.
Qed.

Lemma cut_at_inv c s a b : cut_at c s = Some (a, b) -> s = a +:+ String c b /\ s_all (notc c) a = true.
Proof.
  revert a. induction s as [|d s IH]; simpl; [done|]. intros a.
  unfold notc, isc. destruct (bool_decide_reflect (c = d)) as [->|Hn].
  - by intros [= <- ->].
  - destruct (cut_at c s) as [[a' b']|]; [|done]. intros [= <- ->].
    destruct (IH a' eq_refl) as [-> ?]. split; [done|]. simpl. by rewrite bool_decide_false.
Qed.

Lemma cut_last_none c a : s_all (notc c) a = true -> cut_last c a = None.
Proof.
  induction a as [|d a IH]; simpl; [done|].
  rewrite andb_true_iff. intros [Hd Ha]. unfold notc in Hd. rewrite IH by done.
  by destruct (isc c d).
Qed.

Lemma cut_last_app c a b : s_all (notc c) b = true -> cut_last c (a +:+ String c b) = Some (a, b).
Proof.
  intros Hb. induction a as [|d a IH]; simpl.
  - by rewrite cut_last_none, isc_refl.
  - by rewrite IH.
Qed.

Lemma split_at_single c a : s_all (notc c) a = true -> split_at c a = [a].
Proof.
  induction a as [|d a IH]; simpl; [done|].
  rewrite andb_true_iff. intros [Hd Ha]. unfold notc in Hd.
  destruct (isc c d); [done|]. by rewrite IH.
Qed.

Lemma split_at_app c a b : s_all (notc c) a = true -> split_at c (a +:+ String c b) = a :: split_at c b.
Proof.
  induction a as [|d a IH]; simpl; [by rewrite isc_refl|].
  rewrite andb_true_iff. intros [Hd Ha]. unfold notc in Hd.
  destruct (isc c d); [done|]. by rewrite IH.
Qed.

Lemma split_at_join c l : l <> [] -> Forall (fun s => s_all (notc c) s = true) l ->
  split_at c (join (String c "") l) = l.
Proof.
  intros Hne Hl. induction Hl as [|s l Hs Hl IH]; [done|].
  destruct l as [|t l]; [by apply split_at_single|].
  change (join (String c "") (s :: t :: l)) with (s +:+ String c (join (String c "") (t :: l))).
  by rewrite split_at_app, IH.
Qed.

Lemma s_app_assoc (a b c : string) : (a +:+ b) +:+ c = a +:+ (b +:+ c).
Proof. induction a as [|d a IH]; simpl; [done|]. by rewrite IH. Qed.

Lemma s_app_nil_r (a : string) : a +:+ "" = a.
Proof. induction a as [|d a IH]; simpl; [done|]. by rewrite IH. Qed.

Lemma slen_app a b : slen (a +:+ b) = slen a + slen b.
Proof. unfold slen. induction a as [|d a IH]; simpl; lia. Qed.

(** *** Decimal round trip *)

Lemma pretty_N_char_digit n : (n < 10)%N ->
  is_digit (pretty_N_char n) = true /\ (N_of_ascii (pretty_N_char n) - 48)%N = n.
Proof.
  intros H. assert (Hin : n ∈ map N.of_nat (seq 0 10)).
  { apply list_elem_of_fmap. exists (N.to_nat n). rewrite elem_of_seq. lia. }
  revert n H Hin. assert (F : Forall (fun n => is_digit (pretty_N_char n) = true /\
    (N_of_ascii (pretty_N_char n) - 48)%N = n) (map N.of_nat (seq 0 10))) by (repeat constructor).
  intros n _ Hin. rewrite Forall_forall in F. by apply F.
Qed.

Lemma dec_acc_go n s : dec_acc (pretty_N_go n s) 0 = dec_acc s n.
Proof.
  revert s. induction (N.lt_wf_0 n) as [n _ IH]; intros s.
  destruct (decide (0 < n)%N) as [Hn|Hn].
  - rewrite pretty_N_go_step by done. rewrite IH by (by apply N.div_lt). simpl.
    destruct (pretty_N_char_digit (n mod 10)) as [-> ->]; [by apply N.mod_lt|].
    f_equal. symmetry. by apply N.div_mod.
  - by assert (n = 0%N) as -> by lia.
Qed.

Lemma s_all_go p n s : (forall k, (k < 10)%N -> p (pretty_N_char k) = true) ->
  s_all p (pretty_N_go n s) = s_all p s.
Proof.
  intros Hp. revert s. induction (N.lt_wf_0 n) as [n _ IH]; intros s.
  destruct (decide (0 < n)%N) as [Hn|Hn].
  - rewrite pretty_N_go_step by done. rewrite IH by (by apply N.div_lt). simpl.
    by rewrite Hp by (by apply N.mod_lt).
  - by assert (n = 0%N) as -> by lia.
Qed.

Lemma itoa_nonneg z : 0 <= z -> itoa z = pretty (Z.to_N z).
Proof. by destruct z. Qed.

Lemma itoa_digits z : 0 <= z -> s_all is_digit (itoa z) = true.
Proof.
  intros Hz. rewrite itoa_nonneg by done. unfold pretty, pretty_N.
  destruct (decide _); [done|]. rewrite s_all_go; [done|]. intros k Hk. by apply pretty_N_char_digit.
Qed.

Lemma itoa_no c z : 0 <= z -> is_digit c = false -> s_all (notc c) (itoa z) = true.
Proof.
  intros Hz Hc. eapply s_all_impl; [|by apply itoa_digits]. intros d Hd.
  unfold notc, isc. destruct (bool_decide_reflect (c = d)) as [->|]; [congruence|done].
Qed.

Lemma dec_acc_itoa z : 0 <= z -> dec_acc (itoa z) 0 = Some (Z.to_N z).
Proof.
  intros Hz. rewrite itoa_nonneg by done. unfold pretty, pretty_N.
  destruct (decide (Z.to_N z = 0%N)) as [->|]; [done|]. by rewrite dec_acc_go.
Qed.

Lemma itoa_nonempty z : 0 <= z -> itoa z <> "".
Proof.
  intros Hz E. assert (D := dec_acc_itoa z Hz). rewrite E in D. injection D as D.
  assert (z = 0) as -> by lia. done.
Qed.

Lemma parse_uint_itoa w z : 0 <= z < 2 ^ w -> parse_uint w (itoa z) = Some z.
Proof.
  intros [H1 H2]. unfold parse_uint. pose proof (itoa_nonempty z H1).
  rewrite dec_acc_itoa by done. rewrite Z2N.id by done.
  rewrite (proj2 (Z.ltb_lt _ _)) by done. by destruct (itoa z).
Qed.

Lemma itoa_inj x y : itoa x = itoa y -> x = y.
Proof. apply (inj pretty). Qed.

(** No byte of a decimal number is the given separator. *)
#[export] Hint Resolve itoa_digits itoa_no itoa_nonempty : go.

(** ** The order of strings: bytewise, which is [bytes.Compare] *)

Lemma ascii_compare_trans (a b c : ascii) o : Ascii.compare a b = o -> Ascii.compare b c = o -> Ascii.compare a c = o.
Proof.
  unfold Ascii.compare. intros H1 H2.
  destruct (N.compare_spec (N_of_ascii a) (N_of_ascii b)), (N.compare_spec (N_of_ascii b) (N_of_ascii c)),
    (N.compare_spec (N_of_ascii a) (N_of_ascii c));
    subst; try done; exfalso; lia.
Qed.

Lemma str_lt_trans s t u : str_lt s t = true -> str_lt t u = true -> str_lt s u = true.
Proof.
  unfold str_lt, String.ltb. revert t u. induction s as [|a s IH]; intros [|b t] [|c u]; cbn; try done.
  destruct (Ascii.compare a b) eqn:E1, (Ascii.compare b c) eqn:E2; try done.
  - apply Ascii.compare_eq_iff in E1 as ->. rewrite E2. apply IH.
  - apply Ascii.compare_eq_iff in E1 as ->. by rewrite E2.
  - apply Ascii.compare_eq_iff in E2 as ->. by rewrite E1.
  - by rewrite (ascii_compare_trans _ _ _ _ E1 E2).
Qed.
Lemma byte_of_range c : 0 <= byte_of c < 256.
Proof. unfold byte_of. pose proof (N_ascii_bounded c). lia. Qed.
Lemma ascii_compare_refl c : Ascii.compare c c = Eq.
Proof. unfold Ascii.compare. apply N.compare_refl. Qed.
Lemma str_lt_irrefl s : str_lt s s = false.
Proof.
  unfold str_lt, String.ltb. induction s as [|a s IH]; [done|]. cbn. by rewrite ascii_compare_refl.
Qed.
Lemma str_le_lt s t : String.leb s t = true <-> s = t \/ str_lt s t = true.
Proof.
  unfold str_lt, String.leb, String.ltb. destruct (String.compare s t) eqn:E.
  - apply String.compare_eq_iff in E as ->. split; [by left|done].
  - split; [by right|done].
  - split; [done|]. intros [->|?]; [|done]. pose proof (str_lt_irrefl t) as H. unfold str_lt, String.ltb in H.
    rewrite String.compare_antisym in E. destruct (String.compare t t); done.
Qed.
Lemma str_lt_app p s t : str_lt (p +:+ s) (p +:+ t) = str_lt s t.
Proof.
  unfold str_lt, String.ltb. induction p as [|c p IH]; [done|]. cbn. by rewrite ascii_compare_refl.
Qed.
Lemma str_lt_app_l a b s t : String.length a = String.length b -> str_lt a b = true -> str_lt (a +:+ s) (b +:+ t) = true.
Proof.
  unfold str_lt, String.ltb. revert b. induction a as [|c a IH]; intros [|d b] [=]; [done|]. cbn.
  destruct (Ascii.compare c d); [by apply IH|done|done].
Qed.
