(* ===== verification/GoFloat.v ===== *)
(** Go [float64] values as the program uses them: finite dyadic numbers with
    round-to-nearest-even to a 53-bit significand, conversion from an integer,
    product, and truncation to [int64].  The exponent is unbounded: every float of
    the modelled code is a product or quotient of 64-bit integers and constants
    near 1, far from overflow and from the subnormal range. *)
From Stdlib Require Import ZArith Lia SpecFloat.
From S2P Require Import Prelude.
Local Open Scope Z_scope.

(** [F m e] denotes [m * 2^e]. *)
Record float64 := F { f_man : Z; f_exp : Z }.

(** Round the absolute value [a] to a multiple of [2^d], ties to even; the
    quotient is returned. *)
Definition rne (a d : Z) : Z :=
  let q := Z.shiftr a d in
  let r := a mod 2 ^ d in
  match r ?= 2 ^ (d - 1) with
  | Lt => q
  | Eq => if Z.odd q then q + 1 else q
  | Gt => q + 1
  end.

Definition f64_round (m e : Z) : float64 :=
  let d := Z.log2 (Z.abs m) + 1 - 53 in
  if d <=? 0 then F m e else F (Z.sgn m * rne (Z.abs m) d) (e + d).

(** [float64(z)] *)
Definition f64_of_int (z : Z) : float64 := f64_round z 0.

Definition f64_mul (x y : float64) : float64 :=
  f64_round (f_man x * f_man y) (f_exp x + f_exp y).

(** The quotient of two positive finite floats: enough bits, then a sticky bit. *)
Definition f64_div (x y : float64) : float64 :=
  let s := Z.log2 (Z.abs (f_man y)) + 57 in
  let n := Z.abs (f_man x) * 2 ^ s in
  let q := n / Z.abs (f_man y) in
  let sticky := if n mod Z.abs (f_man y) =? 0 then 0 else 1 in
  f64_round (Z.sgn (f_man x) * Z.sgn (f_man y) * (2 * q + sticky)) (f_exp x - f_exp y - s - 1).

Definition f64_add (x y : float64) : float64 :=
  let e := Z.min (f_exp x) (f_exp y) in
  f64_round (f_man x * 2 ^ (f_exp x - e) + f_man y * 2 ^ (f_exp y - e)) e.

(** [x > y] *)
Definition f64_gt (x y : float64) : bool :=
  let e := Z.min (f_exp x) (f_exp y) in
  f_man y * 2 ^ (f_exp y - e) <? f_man x * 2 ^ (f_exp x - e).

Definition f64_lt (x y : float64) : bool := f64_gt y x.

(** [int64(x)]: truncation toward zero; out of range the Go specification leaves
    the value to the implementation, and this is the one of amd64. *)
Definition f64_trunc (x : float64) : Z :=
  if 0 <=? f_exp x then f_man x * 2 ^ f_exp x else Z.quot (f_man x) (2 ^ (- f_exp x)).

Definition i64_of_f64 (x : float64) : Z :=
  let t := f64_trunc x in
  if (- 2 ^ 63 <=? t) && (t <? 2 ^ 63) then t else - 2 ^ 63.

(** The literals [3.0] and [1.1] as the compiler rounds them. *)
Definition f64_3_0 : float64 := F 3 0.
Definition f64_1_1 : float64 := F 2476979795053773 (-51).
Definition f64_0_01 : float64 := F 5764607523034235 (-59).

(** Cross-checks against the Standard Library's binary64. *)
Definition sf_of_z (z : Z) : spec_float :=
  binary_normalize 53 1024 z 0 false.
Definition sf_of_f (x : float64) : spec_float :=
  binary_normalize 53 1024 (f_man x) (f_exp x) false.

Example f64_1_1_is_literal : SFdiv 53 1024 (sf_of_z 11) (sf_of_z 10) = sf_of_f f64_1_1.
Proof. reflexivity. Qed.

Example f64_mul_agrees :
  forallb (fun z => match SFcompare (SFmul 53 1024 (sf_of_z z) (sf_of_f f64_1_1))
                                    (sf_of_f (f64_mul (f64_of_int z) f64_1_1)) with
                    | Some Eq => true | _ => false end)
    [0; 1; 10; 1000; 4096; 17179869184; 1099511627776; 9007199254740991; 9007199254740993;
     1234567890123456789; -7; -9223372036854775808; 9223372036854775807] = true.
Proof. vm_compute. reflexivity. Qed.

Example f64_0_01_is_literal : SFdiv 53 1024 (sf_of_z 1) (sf_of_z 100) = sf_of_f f64_0_01.
Proof. reflexivity. Qed.

Example f64_div_agrees :
  forallb (fun ab => match SFcompare (SFdiv 53 1024 (sf_of_z (fst ab)) (sf_of_z (snd ab)))
                                     (sf_of_f (f64_div (f64_of_int (fst ab)) (f64_of_int (snd ab)))) with
                     | Some Eq => true | _ => false end)
    [(1, 100); (1, 3); (0, 7); (10, 1000); (1000, 99999); (123456789, 7); (9007199254740991, 3);
     (1, 9223372036854775807); (5, 1152921504606846976)] = true.
Proof. vm_compute. reflexivity. Qed.

(** Sums of the quotients the parsers add up. *)
Example f64_add_agrees :
  forallb (fun '(w, d, q) => match SFcompare (SFadd 53 1024 (sf_of_z w) (SFdiv 53 1024 (sf_of_z d) (sf_of_z q)))
                                    (sf_of_f (f64_add (f64_of_int w) (f64_div (f64_of_int d) (f64_of_int q)))) with
                    | Some Eq => true | _ => false end)
    [(0, 3, 10); (1, 3, 100); (128, 9, 100); (9007199254740991, 1, 10); (4503599627370497, 5, 10); (7, 0, 10);
     (123456789012345678, 7, 100)] = true.
Proof. vm_compute. reflexivity. Qed.

(** ** Error bounds *)

Lemma rne_bound a d : 0 <= a -> 0 < d -> 2 * Z.abs (rne a d * 2 ^ d - a) <= 2 ^ d.
Proof.
  intros Ha Hd. unfold rne. rewrite Z.shiftr_div_pow2 by lia.
  assert (E : 2 ^ d = 2 * 2 ^ (d - 1)) by (rewrite <- Z.pow_succ_r by lia; f_equal; lia).
  assert (P : 0 < 2 ^ (d - 1)) by (apply Z.pow_pos_nonneg; lia).
  assert (B : 0 <= a mod 2 ^ d < 2 ^ d) by (apply Z.mod_pos_bound; lia).
  assert (D : a = 2 ^ d * (a / 2 ^ d) + a mod 2 ^ d) by (apply Z.div_mod; lia).
  rewrite E in *. set (h := 2 ^ (d - 1)) in *. set (q := a / (2 * h)) in *.
  set (r := a mod (2 * h)) in *. clearbody h q r.
  destruct (Z.compare_spec r h); [destruct (Z.odd _)| |]; nia.
Qed.

Lemma rne_nonneg a d : 0 <= a -> 0 < d -> 0 <= rne a d.
Proof.
  intros Ha Hd. unfold rne. pose proof (proj2 (Z.shiftr_nonneg a d) Ha).
  destruct (_ ?= _); [destruct (Z.odd _)| |]; lia.
Qed.

Lemma f64_of_int_exact z : Z.abs z < 2 ^ 53 -> f64_of_int z = F z 0.
Proof.
  intros H. unfold f64_of_int, f64_round.
  destruct (Z.eq_dec z 0) as [->|Hz]; [done|].
  assert (Z.log2 (Z.abs z) < 53) by (apply Z.log2_lt_pow2; lia).
  destruct (Z.leb_spec (Z.log2 (Z.abs z) + 1 - 53) 0); [done|lia].
Qed.

(** Truncating a rounded product [m * 2^(-k)] is off by at most the truncation and
    half a unit of the rounding. *)
Lemma f64_round_trunc m k :
  0 <= m -> 0 < k -> m < 2 ^ (k + 52) ->
  m / 2 ^ k - 1 <= f64_trunc (f64_round m (- k)) <= m / 2 ^ k + 1.
Proof.
  intros Hm Hk Hlt. unfold f64_round. rewrite (Z.abs_eq m) by lia.
  pose proof (Z.pow_pos_nonneg 2 k) as Pk.
  destruct (Z.leb_spec (Z.log2 m + 1 - 53) 0) as [Hd|Hd].
  - unfold f64_trunc; simpl. destruct (Z.leb_spec 0 (- k)); [lia|].
    rewrite Z.opp_involutive, Z.quot_div_nonneg by lia. lia.
  - set (d := Z.log2 m + 1 - 53) in *.
    assert (Hm0 : 0 < m).
    { destruct (Z.eq_dec m 0) as [->|]; [|lia]. subst d. simpl in Hd. lia. }
    assert (Hdk : d < k).
    { subst d. assert (Z.log2 m < k + 52) by (apply Z.log2_lt_pow2; lia). lia. }
    rewrite Z.sgn_pos, Z.mul_1_l by lia.
    pose proof (rne_bound m d) as B. pose proof (rne_nonneg m d) as N.
    unfold f64_trunc; simpl. destruct (Z.leb_spec 0 (- k + d)); [lia|].
    rewrite Z.quot_div_nonneg by (try apply N; lia).
    replace (- (- k + d)) with (k - d) by lia.
    assert (Ek : 2 ^ k = 2 ^ (k - d) * 2 ^ d) by (rewrite <- Z.pow_add_r by lia; f_equal; lia).
    pose proof (Z.pow_pos_nonneg 2 d) as Pd. pose proof (Z.pow_pos_nonneg 2 (k - d)) as Pkd.
    assert (Q : rne m d / 2 ^ (k - d) = (rne m d * 2 ^ d) / 2 ^ k).
    { rewrite Ek. rewrite Z.div_mul_cancel_r by lia. done. }
    rewrite Q.
    assert (2 ^ d < 2 ^ k) by (apply Z.pow_lt_mono_r; lia).
    split.
    + replace (m / 2 ^ k - 1) with ((m + (-1) * 2 ^ k) / 2 ^ k) by (rewrite Z.div_add by lia; lia).
      apply Z.div_le_mono; lia.
    + replace (m / 2 ^ k + 1) with ((m + 1 * 2 ^ k) / 2 ^ k) by (rewrite Z.div_add by lia; lia).
      apply Z.div_le_mono; lia.
Qed.
