(* ===== verification/Ns.v ===== *)
(** Database keys, [src/pkg/inapi/ns.go]: every record of the zone store lives
    under a key built from constant segments and names, separated by ['/']. *)
From Stdlib Require Import ZArith Lia Ascii.
From S2P Require Import Prelude GoStrings.
Local Open Scope string_scope.
Local Open Scope Z_scope.

Definition NsPrefix : string := "i8k/v2/".

(** ** Padded numbers *)

Definition hex_digit (z : Z) : ascii :=
  if z <? 10 then ascii_of_N (Z.to_N (48 + z)) else ascii_of_N (Z.to_N (87 + z)).

(** The [k] low hexadecimal digits. *)
Fixpoint hexn (k : nat) (z : Z) : string :=
  match k with
  | O => ""
  | S k' => String (hex_digit ((z / 16 ^ Z.of_nat k') mod 16)) (hexn k' z)
  end.

Fixpoint zeros (n : nat) : string :=
  match n with O => "" | S n' => String "0" (zeros n') end.

(** [%0<w>x] *)
Definition fmt_x (w : nat) (z : Z) : string :=
  if z <? 0 then "-" +:+ hexn (Nat.max (w - 1) (Z.to_nat (Z.log2 (- z) / 4) + 1)) (- z)
  else hexn (Nat.max w (Z.to_nat (Z.log2 z / 4) + 1)) z.

(** [%0<w>d] *)
Definition fmt_d (w : nat) (z : Z) : string :=
  if z <? 0 then "-" +:+ (let d := itoa (- z) in zeros (w - 1 - String.length d) +:+ d)
  else let d := itoa z in zeros (w - String.length d) +:+ d.

(** ** Keys *)

Definition NsZoneletInfo (zone : string) := NsPrefix +:+ "zone/" +:+ zone +:+ "/info".
Definition NsZoneletLeader (zone : string) := NsPrefix +:+ "zone/" +:+ zone +:+ "/leader".
Definition NsZoneletAccessKey (zone kid : string) := NsPrefix +:+ "zone/" +:+ zone +:+ "/ak/" +:+ kid.
Definition NsZoneletUser (zone name : string) := NsPrefix +:+ "zone/" +:+ zone +:+ "/user/" +:+ name.
Definition NsZoneletNetworkIPAM (zone : string) := NsPrefix +:+ "zone/" +:+ zone +:+ "/network/ipam".
Definition NsZoneletGatewayIngress (zone name : string) :=
  NsPrefix +:+ "zone/" +:+ zone +:+ "/gateway/default/ingress/" +:+ name.
Definition NsZoneletAuditLog (zone id : string) := NsPrefix +:+ "zone/" +:+ zone +:+ "/audit/log/" +:+ id.
Definition NsZoneletAuditLogPrefix (zone : string) := NsPrefix +:+ "zone/" +:+ zone +:+ "/audit/log/".
Definition NsZoneletAuditAnchor (zone date : string) :=
  NsPrefix +:+ "zone/" +:+ zone +:+ "/audit/anchor/" +:+ date.
Definition NsZoneletAuditAnchorPrefix (zone : string) :=
  NsPrefix +:+ "zone/" +:+ zone +:+ "/audit/anchor/".
Definition NsZoneletAlert (zone id : string) := NsPrefix +:+ "zone/" +:+ zone +:+ "/alert/" +:+ id.
Definition NsZoneletAlertPrefix (zone : string) := NsPrefix +:+ "zone/" +:+ zone +:+ "/alert/".

Definition MonBlockSeconds : Z := 600.
Definition MonFields : list string :=
  ["cpu_millicores"; "mem_used"; "mem_available"; "disk_free"; "disk_total";
   "net_recv"; "net_sent"; "disk_read"; "disk_write"].
Definition MonFieldValid (f : string) : bool := bool_decide (f ∈ MonFields).
Definition MonBlockId (blockStart : Z) : string := fmt_x 10 blockStart.
Definition NsZoneletMonBlock (zone host field : string) (blockStart : Z) :=
  NsPrefix +:+ "zone/" +:+ zone +:+ "/mon/host/" +:+ host +:+ "/" +:+ field +:+ "/" +:+ MonBlockId blockStart.
Definition NsZoneletMonBlockPrefix (zone host field : string) :=
  if bool_decide (field = "") then NsPrefix +:+ "zone/" +:+ zone +:+ "/mon/host/" +:+ host +:+ "/"
  else NsPrefix +:+ "zone/" +:+ zone +:+ "/mon/host/" +:+ host +:+ "/" +:+ field +:+ "/".

Definition NsHostInfo (zone host : string) := NsPrefix +:+ "host/" +:+ zone +:+ "/info/" +:+ host.
Definition NsHostStatus (zone host : string) := NsPrefix +:+ "host/" +:+ zone +:+ "/status/" +:+ host.
Definition NsAppInstance (zone name : string) := NsPrefix +:+ "app/instance/" +:+ zone +:+ "/" +:+ name.
Definition NsAppSpec (name : string) := NsPrefix +:+ "app/spec/" +:+ name.
Definition NsPackageInfo (pkgId : string) := NsPrefix +:+ "pkg/info/" +:+ pkgId.
Definition NsPackageFileChunk (pkgId : string) (chunkIndex : Z) :=
  NsPrefix +:+ "pkg/chunk/" +:+ pkgId +:+ "/" +:+ fmt_d 8 chunkIndex.
Definition NsPackageFileChunkPrefix (pkgId : string) := NsPrefix +:+ "pkg/chunk/" +:+ pkgId +:+ "/".

(** [PackageId]: [{name}_{version}_{os}_{arch}] in lower case; the arguments are
    the fields of a package whose metadata and release are present. *)
Definition PackageId (name version os arch : string) : string :=
  to_lower (name +:+ "_" +:+ version +:+ "_" +:+ os +:+ "_" +:+ arch).

(** ** The records of the store *)

Inductive key :=
| KInfo (zone : string)
| KLeader (zone : string)
| KAccessKey (zone kid : string)
| KUser (zone name : string)
| KIPAM (zone : string)
| KIngress (zone name : string)
| KAuditLog (zone id : string)
| KAuditAnchor (zone date : string)
| KAlert (zone rule target : string)
| KMonBlock (zone host field : string) (start : Z)
| KHostInfo (zone host : string)
| KHostStatus (zone host : string)
| KAppInstance (zone name : string)
| KAppSpec (name : string)
| KPackageInfo (pkg : string)
| KPackageChunk (pkg : string) (index : Z).

Definition key_name (k : key) : string :=
  match k with
  | KInfo z => NsZoneletInfo z
  | KLeader z => NsZoneletLeader z
  | KAccessKey z i => NsZoneletAccessKey z i
  | KUser z n => NsZoneletUser z n
  | KIPAM z => NsZoneletNetworkIPAM z
  | KIngress z n => NsZoneletGatewayIngress z n
  | KAuditLog z i => NsZoneletAuditLog z i
  | KAuditAnchor z d => NsZoneletAuditAnchor z d
  | KAlert z r t => NsZoneletAlert z (r +:+ "/" +:+ t)
  | KMonBlock z h f b => NsZoneletMonBlock z h f b
  | KHostInfo z h => NsHostInfo z h
  | KHostStatus z h => NsHostStatus z h
  | KAppInstance z n => NsAppInstance z n
  | KAppSpec n => NsAppSpec n
  | KPackageInfo p => NsPackageInfo p
  | KPackageChunk p i => NsPackageFileChunk p i
  end.

(** The segments between slashes. *)
Definition key_segments (k : key) : list string :=
  "i8k" :: "v2" ::
  match k with
  | KInfo z => ["zone"; z; "info"]
  | KLeader z => ["zone"; z; "leader"]
  | KAccessKey z i => ["zone"; z; "ak"; i]
  | KUser z n => ["zone"; z; "user"; n]
  | KIPAM z => ["zone"; z; "network"; "ipam"]
  | KIngress z n => ["zone"; z; "gateway"; "default"; "ingress"; n]
  | KAuditLog z i => ["zone"; z; "audit"; "log"; i]
  | KAuditAnchor z d => ["zone"; z; "audit"; "anchor"; d]
  | KAlert z r t => ["zone"; z; "alert"; r; t]
  | KMonBlock z h f b => ["zone"; z; "mon"; "host"; h; f; MonBlockId b]
  | KHostInfo z h => ["host"; z; "info"; h]
  | KHostStatus z h => ["host"; z; "status"; h]
  | KAppInstance z n => ["app"; "instance"; z; n]
  | KAppSpec n => ["app"; "spec"; n]
  | KPackageInfo p => ["pkg"; "info"; p]
  | KPackageChunk p i => ["pkg"; "chunk"; p; fmt_d 8 i]
  end.

Definition no_slash (s : string) : bool := s_all (notc "/") s.

(** Names have no slash; block starts and chunk indexes are in the range the
    program writes. *)
Definition key_wf (k : key) : bool :=
  match k with
  | KInfo z | KLeader z | KIPAM z => no_slash z
  | KAccessKey z n | KUser z n | KIngress z n | KAuditLog z n | KAuditAnchor z n
  | KHostInfo z n | KHostStatus z n | KAppInstance z n => no_slash z && no_slash n
  | KAlert z r t => no_slash z && no_slash r && no_slash t
  | KMonBlock z h f b => no_slash z && no_slash h && no_slash f && (0 <=? b) && (b <? 2 ^ 40)
  | KAppSpec n | KPackageInfo n => no_slash n
  | KPackageChunk p i => no_slash p && (0 <=? i)
  end.

(** * Properties *)

Lemma hex_digit_spec z : 0 <= z < 16 ->
  byte_of (hex_digit z) = (if z <? 10 then 48 + z else 87 + z).
Proof.
  intros Hz. unfold byte_of, hex_digit. destruct (Z.ltb_spec z 10);
    rewrite N_ascii_embedding by lia; lia.
Qed.

Lemma hex_digit_inj a b : 0 <= a < 16 -> 0 <= b < 16 -> hex_digit a = hex_digit b -> a = b.
Proof.
  intros Ha Hb E. apply (f_equal byte_of) in E. rewrite !hex_digit_spec in E by done.
  destruct (Z.ltb_spec a 10), (Z.ltb_spec b 10); lia.
Qed.

Lemma hex_digit_no_slash z : 0 <= z < 16 -> notc "/" (hex_digit z) = true.
Proof.
  intros Hz. unfold notc, isc. rewrite bool_decide_false; [done|].
  intros E. apply (f_equal byte_of) in E. rewrite hex_digit_spec in E by done.
  change (byte_of "/") with 47 in E. destruct (z <? 10); lia.
Qed.

Lemma hexn_no_slash k z : no_slash (hexn k z) = true.
Proof.
  induction k as [|k IH]; simpl; [done|]. unfold no_slash in *. simpl. rewrite IH, andb_true_r.
  apply hex_digit_no_slash, Z.mod_pos_bound. lia.
Qed.

(** The low digits depend only on the low part. *)
Lemma hexn_mod_le j k z : (j <= k)%nat -> hexn j (z mod 16 ^ Z.of_nat k) = hexn j z.
Proof.
  induction j as [|j IH]; intros Hj; simpl; [done|].
  rewrite IH by lia. f_equal. f_equal.
  assert (E : 16 ^ Z.of_nat k = 16 ^ Z.of_nat j * (16 * 16 ^ (Z.of_nat k - Z.of_nat j - 1))).
  { rewrite <- (Z.pow_succ_r 16) by lia. rewrite <- Z.pow_add_r by lia. f_equal. lia. }
  assert (P : 0 < 16 ^ Z.of_nat j) by (apply Z.pow_pos_nonneg; lia).
  assert (Q : 0 < 16 ^ (Z.of_nat k - Z.of_nat j - 1)) by (apply Z.pow_pos_nonneg; lia).
  rewrite E, Z.rem_mul_r by lia. rewrite Z.add_comm, (Z.mul_comm (16 ^ Z.of_nat j)), Z.div_add_l by lia.
  rewrite (Z.div_small (z mod _)) by (apply Z.mod_pos_bound; lia).
  rewrite Z.add_0_r, Z.rem_mul_r by lia.
  rewrite (Z.mul_comm 16 (_ mod _)), Z.mod_add by lia. by rewrite Z.mod_mod by lia.
Qed.

Lemma hexn_inj k a b : 0 <= a < 16 ^ Z.of_nat k -> 0 <= b < 16 ^ Z.of_nat k ->
  hexn k a = hexn k b -> a = b.
Proof.
  revert a b. induction k as [|k IH]; intros a b Ha Hb E; simpl in *; [lia|].
  injection E as Ed Er. apply hex_digit_inj in Ed; [|apply Z.mod_pos_bound; lia..].
  assert (P : 0 < 16 ^ Z.of_nat k) by (apply Z.pow_pos_nonneg; lia).
  assert (E16 : 16 ^ Z.of_nat (S k) = 16 * 16 ^ Z.of_nat k)
    by (rewrite Nat2Z.inj_succ, Z.pow_succ_r; lia).
  rewrite E16 in *.
  assert (Hmod : forall z, 0 <= z < 16 * 16 ^ Z.of_nat k ->
    (z / 16 ^ Z.of_nat k) mod 16 = z / 16 ^ Z.of_nat k).
  { intros z Hz. apply Z.mod_small. split; [apply Z.div_pos; lia|].
    apply Z.div_lt_upper_bound; lia. }
  rewrite !Hmod in Ed by done.
  assert (Hlow : forall z, hexn k z = hexn k (z mod 16 ^ Z.of_nat k)) by (intro; symmetry; by apply hexn_mod_le).
  rewrite (Hlow a), (Hlow b) in Er.
  apply IH in Er; [|apply Z.mod_pos_bound; done..].
  rewrite (Z.div_mod a (16 ^ Z.of_nat k)), (Z.div_mod b (16 ^ Z.of_nat k)), Ed, Er by lia. done.
Qed.

Lemma fmt_x_no_slash w z : no_slash (fmt_x w z) = true.
Proof.
  unfold fmt_x. destruct (z <? 0); [|apply hexn_no_slash].
  unfold no_slash. rewrite s_all_app. simpl. apply hexn_no_slash.
Qed.

(** [%0<w>x] has exactly [w] digits below [16 ^ w]. *)
Lemma fmt_x_digits w b : (0 < w)%nat -> 0 <= b < 16 ^ Z.of_nat w -> fmt_x w b = hexn w b.
Proof.
  intros Hw Hb. unfold fmt_x. destruct (Z.ltb_spec b 0); [lia|]. replace (Nat.max _ _) with w; [done|].
  assert (E : 16 ^ Z.of_nat w = 2 ^ (4 * Z.of_nat w)) by (rewrite Z.pow_mul_r by lia; done). rewrite E in Hb.
  assert (Z.log2 b < 4 * Z.of_nat w).
  { destruct (Z.eq_dec b 0) as [->|]; [cbn; lia|]. apply Z.log2_lt_pow2; lia. }
  assert (Z.log2 b / 4 < Z.of_nat w) by (apply Z.div_lt_upper_bound; lia).
  pose proof (Z.log2_nonneg b). assert (0 <= Z.log2 b / 4) by (apply Z.div_pos; lia). lia.
Qed.
(** Block ids have ten digits while the block starts before 2^40 seconds. *)
Lemma MonBlockId_digits b : 0 <= b < 2 ^ 40 -> MonBlockId b = hexn 10 b.
Proof. intros Hb. apply fmt_x_digits; [lia|exact Hb]. Qed.

(** Digits of one width are in the order of the numbers. *)
Lemma hex_digit_lt a b : 0 <= a -> a < b -> b < 16 -> Ascii.compare (hex_digit a) (hex_digit b) = Lt.
Proof.
  intros Ha Hab Hb. pose proof (hex_digit_spec a ltac:(lia)) as Ea. pose proof (hex_digit_spec b ltac:(lia)) as Eb.
  unfold byte_of in Ea, Eb. unfold Ascii.compare. apply N.compare_lt_iff.
  assert (H : (if a <? 10 then 48 + a else 87 + a) < (if b <? 10 then 48 + b else 87 + b)) by
    (destruct (Z.ltb_spec a 10), (Z.ltb_spec b 10); lia). lia.
Qed.
Lemma hexn_lt k a b : 0 <= a -> a < b -> b < 16 ^ Z.of_nat k -> str_lt (hexn k a) (hexn k b) = true.
Proof.
  revert a b. induction k as [|k IH]; intros a b Ha Hab Hb; [cbn in Hb; lia|]. cbn [hexn].
  assert (P : 0 < 16 ^ Z.of_nat k) by (apply Z.pow_pos_nonneg; lia).
  assert (E16 : 16 ^ Z.of_nat (S k) = 16 * 16 ^ Z.of_nat k) by (rewrite Nat2Z.inj_succ, Z.pow_succ_r; lia).
  assert (Hdig : forall z, 0 <= z < 16 ^ Z.of_nat (S k) -> (z / 16 ^ Z.of_nat k) mod 16 = z / 16 ^ Z.of_nat k /\ 0 <= z / 16 ^ Z.of_nat k < 16).
  { intros z Hz. assert (0 <= z / 16 ^ Z.of_nat k) by (apply Z.div_pos; lia).
    assert (z / 16 ^ Z.of_nat k < 16) by (apply Z.div_lt_upper_bound; lia). split; [apply Z.mod_small; lia|lia]. }
  destruct (Hdig a ltac:(lia)) as [-> Da], (Hdig b ltac:(lia)) as [-> Db].
  assert (Hle : a / 16 ^ Z.of_nat k <= b / 16 ^ Z.of_nat k) by (apply Z.div_le_mono; lia).
  unfold str_lt, String.ltb. cbn [String.compare].
  destruct (Z.eq_dec (a / 16 ^ Z.of_nat k) (b / 16 ^ Z.of_nat k)) as [E|Hne].
  - rewrite E, ascii_compare_refl. change (str_lt (hexn k a) (hexn k b) = true).
    rewrite <- (hexn_mod_le k k a), <- (hexn_mod_le k k b) by done.
    pose proof (Z.div_mod a (16 ^ Z.of_nat k) ltac:(lia)). pose proof (Z.div_mod b (16 ^ Z.of_nat k) ltac:(lia)).
    pose proof (Z.mod_pos_bound a (16 ^ Z.of_nat k) P). pose proof (Z.mod_pos_bound b (16 ^ Z.of_nat k) P). apply IH; nia.
  - by rewrite hex_digit_lt by lia.
Qed.
(** Texts of one length stay in order when something is added to them. *)
Lemma hexn_lt_app k a b s t : 0 <= a -> a < b -> b < 16 ^ Z.of_nat k -> str_lt (hexn k a +:+ s) (hexn k b +:+ t) = true.
Proof.
  intros Ha Hab Hb. pose proof (hexn_lt k a b Ha Hab Hb) as Hlt. apply str_lt_app_l; [|done].
  clear. revert a b. induction k as [|k IH]; intros a b; [done|]. cbn. by rewrite (IH a b).
Qed.

Lemma zeros_all n p : p "0"%char = true -> s_all p (zeros n) = true.
Proof. intros Hp. induction n; simpl; [done|]. by rewrite Hp. Qed.

Lemma fmt_d_no_slash w z : 0 <= z -> no_slash (fmt_d w z) = true.
Proof.
  intros Hz. unfold fmt_d, no_slash. destruct (Z.ltb_spec z 0); [lia|].
  rewrite s_all_app, zeros_all, itoa_no by done. done.
Qed.

Lemma dec_acc_zeros n s : dec_acc (zeros n +:+ s) 0 = dec_acc s 0.
Proof. induction n; [done|]. exact IHn. Qed.

Lemma fmt_d_inj w a b : 0 <= a -> 0 <= b -> fmt_d w a = fmt_d w b -> a = b.
Proof.
  intros Ha Hb E. apply (f_equal (fun s => dec_acc s 0)) in E. revert E.
  unfold fmt_d. destruct (Z.ltb_spec a 0), (Z.ltb_spec b 0); try lia.
  rewrite !dec_acc_zeros, !dec_acc_itoa by done. intros [= ?]. lia.
Qed.

Lemma key_name_join k : key_name k = join "/" (key_segments k).
Proof. by destruct k. Qed.

Lemma key_segments_no_slash k : key_wf k = true ->
  Forall (fun s => s_all (notc "/") s = true) (key_segments k).
Proof.
  destruct k; cbn [key_wf key_segments]; rewrite ?andb_true_iff; intros Hw; destruct_and?;
    repeat apply Forall_cons_2; try apply Forall_nil_2; try done;
    try apply fmt_x_no_slash; apply fmt_d_no_slash; lia.
Qed.

(** A key splits into its segments. *)
Lemma key_split k : key_wf k = true -> split_at "/" (key_name k) = key_segments k.
Proof.
  intros Hk. rewrite key_name_join. apply split_at_join; [done|]. by apply key_segments_no_slash.
Qed.

(** no two records of the store share a key: keys built from names without a
    slash, block starts below 2^40 and non-negative chunk indexes are equal only if
    they are of the same kind and their parts are equal. *)
Theorem ns_key_inj k1 k2 : key_wf k1 = true -> key_wf k2 = true -> key_name k1 = key_name k2 -> k1 = k2.
Proof.
  intros H1 H2 E. assert (Es : key_segments k1 = key_segments k2)
    by (rewrite <- !key_split by done; by rewrite E).
  destruct k1, k2; cbn [key_segments] in Es; try discriminate Es; try (by simplify_eq).
  - injection Es as -> -> -> Es. cbn [key_wf] in *. rewrite !andb_true_iff in *. destruct_and?.
    rewrite !MonBlockId_digits in Es by lia. apply hexn_inj in Es; [by subst|change (16 ^ Z.of_nat 10) with (2 ^ 40); lia..].
  - injection Es as -> Es. cbn [key_wf] in *. rewrite !andb_true_iff in *. destruct_and?.
    apply fmt_d_inj in Es; [by subst|lia..].
Qed.

Lemma ns_key_inj_witness :
  key_name (KAppInstance "z1" "web") = key_name (KAppInstance "z1" "web") /\
  KAppInstance "z1" "web" = KAppInstance "z1" "web".
Proof.
  split; [reflexivity|].
  exact (ns_key_inj (KAppInstance "z1" "web") (KAppInstance "z1" "web") eq_refl eq_refl eq_refl).
Defined.
