(* ===== verification/Sha256.v ===== *)
(** SHA-256 over strings of bytes, as [crypto/sha256] computes it: the constants, the
    padding, the message schedule and the compression, with words as integers below
    [2 ^ 32].  The test vectors at the end are those of FIPS 180-4. *)
From Stdlib Require Import ZArith.
From S2P Require Import Prelude GoStrings Ns.
Local Open Scope string_scope.
Local Open Scope Z_scope.

Definition word_add (a b : Z) : Z := u32 (a + b).
Definition rotr (n x : Z) : Z := Z.lor (Z.shiftr x n) (u32 (Z.shiftl x (32 - n))).
Definition sha_Ch (x y z : Z) : Z := Z.lxor (Z.land x y) (Z.land (Z.lxor x (2 ^ 32 - 1)) z).
Definition sha_Maj (x y z : Z) : Z := Z.lxor (Z.lxor (Z.land x y) (Z.land x z)) (Z.land y z).
Definition big_sigma0 (x : Z) : Z := Z.lxor (Z.lxor (rotr 2 x) (rotr 13 x)) (rotr 22 x).
Definition big_sigma1 (x : Z) : Z := Z.lxor (Z.lxor (rotr 6 x) (rotr 11 x)) (rotr 25 x).
Definition small_sigma0 (x : Z) : Z := Z.lxor (Z.lxor (rotr 7 x) (rotr 18 x)) (Z.shiftr x 3).
Definition small_sigma1 (x : Z) : Z := Z.lxor (Z.lxor (rotr 17 x) (rotr 19 x)) (Z.shiftr x 10).

(** The round constants and the initial hash, in decimal. *)
Definition sha_K : list Z :=
  [1116352408; 1899447441; 3049323471; 3921009573; 961987163; 1508970993; 2453635748; 2870763221;
   3624381080; 310598401; 607225278; 1426881987; 1925078388; 2162078206; 2614888103; 3248222580;
   3835390401; 4022224774; 264347078; 604807628; 770255983; 1249150122; 1555081692; 1996064986;
   2554220882; 2821834349; 2952996808; 3210313671; 3336571891; 3584528711; 113926993; 338241895;
   666307205; 773529912; 1294757372; 1396182291; 1695183700; 1986661051; 2177026350; 2456956037;
   2730485921; 2820302411; 3259730800; 3345764771; 3516065817; 3600352804; 4094571909; 275423344;
   430227734; 506948616; 659060556; 883997877; 958139571; 1322822218; 1537002063; 1747873779;
   1955562222; 2024104815; 2227730452; 2361852424; 2428436474; 2756734187; 3204031479; 3329325298].
Definition sha_H0 : list Z :=
  [1779033703; 3144134277; 1013904242; 2773480762; 1359893119; 2600822924; 528734635; 1541459225].

(** The bytes of a word, and the words of bytes, big-endian. *)
Definition be_bytes (n : nat) (x : Z) : list Z := map (fun i => Z.land (Z.shiftr x (8 * Z.of_nat i)) 255) (rev (seq 0 n)).
Fixpoint be_words (bs : list Z) : list Z :=
  match bs with
  | a :: b :: c :: d :: rest => Z.lor (Z.lor (Z.shiftl a 24) (Z.shiftl b 16)) (Z.lor (Z.shiftl c 8) d) :: be_words rest
  | _ => []
  end.

Definition sha_pad (bs : list Z) : list Z :=
  let n := Z.of_nat (length bs) in
  (bs ++ 128 :: repeat 0%Z (Z.to_nat ((55 - n) mod 64)) ++ be_bytes 8 (8 * n))%list.

(** The schedule, newest word first: [t] more words after the sixteen of the block. *)
Fixpoint sha_schedule (t : nat) (ws : list Z) : list Z :=
  match t with
  | O => ws
  | S t =>
    sha_schedule t (word_add (word_add (small_sigma1 (nth 1 ws 0)) (nth 6 ws 0)) (word_add (small_sigma0 (nth 14 ws 0)) (nth 15 ws 0)) :: ws)
  end.

Definition sha_round (v : list Z) (kw : Z * Z) : list Z :=
  match v with
  | [a; b; c; d; e; f; g; h] =>
    let t1 := word_add (word_add (word_add h (big_sigma1 e)) (word_add (sha_Ch e f g) (fst kw))) (snd kw) in
    let t2 := word_add (big_sigma0 a) (sha_Maj a b c) in
    [word_add t1 t2; a; b; c; word_add d t1; e; f; g]
  | _ => v
  end.
Definition sha_block (hs : list Z) (block : list Z) : list Z :=
  zip_with word_add hs (foldl sha_round hs (zip sha_K (rev (sha_schedule 48 (rev block))))).

Fixpoint sha_blocks (n : nat) (hs : list Z) (ws : list Z) : list Z :=
  match n with
  | O => hs
  | S n => sha_blocks n (sha_block hs (take 16 ws)) (drop 16 ws)
  end.

Definition string_bytes (s : string) : list Z := map byte_of (String.list_ascii_of_string s).

(** [hex.EncodeToString(sha256.Sum256(b))] *)
Definition sha256_hex (s : string) : string :=
  let ws := be_words (sha_pad (string_bytes s)) in
  foldr (fun w acc => hexn 8 w +:+ acc) "" (sha_blocks (Nat.div (length ws) 16) sha_H0 ws).

Example sha256_empty : sha256_hex "" = "e3b0c44298fc1c149afbf4c8996fb92427ae41e4649b934ca495991b7852b855".
Proof. vm_compute. reflexivity. Qed.
Example sha256_abc : sha256_hex "abc" = "ba7816bf8f01cfea414140de5dae2223b00361a396177a9cb410ff61f20015ad".
Proof. vm_compute. reflexivity. Qed.
Example sha256_two_blocks : sha256_hex "abcdbcdecdefdefgefghfghighijhijkijkljklmklmnlmnomnopnopq" =
  "248d6a61d20638b8e5c026930c3e6039a33ce45964ff2167f6ecedd419db06c1".
Proof. vm_compute. reflexivity. Qed.
