(* ===== verification/Utf8.v ===== *)
(** UTF-8 as [unicode/utf8] reads it, and the JSON strings [encoding/json] writes. *)
From Stdlib Require Import ZArith Lia Ascii.
From S2P Require Import Prelude GoStrings Ns.
Local Open Scope string_scope.
Local Open Scope Z_scope.

(** [utf8.RuneStart] *)
Definition RuneStart (c : ascii) : bool := negb (Z.land (byte_of c) 192 =? 128).

(** The ranges the bytes to come must be in; [[]] between two runes. *)
Definition utf8_first (b : Z) : option (list (Z * Z)) :=
  if b <? 128 then Some []
  else if (194 <=? b) && (b <=? 223) then Some [(128, 191)]
  else if b =? 224 then Some [(160, 191); (128, 191)]
  else if b =? 237 then Some [(128, 159); (128, 191)]
  else if (225 <=? b) && (b <=? 239) then Some [(128, 191); (128, 191)]
  else if b =? 240 then Some [(144, 191); (128, 191); (128, 191)]
  else if (241 <=? b) && (b <=? 243) then Some [(128, 191); (128, 191); (128, 191)]
  else if b =? 244 then Some [(128, 143); (128, 191); (128, 191)]
  else None.
Definition utf8_next (st : list (Z * Z)) (b : Z) : option (list (Z * Z)) :=
  match st with
  | [] => utf8_first b
  | (lo, hi) :: st => if (lo <=? b) && (b <=? hi) then Some st else None
  end.
Fixpoint utf8_run (st : list (Z * Z)) (s : string) : option (list (Z * Z)) :=
  match s with
  | "" => Some st
  | String c s => match utf8_next st (byte_of c) with Some st => utf8_run st s | None => None end
  end.
(** [utf8.ValidString] *)
Definition utf8_valid (s : string) : bool := match utf8_run [] s with Some [] => true | _ => false end.

(** ** JSON strings *)

Definition dquote : string := String (ascii_of_nat 34) "".
Definition backslash : string := String (ascii_of_nat 92) "".
Definition json_unicode (z : Z) : string := backslash +:+ "u" +:+ hexn 4 z.
(** An ASCII byte; ['<'], ['>'] and ['&'] are escaped too. *)
Definition json_ascii (c : ascii) : string :=
  let b := byte_of c in
  if b =? 34 then backslash +:+ dquote
  else if b =? 92 then backslash +:+ backslash
  else if b =? 8 then backslash +:+ "b"
  else if b =? 12 then backslash +:+ "f"
  else if b =? 10 then backslash +:+ "n"
  else if b =? 13 then backslash +:+ "r"
  else if b =? 9 then backslash +:+ "t"
  else if (b <? 32) || (b =? 60) || (b =? 62) || (b =? 38) then json_unicode b
  else String c "".
Fixpoint json_body (s : string) : string :=
  match s with
  | "" => ""
  | String c1 r1 =>
    if byte_of c1 <? 128 then json_ascii c1 +:+ json_body r1 else
    let bad := json_unicode 65533 +:+ json_body r1 in
    match r1 with
    | "" => bad
    | String c2 r2 =>
      if utf8_valid (String c1 (String c2 "")) then String c1 (String c2 (json_body r2)) else
      match r2 with
      | "" => bad
      | String c3 r3 =>
        if utf8_valid (String c1 (String c2 (String c3 "")))
        then if (byte_of c1 =? 226) && (byte_of c2 =? 128) && ((byte_of c3 =? 168) || (byte_of c3 =? 169))
             then json_unicode (8192 + byte_of c3 - 128) +:+ json_body r3
             else String c1 (String c2 (String c3 (json_body r3)))
        else
        match r3 with
        | "" => bad
        | String c4 r4 =>
          if utf8_valid (String c1 (String c2 (String c3 (String c4 "")))) then String c1 (String c2 (String c3 (String c4 (json_body r4)))) else bad
        end
      end
    end
  end.
Definition json_string (s : string) : string := dquote +:+ json_body s +:+ dquote.

Example utf8_euro : utf8_valid (String (ascii_of_nat 226) (String (ascii_of_nat 130) (String (ascii_of_nat 172) ""))) = true.
Proof. reflexivity. Qed.
Example json_escapes : json_string ("a<" +:+ dquote +:+ String (ascii_of_nat 255) "") =
  dquote +:+ "a" +:+ backslash +:+ "u003c" +:+ backslash +:+ dquote +:+ backslash +:+ "ufffd" +:+ dquote.
Proof. reflexivity. Qed.

(** ** Cut texts *)

Lemma utf8_run_app st s t : utf8_run st (s +:+ t) = match utf8_run st s with Some st => utf8_run st t | None => None end.
Proof. revert st. induction s as [|c s IH]; intros st; [done|]. cbn. destruct (utf8_next st (byte_of c)); [apply IH|done]. Qed.

Lemma RuneStart_spec c : RuneStart c = negb ((128 <=? byte_of c) && (byte_of c <? 192)).
Proof. destruct c as [[] [] [] [] [] [] [] []]; reflexivity. Qed.

(** A byte that no rune goes on with is refused between two runes. *)
Lemma utf8_first_continuation b : 128 <= b < 192 -> utf8_first b = None.
Proof.
  intros Hb. unfold utf8_first. destruct (Z.ltb_spec b 128); [lia|]. destruct (Z.leb_spec 194 b); [lia|]. cbn.
  destruct (Z.eqb_spec b 224); [lia|]. destruct (Z.eqb_spec b 237); [lia|]. destruct (Z.leb_spec 225 b); [lia|]. cbn.
  destruct (Z.eqb_spec b 240); [lia|]. destruct (Z.leb_spec 241 b); [lia|]. cbn. by destruct (Z.eqb_spec b 244); [lia|].
Qed.
(** After the first byte of a longer rune more bytes are due. *)
Lemma utf8_first_lead b st : 128 <= b -> utf8_first b = Some st -> st <> [].
Proof.
  intros Hb. unfold utf8_first. destruct (Z.ltb_spec b 128); [lia|]. by repeat (case_match; [intros [= <-]; done|]).
Qed.

(** What is due is continuation bytes. *)
Definition due_ok (st : list (Z * Z)) : Prop := Forall (fun p => 128 <= fst p /\ snd p <= 191) st.
Lemma due_first b st : utf8_first b = Some st -> due_ok st.
Proof.
  unfold utf8_first, due_ok. repeat case_match; intros [= <-]; repeat constructor; cbn; lia.
Qed.
Lemma due_run st s st' : due_ok st -> utf8_run st s = Some st' -> due_ok st'.
Proof.
  revert st. induction s as [|c s IH]; intros st Hst; cbn; [by intros [= <-]|].
  destruct (utf8_next st (byte_of c)) as [st1|] eqn:En; [|done]. apply IH. destruct st as [|[lo hi] st]; cbn in En; [by eapply due_first|].
  destruct (_ && _); [|done]. injection En as <-. by apply Forall_cons in Hst as [_ Hst].
Qed.
Lemma utf8_next_start st c st' : due_ok st -> RuneStart c = true -> utf8_next st (byte_of c) = Some st' -> st = [].
Proof.
  intros Hst Hc. rewrite RuneStart_spec in Hc. destruct st as [|[lo hi] st]; [done|]. cbn. apply Forall_cons in Hst as [[Hlo Hhi] _]. cbn in Hlo, Hhi.
  destruct (Z.leb_spec lo (byte_of c)), (Z.leb_spec (byte_of c) hi); cbn; try done. intros _.
  destruct (Z.leb_spec 128 (byte_of c)), (Z.ltb_spec (byte_of c) 192); cbn in Hc; (done || lia).
Qed.
