(* ===== verification/GoPath.v ===== *)
(** Slash-separated paths as Go's [path] and [path/filepath] have them on Unix: [Clean],
    [Dir], [Ext].  A clean path is its segments. *)
From Stdlib Require Import ZArith Lia Ascii.
From S2P Require Import Prelude GoStrings.
Local Open Scope string_scope.

(** [Clean]: empty and ["."] segments go, [".."] takes the segment before it; [out] is
    what is kept, the last segment first. *)
Fixpoint clean_segments (rooted : bool) (out segs : list string) : list string :=
  match segs with
  | [] => reverse out
  | s :: segs =>
    if bool_decide (s = "") || bool_decide (s = ".") then clean_segments rooted out segs
    else if bool_decide (s = "..") then
      match out with
      | top :: rest => if bool_decide (top = "..") then clean_segments rooted (".." :: out) segs else clean_segments rooted rest segs
      | [] => if rooted then clean_segments rooted [] segs else clean_segments rooted [".."] segs
      end
    else clean_segments rooted (s :: out) segs
  end.
Definition is_rooted (p : string) : bool := has_prefix p "/".
Definition Clean (p : string) : string :=
  let segs := clean_segments (is_rooted p) [] (split_at "/" p) in
  if is_rooted p then "/" +:+ join "/" segs else match segs with [] => "." | _ => join "/" segs end.

(** [Dir]: all but the last element, cleaned. *)
Definition Dir (p : string) : string :=
  match cut_last "/" p with
  | Some (dir, _) => Clean (dir +:+ "/")
  | None => Clean ""
  end.

(** [Ext]: from the last dot of the last element. *)
Definition Ext (p : string) : string :=
  let base := match cut_last "/" p with Some (_, base) => base | None => p end in
  match cut_last "." base with Some (_, ext) => "." +:+ ext | None => "" end.

Example clean_runs :
  map Clean [""; "/"; "//a//b/"; "/a/../../b"; "a/./b/.."; "../../a"; "a/.."; "/.."; "/a/b/c.tar.gz"] =
  ["."; "/"; "/a/b"; "/b"; "a"; "../../a"; "."; "/"; "/a/b/c.tar.gz"] /\
  map Dir ["/a/b"; "/a"; "/"; "a"; ""; "a/b/"] = ["/a"; "/"; "/"; "."; "."; "a/b"] /\
  map Ext ["/a/b.c/d"; "/a/x.tar.gz"; ".bashrc"; "/a.b/"] = [""; ".gz"; ".bashrc"; ""].
Proof. vm_compute. done. Qed.

(** ** Clean paths from the root *)

(** A segment a clean path may have. *)
Definition seg_ok (s : string) : Prop := s_all (notc "/") s = true /\ s <> "" /\ s <> "." /\ s <> "..".
Definition abs (segs : list string) : string := "/" +:+ join "/" segs.

Lemma clean_segments_ok segs : forall out, Forall (fun s => s_all (notc "/") s = true) segs -> Forall seg_ok out ->
  Forall seg_ok (clean_segments true out segs).
Proof.
  induction segs as [|s segs IH]; intros out Hs Ho; cbn [clean_segments].
  - apply Forall_forall. intros x Hx. rewrite elem_of_reverse in Hx. rewrite Forall_forall in Ho. by apply Ho.
  - apply Forall_cons in Hs as [Hs1 Hs]. case_bool_decide as E1; [by apply IH|]. case_bool_decide as E2; [by apply IH|]. cbn [orb].
    case_bool_decide as E3; [|apply IH; [done|constructor; [done|done]]]. destruct out as [|top rest]; [by apply IH|].
    apply Forall_cons in Ho as [(H1 & H2 & H3 & H4) Ho]. rewrite bool_decide_false by done. by apply IH.
Qed.
Lemma clean_segments_id segs : forall out, Forall seg_ok segs -> clean_segments true out segs = (reverse out ++ segs)%list.
Proof.
  induction segs as [|s segs IH]; intros out Hs; cbn [clean_segments]; [by rewrite app_nil_r|].
  apply Forall_cons in Hs as [(H1 & H2 & H3 & H4) Hs]. rewrite !bool_decide_false by done. cbn [orb]. rewrite IH by done.
  rewrite reverse_cons, <- app_assoc. done.
Qed.

Lemma split_at_no c s : Forall (fun t => s_all (notc c) t = true) (split_at c s).
Proof.
  induction s as [|d s IH]; cbn [split_at]; [by repeat constructor|]. destruct (isc c d) eqn:E; [by constructor|].
  assert (Hd : notc c d = true) by (unfold notc; by rewrite E).
  destruct (split_at c s) as [|w ws]; [by repeat constructor; cbn [s_all]; rewrite Hd|].
  apply Forall_cons in IH as [Hw Hws]. constructor; [|done]. cbn [s_all]. by rewrite Hd.
Qed.

(** [Clean] of a rooted path is rooted and clean. *)
Lemma Clean_abs p : is_rooted p = true -> exists segs, Forall seg_ok segs /\ Clean p = abs segs.
Proof.
  intros Hr. unfold Clean. rewrite Hr. eexists. split; [|reflexivity]. apply clean_segments_ok; [apply split_at_no|constructor].
Qed.

Lemma rooted_slash x : is_rooted ("/" +:+ x) = true.
Proof. by destruct x. Qed.
Lemma abs_rooted segs : is_rooted (abs segs) = true.
Proof. unfold is_rooted, has_prefix, abs. cbn. by destruct (join "/" segs). Qed.

Lemma split_abs segs : Forall seg_ok segs -> split_at "/" (abs segs) = "" :: match segs with [] => [""] | _ => segs end.
Proof.
  intros Hs. unfold abs. change ("/" +:+ join "/" segs) with ("" +:+ String "/"%char (join "/" segs)). rewrite split_at_app by done. f_equal.
  destruct segs as [|s segs]; [done|]. apply split_at_join; [done|]. eapply Forall_impl; [exact Hs|]. by intros ? (? & _).
Qed.
Lemma Clean_id segs : Forall seg_ok segs -> Clean (abs segs) = abs segs.
Proof.
  intros Hs. unfold Clean. rewrite abs_rooted, split_abs by done. cbn [clean_segments]. rewrite bool_decide_true by done. cbn [orb].
  destruct segs as [|s segs]; [done|]. by rewrite clean_segments_id.
Qed.

Lemma join_cons a segs : segs <> [] -> join "/" (a :: segs) = a +:+ "/" +:+ join "/" segs.
Proof. by destruct segs. Qed.
Lemma join_snoc segs s : segs <> [] -> join "/" (segs ++ [s])%list = join "/" segs +:+ "/" +:+ s.
Proof.
  induction segs as [|a segs IH]; [done|]. intros _. destruct segs as [|b segs]; [done|].
  change ((a :: b :: segs) ++ [s])%list with (a :: ((b :: segs) ++ [s]))%list.
  rewrite join_cons, (join_cons a (b :: segs)), IH by done. by rewrite !s_app_assoc.
Qed.
Lemma abs_snoc segs s : abs (segs ++ [s])%list = (match segs with [] => "" | _ => abs segs end) +:+ "/" +:+ s.
Proof. unfold abs. destruct segs as [|a segs]; [done|]. rewrite join_snoc by done. done. Qed.

(** The parent of a clean path. *)
Lemma Dir_abs segs s : Forall seg_ok (segs ++ [s])%list -> Dir (abs (segs ++ [s])%list) = abs segs.
Proof.
  intros Hs. apply Forall_app in Hs as [Hs [(Hn & _) _]%Forall_cons]. unfold Dir. rewrite abs_snoc. change ("/" +:+ s) with (String "/"%char s).
  rewrite cut_last_app by done. destruct segs as [|a segs]; [done|].
  assert (E : split_at "/" (abs (a :: segs) +:+ "/") = "" :: (a :: segs) ++ [""]).
  { unfold abs. rewrite s_app_assoc. change ("/" +:+ (join "/" (a :: segs) +:+ "/")) with ("" +:+ String "/"%char (join "/" (a :: segs) +:+ "/")).
    rewrite split_at_app by done. f_equal. change (join "/" (a :: segs) +:+ "/") with (join "/" (a :: segs) +:+ "/" +:+ "").
    rewrite <- (join_snoc (a :: segs) "") by done. apply split_at_join; [by destruct segs|].
    apply Forall_app. split; [|by repeat constructor]. eapply Forall_impl; [exact Hs|]. by intros ? (? & _). }
  unfold Clean. assert (Hr : is_rooted (abs (a :: segs) +:+ "/") = true) by (unfold abs; rewrite s_app_assoc; apply rooted_slash).
  rewrite Hr, E. cbn [clean_segments]. rewrite bool_decide_true by done. cbn [orb]. unfold abs. f_equal. f_equal.
  change ((a :: segs) ++ [""])%list with (a :: segs ++ [""])%list.
  assert (G : forall l out, Forall seg_ok l -> clean_segments true out (l ++ [""])%list = (reverse out ++ l)%list).
  { induction l as [|x l IH]; intros out Hl; cbn [clean_segments app]; [cbn; by rewrite app_nil_r|].
    apply Forall_cons in Hl as [(H1 & H2 & H3 & H4) Hl]. rewrite !bool_decide_false by done. cbn [orb]. rewrite IH by done.
    rewrite reverse_cons, <- app_assoc. done. }
  apply (G (a :: segs) []). exact Hs.
Qed.
Lemma abs_inj a b : Forall seg_ok a -> Forall seg_ok b -> abs a = abs b -> a = b.
Proof.
  intros Ha Hb E. pose proof (split_abs a Ha) as Sa. rewrite E, (split_abs b Hb) in Sa. injection Sa as Sa.
  destruct a as [|x a], b as [|y b]; try done.
  - injection Sa as -> ->. apply Forall_cons in Hb as [(_ & ? & _) _]. done.
  - injection Sa as <- <-. apply Forall_cons in Ha as [(_ & ? & _) _]. done.
Qed.

(** ** Cleaning twice *)

(** What a clean relative path may be: some [".."], then segments. *)
Definition rel_clean (segs : list string) : Prop := exists n l, segs = (replicate n ".." ++ l)%list /\ Forall seg_ok l.

Lemma clean_rel_shape segs : forall n l, Forall (fun s => s_all (notc "/") s = true) segs -> Forall seg_ok l ->
  rel_clean (clean_segments false (reverse l ++ replicate n "..")%list segs).
Proof.
  induction segs as [|s segs IH]; intros n l Hs Hl; cbn [clean_segments].
  - exists n, l. split; [|done]. rewrite reverse_app, reverse_involutive. f_equal. apply reverse_replicate.
  - apply Forall_cons in Hs as [Hs1 Hs]. case_bool_decide as E1; [by apply IH|]. case_bool_decide as E2; [by apply IH|]. cbn [orb].
    case_bool_decide as E3.
    + subst s. destruct l as [|x l] using rev_ind.
      * cbn. destruct n as [|n]; cbn [replicate]; [apply (IH 1%nat []); done|]. rewrite bool_decide_true by done.
        apply (IH (S (S n)) []); done.
      * rewrite reverse_snoc. cbn [app]. apply Forall_app in Hl as [Hl [(H1 & H2 & H3 & H4) _]%Forall_cons].
        rewrite bool_decide_false by done. by apply IH.
    + specialize (IH n (l ++ [s])%list). rewrite reverse_snoc in IH. apply IH; [done|]. apply Forall_app. split; [done|]. by repeat constructor.
Qed.
Lemma clean_rel_ups n : forall l m, Forall seg_ok l ->
  clean_segments false (replicate m "..") (replicate n ".." ++ l)%list = (replicate (m + n) ".." ++ l)%list.
Proof.
  induction n as [|n IH]; intros l m Hl.
  - cbn [replicate app]. rewrite Nat.add_0_r.
    assert (G : forall l out, Forall seg_ok l -> clean_segments false out l = (reverse out ++ l)%list).
    { clear. induction l as [|x l IH]; intros out Hl; cbn [clean_segments]; [by rewrite app_nil_r|].
      apply Forall_cons in Hl as [(H1 & H2 & H3 & H4) Hl]. rewrite !bool_decide_false by done. cbn [orb]. rewrite IH by done.
      rewrite reverse_cons, <- app_assoc. done. }
    rewrite G by done. f_equal. apply reverse_replicate.
  - cbn [replicate app clean_segments]. rewrite !(bool_decide_false (".." = _)) by done. cbn [orb]. rewrite bool_decide_true by done.
    destruct m as [|m]; [apply (IH l 1%nat Hl)|]. cbn [replicate]. rewrite bool_decide_true by done.
    rewrite <- Nat.add_succ_comm. apply (IH l (S (S m)) Hl).
Qed.

Lemma rel_no_slash segs : rel_clean segs -> Forall (fun s => s_all (notc "/") s = true) segs.
Proof.
  intros (n & l & -> & Hl). apply Forall_app. split.
  - apply Forall_forall. intros x Hx. apply elem_of_replicate in Hx as [-> _]. done.
  - eapply Forall_impl; [exact Hl|]. by intros ? (? & _).
Qed.
Lemma rooted_char c x : is_rooted (String c x) = isc "/" c.
Proof.
  unfold is_rooted, has_prefix, isc. cbn [String.prefix]. destruct (ascii_dec "/" c) as [E|E].
  - rewrite bool_decide_true by done. by destruct x.
  - by rewrite bool_decide_false.
Qed.
Lemma rel_head segs s : rel_clean (s :: segs) -> is_rooted s = false /\ s <> "".
Proof.
  intros (n & l & E & Hl). destruct n as [|n]; cbn in E.
  - destruct l as [|x l]; [done|]. injection E as -> ->. apply Forall_cons in Hl as [(H1 & H2 & _) _]. split; [|done].
    destruct x as [|c x]; [done|]. rewrite rooted_char. cbn [s_all] in H1. apply andb_true_iff in H1 as [H1 _].
    unfold notc in H1. by apply negb_true_iff in H1.
  - by injection E as -> _.
Qed.

Lemma Clean_idem p : Clean (Clean p) = Clean p.
Proof.
  destruct (is_rooted p) eqn:Hr.
  - destruct (Clean_abs p Hr) as (segs & Hs & ->). by apply Clean_id.
  - assert (Hc : rel_clean (clean_segments false [] (split_at "/" p))) by (apply (clean_rel_shape _ 0 []); [apply split_at_no|constructor]).
    unfold Clean at 2 3. rewrite Hr. destruct (clean_segments false [] (split_at "/" p)) as [|s segs] eqn:E; [done|].
    unfold Clean. assert (Hr' : is_rooted (join "/" (s :: segs)) = false).
    { destruct (rel_head _ _ Hc) as [Hs Hne]. destruct segs as [|t segs]; [done|]. rewrite join_cons by done.
      destruct s as [|c s]; [done|]. change (is_rooted (String c (s +:+ "/" +:+ join "/" (t :: segs))) = false).
      by rewrite rooted_char in *. }
    rewrite Hr', split_at_join by (done || by apply rel_no_slash).
    destruct Hc as (n & l & El & Hl). pose proof (clean_rel_ups n l 0 Hl) as U. cbn [replicate Nat.add] in U. rewrite <- El in U. by rewrite U.
Qed.
