(* ===== verification/Kv.v ===== *)
(** The key-value store [github.com/lynkdb/kvgo] as the zone code uses it.  Its
    implementation is not part of the repository: [Kv] lists the operations and
    [KvLaws] what the zone code relies on; [KvTtl] has the passing of time and the
    deadlines of records.  [mem_Kv] and, with deadlines, [ttl_Kv] are stores that have the
    laws. *)
From Stdlib Require Import ZArith Lia Sorted.
From S2P Require Import Prelude GoStrings.
Local Open Scope string_scope.
Local Open Scope Z_scope.

(** The status of a reply. *)
Inductive kv_reply (A : Type) : Type :=
| KvOk (a : A)
| KvNotFound
| KvErr (msg : string).
Arguments KvOk {A} a.
Arguments KvNotFound {A}.
Arguments KvErr {A} msg.

(** An item: [Meta.Version], and the value as it decodes, [None] if it does not. *)
Record kv_item (V : Type) := Item { it_version : Z; it_value : option V }.
Arguments Item {V} it_version it_value.
Arguments it_version {V} k.
Arguments it_value {V} k.

(** Writer options: [SetPrevVersion] (0: unset), [SetCreateOnly], [SetTTL] in ms. *)
Record kv_opts := { prev_version : Z; create_only : bool; ttl_ms : Z }.
Definition kv_default : kv_opts := {| prev_version := 0; create_only := false; ttl_ms := 0 |}.

Class Kv (S V : Type) := {
  kv_read : S -> string -> kv_reply (kv_item V);
  kv_write : S -> kv_opts -> string -> V -> S * kv_reply Z;
  kv_delete : S -> string -> S * kv_reply unit;
  (* NewRanger(lower, upper).SetLimit(n): ascending keys, more to follow or not *)
  kv_range : S -> string -> string -> Z -> kv_reply (list (string * kv_item V)) }.

Class KvLaws {S V} (K : Kv S V) := {
  kv_write_ok : forall s o k v s' n, kv_write s o k v = (s', KvOk n) ->
    kv_read s' k = KvOk (Item n (Some v)) /\
    (forall k', k' <> k -> kv_read s' k' = kv_read s k') /\
    0 < n /\
    (forall it, kv_read s k = KvOk it -> it_version it < n) /\
    (create_only o = true -> kv_read s k = KvNotFound) /\
    (0 < prev_version o -> exists it : kv_item V, kv_read s k = KvOk it /\ it_version it = prev_version o);
  kv_write_fail : forall s o k v s' r, kv_write s o k v = (s', r) ->
    (forall n, r <> KvOk n) -> forall k', kv_read s' k' = kv_read s k';
  kv_delete_ok : forall s k s' r, kv_delete s k = (s', r) ->
    (r = KvOk tt -> kv_read s' k = KvNotFound) /\
    (r <> KvOk tt -> kv_read s' k = kv_read s k) /\
    (forall k', k' <> k -> kv_read s' k' = kv_read s k');
  kv_delete_notfound : forall s k s', kv_delete s k = (s', KvNotFound) -> kv_read s k = KvNotFound }.

(** A store that refuses nothing: for what is done when no reply fails. *)
Class KvReliable {S V} (K : Kv S V) := {
  kv_write_total : forall s o k v, create_only o = false -> prev_version o <= 0 -> exists s' n, kv_write s o k v = (s', KvOk n);
  kv_delete_total : forall s k, exists s', kv_delete s k = (s', KvOk tt) }.

(** The deleter with [SetPrevVersion] (0: unset). *)
Class KvDeletePrev {S V} (K : Kv S V) := {
  kv_delete_prev : S -> string -> Z -> S * kv_reply unit;
  kv_delete_prev_ok : forall s k n s' r, kv_delete_prev s k n = (s', r) ->
    (r = KvOk tt -> kv_read s' k = KvNotFound /\ (0 < n -> exists it : kv_item V, kv_read s k = KvOk it /\ it_version it = n)) /\
    (r <> KvOk tt -> kv_read s' k = kv_read s k) /\
    (forall k', k' <> k -> kv_read s' k' = kv_read s k') }.

(** Ranges [(lower, upper]] over the entries of a store, which are in the order of their
    keys.  A page may be shorter than its limit, but it is empty only at the end. *)
Definition in_range {V} (lo hi : string) (e : string * kv_item V) : Prop :=
  str_lt lo (fst e) = true /\ String.leb (fst e) hi = true.
#[export] Instance in_range_dec {V} lo hi (e : string * kv_item V) : Decision (in_range lo hi e).
Proof. apply and_dec; apply _. Defined.
Class KvRangeLaws {S V} (K : Kv S V) := {
  kv_entries : S -> list (string * kv_item V);
  kv_entries_sorted : forall s, StronglySorted (fun a b => str_lt (fst a) (fst b) = true) (kv_entries s);
  kv_entries_read : forall s k it, (k, it) ∈ kv_entries s <-> kv_read s k = KvOk it;
  kv_range_page : forall s lo hi n items, 0 < n -> kv_range s lo hi n = KvOk items ->
    exists rest, filter (in_range lo hi) (kv_entries s) = (items ++ rest)%list /\ Z.of_nat (length items) <= n /\
      (items = [] -> rest = []);
  kv_range_none : forall s lo hi n, 0 < n -> kv_range s lo hi n = KvNotFound -> filter (in_range lo hi) (kv_entries s) = [] }.

(** Descending ranges [[lower, upper)] ([SetRevert]). *)
Class KvRevert (S V : Type) := {
  kv_revert : S -> string -> string -> Z -> kv_reply (list (string * kv_item V)) }.
Definition in_revert {V} (lo hi : string) (e : string * kv_item V) : Prop :=
  String.leb lo (fst e) = true /\ str_lt (fst e) hi = true.
#[export] Instance in_revert_dec {V} lo hi (e : string * kv_item V) : Decision (in_revert lo hi e).
Proof. apply and_dec; apply _. Defined.
Class KvRevertLaws {S V} {K : Kv S V} (RL : KvRangeLaws K) (R : KvRevert S V) := {
  kv_revert_page : forall s lo hi n items, 0 < n -> kv_revert s lo hi n = KvOk items ->
    exists rest, reverse (filter (in_revert lo hi) (kv_entries s)) = (items ++ rest)%list /\ Z.of_nat (length items) <= n /\
      (items = [] -> rest = []);
  kv_revert_none : forall s lo hi n, 0 < n -> kv_revert s lo hi n = KvNotFound -> filter (in_revert lo hi) (kv_entries s) = [] }.

Definition kv_ok {A} (r : kv_reply A) : bool := match r with KvOk _ => true | _ => false end.
Definition kv_notfound {A} (r : kv_reply A) : bool := match r with KvNotFound => true | _ => false end.

(** Times to live.  A write with [SetTTL] gives its key a deadline; one without leaves it
    none, or that of the record it replaces.  When the time of a deadline has come, the
    record is gone. *)
Class KvTtl (S V : Type) := {
  kv_clock : S -> Z;
  kv_deadline : S -> string -> option Z;
  kv_elapse : S -> Z -> S }.
Class KvTtlLaws {S V} (K : Kv S V) (T : KvTtl S V) := {
  kv_write_deadline : forall s o k v s' r, kv_write s o k v = (s', r) ->
    kv_clock s' = kv_clock s /\
    (forall k', k' <> k \/ kv_ok r = false -> kv_deadline s' k' = kv_deadline s k') /\
    (kv_ok r = true -> if 0 <? ttl_ms o then kv_deadline s' k = Some (kv_clock s + ttl_ms o)
                       else kv_deadline s' k = None \/ kv_deadline s' k = kv_deadline s k);
  kv_elapse_clock : forall s t, kv_clock (kv_elapse s t) = Z.max (kv_clock s) t;
  kv_elapse_gone : forall s t k d, kv_deadline s k = Some d -> d <= kv_clock (kv_elapse s t) ->
    kv_read (kv_elapse s t) k = KvNotFound;
  kv_elapse_kept : forall s t k, (forall d, kv_deadline s k = Some d -> kv_clock (kv_elapse s t) < d) ->
    kv_read (kv_elapse s t) k = kv_read s k /\ kv_deadline (kv_elapse s t) k = kv_deadline s k }.

(** The upper bound of a range over a prefix: [append(offset, 0xff)]. *)
Definition range_end (offset : string) : string := offset +:+ String (Ascii.ascii_of_nat 255) "".


(** [ErrorMessage()] of a reply that is not OK. *)
Definition kv_msg {A} (r : kv_reply A) : string :=
  match r with KvOk _ => "" | KvNotFound => "NotFound" | KvErr m => m end.

(** ** A store in memory *)

Record mem_store (V : Type) := { mem_next : Z; mem_map : gmap string (kv_item V) }.
Arguments mem_next {V} m.
Arguments mem_map {V} m.

Definition mem_empty {V} : mem_store V := {| mem_next := 1; mem_map := ∅ |}.

Definition mem_read {V} (s : mem_store V) (k : string) : kv_reply (kv_item V) :=
  match mem_map s !! k with Some it => KvOk it | None => KvNotFound end.

(** The next version is above every version handed out. *)
Definition mem_version {V} (s : mem_store V) (k : string) : Z :=
  match mem_map s !! k with
  | Some it => Z.max (Z.max 1 (mem_next s)) (it_version it + 1)
  | None => Z.max 1 (mem_next s)
  end.

Definition mem_write {V} (s : mem_store V) (o : kv_opts) (k : string) (v : V) : mem_store V * kv_reply Z :=
  let cur := mem_map s !! k in
  if (create_only o && bool_decide (is_Some cur)) ||
     ((0 <? prev_version o) && negb (bool_decide (option_map it_version cur = Some (prev_version o))))
  then (s, KvErr "version conflict")
  else let n := mem_version s k in
       ({| mem_next := n + 1; mem_map := <[k := Item n (Some v)]> (mem_map s) |}, KvOk n).

Definition mem_delete {V} (s : mem_store V) (k : string) : mem_store V * kv_reply unit :=
  ({| mem_next := mem_next s; mem_map := delete k (mem_map s) |}, KvOk tt).

Definition key_le {A} (x y : string * A) : Prop := String.leb (fst x) (fst y) = true.
#[export] Instance key_le_dec {A} (x y : string * A) : Decision (key_le x y).
Proof. unfold key_le. apply _. Defined.
Definition mem_entries {V} (s : mem_store V) : list (string * kv_item V) := merge_sort key_le (map_to_list (mem_map s)).
Definition mem_range {V} (s : mem_store V) (lo hi : string) (n : Z) : kv_reply (list (string * kv_item V)) :=
  KvOk (take (Z.to_nat n) (filter (in_range lo hi) (mem_entries s))).

#[export] Instance mem_Kv V : Kv (mem_store V) V :=
  {| kv_read := mem_read; kv_write := mem_write; kv_delete := mem_delete; kv_range := mem_range |}.

#[export] Instance mem_KvLaws V : KvLaws (mem_Kv V).
Proof.
  split; cbn.
  - intros s o k v s' n. unfold mem_write, mem_read, mem_version.
    destruct (_ || _) eqn:E; [done|]. intros [= <- <-]. cbn.
    apply orb_false_iff in E as [E1 E2].
    rewrite lookup_insert_eq. split_and!; [done| | | | |].
    + intros k' Hk. by rewrite lookup_insert_ne.
    + case_match; lia.
    + intros it. case_match; [|done]. intros [= <-]. lia.
    + intros Hc. rewrite Hc in E1. simpl in E1. apply bool_decide_eq_false in E1.
      destruct (mem_map s !! k); [|done]. exfalso. by apply E1.
    + intros Hp. apply Z.ltb_lt in Hp. rewrite Hp in E2. simpl in E2.
      apply negb_false_iff, bool_decide_eq_true in E2.
      destruct (mem_map s !! k) as [it|]; [|done]. exists it. by injection E2.
  - intros s o k v s' r. unfold mem_write. destruct (_ || _).
    + by intros [= <- <-].
    + intros [= <- <-] H. by destruct (H (mem_version s k)).
  - intros s k s' r [= <- <-]. unfold mem_read. cbn. rewrite lookup_delete_eq.
    split_and!; [done|done|]. intros k' Hk. by rewrite lookup_delete_ne.
  - done.
Qed.

Definition mem_delete_prev {V} (s : mem_store V) (k : string) (n : Z) : mem_store V * kv_reply unit :=
  if (0 <? n) && negb (bool_decide (option_map it_version (mem_map s !! k) = Some n)) then (s, KvErr "version conflict") else mem_delete s k.
#[export] Instance mem_KvDeletePrev V : KvDeletePrev (mem_Kv V).
Proof.
  exists mem_delete_prev. intros s k n s' r. unfold mem_delete_prev. destruct (_ && _) eqn:C; [by intros [= <- <-]|].
  intros [= <- <-]. cbn. unfold mem_read. cbn. rewrite lookup_delete_eq. split_and!; [|done|].
  - intros _. split; [done|]. intros Hn. apply andb_false_iff in C as [C|C]; [by apply Z.ltb_ge in C; lia|].
    apply negb_false_iff, bool_decide_eq_true in C. destruct (mem_map s !! k) as [it|]; [|done]. exists it. by injection C.
  - intros k' Hk. by rewrite lookup_delete_ne.
Defined.

#[export] Instance mem_KvReliable V : KvReliable (mem_Kv V).
Proof.
  split; cbn; [|by eauto]. intros s o k v Ho Hp. unfold mem_write. rewrite Ho. destruct (Z.ltb_spec 0 (prev_version o)); [lia|]. cbn. eauto.
Qed.

#[export] Instance key_le_total A : Total (@key_le A).
Proof.
  intros x y. unfold key_le. destruct (String.leb (fst x) (fst y)) eqn:E; [by left|right].
  unfold String.leb in *. rewrite String.compare_antisym. by destruct (String.compare (fst x) (fst y)).
Qed.
#[export] Instance key_le_trans A : Transitive (@key_le A).
Proof.
  intros x y z. unfold key_le. rewrite !str_le_lt. intros [E1|H1] [E2|H2]; [left; congruence|right; by rewrite E1|right; by rewrite <- E2|].
  right. by apply str_lt_trans with (fst y).
Qed.

Lemma mem_entries_perm {V} (s : mem_store V) : mem_entries s ≡ₚ map_to_list (mem_map s).
Proof. apply merge_sort_Permutation. Qed.

(** A page that is the start of the items there are. *)
Lemma take_page {A} n (l : list A) : 0 < n -> exists rest, l = (take (Z.to_nat n) l ++ rest)%list /\
  Z.of_nat (length (take (Z.to_nat n) l)) <= n /\ (take (Z.to_nat n) l = [] -> rest = []).
Proof.
  intros Hn. exists (drop (Z.to_nat n) l). split; [by rewrite take_drop|]. rewrite length_take. split; [lia|].
  intros E. destruct l; [by rewrite drop_nil|]. destruct (Z.to_nat n) eqn:En; [lia|done].
Qed.

#[export] Instance mem_KvRangeLaws V : KvRangeLaws (mem_Kv V).
Proof.
  refine {| kv_entries := mem_entries |}.
  - intros s. pose proof (StronglySorted_merge_sort key_le (map_to_list (mem_map s))) as Hs. fold (mem_entries s) in Hs.
    assert (Hn : NoDup (map fst (mem_entries s))) by (rewrite mem_entries_perm; apply NoDup_fst_map_to_list).
    revert Hn. induction Hs as [|x l _ IH Hx]; [constructor|]. cbn. intros [Hnx Hn]%NoDup_cons. constructor; [by apply IH|].
    rewrite Forall_forall in Hx |- *. intros y Hy. specialize (Hx y Hy). unfold key_le in Hx. apply str_le_lt in Hx as [E|]; [|done].
    destruct Hnx. rewrite E. by apply (list_elem_of_fmap_2 fst).
  - intros s k it. rewrite mem_entries_perm, elem_of_map_to_list. cbn. unfold mem_read.
    destruct (mem_map s !! k); naive_solver.
  - intros s lo hi n items Hn [= <-]. by apply take_page.
  - done.
Defined.

#[export] Instance mem_KvRevert V : KvRevert (mem_store V) V :=
  {| kv_revert s lo hi n := KvOk (take (Z.to_nat n) (reverse (filter (in_revert lo hi) (mem_entries s)))) |}.
#[export] Instance mem_KvRevertLaws V : KvRevertLaws (mem_KvRangeLaws V) (mem_KvRevert V).
Proof. split; [|done]. intros s lo hi n items Hn [= <-]. by apply take_page. Qed.

(** ** A store in memory with deadlines *)

Record ttl_store (V : Type) := { tt_mem : mem_store V; tt_deadlines : gmap string Z; tt_clock : Z }.
Arguments tt_mem {V} t.
Arguments tt_deadlines {V} t.
Arguments tt_clock {V} t.

Definition ttl_write {V} (s : ttl_store V) (o : kv_opts) (k : string) (v : V) : ttl_store V * kv_reply Z :=
  let '(m, r) := mem_write (tt_mem s) o k v in
  ({| tt_mem := m; tt_clock := tt_clock s;
      tt_deadlines := if kv_ok r then if 0 <? ttl_ms o then <[k := tt_clock s + ttl_ms o]> (tt_deadlines s) else delete k (tt_deadlines s)
                      else tt_deadlines s |}, r).
Definition ttl_delete {V} (s : ttl_store V) (k : string) : ttl_store V * kv_reply unit :=
  let '(m, r) := mem_delete (tt_mem s) k in
  ({| tt_mem := m; tt_clock := tt_clock s; tt_deadlines := delete k (tt_deadlines s) |}, r).
Definition ttl_elapse {V} (s : ttl_store V) (t : Z) : ttl_store V :=
  let now := Z.max (tt_clock s) t in
  let dead := filter (fun kd => kd.2 <= now) (tt_deadlines s) in
  {| tt_mem := {| mem_next := mem_next (tt_mem s); mem_map := mem_map (tt_mem s) ∖ ((fun _ => Item 0 None) <$> dead) |};
     tt_clock := now; tt_deadlines := tt_deadlines s ∖ dead |}.

#[export] Instance ttl_Kv V : Kv (ttl_store V) V | 5 :=
  {| kv_read s := mem_read (tt_mem s); kv_write := ttl_write; kv_delete := ttl_delete; kv_range s := mem_range (tt_mem s) |}.
#[export] Instance ttl_KvTtl V : KvTtl (ttl_store V) V :=
  {| kv_clock := tt_clock; kv_deadline s k := tt_deadlines s !! k; kv_elapse := ttl_elapse |}.

#[export] Instance ttl_KvLaws V : KvLaws (ttl_Kv V) | 5.
Proof.
  split; cbn.
  - intros s o k v s' n. unfold ttl_write. destruct (mem_write _ _ _ _) as [m r] eqn:E. intros [= <- ->]. exact (kv_write_ok (tt_mem s) o k v m n E).
  - intros s o k v s' r. unfold ttl_write. destruct (mem_write _ _ _ _) as [m r'] eqn:E. intros [= <- ->]. exact (kv_write_fail (tt_mem s) o k v m r E).
  - intros s k s' r [= <- <-]. exact (kv_delete_ok (tt_mem s) k _ _ eq_refl).
  - done.
Qed.

Lemma dead_lookup {V} (s : ttl_store V) now k :
  (((fun _ => Item (V := V) 0 None) <$> filter (fun kd => kd.2 <= now) (tt_deadlines s)) !! k = None) <->
  (forall d, tt_deadlines s !! k = Some d -> now < d).
Proof.
  rewrite lookup_fmap, fmap_None, map_lookup_filter_None. cbn. split.
  - intros [E|Hn] d Ed; [congruence|]. specialize (Hn d Ed). lia.
  - intros H. right. intros d Ed. specialize (H d Ed). lia.
Qed.

#[export] Instance ttl_KvTtlLaws V : KvTtlLaws (ttl_Kv V) (ttl_KvTtl V).
Proof.
  split; cbn.
  - intros s o k v s' r. unfold ttl_write. destruct (mem_write _ _ _ _) as [m r'] eqn:E. intros [= <- ->]. cbn. split; [done|]. split.
    + intros k' [Hne|Hr]; [|by rewrite Hr]. destruct (kv_ok r); [|done].
      destruct (0 <? ttl_ms o); [by rewrite lookup_insert_ne|by rewrite lookup_delete_ne].
    + intros ->. destruct (0 <? ttl_ms o); [by rewrite lookup_insert_eq|left; by rewrite lookup_delete_eq].
  - done.
  - intros s t k d Hd Hle. unfold mem_read, ttl_elapse. cbn. rewrite (proj2 (lookup_difference_None _ _ _)); [done|]. right.
    apply not_eq_None_Some. rewrite dead_lookup. intros H. specialize (H d Hd). lia.
  - intros s t k Hk. unfold mem_read, ttl_elapse. cbn. apply dead_lookup in Hk as Hd. split.
    + rewrite lookup_difference, Hd. done.
    + rewrite lookup_difference. rewrite lookup_fmap in Hd. by destruct (filter _ _ !! k).
Qed.
