(* ===== verification/Paging.v ===== *)
(** Loops over the pages of a range of the database, as the listings and the verification of
    the audit log write them: a page is fetched, its items are handled one by one, and the
    last key of the page bounds the next one.  Such a loop has no bound of its own; [fuel]
    bounds it here, and [page_loop_spec] shows that more than the entries of the range is
    enough, and what the loop comes to. *)
From Stdlib Require Import ZArith Lia Sorted Ascii.
From S2P Require Import Prelude GoStrings Kv.
Local Open Scope string_scope.
Local Open Scope Z_scope.

(** The end of a loop: all pages handled, an early answer, an error of the database, or no
    fuel left. *)
Inductive loop_end (St Ans : Type) :=
| Ended (st : St) | Answered (a : Ans) | Failed (st : St) (e : string) | Stopped (st : St).
Arguments Ended {St Ans} st.
Arguments Answered {St Ans} a.
Arguments Failed {St Ans} st e.
Arguments Stopped {St Ans} st.

Section loop.
Context {V St Ans : Type}.
Variable fetch : St -> string * string -> kv_reply (list (string * kv_item V)).
Variable advance : string -> string * string -> string * string.
Variable item : St -> string * kv_item V -> St + Ans.
Variable go : St -> bool.

Fixpoint fold_items (st : St) (items : list (string * kv_item V)) : St + Ans :=
  match items with
  | [] => inl st
  | e :: items => match item st e with inl st => fold_items st items | inr a => inr a end
  end.

Fixpoint page_loop (fuel : nat) (st : St) (b : string * string) : loop_end St Ans :=
  match fuel with
  | O => Stopped st
  | S fuel =>
    if negb (go st) then Ended st else
    match fetch st b with
    | KvNotFound => Ended st
    | KvErr e => Failed st e
    | KvOk items =>
      match last items with
      | None => Ended st
      | Some (key, _) =>
        match fold_items st items with
        | inr a => Answered a
        | inl st => page_loop fuel st (advance key b)
        end
      end
    end
  end.

Lemma fold_items_app st l1 l2 :
  fold_items st (l1 ++ l2)%list = match fold_items st l1 with inl st => fold_items st l2 | inr a => inr a end.
Proof. revert st. induction l1 as [|e l1 IH]; intros st; [done|]. cbn. destruct (item st e); [apply IH|done]. Qed.

(** [seq b]: the entries still to come within the bounds [b]. *)
Record pages_of (seq : string * string -> list (string * kv_item V)) : Prop := {
  page_fetched : forall st b items, go st = true -> fetch st b = KvOk items ->
    exists rest, seq b = (items ++ rest)%list /\ (items = [] -> rest = []) /\
      (forall k it, last items = Some (k, it) -> seq (advance k b) = rest);
  page_none : forall st b, go st = true -> fetch st b = KvNotFound -> seq b = [];
  page_read : forall st b e, go st = true -> fetch st b <> KvErr e }.

(** The loop handles every entry of its bounds, unless [go] stops it before. *)
Lemma page_loop_spec seq fuel st b : pages_of seq -> (length (seq b) < fuel)%nat ->
  (forall l1 l2 st', seq b = (l1 ++ l2)%list -> l2 <> [] -> fold_items st l1 = inl st' -> go st' = true) ->
  page_loop fuel st b = match fold_items st (seq b) with inl st => Ended st | inr a => Answered a end.
Proof.
  intros P. revert st b. induction fuel as [|fuel IH]; intros st b Hf Hgo; [lia|]. cbn [page_loop].
  destruct (go st) eqn:Eg; cbn [negb].
  - destruct (fetch st b) as [items| |e] eqn:Er; [| |by destruct (page_read _ P st b e Eg)].
    + destruct (page_fetched _ P _ _ _ Eg Er) as (rest & E & Hnil & Hafter).
      destruct (last items) as [[k it]|] eqn:El.
      * rewrite E, fold_items_app. destruct (fold_items st items) as [st'|a] eqn:Ef; [|done].
        rewrite IH; rewrite (Hafter k it eq_refl); [done| |].
        -- rewrite E, length_app in Hf. destruct items; [done|]. cbn in Hf. lia.
        -- intros l1 l2 st2 E2 Hl2 Hf2. apply (Hgo (items ++ l1)%list l2); [by rewrite E, E2, <- app_assoc|done|].
           by rewrite fold_items_app, Ef.
      * apply last_None in El as ->. rewrite E, Hnil by done. done.
    + by rewrite (page_none _ P _ _ Eg Er).
  - destruct (seq b) as [|e l] eqn:E; [done|]. rewrite (Hgo [] (e :: l) st) in Eg; done.
Qed.

(** A loop without answers and errors ends, with fuel or without. *)
Lemma page_loop_ends fuel st b : (forall st b e, fetch st b <> KvErr e) -> (forall st e a, item st e <> inr a) ->
  exists st', page_loop fuel st b = Ended st' \/ page_loop fuel st b = Stopped st'.
Proof.
  intros Hr Hi. revert st b. induction fuel as [|fuel IH]; intros st b; cbn [page_loop]; [eauto|]. destruct (negb (go st)); [eauto|].
  destruct (fetch st b) as [items| |e] eqn:Er; [|eauto|by destruct (Hr st b e)]. destruct (last items) as [[k it]|]; [|eauto].
  destruct (fold_items st items) as [st'|a] eqn:Ef; [apply IH|]. exfalso. revert st Ef Er. clear -Hi. intros st Ef _. revert st Ef.
  induction items as [|e items IH]; intros st; cbn; [done|]. destruct (item st e) eqn:Ee; [apply IH|by destruct (Hi st e a0)].
Qed.
End loop.

(** ** Ascending pages *)

Section ascending.
Context {S V : Type} {K : Kv S V} {RL : KvRangeLaws K}.
Implicit Types kv : S.

Definition in_order {A} (a b : string * A) : Prop := str_lt (fst a) (fst b) = true.

Lemma filter_unsat {A} (P : A -> Prop) `{!forall x, Decision (P x)} (l : list A) : (forall x, x ∈ l -> ~ P x) -> filter P l = [].
Proof.
  induction l as [|x l IH]; intros Hl; [done|]. rewrite filter_cons, decide_False by (apply Hl; set_solver). apply IH. set_solver.
Qed.
Lemma filter_every {A} (P : A -> Prop) `{!forall x, Decision (P x)} (l : list A) : (forall x, x ∈ l -> P x) -> filter P l = l.
Proof.
  induction l as [|x l IH]; intros Hl; [done|]. rewrite filter_cons, decide_True by (apply Hl; set_solver). by rewrite IH by set_solver.
Qed.
Lemma filter_sorted {A} (R : A -> A -> Prop) (P : A -> Prop) `{!forall x, Decision (P x)} (l : list A) :
  StronglySorted R l -> StronglySorted R (filter P l).
Proof.
  induction 1 as [|x l _ IH Hx]; [constructor|]. rewrite filter_cons. case_decide; [|exact IH]. constructor; [exact IH|].
  rewrite Forall_forall in Hx |- *. intros y Hy. apply Hx. by apply list_elem_of_filter in Hy as [_ ?].
Qed.

(** The entries between two bounds, in order. *)
Definition entries_in kv (b : string * string) : list (string * kv_item V) := filter (in_range (fst b) (snd b)) (kv_entries kv).

Lemma entries_in_sorted kv b : StronglySorted in_order (entries_in kv b).
Proof. apply filter_sorted, kv_entries_sorted. Qed.

(** The entries after the last key of a page are the rest. *)
Lemma range_after kv lo hi items k it rest : entries_in kv (lo, hi) = (items ++ rest)%list ->
  last items = Some (k, it) -> entries_in kv (k, hi) = rest.
Proof.
  unfold entries_in. cbn [fst snd]. intros E Hl. apply last_Some in Hl as [l1 ->]. rewrite <- app_assoc in E. cbn in E.
  assert (Hk : in_range lo hi (k, it)).
  { assert (H : (k, it) ∈ filter (in_range lo hi) (kv_entries kv)) by (rewrite E; set_solver). by apply list_elem_of_filter in H as [? _]. }
  assert (E2 : filter (in_range k hi) (kv_entries kv) = filter (in_range k hi) (filter (in_range lo hi) (kv_entries kv))).
  { symmetry. rewrite list_filter_filter_l; [done|]. intros e [H1 H2]. split; [|done]. apply str_lt_trans with k; [apply Hk|exact H1]. }
  rewrite E2, E, filter_app, filter_cons. rewrite decide_False by (intros [H _]; cbn in H; by rewrite str_lt_irrefl in H).
  pose proof (entries_in_sorted kv (lo, hi)) as Hs. unfold entries_in in Hs. cbn [fst snd] in Hs. rewrite E in Hs.
  apply StronglySorted_app in Hs as (H12 & _ & H2). rewrite filter_unsat, filter_every; [done| |].
  - apply StronglySorted_cons in H2 as [H2 _]. rewrite Forall_forall in H2. intros e He. split; [by apply H2|].
    assert (Hin : e ∈ filter (in_range lo hi) (kv_entries kv)) by (rewrite E; set_solver).
    by apply list_elem_of_filter in Hin as [[_ ?] _].
  - intros e He [Hlt _]. specialize (H12 e (k, it) He ltac:(set_solver)). unfold in_order in H12. cbn in H12.
    pose proof (str_lt_trans _ _ _ Hlt H12) as Hx. by rewrite str_lt_irrefl in Hx.
Qed.

(** No range can fail to be read. *)
Definition scannable kv : Prop := forall lo hi n e, kv_range kv lo hi n <> KvErr e.

Definition asc_fetch {St} (limit : St -> Z) kv (st : St) (b : string * string) := kv_range kv (fst b) (snd b) (limit st).
Definition asc_advance (key : string) (b : string * string) : string * string := (key, snd b).

Lemma asc_pages {St} (limit : St -> Z) (go : St -> bool) kv : scannable kv -> (forall st, go st = true -> 0 < limit st) ->
  pages_of (asc_fetch limit kv) asc_advance go (entries_in kv).
Proof.
  intros Hsc Hlim. split; intros st [lo hi] ; unfold asc_fetch; cbn [fst snd].
  - intros items Hg Hr. destruct (kv_range_page kv lo hi (limit st) items (Hlim st Hg) Hr) as (rest & E & _ & Hnil).
    exists rest. split_and!; [done|done|]. intros k it Hl. by apply (range_after kv lo hi items k it rest E).
  - intros Hg Hr. apply (kv_range_none kv lo hi (limit st) (Hlim st Hg) Hr).
  - intros e _. apply Hsc.
Qed.
End ascending.

(** ** Ranges over a prefix *)

(** What lies in the range of a prefix. *)
Lemma prefix_range p k : str_lt p k = true -> String.leb k (range_end p) = true -> exists t, k = p +:+ t.
Proof.
  unfold range_end. rewrite str_le_lt. revert k. induction p as [|c p IH]; intros k Hlt Hle; [by exists k|].
  destruct k as [|d k]; [done|]. unfold str_lt, String.ltb in *. cbn in *. destruct (Ascii.compare c d) eqn:E.
  - apply Ascii.compare_eq_iff in E as ->. destruct (IH k) as [t ->]; [done| |by exists t].
    destruct Hle as [[= ->]|Hle]; [by left|right]. rewrite ascii_compare_refl in Hle. exact Hle.
  - rewrite Ascii.compare_antisym, E in Hle. cbn in Hle. destruct Hle as [[= -> _]|]; [|done]. by rewrite ascii_compare_refl in E.
  - done.
Qed.

(** A range over a prefix holds the keys that continue it with a text up to ["\255"]. *)
Lemma in_prefix_range {A} p t (it : kv_item A) : t <> "" -> String.leb t (range_end "") = true ->
  in_range p (range_end p) (p +:+ t, it).
Proof.
  intros Ht Hle. split; cbn [fst].
  - rewrite <- (s_app_nil_r p) at 1. rewrite str_lt_app. by destruct t.
  - unfold range_end in *. apply str_le_lt in Hle. apply str_le_lt. destruct Hle as [->|Hlt]; [by left|right; by rewrite str_lt_app].
Qed.

(** Two lists in strict order with the same elements are the same. *)
Lemma in_order_unique {A} (l1 l2 : list (string * A)) : StronglySorted in_order l1 -> StronglySorted in_order l2 ->
  (forall x, x ∈ l1 <-> x ∈ l2) -> l1 = l2.
Proof.
  intros H1. revert l2. induction H1 as [|x l1 H1 IH Hx]; intros l2 H2 Hin.
  - destruct l2 as [|y l2]; [done|]. assert (Hy : y ∈ []) by (apply Hin; set_solver). inversion Hy.
  - destruct H2 as [|y l2 H2 Hy]; [assert (Hx' : x ∈ []) by (apply Hin; set_solver); inversion Hx'|].
    rewrite Forall_forall in Hx, Hy.
    assert (E : x = y).
    { assert (Hxy : x ∈ y :: l2) by (apply Hin; set_solver). assert (Hyx : y ∈ x :: l1) by (apply Hin; set_solver).
      apply elem_of_cons in Hxy as [|Hxy]; [done|]. apply elem_of_cons in Hyx as [|Hyx]; [done|].
      pose proof (str_lt_trans _ _ _ (Hx y Hyx) (Hy x Hxy)) as Hlt. by rewrite str_lt_irrefl in Hlt. }
    subst y. f_equal. apply IH; [done|]. intros z. split; intros Hz.
    + assert (Hz' : z ∈ x :: l2) by (apply Hin; set_solver). apply elem_of_cons in Hz' as [->|]; [|done].
      pose proof (Hx x Hz) as Hlt. unfold in_order in Hlt. by rewrite str_lt_irrefl in Hlt.
    + assert (Hz' : z ∈ x :: l1) by (apply Hin; set_solver). apply elem_of_cons in Hz' as [->|]; [|done].
      pose proof (Hy x Hz) as Hlt. unfold in_order in Hlt. by rewrite str_lt_irrefl in Hlt.
Qed.
