(* ===== verification/AppNames.v ===== *)
(** Names of containers and of replica stage entries: [ContainerName] and
    [ParseContainerName] of [src/pkg/inapi/app.go], [ContainerNameValid] of
    [src/internal/hostlet/hostapi/hostapi.go], [ReplicaStageKey] and
    [ParseReplicaStageKey] of [src/internal/hostlet/hoststatus/hoststatus.go], and the
    DNS label syntax of [src/pkg/inapi/valid.go]. *)
From Stdlib Require Import ZArith Lia Ascii.
From S2P Require Import Prelude GoStrings.
Local Open Scope string_scope.
Local Open Scope Z_scope.

Definition ContainerName (instanceName : string) (repId : Z) : string :=
  "i8k_" +:+ instanceName +:+ "_" +:+ itoa repId.

(** [name[4:]] if the name has the prefix. *)
Definition cut_prefix (p s : string) : option string :=
  if has_prefix s p then Some (String.substring (String.length p) (String.length s - String.length p) s)
  else None.

Definition ParseContainerName (name : string) : option (string * Z) :=
  match cut_prefix "i8k_" name with
  | None => None
  | Some rest =>
    (* the last underscore must lie after the prefix *)
    match cut_last "_" rest with
    | None => None
    | Some (instance, id) =>
      match parse_uint 32 id with
      | None => None
      | Some repId =>
        if bool_decide (instance = "") || s_any (isc "_") instance then None
        else Some (instance, repId)
      end
    end
  end.

Definition ReplicaStageKey (instanceName : string) (repId : Z) : string :=
  instanceName +:+ "/" +:+ itoa repId.

Definition ParseReplicaStageKey (key : string) : option (string * Z) :=
  match cut_last "/" key with
  | None => None
  | Some (name, id) =>
    match parse_uint 32 id with Some repId => Some (name, repId) | None => None end
  end.

(** [a-z0-9] *)
Definition is_label_char (c : ascii) : bool := is_lower c || is_digit c.

Fixpoint s_last (s : string) : option ascii :=
  match s with
  | EmptyString => None
  | String c EmptyString => Some c
  | String _ s' => s_last s'
  end.

(** [^[a-z0-9]([a-z0-9-]*[a-z0-9])?$] *)
Definition label_shape (s : string) : bool :=
  match s, s_last s with
  | String c _, Some d =>
      is_label_char c && is_label_char d && s_all (fun c => is_label_char c || isc "-" c) s
  | _, _ => false
  end.

(** [dnsLabelRegexp]: a label of at most 63 bytes. *)
Definition dnsLabelRegexp (s : string) : bool := label_shape s && (slen s <=? 63).

(** [DNSLabelValid]: required, a label, of 3 to 63 characters. *)
Definition DNSLabelValid (s : string) : result unit :=
  if bool_decide (s = "") then Err "required"
  else if negb (dnsLabelRegexp s) then Err "dns_label"
  else if slen s <? 3 then Err "min"
  else if 63 <? slen s then Err "max"
  else Ok tt.

(** [ContainerNameValid]: [i8k_], a label, [_], and one to three digits. *)
Definition ContainerNameValid (name : string) : bool :=
  match cut_prefix "i8k_" name with
  | None => false
  | Some rest =>
    match cut_at "_" rest with
    | Some (label, id) => label_shape label && s_all is_digit id && (1 <=? slen id) && (slen id <=? 3)
    | None => false
    end
  end.

(** * Properties *)

Lemma prefix_app p s : String.prefix p (p +:+ s) = true.
Proof. induction p as [|c p IH]; [by destruct s|]. simpl. by destruct (ascii_dec c c). Qed.

Lemma substring_full s : String.substring 0 (String.length s) s = s.
Proof. induction s as [|c s IH]; [done|]. simpl. by rewrite IH. Qed.

Lemma cut_prefix_app p s : cut_prefix p (p +:+ s) = Some s.
Proof.
  unfold cut_prefix, has_prefix. rewrite prefix_app. f_equal.
  assert (E : (String.length (p +:+ s) - String.length p)%nat = String.length s).
  { pose proof (slen_app p s). unfold slen in *. lia. }
  rewrite E. clear E. induction p as [|c p IH]; simpl; [apply substring_full|done].
Qed.

Lemma cut_prefix_inv p s r : cut_prefix p s = Some r -> s = p +:+ r.
Proof.
  unfold cut_prefix, has_prefix. destruct (String.prefix p s) eqn:E; [|done]. intros [= <-]. revert s E.
  induction p as [|c p IH]; intros s E; cbn; [by rewrite Nat.sub_0_r, substring_full|].
  destruct s as [|d s]; [done|]. cbn in E. destruct (ascii_dec c d) as [<-|]; [|done].
  cbn. f_equal. by apply IH.
Qed.

Lemma not_s_any c s : s_all (notc c) s = true -> s_any (isc c) s = false.
Proof.
  induction s as [|d s IH]; simpl; [done|]. rewrite andb_true_iff. intros [Hd Hs].
  unfold notc in Hd. by rewrite IH, (proj1 (negb_true_iff _) Hd).
Qed.

Lemma parse_container_name name rep :
  name <> "" -> s_all (notc "_") name = true -> 0 <= rep < 2 ^ 32 ->
  ParseContainerName (ContainerName name rep) = Some (name, rep).
Proof.
  intros Hne Hu Hr. unfold ParseContainerName, ContainerName. rewrite cut_prefix_app.
  change (name +:+ "_" +:+ itoa rep) with (name +:+ String "_" (itoa rep)).
  rewrite cut_last_app by (apply itoa_no; [lia|done]). rewrite parse_uint_itoa by done.
  by rewrite bool_decide_false, not_s_any.
Qed.

Lemma parse_replica_stage_key name rep : 0 <= rep < 2 ^ 32 ->
  ParseReplicaStageKey (ReplicaStageKey name rep) = Some (name, rep).
Proof.
  intros Hr. unfold ParseReplicaStageKey, ReplicaStageKey.
  change (name +:+ "/" +:+ itoa rep) with (name +:+ String "/" (itoa rep)).
  rewrite cut_last_app by (apply itoa_no; [lia|done]). by rewrite parse_uint_itoa.
Qed.

Lemma label_no_underscore s : label_shape s = true -> s <> "" /\ s_all (notc "_") s = true.
Proof.
  unfold label_shape. destruct s as [|c s]; [done|]. destruct (s_last _); [|done].
  rewrite !andb_true_iff. intros [_ Ha]. split; [done|].
  eapply s_all_impl; [|exact Ha]. intros d Hd. unfold notc, isc.
  destruct (bool_decide_reflect ("_"%char = d)) as [<-|]; [discriminate Hd|done].
Qed.

Lemma itoa_short n : 0 <= n < 1000 -> 1 <= slen (itoa n) <= 3.
Proof.
  intros Hn. assert (n ∈ map Z.of_nat (seq 0 1000)) as Hin.
  { apply list_elem_of_fmap. exists (Z.to_nat n). rewrite elem_of_seq. lia. }
  assert (F : forallb (fun n => (1 <=? slen (itoa n)) && (slen (itoa n) <=? 3))
    (map Z.of_nat (seq 0 1000)) = true) by (vm_compute; reflexivity).
  rewrite forallb_forall in F. specialize (F n). rewrite list_elem_of_In in Hin. specialize (F Hin).
  rewrite andb_true_iff in F. lia.
Qed.

(** the name of a container of a valid instance, with a replica id below the
    replica cap, is recognised by the host, and both the container name and the
    stage key read back as that instance and replica: so two replicas never share
    a container name. *)
Theorem container_name_roundtrip name rep :
  dnsLabelRegexp name = true -> 0 <= rep < 128 ->
  ContainerNameValid (ContainerName name rep) = true /\
  ParseContainerName (ContainerName name rep) = Some (name, rep) /\
  ParseReplicaStageKey (ReplicaStageKey name rep) = Some (name, rep).
Proof.
  unfold dnsLabelRegexp. rewrite andb_true_iff. intros [Hl _] Hr.
  destruct (label_no_underscore name Hl) as [Hne Hu].
  split_and!; [|by apply parse_container_name; [..|lia]|by apply parse_replica_stage_key; lia].
  unfold ContainerNameValid, ContainerName. rewrite cut_prefix_app.
  change (name +:+ "_" +:+ itoa rep) with (name +:+ String "_" (itoa rep)).
  rewrite cut_at_app by done. pose proof (itoa_short rep) as Hs.
  rewrite Hl, itoa_digits by lia. rewrite (proj2 (Z.leb_le _ _)), (proj2 (Z.leb_le _ _)) by lia. done.
Qed.

Lemma container_name_roundtrip_witness :
  ContainerNameValid (ContainerName "web-1" 7) = true /\
  ParseContainerName (ContainerName "web-1" 7) = Some ("web-1", 7) /\
  ParseReplicaStageKey (ReplicaStageKey "web-1" 7) = Some ("web-1", 7).
Proof. apply (container_name_roundtrip "web-1" 7); [reflexivity|lia]. Defined.
