(* ===== verification/Inet.v ===== *)
(** IPv4 addresses, [src/pkg/inetutil/inetutil.go], with what it uses of Go's [net]:
    [ParseIP], [IP.To4], [SplitHostPort] and [ParseCIDR].  A [net.IP] is the list of
    its 16 bytes.  Only the IPv4 syntax is written out; the IPv6 grammar, which the
    program reads only to refuse it, is the class [Ip6Syntax]. *)
From Stdlib Require Import ZArith Lia Ascii.
From S2P Require Import Prelude GoStrings.
Local Open Scope string_scope.
Local Open Scope Z_scope.

(** ** [net] *)

Class Ip6Syntax := {
  parse_ip6 : string -> option (list Z);
  string_ip6 : list Z -> string }.

Definition v4_in_v6 : list Z := [0; 0; 0; 0; 0; 0; 0; 0; 0; 0; 255; 255].

(** [IP.To4] *)
Definition To4 (ip : list Z) : option (list Z) :=
  if bool_decide (length ip = 16%nat /\ take 12 ip = v4_in_v6) then Some (drop 12 ip) else None.

(** One octet: decimal, at most 255, no leading zero. *)
Definition parse_octet (s : string) : option Z :=
  match s with
  | String "0" (String _ _) => None
  | _ => match parse_uint 32 s with
         | Some n => if n <=? 255 then Some n else None
         | None => None
         end
  end.

Definition parse_ip4 (s : string) : option (list Z) :=
  match split_at "." s with
  | [a; b; c; d] => mapM parse_octet [a; b; c; d]
  | _ => None
  end.

(** The first of ['.'], [':'] and ['%'] decides the syntax. *)
Fixpoint ip_kind (s : string) : option ascii :=
  match s with
  | EmptyString => None
  | String c s' =>
      if isc "." c || isc ":" c || isc "%" c then Some c else ip_kind s'
  end.

Definition ParseIP `{Ip6Syntax} (s : string) : option (list Z) :=
  match ip_kind s with
  | Some "."%char => option_map (app v4_in_v6) (parse_ip4 s)
  | Some ":"%char => parse_ip6 s
  | _ => None
  end.

(** [net.SplitHostPort]: the host part, or an error. *)
Definition SplitHostPort (hostport : string) : option string :=
  match cut_last ":" hostport with
  | None => None
  | Some (pre, post) =>
    match hostport with
    | String "[" rest =>
      match cut_at "]" rest with
      | None => None
      | Some (host, tail) =>
        (* the ']' must be followed by the last colon *)
        match tail with
        | String ":" port =>
            if s_any (isc ":") port || s_any (isc "[") (host +:+ port) || s_any (isc "]") port
            then None else Some host
        | _ => None
        end
      end
    | _ =>
      if s_any (isc ":") pre || s_any (isc "[") hostport || s_any (isc "]") hostport
      then None else Some pre
    end
  end.

(** [net.ParseCIDR]: the address, not masked. *)
Definition ParseCIDR `{Ip6Syntax} (s : string) : option (list Z) :=
  match cut_at "/" s with
  | None => None
  | Some (addr, mask) =>
    match ParseIP addr, parse_uint 32 mask with
    | Some ip, Some n =>
        let bits := match ip_kind addr with Some "."%char => 32 | _ => 128 end in
        if n <=? bits then Some ip else None
    | _, _ => None
    end
  end.

(** ** [inetutil] *)

Definition BytesToUint32 (b : list Z) : Z :=
  match b with
  | b0 :: b1 :: b2 :: b3 :: _ =>
      Z.lor (Z.lor (Z.lor (Z.shiftl b0 24) (Z.shiftl b1 16)) (Z.shiftl b2 8)) b3
  | _ => 0
  end.

Definition Uint32ToBytes (v : Z) : list Z :=
  [Z.land (Z.shiftr v 24) 255; Z.land (Z.shiftr v 16) 255; Z.land (Z.shiftr v 8) 255; Z.land v 255].

Definition IP4ToString (b : list Z) : string :=
  match b with
  | b0 :: b1 :: b2 :: b3 :: _ =>
      itoa b0 +:+ "." +:+ itoa b1 +:+ "." +:+ itoa b2 +:+ "." +:+ itoa b3
  | _ => ""
  end.

Definition Uint32ToIpv4 (v : Z) : string := IP4ToString (Uint32ToBytes v).

Section parse.
Context `{Ip6Syntax}.

Definition ParsePrivateIP (addr : string) : result (list Z) :=
  match ParseIP addr with
  | None => Err "invalid ip address"
  | Some ip =>
    match To4 ip with
    | None => Err "invalid ipv4 address"
    | Some ip4 =>
      let a := nth 0 ip4 0 in
      let b := nth 1 ip4 0 in
      if (a =? 10) || ((a =? 172) && (16 <=? b) && (b <=? 31)) || ((a =? 192) && (b =? 168))
      then Ok ip4
      else Err ("invalid private ip address " +:+ addr)
    end
  end.

Definition ParsePrivateAddress (addr : string) : result (list Z) :=
  ParsePrivateIP (match SplitHostPort addr with Some host => host | None => addr end).

Definition Ipv4ToUint32 (addr : string) : Z :=
  match ParseIP addr with
  | None => 0
  | Some ip => match To4 ip with None => 0 | Some ip4 => BytesToUint32 ip4 end
  end.

(** [IP.String] *)
Definition ip_string (ip : list Z) : string :=
  match To4 ip with Some b => IP4ToString b | None => string_ip6 ip end.
End parse.

(** A syntax for which no string is an IPv6 address. *)
Definition no_ip6 : Ip6Syntax := {| parse_ip6 := fun _ => None; string_ip6 := fun _ => "" |}.

(** ** Facts *)

Definition byte (z : Z) : Prop := 0 <= z <= 255.

Lemma Uint32ToBytes_div v : 0 <= v ->
  Uint32ToBytes v = [(v / 2 ^ 24) mod 256; (v / 2 ^ 16) mod 256; (v / 2 ^ 8) mod 256; v mod 256].
Proof.
  intros Hv. unfold Uint32ToBytes. rewrite !Z.shiftr_div_pow2 by lia.
  change 255 with (Z.ones 8). by rewrite !Z.land_ones by lia.
Qed.

Lemma BytesToUint32_add b0 b1 b2 b3 : byte b0 -> byte b1 -> byte b2 -> byte b3 ->
  BytesToUint32 [b0; b1; b2; b3] = b0 * 2 ^ 24 + b1 * 2 ^ 16 + b2 * 2 ^ 8 + b3.
Proof.
  unfold byte, BytesToUint32. intros.
  rewrite lor_shiftl_add by (rewrite ?Z.shiftl_mul_pow2 by lia; lia).
  replace (b0 * 2 ^ 24 + Z.shiftl b1 16) with (Z.shiftl (b0 * 2 ^ 8 + b1) 16)
    by (rewrite !Z.shiftl_mul_pow2 by lia; lia).
  rewrite lor_shiftl_add by (rewrite ?Z.shiftl_mul_pow2 by lia; lia).
  replace ((b0 * 2 ^ 8 + b1) * 2 ^ 16 + Z.shiftl b2 8)
    with (Z.shiftl (b0 * 2 ^ 16 + b1 * 2 ^ 8 + b2) 8)
    by (rewrite !Z.shiftl_mul_pow2 by lia; lia).
  rewrite lor_shiftl_add by lia. lia.
Qed.

Lemma land_255_byte z : byte (Z.land z 255).
Proof.
  unfold byte. change 255 with (Z.ones 8) at 1 2. rewrite Z.land_ones by lia.
  pose proof (Z.mod_pos_bound z (2 ^ 8)). lia.
Qed.

Lemma Uint32ToBytes_bytes v : Forall byte (Uint32ToBytes v).
Proof. repeat constructor; apply land_255_byte. Qed.

Lemma BytesToUint32_Uint32ToBytes v : in_u32 v -> BytesToUint32 (Uint32ToBytes v) = v.
Proof.
  intros [H1 H2]. pose proof (Uint32ToBytes_bytes v) as Hb. rewrite Uint32ToBytes_div in * by lia.
  rewrite !Forall_cons in Hb. destruct Hb as (B0 & B1 & B2 & B3 & _).
  rewrite BytesToUint32_add by done.
  rewrite (Z.mod_small (v / 2 ^ 24) 256).
  2: { split; [apply Z.div_pos; lia|]. apply Z.div_lt_upper_bound; lia. }
  change (2 ^ 24) with (2 ^ 16 * 2 ^ 8). change (2 ^ 16) with (2 ^ 8 * 2 ^ 8).
  rewrite <- !Z.div_div by lia. change (2 ^ 8) with 256.
  pose proof (Z.div_mod v 256). pose proof (Z.div_mod (v / 256) 256).
  pose proof (Z.div_mod (v / 256 / 256) 256). lia.
Qed.

Lemma parse_octet_itoa n : byte n -> parse_octet (itoa n) = Some n.
Proof.
  intros Hn. pose proof (parse_uint_itoa 32 n) as P. unfold byte in Hn. revert P.
  assert (n ∈ map Z.of_nat (seq 0 256)) as Hin.
  { apply list_elem_of_fmap. exists (Z.to_nat n). rewrite elem_of_seq. lia. }
  intros _. assert (F : forallb (fun n => bool_decide (parse_octet (itoa n) = Some n))
    (map Z.of_nat (seq 0 256)) = true) by (vm_compute; reflexivity).
  rewrite forallb_forall in F. specialize (F n). rewrite bool_decide_eq_true in F.
  apply F, list_elem_of_In, Hin.
Qed.

Section facts.
Context `{Ip6Syntax}.

Lemma ip_kind_dotted n rest : 0 <= n -> ip_kind (itoa n +:+ String "." rest) = Some "."%char.
Proof.
  intros Hn. pose proof (itoa_digits n Hn) as Hd. revert Hd. generalize (itoa n).
  induction s as [|c s IH]; simpl; [done|]. rewrite andb_true_iff. intros [Hc Hs].
  assert (isc "." c || isc ":" c || isc "%" c = false) as ->; [|by apply IH].
  unfold isc. rewrite !orb_false_iff, !bool_decide_eq_false.
  split_and!; intros <-; done.
Qed.

(** Dotted quads parse back. *)
Lemma ParseIP_IP4ToString b : length b = 4%nat -> Forall byte b ->
  ParseIP (IP4ToString b) = Some (v4_in_v6 ++ b)%list.
Proof.
  intros Hl Hb. destruct b as [|b0 [|b1 [|b2 [|b3 [|]]]]]; try done. clear Hl.
  rewrite !Forall_cons in Hb. destruct Hb as (B0 & B1 & B2 & B3 & _).
  assert (Hdot : is_digit "." = false) by done.
  assert (E : IP4ToString [b0; b1; b2; b3] =
    itoa b0 +:+ String "." (itoa b1 +:+ String "." (itoa b2 +:+ String "." (itoa b3)))) by done.
  unfold byte in *. unfold ParseIP. rewrite E, ip_kind_dotted by lia.
  unfold parse_ip4. rewrite !split_at_app by (apply itoa_no; [lia|done]).
  rewrite split_at_single by (apply itoa_no; [lia|done]).
  cbn [mapM]. rewrite !parse_octet_itoa by done. done.
Qed.

Lemma To4_v4 b : length b = 4%nat -> To4 (v4_in_v6 ++ b)%list = Some b.
Proof.
  intros Hl. unfold To4. rewrite bool_decide_true; [done|].
  split; [by rewrite length_app, Hl | done].
Qed.

Lemma Uint32ToIpv4_parse v : in_u32 v ->
  ParseIP (Uint32ToIpv4 v) = Some (v4_in_v6 ++ Uint32ToBytes v)%list.
Proof. intros Hv. apply ParseIP_IP4ToString; [done | apply Uint32ToBytes_bytes]. Qed.

Lemma Ipv4ToUint32_Uint32ToIpv4 v : in_u32 v -> Ipv4ToUint32 (Uint32ToIpv4 v) = v.
Proof.
  intros Hv. unfold Ipv4ToUint32. rewrite Uint32ToIpv4_parse, To4_v4 by done.
  by apply BytesToUint32_Uint32ToBytes.
Qed.

End facts.

Lemma Uint32ToIpv4_inj v w : in_u32 v -> in_u32 w -> Uint32ToIpv4 v = Uint32ToIpv4 w -> v = w.
Proof.
  intros Hv Hw E.
  rewrite <- (@Ipv4ToUint32_Uint32ToIpv4 no_ip6 v Hv), E. by apply Ipv4ToUint32_Uint32ToIpv4.
Qed.
