(* ===== verification/Scheduler.v ===== *)
(** The zone scheduler, [src/internal/zonelet/scheduler]: which host and which of
    its volumes a new replica is placed on.  [ScheduleHost] filters the hosts
    ([findHostListThatFit]), ranks them ([prioritizer]) and returns the first;
    it sorts the volumes of the hosts it looks at in place, so the model returns
    the host list it leaves behind as well. *)
From Stdlib Require Import ZArith Lia Sorted.
From S2P Require Import Prelude GoFloat.
Local Open Scope string_scope.
Local Open Scope Z_scope.

(** * Data *)

Record ScheduleAppReplica := { rep_RepId : Z; rep_Cpu : Z; rep_Mem : Z; rep_Vol : Z }.

Record ScheduleHostVolume := { vol_Name : string; vol_Total : Z; vol_Used : Z; vol_Alloc : Z }.

Record ScheduleHostItem := {
  host_Id : string;
  host_OpAction : list string;
  host_CpuTotal : Z; host_CpuUsed : Z; host_CpuAlloc : Z;
  host_MemTotal : Z; host_MemUsed : Z; host_MemAlloc : Z;
  host_Volumes : list ScheduleHostVolume }.

Record ScheduleOptions := { opt_HostExcludes : list string }.

Record ScheduleHitVolume := { hit_Name : string; hit_Size : Z }.
Record ScheduleHitItem := {
  hit_HostId : string; hit_Volumes : list ScheduleHitVolume; hit_Host : ScheduleHostItem }.

Record hostFit := {
  fit_id : string;
  fit_cpuAlloc : Z; fit_cpuTotal : Z; fit_cpuUsed : Z;
  fit_memAlloc : Z; fit_memTotal : Z; fit_memUsed : Z;
  fit_volume : string }.

Record hostPriority := { pri_id : string; pri_score : Z; pri_volume : string }.

#[export] Instance vol_eq_dec : EqDecision ScheduleHostVolume.
Proof. solve_decision. Defined.
#[export] Instance host_eq_dec : EqDecision ScheduleHostItem.
Proof. solve_decision. Defined.

Definition HostSetupStart : string := "start".

Definition set_volumes (v : ScheduleHostItem) (vs : list ScheduleHostVolume) : ScheduleHostItem :=
  {| host_Id := host_Id v; host_OpAction := host_OpAction v;
     host_CpuTotal := host_CpuTotal v; host_CpuUsed := host_CpuUsed v;
     host_CpuAlloc := host_CpuAlloc v; host_MemTotal := host_MemTotal v;
     host_MemUsed := host_MemUsed v; host_MemAlloc := host_MemAlloc v;
     host_Volumes := vs |}.

(** * Operations *)

(** [int64(float64(total) * overAlloc)] *)
Definition cpuCap (total : Z) : Z := i64_of_f64 (f64_mul (f64_of_int total) f64_3_0).
Definition memCap (total : Z) : Z := i64_of_f64 (f64_mul (f64_of_int total) f64_1_1).

Definition vol_taken (v : ScheduleHostVolume) : Z := Z.max (vol_Used v) (vol_Alloc v).
Definition vol_free (v : ScheduleHostVolume) : Z := vol_Total v -64 vol_taken v.
Definition cpu_taken (v : ScheduleHostItem) : Z := Z.max (host_CpuUsed v) (host_CpuAlloc v).
Definition mem_taken (v : ScheduleHostItem) : Z := Z.max (host_MemUsed v) (host_MemAlloc v).

(** The resource test both entry points make. *)
Definition resource_over (host : ScheduleHostItem) (entry : ScheduleAppReplica) : bool :=
  (cpuCap (host_CpuTotal host) <? rep_Cpu entry +64 cpu_taken host) ||
  (memCap (host_MemTotal host) <? rep_Mem entry +64 mem_taken host).

Definition ScheduleHostValid (host : ScheduleHostItem) (entry : ScheduleAppReplica) : result unit :=
  if resource_over host entry then Err "No Resource Fit" else Ok tt.

(** The first volume with room for the replica, [""] if none. *)
Fixpoint firstVolFit (vol : Z) (vs : list ScheduleHostVolume) : string :=
  match vs with
  | [] => ""
  | vp :: vs' => if vol_taken vp +64 vol <=? vol_Total vp then vol_Name vp else firstVolFit vol vs'
  end.

Definition calculatePercentage (numerator denominator : Z) : Z :=
  if denominator <=? 0 then 0 else Z.quot (numerator *64 100) denominator.

Definition calculateOccupancy (host : hostFit) : hostPriority :=
  let cpuUsedP := calculatePercentage (Z.max (fit_cpuAlloc host) (fit_cpuUsed host)) (fit_cpuTotal host) in
  let memUsedP := calculatePercentage (Z.max (fit_memAlloc host) (fit_memUsed host)) (fit_memTotal host) in
  {| pri_id := fit_id host; pri_score := Z.quot (cpuUsedP +64 memUsedP) 2;
     pri_volume := fit_volume host |}.

Section scheduler.
Context `{SortSlice}.

Definition sort_volumes (vs : list ScheduleHostVolume) : list ScheduleHostVolume :=
  sort_slice (fun a b => vol_free b <? vol_free a) vs.

(** One host of [findHostListThatFit]'s loop: the host as the iteration leaves it,
    and its candidate if it fits. *)
Definition fitHost (rep : ScheduleAppReplica) (hostExcludes : list string)
    (v : ScheduleHostItem) : ScheduleHostItem * option hostFit :=
  if negb (bool_decide (HostSetupStart ∈ host_OpAction v)) || (Nat.ltb (length (host_Volumes v)) 1)
  then (v, None)
  else if bool_decide (host_Id v ∈ hostExcludes) then (v, None)
  else if resource_over v rep then (v, None)
  else
    let v' := set_volumes v (sort_volumes (host_Volumes v)) in
    let volFit := firstVolFit (rep_Vol rep) (host_Volumes v') in
    if bool_decide (volFit = "") then (v', None)
    else (v', Some {| fit_id := host_Id v;
                      fit_cpuAlloc := host_CpuAlloc v; fit_cpuTotal := cpuCap (host_CpuTotal v);
                      fit_cpuUsed := host_CpuUsed v;
                      fit_memAlloc := host_MemAlloc v; fit_memTotal := memCap (host_MemTotal v);
                      fit_memUsed := host_MemUsed v; fit_volume := volFit |}).

Definition findHostListThatFit (rep : ScheduleAppReplica) (hosts : list ScheduleHostItem)
    (opts : option ScheduleOptions) : list ScheduleHostItem * list hostFit :=
  let hostExcludes := match opts with Some o => opt_HostExcludes o | None => [] end in
  let rs := map (fitHost rep hostExcludes) hosts in
  (map fst rs, omap snd rs).

Definition prioritizer (hosts : list hostFit) : result (list hostPriority) :=
  if Nat.ltb (length hosts) 1 then Err "No Host Found"
  else Ok (sort_slice (fun a b => pri_score a <? pri_score b) (map calculateOccupancy hosts)).

Definition hitOf (rep : ScheduleAppReplica) (p : hostPriority) (v : ScheduleHostItem) : ScheduleHitItem :=
  {| hit_HostId := host_Id v;
     hit_Volumes := [{| hit_Name := pri_volume p; hit_Size := rep_Vol rep |}];
     hit_Host := v |}.

Definition ScheduleHost (rep : option ScheduleAppReplica) (hosts : list ScheduleHostItem)
    (opts : option ScheduleOptions) : list ScheduleHostItem * result ScheduleHitItem :=
  match rep with
  | None => (hosts, Err "BadArgument")
  | Some rep =>
    if Nat.ltb (length hosts) 1 then (hosts, Err "BadArgument")
    else
      let '(hosts', fitHostList) := findHostListThatFit rep hosts opts in
      (hosts',
        let? priorityList := prioritizer fitHostList in
        match priorityList with
        | [] => Err "No Host Scheduled"
        | p :: _ =>
          match List.find (fun v => bool_decide (host_Id v = pri_id p)) hosts' with
          | Some v => Ok (hitOf rep p v)
          | None => Err "No Host Scheduled"
          end
        end)
  end.
End scheduler.

(** * Properties *)

(** ** The over-allocation caps *)

Definition sane (z : Z) : Prop := 0 <= z < 2 ^ 50.

Record sane_volume (v : ScheduleHostVolume) : Prop := {
  sv_total : sane (vol_Total v); sv_used : sane (vol_Used v); sv_alloc : sane (vol_Alloc v);
  sv_name : vol_Name v <> "" }.

Record sane_host (v : ScheduleHostItem) : Prop := {
  sh_ct : sane (host_CpuTotal v); sh_cu : sane (host_CpuUsed v); sh_ca : sane (host_CpuAlloc v);
  sh_mt : sane (host_MemTotal v); sh_mu : sane (host_MemUsed v); sh_ma : sane (host_MemAlloc v);
  sh_vols : Forall sane_volume (host_Volumes v) }.

Record sane_rep (r : ScheduleAppReplica) : Prop := {
  sr_cpu : sane (rep_Cpu r); sr_mem : sane (rep_Mem r); sr_vol : sane (rep_Vol r) }.

Lemma i64_of_f64_in x : in_i64 (f64_trunc x) -> i64_of_f64 x = f64_trunc x.
Proof. intros [? ?]. unfold i64_of_f64. by rewrite (proj2 (Z.leb_le _ _)), (proj2 (Z.ltb_lt _ _)). Qed.

Lemma cpuCap_exact z : sane z -> cpuCap z = 3 * z.
Proof.
  intros [H1 H2]. unfold cpuCap. rewrite f64_of_int_exact by lia.
  assert (E : f64_mul (F z 0) f64_3_0 = F (3 * z) 0).
  { unfold f64_mul; simpl. rewrite Z.mul_comm. apply (f64_of_int_exact (3 * z)). lia. }
  assert (T : f64_trunc (F (3 * z) 0) = 3 * z) by (change (3 * z * 1 = 3 * z); lia).
  rewrite E, i64_of_f64_in, T; [done|]. rewrite T. go_unfold; lia.
Qed.

Lemma memCap_bounds z : sane z -> (11 * z) / 10 - 1 <= memCap z <= (11 * z) / 10 + 2.
Proof.
  intros [H1 H2]. unfold memCap. rewrite f64_of_int_exact by lia.
  unfold f64_mul; cbn [f_man f_exp f64_1_1].
  pose proof (f64_round_trunc (z * 2476979795053773) 51) as B.
  change (0 + -51) with (- (51)).
  destruct B as [B1 B2]; [lia|lia|change (51+52) with 103; lia|].
  assert (D : (11 * z) / 10 <= z * 2476979795053773 / 2 ^ 51 <= (11 * z) / 10 + 1).
  { split.
    - apply Z.div_le_lower_bound; [lia|].
      pose proof (Z.mul_div_le (11 * z) 10). lia.
    - assert (z * 2476979795053773 / 2 ^ 51 < (11 * z) / 10 + 2); [|lia].
      apply Z.div_lt_upper_bound; [lia|].
      pose proof (Z.mul_succ_div_gt (11 * z) 10). lia. }
  rewrite i64_of_f64_in; [lia|]. go_unfold.
  assert ((11 * z) / 10 < 2 ^ 54) by (apply Z.div_lt_upper_bound; lia).
  assert (0 <= (11 * z) / 10) by (apply Z.div_pos; lia). lia.
Qed.

(** ** What a placement promises *)

(** The volume [w] has room for the replica. *)
Definition has_room (rep : ScheduleAppReplica) (w : ScheduleHostVolume) : Prop :=
  vol_taken w + rep_Vol rep <= vol_Total w.

(** The host can take the replica: started, not excluded, within its
    over-allocated CPU and memory, and with a volume that has room. *)
Definition fits (rep : ScheduleAppReplica) (excludes : list string) (v : ScheduleHostItem) : Prop :=
  HostSetupStart ∈ host_OpAction v /\ (host_Id v ∉ excludes) /\
  rep_Cpu rep + cpu_taken v <= 3 * host_CpuTotal v /\
  rep_Mem rep + mem_taken v <= memCap (host_MemTotal v) /\
  Exists (has_room rep) (host_Volumes v).

(** The volume chosen on [v]: one with room, and no other has more free space. *)
Definition best_volume (rep : ScheduleAppReplica) (v : ScheduleHostItem) (name : string) : Prop :=
  exists w, w ∈ host_Volumes v /\ vol_Name w = name /\ has_room rep w /\
    Forall (fun w' => vol_Total w' - vol_taken w' <= vol_Total w - vol_taken w) (host_Volumes v).

(** The occupancy of a host, in percent: the mean of its CPU and memory shares. *)
Definition occupancy (v : ScheduleHostItem) : Z :=
  Z.quot (calculatePercentage (Z.max (host_CpuAlloc v) (host_CpuUsed v)) (cpuCap (host_CpuTotal v)) +64
          calculatePercentage (Z.max (host_MemAlloc v) (host_MemUsed v)) (memCap (host_MemTotal v))) 2.

(** Scheduling reorders the volumes of a host and changes nothing else. *)
Definition same_host (v v' : ScheduleHostItem) : Prop :=
  exists vs, vs ≡ₚ host_Volumes v /\ v' = set_volumes v vs.

Lemma same_host_refl v : same_host v v.
Proof. exists (host_Volumes v). split; [done | by destruct v]. Qed.

Lemma same_host_id v v' : same_host v v' -> host_Id v' = host_Id v.
Proof. by intros (vs & _ & ->). Qed.

Section proofs.
Context `{SortSliceLaws}.
Implicit Types (rep : ScheduleAppReplica) (v : ScheduleHostItem) (w : ScheduleHostVolume).

Lemma resource_over_spec v rep : sane_host v -> sane_rep rep ->
  resource_over v rep = false <->
  rep_Cpu rep + cpu_taken v <= 3 * host_CpuTotal v /\
  rep_Mem rep + mem_taken v <= memCap (host_MemTotal v).
Proof.
  intros [Hct Hcu Hca Hmt Hmu Hma _] [Hc Hm _]. unfold resource_over.
  rewrite cpuCap_exact by done. unfold sane, cpu_taken, mem_taken in *.
  rewrite orb_false_iff, !Z.ltb_ge. go_int.
Qed.

Lemma vol_free_exact w : sane_volume w -> vol_free w = vol_Total w - vol_taken w.
Proof. intros [? ? ? _]. unfold vol_free, vol_taken, sane in *. go_int. Qed.

Lemma sort_volumes_sorted vs : Forall sane_volume vs ->
  StronglySorted (fun a b => vol_Total b - vol_taken b <= vol_Total a - vol_taken a) (sort_volumes vs).
Proof.
  intros Hs. assert (Hs' : Forall sane_volume (sort_volumes vs))
    by (unfold sort_volumes; by rewrite sort_slice_perm).
  pose proof (sort_slice_sorted _ _ vs (strict_weak_key_desc vol_free)) as Hso.
  fold (sort_volumes vs) in Hso. induction Hso as [|a l Hl IH Ha]; constructor.
  - apply IH; by inversion Hs'.
  - apply Forall_cons in Hs' as [Hsa Hsl]. rewrite Forall_forall in *.
    intros b Hb. specialize (Ha b Hb). simpl in Ha.
    rewrite !vol_free_exact in Ha by auto. lia.
Qed.

(** On volumes sorted by free space, the first with room is one with the most. *)
Lemma firstVolFit_spec rep vs : sane_rep rep -> Forall sane_volume vs ->
  StronglySorted (fun a b => vol_Total b - vol_taken b <= vol_Total a - vol_taken a) vs ->
  if bool_decide (firstVolFit (rep_Vol rep) vs = "") then ~ Exists (has_room rep) vs
  else exists w, w ∈ vs /\ vol_Name w = firstVolFit (rep_Vol rep) vs /\ has_room rep w /\
         Forall (fun w' => vol_Total w' - vol_taken w' <= vol_Total w - vol_taken w) vs.
Proof.
  intros [_ _ Hr] Hs Hso. destruct Hso as [|a l Hl Ha]; cbn [firstVolFit].
  { simpl. by intros E%Exists_nil. }
  apply Forall_cons in Hs as [Hsa Hsl].
  assert (Ht : vol_taken a +64 rep_Vol rep = vol_taken a + rep_Vol rep).
  { destruct Hsa. unfold vol_taken, sane in *. go_int. }
  rewrite Ht. destruct (Z.leb_spec (vol_taken a + rep_Vol rep) (vol_Total a)) as [Hf|Hf].
  - rewrite bool_decide_false by (by destruct Hsa). exists a.
    split_and!; [set_solver | done | done | by constructor].
  - assert (Hno : Forall (fun w => ~ has_room rep w) l).
    { rewrite Forall_forall in Ha |- *. intros b Hb. specialize (Ha b Hb). unfold has_room. lia. }
    assert (E : firstVolFit (rep_Vol rep) l = "").
    { clear Ha Hl. induction l as [|b l IH]; [done|]. simpl.
      apply Forall_cons in Hsl as [Hsb Hsl]. apply Forall_cons in Hno as [Hb Hno].
      unfold has_room in Hb. destruct (Z.leb_spec (vol_taken b +64 rep_Vol rep) (vol_Total b)) as [Hx|]; [|auto].
      exfalso. destruct Hsb. unfold vol_taken, sane in *. revert Hx. go_int. }
    rewrite E, bool_decide_true by done. rewrite Exists_cons. unfold has_room at 1.
    intros [?|He]; [lia|]. rewrite Exists_exists in He. destruct He as (b & Hb & Hh).
    rewrite Forall_forall in Hno. by apply (Hno b).
Qed.

Lemma fitHost_same rep ex v : same_host v (fst (fitHost rep ex v)).
Proof.
  unfold fitHost. repeat case_match; simpl; try apply same_host_refl;
    exists (sort_volumes (host_Volumes v)); (split; [apply sort_slice_perm | done]).
Qed.

(** One iteration: a candidate exactly for a host that fits, with its best volume. *)
Lemma fitHost_spec rep ex v : sane_host v -> sane_rep rep ->
  match snd (fitHost rep ex v) with
  | Some f => fits rep ex v /\ best_volume rep v (fit_volume f) /\
              calculateOccupancy f =
                {| pri_id := host_Id v; pri_score := occupancy v; pri_volume := fit_volume f |}
  | None => ~ fits rep ex v
  end.
Proof.
  intros Hh Hr. pose proof (resource_over_spec v rep Hh Hr) as Hres.
  unfold fitHost. destruct (bool_decide_reflect (HostSetupStart ∈ host_OpAction v)) as [Hst|Hst];
    [|by intros (? & _)]. simpl.
  destruct (host_Volumes v) as [|w0 ws] eqn:Ev; simpl.
  { intros (_ & _ & _ & _ & E). rewrite Ev in E. by apply Exists_nil in E. }
  rewrite <- Ev. clear w0 ws Ev.
  destruct (bool_decide_reflect (host_Id v ∈ ex)) as [Hex|Hex]; [by intros (_ & ? & _)|].
  destruct (resource_over v rep).
  { intros (_ & _ & ? & ? & _). destruct Hres as [_ Hres]. by specialize (Hres ltac:(done)). }
  apply proj1 in Hres. destruct (Hres eq_refl) as [Hc Hm].
  pose proof (firstVolFit_spec rep (sort_volumes (host_Volumes v)) Hr) as Hv.
  assert (Hp : sort_volumes (host_Volumes v) ≡ₚ host_Volumes v) by apply sort_slice_perm.
  specialize (Hv ltac:(rewrite Hp; apply Hh) (sort_volumes_sorted _ (sh_vols v Hh))).
  destruct (bool_decide _); simpl in *.
  - intros (_ & _ & _ & _ & E). apply Hv. by rewrite Hp.
  - destruct Hv as (w & Hw & Hn & Hroom & Hbest). rewrite Hp in Hw, Hbest.
    split; [|split; [by exists w|done]]. split_and!; [done..|].
    rewrite Exists_exists. eauto.
Qed.
Lemma find_fst_same rep ex hosts :
  Forall2 same_host hosts (map fst (map (fitHost rep ex) hosts)).
Proof. induction hosts; simpl; constructor; [apply fitHost_same | done]. Qed.

(** The candidates are the hosts that fit. *)
Lemma find_candidates rep ex hosts p :
  p ∈ map calculateOccupancy (omap snd (map (fitHost rep ex) hosts)) <->
  exists v f, v ∈ hosts /\ snd (fitHost rep ex v) = Some f /\ p = calculateOccupancy f.
Proof.
  rewrite list_elem_of_fmap. setoid_rewrite list_elem_of_omap. setoid_rewrite list_elem_of_fmap.
  naive_solver.
Qed.

Lemma find_fit_host rep ex hosts v :
  NoDup (map host_Id hosts) -> v ∈ hosts ->
  exists v', same_host v v' /\
    List.find (fun u => bool_decide (host_Id u = host_Id v)) (map fst (map (fitHost rep ex) hosts)) = Some v'.
Proof.
  induction hosts as [|u us IH]; simpl; [set_solver|].
  pose proof (fitHost_same rep ex u) as Hs. pose proof (same_host_id _ _ Hs) as Ei.
  intros [Hu Hnd]%NoDup_cons [->|Hv]%elem_of_cons.
  - rewrite bool_decide_true by done. eauto.
  - rewrite bool_decide_false; [by apply IH|]. intros E. apply Hu. rewrite <- Ei, E.
    by apply (list_elem_of_fmap_2 host_Id).
Qed.

(** What [ScheduleHost] promises for a list of started and stopped hosts. *)
Definition schedule_post (rep : ScheduleAppReplica) (ex : list string) (hosts : list ScheduleHostItem)
    (r : result ScheduleHitItem) : Prop :=
  match r with
  | Ok hit => exists v, v ∈ hosts /\ hit_HostId hit = host_Id v /\ same_host v (hit_Host hit) /\
      fits rep ex v /\
      (exists name, best_volume rep v name /\
         hit_Volumes hit = [{| hit_Name := name; hit_Size := rep_Vol rep |}]) /\
      (forall u, u ∈ hosts -> fits rep ex u -> occupancy v <= occupancy u)
  | Err e => e = "No Host Found" /\ forall u, u ∈ hosts -> ~ fits rep ex u
  end.

(** The scheduler keeps its promise. *)
Lemma schedule_host_post rep hosts opts :
  sane_rep rep -> Forall sane_host hosts -> NoDup (map host_Id hosts) -> hosts <> [] ->
  let ex := match opts with Some o => opt_HostExcludes o | None => [] end in
  schedule_post rep ex hosts (snd (ScheduleHost (Some rep) hosts opts)).
Proof.
  intros Hr Hs Hnd Hne ex. unfold ScheduleHost.
  destruct (Nat.ltb_spec (length hosts) 1); [by destruct hosts; simpl in *; [|lia]|].
  unfold findHostListThatFit. fold ex. cbn [fst snd].
  set (fits_l := omap snd (map (fitHost rep ex) hosts)).
  pose proof (find_candidates rep ex hosts) as Hc. fold fits_l in Hc.
  assert (Hfit : forall v, v ∈ hosts -> fits rep ex v ->
    exists f, snd (fitHost rep ex v) = Some f).
  { intros v Hv Hf. rewrite Forall_forall in Hs.
    pose proof (fitHost_spec rep ex v (Hs v Hv) Hr). destruct (snd _); [eauto|done]. }
  unfold prioritizer. destruct (Nat.ltb_spec (length fits_l) 1) as [Hl|Hl]; cbn [rbind].
  - split; [done|]. intros u Hu Hf. destruct (Hfit u Hu Hf) as [f Ef].
    assert (Hin : calculateOccupancy f ∈ map calculateOccupancy fits_l) by (apply Hc; eauto).
    destruct fits_l; [by apply not_elem_of_nil in Hin | simpl in Hl; lia].
  - assert (Hlen : length (sort_slice (fun a b => pri_score a <? pri_score b)
      (map calculateOccupancy fits_l)) = length fits_l)
      by (by rewrite sort_slice_length, length_map).
    destruct (sort_slice _ _) as [|p ps] eqn:Eps; [simpl in Hlen; lia|].
    destruct (sort_slice_head_min (fun a b => pri_score a <? pri_score b)
      (map calculateOccupancy fits_l) p) as [Hp Hmin]; [auto with go | by rewrite Eps |].
    apply Hc in Hp as (v & f & Hv & Ef & ->).
    rewrite Forall_forall in Hs. pose proof (fitHost_spec rep ex v (Hs v Hv) Hr) as Hspec.
    rewrite Ef in Hspec. destruct Hspec as (Hfits & Hbest & Eocc).
    rewrite Eocc in *. destruct (find_fit_host rep ex hosts v Hnd Hv) as (v' & Hsame & Ev').
    cbn [pri_id]. rewrite Ev'. exists v. cbn. split_and!; [done|by apply same_host_id|done|done|eauto|].
    intros u Hu Hfu. destruct (Hfit u Hu Hfu) as [g Eg].
    pose proof (fitHost_spec rep ex u (Hs u Hu) Hr) as Hspec. rewrite Eg in Hspec.
    destruct Hspec as (_ & _ & Eoccu).
    assert (Hin : calculateOccupancy g ∈ map calculateOccupancy fits_l) by (apply Hc; eauto).
    specialize (Hmin _ Hin). rewrite Eoccu in Hmin. simpl in Hmin. lia.
Qed.

(** C4: [ScheduleHost] is sound and complete for hosts with distinct ids, named
    volumes and quantities below 2^50.  It fails, and only with "No Host Found",
    exactly when no host fits; otherwise it returns a host that is started, not
    excluded, within three times its CPU and 1.1 times its memory, the volume of
    that host with the most free space, which has room, and no host that fits is
    less occupied.  The host list it leaves differs only in the order of volumes. *)
Theorem schedule_host_correct rep hosts opts :
  sane_rep rep -> Forall sane_host hosts -> NoDup (map host_Id hosts) -> hosts <> [] ->
  let ex := match opts with Some o => opt_HostExcludes o | None => [] end in
  Forall2 same_host hosts (fst (ScheduleHost (Some rep) hosts opts)) /\
  schedule_post rep ex hosts (snd (ScheduleHost (Some rep) hosts opts)).
Proof.
  intros Hr Hs Hnd Hne ex. split; [|by apply schedule_host_post].
  unfold ScheduleHost. destruct (Nat.ltb_spec (length hosts) 1); [by destruct hosts; simpl in *; [|lia]|].
  apply find_fst_same.
Qed.
End proofs.

(** [ScheduleHostValid] accepts a replica on a host exactly when its CPU stays
    within three times the host's and its memory within the over-allocated memory,
    which the float arithmetic puts within two bytes of 11/10 of the host's. *)
Theorem schedule_host_valid_bounds host entry :
  sane_host host -> sane_rep entry ->
  let memLimit := memCap (host_MemTotal host) in
  (ScheduleHostValid host entry = Ok tt <->
     rep_Cpu entry + cpu_taken host <= 3 * host_CpuTotal host /\
     rep_Mem entry + mem_taken host <= memLimit) /\
  (11 * host_MemTotal host) / 10 - 1 <= memLimit <= (11 * host_MemTotal host) / 10 + 2.
Proof.
  intros Hh Hr memLimit. split; [|apply memCap_bounds, Hh].
  subst memLimit. rewrite <- (resource_over_spec host entry Hh Hr). unfold ScheduleHostValid.
  by destruct (resource_over host entry).
Qed.

(** ** Witnesses *)

Ltac sane_solve :=
  repeat first [progress split_and? | constructor | done | lia].

Definition ex_vol (n : string) (t a : Z) : ScheduleHostVolume :=
  {| vol_Name := n; vol_Total := t; vol_Used := 0; vol_Alloc := a |}.
Definition ex_host (id : string) (ca : Z) (vs : list ScheduleHostVolume) : ScheduleHostItem :=
  {| host_Id := id; host_OpAction := ["start"];
     host_CpuTotal := 4000; host_CpuUsed := 0; host_CpuAlloc := ca;
     host_MemTotal := 4096; host_MemUsed := 0; host_MemAlloc := 1024; host_Volumes := vs |}.
Definition ex_hosts : list ScheduleHostItem :=
  [ex_host "h1" 8000 [ex_vol "a" 100 20; ex_vol "b" 200 20];
   ex_host "h2" 4000 [ex_vol "c" 100 90; ex_vol "d" 100 10];
   ex_host "h3" 0 [ex_vol "e" 100 90]].
Definition ex_rep : ScheduleAppReplica :=
  {| rep_RepId := 0; rep_Cpu := 2000; rep_Mem := 2048; rep_Vol := 50 |}.

Example ex_schedule :
  snd (ScheduleHost (Some ex_rep) ex_hosts None) =
  Ok (hitOf ex_rep {| pri_id := "h2"; pri_score := 28; pri_volume := "d" |}
        (ex_host "h2" 4000 [ex_vol "d" 100 10; ex_vol "c" 100 90])).
Proof. vm_compute. reflexivity. Qed.

Lemma schedule_host_correct_witness :
  Forall2 same_host ex_hosts (fst (ScheduleHost (Some ex_rep) ex_hosts None)) /\
  schedule_post ex_rep [] ex_hosts (snd (ScheduleHost (Some ex_rep) ex_hosts None)).
Proof.
  apply (schedule_host_correct ex_rep ex_hosts None).
  - sane_solve.
  - sane_solve.
  - apply (bool_decide_unpack _). vm_compute. exact I.
  - done.
Defined.

Lemma schedule_host_valid_bounds_witness :
  let host := ex_host "h1" 8000 [] in
  (ScheduleHostValid host ex_rep = Ok tt <->
     rep_Cpu ex_rep + cpu_taken host <= 3 * host_CpuTotal host /\
     rep_Mem ex_rep + mem_taken host <= memCap (host_MemTotal host)) /\
  (11 * host_MemTotal host) / 10 - 1 <= memCap (host_MemTotal host) <= (11 * host_MemTotal host) / 10 + 2.
Proof.
  apply (schedule_host_valid_bounds (ex_host "h1" 8000 []) ex_rep); sane_solve.
Defined.
