(* ===== verification/HostPort.v ===== *)
(** Host port allocation, [src/internal/zonelet/network/host_port.go]. *)
From Stdlib Require Import ZArith Lia.
From S2P Require Import Prelude.
Local Open Scope Z_scope.

Definition HostPortMin : Z := 20000.
Definition HostPortMax : Z := 30000.
Definition HostPortLimit : Z := HostPortMax - HostPortMin + 1.

(** [slices.Contains(used, p)] *)
Definition port_free (used : list Z) (p : Z) : bool := negb (bool_decide (p ∈ used)).

(** The random attempts: [rand] lists the draws of [rand.Uint32]. *)
Fixpoint random_attempt (used : list Z) (rand : list Z) : option Z :=
  match rand with
  | [] => None
  | r :: rand' =>
      let p := u32 (HostPortMin + r mod (HostPortMax - HostPortMin)) in
      if port_free used p then Some p else random_attempt used rand'
  end.

(** Where the sequential scan starts. *)
Definition scan_offset (used : list Z) : Z :=
  match last used with
  | Some l => if HostPortMin <? u32 (l + 1) then u32 (l + 1) else HostPortMin
  | None => HostPortMin
  end.

(** [rand] holds the ten draws of the random attempt. *)
Definition HostPortAlloc (rand : list Z) (used : list Z) (port : Z) : Z :=
  if 0 <? port then (if port_free used port then port else 0)
  else if HostPortLimit <=? Z.of_nat (length used) then 0
  else match random_attempt used (take 10 rand) with
  | Some p => p
  | None =>
    let offset := scan_offset used in
    match first_from (port_free used) offset (Z.to_nat (HostPortMax - offset + 1)) with
    | Some p => p
    | None =>
      match first_from (port_free used) HostPortMin (Z.to_nat (offset - HostPortMin)) with
      | Some p => p
      | None => 0
      end
    end
  end.

(** * Properties *)

Lemma port_free_spec used p : port_free used p = true <-> p ∉ used.
Proof. unfold port_free. by rewrite negb_true_iff, bool_decide_eq_false. Qed.

(** Fewer ports than the range holds leave one of the range free. *)
Lemma port_free_exists used : Z.of_nat (length used) < HostPortLimit ->
  exists p, HostPortMin <= p <= HostPortMax /\ port_free used p = true.
Proof.
  intros Hl.
  destruct (first_from (port_free used) HostPortMin (Z.to_nat HostPortLimit)) as [p|] eqn:E.
  - apply first_from_Some in E as (Hr & Hp & _). exists p. unfold HostPortLimit in *. split; [lia|done].
  - exfalso. rewrite first_from_None in E.
    assert (Hsub : seqZ HostPortMin HostPortLimit ⊆ used).
    { intros p Hp%elem_of_seqZ. specialize (E p).
      destruct (bool_decide_reflect (p ∈ used)) as [|Hn]; [done|].
      apply port_free_spec in Hn. rewrite E in Hn; [done|]. unfold HostPortLimit, HostPortMax in *. lia. }
    pose proof (submseteq_length _ _ (NoDup_submseteq _ _ (NoDup_seqZ _ _) Hsub)) as Hle.
    rewrite length_seqZ in Hle. unfold HostPortLimit, HostPortMax, HostPortMin in *. lia.
Qed.

Lemma random_attempt_spec used rand p : random_attempt used rand = Some p ->
  Forall in_u32 rand -> HostPortMin <= p < HostPortMax /\ p ∉ used.
Proof.
  induction rand as [|r rand IH]; simpl; [done|]. intros H [Hr Hrs]%Forall_cons.
  set (q := u32 _) in H.
  assert (HostPortMin <= q < HostPortMax).
  { subst q. pose proof (Z.mod_pos_bound r (HostPortMax - HostPortMin)).
    unfold HostPortMax, HostPortMin in *. go_int. }
  destruct (port_free used q) eqn:E; [|auto]. injection H as <-. by rewrite <- port_free_spec.
Qed.

Lemma scan_offset_range used : Forall in_u32 used -> HostPortMin <= scan_offset used.
Proof.
  intros Hu. unfold scan_offset. destruct (last used) as [l|]; [|lia].
  destruct (Z.ltb_spec HostPortMin (u32 (l + 1))); lia.
Qed.

(** Without a port asked for, a port of the range that is free, if the list of used
    ports has not reached the limit. *)
Lemma HostPortAlloc_auto rand used : Forall in_u32 rand -> Forall in_u32 used ->
  Z.of_nat (length used) < HostPortLimit ->
  HostPortMin <= HostPortAlloc rand used 0 <= HostPortMax /\ HostPortAlloc rand used 0 ∉ used.
Proof.
  intros Hr Hu H. unfold HostPortAlloc. simpl.
  destruct (Z.leb_spec HostPortLimit (Z.of_nat (length used))); [lia|].
  destruct (random_attempt _ _) as [p|] eqn:Er.
  { apply random_attempt_spec in Er as [? ?]; [split; [lia|done] | by apply Forall_take]. }
  pose proof (scan_offset_range used Hu) as Ho.
  destruct (first_from _ (scan_offset used) _) as [p|] eqn:E1.
  { apply first_from_Some in E1 as (? & Hf & _). apply port_free_spec in Hf. split; [lia|done]. }
  destruct (port_free_exists used H) as (q & Hq & Hfree).
  rewrite first_from_None in E1.
  destruct (first_from _ HostPortMin _) as [p|] eqn:E2.
  { apply first_from_Some in E2 as (? & Hf & Hmin). apply port_free_spec in Hf. split; [|done].
    destruct (Z.le_gt_cases p HostPortMax); [lia|].
    rewrite Hmin in Hfree by lia. done. }
  rewrite first_from_None in E2. exfalso.
  destruct (Z.lt_ge_cases q (scan_offset used)); [rewrite E2 in Hfree | rewrite E1 in Hfree]; done || lia.
Qed.

(** A port that is granted is free. *)
Lemma HostPortAlloc_fresh rand used : Forall in_u32 rand -> Forall in_u32 used ->
  HostPortAlloc rand used 0 <> 0 ->
  HostPortMin <= HostPortAlloc rand used 0 <= HostPortMax /\ HostPortAlloc rand used 0 ∉ used.
Proof.
  intros Hr Hu H. destruct (Z.lt_ge_cases (Z.of_nat (length used)) HostPortLimit); [by apply HostPortAlloc_auto|].
  exfalso. apply H. unfold HostPortAlloc. simpl. by rewrite (proj2 (Z.leb_le _ _)) by lia.
Qed.

(** C10: [HostPortAlloc] with a port asked for grants exactly a port that is not in
    use.  Without one, and whatever the random draws, it fails exactly when the
    used list has reached the limit of 10001 entries: otherwise it returns a port
    between 20000 and 30000 that is not in use, also when the used list holds
    ports outside that range. *)
Theorem host_port_alloc_correct rand used port :
  Forall in_u32 rand -> Forall in_u32 used -> 0 <= port ->
  let p := HostPortAlloc rand used port in
  (0 < port -> p = if bool_decide (port ∈ used) then 0 else port) /\
  (port = 0 -> HostPortLimit <= Z.of_nat (length used) -> p = 0) /\
  (port = 0 -> Z.of_nat (length used) < HostPortLimit ->
     HostPortMin <= p <= HostPortMax /\ p ∉ used).
Proof.
  intros Hr Hu Hp. cbv zeta. split_and!.
  - intros H. unfold HostPortAlloc. rewrite (proj2 (Z.ltb_lt _ _)) by done. unfold port_free.
    by destruct (bool_decide _).
  - intros -> H. unfold HostPortAlloc. by rewrite (proj2 (Z.leb_le _ _) H).
  - intros ->. by apply HostPortAlloc_auto.
Qed.

Lemma host_port_alloc_correct_witness :
  let p := HostPortAlloc (repeat 0 10) [20000; 40000] 0 in
  (0 < 0 -> p = if bool_decide (0 ∈ [20000; 40000]) then 0 else 0) /\
  (0 = 0 -> HostPortLimit <= 2 -> p = 0) /\
  (0 = 0 -> 2 < HostPortLimit -> HostPortMin <= p <= HostPortMax /\ p ∉ [20000; 40000]).
Proof.
  apply (host_port_alloc_correct (repeat 0 10) [20000; 40000] 0);
    [repeat constructor; done | repeat constructor; done | done].
Defined.
