(* ===== verification/Ipam.v ===== *)
(** The zone's address manager, [src/internal/zonelet/network/ipam.go]: each host
    gets one octet [n] of the bridge network and the instance subnet [n], each
    replica one address of its host's subnet.

    A [*ZoneNetworkMap_Host] is reachable from two maps, [Map.VpcBridgeHost] by
    bridge address and [Hosts] by host id, and [RefreshHostNetwork] writes through
    it: the model keeps those records in a store [nm_heap] and puts references in
    the maps.  What is written to the database is the map with the references
    followed. *)
From Stdlib Require Import ZArith Lia.
From S2P Require Import Prelude GoStrings Inet Ns Kv.
Local Open Scope string_scope.
Local Open Scope Z_scope.

(** * Data *)

Definition VpcAllocMin : Z := 3.
Definition VpcAllocMax : Z := 252.
Definition VpcAllocCap : nat := 250.

Record NetHost := { nh_Id : string; nh_Bridge : Z; nh_Instance : Z; nh_Peer : Z }.

(** [inapi.ZoneNetworkMap], over references in memory and over records when stored. *)
Record ZoneNetworkMap (R : Type) := {
  zm_BridgeCidr : string; zm_InstanceCidr : string; zm_Domain : string;
  zm_BridgeHost : gmap Z R; zm_Instance : gmap Z string;
  zm_Updated : Z; zm_Revision : Z }.
Arguments zm_BridgeCidr {R} z.
Arguments zm_InstanceCidr {R} z.
Arguments zm_Domain {R} z.
Arguments zm_BridgeHost {R} z.
Arguments zm_Instance {R} z.
Arguments zm_Updated {R} z.
Arguments zm_Revision {R} z.

Definition emptyMap {R} : ZoneNetworkMap R :=
  {| zm_BridgeCidr := ""; zm_InstanceCidr := ""; zm_Domain := "";
     zm_BridgeHost := ∅; zm_Instance := ∅; zm_Updated := 0; zm_Revision := 0 |}.

Abbreviation ref := nat.

Record NetworkManager := {
  nm_heap : list NetHost;
  nm_Map : option (ZoneNetworkMap ref);
  nm_Version : Z;
  nm_Bridge : Z;
  nm_Instance : Z;
  nm_hostPeerIpv4 : gmap string string;
  nm_Hosts : gmap string ref;
  nm_changed : bool;
  nm_zoneName : string;
  nm_ready : bool }.

Definition NewNetworkManager : NetworkManager :=
  {| nm_heap := []; nm_Map := None; nm_Version := 0; nm_Bridge := 0; nm_Instance := 0;
     nm_hostPeerIpv4 := ∅; nm_Hosts := ∅; nm_changed := false; nm_zoneName := "";
     nm_ready := false |}.

(** Field updates. *)
Definition set_map (nm : NetworkManager) (m : ZoneNetworkMap ref) : NetworkManager :=
  {| nm_heap := nm_heap nm; nm_Map := Some m; nm_Version := nm_Version nm;
     nm_Bridge := nm_Bridge nm; nm_Instance := nm_Instance nm;
     nm_hostPeerIpv4 := nm_hostPeerIpv4 nm; nm_Hosts := nm_Hosts nm;
     nm_changed := nm_changed nm; nm_zoneName := nm_zoneName nm; nm_ready := nm_ready nm |}.
Definition set_version (nm : NetworkManager) (v : Z) : NetworkManager :=
  {| nm_heap := nm_heap nm; nm_Map := nm_Map nm; nm_Version := v;
     nm_Bridge := nm_Bridge nm; nm_Instance := nm_Instance nm;
     nm_hostPeerIpv4 := nm_hostPeerIpv4 nm; nm_Hosts := nm_Hosts nm;
     nm_changed := nm_changed nm; nm_zoneName := nm_zoneName nm; nm_ready := nm_ready nm |}.
Definition set_flags (nm : NetworkManager) (changed ready : bool) : NetworkManager :=
  {| nm_heap := nm_heap nm; nm_Map := nm_Map nm; nm_Version := nm_Version nm;
     nm_Bridge := nm_Bridge nm; nm_Instance := nm_Instance nm;
     nm_hostPeerIpv4 := nm_hostPeerIpv4 nm; nm_Hosts := nm_Hosts nm;
     nm_changed := changed; nm_zoneName := nm_zoneName nm; nm_ready := ready |}.
Definition set_zone (nm : NetworkManager) (z : string) (changed : bool) : NetworkManager :=
  {| nm_heap := nm_heap nm; nm_Map := nm_Map nm; nm_Version := nm_Version nm;
     nm_Bridge := nm_Bridge nm; nm_Instance := nm_Instance nm;
     nm_hostPeerIpv4 := nm_hostPeerIpv4 nm; nm_Hosts := nm_Hosts nm;
     nm_changed := changed; nm_zoneName := z; nm_ready := nm_ready nm |}.
Definition set_nets (nm : NetworkManager) (bridge instance : Z) : NetworkManager :=
  {| nm_heap := nm_heap nm; nm_Map := nm_Map nm; nm_Version := nm_Version nm;
     nm_Bridge := bridge; nm_Instance := instance;
     nm_hostPeerIpv4 := nm_hostPeerIpv4 nm; nm_Hosts := nm_Hosts nm;
     nm_changed := nm_changed nm; nm_zoneName := nm_zoneName nm; nm_ready := nm_ready nm |}.
Definition set_peer_ip (nm : NetworkManager) (id ip : string) : NetworkManager :=
  {| nm_heap := nm_heap nm; nm_Map := nm_Map nm; nm_Version := nm_Version nm;
     nm_Bridge := nm_Bridge nm; nm_Instance := nm_Instance nm;
     nm_hostPeerIpv4 := <[id := ip]> (nm_hostPeerIpv4 nm); nm_Hosts := nm_Hosts nm;
     nm_changed := nm_changed nm; nm_zoneName := nm_zoneName nm; nm_ready := nm_ready nm |}.
Definition set_hosts (nm : NetworkManager) (heap : list NetHost) (hosts : gmap string ref) : NetworkManager :=
  {| nm_heap := heap; nm_Map := nm_Map nm; nm_Version := nm_Version nm;
     nm_Bridge := nm_Bridge nm; nm_Instance := nm_Instance nm;
     nm_hostPeerIpv4 := nm_hostPeerIpv4 nm; nm_Hosts := hosts;
     nm_changed := nm_changed nm; nm_zoneName := nm_zoneName nm; nm_ready := nm_ready nm |}.

Definition with_bridge {R} (m : ZoneNetworkMap R) (cidr : string) : ZoneNetworkMap R :=
  {| zm_BridgeCidr := cidr; zm_InstanceCidr := zm_InstanceCidr m; zm_Domain := zm_Domain m;
     zm_BridgeHost := zm_BridgeHost m; zm_Instance := zm_Instance m;
     zm_Updated := zm_Updated m; zm_Revision := zm_Revision m |}.
Definition with_instance {R} (m : ZoneNetworkMap R) (cidr : string) : ZoneNetworkMap R :=
  {| zm_BridgeCidr := zm_BridgeCidr m; zm_InstanceCidr := cidr; zm_Domain := zm_Domain m;
     zm_BridgeHost := zm_BridgeHost m; zm_Instance := zm_Instance m;
     zm_Updated := zm_Updated m; zm_Revision := zm_Revision m |}.
Definition with_domain {R} (m : ZoneNetworkMap R) (d : string) : ZoneNetworkMap R :=
  {| zm_BridgeCidr := zm_BridgeCidr m; zm_InstanceCidr := zm_InstanceCidr m; zm_Domain := d;
     zm_BridgeHost := zm_BridgeHost m; zm_Instance := zm_Instance m;
     zm_Updated := zm_Updated m; zm_Revision := zm_Revision m |}.
Definition with_maps {R R'} (m : ZoneNetworkMap R) (bh : gmap Z R') (vi : gmap Z string) : ZoneNetworkMap R' :=
  {| zm_BridgeCidr := zm_BridgeCidr m; zm_InstanceCidr := zm_InstanceCidr m; zm_Domain := zm_Domain m;
     zm_BridgeHost := bh; zm_Instance := vi;
     zm_Updated := zm_Updated m; zm_Revision := zm_Revision m |}.
Definition with_stamp {R} (m : ZoneNetworkMap R) (now : Z) : ZoneNetworkMap R :=
  {| zm_BridgeCidr := zm_BridgeCidr m; zm_InstanceCidr := zm_InstanceCidr m; zm_Domain := zm_Domain m;
     zm_BridgeHost := zm_BridgeHost m; zm_Instance := zm_Instance m;
     zm_Updated := now; zm_Revision := u64 (zm_Revision m + 1) |}.

(** The part of [inapi.Host] the manager reads and writes. *)
Record HostDeploy := { hd_VpcBridgeIp : string; hd_VpcInstanceCidr : string; hd_PortUsed : list Z }.
Record Host := { h_Id : string; h_PeerAddr : string; h_Deploy : option HostDeploy }.

(** * Operations *)

(** [&^ 0xFF] and [&^ 0xFFFF] as the source writes them. *)
Definition mask24 (v : Z) : Z := Z.land v (2 ^ 32 - 2 ^ 8).
Definition mask16 (v : Z) : Z := Z.land v (2 ^ 32 - 2 ^ 16).

(** The record as it goes to the database: references followed. *)
Definition snapshot (heap : list NetHost) (m : ZoneNetworkMap ref) : ZoneNetworkMap NetHost :=
  with_maps m (omap (fun r => heap !! r) (zm_BridgeHost m)) (zm_Instance m).

Section ops.
Context `{Ip6Syntax} {S : Type} `{Kv S (ZoneNetworkMap NetHost)} `{MapRange}.

(** [flush]: stamp the map and write it; the new version is kept if it is written. *)
Definition flush (s : S) (now : Z) (nm : NetworkManager) : S * NetworkManager * result unit :=
  let m := with_stamp (match nm_Map nm with Some m => m | None => emptyMap end) now in
  let nm := set_map nm m in
  let '(s, rs) := kv_write s kv_default (NsZoneletNetworkIPAM (nm_zoneName nm)) (snapshot (nm_heap nm) m) in
  match rs with
  | KvOk v => (s, set_version nm v, Ok tt)
  | _ => (s, nm, Err ("[NetworkManager.flush] write: " +:+ kv_msg rs))
  end.

(** A CIDR of [ZoneSetup]: its address, if it is a private one. *)
Definition privateCIDR (cidr bad notPrivate : string) : result Z :=
  match ParseCIDR cidr with
  | None => Err bad
  | Some ip =>
    match ParsePrivateIP (ip_string ip) with
    | Err e => Err notPrivate
    | Ok _ => match To4 ip with Some b => Ok (BytesToUint32 b) | None => Err "panic" end
    end
  end.

Definition curMap (nm : NetworkManager) : ZoneNetworkMap ref :=
  match nm_Map nm with Some m => m | None => emptyMap end.

(** The three settings of [ZoneSetup], each applied when it differs. *)
Definition setupBridge (nm : NetworkManager) (cidr : string) : result NetworkManager :=
  if bool_decide (cidr <> zm_BridgeCidr (curMap nm)) then
    let? b := privateCIDR cidr "invalid bridge CIDR" "bridge CIDR must be a private range" in
    Ok (set_flags (set_nets (set_map nm (with_bridge (curMap nm) cidr)) b (nm_Instance nm)) true (nm_ready nm))
  else Ok nm.

Definition setupInstance (nm : NetworkManager) (cidr : string) : result NetworkManager :=
  if bool_decide (cidr <> zm_InstanceCidr (curMap nm)) then
    let? b := privateCIDR cidr "invalid instance CIDR" "instance CIDR must be a private range" in
    Ok (set_flags (set_nets (set_map nm (with_instance (curMap nm) cidr)) (nm_Bridge nm) b) true (nm_ready nm))
  else Ok nm.

Definition setupDomain (nm : NetworkManager) (domain : string) : NetworkManager :=
  if bool_decide (domain <> "") && bool_decide (domain <> zm_Domain (curMap nm))
  then set_flags (set_map nm (with_domain (curMap nm) domain)) true (nm_ready nm) else nm.

Definition ZoneSetup (s : S) (now : Z) (nm : NetworkManager) (zoneName bridgeCIDR instanceCIDR domain : string)
  : S * NetworkManager * result unit :=
  if bool_decide (zoneName = "") || bool_decide (bridgeCIDR = "") || bool_decide (instanceCIDR = "")
  then (s, nm, Ok tt)
  else if bool_decide (zoneName <> nm_zoneName nm) && bool_decide (nm_zoneName nm <> "")
  then (s, nm, Err "invalid zone name")
  else
  let nm := if bool_decide (zoneName <> nm_zoneName nm) then set_zone nm zoneName true else nm in
  let nm := set_map nm (curMap nm) in
  match setupBridge nm bridgeCIDR with
  | Err e => (s, nm, Err e)
  | Ok nm =>
    match setupInstance nm instanceCIDR with
    | Err e => (s, nm, Err e)
    | Ok nm =>
      let nm := setupDomain nm domain in
      if nm_changed nm then
        match flush s now nm with
        | (s, nm, Err e) => (s, nm, Err e)
        | (s, nm, Ok _) => (s, set_flags nm false true, Ok tt)
        end
      else (s, set_flags nm (nm_changed nm) true, Ok tt)
    end
  end.

(** [init]: the maps of a manager that has a map are never nil here. *)
Definition HostPeerIp (nm : NetworkManager) (hostId : string) : option string :=
  nm_hostPeerIpv4 nm !! hostId.

Definition HostNetwork (nm : NetworkManager) (hostId : string) : option NetHost :=
  r ← nm_Hosts nm !! hostId; nm_heap nm !! r.

(** The IPv4 address of a CIDR; an address that is not IPv4, on which the source
    panics, and a malformed one, on which it returns the parse error, have none. *)
Definition cidr_addr (cidr : string) : option Z :=
  ip ← ParseCIDR cidr; BytesToUint32 <$> To4 ip.

(** A decoded record: its hosts are allocated in a fresh store, in the order the
    decoder meets them. *)
Fixpoint alloc_all (l : list (Z * NetHost)) (heap : list NetHost) (bh : gmap Z ref)
  : list NetHost * gmap Z ref :=
  match l with
  | [] => (heap, bh)
  | (k, h) :: l' => alloc_all l' (heap ++ [h])%list (<[k := length heap]> bh)
  end.

(** The loop of [Restore] over the bridges: foreign ones are deleted, the others
    enter [Hosts]. *)
Definition restoreHosts (bridge : Z) (bh : gmap Z ref) (heap : list NetHost) : gmap string ref :=
  foldl (fun hosts kr =>
           if bool_decide (mask24 (fst kr) <> bridge) then hosts
           else match heap !! (snd kr) with
                | Some h => if nh_Bridge h =? fst kr then <[nh_Id h := snd kr]> hosts else hosts
                | None => hosts
                end)
        ∅ (map_range bh).

Definition Restore (s : S) (nm : NetworkManager) (zoneName : string) : NetworkManager * result unit :=
  if bool_decide (zoneName = "") then (nm, Err "[NetworkManager.Restore] zone init not ready")
  else
  let nm := set_zone nm zoneName (nm_changed nm) in
  match kv_read s (NsZoneletNetworkIPAM zoneName) with
  | KvNotFound => (nm, Ok tt)
  | KvErr msg => (nm, Err ("[NetworkManager.Restore] read: " +:+ msg))
  | KvOk it =>
    if it_version it <=? nm_Version nm then (nm, Ok tt)
    else match it_value it with
    | None => (nm, Err "[NetworkManager.Restore] unmarshal")
    | Some state =>
      let '(heap, bh) := alloc_all (map_range (zm_BridgeHost state)) [] ∅ in
      (* nm.Map = &state; nm.Hosts = {} *)
      let nm := set_hosts (set_map nm (with_maps state bh (zm_Instance state))) heap ∅ in
      match cidr_addr (zm_BridgeCidr state) with
      | None => (nm, Err "invalid CIDR address")
      | Some ip1 =>
        let bridge := mask24 ip1 in
        let nm := set_nets nm bridge (nm_Instance nm) in
        match cidr_addr (zm_InstanceCidr state) with
        | None => (nm, Err "invalid CIDR address")
        | Some ip2 =>
          let instance := mask16 ip2 in
          let nm := set_nets nm bridge instance in
          let hosts := restoreHosts bridge bh heap in
          let bh' := filter (fun kr => mask24 (fst kr) = bridge) bh in
          let vi' := filter (fun kr => mask16 (fst kr) = instance) (zm_Instance state) in
          let nm := set_hosts (set_map nm (with_maps state bh' vi')) heap hosts in
          (set_flags (set_version nm (it_version it)) (nm_changed nm) true, Ok tt)
        end
      end
    end
  end.

(** The octets of the allocation loops. *)
Definition first_octet (ok : Z -> bool) : option Z := first_from ok VpcAllocMin VpcAllocCap.

Definition bridge_of (nm : NetworkManager) (m : ZoneNetworkMap ref) (bn : Z) : option NetHost :=
  r ← zm_BridgeHost m !! bn; nm_heap nm !! r.

(** Whether the record a host has carries the bridge address of its deployment, and
    the peer address it reports. *)
Definition same_ip (nm : NetworkManager) (deploy : HostDeploy) (r : ref) : bool :=
  match nm_heap nm !! r with
  | Some h => bool_decide (Uint32ToIpv4 (nh_Bridge h) = hd_VpcBridgeIp deploy)
  | None => false
  end.
Definition same_peer (nm : NetworkManager) (peer : Z) (r : ref) : bool :=
  match nm_heap nm !! r with Some h => nh_Peer h =? peer | None => false end.

(** The record a host has: by id, or, if its address differs, by a search of the
    current bridge network. *)
Definition currentBridge (nm : NetworkManager) (m : ZoneNetworkMap ref) (hostId : string)
    (deploy : HostDeploy) : option ref :=
  let baseBridge := mask24 (nm_Bridge nm) in
  match nm_Hosts nm !! hostId with
  | Some r =>
    if same_ip nm deploy r then Some r
    else n ← first_octet (fun n => match bridge_of nm m (u32 (baseBridge + n)) with
                                   | Some v => bool_decide (nh_Id v = hostId)
                                   | None => false
                                   end);
         zm_BridgeHost m !! u32 (baseBridge + n)
  | None => None
  end.

(** The first free octet of the bridge network, with the instance subnet of the same
    octet. *)
Definition newBridge (nm : NetworkManager) (m : ZoneNetworkMap ref) (hostId : string)
  : option (NetworkManager * ref) :=
  let baseBridge := mask24 (nm_Bridge nm) in
  n ← first_octet (fun n => bool_decide (zm_BridgeHost m !! u32 (baseBridge + n) = None));
  let bn := u32 (baseBridge + n) in
  let instanceNet := u32 (mask16 (nm_Instance nm) + Z.shiftl n 8) in
  let r := length (nm_heap nm) in
  let h := {| nh_Id := hostId; nh_Bridge := bn; nh_Instance := instanceNet; nh_Peer := 0 |} in
  Some (set_hosts (set_map nm (with_maps m (<[bn := r]> (zm_BridgeHost m)) (zm_Instance m)))
          (nm_heap nm ++ [h])%list (<[hostId := r]> (nm_Hosts nm)), r).

Definition chooseBridge (nm : NetworkManager) (m : ZoneNetworkMap ref) (hostId : string)
    (deploy : HostDeploy) : option (NetworkManager * ref) :=
  match currentBridge nm m hostId deploy with
  | Some r => Some (nm, r)
  | None => newBridge nm m hostId
  end.

(** [RefreshHostNetwork]: the host as it is left, and whether it changed. *)
Definition RefreshHostNetwork (s : S) (now : Z) (nm : NetworkManager) (host : Host)
  : S * NetworkManager * Host * result bool :=
  match h_Deploy host with
  | None => (s, nm, host, Ok false)
  | Some deploy =>
  if bool_decide (h_PeerAddr host = "") then (s, nm, host, Ok false) else
  match ParsePrivateAddress (h_PeerAddr host) with
  | Err e => (s, nm, host, Err e)
  | Ok peerIp =>
    let peer := BytesToUint32 peerIp in
    let nm := set_peer_ip nm (h_Id host) (IP4ToString peerIp) in
    if negb (nm_ready nm) then (s, nm, host, Ok false) else
    match nm_Map nm with
    | None => (s, nm, host, Err "panic: nil map")
    | Some m =>
      if match nm_Hosts nm !! h_Id host with
         | Some r => same_ip nm deploy r && same_peer nm peer r
         | None => false
         end
      then (s, nm, host, Ok false)
      else
      match chooseBridge nm m (h_Id host) deploy with
      | None => (s, nm, host, Ok false)
      | Some (nm, r) =>
        match nm_heap nm !! r with
        | None => (s, nm, host, Err "panic: dangling")
        | Some hostNet =>
          let host := {| h_Id := h_Id host; h_PeerAddr := h_PeerAddr host;
                         h_Deploy := Some {| hd_VpcBridgeIp := Uint32ToIpv4 (nh_Bridge hostNet);
                                             hd_VpcInstanceCidr := Uint32ToIpv4 (nh_Instance hostNet) +:+ "/24";
                                             hd_PortUsed := hd_PortUsed deploy |} |} in
          let hostNet' := {| nh_Id := nh_Id hostNet; nh_Bridge := nh_Bridge hostNet;
                             nh_Instance := nh_Instance hostNet; nh_Peer := peer |} in
          let nm := set_hosts nm (<[r := hostNet']> (nm_heap nm)) (nm_Hosts nm) in
          match flush s now nm with
          | (s, nm, Err e) => (s, nm, host, Err e)
          | (s, nm, Ok _) => (s, nm, host, Ok true)
          end
        end
      end
    end
  end
  end.

Definition VpcInstance (nm : NetworkManager) (ipv4 : string) : string :=
  match nm_Map nm with
  | Some m => default "" (zm_Instance m !! Ipv4ToUint32 ipv4)
  | None => ""
  end.

Definition insRepId (instanceName : string) (repId : Z) : string :=
  instanceName +:+ "_" +:+ itoa repId.

(** The address of the subnet the replica has, and the first that nobody has. *)
Definition ownedOctet (m : ZoneNetworkMap ref) (baseSubnet : Z) (id : string) : option Z :=
  first_octet (fun n => bool_decide (zm_Instance m !! u32 (baseSubnet + n) = Some id)).
Definition freeOctet (m : ZoneNetworkMap ref) (baseSubnet : Z) : option Z :=
  first_octet (fun n => bool_decide (zm_Instance m !! u32 (baseSubnet + n) = None)).

Definition AllocHostSubNetwork (s : S) (now : Z) (nm : NetworkManager) (hostId instanceName : string) (repId : Z)
  : S * NetworkManager * string :=
  let id := insRepId instanceName repId in
  if negb (nm_ready nm) then (s, nm, "") else
  match nm_Map nm, HostNetwork nm hostId with
  | Some m, Some host =>
    let baseSubnet := mask24 (nh_Instance host) in
    match ownedOctet m baseSubnet id with
    | Some n => (s, nm, Uint32ToIpv4 (u32 (baseSubnet + n)))
    | None =>
      match freeOctet m baseSubnet with
      | None => (s, nm, "")
      | Some n =>
        let ipn := u32 (baseSubnet + n) in
        let nm := set_map nm (with_maps m (zm_BridgeHost m) (<[ipn := id]> (zm_Instance m))) in
        match flush s now nm with
        | (s, nm, Err _) => (s, nm, "")
        | (s, nm, Ok _) => (s, nm, Uint32ToIpv4 ipn)
        end
      end
    end
  | _, _ => (s, nm, "")
  end.
End ops.

(** * Invariants *)

(** An allocated bridge address: its octet is in the allocation range, and the
    instance subnet has the same octet. *)
Definition alloc_ok (k : Z) (h : NetHost) : Prop :=
  in_u32 k /\ nh_Bridge h = k /\ VpcAllocMin <= k mod 256 <= VpcAllocMax /\
  in_u32 (nh_Instance h) /\ nh_Instance h mod 2 ^ 16 = 256 * (k mod 256).

(** Within one bridge network a host has one bridge. *)
Definition bridges_unique (look : Z -> option NetHost) : Prop :=
  forall k1 k2 h1 h2, look k1 = Some h1 -> look k2 = Some h2 ->
    nh_Id h1 = nh_Id h2 -> k1 / 256 = k2 / 256 -> k1 = k2.

Lemma mask24_low v : mask24 v mod 256 = 0.
Proof.
  unfold mask24. change 256 with (2 ^ 8). rewrite <- Z.land_ones by lia.
  rewrite <- Z.land_assoc. change (Z.land (2 ^ 32 - 2 ^ 8) (Z.ones 8)) with 0. apply Z.land_0_r.
Qed.

Lemma mask16_low v : mask16 v mod 2 ^ 16 = 0.
Proof.
  unfold mask16. rewrite <- Z.land_ones by lia.
  rewrite <- Z.land_assoc. change (Z.land (2 ^ 32 - 2 ^ 16) (Z.ones 16)) with 0. apply Z.land_0_r.
Qed.

(** An octet added to a network of 256 addresses. *)
Lemma octet_addr x n : x mod 256 = 0 -> 0 <= n < 256 ->
  u32 (x + n) mod 256 = n /\ u32 (x + n) / 256 = u32 x / 256 /\ in_u32 (u32 (x + n)).
Proof.
  intros Hx Hn.
  assert (Hx' : exists q, x = 256 * q) by (exists (x / 256); pose proof (Z.div_mod x 256); lia).
  destruct Hx' as [q ->]. unfold u32, wrap_u. change (2 ^ 32) with (256 * 2 ^ 24).
  assert (E : (256 * q + n) mod (256 * 2 ^ 24) = 256 * (q mod 2 ^ 24) + n).
  { rewrite Z.rem_mul_r by lia. rewrite (Z.add_comm (256 * q)), (Z.mul_comm 256 q).
    rewrite Z.mod_add, Z.div_add by lia. rewrite (Z.mod_small n 256), (Z.div_small n) by lia. rewrite Z.add_0_l. ring. }
  assert (E0 : (256 * q) mod (256 * 2 ^ 24) = 256 * (q mod 2 ^ 24)) by (apply Z.mul_mod_distr_l; lia).
  rewrite E, E0. pose proof (Z.mod_pos_bound q (2 ^ 24)).
  split_and!.
  - rewrite Z.add_comm, Z.mul_comm, Z.mod_add by lia. apply Z.mod_small. lia.
  - rewrite Z.mul_comm, Z.div_add_l, Z.div_small, Z.div_mul by lia. lia.
  - split; lia.
Qed.

(** Every address of the network is its base plus its octet. *)
Lemma octet_addr_inv x k n : x mod 256 = 0 -> 0 <= n < 256 -> in_u32 k -> k / 256 = u32 (x + n) / 256 ->
  k = u32 (x + k mod 256).
Proof.
  intros Hx Hn Hk E. pose proof (Z.mod_pos_bound k 256) as Hb.
  destruct (octet_addr x n Hx Hn) as (_ & En & _).
  destruct (octet_addr x (k mod 256)) as (E1 & E2 & _); [done|lia|].
  pose proof (Z.div_mod k 256). pose proof (Z.div_mod (u32 (x + k mod 256)) 256). lia.
Qed.

Lemma instance_addr x n : x mod 2 ^ 16 = 0 -> 0 <= n < 256 ->
  u32 (x + Z.shiftl n 8) mod 2 ^ 16 = 256 * n /\ in_u32 (u32 (x + Z.shiftl n 8)).
Proof.
  intros Hx Hn. rewrite Z.shiftl_mul_pow2 by lia.
  split; [|apply u32_range]. unfold u32, wrap_u.
  change (2 ^ 32) with (2 ^ 16 * 2 ^ 16). rewrite Z.rem_mul_r by lia.
  rewrite (Z.mul_comm (2 ^ 16) (_ mod _)), Z.mod_add, Z.mod_mod by lia.
  rewrite Z.add_mod, Hx, Z.add_0_l, Z.mod_mod by lia. rewrite Z.mod_small; lia.
Qed.

Section inv.
Context `{Ip6Syntax} {S : Type} `{KvLaws S (ZoneNetworkMap NetHost)} `{MapRangeLaws}.

Definition snapshot_good (m : ZoneNetworkMap NetHost) : Prop :=
  is_Some (cidr_addr (zm_BridgeCidr m)) /\ is_Some (cidr_addr (zm_InstanceCidr m)) /\
  (forall k h, zm_BridgeHost m !! k = Some h -> alloc_ok k h) /\
  bridges_unique (fun k => zm_BridgeHost m !! k).

Definition store_good (s : S) : Prop :=
  forall zone it m, kv_read s (NsZoneletNetworkIPAM zone) = KvOk it -> it_value it = Some m -> snapshot_good m.

Definition cidr_ok (c : string) : Prop := c = "" \/ is_Some (cidr_addr c).

Record map_inv (nm : NetworkManager) (m : ZoneNetworkMap ref) : Prop := {
  mi_bridge : cidr_ok (zm_BridgeCidr m);
  mi_instance : cidr_ok (zm_InstanceCidr m);
  mi_ready : nm_ready nm = true -> zm_BridgeCidr m <> "" /\ zm_InstanceCidr m <> "";
  mi_valid : forall k r, zm_BridgeHost m !! k = Some r ->
    exists h, nm_heap nm !! r = Some h /\ alloc_ok k h /\ is_Some (nm_Hosts nm !! nh_Id h);
  mi_unique : bridges_unique (bridge_of nm m);
  mi_hosts : forall id r, nm_Hosts nm !! id = Some r ->
    exists h, nm_heap nm !! r = Some h /\ nh_Id h = id /\ zm_BridgeHost m !! nh_Bridge h = Some r }.

Record nm_inv (nm : NetworkManager) : Prop := {
  ni_none : nm_Map nm = None -> nm_ready nm = false /\ nm_Hosts nm = ∅;
  ni_map : forall m, nm_Map nm = Some m -> map_inv nm m }.

Lemma bridge_of_Some nm m k h : bridge_of nm m k = Some h <->
  exists r, zm_BridgeHost m !! k = Some r /\ nm_heap nm !! r = Some h.
Proof. unfold bridge_of. by rewrite bind_Some. Qed.

Lemma snapshot_lookup nm m k :
  zm_BridgeHost (snapshot (nm_heap nm) m) !! k = bridge_of nm m k.
Proof. unfold snapshot, bridge_of, with_maps. cbn. by rewrite lookup_omap. Qed.

Lemma snapshot_is_good nm m : map_inv nm m -> zm_BridgeCidr m <> "" -> zm_InstanceCidr m <> "" ->
  snapshot_good (snapshot (nm_heap nm) m).
Proof.
  intros Hm Hb Hi. split_and!.
  - by destruct (mi_bridge _ _ Hm).
  - by destruct (mi_instance _ _ Hm).
  - intros k h. rewrite snapshot_lookup, bridge_of_Some. intros (r & Hr & Hh).
    destruct (mi_valid _ _ Hm k r Hr) as (h' & Hh' & Hok & _). by rewrite Hh in Hh'; injection Hh' as ->.
  - intros k1 k2 h1 h2. rewrite !snapshot_lookup. apply (mi_unique _ _ Hm).
Qed.

Lemma store_good_write s o zone m s' r :
  store_good s -> snapshot_good m -> kv_write s o (NsZoneletNetworkIPAM zone) m = (s', r) -> store_good s'.
Proof.
  intros Hs Hm Hw zone' it m' Hr Hv.
  destruct r as [n| |e].
  - destruct (kv_write_ok _ _ _ _ _ _ Hw) as (Hk & Hne & _).
    destruct (decide (NsZoneletNetworkIPAM zone' = NsZoneletNetworkIPAM zone)) as [E|E].
    + rewrite E, Hk in Hr. injection Hr as <-. cbn in Hv. by injection Hv as <-.
    + rewrite Hne in Hr by done. by eapply Hs.
  - rewrite (kv_write_fail _ _ _ _ _ _ Hw) in Hr by done. by eapply Hs.
  - rewrite (kv_write_fail _ _ _ _ _ _ Hw) in Hr by done. by eapply Hs.
Qed.

(** Stamping the map and recording the version changes nothing of the invariant. *)
Lemma flush_inv s now nm s' nm' r :
  store_good s -> nm_inv nm ->
  (forall m, nm_Map nm = Some m -> zm_BridgeCidr m <> "" /\ zm_InstanceCidr m <> "") ->
  is_Some (nm_Map nm) ->
  flush s now nm = (s', nm', r) ->
  store_good s' /\ nm_inv nm' /\ nm_heap nm' = nm_heap nm /\ nm_Hosts nm' = nm_Hosts nm /\
  nm_Map nm' = (fun m => with_stamp m now) <$> nm_Map nm /\ nm_ready nm' = nm_ready nm /\
  nm_Bridge nm' = nm_Bridge nm /\ nm_Instance nm' = nm_Instance nm.
Proof.
  intros Hs Hi Hne [m Em]. unfold flush. rewrite Em.
  destruct (kv_write _ _ _ _) as [s1 rs] eqn:Ew.
  pose proof (ni_map _ Hi m Em) as Hm. destruct (Hne m Em) as [Hb Hc].
  assert (Hgood : snapshot_good (snapshot (nm_heap nm) (with_stamp m now)))
    by exact (snapshot_is_good nm m Hm Hb Hc).
  pose proof (store_good_write _ _ _ _ _ _ Hs Hgood Ew) as Hs1.
  assert (Hi' : forall v, nm_inv (set_version (set_map nm (with_stamp m now)) v)).
  { intros v. split; [done|]. intros m' [= <-]. destruct Hm. by constructor. }
  assert (Hi'' : nm_inv (set_map nm (with_stamp m now))).
  { split; [done|]. intros m' [= <-]. destruct Hm. by constructor. }
  destruct rs; intros [= <- <- <-]; split_and!; cbn; rewrite ?Em; done.
Qed.

(** *** Setup *)

Lemma privateCIDR_ok cidr e1 e2 b : privateCIDR cidr e1 e2 = Ok b -> is_Some (cidr_addr cidr).
Proof.
  unfold privateCIDR, cidr_addr. destruct (ParseCIDR cidr) as [ip|]; [|done]. cbn.
  destruct (ParsePrivateIP _); [|done]. destruct (To4 ip); [|done]. eauto.
Qed.

(** Changing a field that the invariant on hosts does not read. *)
Lemma map_inv_ext nm nm' m m' :
  map_inv nm m -> nm_heap nm' = nm_heap nm -> nm_Hosts nm' = nm_Hosts nm ->
  zm_BridgeHost m' = zm_BridgeHost m ->
  cidr_ok (zm_BridgeCidr m') -> cidr_ok (zm_InstanceCidr m') ->
  (nm_ready nm' = true -> zm_BridgeCidr m' <> "" /\ zm_InstanceCidr m' <> "") ->
  map_inv nm' m'.
Proof.
  intros Hm Eh Eo Eb ? ? ?. split; try done; rewrite ?Eh, ?Eo, ?Eb; try apply Hm.
  unfold bridge_of. rewrite Eh, Eb. apply (mi_unique _ _ Hm).
Qed.

Lemma map_inv_empty nm : nm_Hosts nm = ∅ -> nm_ready nm = false -> map_inv nm emptyMap.
Proof.
  intros Eh Er. split; cbn; [by left|by left|by rewrite Er| | |].
  - intros k r. by rewrite lookup_empty.
  - intros k1 k2 h1 h2. rewrite bridge_of_Some. cbn. setoid_rewrite lookup_empty. naive_solver.
  - intros id r. by rewrite Eh, lookup_empty.
Qed.

Lemma nm_inv_cur nm : nm_inv nm -> map_inv nm (curMap nm).
Proof.
  intros Hi. unfold curMap. destruct (nm_Map nm) as [m|] eqn:Em; [by apply Hi|].
  destruct (ni_none _ Hi Em). by apply map_inv_empty.
Qed.

Lemma nm_inv_intro nm m : nm_Map nm = Some m -> map_inv nm m -> nm_inv nm.
Proof. intros E Hm. split; [by rewrite E|]. intros m'. rewrite E. by intros [= <-]. Qed.

(** What the steps of a setup keep: the invariant, and the networks set so far. *)
Definition setup_inv (bridge instance : option string) (nm : NetworkManager) : Prop :=
  nm_inv nm /\ is_Some (nm_Map nm) /\
  (forall b, bridge = Some b -> zm_BridgeCidr (curMap nm) = b) /\
  (forall i, instance = Some i -> zm_InstanceCidr (curMap nm) = i).

Lemma setupBridge_inv nm b nm' : setup_inv None None nm -> b <> "" ->
  setupBridge nm b = Ok nm' -> setup_inv (Some b) None nm'.
Proof.
  intros (Hi & Hs & _) Hb. pose proof (nm_inv_cur _ Hi) as Hm. unfold setupBridge.
  destruct (bool_decide_reflect (b <> zm_BridgeCidr (curMap nm))) as [Hd|Hd].
  - destruct (privateCIDR b _ _) eqn:Ep; [|done]. intros [= <-]. apply privateCIDR_ok in Ep.
    split_and!; [|done|by intros b' [= <-]|done]. eapply nm_inv_intro; [done|].
    eapply map_inv_ext; [exact Hm|done..|by right|apply Hm|].
    intros Hr. split; [done|]. by apply (mi_ready _ _ Hm).
  - intros [= <-]. split_and!; [done|done| |done]. intros b' [= <-].
    by destruct (decide (b = zm_BridgeCidr (curMap nm))).
Qed.

Lemma setupInstance_inv nm b i nm' : setup_inv (Some b) None nm -> i <> "" ->
  setupInstance nm i = Ok nm' -> setup_inv (Some b) (Some i) nm'.
Proof.
  intros (Hi & Hs & Hb & _) Hne. pose proof (nm_inv_cur _ Hi) as Hm. unfold setupInstance.
  destruct (bool_decide_reflect (i <> zm_InstanceCidr (curMap nm))) as [Hd|Hd].
  - destruct (privateCIDR i _ _) eqn:Ep; [|done]. intros [= <-]. apply privateCIDR_ok in Ep.
    split_and!; [|done|done|by intros i' [= <-]]. eapply nm_inv_intro; [done|].
    eapply map_inv_ext; [exact Hm|done..|apply Hm|by right|].
    intros Hr. split; [|done]. by apply (mi_ready _ _ Hm).
  - intros [= <-]. split_and!; [done..|]. intros i' [= <-].
    by destruct (decide (i = zm_InstanceCidr (curMap nm))).
Qed.

Lemma setupDomain_inv nm b i d : setup_inv b i nm -> setup_inv b i (setupDomain nm d).
Proof.
  intros (Hi & Hs & Hb & Hin). pose proof (nm_inv_cur _ Hi) as Hm. unfold setupDomain.
  destruct (_ && _); [|done]. split_and!; [|done|exact Hb|exact Hin].
  eapply nm_inv_intro; [done|]. eapply map_inv_ext; [exact Hm|done..|apply Hm|apply Hm|apply Hm].
Qed.

Lemma setup_ready nm b i c : setup_inv (Some b) (Some i) nm -> b <> "" -> i <> "" ->
  nm_inv (set_flags nm c true).
Proof.
  intros (Hi & [m Em] & Hb & Hin) Hbne Hine. pose proof (nm_inv_cur _ Hi) as Hm.
  unfold curMap in *. rewrite Em in *. eapply nm_inv_intro; [exact Em|].
  eapply map_inv_ext; [exact Hm|done..|apply Hm|apply Hm|]. intros _.
  by rewrite (Hb b), (Hin i).
Qed.

Lemma ZoneSetup_inv s now nm z b i d s' nm' r :
  store_good s -> nm_inv nm -> ZoneSetup s now nm z b i d = (s', nm', r) ->
  store_good s' /\ nm_inv nm'.
Proof.
  intros Hs Hi. unfold ZoneSetup.
  destruct (bool_decide_reflect (z = "")), (bool_decide_reflect (b = "")),
    (bool_decide_reflect (i = "")); cbn [orb]; try (by intros [= <- <- <-]).
  destruct (_ && _); [by intros [= <- <- <-]|].
  set (nm0 := if bool_decide _ then _ else nm).
  assert (Hm0 : map_inv nm0 (curMap nm0)).
  { apply nm_inv_cur. subst nm0. destruct (bool_decide _); [|done]. destruct Hi as [Hn Hm].
    split; [exact Hn|]. intros m Em. pose proof (Hm m Em) as Hm'.
    eapply map_inv_ext; [exact Hm'|done..| | |]; apply Hm'. }
  assert (Hset1 : setup_inv None None (set_map nm0 (curMap nm0))).
  { split_and!; [|done..]. eapply nm_inv_intro; [done|].
    eapply map_inv_ext; [exact Hm0|done..| | |]; apply Hm0. }
  clearbody nm0. set (nm1 := set_map nm0 _) in *. clearbody nm1. clear Hi.
  destruct (setupBridge nm1 b) as [nm2|e] eqn:E2; [|intros [= <- <- <-]; split; [done|apply Hset1]].
  apply setupBridge_inv in E2; [|done|done].
  destruct (setupInstance nm2 i) as [nm3|e] eqn:E3; [|intros [= <- <- <-]; split; [done|apply E2]].
  eapply setupInstance_inv in E3; [|done|done].
  pose proof (setupDomain_inv _ _ _ d E3) as H4. set (nm4 := setupDomain nm3 d) in *. clearbody nm4.
  destruct (nm_changed nm4).
  - destruct (flush s now nm4) as [[s5 nm5] rf] eqn:Ef.
    destruct H4 as (Hi4 & [m4 Em4] & Hb4 & Hn4). unfold curMap in Hb4, Hn4. rewrite Em4 in Hb4, Hn4.
    apply flush_inv in Ef; [|done|done| |by rewrite Em4].
    2: { intros m. rewrite Em4. intros [= <-]. by rewrite (Hb4 b), (Hn4 i). }
    destruct Ef as (Hs5 & Hi5 & _ & _ & Em5 & _). rewrite Em4 in Em5.
    destruct rf; intros [= <- <- <-]; split; try done.
    eapply (setup_ready _ b i); [|done|done]. split_and!; [done|by rewrite Em5|..];
      unfold curMap; rewrite Em5; assumption.
  - intros [= <- <- <-]. split; [done|]. by eapply setup_ready.
Qed.

(** *** Restore *)

Lemma alloc_all_spec l heap bh heap' bh' :
  NoDup (map fst l) -> (forall k, k ∈ map fst l -> bh !! k = None) ->
  (forall k r, bh !! k = Some r -> (r < length heap)%nat) ->
  alloc_all l heap bh = (heap', bh') ->
  forall k h, (exists r, bh' !! k = Some r /\ heap' !! r = Some h) <->
              ((k, h) ∈ l \/ exists r, bh !! k = Some r /\ heap !! r = Some h).
Proof.
  revert heap bh. induction l as [|[k0 h0] l IH]; intros heap bh Hnd Hfr Hlt; cbn.
  { intros [= <- <-] k h. rewrite elem_of_nil. naive_solver. }
  cbn in Hnd. apply NoDup_cons in Hnd as [Hk0 Hnd]. intros Ha.
  assert (A : forall k, k ∈ map fst l -> <[k0 := length heap]> bh !! k = None).
  { intros k Hk. rewrite lookup_insert_ne; [apply Hfr; set_solver|]. by intros ->. }
  assert (B : forall k r, <[k0 := length heap]> bh !! k = Some r -> (r < length (heap ++ [h0])%list)%nat).
  { intros k r. rewrite length_app; simpl. destruct (decide (k = k0)) as [->|].
    - rewrite lookup_insert_eq. intros [= <-]. lia.
    - rewrite lookup_insert_ne by done. intros Hr%Hlt. lia. }
  intros k h. rewrite (IH _ _ Hnd A B Ha k h), elem_of_cons.
  destruct (decide (k = k0)) as [->|Hne].
  - setoid_rewrite lookup_insert_eq. rewrite Hfr by set_solver. split.
    + intros [?|(r & [= <-] & Hr)]; [by left; right|].
      rewrite lookup_app_r, Nat.sub_diag in Hr by lia. injection Hr as <-. by left; left.
    + intros [[[= ->]|?]|(? & ? & _)]; [right|by left|done].
      exists (length heap). by rewrite lookup_app_r, Nat.sub_diag by lia.
  - assert (Hheap : forall r, bh !! k = Some r -> (heap ++ [h0])%list !! r = heap !! r).
    { intros r Hr. rewrite lookup_app_l; [done|]. by eapply Hlt. }
    rewrite lookup_insert_ne by done.
    split; [intros [?|(r & Hr & Hh)]|intros [[?|?]|(r & Hr & Hh)]]; simplify_eq; auto.
    + rewrite Hheap in Hh by done. eauto.
    + right. exists r. by rewrite Hheap.
Qed.

Lemma no_refs {n : nat} (k : Z) (r : ref) : (∅ : gmap Z ref) !! k = Some r -> (r < n)%nat.
Proof. by rewrite lookup_empty. Qed.

(** The map of references of a decoded record. *)
Lemma alloc_all_bridges (bhs : gmap Z NetHost) heap bh :
  alloc_all (map_range bhs) [] ∅ = (heap, bh) ->
  forall k h, (exists r, bh !! k = Some r /\ heap !! r = Some h) <-> bhs !! k = Some h.
Proof.
  intros Ha k h. rewrite (alloc_all_spec _ _ _ _ _ (NoDup_map_range bhs) (fun k _ => lookup_empty k) no_refs Ha).
  rewrite elem_of_map_range. split; [intros [?|(? & E & _)]; [done|by rewrite lookup_empty in E]|by left].
Qed.

Lemma alloc_all_dangling l heap bh heap' bh' :
  (forall k r, bh !! k = Some r -> (r < length heap)%nat) ->
  alloc_all l heap bh = (heap', bh') -> forall k r, bh' !! k = Some r -> (r < length heap')%nat.
Proof.
  revert heap bh. induction l as [|[k0 h0] l IH]; intros heap bh Hlt; cbn; [by intros [= <- <-]|].
  apply IH. intros k r. rewrite length_app; simpl. destruct (decide (k = k0)) as [->|].
  - rewrite lookup_insert_eq. intros [= <-]. lia.
  - rewrite lookup_insert_ne by done. intros Hr%Hlt. lia.
Qed.

(** [Hosts] after the loop: every bridge of the network whose record names it. *)
Lemma restoreHosts_spec bridge (bh : gmap Z ref) heap :
  let hosts := restoreHosts bridge bh heap in
  (forall id r, hosts !! id = Some r -> exists k h, bh !! k = Some r /\ heap !! r = Some h /\
     mask24 k = bridge /\ nh_Bridge h = k /\ nh_Id h = id) /\
  (forall k r h, bh !! k = Some r -> heap !! r = Some h -> mask24 k = bridge -> nh_Bridge h = k ->
     is_Some (hosts !! nh_Id h)).
Proof.
  unfold restoreHosts. set (f := fun (hosts : gmap string ref) (kr : Z * ref) => _).
  assert (Hl : forall l hosts0, 
    (forall id r, foldl f hosts0 l !! id = Some r -> hosts0 !! id = Some r \/ exists k h, (k, r) ∈ l /\
       heap !! r = Some h /\ mask24 k = bridge /\ nh_Bridge h = k /\ nh_Id h = id) /\
    (forall id, is_Some (hosts0 !! id) -> is_Some (foldl f hosts0 l !! id)) /\
    (forall k r h, (k, r) ∈ l -> heap !! r = Some h -> mask24 k = bridge -> nh_Bridge h = k ->
       is_Some (foldl f hosts0 l !! nh_Id h))).
  { induction l as [|[k0 r0] l IH]; intros hosts0; cbn [foldl].
    { split_and!; [by left|done|]. intros k r h Hin. by apply not_elem_of_nil in Hin. }
    destruct (IH (f hosts0 (k0, r0))) as (I1 & I2 & I3).
    assert (Hf : forall id, is_Some (hosts0 !! id) -> is_Some (f hosts0 (k0, r0) !! id)).
    { intros id Hid. subst f. cbn. repeat case_match; try done.
      destruct (decide (nh_Id n = id)) as [<-|]; [by rewrite lookup_insert_eq|by rewrite lookup_insert_ne]. }
    split_and!.
    - intros id r [Hr|(k & h & Hin & ?)]%I1; [|right; exists k, h; set_solver].
      subst f. cbn in Hr. revert Hr. destruct (bool_decide_reflect (mask24 k0 <> bridge)); [by left|].
      destruct (heap !! r0) as [h0|] eqn:Eh; [|by left].
      destruct (Z.eqb_spec (nh_Bridge h0) k0); [|by left].
      destruct (decide (nh_Id h0 = id)) as [Ei|]; [|rewrite lookup_insert_ne by done; by left].
      rewrite Ei, lookup_insert_eq. intros [= <-]. right. exists k0, h0.
      split_and!; try done; [set_solver|]. by destruct (decide (mask24 k0 = bridge)).
    - auto.
    - intros k r h [[= -> ->]|Hin]%elem_of_cons Hh Hmk Hb; [|by eapply I3].
      apply I2. subst f. cbn. rewrite bool_decide_false by (intros Hx; by apply Hx).
      rewrite Hh, Hb, Z.eqb_refl. by rewrite lookup_insert_eq. }
  destruct (Hl (map_range bh) ∅) as (I1 & _ & I3). split.
  - intros id r [E|(k & h & Hin & ?)]%I1; [by rewrite lookup_empty in E|].
    apply elem_of_map_range in Hin. eauto.
  - intros k r h Hk. apply I3. by apply elem_of_map_range.
Qed.

Lemma Restore_inv s nm z nm' r : store_good s -> nm_inv nm ->
  Restore s nm z = (nm', r) -> nm_inv nm'.
Proof.
  intros Hs Hi. unfold Restore. destruct (bool_decide _); [by intros [= <- <-]|].
  assert (Hi0 : nm_inv (set_zone nm z (nm_changed nm))).
  { split; [apply Hi|]. intros m Em. pose proof (ni_map _ Hi m Em) as Hm.
    eapply map_inv_ext; [exact Hm|done..| | |]; apply Hm. }
  destruct (kv_read s _) as [it| |e] eqn:Er; [|by intros [= <- <-]..].
  destruct (_ <=? _); [by intros [= <- <-]|].
  destruct (it_value it) as [state|] eqn:Ev; [|by intros [= <- <-]].
  destruct (Hs z it state Er Ev) as ([b Eb] & [i Ei] & Hok & Hun).
  destruct (alloc_all _ _ _) as [heap bh] eqn:Ea.
  pose proof (alloc_all_bridges _ _ _ Ea) as Hbh.
  pose proof (alloc_all_dangling _ _ _ _ _ no_refs Ea) as Hdang.
  destruct (restoreHosts_spec (mask24 b) bh heap) as (Hh1 & Hh2).
  rewrite Eb, Ei. intros [= <- <-]. eapply nm_inv_intro; [done|].
  assert (Hok' : forall k r h, bh !! k = Some r -> heap !! r = Some h -> alloc_ok k h).
  { intros k r h Hk Hr. apply Hok, Hbh. eauto. }
  split; cbn.
  - right. by rewrite Eb.
  - right. by rewrite Ei.
  - intros _. split; intros E0; [rewrite E0 in Eb; done|rewrite E0 in Ei; done].
  - intros k r. rewrite map_lookup_filter_Some. intros [Hk Hm]. cbn in Hm.
    destruct (lookup_lt_is_Some_2 heap r) as [h Hr]; [by eapply Hdang|].
    exists h. pose proof (Hok' _ _ _ Hk Hr) as Ho. split_and!; [done|done|].
    eapply Hh2; [done..|apply Ho].
  - intros k1 k2 h1 h2. rewrite !bridge_of_Some. cbn.
    intros (r1 & [F1 _]%map_lookup_filter_Some & G1) (r2 & [F2 _]%map_lookup_filter_Some & G2).
    apply Hun; apply Hbh; eauto.
  - intros id r Hr. destruct (Hh1 id r Hr) as (k & h & Hk & Hh & Hm & Hb & Hid).
    exists h. split_and!; [done|done|]. rewrite Hb, map_lookup_filter_Some. done.
Qed.

(** *** Refreshing a host and allocating for a replica *)

Lemma set_peer_inv nm m r h h' : map_inv nm m -> nm_heap nm !! r = Some h ->
  nh_Id h' = nh_Id h -> nh_Bridge h' = nh_Bridge h -> nh_Instance h' = nh_Instance h ->
  map_inv (set_hosts nm (<[r := h']> (nm_heap nm)) (nm_Hosts nm)) m.
Proof.
  intros Hm Hr Ei Eb En.
  assert (L : forall q g, <[r := h']> (nm_heap nm) !! q = Some g -> exists g0, nm_heap nm !! q = Some g0 /\
    nh_Id g = nh_Id g0 /\ nh_Bridge g = nh_Bridge g0 /\ nh_Instance g = nh_Instance g0).
  { intros q g [(-> & -> & _)|[? ?]]%list_lookup_insert_Some; [by exists h|by exists g]. }
  assert (L' : forall q g, nm_heap nm !! q = Some g -> exists g1, <[r := h']> (nm_heap nm) !! q = Some g1 /\
    nh_Id g1 = nh_Id g /\ nh_Bridge g1 = nh_Bridge g /\ nh_Instance g1 = nh_Instance g).
  { intros q g Hq. destruct (decide (q = r)) as [->|].
    - exists h'. rewrite list_lookup_insert_eq by (by eapply lookup_lt_Some). simplify_eq. done.
    - exists g. by rewrite list_lookup_insert_ne. }
  split; try apply Hm; cbn.
  - intros k q Hq. destruct (mi_valid _ _ Hm k q Hq) as (g & Hg & (A & B & C & D & F) & Hh).
    destruct (L' q g Hg) as (g1 & Hg1 & I1 & I2 & I3). exists g1. unfold alloc_ok.
    rewrite I1, I2, I3. done.
  - intros k1 k2 h1 h2. rewrite !bridge_of_Some. cbn.
    intros (r1 & F1 & G1) (r2 & F2 & G2).
    destruct (L _ _ G1) as (g1 & H1g & -> & _), (L _ _ G2) as (g2 & H2g & -> & _).
    apply (mi_unique _ _ Hm); apply bridge_of_Some; eauto.
  - intros id q Hq. destruct (mi_hosts _ _ Hm id q Hq) as (g & Hg & E & F).
    destruct (L' q g Hg) as (g1 & Hg1 & I1 & I2 & I3). exists g1. by rewrite I1, I2.
Qed.

(** A fresh bridge for a host that has none in this bridge network. *)
Lemma new_bridge_inv nm m id base inst n :
  map_inv nm m -> nm_Map nm = Some m -> VpcAllocMin <= n <= VpcAllocMax ->
  base mod 256 = 0 -> inst mod 2 ^ 16 = 0 ->
  let bn := u32 (base + n) in
  let r := length (nm_heap nm) in
  let h := {| nh_Id := id; nh_Bridge := bn; nh_Instance := u32 (inst + Z.shiftl n 8); nh_Peer := 0 |} in
  zm_BridgeHost m !! bn = None ->
  (forall k g, bridge_of nm m k = Some g -> nh_Id g = id -> k / 256 <> bn / 256) ->
  let m' := with_maps m (<[bn := r]> (zm_BridgeHost m)) (zm_Instance m) in
  map_inv (set_hosts (set_map nm m') (nm_heap nm ++ [h])%list (<[id := r]> (nm_Hosts nm))) m'.
Proof.
  intros Hm Em Hn Hb Hi bn r h Hnone Hfree m'. unfold VpcAllocMin, VpcAllocMax in *.
  assert (Hlt : forall q g, nm_heap nm !! q = Some g -> (nm_heap nm ++ [h])%list !! q = Some g)
    by (intros; by apply lookup_app_l_Some).
  assert (Hr : (nm_heap nm ++ [h])%list !! r = Some h) by (by apply list_lookup_middle).
  destruct (octet_addr base n) as (O1 & O2 & O3); [done|lia|].
  destruct (instance_addr inst n) as (P1 & P2); [done|lia|].
  split; cbn; try apply Hm.
  - intros k q. destruct (decide (k = bn)) as [->|Hk].
    + rewrite lookup_insert_eq. intros [= <-]. exists h. split; [done|]. split.
      * unfold alloc_ok, VpcAllocMin, VpcAllocMax; cbn. fold bn in O1. rewrite O1, P1. split_and!; done || lia.
      * cbn. by rewrite lookup_insert_eq.
    + rewrite lookup_insert_ne by done. intros Hq.
      destruct (mi_valid _ _ Hm k q Hq) as (g & Hg & Hok & Hh). exists g. split_and!; [auto|done|].
      destruct (decide (id = nh_Id g)) as [<-|]; [by rewrite lookup_insert_eq|by rewrite lookup_insert_ne].
  - assert (Hold : forall k g, bridge_of (set_hosts (set_map nm m') (nm_heap nm ++ [h])%list (<[id := r]> (nm_Hosts nm))) m' k = Some g ->
      (k = bn /\ g = h) \/ bridge_of nm m k = Some g).
    { intros k g. rewrite !bridge_of_Some. cbn. intros (q & Hq & Hg). destruct (decide (k = bn)) as [->|Hk].
      - rewrite lookup_insert_eq in Hq. injection Hq as <-. left. split; [done|].
        assert (Some h = Some g) as [= <-] by (rewrite <- Hr; exact Hg). done.
      - rewrite lookup_insert_ne in Hq by done. right. exists q. split; [done|].
        destruct (mi_valid _ _ Hm k q Hq) as (g' & Hg' & _).
        assert (Some g' = Some g) as [= <-] by (rewrite <- (Hlt _ _ Hg'); exact Hg). done. }
    intros k1 k2 h1 h2 [[-> ->]|B1]%Hold [[-> ->]|B2]%Hold; [done| | |].
    + intros E1 E2. cbn in E1. exfalso. by apply (Hfree k2 h2).
    + intros E1 E2. cbn in E1. exfalso. by apply (Hfree k1 h1).
    + by apply (mi_unique _ _ Hm).
  - intros id' q. destruct (decide (id' = id)) as [->|Hid].
    + rewrite lookup_insert_eq. intros [= <-]. exists h. split_and!; [done|done|]. cbn.
      by rewrite lookup_insert_eq.
    + rewrite lookup_insert_ne by done. intros Hq.
      destruct (mi_hosts _ _ Hm id' q Hq) as (g & Hg & E & F). exists g.
      split_and!; [auto|done|]. rewrite lookup_insert_ne; [done|]. intros E'. congruence.
Qed.

Lemma first_octet_Some ok n : first_octet ok = Some n ->
  VpcAllocMin <= n <= VpcAllocMax /\ ok n = true /\ forall q, VpcAllocMin <= q < n -> ok q = false.
Proof.
  intros H'. apply first_from_Some in H' as (? & ? & Hq). unfold VpcAllocMin, VpcAllocMax, VpcAllocCap in *.
  split_and!; [lia|lia|done|]. intros. apply Hq. lia.
Qed.

Lemma first_octet_None ok : first_octet ok = None <->
  forall n, VpcAllocMin <= n <= VpcAllocMax -> ok n = false.
Proof.
  unfold first_octet. rewrite first_from_None. unfold VpcAllocMin, VpcAllocMax, VpcAllocCap.
  split; intros H' n Hn; apply H'; lia.
Qed.

(** The search of the current network finds the host if it has a bridge there. *)
Lemma currentBridge_None nm m id deploy k g n :
  map_inv nm m -> currentBridge nm m id deploy = None ->
  bridge_of nm m k = Some g -> nh_Id g = id -> VpcAllocMin <= n <= VpcAllocMax ->
  k / 256 <> u32 (mask24 (nm_Bridge nm) + n) / 256.
Proof.
  intros Hm Ef Hg Hid Hn Hbase. apply bridge_of_Some in Hg as Hg'. destruct Hg' as (q & Hq & Hqg).
  destruct (mi_valid _ _ Hm k q Hq) as (g' & Hg' & (Hk & _ & Hoct & _) & Hhost).
  assert (g' = g) as -> by congruence. rewrite Hid in Hhost. destruct Hhost as [q' Hq'].
  revert Ef. unfold currentBridge. rewrite Hq'. destruct (same_ip _ _ _); [done|].
  unfold VpcAllocMin, VpcAllocMax in *.
  pose proof (octet_addr_inv _ k n (mask24_low (nm_Bridge nm)) ltac:(lia) Hk Hbase) as Ek.
  destruct (first_octet _) as [n'|] eqn:En'; cbn.
  - apply first_octet_Some in En' as (_ & Hb & _). unfold bridge_of in Hb.
    intros E. cbv beta in Hb. by rewrite E in Hb.
  - intros _. rewrite first_octet_None in En'. specialize (En' (k mod 256) Hoct). cbv beta in En'.
    by rewrite <- Ek, Hg, bool_decide_true in En'.
Qed.

Lemma chooseBridge_inv nm m id deploy nm1 r1 :
  map_inv nm m -> nm_Map nm = Some m -> chooseBridge nm m id deploy = Some (nm1, r1) ->
  nm_ready nm1 = nm_ready nm /\ exists m1, nm_Map nm1 = Some m1 /\ map_inv nm1 m1.
Proof.
  intros Hm Em. unfold chooseBridge.
  destruct (currentBridge nm m id deploy) as [q|] eqn:Ef; [intros [= <- <-]; eauto|].
  unfold newBridge. destruct (first_octet _) as [n|] eqn:En; [|done]. intros [= <- <-].
  apply first_octet_Some in En as (Hn & Hnone & _). apply bool_decide_eq_true in Hnone.
  split; [done|]. eexists. split; [done|].
  apply new_bridge_inv; [done|done|done|apply mask24_low|apply mask16_low|done|].
  intros k g Hg Hid. by eapply currentBridge_None.
Qed.

Lemma Refresh_inv s now nm host s' nm' host' r :
  store_good s -> nm_inv nm -> RefreshHostNetwork s now nm host = (s', nm', host', r) ->
  store_good s' /\ nm_inv nm'.
Proof.
  intros Hs Hi. unfold RefreshHostNetwork.
  destruct (h_Deploy host) as [deploy|]; [|by intro_tuple].
  destruct (bool_decide _); [by intro_tuple|].
  destruct (ParsePrivateAddress _) as [peerIp|]; [|by intro_tuple].
  set (nm0 := set_peer_ip nm _ _).
  assert (Hi0 : nm_inv nm0).
  { split; [apply Hi|]. intros m Em. pose proof (ni_map _ Hi m Em) as Hm.
    eapply map_inv_ext; [exact Hm|done..| | |]; apply Hm. }
  clearbody nm0. clear Hi. destruct (nm_ready nm0) eqn:Hready; cbn [negb]; [|by intro_tuple].
  destruct (nm_Map nm0) as [m|] eqn:Em; [|by intro_tuple].
  pose proof (ni_map _ Hi0 m Em) as Hm.
  destruct (match nm_Hosts nm0 !! _ with Some r0 => _ | None => false end); [by intro_tuple|].
  destruct (chooseBridge _ _ _ _) as [[nm1 r1]|] eqn:Ec; [|by intro_tuple].
  destruct (chooseBridge_inv _ _ _ _ _ _ Hm Em Ec) as (Hr1 & m1 & Em1 & Hm1).
  destruct (nm_heap nm1 !! r1) as [h1|] eqn:Eh; [|intro_tuple; split; [done|by eapply nm_inv_intro]].
  destruct (flush s now _) as [[s2 nm2] rf] eqn:Ef.
  apply flush_inv in Ef; [|done| | |cbn; by rewrite Em1].
  - destruct Ef as (Hs2 & Hi2 & _). destruct rf; intro_tuple; (split; assumption).
  - eapply nm_inv_intro; [exact Em1|]. by eapply set_peer_inv.
  - intros m2. cbn. rewrite Em1. intros [= <-]. apply (mi_ready _ _ Hm1). by rewrite Hr1.
Qed.

Lemma Alloc_inv s now nm hid name rep s' nm' ip :
  store_good s -> nm_inv nm -> AllocHostSubNetwork s now nm hid name rep = (s', nm', ip) ->
  store_good s' /\ nm_inv nm'.
Proof.
  intros Hs Hi. unfold AllocHostSubNetwork.
  destruct (nm_ready nm) eqn:Hready; cbn [negb]; [|by intro_tuple].
  destruct (nm_Map nm) as [m|] eqn:Em; [|by intro_tuple].
  destruct (HostNetwork nm hid) as [host|]; [|by intro_tuple].
  destruct (ownedOctet _ _ _) as [n|]; [by intro_tuple|].
  destruct (freeOctet _ _) as [n|]; [|by intro_tuple].
  destruct (flush s now _) as [[s2 nm2] rf] eqn:Ef.
  pose proof (ni_map _ Hi m Em) as Hm.
  apply flush_inv in Ef; [|done| |intros m'; intros [= <-]; by apply (mi_ready _ _ Hm)|done].
  - destruct Ef as (Hs2 & Hi2 & _). destruct rf; intro_tuple; (split; assumption).
  - eapply nm_inv_intro; [done|]. eapply map_inv_ext; [exact Hm|done..| | |]; apply Hm.
Qed.

(** * Properties *)

(** Any sequence of calls of the manager. *)
Inductive ipam_step : S * NetworkManager -> S * NetworkManager -> Prop :=
| step_setup s nm now z b i d s' nm' r :
    ZoneSetup s now nm z b i d = (s', nm', r) -> ipam_step (s, nm) (s', nm')
| step_restore s nm z nm' r :
    Restore s nm z = (nm', r) -> ipam_step (s, nm) (s, nm')
| step_refresh s nm now h s' nm' h' r :
    RefreshHostNetwork s now nm h = (s', nm', h', r) -> ipam_step (s, nm) (s', nm')
| step_alloc s nm now hid name rep s' nm' ip :
    AllocHostSubNetwork s now nm hid name rep = (s', nm', ip) -> ipam_step (s, nm) (s', nm').

Lemma ipam_step_inv x y : ipam_step x y ->
  store_good (fst x) /\ nm_inv (snd x) -> store_good (fst y) /\ nm_inv (snd y).
Proof.
  intros Hst. destruct Hst as [? ? ? ? ? ? ? ? ? ? E|? ? ? ? ? E|? ? ? ? ? ? ? ? E|? ? ? ? ? ? ? ? ? E];
    cbn; intros [Hs Hi].
  - by eapply ZoneSetup_inv.
  - split; [done|]. by eapply Restore_inv.
  - by eapply Refresh_inv.
  - by eapply Alloc_inv.
Qed.

Lemma NewNetworkManager_inv : nm_inv NewNetworkManager.
Proof. by split. Qed.

Lemma ipam_reachable_inv s0 s nm : store_good s0 ->
  rtc ipam_step (s0, NewNetworkManager) (s, nm) -> store_good s /\ nm_inv nm.
Proof.
  intros Hs Hr. change (store_good (fst (s, nm)) /\ nm_inv (snd (s, nm))).
  apply (rtc_ind_l (fun x => store_good (fst x) /\ nm_inv (snd x) ->
    store_good (fst (s, nm)) /\ nm_inv (snd (s, nm))) (s, nm)) in Hr; [exact Hr|done| |].
  - intros x y Hst _ IH Hx. by apply IH, (ipam_step_inv x y).
  - split; [exact Hs|apply NewNetworkManager_inv].
Qed.

Lemma HostNetwork_inv nm id h : nm_inv nm -> HostNetwork nm id = Some h ->
  nh_Id h = id /\ exists m, nm_Map nm = Some m /\ map_inv nm m /\ bridge_of nm m (nh_Bridge h) = Some h.
Proof.
  intros Hi. unfold HostNetwork. rewrite bind_Some. intros (r & Hr & Hh).
  destruct (nm_Map nm) as [m|] eqn:Em.
  - pose proof (ni_map _ Hi m Em) as Hm. destruct (mi_hosts _ _ Hm id r Hr) as (h' & Hh' & E & Hb).
    simplify_eq. split; [done|]. exists m. split_and!; [done|done|]. apply bridge_of_Some. eauto.
  - destruct (ni_none _ Hi Em) as [_ E]. by rewrite E, lookup_empty in Hr.
Qed.

(** C5: whatever sequence of zone setups, restores from the database, host refreshes
    and replica allocations has run, every registered host has a bridge octet in
    the allocation range and an instance subnet with the same octet; two hosts
    never share a bridge address, and two hosts of one bridge network never have
    instance subnets with the same octet. *)
Theorem ipam_hosts_disjoint s0 s nm id1 id2 h1 h2 :
  store_good s0 -> rtc ipam_step (s0, NewNetworkManager) (s, nm) ->
  HostNetwork nm id1 = Some h1 -> HostNetwork nm id2 = Some h2 ->
  (VpcAllocMin <= nh_Bridge h1 mod 256 <= VpcAllocMax /\
   nh_Instance h1 mod 2 ^ 16 = 256 * (nh_Bridge h1 mod 256)) /\
  (id1 <> id2 -> nh_Bridge h1 <> nh_Bridge h2 /\
     (nh_Bridge h1 / 256 = nh_Bridge h2 / 256 -> nh_Instance h1 mod 2 ^ 16 <> nh_Instance h2 mod 2 ^ 16)).
Proof.
  intros Hs Hr H1' H2'. destruct (ipam_reachable_inv _ _ _ Hs Hr) as [_ Hi].
  destruct (HostNetwork_inv _ _ _ Hi H1') as (I1 & m & Em & Hm & B1).
  destruct (HostNetwork_inv _ _ _ Hi H2') as (I2 & m' & Em' & _ & B2).
  assert (m' = m) as -> by congruence.
  assert (Hok : forall k h, bridge_of nm m k = Some h -> alloc_ok k h).
  { intros k h. rewrite bridge_of_Some. intros (r & Hk & Hh).
    destruct (mi_valid _ _ Hm k r Hk) as (h' & Hh' & ? & _). congruence. }
  destruct (Hok _ _ B1) as (_ & _ & R1 & _ & N1), (Hok _ _ B2) as (_ & _ & R2 & _ & N2).
  split; [done|]. intros Hne.
  assert (Hb : nh_Bridge h1 <> nh_Bridge h2).
  { intros E. rewrite E in B1. assert (h1 = h2) by congruence. by subst. }
  split; [done|]. intros Hbase E. apply Hb.
  pose proof (Z.div_mod (nh_Bridge h1) 256). pose proof (Z.div_mod (nh_Bridge h2) 256). lia.
Qed.

Lemma flush_map s now nm m s' nm' r : nm_Map nm = Some m -> flush s now nm = (s', nm', r) ->
  nm_Map nm' = Some (with_stamp m now) /\ nm_heap nm' = nm_heap nm /\ nm_Hosts nm' = nm_Hosts nm /\
  nm_ready nm' = nm_ready nm.
Proof.
  intros Em. unfold flush. rewrite Em. destruct (kv_write _ _ _ _) as [s1 [v| |e]]; by intros [= <- <- <-].
Qed.

Lemma Uint32ToIpv4_nonempty v : Uint32ToIpv4 v <> "".
Proof.
  unfold Uint32ToIpv4, IP4ToString. cbn [Uint32ToBytes].
  destruct (itoa _) eqn:E; [|done]. exfalso. eapply itoa_nonempty; [|exact E].
  pose proof (land_255_byte (Z.shiftr v 24)) as B. unfold byte in B. lia.
Qed.

(** The replica [id] has an address of the subnet. *)
Definition has_addr (m : ZoneNetworkMap ref) (base : Z) (id : string) (n : Z) : Prop :=
  VpcAllocMin <= n <= VpcAllocMax /\ zm_Instance m !! u32 (base + n) = Some id.

Lemma ownedOctet_Some m base id n : ownedOctet m base id = Some n -> has_addr m base id n.
Proof.
  intros E%first_octet_Some. destruct E as (? & E & _). apply bool_decide_eq_true in E. done.
Qed.

Lemma AllocHostSubNetwork_owned s now nm m hid name rep host n :
  nm_ready nm = true -> nm_Map nm = Some m -> HostNetwork nm hid = Some host ->
  ownedOctet m (mask24 (nh_Instance host)) (insRepId name rep) = Some n ->
  AllocHostSubNetwork s now nm hid name rep = (s, nm, Uint32ToIpv4 (u32 (mask24 (nh_Instance host) + n))).
Proof. intros Hr Em Eh Eo. unfold AllocHostSubNetwork. by rewrite Hr, Em, Eh, Eo. Qed.

Lemma VpcInstance_lookup nm m base id n : nm_Map nm = Some m -> has_addr m base id n ->
  VpcInstance nm (Uint32ToIpv4 (u32 (base + n))) = id.
Proof.
  intros Em (_ & E). unfold VpcInstance. rewrite Em, Ipv4ToUint32_Uint32ToIpv4 by apply u32_range.
  by rewrite E.
Qed.

(** A free octet given to [id] becomes the one it owns. *)
Lemma ownedOctet_insert m m' base id n :
  ownedOctet m base id = None -> freeOctet m base = Some n ->
  zm_Instance m' = <[u32 (base + n) := id]> (zm_Instance m) -> ownedOctet m' base id = Some n.
Proof.
  intros Eo Ef Em. apply first_octet_Some in Ef as (Hn & Hf & _). apply bool_decide_eq_true in Hf.
  destruct (ownedOctet m' base id) as [n'|] eqn:E.
  - pose proof (ownedOctet_Some _ _ _ _ E) as [Hr Ho]. apply first_octet_Some in E as (_ & _ & Hmin).
    destruct (decide (n' = n)) as [->|Hne]; [done|exfalso].
    destruct (decide (u32 (base + n') = u32 (base + n))) as [Eq|Eq].
    + destruct (decide (n < n')) as [Hlt|Hge].
      * specialize (Hmin n ltac:(lia)). rewrite Em, lookup_insert_eq, bool_decide_true in Hmin by done. done.
      * unfold VpcAllocMin, VpcAllocMax in *.
        assert (n' - n = 0); [|lia]. 
        assert (D : (base + n') mod 2 ^ 32 = (base + n) mod 2 ^ 32) by exact Eq.
        assert (exists k, n - n' = k * 2 ^ 32) as [k Hk]; [|lia].
        exists ((base + n) / 2 ^ 32 - (base + n') / 2 ^ 32).
        pose proof (Z.div_mod (base + n) (2 ^ 32)). pose proof (Z.div_mod (base + n') (2 ^ 32)). lia.
    + rewrite Em, lookup_insert_ne in Ho by done.
      unfold ownedOctet in Eo. rewrite first_octet_None in Eo.
      specialize (Eo n' Hr). cbv beta in Eo. by rewrite bool_decide_true in Eo.
  - unfold ownedOctet in E. rewrite first_octet_None in E.
    specialize (E n Hn). cbv beta in E. by rewrite Em, lookup_insert_eq, bool_decide_true in E.
Qed.

(** for a ready manager and a registered host, [AllocHostSubNetwork] returns an
    address of the host's subnet, in the allocation range, that the replica then
    owns and that a second call returns again without changing anything; no other
    replica loses an address.  It returns the empty string only when every address
    of the range belongs to another replica, or when the assignment could not be
    written, and then it is kept in memory. *)
Theorem alloc_sub_network_correct s now nm m host hostId name rep s' nm' ip :
  nm_ready nm = true -> nm_Map nm = Some m -> HostNetwork nm hostId = Some host ->
  AllocHostSubNetwork s now nm hostId name rep = (s', nm', ip) ->
  let id := insRepId name rep in
  let base := mask24 (nh_Instance host) in
  exists m', nm_Map nm' = Some m' /\
    (forall k v, zm_Instance m !! k = Some v -> zm_Instance m' !! k = Some v) /\
    (ip <> "" -> exists n, has_addr m' base id n /\ ip = Uint32ToIpv4 (u32 (base + n)) /\
       VpcInstance nm' ip = id /\
       forall s2 now2, AllocHostSubNetwork s2 now2 nm' hostId name rep = (s2, nm', ip)) /\
    (ip = "" -> (forall n, VpcAllocMin <= n <= VpcAllocMax ->
                   exists v, zm_Instance m !! u32 (base + n) = Some v /\ v <> id) \/
                exists n, has_addr m' base id n).
Proof.
  intros Hr Em Eh Ea id base. destruct (ownedOctet m base id) as [n|] eqn:Eo.
  { rewrite (AllocHostSubNetwork_owned _ _ _ _ _ _ _ _ _ Hr Em Eh Eo) in Ea. revert Ea. intro_tuple.
    exists m. pose proof (ownedOctet_Some _ _ _ _ Eo) as Ho.
    split_and!; [done|done| |intros E; by apply Uint32ToIpv4_nonempty in E].
    intros _. exists n. split_and!; [done|done|by eapply VpcInstance_lookup|].
    intros. by eapply AllocHostSubNetwork_owned. }
  unfold AllocHostSubNetwork in Ea. rewrite Hr, Em, Eh in Ea. cbv zeta in Ea. fold id base in Ea.
  rewrite Eo in Ea. cbn [negb] in Ea. destruct (freeOctet m base) as [n|] eqn:Ef.
  - set (nm1 := set_map nm _) in Ea. destruct (flush s now nm1) as [[s2 nm2] rf] eqn:El.
    eapply flush_map in El; [|reflexivity]. destruct El as (Em2 & Eheap & Ehosts & Erdy).
    set (m' := with_stamp _ now) in Em2.
    assert (Eo' : ownedOctet m' base id = Some n) by (by eapply ownedOctet_insert).
    pose proof (ownedOctet_Some _ _ _ _ Eo') as Ho'.
    assert (Eh2 : HostNetwork nm2 hostId = Some host)
      by (unfold HostNetwork; rewrite Ehosts, Eheap; exact Eh).
    assert (Hkeep : forall k v, zm_Instance m !! k = Some v -> zm_Instance m' !! k = Some v).
    { apply first_octet_Some in Ef as (_ & Hf & _). apply bool_decide_eq_true in Hf.
      intros k v Hk. cbn. rewrite lookup_insert_ne; [done|]. congruence. }
    destruct rf; revert Ea; intro_tuple; exists m'; (split_and!; [done|done| |]);
      [|by right; exists n|done|by right; exists n].
    intros _. exists n. split_and!; [done|done|by eapply VpcInstance_lookup|].
    intros. eapply AllocHostSubNetwork_owned; [by rewrite Erdy|done|done|done].
  - revert Ea. intro_tuple. exists m. split_and!; [done|done|done|].
    intros _. left. intros n Hn. unfold freeOctet, ownedOctet in Ef, Eo. rewrite first_octet_None in Ef, Eo.
    specialize (Ef n Hn). specialize (Eo n Hn). cbv beta in Ef, Eo.
    apply bool_decide_eq_false in Ef. apply bool_decide_eq_false in Eo.
    destruct (zm_Instance m !! u32 (base + n)) as [v|]; [|done]. exists v. split; [done|].
    intros ->. done.
Qed.
End inv.

(** ** Witnesses *)

Definition is_Some_b {A} (o : option A) : bool := match o with Some _ => true | None => false end.

Section witnesses.
Local Existing Instance no_ip6.
Let st : Type := mem_store (ZoneNetworkMap NetHost) * NetworkManager.

Definition ex_start : st := (mem_empty, NewNetworkManager).
Definition ex_setup (x : st) : st :=
  fst (ZoneSetup (fst x) 100 (snd x) "z1" "10.9.0.0/24" "10.8.0.0/16" "local").
Definition ex_host1 : Host :=
  {| h_Id := "h1"; h_PeerAddr := "192.168.1.10:9529";
     h_Deploy := Some {| hd_VpcBridgeIp := ""; hd_VpcInstanceCidr := ""; hd_PortUsed := [] |} |}.
Definition ex_host2 : Host :=
  {| h_Id := "h2"; h_PeerAddr := "192.168.1.11:9529";
     h_Deploy := Some {| hd_VpcBridgeIp := ""; hd_VpcInstanceCidr := ""; hd_PortUsed := [] |} |}.
Definition ex_refresh (x : st) (h : Host) : st := fst (fst (RefreshHostNetwork (fst x) 101 (snd x) h)).
Definition ex_two : st := ex_refresh (ex_refresh (ex_setup ex_start) ex_host1) ex_host2.
Definition ex_alloc : mem_store (ZoneNetworkMap NetHost) * NetworkManager * string :=
  AllocHostSubNetwork (fst ex_two) 102 (snd ex_two) "h2" "web" 0.

Definition ex_net1 : NetHost :=
  {| nh_Id := "h1"; nh_Bridge := 168361987; nh_Instance := 168297216; nh_Peer := 3232235786 |}.
Definition ex_net2 : NetHost :=
  {| nh_Id := "h2"; nh_Bridge := 168361988; nh_Instance := 168297472; nh_Peer := 3232235787 |}.

Example ex_hosts : HostNetwork (snd ex_two) "h1" = Some ex_net1 /\ HostNetwork (snd ex_two) "h2" = Some ex_net2.
Proof. split; vm_compute; reflexivity. Qed.

Example ex_address : snd ex_alloc = "10.8.4.3".
Proof. vm_compute. reflexivity. Qed.

Lemma ex_setup_step x : ipam_step x (ex_setup x).
Proof.
  destruct x as [s nm]. unfold ex_setup. cbn [fst snd].
  destruct (ZoneSetup s 100 nm _ _ _ _) as [[s' nm'] r] eqn:E. by eapply step_setup.
Qed.

Lemma ex_refresh_step x h : ipam_step x (ex_refresh x h).
Proof.
  destruct x as [s nm]. unfold ex_refresh. cbn [fst snd].
  destruct (RefreshHostNetwork s 101 nm h) as [[[s' nm'] h'] r] eqn:E. by eapply step_refresh.
Qed.

Lemma ex_reachable : rtc ipam_step ex_start (fst ex_two, snd ex_two).
Proof.
  rewrite <- surjective_pairing. unfold ex_two.
  eapply rtc_l; [apply ex_setup_step|]. eapply rtc_l; [apply ex_refresh_step|].
  eapply rtc_l; [apply ex_refresh_step|]. apply rtc_refl.
Qed.

Lemma store_good_empty : store_good (mem_empty : mem_store (ZoneNetworkMap NetHost)).
Proof. intros z it m E. done. Qed.

Lemma ipam_hosts_disjoint_witness :
  (VpcAllocMin <= nh_Bridge ex_net1 mod 256 <= VpcAllocMax /\
   nh_Instance ex_net1 mod 2 ^ 16 = 256 * (nh_Bridge ex_net1 mod 256)) /\
  ("h1" <> "h2" -> nh_Bridge ex_net1 <> nh_Bridge ex_net2 /\
     (nh_Bridge ex_net1 / 256 = nh_Bridge ex_net2 / 256 ->
      nh_Instance ex_net1 mod 2 ^ 16 <> nh_Instance ex_net2 mod 2 ^ 16)).
Proof.
  apply (ipam_hosts_disjoint (fst ex_start) (fst ex_two) (snd ex_two) "h1" "h2").
  - exact store_good_empty.
  - exact ex_reachable.
  - exact (proj1 ex_hosts).
  - exact (proj2 ex_hosts).
Defined.

Lemma ex_alloc_eq :
  AllocHostSubNetwork (fst ex_two) 102 (snd ex_two) "h2" "web" 0 =
  (fst (fst ex_alloc), snd (fst ex_alloc), snd ex_alloc).
Proof. unfold ex_alloc. by destruct (AllocHostSubNetwork _ _ _ _ _ _) as [[? ?] ?]. Qed.

Lemma ex_two_map : exists m, nm_Map (snd ex_two) = Some m.
Proof.
  assert (E : is_Some_b (nm_Map (snd ex_two)) = true) by (vm_compute; reflexivity).
  destruct (nm_Map (snd ex_two)) as [m|]; [by exists m|discriminate].
Qed.

Lemma ex_two_ready : nm_ready (snd ex_two) = true.
Proof. vm_compute. reflexivity. Qed.

Lemma alloc_sub_network_correct_witness : exists m',
  nm_Map (snd (fst ex_alloc)) = Some m' /\
  exists n, has_addr m' (mask24 (nh_Instance ex_net2)) (insRepId "web" 0) n /\
            snd ex_alloc = Uint32ToIpv4 (u32 (mask24 (nh_Instance ex_net2) + n)).
Proof.
  destruct ex_two_map as [m Em].
  pose proof (alloc_sub_network_correct (fst ex_two) 102 (snd ex_two) m ex_net2 "h2" "web" 0
    (fst (fst ex_alloc)) (snd (fst ex_alloc)) (snd ex_alloc)
    ex_two_ready Em (proj2 ex_hosts) ex_alloc_eq) as (m' & Em' & _ & Hip & _).
  exists m'. split; [exact Em'|].
  assert (Hne : snd ex_alloc <> "") by (rewrite ex_address; discriminate).
  destruct (Hip Hne) as (n & Hn & E & _). exists n. split; [exact Hn|exact E].
Defined.
End witnesses.
