(* ===== verification/Stage.v ===== *)
(** Deploy stages: the tree of progress records of a deploy.  [src/pkg/inapi/app.go]
    has its operations; the zone marks and reconciles it
    ([appDeployStagesMarkPreHost], [appDeployStagesReconcile] of
    [src/internal/zonelet/service_instance.go]) and merges what hosts report
    ([mergeHostReplicaStages] of [src/internal/zonelet/service_internal.go]); a host
    keeps one entry per replica ([ReplicaStageEntry] of
    [src/internal/hostlet/hoststatus/hoststatus.go]).

    A stage is a value and an update through a pointer that [Child] or
    [ReplicaStage] returned is the update of that child; children are never nil.
    The current time is the argument [now], in milliseconds. *)
From Stdlib Require Import ZArith Lia.
From S2P Require Import Prelude GoStrings.
Local Open Scope string_scope.
Local Open Scope Z_scope.

(** * Data *)

Record stage_data := {
  st_Name : string; st_Owner : string; st_Revision : Z; st_State : string; st_Attempt : Z;
  st_Attrs : gmap string string; st_Message : string; st_Created : Z; st_Finished : Z }.

Inductive AppDeployStage := Stage (d : stage_data) (stages : list AppDeployStage).

Definition sdata (s : AppDeployStage) : stage_data := let 'Stage d _ := s in d.
Definition schildren (s : AppDeployStage) : list AppDeployStage := let 'Stage _ cs := s in cs.
Definition sname (s : AppDeployStage) : string := st_Name (sdata s).

#[export] Instance stage_data_eq_dec : EqDecision stage_data.
Proof. solve_decision. Defined.

Definition AppStageStatePending : string := "pending".
Definition AppStageStateRunning : string := "running".
Definition AppStageStateSuccess : string := "success".
Definition AppStageStateFailed : string := "failed".
Definition AppStageOwnerZonelet : string := "zonelet".
Definition AppStageOwnerHostlet : string := "hostlet".
Definition AppStageOwnerInagent : string := "inagent".
Definition AppDeployStageNameDeploy : string := "deploy".
Definition AppDeployStageNameReqValidate : string := "req_validate".
Definition AppDeployStageNameInstancePersist : string := "instance_persist".
Definition AppDeployStageNameReplica : string := "replica".
Definition AppDeployStageReplicaAttrRepId : string := "rep_id".

Definition AppDeployStageHostSideNames : list string :=
  ["host_recv"; "image_pull"; "pkg_download"; "provision"; "container_create"; "container_start";
   "container_running"; "container_stop"; "container_destroy"].
Definition AppDeployStageInagentNames : list string := ["inagent_boot"; "spec_load"; "task_run"].
Definition AppDeployStageRelayedNames : list string :=
  (AppDeployStageHostSideNames ++ AppDeployStageInagentNames)%list.
Definition is_relayed (name : string) : bool := bool_decide (name ∈ AppDeployStageRelayedNames).
Definition is_inagent (name : string) : bool := bool_decide (name ∈ AppDeployStageInagentNames).

(** The part of [inapi.AppDeploy] that carries the tree. *)
Record stage_deploy := { dp_Revision : Z; dp_Stages : option AppDeployStage }.

(** * Operations on one stage *)

Definition new_data (name owner : string) : stage_data :=
  {| st_Name := name; st_Owner := owner; st_Revision := 0; st_State := ""; st_Attempt := 0;
     st_Attrs := ∅; st_Message := ""; st_Created := 0; st_Finished := 0 |}.

Definition new_child (name owner : string) : AppDeployStage :=
  Stage {| st_Name := name; st_Owner := owner; st_Revision := 0; st_State := AppStageStatePending;
           st_Attempt := 0; st_Attrs := ∅; st_Message := ""; st_Created := 0; st_Finished := 0 |} [].

Definition keep_msg (old new : string) : string := if bool_decide (new = "") then old else new.

Definition SetRunning (now : Z) (msg : string) (d : stage_data) : stage_data :=
  {| st_Name := st_Name d; st_Owner := st_Owner d; st_Revision := st_Revision d;
     st_State := AppStageStateRunning;
     st_Attempt := if bool_decide (st_State d = AppStageStateFailed) then i64 (st_Attempt d + 1) else st_Attempt d;
     st_Attrs := st_Attrs d; st_Message := keep_msg (st_Message d) msg;
     st_Created := if st_Created d =? 0 then now else st_Created d; st_Finished := 0 |}.

Definition set_end (state : string) (now : Z) (msg : string) (d : stage_data) : stage_data :=
  {| st_Name := st_Name d; st_Owner := st_Owner d; st_Revision := st_Revision d;
     st_State := state; st_Attempt := st_Attempt d; st_Attrs := st_Attrs d;
     st_Message := keep_msg (st_Message d) msg;
     st_Created := if st_Created d =? 0 then now else st_Created d; st_Finished := now |}.

Definition SetSuccess (now : Z) (msg : string) (d : stage_data) : stage_data :=
  set_end AppStageStateSuccess now msg d.
Definition SetFailed (now : Z) (msg : string) (d : stage_data) : stage_data :=
  set_end AppStageStateFailed now msg d.

Definition SetInstant (now : Z) (msg : string) (d : stage_data) : stage_data :=
  {| st_Name := st_Name d; st_Owner := st_Owner d; st_Revision := st_Revision d;
     st_State := AppStageStateSuccess; st_Attempt := st_Attempt d; st_Attrs := st_Attrs d;
     st_Message := keep_msg (st_Message d) msg; st_Created := now; st_Finished := now |}.

Definition set_created (c : Z) (d : stage_data) : stage_data :=
  {| st_Name := st_Name d; st_Owner := st_Owner d; st_Revision := st_Revision d;
     st_State := st_State d; st_Attempt := st_Attempt d; st_Attrs := st_Attrs d;
     st_Message := st_Message d; st_Created := c; st_Finished := st_Finished d |}.

Definition set_revision (rev : Z) (d : stage_data) : stage_data :=
  {| st_Name := st_Name d; st_Owner := st_Owner d; st_Revision := rev;
     st_State := st_State d; st_Attempt := st_Attempt d; st_Attrs := st_Attrs d;
     st_Message := st_Message d; st_Created := st_Created d; st_Finished := st_Finished d |}.

(** The fields a reported stage overwrites. *)
Definition set_reported (s d : stage_data) : stage_data :=
  {| st_Name := st_Name d; st_Owner := st_Owner d; st_Revision := st_Revision s;
     st_State := st_State s; st_Attempt := st_Attempt s; st_Attrs := st_Attrs d;
     st_Message := st_Message s; st_Created := st_Created s; st_Finished := st_Finished s |}.

(** * Operations on the tree *)

Definition on_data (f : stage_data -> stage_data) (s : AppDeployStage) : AppDeployStage :=
  let 'Stage d cs := s in Stage (f d) cs.

Definition Find (name : string) (s : AppDeployStage) : option AppDeployStage :=
  List.find (fun c => bool_decide (sname c = name)) (schildren s).

(** Update the first child that satisfies [p], or append [fresh] updated. *)
Fixpoint upd_first (p : AppDeployStage -> bool) (fresh : AppDeployStage)
    (f : AppDeployStage -> AppDeployStage) (cs : list AppDeployStage) : list AppDeployStage :=
  match cs with
  | [] => [f fresh]
  | c :: cs' => if p c then f c :: cs' else c :: upd_first p fresh f cs'
  end.

(** [f] applied through the pointer [x.Child(name, owner)] *)
Definition Child (name owner : string) (f : AppDeployStage -> AppDeployStage) (s : AppDeployStage) : AppDeployStage :=
  let 'Stage d cs := s in
  Stage d (upd_first (fun c => bool_decide (sname c = name)) (new_child name owner) f cs).

Definition is_replica (repId : Z) (s : AppDeployStage) : bool :=
  bool_decide (sname s = AppDeployStageNameReplica) &&
  bool_decide (st_Attrs (sdata s) !! AppDeployStageReplicaAttrRepId = Some (itoa repId)).

Definition new_replica (repId : Z) : AppDeployStage :=
  Stage {| st_Name := AppDeployStageNameReplica; st_Owner := AppStageOwnerZonelet; st_Revision := 0;
           st_State := AppStageStatePending; st_Attempt := 0;
           st_Attrs := {[ AppDeployStageReplicaAttrRepId := itoa repId ]};
           st_Message := ""; st_Created := 0; st_Finished := 0 |} [].

(** [f] applied through the pointer [x.ReplicaStage(repId)] *)
Definition ReplicaStage (repId : Z) (f : AppDeployStage -> AppDeployStage) (s : AppDeployStage) : AppDeployStage :=
  let 'Stage d cs := s in Stage d (upd_first (is_replica repId) (new_replica repId) f cs).

Definition PruneChildren (keep : string -> bool) (s : AppDeployStage) : AppDeployStage :=
  let 'Stage d cs := s in Stage d (List.filter (fun c => keep (sname c)) cs).

Fixpoint SetRevisionDeep (rev : Z) (s : AppDeployStage) : AppDeployStage :=
  let 'Stage d cs := s in Stage (set_revision rev d) (map (SetRevisionDeep rev) cs).

Definition StagesRoot (dp : stage_deploy) : AppDeployStage :=
  match dp_Stages dp with
  | Some s => s
  | None => Stage (new_data AppDeployStageNameDeploy AppStageOwnerZonelet) []
  end.

(** * The zone side *)

Definition appDeployStagesMarkPreHost (now rpcStartMs : Z) (dp : stage_deploy) : stage_deploy :=
  let rev := dp_Revision dp in
  let root := on_data (SetRunning now "") (StagesRoot dp) in
  let root := Child AppDeployStageNameReqValidate AppStageOwnerZonelet
    (on_data (fun d => set_revision rev (SetSuccess now "" (set_created rpcStartMs d)))) root in
  let root := Child AppDeployStageNameInstancePersist AppStageOwnerZonelet
    (on_data (fun d => set_revision rev (SetInstant now "" d))) root in
  {| dp_Revision := rev; dp_Stages := Some root |}.

Definition prune_replica (s : AppDeployStage) : AppDeployStage :=
  if bool_decide (sname s = AppDeployStageNameReplica)
  then PruneChildren (fun n => negb (is_relayed n)) s else s.

Definition appDeployStagesReconcile (now : Z) (dp : stage_deploy) : stage_deploy * bool :=
  let curRev := dp_Revision dp in
  let root := StagesRoot dp in
  if curRev <=? st_Revision (sdata root) then ({| dp_Revision := curRev; dp_Stages := Some root |}, false)
  else
    let 'Stage d cs := on_data (SetRunning now "") root in
    ({| dp_Revision := curRev;
        dp_Stages := Some (SetRevisionDeep curRev (Stage d (map prune_replica cs))) |}, true).

(** A reported stage that must not be applied: unnamed, or recorded against an older
    revision of the deploy. *)
Definition stale_report (curRev : Z) (s : AppDeployStage) : bool :=
  bool_decide (sname s = "") ||
  ((0 <? st_Revision (sdata s)) && (0 <? curRev) && (st_Revision (sdata s) <? curRev)).

(** The children of a replica node after a report: zone-side ones kept, relayed
    ones replaced. *)
Definition apply_report (curRev : Z) (s node : AppDeployStage) : AppDeployStage :=
  if stale_report curRev s then node
  else Child (sname s) (st_Owner (sdata s)) (on_data (set_reported (sdata s))) node.

Definition merge_node (curRev : Z) (report : list AppDeployStage) (node : AppDeployStage) : AppDeployStage :=
  foldl (fun n s => apply_report curRev s n) (PruneChildren (fun n => negb (is_relayed n)) node) report.

(** One report of [mergeHostReplicaStages] for an instance that is not soft-deleted;
    the flag says whether the subtree changed, that is whether it is flushed. *)
Fixpoint stage_eqb (a b : AppDeployStage) : bool :=
  let 'Stage da ca := a in
  let 'Stage db cb := b in
  bool_decide (da = db) &&
  (fix go l1 l2 := match l1, l2 with
                   | [], [] => true
                   | x :: l1', y :: l2' => stage_eqb x y && go l1' l2'
                   | _, _ => false
                   end) ca cb.

Definition replica_node (repId : Z) (root : AppDeployStage) : AppDeployStage :=
  match List.find (is_replica repId) (schildren root) with
  | Some n => n
  | None => new_replica repId
  end.

Definition mergeHostReplicaStages (dp : stage_deploy) (repId : Z) (report : list AppDeployStage)
  : stage_deploy * bool :=
  let root := StagesRoot dp in
  let before := replica_node repId root in
  let after := merge_node (dp_Revision dp) report before in
  ({| dp_Revision := dp_Revision dp;
      dp_Stages := Some (ReplicaStage repId (merge_node (dp_Revision dp) report) root) |},
   negb (stage_eqb before after)).

(** * The host side *)

Record ReplicaStageEntry := { en_Stage : AppDeployStage; en_Dirty : bool; en_Revision : Z }.

(** The entry [hoststatus.ReplicaStage] creates for a replica. *)
Definition new_entry (repId : Z) : ReplicaStageEntry :=
  {| en_Stage := Stage {| st_Name := AppDeployStageNameReplica; st_Owner := AppStageOwnerHostlet;
       st_Revision := 0; st_State := ""; st_Attempt := 0;
       st_Attrs := {[ AppDeployStageReplicaAttrRepId := itoa repId ]};
       st_Message := ""; st_Created := 0; st_Finished := 0 |} [];
     en_Dirty := false; en_Revision := 0 |}.

Definition SyncRevision (rev : Z) (e : ReplicaStageEntry) : ReplicaStageEntry * bool :=
  if en_Revision e =? rev then (e, false)
  else ({| en_Stage := Stage (sdata (en_Stage e)) []; en_Dirty := true; en_Revision := rev |}, true).

Definition stageName (name : string) (fn : stage_data -> stage_data) (e : ReplicaStageEntry) : ReplicaStageEntry :=
  {| en_Stage := Child name AppStageOwnerHostlet
       (on_data (fun d => set_revision (en_Revision e) (fn d))) (en_Stage e);
     en_Dirty := true; en_Revision := en_Revision e |}.

Definition MergeInagent (stages : list AppDeployStage) (e : ReplicaStageEntry) : ReplicaStageEntry :=
  {| en_Stage := foldl (fun n s => if stale_report (en_Revision e) s then n
                                   else Child (sname s) AppStageOwnerInagent (on_data (set_reported (sdata s))) n)
                   (PruneChildren (fun n => negb (is_inagent n)) (en_Stage e)) stages;
     en_Dirty := true; en_Revision := en_Revision e |}.

Definition SnapshotIfDirty (e : ReplicaStageEntry) : option (list AppDeployStage) :=
  if en_Dirty e then Some (schildren (en_Stage e)) else None.

Definition ClearDirty (e : ReplicaStageEntry) : ReplicaStageEntry :=
  {| en_Stage := en_Stage e; en_Dirty := false; en_Revision := en_Revision e |}.

(** * Properties *)

(** Every node of the tree is stamped with the revision. *)
Fixpoint all_rev (rev : Z) (s : AppDeployStage) : bool :=
  let 'Stage d cs := s in (st_Revision d =? rev) && forallb (all_rev rev) cs.

Lemma stage_ind' (P : AppDeployStage -> Prop) :
  (forall d cs, Forall P cs -> P (Stage d cs)) -> forall s, P s.
Proof.
  intros H. fix IH 1. intros [d cs]. apply H. induction cs as [|c cs IHcs]; constructor; [apply IH|exact IHcs].
Qed.

Lemma all_rev_SetRevisionDeep rev s : all_rev rev (SetRevisionDeep rev s) = true.
Proof.
  induction s as [d cs IH] using stage_ind'. simpl. rewrite Z.eqb_refl. simpl.
  induction IH as [|c cs Hc Hcs IHcs]; simpl; [done|]. by rewrite Hc.
Qed.

Lemma stage_eqb_refl s : stage_eqb s s = true.
Proof.
  induction s as [d cs IH] using stage_ind'. simpl. rewrite bool_decide_true by done. simpl.
  induction IH as [|c cs Hc Hcs IHcs]; simpl; [done|]. by rewrite Hc.
Qed.

Lemma sdata_Child name owner f s : sdata (Child name owner f s) = sdata s.
Proof. by destruct s. Qed.

Lemma sdata_PruneChildren keep s : sdata (PruneChildren keep s) = sdata s.
Proof. by destruct s. Qed.

(** The children other than those an update by name can reach. *)
Lemma upd_first_other (p q : AppDeployStage -> bool) fresh f cs :
  (forall c, p c = true -> q c = false /\ q (f c) = false) -> q (f fresh) = false ->
  List.filter q (upd_first p fresh f cs) = List.filter q cs.
Proof.
  intros Hpq Hf. induction cs as [|c cs IH]; simpl; [by rewrite Hf|].
  destruct (p c) eqn:E; simpl; [|by rewrite IH].
  destruct (Hpq c E) as [-> ->]. done.
Qed.

(** A node whose children an update appends, because none has the name. *)
Lemma upd_first_append (p : AppDeployStage -> bool) fresh f cs :
  Forall (fun c => p c = false) cs -> upd_first p fresh f cs = (cs ++ [f fresh])%list.
Proof. induction 1 as [|c cs Hc Hcs IH]; simpl; [done|]. by rewrite Hc, IH. Qed.

(** What a reported stage becomes on the zone side. *)
Definition relayed_of (s : AppDeployStage) : AppDeployStage :=
  on_data (set_reported (sdata s)) (new_child (sname s) (st_Owner (sdata s))).

Lemma sname_relayed_of s : sname (relayed_of s) = sname s.
Proof. done. Qed.

Lemma apply_reports_append curRev report d cs :
  NoDup (map sname report) ->
  Forall (fun s => Forall (fun c => sname c <> sname s) cs) report ->
  foldl (fun n s => apply_report curRev s n) (Stage d cs) report =
  Stage d (cs ++ map relayed_of (List.filter (fun s => negb (stale_report curRev s)) report))%list.
Proof.
  revert cs. induction report as [|s report IH]; intros cs Hnd Hdis; simpl.
  { by rewrite app_nil_r. }
  apply NoDup_cons in Hnd as [Hs Hnd]. apply Forall_cons in Hdis as [Hsc Hdis].
  unfold apply_report at 2. destruct (stale_report curRev s) eqn:E; simpl.
  - by apply IH.
  - rewrite upd_first_append.
    + fold (relayed_of s). rewrite IH; [by rewrite <- app_assoc|done|].
      rewrite Forall_forall in Hdis |- *. intros t Ht. apply Forall_app. split; [by apply Hdis|].
      constructor; [|constructor]. rewrite sname_relayed_of. intros Eq. apply Hs. rewrite Eq.
      by apply (list_elem_of_fmap_2 sname).
    + eapply Forall_impl; [exact Hsc|]. intros c Hc. by rewrite bool_decide_false.
Qed.

Definition zone_side (c : AppDeployStage) : bool := negb (is_relayed (sname c)).

(** The result of merging a report of distinct relayed names. *)
Lemma merge_node_eq curRev report node :
  NoDup (map sname report) -> Forall (fun s => is_relayed (sname s) = true) report ->
  merge_node curRev report node =
  Stage (sdata node) (List.filter zone_side (schildren node) ++
    map relayed_of (List.filter (fun s => negb (stale_report curRev s)) report))%list.
Proof.
  intros Hnd Hrel. destruct node as [d cs]. unfold merge_node. simpl.
  rewrite apply_reports_append; [done|done|].
  rewrite Forall_forall in Hrel |- *. intros s Hs. apply Forall_forall. intros c Hc.
  apply list_elem_of_In, filter_In in Hc as [_ Hc]. specialize (Hrel s Hs).
  intros E. simpl in Hc. rewrite E, Hrel in Hc. done.
Qed.

Lemma filter_relayed_of report :
  Forall (fun s => is_relayed (sname s) = true) report ->
  List.filter zone_side (map relayed_of report) = [].
Proof.
  induction 1 as [|s l Hs Hl IH]; simpl; [done|]. unfold zone_side at 1.
  by rewrite sname_relayed_of, Hs.
Qed.

Lemma filter_forall {A} (P : A -> Prop) (f : A -> bool) l : Forall P l -> Forall P (List.filter f l).
Proof. induction 1 as [|x l Hx Hl IH]; simpl; [done|]. destruct (f x); [by constructor|done]. Qed.

Lemma filter_filter_id {A} (f : A -> bool) l : List.filter f (List.filter f l) = List.filter f l.
Proof.
  induction l as [|x l IH]; simpl; [done|]. destruct (f x) eqn:E; simpl; [by rewrite E, IH|done].
Qed.

Lemma merge_node_idem curRev report node :
  NoDup (map sname report) -> Forall (fun s => is_relayed (sname s) = true) report ->
  merge_node curRev report (merge_node curRev report node) = merge_node curRev report node.
Proof.
  intros Hnd Hrel. rewrite !merge_node_eq by done. cbn [sdata schildren].
  rewrite List.filter_app, filter_filter_id, filter_relayed_of, app_nil_r; [done|by apply filter_forall].
Qed.

Lemma find_upd_first p fresh f cs : p (f fresh) = true -> (forall c, p c = true -> p (f c) = true) ->
  List.find p (upd_first p fresh f cs) =
  Some (f (match List.find p cs with Some c => c | None => fresh end)).
Proof.
  intros Hf Hc. induction cs as [|c cs IH]; simpl; [by rewrite Hf|].
  destruct (p c) eqn:E; simpl; [by rewrite Hc|]. by rewrite E.
Qed.

Lemma upd_first_twice p fresh f cs : p (f fresh) = true -> (forall c, p c = true -> p (f c) = true) ->
  (forall c, f (f c) = f c) -> upd_first p fresh f (upd_first p fresh f cs) = upd_first p fresh f cs.
Proof.
  intros Hf Hc Hff. induction cs as [|c cs IH]; simpl; [by rewrite Hf, Hff|].
  destruct (p c) eqn:E; simpl; [by rewrite Hc, Hff|]. by rewrite E, IH.
Qed.

(** The node keeps its identity under a merge. *)
Lemma is_replica_merge curRev report repId n :
  NoDup (map sname report) -> Forall (fun s => is_relayed (sname s) = true) report ->
  is_replica repId (merge_node curRev report n) = is_replica repId n.
Proof. intros Hnd Hrel. by rewrite merge_node_eq. Qed.

Lemma is_replica_new repId : is_replica repId (new_replica repId) = true.
Proof.
  unfold is_replica. rewrite !bool_decide_true; [done|apply lookup_singleton_eq|done].
Qed.

(** The node of the replica after a merge. *)
Lemma replica_node_merge dp repId report :
  NoDup (map sname report) -> Forall (fun s => is_relayed (sname s) = true) report ->
  replica_node repId (StagesRoot (fst (mergeHostReplicaStages dp repId report))) =
  merge_node (dp_Revision dp) report (replica_node repId (StagesRoot dp)).
Proof.
  intros Hnd Hrel. unfold replica_node, mergeHostReplicaStages; cbn [fst StagesRoot dp_Stages].
  destruct (StagesRoot dp) as [d cs]; cbn [ReplicaStage schildren].
  rewrite find_upd_first; [by destruct (List.find _ cs)|by rewrite is_replica_merge, is_replica_new|].
  intros c. by rewrite is_replica_merge.
Qed.

(** merging a host's report of distinct relayed stages into a deploy replaces
    exactly the relayed stages of that replica: its zone-side stages stay as they
    are and in their order, the relayed ones become the reported ones that are not
    stale, in their order, and every other child of the root is untouched.  Merging
    the same report again changes nothing and flushes nothing. *)
Theorem merge_report_exact dp repId report :
  NoDup (map sname report) -> Forall (fun s => is_relayed (sname s) = true) report ->
  let dp' := fst (mergeHostReplicaStages dp repId report) in
  let node := replica_node repId (StagesRoot dp) in
  let node' := replica_node repId (StagesRoot dp') in
  sdata node' = sdata node /\
  schildren node' = (List.filter zone_side (schildren node) ++
    map relayed_of (List.filter (fun s => negb (stale_report (dp_Revision dp) s)) report))%list /\
  List.filter (fun c => negb (is_replica repId c)) (schildren (StagesRoot dp')) =
    List.filter (fun c => negb (is_replica repId c)) (schildren (StagesRoot dp)) /\
  mergeHostReplicaStages dp' repId report = (dp', false).
Proof.
  intros Hnd Hrel dp' node node'.
  set (f := merge_node (dp_Revision dp) report).
  assert (Hp : forall c, is_replica repId (f c) = is_replica repId c) by (intro; by apply is_replica_merge).
  assert (Hn : node' = f node) by (by apply replica_node_merge).
  assert (He : f node = Stage (sdata node) (List.filter zone_side (schildren node) ++
    map relayed_of (List.filter (fun s => negb (stale_report (dp_Revision dp) s)) report))%list)
    by (by apply merge_node_eq).
  split_and!; [by rewrite Hn, He|by rewrite Hn, He| |].
  - unfold dp', mergeHostReplicaStages; cbn [fst StagesRoot dp_Stages].
    destruct (StagesRoot dp) as [d cs]; cbn [ReplicaStage schildren].
    apply upd_first_other; fold f; [intros c Hc|]; rewrite ?Hp, ?Hc, ?is_replica_new; done.
  - unfold mergeHostReplicaStages at 1. fold node'.
    change (dp_Revision dp') with (dp_Revision dp). fold f. f_equal.
    + unfold dp', mergeHostReplicaStages; cbn [fst StagesRoot dp_Stages dp_Revision]. f_equal. f_equal.
      destruct (StagesRoot dp) as [d cs]; cbn [ReplicaStage]. f_equal. fold f.
      apply upd_first_twice; [by rewrite Hp, is_replica_new|intros c; by rewrite Hp|].
      intros c. by apply merge_node_idem.
    + rewrite Hn. unfold f at 2. rewrite merge_node_idem by done. by rewrite stage_eqb_refl.
Qed.

(** ** The revision barrier *)

Definition is_rep_node (c : AppDeployStage) : bool := bool_decide (sname c = AppDeployStageNameReplica).

Lemma sname_SetRevisionDeep rev s : sname (SetRevisionDeep rev s) = sname s.
Proof. by destruct s. Qed.

Lemma sname_prune_replica s : sname (prune_replica s) = sname s.
Proof. unfold prune_replica. destruct (bool_decide _); [by destruct s|done]. Qed.

Lemma filter_map_ext {A B} (p : B -> bool) (q : A -> bool) (f : A -> B) l :
  (forall x, p (f x) = q x) -> List.filter p (map f l) = map f (List.filter q l).
Proof. intros H. induction l as [|x l IH]; simpl; [done|]. rewrite H, IH. by destruct (q x). Qed.

Lemma Child_other name owner f s : name <> AppDeployStageNameReplica ->
  (forall c, sname (f c) = sname c) ->
  List.filter is_rep_node (schildren (Child name owner f s)) = List.filter is_rep_node (schildren s).
Proof.
  intros Hn Hf. destruct s as [d cs]. cbn [Child schildren]. apply upd_first_other.
  - intros c Hc. apply bool_decide_eq_true in Hc. unfold is_rep_node. rewrite Hf, Hc.
    by rewrite bool_decide_false.
  - unfold is_rep_node. rewrite Hf. by rewrite bool_decide_false.
Qed.

Lemma markPreHost_root now rpc dp :
  let root' := StagesRoot (appDeployStagesMarkPreHost now rpc dp) in
  st_Revision (sdata root') = st_Revision (sdata (StagesRoot dp)) /\
  List.filter is_rep_node (schildren root') = List.filter is_rep_node (schildren (StagesRoot dp)).
Proof.
  unfold appDeployStagesMarkPreHost; cbn [StagesRoot dp_Stages]. split.
  - rewrite !sdata_Child. by destruct (StagesRoot dp).
  - rewrite !Child_other; [by destruct (StagesRoot dp)|done|by intros []|done|by intros []].
Qed.

(** A replica node as a reconcile leaves it. *)
Definition reconciled (rev : Z) (c : AppDeployStage) : AppDeployStage :=
  Stage (set_revision rev (sdata c)) (map (SetRevisionDeep rev) (List.filter zone_side (schildren c))).

Lemma reconcile_replicas now dp :
  snd (appDeployStagesReconcile now dp) = true ->
  List.filter is_rep_node (schildren (StagesRoot (fst (appDeployStagesReconcile now dp)))) =
  map (reconciled (dp_Revision dp)) (List.filter is_rep_node (schildren (StagesRoot dp))).
Proof.
  unfold appDeployStagesReconcile. destruct (_ <=? _); [done|]. intros _.
  destruct (StagesRoot dp) as [d cs]; cbn [on_data fst StagesRoot dp_Stages SetRevisionDeep schildren].
  rewrite map_map, (filter_map_ext _ is_rep_node).
  - apply map_ext_in. intros c Hc. apply filter_In in Hc as [_ Hc]. unfold is_rep_node in Hc.
    unfold prune_replica. rewrite Hc. by destruct c as [d' cs'].
  - intros c. unfold is_rep_node. by rewrite sname_SetRevisionDeep, sname_prune_replica.
Qed.

Lemma reconcile_changed now dp :
  snd (appDeployStagesReconcile now dp) = (st_Revision (sdata (StagesRoot dp)) <? dp_Revision dp).
Proof.
  unfold appDeployStagesReconcile. destruct (Z.leb_spec (dp_Revision dp) (st_Revision (sdata (StagesRoot dp)))).
  - symmetry. by apply Z.ltb_ge.
  - destruct (on_data _ _). symmetry. by apply Z.ltb_lt.
Qed.

Lemma reconcile_stamps now dp : snd (appDeployStagesReconcile now dp) = true ->
  all_rev (dp_Revision dp) (StagesRoot (fst (appDeployStagesReconcile now dp))) = true.
Proof.
  unfold appDeployStagesReconcile. destruct (_ <=? _); [done|]. intros _.
  destruct (on_data _ _) as [d cs]. apply all_rev_SetRevisionDeep.
Qed.

Lemma reconcile_revision now dp :
  dp_Revision (fst (appDeployStagesReconcile now dp)) = dp_Revision dp /\
  dp_Revision dp <= st_Revision (sdata (StagesRoot (fst (appDeployStagesReconcile now dp)))).
Proof.
  unfold appDeployStagesReconcile. destruct (Z.leb_spec (dp_Revision dp) (st_Revision (sdata (StagesRoot dp)))).
  - done.
  - destruct (on_data _ _) as [d cs]. cbn. lia.
Qed.

(** C7: the revision barrier of a deploy.  Marking the pre-host stages of a deploy
    leaves the root's revision and every replica subtree as they are, so that a
    client can tell the tree is behind; the scheduler's reconcile then acts exactly
    when the root is behind, drops the relayed stages of every replica, keeps the
    zone-side ones in order, and stamps the whole tree with the current revision;
    a reconcile after it does nothing. *)
Theorem deploy_revision_barrier now rpc now2 now3 dp :
  let dp1 := appDeployStagesMarkPreHost now rpc dp in
  let dp2 := fst (appDeployStagesReconcile now2 dp1) in
  let changed := snd (appDeployStagesReconcile now2 dp1) in
  let reps d := List.filter is_rep_node (schildren (StagesRoot d)) in
  st_Revision (sdata (StagesRoot dp1)) = st_Revision (sdata (StagesRoot dp)) /\
  reps dp1 = reps dp /\
  changed = (st_Revision (sdata (StagesRoot dp)) <? dp_Revision dp) /\
  (changed = true -> all_rev (dp_Revision dp) (StagesRoot dp2) = true /\
                     reps dp2 = map (reconciled (dp_Revision dp)) (reps dp)) /\
  snd (appDeployStagesReconcile now3 dp2) = false.
Proof.
  intros dp1 dp2 changed reps. destruct (markPreHost_root now rpc dp) as [Hr Hc]. fold dp1 in Hr, Hc.
  split_and!; [done|done| | |].
  - unfold changed. rewrite reconcile_changed, Hr. done.
  - intros Hch. split.
    + exact (reconcile_stamps now2 dp1 Hch).
    + unfold reps, dp2. rewrite reconcile_replicas by done. fold dp1. by rewrite Hc.
  - rewrite reconcile_changed. unfold dp2. destruct (reconcile_revision now2 dp1) as [-> Hle].
    by apply Z.ltb_ge.
Qed.

(** ** From the host to the zone *)

Inductive stage_event := EvRunning | EvSuccess | EvFailed | EvInstant.
Definition run_event (now : Z) (msg : string) (ev : stage_event) : stage_data -> stage_data :=
  match ev with
  | EvRunning => SetRunning now msg
  | EvSuccess => SetSuccess now msg
  | EvFailed => SetFailed now msg
  | EvInstant => SetInstant now msg
  end.

(** What happens to a host's entry between two reports. *)
Inductive host_op :=
| OpSync (rev : Z)
| OpStage (name : string) (now : Z) (msg : string) (ev : stage_event)
| OpInagent (stages : list AppDeployStage)
| OpClear.

Definition run_op (e : ReplicaStageEntry) (op : host_op) : ReplicaStageEntry :=
  match op with
  | OpSync rev => fst (SyncRevision rev e)
  | OpStage name now msg ev => stageName name (run_event now msg ev) e
  | OpInagent stages => MergeInagent stages e
  | OpClear => ClearDirty e
  end.

(** The host records only its own stages, the agent reports only its own. *)
Definition op_wf (op : host_op) : Prop :=
  match op with
  | OpStage name _ _ _ => name ∈ AppDeployStageHostSideNames
  | OpInagent stages => Forall (fun s => sname s = "" \/ sname s ∈ AppDeployStageInagentNames) stages
  | _ => True
  end.

Record entry_inv (e : ReplicaStageEntry) : Prop := {
  ei_nodup : NoDup (map sname (schildren (en_Stage e)));
  ei_fresh : Forall (fun c => is_relayed (sname c) = true /\ stale_report (en_Revision e) c = false)
               (schildren (en_Stage e)) }.

Lemma upd_first_names name owner f cs : (forall c, sname (f c) = sname c) ->
  map sname (upd_first (fun c => bool_decide (sname c = name)) (new_child name owner) f cs) =
  if bool_decide (name ∈ map sname cs) then map sname cs else (map sname cs ++ [name])%list.
Proof.
  intros Hf. induction cs as [|c cs IH]; simpl.
  - by rewrite Hf.
  - destruct (bool_decide_reflect (sname c = name)) as [<-|Hn]; simpl.
    + rewrite Hf, bool_decide_true by set_solver. done.
    + rewrite IH. destruct (bool_decide_reflect (name ∈ map sname cs)) as [Hin|Hin].
      * rewrite bool_decide_true by set_solver. done.
      * rewrite bool_decide_false by set_solver. done.
Qed.

Lemma Child_inv (P : AppDeployStage -> Prop) name owner f s :
  (forall c, sname (f c) = sname c) -> (forall c, sname c = name -> P (f c)) ->
  NoDup (map sname (schildren s)) -> Forall P (schildren s) ->
  NoDup (map sname (schildren (Child name owner f s))) /\ Forall P (schildren (Child name owner f s)).
Proof.
  intros Hf HP Hnd Hall. destruct s as [d cs]. cbn [Child schildren] in *. split.
  - rewrite upd_first_names by done. destruct (bool_decide_reflect (name ∈ map sname cs)); [done|].
    apply NoDup_app. split_and!; [done|set_solver|apply NoDup_singleton].
  - clear Hnd. induction Hall as [|c cs Hc Hcs IH]; simpl.
    + constructor; [by apply HP|done].
    + destruct (bool_decide_reflect (sname c = name)); constructor; auto.
Qed.

Lemma relayed_not_empty n : is_relayed n = true -> n <> "".
Proof. intros H ->. discriminate H. Qed.

Lemma filter_names (q : AppDeployStage -> bool) cs : NoDup (map sname cs) -> NoDup (map sname (List.filter q cs)).
Proof.
  induction cs as [|c cs IH]; simpl; [done|]. intros [Hc Hnd]%NoDup_cons.
  destruct (q c); simpl; [|by apply IH]. apply NoDup_cons. split; [|by apply IH].
  intros Hin. apply Hc. apply list_elem_of_fmap in Hin as (x & -> & Hx).
  apply list_elem_of_fmap. exists x. split; [done|].
  apply list_elem_of_In, filter_In in Hx as [Hx _]. by apply list_elem_of_In.
Qed.

Lemma stale_own rev d cs : st_Name d <> "" -> st_Revision d = rev -> stale_report rev (Stage d cs) = false.
Proof.
  intros Hn <-. unfold stale_report. cbn. rewrite bool_decide_false by done.
  rewrite Z.ltb_irrefl, andb_false_r. done.
Qed.

Definition children_ok (rev : Z) (node : AppDeployStage) : Prop :=
  NoDup (map sname (schildren node)) /\
  Forall (fun c => is_relayed (sname c) = true /\ stale_report rev c = false) (schildren node).

Lemma inagent_child_ok rev s node :
  sname s ∈ AppDeployStageInagentNames -> stale_report rev s = false -> children_ok rev node ->
  children_ok rev (Child (sname s) AppStageOwnerInagent (on_data (set_reported (sdata s))) node).
Proof.
  intros Hs Est [Hnd Hall]. apply Child_inv; [by intros []| |done|done].
  assert (Hsn : sname s <> "") by (intros E0; unfold stale_report in Est; by rewrite E0 in Est).
  intros [d cs] En. unfold sname in En. cbn in En. split.
  - apply bool_decide_eq_true, elem_of_app. right. unfold sname. cbn. by rewrite En.
  - revert Est. unfold stale_report. cbn. unfold sname at 2. cbn. rewrite En.
    by rewrite !(bool_decide_false (sname s = "")).
Qed.

Lemma MergeInagent_ok rev stages node :
  Forall (fun s => sname s = "" \/ sname s ∈ AppDeployStageInagentNames) stages -> children_ok rev node ->
  children_ok rev (foldl (fun n s => if stale_report rev s then n
    else Child (sname s) AppStageOwnerInagent (on_data (set_reported (sdata s))) n) node stages).
Proof.
  intros Hwf. revert node. induction Hwf as [|s l Hs Hl IH]; intros node Hn; cbn [foldl]; [done|].
  apply IH. destruct (stale_report rev s) eqn:Est; [done|].
  destruct Hs as [E0|Hs]; [unfold stale_report in Est; by rewrite E0 in Est|]. by apply inagent_child_ok.
Qed.

Lemma run_op_inv e op : entry_inv e -> op_wf op -> entry_inv (run_op e op).
Proof.
  intros [Hnd Hfr] Hwf. destruct op as [rev|name now msg ev|stages|]; cbn [run_op].
  - unfold SyncRevision. destruct (_ =? _); [by split|]. split; cbn; constructor.
  - assert (Hrel : is_relayed name = true).
    { apply bool_decide_eq_true. apply elem_of_app. by left. }
    unfold stageName.
    destruct (Child_inv (fun c => is_relayed (sname c) = true /\ stale_report (en_Revision e) c = false)
      name AppStageOwnerHostlet (on_data (fun d => set_revision (en_Revision e) (run_event now msg ev d)))
      (en_Stage e)) as [A B]; [by intros [d cs]; destruct ev| |done|done|by split].
    intros [d cs] En. cbn in En. cbn [on_data].
    assert (Ename : st_Name (set_revision (en_Revision e) (run_event now msg ev d)) = name)
      by (rewrite <- En; by destruct ev).
    split; [unfold sname; cbn [sdata]; by rewrite Ename|].
    apply stale_own; [rewrite Ename; by apply relayed_not_empty|done].
  - destruct (MergeInagent_ok (en_Revision e) stages
      (PruneChildren (fun n => negb (is_inagent n)) (en_Stage e)) Hwf) as [A B]; [|by split].
    destruct (en_Stage e) as [d cs]. cbn [PruneChildren schildren] in *.
    split; [by apply filter_names|by apply filter_forall].
  - by split.
Qed.

Lemma run_ops_inv ops e : entry_inv e -> Forall op_wf ops -> entry_inv (foldl run_op e ops).
Proof.
  revert e. induction ops as [|op ops IH]; intros e He Hw; simpl; [done|].
  apply Forall_cons in Hw as [H1 H2]. apply IH; [by apply run_op_inv|done].
Qed.

(** The progress a stage records. *)
Definition progress (c : AppDeployStage) : string * string * Z * string * Z * string * Z * Z :=
  let d := sdata c in
  (st_Name d, st_Owner d, st_Revision d, st_State d, st_Attempt d, st_Message d, st_Created d, st_Finished d).

Lemma filter_all {A} (f : A -> bool) l : Forall (fun x => f x = true) l -> List.filter f l = l.
Proof. induction 1 as [|x l Hx Hl IH]; simpl; [done|]. by rewrite Hx, IH. Qed.

Lemma filter_none {A} (f : A -> bool) l : Forall (fun x => f x = false) l -> List.filter f l = [].
Proof. induction 1 as [|x l Hx Hl IH]; simpl; [done|]. by rewrite Hx, IH. Qed.

(** C8: host progress reaches the zone.  Whatever a host and its agent have recorded
    for a replica since the entry was created, with revision changes and agent
    reports in any order, a report of it to a zone at the same deploy revision
    makes the relayed stages of the zone's replica node show exactly that progress,
    in the same order. *)
Theorem host_progress_reaches_zone repId ops report dp :
  Forall op_wf ops ->
  let e := foldl run_op (new_entry repId) ops in
  SnapshotIfDirty e = Some report -> dp_Revision dp = en_Revision e ->
  let dp' := fst (mergeHostReplicaStages dp repId report) in
  map progress (List.filter (fun c => is_relayed (sname c)) (schildren (replica_node repId (StagesRoot dp')))) =
  map progress (schildren (en_Stage e)).
Proof.
  intros Hops e Hsnap Hrev dp'.
  assert (He : entry_inv e) by (apply run_ops_inv; [split; cbn; constructor|done]).
  unfold SnapshotIfDirty in Hsnap. destruct (en_Dirty e); [|done]. injection Hsnap as <-.
  destruct He as [Hnd Hfr].
  assert (Hrel : Forall (fun s => is_relayed (sname s) = true) (schildren (en_Stage e)))
    by (eapply Forall_impl; [exact Hfr|]; by intros c [? _]).
  unfold dp'. rewrite replica_node_merge, merge_node_eq by done. cbn [schildren].
  rewrite List.filter_app, filter_none, app_nil_l.
  - rewrite Hrev, (filter_all (fun s => negb (stale_report _ s))).
    + rewrite filter_all; [by rewrite map_map|]. apply Forall_map. exact Hrel.
    + eapply Forall_impl; [exact Hfr|]. intros c [_ ->]. done.
  - apply Forall_forall. intros c Hc. apply list_elem_of_In, filter_In in Hc as [_ Hc].
    unfold zone_side in Hc. by apply negb_true_iff in Hc.
Qed.

(** ** Witnesses *)

Definition ex_stage (name owner : string) (rev : Z) : AppDeployStage :=
  on_data (set_revision rev) (new_child name owner).
Definition ex_deploy : stage_deploy :=
  {| dp_Revision := 2;
     dp_Stages := Some (ReplicaStage 0 (Child "schedule" "zonelet" (on_data (SetInstant 5 "")))
       (Stage (new_data "deploy" "zonelet") [])) |}.
Definition ex_report : list AppDeployStage :=
  [ex_stage "host_recv" "hostlet" 2; ex_stage "image_pull" "hostlet" 1; ex_stage "task_run" "inagent" 2].

Lemma merge_report_exact_witness :
  let dp' := fst (mergeHostReplicaStages ex_deploy 0 ex_report) in
  let node := replica_node 0 (StagesRoot ex_deploy) in
  let node' := replica_node 0 (StagesRoot dp') in
  sdata node' = sdata node /\
  schildren node' = (List.filter zone_side (schildren node) ++
    map relayed_of (List.filter (fun s => negb (stale_report (dp_Revision ex_deploy) s)) ex_report))%list /\
  List.filter (fun c => negb (is_replica 0 c)) (schildren (StagesRoot dp')) =
    List.filter (fun c => negb (is_replica 0 c)) (schildren (StagesRoot ex_deploy)) /\
  mergeHostReplicaStages dp' 0 ex_report = (dp', false).
Proof.
  apply (merge_report_exact ex_deploy 0 ex_report).
  - apply (bool_decide_unpack _). vm_compute. exact I.
  - repeat constructor.
Defined.

Definition ex_ops : list host_op :=
  [OpSync 2; OpStage "host_recv" 10 "" EvInstant; OpStage "image_pull" 11 "img" EvRunning;
   OpInagent [ex_stage "task_run" "x" 2]; OpStage "image_pull" 12 "" EvSuccess].

Lemma host_progress_reaches_zone_witness :
  let e := foldl run_op (new_entry 0) ex_ops in
  map progress (List.filter (fun c => is_relayed (sname c)) (schildren (replica_node 0 (StagesRoot
    (fst (mergeHostReplicaStages ex_deploy 0 (schildren (en_Stage e)))))))) =
  map progress (schildren (en_Stage e)).
Proof.
  apply (host_progress_reaches_zone 0 ex_ops).
  - repeat constructor; cbn; try (right); apply (bool_decide_unpack _); vm_compute; exact I.
  - reflexivity.
  - reflexivity.
Defined.
