(* ===== verification/SpecConfig.v ===== *)
(** Configuration schemas and values of applications: the validation of
    [src/pkg/inapi/valid.go] and the resolution of defaults and auto-fill values of
    [src/internal/zonelet/service_instance.go] with
    [src/internal/inutil/autofill/autofill.go].

    Schemas and values are trees of nodes behind pointers that may be nil.  They are
    decoded from a request or from the database, so no two pointers of a tree are the
    same, and a write through a pointer is an update of that place of the tree. *)
From Stdlib Require Import ZArith Lia Ascii.
From S2P Require Import Prelude GoStrings.
Local Open Scope string_scope.
Local Open Scope go_scope.

(** * Records *)

(** [inapi.AppSpecConfigItem]: a field of a schema. *)
Inductive AppSpecConfigItem := SpecItem {
  si_Name : string; si_Title : string; si_Prompt : string; si_Type : string;
  si_Default : string; si_AutoFill : string; si_Description : string;
  si_Items : list (option AppSpecConfigItem);
  si_KeyItem : string; si_Unique : string }.

(** [inapi.AppDeployConfigItem]: a value. *)
Inductive AppDeployConfigItem := DeployItem {
  di_Name : string; di_Value : string; di_Type : string;
  di_Items : list (option AppDeployConfigItem) }.

(** [inapi.AppSpecTask]: its name and its triggers. *)
Record AppSpecTask := {
  tk_Name : string; tk_OnStartup : bool; tk_OnShutdown : bool; tk_IntervalSeconds : Z; tk_Cron : string }.

Definition SpecFieldTypeGroup : string := "group".
Definition SpecFieldTypeArrayGroup : string := "array_group".
Definition SpecConfigUniqueArrayGroup : string := "array_group".
Definition SpecConfigUniqueApp : string := "app".

(** The nodes a loop with a nil check goes over. *)
Definition live {A} (l : list (option A)) : list A := omap id l.
Arguments live : simpl never.

(** The first node that is there and has a name: [AppDeployConfigItem.Item] among
    the items of a value, [deployConfigItem] among the top-level values, and the
    [slices.IndexFunc] of the resolution. *)
Definition named (name : string) (o : option AppDeployConfigItem) : Prop :=
  match o with Some d => di_Name d = name | None => False end.
#[global] Instance named_dec name o : Decision (named name o).
Proof. destruct o; simpl; apply _. Defined.
Definition find_named (name : string) (l : list (option AppDeployConfigItem)) : option (nat * AppDeployConfigItem) :=
  match list_find (named name) l with Some (i, Some d) => Some (i, d) | _ => None end.

Definition DeployItem_Item (x : AppDeployConfigItem) (name : string) : option AppDeployConfigItem :=
  snd <$> find_named name (di_Items x).
Definition deployConfigItem (items : list (option AppDeployConfigItem)) (name : string)
  : option AppDeployConfigItem := snd <$> find_named name items.

(** * Validation *)

Definition ValidateTaskTrigger (task : option AppSpecTask) : result unit :=
  match task with
  | None => Err "task is nil"
  | Some task =>
    let triggers :=
      ((if tk_OnStartup task then 1 else 0) + (if tk_OnShutdown task then 1 else 0) +
       (if 0 <? tk_IntervalSeconds task then 1 else 0) +
       (if bool_decide (tk_Cron task = "") then 0 else 1))%Z in
    if (triggers =? 0)%Z then Err "exactly one trigger field is required"
    else if (1 <? triggers)%Z then Err "trigger fields are mutually exclusive"
    else Ok tt
  end.

(** [specConfigItemContainsName] *)
Definition specConfigItemContainsName (items : list (option AppSpecConfigItem)) (name : string) : bool :=
  existsb (fun o => match o with Some it => bool_decide (si_Name it = name) | None => false end) items.

(** The checks of a field on its own: its scope, and what its type requires. *)
Definition check_scope (field : AppSpecConfigItem) : result unit :=
  if bool_decide (si_Unique field <> "" /\ si_Unique field <> SpecConfigUniqueArrayGroup /\
                  si_Unique field <> SpecConfigUniqueApp)
  then Err "config field: invalid unique scope" else Ok tt.
Definition check_type (field : AppSpecConfigItem) : result unit :=
  if bool_decide (si_Type field = SpecFieldTypeGroup) then
    if bool_decide (si_Items field = []) then Err "config field: group requires at least one item" else Ok tt
  else if bool_decide (si_Type field = SpecFieldTypeArrayGroup) then
    if bool_decide (si_Items field = []) then Err "config field: array_group requires at least one item"
    else if bool_decide (si_KeyItem field = "") then Err "config field: array_group requires key_item"
    else if negb (specConfigItemContainsName (si_Items field) (si_KeyItem field))
    then Err "config field: array_group key_item does not match any item name"
    else Ok tt
  else Ok tt.

(** The loop over the items of a field: names that are there, distinct, and items
    that are valid themselves. *)
Definition check_sub_items (validate : AppSpecConfigItem -> result unit) :=
  fix go (names : gset string) (items : list (option AppSpecConfigItem)) : result unit :=
    match items with
    | [] => Ok tt
    | None :: rest => go names rest
    | Some sub :: rest =>
      if bool_decide (si_Name sub = "") then Err "config field: sub-item name is required"
      else if bool_decide (si_Name sub ∈ names) then Err "config field: duplicate sub-item name"
      else let? _ := validate sub in go ({[si_Name sub]} ∪ names) rest
    end.
Fixpoint validate_field (field : AppSpecConfigItem) : result unit :=
  if bool_decide (si_Name field = "") then Err "config field name is required" else
  let? _ := check_sub_items validate_field ∅ (si_Items field) in
  let? _ := check_scope field in
  check_type field.

Definition ValidateSpecConfigField (field : option AppSpecConfigItem) : result unit :=
  match field with
  | None => Err "config field is nil"
  | Some field => validate_field field
  end.

(** The value of a field of an instance; a field that is missing is empty. *)
Definition item_value (inst : AppDeployConfigItem) (fieldName : string) : string :=
  match DeployItem_Item inst fieldName with Some it => di_Value it | None => "" end.

Fixpoint check_instances (fieldName : string) (requireNonEmpty : bool) (seen : gset string)
    (items : list (option AppDeployConfigItem)) : result unit :=
  match items with
  | [] => Ok tt
  | None :: rest => check_instances fieldName requireNonEmpty seen rest
  | Some inst :: rest =>
    let v := item_value inst fieldName in
    if bool_decide (v = "") then
      if requireNonEmpty then Err "config: array_group instance missing key field"
      else check_instances fieldName requireNonEmpty seen rest
    else if bool_decide (v ∈ seen) then Err "config: array_group duplicate"
    else check_instances fieldName requireNonEmpty ({[v]} ∪ seen) rest
  end.
Definition checkArrayGroupUnique (di : AppDeployConfigItem) (fieldName : string) (requireNonEmpty : bool)
  : result unit := check_instances fieldName requireNonEmpty ∅ (di_Items di).

(** A loop that skips what is nil. *)
Definition fold_live {A B} (f : A -> B -> B) :=
  fix go (l : list (option A)) (acc : B) : B :=
    match l with
    | [] => acc
    | None :: rest => go rest acc
    | Some x :: rest => go rest (f x acc)
    end.

Fixpoint collect_item (sf : AppSpecConfigItem) (out : gset string) : gset string :=
  let out := if bool_decide (si_Unique sf = SpecConfigUniqueApp /\ si_Name sf <> "")
             then {[si_Name sf]} ∪ out else out in
  fold_live collect_item (si_Items sf) out.
Definition collectAppUniqueNames (spec : list (option AppSpecConfigItem)) (out : gset string) : gset string :=
  fold_live collect_item spec out.

Abbreviation pool := (gmap string (list string)).
Definition record (appUniqueNames : gset string) (p : pool) (name value : string) : pool :=
  if bool_decide (name <> "" /\ name ∈ appUniqueNames)
  then <[name := (default [] (p !! name) ++ [value])%list]> p else p.
Definition record_all (appUniqueNames : gset string) (p : pool) (fs : list (option AppDeployConfigItem)) : pool :=
  foldl (fun p f => record appUniqueNames p (di_Name f) (di_Value f)) p (live fs).

Definition collectDeployValues (di : AppDeployConfigItem) (sf : option AppSpecConfigItem)
    (p : pool) (appUniqueNames : gset string) : pool :=
  let type := from_option si_Type "" sf in
  if bool_decide (type = SpecFieldTypeArrayGroup) then
    foldl (fun p inst => record_all appUniqueNames p (di_Items inst)) p (live (di_Items di))
  else if bool_decide (type = SpecFieldTypeGroup) then record_all appUniqueNames p (di_Items di)
  else record appUniqueNames p (di_Name di) (di_Value di).

Fixpoint check_distinct (seen : gset string) (vals : list string) : result unit :=
  match vals with
  | [] => Ok tt
  | v :: rest =>
    if bool_decide (v = "") then check_distinct seen rest
    else if bool_decide (v ∈ seen) then Err "config: value must be unique (app scope) but is duplicated"
    else check_distinct ({[v]} ∪ seen) rest
  end.
Definition checkDistinctAppScoped (vals : list string) : result unit := check_distinct ∅ vals.

(** A loop that returns at the first error. *)
Fixpoint all_ok {A} (f : A -> result unit) (l : list A) : result unit :=
  match l with [] => Ok tt | x :: rest => let? _ := f x in all_ok f rest end.

(** The checks of one array group of the schema. *)
Definition check_child (sf : AppSpecConfigItem) (di : AppDeployConfigItem) (child : AppSpecConfigItem) : result unit :=
  if bool_decide (si_Name child = "" \/ si_Unique child <> SpecConfigUniqueArrayGroup \/
                  si_Name child = si_KeyItem sf)
  then Ok tt else checkArrayGroupUnique di (si_Name child) false.
Definition check_group (deploy : list (option AppDeployConfigItem)) (sf : AppSpecConfigItem) : result unit :=
  if bool_decide (si_Type sf <> SpecFieldTypeArrayGroup) then Ok tt else
  match deployConfigItem deploy (si_Name sf) with
  | None => Ok tt
  | Some di =>
    let? _ := if bool_decide (si_KeyItem sf = "") then Ok tt
              else checkArrayGroupUnique di (si_KeyItem sf) true in
    all_ok (check_child sf di) (live (si_Items sf))
  end.

(** [specByName]: the last field of a name. *)
Definition specByName (spec : list (option AppSpecConfigItem)) : gmap string AppSpecConfigItem :=
  foldl (fun m sf => if bool_decide (si_Name sf = "") then m else <[si_Name sf := sf]> m) ∅ (live spec).

Definition ValidateDeployConfigItems `{MapRange} (spec : list (option AppSpecConfigItem))
    (deploy : list (option AppDeployConfigItem)) : result unit :=
  if bool_decide (spec = [] \/ deploy = []) then Ok tt else
  let? _ := all_ok (check_group deploy) (live spec) in
  let appUniqueNames := collectAppUniqueNames spec ∅ in
  if bool_decide (appUniqueNames = ∅) then Ok tt else
  let p := foldl (fun p di => collectDeployValues di (specByName spec !! di_Name di) p appUniqueNames) ∅ (live deploy) in
  all_ok (fun nv => checkDistinctAppScoped (snd nv)) (map_range p).

(** * Resolution of defaults and auto-fill values *)

(** The random sources: the [k]-th read of [n] bytes of [crypto/rand], which may
    fail, and the [k]-th identifier of the UUID package. *)
Class Entropy := {
  rand_read : nat -> nat -> option (list Z);
  uuid_string : nat -> string }.
Class EntropyLaws (E : Entropy) := {
  rand_read_ok : forall k n, exists bs, rand_read k n = Some bs /\ length bs = n;
  uuid_nonempty : forall k, uuid_string k <> "" }.

Definition hex_digit (z : Z) : ascii := ascii_of_nat (Z.to_nat (if (z <? 10)%Z then z + 48 else z + 87)).
Fixpoint hex_encode (bs : list Z) : string :=
  match bs with
  | [] => ""
  | b :: rest => String (hex_digit (b / 16)) (String (hex_digit (b mod 16)) (hex_encode rest))
  end.

Section resolve.
Context `{Entropy}.

Definition RandHexString (k n : nat) : string :=
  match rand_read k n with Some bs => hex_encode bs | None => "" end.

(** [autofill.Generate]; [k] counts the draws. *)
Definition Generate (autoFill : string) (k : nat) : result string * nat :=
  if bool_decide (autoFill = "defval") then (Ok "", k)
  else if bool_decide (autoFill = "hexstr_32") then (Ok (RandHexString k 16), S k)
  else if bool_decide (autoFill = "hexstr_16") then (Ok (RandHexString k 8), S k)
  else if bool_decide (autoFill = "uuid") then (Ok (uuid_string k), S k)
  else (Ok "", k).
Definition GenerateIfEmpty (autoFill currentValue : string) (k : nat) : result string * nat :=
  if bool_decide (currentValue <> "") then (Ok currentValue, k)
  else if bool_decide (autoFill = "") then (Ok "", k)
  else Generate autoFill k.

Definition configFieldAutoValue (field : AppSpecConfigItem) (k : nat) : string * nat :=
  if bool_decide (si_AutoFill field <> "") then
    match GenerateIfEmpty (si_AutoFill field) "" k with
    | (Err _, k) => ("", k)
    | (Ok val, k) => (if bool_decide (val <> "") then val else si_Default field, k)
    end
  else (si_Default field, k).

Definition with_value (v : string) (d : AppDeployConfigItem) : AppDeployConfigItem :=
  DeployItem (di_Name d) v (di_Type d) (di_Items d).
Definition with_items (l : list (option AppDeployConfigItem)) (d : AppDeployConfigItem) : AppDeployConfigItem :=
  DeployItem (di_Name d) (di_Value d) (di_Type d) l.

Abbreviation values := (list (option AppDeployConfigItem) * nat)%type.

(** [resolveFlatConfigField] *)
Definition resolveFlatConfigField (field : AppSpecConfigItem) (s : values) : values :=
  let '(cfgs, k) := s in
  match find_named (si_Name field) cfgs with
  | Some (idx, d) =>
    if bool_decide (di_Value d <> "") then (cfgs, k) else
    let '(val, k) := configFieldAutoValue field k in
    if bool_decide (val = "") then (cfgs, k) else (<[idx := Some (with_value val d)]> cfgs, k)
  | None =>
    let '(val, k) := configFieldAutoValue field k in
    if bool_decide (val = "") then (cfgs, k)
    else ((cfgs ++ [Some (DeployItem (si_Name field) val "" [])])%list, k)
  end.

(** [resolveChildConfigFields]: the body of its loop does to a child what
    [resolveFlatConfigField] does to a field. *)
Definition resolveChildConfigFields (specItems : list (option AppSpecConfigItem)) (s : values) : values :=
  foldl (fun s sf => if bool_decide (si_Name sf = "") then s else resolveFlatConfigField sf s) s (live specItems).

(** The instances of an array group, in order. *)
Definition resolve_instance (specItems : list (option AppSpecConfigItem)) (o : option AppDeployConfigItem)
    (k : nat) : option AppDeployConfigItem * nat :=
  match o with
  | None => (None, k)
  | Some inst =>
    let '(items, k) := resolveChildConfigFields specItems (di_Items inst, k) in
    (Some (with_items items inst), k)
  end.
Fixpoint resolve_instances (specItems : list (option AppSpecConfigItem)) (l : list (option AppDeployConfigItem))
    (k : nat) : values :=
  match l with
  | [] => ([], k)
  | o :: rest =>
    let '(o, k) := resolve_instance specItems o k in
    let '(rest, k) := resolve_instances specItems rest k in
    (o :: rest, k)
  end.

Definition resolveGroupedConfigField (field : AppSpecConfigItem) (s : values) : values :=
  let '(cfgs, k) := s in
  if bool_decide (si_Items field = []) then (cfgs, k) else
  match find_named (si_Name field) cfgs with
  | None => (cfgs, k)
  | Some (idx, item) =>
    let '(items, k) :=
      if bool_decide (si_Type field = SpecFieldTypeArrayGroup)
      then resolve_instances (si_Items field) (di_Items item) k
      else resolveChildConfigFields (si_Items field) (di_Items item, k) in
    (<[idx := Some (with_items items item)]> cfgs, k)
  end.

Definition is_grouped (field : AppSpecConfigItem) : bool :=
  bool_decide (si_Type field = SpecFieldTypeGroup \/ si_Type field = SpecFieldTypeArrayGroup).
Definition resolve_field (s : values) (field : AppSpecConfigItem) : values :=
  if bool_decide (si_Name field = "") then s
  else if is_grouped field then resolveGroupedConfigField field s
  else resolveFlatConfigField field s.

(** [resolveDeployConfigFields] on the configs of a spec and of a deploy. *)
Definition resolveDeployConfigFields (spec : list (option AppSpecConfigItem))
    (cfgs : list (option AppDeployConfigItem)) (k : nat) : values :=
  foldl resolve_field (cfgs, k) (live spec).
End resolve.

(** The schema and the values of the tests of [config_test.go]. *)
Definition mk_field (name type : string) (items : list AppSpecConfigItem) (key unique autofill dflt : string) : AppSpecConfigItem :=
  SpecItem name "" "" type dflt autofill "" (Some <$> items) key unique.
Definition mk_value (name value : string) : option AppDeployConfigItem := Some (DeployItem name value "" []).
Definition mk_group (name : string) (items : list (option AppDeployConfigItem)) : option AppDeployConfigItem :=
  Some (DeployItem name "" "" items).

Definition test_databases : AppSpecConfigItem :=
  mk_field "databases" SpecFieldTypeArrayGroup
    [mk_field "db_name" "" [] "" "" "" ""; mk_field "db_auth" "" [] "" "" "hexstr_32" ""] "db_name" "" "" "".
Definition test_spec : list (option AppSpecConfigItem) :=
  [Some test_databases; Some (mk_field "plain" "string" [] "" "" "" "")].

Example validate_field_tests :
  map (fun f => is_ok (ValidateSpecConfigField f))
    [Some test_databases; None; Some (mk_field "" "string" [] "" "" "" "");
     Some (mk_field "replica" "group" [] "" "" "" "");
     Some (mk_field "databases" "array_group" [mk_field "db_name" "" [] "" "" "" ""] "missing" "" "" "");
     Some (mk_field "replica" "group" [mk_field "a" "" [] "" "" "" ""; mk_field "a" "" [] "" "" "" ""] "" "" "" "");
     Some (mk_field "db_user" "string" [] "" "galaxy" "" "")]
  = [true; false; false; false; false; false; false].
Proof. reflexivity. Qed.

Example validate_deploy_tests :
  map (fun d => is_ok (ValidateDeployConfigItems test_spec d))
    [[]; [mk_group "databases" [mk_group "" [mk_value "db_name" "db1"]; mk_group "" [mk_value "db_name" "db2"]]];
     [mk_group "databases" [mk_group "" [mk_value "db_name" "db1"]; mk_group "" [mk_value "db_name" "db1"]]];
     [mk_group "databases" [mk_group "" [mk_value "db_auth" "x"]]]]
  = [true; true; false; false].
Proof. reflexivity. Qed.

(** * Lemmas *)

Lemma live_cons_Some {A} (x : A) l : live (Some x :: l) = x :: live l.
Proof. done. Qed.
Lemma live_cons_None {A} (l : list (option A)) : live (None :: l) = live l.
Proof. done. Qed.
Lemma elem_of_live {A} (l : list (option A)) x : x ∈ live l <-> Some x ∈ l.
Proof.
  unfold live. rewrite list_elem_of_omap. split; [|by exists (Some x)].
  intros ([y|] & Hin & [= ->]). done.
Qed.

Lemma fold_live_foldl {A B} (f : A -> B -> B) l acc :
  fold_live f l acc = foldl (fun acc x => f x acc) acc (live l).
Proof. revert acc. induction l as [|[x|] l IH]; intros acc; [done|apply IH|apply IH]. Qed.

Lemma spec_item_ind' (P : AppSpecConfigItem -> Prop)
    (IH : forall f, Forall P (live (si_Items f)) -> P f) : forall f, P f.
Proof.
  fix go 1. intros f. apply IH. destruct f as [? ? ? ? ? ? ? items ? ?]. cbn.
  induction items as [|[s|] items IHl]; [constructor|constructor; [apply go|done]|done].
Qed.
Lemma deploy_item_ind' (P : AppDeployConfigItem -> Prop)
    (IH : forall d, Forall P (live (di_Items d)) -> P d) : forall d, P d.
Proof.
  fix go 1. intros d. apply IH. destruct d as [? ? ? items]. cbn.
  induction items as [|[s|] items IHl]; [constructor|constructor; [apply go|done]|done].
Qed.

(** [if] on a decision against an error. *)
Lemma guard_ok P `{Decision P} e (k : result unit) :
  (if bool_decide P then Err e else k) = Ok tt <-> ~ P /\ k = Ok tt.
Proof. case_bool_decide; naive_solver. Qed.

Lemma rbind_unit (x k : result unit) : rbind x (fun _ => k) = Ok tt <-> x = Ok tt /\ k = Ok tt.
Proof. destruct x as [[]|]; simpl; naive_solver. Qed.

Lemma all_ok_iff {A} (f : A -> result unit) l : all_ok f l = Ok tt <-> Forall (fun x => f x = Ok tt) l.
Proof.
  induction l as [|x l IH]; simpl; [by rewrite Forall_nil|].
  by rewrite rbind_unit, Forall_cons, IH.
Qed.

(** Distinctness, the way the loops check it: against the set of what was seen. *)
Definition fresh_of {A} `{Countable A} (seen : gset A) (l : list A) : Prop :=
  NoDup l /\ Forall (fun x => x ∉ seen) l.

Lemma fresh_of_cons {A} `{Countable A} (seen : gset A) x l :
  fresh_of seen (x :: l) <-> (x ∉ seen) /\ fresh_of ({[x]} ∪ seen) l.
Proof.
  unfold fresh_of. rewrite NoDup_cons, Forall_cons, !Forall_forall. split.
  - intros ((Hx & Hn) & Hs & Hl). split_and!; [done|done|].
    intros y Hy. specialize (Hl y Hy). set_solver.
  - intros (Hs & Hn & Hl). split_and!; [|done|done|].
    + intros Hx. specialize (Hl x Hx). set_solver.
    + intros y Hy. specialize (Hl y Hy). set_solver.
Qed.

Lemma fresh_of_empty {A} `{Countable A} (l : list A) : fresh_of ∅ l <-> NoDup l.
Proof. unfold fresh_of. split; [by intros []|]. intros Hl. split; [done|]. apply Forall_forall. set_solver. Qed.

(** * The fields that are accepted *)

(** What the type of a field requires of it. *)
Definition shape_ok (f : AppSpecConfigItem) : Prop :=
  (si_Type f = SpecFieldTypeGroup \/ si_Type f = SpecFieldTypeArrayGroup -> si_Items f <> []) /\
  (si_Type f = SpecFieldTypeArrayGroup ->
     si_KeyItem f <> "" /\ exists it, it ∈ live (si_Items f) /\ si_Name it = si_KeyItem f).
Definition scope_ok (f : AppSpecConfigItem) : Prop :=
  si_Unique f = "" \/ si_Unique f = SpecConfigUniqueArrayGroup \/ si_Unique f = SpecConfigUniqueApp.

Inductive well_formed : AppSpecConfigItem -> Prop :=
| WellFormed f : si_Name f <> "" -> NoDup (map si_Name (live (si_Items f))) ->
    Forall well_formed (live (si_Items f)) -> scope_ok f -> shape_ok f -> well_formed f.

Lemma check_sub_items_ok (v : AppSpecConfigItem -> result unit) names items :
  check_sub_items v names items = Ok tt <->
  Forall (fun s => si_Name s <> "" /\ v s = Ok tt) (live items) /\ fresh_of names (map si_Name (live items)).
Proof.
  revert names. induction items as [|[s|] items IH]; intros names; simpl; [| |apply IH].
  - split; [|done]. intros _. split; [constructor|]. split; constructor.
  - rewrite live_cons_Some, !guard_ok, rbind_unit, IH, Forall_cons. simpl. rewrite fresh_of_cons. tauto.
Qed.

Lemma contains_name_ok items name :
  specConfigItemContainsName items name = true <-> exists it, it ∈ live items /\ si_Name it = name.
Proof.
  unfold specConfigItemContainsName. rewrite existsb_exists. split.
  - intros ([it|] & Hin & E); [|done]. apply bool_decide_eq_true in E. exists it. split; [|done].
    apply elem_of_live. by apply list_elem_of_In.
  - intros (it & Hin & E). exists (Some it). apply elem_of_live in Hin. split; [by apply list_elem_of_In|].
    by apply bool_decide_eq_true.
Qed.

Lemma check_scope_ok f : check_scope f = Ok tt <-> scope_ok f.
Proof.
  unfold check_scope, scope_ok. rewrite guard_ok. destruct (decide (si_Unique f = "")),
    (decide (si_Unique f = SpecConfigUniqueArrayGroup)), (decide (si_Unique f = SpecConfigUniqueApp)); naive_solver.
Qed.

Lemma check_type_ok f : check_type f = Ok tt <-> shape_ok f.
Proof.
  unfold check_type, shape_ok. case_bool_decide as Eg.
  - rewrite guard_ok. split; [|naive_solver]. intros [Hne _]. split; [done|]. intros Ea. by rewrite Ea in Eg.
  - case_bool_decide as Ea; [|naive_solver]. rewrite !guard_ok.
    rewrite <-contains_name_ok. destruct (specConfigItemContainsName _ _); simpl; naive_solver.
Qed.

Lemma validate_field_ok f : validate_field f = Ok tt <-> well_formed f.
Proof.
  induction f as [f IH] using spec_item_ind'.
  assert (E : validate_field f = Ok tt <->
    si_Name f <> "" /\ (Forall (fun s => si_Name s <> "" /\ validate_field s = Ok tt) (live (si_Items f)) /\
    NoDup (map si_Name (live (si_Items f)))) /\ scope_ok f /\ shape_ok f).
  { destruct f. cbn [validate_field]. rewrite guard_ok, !rbind_unit, check_sub_items_ok, fresh_of_empty,
      check_scope_ok, check_type_ok. done. }
  rewrite E. clear E. split.
  - intros (Hn & (Hs & Hd) & Hsc & Hsh). constructor; [done..| |done|done].
    rewrite Forall_forall in *. intros s Hin. apply IH; [done|]. by apply Hs.
  - intros Hw. destruct Hw as [f Hn Hd Hs Hsc Hsh]. split_and!; [done| |done|done|done].
    rewrite Forall_forall in *. intros s Hin. split; [|apply IH; auto]. specialize (Hs s Hin). by destruct Hs.
Qed.

(** * The values that are accepted *)

Definition is_set (v : string) : Prop := v <> "".
#[global] Instance is_set_dec v : Decision (is_set v) := ltac:(unfold is_set; apply _).

(** The values of a field over the instances of a group. *)
Definition instance_values (di : AppDeployConfigItem) (fieldName : string) : list string :=
  map (fun inst => item_value inst fieldName) (live (di_Items di)).

(** The array groups: keys are set and distinct, and so are the set values of the
    children that are declared unique in the group. *)
Definition groups_distinct (spec : list (option AppSpecConfigItem)) (deploy : list (option AppDeployConfigItem)) : Prop :=
  forall sf di, sf ∈ live spec -> si_Type sf = SpecFieldTypeArrayGroup ->
  deployConfigItem deploy (si_Name sf) = Some di ->
  (si_KeyItem sf <> "" -> Forall is_set (instance_values di (si_KeyItem sf)) /\
                          NoDup (instance_values di (si_KeyItem sf))) /\
  (forall child, child ∈ live (si_Items sf) -> si_Name child <> "" ->
     si_Unique child = SpecConfigUniqueArrayGroup -> si_Name child <> si_KeyItem sf ->
     NoDup (filter is_set (instance_values di (si_Name child)))).

(** A node of the tree of a field. *)
Inductive in_tree : AppSpecConfigItem -> AppSpecConfigItem -> Prop :=
| InHere f : in_tree f f
| InSub f g n : g ∈ live (si_Items f) -> in_tree g n -> in_tree f n.

Definition app_scoped (spec : list (option AppSpecConfigItem)) (name : string) : Prop :=
  exists f n, f ∈ live spec /\ in_tree f n /\ si_Unique n = SpecConfigUniqueApp /\ si_Name n = name /\ name <> "".

(** The fields a value holds, read by the type of its schema. *)
Definition field_cells (fs : list (option AppDeployConfigItem)) : list (string * string) :=
  map (fun f => (di_Name f, di_Value f)) (live fs).
Definition cells_of (sf : option AppSpecConfigItem) (di : AppDeployConfigItem) : list (string * string) :=
  if decide (from_option si_Type "" sf = SpecFieldTypeArrayGroup)
  then concat (map (fun inst => field_cells (di_Items inst)) (live (di_Items di)))
  else if decide (from_option si_Type "" sf = SpecFieldTypeGroup) then field_cells (di_Items di)
  else [(di_Name di, di_Value di)].
Definition deploy_cells (spec : list (option AppSpecConfigItem)) (deploy : list (option AppDeployConfigItem))
  : list (string * string) :=
  concat (map (fun di => cells_of (specByName spec !! di_Name di) di) (live deploy)).
Definition values_of (name : string) (cells : list (string * string)) : list string :=
  map snd (filter (fun c => c.1 = name) cells).

Lemma check_instances_ok name req seen items : check_instances name req seen items = Ok tt <->
  let vs := map (fun inst => item_value inst name) (live items) in
  (req = true -> Forall is_set vs) /\ fresh_of seen (filter is_set vs).
Proof.
  revert seen. induction items as [|[inst|] items IH]; intros seen; cbn [check_instances]; [| |apply IH].
  - split; [|done]. intros _. split; [constructor|]. split; constructor.
  - rewrite live_cons_Some. cbn [map]. case_bool_decide as Ev.
    + rewrite filter_cons_False by (intros Hs; by apply Hs). destruct req.
      * split; [done|]. intros [Hf _]. specialize (Hf eq_refl). apply Forall_cons in Hf as [Hs _]. by destruct Hs.
      * rewrite IH. naive_solver.
    + rewrite guard_ok, IH, filter_cons_True, fresh_of_cons, Forall_cons by done. unfold is_set at 3. tauto.
Qed.

Lemma check_distinct_ok seen vs : check_distinct seen vs = Ok tt <-> fresh_of seen (filter is_set vs).
Proof.
  revert seen. induction vs as [|v vs IH]; intros seen; cbn [check_distinct].
  - split; [|done]. intros _. split; constructor.
  - case_bool_decide as Ev.
    + rewrite filter_cons_False by (intros Hs; by apply Hs). apply IH.
    + by rewrite guard_ok, IH, filter_cons_True, fresh_of_cons.
Qed.

Lemma filter_is_set_all vs : Forall is_set vs -> filter is_set vs = vs.
Proof. induction 1; [done|]. by rewrite filter_cons_True, IHForall. Qed.

Lemma check_groups_ok spec deploy :
  all_ok (check_group deploy) (live spec) = Ok tt <-> groups_distinct spec deploy.
Proof.
  rewrite all_ok_iff, Forall_forall. unfold groups_distinct. split.
  - intros Hall sf di Hin Ht Hd. specialize (Hall sf Hin). unfold check_group in Hall.
    rewrite bool_decide_false, Hd in Hall by naive_solver. apply rbind_unit in Hall as [Hk Hc]. split.
    + intros Hne. rewrite bool_decide_false in Hk by done. unfold checkArrayGroupUnique in Hk.
      apply check_instances_ok in Hk as [Hs Hf]. specialize (Hs eq_refl).
      rewrite filter_is_set_all, fresh_of_empty in Hf by done. done.
    + intros child Hch Hne Hu Hk'. apply all_ok_iff in Hc. rewrite Forall_forall in Hc. specialize (Hc child Hch).
      unfold check_child in Hc. rewrite bool_decide_false in Hc by naive_solver.
      apply check_instances_ok in Hc as [_ Hf]. by rewrite fresh_of_empty in Hf.
  - intros Hg sf Hin. unfold check_group. case_bool_decide as Ht; [done|].
    destruct (deployConfigItem deploy (si_Name sf)) as [di|] eqn:Hd; [|done].
    destruct (Hg sf di Hin Ht Hd) as [Hk Hc]. apply rbind_unit. split.
    + case_bool_decide; [done|]. destruct (Hk ltac:(done)) as [Hs Hn]. apply check_instances_ok. split; [done|].
      by rewrite fresh_of_empty, filter_is_set_all.
    + apply all_ok_iff, Forall_forall. intros child Hch. unfold check_child. case_bool_decide as Hb; [done|].
      apply check_instances_ok. split; [done|]. rewrite fresh_of_empty. apply Hc; [done|naive_solver| |naive_solver].
      destruct (decide (si_Unique child = SpecConfigUniqueArrayGroup)); [done|naive_solver].
Qed.

Lemma collect_item_elem sf out x : x ∈ collect_item sf out <->
  x ∈ out \/ exists n, in_tree sf n /\ si_Unique n = SpecConfigUniqueApp /\ si_Name n = x /\ x <> "".
Proof.
  revert out. induction sf as [sf IH] using spec_item_ind'. intros out.
  set (out' := if bool_decide (si_Unique sf = SpecConfigUniqueApp /\ si_Name sf <> "")
               then {[si_Name sf]} ∪ out else out).
  assert (E : collect_item sf out = foldl (fun acc g => collect_item g acc) out' (live (si_Items sf))).
  { destruct sf. cbn [collect_item]. apply fold_live_foldl. }
  rewrite E. clear E.
  assert (Hout : x ∈ out' <-> x ∈ out \/ (si_Unique sf = SpecConfigUniqueApp /\ si_Name sf = x /\ x <> "")).
  { subst out'. case_bool_decide; set_solver. }
  assert (Hsub : forall l out0, Forall (fun g => forall out, x ∈ collect_item g out <->
      x ∈ out \/ exists n, in_tree g n /\ si_Unique n = SpecConfigUniqueApp /\ si_Name n = x /\ x <> "") l ->
    x ∈ foldl (fun acc g => collect_item g acc) out0 l <->
    x ∈ out0 \/ exists g n, g ∈ l /\ in_tree g n /\ si_Unique n = SpecConfigUniqueApp /\ si_Name n = x /\ x <> "").
  { induction l as [|g l IHl]; intros out0 Hl; cbn [foldl]; [set_solver|].
    apply Forall_cons in Hl as [Hg Hl]. rewrite (IHl _ Hl), Hg. set_solver. }
  rewrite (Hsub _ _ (Forall_impl _ _ _ IH (fun g Hg => Hg))), Hout. split.
  - intros [[?|(? & ? & ?)]|(g & n & Hin & Ht & ?)]; [by left| |]; right.
    + exists sf. split; [constructor|done].
    + exists n. split; [by eapply InSub|done].
  - intros [?|(n & Ht & Hn)]; [by do 2 left|]. inversion Ht as [|? g ? Hin Hg]; subst.
    + left. by right.
    + right. by exists g, n.
Qed.

Lemma collectAppUniqueNames_elem spec x : x ∈ collectAppUniqueNames spec ∅ <-> app_scoped spec x.
Proof.
  unfold collectAppUniqueNames, app_scoped. rewrite fold_live_foldl.
  assert (G : forall l out, x ∈ foldl (fun acc g => collect_item g acc) out l <->
    x ∈ out \/ exists f n, f ∈ l /\ in_tree f n /\ si_Unique n = SpecConfigUniqueApp /\ si_Name n = x /\ x <> "").
  { induction l as [|g l IH]; intros out; cbn [foldl]; [set_solver|]. rewrite IH, collect_item_elem. set_solver. }
  rewrite G. set_solver.
Qed.

Definition record_cells (u : gset string) (p : pool) (cells : list (string * string)) : pool :=
  foldl (fun p c => record u p c.1 c.2) p cells.

Lemma collectDeployValues_cells di sf p u : collectDeployValues di sf p u = record_cells u p (cells_of sf di).
Proof.
  assert (R : forall fs p, record_all u p fs = record_cells u p (field_cells fs)).
  { intros fs p0. unfold record_all, record_cells, field_cells. by rewrite foldl_fmap. }
  unfold collectDeployValues, cells_of. case_bool_decide; case_decide; [|done|done|].
  - revert p. induction (live (di_Items di)) as [|i l IH]; intros p; cbn; [done|].
    rewrite IH, R. unfold record_cells. by rewrite foldl_app.
  - case_bool_decide; case_decide; [apply R|done|done|done].
Qed.

Lemma pool_cells u spec l p :
  foldl (fun p di => collectDeployValues di (specByName spec !! di_Name di) p u) p l =
  record_cells u p (concat (map (fun di => cells_of (specByName spec !! di_Name di) di) l)).
Proof.
  revert p. induction l as [|d l IH]; intros p; cbn; [done|].
  rewrite IH, collectDeployValues_cells. unfold record_cells. by rewrite foldl_app.
Qed.

Lemma record_cells_lookup u cells p name :
  record_cells u p cells !! name =
  if decide (name <> "" /\ name ∈ u /\ values_of name cells <> [])
  then Some (default [] (p !! name) ++ values_of name cells)%list else p !! name.
Proof.
  revert p. induction cells as [|[n v] cells IH]; intros p.
  - by rewrite decide_False by (unfold values_of; naive_solver).
  - change (record_cells u p ((n, v) :: cells)) with (record_cells u (record u p n v) cells). rewrite IH. unfold record, values_of. cbn [fst snd].
    rewrite filter_cons. cbn [fst]. destruct (decide (n = name)) as [->|Hne].
    + cbn [map]. case_bool_decide as Hb.
      * rewrite lookup_insert_eq. rewrite (decide_True (P := _ /\ _ /\ _ :: _ <> [])) by naive_solver.
        cbn [snd]. destruct (map snd (filter _ cells)) as [|w ws].
        -- by rewrite decide_False by naive_solver.
        -- rewrite decide_True by naive_solver. cbn [default from_option id]. by rewrite <-app_assoc.
      * rewrite !decide_False; naive_solver.
    + case_bool_decide; [rewrite lookup_insert_ne by done|]; done.
Qed.

Lemma pool_distinct_ok `{MapRangeLaws} spec deploy :
  let u := collectAppUniqueNames spec ∅ in
  all_ok (fun nv => checkDistinctAppScoped (snd nv)) (map_range (record_cells u ∅ (deploy_cells spec deploy))) = Ok tt <->
  forall name, app_scoped spec name -> NoDup (filter is_set (values_of name (deploy_cells spec deploy))).
Proof.
  intros u. rewrite all_ok_iff, Forall_forall. unfold checkDistinctAppScoped. split.
  - intros Hall name Ha. destruct (decide (values_of name (deploy_cells spec deploy) = [])) as [->|Hne]; [constructor|].
    rewrite <-fresh_of_empty, <-check_distinct_ok. apply (Hall (name, _)), elem_of_map_range.
    rewrite record_cells_lookup, decide_True, lookup_empty; [done|]. split_and!; [|by apply collectAppUniqueNames_elem|done].
    by destruct Ha as (? & ? & ? & ? & ? & ? & ?).
  - intros Hd [name vs] Hin. apply elem_of_map_range in Hin. rewrite record_cells_lookup, lookup_empty in Hin.
    case_decide as Hc; [|done]. injection Hin as <-. cbn. rewrite check_distinct_ok, fresh_of_empty. apply Hd.
    apply collectAppUniqueNames_elem. tauto.
Qed.

Lemma validate_deploy_iff `{MapRangeLaws} spec deploy :
  ValidateDeployConfigItems spec deploy = Ok tt <->
  spec = [] \/ deploy = [] \/
  (groups_distinct spec deploy /\
   forall name, app_scoped spec name -> NoDup (filter is_set (values_of name (deploy_cells spec deploy)))).
Proof.
  unfold ValidateDeployConfigItems. case_bool_decide as Hb; [tauto|].
  rewrite rbind_unit, check_groups_ok. case_bool_decide as Hu.
  - assert (forall name, ~ app_scoped spec name).
    { intros name Ha. apply collectAppUniqueNames_elem in Ha. by rewrite Hu in Ha. }
    naive_solver.
  - rewrite pool_cells. fold (deploy_cells spec deploy). rewrite pool_distinct_ok. tauto.
Qed.

(** * What resolution does *)

(** A value after resolution: the same place, a set value unchanged, and what was
    added lies behind what was there and is set. *)
Definition added (o : option AppDeployConfigItem) : Prop := exists d, o = Some d /\ is_set (di_Value d).
Inductive item_kept : AppDeployConfigItem -> AppDeployConfigItem -> Prop :=
| ItemKept d d' l extra :
    di_Name d' = di_Name d -> di_Type d' = di_Type d -> (is_set (di_Value d) -> di_Value d' = di_Value d) ->
    Forall2 (option_Forall2 item_kept) (di_Items d) l -> di_Items d' = (l ++ extra)%list -> Forall added extra ->
    item_kept d d'.
Definition values_kept (l l' : list (option AppDeployConfigItem)) : Prop :=
  exists l1 extra, Forall2 (option_Forall2 item_kept) l l1 /\ l' = (l1 ++ extra)%list /\ Forall added extra.

Lemma Forall2_live {A} (R : A -> A -> Prop) (l : list (option A)) :
  Forall (fun x => R x x) (live l) -> Forall2 (option_Forall2 R) l l.
Proof.
  induction l as [|[x|] l IH]; [constructor| |].
  - rewrite live_cons_Some. intros [? ?]%Forall_cons. constructor; [by constructor|by apply IH].
  - intros Hl. constructor; [constructor|by apply IH].
Qed.

Lemma item_kept_refl d : item_kept d d.
Proof.
  induction d as [d IH] using deploy_item_ind'. apply ItemKept with (l := di_Items d) (extra := []); try done.
  - by apply Forall2_live.
  - by rewrite app_nil_r.
Qed.
Lemma values_kept_refl l : values_kept l l.
Proof.
  exists l, []. rewrite app_nil_r. split_and!; [|done|constructor].
  apply Forall2_live, Forall_forall. intros d _. apply item_kept_refl.
Qed.
#[export] Hint Resolve item_kept_refl values_kept_refl : core.

Lemma added_kept extra l : Forall added extra -> Forall2 (option_Forall2 item_kept) extra l -> Forall added l.
Proof.
  intros Ha Hk. revert Ha. induction Hk as [|o o' e l Ho _ IH]; [constructor|].
  intros [(d & -> & Hd) Hl]%Forall_cons. constructor; [|by apply IH].
  inversion Ho as [? d' Hk|]; subst. destruct Hk as [d d' ? ? ? ? Hv].
  exists d'. split; [done|]. match goal with H : is_set _ -> _ |- _ => by rewrite H end.
Qed.

Lemma item_kept_trans d1 d2 d3 : item_kept d1 d2 -> item_kept d2 d3 -> item_kept d1 d3.
Proof.
  revert d2 d3. induction d1 as [d1 IH] using deploy_item_ind'.
  intros d2 d3 H12 H23. inversion H12 as [? ? l1 e1 N1 T1 V1 F1 I1 A1]; subst.
  inversion H23 as [? ? l2 e2 N2 T2 V2 F2 I2 A2]; subst.
  rewrite I1 in F2. apply Forall2_app_inv_l in F2 as (l21 & l22 & F21 & F22 & ->).
  apply ItemKept with (l := l21) (extra := (l22 ++ e2)%list); [congruence|congruence| | |by rewrite I2, app_assoc|].
  - intros Hs. rewrite V2 by (rewrite V1; done). by apply V1.
  - clear -IH F1 F21. revert l21 F21. induction F1 as [|o o1 l l1 Ho _ IHF]; intros l21 F21.
    + by inversion F21.
    + inversion F21 as [|? o2 ? l2 Ho2 F2]; subst. destruct Ho as [x y Hxy|].
      * rewrite live_cons_Some, Forall_cons in IH. destruct IH as [IHx IH].
        inversion Ho2 as [? z Hyz|]; subst. constructor; [constructor; by apply (IHx y z)|by apply IHF].
      * rewrite live_cons_None in IH. inversion Ho2; subst. constructor; [constructor|by apply IHF].
  - apply Forall_app. split; [by apply (added_kept e1)|done].
Qed.

Lemma Forall2_kept_trans l1 l2 l3 : Forall2 (option_Forall2 item_kept) l1 l2 ->
  Forall2 (option_Forall2 item_kept) l2 l3 -> Forall2 (option_Forall2 item_kept) l1 l3.
Proof.
  intros F1. revert l3. induction F1 as [|o1 o2 l1 l2 Ho _ IH]; intros l3 F2; inversion F2 as [|? o3 ? l3' H2 F3]; subst.
  - constructor.
  - constructor; [|by apply IH]. destruct Ho as [x y Hxy|]; inversion H2; subst; [|constructor].
    constructor. eapply item_kept_trans; eassumption.
Qed.
Lemma values_kept_trans l1 l2 l3 : values_kept l1 l2 -> values_kept l2 l3 -> values_kept l1 l3.
Proof.
  intros (a & e & F1 & -> & A1) (b & e' & F2 & -> & A2).
  apply Forall2_app_inv_l in F2 as (b1 & b2 & F21 & F22 & ->). exists b1, (b2 ++ e')%list.
  split_and!; [eapply Forall2_kept_trans; eassumption|by rewrite app_assoc|]. apply Forall_app. split; [by apply (added_kept e)|done].
Qed.
#[global] Instance values_kept_PreOrder : PreOrder values_kept.
Proof. split; [exact values_kept_refl|exact values_kept_trans]. Qed.

(** ** Lookups by name *)

Lemma find_named_cons name o l :
  find_named name (o :: l) =
  match o with
  | Some d => if decide (di_Name d = name) then Some (O, d) else prod_map S id <$> find_named name l
  | None => prod_map S id <$> find_named name l
  end.
Proof.
  unfold find_named. cbn. destruct o as [d|]; cbn.
  - case_decide; [done|]. destruct (list_find _ l) as [[i [x|]]|]; done.
  - destruct (list_find _ l) as [[i [x|]]|]; done.
Qed.

Lemma find_named_Some name l i d : find_named name l = Some (i, d) -> l !! i = Some (Some d) /\ di_Name d = name.
Proof.
  unfold find_named. destruct (list_find _ l) as [[j [x|]]|] eqn:E; [|done..]. intros [= -> ->].
  by apply list_find_Some in E as (? & ? & ?).
Qed.

Lemma find_named_app name l l' : find_named name l <> None -> find_named name (l ++ l')%list = find_named name l.
Proof.
  induction l as [|o l IH]; [done|]. rewrite <-app_comm_cons, !find_named_cons. intros Hne.
  destruct o as [d|]; [case_decide; [done|]|]; rewrite IH; try done; by destruct (find_named name l).
Qed.

Lemma find_named_app_None name l l' : find_named name l = None ->
  find_named name (l ++ l')%list = prod_map (fun i => length l + i)%nat id <$> find_named name l'.
Proof.
  induction l as [|o l IH]; cbn [app length].
  - intros _. destruct (find_named name l') as [[]|]; done.
  - rewrite !find_named_cons. intros Hn. assert (find_named name l = None /\ (forall d, o = Some d -> di_Name d <> name)) as [Hl Ho].
    { destruct o as [d|]; [case_decide; [done|]|]; destruct (find_named name l); naive_solver. }
    rewrite IH by done. destruct o as [d|]; [rewrite decide_False by auto|];
      by destruct (find_named name l') as [[]|].
Qed.

(** Replacing a value by one of the same name. *)
Lemma find_named_insert name l i d d' : l !! i = Some (Some d) -> di_Name d' = di_Name d ->
  find_named name (<[i := Some d']> l) =
  match find_named name l with
  | Some (j, x) => Some (j, if decide (j = i) then d' else x)
  | None => None
  end.
Proof.
  revert i. induction l as [|o l IH]; [done|]. intros [|i] Hl Hn; cbn in Hl;
    [change (<[0%nat := Some d']> (o :: l)) with (Some d' :: l)
    |change (<[S i := Some d']> (o :: l)) with (o :: <[i := Some d']> l)]; rewrite !find_named_cons.
  - injection Hl as ->. rewrite Hn. case_decide; [done|]. destruct (find_named name l) as [[j x]|]; done.
  - specialize (IH i Hl Hn). destruct o as [x|]; [case_decide; [done|]|]; rewrite IH;
      destruct (find_named name l) as [[j y]|]; cbn; try done; repeat case_decide; try done; lia.
Qed.

Lemma kept_insert l i d d' : l !! i = Some (Some d) -> item_kept d d' -> values_kept l (<[i := Some d']> l).
Proof.
  intros Hl Hk. exists (<[i := Some d']> l), []. rewrite app_nil_r. split_and!; [|done|constructor].
  rewrite <-(list_insert_id _ _ _ Hl) at 1. apply Forall2_insert; [|by constructor].
  apply Forall2_live, Forall_forall. auto.
Qed.

Lemma kept_find name l l' i d : values_kept l l' -> find_named name l = Some (i, d) ->
  exists d', find_named name l' = Some (i, d') /\ item_kept d d'.
Proof.
  intros (l1 & e & F & -> & _) Hf.
  assert (G : exists d', find_named name l1 = Some (i, d') /\ item_kept d d').
  { revert i Hf. induction F as [|o o' l l1 Ho F IH]; intros i; [done|]. rewrite !find_named_cons.
    destruct Ho as [x y Hxy|].
    - assert (En : di_Name y = di_Name x) by (by destruct Hxy). rewrite En. case_decide.
      + intros [= <- <-]. eauto.
      + destruct (find_named name l) as [[j z]|]; [|done]. intros [= <- <-].
        destruct (IH j eq_refl) as (d' & -> & ?). eauto.
    - destruct (find_named name l) as [[j z]|]; [|done]. intros [= <- <-].
      destruct (IH j eq_refl) as (d' & -> & ?). eauto. }
  destruct G as (d' & E & Hk). exists d'. split; [|done]. rewrite find_named_app; rewrite E; done.
Qed.

(** ** One field *)

(** A value can be derived for the field. *)
Definition derivable (sf : AppSpecConfigItem) : Prop :=
  si_AutoFill sf = "hexstr_32" \/ si_AutoFill sf = "hexstr_16" \/ si_AutoFill sf = "uuid" \/ si_Default sf <> "".
#[global] Instance derivable_dec sf : Decision (derivable sf) := ltac:(unfold derivable; apply _).

(** The field has a set value if one can be derived for it. *)
Definition settled (sf : AppSpecConfigItem) (l : list (option AppDeployConfigItem)) : Prop :=
  derivable sf -> exists i d, find_named (si_Name sf) l = Some (i, d) /\ is_set (di_Value d).

Lemma settled_kept sf l l' : values_kept l l' -> settled sf l -> settled sf l'.
Proof.
  intros Hk Hs Hd. destruct (Hs Hd) as (i & d & E & V).
  destruct (kept_find _ _ _ _ _ Hk E) as (d' & E' & Hkd). exists i, d'. split; [done|].
  destruct Hkd as [d d' ? ? ? ? Hv]. match goal with H : is_set _ -> _ |- _ => by rewrite H end.
Qed.

Section resolve_props.
Context {En : Entropy} {EnL : EntropyLaws En}.

Lemma RandHexString_set k n : (0 < n)%nat -> is_set (RandHexString k n).
Proof.
  intros Hn. unfold RandHexString. destruct (rand_read_ok k n) as (bs & -> & Hl).
  destruct bs as [|b bs]; [simpl in Hl; lia|done].
Qed.

Lemma auto_value_spec sf k :
  (derivable sf -> is_set (fst (configFieldAutoValue sf k))) /\
  (~ derivable sf -> configFieldAutoValue sf k = ("", k)).
Proof.
  unfold configFieldAutoValue, GenerateIfEmpty, Generate, derivable.
  rewrite (bool_decide_false ("" <> "")) by naive_solver.
  pose proof (RandHexString_set k 16 ltac:(lia)) as R1. pose proof (RandHexString_set k 8 ltac:(lia)) as R2.
  pose proof (uuid_nonempty k) as R3. unfold is_set in *.
  repeat case_bool_decide; cbn; split; intros Hd; try done; try (exfalso; tauto); try (exfalso; apply Hd; tauto).
  all: try (destruct Hd as [Hd|[Hd|[Hd|Hd]]]; congruence).
  all: destruct (decide (si_Default sf = "")) as [->|]; [done|exfalso; tauto].
Qed.

(** What resolution of a flat field does: nothing but set its value. *)
Lemma resolve_flat_spec sf l k :
  let s := resolveFlatConfigField sf (l, k) in
  values_kept l (fst s) /\ settled sf (fst s) /\ (settled sf l -> s = (l, k)) /\
  (forall name, name <> si_Name sf -> find_named name (fst s) = find_named name l).
Proof.
  intros s. subst s. cbn. destruct (auto_value_spec sf k) as [Hset Hnone].
  destruct (configFieldAutoValue sf k) as [v k'] eqn:Ea. cbn in Hset.
  destruct (find_named (si_Name sf) l) as [[i d]|] eqn:Ef.
  - destruct (find_named_Some _ _ _ _ Ef) as [Hl Hn]. case_bool_decide as Hv.
    { split_and!; [done| |done|done]. intros _. eauto. }
    case_bool_decide as Hw.
    { split_and!; [done| | |done].
      - intros Hd. by destruct (Hset Hd).
      - intros Hs. destruct (decide (derivable sf)) as [Hd|Hd]; [by destruct (Hset Hd)|].
        by injection (Hnone Hd) as -> ->. }
    assert (K : item_kept d (with_value v d)).
    { apply ItemKept with (l := di_Items d) (extra := []); try done; [|by rewrite app_nil_r].
      apply Forall2_live, Forall_forall. auto. }
    split_and!.
    + by apply (kept_insert _ _ d).
    + intros _. exists i, (with_value v d). cbn [fst]. rewrite (find_named_insert _ _ i d) by done. rewrite Ef, decide_True by done.
      done.
    + intros Hs. destruct (decide (derivable sf)) as [Hd|Hd].
      * destruct (Hs Hd) as (i' & d' & E & Hd'). rewrite Ef in E. by injection E as <- <-.
      * by injection (Hnone Hd) as -> ->.
    + intros name Hne. cbn [fst]. rewrite (find_named_insert _ _ i d) by done.
      destruct (find_named name l) as [[j x]|] eqn:E; [|done]. case_decide as Hji; [|done]. subst j.
      destruct (find_named_Some _ _ _ _ E) as [E1 E2]. congruence.
  - case_bool_decide as Hw.
    { split_and!; [done| | |done].
      - intros Hd. by destruct (Hset Hd).
      - intros Hs. destruct (decide (derivable sf)) as [Hd|Hd]; [by destruct (Hset Hd)|].
        by injection (Hnone Hd) as -> ->. }
    split_and!.
    + exists l, [Some (DeployItem (si_Name sf) v "" [])]. split_and!; [|done|].
      * apply Forall2_live, Forall_forall. auto.
      * constructor; [|done]. eexists. split; [done|done].
    + intros _. cbn [fst]. rewrite find_named_app_None, find_named_cons by done. cbn. rewrite decide_True by done. cbn. eauto.
    + intros Hs. destruct (decide (derivable sf)) as [Hd|Hd].
      * destruct (Hs Hd) as (i' & d' & E & Hd'). by rewrite Ef in E.
      * by injection (Hnone Hd) as -> ->.
    + intros name Hne. cbn [fst]. destruct (find_named name l) as [[j x]|] eqn:E.
      * rewrite find_named_app; rewrite E; done.
      * rewrite find_named_app_None, find_named_cons by done. cbn. by rewrite decide_False.
Qed.

(** ** A group *)

Definition children_settled (specItems : list (option AppSpecConfigItem)) (l : list (option AppDeployConfigItem)) : Prop :=
  forall c, c ∈ live specItems -> si_Name c <> "" -> settled c l.

Lemma resolve_children_spec specItems l k :
  let s := resolveChildConfigFields specItems (l, k) in
  values_kept l (fst s) /\ children_settled specItems (fst s) /\ (children_settled specItems l -> s = (l, k)).
Proof.
  unfold resolveChildConfigFields, children_settled. revert l k.
  induction (live specItems) as [|c cs IH]; intros l k; cbn [foldl].
  - split_and!; [done|set_solver|done].
  - case_bool_decide as Hn.
    + destruct (IH l k) as (Hk & Hs & Hf). split_and!; [done| |].
      * intros x [->|Hx]%elem_of_cons; [done|by apply Hs].
      * intros Hc. apply Hf. intros x Hx. apply Hc. set_solver.
    + destruct (resolve_flat_spec c l k) as (Hk1 & Hs1 & Hf1 & _).
      destruct (resolveFlatConfigField c (l, k)) as [l1 k1]. cbn [fst] in *.
      destruct (IH l1 k1) as (Hk & Hs & Hf). split_and!; [by etransitivity| |].
      * intros x [->|Hx]%elem_of_cons Hxn; [|by apply Hs]. by eapply settled_kept; [|apply Hs1].
      * intros Hc. assert (E : (l1, k1) = (l, k)) by (apply Hf1, Hc; [set_solver|done]).
        injection E as -> ->. apply Hf. intros x Hx. apply Hc. set_solver.
Qed.

Definition instances_settled (specItems : list (option AppSpecConfigItem)) (l : list (option AppDeployConfigItem)) : Prop :=
  forall inst, inst ∈ live l -> children_settled specItems (di_Items inst).

Lemma kept_with_items d l : values_kept (di_Items d) l -> item_kept d (with_items l d).
Proof. intros (l1 & e & F & E & A). by apply ItemKept with (l := l1) (extra := e). Qed.

Lemma with_items_id d : with_items (di_Items d) d = d.
Proof. by destruct d. Qed.

Lemma resolve_instances_spec specItems l k :
  let s := resolve_instances specItems l k in
  Forall2 (option_Forall2 item_kept) l (fst s) /\ instances_settled specItems (fst s) /\
  (instances_settled specItems l -> s = (l, k)).
Proof.
  unfold instances_settled. revert k. induction l as [|o l IH]; intros k; cbn [resolve_instances].
  - split_and!; [constructor|set_solver|done].
  - destruct o as [inst|]; cbn [resolve_instance].
    + destruct (resolve_children_spec specItems (di_Items inst) k) as (Hk1 & Hs1 & Hf1).
      destruct (resolveChildConfigFields specItems (di_Items inst, k)) as [items k1]. cbn [fst] in *.
      destruct (IH k1) as (Hk & Hs & Hf). destruct (resolve_instances specItems l k1) as [l2 k2]. cbn [fst] in *.
      rewrite live_cons_Some. split_and!.
      * constructor; [constructor; by apply kept_with_items|done].
      * intros x [->|Hx]%elem_of_cons; [done|by apply Hs].
      * intros Hall. assert (E : (items, k1) = (di_Items inst, k)) by (apply Hf1, Hall; set_solver).
        injection E as -> ->. rewrite with_items_id. assert (E : (l2, k2) = (l, k)) by (apply Hf; set_solver).
        by injection E as -> ->.
    + destruct (IH k) as (Hk & Hs & Hf). destruct (resolve_instances specItems l k) as [l2 k2]. cbn [fst] in *.
      split_and!; [by repeat constructor|done|]. intros Hall. by specialize (Hf Hall) as [= -> ->].
Qed.

Definition group_settled (field : AppSpecConfigItem) (l : list (option AppDeployConfigItem)) : Prop :=
  forall i d, find_named (si_Name field) l = Some (i, d) ->
  if decide (si_Type field = SpecFieldTypeArrayGroup)
  then instances_settled (si_Items field) (di_Items d) else children_settled (si_Items field) (di_Items d).

Lemma resolve_group_items field d k :
  let s := if bool_decide (si_Type field = SpecFieldTypeArrayGroup)
           then resolve_instances (si_Items field) (di_Items d) k
           else resolveChildConfigFields (si_Items field) (di_Items d, k) in
  let ok l := if decide (si_Type field = SpecFieldTypeArrayGroup)
              then instances_settled (si_Items field) l else children_settled (si_Items field) l in
  values_kept (di_Items d) (fst s) /\ ok (fst s) /\ (ok (di_Items d) -> s = (di_Items d, k)).
Proof.
  cbn. case_bool_decide; case_decide; try done.
  - destruct (resolve_instances_spec (si_Items field) (di_Items d) k) as (Hk & Hs & Hf). split_and!; [|done|done].
    eexists _, []. rewrite app_nil_r. split_and!; [done|done|constructor].
  - apply resolve_children_spec.
Qed.

Lemma resolve_group_spec field l k :
  let s := resolveGroupedConfigField field (l, k) in
  values_kept l (fst s) /\ group_settled field (fst s) /\ (group_settled field l -> s = (l, k)) /\
  (forall name, name <> si_Name field -> find_named name (fst s) = find_named name l).
Proof.
  cbn. case_bool_decide as Hi.
  { split_and!; [done| |done|done]. intros i d _. rewrite Hi. case_decide; [intros ? ?|]; intros c; set_solver. }
  destruct (find_named (si_Name field) l) as [[i d]|] eqn:Ef; cbn [fst].
  2: { split_and!; [done| |done|done]. intros i d E. congruence. }
  destruct (find_named_Some _ _ _ _ Ef) as [Hl Hn].
  destruct (resolve_group_items field d k) as (Hk & Hs & Hf). cbn in Hk, Hs, Hf.
  destruct (if bool_decide _ then _ else _) as [items k']. cbn [fst] in *. split_and!.
  - apply (kept_insert _ _ d); [done|]. by apply kept_with_items.
  - intros i' d'. rewrite (find_named_insert _ _ i d) by done. rewrite Ef, (decide_True (P := i = i)) by done. by intros [= <- <-].
  - intros Hg. specialize (Hf (Hg i d Ef)) as [= -> ->]. by rewrite with_items_id, list_insert_id.
  - intros name Hne. rewrite (find_named_insert _ _ i d) by done.
    destruct (find_named name l) as [[j x]|] eqn:E; [|done]. clear Hs Hf. case_decide as Hji; [|done]. subst j.
    destruct (find_named_Some _ _ _ _ E) as [E1 E2]. congruence.
Qed.

(** ** All fields *)

Definition field_settled (sf : AppSpecConfigItem) (l : list (option AppDeployConfigItem)) : Prop :=
  if is_grouped sf then group_settled sf l else settled sf l.

Lemma resolve_field_spec sf l k : si_Name sf <> "" ->
  let s := resolve_field (l, k) sf in
  values_kept l (fst s) /\ field_settled sf (fst s) /\ (field_settled sf l -> s = (l, k)) /\
  (forall name, name <> si_Name sf -> find_named name (fst s) = find_named name l).
Proof.
  intros Hn. unfold resolve_field, field_settled. rewrite bool_decide_false by done.
  destruct (is_grouped sf); [apply resolve_group_spec|apply resolve_flat_spec].
Qed.

Lemma field_settled_frame sf l l' : find_named (si_Name sf) l' = find_named (si_Name sf) l ->
  field_settled sf l -> field_settled sf l'.
Proof. intros E. unfold field_settled, group_settled, settled. by rewrite E. Qed.

Definition named_fields (spec : list (option AppSpecConfigItem)) : list AppSpecConfigItem :=
  filter (fun sf => si_Name sf <> "") (live spec).

Lemma resolve_all_named spec s :
  foldl resolve_field s (live spec) = foldl resolve_field s (named_fields spec).
Proof.
  unfold named_fields. revert s. induction (live spec) as [|sf l IH]; intros s; [done|].
  destruct (decide (si_Name sf = "")) as [Hn|Hn].
  - rewrite filter_cons_False by tauto. rewrite <-IH. cbn [foldl]. f_equal.
    unfold resolve_field. by rewrite bool_decide_true.
  - rewrite filter_cons_True by done. cbn [foldl]. by rewrite IH.
Qed.

Lemma resolve_fields_spec fields l k :
  Forall (fun sf => si_Name sf <> "") fields -> NoDup (map si_Name fields) ->
  let s := foldl resolve_field (l, k) fields in
  values_kept l (fst s) /\ Forall (fun sf => field_settled sf (fst s)) fields /\
  (forall name, name ∉ map si_Name fields -> find_named name (fst s) = find_named name l).
Proof.
  revert l k. induction fields as [|sf fs IH]; intros l k Hn Hd; cbn [foldl map].
  - split_and!; [done|constructor|done].
  - apply Forall_cons in Hn as [Hn Hns]. cbn in Hd. apply NoDup_cons in Hd as [Hx Hd].
    destruct (resolve_field_spec sf l k Hn) as (Hk1 & Hs1 & _ & Hf1).
    destruct (resolve_field (l, k) sf) as [l1 k1]. cbn [fst] in *.
    destruct (IH l1 k1 Hns Hd) as (Hk & Hs & Hf). split_and!; [by etransitivity| |].
    + constructor; [|done]. eapply field_settled_frame; [|done]. by apply Hf.
    + intros name Hin. rewrite not_elem_of_cons in Hin. rewrite Hf, Hf1 by tauto. done.
Qed.

Lemma resolve_settled_id fields l k : Forall (fun sf => si_Name sf <> "") fields ->
  Forall (fun sf => field_settled sf l) fields -> foldl resolve_field (l, k) fields = (l, k).
Proof.
  intros Hn Hs. induction fields as [|sf fs IH]; [done|]. apply Forall_cons in Hn as [Hn Hns].
  apply Forall_cons in Hs as [Hs Hss]. cbn [foldl].
  destruct (resolve_field_spec sf l k Hn) as (_ & _ & E & _). rewrite (E Hs). by apply IH.
Qed.
End resolve_props.

(** * Theorems *)

(** A field of a schema is accepted exactly when it is well formed: every node of
    its tree is named, siblings have distinct names, scopes are known, groups have
    items, and the key of an array group names one of its items. *)
Theorem spec_field_valid_iff (field : option AppSpecConfigItem) :
  ValidateSpecConfigField field = Ok tt <-> exists f, field = Some f /\ well_formed f.
Proof.
  destruct field as [f|]; cbn; [|naive_solver]. rewrite validate_field_ok. naive_solver.
Qed.

(** C11: The values of a deploy are accepted against a schema exactly when one of the
    two is missing, or the keys of every array group are set and distinct, its unique
    children are distinct over its instances, and for every name that some node of the
    schema declares unique in the application the set values of that name, pooled over
    the whole tree, are distinct; the order of the pool's iteration does not matter. *)
Theorem deploy_config_valid_iff (R : MapRange) (L : MapRangeLaws R)
    (spec : list (option AppSpecConfigItem)) (deploy : list (option AppDeployConfigItem)) :
  ValidateDeployConfigItems spec deploy = Ok tt <->
  spec = [] \/ deploy = [] \/
  (groups_distinct spec deploy /\
   forall name, app_scoped spec name -> NoDup (filter is_set (values_of name (deploy_cells spec deploy)))).
Proof. apply validate_deploy_iff. Qed.

Lemma deploy_config_valid_iff_witness :
  let deploy := [mk_group "databases" [mk_group "" [mk_value "db_name" "db1"]; mk_group "" [mk_value "db_name" "db2"]]] in
  ValidateDeployConfigItems (H := list_MapRange) test_spec deploy = Ok tt /\
  (test_spec = [] \/ deploy = [] \/
   (groups_distinct test_spec deploy /\
    forall name, app_scoped test_spec name -> NoDup (filter is_set (values_of name (deploy_cells test_spec deploy))))).
Proof.
  split; [reflexivity|]. apply (proj1 (deploy_config_valid_iff list_MapRange list_MapRangeLaws _ _)). reflexivity.
Defined.

(** Resolution keeps every value that is set, in its place, and only adds set
    values; afterwards every field of the schema for which a value can be derived has
    one, in every instance of an array group; and a second resolution, whatever it
    draws, changes nothing. *)
Theorem resolve_fills_once (En : Entropy) (EnL : EntropyLaws En)
    (spec : list (option AppSpecConfigItem)) (cfgs : list (option AppDeployConfigItem)) (k : nat) :
  NoDup (map si_Name (named_fields spec)) ->
  let cfgs' := fst (resolveDeployConfigFields spec cfgs k) in
  values_kept cfgs cfgs' /\
  (forall sf, sf ∈ live spec -> si_Name sf <> "" -> field_settled sf cfgs') /\
  (forall k2, resolveDeployConfigFields spec cfgs' k2 = (cfgs', k2)).
Proof.
  intros Hd. unfold resolveDeployConfigFields. rewrite resolve_all_named.
  assert (Hn : Forall (fun sf => si_Name sf <> "") (named_fields spec)).
  { apply Forall_forall. intros sf [? _]%list_elem_of_filter. done. }
  destruct (resolve_fields_spec (named_fields spec) cfgs k Hn Hd) as (Hk & Hs & _).
  split_and!; [done| |].
  - intros sf Hin Hne. rewrite Forall_forall in Hs. apply Hs. by apply list_elem_of_filter.
  - intros k2. rewrite resolve_all_named. by apply resolve_settled_id.
Qed.

#[export] Instance ex_Entropy : Entropy :=
  {| rand_read k n := Some (replicate n (Z.of_nat k)); uuid_string k := "b2c4e6f8-0000-4000-8000-000000000000" |}.
#[export] Instance ex_EntropyLaws : EntropyLaws ex_Entropy.
Proof. split; [|done]. intros k n. eexists. split; [done|]. apply length_replicate. Qed.

Lemma resolve_fills_once_witness :
  let cfgs := [mk_group "databases" [mk_group "" [mk_value "db_name" "db1"]; mk_group "" [mk_value "db_name" "db2"]]] in
  let cfgs' := fst (resolveDeployConfigFields test_spec cfgs 1) in
  cfgs' = [mk_group "databases"
    [mk_group "" [mk_value "db_name" "db1"; mk_value "db_auth" "01010101010101010101010101010101"];
     mk_group "" [mk_value "db_name" "db2"; mk_value "db_auth" "02020202020202020202020202020202"]]] /\
  values_kept cfgs cfgs' /\
  (forall sf, sf ∈ live test_spec -> si_Name sf <> "" -> field_settled sf cfgs') /\
  (forall k2, resolveDeployConfigFields test_spec cfgs' k2 = (cfgs', k2)).
Proof.
  split; [vm_compute; reflexivity|]. apply (resolve_fills_once ex_Entropy ex_EntropyLaws).
  apply (bool_decide_unpack _). vm_compute. exact I.
Defined.

(** A schema whose field is declared unique and has a default. *)
Definition twice_spec : list (option AppSpecConfigItem) :=
  [Some (mk_field "databases" SpecFieldTypeArrayGroup
     [mk_field "name" "" [] "" "" "" ""; mk_field "user" "" [] "" SpecConfigUniqueArrayGroup "" "app"] "name" "" "" "")].
Definition twice_deploy : list (option AppDeployConfigItem) :=
  [mk_group "databases" [mk_group "" [mk_value "name" "db1"]; mk_group "" [mk_value "name" "db2"]]].

(** Defaults are filled in after the check: a schema that is accepted and values
    that are accepted resolve to values the same check rejects, because two instances
    get the default of a field that must be unique. *)
Theorem defaults_break_uniqueness (En : Entropy) :
  Forall (fun f => ValidateSpecConfigField f = Ok tt) twice_spec /\
  ValidateDeployConfigItems (H := list_MapRange) twice_spec twice_deploy = Ok tt /\
  (forall k, let stored := fst (resolveDeployConfigFields twice_spec twice_deploy k) in
     ValidateDeployConfigItems (H := list_MapRange) twice_spec stored = Err "config: array_group duplicate").
Proof. split_and!; [by repeat constructor|reflexivity|]. intros k. reflexivity. Qed.
