(* ===== verification/AppVersion.v ===== *)
(** Versions of specs and of packages: [SemverValid] of [src/pkg/inapi/valid.go], the
    resolution of spec versions of [src/internal/zonelet/service_appspec.go], and the
    comparison and the matching of package versions of
    [src/internal/zonelet/service_package.go].

    The SemVer order is [golang.org/x/mod/semver]: a class, with the laws of the order
    its documentation promises. *)
From Stdlib Require Import ZArith Lia Ascii Sorted.
From S2P Require Import Prelude GoStrings.
Local Open Scope string_scope.
Local Open Scope Z_scope.
Local Open Scope go_scope.

(** * The SemVer package *)

Class Semver := {
  semver_IsValid : string -> bool;
  semver_Compare : string -> string -> Z }.
(** [Compare] is -1, 0 or 1 and orders versions totally; an invalid version is less
    than a valid one, and two invalid ones are equal. *)
Class SemverLaws (V : Semver) := {
  compare_range : forall v w, semver_Compare v w = -1 \/ semver_Compare v w = 0 \/ semver_Compare v w = 1;
  compare_antisym : forall v w, semver_Compare v w = - semver_Compare w v;
  compare_trans : forall u v w, semver_Compare u v <= 0 -> semver_Compare v w <= 0 -> semver_Compare u w <= 0 }.

(** * Operations *)

(** A package that a spec needs: its version may be shortened. *)
Record AppSpecPackage := { pk_Name : string; pk_Version : string }.

(** [version] up to its first ['-'] or ['+']. *)
Fixpoint semver_core (s : string) : string :=
  match s with
  | EmptyString => ""
  | String c s' => if isc "-" c || isc "+" c then "" else String c (semver_core s')
  end.
Fixpoint count_char (d : ascii) (s : string) : Z :=
  match s with
  | EmptyString => 0
  | String c s' => (if isc d c then 1 else 0) + count_char d s'
  end.

(** [strconv.Atoi] of a text without ['-'] that is not negative. *)
Definition atoi_nonneg (s : string) : option Z :=
  match s with
  | String c s' => if isc "+" c then parse_uint 63 s' else parse_uint 63 s
  | EmptyString => None
  end.

(** [appSpecSplitVersion] *)
Definition appSpecSplitVersion (v : string) : string * Z :=
  match cut_last "-" v with
  | Some (main, suffix) =>
    match atoi_nonneg suffix with Some n => (main, n) | None => (v, 0) end
  | None => (v, 0)
  end.

Definition with_v (a : string) : string := if has_prefix a "v" then a else "v" +:+ a.

Section versions.
Context `{Semver}.

Definition SemverValid (version : string) : result unit :=
  if bool_decide (version = "") then Err "version is required"
  else if negb (semver_IsValid ("v" +:+ version)) then Err "invalid semver format"
  else if negb (count_char "." (semver_core version) =? 2) then Err "invalid semver format"
  else Ok tt.

Definition appSpecCompareMain (a b : string) : Z := semver_Compare (with_v a) (with_v b).

Definition appSpecResolveVersion (reqVersion prevVersion : string) (prevExists : bool) : result string :=
  let? v := (if bool_decide (reqVersion = "") then Ok "0.0.1"
             else match SemverValid reqVersion with
                  | Ok _ => Ok reqVersion
                  | Err e => Err ("spec.version: " +:+ e)
                  end) in
  if negb prevExists || bool_decide (prevVersion = "") then Ok v else
  let '(reqMain, _) := appSpecSplitVersion v in
  let '(prevMain, prevRel) := appSpecSplitVersion prevVersion in
  let c := appSpecCompareMain reqMain prevMain in
  if c =? 0 then Ok (prevMain +:+ "-" +:+ itoa (i64 (prevRel + 1)))
  else if 0 <? c then Ok v
  else Err "spec.version is lower than existing".

(** ** Packages *)

(** [versionMatch] *)
Fixpoint parts_match (filter version : list string) : bool :=
  match filter, version with
  | [], _ => true
  | _ :: _, [] => false
  | f :: filter, v :: version => bool_decide (f = v) && parts_match filter version
  end.
Definition versionMatch (filter version : string) : bool :=
  if bool_decide (filter = "") then true
  else if bool_decide (version = "") then false
  else
    let filterParts := split_at "." filter in
    if (3 <=? length filterParts)%nat then bool_decide (filter = version)
    else parts_match filterParts (split_at "." version).

(** The trailing ["-r"] and digits of [releaseIterRegexp]. *)
Definition release_iter (v : string) : option (string * string) :=
  match cut_last "-" v with
  | Some (base, String c digits) =>
    if isc "r" c && negb (bool_decide (digits = "")) && s_all is_digit digits then Some (base, digits) else None
  | _ => None
  end.
(** The number of the digits, in an [int] that wraps around. *)
Fixpoint iter_number (s : string) (n : Z) : Z :=
  match s with
  | EmptyString => n
  | String c s' => iter_number s' (i64 (i64 (n * 10) + (byte_of c - 48)))
  end.
Definition splitPackageVersion (v : string) : string * Z :=
  if bool_decide (v = "") then ("v0.0.0", 0) else
  let v := with_v v in
  match release_iter v with
  | None => (v, 0)
  | Some (base, digits) => (base, iter_number digits 0)
  end.

Definition semverCompare (v1 v2 : string) : Z :=
  let '(base1, iter1) := splitPackageVersion v1 in
  let '(base2, iter2) := splitPackageVersion v2 in
  let c := semver_Compare base1 base2 in
  if negb (c =? 0) then c
  else if iter1 <? iter2 then -1 else if iter2 <? iter1 then 1 else 0.
End versions.

Example split_versions :
  map appSpecSplitVersion ["0.0.1"; "0.0.1-1"; "0.0.1-12"; "1.2.3-0"; "1.0.0-alpha"; ""] =
  [("0.0.1", 0); ("0.0.1", 1); ("0.0.1", 12); ("1.2.3", 0); ("1.0.0-alpha", 0); ("", 0)].
Proof. reflexivity. Qed.
Example version_matches :
  map (fun p => versionMatch (fst p) (snd p))
    [("1.0.0", "1.0.0"); ("1.0", "1.0.7"); ("1", "1.9.3"); ("1.0", "1.10.0"); ("", "2.0.0"); ("1", ""); ("1.0.0", "1.0.0-r1")] =
  [true; true; true; false; true; false; false].
Proof. reflexivity. Qed.

(** ** A SemVer order

    The numbers of the core, compared from the left; pre-releases are not told
    apart.  It has the laws, and serves the examples. *)

Definition core_numbers (v : string) : option (list Z) :=
  match v with
  | String c rest => if isc "v" c then mapM (parse_uint 63) (split_at "." (semver_core rest)) else None
  | EmptyString => None
  end.
Fixpoint compare_lists (a b : list Z) : Z :=
  match a, b with
  | [], [] => 0
  | [], _ :: _ => -1
  | _ :: _, [] => 1
  | x :: a, y :: b => if x <? y then -1 else if y <? x then 1 else compare_lists a b
  end.
Definition ex_compare (v w : string) : Z :=
  match core_numbers v, core_numbers w with
  | None, None => 0
  | None, Some _ => -1
  | Some _, None => 1
  | Some a, Some b => compare_lists a b
  end.
#[export] Instance ex_Semver : Semver :=
  {| semver_IsValid v := bool_decide (is_Some (core_numbers v)); semver_Compare := ex_compare |}.

Lemma compare_lists_range a b : compare_lists a b = -1 \/ compare_lists a b = 0 \/ compare_lists a b = 1.
Proof. revert b. induction a as [|x a IH]; intros [|y b]; cbn; [lia..|]. destruct (_ <? _); [lia|]. destruct (_ <? _); [lia|]. apply IH. Qed.
Lemma compare_lists_antisym a b : compare_lists a b = - compare_lists b a.
Proof.
  revert b. induction a as [|x a IH]; intros [|y b]; cbn; [done..|].
  destruct (Z.ltb_spec x y), (Z.ltb_spec y x); try lia. apply IH.
Qed.
Lemma compare_lists_trans a b c : compare_lists a b <= 0 -> compare_lists b c <= 0 -> compare_lists a c <= 0.
Proof.
  revert b c. induction a as [|x a IH]; intros [|y b] [|z c]; cbn; try lia.
  destruct (Z.ltb_spec x y), (Z.ltb_spec y z), (Z.ltb_spec x z), (Z.ltb_spec y x), (Z.ltb_spec z y), (Z.ltb_spec z x); try lia.
  apply IH.
Qed.

#[export] Instance ex_SemverLaws : SemverLaws ex_Semver.
Proof.
  split; cbn; unfold ex_compare; intros.
  - destruct (core_numbers v), (core_numbers w); try lia. apply compare_lists_range.
  - destruct (core_numbers v), (core_numbers w); try done. apply compare_lists_antisym.
  - destruct (core_numbers u), (core_numbers v), (core_numbers w); try lia. by eapply compare_lists_trans.
Qed.

Example resolve_versions :
  map (fun '(req, prev) => appSpecResolveVersion req prev (negb (bool_decide (prev = ""))))
    [("", ""); ("1.2.3", ""); ("1.0", ""); ("", "0.0.1"); ("", "0.0.1-1"); ("0.0.1-5", "0.0.1-1"); ("0.2.0", "0.0.1");
     ("0.0.1", "0.0.2")] =
  [Ok "0.0.1"; Ok "1.2.3"; Err "spec.version: invalid semver format"; Ok "0.0.1-1"; Ok "0.0.1-2"; Ok "0.0.1-2"; Ok "0.2.0";
   Err "spec.version is lower than existing"].
Proof. vm_compute. reflexivity. Qed.

(** * The order of versions *)

Section order.
Context {V : Semver} {L : SemverLaws V}.

Lemma compare_refl v : semver_Compare v v = 0.
Proof. pose proof (compare_antisym v v). lia. Qed.
Lemma compare_lt_trans u v w : semver_Compare u v <= 0 -> semver_Compare v w <= 0 ->
  (semver_Compare u v < 0 \/ semver_Compare v w < 0) -> semver_Compare u w < 0.
Proof.
  intros H1 H2 Hs. pose proof (compare_trans u v w H1 H2) as H3.
  destruct (Z.eq_dec (semver_Compare u w) 0) as [E|]; [|lia]. exfalso.
  (* u and w are equal: both steps are reversed *)
  assert (Hwu : semver_Compare w u <= 0) by (rewrite compare_antisym; lia).
  pose proof (compare_trans v w u H2 Hwu) as H4. pose proof (compare_trans w u v Hwu H1) as H5.
  rewrite (compare_antisym v u) in H4. rewrite (compare_antisym w v) in H5. lia.
Qed.

(** Versions of the same line are ordered by main version, then by release number. *)
Definition newer (v w : string) : Prop :=
  let c := appSpecCompareMain (fst (appSpecSplitVersion v)) (fst (appSpecSplitVersion w)) in
  0 < c \/ (c = 0 /\ snd (appSpecSplitVersion w) < snd (appSpecSplitVersion v)).

Lemma newer_irrefl v : ~ newer v v.
Proof. unfold newer, appSpecCompareMain. rewrite compare_refl. lia. Qed.

Lemma newer_trans u v w : newer u v -> newer v w -> newer u w.
Proof.
  unfold newer, appSpecCompareMain.
  set (a := with_v (fst (appSpecSplitVersion u))). set (b := with_v (fst (appSpecSplitVersion v))).
  set (c := with_v (fst (appSpecSplitVersion w))).
  intros H1 H2. destruct (Z.eq_dec (semver_Compare a b) 0) as [E1|N1], (Z.eq_dec (semver_Compare b c) 0) as [E2|N2].
  2-4: left; pose proof (compare_lt_trans c b a) as T;
    rewrite (compare_antisym c b), (compare_antisym b a), (compare_antisym c a) in T; lia.
  right. split; [|lia]. pose proof (compare_trans a b c) as T1. pose proof (compare_trans c b a) as T2.
  rewrite (compare_antisym c b), (compare_antisym b a), (compare_antisym c a) in T2. lia.
Qed.

Lemma atoi_itoa n : 0 <= n < 2 ^ 63 -> atoi_nonneg (itoa n) = Some n.
Proof.
  intros Hn. pose proof (itoa_digits n ltac:(lia)) as Hd. pose proof (parse_uint_itoa 63 n Hn) as Hp.
  destruct (itoa n) as [|c s]; [done|]. cbn [atoi_nonneg]. cbn [s_all] in Hd. apply andb_true_iff in Hd as [Hc _].
  unfold isc. rewrite bool_decide_false; [done|]. intros <-. done.
Qed.

Lemma split_release main n : 0 <= n < 2 ^ 63 ->
  appSpecSplitVersion (main +:+ String "-" (itoa n)) = (main, n).
Proof.
  intros Hn. unfold appSpecSplitVersion.
  rewrite cut_last_app by (apply itoa_no; [lia|done]). by rewrite atoi_itoa.
Qed.

Lemma split_version_release v : 0 <= snd (appSpecSplitVersion v).
Proof.
  unfold appSpecSplitVersion. destruct (cut_last "-" v) as [[m s]|]; [|done]. unfold atoi_nonneg, parse_uint.
  destruct s as [|c s]; [done|].
  repeat first [case_match; try done]; cbn; repeat match goal with H : Some _ = Some _ |- _ => injection H as <- end; lia.
Qed.

Lemma resolve_newer req prev v : prev <> "" -> snd (appSpecSplitVersion prev) < 2 ^ 63 - 1 ->
  appSpecResolveVersion req prev true = Ok v -> newer v prev.
Proof.
  intros Hne Hr H. unfold appSpecResolveVersion in H. apply rbind_ok in H as (w & _ & H).
  cbn [negb orb] in H. rewrite bool_decide_false in H by done.
  pose proof (split_version_release prev) as H0. unfold newer.
  destruct (appSpecSplitVersion w) as [reqMain reqRel] eqn:Ew, (appSpecSplitVersion prev) as [prevMain prevRel] eqn:Ep.
  cbn [fst snd] in *. destruct (Z.eqb_spec (appSpecCompareMain reqMain prevMain) 0) as [E|E].
  - injection H as <-. rewrite i64_id by (unfold in_i64; lia). rewrite split_release by lia. cbn [fst snd].
    right. split; [apply compare_refl|lia].
  - destruct (Z.ltb_spec 0 (appSpecCompareMain reqMain prevMain)); [|done]. injection H as <-. rewrite Ew. by left.
Qed.

Lemma resolve_nonempty req prev ex v : appSpecResolveVersion req prev ex = Ok v -> v <> "".
Proof.
  unfold appSpecResolveVersion. intros (w & Hw & H)%rbind_ok.
  assert (Hwn : w <> "").
  { clear H. case_bool_decide; [by injection Hw as <-|]. destruct (SemverValid req); [|done]. by injection Hw as <-. }
  destruct (negb ex || _); [by injection H as <-|]. destruct (appSpecSplitVersion w), (appSpecSplitVersion prev) as [m r].
  destruct (_ =? 0); [|destruct (0 <? _); [by injection H as <-|done]]. injection H as <-. by destruct m.
Qed.

(** The versions a sequence of requests for one spec gets, from the stored one on. *)
Fixpoint deployed_versions (prev : option string) (reqs : list string) : list string :=
  match reqs with
  | [] => []
  | req :: rest =>
    match appSpecResolveVersion req (default "" prev) (bool_decide (is_Some prev)) with
    | Ok v => v :: deployed_versions (Some v) rest
    | Err _ => deployed_versions prev rest
    end
  end.

Lemma deployed_newer prev reqs : (forall p, prev = Some p -> p <> "" /\ snd (appSpecSplitVersion p) < 2 ^ 63 - 1) ->
  Forall (fun v => snd (appSpecSplitVersion v) < 2 ^ 63 - 1) (deployed_versions prev reqs) ->
  StronglySorted (fun older v => newer v older) (option_list prev ++ deployed_versions prev reqs).
Proof.
  revert prev. induction reqs as [|req reqs IH]; intros prev Hp; cbn [deployed_versions].
  - intros _. destruct prev; cbn; repeat constructor.
  - destruct (appSpecResolveVersion req _ _) as [v|e] eqn:E; [|by apply IH].
    intros [Hv Hf]%Forall_cons.
    assert (Hs : StronglySorted (fun older v => newer v older) (v :: deployed_versions (Some v) reqs)).
    { apply (IH (Some v)); [|done]. intros p [= <-]. split; [by eapply resolve_nonempty|done]. }
    destruct prev as [p|]; [|exact Hs]. cbn. destruct (Hp p eq_refl) as [Hpn Hpr]. constructor; [exact Hs|].
    assert (Hvp : newer v p) by (by eapply resolve_newer). constructor; [done|].
    inversion Hs as [|? ? _ Hall]; subst. apply (List.Forall_impl _ (P := fun w => newer w v)); [|done].
    intros w Hw. by apply newer_trans with v.
Qed.
End order.

(** The versions a spec is deployed under only grow: whatever is requested, an
    accepted version is newer than every version accepted before, so none comes
    twice.  The release numbers are assumed to stay below the limit of an int. *)
Theorem spec_versions_grow (V : Semver) (L : SemverLaws V) (reqs : list string) :
  Forall (fun v => snd (appSpecSplitVersion v) < 2 ^ 63 - 1) (deployed_versions None reqs) ->
  StronglySorted (fun older v => newer v older) (deployed_versions None reqs) /\
  NoDup (deployed_versions None reqs).
Proof.
  intros Hf. assert (Hs := deployed_newer None reqs ltac:(done) Hf). cbn in Hs. split; [exact Hs|].
  induction Hs as [|v l _ IH Hall]; [constructor|]. apply NoDup_cons. apply Forall_cons in Hf as [_ Hf]. split; [|by apply IH].
  intros Hin. rewrite Forall_forall in Hall. by apply (newer_irrefl v), Hall.
Qed.

Lemma spec_versions_grow_witness :
  let reqs := ["1.0.0"; "1.0.0"; "0.9.0"; "1.0.0-7"; "1.1.0"; ""; "1.1.0"] in
  deployed_versions None reqs = ["1.0.0"; "1.0.0-1"; "1.0.0-2"; "1.1.0"; "1.1.0-1"] /\
  StronglySorted (fun older v => newer v older) (deployed_versions None reqs) /\
  NoDup (deployed_versions None reqs).
Proof.
  split; [vm_compute; reflexivity|]. apply (spec_versions_grow ex_Semver ex_SemverLaws).
  replace (deployed_versions None _) with ["1.0.0"; "1.0.0-1"; "1.0.0-2"; "1.1.0"; "1.1.0-1"] by (vm_compute; reflexivity).
  repeat constructor.
Defined.
