(* ===== verification/Base64.v ===== *)
(** Unpadded URL-safe base64, [encoding/base64.RawURLEncoding], which the access tokens
    of [src/pkg/inauth/utils.go] are made of.  Byte strings are Rocq strings. *)
From Stdlib Require Import ZArith Lia Ascii.
From S2P Require Import Prelude GoStrings.
Local Open Scope string_scope.
Local Open Scope Z_scope.

Definition char_of (z : Z) : ascii := ascii_of_N (Z.to_N z).

Definition b64_char (v : Z) : ascii :=
  if v <? 26 then char_of (65 + v)
  else if v <? 52 then char_of (97 + (v - 26))
  else if v <? 62 then char_of (48 + (v - 52))
  else if v =? 62 then "-"%char else "_"%char.
Definition b64_val (c : ascii) : option Z :=
  let b := byte_of c in
  if is_upper c then Some (b - 65)
  else if is_lower c then Some (b - 97 + 26)
  else if is_digit c then Some (b - 48 + 52)
  else if isc "-" c then Some 62
  else if isc "_" c then Some 63
  else None.

(** [EncodeToString] *)
Fixpoint bytesEncode (s : string) : string :=
  match s with
  | EmptyString => ""
  | String a EmptyString =>
    String (b64_char (byte_of a / 4)) (String (b64_char (byte_of a mod 4 * 16)) "")
  | String a (String b EmptyString) =>
    String (b64_char (byte_of a / 4)) (String (b64_char (byte_of a mod 4 * 16 + byte_of b / 16))
      (String (b64_char (byte_of b mod 16 * 4)) ""))
  | String a (String b (String c rest)) =>
    String (b64_char (byte_of a / 4)) (String (b64_char (byte_of a mod 4 * 16 + byte_of b / 16))
      (String (b64_char (byte_of b mod 16 * 4 + byte_of c / 64)) (String (b64_char (byte_of c mod 64)) (bytesEncode rest))))
  end.

(** [DecodeString]: line breaks are skipped, a last group of two or three characters
    gives one or two bytes, and its spare bits are not looked at. *)
Fixpoint b64_values (s : string) : option (list Z) :=
  match s with
  | EmptyString => Some []
  | String c rest =>
    if (byte_of c =? 10) || (byte_of c =? 13) then b64_values rest
    else match b64_val c, b64_values rest with Some v, Some vs => Some (v :: vs) | _, _ => None end
  end.
Fixpoint b64_bytes (vs : list Z) : option string :=
  match vs with
  | [] => Some ""
  | [_] => None
  | [v1; v2] => Some (String (char_of (v1 * 4 + v2 / 16)) "")
  | [v1; v2; v3] =>
    Some (String (char_of (v1 * 4 + v2 / 16)) (String (char_of (v2 mod 16 * 16 + v3 / 4)) ""))
  | v1 :: v2 :: v3 :: v4 :: rest =>
    match b64_bytes rest with
    | Some s => Some (String (char_of (v1 * 4 + v2 / 16)) (String (char_of (v2 mod 16 * 16 + v3 / 4))
                        (String (char_of (v3 mod 4 * 64 + v4)) s)))
    | None => None
    end
  end.
Definition bytesDecode (s : string) : option string :=
  match b64_values s with Some vs => b64_bytes vs | None => None end.

Example encode_runs : bytesEncode "hello?>" = "aGVsbG8_Pg" /\ bytesDecode "aGVsbG8_Pg" = Some "hello?>" /\ bytesDecode "a" = None.
Proof. split_and!; reflexivity. Qed.

(** * The round trip *)

Lemma char_of_byte c : char_of (byte_of c) = c.
Proof. unfold char_of, byte_of. by rewrite N2Z.id, ascii_N_embedding. Qed.

Lemma b64_char_spec v : 0 <= v < 64 ->
  b64_val (b64_char v) = Some v /\ (byte_of (b64_char v) =? 10) || (byte_of (b64_char v) =? 13) = false /\
  notc "." (b64_char v) = true.
Proof.
  intros Hv. assert (F : forallb (fun n => let c := b64_char (Z.of_nat n) in
      bool_decide (b64_val c = Some (Z.of_nat n)) && negb ((byte_of c =? 10) || (byte_of c =? 13)) && notc "." c) (seq 0 64) = true)
    by (vm_compute; reflexivity).
  rewrite forallb_forall in F. specialize (F (Z.to_nat v)). rewrite Z2Nat.id in F by lia.
  rewrite in_seq in F. specialize (F ltac:(lia)). cbn zeta in F.
  rewrite !andb_true_iff, negb_true_iff, bool_decide_eq_true in F. tauto.
Qed.

Lemma b64_values_char v s vs : 0 <= v < 64 -> b64_values s = Some vs ->
  b64_values (String (b64_char v) s) = Some (v :: vs).
Proof. intros Hv Hs. destruct (b64_char_spec v Hv) as (E1 & E2 & _). cbn. by rewrite E2, E1, Hs. Qed.

Lemma b64_char_no_dot v : 0 <= v < 64 -> notc "." (b64_char v) = true.
Proof. intros Hv. by destruct (b64_char_spec v Hv) as (_ & _ & ->). Qed.

(** Induction by groups of three bytes. *)
Lemma string_ind3 (P : string -> Prop) :
  P "" -> (forall a, P (String a "")) -> (forall a b, P (String a (String b ""))) ->
  (forall a b c s, P s -> P (String a (String b (String c s)))) -> forall s, P s.
Proof.
  intros H0 H1 H2 H3. fix go 1. intros [|a [|b [|c s]]]; [exact H0|apply H1|apply H2|apply H3, go].
Qed.

(** The six-bit values of a byte string. *)
Fixpoint six_bits (s : string) : list Z :=
  match s with
  | EmptyString => []
  | String a EmptyString => [byte_of a / 4; byte_of a mod 4 * 16]
  | String a (String b EmptyString) => [byte_of a / 4; byte_of a mod 4 * 16 + byte_of b / 16; byte_of b mod 16 * 4]
  | String a (String b (String c rest)) =>
    byte_of a / 4 :: byte_of a mod 4 * 16 + byte_of b / 16 :: byte_of b mod 16 * 4 + byte_of c / 64 ::
    byte_of c mod 64 :: six_bits rest
  end.

Lemma six_bits_range a b c : 0 <= a < 256 -> 0 <= b < 256 -> 0 <= c < 256 ->
  0 <= a / 4 < 64 /\ 0 <= a mod 4 * 16 < 64 /\ 0 <= a mod 4 * 16 + b / 16 < 64 /\ 0 <= b mod 16 * 4 < 64 /\
  0 <= b mod 16 * 4 + c / 64 < 64 /\ 0 <= c mod 64 < 64.
Proof. intros. split_and!; Z.div_mod_to_equations; lia. Qed.

Lemma group_first a b : 0 <= a < 256 -> 0 <= b < 256 -> a / 4 * 4 + (a mod 4 * 16 + b / 16) / 16 = a.
Proof. intros. Z.div_mod_to_equations. lia. Qed.
Lemma group_second a b c : 0 <= a < 256 -> 0 <= b < 256 -> 0 <= c < 256 ->
  (a mod 4 * 16 + b / 16) mod 16 * 16 + (b mod 16 * 4 + c / 64) / 4 = b.
Proof.
  intros. assert (E : (a mod 4 * 16 + b / 16) mod 16 = b / 16).
  { rewrite Z.add_comm, Z.mod_add by lia. apply Z.mod_small. Z.div_mod_to_equations. lia. }
  rewrite E. Z.div_mod_to_equations. lia.
Qed.
Lemma group_third b c : 0 <= b < 256 -> 0 <= c < 256 -> (b mod 16 * 4 + c / 64) mod 4 * 64 + c mod 64 = c.
Proof.
  intros. assert (E : (b mod 16 * 4 + c / 64) mod 4 = c / 64).
  { rewrite Z.add_comm, Z.mod_add by lia. apply Z.mod_small. Z.div_mod_to_equations. lia. }
  rewrite E. Z.div_mod_to_equations. lia.
Qed.

Ltac b64_ranges :=
  repeat match goal with
         | c : ascii |- _ => lazymatch goal with
                             | _ : 0 <= byte_of c < 256 |- _ => fail
                             | _ => pose proof (byte_of_range c)
                             end
         end.

Lemma bytesEncode_values s : b64_values (bytesEncode s) = Some (six_bits s).
Proof.
  induction s as [|a|a b|a b c s IH] using string_ind3; [done|..]; b64_ranges;
    cbn [bytesEncode six_bits];
    [pose proof (six_bits_range (byte_of a) 0 0)|pose proof (six_bits_range (byte_of a) (byte_of b) 0)
    |pose proof (six_bits_range (byte_of a) (byte_of b) (byte_of c))];
    repeat (apply b64_values_char; [lia|]); done.
Qed.

Lemma six_bits_bytes s : b64_bytes (six_bits s) = Some s.
Proof.
  induction s as [|a|a b|a b c s IH] using string_ind3; [done|..]; b64_ranges; cbn [six_bits b64_bytes].
  - pose proof (group_first (byte_of a) 0) as G. rewrite Z.div_0_l, Z.add_0_r in G by lia.
    by rewrite G, char_of_byte by lia.
  - pose proof (group_second (byte_of a) (byte_of b) 0) as G. rewrite Z.div_0_l, Z.add_0_r in G by lia.
    by rewrite group_first, G, !char_of_byte by lia.
  - by rewrite IH, group_first, group_second, group_third, !char_of_byte by lia.
Qed.

Lemma bytesDecode_encode s : bytesDecode (bytesEncode s) = Some s.
Proof. unfold bytesDecode. by rewrite bytesEncode_values, six_bits_bytes. Qed.

(** An encoded text holds no dot. *)
Lemma bytesEncode_no_dot s : s_all (notc ".") (bytesEncode s) = true.
Proof.
  induction s as [|a|a b|a b c s IH] using string_ind3; [done|..]; b64_ranges; cbn [bytesEncode s_all];
    [pose proof (six_bits_range (byte_of a) 0 0)|pose proof (six_bits_range (byte_of a) (byte_of b) 0)
    |pose proof (six_bits_range (byte_of a) (byte_of b) (byte_of c))];
    rewrite !b64_char_no_dot by lia; done.
Qed.
