(* ===== verification/Auth.v ===== *)
(** Access keys and access tokens, [src/pkg/inauth]: keys and scopes
    ([access_key.go], [identity_token.go], [session.go]), the key manager and its replay
    cache ([access_key_mgmt.go], [replay_cache.go]), tokens ([access_token.go],
    [app.go], [sign.go]), and the gRPC validator ([grpc.go]) with the interceptor that
    calls it ([src/internal/auth/auth.go]).

    JSON and HMAC are Go's standard packages: a class, of which the theorems use only
    that what was encoded decodes to itself.  A verification reads the clock once. *)
From Stdlib Require Import ZArith Lia Ascii.
From S2P Require Import Prelude GoStrings AppNames Base64.
Local Open Scope string_scope.
Local Open Scope Z_scope.
Local Open Scope go_scope.

(** * Access keys *)

(** [inauth.AccessKey] without its roles and its description. *)
Record AccessKey := {
  ak_Id : string; ak_Secret : string; ak_User : string; ak_Type : string; ak_State : string;
  ak_Scopes : list string }.
Definition empty_key : AccessKey :=
  {| ak_Id := ""; ak_Secret := ""; ak_User := ""; ak_Type := ""; ak_State := ""; ak_Scopes := [] |}.

Definition accessKeyPrefix : string := "ak_".
Definition AccessKey_State_Active : string := "active".
Definition AccessKey_State_Disable : string := "disable".
Definition AccessKey_Type_Host : string := "Host".

Definition is_hex_lower (c : ascii) : bool := is_digit c || ((97 <=? byte_of c) && (byte_of c <=? 102)).
Definition akIdValid (s : string) : bool := s_all is_hex_lower s && (12 <=? slen s) && (slen s <=? 32).
Definition akSecretValid (s : string) : bool := s_all is_alnum s && (16 <=? slen s) && (slen s <=? 64).

Definition Export (it : option AccessKey) : string :=
  match it with Some ak => accessKeyPrefix +:+ ak_Id ak +:+ "_" +:+ ak_Secret ak | None => "" end.
Definition ParseAccessKey (ak : string) : result AccessKey :=
  match cut_prefix accessKeyPrefix ak with
  | None => Err "invalid access-key format: missing prefix"
  | Some rest =>
    match cut_at "_" rest with
    | None => Err "invalid access-key structure"
    | Some (id, secret) =>
      if negb (akIdValid id) || negb (akSecretValid secret) then Err "invalid access-key id format"
      else Ok {| ak_Id := id; ak_Secret := secret; ak_User := ""; ak_Type := ""; ak_State := ""; ak_Scopes := [] |}
    end
  end.

(** [strings.HasSuffix(g, ":rw")], and the text before it. *)
Definition cut_suffix (suffix s : string) : option string :=
  let n := (String.length s - String.length suffix)%nat in
  if (String.length suffix <=? String.length s)%nat && bool_decide (String.substring n (String.length suffix) s = suffix)
  then Some (String.substring 0 n s) else None.

Fixpoint scopeMatch (granted : list string) (required : string) : bool :=
  match granted with
  | [] => false
  | g :: rest =>
    if bool_decide (g = "*") then true
    else if bool_decide (g = required) then true
    else match cut_suffix ":rw" g with
         | Some base => if bool_decide (base +:+ ":ro" = required) then true else scopeMatch rest required
         | None => scopeMatch rest required
         end
  end.
Definition scopes_allow (granted scopes : list string) : bool :=
  if (length granted <? length scopes)%nat then false else forallb (scopeMatch granted) scopes.
Definition AccessKey_Allow (it : AccessKey) (scopes : list string) : bool := scopes_allow (ak_Scopes it) scopes.

(** [IdentityToken.Allow] and [SessionToken.Allow]. *)
Record IdentityToken := { id_Groups : list string; id_Scopes : list string; id_Permissions : list string }.
Definition IdentityToken_Allow (it : option IdentityToken) (user : string) (scopes : list string) : bool :=
  match it with
  | None => false
  | Some it =>
    if bool_decide (user = "") then false
    else if bool_decide (user ∈ id_Groups it) then true
    else if bool_decide (id_Scopes it <> [] /\ scopes <> []) then scopes_allow (id_Scopes it) scopes
    else false
  end.

(** * Signers *)

Class TokenLib (Header Claims : Type) := {
  json_header : Header -> string;
  parse_header : string -> option Header;
  json_claims : Claims -> string;
  parse_claims : string -> option Claims;
  (* the HMAC of a message, by hash and key *)
  hmac : string -> string -> string -> string }.
Class TokenLibLaws {Header Claims} (T : TokenLib Header Claims) := {
  parse_json_header : forall h, parse_header (json_header h) = Some h;
  parse_json_claims : forall c, parse_claims (json_claims c) = Some c }.

Inductive Signer := hmacSigner (name : string) | rsaSigner (name : string) | ecdsaSigner (name : string) | noneSigner.
Definition signer_Name (s : Signer) : string :=
  match s with hmacSigner n | rsaSigner n | ecdsaSigner n => n | noneSigner => "none" end.
Definition DefaultSigner : Signer := hmacSigner "HS256".

(** The signers [init] registers, by name. *)
Definition Signers : list Signer :=
  [hmacSigner "HS256"; hmacSigner "HS512"; rsaSigner "RS256"; rsaSigner "RS512"; ecdsaSigner "ES256"; ecdsaSigner "ES512"].
Definition Signers_Signer (name : string) : Signer :=
  default noneSigner (List.find (fun s => bool_decide (signer_Name s = name)) Signers).

(** * Tokens *)

Record TokenHeader := { th_Alg : string; th_Typ : string; th_Kid : string }.
Record AuthClaims := {
  cl_Jti : string; cl_Iat : Z; cl_Exp : Z; cl_Sub : string; cl_Nonce : string; cl_State : string }.

Record AccessToken := {
  at_signingString : string; at_signString : string; at_signer : Signer;
  at_Header : TokenHeader; at_Claims : AuthClaims }.

Definition appAuthExp : Z := 60.
Definition tokenReplayRetention : Z := 2 * appAuthExp + 30.

Definition absInt64 (a : Z) : Z := if a <? 0 then i64 (- a) else a.

(** ** The replay cache *)

Record replayCache := { rc_items : gmap string Z; rc_inserts : Z }.
Definition newReplayCache : replayCache := {| rc_items := ∅; rc_inserts := 0 |}.
Definition replaySweepInterval : Z := 1024.

Definition replay_key (kid nonce : string) : string := kid +:+ String (ascii_of_nat 0) nonce.
Definition sweepLocked (now : Z) (items : gmap string Z) : gmap string Z := filter (fun kv => now < snd kv) items.
Definition consume (kid nonce : string) (now : Z) (it : replayCache) : bool * replayCache :=
  if bool_decide (nonce = "") then (true, it) else
  let k := replay_key kid nonce in
  if match rc_items it !! k with Some exp => now <? exp | None => false end then (false, it) else
  let items := <[k := now +64 tokenReplayRetention]> (rc_items it) in
  let inserts := rc_inserts it +64 1 in
  (true, {| rc_items := if Z.rem inserts replaySweepInterval =? 0 then sweepLocked now items else items;
            rc_inserts := inserts |}).

(** ** The key manager *)

Record AccessKeyManager := { km_items : gmap string AccessKey; km_replay : replayCache }.
Definition NewAccessKeyManager : AccessKeyManager := {| km_items := ∅; km_replay := newReplayCache |}.
Definition set_items (items : gmap string AccessKey) (m : AccessKeyManager) : AccessKeyManager :=
  {| km_items := items; km_replay := km_replay m |}.
Definition set_replay (r : replayCache) (m : AccessKeyManager) : AccessKeyManager :=
  {| km_items := km_items m; km_replay := r |}.
Definition Key_Set (k : AccessKey) (m : AccessKeyManager) : AccessKeyManager := set_items (<[ak_Id k := k]> (km_items m)) m.
Definition Key_Del (id : string) (m : AccessKeyManager) : AccessKeyManager := set_items (delete id (km_items m)) m.
Definition Key (id : string) (m : AccessKeyManager) : option AccessKey := km_items m !! id.
(** [RandKey]: some key of the map, or the default key of the process. *)
Definition RandKey `{MapRange} (akDefault : AccessKey) (m : AccessKeyManager) : AccessKey :=
  match map_range (km_items m) with (_, k) :: _ => k | [] => akDefault end.

Section tokens.
Context {T : TokenLib TokenHeader AuthClaims}.

(** [Signer.Sign] with the secret of an access key, which is a string. *)
Definition Sign (s : Signer) (signingString secret : string) : result string :=
  match s with
  | hmacSigner name => Ok (hmac name secret signingString)
  | rsaSigner _ => Err "invalid key (type:rsa)"
  | ecdsaSigner _ => Err "invalid key (type:ecdsa)"
  | noneSigner => Err "none signer"
  end.

Definition signing_string (h : TokenHeader) (c : AuthClaims) : string :=
  bytesEncode (json_header h) +:+ "." +:+ bytesEncode (json_claims c).

(** [appCredential.AuthToken]: the token and the credential's jti, which is drawn
    once; [jti0] and [nonce] are the draws of this call. *)
Definition AuthToken (ak : AccessKey) (signer : Signer) (jti jti0 nonce : string) (now : Z) : string * string :=
  let jti := if bool_decide (jti = "") then jti0 else jti in
  let h := {| th_Alg := signer_Name signer; th_Typ := ""; th_Kid := ak_Id ak |} in
  let c := {| cl_Jti := if bool_decide (ak_Type ak = "App") then jti else ""; cl_Iat := now; cl_Exp := now +64 appAuthExp;
              cl_Sub := ""; cl_Nonce := nonce; cl_State := "" |} in
  let bs := match Sign signer (signing_string h c) (ak_Secret ak) with Ok bs => bs | Err _ => "" end in
  (signing_string h c +:+ "." +:+ bytesEncode bs, jti).

Definition ParseAccessToken (accessToken : string) : result AccessToken :=
  match cut_last "." accessToken with
  | None => Err "invalid access_token"
  | Some (signingString, signString) =>
    match cut_at "." signingString with
    | None => Err "invalid access_token"
    | Some (h, c) =>
      match bytesDecode h with
      | None => Err "invalid access_token"
      | Some b =>
        match parse_header b with
        | None => Err "invalid access_token : header"
        | Some header =>
          match bytesDecode c with
          | None => Err "invalid access_token"
          | Some b =>
            match parse_claims b with
            | None => Err "invalid access_token : claims"
            | Some claims =>
              Ok {| at_signingString := signingString; at_signString := signString;
                    at_signer := Signers_Signer (th_Alg header); at_Header := header; at_Claims := claims |}
            end
          end
        end
      end
    end
  end.

Definition IsExpired (now : Z) (it : AccessToken) : bool := cl_Exp (at_Claims it) <=? now.

Definition Verify (it : AccessToken) (now : Z) (m : AccessKeyManager) : result AccessKey * AccessKeyManager :=
  match Key (th_Kid (at_Header it)) m with
  | None => (Err "access-key not found", m)
  | Some ak =>
    if bool_decide (ak_State ak = AccessKey_State_Disable) then (Err "access-key is disabled", m)
    else if IsExpired now it then (Err "access-token expired", m)
    else if appAuthExp <? absInt64 (now -64 cl_Iat (at_Claims it)) then (Err "auth-denied : iat expired", m)
    else match Sign (at_signer it) (at_signingString it) (ak_Secret ak) with
         | Err e => (Err e, m)
         | Ok b =>
           if negb (bool_decide (bytesDecode (at_signString it) = Some b)) then (Err "verify denied", m)
           else if bool_decide (cl_Nonce (at_Claims it) <> "") then
             let '(fresh, r) := consume (th_Kid (at_Header it)) (cl_Nonce (at_Claims it)) now (km_replay m) in
             if fresh then (Ok ak, set_replay r m) else (Err "access-token replayed", set_replay r m)
           else (Ok ak, m)
         end
  end.

(** [AccessToken.SignToken], which fills in what its token lacks; a failure of the
    signer is returned as an empty token without an error. *)
Definition SignToken `{MapRange} (akDefault : AccessKey) (it : AccessToken) (now : Z) (m : AccessKeyManager)
  : result string * AccessToken :=
  let fill kid h := {| th_Alg := th_Alg h; th_Typ := th_Typ h; th_Kid := kid |} in
  let with_header h := {| at_signingString := at_signingString it; at_signString := at_signString it;
                          at_signer := at_signer it; at_Header := h; at_Claims := at_Claims it |} in
  let kid := th_Kid (at_Header it) in
  let '(found, it) :=
    if bool_decide (kid = "") then let ak := RandKey akDefault m in (Some ak, with_header (fill (ak_Id ak) (at_Header it)))
    else (Key kid m, it) in
  match found with
  | None => (Err "access-key not found", it)
  | Some ak =>
    if bool_decide (ak_State ak = AccessKey_State_Disable) then (Err "access-key is disabled", it) else
    let c := at_Claims it in
    let iat := if cl_Iat c =? 0 then now else cl_Iat c in
    let exp := if cl_Exp c <=? iat then iat +64 appAuthExp else cl_Exp c in
    let c := {| cl_Jti := cl_Jti c; cl_Iat := iat; cl_Exp := exp; cl_Sub := cl_Sub c; cl_Nonce := cl_Nonce c;
                cl_State := cl_State c |} in
    let h := at_Header it in
    let '(h, signer) :=
      if bool_decide (signer_Name (at_signer it) <> th_Alg h)
      then ({| th_Alg := signer_Name DefaultSigner; th_Typ := th_Typ h; th_Kid := th_Kid h |}, Signers_Signer (signer_Name DefaultSigner))
      else (h, at_signer it) in
    let it := {| at_signingString := at_signingString it; at_signString := at_signString it; at_signer := signer;
                 at_Header := h; at_Claims := c |} in
    match Sign signer (signing_string h c) (ak_Secret ak) with
    | Err _ => (Ok "", it)
    | Ok bs => (Ok (signing_string h c +:+ "." +:+ bytesEncode bs), it)
    end
  end.

(** ** The gRPC side *)

(** [NewGrpcAppValidator]: [values] is the header of the request, [None] without
    metadata. *)
Definition NewGrpcAppValidator (values : option (list string)) (now : Z) (m : AccessKeyManager)
  : result AccessKey * AccessKeyManager :=
  match values with
  | None => (Err "metadata is not provided", m)
  | Some [] => (Err "authorization token is missing", m)
  | Some (v :: _) =>
    match ParseAccessToken v with
    | Err e => (Err e, m)
    | Ok at' => Verify at' now m
    end
  end.

Definition noAuthMethods : list string := ["/inapi.ZoneService/Ping"].

(** [GrpcAuthInterceptor]: the key a handler runs under, none for a method that needs
    no authentication. *)
Definition GrpcAuthInterceptor (method : string) (values : option (list string)) (now : Z) (m : AccessKeyManager)
  : result (option AccessKey) * AccessKeyManager :=
  if bool_decide (method ∈ noAuthMethods) then (Ok None, m) else
  match NewGrpcAppValidator values now m with
  | (Ok ak, m) => (Ok (Some ak), m)
  | (Err e, m) => (Err ("authentication failed: " +:+ e), m)
  end.
End tokens.

(** [AppContext(ctx).Allow]: a request without a key is allowed nothing. *)
Definition context_Allow (ctx : option AccessKey) (scopes : list string) : bool :=
  match ctx with Some ak => AccessKey_Allow ak scopes | None => false end.
(** [authAllow] of [src/internal/zonelet/service.go]. *)
Definition authAllow (ctx : option AccessKey) (scope : string) : result unit :=
  if context_Allow ctx [scope] then Ok tt else Err ("missing " +:+ scope +:+ " scope").

(** * Access keys read back *)

Lemma hex_not_underscore c : is_hex_lower c = true -> notc "_" c = true.
Proof.
  unfold notc, isc. intros Hc. apply negb_true_iff, bool_decide_eq_false. intros <-. done.
Qed.

(** An exported access key parses back to its id and secret, and what parses is
    the export of the key it parses to. *)
Theorem access_key_roundtrip (ak : AccessKey) :
  (akIdValid (ak_Id ak) = true -> akSecretValid (ak_Secret ak) = true ->
   ParseAccessKey (Export (Some ak)) =
   Ok {| ak_Id := ak_Id ak; ak_Secret := ak_Secret ak; ak_User := ""; ak_Type := ""; ak_State := ""; ak_Scopes := [] |}) /\
  (forall s, ParseAccessKey s = Ok ak -> Export (Some ak) = s /\ akIdValid (ak_Id ak) = true /\ akSecretValid (ak_Secret ak) = true).
Proof.
  unfold ParseAccessKey, Export. split.
  - intros Hi Hs. rewrite cut_prefix_app. change (ak_Id ak +:+ "_" +:+ ak_Secret ak) with (ak_Id ak +:+ String "_" (ak_Secret ak)).
    rewrite cut_at_app; [by rewrite Hi, Hs|]. unfold akIdValid in Hi. rewrite !andb_true_iff in Hi.
    eapply s_all_impl; [apply hex_not_underscore|tauto].
  - intros s. destruct (cut_prefix accessKeyPrefix s) as [rest|] eqn:E; [|done].
    destruct (cut_at "_" rest) as [[id secret]|] eqn:Ec; [|done].
    destruct (akIdValid id) eqn:Hi; [|done]. destruct (akSecretValid secret) eqn:Hs; [|done]. intros [= <-]. cbn.
    split; [|done]. apply cut_at_inv in Ec as [-> _]. symmetry. exact (cut_prefix_inv _ _ _ E).
Qed.

Lemma access_key_roundtrip_witness :
  let ak := {| ak_Id := "67f3a1b2c3d4e5f6"; ak_Secret := "0123456789abcdefABCDEF"; ak_User := "ann"; ak_Type := "User";
               ak_State := "active"; ak_Scopes := ["*"] |} in
  Export (Some ak) = "ak_67f3a1b2c3d4e5f6_0123456789abcdefABCDEF" /\
  ParseAccessKey (Export (Some ak)) =
  Ok {| ak_Id := "67f3a1b2c3d4e5f6"; ak_Secret := "0123456789abcdefABCDEF"; ak_User := ""; ak_Type := ""; ak_State := "";
        ak_Scopes := [] |}.
Proof.
  split; [reflexivity|]. apply (proj1 (access_key_roundtrip
    {| ak_Id := "67f3a1b2c3d4e5f6"; ak_Secret := "0123456789abcdefABCDEF"; ak_User := "ann"; ak_Type := "User";
       ak_State := "active"; ak_Scopes := ["*"] |})); reflexivity.
Defined.

(** * Tokens that are accepted *)

Section accepted.
Context {T : TokenLib TokenHeader AuthClaims}.

(** The conditions of an acceptance but the nonce. *)
Record acceptable (at' : AccessToken) (now : Z) (m : AccessKeyManager) (ak : AccessKey) : Prop := {
  acc_key : Key (th_Kid (at_Header at')) m = Some ak;
  acc_enabled : ak_State ak <> AccessKey_State_Disable;
  acc_unexpired : now < cl_Exp (at_Claims at');
  acc_fresh : absInt64 (now -64 cl_Iat (at_Claims at')) <= appAuthExp;
  acc_hash : exists hash, at_signer at' = hmacSigner hash /\
    bytesDecode (at_signString at') = Some (hmac hash (ak_Secret ak) (at_signingString at')) }.

(** The replay cache accepts the nonce. *)
Definition nonce_fresh (kid nonce : string) (now : Z) (r : replayCache) : Prop :=
  forall exp, nonce <> "" -> rc_items r !! replay_key kid nonce = Some exp -> exp <= now.

Lemma consume_fresh kid nonce now r : fst (consume kid nonce now r) = true <-> nonce_fresh kid nonce now r.
Proof.
  unfold consume, nonce_fresh. case_bool_decide as Hn; cbn; [naive_solver|].
  destruct (rc_items r !! replay_key kid nonce) as [exp|]; cbn; [|naive_solver].
  destruct (Z.ltb_spec now exp); cbn; split; intros; try done; [|naive_solver].
  assert (exp <= now) by naive_solver. lia.
Qed.

Lemma verify_ok at' now m ak m' : Verify at' now m = (Ok ak, m') <->
  acceptable at' now m ak /\ nonce_fresh (th_Kid (at_Header at')) (cl_Nonce (at_Claims at')) now (km_replay m) /\
  m' = set_replay (snd (consume (th_Kid (at_Header at')) (cl_Nonce (at_Claims at')) now (km_replay m))) m.
Proof.
  rewrite <-consume_fresh. unfold Verify. split.
  - destruct (Key _ m) as [k|] eqn:Ek; [|done]. case_bool_decide as Hd; [done|].
    unfold IsExpired. destruct (Z.leb_spec (cl_Exp (at_Claims at')) now) as [|Hx]; [done|].
    destruct (Z.ltb_spec appAuthExp (absInt64 (now -64 cl_Iat (at_Claims at')))) as [|Hf]; [done|].
    destruct (Sign _ _ _) as [b|e] eqn:Es; [|done]. case_bool_decide as Hb; [|done]. cbn [negb].
    assert (Hacc : forall k', k' = k -> acceptable at' now m k').
    { intros k' ->. split; [done|done|lia|lia|]. destruct (at_signer at') as [h| | |]; [|done..]. injection Es as <-. by exists h. }
    case_bool_decide as Hn.
    + destruct (consume _ _ _ _) as [[|] r]; [|done]. intros [= <- <-]. split_and!; [by apply Hacc|done|done].
    + intros [= <- <-]. unfold consume. rewrite bool_decide_true by (destruct (decide (cl_Nonce (at_Claims at') = "")); tauto). cbn.
      split_and!; [by apply Hacc|done|by destruct m].
  - intros ([Hk Hd Hx Hf (h & Es & Hb)] & Hc & ->). rewrite Hk. rewrite bool_decide_false by done. unfold IsExpired.
    destruct (Z.leb_spec (cl_Exp (at_Claims at')) now); [lia|].
    destruct (Z.ltb_spec appAuthExp (absInt64 (now -64 cl_Iat (at_Claims at')))); [lia|].
    rewrite Es. cbn [Sign]. rewrite (bool_decide_true _ Hb). cbn [negb]. case_bool_decide as Hn.
    + destruct (consume _ _ _ _) as [[|] r]; [|done]. done.
    + unfold consume. rewrite bool_decide_true by (destruct (decide (cl_Nonce (at_Claims at') = "")); tauto). by destruct m.
Qed.
End accepted.

(** ** Single use *)

(** A time a server can see: far from the ends of [int64]. *)
Definition clock_ok (now : Z) : Prop := 0 <= now < 2 ^ 62.

(** Two acceptances of one issue time lie within two lifetimes. *)
Lemma fresh_within iat t1 t2 : in_i64 iat -> clock_ok t1 -> clock_ok t2 ->
  absInt64 (t1 -64 iat) <= appAuthExp -> absInt64 (t2 -64 iat) <= appAuthExp -> t2 - t1 <= 2 * appAuthExp.
Proof.
  unfold clock_ok, in_i64, absInt64, appAuthExp. intros Hi H1 H2.
  destruct (i64_ex (t1 - iat)) as [k1 E1]. destruct (i64_ex (t2 - iat)) as [k2 E2].
  pose proof (i64_range (t1 - iat)) as R1. pose proof (i64_range (t2 - iat)) as R2. unfold in_i64 in *.
  set (a := i64 (t1 - iat)) in *. set (b := i64 (t2 - iat)) in *.
  assert (Na : i64 (- a) = - a \/ a = - 2 ^ 63).
  { destruct (Z.eq_dec a (- 2 ^ 63)); [by right|]. left. apply i64_id. unfold in_i64. lia. }
  assert (Nb : i64 (- b) = - b \/ b = - 2 ^ 63).
  { destruct (Z.eq_dec b (- 2 ^ 63)); [by right|]. left. apply i64_id. unfold in_i64. lia. }
  destruct (Z.ltb_spec a 0), (Z.ltb_spec b 0); intros; lia.
Qed.

(** What happens at a server: verifications, and changes of the keys. *)
Inductive auth_event := EvVerify (at' : AccessToken) | EvSet (k : AccessKey) | EvDel (id : string).
Definition event_ok (e : Z * auth_event) : Prop :=
  clock_ok e.1 /\ match e.2 with EvVerify at' => in_i64 (cl_Iat (at_Claims at')) | _ => True end.
Definition token_id (at' : AccessToken) : string * string * Z :=
  (th_Kid (at_Header at'), cl_Nonce (at_Claims at'), cl_Iat (at_Claims at')).

Section single_use.
Context {T : TokenLib TokenHeader AuthClaims}.

(** The tokens that are accepted over a history. *)
Fixpoint accepted_tokens (h : list (Z * auth_event)) (m : AccessKeyManager) : list AccessToken :=
  match h with
  | [] => []
  | (now, EvVerify at') :: h =>
    match Verify at' now m with
    | (Ok _, m) => at' :: accepted_tokens h m
    | (Err _, m) => accepted_tokens h m
    end
  | (now, EvSet k) :: h => accepted_tokens h (Key_Set k m)
  | (now, EvDel id) :: h => accepted_tokens h (Key_Del id m)
  end.

(** A token is spent until [t]: its nonce is remembered to the end of the window in
    which it would be accepted. *)
Definition spent (at' : AccessToken) (t : Z) (now : Z) (r : replayCache) : Prop :=
  t + tokenReplayRetention <= now \/
  exists exp, rc_items r !! replay_key (th_Kid (at_Header at')) (cl_Nonce (at_Claims at')) = Some exp /\ t + tokenReplayRetention <= exp.

Lemma sweep_lookup (b : bool) now items k exp : items !! k = Some exp -> now < exp ->
  (if b then sweepLocked now items else items) !! k = Some exp.
Proof. intros Hk Hn. destruct b; [|done]. unfold sweepLocked. by apply map_lookup_filter_Some. Qed.

Lemma consume_keeps kid nonce now r k exp : clock_ok now -> rc_items r !! k = Some exp -> now < exp ->
  exists exp', rc_items (snd (consume kid nonce now r)) !! k = Some exp' /\ exp <= exp'.
Proof.
  unfold clock_ok, consume. intros Hc Hk Hlt. case_bool_decide; [eauto using Z.le_refl|].
  assert (En : now +64 tokenReplayRetention = now + tokenReplayRetention).
  { apply i64_id. unfold in_i64, tokenReplayRetention, appAuthExp. lia. }
  destruct (decide (k = replay_key kid nonce)) as [->|Hne].
  - rewrite Hk. destruct (Z.ltb_spec now exp); [|lia]. cbn. eauto using Z.le_refl.
  - destruct (match rc_items r !! replay_key kid nonce with Some _ => _ | None => _ end); cbn; [eauto using Z.le_refl|].
    exists exp. split; [|lia]. apply sweep_lookup; [|done]. by rewrite lookup_insert_ne.
Qed.

Lemma spent_consume at' t now kid nonce r : clock_ok now -> spent at' t now r -> spent at' t now (snd (consume kid nonce now r)).
Proof.
  intros Hc [Hl|(exp & Hk & Hle)]; [by left|]. destruct (Z.lt_ge_cases now exp) as [Hlt|Hge]; [|left; lia].
  destruct (consume_keeps kid nonce now r _ exp Hc Hk Hlt) as (exp' & Hk' & Hle'). right. exists exp'. split; [done|lia].
Qed.

Lemma consume_spends at' now r : clock_ok now -> cl_Nonce (at_Claims at') <> "" ->
  fst (consume (th_Kid (at_Header at')) (cl_Nonce (at_Claims at')) now r) = true ->
  spent at' now now (snd (consume (th_Kid (at_Header at')) (cl_Nonce (at_Claims at')) now r)).
Proof.
  unfold clock_ok, consume, spent. intros Hc Hn. rewrite bool_decide_false by done.
  assert (En : now +64 tokenReplayRetention = now + tokenReplayRetention).
  { apply i64_id. unfold in_i64, tokenReplayRetention, appAuthExp. lia. }
  destruct (match rc_items r !! _ with Some _ => _ | None => _ end); [done|]. cbn. intros _. right.
  exists (now + tokenReplayRetention). split; [|lia]. rewrite En. apply sweep_lookup; [by rewrite lookup_insert_eq|].
  unfold tokenReplayRetention, appAuthExp. lia.
Qed.

Definition spent_weaken at' t now now' r : now <= now' -> spent at' t now r -> spent at' t now' r.
Proof. intros Hn [?|?]; [left; lia|by right]. Qed.

Lemma verify_replay_cases at' now m : let r := km_replay (snd (Verify at' now m)) in
  r = km_replay m \/ r = snd (consume (th_Kid (at_Header at')) (cl_Nonce (at_Claims at')) now (km_replay m)).
Proof.
  cbn. unfold Verify. destruct (Key _ m) as [k|]; [|by left]. case_bool_decide; [by left|].
  destruct (IsExpired now at'); [by left|]. destruct (appAuthExp <? _); [by left|].
  destruct (Sign _ _ _) as [b|e]; [|by left]. destruct (negb _); [by left|]. case_bool_decide; [|by left].
  right. by destruct (consume _ _ _ _) as [[|] r].
Qed.

Lemma verify_replay at' now m : clock_ok now -> forall x t, spent x t now (km_replay m) ->
  spent x t now (km_replay (snd (Verify at' now m))).
Proof.
  intros Hc x t Hs. destruct (verify_replay_cases at' now m) as [->| ->]; [done|]. by apply spent_consume.
Qed.

Lemma accepted_spent h m now0 at' t :
  clock_ok t -> in_i64 (cl_Iat (at_Claims at')) -> cl_Nonce (at_Claims at') <> "" ->
  absInt64 (t -64 cl_Iat (at_Claims at')) <= appAuthExp ->
  StronglySorted Z.le (now0 :: map fst h) -> Forall (fun e => clock_ok e.1) h ->
  spent at' t now0 (km_replay m) ->
  Forall (fun x => token_id x <> token_id at') (accepted_tokens h m).
Proof.
  intros Ht Hi Hn Hf. revert m now0. induction h as [|[now ev] h IH]; intros m now0 Hs Hc Hsp; [constructor|].
  cbn [map fst] in Hs. apply StronglySorted_inv in Hs as [Hs Hall]. apply Forall_cons in Hc as [Hnow Hc]. cbn in Hnow.
  assert (Hle : now0 <= now) by (by apply Forall_cons in Hall as [? _]).
  pose proof (spent_weaken _ _ _ _ _ Hle Hsp) as Hsp'.
  destruct ev as [x|k|id]; cbn [accepted_tokens]; [|by apply (IH _ now)..].
  pose proof (verify_replay x now m Hnow at' t Hsp') as Hsp2.
  destruct (Verify x now m) as [[ak|e] m'] eqn:Ev; cbn in Hsp2; [|by apply (IH _ now)].
  constructor; [|by apply (IH _ now)].
  intros Eid. apply verify_ok in Ev as ([_ _ _ Hfx _] & Hnf & _). unfold token_id in Eid. injection Eid as Ek En Ei.
  rewrite Ei in Hfx. pose proof (fresh_within _ t now Hi Ht Hnow Hf Hfx) as Hw.
  destruct Hsp' as [Hold|(exp & Hk & Hexp)].
  - unfold tokenReplayRetention in Hold. lia.
  - rewrite Ek, En in Hnf. specialize (Hnf exp Hn Hk). unfold tokenReplayRetention in Hexp. lia.
Qed.
End single_use.

(** C12: A token with a nonce is accepted at most once: over every history of
    verifications, of any tokens, and of key changes, with a clock that does not run
    backwards, no two accepted tokens share key, nonce and issue time. *)
Theorem token_single_use (T : TokenLib TokenHeader AuthClaims) (h : list (Z * auth_event)) (m : AccessKeyManager) :
  StronglySorted Z.le (map fst h) -> Forall event_ok h ->
  NoDup (map token_id (filter (fun at' => cl_Nonce (at_Claims at') <> "") (accepted_tokens h m))).
Proof.
  revert m. induction h as [|[now ev] h IH]; intros m Hs Hc; [constructor|].
  pose proof Hs as Hs0. cbn [map fst] in Hs. apply StronglySorted_inv in Hs as [Hs _].
  apply Forall_cons in Hc as [[Hnow Hev] Hc']. cbn in Hnow, Hev.
  assert (Hc2 : Forall (fun e => clock_ok e.1) h) by (eapply Forall_impl; [exact Hc'|by intros e []]).
  destruct ev as [at'|k|id]; cbn [accepted_tokens]; [|by apply IH..].
  destruct (Verify at' now m) as [[ak|e] m'] eqn:Ev; [|by apply IH].
  rewrite filter_cons. case_decide as Hn; [|by apply IH]. cbn [map]. apply NoDup_cons. split; [|by apply IH].
  apply verify_ok in Ev as ([_ _ _ Hf _] & Hnf & ->). apply consume_fresh in Hnf.
  pose proof (consume_spends at' now (km_replay m) Hnow Hn Hnf) as Hsp.
  pose proof (accepted_spent h (set_replay (snd (consume (th_Kid (at_Header at')) (cl_Nonce (at_Claims at')) now (km_replay m))) m)
    now at' now Hnow) as Hall.
  specialize (Hall Hev Hn Hf Hs0 Hc2 Hsp).
  rewrite Forall_forall in Hall. intros Hin. apply list_elem_of_fmap in Hin as (x & Ex & Hx).
  apply list_elem_of_filter in Hx as [_ Hx]. by apply (Hall x Hx).
Qed.

(** ** A token library for the examples: texts with separators *)

Definition ex_fields (l : list string) : string := join "." (map bytesEncode l).
Definition ex_unfields (s : string) : option (list string) := mapM bytesDecode (split_at "." s).
Definition ex_z (z : Z) : string := if z <? 0 then String "-" (itoa (- z)) else itoa z.
Definition ex_parse_z (s : string) : option Z :=
  match s with
  | String c rest => if isc "-" c then Z.opp ∘ Z.of_N <$> dec_acc rest 0 else Z.of_N <$> dec_acc s 0
  | EmptyString => None
  end.
#[export] Instance ex_TokenLib : TokenLib TokenHeader AuthClaims :=
  {| json_header h := ex_fields [th_Alg h; th_Typ h; th_Kid h];
     parse_header s := match ex_unfields s with
                       | Some [a; t; k] => Some {| th_Alg := a; th_Typ := t; th_Kid := k |}
                       | _ => None
                       end;
     json_claims c := ex_fields [cl_Jti c; ex_z (cl_Iat c); ex_z (cl_Exp c); cl_Sub c; cl_Nonce c; cl_State c];
     parse_claims s := match ex_unfields s with
                       | Some [j; i; e; u; n; t] =>
                         match ex_parse_z i, ex_parse_z e with
                         | Some i, Some e => Some {| cl_Jti := j; cl_Iat := i; cl_Exp := e; cl_Sub := u; cl_Nonce := n; cl_State := t |}
                         | _, _ => None
                         end
                       | _ => None
                       end;
     hmac hash key msg := hash +:+ ":" +:+ key +:+ ":" +:+ msg |}.

Lemma ex_parse_z_id z : ex_parse_z (ex_z z) = Some z.
Proof.
  unfold ex_z. destruct (Z.ltb_spec z 0) as [Hz|Hz].
  - cbn. rewrite dec_acc_itoa by lia. cbn. f_equal. lia.
  - pose proof (itoa_digits z Hz) as Hd. pose proof (dec_acc_itoa z Hz) as Ha. pose proof (itoa_nonempty z Hz).
    unfold ex_parse_z. destruct (itoa z) as [|c s]; [done|]. cbn [s_all] in Hd. apply andb_true_iff in Hd as [Hc _].
    unfold isc. rewrite bool_decide_false by (intros <-; done). rewrite Ha. cbn. f_equal. lia.
Qed.

Lemma ex_unfields_id l : l <> [] -> ex_unfields (ex_fields l) = Some l.
Proof.
  intros Hl. unfold ex_unfields, ex_fields. rewrite split_at_join.
  - induction l as [|x l IH]; [done|]. cbn [map mapM]. rewrite bytesDecode_encode. cbn.
    destruct l as [|y l]; [done|]. by rewrite IH.
  - by destruct l.
  - apply List.Forall_map, Forall_forall. intros x _. apply bytesEncode_no_dot.
Qed.

#[export] Instance ex_TokenLibLaws : TokenLibLaws ex_TokenLib.
Proof.
  split.
  - intros h. cbn -[ex_fields ex_unfields]. rewrite ex_unfields_id by done. by destruct h.
  - intros c. cbn -[ex_fields ex_unfields ex_z ex_parse_z]. rewrite ex_unfields_id by done. rewrite !ex_parse_z_id. by destruct c.
Qed.

Definition ex_key : AccessKey :=
  {| ak_Id := "67f3a1b2c3d4"; ak_Secret := "0123456789abcdef"; ak_User := "ann"; ak_Type := "App"; ak_State := "active";
     ak_Scopes := ["app:rw"] |}.
Definition ex_manager : AccessKeyManager := Key_Set ex_key NewAccessKeyManager.
Definition ex_at (nonce : string) (iat : Z) : AccessToken :=
  match ParseAccessToken (fst (AuthToken ex_key DefaultSigner "" "j1" nonce iat)) with
  | Ok at' => at'
  | Err _ => {| at_signingString := ""; at_signString := ""; at_signer := noneSigner;
                at_Header := {| th_Alg := ""; th_Typ := ""; th_Kid := "" |};
                at_Claims := {| cl_Jti := ""; cl_Iat := 0; cl_Exp := 0; cl_Sub := ""; cl_Nonce := ""; cl_State := "" |} |}
  end.
Definition ex_history : list (Z * auth_event) :=
  [(1000, EvVerify (ex_at "n1" 1000)); (1010, EvVerify (ex_at "n1" 1000)); (1015, EvSet ex_key);
   (1020, EvVerify (ex_at "n2" 1015)); (1059, EvVerify (ex_at "n1" 1000)); (1100, EvVerify (ex_at "n3" 1000))].

Lemma token_single_use_witness :
  map token_id (accepted_tokens ex_history ex_manager) = [("67f3a1b2c3d4", "n1", 1000); ("67f3a1b2c3d4", "n2", 1015)] /\
  NoDup (map token_id (filter (fun at' => cl_Nonce (at_Claims at') <> "") (accepted_tokens ex_history ex_manager))).
Proof.
  split; [vm_compute; reflexivity|]. apply (token_single_use ex_TokenLib).
  - cbn. repeat constructor; lia.
  - unfold ex_history. repeat constructor; cbn; try lia; vm_compute; congruence.
Defined.

(** C13: What the validator accepts is exactly a token whose key is known and enabled,
    that is unexpired and freshly issued, whose signature is the HMAC of its text under
    the key's secret - no other algorithm passes - and whose nonce is not spent; the
    nonce is then recorded. *)
Theorem token_accepted_iff (T : TokenLib TokenHeader AuthClaims) (tok : string) (rest : list string) (now : Z)
    (m m' : AccessKeyManager) (ak : AccessKey) :
  NewGrpcAppValidator (Some (tok :: rest)) now m = (Ok ak, m') <->
  exists at', ParseAccessToken tok = Ok at' /\ acceptable at' now m ak /\
    nonce_fresh (th_Kid (at_Header at')) (cl_Nonce (at_Claims at')) now (km_replay m) /\
    m' = set_replay (snd (consume (th_Kid (at_Header at')) (cl_Nonce (at_Claims at')) now (km_replay m))) m.
Proof.
  cbn [NewGrpcAppValidator]. destruct (ParseAccessToken tok) as [at'|e] eqn:E.
  - rewrite verify_ok. split; [intros H; by exists at'|]. by intros (x & [= <-] & H).
  - split; [done|]. by intros (x & [=] & _).
Qed.

Lemma parse_minted (T : TokenLib TokenHeader AuthClaims) (TL : TokenLibLaws T) h c bs :
  ParseAccessToken (signing_string h c +:+ "." +:+ bytesEncode bs) =
  Ok {| at_signingString := signing_string h c; at_signString := bytesEncode bs; at_signer := Signers_Signer (th_Alg h);
        at_Header := h; at_Claims := c |}.
Proof.
  unfold ParseAccessToken. change ("." +:+ bytesEncode bs) with (String "." (bytesEncode bs)).
  rewrite cut_last_app by apply bytesEncode_no_dot. unfold signing_string at 1.
  change ("." +:+ bytesEncode (json_claims c)) with (String "." (bytesEncode (json_claims c))).
  rewrite cut_at_app by apply bytesEncode_no_dot.
  by rewrite bytesDecode_encode, parse_json_header, bytesDecode_encode, parse_json_claims.
Qed.

(** A token minted with a known, enabled key and an HMAC signer is accepted under
    that key for its lifetime, as long as its nonce was not used. *)
Theorem minted_token_accepted (T : TokenLib TokenHeader AuthClaims) (TL : TokenLibLaws T) (ak : AccessKey)
    (signer : Signer) (jti jti0 nonce : string) (t now : Z) (rest : list string) (m : AccessKeyManager) :
  signer = hmacSigner "HS256" \/ signer = hmacSigner "HS512" ->
  Key (ak_Id ak) m = Some ak -> ak_State ak <> AccessKey_State_Disable ->
  clock_ok t -> t <= now < t + appAuthExp -> nonce_fresh (ak_Id ak) nonce now (km_replay m) ->
  fst (NewGrpcAppValidator (Some (fst (AuthToken ak signer jti jti0 nonce t) :: rest)) now m) = Ok ak.
Proof.
  unfold clock_ok, appAuthExp. intros Hs Hk Hd Hc Ht Hn. unfold AuthToken. cbn [fst NewGrpcAppValidator].
  assert (Ex : t +64 60 = t + 60) by (apply i64_id; unfold in_i64; lia).
  assert (Ei : now -64 t = now - t) by (apply i64_id; unfold in_i64; lia).
  rewrite parse_minted by done.
  match goal with |- fst (Verify ?a _ _) = _ => set (at' := a) end.
  assert (Hv : Verify at' now m = (Ok ak, set_replay (snd (consume (ak_Id ak) nonce now (km_replay m))) m)).
  { apply verify_ok. split_and!; [|done|done]. split; cbn; unfold appAuthExp.
    - done.
    - done.
    - rewrite Ex. lia.
    - rewrite Ei. unfold absInt64. destruct (Z.ltb_spec (now - t) 0); lia.
    - rewrite bytesDecode_encode. destruct Hs as [-> | ->]; eexists; split; reflexivity. }
  by rewrite Hv.
Qed.

Lemma minted_token_accepted_witness :
  let token := fst (AuthToken ex_key DefaultSigner "" "j1" "n1" 1000) in
  fst (NewGrpcAppValidator (Some [token]) 1059 ex_manager) = Ok ex_key.
Proof.
  apply (minted_token_accepted ex_TokenLib ex_TokenLibLaws).
  - by left.
  - reflexivity.
  - discriminate.
  - unfold clock_ok. lia.
  - unfold appAuthExp. lia.
  - intros exp _ H. discriminate H.
Defined.
