(* ===== verification/Packages.v ===== *)
(** Packages: the records of [src/pkg/inapi/package.pb.go], their validation
    ([src/internal/pkgbuild/spec.go]), the upload in chunks, the listing and the deletion
    on the leader ([src/internal/zonelet/service_package.go], [PackageChunk] of
    [service_internal.go]), and the two clients: [pkg push] of the command line
    ([src/internal/cli/pkg_push.go]) and the download of a host
    ([src/internal/hostlet/pkg_download.go]).

    A request runs under the mutex of its package and is one step. *)
From Stdlib Require Import ZArith Lia Ascii Strings.Byte.
From S2P Require Import Prelude GoStrings Ns Kv AppVersion Auth.
Local Open Scope string_scope.
Local Open Scope Z_scope.
Local Open Scope go_scope.

(** * Data *)

Definition bytes : Type := list Byte.byte.
Definition blen (b : bytes) : Z := Z.of_nat (length b).

(** The descriptive fields, which no rule looks at, are left out. *)
Record PackageMetadata := { md_Name : string; md_Version : string }.
Record PackageRelease := { rl_Version : string; rl_Os : string; rl_Arch : string }.
Record PackageFile := {
  pf_State : string; pf_Size : Z; pf_ChunkSize : Z; pf_UploadedChunks : list Z; pf_Created : Z; pf_Updated : Z }.
Record Package := {
  pg_Metadata : option PackageMetadata; pg_Release : option PackageRelease; pg_File : option PackageFile }.
Record PackageFileChunk := { ck_Index : Z; ck_Crc32 : Z; ck_Data : option bytes; ck_Uploaded : Z }.

Record PackagePushRequest := {
  pq_Id : string; pq_Package : option Package; pq_TotalSize : Z; pq_ChunkSize : Z;
  pq_Chunk : option PackageFileChunk; pq_Overwrite : bool }.
Record PackageListRequest := {
  lq_All : bool; lq_Name : string; lq_Version : string; lq_Os : string; lq_Arch : string; lq_LatestOnly : bool }.

Definition PackageFileStateUploading : string := "uploading".
Definition PackageFileStateComplete : string := "complete".
Definition PackageFileChunkSizeDefault : Z := 2 ^ 20.
Definition PackageMaxSize : Z := 1000 * 2 ^ 20.
Definition AuthScope_Package_Read : string := "pkg:ro".
Definition AuthScope_Package_Write : string := "pkg:rw".
Definition AuthScope_Host_Write : string := "host:rw".

(** The bytes of a slice that may be nil. *)
Definition ck_bytes (c : PackageFileChunk) : bytes := default [] (ck_Data c).

(** ** [crc32.ChecksumIEEE] *)

Definition crc_bit (c : Z) : Z :=
  if Z.odd c then Z.lxor (Z.shiftr c 1) 0xEDB88320 else Z.shiftr c 1.
Definition crc_byte (c : Z) (b : Byte.byte) : Z :=
  Nat.iter 8 crc_bit (Z.lxor c (Z.of_N (Byte.to_N b))).
Definition ChecksumIEEE (b : bytes) : Z := Z.lxor (foldl crc_byte 0xFFFFFFFF b) 0xFFFFFFFF.

Example crc_check :
  ChecksumIEEE [x31; x32; x33; x34; x35; x36; x37; x38; x39] = 0xCBF43926.
Proof. vm_compute. reflexivity. Qed.

(** * Validation *)

Definition OSAll : string := "all".
Definition ArchSrc : string := "src".
Definition ValidOS (os : string) : bool := bool_decide (os ∈ ["linux"; "freebsd"; "darwin"; OSAll]).
Definition ValidArch (arch : string) : bool := bool_decide (arch ∈ ["amd64"; "arm64"; ArchSrc]).

(** [NameRegex]: [^[a-z][a-z0-9_-]*$]. *)
Definition NameRegex (s : string) : bool :=
  match s with
  | String c rest => is_lower c && s_all (fun d => is_lower d || is_digit d || isc "_" d || isc "-" d) rest
  | EmptyString => false
  end.

Section validate.
Context {V : Semver}.

Definition MetadataValidate (meta : option PackageMetadata) : result unit :=
  match meta with
  | None => Err "metadata is required"
  | Some m =>
    if bool_decide (md_Name m = "") then Err "metadata.name is required"
    else if negb (NameRegex (md_Name m)) then Err "invalid metadata.name"
    else if bool_decide (md_Version m = "") then Err "metadata.version is required"
    else if negb (semver_IsValid (with_v (md_Version m))) then Err "invalid metadata.version"
    else Ok tt
  end.

Definition ReleaseValidate (release : option PackageRelease) : result unit :=
  match release with
  | None => Err "release is required"
  | Some r =>
    if bool_decide (rl_Version r = "") then Err "release.version is required"
    else if negb (semver_IsValid (with_v (rl_Version r))) then Err "invalid release.version"
    else if bool_decide (rl_Os r = "") then Err "release.os is required"
    else if negb (ValidOS (rl_Os r)) then Err "invalid release.os"
    else if bool_decide (rl_Arch r = "") then Err "release.arch is required"
    else if negb (ValidArch (rl_Arch r)) then Err "invalid release.arch"
    else Ok tt
  end.

(** The checks of [PackagePush] on a first chunk. *)
Definition first_chunk_valid (req : PackagePushRequest) : result unit :=
  match pq_Package req with
  | None => Err "package is required for first chunk"
  | Some p =>
    if pq_TotalSize req <=? 0 then Err "total_size is required for first chunk"
    else if PackageMaxSize <? pq_TotalSize req then Err "package size exceeds maximum"
    else if match pg_Metadata p with Some m => bool_decide (md_Name m = "") | None => true end
         then Err "package metadata is required"
    else if bool_decide (pg_Release p = None) then Err "package release info is required"
    else
      let? _ := MetadataValidate (pg_Metadata p) in
      let? _ := ReleaseValidate (pg_Release p) in
      if match pg_File p with Some f => pf_Size f <=? 0 | None => true end then Err "package file size is required"
      else if negb (pq_ChunkSize req =? PackageFileChunkSizeDefault) then Err "invalid chunk size"
      else Ok tt
  end.
Definition push_valid (req : PackagePushRequest) : result PackageFileChunk :=
  if bool_decide (pq_Id req = "") then Err "id is required" else
  match pq_Chunk req with
  | None => Err "chunk is required"
  | Some c =>
    if bool_decide (ck_Data c = None) then Err "chunk data is required"
    else if ck_Index c =? 0 then let? _ := first_chunk_valid req in Ok c else Ok c
  end.
End validate.

(** [calcTotalChunks]; a division by zero panics. *)
Definition calcTotalChunks (totalSize chunkSize : Z) : result Z :=
  if chunkSize =? 0 then Err "panic: division by zero"
  else Ok (i64 (Z.quot (totalSize +64 chunkSize -64 1) chunkSize)).

(** The size the chunk at an index must have. *)
Definition chunk_size_of (f : PackageFile) (total index : Z) : Z :=
  if negb (index =? total -64 1) then pf_ChunkSize f
  else let last := Z.rem (pf_Size f) (pf_ChunkSize f) in
       if last =? 0 then pf_ChunkSize f else last.

Definition chunk_valid (f : PackageFile) (total : Z) (c : PackageFileChunk) : result unit :=
  if (ck_Index c <? 0) || (total <=? ck_Index c) then Err "invalid chunk index"
  else if negb (blen (ck_bytes c) =? chunk_size_of f total (ck_Index c)) then Err "invalid chunk size"
  else if negb (ChecksumIEEE (ck_bytes c) =? ck_Crc32 c) then Err "invalid chunk data checksum crc32"
  else Ok tt.

(** The record of a new upload. *)
Definition new_upload (now : Z) (req : PackagePushRequest) : result Package :=
  match pq_Package req with
  | Some p =>
    match pg_File p with
    | Some f =>
      Ok {| pg_Metadata := pg_Metadata p; pg_Release := pg_Release p;
            pg_File := Some {| pf_State := PackageFileStateUploading; pf_Size := pf_Size f; pf_ChunkSize := pq_ChunkSize req;
                               pf_UploadedChunks := []; pf_Created := now; pf_Updated := 0 |} |}
    | None => Err "panic: nil file"
    end
  | None => Err "panic: nil package"
  end.

(** * The leader *)

Inductive pkg_value := PkgInfo (p : Package) | PkgChunk (c : PackageFileChunk).
Definition pkg_info (v : pkg_value) : option Package := match v with PkgInfo p => Some p | _ => None end.
Definition pkg_chunk (v : pkg_value) : option PackageFileChunk := match v with PkgChunk c => Some c | _ => None end.

(** The caller of a request: its access key, if any, and whether this server leads. *)
Record caller := { cl_key : option AccessKey; cl_leader : bool }.
Definition allow_leader (who : caller) (scope : string) : result unit :=
  let? _ := authAllow (cl_key who) scope in
  if cl_leader who then Ok tt else Err "zonelet leader".

Section server.
Context {P : Type} `{Kv P pkg_value} {V : Semver} `{SortSlice} `{MapRange}.

(** The database and the packages that hold an upload mutex. *)
Record pkg_server := { ps_kv : P; ps_mutex : gset string }.
Definition with_kv (kv : P) (s : pkg_server) : pkg_server := {| ps_kv := kv; ps_mutex := ps_mutex s |}.
Definition with_mutex (m : gset string) (s : pkg_server) : pkg_server := {| ps_kv := ps_kv s; ps_mutex := m |}.

(** A read and [JsonDecode] of the record of a package. *)
Definition read_info (kv : P) (id : string) : kv_reply (option Package) :=
  match kv_read kv (NsPackageInfo id) with
  | KvOk it => KvOk (it_value it ≫= pkg_info)
  | KvNotFound => KvNotFound
  | KvErr e => KvErr e
  end.

(** Deletion of the chunks [0 .. n-1], with the number of deletions that succeeded. *)
Definition delete_chunk (id : string) (acc : P * Z) (i : Z) : P * Z :=
  let '(kv, n) := acc in
  match kv_delete kv (NsPackageFileChunk id i) with
  | (kv, KvOk _) => (kv, n + 1)
  | (kv, _) => (kv, n)
  end.
Definition delete_chunks (kv : P) (id : string) (n : Z) : P * Z :=
  foldl (delete_chunk id) (kv, 0) (seqZ 0 n).

(** The record an upload starts from: the stored one, or a new one for a first chunk. *)
Definition open_upload (now : Z) (req : PackagePushRequest) (c : PackageFileChunk) (kv : P) : result Package :=
  match read_info kv (pq_Id req) with
  | KvOk (Some p) => Ok p
  | KvOk None => Err "failed to decode upload info"
  | KvNotFound => if ck_Index c =? 0 then new_upload now req else Err "package meta not found"
  | KvErr e => Err e
  end.

(** The progress of an upload after one more chunk. *)
Definition uploaded_with (f : PackageFile) (index : Z) : list Z :=
  sort_slice (fun x y => x <? y) (pf_UploadedChunks f ++ [index])%list.
Definition all_uploaded (f : PackageFile) (total index : Z) : bool := Z.of_nat (length (uploaded_with f index)) =? total.
Definition chunk_added (now total index : Z) (f : PackageFile) : PackageFile :=
  let complete := all_uploaded f total index in
  {| pf_State := if complete then PackageFileStateComplete else pf_State f; pf_Size := pf_Size f;
     pf_ChunkSize := pf_ChunkSize f; pf_UploadedChunks := if complete then [] else uploaded_with f index;
     pf_Created := pf_Created f; pf_Updated := now |}.

(** What becomes of a chunk: the upload is complete already, the chunk is stored
    already, or it is stored now. *)
Definition upload_chunk (now : Z) (req : PackagePushRequest) (c : PackageFileChunk) (pkg : Package) (f : PackageFile)
    (s : pkg_server) : result PackageFile * pkg_server :=
  match calcTotalChunks (pf_Size f) (pf_ChunkSize f) with
  | Err e => (Err e, s)
  | Ok total =>
    match chunk_valid f total c with
    | Err e => (Err e, s)
    | Ok _ =>
      if bool_decide (ck_Index c ∈ pf_UploadedChunks f) then (Ok f, s) else
      let chunk := {| ck_Index := ck_Index c; ck_Crc32 := ck_Crc32 c; ck_Data := ck_Data c; ck_Uploaded := now |} in
      match kv_write (ps_kv s) kv_default (NsPackageFileChunk (pq_Id req) (ck_Index c)) (PkgChunk chunk) with
      | (kv, KvOk _) =>
        let s := with_mutex (if all_uploaded f total (ck_Index c) then ps_mutex s ∖ {[pq_Id req]} else ps_mutex s) (with_kv kv s) in
        let f := chunk_added now total (ck_Index c) f in
        let pkg := {| pg_Metadata := pg_Metadata pkg; pg_Release := pg_Release pkg; pg_File := Some f |} in
        match kv_write (ps_kv s) kv_default (NsPackageInfo (pq_Id req)) (PkgInfo pkg) with
        | (kv, KvOk _) => (Ok f, with_kv kv s)
        | (kv, rs) => (Err ("failed to store package info: " +:+ kv_msg rs), with_kv kv s)
        end
      | (kv, rs) => (Err ("failed to store chunk: " +:+ kv_msg rs), with_kv kv s)
      end
    end
  end.

Definition PackagePush (who : caller) (now : Z) (req : PackagePushRequest) (s : pkg_server) : result PackageFile * pkg_server :=
  match (let? _ := allow_leader who AuthScope_Package_Write in push_valid req) with
  | Err e => (Err e, s)
  | Ok c =>
    let s := with_mutex ({[pq_Id req]} ∪ ps_mutex s) s in
    match open_upload now req c (ps_kv s) with
    | Err e => (Err e, s)
    | Ok pkg =>
      match pg_File pkg with
      | None => (Err "panic: nil file", s)
      | Some f =>
        if negb (bool_decide (pf_State f = PackageFileStateComplete)) then upload_chunk now req c pkg f s
        else if negb (pq_Overwrite req) then (Ok f, s)
        else if negb (ck_Index c =? 0) then (Err "package meta not found", s)
        else match calcTotalChunks (pf_Size f) (pf_ChunkSize f) with
             | Err e => (Err e, s)
             | Ok old =>
               let s := with_kv (fst (delete_chunks (ps_kv s) (pq_Id req) old)) s in
               match new_upload now req with
               | Err e => (Err e, s)
               | Ok pkg =>
                 match pg_File pkg with
                 | None => (Err "panic: nil file", s)
                 | Some f => upload_chunk now req c pkg f s
                 end
               end
             end
      end
    end
  end.

(** [PackageDelete]: the number of deleted chunks. *)
Definition PackageDelete (who : caller) (id : string) (s : pkg_server) : result Z * pkg_server :=
  match allow_leader who AuthScope_Package_Write with
  | Err e => (Err e, s)
  | Ok _ =>
    if bool_decide (id = "") then (Err "id is required", s)
    else if bool_decide (id ∈ ps_mutex s) then (Err "package is being uploaded, please retry later", s)
    else match read_info (ps_kv s) id with
         | KvNotFound => (Err "package not found", s)
         | KvErr e => (Err e, s)
         | KvOk None => (Err "failed to decode package info", s)
         | KvOk (Some pkg) =>
           match (match pg_File pkg with
                  | Some f => if (0 <? pf_ChunkSize f) && (0 <? pf_Size f)
                              then calcTotalChunks (pf_Size f) (pf_ChunkSize f) else Ok 0
                  | None => Ok 0
                  end) with
           | Err e => (Err e, s)
           | Ok total =>
             let '(kv, deleted) := delete_chunks (ps_kv s) id total in
             match kv_delete kv (NsPackageInfo id) with
             | (kv, KvErr e) => (Err ("failed to delete package info: " +:+ e), with_kv kv s)
             | (kv, _) => (Ok (i32 deleted), with_kv kv s)
             end
           end
         end
  end.

(** [PackageChunk], which the hosts download with. *)
Definition PackageChunk (who : caller) (id : string) (index : Z) (s : pkg_server) : result PackageFileChunk :=
  if negb (cl_leader who) then Err "zonelet leader" else
  match cl_key who with
  | None => Err "panic: nil access key"
  | Some ak =>
    let? _ := authAllow (Some ak) (AuthScope_Host_Write +:+ ":" +:+ ak_Id ak) in
    if bool_decide (id = "") then Err "id is required"
    else if index <? 0 then Err "index must be non-negative"
    else match read_info (ps_kv s) id with
         | KvNotFound => Err "package not found"
         | KvErr e => Err e
         | KvOk None => Err "failed to decode package info"
         | KvOk (Some pkg) =>
           match pg_File pkg with
           | None => Err "package is not ready for download"
           | Some f =>
             if negb (bool_decide (pf_State f = PackageFileStateComplete)) then Err "package is not ready for download" else
             let? total := calcTotalChunks (pf_Size f) (pf_ChunkSize f) in
             if total <=? index then Err "chunk index out of range" else
             match kv_read (ps_kv s) (NsPackageFileChunk id index) with
             | KvNotFound => Err "chunk not found"
             | KvErr e => Err e
             | KvOk it => match it_value it ≫= pkg_chunk with
                          | Some c => Ok c
                          | None => Err "failed to decode chunk data"
                          end
             end
           end
         end
  end.

(** ** Listing *)

Definition newer_package (p q : Package) : bool :=
  0 <? semverCompare (match pg_Release p with Some r => rl_Version r | None => "" end)
                     (match pg_Release q with Some r => rl_Version r | None => "" end).
Definition group_of (p : Package) : option (string * string * string) :=
  match pg_Metadata p, pg_Release p with
  | Some m, Some r => Some (md_Name m, rl_Os r, rl_Arch r)
  | _, _ => None
  end.
Definition latest_step (latest : gmap (string * string * string) Package) (p : Package) : gmap (string * string * string) Package :=
  match group_of p with
  | None => latest
  | Some key =>
    match latest !! key with
    | None => <[key := p]> latest
    | Some existing => if newer_package p existing then <[key := p]> latest else latest
    end
  end.
(** The order of the result: by name, system, architecture. *)
Definition group_lt (p q : Package) : bool :=
  match group_of p, group_of q with
  | Some (n1, o1, a1), Some (n2, o2, a2) =>
    if negb (bool_decide (n1 = n2)) then str_lt n1 n2
    else if negb (bool_decide (o1 = o2)) then str_lt o1 o2
    else str_lt a1 a2
  | _, _ => false
  end.
Definition filterLatestPackages (packages : list Package) : list Package :=
  sort_slice group_lt (map snd (map_range (foldl latest_step ∅ packages))).

(** One package of [PackageList]: kept or not. *)
Definition listed (req : PackageListRequest) (p : Package) : result bool :=
  let? ready := (if lq_All req then Ok true
                 else match pg_File p with
                      | None => Err "panic: nil file"
                      | Some f => Ok (bool_decide (pf_State f = PackageFileStateComplete))
                      end) in
  Ok (ready &&
      (bool_decide (lq_Name req = "") ||
       match pg_Metadata p with Some m => bool_decide (md_Name m = lq_Name req) | None => false end) &&
      (bool_decide (lq_Version req = "") ||
       match pg_Release p with Some r => versionMatch (lq_Version req) (rl_Version r) | None => false end) &&
      (bool_decide (lq_Os req = "") ||
       match pg_Release p with Some r => bool_decide (rl_Os r = lq_Os req) | None => false end) &&
      (bool_decide (lq_Arch req = "") ||
       match pg_Release p with Some r => bool_decide (rl_Arch r = lq_Arch req) | None => false end)).
Fixpoint list_packages (req : PackageListRequest) (items : list (string * kv_item pkg_value)) : result (list Package) :=
  match items with
  | [] => Ok []
  | (_, it) :: rest =>
    match it_value it ≫= pkg_info with
    | None => list_packages req rest
    | Some p =>
      let? keep := listed req p in
      let? tail := list_packages req rest in
      Ok (if keep then p :: tail else tail)
    end
  end.
(** [rs.Items]: a scan that fails has none. *)
Definition package_items (kv : P) : list (string * kv_item pkg_value) :=
  match kv_range kv (NsPackageInfo "") (range_end (NsPackageInfo "")) 1000 with KvOk items => items | _ => [] end.

Definition PackageList (who : caller) (req : PackageListRequest) (s : pkg_server) : result (list Package) :=
  let? _ := allow_leader who AuthScope_Package_Read in
  let? items := list_packages req (package_items (ps_kv s)) in
  Ok (match items with [] => [] | _ => if lq_LatestOnly req then filterLatestPackages items else items end).

(** [validatePackageDependencies]: the versions of the complete packages, by name. *)
Definition available_step (avail : gmap string (list string)) (item : string * kv_item pkg_value) : gmap string (list string) :=
  match it_value (snd item) ≫= pkg_info with
  | Some {| pg_Metadata := Some m; pg_Release := Some r; pg_File := Some f |} =>
    if negb (bool_decide (pf_State f = PackageFileStateComplete)) || bool_decide (md_Name m = "") then avail
    else <[md_Name m := (default [] (avail !! md_Name m) ++ [rl_Version r])%list]> avail
  | _ => avail
  end.
Definition check_dependency (avail : gmap string (list string)) (dep : option AppSpecPackage) : result unit :=
  match dep with
  | None => Ok tt
  | Some d =>
    if bool_decide (pk_Name d = "") then Err "package name is required"
    else match avail !! pk_Name d with
         | None => Err "package not found or not fully uploaded"
         | Some versions =>
           if bool_decide (pk_Version d = "") || existsb (versionMatch (pk_Version d)) versions then Ok tt
           else Err "package version not found or not fully uploaded"
         end
  end.
Fixpoint check_dependencies (avail : gmap string (list string)) (deps : list (option AppSpecPackage)) : result unit :=
  match deps with
  | [] => Ok tt
  | dep :: rest => let? _ := check_dependency avail dep in check_dependencies avail rest
  end.
Definition validatePackageDependencies (kv : P) (deps : list (option AppSpecPackage)) : result unit :=
  match deps with
  | [] => Ok tt
  | _ => check_dependencies (foldl available_step ∅ (package_items kv)) deps
  end.

(** * The clients *)

(** [pkg push]: the file is sent chunk by chunk until the leader calls it complete.
    [pkg] is the header of the file. *)
Definition file_chunk (file : bytes) (chunkSize index : Z) : bytes :=
  take (Z.to_nat chunkSize) (drop (Z.to_nat (index * chunkSize)) file).
Definition push_request (id : string) (pkg : Package) (overwrite : bool) (file : bytes) (index : Z) : PackagePushRequest :=
  let data := file_chunk file PackageFileChunkSizeDefault index in
  {| pq_Id := id;
     pq_Package := if 0 <? index then None
                   else Some {| pg_Metadata := pg_Metadata pkg; pg_Release := pg_Release pkg;
                                pg_File := Some {| pf_State := ""; pf_Size := blen file; pf_ChunkSize := 0;
                                                   pf_UploadedChunks := []; pf_Created := 0; pf_Updated := 0 |} |};
     pq_TotalSize := blen file; pq_ChunkSize := PackageFileChunkSizeDefault;
     pq_Chunk := Some {| ck_Index := index; ck_Crc32 := ChecksumIEEE data; ck_Data := Some data; ck_Uploaded := 0 |};
     pq_Overwrite := overwrite |}.
Fixpoint push_chunks (who : caller) (now : Z) (id : string) (pkg : Package) (overwrite : bool) (file : bytes)
    (indexes : list Z) (s : pkg_server) : result unit * pkg_server :=
  match indexes with
  | [] => (Err "upload incomplete", s)
  | i :: rest =>
    match PackagePush who now (push_request id pkg overwrite file i) s with
    | (Err e, s) => (Err ("upload failed: " +:+ e), s)
    | (Ok f, s) =>
      if bool_decide (pf_State f = PackageFileStateComplete) then (Ok tt, s)
      else push_chunks who now id pkg overwrite file rest s
    end
  end.
Definition pkg_id (p : Package) : string :=
  match pg_Metadata p, pg_Release p with
  | Some m, Some r => PackageId (md_Name m) (rl_Version r) (rl_Os r) (rl_Arch r)
  | _, _ => ""
  end.
Definition pkg_push (who : caller) (now : Z) (pkg : Package) (overwrite : bool) (file : bytes) (s : pkg_server)
  : result unit * pkg_server :=
  let id := pkg_id pkg in
  if bool_decide (id = "") then (Err "invalid package metadata", s) else
  match calcTotalChunks (blen file) PackageFileChunkSizeDefault with
  | Err e => (Err e, s)
  | Ok total => push_chunks who now id pkg overwrite file (seqZ 0 total) s
  end.

(** The download of a host: the chunks in order, each with its checksum. *)
Fixpoint download_chunks (chunk : Z -> result PackageFileChunk) (indexes : list Z) : result bytes :=
  match indexes with
  | [] => Ok []
  | i :: rest =>
    let? c := chunk i in
    match ck_Data c with
    | None => Err "chunk has no data"
    | Some data =>
      if negb (ChecksumIEEE data =? ck_Crc32 c) then Err "chunk CRC32 mismatch"
      else let? tail := download_chunks chunk rest in Ok (data ++ tail)%list
    end
  end.

(** [resolvePackage]: the first candidate of system and architecture that has a release. *)
Fixpoint resolve_candidates (list' : PackageListRequest -> result (list Package)) (name version : string)
    (candidates : list (string * string)) : result Package :=
  match candidates with
  | [] => Err "package not found"
  | (o, a) :: rest =>
    let? items := list' {| lq_All := false; lq_Name := name; lq_Version := version; lq_Os := o; lq_Arch := a; lq_LatestOnly := true |} in
    match items with
    | [] => resolve_candidates list' name version rest
    | p :: _ =>
      match pg_File p with
      | Some f => if bool_decide (pf_State f = PackageFileStateComplete) then Ok p else Err "package is not ready for download"
      | None => Err "package is not ready for download"
      end
    end
  end.
Definition package_candidates (os arch : string) : list (string * string) :=
  o ← filter (fun o => o <> "") [os; OSAll]; a ← filter (fun a => a <> "") [arch; ArchSrc]; [(o, a)].
Definition resolvePackage (list' : PackageListRequest -> result (list Package)) (name version os arch : string) : result Package :=
  resolve_candidates list' name version (package_candidates os arch).

(** The chunks of a package whose record is known, one request each. *)
Definition fetch_package (who : caller) (id : string) (f : PackageFile) (s : pkg_server) : result bytes :=
  let? total := calcTotalChunks (pf_Size f) (pf_ChunkSize f) in
  download_chunks (fun i => PackageChunk who id i s) (seqZ 0 total).

(** [PackageDownload] between the leader and the file it writes: the archive. *)
Definition PackageDownload (who : caller) (s : pkg_server) (name version os arch : string) : result bytes :=
  if bool_decide (name = "") then Err "invalid package reference" else
  let? pkg := resolvePackage (fun req => PackageList who req s) name version os arch in
  let id := pkg_id pkg in
  if bool_decide (id = "") then Err "failed to generate package ID" else
  match pg_File pkg with
  | None => Err "panic: nil file"
  | Some f => fetch_package who id f s
  end.
End server.
Arguments pkg_server : clear implicits.

Example candidates_order : package_candidates "linux" "amd64" =
  [("linux", "amd64"); ("linux", "src"); ("all", "amd64"); ("all", "src")].
Proof. reflexivity. Qed.

(** A caller with every scope of a package user and of a host. *)
Definition ex_user : caller :=
  {| cl_key := Some {| ak_Id := "67f3a1b2c3d4"; ak_Secret := ""; ak_User := ""; ak_Type := "App"; ak_State := "active";
                       ak_Scopes := ["*"] |}; cl_leader := true |}.
Definition ex_header (version os : string) : Package :=
  {| pg_Metadata := Some {| md_Name := "nginx"; md_Version := "1.0.0" |};
     pg_Release := Some {| rl_Version := version; rl_Os := os; rl_Arch := "amd64" |}; pg_File := None |}.
Definition ex_server : pkg_server (mem_store pkg_value) := {| ps_kv := mem_empty; ps_mutex := ∅ |}.
Definition ex_file : bytes := [x49; x50; x4b; x31; x00].

Example push_then_download :
  let s := snd (pkg_push ex_user 100 (ex_header "1.0.0" "linux") false ex_file ex_server) in
  let s := snd (pkg_push ex_user 110 (ex_header "1.0.2-r1" "linux") false (ex_file ++ ex_file)%list s) in
  let s := snd (pkg_push ex_user 120 (ex_header "1.0.3" "all") false [] s) in
  (PackageDownload ex_user s "nginx" "1.0.0" "linux" "amd64", PackageDownload ex_user s "nginx" "1.0" "linux" "amd64",
   PackageDownload ex_user s "nginx" "2" "linux" "amd64", PackageDownload ex_user s "nginx" "1" "freebsd" "amd64") =
  (Ok ex_file, Ok (ex_file ++ ex_file)%list, Err "package not found", Err "package not found").
Proof. vm_compute. reflexivity. Qed.
