(* ===== verification/PackageStore.v ===== *)
(** What the leader promises of packages: a complete package has all its chunks, over
    every history of requests; what is pushed is what hosts download; and the one way
    in which a complete package is lost. *)
From Stdlib Require Import ZArith Lia Ascii Sorted.
From S2P Require Import Prelude GoStrings Ns Kv AppVersion Auth Packages.
Local Open Scope string_scope.
Local Open Scope Z_scope.
Local Open Scope go_scope.

(** * Keys *)

Lemma chunk_key_inj id id' i i' : 0 <= i -> 0 <= i' ->
  NsPackageFileChunk id i = NsPackageFileChunk id' i' -> id = id' /\ i = i'.
Proof.
  intros Hi Hi' E. apply (f_equal (fun s => cut_last "/" s)) in E. revert E. unfold NsPackageFileChunk.
  assert (A : forall id i, NsPrefix +:+ "pkg/chunk/" +:+ id +:+ "/" +:+ fmt_d 8 i =
                           (NsPrefix +:+ "pkg/chunk/" +:+ id) +:+ String "/" (fmt_d 8 i)).
  { intros. by rewrite !s_app_assoc. }
  rewrite !A, !cut_last_app by by apply fmt_d_no_slash. intros [= E1 E2].
  apply fmt_d_inj in E2; [|done..]. by subst.
Qed.

Lemma info_key_inj id id' : NsPackageInfo id = NsPackageInfo id' -> id = id'.
Proof. by intros [=]. Qed.
Lemma info_chunk_key id id' i : NsPackageInfo id <> NsPackageFileChunk id' i.
Proof. done. Qed.
#[local] Hint Resolve info_chunk_key : core.

(** * Sizes *)

Lemma i64_shift a k : i64 (a + k * 2 ^ 64) = i64 a.
Proof.
  unfold i64, wrap_s. change (64 - 1) with 63. f_equal.
  replace (a + k * 2 ^ 64 + 2 ^ 63) with (a + 2 ^ 63 + k * 2 ^ 64) by lia. apply Z.mod_add. lia.
Qed.
Lemma i64_sub a b : i64 a -64 b = i64 (a - b).
Proof. destruct (i64_ex a) as [k E]. rewrite E. replace (a + k * 2 ^ 64 - b) with (a - b + k * 2 ^ 64) by lia. apply i64_shift. Qed.

Definition chunk_count (size cs : Z) : Z := (size + cs - 1) / cs.

(** The count of chunks is the rounded quotient, unless the sum wraps around; then it
    is not positive and no chunk is accepted. *)
Lemma total_chunks size cs : 0 < size < 2 ^ 63 -> 0 < cs <= 2 ^ 20 ->
  exists t, calcTotalChunks size cs = Ok t /\
    ((size + cs <= 2 ^ 63 -> t = chunk_count size cs) /\ (0 < t -> t = chunk_count size cs)).
Proof.
  intros Hs Hc. unfold calcTotalChunks, chunk_count. destruct (Z.eqb_spec cs 0); [lia|]. eexists. split; [done|].
  rewrite i64_sub. set (x := size + cs - 1).
  assert (Hu : x < 2 ^ 63 -> i64 (Z.quot (i64 x) cs) = x / cs).
  { intros Hx. rewrite (i64_id x), Z.quot_div_nonneg by (unfold in_i64; lia). apply i64_id. unfold in_i64.
    assert (0 <= x / cs <= x) by (split; [apply Z.div_pos; lia|apply Z.div_le_upper_bound; nia]). lia. }
  split; [intros; apply Hu; lia|]. destruct (Z.lt_ge_cases x (2 ^ 63)) as [Hx|Hx]; [by auto|].
  assert (Ex : i64 x = x - 2 ^ 64).
  { replace x with (x - 2 ^ 64 + 1 * 2 ^ 64) at 1 by lia. rewrite i64_shift. apply i64_id. unfold in_i64, x. lia. }
  rewrite Ex. replace (x - 2 ^ 64) with (- (2 ^ 64 - x)) by lia. rewrite Z.quot_opp_l, Z.quot_div_nonneg by lia.
  assert (0 <= (2 ^ 64 - x) / cs <= 2 ^ 64 - x) by (split; [apply Z.div_pos; lia|apply Z.div_le_upper_bound; nia]).
  rewrite i64_id by (unfold in_i64, x in *; lia). lia.
Qed.

Lemma chunk_count_bounds size cs : 0 < size -> 0 < cs ->
  0 < chunk_count size cs /\ (chunk_count size cs - 1) * cs < size <= chunk_count size cs * cs.
Proof. intros. unfold chunk_count. split; [apply Z.div_str_pos; lia|]. Z.div_mod_to_equations. nia. Qed.

(** The bytes of the file that a chunk covers. *)
Lemma chunk_size_exact f index : 0 < pf_Size f < 2 ^ 63 -> 0 < pf_ChunkSize f ->
  let n := chunk_count (pf_Size f) (pf_ChunkSize f) in
  0 <= index < n ->
  chunk_size_of f n index = Z.min (pf_ChunkSize f) (pf_Size f - index * pf_ChunkSize f).
Proof.
  intros Hs Hc n Hi. unfold chunk_size_of. pose proof (chunk_count_bounds (pf_Size f) (pf_ChunkSize f)) as B.
  fold n in B. assert (n <= pf_Size f) by nia. rewrite i64_id by (unfold in_i64; lia).
  set (cs := pf_ChunkSize f) in *. set (sz := pf_Size f) in *.
  destruct (Z.eqb_spec index (n - 1)) as [->|]; cbn [negb]; [|nia].
  rewrite Z.rem_mod_nonneg by lia. assert (E : sz mod cs = sz - (n - 1) * cs \/ (sz mod cs = 0 /\ sz = n * cs)).
  { destruct (Z.eq_dec sz (n * cs)) as [Eq|]; [right; split; [rewrite Eq; apply Z.mod_mul; lia|done]|left].
    symmetry. apply Z.mod_unique with (n - 1); [left|]; nia. }
  destruct E as [E|[E E']].
  - rewrite E. destruct (Z.eqb_spec (sz - (n - 1) * cs) 0); nia.
  - rewrite E. cbn. nia.
Qed.

(** * The invariant *)

Section invariant.
Context {P : Type} {K : Kv P pkg_value} {KL : KvLaws K} {V : Semver} {SS : SortSlice} {SSL : SortSliceLaws SS} {MR : MapRange}.
Implicit Types (kv : P) (s : pkg_server P) (f : PackageFile).

(** The chunk at an index is stored, with its size and its checksum. *)
Definition stored kv id f total i : Prop := exists it c,
  kv_read kv (NsPackageFileChunk id i) = KvOk it /\ it_value it = Some (PkgChunk c) /\
  ck_Data c <> None /\ blen (ck_bytes c) = chunk_size_of f total i /\ ChecksumIEEE (ck_bytes c) = ck_Crc32 c.

Record file_ok kv id f : Prop := {
  fo_size : 0 < pf_Size f < 2 ^ 63;
  fo_chunk : pf_ChunkSize f = PackageFileChunkSizeDefault;
  fo_complete : pf_State f = PackageFileStateComplete ->
    let n := chunk_count (pf_Size f) (pf_ChunkSize f) in
    calcTotalChunks (pf_Size f) (pf_ChunkSize f) = Ok n /\ forall i, 0 <= i < n -> stored kv id f n i;
  fo_uploading : pf_State f <> PackageFileStateComplete ->
    let n := chunk_count (pf_Size f) (pf_ChunkSize f) in
    NoDup (pf_UploadedChunks f) /\ Forall (fun i => 0 <= i < n /\ stored kv id f n i) (pf_UploadedChunks f) }.

Definition info_ok kv id : Prop := forall p, read_info kv id = KvOk (Some p) -> exists f, pg_File p = Some f /\ file_ok kv id f.

Lemma stored_frame kv kv' id f n i : kv_read kv' (NsPackageFileChunk id i) = kv_read kv (NsPackageFileChunk id i) ->
  stored kv id f n i -> stored kv' id f n i.
Proof. intros E (it & c & H). exists it, c. by rewrite E. Qed.

(** Two files with the same sizes have the same chunks. *)
Lemma stored_file kv id f f' n i : pf_Size f' = pf_Size f -> pf_ChunkSize f' = pf_ChunkSize f -> stored kv id f n i -> stored kv id f' n i.
Proof. intros E1 E2 (it & c & H). exists it, c. unfold chunk_size_of. by rewrite E1, E2. Qed.

(** What a change of the store must keep for the record of a package to stay good. *)
Lemma file_ok_frame kv kv' id f :
  (forall i, 0 <= i < chunk_count (pf_Size f) (pf_ChunkSize f) -> pf_State f = PackageFileStateComplete \/ i ∈ pf_UploadedChunks f ->
     kv_read kv' (NsPackageFileChunk id i) = kv_read kv (NsPackageFileChunk id i)) ->
  file_ok kv id f -> file_ok kv' id f.
Proof.
  intros E [Hs Hc Hd Hu]. split; [done|done| |].
  - intros Hst. destruct (Hd Hst) as [Ht Ha]. split; [done|]. intros i Hi. eapply stored_frame; [|by apply Ha]. apply E; [done|by left].
  - intros Hst. destruct (Hu Hst) as [Hn Ha]. split; [done|]. rewrite Forall_forall in Ha |- *. intros i Hi.
    destruct (Ha i Hi) as [Hr Hsi]. split; [done|]. eapply stored_frame; [|done]. apply E; [done|by right].
Qed.

Lemma info_ok_frame kv kv' id : kv_read kv' (NsPackageInfo id) = kv_read kv (NsPackageInfo id) ->
  (forall i, 0 <= i -> kv_read kv' (NsPackageFileChunk id i) = kv_read kv (NsPackageFileChunk id i)) ->
  info_ok kv id -> info_ok kv' id.
Proof.
  intros Ek Ec H p Hp. unfold read_info in Hp. rewrite Ek in Hp. destruct (H p Hp) as (f & Hf & Hok).
  exists f. split; [done|]. eapply file_ok_frame; [|exact Hok]. intros i Hi _. apply Ec. lia.
Qed.

(** ** Writes and deletions *)

Lemma write_reads kv k v kv' r : kv_write kv kv_default k v = (kv', r) -> forall k', k' <> k -> kv_read kv' k' = kv_read kv k'.
Proof.
  intros Hw k' Hk. destruct r as [n| |e] eqn:E.
  - apply kv_write_ok in Hw as (_ & H & _). by apply H.
  - by rewrite (kv_write_fail _ _ _ _ _ _ Hw).
  - by rewrite (kv_write_fail _ _ _ _ _ _ Hw).
Qed.

Lemma delete_reads kv k kv' r : kv_delete kv k = (kv', r) -> forall k', k' <> k -> kv_read kv' k' = kv_read kv k'.
Proof. intros Hd. by apply kv_delete_ok in Hd as (_ & _ & H). Qed.

Lemma delete_chunks_from kv id l n kv' n' : foldl (delete_chunk id) (kv, n) l = (kv', n') ->
  forall k, (forall i, i ∈ l -> k <> NsPackageFileChunk id i) -> kv_read kv' k = kv_read kv k.
Proof.
  revert kv n. induction l as [|i l IH]; intros kv n; cbn [foldl]; [by intros [= <- <-]|].
  unfold delete_chunk at 2. destruct (kv_delete kv _) as [kv1 r] eqn:Ed. intros Hf k Hk.
  assert (E1 : kv_read kv1 k = kv_read kv k) by (apply (delete_reads _ _ _ _ Ed), Hk; set_solver).
  rewrite <- E1. destruct r; eapply IH; try exact Hf; intros j Hj; apply Hk; set_solver.
Qed.
Lemma delete_chunks_reads kv id n k : (forall i, 0 <= i < n -> k <> NsPackageFileChunk id i) ->
  kv_read (fst (delete_chunks kv id n)) k = kv_read kv k.
Proof.
  intros Hk. unfold delete_chunks. destruct (foldl _ _ _) as [kv' n'] eqn:E. eapply delete_chunks_from; [exact E|].
  intros i Hi. apply Hk. apply elem_of_seqZ in Hi. lia.
Qed.

(** A change to the keys of one package leaves the others good. *)
Lemma info_ok_other kv kv' id id' : id' <> id ->
  (forall k, k <> NsPackageInfo id -> (forall i, 0 <= i -> k <> NsPackageFileChunk id i) -> kv_read kv' k = kv_read kv k) ->
  info_ok kv id' -> info_ok kv' id'.
Proof.
  intros Hne E. apply info_ok_frame.
  - apply E; [|done]. intros H. by apply info_key_inj in H.
  - intros i Hi. apply E; [done|]. intros j Hj H. by apply chunk_key_inj in H as [? _].
Qed.

(** ** One more chunk *)

Lemma uploaded_with_elem f i j : j ∈ uploaded_with f i <-> j ∈ pf_UploadedChunks f \/ j = i.
Proof. unfold uploaded_with. rewrite sort_slice_elem. set_solver. Qed.
Lemma uploaded_with_NoDup f i : NoDup (pf_UploadedChunks f) -> i ∉ pf_UploadedChunks f -> NoDup (uploaded_with f i).
Proof.
  intros Hn Hi. unfold uploaded_with. rewrite sort_slice_perm. apply NoDup_app. split_and!; [done| |apply NoDup_singleton].
  intros x Hx ->%list_elem_of_singleton. done.
Qed.

(** A list of [n] different indexes below [n] has them all. *)
Lemma all_indexes l n : NoDup l -> Forall (fun i => 0 <= i < n) l -> Z.of_nat (length l) = n -> forall i, 0 <= i < n -> i ∈ l.
Proof.
  intros Hn Hr Hl i Hi. rewrite Forall_forall in Hr.
  assert (Hs : l ⊆+ seqZ 0 n) by (apply NoDup_submseteq; [done|]; intros x Hx; apply elem_of_seqZ; specialize (Hr x Hx); lia).
  assert (Hp : l ≡ₚ seqZ 0 n) by (apply submseteq_length_Permutation; [done|]; rewrite length_seqZ; lia).
  rewrite Hp. apply elem_of_seqZ. lia.
Qed.

Lemma file_ok_added kv kv' id f now i (n := chunk_count (pf_Size f) (pf_ChunkSize f)) :
  file_ok kv id f -> pf_State f <> PackageFileStateComplete -> calcTotalChunks (pf_Size f) (pf_ChunkSize f) = Ok n ->
  0 <= i < n -> i ∉ pf_UploadedChunks f -> stored kv' id f n i ->
  (forall j, 0 <= j -> j <> i -> kv_read kv' (NsPackageFileChunk id j) = kv_read kv (NsPackageFileChunk id j)) ->
  file_ok kv' id (chunk_added now n i f).
Proof.
  intros [Hs Hc _ Hu] Hst Ht Hi Hni Hsi Hf. destruct (Hu Hst) as [Hnd Ha]. fold n in Ha.
  assert (Hall : Forall (fun j => 0 <= j < n /\ stored kv' id f n j) (uploaded_with f i)).
  { rewrite Forall_forall in Ha |- *. intros j [Hj| ->]%uploaded_with_elem; [|done]. destruct (Ha j Hj) as [Hr Hsj].
    split; [done|]. eapply stored_frame; [|exact Hsj]. apply Hf; [lia|]. by intros ->. }
  pose proof (uploaded_with_NoDup f i Hnd Hni) as Hnd'.
  split; cbn [chunk_added pf_Size pf_ChunkSize pf_State pf_UploadedChunks]; [done|done|..]; cbn zeta; fold n;
    destruct (all_uploaded f n i) eqn:E.
  - intros _. split; [done|]. unfold all_uploaded in E. apply Z.eqb_eq in E. intros j Hj.
    apply (stored_file _ _ f); [done|done|]. rewrite Forall_forall in Hall. apply Hall.
    apply (all_indexes _ n); [done| |done|done]. apply Forall_forall. intros k Hk. apply (Hall k Hk).
  - intros H. by destruct Hst.
  - intros H. by destruct H.
  - intros _. split; [done|]. rewrite Forall_forall in Hall |- *. intros j Hj. destruct (Hall j Hj). split; [done|].
    by apply (stored_file _ _ f).
Qed.

(** The ways [upload_chunk] ends. *)
Inductive upload_outcome now req c pkg f s : result PackageFile -> pkg_server P -> Prop :=
| uo_refused e : upload_outcome now req c pkg f s (Err e) s
| uo_stored_already : ck_Index c ∈ pf_UploadedChunks f -> upload_outcome now req c pkg f s (Ok f) s
| uo_chunk_failed total e kv1 s' :
    calcTotalChunks (pf_Size f) (pf_ChunkSize f) = Ok total -> chunk_valid f total c = Ok tt ->
    (forall k, kv_read kv1 k = kv_read (ps_kv s) k) -> ps_kv s' = kv1 ->
    upload_outcome now req c pkg f s (Err e) s'
| uo_written total n kv1 chunk kv2 r2 r s' :
    calcTotalChunks (pf_Size f) (pf_ChunkSize f) = Ok total -> chunk_valid f total c = Ok tt ->
    ck_Index c ∉ pf_UploadedChunks f ->
    ck_Crc32 chunk = ck_Crc32 c -> ck_Data chunk = ck_Data c ->
    kv_write (ps_kv s) kv_default (NsPackageFileChunk (pq_Id req) (ck_Index c)) (PkgChunk chunk) = (kv1, KvOk n) ->
    kv_write kv1 kv_default (NsPackageInfo (pq_Id req))
      (PkgInfo {| pg_Metadata := pg_Metadata pkg; pg_Release := pg_Release pkg;
                  pg_File := Some (chunk_added now total (ck_Index c) f) |}) = (kv2, r2) ->
    (is_ok r = true <-> kv_ok r2 = true) -> (is_ok r = true -> r = Ok (chunk_added now total (ck_Index c) f)) ->
    ps_kv s' = kv2 ->
    upload_outcome now req c pkg f s r s'.

Lemma upload_chunk_outcome now req c pkg f s r s' : upload_chunk now req c pkg f s = (r, s') ->
  upload_outcome now req c pkg f s r s'.
Proof.
  unfold upload_chunk. destruct (calcTotalChunks _ _) as [total|e] eqn:Et; [|intros [= <- <-]; constructor].
  destruct (chunk_valid f total c) as [[]|e] eqn:Ev; [|intros [= <- <-]; constructor].
  case_bool_decide as Hin; [intros [= <- <-]; by constructor|].
  destruct (kv_write (ps_kv s) _ _ _) as [kv1 r1] eqn:E1.
  destruct r1 as [n| |e].
  2-3: intros [= <- <-]; eapply uo_chunk_failed; [exact Et|exact Ev|eapply kv_write_fail; [exact E1|done]|done].
  cbn [ps_kv with_mutex with_kv].
  destruct (kv_write kv1 _ _ _) as [kv2 r2] eqn:E2.
  destruct r2 as [n2| |e]; intros [= <- <-].
  all: eapply uo_written; [exact Et|exact Ev|exact Hin| | |exact E1|exact E2|done|done|done]; done.
Qed.

Lemma chunk_valid_ok f total c : chunk_valid f total c = Ok tt <->
  0 <= ck_Index c < total /\ blen (ck_bytes c) = chunk_size_of f total (ck_Index c) /\ ChecksumIEEE (ck_bytes c) = ck_Crc32 c.
Proof.
  unfold chunk_valid. destruct (Z.ltb_spec (ck_Index c) 0), (Z.leb_spec total (ck_Index c)); cbn [orb]; try (split; [done|lia]).
  destruct (Z.eqb_spec (blen (ck_bytes c)) (chunk_size_of f total (ck_Index c))); cbn [negb]; [|by split; [|tauto]].
  destruct (Z.eqb_spec (ChecksumIEEE (ck_bytes c)) (ck_Crc32 c)); cbn [negb]; [|by split; [|tauto]].
  split; [lia|done].
Qed.

(** A written chunk leaves the record of its package good. *)
Lemma upload_chunk_inv now req c pkg f s r s' :
  upload_chunk now req c pkg f s = (r, s') -> ck_Data c <> None ->
  file_ok (ps_kv s) (pq_Id req) f -> pf_State f <> PackageFileStateComplete ->
  (* the record in the database is the one the upload started from, or there is a
     result and the upload starts anew *)
  (forall p, read_info (ps_kv s) (pq_Id req) = KvOk (Some p) -> pg_File p = Some f) \/
    (is_ok r = true /\ pf_UploadedChunks f = []) ->
  info_ok (ps_kv s') (pq_Id req).
Proof.
  intros Hup Hd Hok Hst Hcur. apply upload_chunk_outcome in Hup.
  assert (Hsame : (forall p, read_info (ps_kv s) (pq_Id req) = KvOk (Some p) -> pg_File p = Some f) -> info_ok (ps_kv s) (pq_Id req)).
  { intros Hc p Hp. exists f. by rewrite (Hc p). }
  destruct Hup as [e|Hin|total e kv1 s' Ht Hv Hr Hk|total n kv1 chunk kv2 r2 r s' Ht Hv Hni Ec Edt E1 E2 Hrr Hro Hk].
  - destruct Hcur as [Hc|[? _]]; [by apply Hsame|done].
  - destruct Hcur as [Hc|[_ Hc]]; [by apply Hsame|]. rewrite Hc in Hin. set_solver.
  - destruct Hcur as [Hc|[? _]]; [|done]. rewrite Hk. apply (info_ok_frame (ps_kv s)); [by rewrite Hr|by intros; rewrite Hr|].
    by apply Hsame.
  - rewrite Hk. apply chunk_valid_ok in Hv as (Hi & Hl & Hcr).
    pose proof (write_reads _ _ _ _ _ E2) as R2. pose proof (write_reads _ _ _ _ _ E1) as R1.
    assert (Hn : total = chunk_count (pf_Size f) (pf_ChunkSize f)).
    { destruct Hok as [Hs Hcs _ _]. destruct (total_chunks (pf_Size f) (pf_ChunkSize f)) as (t & Et & _ & Et');
        [done|by rewrite Hcs|]. rewrite Ht in Et. injection Et as ->. apply Et'. lia. }
    subst total. set (n0 := chunk_count _ _) in *.
    assert (Hsi : stored kv2 (pq_Id req) f n0 (ck_Index c)).
    { eexists _, chunk. rewrite R2 by done. apply kv_write_ok in E1 as (Er & _). rewrite Er. unfold ck_bytes in *.
      rewrite Edt, Ec. done. }
    assert (Hfr : forall j, 0 <= j -> j <> ck_Index c ->
      kv_read kv2 (NsPackageFileChunk (pq_Id req) j) = kv_read (ps_kv s) (NsPackageFileChunk (pq_Id req) j)).
    { intros j Hj Hne. rewrite R2 by done. apply R1. intros H. by apply chunk_key_inj in H as [_ ?]; [|lia..]. }
    destruct (kv_ok r2) eqn:Er2.
    + destruct r2 as [n2| |]; [|done..]. apply kv_write_ok in E2 as (Er & _). intros p Hp. unfold read_info in Hp.
      rewrite Er in Hp. injection Hp as <-. eexists. split; [done|]. by apply (file_ok_added (ps_kv s)).
    + destruct Hcur as [Hc|[Hrk _]]; [|by apply Hrr in Hrk].
      intros p Hp. exists f. unfold read_info in Hp. rewrite (kv_write_fail _ _ _ _ _ _ E2) in Hp by (by intros m ->).
      rewrite R1 in Hp by done. split; [by apply Hc|]. eapply file_ok_frame; [|exact Hok].
      intros j Hj [?|Hju]; [done|]. apply Hfr; [lia|]. by intros ->.
Qed.

(** ** Requests *)

(** The size in a request is an [int64]. *)
Definition req_wf (req : PackagePushRequest) : Prop :=
  forall p f, pq_Package req = Some p -> pg_File p = Some f -> pf_Size f < 2 ^ 63.

Lemma push_valid_data req c : push_valid req = Ok c -> pq_Chunk req = Some c /\ ck_Data c <> None.
Proof.
  unfold push_valid. case_bool_decide; [done|]. destruct (pq_Chunk req) as [c'|]; [|done]. case_bool_decide as Hd; [done|].
  destruct (ck_Index c' =? 0); [intros (? & _ & [= <-])%rbind_ok|intros [= <-]]; done.
Qed.

Lemma first_upload kv now req c pkg : push_valid req = Ok c -> ck_Index c = 0 -> req_wf req -> new_upload now req = Ok pkg ->
  exists f, pg_File pkg = Some f /\ file_ok kv (pq_Id req) f /\ pf_State f <> PackageFileStateComplete /\
    pf_UploadedChunks f = [] /\ pg_Metadata pkg = pq_Package req ≫= pg_Metadata /\ pg_Release pkg = pq_Package req ≫= pg_Release.
Proof.
  intros Hv Hi Hwf Hn. unfold new_upload in Hn. destruct (pq_Package req) as [p|] eqn:Ep; [|done].
  destruct (pg_File p) as [pf|] eqn:Ef; [|done]. injection Hn as <-. eexists. split; [done|].
  assert (Hf : first_chunk_valid req = Ok tt).
  { unfold push_valid in Hv. case_bool_decide; [done|]. destruct (pq_Chunk req) as [c'|]; [|done]. case_bool_decide; [done|].
    destruct (ck_Index c' =? 0) eqn:E0; [|injection Hv as ->; rewrite Hi in E0; done].
    apply rbind_ok in Hv as ([] & Hv & _). exact Hv. }
  unfold first_chunk_valid in Hf. rewrite Ep, Ef in Hf.
  destruct (pq_TotalSize req <=? 0); [done|]. destruct (PackageMaxSize <? _); [done|].
  destruct (match pg_Metadata p with Some _ => _ | None => _ end); [done|]. case_bool_decide; [done|].
  apply rbind_ok in Hf as (_ & _ & Hf). apply rbind_ok in Hf as (_ & _ & Hf).
  destruct (Z.leb_spec (pf_Size pf) 0); [done|]. destruct (Z.eqb_spec (pq_ChunkSize req) PackageFileChunkSizeDefault); [|done].
  specialize (Hwf p pf Ep Ef). split_and!; [|done|done|done|done]. split; cbn; [lia|done|done|].
  intros _. split; [apply NoDup_nil_2|done].
Qed.

Lemma push_inv who now req s r s' : info_ok (ps_kv s) (pq_Id req) -> req_wf req -> PackagePush who now req s = (r, s') ->
  pq_Overwrite req = false \/ is_ok r = true -> info_ok (ps_kv s') (pq_Id req).
Proof.
  intros Hinv Hwf. unfold PackagePush.
  destruct (let? _ := _ in push_valid req) as [c|e] eqn:Ev; [|by intros [= <- <-]].
  apply rbind_ok in Ev as (_ & _ & Ev). destruct (push_valid_data _ _ Ev) as [_ Hd]. cbn [ps_kv with_mutex].
  unfold open_upload. destruct (read_info _ _) as [[p|]| |e] eqn:Er; [|by intros [= <- <-]| |by intros [= <- <-]].
  - destruct (Hinv _ Er) as (f & Hf & Hok). rewrite Hf. case_bool_decide as Hst; cbn [negb].
    + destruct (pq_Overwrite req) eqn:Eo; cbn [negb]; [|by intros [= <- <-]].
      destruct (Z.eqb_spec (ck_Index c) 0) as [E0|]; cbn [negb]; [|by intros [= <- <-]].
      destruct (calcTotalChunks _ _) as [old|e]; [|by intros [= <- <-]].
      destruct (new_upload now req) as [pkg|e] eqn:En; [|by intros [= <- <-] [?|?]].
      destruct (first_upload (fst (delete_chunks (ps_kv s) (pq_Id req) old)) now req c pkg Ev E0 Hwf En)
        as (f' & Hf' & Hok' & Hst' & Hu' & _).
      rewrite Hf'. intros Hup [?|Hr]; [done|]. eapply upload_chunk_inv; [exact Hup|done|exact Hok'|done|by right].
    + intros Hup _. eapply upload_chunk_inv; [exact Hup|done|exact Hok|done|].
      left. cbn [ps_kv with_mutex]. intros p' Hp'. rewrite Er in Hp'. by injection Hp' as <-.
  - destruct (Z.eqb_spec (ck_Index c) 0) as [E0|]; [|by intros [= <- <-]].
    destruct (new_upload now req) as [pkg|e] eqn:En; [|by intros [= <- <-]].
    destruct (first_upload (ps_kv s) now req c pkg Ev E0 Hwf En) as (f' & Hf' & Hok' & Hst' & Hu' & _).
    rewrite Hf'. rewrite bool_decide_false by done. cbn [negb]. intros Hup _.
    eapply upload_chunk_inv; [exact Hup|done|exact Hok'|done|].
    left. cbn [ps_kv with_mutex]. intros p' Hp'. by rewrite Er in Hp'.
Qed.

(** A request leaves the keys of other packages alone. *)
Definition other_key (id k : string) : Prop := k <> NsPackageInfo id /\ forall i, 0 <= i -> k <> NsPackageFileChunk id i.

Lemma upload_chunk_reads now req c pkg f s r s' k : upload_chunk now req c pkg f s = (r, s') -> other_key (pq_Id req) k ->
  kv_read (ps_kv s') k = kv_read (ps_kv s) k.
Proof.
  intros Hup [Hk1 Hk2]. apply upload_chunk_outcome in Hup.
  destruct Hup as [e|Hin|total e kv1 s' Ht Hv Hr Hk|total n kv1 chunk kv2 r2 r s' Ht Hv Hni Ec Edt E1 E2 Hrr Hro Hk]; [done|done|by rewrite Hk|].
  apply chunk_valid_ok in Hv as (Hi & _). rewrite Hk, (write_reads _ _ _ _ _ E2) by done. apply (write_reads _ _ _ _ _ E1), Hk2. lia.
Qed.

Lemma push_reads who now req s r s' k : PackagePush who now req s = (r, s') -> other_key (pq_Id req) k ->
  kv_read (ps_kv s') k = kv_read (ps_kv s) k.
Proof.
  intros Hp Ho. unfold PackagePush in Hp. destruct (let? _ := _ in push_valid req) as [c|e]; [|by injection Hp as <- <-].
  destruct (open_upload _ _ _ _) as [pkg|e]; [|by injection Hp as <- <-].
  destruct (pg_File pkg) as [f|]; [|by injection Hp as <- <-].
  destruct (negb _); [by rewrite (upload_chunk_reads _ _ _ _ _ _ _ _ _ Hp Ho)|].
  destruct (negb _); [by injection Hp as <- <-|]. destruct (negb _); [by injection Hp as <- <-|].
  destruct (calcTotalChunks _ _) as [old|e]; [|by injection Hp as <- <-].
  assert (E : kv_read (fst (delete_chunks (ps_kv s) (pq_Id req) old)) k = kv_read (ps_kv s) k)
    by (apply delete_chunks_reads; intros i Hi; apply Ho; lia).
  destruct (new_upload now req) as [pkg'|e]; [|by injection Hp as <- <-].
  destruct (pg_File pkg') as [f'|]; [|by injection Hp as <- <-].
  by rewrite (upload_chunk_reads _ _ _ _ _ _ _ _ _ Hp Ho).
Qed.

Lemma delete_request_reads who id s r s' k : PackageDelete who id s = (r, s') -> other_key id k ->
  kv_read (ps_kv s') k = kv_read (ps_kv s) k.
Proof.
  intros Hp Ho. unfold PackageDelete in Hp. destruct (allow_leader _ _); [|by injection Hp as <- <-].
  case_bool_decide; [by injection Hp as <- <-|]. case_bool_decide; [by injection Hp as <- <-|].
  destruct (read_info (ps_kv s) id) as [[p|]| |]; [|by injection Hp as <- <-..].
  destruct (match pg_File p with Some _ => _ | None => _ end) as [total|]; [|by injection Hp as <- <-].
  assert (E : kv_read (fst (delete_chunks (ps_kv s) id total)) k = kv_read (ps_kv s) k)
    by (apply delete_chunks_reads; intros i Hi; apply Ho; lia).
  destruct (delete_chunks (ps_kv s) id total) as [kv1 del]. cbn [fst] in E.
  destruct (kv_delete kv1 (NsPackageInfo id)) as [kv2 r2] eqn:E2. pose proof (delete_reads _ _ _ _ E2) as R2.
  destruct r2; injection Hp as <- <-; cbn [ps_kv with_kv]; rewrite R2 by apply Ho; exact E.
Qed.

Lemma other_frame kv kv' id id' : id <> id' -> (forall k, other_key id k -> kv_read kv' k = kv_read kv k) -> info_ok kv id' -> info_ok kv' id'.
Proof. intros Hne E. apply (info_ok_other kv kv' id); [done|]. intros k H1 H2. by apply E. Qed.

Lemma delete_inv who id s n s' : PackageDelete who id s = (Ok n, s') -> info_ok (ps_kv s') id.
Proof.
  unfold PackageDelete. destruct (allow_leader _ _); [|done].
  case_bool_decide; [done|]. case_bool_decide; [done|].
  destruct (read_info (ps_kv s) id) as [[p|]| |] eqn:Er; [|done..].
  destruct (match pg_File p with Some _ => _ | None => _ end) as [total|]; [|done].
  destruct (delete_chunks (ps_kv s) id total) as [kv1 del].
  destruct (kv_delete kv1 (NsPackageInfo id)) as [kv2 r2] eqn:E2.
  assert (Hnone : kv_read kv2 (NsPackageInfo id) = KvNotFound -> info_ok kv2 id).
  { intros Hrd p'. unfold read_info. by rewrite Hrd. }
  destruct r2 as [[]| |]; [| |done]; intros [= _ <-]; apply Hnone.
  - apply kv_delete_ok in E2 as [Hdel _]. by apply Hdel.
  - pose proof (kv_delete_notfound _ _ _ E2) as Hnf. apply kv_delete_ok in E2 as (_ & E & _). by rewrite E.
Qed.

(** ** Downloads *)

Definition may_download (who : caller) : Prop :=
  cl_leader who = true /\ exists ak, cl_key who = Some ak /\ authAllow (Some ak) (AuthScope_Host_Write +:+ ":" +:+ ak_Id ak) = Ok tt.

Lemma download_chunks_ok (chunk : Z -> result PackageFileChunk) (D : Z -> bytes) l :
  Forall (fun i => exists c, chunk i = Ok c /\ ck_Data c = Some (D i) /\ ChecksumIEEE (D i) = ck_Crc32 c) l ->
  download_chunks chunk l = Ok (concat (map D l)).
Proof.
  induction 1 as [|i l (c & Hc & Hd & Hcr) _ IH]; [done|]. cbn [download_chunks]. rewrite Hc. cbn [rbind].
  rewrite Hd, Hcr, Z.eqb_refl. cbn [negb]. by rewrite IH.
Qed.

Lemma PackageChunk_stored who id pkg f n i s : may_download who -> id <> "" ->
  read_info (ps_kv s) id = KvOk (Some pkg) -> pg_File pkg = Some f -> pf_State f = PackageFileStateComplete ->
  calcTotalChunks (pf_Size f) (pf_ChunkSize f) = Ok n -> 0 <= i < n ->
  PackageChunk who id i s =
  match kv_read (ps_kv s) (NsPackageFileChunk id i) with
  | KvNotFound => Err "chunk not found"
  | KvErr e => Err e
  | KvOk it => match it_value it ≫= pkg_chunk with Some c => Ok c | None => Err "failed to decode chunk data" end
  end.
Proof.
  intros (Hl & ak & Hk & Ha) Hid Hr Hf Hst Ht Hi. unfold PackageChunk. rewrite Hl, Hk, Ha. cbn [negb rbind].
  rewrite bool_decide_false by done. destruct (Z.ltb_spec i 0); [lia|]. rewrite Hr, Hf, bool_decide_true by done. cbn [negb].
  rewrite Ht. cbn [rbind]. destruct (Z.leb_spec n i); [lia|done].
Qed.

(** The total size of the chunks from an index on. *)
Lemma chunks_length f (D : Z -> bytes) (n := chunk_count (pf_Size f) (pf_ChunkSize f)) m i :
  0 < pf_Size f < 2 ^ 63 -> 0 < pf_ChunkSize f -> 0 <= i -> n = i + Z.of_nat m ->
  Forall (fun j => blen (D j) = chunk_size_of f n j) (seqZ i (Z.of_nat m)) ->
  blen (concat (map D (seqZ i (Z.of_nat m)))) = Z.max 0 (pf_Size f - i * pf_ChunkSize f).
Proof.
  intros Hs Hc. pose proof (chunk_count_bounds (pf_Size f) (pf_ChunkSize f) (proj1 Hs) Hc) as B. fold n in B.
  revert i. induction m as [|m IH]; intros i Hi Hn.
  - intros _. assert (i = n) as -> by lia. destruct B as (_ & _ & B). rewrite Z.max_l by lia. done.
  - rewrite seqZ_cons by lia. intros [Hd Hrest]%Forall_cons. cbn [map concat]. unfold blen in *. rewrite length_app, Nat2Z.inj_add.
    pose proof (chunk_size_exact f i Hs Hc) as E. cbn zeta in E. fold n in E. rewrite Hd, E by lia. replace (Z.pred (Z.of_nat (S m))) with (Z.of_nat m) in * by lia.
    rewrite IH; [|lia..|exact Hrest]. unfold Z.succ. nia.
Qed.

Lemma fetch_complete who id pkg f s : info_ok (ps_kv s) id -> may_download who -> id <> "" ->
  read_info (ps_kv s) id = KvOk (Some pkg) -> pg_File pkg = Some f -> pf_State f = PackageFileStateComplete ->
  exists file, fetch_package who id f s = Ok file /\ blen file = pf_Size f.
Proof.
  intros Hinv Hw Hid Hr Hf Hst. destruct (Hinv pkg Hr) as (f' & Hf' & [Hs Hc Hd _]). rewrite Hf in Hf'. injection Hf' as <-.
  destruct (Hd Hst) as [Ht Ha]. set (n := chunk_count _ _) in *. unfold fetch_package. rewrite Ht. cbn [rbind].
  set (D := fun i => match PackageChunk who id i s with Ok c => ck_bytes c | Err _ => [] end).
  assert (Hn : 0 < n) by (apply chunk_count_bounds; rewrite ?Hc; unfold PackageFileChunkSizeDefault; lia).
  assert (HD : Forall (fun i => (exists c, PackageChunk who id i s = Ok c /\ ck_Data c = Some (D i) /\ ChecksumIEEE (D i) = ck_Crc32 c) /\
                 blen (D i) = chunk_size_of f n i) (seqZ 0 n)).
  { apply Forall_forall. intros i Hi%elem_of_seqZ. destruct (Ha i) as (it & c & Erd & Ev & Hdt & Hl & Hcr); [lia|].
    assert (Ec : PackageChunk who id i s = Ok c) by (rewrite (PackageChunk_stored _ _ _ _ _ _ _ Hw Hid Hr Hf Hst Ht), Erd, Ev by lia; done).
    unfold D. rewrite Ec. split; [|done]. exists c. split_and!; [done| |done]. unfold ck_bytes. by destruct (ck_Data c). }
  exists (concat (map D (seqZ 0 n))). split.
  - apply download_chunks_ok. eapply Forall_impl; [exact HD|]. by intros i [H _].
  - rewrite <- (Z2Nat.id n) by lia. rewrite (chunks_length f); [| |rewrite Hc; done|done|fold n; lia|]; [|done|].
    + lia.
    + rewrite Z2Nat.id by lia. eapply Forall_impl; [exact HD|]. by intros i [_ H].
Qed.

(** ** Histories *)

(** What happens to a server while a package is to stay whole: requests, with any outcome
    of the database, and restarts, which forget the mutexes.  A deletion of the package
    and a push that is to overwrite it must be answered with success or leave the database
    as it was; requests on other packages may fail in any way. *)
Inductive pkg_step (id : string) : pkg_server P -> pkg_server P -> Prop :=
| step_push who now req s r s' : PackagePush who now req s = (r, s') -> req_wf req ->
    pq_Id req <> id \/ pq_Overwrite req = false \/ is_ok r = true \/ ps_kv s' = ps_kv s -> pkg_step id s s'
| step_delete who id' s r s' : PackageDelete who id' s = (r, s') ->
    id' <> id \/ is_ok r = true \/ ps_kv s' = ps_kv s -> pkg_step id s s'
| step_restart s : pkg_step id s (with_mutex ∅ s).

Lemma pkg_steps_inv id s s' : info_ok (ps_kv s) id -> rtc (pkg_step id) s s' -> info_ok (ps_kv s') id.
Proof.
  intros Hi Hst. induction Hst as [s|s s1 s' Hstep _ IH]; [done|]. apply IH.
  destruct Hstep as [who now req s r s1 Hp Hwf Hor|who id' s r s1 Hp Hor|s].
  - destruct (decide (pq_Id req = id)) as [<-|Hne].
    + destruct Hor as [?|[?|[?|E]]]; [done|eapply push_inv; eauto..|by rewrite E].
    + eapply other_frame; [exact Hne| |exact Hi]. intros k. by apply (push_reads _ _ _ _ _ _ _ Hp).
  - destruct (decide (id' = id)) as [->|Hne].
    + destruct Hor as [?|[Hr|E]]; [done| |by rewrite E]. destruct r as [n|e]; [|done]. by eapply delete_inv.
    + eapply other_frame; [exact Hne| |exact Hi]. intros k. by apply (delete_request_reads _ _ _ _ _ _ Hp).
  - exact Hi.
Qed.
End invariant.

(** C14: A package that the leader calls complete downloads in full: a host receives every
    chunk with its checksum, and the bytes add up to the size of the file.  So it is after
    any history of pushes, deletions and restarts with a database that may fail, in which
    the deletions of this package and the pushes that were to overwrite it were answered
    with success or left the database as it was; those of other packages may fail in any
    way. *)
Theorem complete_package_whole (P : Type) (K : Kv P pkg_value) (KL : KvLaws K) (V : Semver) (SS : SortSlice)
    (SSL : SortSliceLaws SS) (s0 s : pkg_server P) (host : caller) (id : string) (pkg : Package) (f : PackageFile) :
  read_info (ps_kv s0) id = KvNotFound -> rtc (pkg_step id) s0 s ->
  may_download host -> id <> "" ->
  read_info (ps_kv s) id = KvOk (Some pkg) -> pg_File pkg = Some f -> pf_State f = PackageFileStateComplete ->
  exists file, fetch_package host id f s = Ok file /\ blen file = pf_Size f.
Proof.
  intros H0 Hst Hw Hid Hr Hf Hc. eapply fetch_complete; [|done..]. eapply pkg_steps_inv; [|exact Hst].
  intros p Hp. by rewrite H0 in Hp.
Qed.

Lemma complete_package_whole_witness :
  let req := push_request "nginx_1.0.0_linux_amd64" (ex_header "1.0.0" "linux") false ex_file 0 in
  let s := snd (PackagePush ex_user 100 req ex_server) in
  let f := {| pf_State := "complete"; pf_Size := 5; pf_ChunkSize := 2 ^ 20; pf_UploadedChunks := []; pf_Created := 100; pf_Updated := 100 |} in
  exists file, fetch_package ex_user "nginx_1.0.0_linux_amd64" f s = Ok file /\ blen file = 5.
Proof.
  set (pkg := {| pg_Metadata := pg_Metadata (ex_header "1.0.0" "linux"); pg_Release := pg_Release (ex_header "1.0.0" "linux");
     pg_File := Some {| pf_State := "complete"; pf_Size := 5; pf_ChunkSize := 2 ^ 20; pf_UploadedChunks := []; pf_Created := 100; pf_Updated := 100 |} |}).
  apply (complete_package_whole (mem_store pkg_value) _ _ _ _ _ ex_server _ ex_user "nginx_1.0.0_linux_amd64" pkg).
  - reflexivity.
  - apply rtc_once. eapply step_push; [apply surjective_pairing| |right; by left].
    intros p f [= <-] [= <-]. vm_compute. reflexivity.
  - split; [reflexivity|]. eexists. split; reflexivity.
  - discriminate.
  - vm_compute. reflexivity.
  - reflexivity.
  - reflexivity.
Defined.
