(* ===== verification/PackageTransfer.v ===== *)
(** What the command line pushes is what a host downloads, and how a complete package is
    lost. *)
From Stdlib Require Import ZArith Lia Ascii Sorted.
From S2P Require Import Prelude GoStrings Ns Kv AppVersion Auth Packages PackageStore.
Local Open Scope string_scope.
Local Open Scope Z_scope.
Local Open Scope go_scope.

(** * A file and its chunks *)

Lemma file_chunk_length file cs i : 0 <= cs -> 0 <= i -> i * cs <= blen file ->
  blen (file_chunk file cs i) = Z.min cs (blen file - i * cs).
Proof. intros Hc Hi Hb. unfold file_chunk, blen in *. rewrite length_take, length_drop. nia. Qed.

Lemma file_chunks_concat file cs m i : 0 < cs -> 0 <= i -> blen file <= (i + Z.of_nat m) * cs ->
  concat (map (file_chunk file cs) (seqZ i (Z.of_nat m))) = drop (Z.to_nat (i * cs)) file.
Proof.
  intros Hc. revert i. induction m as [|m IH]; intros i Hi Hb.
  - cbn. symmetry. apply drop_ge. unfold blen in Hb. nia.
  - rewrite seqZ_cons by lia. cbn [map concat]. replace (Z.pred (Z.of_nat (S m))) with (Z.of_nat m) by lia.
    rewrite IH by nia. unfold file_chunk.
    replace (Z.to_nat (Z.succ i * cs)) with (Z.to_nat (i * cs) + Z.to_nat cs)%nat by nia.
    by rewrite <- drop_drop, take_drop.
Qed.

(** A slice that is sorted is left as it is. *)
Lemma sort_sorted_Z `{SortSliceLaws} (l : list Z) : StronglySorted Z.le l -> sort_slice (fun x y => x <? y) l = l.
Proof.
  intros Hl. pose proof (sort_slice_sorted Z (fun x y => x <? y) l (strict_weak_key (fun x => x))) as Hs.
  apply (StronglySorted_unique Z.le); [|done|apply sort_slice_perm].
  induction Hs as [|x k _ IH Hx]; constructor; [done|]. eapply Forall_impl; [exact Hx|]. cbn. lia.
Qed.

Lemma seqZ_sorted i n : StronglySorted Z.le (seqZ i n).
Proof.
  destruct (Z.le_ge_cases n 0) as [|Hn]; [rewrite seqZ_nil by lia; constructor|].
  rewrite <- (Z2Nat.id n) by lia. generalize (Z.to_nat n) as m. clear. intros m. revert i.
  induction m as [|m IH]; intros i; [constructor|]. rewrite seqZ_cons by lia.
  replace (Z.pred (Z.of_nat (S m))) with (Z.of_nat m) by lia. constructor; [apply IH|].
  apply Forall_forall. intros x Hx%elem_of_seqZ. lia.
Qed.

Section transfer.
#[local] Opaque file_chunk ChecksumIEEE.
Context {P : Type} {K : Kv P pkg_value} {KL : KvLaws K} {KR : KvReliable K} {V : Semver} {SS : SortSlice} {SSL : SortSliceLaws SS} {MR : MapRange}.
Implicit Types (kv : P) (s : pkg_server P) (f : PackageFile).

Lemma uploaded_with_next f i : 0 <= i -> pf_UploadedChunks f = seqZ 0 i -> uploaded_with f i = seqZ 0 (i + 1).
Proof.
  intros Hi Hu. unfold uploaded_with. rewrite Hu. replace [i] with (seqZ (0 + i) 1) by (rewrite seqZ_cons by lia; by rewrite seqZ_nil by lia).
  rewrite <- seqZ_app by lia. apply sort_sorted_Z, seqZ_sorted.
Qed.

(** ** An upload under way *)

Definition has_chunk kv id file i : Prop := exists it c,
  kv_read kv (NsPackageFileChunk id i) = KvOk it /\ it_value it = Some (PkgChunk c) /\
  ck_Data c = Some (file_chunk file PackageFileChunkSizeDefault i) /\
  ChecksumIEEE (file_chunk file PackageFileChunkSizeDefault i) = ck_Crc32 c.

(** The first [i] chunks of the file are there, and the record says so. *)
Definition uploading kv id (header : Package) file i : Prop :=
  (exists p f, read_info kv id = KvOk (Some p) /\ pg_File p = Some f /\
     pg_Metadata p = pg_Metadata header /\ pg_Release p = pg_Release header /\
     pf_State f <> PackageFileStateComplete /\ pf_Size f = blen file /\ pf_ChunkSize f = PackageFileChunkSizeDefault /\
     pf_UploadedChunks f = seqZ 0 i) /\
  forall j, 0 <= j < i -> has_chunk kv id file j.
Definition uploaded kv id (header : Package) file (n : Z) : Prop :=
  (exists p f, read_info kv id = KvOk (Some p) /\ pg_File p = Some f /\
     pg_Metadata p = pg_Metadata header /\ pg_Release p = pg_Release header /\
     pf_State f = PackageFileStateComplete /\ pf_Size f = blen file /\ pf_ChunkSize f = PackageFileChunkSizeDefault) /\
  forall j, 0 <= j < n -> has_chunk kv id file j.

Definition fits (file : bytes) : Prop := 0 < blen file <= PackageMaxSize.
Definition chunks_of (file : bytes) : Z := chunk_count (blen file) PackageFileChunkSizeDefault.

Lemma fits_total file : fits file ->
  calcTotalChunks (blen file) PackageFileChunkSizeDefault = Ok (chunks_of file) /\ 0 < chunks_of file /\
  blen file <= chunks_of file * PackageFileChunkSizeDefault /\
  (chunks_of file - 1) * PackageFileChunkSizeDefault < blen file.
Proof.
  unfold fits, PackageMaxSize. intros [H1 H2].
  destruct (total_chunks (blen file) PackageFileChunkSizeDefault) as (t & Et & Eq & _);
    [lia|unfold PackageFileChunkSizeDefault; lia|].
  rewrite Et, Eq by (unfold PackageFileChunkSizeDefault; lia).
  pose proof (chunk_count_bounds (blen file) PackageFileChunkSizeDefault) as B.
  unfold chunks_of. unfold PackageFileChunkSizeDefault in *. split; [done|]. lia.
Qed.

Lemma has_chunk_frame kv kv' id file j : kv_read kv' (NsPackageFileChunk id j) = kv_read kv (NsPackageFileChunk id j) ->
  has_chunk kv id file j -> has_chunk kv' id file j.
Proof. intros E (it & c & H). exists it, c. by rewrite E. Qed.

Definition request_chunk file i : PackageFileChunk :=
  {| ck_Index := i; ck_Crc32 := ChecksumIEEE (file_chunk file PackageFileChunkSizeDefault i);
     ck_Data := Some (file_chunk file PackageFileChunkSizeDefault i); ck_Uploaded := 0 |}.

Lemma request_chunk_valid f file i : fits file -> 0 <= i < chunks_of file ->
  pf_Size f = blen file -> pf_ChunkSize f = PackageFileChunkSizeDefault ->
  chunk_valid f (chunks_of file) (request_chunk file i) = Ok tt.
Proof.
  intros Hfit Hi Hsz Hcs. destruct (fits_total file Hfit) as (_ & Hn & Hle & Hlt).
  apply chunk_valid_ok. split; [exact Hi|]. unfold ck_bytes, request_chunk. cbn [ck_Data default ck_Index ck_Crc32]. split; [|reflexivity].
  pose proof (chunk_size_exact f i) as E. rewrite Hsz, Hcs in E. fold (chunks_of file) in E.
  assert (E' := E ltac:(unfold fits, PackageMaxSize in Hfit; lia) ltac:(done) Hi). rewrite E'. apply file_chunk_length; [done|lia|].
  unfold PackageFileChunkSizeDefault in *. nia.
Qed.

(** A chunk that is there already changes nothing. *)
Lemma upload_chunk_again now req f pkg file i j s : fits file -> 0 <= j < i -> i < chunks_of file ->
  pf_Size f = blen file -> pf_ChunkSize f = PackageFileChunkSizeDefault -> pf_UploadedChunks f = seqZ 0 i ->
  upload_chunk now req (request_chunk file j) pkg f s = (Ok f, s).
Proof.
  intros Hfit Hj Hi Hsz Hcs Hu. destruct (fits_total file Hfit) as (Et & _).
  unfold upload_chunk. rewrite Hsz, Hcs, Et, request_chunk_valid by (done || lia).
  rewrite bool_decide_true; [done|]. rewrite Hu. apply elem_of_seqZ. cbn. lia.
Qed.

(** One chunk more. *)
Lemma upload_chunk_next now id header pkg f ow file i s :
  fits file -> 0 <= i < chunks_of file ->
  pg_Metadata pkg = pg_Metadata header -> pg_Release pkg = pg_Release header ->
  pf_State f <> PackageFileStateComplete -> pf_Size f = blen file -> pf_ChunkSize f = PackageFileChunkSizeDefault ->
  pf_UploadedChunks f = seqZ 0 i -> (forall j, 0 <= j < i -> has_chunk (ps_kv s) id file j) ->
  exists f' s', upload_chunk now (push_request id header ow file i) (request_chunk file i) pkg f s = (Ok f', s') /\
    if bool_decide (i + 1 = chunks_of file)
    then pf_State f' = PackageFileStateComplete /\ uploaded (ps_kv s') id header file (i + 1)
    else pf_State f' <> PackageFileStateComplete /\ uploading (ps_kv s') id header file (i + 1).
Proof.
  intros Hfit Hi Hm Hrl Hst Hsz Hcs Hu Hch. set (c := request_chunk file i). destruct (fits_total file Hfit) as (Et & Hn & Hle & Hlt).
  unfold upload_chunk. rewrite Hsz, Hcs, Et. cbn [pq_Id push_request].
  unfold c at 1. rewrite request_chunk_valid by done. rewrite bool_decide_false by (rewrite Hu; intros H%elem_of_seqZ; cbn in H; lia).
  destruct (kv_write_total (ps_kv s) kv_default (NsPackageFileChunk id (ck_Index c))
    (PkgChunk {| ck_Index := ck_Index c; ck_Crc32 := ck_Crc32 c; ck_Data := ck_Data c; ck_Uploaded := now |}) eq_refl ltac:(done)) as (kv1 & n1 & E1).
  rewrite E1. cbn [ps_kv with_mutex with_kv].
  destruct (kv_write_total kv1 kv_default (NsPackageInfo id)
    (PkgInfo {| pg_Metadata := pg_Metadata pkg; pg_Release := pg_Release pkg; pg_File := Some (chunk_added now (chunks_of file) (ck_Index c) f) |}) eq_refl ltac:(done))
    as (kv2 & n2 & E2).
  rewrite E2. eexists _, _. split; [reflexivity|]. cbn [ps_kv with_mutex with_kv].
  pose proof (write_reads _ _ _ _ _ E1) as R1. pose proof (write_reads _ _ _ _ _ E2) as R2.
  assert (Hall : forall j, 0 <= j < i + 1 -> has_chunk kv2 id file j).
  { intros j Hj. destruct (decide (j = i)) as [->|Hne].
    - apply kv_write_ok in E1 as (Er & _). do 2 eexists. rewrite R2 by done. split; [exact Er|]. split; [reflexivity|]. done.
    - eapply has_chunk_frame; [|apply Hch; lia]. rewrite R2 by done. apply R1. intros H. apply chunk_key_inj in H as [_ H]; cbn in *; lia. }
  assert (Ei : read_info kv2 id = KvOk (Some {| pg_Metadata := pg_Metadata pkg; pg_Release := pg_Release pkg;
                 pg_File := Some (chunk_added now (chunks_of file) i f) |})).
  { unfold read_info. apply kv_write_ok in E2 as (Er & _). by rewrite Er. }
  assert (Ea : all_uploaded f (chunks_of file) i = bool_decide (i + 1 = chunks_of file)).
  { unfold all_uploaded. rewrite uploaded_with_next by (done || lia). rewrite length_seqZ.
    case_bool_decide as Hb; [apply Z.eqb_eq|apply Z.eqb_neq]; lia. }
  assert (Hf' : pf_Size (chunk_added now (chunks_of file) i f) = blen file /\
                pf_ChunkSize (chunk_added now (chunks_of file) i f) = PackageFileChunkSizeDefault) by done.
  destruct Hf' as [Hs' Hc']. cbn [c ck_Index].
  case_bool_decide as Hb; (split; [cbn; by rewrite Ea|]); (split; [|exact Hall]);
    eexists _, _; (split_and!; [exact Ei|done|done|done| |exact Hs'|exact Hc'|..]); cbn; rewrite Ea; try done.
  apply uploaded_with_next; [lia|done].
Qed.

(** ** The push of a file *)

Definition header_ok (header : Package) : Prop :=
  MetadataValidate (pg_Metadata header) = Ok tt /\ ReleaseValidate (pg_Release header) = Ok tt.

(** A push of the file succeeds: the leader has no record of the package, or a complete one
    that is to be replaced, or one of an interrupted push of the same file. *)
Definition may_start kv id (header : Package) (ow : bool) file : Prop :=
  read_info kv id = KvNotFound \/
  (ow = true /\ exists p f, read_info kv id = KvOk (Some p) /\ pg_File p = Some f /\
     pf_State f = PackageFileStateComplete /\ pf_ChunkSize f <> 0) \/
  (exists i, 0 <= i < chunks_of file /\ uploading kv id header file i).

Lemma header_ok_parts header : header_ok header ->
  exists m r, pg_Metadata header = Some m /\ pg_Release header = Some r /\ md_Name m <> "".
Proof.
  intros [Hm Hr]. destruct (pg_Metadata header) as [m|]; [|done]. destruct (pg_Release header) as [r|]; [|done].
  exists m, r. split_and!; [done|done|]. cbn in Hm. intros E. by rewrite bool_decide_true in Hm.
Qed.

Lemma header_pkg_id header : header_ok header -> pkg_id header <> "".
Proof.
  intros (m & r & Em & Er & Hn)%header_ok_parts. unfold pkg_id. rewrite Em, Er. unfold PackageId. by destruct (md_Name m).
Qed.

Lemma push_valid_request id header ow file i : id <> "" -> header_ok header -> fits file -> 0 <= i ->
  push_valid (push_request id header ow file i) = Ok (request_chunk file i).
Proof.
  intros Hid Hh Hf Hi. unfold push_valid, push_request. cbn [pq_Id pq_Chunk ck_Data ck_Index].
  rewrite bool_decide_false by done. rewrite bool_decide_false by done.
  destruct (Z.eqb_spec i 0) as [->|]; [|done].
  destruct (header_ok_parts header Hh) as (m & r & Em & Er & Hn). destruct Hh as [Hm Hr].
  unfold first_chunk_valid. cbn [pq_Package Z.ltb pq_TotalSize pg_Metadata pg_Release pg_File pf_Size pq_ChunkSize Z.compare].
  unfold fits in Hf. destruct (Z.leb_spec (blen file) 0); [lia|]. destruct (Z.ltb_spec PackageMaxSize (blen file)); [lia|].
  rewrite Hm, Hr, Em, Er. rewrite !bool_decide_false by done. cbn [rbind]. by rewrite Z.eqb_refl.
Qed.

(** What is left of the upload of a file before chunk [i], and after the last one. *)
Definition ready kv id header ow file i : Prop :=
  if bool_decide (i = 0) then may_start kv id header ow file else exists j, i <= j < chunks_of file /\ uploading kv id header file j.

Lemma push_under_way who now id header ow file i j s :
  allow_leader who AuthScope_Package_Write = Ok tt -> id <> "" -> header_ok header -> fits file ->
  0 <= i <= j -> j < chunks_of file -> uploading (ps_kv s) id header file j ->
  exists f' s', PackagePush who now (push_request id header ow file i) s = (Ok f', s') /\
    if bool_decide (i + 1 = chunks_of file)
    then pf_State f' = PackageFileStateComplete /\ uploaded (ps_kv s') id header file (i + 1)
    else pf_State f' <> PackageFileStateComplete /\
      exists j', i + 1 <= j' < chunks_of file /\ uploading (ps_kv s') id header file j'.
Proof.
  intros Hw Hid Hh Hf Hi Hj Hup. unfold PackagePush. rewrite Hw. cbn [rbind]. rewrite push_valid_request by (done || lia).
  cbn [ps_kv with_mutex pq_Id push_request]. unfold open_upload. cbn [pq_Id pq_Overwrite push_request].
  pose proof Hup as [(p & f & Hr & Hpf & Em & Er & Hst & Hsz & Hcs & Hu) Hch]. rewrite Hr, Hpf.
  rewrite bool_decide_false by done. cbn [negb]. destruct (decide (i = j)) as [->|Hne].
  - destruct (upload_chunk_next now id header p f ow file j (with_mutex ({[id]} ∪ ps_mutex s) s)) as (f' & s' & -> & Hres); [done|lia|done..|].
    exists f', s'. split; [done|]. case_bool_decide; [done|]. destruct Hres as [? ?]. split; [done|]. exists (j + 1). split; [lia|done].
  - rewrite (upload_chunk_again now _ f p file j i) by (done || lia). eexists _, _. split; [reflexivity|].
    rewrite bool_decide_false by lia. split; [done|]. exists j. split; [lia|exact Hup].
Qed.

Lemma push_one who now id header ow file i s :
  allow_leader who AuthScope_Package_Write = Ok tt -> id <> "" -> header_ok header -> fits file -> 0 <= i < chunks_of file ->
  ready (ps_kv s) id header ow file i ->
  exists f' s', PackagePush who now (push_request id header ow file i) s = (Ok f', s') /\
    if bool_decide (i + 1 = chunks_of file)
    then pf_State f' = PackageFileStateComplete /\ uploaded (ps_kv s') id header file (i + 1)
    else pf_State f' <> PackageFileStateComplete /\ ready (ps_kv s') id header ow file (i + 1).
Proof.
  intros Hw Hid Hh Hf Hi Hready.
  assert (Hnext : forall (fs : PackageFile * pkg_server P), (if bool_decide (i + 1 = chunks_of file)
      then pf_State (fst fs) = PackageFileStateComplete /\ uploaded (ps_kv (snd fs)) id header file (i + 1)
      else pf_State (fst fs) <> PackageFileStateComplete /\ exists j', i + 1 <= j' < chunks_of file /\ uploading (ps_kv (snd fs)) id header file j') ->
    if bool_decide (i + 1 = chunks_of file)
    then pf_State (fst fs) = PackageFileStateComplete /\ uploaded (ps_kv (snd fs)) id header file (i + 1)
    else pf_State (fst fs) <> PackageFileStateComplete /\ ready (ps_kv (snd fs)) id header ow file (i + 1)).
  { intros fs. case_bool_decide; [done|]. unfold ready. by rewrite (bool_decide_false (i + 1 = 0)) by lia. }
  assert (Hway : forall j, i <= j < chunks_of file -> uploading (ps_kv s) id header file j ->
    exists f' s', PackagePush who now (push_request id header ow file i) s = (Ok f', s') /\
      if bool_decide (i + 1 = chunks_of file)
      then pf_State f' = PackageFileStateComplete /\ uploaded (ps_kv s') id header file (i + 1)
      else pf_State f' <> PackageFileStateComplete /\ ready (ps_kv s') id header ow file (i + 1)).
  { intros j Hj Hup. destruct (push_under_way who now id header ow file i j s) as (f' & s' & E & Hres); [done..|lia|lia|done|].
    exists f', s'. split; [done|]. by apply (Hnext (f', s')). }
  unfold ready in Hready. destruct (bool_decide_reflect (i = 0)) as [Ei|Ei]; [|destruct Hready as (j & Hj & Hup); by apply (Hway j)].
  destruct Hready as [Hnone|[Hold|(j & Hj & Hup)]]; [| |apply (Hway j); [by rewrite Ei|done]].
  all: subst i; unfold PackagePush; rewrite Hw; cbn [rbind]; rewrite push_valid_request by (done || lia);
    cbn [ps_kv with_mutex pq_Id push_request]; unfold open_upload; cbn [pq_Id pq_Overwrite push_request ck_Index request_chunk Z.eqb];
    assert (Hnew : new_upload now (push_request id header ow file 0) =
      Ok {| pg_Metadata := pg_Metadata header; pg_Release := pg_Release header;
            pg_File := Some {| pf_State := PackageFileStateUploading; pf_Size := blen file; pf_ChunkSize := PackageFileChunkSizeDefault;
                               pf_UploadedChunks := []; pf_Created := now; pf_Updated := 0 |} |}) by reflexivity.
  - rewrite Hnone, Hnew. cbn [pg_File pf_State]. rewrite bool_decide_false by done. cbn [negb].
    edestruct (upload_chunk_next now id header) as (f' & s' & -> & Hres); [exact Hf|exact Hi|done..|intros; lia|].
    exists f', s'. split; [done|]. apply (Hnext (f', s')). case_bool_decide; [done|]. destruct Hres. split; [done|]. exists (0 + 1). split; [lia|done].
  - destruct Hold as (-> & p & pf & Hr & Hpf & Hst & Hcs). rewrite Hr, Hpf. rewrite bool_decide_true by done. cbn [negb]. unfold calcTotalChunks at 1.
    destruct (Z.eqb_spec (pf_ChunkSize pf) 0); [done|]. rewrite Hnew. cbn [pg_File].
    edestruct (upload_chunk_next now id header) as (f' & s' & -> & Hres); [exact Hf|exact Hi|done..|intros; lia|].
    exists f', s'. split; [done|]. apply (Hnext (f', s')). case_bool_decide; [done|]. destruct Hres. split; [done|]. exists (0 + 1). split; [lia|done].
Qed.

Lemma push_rest who now id header ow file m i s :
  allow_leader who AuthScope_Package_Write = Ok tt -> id <> "" -> header_ok header -> fits file ->
  0 <= i -> chunks_of file = i + Z.of_nat (S m) -> ready (ps_kv s) id header ow file i ->
  exists s', push_chunks who now id header ow file (seqZ i (Z.of_nat (S m))) s = (Ok tt, s') /\
    uploaded (ps_kv s') id header file (chunks_of file).
Proof.
  intros Hw Hid Hh Hf. revert i s. induction m as [|m IH]; intros i s Hi Hn Hr.
  all: rewrite seqZ_cons by lia; cbn [push_chunks].
  all: destruct (push_one who now id header ow file i s Hw Hid Hh Hf ltac:(lia) Hr) as (f' & s' & -> & Hres).
  - rewrite bool_decide_true in Hres by lia. destruct Hres as [Hst Hup]. exists s'. rewrite bool_decide_true by done.
    by replace (chunks_of file) with (i + 1) by lia.
  - rewrite bool_decide_false in Hres by lia. destruct Hres as [Hst Hup]. rewrite bool_decide_false by done.
    replace (Z.pred (Z.of_nat (S (S m)))) with (Z.of_nat (S m)) by lia. by apply IH; [lia|lia|].
Qed.

Lemma fetch_uploaded host id header file s : fits file -> may_download host -> id <> "" ->
  uploaded (ps_kv s) id header file (chunks_of file) ->
  exists p f, read_info (ps_kv s) id = KvOk (Some p) /\ pg_File p = Some f /\ pf_State f = PackageFileStateComplete /\
    pg_Metadata p = pg_Metadata header /\ pg_Release p = pg_Release header /\ fetch_package host id f s = Ok file.
Proof.
  intros Hf Hw Hid ((p & f & Hr & Hpf & Em & Er & Hst & Hsz & Hcs) & Hch). exists p, f. split_and!; [done..|].
  destruct (fits_total file Hf) as (Et & Hn & Hle & _).
  unfold fetch_package. rewrite Hsz, Hcs, Et. cbn [rbind].
  rewrite (download_chunks_ok _ (file_chunk file PackageFileChunkSizeDefault)).
  - f_equal. rewrite <- (Z2Nat.id (chunks_of file)) by lia. rewrite file_chunks_concat; [done|done|done|]. rewrite Z2Nat.id by lia. lia.
  - apply Forall_forall. intros j Hj%elem_of_seqZ. destruct (Hch j) as (it & c & Erd & Ev & Hd & Hc); [lia|]. exists c.
    rewrite (PackageChunk_stored host id p f (chunks_of file)); [|done..|by rewrite Hsz, Hcs|lia]. by rewrite Erd, Ev.
Qed.
(** A push over a complete package that is not to be replaced changes nothing. *)
Definition complete_record kv id : Prop := exists p f,
  read_info kv id = KvOk (Some p) /\ pg_File p = Some f /\ pf_State f = PackageFileStateComplete.

Lemma push_rest_kept who now id header file m s :
  allow_leader who AuthScope_Package_Write = Ok tt -> id <> "" -> header_ok header -> fits file -> complete_record (ps_kv s) id ->
  exists s', push_chunks who now id header false file (seqZ 0 (Z.of_nat (S m))) s = (Ok tt, s') /\ ps_kv s' = ps_kv s.
Proof.
  intros Hw Hid Hh Hf (p & f & Hr & Hpf & Hst). rewrite seqZ_cons by lia. cbn [push_chunks].
  unfold PackagePush. rewrite Hw. cbn [rbind]. rewrite push_valid_request by (done || lia).
  cbn [ps_kv with_mutex pq_Id push_request]. unfold open_upload. cbn [pq_Id pq_Overwrite push_request].
  rewrite Hr, Hpf, bool_decide_true by done. cbn [negb]. rewrite bool_decide_true by done. eexists. split; [reflexivity|done].
Qed.
End transfer.

(** C15: A file that is pushed is downloaded byte for byte: with a database that refuses
    nothing, the push of a file with a valid header that is not above the limit succeeds
    when the leader has no record of the package, or a complete one that is to be
    replaced, or that of a push of the same file that was interrupted after any of its
    chunks; the record is then complete, and what a host fetches is the file.  A push
    over a complete package that is not to be replaced is also answered with success, and
    leaves the package as it was. *)
Theorem pushed_package_downloads (P : Type) (K : Kv P pkg_value) (KL : KvLaws K) (KR : KvReliable K) (V : Semver)
    (SS : SortSlice) (SSL : SortSliceLaws SS) (user host : caller) (now : Z) (header : Package) (ow : bool) (file : bytes)
    (s : pkg_server P) :
  allow_leader user AuthScope_Package_Write = Ok tt -> may_download host -> header_ok header -> fits file ->
  (may_start (ps_kv s) (pkg_id header) header ow file ->
   exists s' p f, pkg_push user now header ow file s = (Ok tt, s') /\
    read_info (ps_kv s') (pkg_id header) = KvOk (Some p) /\ pg_File p = Some f /\
    pf_State f = PackageFileStateComplete /\ pg_Metadata p = pg_Metadata header /\ pg_Release p = pg_Release header /\
    fetch_package host (pkg_id header) f s' = Ok file) /\
  (complete_record (ps_kv s) (pkg_id header) -> ow = false ->
   exists s', pkg_push user now header ow file s = (Ok tt, s') /\ ps_kv s' = ps_kv s).
Proof.
  intros Hu Hw Hh Hf. destruct (fits_total file Hf) as (Et & Hn & _ & _).
  pose proof (header_pkg_id header Hh) as Hid. unfold pkg_push. rewrite bool_decide_false, Et by done.
  replace (chunks_of file) with (Z.of_nat (S (Z.to_nat (chunks_of file - 1)))) by lia. split.
  - intros Hs. destruct (push_rest user now (pkg_id header) header ow file (Z.to_nat (chunks_of file - 1)) 0 s Hu Hid Hh Hf) as (s' & Hp & Hup);
      [lia|lia|done|].
    destruct (fetch_uploaded host (pkg_id header) header file s' Hf Hw Hid Hup) as (p & f & H).
    exists s', p, f. split; [exact Hp|exact H].
  - intros Hc ->. by apply push_rest_kept.
Qed.

Lemma pushed_package_downloads_witness :
  exists s' p f, pkg_push ex_user 100 (ex_header "1.0.0" "linux") false ex_file ex_server = (Ok tt, s') /\
    read_info (ps_kv s') (pkg_id (ex_header "1.0.0" "linux")) = KvOk (Some p) /\ pg_File p = Some f /\
    pf_State f = PackageFileStateComplete /\ pg_Metadata p = pg_Metadata (ex_header "1.0.0" "linux") /\
    pg_Release p = pg_Release (ex_header "1.0.0" "linux") /\
    fetch_package ex_user (pkg_id (ex_header "1.0.0" "linux")) f s' = Ok ex_file.
Proof.
  apply (pushed_package_downloads (mem_store pkg_value) _ _ _ _ _ _ ex_user ex_user).
  - reflexivity.
  - split; [reflexivity|]. eexists. split; reflexivity.
  - split; vm_compute; reflexivity.
  - split; vm_compute; [reflexivity|discriminate].
  - left. reflexivity.
Defined.

(** * A refused replacement *)

Section lost.
Context {P : Type} {K : Kv P pkg_value} {KL : KvLaws K} {KR : KvReliable K} {V : Semver} {SS : SortSlice} {SSL : SortSliceLaws SS} {MR : MapRange}.
Implicit Types (kv : P) (s : pkg_server P) (f : PackageFile).

Lemma delete_chunk_read kv id n i j : 0 <= i -> 0 <= j ->
  kv_read (fst (delete_chunk id (kv, n) i)) (NsPackageFileChunk id j) =
  if bool_decide (i = j) then KvNotFound else kv_read kv (NsPackageFileChunk id j).
Proof.
  intros Hi Hj. unfold delete_chunk. destruct (kv_delete_total kv (NsPackageFileChunk id i)) as [kv' E]. rewrite E. cbn [fst].
  apply kv_delete_ok in E as (H1 & _ & H3). case_bool_decide as Hij; [subst; by apply H1|].
  apply H3. intros H. by apply chunk_key_inj in H as [_ ?].
Qed.

Lemma delete_chunks_gone kv id n j : 0 <= j < n -> kv_read (fst (delete_chunks kv id n)) (NsPackageFileChunk id j) = KvNotFound.
Proof.
  intros Hj. unfold delete_chunks.
  assert (G : forall l acc, Forall (fun i => 0 <= i) l -> j ∈ l \/ kv_read (fst acc) (NsPackageFileChunk id j) = KvNotFound ->
    kv_read (fst (foldl (delete_chunk id) acc l)) (NsPackageFileChunk id j) = KvNotFound).
  { induction l as [|i l IH]; intros [kv0 m] Hl H; cbn [foldl]; [by destruct H as [?%elem_of_nil|]|].
    apply Forall_cons in Hl as [Hi Hl]. apply IH; [exact Hl|]. rewrite delete_chunk_read by lia.
    case_bool_decide; [by right|]. destruct H as [[->|?]%elem_of_cons|]; [done|by left|by right]. }
  apply G; [|left; apply elem_of_seqZ; lia]. apply Forall_forall. intros i Hi%elem_of_seqZ. lia.
Qed.

Lemma upload_chunk_bad now req c pkg f s : ChecksumIEEE (ck_bytes c) <> ck_Crc32 c ->
  exists e, upload_chunk now req c pkg f s = (Err e, s).
Proof.
  intros Hc. unfold upload_chunk. destruct (calcTotalChunks _ _) as [total|e]; [|by exists e].
  destruct (chunk_valid f total c) as [[]|e] eqn:Ev; [|by exists e]. by apply chunk_valid_ok in Ev as (_ & _ & ?).
Qed.

Lemma fetch_missing host id p f n s : may_download host -> id <> "" -> read_info (ps_kv s) id = KvOk (Some p) ->
  pg_File p = Some f -> pf_State f = PackageFileStateComplete -> calcTotalChunks (pf_Size f) (pf_ChunkSize f) = Ok n -> 0 < n ->
  kv_read (ps_kv s) (NsPackageFileChunk id 0) = KvNotFound -> fetch_package host id f s = Err "chunk not found".
Proof.
  intros Hw Hid Hr Hf Hst Ht Hn Hk. unfold fetch_package. rewrite Ht. cbn [rbind]. rewrite seqZ_cons by lia. cbn [download_chunks].
  by rewrite (PackageChunk_stored host id p f n), Hk by (done || lia).
Qed.
End lost.

(** A replacement that is refused loses the package: when an overwriting push of a
    complete package brings a first chunk with a wrong checksum, the leader answers with
    an error, but the chunks of the old package are deleted before the chunk is looked
    at; the record still calls the package complete, and every host fails to fetch it. *)
Theorem refused_overwrite_loses_package (P : Type) (K : Kv P pkg_value) (KL : KvLaws K) (KR : KvReliable K) (V : Semver)
    (SS : SortSlice) (SSL : SortSliceLaws SS) (user host : caller) (now n : Z) (req : PackagePushRequest) (c : PackageFileChunk)
    (p : Package) (f : PackageFile) (s : pkg_server P) :
  allow_leader user AuthScope_Package_Write = Ok tt -> may_download host ->
  push_valid req = Ok c -> ck_Index c = 0 -> pq_Overwrite req = true -> req_wf req ->
  ChecksumIEEE (ck_bytes c) <> ck_Crc32 c ->
  read_info (ps_kv s) (pq_Id req) = KvOk (Some p) -> pg_File p = Some f -> pf_State f = PackageFileStateComplete ->
  calcTotalChunks (pf_Size f) (pf_ChunkSize f) = Ok n -> 0 < n ->
  exists e s', PackagePush user now req s = (Err e, s') /\
    read_info (ps_kv s') (pq_Id req) = KvOk (Some p) /\ fetch_package host (pq_Id req) f s' = Err "chunk not found".
Proof.
  intros Hu Hw Hv Hi Ho Hwf Hc Hr Hf Hst Ht Hn.
  assert (Hid : pq_Id req <> "") by (intros E; unfold push_valid in Hv; by rewrite bool_decide_true in Hv).
  assert (Hn1 : exists pkg, new_upload now req = Ok pkg).
  { unfold new_upload. unfold push_valid in Hv. rewrite bool_decide_false in Hv by done. destruct (pq_Chunk req) as [c0|]; [|done].
    destruct (bool_decide _); [done|]. destruct (Z.eqb_spec (ck_Index c0) 0); [|congruence].
    apply rbind_ok in Hv as ([] & Hv & _). unfold first_chunk_valid in Hv. destruct (pq_Package req) as [q|]; [|done].
    destruct (_ <=? 0); [done|]. destruct (_ <? _); [done|]. destruct (match pg_Metadata q with Some _ => _ | None => _ end); [done|].
    destruct (bool_decide _); [done|]. apply rbind_ok in Hv as (_ & _ & Hv). apply rbind_ok in Hv as (_ & _ & Hv).
    destruct (pg_File q); [by eexists|done]. }
  destruct Hn1 as [pkg En]. destruct (first_upload (ps_kv s) now req c pkg Hv Hi Hwf En) as (f' & Hf' & _).
  set (s1 := with_kv (fst (delete_chunks (ps_kv s) (pq_Id req) n)) (with_mutex ({[pq_Id req]} ∪ ps_mutex s) s)).
  destruct (upload_chunk_bad now req c pkg f' s1 Hc) as [e He]. exists e, s1.
  assert (Hr1 : read_info (ps_kv s1) (pq_Id req) = KvOk (Some p)).
  { unfold read_info, s1. cbn [ps_kv with_kv]. rewrite delete_chunks_reads by done. exact Hr. }
  split_and!; [|exact Hr1|].
  - unfold PackagePush. rewrite Hu. cbn [rbind]. rewrite Hv. unfold open_upload. cbn [ps_kv with_mutex].
    rewrite Hr, Hf, Ho, Hi, Ht, En, Hf'. rewrite bool_decide_true by done. exact He.
  - eapply fetch_missing; [done..|]. unfold s1. cbn [ps_kv with_kv]. apply delete_chunks_gone. lia.
Qed.

(** A first chunk of the example file with a checksum of zero. *)
Definition ex_bad_push : PackagePushRequest :=
  let req := push_request "nginx_1.0.0_linux_amd64" (ex_header "1.0.0" "linux") true ex_file 0 in
  {| pq_Id := pq_Id req; pq_Package := pq_Package req; pq_TotalSize := pq_TotalSize req; pq_ChunkSize := pq_ChunkSize req;
     pq_Chunk := Some {| ck_Index := 0; ck_Crc32 := 0; ck_Data := Some ex_file; ck_Uploaded := 0 |}; pq_Overwrite := true |}.

Lemma refused_overwrite_loses_package_witness :
  let s := snd (pkg_push ex_user 100 (ex_header "1.0.0" "linux") false ex_file ex_server) in
  let f := {| pf_State := "complete"; pf_Size := 5; pf_ChunkSize := 2 ^ 20; pf_UploadedChunks := []; pf_Created := 100; pf_Updated := 100 |} in
  let p := {| pg_Metadata := pg_Metadata (ex_header "1.0.0" "linux"); pg_Release := pg_Release (ex_header "1.0.0" "linux"); pg_File := Some f |} in
  fetch_package ex_user "nginx_1.0.0_linux_amd64" f s = Ok ex_file /\
  exists e s', PackagePush ex_user 200 ex_bad_push s = (Err e, s') /\
    read_info (ps_kv s') (pq_Id ex_bad_push) = KvOk (Some p) /\ fetch_package ex_user (pq_Id ex_bad_push) f s' = Err "chunk not found".
Proof.
  intros s f p. split; [vm_compute; reflexivity|].
  apply (refused_overwrite_loses_package (mem_store pkg_value) _ _ _ _ _ _ ex_user ex_user 200 1 ex_bad_push
    {| ck_Index := 0; ck_Crc32 := 0; ck_Data := Some ex_file; ck_Uploaded := 0 |} p f s).
  - reflexivity.
  - split; [reflexivity|]. eexists. split; reflexivity.
  - vm_compute. reflexivity.
  - reflexivity.
  - reflexivity.
  - intros q g [= <-] [= <-]. vm_compute. reflexivity.
  - vm_compute. discriminate.
  - vm_compute. reflexivity.
  - reflexivity.
  - reflexivity.
  - vm_compute. reflexivity.
  - lia.
Defined.
