(* ===== verification/PackageSelect.v ===== *)
(** Which package a host gets: the order of package versions, the latest release of
    every group, and the choice among the candidates of system and architecture. *)
From Stdlib Require Import ZArith Lia Ascii Sorted.
From S2P Require Import Prelude GoStrings Ns Kv Paging AppVersion Auth Packages.
Local Open Scope string_scope.
Local Open Scope Z_scope.
Local Open Scope go_scope.

(** * The order of package versions *)

Section order.
Context {V : Semver} {L : SemverLaws V}.

Lemma semverCompare_antisym v w : semverCompare v w = - semverCompare w v.
Proof.
  unfold semverCompare. destruct (splitPackageVersion v) as [b1 i1], (splitPackageVersion w) as [b2 i2].
  rewrite (compare_antisym b2 b1). destruct (Z.eqb_spec (semver_Compare b1 b2) 0) as [E|E].
  - rewrite E. change (negb (- 0 =? 0)) with false. destruct (Z.ltb_spec i1 i2), (Z.ltb_spec i2 i1); cbn; lia.
  - destruct (Z.eqb_spec (- semver_Compare b1 b2) 0); cbn [negb]; lia.
Qed.

Lemma semverCompare_trans u v w : semverCompare u v <= 0 -> semverCompare v w <= 0 -> semverCompare u w <= 0.
Proof.
  unfold semverCompare. destruct (splitPackageVersion u) as [b1 i1], (splitPackageVersion v) as [b2 i2], (splitPackageVersion w) as [b3 i3].
  pose proof (compare_trans b1 b2 b3) as T. pose proof (compare_lt_trans b1 b2 b3) as Tl.
  destruct (Z.eqb_spec (semver_Compare b1 b2) 0), (Z.eqb_spec (semver_Compare b2 b3) 0), (Z.eqb_spec (semver_Compare b1 b3) 0);
    cbn [negb]; destruct (Z.ltb_spec i1 i2), (Z.ltb_spec i2 i1), (Z.ltb_spec i2 i3), (Z.ltb_spec i3 i2), (Z.ltb_spec i1 i3), (Z.ltb_spec i3 i1);
    intros; lia.
Qed.

Lemma newer_package_irrefl p : newer_package p p = false.
Proof. unfold newer_package. apply Z.ltb_ge. match goal with |- semverCompare ?v _ <= _ => pose proof (semverCompare_antisym v v) end. lia. Qed.
(** What is not newer than [q] is not newer than what is newer than [q]. *)
Lemma newer_package_trans p q r : newer_package r q = false -> newer_package q p = false -> newer_package r p = false.
Proof. unfold newer_package. rewrite !Z.ltb_ge. apply semverCompare_trans. Qed.
Lemma newer_package_asym p q : newer_package p q = true -> newer_package q p = false.
Proof. unfold newer_package. rewrite Z.ltb_ge, Z.ltb_lt. intros H. rewrite semverCompare_antisym. lia. Qed.
End order.

(** * The latest release of every group *)

Section latest.
Context {V : Semver} {L : SemverLaws V}.

(** [p] is a latest package of its group among [l]. *)
Definition latest_of (l : list Package) (key : string * string * string) (p : Package) : Prop :=
  p ∈ l /\ group_of p = Some key /\ forall q, q ∈ l -> group_of q = Some key -> newer_package q p = false.

Lemma latest_steps l : let m := foldl latest_step ∅ l in
  (forall key p, m !! key = Some p -> latest_of l key p) /\
  (forall key q, m !! key = None -> q ∈ l -> group_of q <> Some key).
Proof.
  induction l as [|p l [IHs IHn]] using rev_ind; cbn zeta; [by split; [|set_solver]|].
  rewrite foldl_app. cbn [foldl]. set (m := foldl latest_step ∅ l) in *. unfold latest_step.
  destruct (group_of p) as [key|] eqn:Eg.
  2: { split; [intros key q Hq; destruct (IHs key q Hq) as (Hin & Hg & Hmax)|intros key q Hn Hq].
       - split_and!; [set_solver|done|]. intros x [Hx| ->%list_elem_of_singleton]%elem_of_app Hgx; [by apply Hmax|congruence].
       - apply elem_of_app in Hq as [Hq| ->%list_elem_of_singleton]; [by eapply IHn|congruence]. }
  assert (Hins : (forall q, q ∈ l -> group_of q = Some key -> newer_package q p = false) ->
    (forall key' q, <[key := p]> m !! key' = Some q -> latest_of (l ++ [p])%list key' q) /\
    (forall key' q, <[key := p]> m !! key' = None -> q ∈ (l ++ [p])%list -> group_of q <> Some key')).
  { intros Hmax. split; intros key' q Hq.
    - destruct (decide (key' = key)) as [->|Hne].
      + rewrite lookup_insert_eq in Hq. injection Hq as <-. split_and!; [set_solver|done|].
        intros x [Hx| ->%list_elem_of_singleton]%elem_of_app Hgx; [by apply Hmax|apply newer_package_irrefl].
      + rewrite lookup_insert_ne in Hq by done. destruct (IHs key' q Hq) as (Hin & Hg & Hm). split_and!; [set_solver|done|].
        intros x [Hx| ->%list_elem_of_singleton]%elem_of_app Hgx; [by apply Hm|congruence].
    - destruct (decide (key' = key)) as [->|Hne]; [by rewrite lookup_insert_eq in Hq|].
      rewrite lookup_insert_ne in Hq by done. intros [Hx| ->%list_elem_of_singleton]%elem_of_app; [by eapply IHn|congruence]. }
  destruct (m !! key) as [ex|] eqn:Ex.
  2: { apply Hins. intros q Hq Hg. by destruct (IHn key q Ex Hq). }
  destruct (IHs key ex Ex) as (Hin & Hgx & Hmx). destruct (newer_package p ex) eqn:En.
  - apply Hins. intros q Hq Hg. eapply newer_package_trans; [by apply Hmx|by apply newer_package_asym].
  - split; intros key' q Hq.
    + destruct (IHs key' q Hq) as (Hi & Hg & Hm). split_and!; [set_solver|done|].
      intros x [Hx| ->%list_elem_of_singleton]%elem_of_app Hgx'; [by apply Hm|].
      assert (key' = key) as -> by congruence. rewrite Ex in Hq. by injection Hq as <-.
    + intros [Hx| ->%list_elem_of_singleton]%elem_of_app; [by eapply IHn|]. intros ?. assert (key' = key) as -> by congruence. congruence.
Qed.
End latest.

Section select.
Context {P : Type} {K : Kv P pkg_value} {V : Semver} {L : SemverLaws V} {SS : SortSlice} {SSL : SortSliceLaws SS}
  {MR : MapRange} {MRL : MapRangeLaws MR} {RL : KvRangeLaws K}.

Lemma filterLatest_elem l p : p ∈ filterLatestPackages l <-> exists key, foldl latest_step ∅ l !! key = Some p.
Proof.
  unfold filterLatestPackages. rewrite sort_slice_elem, list_elem_of_fmap. split.
  - intros ([key q] & -> & H). exists key. by apply elem_of_map_range in H.
  - intros [key H]. exists (key, p). split; [done|]. by apply elem_of_map_range.
Qed.

(** The groups of the result are distinct. *)
Lemma filterLatest_groups l : NoDup (map group_of (filterLatestPackages l)).
Proof.
  unfold filterLatestPackages. rewrite sort_slice_perm.
  set (m := foldl latest_step ∅ l). pose proof (NoDup_map_range m) as Hnd.
  assert (E : map group_of (map snd (map_range m)) = map Some (map fst (map_range m))).
  { rewrite !List.map_map. apply List.map_ext_in. intros [key p] Hin. apply list_elem_of_In, elem_of_map_range in Hin.
    by destruct (proj1 (latest_steps l) key p Hin) as (_ & Hg & _). }
  rewrite E. by apply (NoDup_fmap_2 Some).
Qed.

(** ** The listing of the leader *)

Definition scanned (kv : P) : list Package := omap (fun item => it_value (snd item) ≫= pkg_info) (package_items kv).

(** A package is stored when the database has its record under an id a range can name. *)
Definition package_key (id : string) : Prop := id <> "" /\ String.leb id (range_end "") = true.
Definition package_stored (kv : P) (p : Package) : Prop :=
  exists id it, package_key id /\ kv_read kv (NsPackageInfo id) = KvOk it /\ it_value it ≫= pkg_info = Some p.

(** The database answers a range: it does not fail, and a page that is shorter than asked
    for is the last one. *)
Definition whole_pages (kv : P) : Prop := forall lo hi n items, 0 < n -> kv_range kv lo hi n = KvOk items ->
  Z.of_nat (length items) < n -> filter (in_range lo hi) (kv_entries kv) = items.
Definition package_entries (kv : P) : list (string * kv_item pkg_value) :=
  filter (in_range (NsPackageInfo "") (range_end (NsPackageInfo ""))) (kv_entries kv).
Definition answers (kv : P) : Prop :=
  scannable kv /\ whole_pages kv /\ Z.of_nat (length (package_entries kv)) <= 1000.

Lemma info_prefix id : NsPackageInfo id = NsPackageInfo "" +:+ id.
Proof. unfold NsPackageInfo. by rewrite !s_app_assoc. Qed.

Lemma info_in_range id (it : kv_item pkg_value) : in_range (NsPackageInfo "") (range_end (NsPackageInfo "")) (NsPackageInfo id, it) <-> package_key id.
Proof.
  unfold in_range, package_key, range_end. cbn [fst]. rewrite (info_prefix id).
  rewrite <- (s_app_nil_r (NsPackageInfo "")) at 1. rewrite str_lt_app.
  assert (E : String.leb (NsPackageInfo "" +:+ id) (NsPackageInfo "" +:+ String (Ascii.ascii_of_nat 255) "") = true <->
    String.leb id ("" +:+ String (Ascii.ascii_of_nat 255) "") = true).
  { split; intros H%str_le_lt; apply str_le_lt.
    - destruct H as [H%(inj _)|H]; [by left|right]. by rewrite str_lt_app in H.
    - destruct H as [->|H]; [by left|right]. by rewrite str_lt_app. }
  rewrite E. split; intros [H1 H2]; (split; [|done]); destruct id; done.
Qed.

Lemma package_items_all kv : answers kv -> package_items kv = package_entries kv.
Proof.
  intros (Hs & Hw & Hn). unfold package_items. destruct (kv_range kv _ _ _) as [items| |e] eqn:E.
  - destruct (kv_range_page kv _ _ 1000 _ ltac:(lia) E) as (rest & Er & Hl & _). fold (package_entries kv) in Er.
    destruct (Z.lt_ge_cases (Z.of_nat (length items)) 1000) as [Hlt|Hge]; [symmetry; by apply (Hw _ _ 1000); [lia| |]|].
    rewrite Er, length_app in Hn. destruct rest; [by rewrite app_nil_r in Er|cbn in Hn; lia].
  - symmetry. by apply (kv_range_none kv _ _ 1000).
  - by destruct (Hs _ _ _ _ E).
Qed.

(** What the leader scans is what is stored. *)
Lemma scanned_stored kv p : answers kv -> p ∈ scanned kv <-> package_stored kv p.
Proof.
  intros Ha. unfold scanned. rewrite package_items_all by exact Ha. rewrite list_elem_of_omap. split.
  - intros ([key it] & Hin & Hv). apply list_elem_of_filter in Hin as [Hr Hin]. pose proof Hr as [H1 H2]. cbn [fst] in H1, H2.
    destruct (prefix_range (NsPackageInfo "") key H1 H2) as [id ->]. rewrite <- info_prefix in *.
    exists id, it. split_and!; [by apply info_in_range in Hr|by apply kv_entries_read|done].
  - intros (id & it & Hid & Hr & Hv). exists (NsPackageInfo id, it). split; [|done]. apply list_elem_of_filter.
    split; [by apply info_in_range|by apply kv_entries_read].
Qed.

Definition keep (req : PackageListRequest) (p : Package) : bool :=
  match listed req p with Ok b => b | Err _ => false end.

Lemma listed_keep req p : pg_File p <> None -> listed req p = Ok (keep req p).
Proof. intros Hf. unfold keep, listed. destruct (pg_File p); [|done]. by destruct (lq_All req). Qed.

Lemma list_packages_filter req items :
  Forall (fun p => pg_File p <> None) (omap (fun item => it_value (snd item) ≫= pkg_info) items) ->
  list_packages req items = Ok (filter (fun p => keep req p = true) (omap (fun item => it_value (snd item) ≫= pkg_info) items)).
Proof.
  induction items as [|[k it] items IH]; [done|]. cbn [omap list_omap list_packages snd].
  destruct (it_value it ≫= pkg_info) as [p|]; [|done]. intros [Hf Hall]%Forall_cons. rewrite IH by done.
  rewrite filter_cons, listed_keep by done. cbn [rbind]. destruct (keep req p) eqn:Ek.
  - by rewrite decide_True by done.
  - by rewrite decide_False by done.
Qed.

(** A complete package that a candidate admits. *)
Definition admits (name version : string) (cand : string * string) (p : Package) : Prop :=
  exists m r f, pg_Metadata p = Some m /\ pg_Release p = Some r /\ pg_File p = Some f /\
    pf_State f = PackageFileStateComplete /\ md_Name m = name /\ rl_Os r = fst cand /\ rl_Arch r = snd cand /\
    versionMatch version (rl_Version r) = true.

Definition candidate_request (name version : string) (cand : string * string) : PackageListRequest :=
  {| lq_All := false; lq_Name := name; lq_Version := version; lq_Os := fst cand; lq_Arch := snd cand; lq_LatestOnly := true |}.

Lemma keep_admits name version cand p : name <> "" -> fst cand <> "" -> snd cand <> "" -> pg_File p <> None ->
  keep (candidate_request name version cand) p = true <-> admits name version cand p.
Proof.
  intros Hn Ho Ha Hf. unfold keep, listed, candidate_request, admits. cbn [lq_All lq_Name lq_Version lq_Os lq_Arch].
  destruct (pg_File p) as [f|]; [|done]. cbn [rbind]. rewrite (bool_decide_false (name = "")), (bool_decide_false (fst cand = "")), (bool_decide_false (snd cand = "")) by done.
  cbn [orb]. rewrite !andb_true_iff, orb_true_iff, bool_decide_eq_true.
  destruct (pg_Metadata p) as [m|], (pg_Release p) as [r|].
  2-4: split; [intros H; exfalso; intuition discriminate|by intros (? & ? & ? & [=] & [=] & _)].
  rewrite !bool_decide_eq_true. split.
  - intros ((((H1 & H2) & [H3|H3]) & H4) & H5); exists m, r, f; split_and!; try done. by rewrite H3.
  - intros (m' & r' & f' & [= <-] & [= <-] & [= <-] & H). split_and!; try tauto.
Qed.

Lemma PackageList_candidate who (s : pkg_server P) name version cand :
  allow_leader who AuthScope_Package_Read = Ok tt -> Forall (fun p => pg_File p <> None) (scanned (ps_kv s)) ->
  name <> "" -> fst cand <> "" -> snd cand <> "" ->
  exists l, PackageList who (candidate_request name version cand) s = Ok l /\
    match l with
    | [] => forall q, q ∈ scanned (ps_kv s) -> ~ admits name version cand q
    | p :: _ => p ∈ scanned (ps_kv s) /\ admits name version cand p /\
                forall q, q ∈ scanned (ps_kv s) -> admits name version cand q -> newer_package q p = false
    end.
Proof.
  intros Hw Hf Hn Ho Ha. unfold PackageList. rewrite Hw. cbn [rbind]. rewrite list_packages_filter by exact Hf.
  cbn [rbind lq_LatestOnly candidate_request]. set (sel := filter _ _).
  assert (Hsel : forall q, q ∈ sel <-> q ∈ scanned (ps_kv s) /\ admits name version cand q).
  { intros q. unfold sel. rewrite list_elem_of_filter. fold (scanned (ps_kv s)). rewrite Forall_forall in Hf.
    split; intros [H1 H2]; (split; [|]); try done.
    - by apply keep_admits; [..|by apply Hf|].
    - apply keep_admits; [done..| |done]. by apply Hf. }
  assert (Hg : forall q, admits name version cand q -> group_of q = Some (name, fst cand, snd cand)).
  { intros q (m & r & f & Em & Er & _ & _ & <- & <- & <- & _). unfold group_of. by rewrite Em, Er. }
  destruct sel as [|x sel0] eqn:Es.
  - exists []. split; [done|]. intros q Hq Hadm. assert (q ∈ (@nil Package)) by (by apply Hsel). set_solver.
  - rewrite <- Es in *. exists (filterLatestPackages sel). split; [by rewrite Es|].
    destruct (latest_steps sel) as [Hs Hno]. cbn zeta in *.
    destruct (filterLatestPackages sel) as [|p rest] eqn:El.
    + exfalso. assert (Hx : x ∈ sel) by (rewrite Es; set_solver).
      destruct (foldl latest_step ∅ sel !! (name, fst cand, snd cand)) as [p|] eqn:Ek.
      * assert (H : p ∈ filterLatestPackages sel) by (apply filterLatest_elem; eauto). rewrite El in H. set_solver.
      * eapply Hno; [exact Ek|exact Hx|]. apply Hg. by apply Hsel.
    + assert (H : p ∈ filterLatestPackages sel) by (rewrite El; set_solver). apply filterLatest_elem in H as [key Hk].
      destruct (Hs key p Hk) as (Hin & Hgp & Hmax). apply Hsel in Hin as [Hin Hadm]. split_and!; [done|done|].
      intros q Hq Hqa. apply Hmax; [by apply Hsel|]. rewrite (Hg q Hqa). rewrite (Hg p Hadm) in Hgp. by injection Hgp as <-.
Qed.

(** The package of the first candidate that has one. *)
Definition chosen (stored : Package -> Prop) (name version : string) (candidates : list (string * string)) (p : Package) : Prop :=
  exists before cand after, candidates = (before ++ cand :: after)%list /\
    (forall c q, c ∈ before -> stored q -> ~ admits name version c q) /\
    stored p /\ admits name version cand p /\
    (forall q, stored q -> admits name version cand q -> newer_package q p = false).

Lemma resolve_candidates_spec who (s : pkg_server P) name version candidates :
  allow_leader who AuthScope_Package_Read = Ok tt -> Forall (fun p => pg_File p <> None) (scanned (ps_kv s)) ->
  name <> "" -> Forall (fun c => fst c <> "" /\ snd c <> "") candidates ->
  match resolve_candidates (fun req => PackageList who req s) name version candidates with
  | Ok p => chosen (.∈ scanned (ps_kv s)) name version candidates p
  | Err e => e = "package not found" /\ forall c q, c ∈ candidates -> q ∈ scanned (ps_kv s) -> ~ admits name version c q
  end.
Proof.
  intros Hw Hf Hn. induction candidates as [|[o a] rest IH]; [intros _; split; [done|set_solver]|].
  intros [[Ho Ha] Hrest]%Forall_cons. specialize (IH Hrest). cbn [resolve_candidates].
  destruct (PackageList_candidate who s name version (o, a) Hw Hf Hn Ho Ha) as (l & Hl & Hspec).
  unfold candidate_request in Hl. cbn [fst snd] in Hl. rewrite Hl. cbn [rbind]. destruct l as [|p l].
  - destruct (resolve_candidates _ name version rest) as [p|e].
    + destruct IH as (before & cand & after & -> & Hb & H). exists ((o, a) :: before), cand, after. split; [done|]. split; [|exact H].
      intros c q [->|Hc]%elem_of_cons; [apply Hspec|by apply Hb].
    + destruct IH as [-> IH]. split; [done|]. intros c q [->|Hc]%elem_of_cons; [apply Hspec|by apply IH].
  - destruct Hspec as (Hin & Hadm & Hmax). destruct Hadm as (m & r & f & Em & Er & Ef & Est & H). rewrite Ef, bool_decide_true by done.
    exists [], (o, a), rest. split; [done|]. split; [set_solver|]. split; [done|]. split; [|done]. by exists m, r, f.
Qed.
End select.


(** A store in memory answers. *)
Lemma mem_whole_pages (s : mem_store pkg_value) : whole_pages s.
Proof.
  intros lo hi n items Hn [= <-] Hl. rewrite length_take in Hl. change (kv_entries s) with (mem_entries s). symmetry. apply take_ge. lia.
Qed.

Definition ex_stocked : pkg_server (mem_store pkg_value) :=
  let push v o s := snd (pkg_push ex_user 100 (ex_header v o) false ex_file s) in
  push "1.0.2" "all" (push "1.0.10" "linux" (push "1.0.9-r1" "linux" (push "1.1.0" "linux" (push "1.0.9" "linux" ex_server)))).

