(* ===== verification/Resources.v ===== *)
(** Resource quantities of applications: [ParseBytes] of [src/internal/inutil/bytes.go],
    [ParseCPUs] of [src/internal/inutil/cpu.go], [NormalizeLegacy] of
    [src/pkg/inapi/app.go], and the ranges of [src/internal/zonelet/service_instance.go].

    The quantities are ASCII; the parsers compute in [float64], as the source does. *)
From Stdlib Require Import ZArith Lia Ascii.
From S2P Require Import Prelude GoStrings GoFloat.
Local Open Scope string_scope.
Local Open Scope Z_scope.
Local Open Scope go_scope.

(** * Parsers *)

Definition KiByte : Z := 1024.
Definition MiByte : Z := 1024 * KiByte.
Definition GiByte : Z := 1024 * MiByte.
Definition TiByte : Z := 1024 * GiByte.
Definition PiByte : Z := 1024 * TiByte.
Definition EiByte : Z := 1024 * PiByte.
Definition KByte : Z := 1000.
Definition MByte : Z := 1000 * KByte.
Definition GByte : Z := 1000 * MByte.
Definition TByte : Z := 1000 * GByte.
Definition PByte : Z := 1000 * TByte.
Definition EByte : Z := 1000 * PByte.

Definition byteSizes : list (string * Z) :=
  [("", 1); ("b", 1);
   ("kib", KiByte); ("mib", MiByte); ("gib", GiByte); ("tib", TiByte); ("pib", PiByte); ("eib", EiByte);
   ("ki", KiByte); ("mi", MiByte); ("gi", GiByte); ("ti", TiByte); ("pi", PiByte); ("ei", EiByte);
   ("kb", KByte); ("mb", MByte); ("gb", GByte); ("tb", TByte); ("pb", PByte); ("eb", EByte);
   ("k", KByte); ("m", MByte); ("g", GByte); ("t", TByte); ("p", PByte); ("e", EByte)].
Definition byteSizeMap : gmap string Z := list_to_map byteSizes.

Definition f_zero : float64 := F 0 0.
Definition f_one : float64 := F 1 0.
Definition f_ten : float64 := F 10 0.
Definition f_hundred : float64 := F 100 0.
Definition digit_of (c : ascii) : float64 := f64_of_int (byte_of c - 48).

(** One digit: [value2] is the divisor of the decimals, zero before the point. *)
Definition read_digit (c : ascii) (value value2 : float64) : float64 * float64 :=
  if f64_gt value2 f_zero then
    if f64_gt value2 f_hundred then (value, value2)
    else (f64_add value (f64_div (digit_of c) value2), f64_mul value2 f_ten)
  else (f64_add (f64_mul value f_ten) (digit_of c), value2).

Fixpoint bytes_loop (s : string) (value value2 : float64) : result (float64 * float64) :=
  match s with
  | EmptyString => Ok (value, f_one)
  | String c rest =>
    if is_digit c then let '(value, value2) := read_digit c value value2 in bytes_loop rest value value2
    else if isc "," c then bytes_loop rest value value2
    else if isc "." c then
      if f64_gt value2 f_zero then Err "invalid human-bytes value" else bytes_loop rest value f_ten
    else
      let unit := trim_space (to_lower s) in
      match byteSizeMap !! unit with
      | Some u => Ok (value, f64_of_int u)
      | None => if 0 <? slen unit then Err "invalid unit" else Ok (value, f_one)
      end
  end.
Definition ParseBytes (s : string) : result Z :=
  let? (value, unitRate) := bytes_loop (trim_space s) f_zero f_zero in
  Ok (i64_of_f64 (f64_mul value unitRate)).

Fixpoint cpus_loop (s : string) (value decimalDiv : float64) : result Z :=
  match s with
  | EmptyString => Ok (i64_of_f64 (f64_mul value (F 1000 0)))
  | String c rest =>
    if is_digit c then let '(value, decimalDiv) := read_digit c value decimalDiv in cpus_loop rest value decimalDiv
    else if isc "," c then cpus_loop rest value decimalDiv
    else if isc "." c then
      if f64_gt decimalDiv f_zero then Err "invalid human-cpus value" else cpus_loop rest value f_ten
    else if isc "m" c then Ok (i64_of_f64 value)
    else Err "invalid unit"
  end.
Definition ParseCPUs (s : string) : result Z := cpus_loop (trim_space s) f_zero f_zero.

(** ** Rendering *)

(** [%.kf] of a float: the exact decimal value, rounded half to even. *)
Definition pad_zeros (k : nat) (s : string) : string :=
  String.concat "" (replicate (k - String.length s) "0") +:+ s.
Definition fmt_fixed (k : nat) (x : float64) : string :=
  let num := Z.abs (f_man x) * 10 ^ Z.of_nat k * 2 ^ Z.max 0 (f_exp x) in
  let den := 2 ^ Z.max 0 (- f_exp x) in
  let q := num / den in
  let r := num mod den in
  let q := match 2 * r ?= den with Lt => q | Eq => if Z.odd q then q + 1 else q | Gt => q + 1 end in
  (if f_man x <? 0 then "-" else "") +:+ itoa (q / 10 ^ Z.of_nat k) +:+
  (if (k =? 0)%nat then "" else "." +:+ pad_zeros k (itoa (q mod 10 ^ Z.of_nat k))).
Fixpoint trim_right_byte (c : ascii) (s : string) : string :=
  match s with
  | EmptyString => EmptyString
  | String d rest =>
    match trim_right_byte c rest with
    | EmptyString => if isc c d then EmptyString else String d EmptyString
    | t => String d t
    end
  end.

Definition iecUnits : list string := ["B"; "KiB"; "MiB"; "GiB"; "TiB"; "PiB"; "EiB"].
Definition siUnits : list string := ["B"; "KB"; "MB"; "GB"; "TB"; "PB"; "EB"].
(** The loop over the units after the first; the last one takes what is left. *)
Fixpoint scale_units (base value : float64) (unit : string) (more : list string) : float64 * string :=
  match more with
  | next :: more => if f64_gt base value then (value, unit) else scale_units base (f64_div value base) next more
  | [] => (value, unit)
  end.
Definition PrettyBytes (v base : Z) : string :=
  let base := if base =? 1024 then 1024 else 1000 in
  let units := if base =? 1024 then iecUnits else siUnits in
  let '(value, unit) := scale_units (f64_of_int base) (f64_of_int v) "B" (tail units) in
  let s := if f64_gt f_ten value then trim_right_byte "." (trim_right_byte "0" (fmt_fixed 1 value)) else fmt_fixed 0 value in
  s +:+ " " +:+ unit.

Example pretty_bytes_runs :
  map (fun v => PrettyBytes v 1024) [0; 1; 1023; 1024; 1536; 10239; 1048576; 1288490188; 9223372036854775807; -5]
  = ["0 B"; "1 B"; "1023 B"; "1 KiB"; "1.5 KiB"; "10 KiB"; "1 MiB"; "1.2 GiB"; "8 EiB"; "-5 B"] /\
  map (fun v => PrettyBytes v 1000) [999; 1500; 123456789] = ["999 B"; "1.5 KB"; "123 MB"].
Proof. vm_compute. done. Qed.

Example parse_bytes_runs :
  map ParseBytes ["1.5 GiB"; " 2g"; "1,024"; "512Mi"; ""; "1.2.3"; "10 apples"; "16 MiB "]
  = [Ok 1610612736; Ok 2000000000; Ok 1024; Ok 536870912; Ok 0; Err "invalid human-bytes value"; Err "invalid unit";
     Ok 16777216].
Proof. vm_compute. reflexivity. Qed.
Example parse_cpus_runs :
  map ParseCPUs ["2"; "0.5"; "500m"; "0.33"; "250mice"; "1 core"] =
  [Ok 2000; Ok 500; Ok 500; Ok 329; Ok 250; Err "invalid unit"].
Proof. vm_compute. reflexivity. Qed.

(** * Resources of a spec *)

(** [inapi.AppSpecResources] *)
Record AppSpecResources := {
  sr_CpuLimit : string; sr_MemoryLimit : string; sr_VolumeLimit : string;
  sr_CpuMin : string; sr_CpuMax : string; sr_MemoryMin : string; sr_MemoryMax : string;
  sr_VolumeMin : string; sr_VolumeMax : string }.

(** [normLegacyPair]: the new minimum, maximum and legacy value. *)
Definition normLegacyPair (min max legacy : string) : string * string * string :=
  if bool_decide (min = "" /\ max = "" /\ legacy <> "") then (legacy, legacy, "")
  else if bool_decide (min = "" /\ max <> "") then (max, max, "")
  else if bool_decide (max = "" /\ min <> "") then (min, min, "")
  else (min, max, "").

Definition NormalizeLegacy (x : AppSpecResources) : AppSpecResources :=
  let '(cpuMin, cpuMax, cpu) := normLegacyPair (sr_CpuMin x) (sr_CpuMax x) (sr_CpuLimit x) in
  let '(memMin, memMax, mem) := normLegacyPair (sr_MemoryMin x) (sr_MemoryMax x) (sr_MemoryLimit x) in
  let '(volMin, volMax, vol) := normLegacyPair (sr_VolumeMin x) (sr_VolumeMax x) (sr_VolumeLimit x) in
  {| sr_CpuLimit := cpu; sr_MemoryLimit := mem; sr_VolumeLimit := vol;
     sr_CpuMin := cpuMin; sr_CpuMax := cpuMax; sr_MemoryMin := memMin; sr_MemoryMax := memMax;
     sr_VolumeMin := volMin; sr_VolumeMax := volMax |}.

Definition CPUMin : Z := 10.
Definition CPUMax : Z := 128000.
Definition MemoryMin : Z := 16 * 1024 * 1024.
Definition MemoryMax : Z := 512 * 1024 * 1024 * 1024.
Definition VolumeMin : Z := 100 * 1024 * 1024.
Definition VolumeMax : Z := 10 * 1024 * 1024 * 1024 * 1024.

Record parsedResources := {
  cpuMin : Z; cpuMax : Z; memMin : Z; memMax : Z; volMin : Z; volMax : Z }.
Definition no_resources : parsedResources :=
  {| cpuMin := 0; cpuMax := 0; memMin := 0; memMax := 0; volMin := 0; volMax := 0 |}.

(** The checks of a parsed range: system bounds, and order. *)
Definition out_of_bounds (lo hi min max : Z) : bool :=
  (min <? lo) || (hi <? min) || (max <? lo) || (hi <? max).

Definition wrap_err {A} (msg : string) (r : result A) : result A :=
  match r with Ok a => Ok a | Err e => Err (msg +:+ e) end.

Definition parseSpecResources (res : option AppSpecResources) : result parsedResources :=
  match res with
  | None => Err "spec.resources is required"
  | Some res =>
    let? cpuMin := wrap_err "invalid cpu_min: " (ParseCPUs (sr_CpuMin res)) in
    let? cpuMax := wrap_err "invalid cpu_max: " (ParseCPUs (sr_CpuMax res)) in
    let? memMin := wrap_err "invalid memory_min: " (ParseBytes (sr_MemoryMin res)) in
    let? memMax := wrap_err "invalid memory_max: " (ParseBytes (sr_MemoryMax res)) in
    let? volMin := wrap_err "invalid volume_min: " (ParseBytes (sr_VolumeMin res)) in
    let? volMax := wrap_err "invalid volume_max: " (ParseBytes (sr_VolumeMax res)) in
    if out_of_bounds CPUMin CPUMax cpuMin cpuMax then Err "spec.cpu_min/cpu_max out of bounds"
    else if out_of_bounds MemoryMin MemoryMax memMin memMax then Err "spec.memory_min/memory_max out of bounds"
    else if out_of_bounds VolumeMin VolumeMax volMin volMax then Err "spec.volume_min/volume_max out of bounds"
    else if cpuMax <? cpuMin then Err "spec.cpu_min must be <= cpu_max"
    else if memMax <? memMin then Err "spec.memory_min must be <= memory_max"
    else if volMax <? volMin then Err "spec.volume_min must be <= volume_max"
    else Ok {| cpuMin := cpuMin; cpuMax := cpuMax; memMin := memMin; memMax := memMax;
               volMin := volMin; volMax := volMax |}
  end.

Definition resolveInRange (v lo hi : Z) : Z :=
  if v <=? 0 then lo else if v <? lo then lo else if hi <? v then hi else v.
Definition requireInRange (name : string) (v lo hi : Z) : result Z :=
  if v =? 0 then Ok lo
  else if (v <? lo) || (hi <? v) then Err (name +:+ " is out of range")
  else Ok v.
Definition clampDeployRes (v lo hi : Z) : Z := resolveInRange v lo hi.

(** * Lemmas *)

(** ** Exact integers in [float64] *)

Lemma f64_round_exact m e : Z.abs m < 2 ^ 53 -> f64_round m e = F m e.
Proof.
  intros H. unfold f64_round. destruct (Z.eq_dec m 0) as [->|Hz]; [done|].
  assert (Z.log2 (Z.abs m) < 53) by (apply Z.log2_lt_pow2; lia).
  destruct (Z.leb_spec (Z.log2 (Z.abs m) + 1 - 53) 0); [done|lia].
Qed.

Lemma digit_of_eq c : is_digit c = true -> digit_of c = F (byte_of c - 48) 0 /\ 0 <= byte_of c - 48 < 10.
Proof.
  unfold is_digit. rewrite andb_true_iff, !Z.leb_le. intros [? ?]. split; [|lia].
  apply f64_of_int_exact. lia.
Qed.

Lemma read_digit_int c v : is_digit c = true -> 0 <= v -> 10 * v + (byte_of c - 48) < 2 ^ 53 ->
  read_digit c (F v 0) f_zero = (F (10 * v + (byte_of c - 48)) 0, f_zero).
Proof.
  intros Hc Hv Hlt. destruct (digit_of_eq c Hc) as [E R]. unfold read_digit. rewrite E.
  change (f64_gt f_zero f_zero) with false. cbn iota. f_equal.
  unfold f64_mul, f_ten. cbn [f_man f_exp]. rewrite f64_round_exact by lia.
  unfold f64_add. cbn [f_man f_exp]. change (Z.min (0 + 0) 0) with 0. change (0 + 0 - 0) with 0.
  change (0 - 0) with 0. rewrite Z.pow_0_r, f64_round_exact by lia. f_equal. lia.
Qed.

Lemma dec_acc_ge s acc n : dec_acc s acc = Some n -> (acc <= n)%N.
Proof.
  revert acc. induction s as [|c s IH]; intros acc; cbn; [by intros [= ->]|].
  case_match; [|done]. intros Hn%IH. lia.
Qed.

(** A loop over the digits of an integer that fits 53 bits is exact. *)
Lemma loop_digits {A} (loop : string -> float64 -> float64 -> result A) s t acc n :
  (forall c rest v v2, is_digit c = true ->
     loop (String c rest) v v2 = let '(v, v2) := read_digit c v v2 in loop rest v v2) ->
  dec_acc s acc = Some n -> Z.of_N n < 2 ^ 53 -> s_all is_digit s = true ->
  loop (s +:+ t) (F (Z.of_N acc) 0) f_zero = loop t (F (Z.of_N n) 0) f_zero.
Proof.
  intros Hstep. revert acc. induction s as [|c s IH]; intros acc Hd Hn Hs; cbn in Hd, Hs.
  - by injection Hd as ->.
  - apply andb_true_iff in Hs as [Hc Hs]. rewrite Hc in Hd. pose proof (dec_acc_ge _ _ _ Hd) as Hge.
    change (String c s +:+ t) with (String c (s +:+ t)). rewrite Hstep by done.
    assert (E : Z.of_N (10 * acc + (N_of_ascii c - 48)) = 10 * Z.of_N acc + (byte_of c - 48)).
    { destruct (digit_of_eq c Hc) as [_ R]. unfold byte_of in *. lia. }
    rewrite read_digit_int by (try done; lia). rewrite <-E. by apply IH.
Qed.

Lemma trim_right_id s : match s with EmptyString => True | _ => s_all (fun c => negb (is_space c)) s = true end ->
  trim_right s = s.
Proof.
  induction s as [|c s IH]; [done|]. cbn. rewrite andb_true_iff. intros [Hc Hs].
  rewrite IH by (by destruct s). destruct s; [|done]. by rewrite (proj1 (negb_true_iff _) Hc).
Qed.

Lemma trim_space_id s : s_all (fun c => negb (is_space c)) s = true -> trim_space s = s.
Proof.
  intros Hs. unfold trim_space. assert (E : trim_left s = s).
  { destruct s as [|c s]; [done|]. cbn in *. apply andb_true_iff in Hs as [Hc _].
    by rewrite (proj1 (negb_true_iff _) Hc). }
  rewrite E. apply trim_right_id. by destruct s.
Qed.

Lemma digit_not_space c : is_digit c = true -> negb (is_space c) = true.
Proof. unfold is_digit, is_space. rewrite andb_true_iff, !Z.leb_le. intros [? ?]. destruct (byte_of c) eqn:E; lia. Qed.

(** ** Units *)

Lemma s_all_Forall {A} (p : ascii -> bool) (l : list (string * A)) s a :
  forallb (fun e => s_all p (fst e)) l = true -> (s, a) ∈ l -> s_all p s = true.
Proof. intros Hf Hin. apply (proj1 (forallb_forall _ _) Hf (s, a)). by apply list_elem_of_In. Qed.

Lemma to_lower_alpha t : s_all is_lower (to_lower t) = true -> s_all is_alpha t = true.
Proof.
  induction t as [|c t IH]; [done|]. cbn. rewrite !andb_true_iff. intros [Hc Ht]. split; [|by apply IH].
  unfold is_alpha. unfold to_lower_byte in Hc. destruct (is_upper c) eqn:Eu; [by rewrite orb_true_r|]. by rewrite Hc.
Qed.

Lemma alpha_bounds c : is_alpha c = true -> 65 <= byte_of c <= 122.
Proof. unfold is_alpha, is_lower, is_upper. rewrite orb_true_iff, !andb_true_iff, !Z.leb_le. lia. Qed.
Lemma alpha_not_sep c : is_alpha c = true ->
  is_digit c = false /\ isc "," c = false /\ isc "." c = false /\ is_space c = false.
Proof.
  intros Hc%alpha_bounds. unfold is_digit, is_space, isc.
  rewrite !bool_decide_false by (intros Ei; rewrite <-Ei in Hc; vm_compute in Hc; naive_solver).
  split_and!; [|done|done|]; rewrite ?orb_false_iff, !andb_false_iff, !Z.leb_gt, ?Z.eqb_neq; lia.
Qed.

Lemma unit_lookup t r : (to_lower t, r) ∈ byteSizes ->
  byteSizeMap !! to_lower t = Some r /\ s_all is_alpha t = true /\ trim_space (to_lower t) = to_lower t /\ 1 <= r.
Proof.
  intros Hin. assert (Hl : s_all is_lower (to_lower t) = true) by (by eapply s_all_Forall; [|exact Hin]).
  split_and!.
  - apply elem_of_list_to_map_1; [|done]. apply (bool_decide_unpack _). vm_compute. exact I.
  - by apply to_lower_alpha.
  - apply trim_space_id. eapply s_all_impl; [|exact Hl]. intros c Hc.
    destruct (alpha_not_sep c) as (_ & _ & _ & ->); [|done]. unfold is_alpha. by rewrite Hc.
  - assert (F : forallb (fun e => 1 <=? snd e) byteSizes = true) by reflexivity.
    apply Z.leb_le. apply (proj1 (forallb_forall _ _) F (to_lower t, r)). by apply list_elem_of_In.
Qed.

Lemma bytes_loop_unit t r v : (to_lower t, r) ∈ byteSizes ->
  bytes_loop t v f_zero = Ok (v, if decide (t = "") then f_one else f64_of_int r).
Proof.
  intros Hin. destruct (unit_lookup t r Hin) as (Hu & Ha & Ht & _). destruct t as [|c t]; [done|].
  cbn [s_all] in Ha. apply andb_true_iff in Ha as [Hc _]. destruct (alpha_not_sep c Hc) as (E1 & E2 & E3 & _).
  cbn [bytes_loop]. rewrite E1, E2, E3. by rewrite Ht, Hu.
Qed.

Lemma i64_of_int_product a b : 0 <= a -> 0 <= b -> a * b < 2 ^ 53 ->
  i64_of_f64 (f64_mul (F a 0) (F b 0)) = a * b.
Proof.
  intros Ha Hb Hlt. unfold f64_mul. cbn [f_man f_exp]. rewrite f64_round_exact by nia.
  unfold i64_of_f64, f64_trunc. cbn [f_man f_exp]. change (0 <=? 0 + 0) with true. cbn iota.
  change (0 + 0) with 0. rewrite Z.pow_0_r, Z.mul_1_r.
  destruct (Z.leb_spec (- 2 ^ 63) (a * b)); [|lia]. destruct (Z.ltb_spec (a * b) (2 ^ 63)); [done|lia].
Qed.

Lemma i64_of_exact a : 0 <= a < 2 ^ 53 -> i64_of_f64 (F a 0) = a.
Proof.
  intros Ha. rewrite <-(f64_round_exact a 0), <-(Z.mul_1_r a) by lia.
  rewrite <-(i64_of_int_product a 1) at 2 by lia. done.
Qed.

Lemma quantity_no_space n t : 0 <= n -> s_all is_alpha t = true ->
  trim_space (itoa n +:+ t) = itoa n +:+ t.
Proof.
  intros Hn Ht. apply trim_space_id. rewrite s_all_app. apply andb_true_iff. split.
  - eapply s_all_impl; [|by apply itoa_digits]. apply digit_not_space.
  - eapply s_all_impl; [|exact Ht]. intros c Hc. by destruct (alpha_not_sep c Hc) as (_ & _ & _ & ->).
Qed.

Lemma loop_itoa {A} (loop : string -> float64 -> float64 -> result A) n t :
  (forall c rest v v2, is_digit c = true ->
     loop (String c rest) v v2 = let '(v, v2) := read_digit c v v2 in loop rest v v2) ->
  0 <= n < 2 ^ 53 -> loop (itoa n +:+ t) f_zero f_zero = loop t (F n 0) f_zero.
Proof.
  intros Hstep [Hn Hlt]. change f_zero with (F (Z.of_N 0) 0) at 1.
  rewrite (loop_digits loop (itoa n) t 0 (Z.to_N n)); [by rewrite Z2N.id|done|by apply dec_acc_itoa| |by apply itoa_digits].
  by rewrite Z2N.id.
Qed.

Lemma bytes_loop_digit c rest v v2 : is_digit c = true ->
  bytes_loop (String c rest) v v2 = let '(v, v2) := read_digit c v v2 in bytes_loop rest v v2.
Proof. intros Hc. cbn [bytes_loop]. by rewrite Hc. Qed.
Lemma cpus_loop_digit c rest v v2 : is_digit c = true ->
  cpus_loop (String c rest) v v2 = let '(v, v2) := read_digit c v v2 in cpus_loop rest v v2.
Proof. intros Hc. cbn [cpus_loop]. by rewrite Hc. Qed.

(** * Theorems *)

(** An integer with a unit of any case parses to exactly that many units of bytes,
    as long as the product is below 2^53; in particular within every system bound. *)
Theorem parse_bytes_exact n t r : 0 <= n -> n < 2 ^ 53 -> (to_lower t, r) ∈ byteSizes -> n * r < 2 ^ 53 -> r < 2 ^ 53 ->
  ParseBytes (itoa n +:+ t) = Ok (n * r).
Proof.
  intros Hn Hlt Hin Hp Hr. destruct (unit_lookup t r Hin) as (_ & Ha & _ & Hr1). unfold ParseBytes.
  rewrite quantity_no_space by done. rewrite (loop_itoa bytes_loop) by (try done; apply bytes_loop_digit).
  rewrite (bytes_loop_unit t r) by done. cbn [rbind]. f_equal. case_decide as Ht.
  - subst t. assert (r = 1) as ->.
    { destruct (unit_lookup "" r Hin) as (Hu & _). vm_compute in Hu. by injection Hu. }
    apply i64_of_int_product; lia.
  - rewrite f64_of_int_exact by lia. apply i64_of_int_product; lia.
Qed.

Lemma parse_bytes_exact_witness :
  (to_lower "GiB", GiByte) ∈ byteSizes /\ ParseBytes (itoa 512 +:+ "GiB") = Ok (512 * GiByte).
Proof.
  assert (Hin : (to_lower "GiB", GiByte) ∈ byteSizes) by (apply (bool_decide_unpack _); vm_compute; exact I).
  split; [exact Hin|]. apply (parse_bytes_exact 512 "GiB" GiByte); [lia|lia|exact Hin|reflexivity|reflexivity].
Defined.

(** The decimal notation of a number of hundredths. *)
Definition hundredths (w d : Z) : string := itoa w +:+ "." +:+ itoa (d / 10) +:+ itoa (d mod 10).
Definition cpu_decimal_ok (w d : Z) : bool :=
  match ParseCPUs (hundredths w d) with
  | Ok m => (1000 * w + 10 * d - 1 <=? m) && (m <=? 1000 * w + 10 * d)
  | Err _ => false
  end.
Definition z_range (n : nat) : list Z := map Z.of_nat (seq 0 n).
Lemma cpu_decimals_checked : forallb (fun w => forallb (cpu_decimal_ok w) (z_range 100)) (z_range 129) = true.
Proof. vm_compute. reflexivity. Qed.

Lemma z_range_elem (n : nat) z : 0 <= z < Z.of_nat n -> In z (z_range n).
Proof. intros Hz. unfold z_range. apply in_map_iff. exists (Z.to_nat z). split; [lia|]. apply in_seq. lia. Qed.

(** Whole and milli CPUs parse exactly; up to the limit of 128 CPUs two decimals
    parse to within one milli CPU below their value, and some of them are one short. *)
Theorem parse_cpus_exact n w d : 0 <= n -> 1000 * n < 2 ^ 53 -> 0 <= w <= 128 -> 0 <= d < 100 ->
  ParseCPUs (itoa n +:+ "m") = Ok n /\ ParseCPUs (itoa n) = Ok (1000 * n) /\
  (exists m, ParseCPUs (hundredths w d) = Ok m /\ 1000 * w + 10 * d - 1 <= m <= 1000 * w + 10 * d) /\
  ParseCPUs (hundredths 0 33) = Ok 329.
Proof.
  intros Hn Hlt Hw Hd. split_and!.
  - unfold ParseCPUs. rewrite quantity_no_space by done.
    rewrite (loop_itoa cpus_loop) by (try apply cpus_loop_digit; lia). change (cpus_loop "m" (F n 0) f_zero) with (Ok (i64_of_f64 (F n 0))). by rewrite i64_of_exact by lia.
  - unfold ParseCPUs. rewrite <-(s_app_nil_r (itoa n)) at 1. rewrite quantity_no_space by done.
    rewrite (loop_itoa cpus_loop) by (try apply cpus_loop_digit; lia). cbn [cpus_loop]. f_equal.
    rewrite i64_of_int_product by lia. lia.
  - pose proof cpu_decimals_checked as H. rewrite forallb_forall in H.
    specialize (H w (z_range_elem 129 w ltac:(lia))). cbn beta in H. rewrite forallb_forall in H.
    specialize (H d (z_range_elem 100 d ltac:(lia))). unfold cpu_decimal_ok in H.
    destruct (ParseCPUs (hundredths w d)) as [m|]; [|done]. exists m. split; [done|].
    apply andb_true_iff in H. rewrite !Z.leb_le in H. exact H.
  - vm_compute. reflexivity.
Qed.

Lemma parse_cpus_exact_witness :
  ParseCPUs (itoa 500 +:+ "m") = Ok 500 /\ ParseCPUs (itoa 500) = Ok (1000 * 500) /\
  (exists m, ParseCPUs (hundredths 2 1) = Ok m /\ 1000 * 2 + 10 * 1 - 1 <= m <= 1000 * 2 + 10 * 1) /\
  ParseCPUs (hundredths 0 33) = Ok 329.
Proof. apply (parse_cpus_exact 500 2 1); lia. Defined.

(** ** Ranges *)

Definition in_bounds (lo hi min max : Z) : Prop := lo <= min /\ min <= max /\ max <= hi.
Definition ranges_ok (p : parsedResources) : Prop :=
  in_bounds CPUMin CPUMax (cpuMin p) (cpuMax p) /\ in_bounds MemoryMin MemoryMax (memMin p) (memMax p) /\
  in_bounds VolumeMin VolumeMax (volMin p) (volMax p).
Definition parses_to (res : AppSpecResources) (p : parsedResources) : Prop :=
  ParseCPUs (sr_CpuMin res) = Ok (cpuMin p) /\ ParseCPUs (sr_CpuMax res) = Ok (cpuMax p) /\
  ParseBytes (sr_MemoryMin res) = Ok (memMin p) /\ ParseBytes (sr_MemoryMax res) = Ok (memMax p) /\
  ParseBytes (sr_VolumeMin res) = Ok (volMin p) /\ ParseBytes (sr_VolumeMax res) = Ok (volMax p).

Lemma wrap_err_ok {A} msg (r : result A) a : wrap_err msg r = Ok a <-> r = Ok a.
Proof. by destruct r. Qed.

Lemma out_of_bounds_false lo hi min max :
  out_of_bounds lo hi min max = false <-> lo <= min <= hi /\ lo <= max <= hi.
Proof. unfold out_of_bounds. rewrite !orb_false_iff, !Z.ltb_ge. lia. Qed.

Lemma guardb_ok {A} (b : bool) e (k : result A) a : (if b then Err e else k) = Ok a <-> b = false /\ k = Ok a.
Proof. destruct b; naive_solver. Qed.

Lemma parse_spec_resources_iff res p :
  parseSpecResources (Some res) = Ok p <-> parses_to res p /\ ranges_ok p.
Proof.
  unfold parseSpecResources, parses_to, ranges_ok, in_bounds. split.
  - intros H. repeat (apply rbind_ok in H as (? & ?%wrap_err_ok & H)). rewrite !guardb_ok, !out_of_bounds_false, !Z.ltb_ge in H.
    destruct H as (? & ? & ? & ? & ? & ? & [= <-]). cbn. split_and!; try done; lia.
  - intros [(-> & -> & -> & -> & -> & ->) (? & ? & ?)]. cbn [wrap_err rbind].
    rewrite !guardb_ok, !out_of_bounds_false, !Z.ltb_ge. split_and!; try lia. by destruct p.
Qed.

Lemma requireInRange_ok name v lo hi u : lo <= hi -> 0 < lo ->
  requireInRange name v lo hi = Ok u -> lo <= u <= hi /\ (v <> 0 -> u = v).
Proof.
  intros Hr Hlo. unfold requireInRange. destruct (Z.eqb_spec v 0); [intros [= <-]; lia|].
  rewrite guardb_ok, orb_false_iff, !Z.ltb_ge. intros [? [= <-]]. lia.
Qed.

Lemma resolveInRange_ok v lo hi : lo <= hi -> 0 < lo ->
  lo <= resolveInRange v lo hi <= hi /\ (lo <= v <= hi -> resolveInRange v lo hi = v).
Proof.
  intros Hr Hlo. unfold resolveInRange.
  destruct (Z.leb_spec v 0), (Z.ltb_spec v lo), (Z.ltb_spec hi v); lia.
Qed.

Lemma normLegacyPair_idem min max legacy : let '(mn, mx, l) := normLegacyPair min max legacy in
  normLegacyPair mn mx l = (mn, mx, l) /\ l = "" /\ (mn = "" <-> mx = "").
Proof.
  unfold normLegacyPair.
  destruct (decide (min = "")) as [->|], (decide (max = "")) as [->|], (decide (legacy = "")) as [->|];
    repeat (first [rewrite bool_decide_true by tauto|rewrite bool_decide_false by tauto]; cbn); tauto.
Qed.

Lemma NormalizeLegacy_idem x : NormalizeLegacy (NormalizeLegacy x) = NormalizeLegacy x.
Proof.
  unfold NormalizeLegacy.
  pose proof (normLegacyPair_idem (sr_CpuMin x) (sr_CpuMax x) (sr_CpuLimit x)) as H1.
  pose proof (normLegacyPair_idem (sr_MemoryMin x) (sr_MemoryMax x) (sr_MemoryLimit x)) as H2.
  pose proof (normLegacyPair_idem (sr_VolumeMin x) (sr_VolumeMax x) (sr_VolumeLimit x)) as H3.
  destruct (normLegacyPair (sr_CpuMin x) _ _) as [[? ?] ?], (normLegacyPair (sr_MemoryMin x) _ _) as [[? ?] ?],
    (normLegacyPair (sr_VolumeMin x) _ _) as [[? ?] ?]. cbn.
  destruct H1 as [-> _], H2 as [-> _], H3 as [-> _]. done.
Qed.
