(* ===== verification/Zone.v ===== *)
(** The state of the zone leader: the records it keeps in the database and the sets
    it caches them in, [src/pkg/inapi/kv.go] ([KvSet]) and
    [src/internal/zonelet/types.go] ([appInstanceSet]).

    The sets hand out pointers to their entries, and their clients write through
    them.  An entry is never removed short of [Clear], so a pointer is the position
    of its entry in [arr], and [idx] maps keys to positions. *)
From Stdlib Require Import ZArith Lia Sorted.
From S2P Require Import Prelude GoStrings Inet Ns Kv Ipam Stage SpecConfig AppVersion Auth Resources.
Local Open Scope string_scope.
Local Open Scope Z_scope.

(** * Records *)

(** [inapi.HostStatus], without the text fields, the counts of operations and the
    container report. *)
Record HostStatus := {
  hs_HostId : string; hs_Updated : Z;
  hs_CpuCores : Z; hs_CpuSys : Z; hs_CpuUser : Z; hs_MemTotal : Z; hs_MemUsed : Z; hs_MemAvailable : Z;
  hs_NetRecvBytes : Z; hs_NetSentBytes : Z; hs_DiskReadBytes : Z; hs_DiskWriteBytes : Z;
  hs_DiskTotalBytes : Z; hs_DiskFreeBytes : Z }.
(** The window the rates of a report are summed over, in seconds. *)
Definition Window1Min : Z := 60.

Record HostOperate := { ho_CpuAlloc : Z; ho_MemAlloc : Z; ho_StorageAlloc : Z }.

(** [inapi.Host]: the fields the address manager works on, and the rest. *)
Record ZoneHost := {
  zh_Host : Host; zh_AccessKey : string; zh_Operate : option HostOperate; zh_Status : option HostStatus }.

Record AppSpecServicePort := { ssp_Name : string; ssp_Port : Z }.
Record AppSpecDepend := { sd_Name : string; sd_Version : string }.
Record AppSpec := {
  sp_Name : string; sp_Version : string; sp_Resources : option AppSpecResources;
  sp_ServicePorts : list (option AppSpecServicePort); sp_Depends : list (option AppSpecDepend);
  sp_Packages : list (option AppSpecPackage); sp_Configs : list (option AppSpecConfigItem);
  sp_Tasks : list (option AppSpecTask) }.

Record AppDeployServicePort := { dsp_Name : string; dsp_Port : Z; dsp_HostPort : Z }.
Record AppDeployReplica := {
  dr_Id : Z; dr_HostId : string; dr_State : string; dr_VpcIpv4 : string; dr_ServicePorts : list AppDeployServicePort }.
Record AppDeployDepend := { dd_SpecName : string; dd_InstanceName : string }.

(** [inapi.AppDeploy]; its revision and its stages are the [stage_deploy] of [Stage]. *)
Record AppDeploy := {
  ad_Action : string; ad_Stage : stage_deploy;
  ad_CpuLimit : Z; ad_MemoryLimit : Z; ad_VolumeLimit : Z;
  ad_ReplicaCap : Z; ad_Replicas : list AppDeployReplica; ad_Depends : list (option AppDeployDepend);
  ad_Configs : list (option AppDeployConfigItem) }.

Definition ad_Revision (d : AppDeploy) : Z := dp_Revision (ad_Stage d).

(** [inapi.AppInstance] as it is stored: the spec and the deploy may be missing. *)
Record AppRecord := {
  ar_Id : string; ar_Name : string; ar_Spec : option AppSpec; ar_Deploy : option AppDeploy;
  ar_RefByInstances : list string }.

(** [inapi.AppInstance] as the set holds it: with a spec and a deploy. *)
Record AppInstance := {
  ai_Id : string; ai_Name : string; ai_Spec : AppSpec; ai_Deploy : AppDeploy;
  ai_RefByInstances : list string }.

Definition app_record (a : AppInstance) : AppRecord :=
  {| ar_Id := ai_Id a; ar_Name := ai_Name a; ar_Spec := Some (ai_Spec a); ar_Deploy := Some (ai_Deploy a);
     ar_RefByInstances := ai_RefByInstances a |}.

(** The check of [Refresh]: a record without deploy, spec or resources is skipped. *)
Definition app_of_record (r : AppRecord) : option AppInstance :=
  match ar_Deploy r, ar_Spec r with
  | Some d, Some sp =>
    match sp_Resources sp with
    | Some _ => Some {| ai_Id := ar_Id r; ai_Name := ar_Name r; ai_Spec := sp; ai_Deploy := d;
                        ai_RefByInstances := ar_RefByInstances r |}
    | None => None
    end
  | _, _ => None
  end.

Record Zone := {
  zn_Name : string; zn_Hosts : list string;
  zn_VpcBridgeCidr : string; zn_VpcInstanceCidr : string; zn_VpcNetworkDomain : string }.

(** [AuditRecord], [AuditAnchor] of the audit log *)
Record AuditRecord := {
  ar_Zone : string; ar_RecordId : string; ar_Ts : Z; ar_ActorId : string; ar_ActorUser : string; ar_ActorType : string;
  ar_Action : string; ar_SourceIp : string; ar_TargetType : string; ar_TargetId : string; ar_Status : string;
  ar_Error : string; ar_Detail : string; ar_PrevHash : string; ar_Hash : string; ar_DroppedBefore : Z; ar_SuppressedCount : Z }.
Record AuditAnchor := { an_Date : string; an_HeadHash : string; an_Count : Z }.

(** [Alert] *)
Record Alert := {
  al_Zone : string; al_Rule : string; al_Target : string; al_State : string; al_StartTime : Z; al_UpdateTime : Z;
  al_BreachCount : Z; al_Message : string }.

Record User := {
  us_Name : string; us_Description : string; us_State : string; us_Created : Z; us_Updated : Z }.

(** [Metadata], and [GatewayIngress] with its routes *)
Record Metadata := { me_Id : string; me_Created : Z; me_Updated : Z; me_Version : Z }.
Record IngressTarget := { it_Backend : string; it_Weight : Z }.
Record IngressRoute := { ir_Path : string; ir_Type : string; ir_Action : string; ir_Targets : list IngressTarget }.
Record GatewayIngress := {
  gi_Meta : option Metadata; gi_Domain : string; gi_Description : string; gi_Options : option bool; gi_Action : string;
  gi_Routes : list IngressRoute }.

(** ** The database of the zone: one store, records of several kinds *)

Inductive zone_value :=
| ZvHost (h : ZoneHost)
| ZvStatus (st : HostStatus)
| ZvApp (a : AppRecord)
| ZvSpec (sp : AppSpec)
| ZvNet (m : ZoneNetworkMap NetHost)
| ZvZone (z : Zone)
| ZvKey (ak : AccessKey)
| ZvUser (u : User)
| ZvAudit (r : AuditRecord)
| ZvAnchor (a : AuditAnchor)
| ZvAlert (a : Alert)
| ZvBlock (b : list Z)
| ZvIngress (g : GatewayIngress).

(** How a record is encoded and decoded. *)
Class ZoneVal (V : Type) := {
  zv_in : V -> zone_value;
  zv_out : zone_value -> option V;
  zv_out_in : forall v, zv_out (zv_in v) = Some v }.

#[export] Instance host_ZoneVal : ZoneVal ZoneHost :=
  {| zv_in := ZvHost; zv_out := fun v => match v with ZvHost h => Some h | _ => None end;
     zv_out_in := fun v => eq_refl |}.
#[export] Instance status_ZoneVal : ZoneVal HostStatus :=
  {| zv_in := ZvStatus; zv_out := fun v => match v with ZvStatus h => Some h | _ => None end;
     zv_out_in := fun v => eq_refl |}.
#[export] Instance app_ZoneVal : ZoneVal AppRecord :=
  {| zv_in := ZvApp; zv_out := fun v => match v with ZvApp h => Some h | _ => None end;
     zv_out_in := fun v => eq_refl |}.
#[export] Instance spec_ZoneVal : ZoneVal AppSpec :=
  {| zv_in := ZvSpec; zv_out := fun v => match v with ZvSpec h => Some h | _ => None end;
     zv_out_in := fun v => eq_refl |}.
#[export] Instance net_ZoneVal : ZoneVal (ZoneNetworkMap NetHost) :=
  {| zv_in := ZvNet; zv_out := fun v => match v with ZvNet h => Some h | _ => None end;
     zv_out_in := fun v => eq_refl |}.
#[export] Instance zone_ZoneVal : ZoneVal Zone :=
  {| zv_in := ZvZone; zv_out := fun v => match v with ZvZone h => Some h | _ => None end;
     zv_out_in := fun v => eq_refl |}.

#[export] Instance key_ZoneVal : ZoneVal AccessKey :=
  {| zv_in := ZvKey; zv_out := fun v => match v with ZvKey h => Some h | _ => None end;
     zv_out_in := fun v => eq_refl |}.
#[export] Instance user_ZoneVal : ZoneVal User :=
  {| zv_in := ZvUser; zv_out := fun v => match v with ZvUser h => Some h | _ => None end;
     zv_out_in := fun v => eq_refl |}.

#[export] Instance audit_ZoneVal : ZoneVal AuditRecord :=
  {| zv_in := ZvAudit; zv_out := fun v => match v with ZvAudit h => Some h | _ => None end;
     zv_out_in := fun v => eq_refl |}.
#[export] Instance anchor_ZoneVal : ZoneVal AuditAnchor :=
  {| zv_in := ZvAnchor; zv_out := fun v => match v with ZvAnchor h => Some h | _ => None end;
     zv_out_in := fun v => eq_refl |}.
#[export] Instance alert_ZoneVal : ZoneVal Alert :=
  {| zv_in := ZvAlert; zv_out := fun v => match v with ZvAlert h => Some h | _ => None end;
     zv_out_in := fun v => eq_refl |}.

(** A block of metrics is its bytes. *)
#[export] Instance block_ZoneVal : ZoneVal (list Z) :=
  {| zv_in := ZvBlock; zv_out := fun v => match v with ZvBlock h => Some h | _ => None end;
     zv_out_in := fun v => eq_refl |}.

#[export] Instance ingress_ZoneVal : ZoneVal GatewayIngress :=
  {| zv_in := ZvIngress; zv_out := fun v => match v with ZvIngress h => Some h | _ => None end;
     zv_out_in := fun v => eq_refl |}.

Definition kv_fmap {A B} (f : A -> B) (r : kv_reply A) : kv_reply B :=
  match r with KvOk a => KvOk (f a) | KvNotFound => KvNotFound | KvErr m => KvErr m end.
Definition decode {V} `{ZoneVal V} (it : kv_item zone_value) : kv_item V :=
  Item (it_version it) (it_value it ≫= zv_out).

(** The store seen as a store of one kind of record. *)
#[export] Instance zone_Kv {S V} `{Kv S zone_value} `{ZoneVal V} : Kv S V | 10 :=
  {| kv_read s k := kv_fmap decode (kv_read s k);
     kv_write s o k v := kv_write s o k (zv_in v);
     kv_delete s k := kv_delete (V := zone_value) s k;
     kv_range s lo hi n := kv_fmap (map (prod_map id decode)) (kv_range s lo hi n) |}.

Lemma kv_fmap_ok {A B} (f : A -> B) r b : kv_fmap f r = KvOk b -> exists a, r = KvOk a /\ b = f a.
Proof. destruct r; simpl; [|done|done]. intros [= <-]. eauto. Qed.

#[export] Instance zone_KvLaws {S V} `{KvLaws S zone_value} `{ZoneVal V} : KvLaws (zone_Kv (S := S) (V := V)).
Proof.
  split; cbn.
  - intros s o k v s' n Hw. destruct (kv_write_ok _ _ _ _ _ _ Hw) as (R & Fr & P & Lt & Co & Pv).
    split_and!; [| |done| | |].
    + rewrite R. cbn. unfold decode. cbn. by rewrite zv_out_in.
    + intros k' Hk. by rewrite Fr.
    + intros it (a & E & ->)%kv_fmap_ok. by apply Lt.
    + intros C. by rewrite Co.
    + intros C. destruct (Pv C) as (it & E & Ev). exists (decode it). rewrite E. done.
  - intros s o k v s' r Hw Hr k'. by rewrite (kv_write_fail _ _ _ _ _ _ Hw Hr).
  - intros s k s' r Hd. destruct (kv_delete_ok _ _ _ _ Hd) as (E1 & E2 & E3).
    split_and!; intros; [rewrite E1|rewrite E2|rewrite E3]; done.
  - intros s k s' Hd. by rewrite (kv_delete_notfound _ _ _ Hd).
Qed.

#[export] Instance zone_KvReliable {S V} {K : Kv S zone_value} {R : KvReliable K} `{ZoneVal V} : KvReliable (zone_Kv (S := S) (V := V)).
Proof. split; cbn; [|exact kv_delete_total]. intros s o k v. apply kv_write_total. Qed.

(** The range laws of a view: the entries, decoded. *)
Lemma filter_map_same {A B} (f : A -> B) (P : A -> Prop) (Q : B -> Prop) `{!forall x, Decision (P x)} `{!forall x, Decision (Q x)} (l : list A) :
  (forall x, Q (f x) <-> P x) -> filter Q (map f l) = map f (filter P l).
Proof.
  intros HQ. induction l as [|e l IH]; [done|]. cbn [map]. rewrite !filter_cons. destruct (decide (P e)) as [Hr|Hr].
  - rewrite decide_True by (by apply HQ). cbn. by rewrite IH.
  - rewrite decide_False by (by rewrite HQ). exact IH.
Qed.
Lemma filter_map_decode {V} `{ZoneVal V} lo hi (l : list (string * kv_item zone_value)) :
  filter (in_range lo hi) (map (prod_map id (decode (V := V))) l) = map (prod_map id decode) (filter (in_range lo hi) l).
Proof. apply filter_map_same. by intros []. Qed.

#[export] Instance zone_KvRangeLaws {S V} {K : Kv S zone_value} {RL : KvRangeLaws K} `{ZoneVal V} : KvRangeLaws (zone_Kv (S := S) (V := V)).
Proof.
  refine {| kv_entries := fun s => map (prod_map id decode) (kv_entries s) |}.
  - intros s. induction (kv_entries_sorted s) as [|x l _ IH Hx]; [constructor|]. cbn. constructor; [exact IH|].
    apply List.Forall_map. eapply Forall_impl; [exact Hx|]. by intros [].
  - intros s k it. rewrite list_elem_of_fmap. cbn. split.
    + intros ([k' it'] & [= -> ->] & Hin). by rewrite (proj1 (kv_entries_read _ _ _) Hin).
    + intros (it' & Hr & ->)%kv_fmap_ok. exists (k, it'). split; [done|]. by apply kv_entries_read.
  - intros s lo hi n items Hn Hr. cbn in Hr. apply kv_fmap_ok in Hr as (raw & Hr & ->).
    destruct (kv_range_page _ _ _ _ _ Hn Hr) as (rest & E & Hl & Hnil). exists (map (prod_map id decode) rest).
    rewrite filter_map_decode, E, List.map_app, List.length_map. split_and!; [done|done|]. destruct raw; [|done]. intros _. by rewrite Hnil.
  - intros s lo hi n Hn Hr. cbn in Hr. rewrite filter_map_decode. rewrite (kv_range_none s lo hi n Hn); [done|]. by destruct (kv_range s lo hi n).
Defined.

#[export] Instance zone_KvRevert {S V} `{KvRevert S zone_value} `{ZoneVal V} : KvRevert S V | 10 :=
  {| kv_revert s lo hi n := kv_fmap (map (prod_map id decode)) (kv_revert s lo hi n) |}.
Lemma filter_revert_decode {V} `{ZoneVal V} lo hi (l : list (string * kv_item zone_value)) :
  filter (in_revert lo hi) (map (prod_map id (decode (V := V))) l) = map (prod_map id decode) (filter (in_revert lo hi) l).
Proof. apply filter_map_same. by intros []. Qed.
#[export] Instance zone_KvRevertLaws {S V} {K : Kv S zone_value} {RL : KvRangeLaws K} {R : KvRevert S zone_value} `{!KvRevertLaws RL R}
  `{ZoneVal V} : KvRevertLaws (zone_KvRangeLaws (V := V)) (zone_KvRevert (S := S) (V := V)).
Proof.
  split; intros s lo hi n; cbn [kv_entries zone_KvRangeLaws]; rewrite filter_revert_decode.
  - intros items Hn Hr. cbn in Hr. apply kv_fmap_ok in Hr as (raw & Hr & ->).
    destruct (kv_revert_page _ _ _ _ _ Hn Hr) as (rest & E & Hl & Hnil). exists (map (prod_map id decode) rest).
    rewrite <- fmap_reverse, E, List.map_app, List.length_map. split_and!; [done|done|]. destruct raw; [|done]. intros _. by rewrite Hnil.
  - intros Hn Hr. cbn in Hr. rewrite (kv_revert_none s lo hi n Hn); [done|]. by destruct (kv_revert s lo hi n).
Qed.

(** * Cached sets *)

(** An entry; [ke_Meta] is the version of its metadata, absent when nil. *)
Record KvEntry (V : Type) := Entry { ke_Meta : option Z; ke_Value : V }.
Arguments Entry {V} ke_Meta ke_Value.
Arguments ke_Meta {V} k.
Arguments ke_Value {V} k.

Record KvSet (V : Type) := {
  ks_idx : gmap string nat; ks_arr : list (KvEntry V); ks_version : Z; ks_ready : bool }.
Arguments ks_idx {V} k.
Arguments ks_arr {V} k.
Arguments ks_version {V} k.
Arguments ks_ready {V} k.

Definition Clear {V} (it : KvSet V) : KvSet V :=
  {| ks_idx := ∅; ks_arr := []; ks_version := 0; ks_ready := false |}.
Definition Len {V} (it : KvSet V) : Z := Z.of_nat (length (ks_arr it)).

Definition with_arr {V} (it : KvSet V) (arr : list (KvEntry V)) : KvSet V :=
  {| ks_idx := ks_idx it; ks_arr := arr; ks_version := ks_version it; ks_ready := ks_ready it |}.
Definition with_entry {V} (it : KvSet V) (key : string) (e : KvEntry V) : KvSet V :=
  match ks_idx it !! key with
  | Some i => with_arr it (<[i := e]> (ks_arr it))
  | None => {| ks_idx := <[key := length (ks_arr it)]> (ks_idx it); ks_arr := (ks_arr it ++ [e])%list;
               ks_version := ks_version it; ks_ready := ks_ready it |}
  end.
Definition with_version {V} (it : KvSet V) (v : Z) : KvSet V :=
  {| ks_idx := ks_idx it; ks_arr := ks_arr it; ks_version := Z.max (ks_version it) v; ks_ready := ks_ready it |}.
Definition with_ready {V} (it : KvSet V) : KvSet V :=
  {| ks_idx := ks_idx it; ks_arr := ks_arr it; ks_version := ks_version it; ks_ready := true |}.

(** [KvSet.Store]; the value is not nil. *)
Definition KvSet_Store {V} (key : string) (meta : option Z) (val : V) (it : KvSet V) : KvSet V :=
  let it := with_entry it key (Entry meta val) in
  match meta with Some v => with_version it v | None => it end.

Definition KvSet_ref {V} (it : KvSet V) (key : string) : option nat := ks_idx it !! key.
Definition KvSet_Load {V} (it : KvSet V) (key : string) : option (KvEntry V) :=
  i ← KvSet_ref it key; ks_arr it !! i.

(** [appInstanceSet] has the fields of a [KvSet]. *)
Abbreviation appInstanceSet := (KvSet AppInstance).

(** [appInstanceSet.store]: an entry that is not newer than the cached one is dropped. *)
Definition store (app : AppInstance) (meta : Z) (it : appInstanceSet) : appInstanceSet :=
  match KvSet_Load it (ai_Name app) with
  | Some e => if meta <=? default 0 (ke_Meta e) then it
              else with_version (with_entry it (ai_Name app) (Entry (Some meta) app)) meta
  | None => with_version (with_entry it (ai_Name app) (Entry (Some meta) app)) meta
  end.

Definition Zonelet_MaxHosts : Z := 252.
Definition Zonelet_MaxInstances : Z := 252 * 252.

Section sets.
Context {S : Type} `{Kv S zone_value}.

(** [appInstanceSet.Refresh]: load every instance of the zone. *)
Definition refresh_item (it : appInstanceSet) (item : string * kv_item AppRecord) : appInstanceSet :=
  match it_value (snd item) ≫= app_of_record with
  | Some app => store app (it_version (snd item)) it
  | None => it
  end.
Definition Refresh (s : S) (zone : string) (it : appInstanceSet) : appInstanceSet * result unit :=
  let offset := NsAppInstance zone "" in
  match kv_range (V := AppRecord) s offset (range_end offset) Zonelet_MaxInstances with
  | KvErr m => (it, Err m)
  | KvNotFound => (with_ready it, Ok tt)
  | KvOk items => (with_ready (foldl refresh_item it items), Ok tt)
  end.

(** [appInstanceSet.Flush] of the entry at a position: the record is written against
    the version the entry carries, and the new version is kept. *)
Definition Flush (s : S) (zone : string) (i : nat) (it : appInstanceSet) : S * appInstanceSet * result unit :=
  match ks_arr it !! i with
  | None => (s, it, Err "panic: nil entry")
  | Some e =>
    let o := {| prev_version := default 0 (ke_Meta e); create_only := false; ttl_ms := 0 |} in
    match kv_write s o (NsAppInstance zone (ai_Name (ke_Value e))) (app_record (ke_Value e)) with
    | (s, KvOk v) => (s, with_arr it (<[i := Entry (Some v) (ke_Value e)]> (ks_arr it)), Ok tt)
    | (s, rs) => (s, it, Err (kv_msg rs))
    end
  end.
End sets.
