(* ===== verification/Users.v ===== *)
(** Users and their access keys: the store side of [src/internal/auth/auth.go] and the
    requests of [src/internal/zonelet/service_user.go].

    The listings follow the pages of the database ([Paging.v]) in a loop without a bound:
    [fuel] bounds it here, and [key_pages_complete] shows that one more than the entries of the database
    is enough.  A request on users is one step, except [UserSet], whose three parts (the
    read of the row, the cascade under the lock of the keys, the write of the row) are
    steps of their own: other requests run in between. *)
From Stdlib Require Import ZArith Lia Sorted.
From S2P Require Import Prelude GoStrings Ns Kv Paging Auth Packages Zone.
Local Open Scope string_scope.
Local Open Scope Z_scope.
Local Open Scope go_scope.

Definition AuthScope_Zone_Read : string := "zone:ro".
Definition AuthScope_Zone_Write : string := "zone:rw".
Definition AuthScope_Wildcard : string := "*".
Definition UserStateActive : string := "active".
Definition UserStateDisabled : string := "disabled".
Definition AccessKeyPageSizeDefault : Z := 100.
Definition AccessKeyPageSizeMax : Z := 1000.
Definition UserPageSizeDefault : Z := 100.
Definition UserPageSizeMax : Z := 1000.
(** [scanPageSize], and [userScanPageSize]. *)
Definition scanPageSize : Z := 1000.

(** [NameValid]: 3 to 20 letters and digits. *)
Definition NameValid (s : string) : result unit :=
  if bool_decide (s = "") then Err "required"
  else if slen s <? 3 then Err "min"
  else if 20 <? slen s then Err "max"
  else if negb (s_all is_alnum s) then Err "alphanum"
  else Ok tt.
Definition validUserState (s : string) : bool := bool_decide (s = UserStateActive) || bool_decide (s = UserStateDisabled).

(** A key of another state, or with other scopes. *)
Definition set_state (st : string) (k : AccessKey) : AccessKey :=
  {| ak_Id := ak_Id k; ak_Secret := ak_Secret k; ak_User := ak_User k; ak_Type := ak_Type k; ak_State := st; ak_Scopes := ak_Scopes k |}.
Definition set_scopes (type : string) (scopes : list string) (k : AccessKey) : AccessKey :=
  {| ak_Id := ak_Id k; ak_Secret := ak_Secret k; ak_User := ak_User k; ak_Type := type; ak_State := ak_State k; ak_Scopes := scopes |}.

(** * Paged scans *)

Section paged.
Context {S A : Type} `{Kv S A}.
Variable want : A -> bool.
Variable cursor : A -> string.

(** An item: one more match, or the answer when there is one match more than asked for. *)
Definition scan_item (size : Z) (acc : list A) (e : string * kv_item A) : list A + (list A * string) :=
  match it_value (snd e) with
  | None => inl acc
  | Some a =>
    if negb (want a) then inl acc
    else if size <=? Z.of_nat (length acc) then inr (acc, match last acc with Some x => cursor x | None => "" end)
    else inl (acc ++ [a])%list
  end.

Definition paged_scan (fuel : nat) (kv : S) (lower upper : string) (size : Z) : option (result (list A * string)) :=
  match page_loop (asc_fetch (fun _ => scanPageSize) kv) asc_advance (scan_item size) (fun _ => true) fuel [] (lower, upper) with
  | Ended acc => Some (Ok (acc, ""))
  | Answered answer => Some (Ok answer)
  | Failed _ e => Some (Err e)
  | Stopped _ => None
  end.
End paged.

(** * Keys *)

(** [AuthManager] with the database it keeps the keys in. *)
Record authn (S : Type) := { au_kv : S; au_keys : AccessKeyManager }.
Arguments au_kv {S} a.
Arguments au_keys {S} a.

(** [config.AccessKeyPublic] *)
Record AccessKeyPublic := { kp_AccessKey : string; kp_User : string; kp_Type : string }.
Definition ApplyTo (pub : AccessKeyPublic) (k : AccessKey) : AccessKey :=
  {| ak_Id := ak_Id k; ak_Secret := ak_Secret k; ak_User := kp_User pub;
     ak_Type := if bool_decide (kp_Type pub <> "") then kp_Type pub
                else if bool_decide (kp_User pub <> "") then "User" else ak_Type k;
     ak_State := ak_State k; ak_Scopes := ak_Scopes k |}.

(** [Setup]: the keys of the configuration, and that of the host agent. *)
Definition setup_key (m : AccessKeyManager) (pub : AccessKeyPublic) : AccessKeyManager :=
  match ParseAccessKey (kp_AccessKey pub) with
  | Err _ => m
  | Ok ak => Key_Set (ApplyTo pub (set_scopes (ak_Type ak) [AuthScope_Wildcard] ak)) m
  end.
Definition Setup (keys : list AccessKeyPublic) (hostlet : option AccessKey) (m : AccessKeyManager) : AccessKeyManager :=
  let m := foldl setup_key m keys in
  match hostlet with Some ak => Key_Set ak m | None => m end.

Section keys.
Context {S : Type} `{Kv S zone_value}.
Variable zone : string.
Variable fuel : nat.

Definition with_keys (m : AccessKeyManager) (a : authn S) : authn S := {| au_kv := au_kv a; au_keys := m |}.

(** [RefreshAccessKeysFromDB] *)
Definition refresh_key (m : AccessKeyManager) (item : string * kv_item AccessKey) : AccessKeyManager :=
  match it_value (snd item) with
  | Some k =>
    if bool_decide (ak_Id k <> "" /\ ak_Secret k <> "") && negb (bool_decide (ak_State k = AccessKey_State_Disable))
    then Key_Set k m else m
  | None => m
  end.
Definition refresh_host_key (m : AccessKeyManager) (item : string * kv_item ZoneHost) : AccessKeyManager :=
  match it_value (snd item) with
  | Some host =>
    match ParseAccessKey (zh_AccessKey host) with
    | Ok ak => Key_Set (set_scopes AccessKey_Type_Host
                 [AuthScope_Host_Write +:+ ":" +:+ Ipam.h_Id (zh_Host host); AuthScope_Package_Read] ak) m
    | Err _ => m
    end
  | None => m
  end.
Definition range_items {A} `{Kv S A} (kv : S) (prefix : string) (limit : Z) : list (string * kv_item A) :=
  match kv_range kv prefix (range_end prefix) limit with KvOk items => items | _ => [] end.
Definition RefreshAccessKeysFromDB (a : authn S) : authn S :=
  let m := foldl refresh_key (au_keys a) (range_items (au_kv a) (NsZoneletAccessKey zone "") 1000) in
  with_keys (foldl refresh_host_key m (range_items (au_kv a) (NsHostInfo zone "") Zonelet_MaxHosts)) a.

Definition SaveAccessKey (k : AccessKey) (a : authn S) : result unit * authn S :=
  if bool_decide (ak_Id k = "" \/ ak_Secret k = "") then (Err "access key id and secret are required", a) else
  match kv_write (au_kv a) kv_default (NsZoneletAccessKey zone (ak_Id k)) k with
  | (kv, KvOk _) => (Ok tt, {| au_kv := kv; au_keys := Key_Set k (au_keys a) |})
  | (kv, rs) => (Err ("failed to save access key: " +:+ kv_msg rs), {| au_kv := kv; au_keys := au_keys a |})
  end.

Definition DeleteAccessKey (keyId : string) (a : authn S) : result unit * authn S :=
  if bool_decide (keyId = "") then (Err "access key id is required", a) else
  match kv_read (V := AccessKey) (au_kv a) (NsZoneletAccessKey zone keyId) with
  | KvNotFound => (if bool_decide (is_Some (Key keyId (au_keys a)))
                   then Err "key is config-declared, revoke it via innerstack.toml" else Ok tt, a)
  | KvErr e => (Err ("failed to load access key: " +:+ e), a)
  | KvOk _ =>
    match kv_delete (V := AccessKey) (au_kv a) (NsZoneletAccessKey zone keyId) with
    | (kv, KvErr e) => (Err ("failed to delete access key: " +:+ e), {| au_kv := kv; au_keys := au_keys a |})
    | (kv, _) => (Ok tt, {| au_kv := kv; au_keys := Key_Del keyId (au_keys a) |})
    end
  end.

(** [AccessKeysOf]; [None] without enough fuel. *)
Definition key_wanted (userId : string) (k : AccessKey) : bool := bool_decide (userId = "") || bool_decide (ak_User k = userId).
Definition AccessKeysOf (userId pageToken : string) (pageSize : Z) (kv : S) : option (result (list AccessKey * string)) :=
  let prefix := NsZoneletAccessKey zone "" in
  paged_scan (key_wanted userId) ak_Id fuel kv (prefix +:+ pageToken) (range_end prefix)
    (if pageSize <=? 0 then AccessKeyPageSizeDefault else pageSize).
Definition out_of_fuel {A} (r : option (result A)) : result A := default (Err "out of fuel") r.

(** [SetUserKeysEnabled] *)
Fixpoint set_keys_enabled (enabled : bool) (keys : list AccessKey) (a : authn S) : result unit * authn S :=
  match keys with
  | [] => (Ok tt, a)
  | k :: rest =>
    if Bool.eqb enabled (negb (bool_decide (ak_State k = AccessKey_State_Disable))) then set_keys_enabled enabled rest a else
    let k := set_state (if enabled then AccessKey_State_Active else AccessKey_State_Disable) k in
    match kv_write (au_kv a) kv_default (NsZoneletAccessKey zone (ak_Id k)) k with
    | (kv, KvOk _) =>
      set_keys_enabled enabled rest
        {| au_kv := kv; au_keys := if enabled then Key_Set k (au_keys a) else Key_Del (ak_Id k) (au_keys a) |}
    | (kv, rs) => (Err ("failed to save access key: " +:+ kv_msg rs), {| au_kv := kv; au_keys := au_keys a |})
    end
  end.
Definition SetUserKeysEnabled (userId : string) (enabled : bool) (a : authn S) : result unit * authn S :=
  match out_of_fuel (AccessKeysOf userId "" AccessKeyPageSizeMax (au_kv a)) with
  | Err e => (Err e, a)
  | Ok (keys, _) => set_keys_enabled enabled keys a
  end.

(** * Users *)

Definition userGet (name : string) (kv : S) : result (option User) :=
  match kv_read (V := User) kv (NsZoneletUser zone name) with
  | KvNotFound => Ok None
  | KvErr e => Err ("failed to load user: " +:+ e)
  | KvOk it => match it_value it with Some u => Ok (Some u) | None => Err "failed to decode user" end
  end.

Record UserSetRequest := { sr_Name : string; sr_Description : string; sr_State : string }.

(** [UserSet] in its three parts: the row to write with whether the keys follow, the
    cascade, and the write. *)
Definition UserSet_begin (who : caller) (now : Z) (req : UserSetRequest) (a : authn S) : result (User * bool) :=
  let? _ := allow_leader who AuthScope_Zone_Write in
  let? _ := NameValid (sr_Name req) in
  let? existing := userGet (sr_Name req) (au_kv a) in
  let state := if bool_decide (sr_State req <> "") then sr_State req
               else match existing with Some u => us_State u | None => UserStateActive end in
  if negb (validUserState state) then Err "invalid state: active | disabled" else
  let old_description := match existing with Some u => us_Description u | None => "" end in
  Ok ({| us_Name := sr_Name req;
         us_Description := if bool_decide (sr_Description req <> "") then sr_Description req else old_description;
         us_State := state; us_Created := match existing with Some u => us_Created u | None => now end; us_Updated := now |},
      match existing with Some u => negb (bool_decide (us_State u = state)) | None => true end).
Definition UserSet_cascade (job : User * bool) (a : authn S) : result unit * authn S :=
  if snd job then SetUserKeysEnabled (us_Name (fst job)) (bool_decide (us_State (fst job) = UserStateActive)) a else (Ok tt, a).
Definition UserSet_finish (job : User * bool) (a : authn S) : result User * authn S :=
  match kv_write (au_kv a) kv_default (NsZoneletUser zone (us_Name (fst job))) (fst job) with
  | (kv, KvOk _) => (Ok (fst job), {| au_kv := kv; au_keys := au_keys a |})
  | (kv, rs) => (Err ("failed to save user: " +:+ kv_msg rs), {| au_kv := kv; au_keys := au_keys a |})
  end.
Definition UserSet (who : caller) (now : Z) (req : UserSetRequest) (a : authn S) : result User * authn S :=
  match UserSet_begin who now req a with
  | Err e => (Err e, a)
  | Ok job =>
    match UserSet_cascade job a with
    | (Err e, a) => (Err e, a)
    | (Ok _, a) => UserSet_finish job a
    end
  end.

Definition UserGet (who : caller) (name : string) (a : authn S) : result User :=
  let? _ := allow_leader who AuthScope_Zone_Read in
  if bool_decide (name = "") then Err "user name is required" else
  let? found := userGet name (au_kv a) in
  match found with Some u => Ok u | None => Err "user not found" end.

Definition UserDelete (who : caller) (name : string) (a : authn S) : result unit * authn S :=
  match (let? _ := allow_leader who AuthScope_Zone_Write in
         if bool_decide (name = "") then Err "user name is required" else
         let? page := out_of_fuel (AccessKeysOf name "" AccessKeyPageSizeMax (au_kv a)) in
         match fst page with [] => Ok tt | _ => Err "user still has access keys, revoke them first" end) with
  | Err e => (Err e, a)
  | Ok _ =>
    match kv_delete (V := User) (au_kv a) (NsZoneletUser zone name) with
    | (kv, KvErr e) => (Err ("failed to delete user: " +:+ e), {| au_kv := kv; au_keys := au_keys a |})
    | (kv, _) => (Ok tt, {| au_kv := kv; au_keys := au_keys a |})
    end
  end.

Definition page_size (n dflt max : Z) : Z := let n := if n <=? 0 then dflt else n in if max <? n then max else n.

Definition UserList (who : caller) (state pageToken : string) (pageSize : Z) (a : authn S) : result (list User * string) :=
  let? _ := allow_leader who AuthScope_Zone_Read in
  if bool_decide (state <> "") && negb (validUserState state) then Err "invalid state filter: active | disabled" else
  let prefix := NsZoneletUser zone "" in
  out_of_fuel (paged_scan (fun u => bool_decide (state = "") || bool_decide (us_State u = state)) us_Name fuel (au_kv a)
    (prefix +:+ pageToken) (range_end prefix) (page_size pageSize UserPageSizeDefault UserPageSizeMax)).

(** [AccessKeySet]; [id] and [secret] are the draws of [NewAccessKey]. *)
Definition AccessKeySet (who : caller) (user : string) (scopes : list string) (id secret : string) (a : authn S)
  : result string * authn S :=
  match (let? _ := allow_leader who AuthScope_Zone_Write in
         if bool_decide (user = "") then Err "user is required"
         else if bool_decide (scopes = []) then Err "at least one scope is required"
         else let? found := userGet user (au_kv a) in
              match found with
              | None => Err "user not found"
              | Some u => if bool_decide (us_State u = UserStateDisabled) then Err "user is disabled" else Ok tt
              end) with
  | Err e => (Err e, a)
  | Ok _ =>
    let k := {| ak_Id := id; ak_Secret := secret; ak_User := user; ak_Type := "User"; ak_State := ""; ak_Scopes := scopes |} in
    match SaveAccessKey k a with
    | (Err e, a) => (Err e, a)
    | (Ok _, a) => (Ok (Export (Some k)), a)
    end
  end.

Definition AccessKeyDelete (who : caller) (keyId : string) (a : authn S) : result unit * authn S :=
  match allow_leader who AuthScope_Zone_Write with
  | Err e => (Err e, a)
  | Ok _ => DeleteAccessKey keyId a
  end.

(** [AccessKeyList]: the items carry no secret. *)
Record AccessKeyItem := { ki_KeyId : string; ki_User : string; ki_Type : string; ki_Scopes : list string; ki_State : string }.
Definition key_item (k : AccessKey) : AccessKeyItem :=
  {| ki_KeyId := ak_Id k; ki_User := ak_User k; ki_Type := ak_Type k; ki_Scopes := ak_Scopes k; ki_State := ak_State k |}.
Definition AccessKeyList (who : caller) (user pageToken : string) (pageSize : Z) (a : authn S) : result (list AccessKeyItem * string) :=
  let? _ := allow_leader who AuthScope_Zone_Read in
  let? page := out_of_fuel (AccessKeysOf user pageToken (page_size pageSize AccessKeyPageSizeDefault AccessKeyPageSizeMax) (au_kv a)) in
  Ok (map key_item (fst page), snd page).
End keys.
