(* ===== verification/UsersLogic.v ===== *)
(** The listings of users and keys end and are complete, and disabling a user disables
    every key of the user. *)
From Stdlib Require Import ZArith Lia Sorted.
From S2P Require Import Prelude GoStrings Ns Kv Paging Auth Packages Zone Users.
Local Open Scope string_scope.
Local Open Scope Z_scope.
Local Open Scope go_scope.

(** * Lists *)

Lemma omap_split {A B} (f : A -> option B) l m1 x m2 : omap f l = (m1 ++ x :: m2)%list ->
  exists l1 e l2, l = (l1 ++ e :: l2)%list /\ f e = Some x /\ omap f l1 = m1 /\ omap f l2 = m2.
Proof.
  revert m1. induction l as [|y l IH]; intros m1; cbn; [by destruct m1|]. destruct (f y) as [b|] eqn:Ef.
  - destruct m1 as [|b' m1]; cbn; intros [= -> E].
    + exists [], y, l. done.
    + destruct (IH m1 E) as (l1 & e & l2 & -> & He & E1 & E2). exists (y :: l1), e, l2. cbn. rewrite Ef. by rewrite E1.
  - intros E. destruct (IH m1 E) as (l1 & e & l2 & -> & He & E1 & E2). exists (y :: l1), e, l2. cbn. rewrite Ef. done.
Qed.

Lemma length_omap {A B} (f : A -> option B) (l : list A) : (length (omap f l) <= length l)%nat.
Proof. induction l as [|x l IH]; [done|]. cbn. destruct (f x); cbn; lia. Qed.

(** * Scans *)

Section scan.
Context {S A : Type} {K : Kv S A} {RL : KvRangeLaws K}.
Variable want : A -> bool.
Variable cursor : A -> string.
Implicit Types (kv : S) (items : list (string * kv_item A)).

Definition matching (e : string * kv_item A) : option A := a ← it_value (snd e); if want a then Some a else None.
Definition matches kv lo hi : list A := omap matching (entries_in kv (lo, hi)).

(** The answer of a scan that found [m]. *)
Definition answer (size : Z) (m : list A) : list A * string :=
  if Z.of_nat (length m) <=? size then (m, "")
  else (take (Z.to_nat size) m, match last (take (Z.to_nat size) m) with Some x => cursor x | None => "" end).

Lemma scan_items_spec size items acc : Z.of_nat (length acc) <= size ->
  fold_items (scan_item want cursor size) acc items =
  let m := (acc ++ omap matching items)%list in
  if Z.of_nat (length m) <=? size then inl m else inr (answer size m).
Proof.
  cbn zeta. revert acc. induction items as [|[k it] items IH]; intros acc Hl; cbn [fold_items].
  - cbn. rewrite app_nil_r. destruct (Z.leb_spec (Z.of_nat (length acc)) size); [done|lia].
  - assert (Em : matching (k, it) = a ← it_value it; if want a then Some a else None) by done.
    change (omap matching ((k, it) :: items)) with
      (match matching (k, it) with Some y => y :: omap matching items | None => omap matching items end). rewrite !Em.
    unfold scan_item at 1. cbn [snd]. destruct (it_value it) as [a|]; cbn [mbind option_bind]; [|by apply IH].
    destruct (want a); cbn [negb]; [|by apply IH]. destruct (Z.leb_spec size (Z.of_nat (length acc))).
    + destruct (Z.leb_spec (Z.of_nat (length (acc ++ a :: omap matching items)%list)) size) as [Hx|_]; [rewrite length_app in Hx; cbn in Hx; lia|].
      unfold answer. destruct (Z.leb_spec (Z.of_nat (length (acc ++ a :: omap matching items)%list)) size) as [Hx|_];
        [rewrite length_app in Hx; cbn in Hx; lia|].
      rewrite take_app_le by lia. rewrite (firstn_all2 acc) by lia. done.
    + rewrite IH by (rewrite length_app; cbn; lia). rewrite <- app_assoc. done.
Qed.

(** A scan ends, with the first matches of its range. *)
Lemma paged_scan_spec fuel kv lo hi size : scannable kv -> (length (kv_entries kv) < fuel)%nat -> 0 <= size ->
  paged_scan want cursor fuel kv lo hi size = Some (Ok (answer size (matches kv lo hi))).
Proof.
  intros Hsc Hf Hs. unfold paged_scan. rewrite (page_loop_spec _ _ _ _ (entries_in kv)); [|by apply asc_pages| |done].
  - rewrite scan_items_spec by (cbn; lia). cbn zeta. rewrite app_nil_l. unfold matches, answer.
    by destruct (Z.leb_spec (Z.of_nat (length (omap matching (entries_in kv (lo, hi))))) size).
  - eapply Nat.le_lt_trans; [apply length_filter|exact Hf].
Qed.
End scan.

(** * The listing of keys *)

Section listing.
Context {S : Type} {K : Kv S zone_value} {RL : KvRangeLaws K}.
Variables (zone : string) (fuel : nat).
Implicit Types (kv : S) (k : AccessKey).

(** The key stored under an id; an id a page token can name; each key under its own id. *)
Definition stored kv (id : string) k : Prop :=
  exists it, kv_read (V := AccessKey) kv (NsZoneletAccessKey zone id) = KvOk it /\ it_value it = Some k.
Definition listable (id : string) : Prop := id <> "" /\ String.leb id (range_end "") = true.
Definition keyed kv : Prop := forall id k, listable id -> stored kv id k -> ak_Id k = id.

(** The keys of a user ([""]: of all) above an id. *)
Definition wanted kv user token : list AccessKey :=
  matches (key_wanted user) kv (NsZoneletAccessKey zone "" +:+ token) (range_end (NsZoneletAccessKey zone "")).

Lemma key_prefix id : NsZoneletAccessKey zone id = NsZoneletAccessKey zone "" +:+ id.
Proof. unfold NsZoneletAccessKey. by rewrite !s_app_assoc. Qed.

Lemma key_in_range token key : str_lt (NsZoneletAccessKey zone "" +:+ token) key = true ->
  String.leb key (range_end (NsZoneletAccessKey zone "")) = true ->
  exists id, key = NsZoneletAccessKey zone id /\ listable id /\ str_lt token id = true.
Proof.
  intros Hlt Hle. destruct (prefix_range (NsZoneletAccessKey zone "") key) as [id ->]; [|done|].
  { destruct token; [by rewrite s_app_nil_r in Hlt|]. eapply str_lt_trans; [|exact Hlt].
    rewrite <- (s_app_nil_r (NsZoneletAccessKey zone "")) at 1. by rewrite str_lt_app. }
  exists id. rewrite <- key_prefix. unfold range_end in Hle. rewrite str_lt_app in Hlt. split_and!; [done| |done].
  apply str_le_lt in Hle. split; [intros ->; by destruct token|]. apply str_le_lt.
  destruct Hle as [E%(inj _)|Hle]; [by left|right]. by rewrite str_lt_app in Hle.
Qed.
Lemma in_key_range token id (it : kv_item AccessKey) : listable id -> str_lt token id = true ->
  in_range (NsZoneletAccessKey zone "" +:+ token) (range_end (NsZoneletAccessKey zone "")) (NsZoneletAccessKey zone id, it).
Proof.
  intros [_ Hle] Hlt. split; cbn [fst]; rewrite (key_prefix id); [by rewrite str_lt_app|].
  unfold range_end in *. apply str_le_lt in Hle. apply str_le_lt. destruct Hle as [E|Hle]; [left; by rewrite E|right; by rewrite str_lt_app].
Qed.

(** The keys wanted are those stored. *)
Lemma wanted_stored kv user token k : keyed kv ->
  k ∈ wanted kv user token <-> exists id, listable id /\ str_lt token id = true /\ stored kv id k /\ key_wanted user k = true.
Proof.
  intros Hk. unfold wanted, matches. rewrite list_elem_of_omap. split.
  - intros ([key it] & Hin & Hm). apply list_elem_of_filter in Hin as [[H1 H2] Hin]. cbn in H1, H2.
    destruct (key_in_range _ _ H1 H2) as (id & -> & Hid & Hlt). exists id. apply kv_entries_read in Hin.
    unfold matching in Hm. cbn in Hm. destruct (it_value it) as [k'|] eqn:Ev; [|done]. cbn in Hm.
    destruct (key_wanted user k') eqn:Ew; [|done]. injection Hm as ->. split_and!; [done..|by exists it|done].
  - intros (id & Hid & Hlt & (it & Hr & Ev) & Hw). exists (NsZoneletAccessKey zone id, it). split.
    + apply list_elem_of_filter. split; [by apply in_key_range|]. by apply kv_entries_read.
    + unfold matching. cbn. rewrite Ev. cbn. by rewrite Hw.
Qed.

(** The entry of a wanted key. *)
Lemma wanted_entry kv user token e k : keyed kv ->
  e ∈ entries_in (V := AccessKey) kv (NsZoneletAccessKey zone "" +:+ token, range_end (NsZoneletAccessKey zone "")) ->
  matching (key_wanted user) e = Some k -> fst e = NsZoneletAccessKey zone (ak_Id k) /\ listable (ak_Id k).
Proof.
  intros Hk Hin Hm. destruct e as [key it]. apply list_elem_of_filter in Hin as [[H1 H2] Hin]. cbn in H1, H2.
  destruct (key_in_range _ _ H1 H2) as (id & -> & Hid & _). apply kv_entries_read in Hin.
  unfold matching in Hm. cbn in Hm. destruct (it_value it) as [k'|] eqn:Ev; [|done]. cbn in Hm.
  destruct (key_wanted user k'); [|done]. injection Hm as ->. rewrite (Hk id k Hid); [done|]. by exists it.
Qed.

(** Above a wanted key come the wanted keys after it. *)
Lemma wanted_after kv user token m1 k m2 : keyed kv -> wanted kv user token = (m1 ++ k :: m2)%list ->
  wanted kv user (ak_Id k) = m2 /\ ak_Id k <> "".
Proof.
  intros Hk E. unfold wanted, matches in E. apply omap_split in E as (l1 & [key it] & l2 & El & He & _ & E2).
  destruct (wanted_entry kv user token (key, it) k Hk) as [Ekey [Hid _]]; [rewrite El; set_solver|done|]. split; [|done].
  cbn [fst] in Ekey. unfold wanted, matches. rewrite <- key_prefix, <- Ekey.
  rewrite (range_after kv (NsZoneletAccessKey zone "" +:+ token) _ (l1 ++ [(key, it)])%list key it l2); [done| |apply last_snoc].
  rewrite El. by rewrite <- app_assoc.
Qed.

Lemma wanted_sorted kv user token : keyed kv ->
  StronglySorted (fun a b => str_lt (ak_Id a) (ak_Id b) = true) (wanted kv user token).
Proof.
  intros Hk. unfold wanted, matches. pose proof (fun e => wanted_entry kv user token e) as He.
  pose proof (entries_in_sorted (V := AccessKey) kv (NsZoneletAccessKey zone "" +:+ token, range_end (NsZoneletAccessKey zone ""))) as Hs.
  set (l := entries_in kv _) in *. clearbody l. induction Hs as [|e l _ IH Hl]; [constructor|]. cbn.
  assert (IH' : StronglySorted (fun a b => str_lt (ak_Id a) (ak_Id b) = true) (omap (matching (key_wanted user)) l)).
  { apply IH. intros e' k Hk' Hin. apply He; [done|set_solver]. }
  destruct (matching (key_wanted user) e) as [k|] eqn:Em; [|done]. constructor; [done|]. rewrite Forall_forall.
  intros k' (e' & Hin & Em')%list_elem_of_omap. destruct (He e k Hk ltac:(set_solver) Em) as [E _].
  destruct (He e' k' Hk ltac:(set_solver) Em') as [E' _]. rewrite Forall_forall in Hl. specialize (Hl e' Hin). unfold in_order in Hl.
  rewrite E, E', (key_prefix (ak_Id k)), (key_prefix (ak_Id k')), str_lt_app in Hl. done.
Qed.

Definition enough kv : Prop := scannable (V := AccessKey) kv /\ (length (kv_entries (V := AccessKey) kv) < fuel)%nat.

Lemma AccessKeysOf_spec kv user token size : enough kv -> 0 < size ->
  AccessKeysOf zone fuel user token size kv = Some (Ok (answer ak_Id size (wanted kv user token))).
Proof.
  intros [Hsc Hf] Hs. unfold AccessKeysOf. destruct (Z.leb_spec size 0); [lia|].
  by rewrite paged_scan_spec by (done || lia).
Qed.

(** The pages a client gets that follows the page tokens. *)
Fixpoint key_pages (n : nat) kv (user token : string) (size : Z) : option (list (list AccessKey)) :=
  match n with
  | O => None
  | Datatypes.S n =>
    match AccessKeysOf zone fuel user token size kv with
    | Some (Ok (keys, next)) =>
      if bool_decide (next = "") then Some [keys] else cons keys <$> key_pages n kv user next size
    | _ => None
    end
  end.

Lemma key_pages_spec kv user size n token : enough kv -> keyed kv -> 0 < size -> (length (wanted kv user token) < n)%nat ->
  exists pages, key_pages n kv user token size = Some pages /\ concat pages = wanted kv user token /\
    Forall (fun page => Z.of_nat (length page) <= size) pages.
Proof.
  intros He Hk Hs. revert token. induction n as [|n IH]; intros token Hn; [lia|]. cbn [key_pages].
  rewrite AccessKeysOf_spec by done. unfold answer. destruct (Z.leb_spec (Z.of_nat (length (wanted kv user token))) size) as [Hle|Hgt].
  - rewrite bool_decide_true by done. exists [wanted kv user token]. cbn. rewrite app_nil_r. split_and!; [done|done|]. by repeat constructor.
  - set (page := take (Z.to_nat size) (wanted kv user token)).
    assert (Hlen : length page = Z.to_nat size) by (unfold page; rewrite length_take; lia).
    assert (Esplit := take_drop (Z.to_nat size) (wanted kv user token)). fold page in Esplit.
    destruct (last page) as [k|] eqn:El; [|apply last_None in El; rewrite El in Hlen; cbn in Hlen; lia].
    apply last_Some in El as [front Ep]. rewrite Ep, <- app_assoc in Esplit. cbn [app] in Esplit. symmetry in Esplit.
    destruct (wanted_after _ _ _ _ _ _ Hk Esplit) as [Eafter Hid]. rewrite bool_decide_false by done.
    destruct (IH (ak_Id k)) as (pages & Hp & Hc & Hl).
    { rewrite Eafter. rewrite Esplit, length_app in Hn. cbn [length] in Hn. lia. }
    rewrite Hp. cbn. exists (page :: pages). split_and!; [done| |constructor; [lia|done]].
    cbn. rewrite Hc, Eafter, Ep, <- app_assoc. by symmetry.
Qed.

(** C20: A client that follows the page tokens of the key listing gets every key of the user
    that the database holds, once and in the order of their ids, in pages of at most the
    size asked for.  No scan and no sequence of pages goes on for ever. *)
Theorem key_pages_complete kv (user : string) (size : Z) : enough kv -> keyed kv -> 0 < size ->
  exists pages, key_pages fuel kv user "" size = Some pages /\
    Forall (fun page => Z.of_nat (length page) <= size) pages /\
    StronglySorted (fun a b => str_lt (ak_Id a) (ak_Id b) = true) (concat pages) /\
    forall k, k ∈ concat pages <-> listable (ak_Id k) /\ stored kv (ak_Id k) k /\ (user = "" \/ ak_User k = user).
Proof.
  intros He Hk Hs. destruct (key_pages_spec kv user size fuel "" He Hk Hs) as (pages & Hp & Hc & Hl).
  { destruct He as [_ Hf]. eapply Nat.le_lt_trans; [|exact Hf]. unfold wanted, matches.
    etrans; [apply length_omap|apply length_filter]. }
  exists pages. rewrite Hc. split_and!; [done|done|by apply wanted_sorted|]. intros k. rewrite wanted_stored by done.
  unfold key_wanted. setoid_rewrite orb_true_iff. setoid_rewrite bool_decide_eq_true. split.
  - intros (id & Hid & _ & Hst & Hu). rewrite (Hk id k Hid Hst). done.
  - intros (Hid & Hst & Hu). exists (ak_Id k). split_and!; [done| |done|done]. destruct Hid as [Hid _]. by destruct (ak_Id k).
Qed.
End listing.

(** * The keys of a disabled user *)

Section revoke.
Context {S : Type} {K : Kv S zone_value} {L : KvLaws K} {RL : KvRangeLaws K}.
Variables (zone : string) (fuel : nat).
Implicit Types (kv : S) (a : authn S) (k : AccessKey).

Lemma key_name_inj id id' : NsZoneletAccessKey zone id = NsZoneletAccessKey zone id' -> id = id'.
Proof. rewrite (key_prefix zone id), (key_prefix zone id'). by intros ?%(inj _). Qed.
Lemma user_not_key name id : NsZoneletUser zone name <> NsZoneletAccessKey zone id.
Proof. unfold NsZoneletUser, NsZoneletAccessKey. intros E. do 3 apply (inj _) in E. discriminate. Qed.

Lemma stored_eq kv kv' id k : kv_read (V := zone_value) kv' (NsZoneletAccessKey zone id) = kv_read kv (NsZoneletAccessKey zone id) ->
  stored zone kv' id k <-> stored zone kv id k.
Proof. intros E. unfold stored. cbn [kv_read zone_Kv]. by rewrite E. Qed.
Lemma stored_fun kv id k k' : stored zone kv id k -> stored zone kv id k' -> k = k'.
Proof. intros (it & R & E) (it' & R' & E'). rewrite R in R'. injection R' as <-. congruence. Qed.

(** What is stored after a write of a key. *)
Lemma key_written kv o id k kv' n : kv_write (V := AccessKey) kv o (NsZoneletAccessKey zone id) k = (kv', KvOk n) ->
  stored zone kv' id k /\ forall key, key <> NsZoneletAccessKey zone id -> kv_read (V := zone_value) kv' key = kv_read kv key.
Proof.
  intros Hw. destruct (kv_write_ok (V := AccessKey) _ _ _ _ _ _ Hw) as (R & _). split; [by eexists|].
  by destruct (kv_write_ok (V := zone_value) _ _ _ _ _ _ Hw) as (_ & Fr & _).
Qed.

(** Saving a key keeps each key under its id. *)
Lemma SaveAccessKey_keyed k a : keyed zone (au_kv a) -> keyed zone (au_kv (snd (SaveAccessKey zone k a))).
Proof.
  unfold SaveAccessKey. case_bool_decide; [done|]. destruct (kv_write _ _ _ _) as [kv r] eqn:Ew. intros Hk.
  assert (Hkv : keyed zone kv); [|by destruct r]. intros id k' Hid Hst. destruct (kv_ok r) eqn:Er; [destruct r as [n| |]; [|done|done]|].
  - destruct (key_written _ _ _ _ _ _ Ew) as [Hnew Hfr]. destruct (decide (id = ak_Id k)) as [->|Hne].
    + by rewrite (stored_fun _ _ _ _ Hst Hnew).
    + apply (Hk id k' Hid). eapply stored_eq; [|exact Hst]. symmetry. apply Hfr. by intros ?%key_name_inj.
  - apply (Hk id k' Hid). eapply stored_eq; [|exact Hst]. symmetry. apply (kv_write_fail (V := zone_value) _ _ _ _ _ _ Ew).
    by intros n ->.
Qed.

Lemma set_state_id k : ak_State k = AccessKey_State_Disable -> set_state AccessKey_State_Disable k = k.
Proof. by destruct k as [? ? ? ? s ?]; cbn; intros ->. Qed.

(** The cascade over keys of distinct ids. *)
Lemma set_keys_disabled keys a a' : set_keys_enabled zone false keys a = (Ok tt, a') -> NoDup (map ak_Id keys) ->
  (forall k, k ∈ keys -> stored zone (au_kv a) (ak_Id k) k) ->
  (forall key, (forall k, k ∈ keys -> key <> NsZoneletAccessKey zone (ak_Id k)) ->
    kv_read (V := zone_value) (au_kv a') key = kv_read (au_kv a) key) /\
  (forall id, Key id (au_keys a) = None -> Key id (au_keys a') = None) /\
  (forall k, k ∈ keys -> stored zone (au_kv a') (ak_Id k) (set_state AccessKey_State_Disable k) /\
    (ak_State k <> AccessKey_State_Disable -> Key (ak_Id k) (au_keys a') = None)).
Proof.
  revert a. induction keys as [|k keys IH]; intros a; cbn [set_keys_enabled map].
  { intros [= <-] _ _. split_and!; [done|done|set_solver]. }
  intros Hrun [Hni Hnd]%NoDup_cons Hst.
  assert (Hother : forall k', k' ∈ keys -> NsZoneletAccessKey zone (ak_Id k') <> NsZoneletAccessKey zone (ak_Id k)).
  { intros k' Hin E%key_name_inj. apply Hni. rewrite <- E. by apply (list_elem_of_fmap_2 ak_Id). }
  case_bool_decide as Ed; cbn [negb Bool.eqb] in Hrun.
  - destruct (IH a Hrun Hnd) as (Fr & Mgr & Hk); [set_solver|]. split_and!; [set_solver|done|].
    intros k' [->|Hin]%elem_of_cons; [|by apply Hk]. split; [|done]. rewrite set_state_id by done.
    eapply stored_eq; [|apply Hst; set_solver]. apply Fr. intros k' Hin E. by destruct (Hother k' Hin).
  - destruct (kv_write _ _ _ _) as [kv [n| |e]] eqn:Ew; [|done|done]. destruct (key_written _ _ _ _ _ _ Ew) as [Hnew Hfr]. cbn [ak_Id set_state] in *.
    destruct (IH _ Hrun Hnd) as (Fr & Mgr & Hk); cbn [au_kv au_keys] in *.
    { intros k' Hin. eapply stored_eq; [|apply Hst; set_solver]. by apply Hfr, Hother. }
    split_and!.
    + intros key Hkey. rewrite Fr by set_solver. apply Hfr. apply (Hkey k). set_solver.
    + intros id Hid. apply Mgr. unfold Key, Key_Del in *. cbn. by apply lookup_delete_None; right.
    + intros k' [->|Hin]%elem_of_cons; [|by apply Hk]. split.
      * eapply stored_eq; [|exact Hnew]. apply Fr. intros k' Hin E. by destruct (Hother k' Hin).
      * intros _. apply Mgr. unfold Key, Key_Del. cbn. by rewrite lookup_delete_eq.
Qed.

Lemma sorted_ids_nodup l : StronglySorted (fun x y => str_lt (ak_Id x) (ak_Id y) = true) l -> NoDup (map ak_Id l).
Proof.
  induction 1 as [|x l _ IH Hx]; [constructor|]. cbn. constructor; [|done]. intros (y & E & Hy)%list_elem_of_fmap.
  rewrite Forall_forall in Hx. specialize (Hx y Hy). rewrite E in Hx. by rewrite str_lt_irrefl in Hx.
Qed.

(** What the cascade does to the keys of a user of at most 1000 keys. *)
Lemma cascade_disables name a a' : enough fuel (au_kv a) -> keyed zone (au_kv a) ->
  Z.of_nat (length (wanted zone (au_kv a) name "")) <= AccessKeyPageSizeMax ->
  SetUserKeysEnabled zone fuel name false a = (Ok tt, a') ->
  forall id k, listable id -> ak_User k = name -> stored zone (au_kv a') id k ->
    ak_State k = AccessKey_State_Disable /\
    (forall k0, stored zone (au_kv a) id k0 -> ak_State k0 <> AccessKey_State_Disable -> Key id (au_keys a') = None).
Proof.
  intros He Hk Hmax Ec id k Hid Hu Hs. unfold SetUserKeysEnabled in Ec. rewrite AccessKeysOf_spec in Ec by done.
  cbn [out_of_fuel default from_option] in Ec. unfold answer in Ec.
  destruct (Z.leb_spec (Z.of_nat (length (wanted zone (au_kv a) name ""))) AccessKeyPageSizeMax); [|lia].
  assert (Hin_a : forall k, k ∈ wanted zone (au_kv a) name "" -> stored zone (au_kv a) (ak_Id k) k).
  { intros k' Hin. apply wanted_stored in Hin as (id' & Hid' & _ & Hst' & _); [|done]. by rewrite (Hk id' k' Hid' Hst'). }
  destruct (set_keys_disabled _ _ _ Ec) as (Hfr & _ & Hdis); [by apply sorted_ids_nodup, wanted_sorted|done|].
  destruct (decide (id ∈ map ak_Id (wanted zone (au_kv a) name ""))) as [(k0 & -> & Hin)%list_elem_of_fmap|Hno].
  - destruct (Hdis k0 Hin) as [Hs0 Hm0]. rewrite (stored_fun _ _ _ _ Hs Hs0). split; [done|].
    intros k1 H1 Hen. apply Hm0. by rewrite (stored_fun _ _ _ _ (Hin_a k0 Hin) H1).
  - exfalso. assert (Hs' : stored zone (au_kv a) id k).
    { eapply stored_eq; [|exact Hs]. symmetry. apply Hfr. intros k' Hin E%key_name_inj. apply Hno. rewrite E. by apply (list_elem_of_fmap_2 ak_Id). }
    apply Hno. rewrite <- (Hk id k Hid Hs'). apply (list_elem_of_fmap_2 ak_Id), wanted_stored; [done|]. exists id. split_and!; [done| |done|].
    + destruct Hid as [Hid _]. by destruct id.
    + unfold key_wanted. rewrite (bool_decide_true (ak_User k = name)) by done. apply orb_true_r.
Qed.

(** What a request to disable a user sets out to do. *)
Lemma disable_begin who now name description a job :
  (forall u, userGet zone name (au_kv a) = Ok (Some u) -> us_State u <> UserStateDisabled) ->
  UserSet_begin zone who now {| sr_Name := name; sr_Description := description; sr_State := UserStateDisabled |} a = Ok job ->
  us_Name (fst job) = name /\ us_State (fst job) = UserStateDisabled /\ snd job = true.
Proof.
  intros Hold. unfold UserSet_begin. cbn [sr_Name sr_State sr_Description].
  destruct (allow_leader _ _); [|done]. destruct (NameValid name); cbn [rbind]; [|done].
  destruct (userGet zone name (au_kv a)) as [old|]; [|done].
  change (bool_decide (UserStateDisabled <> "")) with true. cbn [validUserState negb]. intros [= <-]. cbn. split_and!; [done|done|].
  destruct old as [u|]; [|done]. specialize (Hold u eq_refl). by rewrite bool_decide_false.
Qed.

End revoke.

(** * A zone with two users *)

Definition ex_store : Type := mem_store zone_value.
Definition ex_save (k : AccessKey) (a : authn ex_store) : authn ex_store := snd (SaveAccessKey "z" k a).
Definition ex_user_key (id user : string) : AccessKey :=
  {| ak_Id := id; ak_Secret := "s"; ak_User := user; ak_Type := "User"; ak_State := ""; ak_Scopes := ["zone:ro"] |}.
Definition ex_auth : authn ex_store :=
  foldr ex_save {| au_kv := mem_empty; au_keys := NewAccessKeyManager |}
    [ex_user_key "a1" "alice"; ex_user_key "a2" "alice"; ex_user_key "b1" "bob"; ex_user_key "a3" "alice"].
Definition ex_who : caller := {| cl_leader := true; cl_key := Some (set_scopes "User" ["*"] (ex_user_key "root" "root")) |}.

Lemma mem_enough fuel (s : ex_store) : (length (kv_entries (V := AccessKey) s) < fuel)%nat -> enough fuel s.
Proof. by split. Qed.
Lemma ex_auth_keyed : keyed "z" (au_kv ex_auth).
Proof.
  unfold ex_auth, ex_save. cbn [foldr]. do 4 apply SaveAccessKey_keyed.
  intros id k _ (it & Hr & _). by vm_compute in Hr.
Qed.

(** Pages of two of the three keys of a user. *)
Lemma key_pages_complete_witness :
  exists pages, key_pages "z" 5 5 (au_kv ex_auth) "alice" "" 2 = Some pages /\ map (map ak_Id) pages = [["a1"; "a2"]; ["a3"]].
Proof.
  destruct (key_pages_complete "z" 5 (au_kv ex_auth) "alice" 2) as (pages & Hp & _).
  - apply mem_enough. vm_compute. lia.
  - apply ex_auth_keyed.
  - done.
  - exists pages. split; [exact Hp|]. vm_compute in Hp. by injection Hp as <-.
Defined.


(** The lock is not held until the row is written: a key created after the cascade and before
    the write stays enabled, and its user is disabled. *)
Lemma disable_race : exists job ex k a1 a2 a3,
  UserSet_begin "z" ex_who 7 {| sr_Name := "alice"; sr_Description := ""; sr_State := "disabled" |} ex = Ok job /\
  UserSet_cascade "z" 5 job ex = (Ok tt, a1) /\
  AccessKeySet "z" ex_who "alice" ["zone:ro"] "a9" "s" a1 = (Ok "ak_a9_s", a2) /\
  UserSet_finish "z" job a2 = (Ok (fst job), a3) /\
  (exists u, userGet "z" "alice" (au_kv a3) = Ok (Some u) /\ us_State u = UserStateDisabled) /\
  Key "a9" (au_keys a3) = Some k /\ stored "z" (au_kv a3) "a9" k /\ ak_User k = "alice" /\ ak_State k <> AccessKey_State_Disable.
Proof.
  set (ex := snd (UserSet "z" 5 ex_who 3 {| sr_Name := "alice"; sr_Description := ""; sr_State := "" |} ex_auth)).
  set (rb := UserSet_begin "z" ex_who 7 {| sr_Name := "alice"; sr_Description := ""; sr_State := "disabled" |} ex).
  set (job := match rb with Ok job => job | Err _ => (Build_User "" "" "" 0 0, false) end).
  set (a1 := snd (UserSet_cascade "z" 5 job ex)). set (a2 := snd (AccessKeySet "z" ex_who "alice" ["zone:ro"] "a9" "s" a1)).
  exists job, ex, (ex_user_key "a9" "alice"), a1, a2, (snd (UserSet_finish "z" job a2)).
  split_and!; [by vm_compute..| | | | |]; [eexists; by vm_compute|by vm_compute|eexists; by vm_compute|done|done].
Qed.
