(* ===== verification/AuditLog.v ===== *)
(** The audit log: [src/internal/audit/audit.go] and [store.go], the requests of
    [src/internal/zonelet/service_audit.go], and the settings of the log in
    [src/internal/config/config.go].

    A record is chained to the one before it by its hash.  [am_kv] is the database; the
    queue of records to write and the state of the writer are fields of the manager.  The
    canonical encoding of a record (the deterministic encoding of protobuf) is a parameter. *)
From Stdlib Require Import ZArith Lia.
From S2P Require Import Prelude GoStrings Ns Sha256 Kv Paging Auth Packages Zone.
Local Open Scope string_scope.
Local Open Scope Z_scope.
Local Open Scope go_scope.

Definition queueCap : Z := 1024.
Definition idTsHexWidth : nat := 12.
Definition verifyScanMax : Z := 1000000.
Definition auditScanPageSize : Z := 1000.
Definition ttlSlackMs : Z := 60 * 1000.
Definition AuditPageSizeDefault : Z := 100.
Definition AuditPageSizeMax : Z := 1000.
Definition AuditScanLimit : Z := 10000.
Definition AuditStatusOK : string := "ok".
Definition AuditStatusDenied : string := "denied".
Definition AuditStatusError : string := "error".
Definition AuditStatusUnauthenticated : string := "unauthenticated".
Definition AuthScope_Audit_Read : string := "audit:ro".

(** [config.AuditConfig] *)
Record AuditConfig := { ac_Enabled : option bool; ac_RetentionDays : option Z }.
Definition AuditConfig_Setup (it : AuditConfig) : AuditConfig :=
  {| ac_Enabled := Some (default true (ac_Enabled it)); ac_RetentionDays := Some (default 365 (ac_RetentionDays it)) |}.
Definition AuditConfig_On (it : AuditConfig) : bool := default false (ac_Enabled it).
Definition AuditConfig_RetentionMs (it : AuditConfig) : Z :=
  match ac_RetentionDays it with
  | Some days => if days <=? 0 then 0 else i64 (days * 86400000)
  | None => 0
  end.

(** ** Records *)

Definition with_hash (h : string) (r : AuditRecord) : AuditRecord :=
  {| ar_Zone := ar_Zone r; ar_RecordId := ar_RecordId r; ar_Ts := ar_Ts r; ar_ActorId := ar_ActorId r; ar_ActorUser := ar_ActorUser r;
     ar_ActorType := ar_ActorType r; ar_Action := ar_Action r; ar_SourceIp := ar_SourceIp r; ar_TargetType := ar_TargetType r;
     ar_TargetId := ar_TargetId r; ar_Status := ar_Status r; ar_Error := ar_Error r; ar_Detail := ar_Detail r;
     ar_PrevHash := ar_PrevHash r; ar_Hash := h; ar_DroppedBefore := ar_DroppedBefore r; ar_SuppressedCount := ar_SuppressedCount r |}.
(** A record with its place in the chain. *)
Definition placed (id : string) (ts dropped : Z) (prev : string) (r : AuditRecord) : AuditRecord :=
  {| ar_Zone := ar_Zone r; ar_RecordId := id; ar_Ts := ts; ar_ActorId := ar_ActorId r; ar_ActorUser := ar_ActorUser r;
     ar_ActorType := ar_ActorType r; ar_Action := ar_Action r; ar_SourceIp := ar_SourceIp r; ar_TargetType := ar_TargetType r;
     ar_TargetId := ar_TargetId r; ar_Status := ar_Status r; ar_Error := ar_Error r; ar_Detail := ar_Detail r;
     ar_PrevHash := prev; ar_Hash := ar_Hash r; ar_DroppedBefore := dropped; ar_SuppressedCount := ar_SuppressedCount r |}.

(** [protoMarshal], the deterministic encoding of protobuf; it refuses some records. *)
Class AuditCodec := { canonical : AuditRecord -> result string }.

Definition recordHash `{AuditCodec} (rec : AuditRecord) : result string :=
  match canonical (with_hash "" rec) with
  | Err e => Err ("audit record marshal: " +:+ e)
  | Ok b => Ok (sha256_hex b)
  end.

Definition AuditIdOfTs (ts : Z) : string := fmt_x idTsHexWidth ts.
Definition auditIdOfTs (ts : Z) : string := AuditIdOfTs ts +:+ "0000".
Definition minIdOfTs (ts : Z) : string := if ts <=? 0 then "" else AuditIdOfTs ts.
Definition maxIdOfTs (ts : Z) : string := if ts <=? 0 then range_end "" else range_end (AuditIdOfTs ts).
Definition minBytes (a b : string) : string := if String.leb a b then a else b.
Definition maxBytes (a b : string) : string := if String.leb b a then a else b.

Section store.
Context {S : Type} `{Kv S zone_value} `{KvRevert S zone_value} `{AuditCodec}.
Implicit Types (kv : S).

(** ** Queries *)

Record ListOptions := {
  lo_Zone : string; lo_StartTime : Z; lo_EndTime : Z; lo_ActorId : string; lo_ActorUser : string; lo_Action : string;
  lo_TargetId : string; lo_Status : string; lo_PageSize : Z; lo_Revert : bool; lo_PageToken : string }.

Definition matchRecord (rec : AuditRecord) (opt : ListOptions) : bool :=
  if (0 <? lo_StartTime opt) && (ar_Ts rec <? lo_StartTime opt) then false
  else if (0 <? lo_EndTime opt) && (lo_EndTime opt <? ar_Ts rec) then false
  else if bool_decide (lo_ActorId opt <> "") && bool_decide (ar_ActorId rec <> lo_ActorId opt) then false
  else if bool_decide (lo_ActorUser opt <> "") && bool_decide (ar_ActorUser rec <> lo_ActorUser opt) then false
  else if bool_decide (lo_Action opt <> "") && bool_decide (ar_Action rec <> lo_Action opt) then false
  else if bool_decide (lo_Status opt <> "") && bool_decide (ar_Status rec <> lo_Status opt) then false
  else if bool_decide (lo_TargetId opt <> "") && negb (String.prefix (lo_TargetId opt) (ar_TargetId rec)) then false
  else true.

(** The records found and the number of keys scanned. *)
Definition audit_item (opt : ListOptions) (limit : Z) (st : list AuditRecord * Z) (e : string * kv_item AuditRecord)
  : (list AuditRecord * Z) + (list AuditRecord * string) :=
  let '(items, scanned) := st in
  let scanned := scanned + 1 in
  match it_value (snd e) with
  | None => inl (items, scanned)
  | Some rec =>
    if negb (matchRecord rec opt) then inl (items, scanned)
    else if limit <? Z.of_nat (length (items ++ [rec])%list)
         then inr (take (Z.to_nat limit) (items ++ [rec])%list, match last (take (Z.to_nat limit) (items ++ [rec])%list) with Some r => ar_RecordId r | None => "" end)
         else inl ((items ++ [rec])%list, scanned)
  end.
Definition audit_fetch (revert : bool) (kv : S) (st : list AuditRecord * Z) (b : string * string)
  : kv_reply (list (string * kv_item AuditRecord)) :=
  let pageSize := Z.min auditScanPageSize (AuditScanLimit - snd st) in
  if revert then kv_range kv (fst b) (snd b) pageSize else kv_revert kv (fst b) (snd b) pageSize.
Definition audit_advance (revert : bool) (key : string) (b : string * string) : string * string :=
  if revert then (key, snd b) else (fst b, key).

Definition list_bounds (opt : ListOptions) : string * string :=
  let prefix := NsZoneletAuditLogPrefix (lo_Zone opt) in
  let lower := prefix +:+ minIdOfTs (lo_StartTime opt) in
  let upper := prefix +:+ maxIdOfTs (lo_EndTime opt) in
  if bool_decide (lo_PageToken opt <> "") then
    let cursor := prefix +:+ lo_PageToken opt in
    if lo_Revert opt then (maxBytes lower cursor, upper) else (lower, minBytes upper cursor)
  else (lower, upper).

(** [List]; [None] without enough fuel. *)
Definition List (fuel : nat) (kv : S) (opt : ListOptions) : option (result (list AuditRecord * string)) :=
  let limit := if lo_PageSize opt <=? 0 then AuditPageSizeDefault else lo_PageSize opt in
  let limit := if AuditPageSizeMax <? limit then AuditPageSizeMax else limit in
  match page_loop (audit_fetch (lo_Revert opt) kv) (audit_advance (lo_Revert opt)) (audit_item opt limit)
          (fun st => snd st <? AuditScanLimit) fuel ([], 0) (list_bounds opt) with
  | Ended (items, scanned) =>
    Some (Ok (items, if AuditScanLimit <=? scanned then match last items with Some r => ar_RecordId r | None => "" end else ""))
  | Answered answer => Some (Ok answer)
  | Failed _ e => Some (Err e)
  | Stopped _ => None
  end.

(** ** Verification *)

Record VerifyResult := {
  vr_Valid : bool; vr_Count : Z; vr_FirstId : string; vr_LastId : string; vr_HeadHash : string; vr_BrokenAt : string }.
Record verify_state := { vs_count : Z; vs_first : string; vs_last : string; vs_prev : option AuditRecord }.
Definition verify_answer (valid : bool) (head broken : string) (st : verify_state) : VerifyResult :=
  {| vr_Valid := valid; vr_Count := vs_count st; vr_FirstId := vs_first st; vr_LastId := vs_last st;
     vr_HeadHash := head; vr_BrokenAt := broken |}.

(** Whether a record may be the first that is left. *)
Definition tail_explained (anchors : gset string) (retention now : Z) (rec : AuditRecord) : bool :=
  bool_decide (ar_PrevHash rec = "") || bool_decide (ar_PrevHash rec ∈ anchors) ||
  ((0 <? retention) && (ar_Ts rec <=? i64 (i64 (now - retention) + ttlSlackMs))).

Definition verify_item (anchors : gset string) (retention now : Z) (st : verify_state) (e : string * kv_item AuditRecord)
  : verify_state + VerifyResult :=
  match it_value (snd e) with
  | None => inr (verify_answer false "" (fst e) st)
  | Some rec =>
    let st1 := {| vs_count := vs_count st + 1; vs_first := if bool_decide (vs_first st = "") then ar_RecordId rec else vs_first st;
                  vs_last := ar_RecordId rec; vs_prev := vs_prev st |} in
    let broken := inr (verify_answer false "" (ar_RecordId rec) st1) in
    if negb (match recordHash rec with Ok h => bool_decide (h = ar_Hash rec) | Err _ => false end) then broken
    else if (match vs_prev st with
             | None => tail_explained anchors retention now rec
             | Some prev => bool_decide (ar_PrevHash rec = ar_Hash prev)
             end)
    then inl {| vs_count := vs_count st1; vs_first := vs_first st1; vs_last := vs_last st1; vs_prev := Some rec |}
    else broken
  end.

(** The pages of a prefix, a thousand of them at most. *)
Definition prefix_bounds (prefix : string) : string * string := (prefix, range_end prefix).
Definition max_pages : nat := Z.to_nat (verifyScanMax / auditScanPageSize).
Definition prefix_loop {V St Ans} `{Kv S V} (item : St -> string * kv_item V -> St + Ans) (go : St -> bool) (fuel : nat)
  (kv : S) (st : St) (prefix : string) : loop_end St Ans :=
  page_loop (asc_fetch (fun _ => auditScanPageSize) kv) asc_advance item go fuel st (prefix_bounds prefix).

Definition anchor_item (anchors : gset string) (e : string * kv_item AuditAnchor) : gset string + unit :=
  inl (match it_value (snd e) with
       | Some a => if bool_decide (an_HeadHash a <> "") then {[an_HeadHash a]} ∪ anchors else anchors
       | None => anchors
       end).
Definition loadAnchors (kv : S) (zone : string) : result (gset string) :=
  match prefix_loop anchor_item (fun _ => true) max_pages kv ∅ (NsZoneletAuditAnchorPrefix zone) with
  | Ended anchors | Stopped anchors => Ok anchors
  | Answered _ => Ok ∅
  | Failed _ e => Err e
  end.

Definition verify_start : verify_state := {| vs_count := 0; vs_first := ""; vs_last := ""; vs_prev := None |}.
Definition verify_end (st : verify_state) : VerifyResult :=
  let head := match vs_prev st with Some r => ar_Hash r | None => "" end in
  if verifyScanMax <=? vs_count st then verify_answer false head "(scan limit)" st else verify_answer true head "" st.
Definition Verify (fuel : nat) (kv : S) (zone : string) (retention now : Z) : option VerifyResult :=
  match loadAnchors kv zone with
  | Err _ => Some (verify_answer false "" "(anchors)" verify_start)
  | Ok anchors =>
    match prefix_loop (verify_item anchors retention now) (fun st => vs_count st <? verifyScanMax) fuel kv verify_start
            (NsZoneletAuditLogPrefix zone) with
    | Ended st => Some (verify_end st)
    | Answered res => Some res
    | Failed st e => Some (verify_answer false "" ("(scan: " +:+ e +:+ ")") st)
    | Stopped _ => None
    end
  end.

(** ** The writer *)

(** [authFailureEntry], [authFailureCache] *)
Record authFailureEntry := { af_window : Z; af_suppressed : Z }.
Record authFailureCache := { fc_items : gmap string authFailureEntry; fc_inserts : Z }.

Record Manager := {
  am_kv : S; am_retentionMs : Z; am_queue : list AuditRecord; am_droppedTotal : Z; am_droppedPending : Z;
  am_writtenTotal : Z; am_lastTs : Z; am_prevHash : string; am_anchorDate : string; am_authFailures : authFailureCache }.

Definition with_store kv (m : Manager) : Manager :=
  {| am_kv := kv; am_retentionMs := am_retentionMs m; am_queue := am_queue m; am_droppedTotal := am_droppedTotal m;
     am_droppedPending := am_droppedPending m; am_writtenTotal := am_writtenTotal m; am_lastTs := am_lastTs m;
     am_prevHash := am_prevHash m; am_anchorDate := am_anchorDate m; am_authFailures := am_authFailures m |}.
Definition with_queue q total pending (m : Manager) : Manager :=
  {| am_kv := am_kv m; am_retentionMs := am_retentionMs m; am_queue := q; am_droppedTotal := total;
     am_droppedPending := pending; am_writtenTotal := am_writtenTotal m; am_lastTs := am_lastTs m;
     am_prevHash := am_prevHash m; am_anchorDate := am_anchorDate m; am_authFailures := am_authFailures m |}.
Definition with_head ts h (m : Manager) : Manager :=
  {| am_kv := am_kv m; am_retentionMs := am_retentionMs m; am_queue := am_queue m; am_droppedTotal := am_droppedTotal m;
     am_droppedPending := am_droppedPending m; am_writtenTotal := am_writtenTotal m; am_lastTs := ts;
     am_prevHash := h; am_anchorDate := am_anchorDate m; am_authFailures := am_authFailures m |}.
Definition with_written (m : Manager) : Manager :=
  {| am_kv := am_kv m; am_retentionMs := am_retentionMs m; am_queue := am_queue m; am_droppedTotal := am_droppedTotal m;
     am_droppedPending := am_droppedPending m; am_writtenTotal := am_writtenTotal m + 1; am_lastTs := am_lastTs m;
     am_prevHash := am_prevHash m; am_anchorDate := am_anchorDate m; am_authFailures := am_authFailures m |}.
Definition with_anchorDate d (m : Manager) : Manager :=
  {| am_kv := am_kv m; am_retentionMs := am_retentionMs m; am_queue := am_queue m; am_droppedTotal := am_droppedTotal m;
     am_droppedPending := am_droppedPending m; am_writtenTotal := am_writtenTotal m; am_lastTs := am_lastTs m;
     am_prevHash := am_prevHash m; am_anchorDate := d; am_authFailures := am_authFailures m |}.
Definition with_failures f (m : Manager) : Manager :=
  {| am_kv := am_kv m; am_retentionMs := am_retentionMs m; am_queue := am_queue m; am_droppedTotal := am_droppedTotal m;
     am_droppedPending := am_droppedPending m; am_writtenTotal := am_writtenTotal m; am_lastTs := am_lastTs m;
     am_prevHash := am_prevHash m; am_anchorDate := am_anchorDate m; am_authFailures := f |}.

(** [emit] *)
Definition emit (rec : AuditRecord) (m : Manager) : Manager :=
  if Z.of_nat (length (am_queue m)) <? queueCap
  then with_queue (am_queue m ++ [rec])%list (am_droppedTotal m) (am_droppedPending m) m
  else with_queue (am_queue m) (i64 (am_droppedTotal m + 1)) (i64 (am_droppedPending m + 1)) m.

(** [write]; [suffix] is the draw of [randHex]. *)
Definition write (clock : Z) (suffix : string) (rec : AuditRecord) (m : Manager) : Manager :=
  let now := if clock <=? am_lastTs m then i64 (am_lastTs m + 1) else clock in
  let rec := placed (AuditIdOfTs now +:+ suffix) now (i32 (am_droppedPending m)) (am_prevHash m) rec in
  let m := with_queue (am_queue m) (am_droppedTotal m) 0 m in
  match recordHash rec with
  | Err _ => with_head now (am_prevHash m) m
  | Ok h =>
    let rec := with_hash h rec in
    let m := with_head now h m in
    let opts := {| prev_version := 0; create_only := false; ttl_ms := if 0 <? am_retentionMs m then am_retentionMs m else 0 |} in
    match kv_write (am_kv m) opts (NsZoneletAuditLog (ar_Zone rec) (ar_RecordId rec)) rec with
    | (kv, KvOk _) => with_written (with_store kv m)
    | (kv, _) => with_store kv m
    end
  end.

(** A turn of [run] (and of [drain]): the record at the head of the queue is written. *)
Definition run_write (clock : Z) (suffix : string) (m : Manager) : Manager :=
  match am_queue m with
  | [] => m
  | rec :: queue => write clock suffix rec (with_queue queue (am_droppedTotal m) (am_droppedPending m) m)
  end.

Definition ChainHead (m : Manager) : string := am_prevHash m.
Definition Stats (m : Manager) : Z * Z := (am_writtenTotal m, am_droppedTotal m).
Definition zoneCandidates (zone : string) : list string := if bool_decide (zone <> "") then [zone; ""] else [zone].

(** [recoverChainHead] *)
Fixpoint recover_zones (zones : list string) (m : Manager) : result unit * Manager :=
  match zones with
  | [] => (Ok tt, m)
  | zone :: zones =>
    let prefix := NsZoneletAuditLogPrefix zone in
    match kv_revert (V := AuditRecord) (am_kv m) prefix (range_end prefix) 1 with
    | KvNotFound | KvOk [] => recover_zones zones m
    | KvErr e => (Err e, m)
    | KvOk ((_, it) :: _) =>
      match it_value it with
      | None => (Err "decode audit record", m)
      | Some rec =>
        recover_zones zones (if str_lt (auditIdOfTs (am_lastTs m)) (ar_RecordId rec) then with_head (ar_Ts rec) (ar_Hash rec) m else m)
      end
    end
  end.
Definition recoverChainHead (zone : string) (m : Manager) : result unit * Manager := recover_zones (zoneCandidates zone) m.

(** [Setup]: the manager, none when the log is disabled. *)
Definition Setup (zone : string) (cfg : AuditConfig) kv : option Manager :=
  if negb (AuditConfig_On cfg) then None else
  let cfg := AuditConfig_Setup cfg in
  Some (snd (recoverChainHead zone
    {| am_kv := kv; am_retentionMs := AuditConfig_RetentionMs cfg; am_queue := []; am_droppedTotal := 0; am_droppedPending := 0;
       am_writtenTotal := 0; am_lastTs := 0; am_prevHash := ""; am_anchorDate := "";
       am_authFailures := {| fc_items := ∅; fc_inserts := 0 |} |})).

(** [liveCount] *)
Definition count_item (n : Z) (e : string * kv_item AuditRecord) : Z + unit := inl (n + 1).
Fixpoint live_count (zones : list string) (total : Z) kv : result Z :=
  match zones with
  | [] => Ok total
  | zone :: zones =>
    match prefix_loop count_item (fun _ => true) max_pages kv total (NsZoneletAuditLogPrefix zone) with
    | Ended n | Stopped n => live_count zones n kv
    | Answered _ => Ok total
    | Failed _ e => Err e
    end
  end.

(** [anchorRefresh]; [today] is the local day. *)
Definition anchorRefresh (zone today : string) (m : Manager) : Manager :=
  if bool_decide (am_anchorDate m = today) then m else
  let m := with_anchorDate today m in
  if bool_decide (am_prevHash m = "") then m else
  match live_count (zoneCandidates zone) 0 (am_kv m) with
  | Err _ => m
  | Ok count =>
    let anchor := {| an_Date := today; an_HeadHash := am_prevHash m; an_Count := count |} in
    with_store (fst (kv_write (am_kv m) kv_default (NsZoneletAuditAnchor zone today) anchor)) m
  end.

(** ** Requests *)

Definition auditStatusValid (s : string) : bool :=
  bool_decide (s ∈ [AuditStatusOK; AuditStatusDenied; AuditStatusError; AuditStatusUnauthenticated]).

Definition AuditList (fuel : nat) (who : caller) (req : ListOptions) kv : result (list AuditRecord * string) :=
  let? _ := allow_leader who AuthScope_Audit_Read in
  if bool_decide (lo_Status req <> "") && negb (auditStatusValid (lo_Status req)) then Err "invalid status filter" else
  default (Err "out of fuel") (List fuel kv req).
Definition AuditVerify (fuel : nat) (who : caller) (zone : string) (retention now : Z) kv : result VerifyResult :=
  let? _ := allow_leader who AuthScope_Audit_Read in
  match Verify fuel kv zone retention now with Some res => Ok res | None => Err "out of fuel" end.
End store.
Arguments Manager : clear implicits.
