(* ===== verification/AuditLogic.v ===== *)
(** The audit log verifies: whatever is emitted, written and restarted, the records of the
    log are those that were accepted, in order, and [Verify] finds the chain whole; and two
    logs that verify with the same head hold the same records, unless two different
    records have the same hash. *)
From Stdlib Require Import ZArith Lia Sorted.
From S2P Require Import Prelude GoStrings Ns Sha256 Kv Paging Auth Packages Zone AuditLog.
Local Open Scope string_scope.
Local Open Scope Z_scope.
Local Open Scope go_scope.

Section chain.
Context `{AuditCodec}.

Definition hash_ok (r : AuditRecord) : Prop := recordHash r = Ok (ar_Hash r).
Fixpoint chained (prev : string) (l : list AuditRecord) : Prop :=
  match l with [] => True | r :: l => hash_ok r /\ ar_PrevHash r = prev /\ chained (ar_Hash r) l end.
Definition head_of (l : list AuditRecord) : string := match last l with Some r => ar_Hash r | None => "" end.

Lemma head_of_snoc l r : head_of (l ++ [r])%list = ar_Hash r.
Proof. unfold head_of. by rewrite last_snoc. Qed.
Lemma chained_snoc prev l r : chained prev l -> hash_ok r -> ar_PrevHash r = match l with [] => prev | _ => head_of l end ->
  chained prev (l ++ [r])%list.
Proof.
  revert prev. induction l as [|x l IH]; intros prev Hc Hr Ep; cbn in *; [done|]. destruct Hc as (Hx & Ex & Hc).
  split_and!; [done|done|]. apply IH; [done|done|]. unfold head_of in *. by destruct l.
Qed.

(** What [Verify] asks of the records, in order. *)
Definition link_ok (anchors : gset string) (retention now : Z) (prev : option AuditRecord) (r : AuditRecord) : Prop :=
  hash_ok r /\ match prev with
               | None => tail_explained anchors retention now r = true
               | Some p => ar_PrevHash r = ar_Hash p
               end.
Fixpoint links_ok anchors retention now (prev : option AuditRecord) (l : list AuditRecord) : Prop :=
  match l with [] => True | r :: l => link_ok anchors retention now prev r /\ links_ok anchors retention now (Some r) l end.

Lemma links_chained anchors retention now p l : links_ok anchors retention now (Some p) l <-> chained (ar_Hash p) l.
Proof. revert p. induction l as [|r l IH]; intros p; [done|]. cbn. rewrite IH. unfold link_ok. tauto. Qed.

(** The fold of [Verify] over the records. *)
Lemma verify_fold anchors retention now st (es : list (string * kv_item AuditRecord)) :
  match fold_items (verify_item anchors retention now) st es with
  | inl st' => exists l, map (fun e => it_value (snd e)) es = map Some l /\ links_ok anchors retention now (vs_prev st) l /\
      vs_count st' = vs_count st + Z.of_nat (length l) /\ vs_prev st' = match last l with Some r => Some r | None => vs_prev st end
  | inr res => vr_Valid res = false /\
      forall l, map (fun e => it_value (snd e)) es = map Some l -> ~ links_ok anchors retention now (vs_prev st) l
  end.
Proof.
  revert st. induction es as [|[k it] es IH]; intros st; cbn [fold_items].
  { exists []. cbn. split_and!; [done|done|lia|done]. }
  unfold verify_item at 1. cbn [fst snd]. cbn zeta. destruct (it_value it) as [r|] eqn:Ei.
  2:{ split; [done|]. intros [|r l]; cbn; rewrite ?Ei; discriminate. }
  destruct (match recordHash r with Ok h => bool_decide (h = ar_Hash r) | Err _ => false end) eqn:Eh; cbn [negb].
  2:{ split; [done|]. intros [|r' l]; cbn; rewrite Ei; [discriminate|]. intros [= <- _] [[Hr _] _]. unfold hash_ok in Hr.
      rewrite Hr in Eh. by rewrite bool_decide_true in Eh. }
  assert (Hr : hash_ok r).
  { unfold hash_ok. destruct (recordHash r); [|done]. apply bool_decide_eq_true in Eh. by rewrite Eh. }
  destruct (match vs_prev st with None => _ | Some prev => _ end) eqn:El.
  - assert (Hlink : link_ok anchors retention now (vs_prev st) r).
    { split; [done|]. destruct (vs_prev st); [by apply bool_decide_eq_true in El|done]. }
    match goal with |- context [fold_items _ ?st' es] => specialize (IH st') end.
    destruct (fold_items _ _ es) as [st'|res].
    + destruct IH as (l & E & Hl & Hc & Hp). exists (r :: l). rewrite last_cons. cbn. rewrite Ei, E. cbn in Hc, Hp. split; [done|]. split; [by split|]. split; [lia|].
      rewrite Hp. by destruct (last l).
    + destruct IH as [Hv Hno]. split; [done|]. intros [|r' l]; cbn; rewrite Ei; [discriminate|]. intros [= <- E] [_ Hl].
      by apply (Hno l E).
  - split; [done|]. intros [|r' l]; cbn; rewrite Ei; [discriminate|]. intros [= <- E] [[_ Hp] _].
    destruct (vs_prev st); [|congruence]. by rewrite bool_decide_true in El.
Qed.

End chain.

(** * The contents of the log *)

Section contents.
Context {S : Type} {K : Kv S zone_value} {RL : KvRangeLaws K} `{AuditCodec}.
Implicit Types (kv : S) (l : list AuditRecord).

Definition audit_entries kv zone : list (string * kv_item AuditRecord) := entries_in (V := AuditRecord) kv (prefix_bounds (NsZoneletAuditLogPrefix zone)).
(** The values of the log, [None] for one that is no record. *)
Definition log_records kv zone : list (option AuditRecord) := map (fun e => it_value (snd e)) (audit_entries kv zone).

Lemma scannable_view {V} `{ZoneVal V} kv : scannable (V := zone_value) kv -> scannable (V := V) kv.
Proof. intros Hs lo hi n e. cbn. specialize (Hs lo hi n). destruct (kv_range kv lo hi n) as [| |e']; [done|done|]. by destruct (Hs e'). Qed.

Lemma loadAnchors_ok kv zone : scannable (V := zone_value) kv -> exists anchors, loadAnchors kv zone = Ok anchors.
Proof.
  intros Hs. unfold loadAnchors, prefix_loop.
  destruct (page_loop_ends (asc_fetch (fun _ : gset string => auditScanPageSize) kv) asc_advance anchor_item (fun _ => true) max_pages ∅
    (prefix_bounds (NsZoneletAuditAnchorPrefix zone))) as [anchors [-> | ->]]; [|done|eauto|eauto].
  intros st b e. apply (scannable_view (V := AuditAnchor) kv Hs).
Qed.

(** [Verify] says valid exactly when every value is a record and every link holds. *)
Lemma verify_valid kv zone fuel retention now : scannable (V := zone_value) kv ->
  (length (audit_entries kv zone) < fuel)%nat -> Z.of_nat (length (audit_entries kv zone)) < verifyScanMax ->
  exists anchors res, loadAnchors kv zone = Ok anchors /\ Verify fuel kv zone retention now = Some res /\
    if vr_Valid res then exists l, log_records kv zone = map Some l /\ links_ok anchors retention now None l /\
      vr_HeadHash res = head_of l /\ vr_Count res = Z.of_nat (length l)
    else forall l, log_records kv zone = map Some l -> ~ links_ok anchors retention now None l.
Proof.
  intros Hs Hf Hmax. destruct (loadAnchors_ok kv zone Hs) as [anchors Ea]. unfold Verify. rewrite Ea.
  exists anchors. unfold prefix_loop. rewrite (page_loop_spec _ _ _ _ (entries_in kv)); [| |done|].
  - pose proof (verify_fold anchors retention now verify_start (audit_entries kv zone)) as Hv. unfold audit_entries in Hv.
    destruct (fold_items _ _ _) as [st|res].
    + destruct Hv as (l & E & Hl & Hc & Hp). eexists. split_and!; [done|done|]. cbn in Hc. unfold verify_end.
      assert (El : length l = length (audit_entries kv zone)) by (apply (f_equal length) in E; by rewrite !length_map in E).
      destruct (Z.leb_spec verifyScanMax (vs_count st)); [lia|]. cbn. exists l. split_and!; [done|done| |done].
      rewrite Hp. unfold head_of. cbn. by destruct (last l).
    + destruct Hv as [Hv Hno]. exists res. split_and!; [done|done|]. rewrite Hv. exact Hno.
  - apply asc_pages; [by apply scannable_view|done].
  - intros l1 l2 st' E Hl2 Ef. pose proof (verify_fold anchors retention now verify_start l1) as Hv. rewrite Ef in Hv.
    destruct Hv as (l & El & _ & Hc & _). apply (f_equal length) in El. rewrite !length_map in El.
    apply Z.ltb_lt. cbn in Hc. change (entries_in kv (prefix_bounds (NsZoneletAuditLogPrefix zone))) with (audit_entries kv zone) in E.
    rewrite E, length_app in Hmax. lia.
Qed.

#[local] Instance audit_record_eq_dec : EqDecision AuditRecord.
Proof. solve_decision. Defined.

Lemma links_snoc anchors retention now l r : links_ok anchors retention now None (l ++ [r])%list ->
  links_ok anchors retention now None l /\ hash_ok r /\ (l = [] \/ ar_PrevHash r = head_of l).
Proof.
  assert (Hgen : forall p, links_ok anchors retention now p (l ++ [r])%list -> links_ok anchors retention now p l /\ hash_ok r /\
    (l = [] \/ ar_PrevHash r = head_of l)); [|by apply Hgen].
  induction l as [|x l IH]; intros p; cbn.
  - intros [[Hr _] _]. split_and!; [done|done|by left].
  - intros [Hx Hl]. destruct (IH _ Hl) as (Hl' & Hr & Hp). split_and!; [done|done|done|]. right. destruct Hp as [->|Hp].
    + by destruct Hl as [[_ Hl] _].
    + unfold head_of in *. rewrite last_cons. destruct (last l) eqn:El; [done|]. apply last_None in El as ->. by destruct Hl as [[_ Hl] _].
Qed.

Lemma with_hash_inj r1 r2 : with_hash "" r1 = with_hash "" r2 -> ar_Hash r1 = ar_Hash r2 -> r1 = r2.
Proof. destruct r1, r2. unfold with_hash. cbn. intros [=] ?. by subst. Qed.

(** Two records that differ and hash alike. *)
Definition collision l1 l2 : Prop :=
  exists r1 r2, r1 ∈ l1 /\ r2 ∈ l2 /\ with_hash "" r1 <> with_hash "" r2 /\ recordHash r1 = recordHash r2.

Lemma chains_agree anchors1 anchors2 retention1 retention2 now1 now2 l1 l2 :
  links_ok anchors1 retention1 now1 None l1 -> links_ok anchors2 retention2 now2 None l2 -> l1 <> [] -> l2 <> [] ->
  head_of l1 = head_of l2 -> l1 `suffix_of` l2 \/ l2 `suffix_of` l1 \/ collision l1 l2.
Proof.
  revert l2. induction l1 as [|r1 l1 IH] using rev_ind; intros l2 H1 H2 N1 N2 Eh; [done|].
  destruct l2 as [|r2 l2 _] using rev_ind; [done|]. rewrite !head_of_snoc in Eh.
  apply links_snoc in H1 as (H1 & Hr1 & P1), H2 as (H2 & Hr2 & P2).
  destruct (decide (with_hash "" r1 = with_hash "" r2)) as [Ew|Hne].
  2:{ right; right. exists r1, r2. split_and!; [set_solver|set_solver|done|]. unfold hash_ok in *. congruence. }
  apply with_hash_inj in Ew as ->; [|done].
  destruct P1 as [->|P1]; [left; by apply suffix_app_r|]. destruct P2 as [->|P2]; [right; left; by apply suffix_app_r|].
  destruct (decide (l1 = [])) as [->|Hl1]; [left; by apply suffix_app_r|]. destruct (decide (l2 = [])) as [->|Hl2]; [right; left; by apply suffix_app_r|].
  destruct (IH l2) as [[k ->]|[[k ->]|(x & y & Hx & Hy & Hxy)]]; [done|done|done|done|congruence| | |].
  - left. exists k. by rewrite app_assoc.
  - right; left. exists k. by rewrite app_assoc.
  - right; right. exists x, y. set_solver.
Qed.

(** C23: The head hash pins the log: when [Verify] finds two databases valid and answers the same
    head hash, the records of one log are the last records of the other, all of them when they
    are as many; anything else takes two different records with the same hash. *)
Theorem audit_head_pins_log (kv1 kv2 : S) (zone : string) (fuel1 fuel2 : nat) (retention now1 now2 : Z) (res1 res2 : VerifyResult) :
  scannable (V := zone_value) kv1 -> scannable (V := zone_value) kv2 ->
  (length (audit_entries kv1 zone) < fuel1)%nat -> (length (audit_entries kv2 zone) < fuel2)%nat ->
  Z.of_nat (length (audit_entries kv1 zone)) < verifyScanMax -> Z.of_nat (length (audit_entries kv2 zone)) < verifyScanMax ->
  Verify fuel1 kv1 zone retention now1 = Some res1 -> vr_Valid res1 = true ->
  Verify fuel2 kv2 zone retention now2 = Some res2 -> vr_Valid res2 = true ->
  vr_HeadHash res1 = vr_HeadHash res2 -> 0 < vr_Count res1 -> 0 < vr_Count res2 ->
  exists l1 l2, log_records kv1 zone = map Some l1 /\ log_records kv2 zone = map Some l2 /\
    (l1 `suffix_of` l2 \/ l2 `suffix_of` l1 \/ collision l1 l2) /\
    (vr_Count res1 = vr_Count res2 -> l1 = l2 \/ collision l1 l2).
Proof.
  intros S1 S2 F1 F2 M1 M2 V1 Ok1 V2 Ok2 Eh C1 C2.
  destruct (verify_valid kv1 zone fuel1 retention now1 S1 F1 M1) as (a1 & r1 & _ & E1 & H1).
  destruct (verify_valid kv2 zone fuel2 retention now2 S2 F2 M2) as (a2 & r2 & _ & E2 & H2).
  rewrite E1 in V1. injection V1 as ->. rewrite E2 in V2. injection V2 as ->. rewrite Ok1 in H1. rewrite Ok2 in H2.
  destruct H1 as (l1 & L1 & K1 & Hh1 & N1), H2 as (l2 & L2 & K2 & Hh2 & N2). exists l1, l2.
  assert (A : l1 `suffix_of` l2 \/ l2 `suffix_of` l1 \/ collision l1 l2).
  { eapply chains_agree; [exact K1|exact K2| | |congruence].
    - intros ->. cbn in N1. lia.
    - intros ->. cbn in N2. lia. }
  split_and!; [done|done|done|]. intros En. destruct A as [A|[A|A]]; [left|left|by right].
  - apply suffix_length_eq; [done|lia].
  - symmetry. apply suffix_length_eq; [done|lia].
Qed.
End contents.

(** * The writer *)

Section writer.
Context {S : Type} {K : Kv S zone_value} {L : KvLaws K} {RL : KvRangeLaws K} {RV : KvRevert S zone_value} {RVL : KvRevertLaws RL RV}.
Context `{AuditCodec}.
Implicit Types (kv : S) (m : Manager S) (l : list AuditRecord).

Lemma log_key zone id : NsZoneletAuditLog zone id = NsZoneletAuditLogPrefix zone +:+ id.
Proof. unfold NsZoneletAuditLog, NsZoneletAuditLogPrefix. by rewrite !s_app_assoc. Qed.
Lemma log_key_inj zone id id' : NsZoneletAuditLog zone id = NsZoneletAuditLog zone id' -> id = id'.
Proof. rewrite !log_key. by intros ?%(inj _). Qed.
Lemma log_key_zone zone id id' : zone <> "" -> no_slash zone = true -> NsZoneletAuditLog "" id <> NsZoneletAuditLog zone id'.
Proof.
  intros Hz Hs E. unfold NsZoneletAuditLog in E. do 2 apply (inj _) in E. destruct zone as [|c zone]; [done|]. cbn in E, Hs.
  injection E as <- _. by apply andb_true_iff in Hs as [Hs _].
Qed.
Lemma anchor_not_log zone d id : NsZoneletAuditAnchor zone d <> NsZoneletAuditLog zone id.
Proof. intros E. unfold NsZoneletAuditAnchor, NsZoneletAuditLog in E. do 3 apply (inj _) in E. discriminate. Qed.
Lemma anchor_not_plain zone d id : zone <> "" -> no_slash zone = true -> NsZoneletAuditAnchor zone d <> NsZoneletAuditLog "" id.
Proof.
  intros Hz Hs E. unfold NsZoneletAuditLog, NsZoneletAuditAnchor in E. do 2 apply (inj _) in E. destruct zone as [|c zone]; [done|]. cbn in E, Hs.
  injection E as -> _. by apply andb_true_iff in Hs as [Hs _].
Qed.

(** The records a database holds in the log of a zone, in the order of their ids. *)
Record holds_log kv (zone : string) l : Prop := {
  hl_read : forall r, r ∈ l -> exists v, kv_read (V := zone_value) kv (NsZoneletAuditLog zone (ar_RecordId r)) = KvOk (Item v (Some (ZvAudit r)));
  hl_only : forall id it, kv_read (V := zone_value) kv (NsZoneletAuditLog zone id) = KvOk it -> exists r, r ∈ l /\ ar_RecordId r = id;
  hl_sorted : StronglySorted (fun a b => str_lt (ar_RecordId a) (ar_RecordId b) = true) l;
  hl_ids : forall r, r ∈ l -> ar_RecordId r <> "" /\ str_lt (ar_RecordId r) (range_end "") = true }.

Lemma in_order_map {A B} (f : A -> B) (xs : list (string * A)) : StronglySorted in_order xs -> StronglySorted in_order (map (prod_map id f) xs).
Proof.
  induction 1 as [|x xs _ IH Hx]; [constructor|]. cbn. constructor; [exact IH|]. apply List.Forall_map.
  eapply Forall_impl; [exact Hx|]. by intros [].
Qed.

(** What a filter that selects the keys of the log finds. *)
Lemma holds_filter kv zone l (P : string * kv_item AuditRecord -> Prop) `{!forall x, Decision (P x)} : holds_log kv zone l ->
  (forall k it, P (k, it) -> exists id, k = NsZoneletAuditLog zone id) ->
  (forall r it, r ∈ l -> P (NsZoneletAuditLog zone (ar_RecordId r), it)) ->
  map (prod_map id it_value) (filter P (kv_entries (V := AuditRecord) kv)) = map (fun r => (NsZoneletAuditLog zone (ar_RecordId r), Some r)) l.
Proof.
  intros HL Hkey Hin. apply in_order_unique.
  - apply in_order_map, filter_sorted, kv_entries_sorted.
  - pose proof (hl_sorted _ _ _ HL) as Hs. clear HL Hin. induction Hs as [|r l' _ IH Hr]; [constructor|]. cbn [map]. constructor; [exact IH|]. apply List.Forall_map.
    eapply Forall_impl; [exact Hr|]. intros r' Hlt. unfold in_order. cbn [fst]. by rewrite !log_key, str_lt_app.
  - assert (Hrd : forall r, r ∈ l -> exists v, kv_read (V := AuditRecord) kv (NsZoneletAuditLog zone (ar_RecordId r)) = KvOk (Item v (Some r))).
    { intros r Hr. destruct (hl_read _ _ _ HL r Hr) as [v E]. exists v. cbn [kv_read zone_Kv]. by rewrite E. }
    intros [k v]. rewrite !list_elem_of_fmap. split.
    + intros ([k' it] & [= -> ->] & [HP Hit]%list_elem_of_filter). apply kv_entries_read in Hit.
      destruct (Hkey _ _ HP) as [id ->]. cbn [kv_read zone_Kv] in Hit. apply kv_fmap_ok in Hit as (raw & Hraw & ->).
      destruct (hl_only _ _ _ HL _ _ Hraw) as (r & Hr & <-). exists r. split; [|done]. destruct (hl_read _ _ _ HL r Hr) as [v E].
      rewrite E in Hraw. by injection Hraw as <-.
    + intros (r & [= -> ->] & Hr). destruct (Hrd r Hr) as [v E]. exists (NsZoneletAuditLog zone (ar_RecordId r), Item v (Some r)). split; [done|].
      apply list_elem_of_filter. split; [by apply Hin|]. by apply kv_entries_read.
Qed.

Lemma holds_entries kv zone l : holds_log kv zone l ->
  map (prod_map id it_value) (audit_entries kv zone) = map (fun r => (NsZoneletAuditLog zone (ar_RecordId r), Some r)) l.
Proof.
  intros HL. apply holds_filter; [done| |].
  - intros k it [Hlt Hle]. unfold prefix_bounds in Hlt, Hle. cbn [fst snd] in Hlt, Hle. destruct (prefix_range _ _ Hlt Hle) as [id ->].
    exists id. by rewrite log_key.
  - intros r it Hr. rewrite log_key. destruct (hl_ids _ _ _ HL r Hr) as [Hne Hlt]. apply in_prefix_range; [done|]. apply str_le_lt. by right.
Qed.
Lemma holds_records kv zone l : holds_log kv zone l -> log_records kv zone = map Some l /\ length (audit_entries kv zone) = length l.
Proof.
  intros HL%holds_entries. split.
  - apply (f_equal (map snd)) in HL. by rewrite !map_map in HL.
  - apply (f_equal length) in HL. by rewrite !length_map in HL.
Qed.

(** The newest record, as a descending range of one item finds it. *)
Lemma holds_newest kv zone l : holds_log kv zone l -> (forall lo hi n e, kv_revert (V := zone_value) kv lo hi n <> KvErr e) ->
  match kv_revert (V := AuditRecord) kv (NsZoneletAuditLogPrefix zone) (range_end (NsZoneletAuditLogPrefix zone)) 1 with
  | KvOk ((_, it) :: _) => exists r, last l = Some r /\ it_value it = Some r
  | KvOk [] | KvNotFound => l = []
  | KvErr _ => False
  end.
Proof.
  intros HL Hrd. pose proof (holds_filter kv zone l (in_revert (NsZoneletAuditLogPrefix zone) (range_end (NsZoneletAuditLogPrefix zone))) HL) as Hf.
  assert (E : map (prod_map id it_value) (filter (in_revert (NsZoneletAuditLogPrefix zone) (range_end (NsZoneletAuditLogPrefix zone))) (kv_entries (V := AuditRecord) kv))
    = map (fun r => (NsZoneletAuditLog zone (ar_RecordId r), Some r)) l).
  { apply Hf.
    - intros k it [Hle Hlt]. cbn [fst] in Hle, Hlt. apply str_le_lt in Hle as [<-|Hlo]; [exists ""; by rewrite log_key, s_app_nil_r|].
      destruct (prefix_range (NsZoneletAuditLogPrefix zone) k Hlo) as [id ->]; [apply str_le_lt; by right|]. exists id. by rewrite log_key.
    - intros r it Hr. destruct (hl_ids _ _ _ HL r Hr) as [Hne Hlt]. rewrite log_key. split; cbn [fst].
      + apply str_le_lt. right. rewrite <- (s_app_nil_r (NsZoneletAuditLogPrefix zone)) at 1. rewrite str_lt_app. by destruct (ar_RecordId r).
      + unfold range_end. by rewrite str_lt_app. }
  clear Hf. destruct (kv_revert kv _ _ 1) as [items| |e] eqn:Er.
  - destruct (kv_revert_page (V := AuditRecord) kv (NsZoneletAuditLogPrefix zone) (range_end (NsZoneletAuditLogPrefix zone)) 1 items eq_refl Er) as (rest & Erev & Hlen & Hnil).
    apply (f_equal reverse) in Erev. rewrite reverse_involutive in Erev. rewrite Erev in E. destruct items as [|[k it] items].
    + rewrite Hnil in E by done. by destruct l.
    + destruct items; [|cbn in Hlen; lia]. rewrite reverse_app, List.map_app in E. cbn in E.
      destruct l as [|r l _] using rev_ind; [by destruct (map (prod_map id it_value) (reverse rest))|]. rewrite List.map_app in E. apply app_inj_tail in E as [_ [= _ E]].
      exists r. by rewrite last_snoc.
  - rewrite (kv_revert_none (V := AuditRecord) kv _ _ 1 eq_refl Er) in E. by destruct l.
  - cbn [kv_revert zone_KvRevert] in Er. specialize (Hrd (NsZoneletAuditLogPrefix zone) (range_end (NsZoneletAuditLogPrefix zone)) 1).
    destruct (kv_revert kv _ _ 1) as [| |e'] in Hrd, Er; [done|done|]. by apply (Hrd e').
Qed.

(** A write beside the log leaves it; a write of a new last record extends it. *)
Lemma holds_frame kv kv' zone l : holds_log kv zone l ->
  (forall id, kv_read (V := zone_value) kv' (NsZoneletAuditLog zone id) = kv_read kv (NsZoneletAuditLog zone id)) -> holds_log kv' zone l.
Proof.
  intros [H1 H2 H3 H4] Hf. split; [|  |done|done].
  - intros r Hr. rewrite Hf. by apply H1.
  - intros id it. rewrite Hf. apply H2.
Qed.
Lemma holds_append kv kv' zone l o r n : holds_log kv zone l ->
  kv_write (V := zone_value) kv o (NsZoneletAuditLog zone (ar_RecordId r)) (ZvAudit r) = (kv', KvOk n) ->
  (forall r', r' ∈ l -> str_lt (ar_RecordId r') (ar_RecordId r) = true) -> ar_RecordId r <> "" -> str_lt (ar_RecordId r) (range_end "") = true ->
  holds_log kv' zone (l ++ [r])%list.
Proof.
  intros [H1 H2 H3 H4] Hw Hlt Hne Hle. destruct (kv_write_ok _ _ _ _ _ _ Hw) as (R & Fr & _). split.
  - intros r' [Hr' | ->%list_elem_of_singleton]%elem_of_app; [|by eexists]. rewrite Fr; [by apply H1|]. intros E%log_key_inj.
    specialize (Hlt r' Hr'). rewrite E in Hlt. by rewrite str_lt_irrefl in Hlt.
  - intros id it Hr. destruct (decide (id = ar_RecordId r)) as [->|Hd]; [exists r; set_solver|].
    rewrite Fr in Hr by (by intros ?%log_key_inj). destruct (H2 _ _ Hr) as (r' & Hr' & <-). exists r'. set_solver.
  - apply StronglySorted_app_2; [|done|by repeat constructor]. intros a b Ha ->%list_elem_of_singleton. by apply Hlt.
  - intros r' [Hr' | ->%list_elem_of_singleton]%elem_of_app; [by apply H4|done].
Qed.

(** Ids are in the order of the timestamps they are made of. *)
Lemma audit_id_lt a b s t : 0 <= a -> a < b -> b < 2 ^ 48 -> str_lt (AuditIdOfTs a +:+ s) (AuditIdOfTs b +:+ t) = true.
Proof.
  intros Ha Hab Hb. unfold AuditIdOfTs, idTsHexWidth. rewrite !fmt_x_digits by (change (16 ^ Z.of_nat 12) with (2 ^ 48); lia).
  apply hexn_lt_app; [done|done|exact Hb].
Qed.
Lemma audit_id_listable a s : 0 <= a < 2 ^ 48 -> AuditIdOfTs a +:+ s <> "" /\ str_lt (AuditIdOfTs a +:+ s) (range_end "") = true.
Proof.
  intros Ha. unfold AuditIdOfTs, idTsHexWidth. rewrite fmt_x_digits by (change (16 ^ Z.of_nat 12) with (2 ^ 48); lia). split; [done|].
  cbn [hexn]. unfold range_end, str_lt, String.ltb. cbn.
  set (d := (a / 16 ^ Z.of_nat 11) mod 16). assert (Hd : 0 <= d < 16) by (apply Z.mod_pos_bound; lia).
  assert (Ec : Ascii.compare (hex_digit d) (Ascii.ascii_of_nat 255) = Lt).
  { pose proof (hex_digit_spec d Hd) as E. unfold byte_of in E. unfold Ascii.compare. apply N.compare_lt_iff.
    change (Ascii.N_of_ascii (Ascii.ascii_of_nat 255)) with 255%N. destruct (Z.ltb_spec d 10); lia. }
  cbn in Ec. by rewrite Ec.
Qed.

Context {KR : KvReliable K}.

(** The invariant of the writer; [l] is the log, [b] bounds its clock. *)
Record log_inv (zone : string) (b : Z) l m : Prop := {
  li_log : holds_log (am_kv m) zone l;
  li_plain : holds_log (am_kv m) "" [];
  li_chain : chained "" l;
  li_head : am_prevHash m = head_of l;
  li_ts : 0 <= am_lastTs m <= b;
  li_ids : forall r, r ∈ l -> 0 < ar_Ts r <= am_lastTs m /\ exists s, ar_RecordId r = AuditIdOfTs (ar_Ts r) +:+ s }.

(** What a record says, without its place in the chain. *)
Definition payload (r : AuditRecord) : AuditRecord := with_hash "" (placed "" 0 0 "" r).
Definition encodable (r : AuditRecord) : Prop := forall id ts dropped prev, exists b, canonical (with_hash "" (placed id ts dropped prev r)) = Ok b.

Lemma log_inv_same zone b l m m' : log_inv zone b l m -> am_kv m' = am_kv m -> am_prevHash m' = am_prevHash m ->
  am_lastTs m' = am_lastTs m -> log_inv zone b l m'.
Proof. intros [H1 H2 H3 H4 H5 H6] E1 E2 E3. split; rewrite ?E1, ?E2, ?E3; done. Qed.

Lemma write_inv zone b l m clock s rec : zone <> "" -> no_slash zone = true -> log_inv zone b l m -> 0 < clock <= b -> b < 2 ^ 47 ->
  ar_Zone rec = zone -> encodable rec ->
  exists r, log_inv zone (b + 1) (l ++ [r])%list (write clock s rec m) /\ payload r = payload rec /\ am_queue (write clock s rec m) = am_queue m.
Proof.
  intros Hz Hs [Hlog Hplain Hch Hhd Hts Hids] Hc Hb Erec Henc. unfold write.
  set (now := if clock <=? am_lastTs m then i64 (am_lastTs m + 1) else clock).
  assert (Hnow : am_lastTs m < now <= b + 1).
  { unfold now. destruct (Z.leb_spec clock (am_lastTs m)); [rewrite i64_id by (unfold in_i64; lia)|]; lia. }
  set (id := AuditIdOfTs now +:+ s). set (dropped := i32 (am_droppedPending m)).
  destruct (Henc id now dropped (am_prevHash m)) as [bytes Eb].
  set (r0 := placed id now dropped (am_prevHash m) rec) in *. cbn [am_kv am_retentionMs with_head with_queue].
  assert (Er : recordHash r0 = Ok (sha256_hex bytes)) by (unfold recordHash; by rewrite Eb).
  rewrite !Er. set (r := with_hash (sha256_hex bytes) r0). cbn [ar_Zone ar_RecordId with_hash placed r r0].
  match goal with |- context [kv_write _ ?o _ _] => destruct (kv_write_total (am_kv m) o (NsZoneletAuditLog zone id) (ZvAudit r) eq_refl ltac:(done)) as (kv & n & Ew) end.
  exists r. rewrite Erec. cbn [kv_write zone_Kv zv_in audit_ZoneVal]. rewrite !Ew.
  split_and!; [split|done|done]; cbn [am_kv am_prevHash am_lastTs with_written with_store with_head with_queue].
  - eapply holds_append; [exact Hlog|exact Ew| | |]; cbn [ar_RecordId with_hash placed r r0].
    + intros r' Hr'. destruct (Hids r' Hr') as [Hts' [s' ->]]. apply audit_id_lt; lia.
    + apply audit_id_listable. lia.
    + apply audit_id_listable. lia.
  - apply (holds_frame (am_kv m)); [done|]. intros id'. destruct (kv_write_ok _ _ _ _ _ _ Ew) as (_ & Fr & _). apply Fr. by apply log_key_zone.
  - apply chained_snoc; [done| |].
    + unfold hash_ok, recordHash. change (with_hash "" r) with (with_hash "" r0). by rewrite Eb.
    + cbn. rewrite Hhd. by destruct l.
  - by rewrite head_of_snoc.
  - lia.
  - intros r' [Hr' | ->%list_elem_of_singleton]%elem_of_app.
    + destruct (Hids r' Hr') as [Hts' Hid']. split; [lia|done].
    + cbn. split; [lia|]. by exists s.
Qed.

Lemma anchor_inv zone b l m today : zone <> "" -> no_slash zone = true -> log_inv zone b l m ->
  log_inv zone b l (anchorRefresh zone today m) /\ am_queue (anchorRefresh zone today m) = am_queue m.
Proof.
  intros Hz Hs Hi. unfold anchorRefresh. case_bool_decide; [done|]. cbn [am_prevHash with_anchorDate am_kv].
  assert (Hi' : log_inv zone b l (with_anchorDate today m)) by (by eapply log_inv_same).
  case_bool_decide; [done|]. destruct (live_count _ _ _) as [count|]; [|done].
  match goal with |- context [kv_write ?s ?o ?k ?v] => destruct (kv_write_total s o k (zv_in v) eq_refl ltac:(done)) as (kv & n & Ew) end.
  cbn [kv_write zone_Kv]. rewrite Ew. cbn [fst]. split; [|done]. destruct Hi' as [I1 I2 I3 I4 I5 I6].
  destruct (kv_write_ok _ _ _ _ _ _ Ew) as (_ & Fr & _). split; [| |done..].
  - apply (holds_frame (am_kv m)); [done|]. intros id. apply Fr, not_eq_sym, anchor_not_log.
  - apply (holds_frame (am_kv m)); [done|]. intros id. by apply Fr, not_eq_sym, anchor_not_plain.
Qed.

(** Timestamps are in the order of the ids. *)
Lemma newest_ts l r b : StronglySorted (fun x y => str_lt (ar_RecordId x) (ar_RecordId y) = true) (l ++ [r])%list -> b < 2 ^ 48 ->
  (forall x, x ∈ (l ++ [r])%list -> 0 < ar_Ts x <= b /\ exists s, ar_RecordId x = AuditIdOfTs (ar_Ts x) +:+ s) ->
  forall x, x ∈ (l ++ [r])%list -> ar_Ts x <= ar_Ts r.
Proof.
  intros Hs Hb Hid x [Hx | ->%list_elem_of_singleton]%elem_of_app; [|lia]. apply StronglySorted_app in Hs as (Hlt & _ & _).
  specialize (Hlt x r Hx ltac:(set_solver)). destruct (Hid x ltac:(set_solver)) as [Tx [s Ex]], (Hid r ltac:(set_solver)) as [Tr [s' Er]].
  destruct (Z.le_gt_cases (ar_Ts x) (ar_Ts r)) as [|Hgt]; [done|]. pose proof (audit_id_lt (ar_Ts r) (ar_Ts x) s' s ltac:(lia) ltac:(lia) ltac:(lia)) as Hgt'.
  rewrite Ex, Er in Hlt. pose proof (str_lt_trans _ _ _ Hlt Hgt') as Hx'. by rewrite str_lt_irrefl in Hx'.
Qed.

Lemma setup_inv zone b l kv cfg m' : zone <> "" -> (forall lo hi n e, kv_revert (V := zone_value) kv lo hi n <> KvErr e) -> 0 <= b < 2 ^ 48 ->
  holds_log kv zone l -> holds_log kv "" [] -> chained "" l ->
  (forall r, r ∈ l -> 0 < ar_Ts r <= b /\ exists s, ar_RecordId r = AuditIdOfTs (ar_Ts r) +:+ s) ->
  Setup zone cfg kv = Some m' -> log_inv zone b l m' /\ am_queue m' = [].
Proof.
  intros Hz Hrd Hb Hlog Hplain Hch Hids. unfold Setup. destruct (negb (AuditConfig_On cfg)); [done|]. intros [= <-].
  unfold recoverChainHead, zoneCandidates. rewrite bool_decide_true by done. remember [""] as rest eqn:Erest. cbn [recover_zones am_kv].
  pose proof (holds_newest kv zone l Hlog Hrd) as Hn. pose proof (holds_newest kv "" [] Hplain Hrd) as Hn0.
  assert (Hlast : forall m, am_kv m = kv -> am_queue m = [] -> log_inv zone b l m ->
    log_inv zone b l (snd (recover_zones rest m)) /\ am_queue (snd (recover_zones rest m)) = []).
  { intros m Ekv Eq Hi. subst rest. cbn [recover_zones]. rewrite Ekv. destruct (kv_revert kv (NsZoneletAuditLogPrefix "") _ 1) as [[|[k it] items]| |e]; [by split| |by split|done].
    by destruct Hn0 as (r & [=] & _). }
  assert (Hempty : l = [] -> forall m, am_kv m = kv -> am_prevHash m = "" -> am_lastTs m = 0 -> log_inv zone b l m).
  { intros -> m Ekv Eh Et. split; rewrite ?Ekv, ?Eh, ?Et; [done|done|done|done|lia|]. intros r Hr. by apply elem_of_nil in Hr. }
  destruct (kv_revert kv (NsZoneletAuditLogPrefix zone) _ 1) as [[|[k it] items]| |e]; [| | |done].
  - apply Hlast; [done|done|]. by apply Hempty.
  - destruct Hn as (r & El & ->). apply last_Some in El as [l' ->]. cbn [am_lastTs].
    destruct (Hids r ltac:(set_solver)) as [Hr [s Es]]. unfold auditIdOfTs. rewrite Es, audit_id_lt by lia.
    apply Hlast; [done|done|]. split; cbn; [done|done|done|by rewrite head_of_snoc|lia|].
    intros x Hx. destruct (Hids x Hx) as [Hx1 Hx2]. split; [|done]. split; [lia|]. apply (newest_ts l' r b); [apply (hl_sorted _ _ _ Hlog)|lia|done|done].
  - apply Hlast; [done|done|]. by apply Hempty.
Qed.

(** ** Histories *)

Inductive audit_event := AEmit (rec : AuditRecord) | AWrite (clock : Z) (suffix : string) | AAnchor (today : string) | ARestart.
Definition audit_step (zone : string) (cfg : AuditConfig) m (e : audit_event) : Manager S :=
  match e with
  | AEmit rec => emit rec m
  | AWrite clock suffix => run_write clock suffix m
  | AAnchor today => anchorRefresh zone today m
  | ARestart => default m (Setup zone cfg (am_kv m))
  end.
(** The queue and the records taken from it, oldest first; a restart loses the queue. *)
Definition queue_step (q : list AuditRecord * list AuditRecord) (e : audit_event) : list AuditRecord * list AuditRecord :=
  match e with
  | AEmit rec => (if Z.of_nat (length (fst q)) <? queueCap then (fst q ++ [rec])%list else fst q, snd q)
  | AWrite _ _ => match fst q with [] => q | rec :: rest => (rest, (snd q ++ [rec])%list) end
  | AAnchor _ => q
  | ARestart => ([], snd q)
  end.
Definition audit_event_ok (zone : string) (e : audit_event) : Prop :=
  match e with AEmit rec => ar_Zone rec = zone /\ encodable rec | AWrite clock _ => 0 < clock < 2 ^ 46 | _ => True end.

Context (Hrevert : forall kv lo hi n e, kv_revert (V := zone_value) kv lo hi n <> KvErr e).

Lemma audit_step_inv zone cfg b l m q e : zone <> "" -> no_slash zone = true -> AuditConfig_On cfg = true -> 2 ^ 46 <= b < 2 ^ 47 ->
  log_inv zone b l m -> am_queue m = fst q -> map payload l = map payload (snd q) ->
  (forall rec, rec ∈ fst q -> ar_Zone rec = zone /\ encodable rec) -> audit_event_ok zone e ->
  exists l', log_inv zone (b + 1) l' (audit_step zone cfg m e) /\ am_queue (audit_step zone cfg m e) = fst (queue_step q e) /\
    map payload l' = map payload (snd (queue_step q e)) /\ (forall rec, rec ∈ fst (queue_step q e) -> ar_Zone rec = zone /\ encodable rec).
Proof.
  intros Hz Hs Hon Hb Hi Eq El Hq He.
  assert (Hmono : forall m' l', log_inv zone b l' m' -> log_inv zone (b + 1) l' m').
  { intros m' l' [H1 H2 H3 H4 H5 H6]. split; [done|done|done|done|lia|done]. }
  destruct e as [rec|clock s|today|]; cbn [audit_step queue_step audit_event_ok] in *.
  - exists l. unfold emit. rewrite Eq. destruct (_ <? queueCap); cbn [am_queue with_queue fst snd].
    + split; [apply Hmono; by eapply log_inv_same|]. split_and!; [done|done|]. intros r [Hr | ->%list_elem_of_singleton]%elem_of_app; [by apply Hq|done].
    + split; [apply Hmono; by eapply log_inv_same|]. done.
  - unfold run_write. rewrite Eq. destruct q as [[|rec rest] out]; cbn [fst snd] in *; [exists l; split_and!; [by apply Hmono|done|done|done]|].
    destruct (Hq rec ltac:(set_solver)) as [Hrz Henc].
    destruct (write_inv zone b l (with_queue rest (am_droppedTotal m) (am_droppedPending m) m) clock s rec) as (r & Hi' & Ep & Eq');
      [done|done|by eapply log_inv_same|lia|lia|done|done|].
    exists (l ++ [r])%list. split_and!; [done|by rewrite Eq'|rewrite !List.map_app, El; cbn [map]; by rewrite Ep|]. intros r' Hr'. apply Hq. set_solver.
  - destruct (anchor_inv zone b l m today Hz Hs Hi) as [Hi' Eq']. exists l. split_and!; [by apply Hmono|by rewrite Eq'|done|done].
  - destruct (Setup zone cfg (am_kv m)) as [m'|] eqn:Es; [|by unfold Setup in Es; rewrite Hon in Es]. destruct Hi as [H1 H2 H3 H4 H5 H6].
    destruct (setup_inv zone b l (am_kv m) cfg m') as [Hi' Eq']; [done|by intros; apply Hrevert|lia|done|done|done| |done|].
    { intros r Hr. destruct (H6 r Hr). split; [lia|done]. }
    exists l. split_and!; [by apply Hmono|done|done|]. intros rec Hr. by apply elem_of_nil in Hr.
Qed.

Lemma audit_run_inv zone cfg h b l m q : zone <> "" -> no_slash zone = true -> AuditConfig_On cfg = true -> 2 ^ 46 <= b ->
  b + Z.of_nat (length h) < 2 ^ 47 -> log_inv zone b l m -> am_queue m = fst q -> map payload l = map payload (snd q) ->
  (forall rec, rec ∈ fst q -> ar_Zone rec = zone /\ encodable rec) -> Forall (audit_event_ok zone) h ->
  exists b' l', log_inv zone b' l' (foldl (audit_step zone cfg) m h) /\ am_queue (foldl (audit_step zone cfg) m h) = fst (foldl queue_step q h) /\
    map payload l' = map payload (snd (foldl queue_step q h)).
Proof.
  intros Hz Hs Hon. revert b l m q. induction h as [|e h IH]; intros b l m q Hb Hlen Hi Eq El Hq Hh; [by exists b, l|].
  apply Forall_cons in Hh as [He Hh]. cbn in Hlen.
  destruct (audit_step_inv zone cfg b l m q e) as (l' & Hi' & Eq' & El' & Hq'); [done|done|done|lia|done..|].
  cbn [foldl]. by apply (IH (b + 1) l'); [lia|lia|..].
Qed.

End writer.

(** * A log of three records *)

#[local] Instance ex_AuditCodec : AuditCodec :=
  {| canonical r := Ok (join "|" [ar_Zone r; ar_RecordId r; itoa (ar_Ts r); ar_ActorId r; ar_ActorUser r; ar_ActorType r; ar_Action r;
       ar_SourceIp r; ar_TargetType r; ar_TargetId r; ar_Status r; ar_Error r; ar_Detail r; ar_PrevHash r; ar_Hash r;
       itoa (ar_DroppedBefore r); itoa (ar_SuppressedCount r)]) |}.
Definition ex_record (action target : string) : AuditRecord :=
  {| ar_Zone := "z"; ar_RecordId := ""; ar_Ts := 0; ar_ActorId := "a1"; ar_ActorUser := "alice"; ar_ActorType := "User"; ar_Action := action;
     ar_SourceIp := "10.0.0.1"; ar_TargetType := "user"; ar_TargetId := target; ar_Status := "ok"; ar_Error := ""; ar_Detail := "";
     ar_PrevHash := ""; ar_Hash := ""; ar_DroppedBefore := 0; ar_SuppressedCount := 0 |}.
Definition ex_cfg : AuditConfig := {| ac_Enabled := Some true; ac_RetentionDays := Some 1 |}.
Definition ex_audit_history : list audit_event :=
  [AEmit (ex_record "/inapi.ZoneService/UserSet" "user/bob"); AEmit (ex_record "/inapi.ZoneService/AccessKeySet" "access-key/b1");
   AWrite 1000 "00aa"; AWrite 1000 "00bb"; AAnchor "20260101"; ARestart;
   AEmit (ex_record "/inapi.ZoneService/UserDelete" "user/bob"); AWrite 900 "00cc"].
Definition ex_start : Manager (mem_store zone_value) :=
  match Setup "z" ex_cfg mem_empty with Some m => m | None => Build_Manager mem_empty 0 [] 0 0 0 0 "" "" {| fc_items := ∅; fc_inserts := 0 |} end.
Definition ex_end : Manager (mem_store zone_value) := foldl (audit_step "z" ex_cfg) ex_start ex_audit_history.

Lemma ex_holds zone : holds_log (mem_empty (V := zone_value)) zone [].
Proof.
  split; [|  |constructor|].
  - intros r Hr. by apply elem_of_nil in Hr.
  - intros id it Hr. by vm_compute in Hr.
  - intros r Hr. by apply elem_of_nil in Hr.
Qed.

Lemma ex_revert (kv : mem_store zone_value) lo hi n e : kv_revert (V := zone_value) kv lo hi n <> KvErr e.
Proof. done. Qed.


(** The log after the first record has expired. *)
Definition ex_expired : mem_store zone_value := fst (mem_delete (am_kv ex_end) (NsZoneletAuditLog "z" "0000000003e800aa")).

Lemma audit_head_pins_log_witness :
  exists l1 l2, log_records (am_kv ex_end) "z" = map Some l1 /\ log_records ex_expired "z" = map Some l2 /\ length l1 = 3%nat /\ length l2 = 2%nat /\
    (l1 `suffix_of` l2 \/ l2 `suffix_of` l1 \/ collision l1 l2).
Proof.
  set (r1 := Verify 10 (am_kv ex_end) "z" 86400000 2000). set (r2 := Verify 10 ex_expired "z" 86400000 100000000).
  destruct (audit_head_pins_log (am_kv ex_end) ex_expired "z" 10 10 86400000 2000 100000000
    (default (verify_answer false "" "" verify_start) r1) (default (verify_answer false "" "" verify_start) r2))
    as (l1 & l2 & E1 & E2 & Hs & _).
  - done.
  - done.
  - vm_compute. lia.
  - vm_compute. lia.
  - by vm_compute.
  - by vm_compute.
  - by vm_compute.
  - by vm_compute.
  - by vm_compute.
  - by vm_compute.
  - by vm_compute.
  - by vm_compute.
  - by vm_compute.
  - exists l1, l2. split_and!; [done|done| |  |done].
    + apply (f_equal length) in E1. rewrite length_map in E1. rewrite <- E1. by vm_compute.
    + apply (f_equal length) in E2. rewrite length_map in E2. rewrite <- E2. by vm_compute.
Defined.

(** A record that has expired is explained by the age of the next one or by an anchor of the
    day; a next record of the same day that is not yet due is reported as a break. *)
Lemma expiry_reported_as_break :
  let day := 86400000 in
  let h := [AEmit (ex_record "a" "x"); AEmit (ex_record "b" "y"); AWrite 1000 "0000"; AWrite 3601000 "0000"] in
  let m := foldl (audit_step "z" ex_cfg) ex_start h in
  let expired := fst (mem_delete (am_kv m) (NsZoneletAuditLog "z" "0000000003e80000")) in
  option_map vr_Valid (Verify 10 (am_kv m) "z" day 3602000) = Some true /\
  option_map vr_Valid (Verify 10 expired "z" day (1000 + day)) = Some false.
Proof. by vm_compute. Qed.
