(* ===== verification/StateFlow.v ===== *)
(** The lifecycle state machine of a replica: [AppStateWorkflow] of
    [src/internal/stateflow/stateflow.go] and the table that [taskContainerInit] of
    [src/internal/hostlet/task_container.go] registers.  A registered command is one
    of the three operations of the host, or none. *)
From Stdlib Require Import ZArith Lia.
From S2P Require Import Prelude.
Local Open Scope string_scope.

Definition OpStateEmpty : string := "".
Definition OpStateStarting : string := "starting".
Definition OpStateRunning : string := "running".
Definition OpStateStopping : string := "stopping".
Definition OpStateStopped : string := "stopped".
Definition OpStateDestroying : string := "destroying".
Definition OpStateDestroyed : string := "destroyed".
Definition OpStateFailed : string := "failed".
Definition OpActionStart : string := "start".
Definition OpActionStop : string := "stop".
Definition OpActionDestroy : string := "destroy".
Definition OpActionDelete : string := "delete".
Definition OpEventSuccess : string := "success".
Definition OpEventFail : string := "fail".

Inductive command := CmdStarting | CmdStopping | CmdDestroying.

Record AppStateEntry := { as_State : string; as_Command : option command }.

Abbreviation AppStateWorkflow := (gmap string (gmap string AppStateEntry)).

Definition NextCommand (it : AppStateWorkflow) (state event : string) : option AppStateEntry :=
  m ← it !! state; m !! event.

Definition Register (it : AppStateWorkflow) (currentState event nextState : string)
    (nextCommand : option command) : AppStateWorkflow :=
  <[currentState := <[event := {| as_State := nextState; as_Command := nextCommand |}]>
                      (default ∅ (it !! currentState))]> it.

Definition reg (it : AppStateWorkflow) (e : string * string * string * option command) : AppStateWorkflow :=
  let '(s, ev, n, c) := e in Register it s ev n c.

Definition workflow_table : list (string * string * string * option command) :=
  [(OpStateEmpty, OpActionStart, OpStateStarting, Some CmdStarting);
   (OpStateStopped, OpActionStart, OpStateStarting, Some CmdStarting);
   (OpStateFailed, OpActionStart, OpStateStarting, Some CmdStarting);
   (OpStateStarting, OpActionStart, OpStateStarting, Some CmdStarting);
   (OpStateRunning, OpActionStart, OpStateRunning, None);
   (OpStateRunning, OpActionStop, OpStateStopping, Some CmdStopping);
   (OpStateStarting, OpActionStop, OpStateStopping, Some CmdStopping);
   (OpStateStopped, OpActionStop, OpStateStopped, None);
   (OpStateEmpty, OpActionStop, OpStateStopped, None);
   (OpStateRunning, OpActionDestroy, OpStateDestroying, Some CmdDestroying);
   (OpStateStopped, OpActionDestroy, OpStateDestroying, Some CmdDestroying);
   (OpStateStopping, OpActionDestroy, OpStateDestroying, Some CmdDestroying);
   (OpStateFailed, OpActionDestroy, OpStateDestroying, Some CmdDestroying);
   (OpStateDestroyed, OpActionDestroy, OpStateDestroyed, None);
   (OpStateStarting, OpEventSuccess, OpStateRunning, None);
   (OpStateStopping, OpEventSuccess, OpStateStopped, None);
   (OpStateDestroying, OpEventSuccess, OpStateDestroyed, None);
   (OpStateStarting, OpEventFail, OpStateFailed, None);
   (OpStateStopping, OpEventFail, OpStateFailed, None);
   (OpStateDestroying, OpEventFail, OpStateFailed, None)].

(** The workflow after [taskContainerInit]. *)
Definition taskContainerInit : AppStateWorkflow := foldl reg ∅ workflow_table.

(** * Properties *)

Lemma Register_lookup it s ev n c s' ev' :
  NextCommand (Register it s ev n c) s' ev' =
  if bool_decide (s' = s /\ ev' = ev) then Some {| as_State := n; as_Command := c |}
  else NextCommand it s' ev'.
Proof.
  unfold NextCommand, Register. destruct (decide (s' = s)) as [->|Hs].
  - rewrite lookup_insert_eq. cbn. destruct (decide (ev' = ev)) as [->|He].
    + by rewrite lookup_insert_eq, bool_decide_true.
    + rewrite lookup_insert_ne by done. rewrite bool_decide_false by naive_solver.
      by destruct (it !! s).
  - rewrite lookup_insert_ne by done. by rewrite bool_decide_false by naive_solver.
Qed.

Definition row_state (r : string * string * string * option command) : string := r.1.1.1.
Definition row_event (r : string * string * string * option command) : string := r.1.1.2.
Definition row_entry (r : string * string * string * option command) : AppStateEntry :=
  {| as_State := r.1.2; as_Command := r.2 |}.

(** A table without two rows for one state and event is looked up row by row. *)
Lemma table_lookup l it s ev e : NoDup (map (fun r => (row_state r, row_event r)) l) ->
  NextCommand (foldl reg it l) s ev = Some e <->
  (exists r, r ∈ l /\ row_state r = s /\ row_event r = ev /\ row_entry r = e) \/
  (NextCommand it s ev = Some e /\ (s, ev) ∉ map (fun r => (row_state r, row_event r)) l).
Proof.
  revert it. induction l as [|[[[s0 ev0] n0] c0] l IH]; intros it; cbn [foldl map].
  { intros _. split; [intros H; right; split; [done|apply not_elem_of_nil]|].
    intros [(r & Hr & _)|[H _]]; [by apply not_elem_of_nil in Hr|done]. }
  intros [Hn Hnd]%NoDup_cons. rewrite IH by done. cbn [reg]. rewrite Register_lookup.
  setoid_rewrite elem_of_cons. cbn in Hn. split.
  - intros [(r & ? & ?)|[H Hin]]; [left; exists r; auto|].
    destruct (bool_decide_reflect (s = s0 /\ ev = ev0)) as [[-> ->]|Hne].
    + injection H as <-. left. eexists. split; [by left|done].
    + right. split; [done|]. intros [[= -> ->]|?]; [by apply Hne|done].
  - intros [(r & [->|Hr] & Es & Ee & Ex)|[H Hin]].
    + right. unfold row_state, row_event in Es, Ee. cbn in Es, Ee. subst s ev. split; [|done].
      rewrite bool_decide_true by done. by rewrite <- Ex.
    + left. eauto.
    + right. split; [|intros ?; apply Hin; by right].
      rewrite bool_decide_false; [done|]. intros [-> ->]. apply Hin. by left.
Qed.

Lemma workflow_rows s ev e : NextCommand taskContainerInit s ev = Some e <->
  exists r, r ∈ workflow_table /\ row_state r = s /\ row_event r = ev /\ row_entry r = e.
Proof.
  unfold taskContainerInit. rewrite table_lookup; [|apply (bool_decide_unpack _); vm_compute; exact I].
  split; [intros [?|[H _]]; [done|]|by left]. unfold NextCommand in H. by rewrite lookup_empty in H.
Qed.

(** The stable state an action aims at. *)
Definition goal_state (action : string) : option string :=
  if bool_decide (action = OpActionStart) then Some OpStateRunning
  else if bool_decide (action = OpActionStop) then Some OpStateStopped
  else if bool_decide (action = OpActionDestroy) then Some OpStateDestroyed
  else None.

(** The transient state of a command, which every row that runs it enters. *)
Definition command_state (c : command) : string :=
  match c with
  | CmdStarting => OpStateStarting
  | CmdStopping => OpStateStopping
  | CmdDestroying => OpStateDestroying
  end.
Definition command_goal (c : command) : string :=
  match c with
  | CmdStarting => OpStateRunning
  | CmdStopping => OpStateStopped
  | CmdDestroying => OpStateDestroyed
  end.

(** the registered workflow is exactly its table, and the table leads every action
    to its goal: a row for an action either runs the command of that action and
    enters the command's transient state, from which the success event leads to
    the goal of the action and the fail event to the failed state, or runs nothing
    and is already at the goal; and only the transient states react to the result
    events. *)
Theorem workflow_reaches_goal s ev e :
  NextCommand taskContainerInit s ev = Some e ->
  match as_Command e with
  | Some c => as_State e = command_state c /\ goal_state ev = Some (command_goal c) /\
      NextCommand taskContainerInit (as_State e) OpEventSuccess =
        Some {| as_State := command_goal c; as_Command := None |} /\
      NextCommand taskContainerInit (as_State e) OpEventFail =
        Some {| as_State := OpStateFailed; as_Command := None |}
  | None => goal_state ev = Some (as_State e) \/
      ((ev = OpEventSuccess \/ ev = OpEventFail) /\
       exists c, s = command_state c /\
         as_State e = if bool_decide (ev = OpEventSuccess) then command_goal c else OpStateFailed)
  end.
Proof.
  rewrite workflow_rows. intros (r & Hr & <- & <- & <-).
  assert (T : forall c, NextCommand taskContainerInit (command_state c) OpEventSuccess =
      Some {| as_State := command_goal c; as_Command := None |} /\
    NextCommand taskContainerInit (command_state c) OpEventFail =
      Some {| as_State := OpStateFailed; as_Command := None |})
    by (intros c; destruct c; (split; vm_compute; reflexivity)).
  revert r Hr. apply Forall_forall. unfold workflow_table, row_state, row_event, row_entry.
  repeat apply Forall_cons_2; try apply Forall_nil_2; cbn [fst snd as_Command as_State];
    repeat match goal with
    | |- _ /\ _ => split
    | |- goal_state _ = _ \/ _ => (left; reflexivity) || right
    | |- NextCommand _ _ _ = _ => first [apply (T CmdStarting)|apply (T CmdStopping)|apply (T CmdDestroying)]
    | |- _ = _ => reflexivity
    | |- ?a = ?b \/ ?c => (left; reflexivity) || (right; reflexivity)
    | |- exists c, _ => first [by exists CmdStarting|by exists CmdStopping|by exists CmdDestroying]
    end.
Qed.

Lemma workflow_reaches_goal_witness :
  NextCommand taskContainerInit OpStateStopped OpActionStart =
    Some {| as_State := OpStateStarting; as_Command := Some CmdStarting |} /\
  (OpStateStarting = command_state CmdStarting /\ goal_state OpActionStart = Some (command_goal CmdStarting) /\
   NextCommand taskContainerInit OpStateStarting OpEventSuccess =
     Some {| as_State := command_goal CmdStarting; as_Command := None |} /\
   NextCommand taskContainerInit OpStateStarting OpEventFail =
     Some {| as_State := OpStateFailed; as_Command := None |}).
Proof.
  split; [vm_compute; reflexivity|].
  apply (workflow_reaches_goal OpStateStopped OpActionStart
    {| as_State := OpStateStarting; as_Command := Some CmdStarting |}).
  vm_compute. reflexivity.
Defined.
