(* ===== verification/Hostlet.v ===== *)
(** The host agent: [src/internal/hostlet/hoststatus/hoststatus.go] (its persistent
    records) and [src/internal/hostlet/task_container.go] (the reconcile loop of one
    host and the sweep of orphaned containers).

    The container engine, the file system and the package downloads are outside the
    repository or pure input/output: each call appends an [effect] to the history of
    the host, and the environment decides its outcome from the history ([HostEnv]).
    What the source keeps in [hoststatus.ContainerList] is the map [hl_containers]. *)
From Stdlib Require Import ZArith Lia.
From S2P Require Import Prelude GoStrings GoFloat AppNames Stage StateFlow.
Local Open Scope string_scope.
Local Open Scope Z_scope.

(** * Data *)

Definition AppInstanceSoftDeleteTTL : Z := 7 * 24 * 3600 * 1000.
Definition OrphanContainerGracePeriod : Z := 1 * 24 * 3600.
Definition OrphanSyncStaleLimit : Z := 60.
Definition OpRestartPolicyAlways : string := "always".
Definition OpRestartPolicyNo : string := "no".

Record ContainerInfo := {
  ci_Image : string; ci_State : string; ci_IP : string; ci_Ports : gmap Z Z;
  ci_CpuLimit : Z; ci_MemoryLimit : Z; ci_Binds : list string;
  ci_Created : Z; ci_Started : Z; ci_LastInspectTime : Z }.

(** What the host asks of its environment. *)
Inductive effect :=
| EStop (name : string)
| ERemove (name : string)
| EStart (name : string)
| EPolicy (name policy : string)
| ECreate (name : string)
| EImagePull (image : string)
| EPackages (app : string)
| EWriteReplica (name : string)
| EMkdir (name : string)
| EProvision (name : string)
| EArchive (name : string)
| EQuotaCleanup (name : string)
| ESaveActive.

#[export] Instance effect_eq_dec : EqDecision effect.
Proof. solve_decision. Defined.

Abbreviation history := (list (effect * bool)).

(** The environment: the outcome of an effect, and what inspection, creation and
    image listing return, given everything that happened before. *)
Class HostEnv := {
  env_ok : history -> effect -> bool;
  env_inspect : history -> string -> option ContainerInfo;
  env_created : history -> string -> ContainerInfo;
  env_images : history -> option (list string) }.

Record desiredSnapshot := { ds_names : gset string; ds_syncedAt : Z; ds_ok : bool }.

Record hostlet := {
  hl_containers : gmap string ContainerInfo;
  hl_images : gset string;
  hl_applied : gmap string Z;
  hl_deleted : gmap string Z;
  hl_orphans : gmap string Z;
  hl_desired : desiredSnapshot;
  hl_disk : gmap string Z;
  hl_stages : gmap string ReplicaStageEntry;
  hl_tracked : gmap string Z;
  hl_lxcfs : bool;
  hl_hist : history }.

(** The replica a handler works on ([inapi.AppReplicaInstance]): its app's name and
    id, and the parts of the spec and the deploy it reads. *)
Record replica := {
  rp_app : string; rp_appId : string; rp_id : Z; rp_HostId : string;
  rp_Revision : Z; rp_hasResources : bool; rp_Image : string;
  rp_CpuLimit : Z; rp_MemoryLimit : Z; rp_ServicePorts : list (Z * Z); rp_VpcIpv4 : string }.

Definition rp_name (rep : replica) : string := ContainerName (rp_app rep) (rp_id rep).

(** Field updates. *)
Definition set_containers (h : hostlet) (c : gmap string ContainerInfo) : hostlet :=
  {| hl_containers := c; hl_images := hl_images h; hl_applied := hl_applied h; hl_deleted := hl_deleted h;
     hl_orphans := hl_orphans h; hl_desired := hl_desired h; hl_disk := hl_disk h;
     hl_stages := hl_stages h; hl_tracked := hl_tracked h; hl_lxcfs := hl_lxcfs h; hl_hist := hl_hist h |}.
Definition set_images (h : hostlet) (i : gset string) : hostlet :=
  {| hl_containers := hl_containers h; hl_images := i; hl_applied := hl_applied h; hl_deleted := hl_deleted h;
     hl_orphans := hl_orphans h; hl_desired := hl_desired h; hl_disk := hl_disk h;
     hl_stages := hl_stages h; hl_tracked := hl_tracked h; hl_lxcfs := hl_lxcfs h; hl_hist := hl_hist h |}.
Definition set_applied (h : hostlet) (a : gmap string Z) : hostlet :=
  {| hl_containers := hl_containers h; hl_images := hl_images h; hl_applied := a; hl_deleted := hl_deleted h;
     hl_orphans := hl_orphans h; hl_desired := hl_desired h; hl_disk := hl_disk h;
     hl_stages := hl_stages h; hl_tracked := hl_tracked h; hl_lxcfs := hl_lxcfs h; hl_hist := hl_hist h |}.
Definition set_deleted (h : hostlet) (d : gmap string Z) : hostlet :=
  {| hl_containers := hl_containers h; hl_images := hl_images h; hl_applied := hl_applied h; hl_deleted := d;
     hl_orphans := hl_orphans h; hl_desired := hl_desired h; hl_disk := hl_disk h;
     hl_stages := hl_stages h; hl_tracked := hl_tracked h; hl_lxcfs := hl_lxcfs h; hl_hist := hl_hist h |}.
Definition set_orphans (h : hostlet) (o : gmap string Z) : hostlet :=
  {| hl_containers := hl_containers h; hl_images := hl_images h; hl_applied := hl_applied h; hl_deleted := hl_deleted h;
     hl_orphans := o; hl_desired := hl_desired h; hl_disk := hl_disk h;
     hl_stages := hl_stages h; hl_tracked := hl_tracked h; hl_lxcfs := hl_lxcfs h; hl_hist := hl_hist h |}.
Definition set_desired (h : hostlet) (d : desiredSnapshot) : hostlet :=
  {| hl_containers := hl_containers h; hl_images := hl_images h; hl_applied := hl_applied h; hl_deleted := hl_deleted h;
     hl_orphans := hl_orphans h; hl_desired := d; hl_disk := hl_disk h;
     hl_stages := hl_stages h; hl_tracked := hl_tracked h; hl_lxcfs := hl_lxcfs h; hl_hist := hl_hist h |}.
Definition set_disk (h : hostlet) (d : gmap string Z) : hostlet :=
  {| hl_containers := hl_containers h; hl_images := hl_images h; hl_applied := hl_applied h; hl_deleted := hl_deleted h;
     hl_orphans := hl_orphans h; hl_desired := hl_desired h; hl_disk := d;
     hl_stages := hl_stages h; hl_tracked := hl_tracked h; hl_lxcfs := hl_lxcfs h; hl_hist := hl_hist h |}.
Definition set_stages (h : hostlet) (s : gmap string ReplicaStageEntry) : hostlet :=
  {| hl_containers := hl_containers h; hl_images := hl_images h; hl_applied := hl_applied h; hl_deleted := hl_deleted h;
     hl_orphans := hl_orphans h; hl_desired := hl_desired h; hl_disk := hl_disk h;
     hl_stages := s; hl_tracked := hl_tracked h; hl_lxcfs := hl_lxcfs h; hl_hist := hl_hist h |}.
Definition set_tracked (h : hostlet) (t : gmap string Z) : hostlet :=
  {| hl_containers := hl_containers h; hl_images := hl_images h; hl_applied := hl_applied h; hl_deleted := hl_deleted h;
     hl_orphans := hl_orphans h; hl_desired := hl_desired h; hl_disk := hl_disk h;
     hl_stages := hl_stages h; hl_tracked := t; hl_lxcfs := hl_lxcfs h; hl_hist := hl_hist h |}.
Definition set_hist (h : hostlet) (l : history) : hostlet :=
  {| hl_containers := hl_containers h; hl_images := hl_images h; hl_applied := hl_applied h; hl_deleted := hl_deleted h;
     hl_orphans := hl_orphans h; hl_desired := hl_desired h; hl_disk := hl_disk h;
     hl_stages := hl_stages h; hl_tracked := hl_tracked h; hl_lxcfs := hl_lxcfs h; hl_hist := l |}.

(** * [HostActiveConfig] *)

Definition SetAppliedRevision (name : string) (rev : Z) (h : hostlet) : hostlet :=
  set_applied h (<[name := rev]> (hl_applied h)).
Definition AppliedRevision (h : hostlet) (name : string) : option Z := hl_applied h !! name.

Definition MarkDeleted (instanceId : string) (ts : Z) (h : hostlet) : hostlet :=
  if bool_decide (instanceId = "") then h
  else
    let m := <[instanceId := ts]> (hl_deleted h) in
    let cutoff := i64 (i64 (ts - AppInstanceSoftDeleteTTL / 1000) - 24 * 3600) in
    set_deleted h (if 0 <? cutoff then filter (fun kv => ~ (kv.2 < cutoff)) m else m).
Definition DeletedAt (h : hostlet) (instanceId : string) : option Z := hl_deleted h !! instanceId.

Definition MarkOrphan (name : string) (ts : Z) (h : hostlet) : hostlet :=
  if bool_decide (name = "") then h
  else match hl_orphans h !! name with
       | Some _ => h
       | None => set_orphans h (<[name := ts]> (hl_orphans h))
       end.
Definition OrphanFirstSeen (h : hostlet) (name : string) : option Z := hl_orphans h !! name.
Definition ClearOrphan (name : string) (h : hostlet) : hostlet :=
  set_orphans h (delete name (hl_orphans h)).

(** * [desiredSnapshot] *)

Definition Replace (names : gset string) (ts : Z) : desiredSnapshot :=
  {| ds_names := names; ds_syncedAt := ts; ds_ok := true |}.
Definition SetFailedSync (d : desiredSnapshot) : desiredSnapshot :=
  {| ds_names := ds_names d; ds_syncedAt := ds_syncedAt d; ds_ok := false |}.
Definition Contains (d : desiredSnapshot) (name : string) : bool := bool_decide (name ∈ ds_names d).
Definition Empty (d : desiredSnapshot) : bool := bool_decide (ds_names d = ∅).
Definition IsFresh (d : desiredSnapshot) (now staleLimit : Z) : bool :=
  ds_ok d && (0 <? ds_syncedAt d) && (now -64 ds_syncedAt d <=? staleLimit).

Section ops.
Context `{HostEnv} `{MapRange}.

(** Perform an effect. *)
Definition perform (e : effect) (h : hostlet) : hostlet * bool :=
  let ok := env_ok (hl_hist h) e in (set_hist h ((e, ok) :: hl_hist h), ok).

(** * Teardown *)

Definition destroyContainerByName (name : string) (h : hostlet) : hostlet * result unit :=
  match hl_containers h !! name with
  | None => (h, Ok tt)
  | Some info =>
    (* a failed stop does not prevent the removal *)
    let h := if bool_decide (ci_State info = OpStateRunning) then fst (perform (EStop name) h) else h in
    let '(h, ok) := perform (ERemove name) h in
    if ok then
      let h := set_containers h (delete name (hl_containers h)) in
      let h := fst (perform (EQuotaCleanup name) h) in
      (h, Ok tt)
    else (h, Err "container remove failed")
  end.

Definition operateContainerDestroying (rep : replica) (h : hostlet) : hostlet * string * result unit :=
  match destroyContainerByName (rp_name rep) h with
  | (h, Err e) => (h, OpStateFailed, Err e)
  | (h, Ok _) => (h, OpStateDestroyed, Ok tt)
  end.

Definition operateContainerStopping (rep : replica) (h : hostlet) : hostlet * string * result unit :=
  match hl_containers h !! rp_name rep with
  | None => (h, OpStateStopped, Ok tt)
  | Some info =>
    if bool_decide (ci_State info = OpStateStopped) then (h, OpStateStopped, Ok tt)
    else
      let '(h, ok) := perform (EStop (rp_name rep)) h in
      if ok then (h, OpStateStopped, Ok tt) else (h, OpStateFailed, Err "container stop failed")
  end.

(** The replicas of a soft-deleted app on this host: destroyed and archived; the
    flag says whether one failed. *)
Fixpoint deleteReplicas (hostId : string) (reps : list replica) (h : hostlet) : hostlet * bool :=
  match reps with
  | [] => (h, false)
  | rep :: reps' =>
    if bool_decide (rp_HostId rep = "") || bool_decide (rp_HostId rep <> hostId)
    then deleteReplicas hostId reps' h
    else match operateContainerDestroying rep h with
         | (h, _, Err _) => let '(h, _) := deleteReplicas hostId reps' h in (h, true)
         | (h, _, Ok _) => deleteReplicas hostId reps' (fst (perform (EArchive (rp_name rep)) h))
         end
  end.

Definition containerDeleteRefresh (now : Z) (hostId appId : string) (reps : list replica) (h : hostlet) : hostlet :=
  match DeletedAt h appId with
  | Some _ => h
  | None =>
    let '(h, failed) := deleteReplicas hostId reps h in
    if failed then h else fst (perform ESaveActive (MarkDeleted appId now h))
  end.

(** * The orphan sweep *)

Definition orphanQuarantine (name : string) (h : hostlet) : hostlet :=
  let h := fst (perform (EPolicy name OpRestartPolicyNo) h) in fst (perform (EStop name) h).
Definition orphanRestoreRestartPolicy (name : string) (h : hostlet) : hostlet :=
  fst (perform (EPolicy name OpRestartPolicyAlways) h).
Definition orphanStop (name : string) (h : hostlet) : hostlet := fst (perform (EStop name) h).

(** The recovery pass: orphans that are desired again. *)
Definition recoverOrphan (hd : hostlet * bool) (name : string) : hostlet * bool :=
  let '(h, dirty) := hd in
  if Contains (hl_desired h) name then (ClearOrphan name (orphanRestoreRestartPolicy name h), true)
  else (h, dirty).

(** An undesired container: recorded and quarantined at first sight, kept stopped
    afterwards; with it the time it was first seen. *)
Definition trackOrphan (now : Z) (name : string) (info : ContainerInfo) (h : hostlet) (dirty : bool)
  : hostlet * bool * Z :=
  match OrphanFirstSeen h name with
  | None => (orphanQuarantine name (MarkOrphan name now h), true, now)
  | Some ts => (if bool_decide (ci_State info = OpStateRunning) then orphanStop name h else h, dirty, ts)
  end.

(** The detect and reap pass over one local container. *)
Definition sweepContainer (now : Z) (hd : hostlet * bool) (kv : string * ContainerInfo) : hostlet * bool :=
  let '(h, dirty) := hd in
  let '(name, info) := kv in
  if negb (ContainerNameValid name) then (h, dirty)
  else if Contains (hl_desired h) name then (h, dirty)
  else
    let '(h, dirty, firstSeen) := trackOrphan now name info h dirty in
    if OrphanContainerGracePeriod <=? now -64 firstSeen then
      match destroyContainerByName name h with
      | (h, Err _) => (h, dirty)
      | (h, Ok _) => (ClearOrphan name (fst (perform (EArchive name) h)), true)
      end
    else (h, dirty).

Definition containerOrphanSweep (now : Z) (h : hostlet) : hostlet :=
  if negb (IsFresh (hl_desired h) now OrphanSyncStaleLimit) then h
  else if Empty (hl_desired h) then h
  else
    let hd := foldl recoverOrphan (h, false) (map fst (map_range (hl_orphans h))) in
    let '(h, dirty) := foldl (sweepContainer now) hd (map_range (hl_containers h)) in
    if dirty then fst (perform ESaveActive h) else h.
End ops.

(** * Properties of the orphan sweep *)

(** [h'] extends the history of [h] by effects that satisfy [P]. *)
Definition extends (P : effect -> Prop) (h h' : hostlet) : Prop :=
  exists l, hl_hist h' = (l ++ hl_hist h)%list /\ Forall (fun eb => P (fst eb)) l.

Lemma extends_refl P h : extends P h h.
Proof. by exists []. Qed.

Lemma extends_trans P h1 h2 h3 : extends P h1 h2 -> extends P h2 h3 -> extends P h1 h3.
Proof.
  intros (l1 & E1 & F1) (l2 & E2 & F2). exists (l2 ++ l1)%list.
  rewrite E2, E1, app_assoc. split; [done|]. by apply Forall_app.
Qed.

Lemma extends_same P h h' : hl_hist h' = hl_hist h -> extends P h h'.
Proof. intros E. exists []. by rewrite E. Qed.

(** What a sweep at [now] may do, given the desired names and the orphans recorded
    before it. *)
Definition sweep_allowed (now : Z) (D : gset string) (O : gmap string Z) (e : effect) : Prop :=
  match e with
  | EPolicy n p => (p = OpRestartPolicyAlways /\ n ∈ D) \/
                   (p = OpRestartPolicyNo /\ (n ∉ D) /\ ContainerNameValid n = true)
  | EStop n => (n ∉ D) /\ ContainerNameValid n = true
  | ERemove n | EArchive n | EQuotaCleanup n =>
      (n ∉ D) /\ ContainerNameValid n = true /\
      exists ts, O !! n = Some ts /\ OrphanContainerGracePeriod <= now -64 ts
  | ESaveActive => True
  | _ => False
  end.

Section proofs.
Context `{HostEnv} `{MapRangeLaws}.
Implicit Types (h : hostlet) (n : string).

Lemma perform_keeps e h : hl_desired (fst (perform e h)) = hl_desired h /\
  hl_orphans (fst (perform e h)) = hl_orphans h /\ hl_containers (fst (perform e h)) = hl_containers h /\
  hl_hist (fst (perform e h)) = (e, env_ok (hl_hist h) e) :: hl_hist h.
Proof. done. Qed.

Lemma perform_extends (P : effect -> Prop) e h : P e -> extends P h (fst (perform e h)).
Proof. intros HP. exists [(e, env_ok (hl_hist h) e)]. split; [done|]. by repeat constructor. Qed.

(** The teardown of a container stops, removes and cleans up that container only,
    and touches no record but the cache. *)
Lemma destroy_spec (P : effect -> Prop) name h h' r :
  destroyContainerByName name h = (h', r) ->
  P (EStop name) -> P (ERemove name) -> P (EQuotaCleanup name) ->
  extends P h h' /\ hl_desired h' = hl_desired h /\ hl_orphans h' = hl_orphans h.
Proof.
  intros Hd P1 P2 P3. unfold destroyContainerByName in Hd.
  destruct (hl_containers h !! name) as [info|]; [|injection Hd as <- <-; by split; [apply extends_refl|]].
  set (h1 := if bool_decide _ then _ else h) in Hd.
  assert (H1 : extends P h h1 /\ hl_desired h1 = hl_desired h /\ hl_orphans h1 = hl_orphans h).
  { subst h1. destruct (bool_decide _); [split; [by apply perform_extends|done]|].
    by split; [apply extends_refl|]. }
  clearbody h1. destruct H1 as (E1 & D1 & O1).
  unfold perform at 1 in Hd. destruct (env_ok _ _); injection Hd as <- <-.
  - split; [|by rewrite <- D1, <- O1]. eapply extends_trans; [exact E1|].
    exists [(EQuotaCleanup name, env_ok ((ERemove name, true) :: hl_hist h1) (EQuotaCleanup name)); (ERemove name, true)].
    split; [done|]. by repeat constructor.
  - split; [|by rewrite <- D1, <- O1]. eapply extends_trans; [exact E1|].
    exists [(ERemove name, false)]. split; [done|]. by repeat constructor.
Qed.

(** The recovery pass clears the orphans that are desired. *)
Lemma recover_fold now D O names h dirty h' dirty' :
  hl_desired h = D ->
  foldl recoverOrphan (h, dirty) names = (h', dirty') ->
  extends (sweep_allowed now (ds_names D) O) h h' /\ hl_desired h' = D /\
  hl_containers h' = hl_containers h /\
  (forall n ts, hl_orphans h' !! n = Some ts <->
     hl_orphans h !! n = Some ts /\ ~ (n ∈ names /\ n ∈ ds_names D)).
Proof.
  intros HD. revert h dirty HD. induction names as [|m names IH]; intros h dirty HD; cbn [foldl].
  { intros [= <- <-]. split_and!; [apply extends_refl|done|done|]. intros n ts. rewrite elem_of_nil. naive_solver. }
  unfold recoverOrphan at 2, Contains. rewrite HD.
  destruct (bool_decide_reflect (m ∈ ds_names D)) as [Hm|Hm]; intros Hf.
  - apply IH in Hf as (E & D' & C & Ho); [|exact HD]. split_and!; [|done|done|].
    + eapply extends_trans; [|exact E].
      exists [(EPolicy m OpRestartPolicyAlways, env_ok (hl_hist h) (EPolicy m OpRestartPolicyAlways))].
      split; [done|]. constructor; [by left|constructor].
    + intros n ts. rewrite Ho. cbn. rewrite lookup_delete_Some, elem_of_cons. naive_solver.
  - destruct (IH _ _ HD Hf) as (E & D' & C & Ho). split_and!; [done|done|done|].
    intros n ts. rewrite Ho, elem_of_cons. naive_solver.
Qed.

(** The state of the records in the middle of a sweep: recorded orphans were
    recorded before it or at its time, and none is desired. *)
Definition sweep_inv (now : Z) (D : desiredSnapshot) (O : gmap string Z) h : Prop :=
  hl_desired h = D /\
  (forall n ts, hl_orphans h !! n = Some ts -> O !! n = Some ts \/ ts = now) /\
  (forall n ts, hl_orphans h !! n = Some ts -> n ∉ ds_names D).

Lemma grace_not_now now : ~ OrphanContainerGracePeriod <= now -64 now.
Proof. rewrite Z.sub_diag. vm_compute. tauto. Qed.

Lemma trackOrphan_spec now D O h dirty name info h1 d1 ts1 :
  sweep_inv now D O h -> ContainerNameValid name = true -> name ∉ ds_names D ->
  trackOrphan now name info h dirty = (h1, d1, ts1) ->
  extends (sweep_allowed now (ds_names D) O) h h1 /\ sweep_inv now D O h1 /\
  (OrphanContainerGracePeriod <= now -64 ts1 -> O !! name = Some ts1).
Proof.
  intros (HD & Ho & Hn) Hv Hin. unfold trackOrphan, OrphanFirstSeen.
  assert (HP2 : sweep_allowed now (ds_names D) O (EPolicy name OpRestartPolicyNo)) by (by right).
  destruct (hl_orphans h !! name) as [ts|] eqn:Eo; intro_tuple.
  - split_and!.
    + destruct (bool_decide _); [by apply perform_extends|apply extends_refl].
    + destruct (bool_decide _); by split_and!.
    + intros Hg. destruct (Ho name ts1 Eo) as [?| ->]; [done|]. by apply grace_not_now in Hg.
  - unfold MarkOrphan. rewrite bool_decide_false by (intros ->; discriminate Hv). rewrite Eo.
    split; [|split; [split_and!; [done| |]|intros Hg; by apply grace_not_now in Hg]].
    + eapply extends_trans; [|by apply perform_extends].
      eapply extends_trans; [|by apply perform_extends]. by apply extends_same.
    + intros n ts. cbn. destruct (decide (n = name)) as [->|].
      * rewrite lookup_insert_eq. intros [= <-]. by right.
      * rewrite lookup_insert_ne by done. auto.
    + intros n ts. cbn. destruct (decide (n = name)) as [->|]; [done|].
      rewrite lookup_insert_ne by done. eauto.
Qed.

(** One container of the detect and reap pass. *)
Lemma sweepContainer_spec now D O h dirty kv h' dirty' :
  sweep_inv now D O h -> sweepContainer now (h, dirty) kv = (h', dirty') ->
  extends (sweep_allowed now (ds_names D) O) h h' /\ sweep_inv now D O h'.
Proof.
  intros Hi. destruct kv as [name info]. unfold sweepContainer.
  destruct (ContainerNameValid name) eqn:Hv; cbn [negb]; [|intros [= <- <-]; split; [apply extends_refl|done]].
  unfold Contains. rewrite (proj1 Hi).
  destruct (bool_decide_reflect (name ∈ ds_names D)) as [Hin|Hin];
    [intros [= <- <-]; split; [apply extends_refl|done]|].
  destruct (trackOrphan now name info h dirty) as [[h1 d1] ts1] eqn:Et.
  destruct (trackOrphan_spec _ _ _ _ _ _ _ _ _ _ Hi Hv Hin Et) as (E1 & (D1 & O1 & N1) & Hg).
  destruct (Z.leb_spec OrphanContainerGracePeriod (now -64 ts1)) as [Hle|Hlt]; [|by intros [= <- <-]].
  assert (HP3 : exists ts, O !! name = Some ts /\ OrphanContainerGracePeriod <= now -64 ts) by eauto.
  destruct (destroyContainerByName name h1) as [h2 r] eqn:Ed.
  destruct (destroy_spec (sweep_allowed now (ds_names D) O) _ _ _ _ Ed) as (E2 & D2 & O2); [done..|].
  destruct r; intro_tuple.
  - split; [|split_and!].
    + eapply extends_trans; [exact E1|]. eapply extends_trans; [exact E2|].
      exists [(EArchive name, env_ok (hl_hist h2) (EArchive name))]. split; [done|].
      constructor; [done|constructor].
    + cbn. by rewrite D2.
    + intros n ts. cbn. rewrite O2, lookup_delete_Some. intros [_ ?]. eauto.
    + intros n ts. cbn. rewrite O2, lookup_delete_Some. intros [_ ?]. eauto.
  - split; [by eapply extends_trans|]. unfold sweep_inv. by rewrite D2, O2.
Qed.

Lemma sweep_fold now D O l h dirty h' dirty' :
  sweep_inv now D O h -> foldl (sweepContainer now) (h, dirty) l = (h', dirty') ->
  extends (sweep_allowed now (ds_names D) O) h h' /\ sweep_inv now D O h'.
Proof.
  revert h dirty. induction l as [|kv l IH]; intros h dirty Hi; cbn [foldl].
  { intros [= <- <-]. split; [apply extends_refl|done]. }
  destruct (sweepContainer now (h, dirty) kv) as [h1 d1] eqn:E.
  destruct (sweepContainer_spec _ _ _ _ _ _ _ _ Hi E) as (E1 & Hi1).
  intros Hf. destruct (IH _ _ Hi1 Hf) as (E2 & Hi2). split; [by eapply extends_trans|done].
Qed.

(** A sweep acts only when the desired set is fresh and not empty. *)
Definition effective (now : Z) h : bool :=
  IsFresh (hl_desired h) now OrphanSyncStaleLimit && negb (Empty (hl_desired h)).

Lemma sweep_spec now h :
  let h' := containerOrphanSweep now h in
  if effective now h then
    extends (sweep_allowed now (ds_names (hl_desired h)) (hl_orphans h)) h h' /\
    hl_desired h' = hl_desired h /\
    (forall n ts, hl_orphans h' !! n = Some ts -> (n ∉ ds_names (hl_desired h)) /\
       (hl_orphans h !! n = Some ts \/ ts = now))
  else h' = h.
Proof.
  cbv zeta. unfold effective, containerOrphanSweep.
  destruct (IsFresh _ _ _); cbn [negb andb]; [|done]. destruct (Empty _); cbn [negb]; [done|].
  destruct (foldl recoverOrphan _ _) as [h1 d1] eqn:E1.
  destruct (recover_fold now _ (hl_orphans h) _ _ _ _ _ eq_refl E1) as (X1 & D1 & C1 & O1).
  assert (Hi1 : sweep_inv now (hl_desired h) (hl_orphans h) h1).
  { split_and!; [done|intros n ts [? _]%O1; by left|].
    intros n ts [Ho Hn]%O1 Hin. apply Hn. split; [|done].
    apply list_elem_of_fmap. exists (n, ts). split; [done|]. by apply elem_of_map_range. }
  destruct (foldl (sweepContainer now) _ _) as [h2 d2] eqn:E2.
  destruct (sweep_fold _ _ _ _ _ _ _ _ Hi1 E2) as (X2 & D2 & O2 & N2).
  assert (X : extends (sweep_allowed now (ds_names (hl_desired h)) (hl_orphans h)) h h2)
    by (by eapply extends_trans).
  destruct d2; (split_and!; [|by rewrite <- D2|intros n ts Hx; cbn in Hx; eauto]); [|done].
  eapply extends_trans; [exact X|]. by apply perform_extends.
Qed.

(** ** The sweep over time *)

(** What happens to the records the sweep reads: a status update of the zone that
    succeeds or fails, a refresh of the container cache, a sweep. *)
Inductive input :=
| ISync (names : gset string) (ts : Z)
| ISyncFailed
| IContainers (cs : gmap string ContainerInfo)
| ISweep (now : Z).

Definition on_input h (i : input) : hostlet :=
  match i with
  | ISync names ts => set_desired h (Replace names ts)
  | ISyncFailed => set_desired h (SetFailedSync (hl_desired h))
  | IContainers cs => set_containers h cs
  | ISweep now => containerOrphanSweep now h
  end.

Definition after h (l : list input) : hostlet := foldl on_input h l.

(** An effective sweep at [ts] saw [n] not desired, and so did every effective
    sweep since. *)
Definition absent_since h0 (l : list input) n (ts : Z) : Prop :=
  exists l1 l2, l = (l1 ++ ISweep ts :: l2)%list /\
    effective ts (after h0 l1) = true /\ (n ∉ ds_names (hl_desired (after h0 l1))) /\
    (forall a now b, l2 = (a ++ ISweep now :: b)%list ->
       effective now (after h0 (l1 ++ ISweep ts :: a)%list) = true ->
       n ∉ ds_names (hl_desired (after h0 (l1 ++ ISweep ts :: a)%list))).

Lemma after_snoc h0 l i : after h0 (l ++ [i])%list = on_input (after h0 l) i.
Proof. unfold after. by rewrite foldl_app. Qed.

Lemma snoc_split {A} (l2 a b : list A) x y :
  (l2 ++ [x])%list = (a ++ y :: b)%list -> (b = [] /\ l2 = a /\ x = y) \/ exists b', b = (b' ++ [x])%list /\ l2 = (a ++ y :: b')%list.
Proof.
  destruct b as [|z b _] using rev_ind; intros E.
  - left. apply app_inj_tail in E as [-> ->]. done.
  - right. exists b. change (a ++ y :: b ++ [z])%list with (a ++ (y :: b) ++ [z])%list in E.
    rewrite app_assoc in E. apply app_inj_tail in E as [-> ->]. done.
Qed.

(** One more input extends the absence, unless it is an effective sweep that sees
    the name desired. *)
Lemma absent_since_snoc h0 l n ts i : absent_since h0 l n ts ->
  (forall now, i = ISweep now -> effective now (after h0 l) = true -> n ∉ ds_names (hl_desired (after h0 l))) ->
  absent_since h0 (l ++ [i])%list n ts.
Proof.
  intros (l1 & l2 & -> & He & Hn & Hall) Hi. exists l1, (l2 ++ [i])%list.
  split; [by rewrite <- app_assoc|]. split_and!; [done|done|].
  intros a now b E Heff. apply snoc_split in E as [(-> & -> & ->)|(b' & -> & ->)].
  - by eapply Hi.
  - by eapply Hall.
Qed.

Lemma orphans_absent h0 l n ts : hl_orphans h0 = ∅ ->
  hl_orphans (after h0 l) !! n = Some ts -> absent_since h0 l n ts.
Proof.
  intros H0e. revert n ts. induction l as [|i l IH] using rev_ind; intros n ts.
  { cbn. rewrite H0e, lookup_empty. done. }
  rewrite after_snoc. destruct i as [names t| |cs|now]; cbn [on_input].
  1-3: intros Ho; apply absent_since_snoc; [by apply IH|done].
  intros Ho. pose proof (sweep_spec now (after h0 l)) as Hs. cbv zeta in Hs.
  destruct (effective now (after h0 l)) eqn:He.
  - destruct Hs as (_ & _ & Hs). destruct (Hs n ts Ho) as [Hn [Hold| ->]].
    + apply absent_since_snoc; [by apply IH|]. intros now' [= <-] _. done.
    + exists l, []. split_and!; [done|done|done|]. intros a now' b E. by destruct a.
  - rewrite Hs in Ho. apply absent_since_snoc; [by apply IH|]. intros now' [= <-] Heff. congruence.
Qed.

(** C6: an orphan sweep never touches a container the zone wants, and never acts on a
    stale, failed or empty answer of the zone.  Over any sequence of status updates,
    cache refreshes and sweeps that starts with no recorded orphan, a sweep removes
    or archives a container only if the zone's last answer is fresh and not empty
    and does not name it, and an earlier sweep, at least the grace period before,
    already saw it unwanted, and no sweep in between saw it wanted. *)
Theorem orphan_removed_only_after_grace h0 l now n new :
  hl_orphans h0 = ∅ ->
  hl_hist (containerOrphanSweep now (after h0 l)) = (new ++ hl_hist (after h0 l))%list ->
  (ERemove n ∈ map fst new \/ EArchive n ∈ map fst new) ->
  effective now (after h0 l) = true /\ (n ∉ ds_names (hl_desired (after h0 l))) /\
  exists ts, OrphanContainerGracePeriod <= now -64 ts /\ absent_since h0 l n ts.
Proof.
  intros H0e Hnew Hin. pose proof (sweep_spec now (after h0 l)) as Hs. cbv zeta in Hs.
  destruct (effective now (after h0 l)) eqn:He.
  - destruct Hs as ((l' & El & Hall) & _). rewrite Hnew in El. apply app_inv_tail in El as <-.
    rewrite Forall_forall in Hall.
    assert (Hal : sweep_allowed now (ds_names (hl_desired (after h0 l))) (hl_orphans (after h0 l)) (ERemove n)).
    { destruct Hin as [Hin|Hin]; apply list_elem_of_fmap in Hin as (eb & E & Hin);
        specialize (Hall eb Hin); rewrite <- E in Hall; exact Hall. }
    destruct Hal as (Hn & _ & ts & Ho & Hg). split_and!; [done|done|].
    exists ts. split; [done|]. by apply orphans_absent.
  - rewrite Hs in Hnew. apply (f_equal length) in Hnew. rewrite length_app in Hnew.
    destruct new; [|simpl in Hnew; lia]. exfalso. destruct Hin as [E|E]; by apply not_elem_of_nil in E.
Qed.

(** whatever a sweep does to a container that the zone wants is to restore its
    restart policy; it stops, quarantines, removes and archives only containers
    that the zone does not want, and only under names the host itself gives. *)
Theorem sweep_spares_desired h now new :
  hl_hist (containerOrphanSweep now h) = (new ++ hl_hist h)%list ->
  Forall (fun eb => sweep_allowed now (ds_names (hl_desired h)) (hl_orphans h) (fst eb)) new.
Proof.
  intros Hnew. pose proof (sweep_spec now h) as Hs. cbv zeta in Hs. destruct (effective now h).
  - destruct Hs as ((l' & El & Hall) & _). rewrite Hnew in El. by apply app_inv_tail in El as <-.
  - rewrite Hs in Hnew. apply (f_equal length) in Hnew. rewrite length_app in Hnew.
    destruct new; [done|simpl in Hnew; lia].
Qed.
End proofs.

(** ** Witnesses *)

Definition calm_env : HostEnv :=
  {| env_ok := fun _ _ => true; env_inspect := fun _ _ => None;
     env_created := fun _ _ => {| ci_Image := ""; ci_State := OpStateStarting; ci_IP := ""; ci_Ports := ∅;
       ci_CpuLimit := 0; ci_MemoryLimit := 0; ci_Binds := []; ci_Created := 0; ci_Started := 0;
       ci_LastInspectTime := 0 |};
     env_images := fun _ => None |}.

Section witnesses.
Local Existing Instance calm_env.

Definition ex_info : ContainerInfo :=
  {| ci_Image := "img"; ci_State := OpStateRunning; ci_IP := ""; ci_Ports := ∅; ci_CpuLimit := 0;
     ci_MemoryLimit := 0; ci_Binds := []; ci_Created := 1; ci_Started := 1; ci_LastInspectTime := 0 |}.
Definition ex_hostlet : hostlet :=
  {| hl_containers := {[ "i8k_old_0" := ex_info ]}; hl_images := ∅; hl_applied := ∅; hl_deleted := ∅;
     hl_orphans := ∅; hl_desired := {| ds_names := ∅; ds_syncedAt := 0; ds_ok := false |}; hl_disk := ∅;
     hl_stages := ∅; hl_tracked := ∅; hl_lxcfs := false; hl_hist := [] |}.
Definition ex_inputs : list input :=
  [ISync {[ "i8k_web_0" ]} 1000; ISweep 1001; ISync {[ "i8k_web_0" ]} 87410].
Definition ex_new : history :=
  [(ESaveActive, true); (EArchive "i8k_old_0", true); (EQuotaCleanup "i8k_old_0", true);
   (ERemove "i8k_old_0", true); (EStop "i8k_old_0", true); (EStop "i8k_old_0", true)].

Lemma ex_new_eq : hl_hist (containerOrphanSweep 87411 (after ex_hostlet ex_inputs)) =
  (ex_new ++ hl_hist (after ex_hostlet ex_inputs))%list.
Proof. vm_compute. reflexivity. Qed.

Lemma orphan_removed_only_after_grace_witness :
  effective 87411 (after ex_hostlet ex_inputs) = true /\
  ("i8k_old_0" ∉ ds_names (hl_desired (after ex_hostlet ex_inputs))) /\
  exists ts, OrphanContainerGracePeriod <= 87411 -64 ts /\ absent_since ex_hostlet ex_inputs "i8k_old_0" ts.
Proof.
  apply (orphan_removed_only_after_grace ex_hostlet ex_inputs 87411 "i8k_old_0" ex_new).
  - reflexivity.
  - exact ex_new_eq.
  - left. apply (bool_decide_unpack _). vm_compute. exact I.
Defined.

Lemma sweep_spares_desired_witness :
  Forall (fun eb => sweep_allowed 87411 (ds_names (hl_desired (after ex_hostlet ex_inputs)))
                      (hl_orphans (after ex_hostlet ex_inputs)) (fst eb)) ex_new.
Proof. apply (sweep_spares_desired (after ex_hostlet ex_inputs) 87411 ex_new). exact ex_new_eq. Defined.
End witnesses.
