(* ===== verification/Control.v ===== *)
(** The reconcile loop of a host for its replicas, [src/internal/hostlet/task_container.go]:
    the observed state of a replica's container, whether it must be recreated, and
    the start, stop and destroy commands of the lifecycle ([StateFlow]). *)
From Stdlib Require Import ZArith Lia Ascii.
From S2P Require Import Prelude GoStrings GoFloat AppNames Stage StateFlow Hostlet.
Local Open Scope string_scope.
Local Open Scope Z_scope.

Definition lxcfsProcEntries : list string :=
  ["cpuinfo"; "diskstats"; "meminfo"; "stat"; "swaps"; "uptime"; "slabinfo"].

(** The second field of a bind [host:container[:ro]]. *)
Definition bind_target (bind : string) : option string :=
  match split_at ":" bind with _ :: t :: _ => Some t | _ => None end.

Definition containerHasLxcfsMounts (binds : list string) : bool :=
  existsb (fun bind => existsb (fun entry => bool_decide (bind_target bind = Some ("/proc/" +:+ entry)))
                         lxcfsProcEntries) binds.

(** [relDiff(target, current) > 0.01] *)
Definition over_tolerance (target current : Z) : bool :=
  if target <=? 0 then f64_gt (F 0 0) f64_0_01
  else f64_gt (f64_div (let d := f64_of_int (target -64 current) in F (Z.abs (f_man d)) (f_exp d))
                       (f64_of_int target)) f64_0_01.

(** The ports a container must bind. *)
Definition ports_differ (want : list (Z * Z)) (have : gmap Z Z) : bool :=
  existsb (fun sp => let '(port, hostPort) := sp in
             if (port <? 1) || (hostPort <? 1) then false
             else match have !! i32 port with
                  | None => true
                  | Some b => negb (b =? i32 hostPort)
                  end) want.

Definition set_inspected (info ifo : ContainerInfo) (tn : Z) : ContainerInfo :=
  {| ci_Image := ci_Image info; ci_State := ci_State info; ci_IP := ci_IP ifo; ci_Ports := ci_Ports ifo;
     ci_CpuLimit := ci_CpuLimit ifo; ci_MemoryLimit := ci_MemoryLimit ifo; ci_Binds := ci_Binds ifo;
     ci_Created := ci_Created info; ci_Started := ci_Started info; ci_LastInspectTime := tn |}.

(** The comparisons of [containerSpecReset] against the cached record. *)
Definition spec_differs (rep : replica) (lxcfs : bool) (info : ContainerInfo) : bool :=
  (rp_hasResources rep && bool_decide (rp_Image rep <> "") && bool_decide (rp_Image rep <> ci_Image info)) ||
  over_tolerance (rp_CpuLimit rep) (ci_CpuLimit info) ||
  over_tolerance (rp_MemoryLimit rep) (ci_MemoryLimit info) ||
  ports_differ (rp_ServicePorts rep) (ci_Ports info) ||
  (bool_decide (rp_VpcIpv4 rep <> "") && bool_decide (rp_VpcIpv4 rep <> ci_IP info)) ||
  negb (Bool.eqb (containerHasLxcfsMounts (ci_Binds info)) lxcfs).

Section control.
Context `{HostEnv}.

Definition stage_of (rep : replica) (h : hostlet) : ReplicaStageEntry :=
  default (new_entry (rp_id rep)) (hl_stages h !! ReplicaStageKey (rp_app rep) (rp_id rep)).
Definition put_stage (rep : replica) (e : ReplicaStageEntry) (h : hostlet) : hostlet :=
  set_stages h (<[ReplicaStageKey (rp_app rep) (rp_id rep) := e]> (hl_stages h)).
Definition stage_ev (now : Z) (rep : replica) (name : string) (ev : stage_event) (msg : string) (h : hostlet) : hostlet :=
  put_stage rep (stageName name (run_event (now * 1000) msg ev) (stage_of rep h)) h.

(** [containerStateSync]: the state the driver reported for the container. *)
Definition containerStateSync (rep : replica) (h : hostlet) : string :=
  match hl_containers h !! rp_name rep with
  | None => OpStateEmpty
  | Some info => ci_State info
  end.

Definition readAppliedRevisionFromDisk (rep : replica) (h : hostlet) : option Z :=
  hl_disk h !! rp_name rep.

(** The revision part of [containerSpecReset]. *)
Definition revisionReset (rep : replica) (h : hostlet) : hostlet * bool :=
  let want := rp_Revision rep in
  let cached := AppliedRevision h (rp_name rep) in
  if match cached with Some applied => applied <? want | None => true end then
    match readAppliedRevisionFromDisk rep h with
    | Some diskRev => (SetAppliedRevision (rp_name rep) diskRev h, diskRev <? want)
    | None => (h, default 0 cached <? want)
    end
  else (h, false).

Definition inspectContainer (tn : Z) (rep : replica) (info : ContainerInfo) (h : hostlet) : hostlet * ContainerInfo :=
  if i64 (ci_LastInspectTime info + 1800) <? tn then
    match env_inspect (hl_hist h) (rp_name rep) with
    | Some ifo =>
      let info := set_inspected info ifo tn in
      (set_containers h (<[rp_name rep := info]> (hl_containers h)), info)
    | None => (h, info)
    end
  else (h, info).

Definition containerSpecReset (tn : Z) (rep : replica) (h : hostlet) : hostlet * bool :=
  match hl_containers h !! rp_name rep with
  | None => (h, false)
  | Some info =>
    let '(h, reset) := revisionReset rep h in
    if reset then (h, true)
    else let '(h, info) := inspectContainer tn rep info h in
         (h, spec_differs rep (hl_lxcfs h) info)
  end.

(** [provisionInnerStack]: the replica file is written best-effort, the entrypoint
    files must be written. *)
Definition provisionInnerStack (rep : replica) (h : hostlet) : hostlet * result unit :=
  let '(h, ok) := perform (EMkdir (rp_name rep)) h in
  if negb ok then (h, Err "[provisionInnerStack] mkdir innerstack failed") else
  let '(h, written) := perform (EWriteReplica (rp_name rep)) h in
  let h := if written then set_disk h (<[rp_name rep := rp_Revision rep]> (hl_disk h)) else h in
  let '(h, ok) := perform (EProvision (rp_name rep)) h in
  if ok then (h, Ok tt) else (h, Err "[provisionInnerStack] inagent").

(** [AppReplicaInstanceList.TryStore] *)
Definition TryStore (rep : replica) (h : hostlet) : hostlet * bool :=
  if match hl_tracked h !! rp_name rep with Some rev => rev <? rp_Revision rep | None => true end
  then (set_tracked h (<[rp_name rep := rp_Revision rep]> (hl_tracked h)), true)
  else (h, false).

(** The image of the replica, pulled if the cache does not have it. *)
Definition ensureImage (now : Z) (rep : replica) (h : hostlet) : hostlet * result unit :=
  if bool_decide (rp_Image rep ∈ hl_images h) then (h, Ok tt)
  else
    let h := stage_ev now rep "image_pull" EvRunning (rp_Image rep) h in
    let '(h, ok) := perform (EImagePull (rp_Image rep)) h in
    if ok then
      let h := stage_ev now rep "image_pull" EvSuccess "" h in
      (match env_images (hl_hist h) with
       | Some l => set_images h (list_to_set l)
       | None => h
       end, Ok tt)
    else (stage_ev now rep "image_pull" EvFailed "error" h, Err "image pull failed").

Definition containerCreate (now : Z) (rep : replica) (h : hostlet) : hostlet * result unit :=
  if negb (rp_hasResources rep) then (h, Err "app spec resources is nil") else
  match ensureImage now rep h with
  | (h, Err e) => (h, Err e)
  | (h, Ok _) =>
    let h := stage_ev now rep "pkg_download" EvRunning "" h in
    let '(h, ok) := perform (EPackages (rp_app rep)) h in
    if negb ok then (stage_ev now rep "pkg_download" EvFailed "error" h, Err "package preparation failed") else
    let h := stage_ev now rep "pkg_download" EvSuccess "" h in
    let h := stage_ev now rep "provision" EvRunning "" h in
    match provisionInnerStack rep h with
    | (h, Err e) => (stage_ev now rep "provision" EvFailed e h, Err e)
    | (h, Ok _) =>
      let h := stage_ev now rep "provision" EvSuccess "" h in
      let h := stage_ev now rep "container_create" EvRunning "" h in
      let created := env_created (hl_hist h) (rp_name rep) in
      let '(h, ok) := perform (ECreate (rp_name rep)) h in
      if negb ok then (stage_ev now rep "container_create" EvFailed "error" h, Err "container create failed") else
      let h := stage_ev now rep "container_create" EvSuccess "" h in
      let h := set_containers h (<[rp_name rep := created]> (hl_containers h)) in
      let h := fst (TryStore rep h) in
      let h := SetAppliedRevision (rp_name rep) (rp_Revision rep) h in
      (fst (perform ESaveActive h), Ok tt)
    end
  end.

(** Creation and start of a container that is not there. *)
Definition createAndStart (now : Z) (rep : replica) (h : hostlet) : hostlet * string * result unit :=
  match containerCreate now rep h with
  | (h, Err e) => (h, OpStateFailed, Err e)
  | (h, Ok _) =>
    let h := stage_ev now rep "container_start" EvRunning "" h in
    let '(h, ok) := perform (EStart (rp_name rep)) h in
    if ok then (stage_ev now rep "container_start" EvSuccess "" h, OpStateRunning, Ok tt)
    else (stage_ev now rep "container_start" EvFailed "error" h, OpStateFailed, Err "container start failed")
  end.

(** Removal of a container that must be recreated, and what follows. *)
Definition removeThenCreate (now : Z) (rep : replica) (h : hostlet) : hostlet * string * result unit :=
  let '(h, ok) := perform (ERemove (rp_name rep)) h in
  if ok then createAndStart now rep (set_containers h (delete (rp_name rep) (hl_containers h)))
  else (h, OpStateFailed, Err "container remove failed").

(** The start of a stopped container whose spec is current. *)
Definition startStopped (now : Z) (rep : replica) (h : hostlet) : hostlet * string * result unit :=
  let h := fst (provisionInnerStack rep h) in
  let h := stage_ev now rep "container_start" EvRunning "" h in
  let '(h, ok) := perform (EStart (rp_name rep)) h in
  if ok then (stage_ev now rep "container_start" EvSuccess "" h, OpStateRunning, Ok tt)
  else
    let '(h, ok) := perform (ERemove (rp_name rep)) h in
    if ok then createAndStart now rep (set_containers h (delete (rp_name rep) (hl_containers h)))
    else (stage_ev now rep "container_start" EvFailed "error" h, OpStateFailed, Err "container remove failed").

Definition operateContainerStarting (now : Z) (rep : replica) (h : hostlet) : hostlet * string * result unit :=
  match hl_containers h !! rp_name rep with
  | Some info =>
    if bool_decide (ci_State info = OpStateRunning) then
      let '(h, reset) := containerSpecReset now rep h in
      if reset then removeThenCreate now rep h else (h, OpStateRunning, Ok tt)
    else if bool_decide (ci_State info = OpStateStopped) then
      let '(h, reset) := containerSpecReset now rep h in
      if reset then removeThenCreate now rep h else startStopped now rep h
    else createAndStart now rep h
  | None => createAndStart now rep h
  end.

(** [containerAppInstanceSync]: the file on disk is rewritten for a newer revision. *)
Definition containerAppInstanceSync (rep : replica) (h : hostlet) : hostlet :=
  let '(h, stored) := TryStore rep h in
  if stored then
    let '(h, ok) := perform (EWriteReplica (rp_name rep)) h in
    if ok then set_disk h (<[rp_name rep := rp_Revision rep]> (hl_disk h)) else h
  else h.

Definition runCommand (now : Z) (c : command) (rep : replica) (h : hostlet) : hostlet * string * result unit :=
  match c with
  | CmdStarting => operateContainerStarting now rep h
  | CmdStopping => operateContainerStopping rep h
  | CmdDestroying => operateContainerDestroying rep h
  end.

(** One replica of [containerControlRefresh]: the host afterwards and the state
    recorded for the replica. *)
Definition controlReplica (now : Z) (hostId action : string) (rep : replica) (h : hostlet) : hostlet * string :=
  if bool_decide (rp_HostId rep = "") || bool_decide (rp_HostId rep <> hostId)
  then (h, containerStateSync rep h)
  else
  let e := fst (SyncRevision (rp_Revision rep) (stage_of rep h)) in
  let e := match Find "host_recv" (en_Stage e) with
           | Some _ => e
           | None => stageName "host_recv" (run_event (now * 1000) "" EvInstant) e
           end in
  let h := put_stage rep e h in
  let currentState := containerStateSync rep h in
  let '(h, reset) := containerSpecReset now rep h in
  let destroyed := if reset then Some (operateContainerDestroying rep h) else None in
  match destroyed with
  | Some (h, _, Err _) => (h, currentState)
  | _ =>
    let '(h, currentState) := match destroyed with
                              | Some (h', _, _) => (h', OpStateEmpty)
                              | None => (h, currentState)
                              end in
    match NextCommand taskContainerInit currentState action with
    | None => (h, currentState)
    | Some cmd =>
      match as_Command cmd with
      | None => (containerAppInstanceSync rep h, currentState)
      | Some c =>
        let '(h, nextState, _) := runCommand now c rep h in
        let st := if bool_decide (nextState = "") then as_State cmd else nextState in
        let h := if bool_decide (nextState = OpStateRunning) then stage_ev now rep "container_running" EvInstant "" h
                 else if bool_decide (nextState = OpStateStopped) then stage_ev now rep "container_stop" EvInstant "" h
                 else if bool_decide (nextState = OpStateDestroyed) then stage_ev now rep "container_destroy" EvInstant "" h
                 else h in
        (h, st)
      end
    end
  end.

(** [containerControlRefresh] over the replicas of one app that has a spec. *)
Definition controlApp (now : Z) (hostId action appId : string) (reps : list replica) (h : hostlet) : hostlet :=
  if bool_decide (action = OpActionDelete) then containerDeleteRefresh now hostId appId reps h
  else
    let action := if bool_decide (action = "") then OpActionStart else action in
    foldl (fun h rep => fst (controlReplica now hostId action rep h)) h reps.
End control.

(** * The container engine *)

(** What successful commands leave of the container of one replica: whether its image, its
    packages and its files are there, and its container with the revision it was created
    for, up or not.  A container is created from all three and only where there is none,
    and comes up only with its files. *)
Record engine := { eg_image : bool; eg_packages : bool; eg_files : bool; eg_ctr : option (Z * bool) }.
Definition with_image (g : engine) : engine :=
  {| eg_image := true; eg_packages := eg_packages g; eg_files := eg_files g; eg_ctr := eg_ctr g |}.
Definition with_packages (g : engine) : engine :=
  {| eg_image := eg_image g; eg_packages := true; eg_files := eg_files g; eg_ctr := eg_ctr g |}.
Definition with_files (g : engine) : engine :=
  {| eg_image := eg_image g; eg_packages := eg_packages g; eg_files := true; eg_ctr := eg_ctr g |}.
Definition with_ctr (c : option (Z * bool)) (g : engine) : engine :=
  {| eg_image := eg_image g; eg_packages := eg_packages g; eg_files := eg_files g; eg_ctr := c |}.
Definition engine_step (rep : replica) (eb : effect * bool) (g : engine) : engine :=
  if negb (snd eb) then g else
  match fst eb with
  | EImagePull i => if bool_decide (i = rp_Image rep) then with_image g else g
  | EPackages a => if bool_decide (a = rp_app rep) then with_packages g else g
  | EProvision n => if bool_decide (n = rp_name rep) then with_files g else g
  | ECreate n =>
    if bool_decide (n = rp_name rep) && (eg_image g && eg_packages g && eg_files g)
    then match eg_ctr g with None => with_ctr (Some (rp_Revision rep, false)) g | Some _ => g end else g
  | EStart n =>
    if bool_decide (n = rp_name rep) && eg_files g
    then match eg_ctr g with Some (rev, _) => with_ctr (Some (rev, true)) g | None => g end else g
  | EStop n =>
    if bool_decide (n = rp_name rep)
    then match eg_ctr g with Some (rev, _) => with_ctr (Some (rev, false)) g | None => g end else g
  | ERemove n => if bool_decide (n = rp_name rep) then with_ctr None g else g
  | _ => g
  end.
(** A history has the latest command first. *)
Definition engine_run (rep : replica) (g : engine) (hist : history) : engine := foldr (engine_step rep) g hist.

(** * Properties *)

Section proofs.
Context `{HostEnv} (eg0 : engine).
Implicit Types (h : hostlet) (rep : replica).

Lemma perform_ok e h : (forall l e, env_ok l e = true) ->
  perform e h = (set_hist h ((e, true) :: hl_hist h), true).
Proof. intros Hok. unfold perform. by rewrite Hok. Qed.

(** The container of the replica exists and runs the wanted revision or a later one. *)
Definition applied_ok rep h : Prop :=
  is_Some (hl_containers h !! rp_name rep) /\ rp_Revision rep <= default 0 (hl_applied h !! rp_name rep).

(** The container engine as its commands leave it. *)
Definition engine_at rep h : engine := engine_run rep eg0 (hl_hist h).

Lemma engine_perform rep e h : engine_at rep (set_hist h ((e, true) :: hl_hist h)) = engine_step rep (e, true) (engine_at rep h).
Proof. done. Qed.
Lemma engine_same rep h h' : hl_hist h' = hl_hist h -> engine_at rep h' = engine_at rep h.
Proof. unfold engine_at. by intros ->. Qed.

(** An image that is in the cache is there. *)
Definition image_known rep h : Prop := rp_Image rep ∈ hl_images h -> eg_image (engine_at rep h) = true.
(** The container of the replica is up, with the wanted revision or a later one. *)
Definition container_up rep h : Prop :=
  exists rev, eg_ctr (engine_at rep h) = Some (rev, true) /\ rp_Revision rep <= rev.

Lemma provision_ok rep h : (forall l e, env_ok l e = true) ->
  exists h', provisionInnerStack rep h = (h', Ok tt) /\ hl_containers h' = hl_containers h /\
    hl_applied h' = hl_applied h /\ engine_at rep h' = with_files (engine_at rep h).
Proof.
  intros Hok. unfold provisionInnerStack. repeat (rewrite perform_ok by done; cbn [negb]). eexists. split; [reflexivity|].
  split_and!; [done|done|]. rewrite engine_perform. cbn [engine_step negb snd fst]. by rewrite bool_decide_true.
Qed.

Lemma ensureImage_ok now rep h : (forall l e, env_ok l e = true) -> image_known rep h ->
  exists h', ensureImage now rep h = (h', Ok tt) /\ hl_containers h' = hl_containers h /\
    eg_image (engine_at rep h') = true /\ eg_ctr (engine_at rep h') = eg_ctr (engine_at rep h).
Proof.
  intros Hok Him. unfold ensureImage. destruct (bool_decide_reflect (rp_Image rep ∈ hl_images h)) as [Hin|Hin]; [exists h; auto|].
  rewrite perform_ok by done. eexists. split; [reflexivity|].
  assert (E : forall h', hl_hist h' = (EImagePull (rp_Image rep), true) :: hl_hist h ->
    eg_image (engine_at rep h') = true /\ eg_ctr (engine_at rep h') = eg_ctr (engine_at rep h)).
  { intros h' Eh. unfold engine_at. rewrite Eh. cbn [engine_run foldr engine_step negb snd fst]. by rewrite bool_decide_true. }
  destruct (env_images _); (split; [done|by apply E]).
Qed.

Lemma TryStore_keeps rep h : hl_containers (fst (TryStore rep h)) = hl_containers h /\
  hl_applied (fst (TryStore rep h)) = hl_applied h /\ hl_hist (fst (TryStore rep h)) = hl_hist h.
Proof. unfold TryStore. by destruct (match _ with Some _ => _ | None => true end). Qed.

Lemma packages_done rep h : let g := engine_at rep (set_hist h ((EPackages (rp_app rep), true) :: hl_hist h)) in
  eg_packages g = true /\ eg_image g = eg_image (engine_at rep h) /\ eg_ctr g = eg_ctr (engine_at rep h).
Proof. cbv zeta. rewrite engine_perform. cbn [engine_step negb snd fst]. by rewrite bool_decide_true. Qed.
Lemma engine_saved rep h : engine_at rep (fst (perform ESaveActive h)) = engine_at rep h.
Proof. unfold engine_at, perform. cbn. by destruct (env_ok _ _). Qed.
Lemma create_done rep g : eg_image g = true -> eg_packages g = true -> eg_files g = true -> eg_ctr g = None ->
  engine_step rep (ECreate (rp_name rep), true) g = with_ctr (Some (rp_Revision rep, false)) g.
Proof. intros E1 E2 E3 E4. cbn [engine_step negb snd fst]. by rewrite bool_decide_true, E1, E2, E3, E4. Qed.
Lemma start_done rep g rev up : eg_files g = true -> eg_ctr g = Some (rev, up) ->
  engine_step rep (EStart (rp_name rep), true) g = with_ctr (Some (rev, true)) g.
Proof. intros E1 E2. cbn [engine_step negb snd fst]. by rewrite bool_decide_true, E1, E2. Qed.

Lemma containerCreate_ok now rep h : (forall l e, env_ok l e = true) -> rp_hasResources rep = true -> image_known rep h ->
  exists h', containerCreate now rep h = (h', Ok tt) /\
    is_Some (hl_containers h' !! rp_name rep) /\ hl_applied h' !! rp_name rep = Some (rp_Revision rep) /\
    (eg_ctr (engine_at rep h) = None ->
     eg_ctr (engine_at rep h') = Some (rp_Revision rep, false) /\ eg_files (engine_at rep h') = true).
Proof.
  intros Hok Hr Him. unfold containerCreate. rewrite Hr. cbn [negb].
  destruct (ensureImage_ok now rep h Hok Him) as (h1 & -> & _ & I1 & T1).
  rewrite perform_ok by done. cbn [negb].
  match goal with |- context [provisionInnerStack rep ?x] =>
    destruct (provision_ok rep x Hok) as (h2 & -> & _ & _ & G2); set (h1' := x) in G2 end.
  assert (P : eg_packages (engine_at rep h1') = true /\ eg_image (engine_at rep h1') = true /\
    eg_ctr (engine_at rep h1') = eg_ctr (engine_at rep h)).
  { destruct (packages_done rep (stage_ev now rep "pkg_download" EvRunning "" h1)) as (P1 & P2 & P3).
    split_and!; [exact P1|etransitivity; [exact P2|exact I1]|etransitivity; [exact P3|exact T1]]. }
  destruct P as (P1 & P2 & P3).
  rewrite perform_ok by done. cbn [negb]. eexists. split; [reflexivity|].
  split_and!.
  - cbn [fst perform set_hist hl_containers SetAppliedRevision set_applied].
    rewrite (proj1 (TryStore_keeps rep _)). cbn. by rewrite lookup_insert_eq.
  - by apply lookup_insert_eq.
  - intros Hn. rewrite engine_saved. match goal with |- context [SetAppliedRevision ?n ?r ?x] =>
      change (engine_at rep (SetAppliedRevision n r x)) with (engine_at rep x) end.
    rewrite (engine_same rep _ _ (proj2 (proj2 (TryStore_keeps rep _)))).
    match goal with |- eg_ctr ?g = _ /\ _ => change g with (engine_step rep (ECreate (rp_name rep), true) (engine_at rep h2)) end.
    rewrite G2, create_done; [done|exact P2|exact P1|done|]. by rewrite <- Hn, <- P3.
Qed.

Lemma createAndStart_ok now rep h : (forall l e, env_ok l e = true) -> rp_hasResources rep = true -> image_known rep h ->
  exists h', createAndStart now rep h = (h', OpStateRunning, Ok tt) /\ applied_ok rep h' /\
    (eg_ctr (engine_at rep h) = None -> container_up rep h').
Proof.
  intros Hok Hr Him. unfold createAndStart.
  destruct (containerCreate_ok now rep h Hok Hr Him) as (h1 & -> & Hc & Ha & Hg).
  rewrite perform_ok by done. eexists. split; [reflexivity|]. split; [split; [exact Hc|]|].
  - change (rp_Revision rep <= default 0 (hl_applied h1 !! rp_name rep)). by rewrite Ha.
  - intros Hn. destruct (Hg Hn) as [G1 G2]. exists (rp_Revision rep). split; [|done].
    change (eg_ctr (engine_step rep (EStart (rp_name rep), true) (engine_at rep h1)) = Some (rp_Revision rep, true)).
    by rewrite (start_done _ _ _ _ G2 G1).
Qed.

(** When the revision does not force a recreate, the wanted revision is applied. *)
Lemma revisionReset_false rep h h' : revisionReset rep h = (h', false) ->
  rp_Revision rep <= default 0 (hl_applied h' !! rp_name rep) /\ hl_containers h' = hl_containers h /\
  hl_hist h' = hl_hist h.
Proof.
  unfold revisionReset, AppliedRevision, readAppliedRevisionFromDisk.
  destruct (hl_applied h !! rp_name rep) as [a|] eqn:Ea.
  - destruct (Z.ltb_spec a (rp_Revision rep)) as [Hlt|Hge].
    + destruct (hl_disk h !! rp_name rep) as [d|].
      * intros [= <- Hd]. unfold SetAppliedRevision. cbn [hl_applied set_applied].
        rewrite lookup_insert_eq. split; [cbn; lia|done].
      * intros [= <- Hd]. rewrite Ea. simpl in *. lia.
    + intros [= <-]. rewrite Ea. split; [simpl; lia|done].
  - destruct (hl_disk h !! rp_name rep) as [d|].
    + intros [= <- Hd]. unfold SetAppliedRevision. cbn [hl_applied set_applied].
        rewrite lookup_insert_eq. split; [cbn; lia|done].
    + intros [= <- Hd]. rewrite Ea. simpl in *. split; [lia|done].
Qed.

Lemma revisionReset_keeps rep h : hl_containers (fst (revisionReset rep h)) = hl_containers h /\
  hl_hist (fst (revisionReset rep h)) = hl_hist h.
Proof. unfold revisionReset. repeat case_match; done. Qed.

(** The spec check changes caches only: the container stays, in its state, and the
    environment is not asked to change anything. *)
Lemma specReset_spec tn rep h info h' r :
  hl_containers h !! rp_name rep = Some info -> containerSpecReset tn rep h = (h', r) ->
  (exists info', hl_containers h' !! rp_name rep = Some info' /\ ci_State info' = ci_State info) /\
  hl_hist h' = hl_hist h /\
  (r = false -> rp_Revision rep <= default 0 (hl_applied h' !! rp_name rep)).
Proof.
  intros Hc. unfold containerSpecReset. rewrite Hc.
  pose proof (revisionReset_keeps rep h) as [Kc Kh].
  destruct (revisionReset rep h) as [h1 reset] eqn:Er. cbn [fst] in Kc, Kh.
  destruct reset; [intros [= <- <-]; split_and!; [exists info; by rewrite Kc|done|done]|].
  apply revisionReset_false in Er as (Ha & _ & _).
  unfold inspectContainer. destruct (_ <? _).
  - destruct (env_inspect _ _) as [ifo|]; intros [= <- <-].
    + split_and!; [|done|done]. exists (set_inspected info ifo tn). cbn. by rewrite lookup_insert_eq.
    + split_and!; [exists info; by rewrite Kc|done|done].
  - intros [= <- <-]. split_and!; [exists info; by rewrite Kc|done|done].
Qed.

Lemma specReset_absent tn rep h : hl_containers h !! rp_name rep = None ->
  containerSpecReset tn rep h = (h, false).
Proof. intros Hc. unfold containerSpecReset. by rewrite Hc. Qed.

(** The latest revision recorded for a container, in memory or on disk. *)
Definition recorded_revision rep h : Z :=
  Z.max (default 0 (hl_applied h !! rp_name rep)) (default 0 (hl_disk h !! rp_name rep)).
(** The caches of the host tell the truth of the engine: a cached image is there; a cached
    container exists, up when it is cached as running, and for the recorded revision or a
    later one; no other exists. *)
Definition in_step rep h : Prop :=
  image_known rep h /\
  match hl_containers h !! rp_name rep with
  | None => eg_ctr (engine_at rep h) = None
  | Some info => exists rev up, eg_ctr (engine_at rep h) = Some (rev, up) /\
      (ci_State info = OpStateRunning -> up = true) /\ recorded_revision rep h <= rev
  end.

Lemma revisionReset_recorded rep h h' r : revisionReset rep h = (h', r) ->
  recorded_revision rep h' <= recorded_revision rep h /\ hl_images h' = hl_images h /\
  (r = false -> rp_Revision rep <= recorded_revision rep h).
Proof.
  unfold revisionReset, recorded_revision, AppliedRevision, readAppliedRevisionFromDisk. intros E.
  destruct (match hl_applied h !! rp_name rep with Some a => a <? rp_Revision rep | None => true end) eqn:Eb.
  - destruct (hl_disk h !! rp_name rep) as [d|] eqn:Ed; injection E as <- <-; cbn [set_applied hl_applied hl_disk SetAppliedRevision].
    + rewrite lookup_insert_eq, Ed. cbn. split_and!; [lia|done|intros ?%Z.ltb_ge; lia].
    + rewrite Ed. split_and!; [lia|done|intros ?%Z.ltb_ge; lia].
  - injection E as <- <-. split_and!; [lia|done|]. intros _. destruct (hl_applied h !! rp_name rep); [|done]. apply Z.ltb_ge in Eb. cbn. lia.
Qed.

(** The spec check keeps the caches true. *)
Lemma specReset_in_step tn rep h h' r : in_step rep h -> containerSpecReset tn rep h = (h', r) ->
  in_step rep h' /\ containerStateSync rep h' = containerStateSync rep h /\
  (r = false -> is_Some (hl_containers h !! rp_name rep) -> rp_Revision rep <= recorded_revision rep h).
Proof.
  intros [Him Hst] E. unfold containerSpecReset in E.
  destruct (hl_containers h !! rp_name rep) as [info|] eqn:Ec;
    [|injection E as <- <-; split_and!; [split; [done|by rewrite Ec]|done|by intros _ [? ?]]].
  destruct Hst as (rev & up & Hg & Hup & Hrev).
  pose proof (revisionReset_keeps rep h) as [Kc Kh]. destruct (revisionReset rep h) as [h1 r1] eqn:Er. cbn [fst] in Kc, Kh.
  destruct (revisionReset_recorded _ _ _ _ Er) as (Rr & Ri & Rf).
  assert (S1 : forall h2 info2, hl_hist h2 = hl_hist h1 -> hl_images h2 = hl_images h1 -> hl_containers h2 !! rp_name rep = Some info2 ->
    ci_State info2 = ci_State info -> recorded_revision rep h2 = recorded_revision rep h1 ->
    in_step rep h2 /\ containerStateSync rep h2 = containerStateSync rep h).
  { intros h2 info2 Eh Ei Ec2 Es Erec. unfold in_step, image_known, containerStateSync. rewrite (engine_same rep h h2), Ec2, Ec, Es by congruence.
    split; [|done]. split; [intros Hi; apply Him; congruence|]. exists rev, up. split_and!; [done|done|lia]. }
  destruct r1.
  - injection E as <- <-. destruct (S1 h1 info) as [? ?]; [done|done|by rewrite Kc|done|done|]. split_and!; done.
  - assert (G : in_step rep h' /\ containerStateSync rep h' = containerStateSync rep h); [|destruct G; split_and!; [done|done|auto]].
    unfold inspectContainer in E. destruct (_ <? _); [destruct (env_inspect _ _) as [ifo|]|]; injection E as <- _.
    + eapply S1; [done|done|by apply lookup_insert_eq|done|done].
    + eapply S1; [done|done|by rewrite Kc|done|done].
    + eapply S1; [done|done|by rewrite Kc|done|done].
Qed.

(** The cache has no container, or one that is running or stopped: not one that was
    created and never started, or that failed. *)
Definition clear_state rep h : Prop :=
  match hl_containers h !! rp_name rep with
  | Some info => ci_State info = OpStateRunning \/ ci_State info = OpStateStopped
  | None => True
  end.

Lemma specReset_clear tn rep h h' r : containerSpecReset tn rep h = (h', r) -> clear_state rep h -> clear_state rep h'.
Proof.
  intros E. unfold clear_state. destruct (hl_containers h !! rp_name rep) as [info|] eqn:Ec.
  - destruct (specReset_spec _ _ _ _ _ _ Ec E) as ((info' & -> & ->) & _). done.
  - rewrite specReset_absent in E by done. injection E as <- _. by rewrite Ec.
Qed.

Lemma remove_done rep g : engine_step rep (ERemove (rp_name rep), true) g = with_ctr None g.
Proof. cbn [engine_step negb snd fst]. by rewrite bool_decide_true. Qed.

Lemma removeThenCreate_ok now rep h : (forall l e, env_ok l e = true) -> rp_hasResources rep = true -> image_known rep h ->
  exists h', removeThenCreate now rep h = (h', OpStateRunning, Ok tt) /\ applied_ok rep h' /\ container_up rep h'.
Proof.
  intros Hok Hr Him. unfold removeThenCreate. rewrite perform_ok by done.
  assert (G : engine_at rep (set_containers (set_hist h ((ERemove (rp_name rep), true) :: hl_hist h)) (delete (rp_name rep) (hl_containers h))) =
    with_ctr None (engine_at rep h)) by (etransitivity; [|apply remove_done]; done).
  cbn [set_hist hl_containers]. destruct (createAndStart_ok now rep (set_containers (set_hist h ((ERemove (rp_name rep), true) :: hl_hist h))
    (delete (rp_name rep) (hl_containers h))) Hok Hr) as (h' & E & Ha & Hu).
  - intros Hin. rewrite G. exact (Him Hin).
  - exists h'. split_and!; [exact E|done|]. apply Hu. by rewrite G.
Qed.

Lemma startStopped_ok now rep h : (forall l e, env_ok l e = true) -> applied_ok rep h ->
  exists h', startStopped now rep h = (h', OpStateRunning, Ok tt) /\ applied_ok rep h' /\
    (forall rev up, eg_ctr (engine_at rep h) = Some (rev, up) -> rp_Revision rep <= rev -> container_up rep h').
Proof.
  intros Hok [Hc Ha]. unfold startStopped.
  destruct (provision_ok rep h Hok) as (h1 & -> & C1 & A1 & G1). cbn [fst].
  rewrite perform_ok by done. eexists. split; [reflexivity|]. split; [split|].
  - change (is_Some (hl_containers h1 !! rp_name rep)). by rewrite C1.
  - change (rp_Revision rep <= default 0 (hl_applied h1 !! rp_name rep)). by rewrite A1.
  - intros rev up Hg Hr. exists rev. split; [|done].
    change (eg_ctr (engine_step rep (EStart (rp_name rep), true) (engine_at rep h1)) = Some (rev, true)).
    by rewrite G1, (start_done rep _ rev up).
Qed.

(** In a working environment the start command leads to a running container of the
    wanted revision, whatever the cache says. *)
Lemma operateContainerStarting_ok now rep h : (forall l e, env_ok l e = true) -> rp_hasResources rep = true -> in_step rep h ->
  exists h', operateContainerStarting now rep h = (h', OpStateRunning, Ok tt) /\ applied_ok rep h' /\
    (clear_state rep h -> container_up rep h').
Proof.
  intros Hok Hr Hin. unfold operateContainerStarting, clear_state.
  destruct (hl_containers h !! rp_name rep) as [info|] eqn:Ec.
  2:{ destruct (createAndStart_ok now rep h Hok Hr (proj1 Hin)) as (h' & E & Ha & Hu). exists h'. split_and!; [done|done|]. intros _. apply Hu.
      destruct Hin as [_ Hg]. by rewrite Ec in Hg. }
  destruct (bool_decide_reflect (ci_State info = OpStateRunning)) as [Erun|Erun];
    [|destruct (bool_decide_reflect (ci_State info = OpStateStopped)) as [Estop|Estop]].
  3:{ destruct (createAndStart_ok now rep h Hok Hr (proj1 Hin)) as (h' & E & Ha & Hu). exists h'. split_and!; [done|done|]. by intros []. }
  all: destruct (containerSpecReset now rep h) as [h1 r] eqn:Es;
    destruct (specReset_spec _ _ _ _ _ _ Ec Es) as ((info' & Hc' & Hs') & Hist & Ha);
    destruct (specReset_in_step _ _ _ _ _ Hin Es) as (Hin1 & _ & Hrev);
    destruct r.
  1,3: destruct (removeThenCreate_ok now rep h1 Hok Hr (proj1 Hin1)) as (h' & E & Ha' & Hu); exists h'; by split_and!.
  all: destruct Hin as [_ Hg]; rewrite Ec in Hg; destruct Hg as (rev & up & Hg & Hup & Hle); specialize (Hrev eq_refl ltac:(by eexists)).
  - eexists. split; [reflexivity|]. split; [split; [by rewrite Hc'|auto]|]. intros _. exists rev.
    rewrite (engine_same rep h h1 Hist), Hg, (Hup Erun). split; [done|lia].
  - destruct (startStopped_ok now rep h1 Hok) as (h' & E & Ha' & Hu); [split; [by rewrite Hc'|auto]|]. exists h'. split_and!; [done|done|].
    intros _. apply (Hu rev up); [by rewrite (engine_same rep h h1 Hist)|lia].
Qed.

(** A container is destroyed, and the caches stay true. *)
Lemma destroy_ok rep h : (forall l e, env_ok l e = true) -> in_step rep h ->
  exists h', destroyContainerByName (rp_name rep) h = (h', Ok tt) /\ in_step rep h' /\ hl_containers h' !! rp_name rep = None.
Proof.
  intros Hok [Him Hg]. unfold destroyContainerByName. destruct (hl_containers h !! rp_name rep) as [info|] eqn:Ec.
  2:{ exists h. unfold in_step. rewrite Ec. by split_and!. }
  set (h0 := if bool_decide _ then _ else h).
  assert (G0 : hl_images h0 = hl_images h /\ hl_containers h0 = hl_containers h /\ eg_image (engine_at rep h0) = eg_image (engine_at rep h)).
  { unfold h0. destruct (bool_decide _); [|done]. rewrite perform_ok by done. cbn [fst]. rewrite engine_perform.
    cbn [engine_step negb snd fst]. rewrite bool_decide_true by done. by destruct (eg_ctr _) as [[] |]. }
  destruct G0 as (I0 & C0 & E0). rewrite perform_ok by done. cbv zeta. rewrite perform_ok by done. eexists. split; [reflexivity|].
  cbn [fst]. set (h' := set_hist _ _).
  assert (G : engine_at rep h' = with_ctr None (engine_at rep h0)) by (etransitivity; [|apply remove_done]; done).
  assert (C : hl_containers h' !! rp_name rep = None) by (apply lookup_delete_eq).
  unfold in_step, image_known. rewrite C, G. split_and!; [|done|done].
  intros Hi. change (eg_image (engine_at rep h0) = true). rewrite E0. apply Him. rewrite <- I0. exact Hi.
Qed.

(** The states in which a start has a transition. *)
Definition startable (st : string) : Prop :=
  st ∈ [OpStateEmpty; OpStateStopped; OpStateFailed; OpStateStarting; OpStateRunning].

Lemma start_command st : startable st ->
  NextCommand taskContainerInit st OpActionStart =
  Some (if bool_decide (st = OpStateRunning) then {| as_State := OpStateRunning; as_Command := None |}
        else {| as_State := OpStateStarting; as_Command := Some CmdStarting |}).
Proof.
  unfold startable. rewrite !elem_of_cons, elem_of_nil.
  intros [->|[->|[->|[->|[->|[]]]]]]; vm_compute; reflexivity.
Qed.

Lemma sync_keeps rep h : hl_containers (containerAppInstanceSync rep h) = hl_containers h /\
  hl_applied (containerAppInstanceSync rep h) = hl_applied h /\
  extends (fun e => e = EWriteReplica (rp_name rep)) h (containerAppInstanceSync rep h).
Proof.
  unfold containerAppInstanceSync. pose proof (TryStore_keeps rep h) as (C & A & T).
  destruct (TryStore rep h) as [h1 stored]. cbn [fst] in C, A, T.
  destruct stored; [|split_and!; [done|done|by apply extends_same]].
  unfold perform. destruct (env_ok _ _); (split_and!; [done|done|]); eexists [_]; cbn; rewrite T;
    (split; [done|]); by repeat constructor.
Qed.

Lemma sync_engine rep h : container_up rep h -> container_up rep (containerAppInstanceSync rep h).
Proof.
  unfold container_up. assert (E : engine_at rep (containerAppInstanceSync rep h) = engine_at rep h); [|by rewrite E].
  unfold containerAppInstanceSync. pose proof (TryStore_keeps rep h) as (_ & _ & T).
  destruct (TryStore rep h) as [h1 stored]. cbn [fst] in T. destruct stored; [|by apply engine_same].
  unfold engine_at, perform. destruct (env_ok _ _); cbn [set_disk set_hist hl_hist engine_run foldr engine_step snd fst negb]; by rewrite T.
Qed.

(** The entry of [controlReplica] before the spec check changes stages only. *)
Definition received (now : Z) rep h : hostlet :=
  let e := fst (SyncRevision (rp_Revision rep) (stage_of rep h)) in
  put_stage rep (match Find "host_recv" (en_Stage e) with
                 | Some _ => e
                 | None => stageName "host_recv" (run_event (now * 1000) "" EvInstant) e
                 end) h.

Lemma controlReplica_unfold now hostId action rep h :
  rp_HostId rep = hostId -> hostId <> "" ->
  controlReplica now hostId action rep h =
  let h0 := received now rep h in
  let currentState := containerStateSync rep h0 in
  let '(h1, reset) := containerSpecReset now rep h0 in
  let destroyed := if reset then Some (operateContainerDestroying rep h1) else None in
  match destroyed with
  | Some (h2, _, Err _) => (h2, currentState)
  | _ =>
    let '(h2, currentState) := match destroyed with
                               | Some (h', _, _) => (h', OpStateEmpty)
                               | None => (h1, currentState)
                               end in
    match NextCommand taskContainerInit currentState action with
    | None => (h2, currentState)
    | Some cmd =>
      match as_Command cmd with
      | None => (containerAppInstanceSync rep h2, currentState)
      | Some c =>
        let '(h3, nextState, _) := runCommand now c rep h2 in
        let st := if bool_decide (nextState = "") then as_State cmd else nextState in
        let h4 := if bool_decide (nextState = OpStateRunning) then stage_ev now rep "container_running" EvInstant "" h3
                  else if bool_decide (nextState = OpStateStopped) then stage_ev now rep "container_stop" EvInstant "" h3
                  else if bool_decide (nextState = OpStateDestroyed) then stage_ev now rep "container_destroy" EvInstant "" h3
                  else h3 in
        (h4, st)
      end
    end
  end.
Proof.
  intros E Hn. unfold controlReplica. rewrite bool_decide_false by (by rewrite E).
  rewrite bool_decide_false by (intros Hx; by apply Hx). reflexivity.
Qed.

Lemma received_keeps now rep h : hl_containers (received now rep h) = hl_containers h /\
  hl_hist (received now rep h) = hl_hist h.
Proof. done. Qed.

(** C9: a start reaches its goal.  On a host whose environment does what it is asked, and
    whose caches tell the truth of the container engine, one pass of the reconcile loop
    over a replica of that host that should be started, whose container is absent or in a
    state with a start transition, ends with the replica recorded as running, its container
    in the cache, and the deploy's revision or a later one recorded as applied.  When the
    container was absent, running or stopped, the commands given leave it in the engine
    created for that revision or a later one from its image, packages and files, and up: a
    container that is not there is created and started, a stopped one started, and one
    whose revision or spec is out of date removed and created again. *)
Theorem start_reaches_running now hostId rep h :
  (forall l e, env_ok l e = true) -> rp_hasResources rep = true ->
  rp_HostId rep = hostId -> hostId <> "" -> startable (containerStateSync rep h) -> in_step rep h ->
  exists h', controlReplica now hostId OpActionStart rep h = (h', OpStateRunning) /\ applied_ok rep h' /\
    (clear_state rep h -> container_up rep h').
Proof.
  intros Hok Hr Hh Hne Hst Hin. rewrite controlReplica_unfold by done.
  assert (Hst0 : startable (containerStateSync rep (received now rep h))) by exact Hst. clear Hst.
  assert (Hin0 : in_step rep (received now rep h)) by exact Hin. clear Hin.
  change (clear_state rep h) with (clear_state rep (received now rep h)).
  set (h0 := received now rep h) in *. clearbody h0. cbv zeta.
  assert (Hcmd : forall h1, in_step rep h1 -> exists h', (let '(h3, nextState, _) := runCommand now CmdStarting rep h1 in
    (if bool_decide (nextState = OpStateRunning) then stage_ev now rep "container_running" EvInstant "" h3
     else if bool_decide (nextState = OpStateStopped) then stage_ev now rep "container_stop" EvInstant "" h3
     else if bool_decide (nextState = OpStateDestroyed) then stage_ev now rep "container_destroy" EvInstant "" h3
     else h3, if bool_decide (nextState = "") then OpStateStarting else nextState)) = (h', OpStateRunning) /\
    applied_ok rep h' /\ (clear_state rep h1 -> container_up rep h')).
  { intros h1 Hin1. cbn [runCommand]. destruct (operateContainerStarting_ok now rep h1 Hok Hr Hin1) as (h3 & -> & Ha).
    eexists. split; [reflexivity|exact Ha]. }
  destruct (containerSpecReset now rep h0) as [h1 reset] eqn:Es.
  destruct (specReset_in_step _ _ _ _ _ Hin0 Es) as (Hin1 & Est & Hrev). destruct reset.
  - unfold operateContainerDestroying. destruct (destroy_ok rep h1 Hok Hin1) as (h2 & -> & Hin2 & C2).
    rewrite start_command by (apply elem_of_cons; by left). cbn [bool_decide as_Command as_State].
    destruct (Hcmd h2 Hin2) as (h' & E & Ha & Hu). exists h'. split_and!; [exact E|done|]. intros _. apply Hu. unfold clear_state. by rewrite C2.
  - rewrite start_command by done.
    destruct (bool_decide_reflect (containerStateSync rep h0 = OpStateRunning)) as [Er|Er].
    + cbn [as_Command]. rewrite Er. eexists. split; [reflexivity|].
      unfold containerStateSync in Er. destruct (hl_containers h0 !! rp_name rep) as [info|] eqn:Ec; [|done].
      destruct (specReset_spec _ _ _ _ _ _ Ec Es) as ((info' & Hc' & _) & Hist & Ha).
      destruct (sync_keeps rep h1) as (C & A & Hx). split; [unfold applied_ok; rewrite C, A, Hc'; auto|]. intros _.
      apply sync_engine. destruct Hin0 as [_ Hg]. rewrite Ec in Hg. destruct Hg as (rev & up & Hg & Hup & Hle).
      exists rev. rewrite (engine_same rep h0 h1 Hist), Hg, (Hup Er). specialize (Hrev eq_refl ltac:(by eexists)). split; [done|lia].
    + destruct (Hcmd h1 Hin1) as (h' & E & Ha & Hu). exists h'. split_and!; [exact E|done|]. intros Hc. apply Hu.
      by apply (specReset_clear now rep h0 h1 false).
Qed.

(** a replica that runs as it should is left alone.  When the container is
    running and neither its revision nor its spec calls for a recreate, a pass of
    the reconcile loop that starts the replica asks nothing of the container
    engine: at most the replica's file is rewritten. *)
Theorem running_left_alone now hostId rep h info :
  rp_HostId rep = hostId -> hostId <> "" ->
  hl_containers h !! rp_name rep = Some info -> ci_State info = OpStateRunning ->
  snd (containerSpecReset now rep (received now rep h)) = false ->
  snd (controlReplica now hostId OpActionStart rep h) = OpStateRunning /\
  extends (fun e => e = EWriteReplica (rp_name rep)) h (fst (controlReplica now hostId OpActionStart rep h)).
Proof.
  intros Hh Hne Hc Hrun Hs. rewrite controlReplica_unfold by done. cbv zeta.
  assert (Hc0 : hl_containers (received now rep h) !! rp_name rep = Some info) by exact Hc.
  assert (Est : containerStateSync rep (received now rep h) = OpStateRunning)
    by (unfold containerStateSync; by rewrite Hc0).
  destruct (containerSpecReset now rep (received now rep h)) as [h1 r] eqn:Es. cbn [snd] in Hs. subst r.
  destruct (specReset_spec _ _ _ _ _ _ Hc0 Es) as (_ & Hist & _).
  rewrite Est, start_command by (unfold startable; set_solver). cbn [as_Command].
  rewrite bool_decide_true by done. cbn [as_Command fst snd]. split; [done|].
  destruct (sync_keeps rep h1) as (_ & _ & He).
  eapply extends_trans; [|exact He]. apply extends_same. by rewrite Hist.
Qed.

(** a destroy of a container that was created and never started (which the driver
    reports as starting) has no transition: the pass asks nothing of the
    environment, and the container stays. *)
Theorem destroy_of_created_ignored now hostId rep h info :
  rp_HostId rep = hostId -> hostId <> "" ->
  hl_containers h !! rp_name rep = Some info -> ci_State info = OpStateStarting ->
  snd (containerSpecReset now rep (received now rep h)) = false ->
  let h' := fst (controlReplica now hostId OpActionDestroy rep h) in
  hl_hist h' = hl_hist h /\ is_Some (hl_containers h' !! rp_name rep).
Proof.
  intros Hh Hne Hc Hrun Hs. cbv zeta. rewrite controlReplica_unfold by done. cbv zeta.
  assert (Hc0 : hl_containers (received now rep h) !! rp_name rep = Some info) by exact Hc.
  assert (Est : containerStateSync rep (received now rep h) = OpStateStarting)
    by (unfold containerStateSync; by rewrite Hc0).
  destruct (containerSpecReset now rep (received now rep h)) as [h1 r] eqn:Es. cbn [snd] in Hs. subst r.
  destruct (specReset_spec _ _ _ _ _ _ Hc0 Es) as ((info' & Hc' & _) & Hist & _).
  rewrite Est. assert (NextCommand taskContainerInit OpStateStarting OpActionDestroy = None) as ->
    by (vm_compute; reflexivity).
  cbn [fst]. split; [by rewrite Hist|by rewrite Hc'].
Qed.
End proofs.

(** ** Witnesses *)

Section witnesses.
Local Existing Instance calm_env.

Definition ex_rep : replica :=
  {| rp_app := "web"; rp_appId := "a1"; rp_id := 0; rp_HostId := "h1"; rp_Revision := 3;
     rp_hasResources := true; rp_Image := "img"; rp_CpuLimit := 1000; rp_MemoryLimit := 4096;
     rp_ServicePorts := [(80, 20001)]; rp_VpcIpv4 := "" |}.
Definition ex_ctr (state : string) : ContainerInfo :=
  {| ci_Image := "img"; ci_State := state; ci_IP := ""; ci_Ports := {[ 80 := 20001 ]}; ci_CpuLimit := 1000;
     ci_MemoryLimit := 4096; ci_Binds := []; ci_Created := 1; ci_Started := 1; ci_LastInspectTime := 1000 |}.
Definition ex_host (state : string) (rev : Z) : hostlet :=
  {| hl_containers := {[ rp_name ex_rep := ex_ctr state ]}; hl_images := {[ "img" ]};
     hl_applied := {[ rp_name ex_rep := rev ]}; hl_deleted := ∅; hl_orphans := ∅;
     hl_desired := {| ds_names := ∅; ds_syncedAt := 0; ds_ok := false |};
     hl_disk := {[ rp_name ex_rep := rev ]}; hl_stages := ∅; hl_tracked := ∅; hl_lxcfs := false; hl_hist := [] |}.

Example ex_recreate :
  rev (map fst (hl_hist (fst (controlReplica 1100 "h1" OpActionStart ex_rep (ex_host OpStateRunning 2))))) =
  let n := "i8k_web_0" in
  [EStop n; ERemove n; EQuotaCleanup n; EPackages "web"; EMkdir n; EWriteReplica n; EProvision n; ECreate n;
   ESaveActive; EStart n].
Proof. vm_compute. reflexivity. Qed.

Definition ex_engine (rev : Z) (up : bool) : engine :=
  {| eg_image := true; eg_packages := false; eg_files := false; eg_ctr := Some (rev, up) |}.
Lemma start_reaches_running_witness :
  exists h', controlReplica 1100 "h1" OpActionStart ex_rep (ex_host OpStateStopped 2) = (h', OpStateRunning) /\
    applied_ok ex_rep h' /\ container_up (ex_engine 2 false) ex_rep h'.
Proof.
  destruct (start_reaches_running (ex_engine 2 false) 1100 "h1" ex_rep (ex_host OpStateStopped 2)) as (h' & E & Ha & Hu).
  - reflexivity.
  - reflexivity.
  - reflexivity.
  - discriminate.
  - apply (bool_decide_unpack _). vm_compute. exact I.
  - split; [intros _; reflexivity|]. exists 2, false. split; [reflexivity|]. split; [discriminate|]. vm_compute. discriminate.
  - exists h'. split; [exact E|]. split; [exact Ha|]. apply Hu. right. reflexivity.
Defined.

Lemma running_left_alone_witness :
  snd (controlReplica 1100 "h1" OpActionStart ex_rep (ex_host OpStateRunning 3)) = OpStateRunning /\
  extends (fun e => e = EWriteReplica (rp_name ex_rep)) (ex_host OpStateRunning 3)
    (fst (controlReplica 1100 "h1" OpActionStart ex_rep (ex_host OpStateRunning 3))).
Proof.
  apply (running_left_alone 1100 "h1" ex_rep (ex_host OpStateRunning 3) (ex_ctr OpStateRunning)).
  - reflexivity.
  - discriminate.
  - vm_compute. reflexivity.
  - reflexivity.
  - vm_compute. reflexivity.
Defined.

Lemma destroy_of_created_ignored_witness :
  let h' := fst (controlReplica 1100 "h1" OpActionDestroy ex_rep (ex_host OpStateStarting 3)) in
  hl_hist h' = hl_hist (ex_host OpStateStarting 3) /\ is_Some (hl_containers h' !! rp_name ex_rep).
Proof.
  apply (destroy_of_created_ignored 1100 "h1" ex_rep (ex_host OpStateStarting 3) (ex_ctr OpStateStarting)).
  - reflexivity.
  - discriminate.
  - vm_compute. reflexivity.
  - reflexivity.
  - vm_compute. reflexivity.
Defined.
End witnesses.
