(* ===== verification/Refresh.v ===== *)
(** One pass of the zone's scheduler, [src/internal/zonelet/task_scheduler.go]:
    [schedulerRefresh] reloads hosts and instances, recomputes the ports in use,
    binds ports and addresses of the replicas that are placed, and places at most
    one replica that is not.

    The pass runs in a monad over the leader's state with an error that keeps the
    state, as a Go function that returns early does.  The clock is read once per
    pass, and [draws n] are the random draws of the [n]-th port allocation. *)
From Stdlib Require Import ZArith Lia.
From S2P Require Import Prelude GoStrings GoFloat Inet Ns Kv Ipam Stage StateFlow Scheduler HostPort Zone Resources.
Local Open Scope string_scope.
Local Open Scope Z_scope.

(** * State *)

Record zonelet (S : Type) := {
  zl_kv : S;
  zl_net : NetworkManager;
  zl_hosts : KvSet ZoneHost;
  zl_operate : KvSet HostOperate;
  zl_apps : appInstanceSet;
  zl_status : gmap string HostStatus;
  zl_force : bool;
  zl_lastRefreshed : Z;
  (* the map [bumped] of the pass, and the port allocations made so far *)
  zl_bumped : gset string;
  zl_allocs : nat }.
Arguments zl_kv {S} z.
Arguments zl_net {S} z.
Arguments zl_hosts {S} z.
Arguments zl_operate {S} z.
Arguments zl_apps {S} z.
Arguments zl_status {S} z.
Arguments zl_force {S} z.
Arguments zl_lastRefreshed {S} z.
Arguments zl_bumped {S} z.
Arguments zl_allocs {S} z.

(** The settings the pass reads. *)
Record zone_config := {
  zc_ZoneName : string; zc_VpcBridgeCidr : string; zc_VpcInstanceCidr : string; zc_VpcNetworkDomain : string }.

Section updates.
Context {S : Type}.
Implicit Types z : zonelet S.
Definition set_store z (kv : S) : zonelet S :=
  {| zl_kv := kv; zl_net := zl_net z; zl_hosts := zl_hosts z; zl_operate := zl_operate z; zl_apps := zl_apps z;
     zl_status := zl_status z; zl_force := zl_force z; zl_lastRefreshed := zl_lastRefreshed z;
     zl_bumped := zl_bumped z; zl_allocs := zl_allocs z |}.
Definition set_net z (kv : S) (nm : NetworkManager) : zonelet S :=
  {| zl_kv := kv; zl_net := nm; zl_hosts := zl_hosts z; zl_operate := zl_operate z; zl_apps := zl_apps z;
     zl_status := zl_status z; zl_force := zl_force z; zl_lastRefreshed := zl_lastRefreshed z;
     zl_bumped := zl_bumped z; zl_allocs := zl_allocs z |}.
Definition set_zhosts z (hs : KvSet ZoneHost) : zonelet S :=
  {| zl_kv := zl_kv z; zl_net := zl_net z; zl_hosts := hs; zl_operate := zl_operate z; zl_apps := zl_apps z;
     zl_status := zl_status z; zl_force := zl_force z; zl_lastRefreshed := zl_lastRefreshed z;
     zl_bumped := zl_bumped z; zl_allocs := zl_allocs z |}.
Definition set_operate z (op : KvSet HostOperate) : zonelet S :=
  {| zl_kv := zl_kv z; zl_net := zl_net z; zl_hosts := zl_hosts z; zl_operate := op; zl_apps := zl_apps z;
     zl_status := zl_status z; zl_force := zl_force z; zl_lastRefreshed := zl_lastRefreshed z;
     zl_bumped := zl_bumped z; zl_allocs := zl_allocs z |}.
Definition set_apps z (apps : appInstanceSet) : zonelet S :=
  {| zl_kv := zl_kv z; zl_net := zl_net z; zl_hosts := zl_hosts z; zl_operate := zl_operate z; zl_apps := apps;
     zl_status := zl_status z; zl_force := zl_force z; zl_lastRefreshed := zl_lastRefreshed z;
     zl_bumped := zl_bumped z; zl_allocs := zl_allocs z |}.
Definition set_force z (force : bool) (last : Z) : zonelet S :=
  {| zl_kv := zl_kv z; zl_net := zl_net z; zl_hosts := zl_hosts z; zl_operate := zl_operate z; zl_apps := zl_apps z;
     zl_status := zl_status z; zl_force := force; zl_lastRefreshed := last;
     zl_bumped := zl_bumped z; zl_allocs := zl_allocs z |}.
Definition set_bumped z (b : gset string) : zonelet S :=
  {| zl_kv := zl_kv z; zl_net := zl_net z; zl_hosts := zl_hosts z; zl_operate := zl_operate z; zl_apps := zl_apps z;
     zl_status := zl_status z; zl_force := zl_force z; zl_lastRefreshed := zl_lastRefreshed z;
     zl_bumped := b; zl_allocs := zl_allocs z |}.
Definition tick_alloc z : zonelet S :=
  {| zl_kv := zl_kv z; zl_net := zl_net z; zl_hosts := zl_hosts z; zl_operate := zl_operate z; zl_apps := zl_apps z;
     zl_status := zl_status z; zl_force := zl_force z; zl_lastRefreshed := zl_lastRefreshed z;
     zl_bumped := zl_bumped z; zl_allocs := Datatypes.S (zl_allocs z) |}.

(** The entries of the sets, through their positions. *)
Definition app_at z (i : nat) : option AppInstance := ke_Value <$> ks_arr (zl_apps z) !! i.
Definition upd_app (i : nat) (f : AppInstance -> AppInstance) z : zonelet S :=
  set_apps z (with_arr (zl_apps z) (alter (fun e => Entry (ke_Meta e) (f (ke_Value e))) i (ks_arr (zl_apps z)))).
Definition host_at z (i : nat) : option ZoneHost := ke_Value <$> ks_arr (zl_hosts z) !! i.
Definition upd_host (i : nat) (f : ZoneHost -> ZoneHost) z : zonelet S :=
  set_zhosts z (with_arr (zl_hosts z) (alter (fun e => Entry (ke_Meta e) (f (ke_Value e))) i (ks_arr (zl_hosts z)))).
End updates.

(** ** Writes through the pointers *)

Definition on_deploy (f : AppDeploy -> AppDeploy) (a : AppInstance) : AppInstance :=
  {| ai_Id := ai_Id a; ai_Name := ai_Name a; ai_Spec := ai_Spec a; ai_Deploy := f (ai_Deploy a);
     ai_RefByInstances := ai_RefByInstances a |}.
Definition on_stage (f : stage_deploy -> stage_deploy) (d : AppDeploy) : AppDeploy :=
  {| ad_Action := ad_Action d; ad_Stage := f (ad_Stage d); ad_CpuLimit := ad_CpuLimit d;
     ad_MemoryLimit := ad_MemoryLimit d; ad_VolumeLimit := ad_VolumeLimit d; ad_ReplicaCap := ad_ReplicaCap d;
     ad_Replicas := ad_Replicas d; ad_Depends := ad_Depends d; ad_Configs := ad_Configs d |}.
Definition with_replicas (reps : list AppDeployReplica) (d : AppDeploy) : AppDeploy :=
  {| ad_Action := ad_Action d; ad_Stage := ad_Stage d; ad_CpuLimit := ad_CpuLimit d;
     ad_MemoryLimit := ad_MemoryLimit d; ad_VolumeLimit := ad_VolumeLimit d; ad_ReplicaCap := ad_ReplicaCap d;
     ad_Replicas := reps; ad_Depends := ad_Depends d; ad_Configs := ad_Configs d |}.
Definition with_cap (cap : Z) (d : AppDeploy) : AppDeploy :=
  {| ad_Action := ad_Action d; ad_Stage := ad_Stage d; ad_CpuLimit := ad_CpuLimit d;
     ad_MemoryLimit := ad_MemoryLimit d; ad_VolumeLimit := ad_VolumeLimit d; ad_ReplicaCap := cap;
     ad_Replicas := ad_Replicas d; ad_Depends := ad_Depends d; ad_Configs := ad_Configs d |}.
Definition on_replica (j : nat) (f : AppDeployReplica -> AppDeployReplica) (a : AppInstance) : AppInstance :=
  on_deploy (fun d => with_replicas (alter f j (ad_Replicas d)) d) a.
Definition set_HostId (id : string) (r : AppDeployReplica) : AppDeployReplica :=
  {| dr_Id := dr_Id r; dr_HostId := id; dr_State := dr_State r; dr_VpcIpv4 := dr_VpcIpv4 r; dr_ServicePorts := dr_ServicePorts r |}.
Definition set_VpcIpv4 (ip : string) (r : AppDeployReplica) : AppDeployReplica :=
  {| dr_Id := dr_Id r; dr_HostId := dr_HostId r; dr_State := dr_State r; dr_VpcIpv4 := ip; dr_ServicePorts := dr_ServicePorts r |}.
Definition set_ServicePorts (ps : list AppDeployServicePort) (r : AppDeployReplica) : AppDeployReplica :=
  {| dr_Id := dr_Id r; dr_HostId := dr_HostId r; dr_State := dr_State r; dr_VpcIpv4 := dr_VpcIpv4 r; dr_ServicePorts := ps |}.

Definition no_deploy : HostDeploy := {| hd_VpcBridgeIp := ""; hd_VpcInstanceCidr := ""; hd_PortUsed := [] |}.
Definition port_used (h : ZoneHost) : list Z := hd_PortUsed (default no_deploy (h_Deploy (zh_Host h))).
Definition on_host_deploy (f : HostDeploy -> HostDeploy) (h : ZoneHost) : ZoneHost :=
  {| zh_Host := {| h_Id := h_Id (zh_Host h); h_PeerAddr := h_PeerAddr (zh_Host h);
                   h_Deploy := Some (f (default no_deploy (h_Deploy (zh_Host h)))) |};
     zh_AccessKey := zh_AccessKey h; zh_Operate := zh_Operate h; zh_Status := zh_Status h |}.
Definition set_port_used (ports : list Z) (h : ZoneHost) : ZoneHost :=
  on_host_deploy (fun d => {| hd_VpcBridgeIp := hd_VpcBridgeIp d; hd_VpcInstanceCidr := hd_VpcInstanceCidr d;
                              hd_PortUsed := ports |}) h.

(** [slices.Sort] of a slice of integers *)
Definition sort_z (l : list Z) : list Z := merge_sort Z.le l.

(** A stage of a replica of a deploy: [StagesRoot().ReplicaStage(repId)]. *)
Definition on_rep_stage (repId : Z) (f : AppDeployStage -> AppDeployStage) (dp : stage_deploy) : stage_deploy :=
  {| dp_Revision := dp_Revision dp; dp_Stages := Some (ReplicaStage repId f (StagesRoot dp)) |}.
Definition rep_stage (repId : Z) (f : AppDeployStage -> AppDeployStage) (a : AppInstance) : AppInstance :=
  on_deploy (on_stage (on_rep_stage repId f)) a.
(** A zone-side child of it. *)
Definition zone_child (name : string) (f : AppDeployStage -> AppDeployStage) : AppDeployStage -> AppDeployStage :=
  Child name AppStageOwnerZonelet f.

Definition AppDeployStageNameSchedule : string := "schedule".
Definition AppDeployStageNameHostFit : string := "host_fit".
Definition AppDeployStageNameHostPrioritize : string := "host_prioritize".
Definition AppDeployStageNameIpamAlloc : string := "ipam_alloc".
Definition AppDeployStageNamePortAlloc : string := "port_alloc".
Definition AppDeployStageNameDeliver : string := "deliver".
Definition AppReplicaCapMax : Z := 128.
Definition forceFreshTTL : Z := 1800.

Definition hostCpuUsedMc (st : HostStatus) : Z := Z.quot (hs_CpuSys st +64 hs_CpuUser st) Window1Min.

(** * The monad of a pass *)

Definition pass (S A : Type) : Type := zonelet S -> zonelet S * result A.

#[export] Instance pass_ret {S} : MRet (pass S) := fun A a z => (z, Ok a).
#[export] Instance pass_bind {S} : MBind (pass S) := fun A B k m z =>
  match m z with (z, Ok a) => k a z | (z, Err e) => (z, Err e) end.

Section pass.
Context {S : Type}.
Definition get : pass S (zonelet S) := fun z => (z, Ok z).
Definition gets {A} (f : zonelet S -> A) : pass S A := fun z => (z, Ok (f z)).
Definition modify (f : zonelet S -> zonelet S) : pass S unit := fun z => (f z, Ok tt).
Definition fail {A} (e : string) : pass S A := fun z => (z, Err e).
Definition skip : pass S unit := mret tt.

(** An error that is only logged. *)
Definition logged (m : pass S unit) : pass S unit := fun z => (fst (m z), Ok tt).

(** A loop whose body may return from the function with an error. *)
Fixpoint for_each {A} (l : list A) (body : A -> pass S unit) : pass S unit :=
  match l with
  | [] => skip
  | x :: l => body x ;; for_each l body
  end.
End pass.

(** * Operations *)

Definition valid_port (sp : AppSpecServicePort) : bool := (1 <=? ssp_Port sp) && (ssp_Port sp <? 65536).

(** The service ports of a spec by port. *)
Definition spec_ports (spec : AppSpec) : gmap Z AppSpecServicePort :=
  foldl (fun m sp => match sp with
                     | Some sp => if valid_port sp then <[ssp_Port sp := sp]> m else m
                     | None => m
                     end) ∅ (sp_ServicePorts spec).

Definition has_port (l : list AppDeployServicePort) (port : Z) : bool :=
  existsb (fun p => dsp_Port p =? port) l.

(** The bindings a replica keeps. *)
Definition kept_ports (ports : gmap Z AppSpecServicePort) (cur : list AppDeployServicePort)
  : list AppDeployServicePort :=
  foldl (fun setPorts sp =>
           if bool_decide (is_Some (ports !! dsp_Port sp)) && (0 <? dsp_HostPort sp) &&
              negb (has_port setPorts (dsp_Port sp))
           then (setPorts ++ [sp])%list else setPorts) [] cur.

(** The ports in use by host: [hostPortMap] over the instances. *)
Definition count_port (used : list Z) (sp : AppDeployServicePort) : list Z :=
  if (0 <? dsp_HostPort sp) && negb (bool_decide (dsp_HostPort sp ∈ used))
  then (used ++ [dsp_HostPort sp])%list else used.
Definition count_replica (m : gmap string (list Z)) (rep : AppDeployReplica) : gmap string (list Z) :=
  if bool_decide (dr_HostId rep = "") then m
  else <[dr_HostId rep := foldl count_port (default [] (m !! dr_HostId rep)) (dr_ServicePorts rep)]> m.

Definition is_deleted (a : AppInstance) : bool := bool_decide (ad_Action (ai_Deploy a) = OpActionDelete).

(** An instance with a replica to place. *)
Definition unplaced (rep : AppDeployReplica) : bool := bool_decide (dr_HostId rep = "").
Definition wants_replica (a : AppInstance) : bool :=
  (Z.of_nat (length (ad_Replicas (ai_Deploy a))) <? ad_ReplicaCap (ai_Deploy a)) ||
  existsb unplaced (ad_Replicas (ai_Deploy a)).

(** The walk over the instances: the positions of those not deleted, the first that
    wants a replica, and the ports in use. *)
Record collected := {
  co_instances : list nat; co_active : option nat; co_ports : gmap string (list Z) }.
Definition collect_app (c : collected) (ie : nat * KvEntry AppInstance) : collected :=
  let '(i, e) := ie in
  let a := ke_Value e in
  if is_deleted a then c
  else {| co_instances := (co_instances c ++ [i])%list;
          co_active := match co_active c with
                       | Some j => Some j
                       | None => if wants_replica a then Some i else None
                       end;
          co_ports := foldl count_replica (co_ports c) (ad_Replicas (ai_Deploy a)) |}.
Definition collect (apps : appInstanceSet) : collected :=
  foldl collect_app {| co_instances := []; co_active := None; co_ports := ∅ |} (imap pair (ks_arr apps)).

Section refresh.
Context `{Ip6Syntax} {S : Type} `{Kv S zone_value} `{MapRange} `{SortSlice}.
Context (cf : zone_config) (now : Z) (draws : nat -> list Z).
Abbreviation zone_name := (zc_ZoneName cf).
Abbreviation seconds := (Z.quot now 1000).

(** [data.Zonelet.NewWriter(NsHostInfo(zone, host.Id), host).SetPrevVersion(...)] of
    the host at a position; the new version is kept. *)
Definition flush_host (i : nat) : pass S unit := fun z =>
  match ks_arr (zl_hosts z) !! i with
  | None => (z, Err "panic: nil entry")
  | Some e =>
    let o := {| prev_version := default 0 (ke_Meta e); create_only := false; ttl_ms := 0 |} in
    match kv_write (zl_kv z) o (NsHostInfo zone_name (h_Id (zh_Host (ke_Value e)))) (ke_Value e) with
    | (s, KvOk v) =>
      (set_zhosts (set_store z s)
         (with_arr (zl_hosts z) (<[i := Entry (Some v) (ke_Value e)]> (ks_arr (zl_hosts z)))), Ok tt)
    | (s, rs) => (set_store z s, Err (kv_msg rs))
    end
  end.

Definition flush_app (i : nat) : pass S unit := fun z =>
  match Flush (zl_kv z) zone_name i (zl_apps z) with
  | (s, apps, r) => (set_apps (set_store z s) apps, r)
  end.

(** [zoneNetMgr.ZoneSetup]; its error is only logged. *)
Definition zone_setup (bridge instance domain : string) : pass S unit := fun z =>
  match ZoneSetup (zl_kv z) seconds (zl_net z) zone_name bridge instance domain with
  | (s, nm, _) => (set_net z s nm, Ok tt)
  end.

(** Restore the zone's network: from the database, then from the zone record, then
    from the settings. *)
Definition restore_network : pass S unit :=
  z ← get;
  let '(nm, r) := Restore (zl_kv z) (zl_net z) zone_name in
  _ ← modify (fun z => set_net z (zl_kv z) nm);
  match r with
  | Err e => fail e
  | Ok _ =>
    match kv_read (V := Zone) (zl_kv z) (NsZoneletInfo zone_name) with
    | KvNotFound => fail "NotFound"
    | KvErr m => fail m
    | KvOk it =>
      match it_value it with
      | None => fail "json"
      | Some zone =>
        _ ← (if bool_decide (zn_VpcBridgeCidr zone <> "") && bool_decide (zn_VpcInstanceCidr zone <> "")
             then zone_setup (zn_VpcBridgeCidr zone) (zn_VpcInstanceCidr zone) (zn_VpcNetworkDomain zone)
             else skip);
        z ← get;
        if negb (nm_ready (zl_net z)) && bool_decide (zc_VpcBridgeCidr cf <> "")
        then zone_setup (zc_VpcBridgeCidr cf) (zc_VpcInstanceCidr cf) (zc_VpcNetworkDomain cf)
        else skip
      end
    end
  end.

(** A host written against the version that was read; the cached version stays. *)
Definition write_host (version : Z) (host : ZoneHost) : pass S unit := fun z =>
  let o := {| prev_version := version; create_only := false; ttl_ms := 0 |} in
  match kv_write (zl_kv z) o (NsHostInfo zone_name (h_Id (zh_Host host))) host with
  | (s, KvOk _) => (set_store z s, Ok tt)
  | (s, rs) => (set_store z s, Err (kv_msg rs))
  end.

(** One host record of the database: it replaces the cached one, and is written back
    when its network settings change. *)
Definition load_host (item : string * kv_item ZoneHost) : pass S unit :=
  match it_value (snd item) with
  | None => skip
  | Some host =>
    let host := {| zh_Host := {| h_Id := h_Id (zh_Host host); h_PeerAddr := h_PeerAddr (zh_Host host);
                                 h_Deploy := Some (default no_deploy (h_Deploy (zh_Host host))) |};
                   zh_AccessKey := zh_AccessKey host; zh_Operate := zh_Operate host; zh_Status := zh_Status host |} in
    let id := h_Id (zh_Host host) in
    let version := it_version (snd item) in
    _ ← modify (fun z => set_zhosts z (KvSet_Store id (Some version) host (zl_hosts z)));
    z ← get;
    if negb (nm_ready (zl_net z)) then skip else
    let '(s, nm, net', r) := RefreshHostNetwork (zl_kv z) seconds (zl_net z) (zh_Host host) in
    let host' := {| zh_Host := net'; zh_AccessKey := zh_AccessKey host; zh_Operate := zh_Operate host; zh_Status := zh_Status host |} in
    (* the manager writes through the pointer the set holds *)
    _ ← modify (fun z => set_zhosts (set_net z s nm) (KvSet_Store id (Some version) host' (zl_hosts z)));
    match r with
    | Err _ | Ok false => skip
    | Ok true => write_host version host'
    end
  end.

Definition load_hosts : pass S unit :=
  z ← get;
  let offset := NsHostInfo zone_name "" in
  match kv_range (V := ZoneHost) (zl_kv z) offset (range_end offset) Zonelet_MaxHosts with
  | KvErr m => fail m
  | KvNotFound => skip
  | KvOk items => for_each items load_host
  end.

Definition reload_apps : pass S unit := fun z =>
  match Refresh (zl_kv z) zone_name (zl_apps z) with (apps, r) => (set_apps z apps, r) end.

(** Bring the recorded ports of a host in line with the instances. *)
Definition sync_ports (hp : string * list Z) : pass S unit :=
  let '(hostId, ports) := hp in
  z ← get;
  match KvSet_ref (zl_hosts z) hostId with
  | None => skip
  | Some i =>
    let ports := sort_z ports in
    _ ← modify (upd_host i (fun h => set_port_used (sort_z (port_used h)) h));
    z ← get;
    if bool_decide (option_map port_used (host_at z i) = Some ports) then skip
    else _ ← modify (upd_host i (set_port_used ports)); flush_host i
  end.

(** [schedulerReconcileDeployRevision]: a failed write is only logged. *)
Definition schedulerReconcileDeployRevision (i : nat) : pass S unit :=
  z ← get;
  match app_at z i with
  | None => skip
  | Some a =>
    let '(dp, changed) := appDeployStagesReconcile now (ad_Stage (ai_Deploy a)) in
    _ ← modify (upd_app i (on_deploy (on_stage (fun _ => dp))));
    if changed then logged (flush_app i) else skip
  end.

(** [schedulerBumpRevision]: at most once per instance and pass. *)
Definition schedulerBumpRevision (i : nat) : pass S Z :=
  z ← get;
  match app_at z i with
  | None => mret 0
  | Some a =>
    _ ← (if bool_decide (ai_Name a ∈ zl_bumped z) then skip
         else modify (fun z => set_bumped (upd_app i (on_deploy (on_stage (fun dp =>
                {| dp_Revision := u64 (dp_Revision dp + 1); dp_Stages := dp_Stages dp |}))) z)
                ({[ ai_Name a ]} ∪ zl_bumped z)));
    gets (fun z => default 0 (ad_Revision ∘ ai_Deploy <$> app_at z i))
  end.

(** A port of the host at position [h]: drawn, and recorded as used. *)
Definition alloc_port (h : nat) : pass S Z :=
  z ← get;
  match host_at z h with
  | None => mret 0
  | Some host =>
    let hp := HostPortAlloc (draws (zl_allocs z)) (port_used host) 0 in
    _ ← modify tick_alloc;
    _ ← (if hp =? 0 then skip else modify (upd_host h (set_port_used (sort_z (port_used host ++ [hp])%list))));
    mret hp
  end.

(** The loop over the ports of the spec: the bindings so far, and whether one is new. *)
Fixpoint bind_missing (h : nat) (ports : list AppSpecServicePort) (setPorts : list AppDeployServicePort)
    (flush : bool) : pass S (list AppDeployServicePort * bool) :=
  match ports with
  | [] => mret (setPorts, flush)
  | sp :: ports =>
    if has_port setPorts (ssp_Port sp) then bind_missing h ports setPorts flush
    else hp ← alloc_port h;
         if hp =? 0 then bind_missing h ports setPorts flush
         else bind_missing h ports
                (setPorts ++ [{| dsp_Name := ssp_Name sp; dsp_Port := ssp_Port sp; dsp_HostPort := hp |}])%list true
  end.

(** The ports of replica [j] of instance [i]. *)
Definition bind_ports (i j : nat) : pass S unit :=
  z ← get;
  match app_at z i with
  | None => skip
  | Some a =>
    let ports := spec_ports (ai_Spec a) in
    match ad_Replicas (ai_Deploy a) !! j with
    | None => skip
    | Some rep =>
      if unplaced rep then skip else
      match KvSet_ref (zl_hosts z) (dr_HostId rep) with
      | None => skip
      | Some h =>
        let kept := kept_ports ports (dr_ServicePorts rep) in
        if Nat.eqb (length kept) (size ports) then skip else
        '(setPorts, flush) ← bind_missing h (map snd (map_range ports)) kept false;
        if negb (flush : bool) then skip else
        _ ← modify (upd_app i (on_replica j (set_ServicePorts setPorts)));
        rev ← schedulerBumpRevision i;
        _ ← modify (upd_app i (rep_stage (dr_Id rep) (zone_child AppDeployStageNamePortAlloc
                       (fun s => on_data (set_revision rev) (on_data (SetInstant now "") s)))));
        _ ← flush_app i;
        flush_host h
      end
    end
  end.

(** The address of replica [j] of instance [i]. *)
Definition bind_vpc (i j : nat) : pass S unit :=
  z ← get;
  match app_at z i with
  | None => skip
  | Some a =>
    match ad_Replicas (ai_Deploy a) !! j with
    | None => skip
    | Some rep =>
      if unplaced rep then skip else
      let owner := VpcInstance (zl_net z) (dr_VpcIpv4 rep) in
      if bool_decide (dr_VpcIpv4 rep <> "") && bool_decide (owner <> "") &&
         bool_decide (owner = insRepId (ai_Name a) (dr_Id rep))
      then skip
      else
      _ ← (if bool_decide (dr_VpcIpv4 rep <> "") then modify (upd_app i (on_replica j (set_VpcIpv4 ""))) else skip);
      match HostNetwork (zl_net z) (dr_HostId rep) with
      | None => skip
      | Some _ =>
        let '(s, nm, ip) := AllocHostSubNetwork (zl_kv z) seconds (zl_net z) (dr_HostId rep) (ai_Name a) (dr_Id rep) in
        _ ← modify (fun z => upd_app i (on_replica j (set_VpcIpv4 ip)) (set_net z s nm));
        if bool_decide (ip = "") then skip else
        rev ← schedulerBumpRevision i;
        _ ← modify (upd_app i (rep_stage (dr_Id rep) (zone_child AppDeployStageNameIpamAlloc
                       (fun s => on_data (set_revision rev) (on_data (SetInstant now ip) s)))));
        flush_app i
      end
    end
  end.

Definition rep_count (z : zonelet S) (i : nat) : nat :=
  match app_at z i with Some a => length (ad_Replicas (ai_Deploy a)) | None => O end.

Definition bind_instance (i : nat) : pass S unit :=
  z ← get;
  _ ← for_each (seq 0 (rep_count z i)) (bind_ports i);
  z ← get;
  if negb (nm_ready (zl_net z)) then skip
  else for_each (seq 0 (rep_count z i)) (bind_vpc i).

(** ** The hosts as the scheduler sees them *)

Definition sched_item (id : string) (st : HostStatus) : ScheduleHostItem :=
  {| host_Id := id; host_OpAction := [HostSetupStart];
     host_CpuTotal := hs_CpuCores st *64 1000; host_CpuUsed := hostCpuUsedMc st; host_CpuAlloc := 0;
     host_MemTotal := hs_MemTotal st; host_MemUsed := hs_MemUsed st; host_MemAlloc := 0;
     host_Volumes := [{| vol_Name := "default"; vol_Total := hs_DiskTotalBytes st;
                         vol_Used := hs_DiskTotalBytes st -64 hs_DiskFreeBytes st; vol_Alloc := 0 |}] |}.

(** The walk over the hosts: a host that reported gets its status, and enters the
    list if the report has resources. *)
Definition reported (st : HostStatus) : bool :=
  (0 <? hs_CpuCores st) && (0 <? hs_MemTotal st) && (0 <? hs_DiskTotalBytes st).
Definition with_status (status : gmap string HostStatus) (h : ZoneHost) : ZoneHost :=
  match status !! h_Id (zh_Host h) with
  | None => h
  | Some st =>
    {| zh_Host := zh_Host h; zh_AccessKey := zh_AccessKey h;
       zh_Operate := if reported st then Some {| ho_CpuAlloc := 0; ho_MemAlloc := 0; ho_StorageAlloc := 0 |}
                     else zh_Operate h;
       zh_Status := Some st |}
  end.
Definition sched_host (status : gmap string HostStatus) (h : ZoneHost) : option ScheduleHostItem :=
  st ← status !! h_Id (zh_Host h);
  if reported st then Some (sched_item (h_Id (zh_Host h)) st) else None.

(** A replica's limits added to a host; [Volumes[0]] is there. *)
Definition add_alloc (d : AppDeploy) (h : ScheduleHostItem) : ScheduleHostItem :=
  {| host_Id := host_Id h; host_OpAction := host_OpAction h;
     host_CpuTotal := host_CpuTotal h; host_CpuUsed := host_CpuUsed h;
     host_CpuAlloc := host_CpuAlloc h +64 ad_CpuLimit d;
     host_MemTotal := host_MemTotal h; host_MemUsed := host_MemUsed h;
     host_MemAlloc := host_MemAlloc h +64 ad_MemoryLimit d;
     host_Volumes := alter (fun v => {| vol_Name := vol_Name v; vol_Total := vol_Total v; vol_Used := vol_Used v;
                                        vol_Alloc := vol_Alloc v +64 ad_VolumeLimit d |}) 0%nat (host_Volumes h) |}.
(** [schedHosts[id]]: the ids of the list are distinct, as they are keys of the set. *)
Definition alloc_on (d : AppDeploy) (id : string) (hosts : list ScheduleHostItem) : list ScheduleHostItem :=
  map (fun h => if bool_decide (host_Id h = id) then add_alloc d h else h) hosts.
Definition alloc_app (hosts : list ScheduleHostItem) (a : AppInstance) : list ScheduleHostItem :=
  foldl (fun hosts rep => if unplaced rep then hosts else alloc_on (ai_Deploy a) (dr_HostId rep) hosts)
        hosts (ad_Replicas (ai_Deploy a)).
Definition sched_resources (z : zonelet S) (instances : list nat) : list ScheduleHostItem :=
  foldl alloc_app (omap (sched_host (zl_status z)) (map ke_Value (ks_arr (zl_hosts z))))
    (omap (app_at z) instances).

Definition host_operate (h : ScheduleHostItem) : HostOperate :=
  {| ho_CpuAlloc := host_CpuAlloc h; ho_MemAlloc := host_MemAlloc h;
     ho_StorageAlloc := match host_Volumes h with v :: _ => vol_Alloc v | [] => 0 end |}.
Definition record_operate (op : KvSet HostOperate) (h : ScheduleHostItem) : KvSet HostOperate :=
  KvSet_Store (host_Id h) None (host_operate h) op.
(** [op.CpuAlloc += ...] through the pointer of the set. *)
Definition add_operate (d : AppDeploy) (op : HostOperate) : HostOperate :=
  {| ho_CpuAlloc := ho_CpuAlloc op +64 ad_CpuLimit d; ho_MemAlloc := ho_MemAlloc op +64 ad_MemoryLimit d;
     ho_StorageAlloc := ho_StorageAlloc op +64 ad_VolumeLimit d |}.
Definition upd_operate (id : string) (f : HostOperate -> HostOperate) (op : KvSet HostOperate) : KvSet HostOperate :=
  match KvSet_ref op id with
  | Some i => with_arr op (alter (fun e => Entry (ke_Meta e) (f (ke_Value e))) i (ks_arr op))
  | None => op
  end.

(** ** Placement *)

(** The instance as the placement prepares it: the cap in range, the replicas in
    order of their ids, one replica for every id below the cap. *)
Definition new_replica_at (id : nat) : AppDeployReplica :=
  {| dr_Id := Z.of_nat id; dr_HostId := ""; dr_State := ""; dr_VpcIpv4 := ""; dr_ServicePorts := [] |}.
Definition fill_replicas (d : AppDeploy) : AppDeploy :=
  let cap := Z.max 1 (Z.min AppReplicaCapMax (ad_ReplicaCap d)) in
  let reps := sort_slice (fun a b => dr_Id a <? dr_Id b) (ad_Replicas d) in
  let n := length reps in
  with_replicas (reps ++ map new_replica_at (seq n (Z.to_nat cap - n)))%list (with_cap cap d).

(** The ports of a replica that is being placed. *)
Fixpoint bind_all (h : nat) (ports : list (option AppSpecServicePort)) (bound : list AppDeployServicePort)
  : pass S (list AppDeployServicePort) :=
  match ports with
  | [] => mret bound
  | None :: ports => bind_all h ports bound
  | Some sp :: ports =>
    if negb (valid_port sp) then bind_all h ports bound
    else hp ← alloc_port h;
         if hp =? 0 then bind_all h ports bound
         else bind_all h ports
                (bound ++ [{| dsp_Name := ssp_Name sp; dsp_Port := ssp_Port sp; dsp_HostPort := hp |}])%list
  end.

(** The address of a replica that is being placed, [None] if none is asked for. *)
Definition place_vpc (hostId name : string) (repId : Z) : pass S (option string) :=
  z ← get;
  if negb (nm_ready (zl_net z)) then mret None else
  match HostNetwork (zl_net z) hostId with
  | None => mret None
  | Some _ =>
    let '(s, nm, ip) := AllocHostSubNetwork (zl_kv z) seconds (zl_net z) hostId name repId in
    _ ← modify (fun z => set_net z s nm);
    mret (Some ip)
  end.

Definition sched_stage (repId : Z) (f : AppDeployStage -> AppDeployStage) : AppInstance -> AppInstance :=
  rep_stage repId (zone_child AppDeployStageNameSchedule f).

(** The scheduler found the host at position [h] for replica [j] of instance [i]. *)
Definition assign (i j h : nat) (hostId : string) (rep : AppDeployReplica) (a : AppInstance) (rev : Z) : pass S unit :=
  _ ← modify (upd_app i (on_replica j (set_HostId hostId)));
  ip ← place_vpc hostId (ai_Name a) (dr_Id rep);
  _ ← (match ip with Some ip => modify (upd_app i (on_replica j (set_VpcIpv4 ip))) | None => skip end);
  _ ← modify (upd_app i (rep_stage (dr_Id rep)
        (zone_child AppDeployStageNameIpamAlloc (on_data (SetInstant now (default (dr_VpcIpv4 rep) ip))))));
  bound ← bind_all h (sp_ServicePorts (ai_Spec a)) [];
  _ ← modify (upd_app i (on_replica j (set_ServicePorts bound)));
  _ ← modify (upd_app i (rep_stage (dr_Id rep) (fun s =>
        SetRevisionDeep rev
          (zone_child AppDeployStageNameDeliver (on_data (SetInstant now hostId))
             (zone_child AppDeployStageNamePortAlloc (on_data (SetInstant now "")) s)))));
  _ ← flush_app i;
  _ ← modify (fun z => set_operate z (upd_operate hostId (add_operate (ai_Deploy a)) (zl_operate z)));
  flush_host h.

(** The first replica without a host: it is scheduled, and the loop ends. *)
Definition place_replica (i j : nat) (rep : AppDeployReplica) (a : AppInstance) (hosts : list ScheduleHostItem)
  : pass S unit :=
  let rev := ad_Revision (ai_Deploy a) in
  let srep := {| rep_RepId := dr_Id rep; rep_Cpu := ad_CpuLimit (ai_Deploy a);
                 rep_Mem := ad_MemoryLimit (ai_Deploy a); rep_Vol := ad_VolumeLimit (ai_Deploy a) |} in
  _ ← modify (upd_app i (sched_stage (dr_Id rep)
        (fun s => on_data (set_revision rev) (on_data (SetRunning now "") s))));
  match snd (ScheduleHost (Some srep) hosts None) with
  | Err e =>
    _ ← modify (upd_app i (sched_stage (dr_Id rep)
          (fun s => on_data (set_revision rev) (on_data (SetFailed now e) s))));
    flush_app i
  | Ok hit =>
    let hostId := hit_HostId hit in
    _ ← modify (upd_app i (sched_stage (dr_Id rep) (fun s =>
          on_data (SetSuccess now hostId)
            (zone_child AppDeployStageNameHostPrioritize (on_data (SetInstant now hostId))
               (zone_child AppDeployStageNameHostFit (on_data (SetInstant now "")) s)))));
    z ← get;
    match KvSet_ref (zl_hosts z) hostId with
    | None => skip
    | Some h => assign i j h hostId rep a rev
    end
  end.

Definition place (i : nat) (hosts : list ScheduleHostItem) : pass S unit :=
  _ ← modify (upd_app i (on_deploy fill_replicas));
  z ← get;
  match app_at z i with
  | None => skip
  | Some a =>
    match list_find (fun rep => unplaced rep = true) (ad_Replicas (ai_Deploy a)) with
    | None => skip
    | Some (j, rep) => place_replica i j rep a hosts
    end
  end.

(** ** The pass *)

(** The part of the pass after the caches are loaded. *)
Definition schedule_pass : pass S unit :=
  z ← get;
  let c := collect (zl_apps z) in
  _ ← for_each (map_range (co_ports c)) sync_ports;
  _ ← for_each (co_instances c) schedulerReconcileDeployRevision;
  _ ← for_each (co_instances c) bind_instance;
  z ← get;
  if bool_decide (co_active c = None) && (0 <? Len (zl_operate z)) then skip else
  _ ← modify (fun z => set_zhosts z (with_arr (zl_hosts z)
        (map (fun e => Entry (ke_Meta e) (with_status (zl_status z) (ke_Value e))) (ks_arr (zl_hosts z)))));
  z ← get;
  let hosts := sched_resources z (co_instances c) in
  match hosts with
  | [] => skip
  | _ =>
    _ ← modify (fun z => set_operate z (foldl record_operate (zl_operate z) hosts));
    match co_active c with
    | None => skip
    | Some i => place i hosts
    end
  end.

Definition schedulerRefresh (leader forceRefresh : bool) : pass S unit :=
  if negb leader then skip else
  _ ← modify (fun z => set_bumped z ∅);
  z ← get;
  let auto := negb forceRefresh &&
    ((i64 (zl_lastRefreshed z + forceFreshTTL) <? seconds) || (Len (zl_operate z) =? 0) || zl_force z) in
  let forceRefresh := forceRefresh || auto in
  _ ← (if auto then modify (fun z => set_force z false seconds) else skip);
  _ ← (if forceRefresh : bool then restore_network else skip);
  _ ← load_hosts;
  z ← get;
  _ ← (if forceRefresh || negb (ks_ready (zl_apps z)) then reload_apps else skip);
  schedule_pass.
End refresh.

(** * A run *)

Section example.
Local Existing Instance no_ip6.

Definition ex_config : zone_config :=
  {| zc_ZoneName := "z1"; zc_VpcBridgeCidr := "10.9.0.0/24"; zc_VpcInstanceCidr := "10.8.0.0/16";
     zc_VpcNetworkDomain := "local" |}.
Definition ex_draws (n : nat) : list Z := [Z.of_nat n mod 1000].
Definition ex_zhost (id peer : string) : ZoneHost :=
  {| zh_Host := {| h_Id := id; h_PeerAddr := peer; h_Deploy := None |}; zh_AccessKey := ""; zh_Operate := None; zh_Status := None |}.
Definition ex_spec : AppSpec :=
  {| sp_Name := "nginx"; sp_Version := "1.0.0";
     sp_Resources := Some {| sr_CpuLimit := ""; sr_MemoryLimit := ""; sr_VolumeLimit := "";
                             sr_CpuMin := "1"; sr_CpuMax := "2"; sr_MemoryMin := "1G"; sr_MemoryMax := "2G";
                             sr_VolumeMin := "1G"; sr_VolumeMax := "2G" |};
     sp_ServicePorts := [Some {| ssp_Name := "http"; ssp_Port := 80 |}; Some {| ssp_Name := "https"; ssp_Port := 443 |}];
     sp_Depends := []; sp_Packages := []; sp_Configs := []; sp_Tasks := [] |}.
Definition ex_deploy (action : string) (cap : Z) (reps : list AppDeployReplica) : AppDeploy :=
  {| ad_Action := action; ad_Stage := {| dp_Revision := 1; dp_Stages := None |}; ad_CpuLimit := 1000;
     ad_MemoryLimit := 1024; ad_VolumeLimit := 100; ad_ReplicaCap := cap; ad_Replicas := reps; ad_Depends := []; ad_Configs := [] |}.
Definition ex_record (name action : string) (cap : Z) (reps : list AppDeployReplica) : AppRecord :=
  {| ar_Id := name; ar_Name := name; ar_Spec := Some ex_spec; ar_Deploy := Some (ex_deploy action cap reps);
     ar_RefByInstances := [] |}.
Definition ex_rep (id : Z) (host : string) (ports : list AppDeployServicePort) : AppDeployReplica :=
  {| dr_Id := id; dr_HostId := host; dr_State := ""; dr_VpcIpv4 := ""; dr_ServicePorts := ports |}.
Definition ex_port (port hp : Z) : AppDeployServicePort := {| dsp_Name := "p"; dsp_Port := port; dsp_HostPort := hp |}.

Definition ex_put {V} `{ZoneVal V} (s : mem_store zone_value) (kv : string * V) : mem_store zone_value :=
  fst (kv_write s kv_default (fst kv) (snd kv)).
Definition ex_db : mem_store zone_value :=
  foldl ex_put
    (foldl ex_put
       (ex_put mem_empty (NsZoneletInfo "z1", {| zn_Name := "z1"; zn_Hosts := []; zn_VpcBridgeCidr := ""; zn_VpcInstanceCidr := ""; zn_VpcNetworkDomain := "" |}))
       [(NsHostInfo "z1" "h1", ex_zhost "h1" "192.168.1.10:9529"); (NsHostInfo "z1" "h2", ex_zhost "h2" "192.168.1.11:9529")])
    [(NsAppInstance "z1" "db", ex_record "db" "start" 1 [ex_rep 0 "h1" [ex_port 80 20000]]);
     (NsAppInstance "z1" "old", ex_record "old" "delete" 1 [ex_rep 0 "h1" [ex_port 80 20001]]);
     (NsAppInstance "z1" "web", ex_record "web" "start" 2 [])].
Definition ex_status : HostStatus :=
  {| hs_HostId := "h1"; hs_Updated := 1; hs_CpuCores := 4; hs_CpuSys := 0; hs_CpuUser := 6000; hs_MemTotal := 8192;
     hs_MemUsed := 100; hs_MemAvailable := 8092; hs_NetRecvBytes := 0; hs_NetSentBytes := 0; hs_DiskReadBytes := 0;
     hs_DiskWriteBytes := 0; hs_DiskTotalBytes := 10000; hs_DiskFreeBytes := 9000 |}.
Definition empty_set {V} : KvSet V := {| ks_idx := ∅; ks_arr := []; ks_version := 0; ks_ready := false |}.
Definition ex_zonelet : zonelet (mem_store zone_value) :=
  {| zl_kv := ex_db; zl_net := NewNetworkManager; zl_hosts := empty_set; zl_operate := empty_set;
     zl_apps := empty_set; zl_status := {[ "h1" := ex_status; "h2" := ex_status ]}; zl_force := false;
     zl_lastRefreshed := 0; zl_bumped := ∅; zl_allocs := 0 |}.
Definition ex_pass (z : zonelet (mem_store zone_value)) : zonelet (mem_store zone_value) * result unit :=
  schedulerRefresh ex_config 5000000 ex_draws true false z.

(** Three passes: the placed replica gets its missing port and its address, and the
    two replicas of the new instance are placed one by one. *)
Definition ex_summary (z : zonelet (mem_store zone_value)) : list (string * Z * list (Z * string * string * list Z)) :=
  map (fun e => (ai_Name (ke_Value e), ad_Revision (ai_Deploy (ke_Value e)),
         map (fun r => (dr_Id r, dr_HostId r, dr_VpcIpv4 r, map dsp_HostPort (dr_ServicePorts r)))
             (ad_Replicas (ai_Deploy (ke_Value e))))) (ks_arr (zl_apps z)).
Example ex_three_passes :
  let z := fst (ex_pass (fst (ex_pass (fst (ex_pass ex_zonelet))))) in
  ex_summary z =
    [("db", 2, [(0, "h1", "10.8.3.3", [20000; 20001])]);
     ("old", 1, [(0, "h1", "", [20001])]);
     ("web", 1, [(0, "h2", "10.8.4.3", [20001; 20002]); (1, "h1", "10.8.3.4", [20003; 20004])])].
Proof. vm_compute. reflexivity. Qed.
Definition ex_app (name action : string) (cap : Z) (reps : list AppDeployReplica) : AppInstance :=
  {| ai_Id := name; ai_Name := name; ai_Spec := ex_spec; ai_Deploy := ex_deploy action cap reps;
     ai_RefByInstances := [] |}.
(** A cached host, an instance with a replica on it, a deleted one, and one without. *)
Definition ex_loaded : zonelet (mem_store zone_value) :=
  {| zl_kv := ex_db; zl_net := NewNetworkManager;
     zl_hosts := {| ks_idx := {[ "h1" := 0%nat ]}; ks_arr := [Entry (Some 2) (ex_zhost "h1" "")];
                    ks_version := 2; ks_ready := true |};
     zl_operate := empty_set;
     zl_apps := {| ks_idx := {[ "db" := 0%nat; "old" := 1%nat; "web" := 2%nat ]};
                   ks_arr := [Entry (Some 4) (ex_app "db" "start" 1 [ex_rep 0 "h1" [ex_port 80 20000]]);
                              Entry (Some 5) (ex_app "old" "delete" 1 [ex_rep 0 "h1" [ex_port 80 20001]]);
                              Entry (Some 6) (ex_app "web" "start" 1 [])];
                   ks_version := 6; ks_ready := true |};
     zl_status := {[ "h1" := ex_status ]}; zl_force := false; zl_lastRefreshed := 0; zl_bumped := ∅; zl_allocs := 0 |}.
Definition ex_after : zonelet (mem_store zone_value) * result unit :=
  schedule_pass ex_config 5000000 ex_draws ex_loaded.

Lemma ex_draws_u32 n : Forall in_u32 (ex_draws n).
Proof. repeat constructor; pose proof (Z.mod_pos_bound (Z.of_nat n) 1000); go_unfold; lia. Qed.

End example.
