(* ===== verification/RefreshLogic.v ===== *)
(** Reasoning about a scheduler pass ([Refresh]): invariants a step keeps, views of
    the state it preserves, and facts about updates of lists by position. *)
From Stdlib Require Import ZArith Lia.
From S2P Require Import Prelude Zone Refresh.
Local Open Scope Z_scope.

(** * Lists *)

Lemma alter_split {A} (f : A -> A) (i : nat) (l : list A) x : l !! i = Some x ->
  l = (take i l ++ x :: drop (S i) l)%list /\ alter f i l = (take i l ++ f x :: drop (S i) l)%list.
Proof.
  intros Hx. split; [by rewrite take_drop_middle|].
  rewrite <- (take_drop_middle l i x Hx) at 1.
  assert (Hl : length (take i l) = i) by (apply length_take_le; apply lookup_lt_Some in Hx; lia).
  rewrite <- (Nat.add_0_r i) at 1. rewrite <- Hl at 1. by rewrite alter_app_r.
Qed.

Lemma alter_none {A} (f : A -> A) (i : nat) (l : list A) : l !! i = None -> alter f i l = l.
Proof.
  intros Hx. apply list_eq. intros k. destruct (decide (i = k)) as [->|Hk].
  - by rewrite list_lookup_alter_eq, Hx.
  - by rewrite list_lookup_alter_ne.
Qed.

Lemma alter_alter {A} (f g : A -> A) (i : nat) (l : list A) : alter g i (alter f i l) = alter (g ∘ f) i l.
Proof.
  apply list_eq. intros k. rewrite !list_lookup_alter. destruct (decide _) as [->|]; [|done].
  destruct (decide _); [|done]. by destruct (l !! k).
Qed.

Lemma alter_id {A} (i : nat) (l : list A) : alter id i l = l.
Proof.
  apply list_eq. intros k. rewrite list_lookup_alter. destruct (decide _) as [->|]; [|done].
  by destruct (l !! k).
Qed.

Lemma map_alter_same {A B} (f : A -> B) (g : A -> A) (i : nat) (l : list A) :
  (forall x, f (g x) = f x) -> map f (alter g i l) = map f l.
Proof.
  intros Hg. destruct (l !! i) as [x|] eqn:Hx; [|by rewrite alter_none].
  rewrite (proj2 (alter_split g i l x Hx)). rewrite (proj1 (alter_split id i l x Hx)) at 3.
  by rewrite !map_app, !map_cons, Hg.
Qed.

Lemma map_insert_same {A B} (f : A -> B) (i : nat) (l : list A) x y :
  l !! i = Some x -> f y = f x -> map f (<[i := y]> l) = map f l.
Proof.
  intros Hx E. apply list_eq. intros k. rewrite !list_lookup_fmap.
  destruct (decide (i = k)) as [<-|Hk].
  - rewrite list_lookup_insert_eq by (by apply lookup_lt_Some in Hx). rewrite Hx. simpl. by rewrite E.
  - by rewrite list_lookup_insert_ne.
Qed.

Lemma list_find_bool {A} (f : A -> bool) l j x :
  list_find (fun y => f y = true) l = Some (j, x) -> l !! j = Some x /\ f x = true.
Proof. intros Hf. apply list_find_Some in Hf as (? & ? & _). done. Qed.

Lemma map_snd_imap {A} (l : list A) : map snd (imap pair l) = l.
Proof. apply list_eq. intros k. rewrite list_lookup_fmap, list_lookup_imap. by destruct (l !! k). Qed.

(** Two levels of lists: instances with their replicas. *)
Section flat.
Context {X Y W : Type} (F : X -> Y -> list W).
Definition flat (v : list (X * list Y)) : list W := v ≫= fun xy => snd xy ≫= F (fst xy).
Definition alter2 (i j : nat) (g : Y -> Y) (v : list (X * list Y)) : list (X * list Y) :=
  alter (fun xy => (fst xy, alter g j (snd xy))) i v.

(** A change of one replica changes its own part. *)
Lemma flat_split v i j x ys y : v !! i = Some (x, ys) -> ys !! j = Some y ->
  exists B1 B2, flat v = (B1 ++ F x y ++ B2)%list /\
    forall g, flat (alter2 i j g v) = (B1 ++ F x (g y) ++ B2)%list.
Proof.
  intros Hv Hr. unfold flat, alter2.
  exists ((take i v ≫= fun xy => snd xy ≫= F (fst xy)) ++ (take j ys ≫= F x))%list,
         ((drop (S j) ys ≫= F x) ++ (drop (S i) v ≫= fun xy => snd xy ≫= F (fst xy)))%list.
  split.
  - rewrite (proj1 (alter_split id i v _ Hv)) at 1. rewrite bind_app, bind_cons. cbn [fst snd].
    rewrite (proj1 (alter_split id j ys _ Hr)) at 1. rewrite bind_app, bind_cons. by rewrite !app_assoc.
  - intros g. rewrite (proj2 (alter_split _ i v _ Hv)). rewrite bind_app, bind_cons. cbn [fst snd].
    rewrite (proj2 (alter_split g j ys _ Hr)). rewrite bind_app, bind_cons. by rewrite !app_assoc.
Qed.

Lemma alter2_none v i j g : (v !! i = None \/ exists x ys, v !! i = Some (x, ys) /\ ys !! j = None) ->
  alter2 i j g v = v.
Proof.
  unfold alter2. intros [Hv|(x & ys & Hv & Hr)]; [by apply alter_none|].
  rewrite (proj2 (alter_split _ i v _ Hv)). simpl. rewrite alter_none by done.
  by rewrite <- (proj1 (alter_split id i v _ Hv)).
Qed.

Lemma alter2_id v i j : alter2 i j id v = v.
Proof.
  unfold alter2. rewrite <- (alter_id i v) at 2. apply list_alter_ext; [|done].
  intros [x ys] _. simpl. by rewrite alter_id.
Qed.

Lemma alter2_compose i j g1 g2 v : alter2 i j g2 (alter2 i j g1 v) = alter2 i j (g2 ∘ g1) v.
Proof.
  unfold alter2. rewrite alter_alter. apply list_alter_ext; [|done].
  intros [x ys] _. simpl. by rewrite alter_alter.
Qed.
End flat.

(** A part of a list without duplicates gives way to some of it and new elements. *)
Lemma replace_part {A} (B1 P P' N B2 : list A) :
  NoDup (B1 ++ P ++ B2)%list -> NoDup N -> (forall q, q ∈ N -> q ∉ (B1 ++ P ++ B2)%list) ->
  P' ⊆+ (P ++ N)%list ->
  NoDup (B1 ++ P' ++ B2)%list /\
  forall q, q ∈ (B1 ++ P' ++ B2)%list -> q ∈ (B1 ++ P ++ B2)%list \/ q ∈ N.
Proof.
  intros Hnd HN Hfresh Hsub. split.
  - assert (Hall : NoDup (B1 ++ (P ++ N) ++ B2)%list).
    { assert (E : (B1 ++ (P ++ N) ++ B2)%list ≡ₚ ((B1 ++ P ++ B2) ++ N)%list).
      { rewrite <- !app_assoc. do 2 f_equiv. apply Permutation_app_comm. }
      rewrite E. apply NoDup_app. split_and!; [done| |done]. intros q Hq Hq'. by apply (Hfresh q). }
    assert (Hs2 : (B1 ++ P' ++ B2)%list ⊆+ (B1 ++ (P ++ N) ++ B2)%list)
      by (apply submseteq_app; [done|by apply submseteq_app]).
    apply submseteq_Permutation in Hs2 as [k Ek]. rewrite Ek in Hall. by apply NoDup_app in Hall as (? & _).
  - intros q. rewrite !elem_of_app. intros [?|[Hq|?]]; [by left; left| |by left; right; right].
    eapply elem_of_submseteq in Hq; [|exact Hsub]. apply elem_of_app in Hq as [?|?]; auto.
Qed.

(** ** Instances through a function *)

Lemma map_upd_app {S X} (F : AppInstance -> X) i f (z : zonelet S) a : app_at z i = Some a ->
  map (F ∘ ke_Value) (ks_arr (zl_apps (upd_app i f z))) = alter (fun _ => F (f a)) i (map (F ∘ ke_Value) (ks_arr (zl_apps z))).
Proof.
  intros Ea. unfold upd_app. simpl. apply list_eq. intros k. rewrite list_lookup_alter.
  rewrite !list_lookup_fmap, list_lookup_alter. unfold app_at in Ea.
  destruct (decide (i = k)) as [<-|]; [|done]. destruct (_ !! i) as [e|]; [|done]. injection Ea as <-. done.
Qed.

Lemma map_upd_none {S X} (F : AppInstance -> X) i f (z : zonelet S) : app_at z i = None ->
  map (F ∘ ke_Value) (ks_arr (zl_apps (upd_app i f z))) = map (F ∘ ke_Value) (ks_arr (zl_apps z)).
Proof. unfold app_at, upd_app. simpl. intros E. rewrite alter_none; [done|]. by destruct (_ !! i). Qed.

(** * Reasoning about a pass *)

Definition keeps {S A} (I : zonelet S -> Prop) (m : pass S A) : Prop := forall z, I z -> I (fst (m z)).

Section logic.
Context {S : Type} (I : zonelet S -> Prop).

Lemma bind_unfold {A B} (m : pass S A) (k : A -> pass S B) z :
  (m ≫= k) z = match m z with (z', Ok a) => k a z' | (z', Err e) => (z', Err e) end.
Proof. reflexivity. Qed.

Lemma get_unfold {B} (k : zonelet S -> pass S B) z : (get ≫= k) z = k z z.
Proof. reflexivity. Qed.
Lemma modify_unfold {B} f (k : unit -> pass S B) z : (modify f ≫= k) z = k tt (f z).
Proof. reflexivity. Qed.
Lemma skip_unfold {B} (k : unit -> pass S B) z : (skip ≫= k) z = k tt z.
Proof. reflexivity. Qed.

Lemma keeps_bind {A B} (m : pass S A) (k : A -> pass S B) :
  keeps I m -> (forall a, keeps I (k a)) -> keeps I (m ≫= k).
Proof.
  intros Hm Hk z Hz. rewrite bind_unfold. specialize (Hm z Hz).
  destruct (m z) as [z' [a|e]]; [by apply Hk|done].
Qed.
Lemma keeps_use {A} (m : pass S A) z : keeps I m -> I z -> I (fst (m z)).
Proof. auto. Qed.
Lemma keeps_get {B} (k : zonelet S -> pass S B) :
  (forall z, I z -> I (fst (k z z))) -> keeps I (get ≫= k).
Proof. intros Hk z Hz. apply Hk, Hz. Qed.
Lemma keeps_ret {A} (a : A) : keeps I (mret (M := pass S) a).
Proof. by intros z Hz. Qed.
Lemma keeps_skip : keeps I skip.
Proof. by intros z Hz. Qed.
Lemma keeps_fail {A} e : keeps I (fail (A := A) e).
Proof. by intros z Hz. Qed.
Lemma keeps_modify f : (forall z, I z -> I (f z)) -> keeps I (modify f).
Proof. intros Hf z Hz. by apply Hf. Qed.
Lemma keeps_logged m : keeps I m -> keeps I (logged m).
Proof. intros Hm z Hz. by apply Hm. Qed.
Lemma keeps_for_each {A} (l : list A) body : (forall x, keeps I (body x)) -> keeps I (for_each l body).
Proof.
  intros Hb. induction l as [|x l IH]; [apply keeps_skip|].
  apply keeps_bind; [apply Hb|intros _; exact IH].
Qed.
End logic.
#[export] Hint Resolve keeps_skip keeps_fail keeps_ret : go.

(** ** Views of the state *)

Definition preserves {S X A} (view : zonelet S -> X) (m : pass S A) : Prop := forall z, view (fst (m z)) = view z.

Section preserves.
Context {S X : Type} (view : zonelet S -> X).
Lemma preserves_bind {A B} (m : pass S A) (k : A -> pass S B) :
  preserves view m -> (forall a, preserves view (k a)) -> preserves view (m ≫= k).
Proof.
  intros Hm Hk z. rewrite bind_unfold. specialize (Hm z).
  destruct (m z) as [z' [a|e]]; [|done]. by rewrite Hk.
Qed.
Lemma preserves_get {B} (k : zonelet S -> pass S B) : (forall z, preserves view (k z)) -> preserves view (get ≫= k).
Proof. intros Hk z. apply Hk. Qed.
Lemma preserves_gets {A} (f : zonelet S -> A) : preserves view (gets f).
Proof. done. Qed.
Lemma preserves_ret {A} (a : A) : preserves view (mret (M := pass S) a).
Proof. done. Qed.
Lemma preserves_skip : preserves view skip.
Proof. done. Qed.
Lemma preserves_modify f : (forall z, view (f z) = view z) -> preserves view (modify f).
Proof. intros Hf z. apply Hf. Qed.
Lemma preserves_logged m : preserves view m -> preserves view (logged m).
Proof. intros Hm z. apply Hm. Qed.
Lemma preserves_for_each {A} (l : list A) body : (forall x, preserves view (body x)) -> preserves view (for_each l body).
Proof.
  intros Hb. induction l as [|x l IH]; [apply preserves_skip|].
  apply preserves_bind; [apply Hb|intros _; exact IH].
Qed.
(** A step of the view either ends the function or goes on from the same view. *)
Lemma preserves_split {A B} (m : pass S A) (k : A -> pass S B) z z' r :
  preserves view m -> (m ≫= k) z = (z', r) ->
  view z' = view z \/ exists a z1, view z1 = view z /\ k a z1 = (z', r).
Proof.
  intros Hm E. rewrite bind_unfold in E. specialize (Hm z).
  destruct (m z) as [z1 [a|e]]; [right; eauto|left]. by injection E as <- <-.
Qed.
(** An invariant of a view is kept by a step that preserves the view. *)
Lemma preserves_keeps {A} (I : zonelet S -> Prop) (m : pass S A) :
  (forall z z', view z' = view z -> I z -> I z') -> preserves view m -> keeps I m.
Proof. intros HI Hm z Hz. by apply (HI z). Qed.
End preserves.
#[export] Hint Resolve preserves_ret preserves_skip preserves_gets : go.

Ltac preserves_step :=
  lazymatch goal with
  | |- preserves _ (get ≫= _) => apply preserves_get; intros ?
  | |- preserves _ (_ ≫= _) => apply preserves_bind; [|intros ?]
  | |- preserves _ (modify _) => first [solve [auto with go] | apply preserves_modify; done]
  | |- preserves _ (logged _) => apply preserves_logged
  | |- preserves _ (match ?x with _ => _ end) => destruct x
  | |- preserves _ _ => solve [auto with go]
  end.

