(* ===== verification/RefreshPorts.v ===== *)
(** Ports in a scheduler pass ([Refresh]): no pass ever binds a port of a host
    twice.  The proofs look at the leader's state through two views, the bindings of
    every replica and the ports each cached host records as used; most steps of the
    pass leave both as they are. *)
From Stdlib Require Import ZArith Lia.
From S2P Require Import Prelude GoStrings GoFloat Inet Ns Kv Ipam Stage StateFlow Scheduler HostPort Zone Refresh RefreshLogic.
Local Open Scope string_scope.
Local Open Scope Z_scope.

(** * Views *)

Definition rep_view (r : AppDeployReplica) : string * list Z :=
  (dr_HostId r, map dsp_HostPort (dr_ServicePorts r)).
Definition app_view (a : AppInstance) : bool * list (string * list Z) :=
  (is_deleted a, map rep_view (ad_Replicas (ai_Deploy a))).
Definition apps_view {S} (z : zonelet S) : list (bool * list (string * list Z)) :=
  map (app_view ∘ ke_Value) (ks_arr (zl_apps z)).
Definition used_view {S} (z : zonelet S) : list (list Z) :=
  map (port_used ∘ ke_Value) (ks_arr (zl_hosts z)).

(** The host ports that are bound: those of the placed replicas of the instances
    that are not deleted. *)
Definition rep_bindings (rv : string * list Z) : list (string * Z) :=
  if bool_decide (fst rv = "") then [] else map (pair (fst rv)) (List.filter (fun p => 0 <? p) (snd rv)).
Definition app_bindings (av : bool * list (string * list Z)) : list (string * Z) :=
  if fst av then [] else snd av ≫= rep_bindings.
Definition bindings {S} (z : zonelet S) : list (string * Z) := apps_view z ≫= app_bindings.

Definition binding_part (b : bool) (rv : string * list Z) : list (string * Z) := if b then [] else rep_bindings rv.

Lemma bindings_flat v : v ≫= app_bindings = flat binding_part v.
Proof.
  unfold flat. induction v as [|[b rvs] v IH]; [done|]. rewrite !bind_cons, IH. f_equal.
  unfold app_bindings. cbn [fst snd]. destruct b; [|done]. by induction rvs.
Qed.

(** ** How the updates of a pass move the views *)

Section views.
Context {S : Type}.
Implicit Types z : zonelet S.

Lemma apps_view_upd i f z : (forall a, app_view (f a) = app_view a) -> apps_view (upd_app i f z) = apps_view z.
Proof. intros Hf. apply map_alter_same. intros e. apply Hf. Qed.

Lemma app_view_stage f a : app_view (on_deploy (on_stage f) a) = app_view a.
Proof. reflexivity. Qed.

Lemma apps_view_replica i j f g z : (forall r, rep_view (f r) = g (rep_view r)) ->
  apps_view (upd_app i (on_replica j f) z) = alter2 i j g (apps_view z).
Proof.
  intros Hf. unfold apps_view, upd_app, alter2. simpl.
  apply (list_fmap_alter (app_view ∘ ke_Value)), Forall_forall. intros e _. unfold app_view. simpl. f_equal.
  apply (list_fmap_alter rep_view), Forall_forall. auto.
Qed.

Lemma used_view_upd i f z : (forall h, port_used (f h) = port_used h) -> used_view (upd_host i f z) = used_view z.
Proof. intros Hf. apply map_alter_same. intros e. apply Hf. Qed.

Lemma used_view_set i ports z : used_view (upd_host i (set_port_used ports) z) = alter (fun _ => ports) i (used_view z).
Proof.
  unfold used_view, upd_host. simpl.
  by apply (list_fmap_alter (port_used ∘ ke_Value)), Forall_forall.
Qed.

Lemma app_at_view z i a : app_at z i = Some a -> apps_view z !! i = Some (app_view a).
Proof.
  unfold app_at, apps_view. rewrite list_lookup_fmap. destruct (_ !! i); [|done]. by intros [= <-].
Qed.
Lemma host_at_view z h host : host_at z h = Some host -> used_view z !! h = Some (port_used host).
Proof.
  unfold host_at, used_view. rewrite list_lookup_fmap. destruct (_ !! h); [|done]. by intros [= <-].
Qed.
End views.

(** * The invariant *)

(** No port of a host is bound twice, and the host records what is bound. *)
Record ports_inv {S} (z : zonelet S) : Prop := {
  pi_nodup : NoDup (bindings z);
  pi_used : forall id h used p, ks_idx (zl_hosts z) !! id = Some h -> used_view z !! h = Some used ->
    (id, p) ∈ bindings z -> p ∈ used;
  pi_range : forall id h, ks_idx (zl_hosts z) !! id = Some h -> is_Some (used_view z !! h);
  pi_inj : forall id1 id2 h, ks_idx (zl_hosts z) !! id1 = Some h -> ks_idx (zl_hosts z) !! id2 = Some h -> id1 = id2;
  pi_u32 : Forall (Forall in_u32) (used_view z) }.

Definition views {S} (z : zonelet S) := (apps_view z, used_view z, ks_idx (zl_hosts z)).
Abbreviation same_views z z' := (views z' = views z).
Abbreviation quiet := (preserves views).

Lemma views_intro {S} (z z' : zonelet S) : apps_view z' = apps_view z -> used_view z' = used_view z ->
  ks_idx (zl_hosts z') = ks_idx (zl_hosts z) -> same_views z z'.
Proof. unfold views. congruence. Qed.
Lemma views_elim {S} (z z' : zonelet S) : same_views z z' ->
  apps_view z' = apps_view z /\ used_view z' = used_view z /\ ks_idx (zl_hosts z') = ks_idx (zl_hosts z).
Proof. unfold views. intros E. split_and!; congruence. Qed.

Lemma ports_inv_same {S} (z z' : zonelet S) : same_views z z' -> ports_inv z -> ports_inv z'.
Proof.
  intros (Ea & Eu & Ei)%views_elim [H1 H2 H3 H4 H5].
  split; unfold bindings in *; rewrite ?Ea, ?Eu, ?Ei; done.
Qed.

Lemma quiet_keeps {S A} (m : pass S A) : quiet m -> keeps ports_inv m.
Proof. apply preserves_keeps. exact ports_inv_same. Qed.

Lemma quiet_upd_app {S} i f : (forall a, app_view (f a) = app_view a) -> quiet (modify (S := S) (upd_app i f)).
Proof. intros Hf. apply preserves_modify. intros z. apply views_intro; [by apply apps_view_upd|done|done]. Qed.
#[export] Hint Extern 3 (preserves views (modify (upd_app _ _))) => apply quiet_upd_app; done : go.

Section ops.
Context `{Ip6Syntax} {S : Type} `{Kv S zone_value} `{MapRange} `{SortSlice}.
Context (cf : zone_config) (now : Z) (draws : nat -> list Z).

Lemma quiet_flush_app i : quiet (flush_app (S := S) cf i).
Proof.
  intros z. unfold flush_app, Flush. destruct (ks_arr (zl_apps z) !! i) as [e|] eqn:Ei; [|done].
  destruct (kv_write _ _ _ _) as [s [v| |m]]; [|done|done].
  apply views_intro; [|done|done]. by apply (map_insert_same (app_view ∘ ke_Value) _ _ e).
Qed.

Lemma quiet_flush_host i : quiet (flush_host (S := S) cf i).
Proof.
  intros z. unfold flush_host. destruct (ks_arr (zl_hosts z) !! i) as [e|] eqn:Ei; [|done].
  destruct (kv_write _ _ _ _) as [s [v| |m]]; [|done|done].
  apply views_intro; [done| |done]. by apply (map_insert_same (port_used ∘ ke_Value) _ _ e).
Qed.
Hint Resolve quiet_flush_app quiet_flush_host : go.

Lemma quiet_reconcile i : quiet (schedulerReconcileDeployRevision (S := S) cf now i).
Proof.
  unfold schedulerReconcileDeployRevision. repeat preserves_step.
Qed.

Lemma quiet_bump i : quiet (schedulerBumpRevision (S := S) i).
Proof.
  unfold schedulerBumpRevision. repeat preserves_step. apply preserves_modify. intros z0.
  apply views_intro; [|done|done]. by apply (apps_view_upd i).
Qed.
Hint Resolve quiet_bump : go.

Lemma quiet_set_net (f : zonelet S -> S) nm : quiet (modify (fun z => set_net z (f z) nm)).
Proof. by apply preserves_modify. Qed.

Lemma quiet_vpc i j ip z : same_views z (upd_app (S := S) i (on_replica j (set_VpcIpv4 ip)) z).
Proof.
  apply views_intro; [|done|done]. rewrite (apps_view_replica _ _ _ id) by done. apply alter2_id.
Qed.

(** ** Port allocation *)

Hypothesis draws_u32 : forall n, Forall in_u32 (draws n).

(** The new bindings of the host at [h], from [z] to [z']. *)
Record allocates (h : nat) (z z' : zonelet S) (new : list Z) : Prop := {
  al_idx : ks_idx (zl_hosts z') = ks_idx (zl_hosts z);
  al_other : forall k, k <> h -> used_view z' !! k = used_view z !! k;
  al_host : forall used, used_view z !! h = Some used -> exists used', used_view z' !! h = Some used' /\
    used ⊆ used' /\ (forall p, p ∈ new -> p ∈ used' /\ p ∉ used);
  al_nodup : NoDup new;
  al_pos : Forall (fun p => 0 < p) new;
  al_u32 : Forall (Forall in_u32) (used_view z') }.

Lemma allocates_nil h z z' : used_view z' = used_view z -> ks_idx (zl_hosts z') = ks_idx (zl_hosts z) ->
  Forall (Forall in_u32) (used_view z) -> allocates h z z' [].
Proof.
  intros Eu Ei Hu. split; rewrite ?Eu, ?Ei; try done; [|constructor].
  intros used E. exists used. split_and!; [done|done|]. intros p Hp. by apply not_elem_of_nil in Hp.
Qed.

Lemma allocates_app h z1 z2 z3 new1 new2 : is_Some (used_view z1 !! h) ->
  allocates h z1 z2 new1 -> allocates h z2 z3 new2 -> allocates h z1 z3 (new1 ++ new2)%list.
Proof.
  intros [u1 E1] [I1 O1 Hh1 N1 P1 _] [I2 O2 Hh2 N2 P2 U2].
  destruct (Hh1 u1 E1) as (u2 & E2 & S2 & Hn1). destruct (Hh2 u2 E2) as (u3 & E3 & S3 & Hn2).
  split; [congruence| | | | |done].
  - intros k Hk. by rewrite O2, O1.
  - intros used E. assert (used = u1) as -> by congruence. exists u3. split_and!; [done|set_solver|].
    intros p [Hp|Hp]%elem_of_app; [|destruct (Hn2 p Hp)]; [destruct (Hn1 p Hp)|]; set_solver.
  - apply NoDup_app. split_and!; [done| |done]. intros p Hp Hq.
    destruct (Hn1 p Hp), (Hn2 p Hq). done.
  - by apply Forall_app.
Qed.

Lemma alloc_port_spec h z : is_Some (used_view z !! h) -> Forall (Forall in_u32) (used_view z) ->
  exists z' hp, alloc_port draws h z = (z', Ok hp) /\ zl_apps z' = zl_apps z /\
    allocates h z z' (if hp =? 0 then [] else [hp]).
Proof.
  intros [used Hused] Hu. unfold alloc_port. rewrite get_unfold.
  destruct (host_at z h) as [host|] eqn:Eh.
  2:{ unfold host_at, used_view in *. rewrite list_lookup_fmap in Hused. by destruct (_ !! h). }
  pose proof (host_at_view _ _ _ Eh) as Ev. assert (used = port_used host) as -> by congruence.
  set (hp := HostPortAlloc (draws (zl_allocs z)) (port_used host) 0). cbv zeta. rewrite modify_unfold.
  assert (Hup : Forall in_u32 (port_used host)) by (by eapply Forall_lookup_1 in Hu).
  destruct (Z.eqb_spec hp 0) as [E0|E0]; [rewrite skip_unfold|rewrite modify_unfold].
  { eexists _, hp. split_and!; [reflexivity|done|]. rewrite (proj2 (Z.eqb_eq _ _)) by done. by apply allocates_nil. }
  destruct (HostPortAlloc_fresh (draws (zl_allocs z)) (port_used host)) as [Hr Hf]; [done..|]. fold hp in Hr, Hf.
  eexists _, hp. split_and!; [reflexivity|done|]. rewrite (proj2 (Z.eqb_neq _ _)) by done.
  set (z1 := tick_alloc z).
  assert (Ev' : used_view (upd_host h (set_port_used (sort_z (port_used host ++ [hp])%list)) z1) =
                alter (fun _ => sort_z (port_used host ++ [hp])%list) h (used_view z))
    by exact (used_view_set h _ z1).
  assert (Hperm : sort_z (port_used host ++ [hp])%list ≡ₚ (port_used host ++ [hp])%list)
    by apply merge_sort_Permutation.
  split; [done| | | | |].
  - intros k Hk. rewrite Ev'. by rewrite list_lookup_alter_ne.
  - intros used E. assert (used = port_used host) as -> by congruence.
    eexists. rewrite Ev', list_lookup_alter_eq, E. split_and!; [reflexivity| |].
    + intros p Hp. rewrite Hperm, elem_of_app. by left.
    + intros p ->%list_elem_of_singleton. rewrite Hperm, elem_of_app, list_elem_of_singleton. auto.
  - apply NoDup_singleton.
  - constructor; [|constructor]. unfold HostPortMin in Hr. lia.
  - rewrite Ev'. apply Forall_lookup_2. intros k us. rewrite list_lookup_alter.
    destruct (decide _) as [<-|]; [|by intros; eapply Forall_lookup_1 in Hu].
    rewrite Ev. intros [= <-]. rewrite Hperm, Forall_app. split; [done|].
    constructor; [|constructor]. unfold HostPortMin, HostPortMax in Hr. go_unfold. lia.
Qed.

Lemma used_some h z z' new : allocates h z z' new -> is_Some (used_view z !! h) -> is_Some (used_view z' !! h).
Proof. intros Ha [u Hu]. destruct (al_host _ _ _ _ Ha u Hu) as (u' & E & _). eauto. Qed.

Lemma bind_missing_spec h ports : forall setPorts flush z,
  is_Some (used_view z !! h) -> Forall (Forall in_u32) (used_view z) ->
  exists z' new flush', bind_missing draws h ports setPorts flush z = (z', Ok ((setPorts ++ new)%list, flush')) /\
    zl_apps z' = zl_apps z /\ allocates h z z' (map dsp_HostPort new).
Proof.
  induction ports as [|sp ports IH]; intros setPorts flush z Hs Hu.
  { exists z, [], flush. rewrite app_nil_r. split_and!; [done|done|by apply allocates_nil]. }
  cbn [bind_missing]. destruct (has_port setPorts (ssp_Port sp)); [by apply IH|].
  rewrite bind_unfold. destruct (alloc_port_spec h z Hs Hu) as (z1 & hp & -> & Eapps & Ha).
  pose proof (used_some _ _ _ _ Ha Hs) as Hs1. pose proof (al_u32 _ _ _ _ Ha) as Hu1.
  destruct (Z.eqb_spec hp 0) as [E|E].
  - subst hp. destruct (IH setPorts flush z1 Hs1 Hu1) as (z' & new & f' & -> & Ez & Hn).
    exists z', new, f'. split_and!; [done|congruence|by apply (allocates_app h z z1 z' [])].
  - destruct (IH (setPorts ++ [{| dsp_Name := ssp_Name sp; dsp_Port := ssp_Port sp; dsp_HostPort := hp |}])%list
                true z1 Hs1 Hu1) as (z' & new & f' & -> & Ez & Hn).
    eexists z', (_ :: new), f'. rewrite <- app_assoc. split_and!; [reflexivity|congruence|].
    by apply (allocates_app h z z1 z' [hp]).
Qed.

Lemma bind_all_spec h ports : forall bound z,
  is_Some (used_view z !! h) -> Forall (Forall in_u32) (used_view z) ->
  exists z' new, bind_all draws h ports bound z = (z', Ok (bound ++ new)%list) /\
    zl_apps z' = zl_apps z /\ allocates h z z' (map dsp_HostPort new).
Proof.
  induction ports as [|[sp|] ports IH]; intros bound z Hs Hu; cbn [bind_all].
  { exists z, []. rewrite app_nil_r. split_and!; [done|done|by apply allocates_nil]. }
  2:{ by apply IH. }
  destruct (valid_port sp); cbn [negb]; [|by apply IH].
  rewrite bind_unfold. destruct (alloc_port_spec h z Hs Hu) as (z1 & hp & -> & Eapps & Ha).
  pose proof (used_some _ _ _ _ Ha Hs) as Hs1. pose proof (al_u32 _ _ _ _ Ha) as Hu1.
  destruct (Z.eqb_spec hp 0) as [E|E].
  - subst hp. destruct (IH bound z1 Hs1 Hu1) as (z' & new & -> & Ez & Hn).
    exists z', new. split_and!; [done|congruence|by apply (allocates_app h z z1 z' [])].
  - destruct (IH (bound ++ [{| dsp_Name := ssp_Name sp; dsp_Port := ssp_Port sp; dsp_HostPort := hp |}])%list
                z1 Hs1 Hu1) as (z' & new & -> & Ez & Hn).
    eexists z', (_ :: new). rewrite <- app_assoc. split_and!; [reflexivity|congruence|].
    by apply (allocates_app h z z1 z' [hp]).
Qed.

(** The ports of one replica change to some of the old ones and new ones of its host. *)
Lemma ports_inv_rebind (z z1 z2 : zonelet S) i j id h new g b rvs rv :
  ports_inv z -> allocates h z z1 new -> ks_idx (zl_hosts z) !! id = Some h ->
  apps_view z !! i = Some (b, rvs) -> rvs !! j = Some rv ->
  rep_bindings (g rv) ⊆+ (rep_bindings rv ++ map (pair id) new)%list ->
  apps_view z2 = alter2 i j g (apps_view z) ->
  used_view z2 = used_view z1 -> ks_idx (zl_hosts z2) = ks_idx (zl_hosts z1) ->
  ports_inv z2.
Proof.
  intros [Hnd Hused Hrange Hinj Hu] Ha Hid Hv Hr Hsub Ev Eu Ei. destruct (Hrange id h Hid) as [used Eused].
  pose proof (al_idx _ _ _ _ Ha) as Eidx. rewrite Eidx in Ei.
  destruct (al_host _ _ _ _ Ha used Eused) as (used' & Eused' & Hmono & Hnew).
  assert (Hold : forall k us p, used_view z2 !! k = Some us -> forall us0, used_view z !! k = Some us0 ->
    p ∈ us0 -> p ∈ us).
  { intros k us p. rewrite Eu. intros E us0 E0 Hp. destruct (decide (k = h)) as [->|Hk].
    - assert (us0 = used) as -> by congruence. assert (us = used') as -> by congruence. set_solver.
    - rewrite (al_other _ _ _ _ Ha) in E by done. congruence. }
  assert (Hnone : forall k, used_view z !! k = None -> used_view z2 !! k = None).
  { intros k E. rewrite Eu. destruct (decide (k = h)) as [->|Hk]; [congruence|].
    by rewrite (al_other _ _ _ _ Ha). }
  assert (Hb : NoDup (bindings z2) /\ forall q, q ∈ bindings z2 -> q ∈ bindings z \/ q ∈ map (pair id) new).
  { unfold bindings in *. rewrite Ev, bindings_flat. rewrite bindings_flat in Hnd, Hused |- *.
    destruct (flat_split binding_part _ i j b rvs rv Hv Hr) as (B1 & B2 & EB & EB').
    rewrite EB'. rewrite EB in Hnd, Hused |- *. apply replace_part; [done| | |].
    - apply NoDup_fmap_2; [by intros ? ? [= ->]|apply (al_nodup _ _ _ _ Ha)].
    - intros q (p & -> & Hp)%list_elem_of_fmap Hq. destruct (Hnew p Hp) as [_ Hnot]. apply Hnot.
      by apply (Hused id h).
    - unfold binding_part. destruct b; [apply submseteq_nil_l|done]. }
  destruct Hb as [Hb1 Hb2]. split; [done| | |by rewrite Ei|by rewrite Eu; apply (al_u32 _ _ _ _ Ha)].
  2:{ intros id' h' Eid. rewrite Ei in Eid. rewrite Eu. destruct (decide (h' = h)) as [->|Hk]; [eauto|].
      rewrite (al_other _ _ _ _ Ha) by done. by eapply Hrange. }
  intros id' h' us p. rewrite Ei. intros Eid' Eus [Hq|Hq]%Hb2.
  - destruct (used_view z !! h') as [us0|] eqn:E0; [|by rewrite Hnone in Eus].
    eapply Hold; [exact Eus|exact E0|]. by eapply Hused.
  - apply list_elem_of_fmap in Hq as (p' & [= -> <-] & Hp). assert (h' = h) as -> by congruence.
    rewrite Eu, Eused' in Eus. injection Eus as <-. by apply Hnew.
Qed.

(** Allocation alone, when no binding is recorded for it. *)
Lemma ports_inv_alloc (z z1 : zonelet S) h new : ports_inv z -> zl_apps z1 = zl_apps z ->
  allocates h z z1 new -> ports_inv z1.
Proof.
  intros [Hnd Hused Hrange Hinj Hu] Ea Ha. destruct Ha as [Ei Ho Hh _ _ Hu1].
  assert (Eb : bindings z1 = bindings z) by (unfold bindings, apps_view; by rewrite Ea).
  split; rewrite ?Eb, ?Ei; try done.
  - intros id k us p Eid Eus Hp. destruct (Hrange id k Eid) as [us0 E0].
    destruct (decide (k = h)) as [->|Hk].
    + destruct (Hh us0 E0) as (us' & E' & Hs & _). assert (us = us') as -> by congruence.
      apply Hs. by eapply Hused.
    + rewrite Ho in Eus by done. by eapply Hused.
  - intros id k Eid. destruct (Hrange id k Eid) as [us0 E0]. destruct (decide (k = h)) as [->|Hk].
    + destruct (Hh us0 E0) as (us' & E' & _). eauto.
    + rewrite Ho by done. eauto.
Qed.

Lemma kept_sublist ports cur : sublist (kept_ports ports cur) cur.
Proof.
  unfold kept_ports.
  assert (G : forall acc pre, sublist acc pre -> sublist (foldl (fun setPorts sp =>
    if bool_decide (is_Some (ports !! dsp_Port sp)) && (0 <? dsp_HostPort sp) && negb (has_port setPorts (dsp_Port sp))
    then (setPorts ++ [sp])%list else setPorts) acc cur) (pre ++ cur)%list).
  { induction cur as [|sp cur IH]; intros acc pre Hs; simpl; [by rewrite app_nil_r|].
    replace (pre ++ sp :: cur)%list with ((pre ++ [sp]) ++ cur)%list by (by rewrite <- app_assoc).
    destruct (_ && _ && _); apply IH.
    - by apply sublist_app.
    - by apply sublist_inserts_r. }
  apply (G [] []). constructor.
Qed.

Lemma sublist_filter_map (f : AppDeployServicePort -> Z) (p : Z -> bool) l1 l2 : sublist l1 l2 ->
  sublist (List.filter p (map f l1)) (List.filter p (map f l2)).
Proof.
  induction 1 as [|x l1 l2 Hs IH|x l1 l2 Hs IH]; simpl; [constructor| |].
  - destruct (p (f x)); [by constructor|done].
  - destruct (p (f x)); [by constructor|done].
Qed.

Lemma filter_pos_id l : Forall (fun p => 0 < p) l -> List.filter (fun p => 0 <? p) l = l.
Proof. induction 1 as [|p l Hp Hl IH]; simpl; [done|]. rewrite (proj2 (Z.ltb_lt _ _)) by done. by f_equal. Qed.

Lemma rebind_bindings id old kept new : id <> "" -> sublist kept old -> Forall (fun p => 0 < p) (map dsp_HostPort new) ->
  rep_bindings (id, map dsp_HostPort (kept ++ new)%list) ⊆+
  (rep_bindings (id, map dsp_HostPort old) ++ map (pair id) (map dsp_HostPort new))%list.
Proof.
  intros Hid Hs Hp. unfold rep_bindings. simpl. rewrite bool_decide_false by done.
  rewrite map_app, List.filter_app, (filter_pos_id (map dsp_HostPort new)) by done. rewrite map_app.
  apply submseteq_app; [|done]. apply sublist_submseteq, fmap_sublist. by apply sublist_filter_map.
Qed.

Ltac keeps_step :=
  lazymatch goal with
  | |- keeps _ (get ≫= _) => apply keeps_get; intros ? ?
  | |- keeps _ (_ ≫= _) => apply keeps_bind; [|intros ?]
  | |- keeps _ (match ?x with _ => _ end) => destruct x
  | |- keeps _ _ => solve [auto with go | apply quiet_keeps; repeat preserves_step]
  end.

Lemma bind_ports_keeps i j : keeps ports_inv (bind_ports (S := S) cf now draws i j).
Proof.
  unfold bind_ports. apply keeps_get. intros z Hz.
  destruct (app_at z i) as [a|] eqn:Ea; [|done].
  destruct (ad_Replicas (ai_Deploy a) !! j) as [rep|] eqn:Er; [|done].
  destruct (unplaced rep) eqn:Eun; [done|]. unfold unplaced in Eun. apply bool_decide_eq_false in Eun.
  destruct (KvSet_ref (zl_hosts z) (dr_HostId rep)) as [h|] eqn:Eh; [|done].
  destruct (Nat.eqb _ _); [done|].
  set (kept := kept_ports _ _). set (ports := map snd _). cbv zeta. rewrite bind_unfold.
  destruct (bind_missing_spec h ports kept false z (pi_range z Hz _ _ Eh) (pi_u32 z Hz)) as (z1 & new & fl & -> & Eapps & Ha).
  destruct fl; cbn [negb]; [|by eapply ports_inv_alloc].
  rewrite modify_unfold.
  set (z2 := upd_app i (on_replica j (set_ServicePorts (kept ++ new)%list)) z1).
  assert (H2' : ports_inv z2).
  { eapply (ports_inv_rebind z z1 z2 i j (dr_HostId rep) h (map dsp_HostPort new)
      (fun rv => (fst rv, map dsp_HostPort (kept ++ new)%list))); [done|done|done| | | | | |].
    - by apply app_at_view in Ea.
    - rewrite list_lookup_fmap, Er. done.
    - apply rebind_bindings; [done|apply kept_sublist|apply (al_pos _ _ _ _ Ha)].
    - unfold z2. rewrite (apps_view_replica i j _ (fun rv => (fst rv, map dsp_HostPort (kept ++ new)%list))) by done.
      unfold apps_view. by rewrite Eapps.
    - done.
    - done. }
  eapply keeps_use; [|exact H2']. cbv beta. repeat keeps_step.
Qed.

Lemma bind_vpc_quiet i j : quiet (bind_vpc (S := S) cf now i j).
Proof.
  unfold bind_vpc. repeat preserves_step.
  - apply preserves_modify. intros. apply quiet_vpc.
  - apply preserves_modify. intros z0. apply (quiet_vpc i j _ (set_net z0 _ _)).
Qed.

Lemma bind_instance_keeps i : keeps ports_inv (bind_instance (S := S) cf now draws i).
Proof.
  unfold bind_instance. apply keeps_get. intros z Hz. apply keeps_use; [|done].
  apply keeps_bind; [apply keeps_for_each; intros; apply bind_ports_keeps|]. intros _.
  apply quiet_keeps. repeat preserves_step. apply preserves_for_each. intros. apply bind_vpc_quiet.
Qed.

(** ** Placement *)

Lemma place_vpc_quiet hostId name repId : quiet (place_vpc (S := S) now hostId name repId).
Proof. unfold place_vpc. repeat preserves_step. Qed.

(** A change of an instance that permutes its bindings. *)
Lemma ports_inv_perm (z z' : zonelet S) : ports_inv z -> bindings z' ≡ₚ bindings z ->
  used_view z' = used_view z -> ks_idx (zl_hosts z') = ks_idx (zl_hosts z) -> ports_inv z'.
Proof.
  intros [Hnd Hused Hrange Hinj Hu] Hp Eu Ei. split; rewrite ?Eu, ?Ei; try done.
  - by rewrite Hp.
  - intros id h us p Eid Eus. rewrite Hp. by apply (Hused id h).
Qed.

Lemma new_replicas_unbound ids : map rep_view (map new_replica_at ids) ≫= rep_bindings = [].
Proof. by induction ids. Qed.

Context `{!SortSliceLaws H2}.

Lemma fill_bindings i (z : zonelet S) : bindings (upd_app i (on_deploy fill_replicas) z) ≡ₚ bindings z.
Proof.
  unfold bindings. destruct (app_at z i) as [a|] eqn:Ea.
  2:{ unfold apps_view. by rewrite (map_upd_none app_view). }
  pose proof (app_at_view _ _ _ Ea) as Ev.
  pose proof (map_upd_app app_view i (on_deploy fill_replicas) z a Ea) as Eu. fold (apps_view z) in Eu.
  fold (apps_view (upd_app i (on_deploy fill_replicas) z)) in Eu.
  rewrite Eu, (proj2 (alter_split _ i _ _ Ev)). rewrite (proj1 (alter_split id i _ _ Ev)) at 3.
  rewrite !bind_app, !bind_cons. do 2 f_equiv. unfold app_bindings, app_view. cbn [fst snd].
  change (is_deleted (on_deploy fill_replicas a)) with (is_deleted a). destruct (is_deleted a); [done|].
  unfold fill_replicas, on_deploy. cbn [ai_Deploy ad_Replicas with_replicas].
  rewrite map_app, bind_app, new_replicas_unbound, app_nil_r.
  f_equiv. f_equiv. apply sort_slice_perm.
Qed.

(** A replica without a host gets one and ports of it. *)
Lemma assign_keeps i j h hostId rep a rev (z : zonelet S) : ports_inv z ->
  apps_view z !! i = Some (app_view a) -> ad_Replicas (ai_Deploy a) !! j = Some rep -> dr_HostId rep = "" ->
  ks_idx (zl_hosts z) !! hostId = Some h ->
  ports_inv (fst (assign cf now draws i j h hostId rep a rev z)).
Proof.
  intros Hz Ea Er Eun Eh. unfold assign. rewrite modify_unfold.
  set (z1 := upd_app i (on_replica j (set_HostId hostId)) z).
  assert (V1 : apps_view z1 = alter2 i j (fun rv => (hostId, snd rv)) (apps_view z)) by (by apply apps_view_replica).
  rewrite bind_unfold. pose proof (place_vpc_quiet hostId (ai_Name a) (dr_Id rep) z1) as Q1.
  destruct (place_vpc now hostId (ai_Name a) (dr_Id rep) z1) as [z2 [ip|e]] eqn:Ep.
  2:{ exfalso. revert Ep. clear. unfold place_vpc. rewrite get_unfold. repeat (case_match; try done). }
  cbn [fst] in Q1.
  rewrite bind_unfold.
  set (setip := match ip with Some ip => modify (upd_app i (on_replica j (set_VpcIpv4 ip))) | None => skip end).
  assert (Qs : quiet setip) by (destruct ip; [apply preserves_modify; intros; apply quiet_vpc|apply preserves_skip]).
  assert (Es : exists z3, setip z2 = (z3, Ok tt)) by (destruct ip; eexists; reflexivity).
  destruct Es as [z3 Es]. specialize (Qs z2). rewrite Es in Qs |- *. cbn [fst] in Qs.
  rewrite modify_unfold.
  set (z4 := upd_app i _ z3).
  assert (Q4 : same_views z3 z4) by (apply views_intro; [by apply apps_view_upd|done|done]).
  assert (Q : same_views z1 z4) by (by rewrite Q4, Qs).
  clearbody z4. apply views_elim in Q as (QA & QU & QI).
  rewrite bind_unfold.
  destruct (bind_all_spec h (sp_ServicePorts (ai_Spec a)) [] z4) as (z5 & new & -> & E5 & Ha).
  { rewrite QU. apply (pi_range z Hz hostId h Eh). }
  { rewrite QU. apply (pi_u32 z Hz). }
  rewrite modify_unfold. set (z6 := upd_app i (on_replica j (set_ServicePorts ([] ++ new)%list)) z5).
  assert (H6 : ports_inv z6).
  { eapply (ports_inv_rebind z z5 z6 i j hostId h (map dsp_HostPort new)
      (fun rv => (hostId, map dsp_HostPort new))); [done| |done| | | | | |].
    - apply (allocates_app h z z4 z5 []); [by apply (pi_range z Hz hostId)| |done].
      apply allocates_nil; [done|done|apply (pi_u32 z Hz)].
    - exact Ea.
    - rewrite list_lookup_fmap, Er. reflexivity.
    - unfold rep_bindings at 2, rep_view. simpl. rewrite (bool_decide_true (dr_HostId rep = "")) by done.
      unfold rep_bindings. simpl. destruct (bool_decide _); [apply submseteq_nil_l|].
      by rewrite filter_pos_id by apply (al_pos _ _ _ _ Ha).
    - unfold z6. rewrite (apps_view_replica i j _ (fun rv => (fst rv, map dsp_HostPort new))) by done.
      assert (E : apps_view z5 = apps_view z1) by (rewrite <- QA; unfold apps_view; by rewrite E5).
      rewrite E, V1, alter2_compose. done.
    - done.
    - done. }
  eapply keeps_use; [|exact H6]. cbv beta. repeat keeps_step.
Qed.

Lemma place_replica_keeps i j rep a hosts (z : zonelet S) : ports_inv z ->
  app_at z i = Some a -> ad_Replicas (ai_Deploy a) !! j = Some rep -> dr_HostId rep = "" ->
  ports_inv (fst (place_replica cf now draws i j rep a hosts z)).
Proof.
  intros Hz Ea Er Eun. unfold place_replica. cbv zeta. rewrite modify_unfold. set (z1 := upd_app i _ z).
  assert (H1' : ports_inv z1) by (apply (ports_inv_same z); [apply views_intro; [by apply apps_view_upd|done|done]|done]).
  destruct (snd (ScheduleHost _ _ _)) as [hit|e].
  2:{ eapply keeps_use; [|exact H1']. cbv beta. repeat keeps_step. }
  rewrite modify_unfold, get_unfold. set (z2 := upd_app i _ z1).
  assert (Q : same_views z z2).
  { apply views_intro; [|done|done]. unfold z2. rewrite apps_view_upd by done. by apply apps_view_upd. }
  destruct (KvSet_ref (zl_hosts z2) (hit_HostId hit)) as [h|] eqn:Eh; [|by apply (ports_inv_same z)].
  apply assign_keeps; [by apply (ports_inv_same z)| |done|done|done].
  apply views_elim in Q as (-> & _). by apply app_at_view.
Qed.

Lemma place_keeps i hosts : keeps ports_inv (place (S := S) cf now draws i hosts).
Proof.
  intros z Hz. unfold place. rewrite modify_unfold, get_unfold. set (z1 := upd_app i _ z).
  assert (Hz1 : ports_inv z1) by (by apply (ports_inv_perm z); [|apply fill_bindings|..]).
  destruct (app_at z1 i) as [a|] eqn:Ea; [|done].
  destruct (list_find _ _) as [[j rep]|] eqn:Ef; [|done].
  apply list_find_bool in Ef as [Er Eun]. unfold unplaced in Eun. apply bool_decide_eq_true in Eun.
  by apply place_replica_keeps.
Qed.

(** ** The ports in use *)

Definition in_ports (m : gmap string (list Z)) (id : string) (p : Z) : Prop :=
  exists ports, m !! id = Some ports /\ p ∈ ports.

Lemma count_ports_spec sps : forall used p,
  p ∈ foldl count_port used sps <-> p ∈ used \/ (0 < p /\ p ∈ map dsp_HostPort sps).
Proof.
  induction sps as [|sp sps IH]; intros used p; simpl; [set_solver|].
  rewrite IH, elem_of_cons. unfold count_port.
  destruct (Z.ltb_spec 0 (dsp_HostPort sp)); simpl.
  - case_bool_decide; simpl; [naive_solver|]. rewrite elem_of_app, list_elem_of_singleton. naive_solver.
  - naive_solver lia.
Qed.

Lemma count_replica_spec m rep id p :
  in_ports (count_replica m rep) id p <-> in_ports m id p \/ (id, p) ∈ rep_bindings (rep_view rep).
Proof.
  unfold count_replica, rep_bindings, rep_view, in_ports. simpl.
  destruct (bool_decide (dr_HostId rep = "")); [set_solver|].
  rewrite list_elem_of_fmap. setoid_rewrite list_elem_of_In. setoid_rewrite filter_In.
  setoid_rewrite <- list_elem_of_In. setoid_rewrite Z.ltb_lt.
  destruct (decide (dr_HostId rep = id)) as [<-|Hid].
  - rewrite lookup_insert_eq. split.
    + intros (ports & [= <-] & Hp). apply count_ports_spec in Hp as [Hp|[? ?]]; [|right; eauto].
      destruct (m !! dr_HostId rep); simpl in Hp; [left; eauto|by apply not_elem_of_nil in Hp].
    + intros Hc. eexists. split; [reflexivity|]. apply count_ports_spec.
      destruct Hc as [(ports & -> & Hp)|(q & [= ->] & ? & ?)]; auto.
  - rewrite lookup_insert_ne by done. naive_solver.
Qed.

Lemma count_replicas_spec reps : forall m id p,
  in_ports (foldl count_replica m reps) id p <-> in_ports m id p \/ (id, p) ∈ map rep_view reps ≫= rep_bindings.
Proof.
  induction reps as [|rep reps IH]; intros m id p; simpl; [set_solver|].
  rewrite IH, count_replica_spec, elem_of_app. tauto.
Qed.

Lemma collect_ports_spec (es : list (nat * KvEntry AppInstance)) : forall c id p,
  in_ports (co_ports (foldl collect_app c es)) id p <->
  in_ports (co_ports c) id p \/ (id, p) ∈ map (app_view ∘ ke_Value ∘ snd) es ≫= app_bindings.
Proof.
  induction es as [|[i e] es IH]; intros c id p; simpl; [set_solver|].
  rewrite IH, elem_of_app. unfold app_bindings at 2. simpl. destruct (is_deleted (ke_Value e)); simpl; [set_solver|].
  rewrite count_replicas_spec. tauto.
Qed.

Lemma collect_spec (z : zonelet S) id p :
  in_ports (co_ports (collect (zl_apps z))) id p <-> (id, p) ∈ bindings z.
Proof.
  unfold collect. rewrite collect_ports_spec. simpl.
  assert (E : map (app_view ∘ ke_Value ∘ snd) (imap pair (ks_arr (zl_apps z))) = apps_view z).
  { unfold apps_view. rewrite <- (map_snd_imap (ks_arr (zl_apps z))) at 2. by rewrite map_map. }
  rewrite E. unfold in_ports. split; [intros [(? & [=] & _)|?]; done|auto].
Qed.

(** The hosts of the set are where the index says. *)
Definition hosts_wf (z : zonelet S) : Prop :=
  (forall id h, ks_idx (zl_hosts z) !! id = Some h -> is_Some (used_view z !! h)) /\
  (forall id1 id2 h, ks_idx (zl_hosts z) !! id1 = Some h -> ks_idx (zl_hosts z) !! id2 = Some h -> id1 = id2).

(** A step of the loop that brings the recorded ports in line. *)
Lemma sync_apps hp (z : zonelet S) : zl_apps (fst (sync_ports cf hp z)) = zl_apps z.
Proof.
  destruct hp as [id ports]. unfold sync_ports. rewrite get_unfold.
  destruct (KvSet_ref (zl_hosts z) id) as [i|]; [|done]. cbv zeta. rewrite modify_unfold, get_unfold.
  case_bool_decide; [done|]. rewrite modify_unfold. unfold flush_host.
  case_match; [|done]. by repeat case_match.
Qed.

Lemma flush_host_used i (z z' : zonelet S) r : flush_host cf i z = (z', r) ->
  used_view z' = used_view z /\ ks_idx (zl_hosts z') = ks_idx (zl_hosts z).
Proof.
  intros E. pose proof (quiet_flush_host i z) as Q. rewrite E in Q. by apply views_elim in Q as (_ & ? & ?).
Qed.

Lemma sync_spec id ports (z z' : zonelet S) h : sync_ports cf (id, ports) z = (z', Ok tt) ->
  hosts_wf z -> ks_idx (zl_hosts z) !! id = Some h ->
  ks_idx (zl_hosts z') = ks_idx (zl_hosts z) /\ used_view z' = alter (fun _ => sort_z ports) h (used_view z).
Proof.
  intros Hs [Hr _] Eh. unfold sync_ports in Hs. rewrite get_unfold in Hs. unfold KvSet_ref in Hs.
  rewrite Eh in Hs. cbv zeta in Hs. rewrite modify_unfold, get_unfold in Hs.
  set (f := fun x => set_port_used (sort_z (port_used x)) x) in *.
  assert (Eu : forall g k (y : zonelet S), (forall x, port_used (f x) = g (port_used x)) ->
    used_view (upd_host k f y) = alter g k (used_view y)).
  { intros g k y Hg. unfold used_view, upd_host. simpl.
    apply (list_fmap_alter (port_used ∘ ke_Value)), Forall_forall. intros e _. simpl. apply Hg. }
  specialize (Eu sort_z h z ltac:(done)). set (z1 := upd_host h f z) in *.
  destruct (Hr id h Eh) as [us Eus].
  case_bool_decide as Ec.
  - injection Hs as <-. split; [done|]. rewrite Eu.
    destruct (host_at z1 h) as [host|] eqn:Eho; [|done]. simpl in Ec. injection Ec as Ec.
    pose proof (host_at_view _ _ _ Eho) as Ev. rewrite Eu, list_lookup_alter_eq, Eus in Ev. simpl in Ev.
    apply list_alter_ext; [|done]. intros x Ex. congruence.
  - rewrite modify_unfold in Hs. apply flush_host_used in Hs as [E1 E2].
    rewrite E1, E2. split; [done|]. rewrite used_view_set, Eu, alter_alter. done.
Qed.

Lemma sync_skip id ports (z z' : zonelet S) r : sync_ports cf (id, ports) z = (z', r) ->
  ks_idx (zl_hosts z) !! id = None -> z' = z.
Proof.
  intros Hs En. unfold sync_ports in Hs. rewrite get_unfold in Hs. unfold KvSet_ref in Hs. rewrite En in Hs.
  by injection Hs.
Qed.

(** After the loop every host of the list records the ports of the list. *)
Lemma sync_all_spec l : forall z z' : zonelet S, for_each l (sync_ports cf) z = (z', Ok tt) ->
  hosts_wf z -> NoDup (map fst l) ->
  zl_apps z' = zl_apps z /\ ks_idx (zl_hosts z') = ks_idx (zl_hosts z) /\
  (forall k, (forall id, id ∈ map fst l -> ks_idx (zl_hosts z) !! id <> Some k) ->
     used_view z' !! k = used_view z !! k) /\
  (forall id ports h, (id, ports) ∈ l -> ks_idx (zl_hosts z) !! id = Some h ->
     used_view z' !! h = Some (sort_z ports)).
Proof.
  induction l as [|[id ports] l IH]; intros z z' Hl Hw Hnd.
  { injection Hl as <-. split_and!; [done|done|auto|]. intros ? ? ? Hin. by apply not_elem_of_nil in Hin. }
  cbn [for_each] in Hl. rewrite bind_unfold in Hl. pose proof (sync_apps (id, ports) z) as Ea.
  destruct (sync_ports cf (id, ports) z) as [z1 [[]|e]] eqn:E1; [|done]. cbn [fst] in Ea.
  simpl in Hnd. apply NoDup_cons in Hnd as [Hni Hnd].
  destruct (ks_idx (zl_hosts z) !! id) as [h|] eqn:Eh.
  - destruct (sync_spec id ports z z1 h E1 Hw Eh) as [Ei Eu]. destruct Hw as [Hr Hi].
    assert (Hw1 : hosts_wf z1).
    { split; rewrite Ei; [|done]. intros id' h' E. rewrite Eu, list_lookup_alter.
      destruct (decide _) as [<-|]; [|by eapply Hr]. destruct (Hr _ _ E) as [? ->]. by eexists. }
    destruct (IH z1 z' Hl Hw1 Hnd) as (A & B & C & D). rewrite Ei in *. split_and!; [congruence|done| |].
    + intros k Hk. rewrite C by (intros; apply Hk; set_solver). rewrite Eu, list_lookup_alter_ne; [done|].
      intros <-. apply (Hk id); [set_solver|done].
    + intros id' ports' h' [[= -> ->]|Hin]%elem_of_cons Eh'; [|by eapply D].
      assert (h' = h) as -> by congruence. rewrite C.
      * rewrite Eu, list_lookup_alter_eq. by destruct (Hr _ _ Eh) as [? ->].
      * intros id' Hin' Eid'. apply Hni. by rewrite (Hi id id' h).
  - apply sync_skip in E1 as ->; [|done].
    destruct (IH z z' Hl Hw Hnd) as (A & B & C & D). split_and!; [done|done| |].
    + intros k Hk. apply C. intros; apply Hk; set_solver.
    + intros id' ports' h' [[= -> ->]|Hin]%elem_of_cons Eh'; [congruence|by eapply D].
Qed.

Context `{!MapRangeLaws H1}.

(** The loop over the recorded ports establishes the invariant. *)
Lemma sync_establishes (z z1 : zonelet S) :
  hosts_wf z -> Forall (Forall in_u32) (used_view z) -> NoDup (bindings z) ->
  (forall id p, (id, p) ∈ bindings z -> in_u32 p) ->
  for_each (map_range (co_ports (collect (zl_apps z)))) (sync_ports cf) z = (z1, Ok tt) ->
  ports_inv z1.
Proof.
  intros Hw Hu Hnd Hb Hl.
  destruct (sync_all_spec _ z z1 Hl Hw (NoDup_map_range _)) as (A & B & C & D).
  setoid_rewrite elem_of_map_range in D.
  assert (Eb : bindings z1 = bindings z) by (unfold bindings, apps_view; by rewrite A).
  assert (Hu1 : forall k us, used_view z1 !! k = Some us -> Forall in_u32 us).
  { intros k us Ek.
    destruct (decide (Exists (fun id => ks_idx (zl_hosts z) !! id = Some k)
      (map fst (map_range (co_ports (collect (zl_apps z))))))) as [He|He].
    - apply Exists_exists in He as (id & Hid & Eid). apply list_elem_of_fmap in Hid as ([id' ports] & -> & Hin).
      apply elem_of_map_range in Hin. simpl in *. rewrite (D id' ports k) in Ek by done. injection Ek as <-.
      unfold sort_z. rewrite merge_sort_Permutation. apply Forall_forall. intros p Hp. apply (Hb id').
      apply collect_spec. by exists ports.
    - rewrite C in Ek; [by eapply Forall_lookup_1 in Hu|]. intros id Hid Eid. apply He, Exists_exists. eauto. }
  split.
  - by rewrite Eb.
  - intros id h us p Eid Eus Hp. rewrite Eb in Hp. apply collect_spec in Hp as (ports & Ep & Hin).
    rewrite B in Eid. rewrite (D id ports h Ep Eid) in Eus. injection Eus as <-.
    unfold sort_z. by rewrite merge_sort_Permutation.
  - intros id h Eid. rewrite B in Eid.
    destruct (co_ports (collect (zl_apps z)) !! id) as [ports|] eqn:Ep; [by rewrite (D id ports)|].
    rewrite C; [by apply (proj1 Hw id)|]. intros id' Hin Eid'.
    assert (id' = id) as -> by (by eapply (proj2 Hw)).
    apply list_elem_of_fmap in Hin as ([? ?] & -> & Hin). apply elem_of_map_range in Hin. simpl in *. congruence.
  - rewrite B. apply Hw.
  - apply Forall_lookup_2. exact Hu1.
Qed.

Lemma sync_all_apps l : forall z : zonelet S, zl_apps (fst (for_each l (sync_ports cf) z)) = zl_apps z.
Proof.
  induction l as [|hp l IH]; intros z; simpl; [done|]. rewrite bind_unfold. pose proof (sync_apps hp z) as E.
  destruct (sync_ports cf hp z) as [z1 [[]|e]]; simpl in *; [|done]. by rewrite IH.
Qed.

Lemma with_status_ports status h : port_used (with_status status h) = port_used h.
Proof. unfold with_status. by destruct (status !! _). Qed.

(** C1: ports are exclusive.  If no port of a host is bound twice among the replicas
    of the instances that are not deleted, then no port is bound twice after a pass,
    wherever it stops and whatever the database answers; and if the pass runs to its
    end, every host that is cached records every port bound on it as used. *)
Theorem pass_ports_exclusive (z z' : zonelet S) r :
  hosts_wf z -> Forall (Forall in_u32) (used_view z) ->
  (forall id p, (id, p) ∈ bindings z -> in_u32 p) ->
  NoDup (bindings z) ->
  schedule_pass cf now draws z = (z', r) ->
  NoDup (bindings z') /\
  (r = Ok tt -> forall id h used p, ks_idx (zl_hosts z') !! id = Some h -> used_view z' !! h = Some used ->
     (id, p) ∈ bindings z' -> p ∈ used).
Proof.
  intros Hw Hu Hb Hnd E. unfold schedule_pass in E. rewrite get_unfold in E. cbv zeta in E.
  rewrite bind_unfold in E. set (c := collect (zl_apps z)) in *.
  pose proof (sync_all_apps (map_range (co_ports c)) z) as Ea.
  destruct (for_each (map_range (co_ports c)) (sync_ports cf) z) as [z1 [[]|e]] eqn:E1.
  2:{ injection E as <- <-. split; [|done]. unfold bindings, apps_view in *. simpl in Ea. by rewrite Ea. }
  assert (H1' : ports_inv z1) by (by apply (sync_establishes z)).
  assert (Hk : ports_inv z').
  { match type of E with ?m z1 = _ => assert (Hm : keeps ports_inv m) end.
    2:{ specialize (Hm z1 H1'). by rewrite E in Hm. }
    cbv beta. apply keeps_bind; [apply keeps_for_each; intros; apply quiet_keeps, quiet_reconcile|intros _].
    apply keeps_bind; [apply keeps_for_each; intros; apply bind_instance_keeps|intros _].
    apply keeps_get. intros z2 Hz2. destruct (_ && _); [done|]. apply keeps_use; [|done].
    apply keeps_bind.
    { apply quiet_keeps, preserves_modify. intros z3. apply views_intro; [done| |done]. unfold used_view. simpl.
      rewrite map_map. apply map_ext. intros e. simpl. apply with_status_ports. }
    intros _. apply keeps_get. intros z3 Hz3. destruct (sched_resources _ _) as [|s0 l]; [done|].
    apply keeps_use; [|done]. apply keeps_bind; [by apply quiet_keeps, preserves_modify|intros _].
    destruct (co_active c); [apply place_keeps|auto with go]. }
  split; [apply Hk|]. intros _. apply Hk.
Qed.
End ops.

(** ** Witness *)

Section witness.
Local Existing Instance no_ip6.

Example ex_after_bindings :
  snd ex_after = Ok tt /\
  bindings (fst ex_after) = [("h1", 20000); ("h1", 20001); ("h1", 20002); ("h1", 20003)].
Proof. vm_compute. split; reflexivity. Qed.

Lemma ex_loaded_idx id h : ks_idx (zl_hosts ex_loaded) !! id = Some h -> id = "h1" /\ h = 0%nat.
Proof.
  intros Hi. change (({[ "h1" := 0%nat ]} : gmap string nat) !! id = Some h) in Hi.
  by apply lookup_singleton_Some in Hi as [<- <-].
Qed.

Lemma ex_loaded_wf : hosts_wf ex_loaded.
Proof.
  split.
  - intros id h [-> ->]%ex_loaded_idx. by eexists.
  - by intros id1 id2 h [-> _]%ex_loaded_idx [-> _]%ex_loaded_idx.
Qed.

Lemma pass_ports_exclusive_witness :
  NoDup (bindings (fst ex_after)) /\
  (snd ex_after = Ok tt -> forall id h used p, ks_idx (zl_hosts (fst ex_after)) !! id = Some h ->
     used_view (fst ex_after) !! h = Some used -> (id, p) ∈ bindings (fst ex_after) -> p ∈ used).
Proof.
  apply (pass_ports_exclusive ex_config 5000000 ex_draws ex_draws_u32
    ex_loaded (fst ex_after) (snd ex_after)).
  - apply ex_loaded_wf.
  - repeat constructor.
  - intros id p [[= -> ->]|Hin%not_elem_of_nil]%elem_of_cons; [split; lia|done].
  - apply NoDup_singleton.
  - apply surjective_pairing.
Defined.
End witness.
