(* ===== verification/RefreshPlace.v ===== *)
(** Placement in a scheduler pass ([Refresh]): a pass places at most one replica, on
    a host with room for it beside everything already placed there, and moves none.
    The view of the state is what each instance claims of which host. *)
From Stdlib Require Import ZArith Lia.
From S2P Require Import Prelude GoStrings GoFloat Inet Ns Kv Ipam Stage StateFlow Scheduler HostPort Zone Refresh RefreshLogic.
Local Open Scope string_scope.
Local Open Scope Z_scope.

(** * Placements *)

Record limits := { lim_cpu : Z; lim_mem : Z; lim_vol : Z }.
Definition limits_of (d : AppDeploy) : limits :=
  {| lim_cpu := ad_CpuLimit d; lim_mem := ad_MemoryLimit d; lim_vol := ad_VolumeLimit d |}.

(** A replica that has a host: instance, replica id, host, limits. *)
Record placement := { pl_app : string; pl_rep : Z; pl_host : string; pl_limits : limits }.

(** What a replica is to the view: its id and its host. *)
Definition rep_place (r : AppDeployReplica) : Z * string := (dr_Id r, dr_HostId r).
Definition app_place (a : AppInstance) : (bool * string * limits) * list (Z * string) :=
  ((is_deleted a, ai_Name a, limits_of (ai_Deploy a)), map rep_place (ad_Replicas (ai_Deploy a))).
Definition place_part (x : bool * string * limits) (y : Z * string) : list placement :=
  let '(deleted, name, lim) := x in
  if deleted || bool_decide (snd y = "") then []
  else [{| pl_app := name; pl_rep := fst y; pl_host := snd y; pl_limits := lim |}].
Definition apps_place {S} (z : zonelet S) := map (app_place ∘ ke_Value) (ks_arr (zl_apps z)).
Definition placements {S} (z : zonelet S) : list placement := flat place_part (apps_place z).

Definition host_ids {S} (z : zonelet S) : list string := map (h_Id ∘ zh_Host ∘ ke_Value) (ks_arr (zl_hosts z)).
(** Everything the placement reads. *)
Definition place_view {S} (z : zonelet S) := (apps_place z, host_ids z, ks_idx (zl_hosts z), zl_status z).

Lemma app_place_limits a b : app_place a = app_place b -> limits_of (ai_Deploy a) = limits_of (ai_Deploy b).
Proof. intros E. exact (f_equal (fun x => snd (fst x)) E). Qed.

(** What is claimed of a host. *)
Definition claims (id : string) (l : list placement) : list limits :=
  omap (fun p => if bool_decide (pl_host p = id) then Some (pl_limits p) else None) l.
Definition total (f : limits -> Z) (ls : list limits) : Z := foldr (fun l n => f l + n) 0 ls.
Definition cpu_on (id : string) (l : list placement) : Z := total lim_cpu (claims id l).
Definition mem_on (id : string) (l : list placement) : Z := total lim_mem (claims id l).
Definition vol_on (id : string) (l : list placement) : Z := total lim_vol (claims id l).

Lemma total_perm f l1 l2 : l1 ≡ₚ l2 -> total f l1 = total f l2.
Proof. unfold total. induction 1; simpl; lia. Qed.

#[export] Instance claims_proper id : Proper ((≡ₚ) ==> (≡ₚ)) (claims id).
Proof. intros l1 l2 E. unfold claims. by rewrite E. Qed.

(** * The hosts as the scheduler sees them *)

Definition add_limits (l : limits) (h : ScheduleHostItem) : ScheduleHostItem :=
  {| host_Id := host_Id h; host_OpAction := host_OpAction h;
     host_CpuTotal := host_CpuTotal h; host_CpuUsed := host_CpuUsed h;
     host_CpuAlloc := host_CpuAlloc h +64 lim_cpu l;
     host_MemTotal := host_MemTotal h; host_MemUsed := host_MemUsed h;
     host_MemAlloc := host_MemAlloc h +64 lim_mem l;
     host_Volumes := alter (fun v => {| vol_Name := vol_Name v; vol_Total := vol_Total v; vol_Used := vol_Used v;
                                        vol_Alloc := vol_Alloc v +64 lim_vol l |}) 0%nat (host_Volumes h) |}.

(** A host with what is claimed of it. *)
Definition loaded (id : string) (st : HostStatus) (ls : list limits) : ScheduleHostItem :=
  foldl (fun h l => add_limits l h) (sched_item id st) ls.

Definition alloc_placement (h : ScheduleHostItem) (p : placement) : ScheduleHostItem :=
  if bool_decide (host_Id h = pl_host p) then add_limits (pl_limits p) h else h.

Lemma alloc_placements_id ps : forall h, host_Id (foldl alloc_placement h ps) = host_Id h.
Proof.
  induction ps as [|p ps IH]; intros h; simpl; [done|]. rewrite IH. unfold alloc_placement. by case_bool_decide.
Qed.

Lemma alloc_placements ps : forall h,
  foldl alloc_placement h ps = foldl (fun h l => add_limits l h) h (claims (host_Id h) ps).
Proof.
  induction ps as [|p ps IH]; intros h; [done|]. cbn [foldl]. rewrite IH. unfold alloc_placement, claims at 2.
  cbn [omap list_omap]. fold (claims (host_Id h) ps).
  destruct (bool_decide_reflect (host_Id h = pl_host p)) as [E|E].
  - rewrite bool_decide_true by done. done.
  - rewrite bool_decide_false by congruence. done.
Qed.

(** The instance loop adds the placements of the instance to every host. *)
Definition app_placements (a : AppInstance) : list placement :=
  map rep_place (ad_Replicas (ai_Deploy a)) ≫= place_part (false, ai_Name a, limits_of (ai_Deploy a)).

Lemma alloc_app_spec a hosts :
  alloc_app hosts a = map (fun h => foldl alloc_placement h (app_placements a)) hosts.
Proof.
  unfold alloc_app, app_placements. revert hosts.
  induction (ad_Replicas (ai_Deploy a)) as [|rep reps IH]; intros hosts; simpl; [by rewrite map_id|].
  rewrite IH. unfold unplaced. simpl. destruct (bool_decide (dr_HostId rep = "")); simpl.
  - done.
  - unfold alloc_on. rewrite map_map. apply map_ext. intros h. reflexivity.
Qed.

Lemma alloc_apps_spec apps : forall hosts,
  foldl alloc_app hosts apps = map (fun h => foldl alloc_placement h (apps ≫= app_placements)) hosts.
Proof.
  induction apps as [|a apps IH]; intros hosts; simpl; [by rewrite map_id|].
  rewrite IH, alloc_app_spec, map_map. apply map_ext. intros h. by rewrite foldl_app.
Qed.

(** ** The instances that are not deleted *)

Definition entry_deleted (e : KvEntry AppInstance) : bool := is_deleted (ke_Value e).
Fixpoint live_from (k : nat) (arr : list (KvEntry AppInstance)) : list nat :=
  match arr with
  | [] => []
  | e :: arr => if entry_deleted e then live_from (S k) arr else k :: live_from (S k) arr
  end.

Lemma collect_instances_from arr : forall k c,
  co_instances (foldl collect_app c (imap (fun n => pair (k + n)%nat) arr)) = (co_instances c ++ live_from k arr)%list.
Proof.
  induction arr as [|e arr IH]; intros k c; simpl; [by rewrite app_nil_r|].
  assert (E : imap ((fun n => pair (k + n)%nat) ∘ S) arr = imap (fun n => pair (S k + n)%nat) arr)
    by (apply imap_ext; intros; simpl; f_equal; lia).
  rewrite E, IH. rewrite Nat.add_0_r. unfold entry_deleted. simpl. destruct (is_deleted (ke_Value e)); [done|].
  simpl. by rewrite <- app_assoc.
Qed.

Lemma collect_instances (apps : appInstanceSet) : co_instances (collect apps) = live_from 0 (ks_arr apps).
Proof. unfold collect. by rewrite (collect_instances_from (ks_arr apps) 0). Qed.

Lemma live_from_flags arr : forall arr' k, map entry_deleted arr = map entry_deleted arr' ->
  live_from k arr = live_from k arr'.
Proof.
  induction arr as [|e arr IH]; intros [|e' arr'] k; simpl; [done|done|done|]. intros [= E1 E2].
  rewrite E1, (IH arr' (S k) E2). done.
Qed.

Lemma live_values arr : forall k pre, length pre = k ->
  omap (fun i => ke_Value <$> (pre ++ arr)%list !! i) (live_from k arr) ≫= app_placements =
  flat place_part (map (app_place ∘ ke_Value) arr).
Proof.
  induction arr as [|e arr IH]; intros k pre Hk; [done|]. cbn [live_from map]. unfold flat.
  rewrite bind_cons. specialize (IH (S k) (pre ++ [e])%list). rewrite length_app, <- app_assoc in IH.
  simpl app in IH. specialize (IH ltac:(simpl; lia)). fold (flat place_part (map (app_place ∘ ke_Value) arr)).
  rewrite <- IH. unfold entry_deleted. cbn [fst snd compose app_place].
  destruct (is_deleted (ke_Value e)) eqn:Ed.
  - assert (Z : map rep_place (ad_Replicas (ai_Deploy (ke_Value e))) ≫=
      place_part (true, ai_Name (ke_Value e), limits_of (ai_Deploy (ke_Value e))) = []).
    { induction (ad_Replicas _) as [|r rs IHr]; [done|]. simpl. done. }
    by rewrite Z.
  - cbn [omap list_omap]. rewrite lookup_app_r by lia. rewrite Hk, Nat.sub_diag. cbn. done.
Qed.

Section place.
Context `{Ip6Syntax} {S : Type} `{Kv S zone_value} `{MapRange} `{SortSlice}.
Context (cf : zone_config) (now : Z) (draws : nat -> list Z).
Implicit Types z : zonelet S.

(** The list the scheduler gets: the hosts with a report, each with its claims. *)
Definition sched_hosts z : list ScheduleHostItem :=
  omap (fun id => st ← zl_status z !! id; if reported st then Some (loaded id st (claims id (placements z))) else None)
    (host_ids z).

Lemma sched_resources_spec z arr0 : map entry_deleted arr0 = map entry_deleted (ks_arr (zl_apps z)) ->
  sched_resources z (live_from 0 arr0) = sched_hosts z.
Proof.
  intros Hf. unfold sched_resources. rewrite (live_from_flags _ _ 0 Hf), alloc_apps_spec.
  pose proof (live_values (ks_arr (zl_apps z)) 0 [] eq_refl) as E.
  change (omap (app_at z) (live_from 0 (ks_arr (zl_apps z))) ≫= app_placements = placements z) in E. rewrite E. clear E. unfold sched_hosts, host_ids.
  induction (ks_arr (zl_hosts z)) as [|e l IH]; [done|]. simpl. unfold sched_host at 1.
  destruct (zl_status z !! _) as [st|]; simpl; [|exact IH]. destruct (reported st); simpl; [|exact IH].
  f_equal; [|exact IH]. rewrite alloc_placements. done.
Qed.

Lemma sched_hosts_elem z v : v ∈ sched_hosts z -> exists id st, id ∈ host_ids z /\ zl_status z !! id = Some st /\
  reported st = true /\ v = loaded id st (claims id (placements z)).
Proof.
  unfold sched_hosts. rewrite list_elem_of_omap. intros (id & Hid & E).
  destruct (zl_status z !! id) as [st|] eqn:Es; [|done]. simpl in E.
  destruct (reported st) eqn:Er; [|done]. injection E as <-. eauto 10.
Qed.

Lemma loaded_id id st ls : host_Id (loaded id st ls) = id.
Proof.
  assert (G : forall h, host_Id (foldl (fun h l => add_limits l h) h ls) = host_Id h).
  { induction ls as [|l ls IH]; intros h; simpl; [done|]. by rewrite IH. }
  apply G.
Qed.

Lemma sched_hosts_ids z : NoDup (host_ids z) -> NoDup (map host_Id (sched_hosts z)).
Proof.
  intros Hnd. assert (Hs : sublist (map host_Id (sched_hosts z)) (host_ids z)); [|by eapply sublist_NoDup].
  clear Hnd. unfold sched_hosts. induction (host_ids z) as [|id ids IH]; simpl; [constructor|].
  destruct (zl_status z !! id) as [st|]; simpl; [|by constructor].
  destruct (reported st); simpl; [|by constructor]. rewrite loaded_id. by constructor.
Qed.

(** ** Without overflow the claims are the sums *)

Record status_ok (st : HostStatus) : Prop := {
  so_cores : 0 <= hs_CpuCores st < 2 ^ 31; so_cpu : sane (hs_CpuSys st + hs_CpuUser st);
  so_mt : sane (hs_MemTotal st); so_mu : sane (hs_MemUsed st);
  so_disk : 0 <= hs_DiskFreeBytes st <= hs_DiskTotalBytes st; so_dt : sane (hs_DiskTotalBytes st) }.

Definition limits_ok (l : limits) : Prop := 0 <= lim_cpu l /\ 0 <= lim_mem l /\ 0 <= lim_vol l.
Definition total_ok (ls : list limits) : Prop :=
  Forall limits_ok ls /\ total lim_cpu ls < 2 ^ 50 /\ total lim_mem ls < 2 ^ 50 /\ total lim_vol ls < 2 ^ 50.

Lemma total_nonneg (f : limits -> Z) ls : (forall l, limits_ok l -> 0 <= f l) -> Forall limits_ok ls -> 0 <= total f ls.
Proof. intros Hf. induction 1 as [|l ls Hl Hls IH]; simpl; [lia|]. specialize (Hf l Hl). lia. Qed.

(** The host after its claims. *)
Record load_ok (h : ScheduleHostItem) (st : HostStatus) (id : string) (c m v : Z) : Prop := {
  lo_id : host_Id h = id; lo_op : host_OpAction h = [HostSetupStart];
  lo_ct : host_CpuTotal h = 1000 * hs_CpuCores st; lo_cu : host_CpuUsed h = Z.quot (hs_CpuSys st + hs_CpuUser st) 60;
  lo_ca : host_CpuAlloc h = c;
  lo_mt : host_MemTotal h = hs_MemTotal st; lo_mu : host_MemUsed h = hs_MemUsed st; lo_ma : host_MemAlloc h = m;
  lo_vol : host_Volumes h = [{| vol_Name := "default"; vol_Total := hs_DiskTotalBytes st;
                                vol_Used := hs_DiskTotalBytes st - hs_DiskFreeBytes st; vol_Alloc := v |}] }.

Lemma loaded_from ls : forall h st id c m v, load_ok h st id c m v -> Forall limits_ok ls ->
  0 <= c -> 0 <= m -> 0 <= v ->
  c + total lim_cpu ls < 2 ^ 50 -> m + total lim_mem ls < 2 ^ 50 -> v + total lim_vol ls < 2 ^ 50 ->
  load_ok (foldl (fun h l => add_limits l h) h ls) st id
    (c + total lim_cpu ls) (m + total lim_mem ls) (v + total lim_vol ls).
Proof.
  induction ls as [|l ls IH]; intros h st id c m v Hh Hls Hc Hm Hv Tc Tm Tv; simpl in *; [by rewrite !Z.add_0_r|].
  apply Forall_cons in Hls as [(L1 & L2 & L3) Hls].
  pose proof (total_nonneg lim_cpu ls ltac:(intros ? (? & _); lia) Hls).
  pose proof (total_nonneg lim_mem ls ltac:(intros ? (_ & ? & _); lia) Hls).
  pose proof (total_nonneg lim_vol ls ltac:(intros ? (_ & _ & ?); lia) Hls).
  rewrite !Z.add_assoc. apply IH; try done; try lia.
  destruct Hh as [E1 E2 E3 E4 E5 E6 E7 E8 E9]. split; simpl; try done.
  - rewrite E5. go_int.
  - rewrite E8. go_int.
  - rewrite E9. simpl. repeat f_equal. go_int.
Qed.

Lemma loaded_spec id st ls : status_ok st -> total_ok ls ->
  load_ok (loaded id st ls) st id (total lim_cpu ls) (total lim_mem ls) (total lim_vol ls).
Proof.
  intros [C1 C2 C3 C4 C5 C6] (Hl & T1 & T2 & T3). unfold loaded, sane in *.
  apply (loaded_from ls (sched_item id st) st id 0 0 0); try done; try lia.
  split; simpl; try done.
  - go_int.
  - unfold hostCpuUsedMc, Window1Min. f_equal. go_int.
  - repeat f_equal. go_int.
Qed.

Lemma loaded_sane id st ls : status_ok st -> total_ok ls -> sane_host (loaded id st ls).
Proof.
  intros Hs Ht. destruct (loaded_spec id st ls Hs Ht) as [E1 E2 E3 E4 E5 E6 E7 E8 E9].
  destruct Hs as [C1 C2 C3 C4 C5 C6]. destruct Ht as (Hl & T1 & T2 & T3).
  pose proof (total_nonneg lim_cpu ls ltac:(intros ? (? & _); lia) Hl).
  pose proof (total_nonneg lim_mem ls ltac:(intros ? (_ & ? & _); lia) Hl).
  pose proof (total_nonneg lim_vol ls ltac:(intros ? (_ & _ & ?); lia) Hl).
  unfold sane in *. split; unfold sane; rewrite ?E3, ?E4, ?E5, ?E6, ?E7, ?E8, ?E9; try lia.
  - assert (0 <= Z.quot (hs_CpuSys st + hs_CpuUser st) 60 <= hs_CpuSys st + hs_CpuUser st)
      by (rewrite Z.quot_div_nonneg by lia; split; [apply Z.div_pos; lia|apply Z.div_le_upper_bound; lia]). lia.
  - constructor; [|constructor]. split; unfold sane; simpl; done || lia.
Qed.

(** ** Steps that place nothing *)

Lemma view_intro z z' : apps_place z' = apps_place z -> host_ids z' = host_ids z ->
  ks_idx (zl_hosts z') = ks_idx (zl_hosts z) -> zl_status z' = zl_status z -> place_view z' = place_view z.
Proof. unfold place_view. congruence. Qed.

Lemma view_elim z z' : place_view z' = place_view z ->
  apps_place z' = apps_place z /\ host_ids z' = host_ids z /\
  ks_idx (zl_hosts z') = ks_idx (zl_hosts z) /\ zl_status z' = zl_status z.
Proof. unfold place_view. intros E. split_and!; congruence. Qed.

Lemma view_placements z z' : place_view z' = place_view z -> placements z' = placements z.
Proof. intros (E & _)%view_elim. unfold placements. by rewrite E. Qed.

Lemma view_upd_app i f z : (forall a, app_place (f a) = app_place a) -> place_view (upd_app i f z) = place_view z.
Proof. intros Hf. apply view_intro; try done. apply map_alter_same. intros e. apply Hf. Qed.

Lemma view_upd_host i f z : (forall h, h_Id (zh_Host (f h)) = h_Id (zh_Host h)) ->
  place_view (upd_host i f z) = place_view z.
Proof. intros Hf. apply view_intro; try done. apply map_alter_same. intros e. apply Hf. Qed.

Lemma place_alter i j f g z : (forall r, rep_place (f r) = g (rep_place r)) ->
  apps_place (upd_app i (on_replica j f) z) = alter2 i j g (apps_place z).
Proof.
  intros Hf. unfold apps_place, upd_app, alter2. simpl.
  apply (list_fmap_alter (app_place ∘ ke_Value)), Forall_forall. intros e _. unfold app_place. simpl. f_equal.
  apply (list_fmap_alter rep_place), Forall_forall. auto.
Qed.

Lemma view_replica i j f z : (forall r, rep_place (f r) = rep_place r) ->
  place_view (upd_app i (on_replica j f) z) = place_view z.
Proof. intros Hf. apply view_intro; try done. rewrite (place_alter i j f id) by done. apply alter2_id. Qed.

Hint Extern 3 (preserves place_view (modify (upd_app _ (on_replica _ _)))) =>
  apply preserves_modify; intros ?; apply view_replica; done : go.
Hint Extern 4 (preserves place_view (modify (upd_app _ _))) =>
  apply preserves_modify; intros ?; apply view_upd_app; done : go.
Hint Extern 3 (preserves place_view (modify (upd_host _ _))) =>
  apply preserves_modify; intros ?; apply view_upd_host; done : go.

Lemma view_flush_app i : preserves place_view (flush_app (S := S) cf i).
Proof.
  intros z. unfold flush_app, Flush. destruct (ks_arr (zl_apps z) !! i) as [e|] eqn:Ei; [|done].
  destruct (kv_write _ _ _ _) as [s [v| |m]]; [|done|done].
  apply view_intro; try done. by apply (map_insert_same (app_place ∘ ke_Value) _ _ e).
Qed.

Lemma view_flush_host i : preserves place_view (flush_host (S := S) cf i).
Proof.
  intros z. unfold flush_host. destruct (ks_arr (zl_hosts z) !! i) as [e|] eqn:Ei; [|done].
  destruct (kv_write _ _ _ _) as [s [v| |m]]; [|done|done].
  apply view_intro; try done. by apply (map_insert_same (h_Id ∘ zh_Host ∘ ke_Value) _ _ e).
Qed.
Hint Resolve view_flush_app view_flush_host : go.

Lemma view_reconcile i : preserves place_view (schedulerReconcileDeployRevision (S := S) cf now i).
Proof. unfold schedulerReconcileDeployRevision. repeat preserves_step. Qed.

Lemma view_bump i : preserves place_view (schedulerBumpRevision (S := S) i).
Proof.
  unfold schedulerBumpRevision. repeat preserves_step. apply preserves_modify. intros z0.
  apply view_intro; try done. by apply (map_alter_same (app_place ∘ ke_Value)).
Qed.
Hint Resolve view_bump : go.

Lemma view_alloc_port h : preserves place_view (alloc_port (S := S) draws h).
Proof. unfold alloc_port. repeat preserves_step. Qed.
Hint Resolve view_alloc_port : go.

Lemma view_bind_missing h ports : forall setPorts flush,
  preserves place_view (bind_missing (S := S) draws h ports setPorts flush).
Proof.
  induction ports as [|sp ports IH]; intros setPorts flush; cbn [bind_missing]; repeat preserves_step; apply IH.
Qed.
Lemma view_bind_all h ports : forall bound, preserves place_view (bind_all (S := S) draws h ports bound).
Proof.
  induction ports as [|sp ports IH]; intros bound; cbn [bind_all]; repeat preserves_step; apply IH.
Qed.
Lemma view_place_vpc hostId name repId : preserves place_view (place_vpc (S := S) now hostId name repId).
Proof. unfold place_vpc. repeat preserves_step. Qed.
Hint Resolve view_bind_missing view_bind_all view_place_vpc : go.

Lemma view_bind_ports i j : preserves place_view (bind_ports (S := S) cf now draws i j).
Proof. unfold bind_ports. repeat preserves_step. Qed.

Lemma view_bind_vpc i j : preserves place_view (bind_vpc (S := S) cf now i j).
Proof.
  unfold bind_vpc. repeat preserves_step. apply preserves_modify. intros z0.
  by apply (view_replica i j _ (set_net z0 _ _)).
Qed.

Lemma view_bind_instance i : preserves place_view (bind_instance (S := S) cf now draws i).
Proof.
  unfold bind_instance. repeat preserves_step.
  - apply preserves_for_each. intros. apply view_bind_ports.
  - apply preserves_for_each. intros. apply view_bind_vpc.
Qed.

Lemma view_sync hp : preserves place_view (sync_ports (S := S) cf hp).
Proof. destruct hp as [id ports]. unfold sync_ports. repeat preserves_step. Qed.

(** ** The step that places *)

Definition sane_limits (l : limits) : Prop := sane (lim_cpu l) /\ sane (lim_mem l) /\ sane (lim_vol l).

(** The replica [rep] of an instance put on host [id] fits there beside the rest. *)
Definition fits_beside (z : zonelet S) (id : string) (l : limits) : Prop :=
  exists st, zl_status z !! id = Some st /\ id ∈ host_ids z /\
    lim_cpu l + cpu_on id (placements z) <= 3 * (1000 * hs_CpuCores st) /\
    lim_mem l + mem_on id (placements z) <= memCap (hs_MemTotal st) /\
    lim_vol l + vol_on id (placements z) <= hs_DiskTotalBytes st.

(** The outcome of a pass: nothing is placed, or one replica, with limits and on a
    host that satisfy [Q]. *)
Definition placed_one (Q : string -> limits -> Prop) (z z' : zonelet S) : Prop :=
  placements z' ≡ₚ placements z \/
  exists p, placements z' ≡ₚ p :: placements z /\ Q (pl_host p) (pl_limits p).

Definition rep_limits (rep : ScheduleAppReplica) : limits :=
  {| lim_cpu := rep_Cpu rep; lim_mem := rep_Mem rep; lim_vol := rep_Vol rep |}.

Context `{!SortSliceLaws H2}.

Lemma schedule_fits z rep hit :
  (forall id st, zl_status z !! id = Some st -> status_ok st) ->
  (forall id, total_ok (claims id (placements z))) -> NoDup (host_ids z) -> sane_rep rep ->
  sched_hosts z <> [] ->
  snd (ScheduleHost (Some rep) (sched_hosts z) None) = Ok hit ->
  fits_beside z (hit_HostId hit) (rep_limits rep).
Proof.
  intros Hst Hcl Hnd Hr Hne Eh.
  pose proof (schedule_host_post rep (sched_hosts z) None Hr) as P.
  assert (Hsane : Forall sane_host (sched_hosts z)).
  { apply Forall_forall. intros v (id & st & _ & Es & _ & ->)%sched_hosts_elem. apply loaded_sane; eauto. }
  specialize (P Hsane (sched_hosts_ids z Hnd) Hne). cbv zeta in P. rewrite Eh in P.
  destruct P as (v & Hv & -> & _ & (_ & _ & Fc & Fm & Fv) & _).
  apply sched_hosts_elem in Hv as (id & st & Hid & Es & _ & ->).
  pose proof (loaded_spec id st (claims id (placements z)) (Hst id st Es) (Hcl id)) as [E1 E2 E3 E4 E5 E6 E7 E8 E9].
  rewrite loaded_id. exists st. unfold cpu_taken, mem_taken in *. rewrite E3, E4, E5 in Fc. rewrite E6, E7, E8 in Fm.
  rewrite E9 in Fv. apply Exists_exists in Fv as (w & ->%list_elem_of_singleton & Fv).
  unfold has_room, vol_taken in Fv. simpl in *. unfold cpu_on, mem_on, vol_on. split_and!; [done|done|lia|lia|lia].
Qed.

Lemma app_at_place z i a : app_at z i = Some a -> apps_place z !! i = Some (app_place a).
Proof. unfold app_at, apps_place. rewrite list_lookup_fmap. destruct (_ !! i); [|done]. by intros [= <-]. Qed.

(** A replica gets its host. *)
Lemma set_host_placements i j id z a rep : app_at z i = Some a -> ad_Replicas (ai_Deploy a) !! j = Some rep ->
  dr_HostId rep = "" ->
  let z' := upd_app i (on_replica j (set_HostId id)) z in
  placements z' ≡ₚ placements z \/
  placements z' ≡ₚ {| pl_app := ai_Name a; pl_rep := dr_Id rep; pl_host := id; pl_limits := limits_of (ai_Deploy a) |}
                    :: placements z.
Proof.
  intros Ea Er Eu z'. pose proof (app_at_place _ _ _ Ea) as Ep.
  assert (Ey : map rep_place (ad_Replicas (ai_Deploy a)) !! j = Some (dr_Id rep, "")).
  { rewrite list_lookup_fmap, Er. simpl. unfold rep_place. by rewrite Eu. }
  destruct (flat_split place_part (apps_place z) i j _ _ _ Ep Ey) as (B1 & B2 & E & E').
  unfold placements, z'. rewrite (place_alter i j _ (fun y => (fst y, id))) by done. rewrite E, E'.
  unfold place_part. destruct (is_deleted a); simpl; [by left|].
  case_bool_decide; simpl; [by left|right]. by rewrite Permutation_middle.
Qed.

Lemma assign_view i j h hostId rep a rev z :
  place_view (fst (assign cf now draws i j h hostId rep a rev z)) =
  place_view (upd_app i (on_replica j (set_HostId hostId)) z).
Proof.
  unfold assign. rewrite modify_unfold.
  match goal with |- place_view (fst (?m _)) = _ => enough (Hm : preserves place_view m) by apply Hm end.
  cbv beta. repeat preserves_step.
Qed.

Lemma fill_placements i z : placements (upd_app i (on_deploy fill_replicas) z) ≡ₚ placements z.
Proof.
  unfold placements. destruct (app_at z i) as [a|] eqn:Ea.
  2:{ unfold apps_place. by rewrite (map_upd_none app_place). }
  pose proof (app_at_place _ _ _ Ea) as Ev.
  pose proof (map_upd_app app_place i (on_deploy fill_replicas) z a Ea) as Eu. fold (apps_place z) in Eu.
  fold (apps_place (upd_app i (on_deploy fill_replicas) z)) in Eu.
  rewrite Eu. unfold flat. rewrite (proj2 (alter_split _ i _ _ Ev)). rewrite (proj1 (alter_split id i _ _ Ev)) at 3.
  rewrite !bind_app, !bind_cons. do 2 f_equiv. unfold app_place. cbn [fst snd].
  change (is_deleted (on_deploy fill_replicas a)) with (is_deleted a).
  change (ai_Name (on_deploy fill_replicas a)) with (ai_Name a).
  change (limits_of (ai_Deploy (on_deploy fill_replicas a))) with (limits_of (ai_Deploy a)).
  unfold fill_replicas, on_deploy. cbn [ai_Deploy ad_Replicas with_replicas]. rewrite map_app, bind_app.
  assert (E0 : forall ids x, map rep_place (map new_replica_at ids) ≫= place_part x = []).
  { intros ids [[d n] l]. induction ids; simpl; [done|]. by rewrite orb_true_r. }
  rewrite E0, app_nil_r. f_equiv. f_equiv. apply sort_slice_perm.
Qed.

Lemma placed_one_view Q z0 z z' : place_view z = place_view z0 -> placements z' ≡ₚ placements z -> placed_one Q z0 z'.
Proof. intros E%view_placements Hp. left. by rewrite Hp, E. Qed.

(** Placing a replica of the instance at [i], from a state with the view of [z0]. *)
Lemma place_one Q z0 i hosts z z' r :
  (forall a rep hit, app_at z i = Some a -> rep_limits rep = limits_of (ai_Deploy a) ->
     snd (ScheduleHost (Some rep) hosts None) = Ok hit -> Q (hit_HostId hit) (rep_limits rep)) ->
  place_view z = place_view z0 -> place cf now draws i hosts z = (z', r) -> placed_one Q z0 z'.
Proof.
  intros Hs Ev E. unfold place in E. rewrite modify_unfold, get_unfold in E.
  set (z1 := upd_app i _ z) in E. pose proof (fill_placements i z) as Hf. fold z1 in Hf.
  assert (H01 : placements z1 ≡ₚ placements z0) by (by rewrite Hf, (view_placements z0 z)).
  destruct (app_at z1 i) as [a|] eqn:Ea; [|injection E as <- <-; by left].
  assert (Hla : exists a0, app_at z i = Some a0 /\ limits_of (ai_Deploy a) = limits_of (ai_Deploy a0)).
  { unfold z1, app_at, upd_app in Ea. simpl in Ea. rewrite list_lookup_alter_eq in Ea. unfold app_at.
    destruct (_ !! i) as [e|]; [|done]. injection Ea as <-. by exists (ke_Value e). }
  destruct (list_find _ _) as [[j rep]|] eqn:Ej; [|injection E as <- <-; by left].
  apply list_find_bool in Ej as [Er Eun]. unfold unplaced in Eun. apply bool_decide_eq_true in Eun.
  unfold place_replica in E. cbv zeta in E. rewrite modify_unfold in E. set (z2 := upd_app i _ z1) in E.
  assert (E2 : place_view z2 = place_view z1) by (by apply view_upd_app).
  set (srep := {| rep_RepId := _ |}) in E. destruct (snd (ScheduleHost (Some srep) hosts None)) as [hit|e] eqn:Eh.
  2:{ left. rewrite <- H01, (view_placements z1 z'); [done|]. rewrite <- E2.
      match type of E with ?m z2 = _ => assert (Hm : preserves place_view m) by (repeat preserves_step) end.
      specialize (Hm z2). by rewrite E in Hm. }
  rewrite modify_unfold, get_unfold in E. set (z3 := upd_app i _ z2) in E.
  assert (E3 : place_view z3 = place_view z1) by (rewrite <- E2; by apply view_upd_app).
  destruct (KvSet_ref (zl_hosts z3) (hit_HostId hit)) as [h|];
    [|injection E as <- <-; left; by rewrite (view_placements z1 z3)].
  pose proof (assign_view i j h (hit_HostId hit) rep a (ad_Revision (ai_Deploy a)) z3) as Va. rewrite E in Va.
  cbn [fst] in Va. pose proof (view_placements _ _ Va) as Pa.
  assert (Ea3 : exists a3, app_at z3 i = Some a3 /\ ai_Name a3 = ai_Name a /\
    limits_of (ai_Deploy a3) = limits_of (ai_Deploy a) /\ ad_Replicas (ai_Deploy a3) = ad_Replicas (ai_Deploy a)).
  { unfold z3, z2, app_at, upd_app in Ea |- *. simpl in Ea |- *. rewrite !list_lookup_alter_eq. simpl.
    rewrite list_lookup_alter_eq in Ea. destruct (_ !! i) as [e|]; [|done]. injection Ea as <-. simpl. eauto. }
  destruct Ea3 as (a3 & Ea3 & En & Elim & Ereps).
  destruct (set_host_placements i j (hit_HostId hit) z3 a3 rep Ea3) as [Hp|Hp]; [by rewrite Ereps|done| |].
  - left. by rewrite Pa, Hp, (view_placements z1 z3).
  - right. eexists. rewrite Pa, Hp, (view_placements z1 z3), H01 by done. split; [reflexivity|]. cbn [pl_host pl_limits].
    rewrite Elim. destruct Hla as (a0 & Ea0 & El0). by apply (Hs a0 srep).
Qed.

(** What the scheduler answers decides what a pass can place. *)
Lemma pass_places Q z z' r :
  (forall i a rep hit, co_active (collect (zl_apps z)) = Some i -> apps_place z !! i = Some (app_place a) ->
     rep_limits rep = limits_of (ai_Deploy a) -> sched_hosts z <> [] ->
     snd (ScheduleHost (Some rep) (sched_hosts z) None) = Ok hit -> Q (hit_HostId hit) (rep_limits rep)) ->
  schedule_pass cf now draws z = (z', r) -> placed_one Q z z'.
Proof.
  intros HQ E. unfold schedule_pass in E. rewrite get_unfold in E. cbv zeta in E.
  assert (Hsame : forall y, place_view y = place_view z -> placed_one Q z y)
    by (intros y Ey; by apply (placed_one_view Q z y)).
  apply (preserves_split place_view) in E as [?|([] & z1 & V1 & E)];
    [by apply Hsame| |apply preserves_for_each; intros; apply view_sync].
  apply (preserves_split place_view) in E as [V|([] & z2 & V2 & E)];
    [apply Hsame; congruence| |apply preserves_for_each; intros; apply view_reconcile].
  apply (preserves_split place_view) in E as [V|([] & z3 & V3 & E)];
    [apply Hsame; congruence| |apply preserves_for_each; intros; apply view_bind_instance].
  rewrite get_unfold in E. destruct (_ && _); [injection E as <- <-; apply Hsame; congruence|].
  rewrite modify_unfold, get_unfold in E. set (z4 := set_zhosts z3 _) in E.
  assert (V4 : place_view z4 = place_view z).
  { rewrite <- V1, <- V2, <- V3. apply view_intro; try done. unfold host_ids. simpl. rewrite map_map.
    apply map_ext. intros e. simpl. unfold with_status. by destruct (zl_status z3 !! _). }
  pose proof (view_elim _ _ V4) as (Va & Vi & _ & Vs).
  assert (Vh : sched_hosts z4 = sched_hosts z) by (unfold sched_hosts; by rewrite Vi, Vs, (view_placements z z4)).
  rewrite collect_instances, (sched_resources_spec z4), Vh in E.
  2:{ assert (G : forall (y : zonelet S), map entry_deleted (ks_arr (zl_apps y)) = map (fst ∘ fst ∘ fst) (apps_place y)).
      { intros y. unfold apps_place. rewrite map_map. by apply map_ext. }
      by rewrite !G, Va. }
  destruct (sched_hosts z) as [|s0 l] eqn:Eh; [injection E as <- <-; by apply Hsame|]. rewrite <- Eh in E, HQ.
  rewrite modify_unfold in E. set (z5 := set_operate z4 _) in E.
  destruct (co_active (collect (zl_apps z))) as [i|] eqn:Eac; [|injection E as <- <-; by apply Hsame].
  eapply (place_one Q z i (sched_hosts z) z5); [|done|exact E].
  intros a rep hit Ea El Ehit. apply (HQ i a rep hit); [done| |done|by rewrite Eh|done].
  rewrite <- Va. exact (app_at_place z5 i a Ea).
Qed.

Lemma placements_limits z p : p ∈ placements z -> exists i a, app_at z i = Some a /\ pl_limits p = limits_of (ai_Deploy a).
Proof.
  unfold placements, flat. rewrite list_elem_of_bind. intros ([[[d n] l] ys] & Hp & Hx).
  apply list_elem_of_lookup in Hx as [i Hi]. unfold apps_place in Hi. rewrite list_lookup_fmap in Hi.
  exists i. unfold app_at. destruct (ks_arr (zl_apps z) !! i) as [e|]; [|done]. exists (ke_Value e). split; [done|].
  apply (f_equal (fmap (fun x => snd (fst x)))) in Hi.
  change (Some (limits_of (ai_Deploy (ke_Value e))) = Some l) in Hi. injection Hi as ->.
  apply list_elem_of_bind in Hp as (y & Hy & _). unfold place_part in Hy. simpl in Hy.
  destruct (d || _); [by apply not_elem_of_nil in Hy|]. by apply list_elem_of_singleton in Hy as ->.
Qed.

Lemma claims_ok id l : (forall p, p ∈ l -> limits_ok (pl_limits p)) -> Forall limits_ok (claims id l).
Proof.
  intros Hl. apply Forall_forall. intros x. unfold claims. rewrite list_elem_of_omap. intros (p & Hp & E).
  case_bool_decide; [|done]. injection E as <-. by apply Hl.
Qed.

(** C2: a pass places at most one replica and moves none.  Whatever it returns, the
    placed replicas after it are those before it, or one more; and the host of the
    new one has reported its resources, and has room for it: with every limit
    already claimed of that host added to the new one, three times its CPU, the
    over-allocated memory and the disk are not exceeded. *)
Theorem pass_places_within_capacity z z' r :
  (forall id st, zl_status z !! id = Some st -> status_ok st) ->
  (forall i a, app_at z i = Some a -> sane_limits (limits_of (ai_Deploy a))) ->
  (forall id, cpu_on id (placements z) < 2 ^ 50 /\ mem_on id (placements z) < 2 ^ 50 /\
              vol_on id (placements z) < 2 ^ 50) ->
  NoDup (host_ids z) ->
  schedule_pass cf now draws z = (z', r) ->
  placed_one (fits_beside z) z z'.
Proof.
  intros Hst Hlim Htot Hnd. apply pass_places. intros i a rep hit _ Ea El Hne Eh.
  apply schedule_fits; [done| |done| |done|done].
  - intros id. split; [|apply Htot].
    apply claims_ok. intros p Hp. destruct (placements_limits _ _ Hp) as (k & b & Eb & ->).
    destruct (Hlim k b Eb) as ([? _] & [? _] & [? _]). done.
  - assert (Hl : sane_limits (rep_limits rep)).
    { rewrite El. unfold apps_place in Ea. rewrite list_lookup_fmap in Ea.
      destruct (ks_arr (zl_apps z) !! i) as [e|] eqn:Ei; [|done].
      assert (Ea' : app_place (ke_Value e) = app_place a) by (apply Some_inj; exact Ea).
      rewrite <- (app_place_limits _ _ Ea'). apply (Hlim i). unfold app_at. by rewrite Ei. }
    destruct Hl as (? & ? & ?). by split.
Qed.

(** an instance that fits nowhere blocks every other.  When no host has room for
    the first instance that wants a replica, a pass places nothing, whatever other
    instances want and whatever would fit. *)
Theorem unschedulable_instance_blocks z z' r i a :
  co_active (collect (zl_apps z)) = Some i -> app_at z i = Some a ->
  (forall rep, rep_limits rep = limits_of (ai_Deploy a) ->
     forall v, v ∈ sched_hosts z -> snd (fitHost rep [] v) = None) ->
  schedule_pass cf now draws z = (z', r) ->
  placements z' ≡ₚ placements z.
Proof.
  intros Eac Ea Hno E. apply (pass_places (fun _ _ => False)) in E as [E|(p & _ & [])]; [done|].
  intros i' a' rep hit Ei' Ea' El Hne Eh. assert (i' = i) as -> by congruence.
  apply app_at_place in Ea. rewrite Ea in Ea'.
  rewrite <- (app_place_limits a a') in El by (by apply Some_inj). specialize (Hno rep El). revert Eh. unfold ScheduleHost.
  destruct (Nat.ltb _ _); [done|]. unfold findHostListThatFit. cbn [snd].
  assert (E0 : omap snd (map (fitHost rep []) (sched_hosts z)) = []).
  { clear Hne. revert Hno. generalize (sched_hosts z). intros vs Hno.
    induction vs as [|v vs IH]; [done|]. simpl. rewrite Hno by set_solver.
    apply IH. intros w Hw. apply Hno. set_solver. }
  by rewrite E0.
Qed.
End place.

(** ** Witnesses *)

Section witness.
Local Existing Instance no_ip6.

Lemma ex_placements : placements ex_loaded =
  [{| pl_app := "db"; pl_rep := 0; pl_host := "h1"; pl_limits := {| lim_cpu := 1000; lim_mem := 1024; lim_vol := 100 |} |}].
Proof. reflexivity. Qed.

Example ex_placed : map pl_app (placements (fst ex_after)) = ["db"; "web"].
Proof. vm_compute. reflexivity. Qed.

Lemma ex_status_ok id st : zl_status ex_loaded !! id = Some st -> status_ok st.
Proof.
  intros E. change (({[ "h1" := ex_status ]} : gmap string HostStatus) !! id = Some st) in E.
  apply lookup_singleton_Some in E as [_ <-]. split; unfold sane; simpl; lia.
Qed.

Lemma ex_limits i a : app_at ex_loaded i = Some a -> sane_limits (limits_of (ai_Deploy a)).
Proof.
  destruct i as [|[|[|i]]]; intros [= <-]; unfold sane_limits, sane; simpl; lia.
Qed.

Lemma ex_totals id : cpu_on id (placements ex_loaded) < 2 ^ 50 /\ mem_on id (placements ex_loaded) < 2 ^ 50 /\
  vol_on id (placements ex_loaded) < 2 ^ 50.
Proof.
  rewrite ex_placements. unfold cpu_on, mem_on, vol_on, claims, total. simpl.
  destruct (bool_decide _); simpl; lia.
Qed.

Lemma pass_places_within_capacity_witness : placed_one (fits_beside ex_loaded) ex_loaded (fst ex_after).
Proof.
  apply (pass_places_within_capacity ex_config 5000000 ex_draws ex_loaded (fst ex_after) (snd ex_after)).
  - exact ex_status_ok.
  - exact ex_limits.
  - exact ex_totals.
  - apply NoDup_singleton.
  - apply surjective_pairing.
Defined.

(** An instance too big for the host comes before one that would fit. *)
Definition ex_big : AppInstance :=
  on_deploy (fun d => {| ad_Action := ad_Action d; ad_Stage := ad_Stage d; ad_CpuLimit := 100000;
    ad_MemoryLimit := ad_MemoryLimit d; ad_VolumeLimit := ad_VolumeLimit d; ad_ReplicaCap := ad_ReplicaCap d;
    ad_Replicas := ad_Replicas d; ad_Depends := ad_Depends d; ad_Configs := ad_Configs d |}) (ex_app "big" "start" 1 []).
Definition ex_blocked : zonelet (mem_store zone_value) :=
  set_apps ex_loaded
    {| ks_idx := {[ "big" := 0%nat; "web" := 1%nat ]};
       ks_arr := [Entry (Some 4) ex_big; Entry (Some 6) (ex_app "web" "start" 1 [])];
       ks_version := 6; ks_ready := true |}.
Definition ex_blocked_after := schedule_pass ex_config 5000000 ex_draws ex_blocked.

Lemma ex_blocked_hosts : sched_hosts ex_blocked = [loaded "h1" ex_status []].
Proof. vm_compute. reflexivity. Qed.

Lemma unschedulable_instance_blocks_witness : placements (fst ex_blocked_after) ≡ₚ placements ex_blocked.
Proof.
  apply (unschedulable_instance_blocks ex_config 5000000 ex_draws ex_blocked (fst ex_blocked_after)
    (snd ex_blocked_after) 0%nat ex_big).
  - vm_compute. reflexivity.
  - reflexivity.
  - intros rep El v Hv. rewrite ex_blocked_hosts in Hv. apply list_elem_of_singleton in Hv as ->.
    assert (Ec : rep_Cpu rep = 100000) by exact (f_equal lim_cpu El).
    unfold fitHost. destruct (_ || _); [done|]. destruct (bool_decide _); [done|].
    unfold resource_over. rewrite Ec. reflexivity.
  - apply surjective_pairing.
Defined.
End witness.
