(* ===== verification/RefreshDeleted.v ===== *)
(** Deleted instances in a scheduler pass ([Refresh]): a pass neither changes nor
    writes them, so the time to live that the deletion gave their record stays. *)
From Stdlib Require Import ZArith Lia.
From S2P Require Import Prelude GoStrings GoFloat Inet Ns Kv Ipam Stage StateFlow Scheduler HostPort Zone Refresh RefreshLogic RefreshPlace.
Local Open Scope string_scope.
Local Open Scope Z_scope.

Section frame.
Context {S : Type} `{KvLaws S zone_value}.

(** A write leaves the other keys as they are, whatever it answers. *)
Lemma write_other s o k (v : zone_value) s' r k' : kv_write s o k v = (s', r) -> k' <> k ->
  kv_read s' k' = kv_read s k'.
Proof.
  intros Hw Hk. destruct r as [n| |m].
  - destruct (kv_write_ok _ _ _ _ _ _ Hw) as (_ & F & _). by apply F.
  - by eapply kv_write_fail.
  - by eapply kv_write_fail.
Qed.
End frame.

(** The record of an instance is not the record of a host or the network map. *)
Lemma app_key_host z n z' h : NsAppInstance z n <> NsHostInfo z' h.
Proof. discriminate. Qed.
Lemma app_key_ipam z n z' : NsAppInstance z n <> NsZoneletNetworkIPAM z'.
Proof. discriminate. Qed.
Lemma app_key_inj z n n' : NsAppInstance z n = NsAppInstance z n' -> n = n'.
Proof. unfold NsAppInstance. by intros ?%(inj (String.append _))%(inj (String.append _))%(inj (String.append _))%(inj (String.append _)). Qed.

(** ** Loops over chosen elements *)

Lemma keeps_for_each_in {S A} (I : zonelet S -> Prop) (l : list A) body :
  (forall x, x ∈ l -> keeps I (body x)) -> keeps I (for_each l body).
Proof.
  induction l as [|x l IH]; intros Hb; [apply keeps_skip|].
  apply keeps_bind; [apply Hb; set_solver|intros _]. apply IH. intros y Hy. apply Hb. set_solver.
Qed.

Lemma live_from_elem arr : forall k i, i ∈ live_from k arr ->
  exists e, arr !! (i - k)%nat = Some e /\ entry_deleted e = false /\ (k <= i)%nat.
Proof.
  induction arr as [|e arr IH]; intros k i; simpl; [intros []%not_elem_of_nil|].
  assert (Hr : i ∈ live_from (S k) arr ->
    exists e0, (e :: arr) !! (i - k)%nat = Some e0 /\ entry_deleted e0 = false /\ (k <= i)%nat).
  { intros (e0 & E & Hd & Hle)%IH. exists e0. replace (i - k)%nat with (S (i - S k)) by lia. simpl. split_and!; [done|done|lia]. }
  destruct (entry_deleted e) eqn:Ed; [exact Hr|]. intros [->|Hi]%elem_of_cons; [|by apply Hr].
  exists e. rewrite Nat.sub_diag. done.
Qed.

Lemma active_from es : forall c i, co_active (foldl collect_app c es) = Some i ->
  (forall j, co_active c = Some j -> j ∈ co_instances c) ->
  i ∈ co_instances (foldl collect_app c es).
Proof.
  induction es as [|[k e] es IH]; intros c i E Hc; simpl in *; [by apply Hc|].
  apply IH; [done|]. intros j. destruct (is_deleted (ke_Value e)); simpl; [by apply Hc|].
  destruct (co_active c) as [j0|] eqn:Ej.
  - intros [= <-]. apply elem_of_app. left. by apply Hc.
  - destruct (wants_replica _); [|done]. intros [= <-]. apply elem_of_app. right. by apply list_elem_of_singleton.
Qed.

Lemma active_live (apps : appInstanceSet) i : co_active (collect apps) = Some i -> i ∈ co_instances (collect apps).
Proof. intros E. by apply (active_from _ _ i E). Qed.

Section deleted.
Context `{Ip6Syntax} {S : Type} `{KvLaws S zone_value} `{MapRange} `{SortSlice}.
Context (cf : zone_config) (now : Z) (draws : nat -> list Z).
Implicit Types z : zonelet S.

(** The entry at [i], the names of the set, and the record under the key. *)
Definition deleted_view (i : nat) (key : string) z :=
  (ks_arr (zl_apps z) !! i, map (ai_Name ∘ ke_Value) (ks_arr (zl_apps z)), kv_read (V := zone_value) (zl_kv z) key).

Lemma flush_frame (s : S) t nm (s' : S) nm' r key : Ipam.flush s t nm = (s', nm', r) ->
  (forall zn, key <> NsZoneletNetworkIPAM zn) -> kv_read (V := zone_value) s' key = kv_read s key.
Proof.
  intros E Hk. unfold Ipam.flush in E. destruct (kv_write _ _ _ _) as [s1 rs] eqn:Ew.
  assert (s' = s1) as -> by (destruct rs; congruence). eapply write_other; [exact Ew|apply Hk].
Qed.

Lemma Alloc_frame (s : S) t nm hid name rep (s' : S) nm' ip key : AllocHostSubNetwork s t nm hid name rep = (s', nm', ip) ->
  (forall zn, key <> NsZoneletNetworkIPAM zn) -> kv_read (V := zone_value) s' key = kv_read s key.
Proof.
  intros E Hk. unfold AllocHostSubNetwork in E. destruct (negb (nm_ready nm)); [congruence|].
  destruct (nm_Map nm) as [m|]; [|congruence]. destruct (HostNetwork nm hid) as [host|]; [|congruence].
  cbv zeta in E. destruct (ownedOctet _ _ _); [congruence|]. destruct (freeOctet _ _); [|congruence].
  destruct (Ipam.flush _ _ _) as [[s1 nm1] r] eqn:Ef. assert (s' = s1) as -> by (destruct r; congruence).
  by eapply flush_frame.
Qed.

(** ** Steps that do not touch the entry at [d] *)

Context (d : nat) (zone dname : string).
Let key := NsAppInstance zone dname.
Let view := deleted_view d key.
Context (e : KvEntry AppInstance) (names : list string) (record : kv_reply (kv_item zone_value)).
Hypothesis unique : forall j n, names !! j = Some n -> j <> d -> n <> dname.
Hypothesis zone_cf : zc_ZoneName cf = zone.
Let I z : Prop := view z = (Some e, names, record).

Lemma view_eq z z' : ks_arr (zl_apps z') !! d = ks_arr (zl_apps z) !! d ->
  map (ai_Name ∘ ke_Value) (ks_arr (zl_apps z')) = map (ai_Name ∘ ke_Value) (ks_arr (zl_apps z)) ->
  kv_read (V := zone_value) (zl_kv z') key = kv_read (zl_kv z) key -> view z' = view z.
Proof. unfold view, deleted_view. congruence. Qed.

Lemma key_ipam zn : key <> NsZoneletNetworkIPAM zn.
Proof. apply app_key_ipam. Qed.

Lemma quietly {A} (m : pass S A) : preserves view m -> keeps I m.
Proof. apply preserves_keeps. unfold I. congruence. Qed.

Lemma upd_other j f z : j <> d -> (forall a, ai_Name (f a) = ai_Name a) -> view (upd_app j f z) = view z.
Proof.
  intros Hj Hf. apply view_eq; [| |done].
  - unfold upd_app. simpl. by rewrite list_lookup_alter_ne.
  - apply map_alter_same. intros x. apply Hf.
Qed.
Lemma keeps_upd j f : j <> d -> (forall a, ai_Name (f a) = ai_Name a) -> keeps I (modify (upd_app j f)).
Proof. intros Hj Hf. apply quietly, preserves_modify. intros z. by apply upd_other. Qed.

Lemma keeps_flush_app j : j <> d -> keeps I (flush_app cf j).
Proof.
  intros Hj z Hz. unfold flush_app, Flush. destruct (ks_arr (zl_apps z) !! j) as [x|] eqn:Ej; [|done].
  assert (Hn : ai_Name (ke_Value x) <> dname).
  { apply (unique j); [|done]. unfold I, view, deleted_view in Hz. injection Hz as _ <- _.
    by rewrite list_lookup_fmap, Ej. }
  destruct (kv_write _ _ _ _) as [s rs] eqn:Ew.
  assert (Er : kv_read (V := zone_value) s key = kv_read (zl_kv z) key).
  { eapply write_other; [exact Ew|]. rewrite zone_cf. unfold key. intros E%app_key_inj. done. }
  assert (G : forall z', ks_arr (zl_apps z') !! d = ks_arr (zl_apps z) !! d ->
    map (ai_Name ∘ ke_Value) (ks_arr (zl_apps z')) = map (ai_Name ∘ ke_Value) (ks_arr (zl_apps z)) ->
    zl_kv z' = s -> I z').
  { intros z' G1 G2 G3. unfold I. rewrite <- Hz. apply view_eq; [done|done|]. by rewrite G3. }
  destruct rs as [v| |m]; apply G; try done; simpl.
  - by rewrite list_lookup_insert_ne.
  - by apply (map_insert_same (ai_Name ∘ ke_Value) _ _ x).
Qed.

Lemma quiet_host h : preserves view (flush_host cf h).
Proof.
  intros z. unfold flush_host. destruct (ks_arr (zl_hosts z) !! h) as [x|]; [|done].
  destruct (kv_write _ _ _ _) as [s rs] eqn:Ew.
  assert (Er : kv_read (V := zone_value) s key = kv_read (zl_kv z) key) by (eapply write_other; [exact Ew|apply app_key_host]).
  destruct rs; by apply view_eq.
Qed.

Hint Resolve quiet_host : go.

Ltac keeps_step :=
  lazymatch goal with
  | |- keeps _ (get ≫= _) => apply keeps_get; intros ? ?; apply keeps_use; [|assumption]
  | |- keeps _ (_ ≫= _) => apply keeps_bind; [|intros ?]
  | |- keeps _ (logged _) => apply keeps_logged
  | |- keeps _ (match ?x with _ => _ end) => destruct x
  | |- keeps _ (modify (upd_app _ _)) => apply keeps_upd; [assumption|done]
  | |- keeps _ (flush_app _ _) => apply keeps_flush_app; assumption
  | |- keeps _ _ => first [solve [auto with go] | apply quietly; solve [repeat preserves_step]]
  end.

Lemma reconcile_other j : j <> d -> keeps I (schedulerReconcileDeployRevision cf now j).
Proof. intros Hj. unfold schedulerReconcileDeployRevision. repeat keeps_step. Qed.

Lemma bump_other j : j <> d -> keeps I (schedulerBumpRevision j).
Proof.
  intros Hj. unfold schedulerBumpRevision. repeat keeps_step. apply quietly, preserves_modify. intros z0.
  by apply (upd_other j).
Qed.
Hint Resolve bump_other : go.
Lemma alloc_other h : preserves view (alloc_port draws h).
Proof. unfold alloc_port. repeat preserves_step. Qed.
Hint Resolve alloc_other : go.
Lemma missing_other h ports : forall sp fl, preserves view (bind_missing draws h ports sp fl).
Proof. induction ports; intros sp fl; cbn [bind_missing]; repeat preserves_step; auto. Qed.
Lemma all_other h ports : forall b, preserves view (bind_all draws h ports b).
Proof. induction ports; intros b; cbn [bind_all]; repeat preserves_step; auto. Qed.
Hint Resolve missing_other all_other : go.

Lemma bind_ports_other j k : j <> d -> keeps I (bind_ports cf now draws j k).
Proof. intros Hj. unfold bind_ports. repeat keeps_step. Qed.

Lemma set_net_keeps z z1 s nm : I z -> I z1 -> zl_kv z1 = zl_kv z ->
  kv_read (V := zone_value) s key = kv_read (zl_kv z) key -> I (set_net z1 s nm).
Proof.
  intros Hz Hz1 Ek Er. unfold I. rewrite <- Hz1. apply view_eq; [done|done|]. simpl. by rewrite Er, Ek.
Qed.

Lemma bind_vpc_other j k : j <> d -> keeps I (bind_vpc cf now j k).
Proof.
  intros Hj. unfold bind_vpc. apply keeps_get. intros z Hz.
  destruct (app_at z j) as [a|]; [|done]. destruct (ad_Replicas (ai_Deploy a) !! k) as [rep|]; [|done].
  destruct (unplaced rep); [done|]. cbv zeta. destruct (_ && _ && _); [done|].
  set (clear := if bool_decide _ then _ else _).
  assert (Hc : exists z1, clear z = (z1, Ok tt) /\ I z1 /\ zl_kv z1 = zl_kv z).
  { unfold clear. destruct (bool_decide _); [|by exists z].
    eexists. split_and!; [reflexivity| |done]. unfold I. rewrite upd_other; done. }
  destruct Hc as (z1 & Ec & Hz1 & Ek). rewrite bind_unfold, Ec.
  destruct (HostNetwork (zl_net z) (dr_HostId rep)); [|done].
  destruct (AllocHostSubNetwork _ _ _ _ _ _) as [[s nm] ip] eqn:Ea. rewrite modify_unfold.
  apply (Alloc_frame _ _ _ _ _ _ _ _ _ key) in Ea; [|apply key_ipam].
  assert (H2' : I (upd_app j (on_replica k (set_VpcIpv4 ip)) (set_net z1 s nm))).
  { unfold I. rewrite upd_other by done. by apply (set_net_keeps z). }
  eapply keeps_use; [|exact H2']. cbv beta. repeat keeps_step.
Qed.

Lemma bind_instance_other j : j <> d -> keeps I (bind_instance cf now draws j).
Proof.
  intros Hj. unfold bind_instance. repeat keeps_step; apply keeps_for_each; intros;
    [by apply bind_ports_other|by apply bind_vpc_other].
Qed.

Lemma place_vpc_other hostId name repId : keeps I (place_vpc now hostId name repId).
Proof.
  unfold place_vpc. apply keeps_get. intros z Hz. destruct (negb _); [done|]. destruct (HostNetwork _ _); [|done].
  destruct (AllocHostSubNetwork _ _ _ _ _ _) as [[s nm] ip] eqn:Ea. rewrite modify_unfold.
  apply (Alloc_frame _ _ _ _ _ _ _ _ _ key) in Ea; [|apply key_ipam]. by apply (set_net_keeps z).
Qed.
Hint Resolve place_vpc_other : go.

Lemma assign_other j k h hostId rep a rev : j <> d -> keeps I (assign cf now draws j k h hostId rep a rev).
Proof. intros Hj. unfold assign. repeat keeps_step. Qed.
Hint Resolve assign_other : go.

Lemma place_other j hosts : j <> d -> keeps I (place cf now draws j hosts).
Proof. intros Hj. unfold place, place_replica. repeat keeps_step. Qed.

Lemma sync_other hp : preserves view (sync_ports cf hp).
Proof. destruct hp as [id ports]. unfold sync_ports. repeat preserves_step. Qed.

Lemma pass_other z z' r : I z -> is_deleted (ke_Value e) = true -> schedule_pass cf now draws z = (z', r) -> I z'.
Proof.
  intros Hz Hd E. unfold schedule_pass in E. rewrite get_unfold in E. cbv zeta in E.
  assert (Hne : forall j, j ∈ co_instances (collect (zl_apps z)) -> j <> d).
  { intros j Hj ->. rewrite collect_instances in Hj. apply live_from_elem in Hj as (x & Ex & Hx & _).
    rewrite Nat.sub_0_r in Ex. unfold I, view, deleted_view in Hz.
    assert (x = e) as -> by congruence. unfold entry_deleted in Hx. congruence. }
  match type of E with ?m z = _ => assert (Hm : keeps I m); [|specialize (Hm z Hz); by rewrite E in Hm] end.
  apply keeps_bind; [apply quietly, preserves_for_each; intros; apply sync_other|intros _].
  apply keeps_bind; [apply keeps_for_each_in; intros j Hj; by apply reconcile_other, Hne|intros _].
  apply keeps_bind; [apply keeps_for_each_in; intros j Hj; by apply bind_instance_other, Hne|intros _].
  destruct (co_active (collect (zl_apps z))) as [i|] eqn:Eac; repeat keeps_step.
  by apply place_other, Hne, active_live.
Qed.
End deleted.

(** C3: a pass leaves deleted instances alone.  The entry of an instance that is marked
    deleted is the same after a pass, whatever the pass returns, and its record in
    the database is the one that was there before, version included: no pass
    rewrites it, which would drop the time to live that the deletion set. *)
Theorem pass_keeps_deleted `{Ip6Syntax} {S : Type} `{KvLaws S zone_value} `{MapRange} `{SortSlice}
    cf now draws (z z' : zonelet S) r i e :
  ks_arr (zl_apps z) !! i = Some e -> is_deleted (ke_Value e) = true ->
  NoDup (map (ai_Name ∘ ke_Value) (ks_arr (zl_apps z))) ->
  schedule_pass cf now draws z = (z', r) ->
  ks_arr (zl_apps z') !! i = Some e /\
  let key := NsAppInstance (zc_ZoneName cf) (ai_Name (ke_Value e)) in
  kv_read (V := zone_value) (zl_kv z') key = kv_read (zl_kv z) key.
Proof.
  intros Ei Hd Hnd E. cbv zeta.
  assert (Hn : map (ai_Name ∘ ke_Value) (ks_arr (zl_apps z)) !! i = Some (ai_Name (ke_Value e)))
    by (rewrite list_lookup_fmap, Ei; done).
  pose proof (pass_other cf now draws i (zc_ZoneName cf) (ai_Name (ke_Value e)) e
    (map (ai_Name ∘ ke_Value) (ks_arr (zl_apps z))) (kv_read (zl_kv z) (NsAppInstance (zc_ZoneName cf) (ai_Name (ke_Value e)))))
    as P.
  specialize (P ltac:(intros j n Hj Hji ->; apply Hji; by eapply NoDup_lookup) eq_refl z z' r).
  unfold deleted_view in P. rewrite Ei in P. specialize (P eq_refl Hd E). split; congruence.
Qed.

Section witness.
Local Existing Instance no_ip6.

Definition ex_old : KvEntry AppInstance :=
  Entry (Some 5) (ex_app "old" "delete" 1 [ex_rep 0 "h1" [ex_port 80 20001]]).

Lemma ex_names : NoDup (map (ai_Name ∘ ke_Value) (ks_arr (zl_apps ex_loaded))).
Proof. apply (bool_decide_unpack _). vm_compute. exact I. Qed.

Lemma pass_keeps_deleted_witness :
  ks_arr (zl_apps (fst ex_after)) !! 1%nat = Some ex_old /\
  let key := NsAppInstance (zc_ZoneName ex_config) (ai_Name (ke_Value ex_old)) in
  kv_read (V := zone_value) (zl_kv (fst ex_after)) key = kv_read (zl_kv ex_loaded) key.
Proof.
  exact (pass_keeps_deleted ex_config 5000000 ex_draws ex_loaded (fst ex_after) (snd ex_after) 1 ex_old
    eq_refl eq_refl ex_names (surjective_pairing ex_after)).
Defined.
End witness.
