(* ===== verification/Deploy.v ===== *)
(** The requests on application instances, [src/internal/zonelet/service_instance.go]:
    deploying (creating or updating) an instance, deleting it, reading it.

    The state is the leader's, [zonelet] of [Refresh]; the packages live in a database of
    their own.  A record read from the database is a fresh object, but within a request
    [existingByName] and [instance] are one.  The metrics a read attaches are not
    modelled. *)
From Stdlib Require Import ZArith Lia.
From S2P Require Import Prelude GoStrings Ns Kv AppNames Stage SpecConfig AppVersion Resources Auth Packages StateFlow Hostlet Zone Refresh.
Local Open Scope string_scope.
Local Open Scope Z_scope.
Local Open Scope go_scope.

(** * Requests *)

Record AppInstanceDeployRequest := {
  rq_Name : string; rq_Spec : option AppSpec; rq_ReplicaCap : Z; rq_Deploy : option AppDeploy }.

Definition AuthScope_App_Read : string := "app:ro".
Definition AuthScope_App_Write : string := "app:rw".
Definition OpActionRestart : string := "restart".

Definition empty_deploy : AppDeploy :=
  {| ad_Action := ""; ad_Stage := {| dp_Revision := 0; dp_Stages := None |}; ad_CpuLimit := 0; ad_MemoryLimit := 0;
     ad_VolumeLimit := 0; ad_ReplicaCap := 0; ad_Replicas := []; ad_Depends := []; ad_Configs := [] |}.
Definition set_spec (version : string) (res : option AppSpecResources) (sp : AppSpec) : AppSpec :=
  {| sp_Name := sp_Name sp; sp_Version := version; sp_Resources := res; sp_ServicePorts := sp_ServicePorts sp;
     sp_Depends := sp_Depends sp; sp_Packages := sp_Packages sp; sp_Configs := sp_Configs sp; sp_Tasks := sp_Tasks sp |}.
Definition set_limits (cpu mem vol : Z) (d : AppDeploy) : AppDeploy :=
  {| ad_Action := ad_Action d; ad_Stage := ad_Stage d; ad_CpuLimit := cpu; ad_MemoryLimit := mem; ad_VolumeLimit := vol;
     ad_ReplicaCap := ad_ReplicaCap d; ad_Replicas := ad_Replicas d; ad_Depends := ad_Depends d; ad_Configs := ad_Configs d |}.
Definition set_action (action : string) (d : AppDeploy) : AppDeploy :=
  {| ad_Action := action; ad_Stage := ad_Stage d; ad_CpuLimit := ad_CpuLimit d; ad_MemoryLimit := ad_MemoryLimit d;
     ad_VolumeLimit := ad_VolumeLimit d; ad_ReplicaCap := ad_ReplicaCap d; ad_Replicas := ad_Replicas d;
     ad_Depends := ad_Depends d; ad_Configs := ad_Configs d |}.
Definition set_configs (cfgs : list (option AppDeployConfigItem)) (d : AppDeploy) : AppDeploy :=
  {| ad_Action := ad_Action d; ad_Stage := ad_Stage d; ad_CpuLimit := ad_CpuLimit d; ad_MemoryLimit := ad_MemoryLimit d;
     ad_VolumeLimit := ad_VolumeLimit d; ad_ReplicaCap := ad_ReplicaCap d; ad_Replicas := ad_Replicas d;
     ad_Depends := ad_Depends d; ad_Configs := cfgs |}.
Definition set_depends (deps : list (option AppDeployDepend)) (d : AppDeploy) : AppDeploy :=
  {| ad_Action := ad_Action d; ad_Stage := ad_Stage d; ad_CpuLimit := ad_CpuLimit d; ad_MemoryLimit := ad_MemoryLimit d;
     ad_VolumeLimit := ad_VolumeLimit d; ad_ReplicaCap := ad_ReplicaCap d; ad_Replicas := ad_Replicas d;
     ad_Depends := deps; ad_Configs := ad_Configs d |}.
Definition bump_revision (d : AppDeploy) : AppDeploy :=
  on_stage (fun st => {| dp_Revision := u64 (dp_Revision st + 1); dp_Stages := dp_Stages st |}) d.
Definition set_refs (refs : list string) (r : AppRecord) : AppRecord :=
  {| ar_Id := ar_Id r; ar_Name := ar_Name r; ar_Spec := ar_Spec r; ar_Deploy := ar_Deploy r; ar_RefByInstances := refs |}.
Definition set_record (sp : option AppSpec) (d : AppDeploy) (r : AppRecord) : AppRecord :=
  {| ar_Id := ar_Id r; ar_Name := ar_Name r; ar_Spec := sp; ar_Deploy := Some d; ar_RefByInstances := ar_RefByInstances r |}.

(** A slice of the request replaces that of the instance when it is not empty. *)
Definition replace_if_given {A} (new old : list A) : list A := match new with [] => old | _ => new end.

(** A record that is marked deleted. *)
Definition record_deleted (r : AppRecord) : bool :=
  match ar_Deploy r with Some d => bool_decide (ad_Action d = OpActionDelete) | None => false end.

Section service.
Context {S : Type} `{Kv S zone_value} {P : Type} `{Kv P pkg_value} {V : Semver} {En : Entropy} {MR : MapRange}.
Variable zone : string.

Definition loadInstanceByName (kv : S) (name : string) : result (option (AppRecord * Z)) :=
  if bool_decide (name = "") then Ok None else
  match kv_read (V := AppRecord) kv (NsAppInstance zone name) with
  | KvNotFound => Ok None
  | KvErr e => Err e
  | KvOk it => match it_value it with Some r => Ok (Some (r, it_version it)) | None => Err "invalid record" end
  end.

(** The records a scan of the instances decodes. *)
Definition scan_instances (kv : S) : list AppRecord :=
  match kv_range (V := AppRecord) kv (NsAppInstance zone "") (range_end (NsAppInstance zone "")) Zonelet_MaxInstances with
  | KvOk items => omap (fun item => it_value (snd item)) items
  | _ => []
  end.

Definition validateInstanceNameUnique (kv : S) (name : string) : result unit :=
  let? found := loadInstanceByName kv name in
  if bool_decide (is_Some found) then Err "app name already in use"
  else if existsb (fun r => bool_decide (ar_Name r = name)) (scan_instances kv) then Err "app name already in use"
  else Ok tt.

(** ** Dependencies *)

Definition validateAppDependencies (kv : S) (depends : list (option AppSpecDepend)) : result unit :=
  match depends with
  | [] => Ok tt
  | _ =>
    let available := omap (fun r => sp ← ar_Spec r; if bool_decide (sp_Name sp = "") then None else Some (sp_Name sp)) (scan_instances kv) in
    all_ok (fun dep => if bool_decide (sd_Name dep = "") then Err "app dependency name is required"
                       else if bool_decide (sd_Name dep ∈ available) then Ok tt
                       else Err "app dependency has no deployed instance") (live depends)
  end.

Definition validate_depend (kv : S) (currentSpecName : string) (dep : AppDeployDepend) : result unit :=
  if bool_decide (dd_SpecName dep = "") then Err "deploy dependency spec_name is required"
  else if bool_decide (dd_InstanceName dep = "") then Err "deploy dependency: instance_name is required"
  else match loadInstanceByName kv (dd_InstanceName dep) with
       | Err e => Err ("failed to query instance: " +:+ e)
       | Ok None => Err "deploy dependency: instance not found"
       | Ok (Some (target, _)) =>
         if bool_decide (sp_Name <$> ar_Spec target <> Some (dd_SpecName dep)) then Err "deploy dependency: instance has another spec.name"
         else if bool_decide (sp_Name <$> ar_Spec target = Some currentSpecName) then Err "deploy dependency: self-reference is not allowed"
         else Ok tt
       end.
Definition validateDeployDependencies (kv : S) (currentSpecName : string) (depends : list (option AppDeployDepend)) : result unit :=
  all_ok (validate_depend kv currentSpecName) (live depends).

(** [deployDependInstanceNames] *)
Definition deployDependInstanceNames (d : AppDeploy) : gset string :=
  list_to_set (filter (fun n => n <> "") (map dd_InstanceName (live (ad_Depends d)))).

(** The map [dels]: which instances gain and which lose the reference. *)
Definition ref_changes (prev next : gset string) : gmap string bool :=
  gset_to_gmap true next ∪ gset_to_gmap false (prev ∖ next).

(** One instance of [updateDependencyReverseRefs]; [None] when it is left alone. *)
Definition changed_refs (instanceName : string) (add : bool) (refs : list string) : option (list string) :=
  if add then if bool_decide (instanceName ∈ refs) then None else Some (refs ++ [instanceName])%list
  else if bool_decide (instanceName ∈ refs) then Some (filter (fun v => v <> instanceName) refs) else None.
Definition update_ref (kv : S) (instanceName name : string) (add : bool) : S * result unit :=
  match kv_read (V := AppRecord) kv (NsAppInstance zone name) with
  | KvNotFound => (kv, Ok tt)
  | KvErr e => (kv, Err ("read instance: " +:+ e))
  | KvOk it =>
    match it_value it with
    | None => (kv, Err "decode instance")
    | Some dep =>
      match changed_refs instanceName add (ar_RefByInstances dep) with
      | None => (kv, Ok tt)
      | Some refs =>
        match kv_write kv {| prev_version := it_version it; create_only := false; ttl_ms := 0 |} (NsAppInstance zone name) (set_refs refs dep) with
        | (kv, KvOk _) => (kv, Ok tt)
        | (kv, rs) => (kv, Err ("write instance: " +:+ kv_msg rs))
        end
      end
    end
  end.
Fixpoint update_refs (kv : S) (instanceName : string) (changes : list (string * bool)) : S * result unit :=
  match changes with
  | [] => (kv, Ok tt)
  | (name, add) :: rest =>
    match update_ref kv instanceName name add with
    | (kv, Ok _) => update_refs kv instanceName rest
    | (kv, Err e) => (kv, Err e)
    end
  end.
Definition updateDependencyReverseRefs (kv : S) (instanceName : string) (prev next : gset string) : S * result unit :=
  update_refs kv instanceName (map_range (ref_changes prev next)).

(** ** The spec of a request *)

(** The stored spec of a name, with its version in the database. *)
Definition load_spec (kv : S) (name : string) : result (option (AppSpec * Z)) :=
  match kv_read (V := AppSpec) kv (NsAppSpec name) with
  | KvNotFound => Ok None
  | KvErr e => Err e
  | KvOk it => match it_value it with Some sp => Ok (Some (sp, it_version it)) | None => Err "invalid record" end
  end.

(** The checks of a spec: what is stored and deployed, its ranges, and the version in
    the database of the one it follows. *)
Definition validate_spec (kv : S) (pkgs : P) (deploy : option AppDeploy) (sp : AppSpec)
  : result (AppSpec * parsedResources * option Z) :=
  let? _ := wrap_err "spec.name: " (DNSLabelValid (sp_Name sp)) in
  let? prev := load_spec kv (sp_Name sp) in
  let? version := appSpecResolveVersion (sp_Version sp) (match prev with Some (p, _) => sp_Version p | None => "" end)
                    (bool_decide (is_Some prev)) in
  match sp_Resources sp with
  | None => Err "spec.resources is required"
  | Some res =>
    let res := NormalizeLegacy res in
    let? parsed := parseSpecResources (Some res) in
    let? _ := all_ok (fun task => ValidateTaskTrigger (Some task)) (live (sp_Tasks sp)) in
    let? _ := all_ok (fun cfg => ValidateSpecConfigField (Some cfg)) (live (sp_Configs sp)) in
    let? _ := validateAppDependencies kv (sp_Depends sp) in
    let? _ := match deploy with
              | Some d => let? _ := validateDeployDependencies kv (sp_Name sp) (ad_Depends d) in
                          ValidateDeployConfigItems (sp_Configs sp) (ad_Configs d)
              | None => Ok tt
              end in
    let? _ := validatePackageDependencies pkgs (sp_Packages sp) in
    Ok (set_spec version (Some res) sp, parsed, snd <$> prev)
  end.

(** [refreshAppSpec]: its failure is logged, not returned. *)
Definition refreshAppSpec (kv : S) (sp : AppSpec) (prev : option Z) : S :=
  let o := match prev with
           | None => {| prev_version := 0; create_only := true; ttl_ms := 0 |}
           | Some v => {| prev_version := v; create_only := false; ttl_ms := 0 |}
           end in
  fst (kv_write kv o (NsAppSpec (sp_Name sp)) sp).

(** ** The limits of an update *)

Definition override (get : AppDeploy -> Z) (req : option AppDeploy) : option Z :=
  d ← req; if 0 <? get d then Some (get d) else None.
Definition update_limit (name : string) (spec_given : bool) (over : option Z) (cur lo hi : Z) : result Z :=
  match over with
  | Some v => requireInRange name v lo hi
  | None => Ok (if spec_given then clampDeployRes cur lo hi else cur)
  end.
Definition has_override (req : option AppDeploy) : bool :=
  bool_decide (is_Some (override ad_CpuLimit req)) || bool_decide (is_Some (override ad_MemoryLimit req)) ||
  bool_decide (is_Some (override ad_VolumeLimit req)).

(** The ranges an update is checked against, and the spec of the instance, whose
    resources an override migrates. *)
Definition update_ranges (spec_given : bool) (parsed : parsedResources) (req : option AppDeploy) (sp : option AppSpec)
  : result (option AppSpec * parsedResources) :=
  if spec_given || negb (has_override req) then Ok (sp, parsed) else
  match sp with
  | Some sp' =>
    match sp_Resources sp' with
    | Some res =>
      let res := NormalizeLegacy res in
      let? p := parseSpecResources (Some res) in
      Ok (Some (set_spec (sp_Version sp') (Some res) sp'), p)
    | None => Err "cannot override resources: instance has no spec resources"
    end
  | None => Err "cannot override resources: instance has no spec resources"
  end.

Definition update_limits (spec_given : bool) (p : parsedResources) (req : option AppDeploy) (d : AppDeploy) : result AppDeploy :=
  let? cpu := update_limit "deploy.cpu_limit" spec_given (override ad_CpuLimit req) (ad_CpuLimit d) (cpuMin p) (cpuMax p) in
  let? mem := update_limit "deploy.memory_limit" spec_given (override ad_MemoryLimit req) (ad_MemoryLimit d) (memMin p) (memMax p) in
  let? vol := update_limit "deploy.volume_limit" spec_given (override ad_VolumeLimit req) (ad_VolumeLimit d) (volMin p) (volMax p) in
  Ok (set_limits cpu mem vol d).

(** [resolveDeployConfigFields(instance)] from the [k]-th random draw on. *)
Definition resolve_configs (sp : option AppSpec) (k : nat) (d : AppDeploy) : AppDeploy :=
  match sp with
  | Some sp => set_configs (fst (resolveDeployConfigFields (sp_Configs sp) (ad_Configs d) k)) d
  | None => d
  end.

(** What a request sets of the deploy, besides the limits. *)
Definition update_fields (req : AppInstanceDeployRequest) (d : AppDeploy) : AppDeploy :=
  let d := if 0 <? rq_ReplicaCap req then with_cap (Z.min AppReplicaCapMax (rq_ReplicaCap req)) d else d in
  match rq_Deploy req with
  | None => d
  | Some r =>
    let d := set_configs (replace_if_given (ad_Configs r) (ad_Configs d)) d in
    let d := if bool_decide (ad_Action r = "") then d
             else set_action (if bool_decide (ad_Action r = OpActionRestart) then OpActionStart else ad_Action r) d in
    set_depends (replace_if_given (ad_Depends r) (ad_Depends d)) d
  end.

(** The instance an update writes. *)
Definition updated_instance (now : Z) (k : nat) (req : AppInstanceDeployRequest) (sp : option AppSpec) (parsed : parsedResources)
    (r : AppRecord) : result AppRecord :=
  if record_deleted r then Err "instance is deleted (read-only), it will be removed after TTL" else
  let given := bool_decide (is_Some sp) in
  let spec := match sp with Some _ => sp | None => ar_Spec r end in
  let? sp_p := update_ranges given parsed (rq_Deploy req) spec in
  let '(spec, p) := sp_p in
  let? d := update_limits given p (rq_Deploy req) (default empty_deploy (ar_Deploy r)) in
  let d := bump_revision (resolve_configs spec k (update_fields req d)) in
  Ok (set_record spec (on_stage (appDeployStagesMarkPreHost now now) d) r).

(** The instance a creation writes. *)
Definition created_instance (now : Z) (k : nat) (id : string) (req : AppInstanceDeployRequest) (sp : AppSpec) (p : parsedResources)
  : result AppRecord :=
  let limit name get lo hi := match rq_Deploy req with Some d => requireInRange name (get d) lo hi | None => Ok lo end in
  let? cpu := limit "deploy.cpu_limit" ad_CpuLimit (cpuMin p) (cpuMax p) in
  let? mem := limit "deploy.memory_limit" ad_MemoryLimit (memMin p) (memMax p) in
  let? vol := limit "deploy.volume_limit" ad_VolumeLimit (volMin p) (volMax p) in
  let d := {| ad_Action := OpActionStart; ad_Stage := {| dp_Revision := 1; dp_Stages := None |};
              ad_CpuLimit := cpu; ad_MemoryLimit := mem; ad_VolumeLimit := vol;
              ad_ReplicaCap := Z.max 1 (Z.min AppReplicaCapMax (rq_ReplicaCap req)); ad_Replicas := [];
              ad_Depends := match rq_Deploy req with Some r => ad_Depends r | None => [] end;
              ad_Configs := match rq_Deploy req with Some r => ad_Configs r | None => [] end |} in
  let d := resolve_configs (Some sp) k d in
  Ok {| ar_Id := id; ar_Name := rq_Name req; ar_Spec := Some sp; ar_Deploy := Some (on_stage (appDeployStagesMarkPreHost now now) d);
        ar_RefByInstances := [] |}.

(** ** The handlers *)

Definition request_name (name : string) : result unit :=
  if bool_decide (name = "") then Err "name is required" else wrap_err "name: " (DNSLabelValid name).

(** The instance is written, then the references of what it depends on. *)
Definition persist (o : kv_opts) (prev next : gset string) (r : AppRecord) (z : zonelet S) : result (string * string) * zonelet S :=
  match kv_write (zl_kv z) o (NsAppInstance zone (ar_Name r)) r with
  | (kv, KvOk _) =>
    let kv := fst (updateDependencyReverseRefs kv (ar_Name r) prev next) in
    (Ok (ar_Id r, ar_Name r), set_force (set_store z kv) true (zl_lastRefreshed z))
  | (kv, rs) => (Err (kv_msg rs), set_store z kv)
  end.

Definition AppInstanceDeploy (who : caller) (pkgs : P) (now : Z) (k : nat) (id : string) (req : AppInstanceDeployRequest) (z : zonelet S)
  : result (string * string) * zonelet S :=
  let kv := zl_kv z in
  match (let? _ := allow_leader who AuthScope_App_Write in
         let? _ := request_name (rq_Name req) in
         let? existing := loadInstanceByName kv (rq_Name req) in
         if bool_decide (existing = None) && bool_decide (rq_Spec req = None) then Err "spec is required for new instance"
         else match rq_Spec req with
              | None => Ok (existing, None)
              | Some sp => let? v := validate_spec kv pkgs (rq_Deploy req) sp in Ok (existing, Some v)
              end) with
  | Err e => (Err e, z)
  | Ok (existing, validated) =>
    let z := match validated with Some (sp, _, prev) => set_store z (refreshAppSpec kv sp prev) | None => z end in
    let parsed := match validated with Some (_, p, _) => p | None => no_resources end in
    match existing with
    | Some (r, version) =>
      match updated_instance now k req (fst ∘ fst <$> validated) parsed r with
      | Err e => (Err e, z)
      | Ok r' =>
        (* [existingByName.Deploy] is [instance.Deploy] *)
        let names := deployDependInstanceNames (default empty_deploy (ar_Deploy r')) in
        persist {| prev_version := version; create_only := false; ttl_ms := 0 |} names names r' z
      end
    | None =>
      match validated with
      | None => (Err "spec is required for new instance", z)
      | Some (sp, p, _) =>
        match (let? _ := validateInstanceNameUnique (zl_kv z) (rq_Name req) in created_instance now k id req sp p) with
        | Err e => (Err e, z)
        | Ok r => persist {| prev_version := 0; create_only := true; ttl_ms := 0 |} ∅
                    (deployDependInstanceNames (default empty_deploy (ar_Deploy r))) r z
        end
      end
    end
  end.

(** [gAppInstanceSet.Store]: an instance without a spec, which no request stores, is
    cached with an empty one. *)
Definition empty_spec : AppSpec :=
  {| sp_Name := ""; sp_Version := ""; sp_Resources := None; sp_ServicePorts := []; sp_Depends := []; sp_Packages := [];
     sp_Configs := []; sp_Tasks := [] |}.
Definition cache_record (r : AppRecord) (version : Z) (it : appInstanceSet) : appInstanceSet :=
  store {| ai_Id := ar_Id r; ai_Name := ar_Name r; ai_Spec := default empty_spec (ar_Spec r);
           ai_Deploy := default empty_deploy (ar_Deploy r); ai_RefByInstances := ar_RefByInstances r |} version it.

Definition AppInstanceDelete (who : caller) (name : string) (z : zonelet S) : result unit * zonelet S :=
  match (let? _ := allow_leader who AuthScope_App_Write in
         let? _ := request_name name in
         let? found := loadInstanceByName (zl_kv z) name in
         match found with
         | None => Err "instance not found"
         | Some (r, version) =>
           if record_deleted r then Err "instance is already marked deleted (read-only), it will be removed after TTL"
           else Ok (r, version)
         end) with
  | Err e => (Err e, z)
  | Ok (r, version) =>
    let r := set_record (ar_Spec r) (set_action OpActionDelete (default empty_deploy (ar_Deploy r))) r in
    match kv_write (zl_kv z) {| prev_version := version; create_only := false; ttl_ms := AppInstanceSoftDeleteTTL |} (NsAppInstance zone name) r with
    | (kv, KvOk v) => (Ok tt, set_force (set_apps (set_store z kv) (cache_record r v (zl_apps z))) true (zl_lastRefreshed z))
    | (kv, rs) => (Err (kv_msg rs), set_store z kv)
    end
  end.

Definition AppInstanceInfo (who : caller) (name : string) (z : zonelet S) : result AppRecord :=
  let? _ := allow_leader who AuthScope_App_Read in
  let? _ := request_name name in
  match kv_read (V := AppRecord) (zl_kv z) (NsAppInstance zone name) with
  | KvNotFound => Err "instance not found"
  | KvErr e => Err e
  | KvOk it => match it_value it with Some r => Ok r | None => Err "invalid record" end
  end.

Definition AppInstanceList (who : caller) (z : zonelet S) : result (list AppRecord) :=
  let? _ := allow_leader who AuthScope_App_Read in Ok (scan_instances (zl_kv z)).
End service.
