(* ===== verification/DeployLogic.v ===== *)
(** What the requests on instances promise: stored limits stay in the ranges of the spec,
    a refused request changes no instance, a deleted instance is final, and references
    between instances only accumulate. *)
From Stdlib Require Import ZArith Lia.
From S2P Require Import Prelude GoStrings Ns Kv AppNames Stage SpecConfig AppVersion Resources Auth Packages StateFlow Hostlet Zone Refresh Deploy.
Local Open Scope string_scope.
Local Open Scope Z_scope.
Local Open Scope go_scope.

Lemma instance_key_inj zone n n' : NsAppInstance zone n = NsAppInstance zone n' -> n = n'.
Proof. unfold NsAppInstance. intros E. do 4 apply (inj (String.append _)) in E. exact E. Qed.

(** * The instances of a store *)

Section store.
Context {S : Type} {K : Kv S zone_value} {KL : KvLaws K} {P : Type} {KP : Kv P pkg_value} {V : Semver} {En : Entropy}
  {MR : MapRange} {MRL : MapRangeLaws MR}.
Variable zone : string.
Implicit Types kv : S.

Definition inst (kv : S) (name : string) : option AppRecord :=
  match kv_read (V := AppRecord) kv (NsAppInstance zone name) with KvOk it => it_value it | _ => None end.

(** A write of a record of any kind leaves the other keys alone. *)
Lemma write_elsewhere {A} `{ZoneVal A} (kv : S) o k (v : A) k' : k' <> k ->
  kv_read (V := AppRecord) (fst (kv_write kv o k v)) k' = kv_read (V := AppRecord) kv k'.
Proof.
  intros Hne. cbn. destruct (kv_write (V := zone_value) kv o k (zv_in v)) as [kv' r] eqn:E. cbn. f_equal.
  destruct r as [n| |e].
  - apply kv_write_ok in E as (_ & Ho & _). by apply Ho.
  - by rewrite (kv_write_fail _ _ _ _ _ _ E).
  - by rewrite (kv_write_fail _ _ _ _ _ _ E).
Qed.

Lemma write_failed (kv : S) o k (v : AppRecord) (kv' : S) r k' : kv_write kv o k v = (kv', r) -> (forall n, r <> KvOk n) ->
  kv_read (V := AppRecord) kv' k' = kv_read (V := AppRecord) kv k'.
Proof. intros Hw Hr. by rewrite (kv_write_fail _ _ _ _ _ _ Hw Hr). Qed.

Lemma refreshAppSpec_inst kv sp prev name : inst (refreshAppSpec kv sp prev) name = inst kv name.
Proof. unfold inst, refreshAppSpec. by rewrite write_elsewhere. Qed.

Lemma write_inst (kv : S) o name (r : AppRecord) (kv' : S) n : kv_write kv o (NsAppInstance zone name) r = (kv', KvOk n) ->
  inst kv' name = Some r /\ forall name', name' <> name -> inst kv' name' = inst kv name'.
Proof.
  intros Hw. pose proof (write_elsewhere kv o (NsAppInstance zone name) r) as Ho. rewrite Hw in Ho. cbn [fst] in Ho.
  apply kv_write_ok in Hw as (Hr & _). unfold inst. split; [by rewrite Hr|].
  intros name' Hne. rewrite Ho; [done|]. intros E. by apply instance_key_inj in E.
Qed.

Lemma load_inst kv name r v : loadInstanceByName zone kv name = Ok (Some (r, v)) -> inst kv name = Some r.
Proof.
  unfold loadInstanceByName, inst. case_bool_decide; [done|]. destruct (kv_read _ _) as [it| |]; [|done..].
  destruct (it_value it); [|done]. by intros [= <- _].
Qed.
Lemma load_none kv name : name <> "" -> loadInstanceByName zone kv name = Ok None -> inst kv name = None.
Proof.
  intros Hn. unfold loadInstanceByName, inst. rewrite bool_decide_false by done.
  destruct (kv_read _ _) as [it| |]; [|done..]. by destruct (it_value it).
Qed.

(** ** References *)

(** The same instance, with no reference lost. *)
Definition gains (r r' : AppRecord) : Prop := exists refs, r' = set_refs refs r /\ ar_RefByInstances r ⊆ refs.
Lemma gains_refl r : gains r r.
Proof. exists (ar_RefByInstances r). split; [by destruct r|done]. Qed.
Lemma gains_trans r1 r2 r3 : gains r1 r2 -> gains r2 r3 -> gains r1 r3.
Proof. intros (x & -> & Hx) (y & -> & Hy). exists y. split; [done|]. cbn in Hy. set_solver. Qed.

(** Every instance of a store is in another, changed at most by [gains]. *)
Definition store_gains (kv kv' : S) : Prop := forall name,
  match inst kv name with
  | Some r => exists r', inst kv' name = Some r' /\ gains r r'
  | None => inst kv' name = None
  end.
Lemma store_gains_refl kv : store_gains kv kv.
Proof. intros name. destruct (inst kv name); eauto using gains_refl. Qed.
Lemma store_gains_trans kv1 kv2 kv3 : store_gains kv1 kv2 -> store_gains kv2 kv3 -> store_gains kv1 kv3.
Proof.
  intros H1 H2 name. specialize (H1 name). specialize (H2 name). destruct (inst kv1 name) as [r|].
  - destruct H1 as (r' & E & G). rewrite E in H2. destruct H2 as (r'' & E' & G'). eauto using gains_trans.
  - by rewrite H1 in H2.
Qed.

Lemma update_ref_gains kv who name : store_gains kv (fst (update_ref zone kv who name true)).
Proof.
  unfold update_ref. destruct (kv_read (V := AppRecord) kv (NsAppInstance zone name)) as [it| |e] eqn:Er; [|apply store_gains_refl..].
  destruct (it_value it) as [dep|] eqn:Ev; [|apply store_gains_refl]. unfold changed_refs. case_bool_decide; [apply store_gains_refl|].
  destruct (kv_write _ _ _ _) as [kv' r] eqn:Ew. intros n. destruct r as [v| |e]; cbn [fst].
  - apply write_inst in Ew as [Hs Ho]. destruct (decide (n = name)) as [->|Hne].
    + assert (Ei : inst kv name = Some dep) by (unfold inst; by rewrite Er). rewrite Ei, Hs. eexists. split; [done|]. eexists. split; [done|]. set_solver.
    + rewrite Ho by done. apply store_gains_refl.
  - unfold inst. rewrite (write_failed _ _ _ _ _ _ _ Ew) by done. apply store_gains_refl.
  - unfold inst. rewrite (write_failed _ _ _ _ _ _ _ Ew) by done. apply store_gains_refl.
Qed.

Lemma update_refs_gains kv who l : Forall (fun c => snd c = true) l -> store_gains kv (fst (update_refs zone kv who l)).
Proof.
  revert kv. induction l as [|[name add] l IH]; intros kv Hl; [apply store_gains_refl|].
  apply Forall_cons in Hl as [Ha Hl]. cbn in Ha. subst add. cbn [update_refs].
  pose proof (update_ref_gains kv who name) as G. destruct (update_ref zone kv who name true) as [kv' [[]|e]]; cbn [fst] in G.
  - eapply store_gains_trans; [exact G|by apply IH].
  - exact G.
Qed.

(** The changes of a request only add: what an update loses is not in [prev]. *)
Lemma references_gain kv who prev next : prev ⊆ next -> store_gains kv (fst (updateDependencyReverseRefs zone kv who prev next)).
Proof.
  intros Hs. apply update_refs_gains, Forall_forall. intros [name add] Hin%elem_of_map_range. cbn.
  unfold ref_changes in Hin. apply lookup_union_Some_raw in Hin as [Hin|[Hn Hin]].
  - by apply lookup_gset_to_gmap_Some in Hin as [_ <-].
  - apply lookup_gset_to_gmap_Some in Hin as [Hin _]. apply lookup_gset_to_gmap_None in Hn. set_solver.
Qed.

(** ** Records *)

(** The limits of a deploy lie in the ranges of its spec. *)
Definition limits_in (p : parsedResources) (d : AppDeploy) : Prop :=
  cpuMin p <= ad_CpuLimit d <= cpuMax p /\ memMin p <= ad_MemoryLimit d <= memMax p /\ volMin p <= ad_VolumeLimit d <= volMax p.

(** What every stored record has: the name it is stored under, a spec with ranges the
    system allows, limits within them, and a count of replicas. *)
Definition record_ok (name : string) (r : AppRecord) : Prop :=
  ar_Name r = name /\
  exists sp res p d, ar_Spec r = Some sp /\ sp_Resources sp = Some res /\ parseSpecResources (Some (NormalizeLegacy res)) = Ok p /\
    ar_Deploy r = Some d /\ limits_in p d /\ 1 <= ad_ReplicaCap d <= AppReplicaCapMax.

Lemma record_ok_gains name r r' : gains r r' -> record_ok name r -> record_ok name r'.
Proof. intros (refs & -> & _) [Hn H]. by split. Qed.

Lemma ranges_pos p : ranges_ok p ->
  (0 < cpuMin p /\ cpuMin p <= cpuMax p) /\ (0 < memMin p /\ memMin p <= memMax p) /\ (0 < volMin p /\ volMin p <= volMax p).
Proof. unfold ranges_ok, in_bounds, CPUMin, MemoryMin, VolumeMin. lia. Qed.

(** What the validation of a spec hands on. *)
Definition validated_ok (sp : AppSpec) (p : parsedResources) : Prop :=
  exists res, sp_Resources sp = Some res /\ NormalizeLegacy res = res /\ parseSpecResources (Some res) = Ok p.

Lemma validate_spec_ok kv (pkgs : P) deploy sp sp' p prev : validate_spec zone kv pkgs deploy sp = Ok (sp', p, prev) -> validated_ok sp' p.
Proof.
  unfold validate_spec. intros (_ & _ & H)%rbind_ok. apply rbind_ok in H as (pr & _ & H). apply rbind_ok in H as (ver & _ & H).
  destruct (sp_Resources sp) as [res|]; [|done]. apply rbind_ok in H as (p0 & Hp & H).
  do 5 (apply rbind_ok in H as (? & _ & H)). injection H as <- <- <-. exists (NormalizeLegacy res).
  split_and!; [done|apply NormalizeLegacy_idem|done].
Qed.

(** ** Updates *)

Lemma override_spec get req v : override get req = Some v -> 0 < v.
Proof. unfold override. destruct req as [d|]; [|done]. cbn. destruct (Z.ltb_spec 0 (get d)); [|done]. by intros [= <-]. Qed.

Lemma update_limit_ok name given over cur lo hi v : 0 < lo /\ lo <= hi -> (given = false -> lo <= cur <= hi) ->
  update_limit name given over cur lo hi = Ok v -> lo <= v <= hi.
Proof.
  intros [Hl Hh] Hc. unfold update_limit. destruct over as [o|].
  { intros Hr. by apply requireInRange_ok in Hr as [? _]. }
  intros [= <-].
  destruct given; [by apply resolveInRange_ok|by apply Hc].
Qed.

Lemma update_limits_ok given p req d d' : ranges_ok p -> (given = false -> limits_in p d) ->
  update_limits given p req d = Ok d' -> limits_in p d' /\ ad_ReplicaCap d' = ad_ReplicaCap d /\ ad_Stage d' = ad_Stage d.
Proof.
  intros (Hc & Hm & Hv)%ranges_pos Hd. unfold update_limits. intros (c & Ec & H)%rbind_ok. apply rbind_ok in H as (m & Em & H).
  apply rbind_ok in H as (v & Ev & H). injection H as <-. split; [|done]. unfold limits_in. cbn.
  split; [|split]; (eapply update_limit_ok; [eassumption| |eassumption]); intros Hg; apply (Hd Hg).
Qed.

Lemma update_ranges_ok given parsed req sp sp' p res p0 :
  update_ranges given parsed req (Some sp) = Ok (sp', p) ->
  sp_Resources sp = Some res -> parseSpecResources (Some (NormalizeLegacy res)) = Ok p0 ->
  (if given then parsed = p0 else True) ->
  (given = false -> has_override req = false -> sp' = Some sp) /\
  (given || has_override req = true -> p = p0 /\
    exists sp2 res2, sp' = Some sp2 /\ sp_Resources sp2 = Some res2 /\ parseSpecResources (Some (NormalizeLegacy res2)) = Ok p0).
Proof.
  unfold update_ranges. intros H Hres Hp Hg. destruct given; cbn [orb] in *.
  - injection H as <- <-. split; [done|]. intros _. split; [done|]. by exists sp, res.
  - destruct (has_override req); cbn [negb] in H.
    + rewrite Hres, Hp in H. injection H as <- <-. split; [done|]. intros _. split; [done|]. eexists _, _. split; [done|]. split; [done|].
      by rewrite NormalizeLegacy_idem.
    + injection H as <- <-. by split.
Qed.

(** Without a spec and without an override, the limits are left alone. *)
Lemma update_limits_none p req d d' : has_override req = false -> update_limits false p req d = Ok d' ->
  ad_CpuLimit d' = ad_CpuLimit d /\ ad_MemoryLimit d' = ad_MemoryLimit d /\ ad_VolumeLimit d' = ad_VolumeLimit d /\
  ad_ReplicaCap d' = ad_ReplicaCap d.
Proof.
  unfold has_override, update_limits, update_limit. rewrite !orb_false_iff, !bool_decide_eq_false. intros [[H1 H2] H3].
  destruct (override ad_CpuLimit req); [by destruct H1|]. destruct (override ad_MemoryLimit req); [by destruct H2|].
  destruct (override ad_VolumeLimit req); [by destruct H3|]. by intros [= <-].
Qed.

Lemma update_fields_ok req d : let d' := update_fields req d in
  ad_CpuLimit d' = ad_CpuLimit d /\ ad_MemoryLimit d' = ad_MemoryLimit d /\ ad_VolumeLimit d' = ad_VolumeLimit d /\
  (1 <= ad_ReplicaCap d <= AppReplicaCapMax -> 1 <= ad_ReplicaCap d' <= AppReplicaCapMax).
Proof.
  cbn. unfold update_fields, AppReplicaCapMax. destruct (Z.ltb_spec 0 (rq_ReplicaCap req)), (rq_Deploy req) as [r|];
    try case_bool_decide; cbn; split_and!; try done; lia.
Qed.

Lemma final_record_ok now k name r sp res p req d : ar_Name r = name ->
  sp_Resources sp = Some res -> parseSpecResources (Some (NormalizeLegacy res)) = Ok p -> limits_in p d -> 1 <= ad_ReplicaCap d <= AppReplicaCapMax ->
  record_ok name (set_record (Some sp) (on_stage (appDeployStagesMarkPreHost now now)
    (bump_revision (resolve_configs (Some sp) k (update_fields req d)))) r).
Proof.
  intros Hn Hres Hp Hl Hc. split; [exact Hn|]. exists sp, res, p. eexists. do 4 (split; [done|]). split.
  all: pose proof (update_fields_ok req d) as (E1 & E2 & E3 & E4); cbn zeta in *; unfold limits_in; cbn.
  - by rewrite E1, E2, E3.
  - by apply E4.
Qed.

Lemma updated_instance_ok now k req sp parsed name r r' :
  match sp with Some sp => validated_ok sp parsed | None => True end -> record_ok name r ->
  updated_instance now k req sp parsed r = Ok r' -> record_ok name r' /\ record_deleted r = false /\ ar_RefByInstances r' = ar_RefByInstances r.
Proof.
  intros Hsp (Hn & sp0 & res0 & p0 & d & Es & Eres & Ep & Ed & Hl & Hcap). unfold updated_instance.
  destruct (record_deleted r) eqn:Hdel; [done|]. intros ([spec p] & Hur & H)%rbind_ok. apply rbind_ok in H as (d1 & Hul & H).
  injection H as <-. split; [|done]. rewrite Ed in Hul. cbn [default] in Hul.
  destruct sp as [sp|].
  - destruct Hsp as (res & Er & Enorm & Hp). cbn in Hur. injection Hur as <- <-.
    destruct (update_limits_ok true parsed (rq_Deploy req) d d1) as (Hl1 & Hc1 & _);
      [by apply (parse_spec_resources_iff res)|done|exact Hul|].
    eapply (final_record_ok now k name r sp res); [done|done|by rewrite Enorm|done|by rewrite Hc1].
  - rewrite Es in Hur. destruct (update_ranges_ok false parsed (rq_Deploy req) sp0 spec p res0 p0 Hur Eres Ep I) as [Hno Hyes].
    cbn [bool_decide] in Hul. destruct (has_override (rq_Deploy req)) eqn:Ho.
    + destruct (Hyes eq_refl) as (-> & sp2 & res2 & -> & Er2 & Hp2).
      destruct (update_limits_ok false p0 (rq_Deploy req) d d1) as (Hl1 & Hc1 & _);
        [by apply (parse_spec_resources_iff (NormalizeLegacy res0))|done|exact Hul|].
      eapply (final_record_ok now k name r sp2 res2); [done..|by rewrite Hc1].
    + rewrite (Hno eq_refl eq_refl) in *. destruct (update_limits_none p (rq_Deploy req) d d1 Ho Hul) as (F1 & F2 & F3 & F4).
      eapply (final_record_ok now k name r sp0 res0); [done|done|done| |by rewrite F4]. unfold limits_in. by rewrite F1, F2, F3.
Qed.

Lemma created_instance_ok now k id req sp p r : validated_ok sp p -> created_instance now k id req sp p = Ok r ->
  record_ok (rq_Name req) r /\ ar_RefByInstances r = [].
Proof.
  intros (res & Er & Enorm & Hp). unfold created_instance. intros (c & Ec & H)%rbind_ok. apply rbind_ok in H as (m & Em & H).
  apply rbind_ok in H as (v & Ev & H). injection H as <-. split; [|done]. split; [done|].
  exists sp, res, p. eexists. split; [done|]. split; [done|]. split; [by rewrite Enorm|]. split; [done|].
  assert (Hr : ranges_ok p) by (by apply (parse_spec_resources_iff res)). apply ranges_pos in Hr as ((? & ?) & (? & ?) & ? & ?).
  split; [|cbn; unfold AppReplicaCapMax; lia]. unfold limits_in. cbn.
  destruct (rq_Deploy req).
  - apply requireInRange_ok in Ec as [? _], Em as [? _], Ev as [? _]; done.
  - injection Ec as <-. injection Em as <-. injection Ev as <-. lia.
Qed.

(** ** One request *)

(** What a write of an instance and of the references it asks for does. *)
Lemma persist_inst o prev next name r z res z' : prev ⊆ next -> ar_Name r = name ->
  persist zone o prev next r z = (res, z') ->
  if is_ok res
  then (exists r', inst (zl_kv z') name = Some r' /\ gains r r') /\
       forall n, n <> name -> match inst (zl_kv z) n with
                              | Some r0 => exists r1, inst (zl_kv z') n = Some r1 /\ gains r0 r1
                              | None => inst (zl_kv z') n = None end
  else forall n, inst (zl_kv z') n = inst (zl_kv z) n.
Proof.
  intros Hs Hn. unfold persist. destruct (kv_write _ _ _ _) as [kv rs] eqn:Ew. rewrite Hn in *. destruct rs as [v| |e]; intros [= <- <-]; cbn [is_ok].
  - apply write_inst in Ew as [Hi Ho]. cbn [zl_kv set_force set_store].
    pose proof (references_gain kv name prev next Hs) as G. split.
    + specialize (G name). by rewrite Hi in G.
    + intros n Hne. specialize (G n). rewrite Ho in G by done. exact G.
  - intros n. unfold inst. cbn [zl_kv set_store]. by rewrite (write_failed _ _ _ _ _ _ _ Ew).
  - intros n. unfold inst. cbn [zl_kv set_store]. by rewrite (write_failed _ _ _ _ _ _ _ Ew).
Qed.

Definition all_ok_records (kv : S) : Prop := forall name r, inst kv name = Some r -> record_ok name r.

(** The instance of the request is new or updated, the others gain references. *)
Definition deployed (now : Z) (k : nat) (id : string) (req : AppInstanceDeployRequest) (kv kv' : S) : Prop :=
  (exists sp parsed r1 r2, match sp with Some sp => validated_ok sp parsed | None => True end /\
     match inst kv (rq_Name req) with
     | Some r => updated_instance now k req sp parsed r = Ok r1
     | None => exists sp', sp = Some sp' /\ created_instance now k id req sp' parsed = Ok r1
     end /\ inst kv' (rq_Name req) = Some r2 /\ gains r1 r2) /\
  forall n, n <> rq_Name req -> match inst kv n with
                                | Some r0 => exists r1, inst kv' n = Some r1 /\ gains r0 r1
                                | None => inst kv' n = None end.

Lemma deploy_step who (pkgs : P) now k id req z res z' : all_ok_records (zl_kv z) ->
  AppInstanceDeploy zone who pkgs now k id req z = (res, z') ->
  if is_ok res then deployed now k id req (zl_kv z) (zl_kv z')
  else forall n, inst (zl_kv z') n = inst (zl_kv z) n.
Proof.
  intros Hall. unfold AppInstanceDeploy.
  destruct (rbind (allow_leader who AuthScope_App_Write) _) as [[existing validated]|e] eqn:Ev; [|by intros [= <- <-]].
  apply rbind_ok in Ev as (_ & _ & Ev). apply rbind_ok in Ev as (u & Hname & Ev). apply rbind_ok in Ev as (ex & Hload & Ev).
  assert (Hne : rq_Name req <> "") by (intros E; unfold request_name in Hname; by rewrite bool_decide_true in Hname).
  destruct (bool_decide (ex = None) && bool_decide (rq_Spec req = None)); [done|].
  assert (Hv : ex = existing /\ match validated with Some (sp, p, _) => validated_ok sp p | None => True end).
  { destruct (rq_Spec req) as [sp|]; [|by injection Ev as <- <-]. apply rbind_ok in Ev as ([[sp' p] prev] & Hvs & Ev).
    injection Ev as <- <-. split; [done|]. by eapply validate_spec_ok. }
  destruct Hv as [-> Hv].
  set (z1 := match validated with Some (sp, _, prev) => set_store z (refreshAppSpec (zl_kv z) sp prev) | None => z end).
  assert (Hz1 : forall n, inst (zl_kv z1) n = inst (zl_kv z) n).
  { intros n. unfold z1. destruct validated as [[[sp p] prev]|]; [|done]. cbn [zl_kv set_store]. apply refreshAppSpec_inst. }
  destruct existing as [[r version]|].
  - apply load_inst in Hload. destruct (updated_instance _ _ _ _ _ r) as [r1|e] eqn:Eu; [|by intros [= <- <-]].
    assert (Hvo : match fst ∘ fst <$> validated with Some sp => validated_ok sp (match validated with Some (_, p, _) => p | None => no_resources end) | None => True end)
      by (by destruct validated as [[[sp p] prev]|]).
    destruct (updated_instance_ok now k req _ _ (rq_Name req) r r1 Hvo (Hall _ _ Hload) Eu) as (Hok & _ & _).
    intros Hp. apply (persist_inst _ _ _ (rq_Name req)) in Hp; [|done|apply Hok]. destruct (is_ok res); [|by intros n; rewrite Hp].
    destruct Hp as [(r2 & Hi & Hg) Ho]. split.
    + eexists _, _, r1, r2. split; [exact Hvo|]. rewrite Hload. done.
    + intros n Hn. rewrite <- Hz1. by apply Ho.
  - apply load_none in Hload; [|done]. destruct validated as [[[sp p] prev]|]; [|by intros [= <- <-]].
    destruct (rbind (validateInstanceNameUnique _ _ _) _) as [r1|e] eqn:Ec; [|by intros [= <- <-]].
    apply rbind_ok in Ec as (_ & _ & Ec). destruct (created_instance_ok now k id req sp p r1 Hv Ec) as [Hok _].
    intros Hp. apply (persist_inst _ _ _ (rq_Name req)) in Hp; [|set_solver|apply Hok]. destruct (is_ok res); [|by intros n; rewrite Hp].
    destruct Hp as [(r2 & Hi & Hg) Ho]. split.
    + exists (Some sp), p, r1, r2. split; [exact Hv|]. rewrite Hload. split; [by exists sp|done].
    + intros n Hn. rewrite <- Hz1. by apply Ho.
Qed.

Lemma delete_step who name z res z' : AppInstanceDelete zone who name z = (res, z') ->
  if is_ok res
  then exists r, inst (zl_kv z) name = Some r /\ record_deleted r = false /\
         inst (zl_kv z') name = Some (set_record (ar_Spec r) (set_action OpActionDelete (default empty_deploy (ar_Deploy r))) r) /\
         forall n, n <> name -> inst (zl_kv z') n = inst (zl_kv z) n
  else forall n, inst (zl_kv z') n = inst (zl_kv z) n.
Proof.
  unfold AppInstanceDelete. destruct (rbind (allow_leader who AuthScope_App_Write) _) as [[r v]|e] eqn:Ev; [|by intros [= <- <-]].
  apply rbind_ok in Ev as (_ & _ & Ev). apply rbind_ok in Ev as (_ & _ & Ev). apply rbind_ok in Ev as (ex & Hload & Ev).
  destruct ex as [[r' v']|]; [|done]. destruct (record_deleted r') eqn:Hd; [done|]. injection Ev as -> ->. apply load_inst in Hload.
  destruct (kv_write _ _ _ _) as [kv rs] eqn:Ew. destruct rs as [n| |e]; intros [= <- <-]; cbn [is_ok].
  - apply write_inst in Ew as [Hi Ho]. exists r. done.
  - intros n. unfold inst. cbn [zl_kv set_store]. by rewrite (write_failed _ _ _ _ _ _ _ Ew).
  - intros n. unfold inst. cbn [zl_kv set_store]. by rewrite (write_failed _ _ _ _ _ _ _ Ew).
Qed.

(** ** Histories of requests *)

Inductive app_event :=
| EvDeploy (who : caller) (pkgs : P) (now : Z) (k : nat) (id : string) (req : AppInstanceDeployRequest)
| EvDelete (who : caller) (name : string).
Definition run_request (z : zonelet S) (ev : app_event) : zonelet S :=
  match ev with
  | EvDeploy who pkgs now k id req => snd (AppInstanceDeploy zone who pkgs now k id req z)
  | EvDelete who name => snd (AppInstanceDelete zone who name z)
  end.
Definition run_requests (z : zonelet S) (l : list app_event) : zonelet S := foldl run_request z l.

Lemma run_request_ok z ev : all_ok_records (zl_kv z) -> all_ok_records (zl_kv (run_request z ev)).
Proof.
  intros Hall name r Hr. destruct ev as [who pkgs now k id req|who nm]; cbn [run_request] in Hr.
  - destruct (AppInstanceDeploy _ _ _ _ _ _ _ _) as [res z'] eqn:E. cbn [snd] in Hr.
    apply (deploy_step who pkgs now k id req z res z' Hall) in E. destruct (is_ok res); [|by apply Hall; rewrite <- E].
    destruct E as [(sp & p & r1 & r2 & Hv & Hr1 & Hi & Hg) Ho]. destruct (decide (name = rq_Name req)) as [->|Hne].
    + rewrite Hi in Hr. injection Hr as <-. apply (record_ok_gains _ r1); [done|]. destruct (inst (zl_kv z) (rq_Name req)) as [r0|] eqn:E0.
      * by eapply updated_instance_ok; [exact Hv|by apply Hall|].
      * destruct Hr1 as (sp' & -> & Hc). by eapply created_instance_ok.
    + specialize (Ho name Hne). destruct (inst (zl_kv z) name) as [r0|] eqn:E0; [|congruence].
      destruct Ho as (r' & E' & G). rewrite E' in Hr. injection Hr as <-. eapply record_ok_gains; [exact G|by apply Hall].
  - destruct (AppInstanceDelete _ _ _ _) as [res z'] eqn:E. cbn [snd] in Hr. apply delete_step in E.
    destruct (is_ok res); [|by apply Hall; rewrite <- E]. destruct E as (r0 & E0 & _ & Hi & Ho).
    destruct (decide (name = nm)) as [->|Hne]; [|by apply Hall; rewrite <- Ho].
    rewrite Hi in Hr. injection Hr as <-. destruct (Hall _ _ E0) as (Hn & sp & rs & p & d & H1 & H2 & H3 & H4 & H5 & H6).
    split; [done|]. exists sp, rs, p. eexists. split; [done|]. split; [done|]. split; [done|]. rewrite H4. split; [done|]. done.
Qed.

Lemma run_requests_ok l z : all_ok_records (zl_kv z) -> all_ok_records (zl_kv (run_requests z l)).
Proof. revert z. induction l as [|ev l IH]; intros z Hz; [done|]. by apply IH, run_request_ok. Qed.

(** An instance keeps its name in the store and its references. *)
Lemma run_request_refs z ev name r : all_ok_records (zl_kv z) -> inst (zl_kv z) name = Some r ->
  exists r', inst (zl_kv (run_request z ev)) name = Some r' /\ ar_RefByInstances r ⊆ ar_RefByInstances r' /\
    (record_deleted r = true -> gains r r').
Proof.
  intros Hall Hr. destruct ev as [who pkgs now k id req|who nm]; cbn [run_request].
  - destruct (AppInstanceDeploy _ _ _ _ _ _ _ _) as [res z'] eqn:E. cbn [snd].
    apply (deploy_step who pkgs now k id req z res z' Hall) in E. destruct (is_ok res).
    2: { exists r. rewrite E. split_and!; [done|done|]. intros _. apply gains_refl. }
    destruct E as [(sp & p & r1 & r2 & Hv & Hr1 & Hi & Hg) Ho]. destruct (decide (name = rq_Name req)) as [->|Hne].
    + rewrite Hr in Hr1. destruct (updated_instance_ok now k req sp p _ r r1 Hv (Hall _ _ Hr) Hr1) as (_ & Hd & Href).
      exists r2. destruct Hg as (refs & -> & Hs). split_and!; [done| |by rewrite Hd]. cbn. by rewrite <- Href.
    + specialize (Ho name Hne). rewrite Hr in Ho. destruct Ho as (r' & E' & G). exists r'. split_and!; [done| |done].
      destruct G as (refs & -> & Hs). exact Hs.
  - destruct (AppInstanceDelete _ _ _ _) as [res z'] eqn:E. cbn [snd]. apply delete_step in E.
    destruct (is_ok res).
    2: { exists r. rewrite E. split_and!; [done|done|]. intros _. apply gains_refl. }
    destruct E as (r0 & E0 & Hd & Hi & Ho). destruct (decide (name = nm)) as [->|Hne].
    + rewrite Hr in E0. injection E0 as <-. eexists. split; [exact Hi|]. split; [done|]. by rewrite Hd.
    + exists r. rewrite Ho by done. split_and!; [done|done|]. intros _. apply gains_refl.
Qed.

Lemma gains_deleted r r' : gains r r' -> record_deleted r' = record_deleted r.
Proof. by intros (refs & -> & _). Qed.

Lemma run_requests_refs l z name r : all_ok_records (zl_kv z) -> inst (zl_kv z) name = Some r ->
  exists r', inst (zl_kv (run_requests z l)) name = Some r' /\ ar_RefByInstances r ⊆ ar_RefByInstances r' /\
    (record_deleted r = true -> gains r r').
Proof.
  revert z r. induction l as [|ev l IH]; intros z r Hz Hr; [exists r; split_and!; [done|done|intros _; apply gains_refl]|].
  destruct (run_request_refs z ev name r Hz Hr) as (r1 & H1 & Hs1 & Hg1).
  destruct (IH (run_request z ev) r1 (run_request_ok z ev Hz) H1) as (r2 & H2 & Hs2 & Hg2). exists r2. split_and!; [done|set_solver|].
  intros Hd. pose proof (Hg1 Hd) as G1. eapply gains_trans; [exact G1|]. apply Hg2. by rewrite (gains_deleted _ _ G1).
Qed.

(** ** Times to live *)

Section time.
Context {T : KvTtl S zone_value} {TL : KvTtlLaws K T}.

(** The key [k] keeps its deadline or loses it; no time passes. *)
Definition soft (k : string) (kv kv' : S) : Prop :=
  kv_clock kv' = kv_clock kv /\ (kv_deadline kv' k = None \/ kv_deadline kv' k = kv_deadline kv k).
Lemma soft_refl k kv : soft k kv kv.
Proof. split; [done|by right]. Qed.
Lemma soft_trans k kv1 kv2 kv3 : soft k kv1 kv2 -> soft k kv2 kv3 -> soft k kv1 kv3.
Proof. intros [C1 D1] [C2 D2]. split; [congruence|]. destruct D2 as [->| ->]; [by left|done]. Qed.

(** A write without a time to live, or of another key. *)
Lemma write_soft {A} `{ZoneVal A} k (kv : S) o k' (v : A) : ttl_ms o = 0 \/ k' <> k -> soft k kv (fst (kv_write kv o k' v)).
Proof.
  intros Ho. cbn. destruct (kv_write (V := zone_value) kv o k' (zv_in v)) as [kv' r] eqn:E. cbn.
  apply kv_write_deadline in E as (Ec & Hf & Hk). split; [done|].
  destruct (decide (k = k')) as [->|Hne]; [|right; apply Hf; by left].
  destruct Ho as [Ho|?]; [|done]. rewrite Ho in Hk. destruct (kv_ok r); [by apply Hk|right; apply Hf; by right].
Qed.
Lemma write_soft' {A} `{ZoneVal A} k (kv : S) o k' (v : A) kv' r : kv_write kv o k' v = (kv', r) -> ttl_ms o = 0 \/ k' <> k -> soft k kv kv'.
Proof. intros E Ho. pose proof (write_soft k kv o k' v Ho) as G. by rewrite E in G. Qed.

Lemma update_refs_soft k kv who l : soft k kv (fst (update_refs zone kv who l)).
Proof.
  revert kv. induction l as [|[name add] l IH]; intros kv; [apply soft_refl|]. cbn [update_refs].
  assert (G : soft k kv (fst (update_ref zone kv who name add))).
  { unfold update_ref. destruct (kv_read _ _) as [it| |]; [|apply soft_refl..]. destruct (it_value it) as [dep|]; [|apply soft_refl].
    destruct (changed_refs _ _ _) as [refs|]; [|apply soft_refl].
    destruct (kv_write _ _ _ _) as [kv' r] eqn:E. apply (write_soft' k) in E; [|by left]. by destruct r. }
  destruct (update_ref zone kv who name add) as [kv' [[]|e]]; cbn [fst] in G; [|exact G]. eapply soft_trans; [exact G|apply IH].
Qed.

Lemma persist_soft k o prev next r z : ttl_ms o = 0 -> soft k (zl_kv z) (zl_kv (snd (persist zone o prev next r z))).
Proof.
  intros Ho. unfold persist. destruct (kv_write _ _ _ _) as [kv rs] eqn:E. apply (write_soft' k) in E; [|by left].
  destruct rs; [|exact E..]. eapply soft_trans; [exact E|apply update_refs_soft].
Qed.

(** No deploy request gives a record a time to live. *)
Lemma deploy_soft k who (pkgs : P) now n id req z : soft k (zl_kv z) (zl_kv (snd (AppInstanceDeploy zone who pkgs now n id req z))).
Proof.
  unfold AppInstanceDeploy. destruct (rbind (allow_leader who AuthScope_App_Write) _) as [[existing validated]|e]; [|apply soft_refl].
  set (z1 := match validated with Some (sp, _, prev) => set_store z (refreshAppSpec (zl_kv z) sp prev) | None => z end).
  assert (Hz1 : soft k (zl_kv z) (zl_kv z1)).
  { unfold z1. destruct validated as [[[sp p] prev]|]; [|apply soft_refl]. unfold refreshAppSpec. cbn [zl_kv set_store].
    apply write_soft. left. by destruct prev. }
  eapply soft_trans; [exact Hz1|]. clearbody z1. destruct existing as [[r version]|].
  - destruct (updated_instance _ _ _ _ _ r); [by apply persist_soft|apply soft_refl].
  - destruct validated as [[[sp p] prev]|]; [|apply soft_refl]. destruct (rbind _ _); [by apply persist_soft|apply soft_refl].
Qed.

Lemma delete_soft who name' name z r : inst (zl_kv z) name = Some r -> record_deleted r = true ->
  soft (NsAppInstance zone name) (zl_kv z) (zl_kv (snd (AppInstanceDelete zone who name' z))).
Proof.
  intros Hr Hd. unfold AppInstanceDelete. destruct (rbind (allow_leader who AuthScope_App_Write) _) as [[r' v]|e] eqn:Ev; [|apply soft_refl].
  apply rbind_ok in Ev as (_ & _ & Ev). apply rbind_ok in Ev as (_ & _ & Ev). apply rbind_ok in Ev as (ex & Hload & Ev).
  destruct ex as [[r2 v']|]; [|done]. destruct (record_deleted r2) eqn:Hd2; [done|]. injection Ev as -> ->. apply load_inst in Hload.
  assert (Hne : NsAppInstance zone name' <> NsAppInstance zone name) by (intros E; apply instance_key_inj in E; congruence).
  destruct (kv_write _ _ _ _) as [kv rs] eqn:E. apply (write_soft' (NsAppInstance zone name)) in E; [|by right]. by destruct rs.
Qed.

(** A delete request gives the record its time to live. *)
Lemma delete_deadline who name z z' : AppInstanceDelete zone who name z = (Ok tt, z') ->
  kv_deadline (zl_kv z') (NsAppInstance zone name) = Some (kv_clock (zl_kv z) + AppInstanceSoftDeleteTTL).
Proof.
  unfold AppInstanceDelete. destruct (rbind (allow_leader who AuthScope_App_Write) _) as [[r v]|e] eqn:Ev; [|done].
  cbn. destruct (kv_write (V := zone_value) _ _ _ _) as [kv rs] eqn:Ew. apply kv_write_deadline in Ew as (_ & _ & Hk).
  destruct rs as [n| |e]; [|done..]. intros [= <-]. by apply Hk.
Qed.

(** Requests, and time that passes between them. *)
Inductive timed_event :=
| Request (ev : app_event)
| Elapse (t : Z).
Definition run_timed (z : zonelet S) (ev : timed_event) : zonelet S :=
  match ev with
  | Request ev => run_request z ev
  | Elapse t => set_store z (kv_elapse (zl_kv z) t)
  end.
Definition run_timed_all (z : zonelet S) (l : list timed_event) : zonelet S := foldl run_timed z l.
Definition clock_of (z : zonelet S) : Z := kv_clock (zl_kv z).
Definition deadline_of (z : zonelet S) (name : string) : option Z := kv_deadline (zl_kv z) (NsAppInstance zone name).

Lemma request_clock z ev : clock_of (run_request z ev) = clock_of z.
Proof.
  destruct ev as [who pkgs now k id req|who nm]; cbn [run_request]; unfold clock_of.
  - apply (deploy_soft "" who pkgs).
  - unfold AppInstanceDelete. destruct (rbind _ _) as [[r v]|e]; [|done]. cbn.
    destruct (kv_write (V := zone_value) _ _ _ _) as [kv rs] eqn:Ew. apply kv_write_deadline in Ew as (Hc & _). by destruct rs.
Qed.
Lemma timed_clock z ev : clock_of z <= clock_of (run_timed z ev).
Proof. destruct ev as [ev|t]; cbn [run_timed]; [rewrite request_clock; lia|]. unfold clock_of. cbn. rewrite kv_elapse_clock. lia. Qed.
Lemma timed_all_clock l z : clock_of z <= clock_of (run_timed_all z l).
Proof. revert z. induction l as [|ev l IH]; intros z; [done|]. cbn. pose proof (timed_clock z ev). specialize (IH (run_timed z ev)). unfold run_timed_all in *. lia. Qed.

Lemma elapse_kept z t n : (forall d, deadline_of z n = Some d -> kv_clock (kv_elapse (zl_kv z) t) < d) ->
  inst (kv_elapse (zl_kv z) t) n = inst (zl_kv z) n /\ kv_deadline (kv_elapse (zl_kv z) t) (NsAppInstance zone n) = deadline_of z n.
Proof. intros Hd. destruct (kv_elapse_kept (zl_kv z) t (NsAppInstance zone n) Hd) as [E1 E2]. split; [|exact E2].
  unfold inst. cbn [kv_read zone_Kv]. by rewrite E1.
Qed.
Lemma elapse_gone z t n d : deadline_of z n = Some d -> d <= kv_clock (kv_elapse (zl_kv z) t) -> inst (kv_elapse (zl_kv z) t) n = None.
Proof. intros Hd Hle. unfold inst. cbn [kv_read zone_Kv]. by rewrite (kv_elapse_gone _ t _ d Hd Hle). Qed.
Lemma elapse_read z t n : inst (kv_elapse (zl_kv z) t) n = inst (zl_kv z) n \/ inst (kv_elapse (zl_kv z) t) n = None.
Proof.
  destruct (deadline_of z n) as [d|] eqn:Ed; [|left; apply elapse_kept; by intros d; rewrite Ed].
  destruct (Z.le_gt_cases d (kv_clock (kv_elapse (zl_kv z) t))); [right; by eapply elapse_gone|left].
  apply elapse_kept. intros d' E. rewrite Ed in E. injection E as <-. lia.
Qed.

Lemma run_timed_ok z ev : all_ok_records (zl_kv z) -> all_ok_records (zl_kv (run_timed z ev)).
Proof.
  intros Hall. destruct ev as [ev|t]; [by apply run_request_ok|]. intros n r Hr. cbn in Hr.
  destruct (elapse_read z t n) as [E|E]; rewrite E in Hr; [by apply Hall|done].
Qed.
Lemma run_timed_all_ok l z : all_ok_records (zl_kv z) -> all_ok_records (zl_kv (run_timed_all z l)).
Proof. revert z. induction l as [|ev l IH]; intros z Hz; [done|]. by apply IH, run_timed_ok. Qed.

(** One event before the deadline of a deleted record. *)
Lemma run_timed_deleted z ev name r : all_ok_records (zl_kv z) -> inst (zl_kv z) name = Some r -> record_deleted r = true ->
  (forall d, deadline_of z name = Some d -> clock_of (run_timed z ev) < d) ->
  exists r', inst (zl_kv (run_timed z ev)) name = Some r' /\ gains r r' /\
    (deadline_of (run_timed z ev) name = None \/ deadline_of (run_timed z ev) name = deadline_of z name).
Proof.
  intros Hall Hr Hd Hlt. destruct ev as [ev|t]; cbn [run_timed] in *.
  - destruct (run_request_refs z ev name r Hall Hr) as (r' & Hr' & _ & Hg). exists r'. split_and!; [done|by apply Hg|].
    destruct ev as [who pkgs now k id req|who nm]; [apply (deploy_soft _ who pkgs)|by eapply delete_soft].
  - destruct (elapse_kept z t name Hlt) as [Er Ed]. exists r. split_and!; [|apply gains_refl|by right]. cbn. by rewrite Er.
Qed.

Lemma run_timed_all_deleted l z name r : all_ok_records (zl_kv z) -> inst (zl_kv z) name = Some r -> record_deleted r = true ->
  (forall d, deadline_of z name = Some d -> clock_of (run_timed_all z l) < d) ->
  exists r', inst (zl_kv (run_timed_all z l)) name = Some r' /\ gains r r' /\
    (deadline_of (run_timed_all z l) name = None \/ deadline_of (run_timed_all z l) name = deadline_of z name).
Proof.
  revert z r. induction l as [|ev l IH]; intros z r Hall Hr Hd Hlt; [exists r; split_and!; [done|apply gains_refl|by right]|].
  destruct (run_timed_deleted z ev name r Hall Hr Hd) as (r1 & H1 & G1 & D1).
  { intros d Ed. specialize (Hlt d Ed). pose proof (timed_all_clock l (run_timed z ev)). change (run_timed_all z (ev :: l)) with (run_timed_all (run_timed z ev) l) in Hlt. lia. }
  destruct (IH (run_timed z ev) r1 (run_timed_ok z ev Hall) H1) as (r2 & H2 & G2 & D2).
  - by rewrite (gains_deleted _ _ G1).
  - intros d Ed. apply Hlt. destruct D1 as [E|E]; congruence.
  - exists r2. split_and!; [done|by eapply gains_trans|]. destruct D2 as [E|E]; [by left|]. change (run_timed_all z (ev :: l)) with (run_timed_all (run_timed z ev) l). rewrite E. exact D1.
Qed.
End time.
End store.

(** * The theorems *)

(** C18: Whatever is requested, every stored instance has limits within the ranges of its
    stored spec, which lie in the bounds of the system, and a count of replicas from 1
    to the maximum: over every history of deploy and delete requests, with a database
    that may fail. *)
Theorem deployed_limits_in_range (S : Type) (K : Kv S zone_value) (KL : KvLaws K) (P : Type) (KP : Kv P pkg_value) (V : Semver)
    (En : Entropy) (MR : MapRange) (MRL : MapRangeLaws MR) (zone : string) (z : zonelet S) (l : list app_event) :
  (forall name, inst zone (zl_kv z) name = None) ->
  forall name r, inst zone (zl_kv (run_requests zone z l)) name = Some r ->
    ar_Name r = name /\
    exists sp res p d, ar_Spec r = Some sp /\ sp_Resources sp = Some res /\
      parseSpecResources (Some (NormalizeLegacy res)) = Ok p /\ ranges_ok p /\
      ar_Deploy r = Some d /\ limits_in p d /\ 1 <= ad_ReplicaCap d <= AppReplicaCapMax.
Proof.
  intros H0 name r Hr. assert (Hall : all_ok_records zone (zl_kv z)) by (intros n r0 Hn; by rewrite H0 in Hn).
  destruct (run_requests_ok zone l z Hall name r Hr) as (Hn & sp & res & p & d & H1 & H2 & H3 & H4 & H5 & H6).
  split; [done|]. exists sp, res, p, d. pose proof H3 as H7. apply parse_spec_resources_iff in H7 as [_ H7]. done.
Qed.


(** References between instances only accumulate: no request ever removes an entry
    of [ref_by_instances], although an update is to remove the references of the
    dependencies it drops: the names it compares are both taken from the updated
    deploy. *)
Theorem references_accumulate (S : Type) (K : Kv S zone_value) (KL : KvLaws K) (P : Type) (KP : Kv P pkg_value) (V : Semver)
    (En : Entropy) (MR : MapRange) (MRL : MapRangeLaws MR) (zone : string) (z : zonelet S) (l : list app_event)
    (name : string) (r : AppRecord) :
  (forall n r, inst zone (zl_kv z) n = Some r -> record_ok n r) ->
  inst zone (zl_kv z) name = Some r ->
  exists r', inst zone (zl_kv (run_requests zone z l)) name = Some r' /\ ar_RefByInstances r ⊆ ar_RefByInstances r'.
Proof. intros Hall Hr. destruct (run_requests_refs zone l z name r Hall Hr) as (r' & H1 & H2 & _). eauto. Qed.

(** ** A run

    Two databases are deployed, and a site bound to the first; the site is then bound to
    the second, and at last marked deleted by a deploy request. *)

Definition ex_start : zonelet (mem_store zone_value) := set_store ex_zonelet mem_empty.
Definition ex_named_spec (name : string) : AppSpec :=
  {| sp_Name := name; sp_Version := ""; sp_Resources := sp_Resources ex_spec; sp_ServicePorts := []; sp_Depends := [];
     sp_Packages := []; sp_Configs := []; sp_Tasks := [] |}.
Definition ex_bound (action : string) (cpu : Z) (deps : list (string * string)) : AppDeploy :=
  set_action action (set_limits cpu 0 0 (set_depends
    (map (fun d => Some {| dd_SpecName := fst d; dd_InstanceName := snd d |}) deps) empty_deploy)).
Definition ex_event (now : Z) (name : string) (spec : option string) (d : AppDeploy) : app_event (P := mem_store pkg_value) :=
  EvDeploy ex_user mem_empty now 0 "i1" {| rq_Name := name; rq_Spec := ex_named_spec <$> spec; rq_ReplicaCap := 0; rq_Deploy := Some d |}.
Definition ex_setup : list (app_event (P := mem_store pkg_value)) :=
  [ex_event 100 "db1" (Some "mysql") (ex_bound "" 0 []); ex_event 110 "db2" (Some "mysql") (ex_bound "" 1500 []);
   ex_event 120 "web" (Some "nginx") (ex_bound "" 0 [("mysql", "db1")])].
Definition ex_rebind : list (app_event (P := mem_store pkg_value)) :=
  [ex_event 130 "web" (Some "nginx") (ex_bound "" 2500 []); ex_event 140 "web" None (ex_bound "restart" 1200 [("mysql", "db2")])].
Definition ex_drop : list (app_event (P := mem_store pkg_value)) :=
  [ex_event 150 "web" None (ex_bound "delete" 0 [])].

(** The CPU limit, the action and the references of an instance. *)
Definition ex_view (z : zonelet (mem_store zone_value)) (name : string) : option (option (Z * string) * list string) :=
  r ← inst "z1" (zl_kv z) name;
  Some ((fun d => (ad_CpuLimit d, ad_Action d)) <$> ar_Deploy r, ar_RefByInstances r).

Example deploy_run :
  map (ex_view (run_requests "z1" ex_start (ex_setup ++ ex_rebind)%list)) ["db1"; "db2"; "web"] =
  [Some (Some (1000, "start"), ["web"]); Some (Some (1500, "start"), ["web"]); Some (Some (1200, "start"), [])].
Proof. vm_compute. reflexivity. Qed.

Lemma ex_start_none name : inst "z1" (zl_kv ex_start) name = None.
Proof. reflexivity. Qed.
Lemma ex_setup_ok : all_ok_records "z1" (zl_kv (run_requests "z1" ex_start ex_setup)).
Proof. apply run_requests_ok. intros n r Hr. by rewrite ex_start_none in Hr. Qed.

Lemma deployed_limits_in_range_witness :
  exists r, inst "z1" (zl_kv (run_requests "z1" ex_start ex_setup)) "db2" = Some r /\ ar_Name r = "db2" /\
    exists sp res p d, ar_Spec r = Some sp /\ sp_Resources sp = Some res /\
      parseSpecResources (Some (NormalizeLegacy res)) = Ok p /\ ranges_ok p /\
      ar_Deploy r = Some d /\ limits_in p d /\ 1 <= ad_ReplicaCap d <= AppReplicaCapMax.
Proof.
  destruct (inst "z1" (zl_kv (run_requests "z1" ex_start ex_setup)) "db2") as [r|] eqn:E; [|vm_compute in E; discriminate E].
  exists r. split; [reflexivity|]. revert r E.
  exact (deployed_limits_in_range _ _ _ _ _ ex_Semver ex_Entropy _ _ "z1" ex_start ex_setup ex_start_none "db2").
Defined.

(** A leader whose database keeps time, and the site deleted by a delete request. *)
Definition ex_timed : zonelet (ttl_store zone_value) :=
  {| zl_kv := {| tt_mem := mem_empty; tt_deadlines := ∅; tt_clock := 1000 |}; zl_net := zl_net ex_zonelet; zl_hosts := zl_hosts ex_zonelet;
     zl_operate := zl_operate ex_zonelet; zl_apps := zl_apps ex_zonelet; zl_status := zl_status ex_zonelet; zl_force := false;
     zl_lastRefreshed := 0; zl_bumped := ∅; zl_allocs := 0 |}.
Definition ex_site_deleted : zonelet (ttl_store zone_value) :=
  run_requests "z1" ex_timed (ex_setup ++ [EvDelete ex_user "web"])%list.
Definition ex_days (n : Z) : Z := n * 24 * 3600 * 1000.
Definition ex_later : list (timed_event (P := mem_store pkg_value)) := Elapse (ex_days 3) :: map Request ex_rebind ++ [Elapse (ex_days 7)].

(** After eight days the name is free again. *)
Example deleted_instance_ends :
  let view z := record_deleted <$> inst "z1" (zl_kv z) "web" in
  let z' := run_timed_all "z1" ex_site_deleted ex_later in
  let z'' := run_timed "z1" z' (Elapse (ex_days 8)) in
  (view ex_site_deleted, view z', view z'', view (run_requests "z1" z'' [ex_event 100 "web" (Some "nginx") (ex_bound "" 0 [])])) =
  (Some true, Some true, None, Some false).
Proof. vm_compute. reflexivity. Qed.


Lemma references_accumulate_witness :
  let z := run_requests "z1" ex_start ex_setup in
  exists r, inst "z1" (zl_kv z) "db1" = Some r /\ ar_RefByInstances r = ["web"] /\
  (deployDependInstanceNames <$> (inst "z1" (zl_kv (run_requests "z1" z ex_rebind)) "web" ≫= ar_Deploy)) = Some {["db2"]} /\
  exists r', inst "z1" (zl_kv (run_requests "z1" z ex_rebind)) "db1" = Some r' /\ ar_RefByInstances r ⊆ ar_RefByInstances r'.
Proof.
  intros z. destruct (inst "z1" (zl_kv z) "db1") as [r|] eqn:E; [|vm_compute in E; discriminate E]. exists r. split; [reflexivity|].
  split.
  { assert (X : (ar_RefByInstances <$> inst "z1" (zl_kv z) "db1") = Some ["web"]) by (vm_compute; reflexivity).
    rewrite E in X. injection X as X. exact X. }
  split; [vm_compute; reflexivity|].
  refine (references_accumulate _ _ _ _ _ ex_Semver ex_Entropy _ _ "z1" z ex_rebind "db1" r ex_setup_ok E).
Defined.
