(* ===== verification/AuditCollect.v ===== *)
(** What the audit log is told: [src/internal/audit/interceptor.go] and [extract.go].

    A finished request becomes a record, or none; an authentication failure becomes a record
    unless it repeats one of the last minute.  The error of a request is cut to 256 bytes and
    its details to 512. *)
From Stdlib Require Import ZArith Lia Ascii.
From S2P Require Import Prelude GoStrings Ns Utf8 Sha256 Kv Auth AppVersion Packages Zone Users AuditLog Deploy.
Local Open Scope string_scope.
Local Open Scope Z_scope.
Local Open Scope go_scope.

Definition errorMaxLen : Z := 256.
Definition authFailureWindowSec : Z := 60.
Definition authFailureSweepEvery : Z := 1024.
Definition authFailureEntryTTL : Z := 24 * 3600.
Definition detailMaxLen : Z := 512.
Definition AuditActorUser : string := "User".
Definition AuditActorHost : string := "Host".
Definition AuditActorAnonymous : string := "Anonymous".

(** ** Requests and what is said of them *)

(** The requests with an extractor, with the fields the extractors read. *)
Inductive audited_request :=
| ZoneInitReq (name : string)
| ZoneSetReq (bridge instance_ domain : string)
| HostJoinReq (addr : string)
| DeployReq (r : AppInstanceDeployRequest)
| InstanceDeleteReq (name id : string)
| IngressSetReq (item : option (string * Z * string * bool)) (* domain, number of routes, action, letsencrypt *)
| PushReq (r : PackagePushRequest)
| PackageDeleteReq (id : string)
| UserSetReq (r : UserSetRequest)
| UserDeleteReq (name : string)
| KeySetReq (user : string) (scopes : list string)
| KeyDeleteReq (id : string)
| OtherReq.
Inductive audited_response :=
| HostJoinResp (host_id : option string)
| PushResp (file : option PackageFile)
| PackageDeleteResp (chunks : Z)
| KeySetResp (id : string)
| OtherResp.

Inductive json_value := JString (s : string) | JInt (z : Z) | JBool (b : bool).
Record extraction := { ex_type : string; ex_target : string; ex_detail : list (string * json_value); ex_audit : bool }.
Definition extracted (type target : string) (detail : list (string * json_value)) : extraction :=
  {| ex_type := type; ex_target := target; ex_detail := detail; ex_audit := true |}.
Definition if_set {A} (b : bool) (x : A) : list A := if b then [x] else [].

Definition extractZoneInit (req : audited_request) : extraction :=
  match req with
  | ZoneInitReq name => extracted "zone" ("zone/" +:+ name) [("name", JString name)]
  | _ => extracted "zone" "zone/" []
  end.
Definition extractZoneSet (zone : string) (req : audited_request) : extraction :=
  match req with
  | ZoneSetReq bridge instance_ domain =>
    extracted "zone" ("zone/" +:+ zone)
      [("vpc_bridge_cidr", JString bridge); ("vpc_instance_cidr", JString instance_); ("vpc_network_domain", JString domain)]
  | _ => extracted "zone" ("zone/" +:+ zone) []
  end.
Definition extractHostJoin (req : audited_request) (resp : audited_response) : extraction :=
  match req with
  | HostJoinReq addr =>
    extracted "host" ("host/" +:+ addr)
      (("addr", JString addr) :: match resp with HostJoinResp (Some id) => [("host_id", JString id)] | _ => [] end)
  | _ => extracted "host" "host/" []
  end.
Definition specPackageRefs (spec : AppSpec) : string :=
  join "," (map (fun p => if bool_decide (pk_Version p = "") then pk_Name p else pk_Name p +:+ ":" +:+ pk_Version p)
                (omap id (sp_Packages spec))).
Definition extractAppInstanceDeploy (req : audited_request) : extraction :=
  match req with
  | DeployReq r =>
    extracted "app-instance" ("app-instance/" +:+ rq_Name r)
      (("name", JString (rq_Name r)) ::
       if_set (0 <? rq_ReplicaCap r) ("replica_cap", JInt (rq_ReplicaCap r)) ++
       match rq_Deploy r with Some d => if_set (bool_decide (ad_Action d <> "")) ("deploy_action", JString (ad_Action d)) | None => [] end ++
       match rq_Spec r with
       | Some spec => if_set (bool_decide (sp_Version spec <> "")) ("spec_version", JString (sp_Version spec)) ++
                      if_set (bool_decide (specPackageRefs spec <> "")) ("packages", JString (specPackageRefs spec))
       | None => []
       end)%list
  | _ => extracted "app-instance" "app-instance/" []
  end.
Definition extractAppInstanceDelete (req : audited_request) : extraction :=
  match req with
  | InstanceDeleteReq name id =>
    let name := if bool_decide (name = "") then id else name in
    extracted "app-instance" ("app-instance/" +:+ name) [("name", JString name)]
  | _ => extracted "app-instance" "app-instance/" []
  end.
Definition extractGatewayIngressSet (req : audited_request) : extraction :=
  match req with
  | IngressSetReq (Some (domain, routes, action, letsencrypt)) =>
    extracted "ingress" ("ingress/" +:+ domain)
      (("domain", JString domain) :: ("routes", JString (itoa routes)) ::
       if_set (bool_decide (action <> "")) ("action", JString action) ++ if_set letsencrypt ("letsencrypt_enable", JBool true))%list
  | _ => extracted "ingress" "ingress/" []
  end.
Definition extractPackagePush (req : audited_request) (resp : audited_response) (failed : bool) : extraction :=
  match req with
  | PushReq r =>
    let file := match resp with PushResp f => f | _ => None end in
    let complete := match file with Some f => bool_decide (pf_State f = PackageFileStateComplete) | None => false end in
    if negb failed && negb complete then {| ex_type := "pkg"; ex_target := "pkg/" +:+ pq_Id r; ex_detail := []; ex_audit := false |}
    else extracted "pkg" ("pkg/" +:+ pq_Id r)
           (("id", JString (pq_Id r)) :: ("overwrite", JBool (pq_Overwrite r)) ::
            match file with
            | Some f => [("total_size", JString (itoa (pf_Size f)))]
            | None => if_set (0 <? pq_TotalSize r) ("total_size", JString (itoa (pq_TotalSize r)))
            end)
  | _ => extracted "pkg" "pkg/" []
  end.
Definition extractPackageDelete (req : audited_request) (resp : audited_response) : extraction :=
  match req with
  | PackageDeleteReq id =>
    extracted "pkg" ("pkg/" +:+ id)
      (("id", JString id) :: match resp with PackageDeleteResp n => [("chunks_deleted", JString (itoa n))] | _ => [] end)
  | _ => extracted "pkg" "pkg/" []
  end.
Definition extractUserSet (req : audited_request) : extraction :=
  match req with
  | UserSetReq r =>
    extracted "user" ("user/" +:+ sr_Name r)
      (("name", JString (sr_Name r)) :: if_set (bool_decide (sr_Description r <> "")) ("description", JString (sr_Description r)) ++
       if_set (bool_decide (sr_State r <> "")) ("state", JString (sr_State r)))%list
  | _ => extracted "user" "user/" []
  end.
Definition extractUserDelete (req : audited_request) : extraction :=
  match req with
  | UserDeleteReq name => extracted "user" ("user/" +:+ name) [("name", JString name)]
  | _ => extracted "user" "user/" []
  end.
Definition extractAccessKeySet (req : audited_request) (resp : audited_response) : extraction :=
  match req with
  | KeySetReq user scopes =>
    let kid := match resp with KeySetResp id => id | _ => "" end in
    extracted "access-key" ("access-key/" +:+ kid)
      (("user", JString user) :: ("scopes", JString (join "," scopes)) :: match resp with KeySetResp id => [("key_id", JString id)] | _ => [] end)
  | _ => extracted "access-key" "access-key/" []
  end.
Definition extractAccessKeyDelete (req : audited_request) : extraction :=
  match req with
  | KeyDeleteReq id => extracted "access-key" ("access-key/" +:+ id) [("key_id", JString id)]
  | _ => extracted "access-key" "access-key/" []
  end.

(** [extractors], by method *)
Definition extractors (zone method : string) : option (audited_request -> audited_response -> bool -> extraction) :=
  match cut_last "/" method with
  | Some ("/inapi.ZoneService", name) =>
    if bool_decide (name = "ZoneInit") then Some (fun q _ _ => extractZoneInit q)
    else if bool_decide (name = "ZoneSet") then Some (fun q _ _ => extractZoneSet zone q)
    else if bool_decide (name = "HostJoin") then Some (fun q p _ => extractHostJoin q p)
    else if bool_decide (name = "AppInstanceDeploy") then Some (fun q _ _ => extractAppInstanceDeploy q)
    else if bool_decide (name = "AppInstanceDelete") then Some (fun q _ _ => extractAppInstanceDelete q)
    else if bool_decide (name = "GatewayIngressSet") then Some (fun q _ _ => extractGatewayIngressSet q)
    else if bool_decide (name = "PackagePush") then Some extractPackagePush
    else if bool_decide (name = "PackageDelete") then Some (fun q p _ => extractPackageDelete q p)
    else if bool_decide (name = "UserSet") then Some (fun q _ _ => extractUserSet q)
    else if bool_decide (name = "UserDelete") then Some (fun q _ _ => extractUserDelete q)
    else if bool_decide (name = "AccessKeySet") then Some (fun q p _ => extractAccessKeySet q p)
    else if bool_decide (name = "AccessKeyDelete") then Some (fun q _ _ => extractAccessKeyDelete q)
    else None
  | _ => None
  end.

(** ** Details *)

Definition json_scalar (v : json_value) : string :=
  match v with JString s => json_string s | JInt z => if z <? 0 then "-" +:+ itoa (- z) else itoa z | JBool b => if b then "true" else "false" end.
(** [json.Marshal] of a map: the keys in order. *)
Definition marshalDetail (detail : list (string * json_value)) : option string :=
  if bool_decide (map fst detail = []) then None
  else Some ("{" +:+ join "," (map (fun kv => json_string (fst kv) +:+ ":" +:+ json_scalar (snd kv)) (merge_sort key_le detail)) +:+ "}").
Definition truncated_mark : string := "," +:+ dquote +:+ "truncated" +:+ dquote +:+ ":true}".
Definition only_truncated : string := "{" +:+ dquote +:+ "truncated" +:+ dquote +:+ ":true}".
(** [strings.Replace(s, old, new, 1)] for an [old] of one byte *)
Definition replace_first (c : ascii) (new s : string) : string :=
  match cut_at c s with Some (a, b) => a +:+ new +:+ b | None => s end.
(** The first [n] fields, fewer until they fit. *)
Fixpoint trim_detail (n : nat) (fields : list (string * json_value)) : string :=
  match n with
  | O => only_truncated
  | S n' =>
    match marshalDetail (take n fields) with
    | Some s => if slen s + slen truncated_mark <=? detailMaxLen then replace_first "}" truncated_mark s else trim_detail n' fields
    | None => trim_detail n' fields
    end
  end.
Definition encodeDetail (detail : list (string * json_value)) : string :=
  if bool_decide (map fst detail = []) then "" else
  match marshalDetail detail with
  | Some s => if slen s <=? detailMaxLen then s else trim_detail (length detail - 1) (merge_sort key_le detail)
  | None => trim_detail (length detail - 1) (merge_sort key_le detail)
  end.

(** ** Fields of a record *)

Fixpoint trim_continuation (s : string) : string :=
  match s with
  | "" => ""
  | String c s =>
    let s := trim_continuation s in
    if bool_decide (s = "") && negb (RuneStart c) then "" else String c s
  end.
Definition truncateString (s : string) (n : Z) : string :=
  if slen s <=? n then s else trim_continuation (String.substring 0 (Z.to_nat n) s).

(** The errors of requests, by the code of their status. *)
Inductive rpc_code := PermissionDenied | Unauthenticated | OtherCode.
Definition StatusOf (err : option (rpc_code * string)) : string :=
  match err with
  | None => AuditStatusOK
  | Some (PermissionDenied, _) => AuditStatusDenied
  | Some (Unauthenticated, _) => AuditStatusUnauthenticated
  | Some (OtherCode, _) => AuditStatusError
  end.

Definition hasHostScope (scopes : list string) : bool := existsb (fun s => has_prefix s (AuthScope_Host_Write +:+ ":")) scopes.
(** [fillActor]: the id, user and type of the actor. *)
Definition fillActor (ctx : option AccessKey) : string * string * string :=
  let ak := default empty_key ctx in
  if bool_decide (ak_Id ak = "") then ("", "", AuditActorAnonymous) else
  (ak_Id ak, ak_User ak,
   if bool_decide (ak_Type ak <> "") then ak_Type ak else if hasHostScope (ak_Scopes ak) then AuditActorHost else AuditActorUser).

(** [net.SplitHostPort], the host. *)
Definition SplitHost (addr : string) : option string :=
  match cut_last ":" addr with
  | None => None
  | Some (host, port) =>
    let plain s := s_all (fun c => notc "[" c && notc "]" c) s in
    match addr with
    | String "[" rest =>
      match cut_at "]" rest with
      | Some (inner, String ":" port') =>
        if s_all (notc ":") port' && s_all (notc "[") inner && plain port' then Some inner else None
      | _ => None
      end
    | _ => if s_all (notc ":") host && plain addr then Some host else None
    end
  end.
Definition peerIP (peer : option string) : string :=
  match peer with None => "" | Some addr => default addr (SplitHost addr) end.

(** [buildRecord] *)
Definition buildRecord (zone : string) (ctx : option AccessKey) (peer : option string) (method : string)
  (req : audited_request) (resp : audited_response) (err : option (rpc_code * string)) : option AuditRecord :=
  let st := StatusOf err in
  let denied := bool_decide (st = AuditStatusDenied) in
  let x := match extractors zone method with
           | Some ext => let x := ext req resp (bool_decide (is_Some err)) in
                         if negb (ex_audit x) && negb denied then None else Some x
           | None => if denied then Some (extracted "" "" []) else None
           end in
  match x with
  | None => None
  | Some x =>
    let '(id, user, type) := fillActor ctx in
    Some {| ar_Zone := zone; ar_RecordId := ""; ar_Ts := 0; ar_ActorId := id; ar_ActorUser := user; ar_ActorType := type;
            ar_Action := method; ar_SourceIp := peerIP peer; ar_TargetType := ex_type x; ar_TargetId := ex_target x; ar_Status := st;
            ar_Error := match err with Some (_, text) => truncateString text errorMaxLen | None => "" end;
            ar_Detail := encodeDetail (ex_detail x); ar_PrevHash := ""; ar_Hash := ""; ar_DroppedBefore := 0; ar_SuppressedCount := 0 |}
  end.

Section collect.
Context {S : Type}.

(** [Interceptor], after the handler has run; no manager, no record. *)
Definition intercepted (zone : string) (ctx : option AccessKey) (peer : option string) (method : string)
  (req : audited_request) (resp : audited_response) (err : option (rpc_code * string)) (mgr : option (Manager S)) : option (Manager S) :=
  match mgr with
  | None => None
  | Some m => Some (match buildRecord zone ctx peer method req resp err with Some rec => emit rec m | None => m end)
  end.

(** ** Authentication failures *)

Context {T : TokenLib TokenHeader AuthClaims}.

(** [ParseAccessTokenWithContext] and the key id of the token. *)
Definition ParseAccessTokenWithContext (values : option (list string)) : result AccessToken :=
  match values with
  | Some (v :: _) => if slen v <? 5 then Err "token not found" else ParseAccessToken v
  | Some [] => Err "token not found"
  | None => Err "context not found"
  end.
Definition credentialKid (values : option (list string)) : string :=
  match ParseAccessTokenWithContext values with Ok at' => th_Kid (at_Header at') | Err _ => "" end.
Definition claimedKey (values : option (list string)) (m : AccessKeyManager) : option AccessKey :=
  match ParseAccessTokenWithContext values with Ok at' => Key (th_Kid (at_Header at')) m | Err _ => None end.

Definition failure_key (kid method : string) : string :=
  let nul := String (ascii_of_nat 0) "" in kid +:+ nul +:+ method +:+ nul +:+ "Unauthenticated".
Definition failures_sweepLocked (now : Z) (items : gmap string authFailureEntry) : gmap string authFailureEntry :=
  filter (fun kv => ~ authFailureEntryTTL < now - af_window (snd kv)) items.
(** The cache after a failure, and the count to report, [None] when it is only counted. *)
Definition note_failure (now : Z) (k : string) (c : authFailureCache) : option Z * authFailureCache :=
  let fresh suppressed :=
    let items := <[k := {| af_window := now; af_suppressed := 0 |}]> (fc_items c) in
    let inserts := fc_inserts c + 1 in
    (Some suppressed, {| fc_items := if inserts mod authFailureSweepEvery =? 0 then failures_sweepLocked now items else items; fc_inserts := inserts |}) in
  match fc_items c !! k with
  | Some e =>
    if now - af_window e <? authFailureWindowSec
    then (None, {| fc_items := <[k := {| af_window := af_window e; af_suppressed := i32 (af_suppressed e + 1) |}]> (fc_items c); fc_inserts := fc_inserts c |})
    else fresh (af_suppressed e)
  | None => fresh 0
  end.
Definition AuthFailure (zone : string) (peer : option string) (method : string) (values : option (list string)) (text : string)
  (claimed : option AccessKey) (now : Z) (mgr : option (Manager S)) : option (Manager S) :=
  match mgr with
  | None => None
  | Some m =>
    let kid := credentialKid values in
    let '(count, c) := note_failure now (failure_key kid method) (am_authFailures m) in
    let m := with_failures c m in
    Some (match count with
          | None => m
          | Some suppressed =>
            emit {| ar_Zone := zone; ar_RecordId := ""; ar_Ts := 0; ar_ActorId := kid;
                    ar_ActorUser := match claimed with Some k => ak_User k | None => "" end; ar_ActorType := AuditActorAnonymous;
                    ar_Action := method; ar_SourceIp := peerIP peer; ar_TargetType := ""; ar_TargetId := "";
                    ar_Status := AuditStatusUnauthenticated; ar_Error := truncateString text errorMaxLen; ar_Detail := "";
                    ar_PrevHash := ""; ar_Hash := ""; ar_DroppedBefore := 0; ar_SuppressedCount := suppressed |} m
          end)
  end.
End collect.

Example split_host_v6 : (SplitHost "[::1]:80", SplitHost "10.0.0.1:443", SplitHost "::1") = (Some "::1", Some "10.0.0.1", None).
Proof. reflexivity. Qed.

(** * Cut texts *)

Lemma trim_split s : exists w, s = trim_continuation s +:+ w /\ s_all (fun c => negb (RuneStart c)) w = true /\
  (trim_continuation s = "" \/ exists t d, trim_continuation s = t +:+ String d "" /\ RuneStart d = true).
Proof.
  induction s as [|c s (w & E & Hw & Ht)]; [by exists ""; split_and!; [done|done|left]|]. cbn [trim_continuation].
  destruct (trim_continuation s) as [|c' t'] eqn:Et; cbn [bool_decide].
  - change (bool_decide ("" = "")) with true. cbn [andb]. destruct (RuneStart c) eqn:Ec; cbn [negb].
    + exists w. split; [by rewrite E at 1|]. split; [done|]. right. by exists "", c.
    + exists (String c w). split; [by rewrite E at 1|]. split; [cbn; by rewrite Ec|by left].
  - rewrite bool_decide_false by done. cbn [andb]. exists w. split; [by rewrite E at 1|]. split; [done|]. right.
    destruct Ht as [|(t & d & -> & Hd)]; [done|]. by exists (String c t), d.
Qed.

Lemma list_ascii_app s t : String.list_ascii_of_string (s +:+ t) = (String.list_ascii_of_string s ++ String.list_ascii_of_string t)%list.
Proof. induction s as [|c s IH]; [done|]. cbn. by rewrite IH. Qed.

(** Cutting a text behind a byte that is not ASCII leaves an incomplete rune. *)
Lemma trim_invalid u c st : utf8_run [] (u +:+ String c "") = Some st -> 128 <= byte_of c ->
  utf8_valid (trim_continuation (u +:+ String c "")) = false.
Proof.
  intros Hrun Hc. destruct (trim_split (u +:+ String c "")) as (w & E & Hw & Ht). rewrite E, utf8_run_app in Hrun.
  assert (Hcont : forall x w', w = String x w' -> utf8_run [] w = None).
  { intros x w' ->. cbn in Hw |- *. apply andb_true_iff in Hw as [Hx _]. rewrite RuneStart_spec, negb_involutive in Hx.
    rewrite utf8_first_continuation; [done|]. apply andb_true_iff in Hx as [H1 H2]. lia. }
  destruct Ht as [Ht|(t & d & Ht & Hd)]; rewrite Ht in *.
  - exfalso. cbn in Hrun, E. destruct w as [|x w']; [by destruct u|]. rewrite (Hcont x w' eq_refl) in Hrun. done.
  - rewrite utf8_run_app in Hrun. unfold utf8_valid. rewrite utf8_run_app.
    destruct (utf8_run [] t) as [st1|] eqn:E1; [|done]. cbn in Hrun |- *. destruct (utf8_next st1 (byte_of d)) as [st2|] eqn:E2; [|done].
    assert (st1 = []) as -> by (eapply utf8_next_start; [|exact Hd|exact E2]; eapply due_run; [|exact E1]; constructor). cbn in E2.
    destruct (Z.leb_spec 128 (byte_of d)) as [Hd'|Hd'].
    + apply utf8_first_lead in E2; [|done]. by destruct st2.
    + exfalso. unfold utf8_first in E2. destruct (Z.ltb_spec (byte_of d) 128); [|lia]. injection E2 as <-.
      destruct w as [|x w']; [|by rewrite (Hcont x w' eq_refl) in Hrun]. rewrite s_app_nil_r in E.
      apply (f_equal (fun s => String.list_ascii_of_string s)) in E. rewrite !list_ascii_app in E. apply app_inj_tail in E as [_ ->]. lia.
Qed.

(** ** A record that is not written *)

(** The strings of a record; protobuf refuses one that is not UTF-8. *)
Definition record_strings (r : AuditRecord) : list string :=
  [ar_Zone r; ar_RecordId r; ar_ActorId r; ar_ActorUser r; ar_ActorType r; ar_Action r; ar_SourceIp r; ar_TargetType r; ar_TargetId r;
   ar_Status r; ar_Error r; ar_Detail r; ar_PrevHash r; ar_Hash r].
Class AuditCodecLaws (C : AuditCodec) := {
  canonical_utf8 : forall r b, canonical r = Ok b -> forall s, s ∈ record_strings r -> utf8_valid s = true }.

Lemma substring_prefix n s c : String.get n s = Some c -> exists u w, s = u +:+ String c w /\ String.substring 0 (Datatypes.S n) s = u +:+ String c "" /\ slen u = Z.of_nat n.
Proof.
  revert s. induction n as [|n IH]; intros [|d s]; cbn [String.get]; try done.
  - intros [= ->]. exists "", s. split_and!; [done| |done]. cbn. by destruct s.
  - intros H. destruct (IH s H) as (u & w & -> & E & Hl). exists (String d u), w. split_and!; [done| |unfold slen in *; cbn; lia].
    change (String d (String.substring 0 (Datatypes.S n) (u +:+ String c w)) = String d u +:+ String c ""). by rewrite E.
Qed.

Lemma long_error_invalid text c : utf8_valid text = true -> errorMaxLen < slen text -> String.get 255 text = Some c -> 128 <= byte_of c ->
  utf8_valid (truncateString text errorMaxLen) = false.
Proof.
  intros Hv Hl Hg Hc. unfold truncateString. destruct (Z.leb_spec (slen text) errorMaxLen); [lia|].
  destruct (substring_prefix 255 text c Hg) as (u & w & Et & Es & _). change (Z.to_nat errorMaxLen) with 256%nat. rewrite Es.
  unfold utf8_valid in Hv. replace text with ((u +:+ String c "") +:+ w) in Hv by (rewrite Et, s_app_assoc; done).
  rewrite utf8_run_app in Hv. destruct (utf8_run [] (u +:+ String c "")) as [st|] eqn:E; [|done]. by eapply trim_invalid.
Qed.

(** A failed request can go unrecorded: when its error is longer than 256 bytes and the
    256th byte is not ASCII, the cut leaves an incomplete rune, the record cannot be
    encoded, and writing it changes neither the database nor the counters: no later record
    and no verification tells of it. *)
Theorem long_error_unrecorded {S : Type} {K : Kv S zone_value} (C : AuditCodec) (CL : AuditCodecLaws C) (zone : string)
    (ctx : option AccessKey) (peer : option string) (method : string) (req : audited_request) (resp : audited_response)
    (code : rpc_code) (text : string) (c : ascii) (rec : AuditRecord) :
  buildRecord zone ctx peer method req resp (Some (code, text)) = Some rec ->
  utf8_valid text = true -> errorMaxLen < slen text -> String.get 255 text = Some c -> 128 <= byte_of c ->
  forall (clock : Z) (suffix : string) (m : Manager S), let m' := write clock suffix rec m in
    am_kv m' = am_kv m /\ ChainHead m' = ChainHead m /\ Stats m' = Stats m /\ am_droppedPending m' = 0.
Proof.
  intros Hrec Hv Hl Hg Hc clock suffix m. pose proof (long_error_invalid text c Hv Hl Hg Hc) as Hbad.
  assert (Herr : ar_Error rec = truncateString text errorMaxLen).
  { unfold buildRecord in Hrec. destruct (match extractors zone method with Some _ => _ | None => _ end) as [x|]; [|done].
    destruct (fillActor ctx) as [[id user] type]. by injection Hrec as <-. }
  unfold write. cbn zeta. match goal with |- context [recordHash ?r] => assert (Hh : exists e, recordHash r = Err e) end.
  { unfold recordHash. match goal with |- context [canonical ?r] => destruct (canonical r) as [b|e] eqn:Ec; [|by eexists]; pose proof (canonical_utf8 r b Ec) as Hu end.
    specialize (Hu (ar_Error rec) ltac:(unfold record_strings; set_solver)). congruence. }
  destruct Hh as [e Hh]. by rewrite Hh.
Qed.

Fixpoint times (n : nat) (s : string) : string := match n with O => "" | S n => s +:+ times n s end.
#[local] Instance ex_utf8_codec : AuditCodec :=
  {| canonical r := if forallb utf8_valid (record_strings r) then Ok (join "|" (record_strings r)) else Err "invalid UTF-8" |}.
#[local] Instance ex_utf8_laws : AuditCodecLaws ex_utf8_codec.
Proof.
  split. intros r b Hb s Hs. cbn [canonical ex_utf8_codec] in Hb. destruct (forallb utf8_valid (record_strings r)) eqn:E; [|done].
  rewrite forallb_forall in E. apply E. by apply list_elem_of_In.
Qed.
(** An error of 257 bytes that ends in a letter of two. *)
Definition ex_long_error : string := times 255 "a" +:+ String (ascii_of_nat 195) (String (ascii_of_nat 169) "").
Definition ex_manager : Manager (mem_store zone_value) :=
  {| am_kv := mem_empty; am_retentionMs := 0; am_queue := []; am_droppedTotal := 0; am_droppedPending := 0; am_writtenTotal := 0;
     am_lastTs := 0; am_prevHash := ""; am_anchorDate := ""; am_authFailures := {| fc_items := ∅; fc_inserts := 0 |} |}.

Lemma long_error_unrecorded_witness : exists rec,
  buildRecord "z" None None "/inapi.ZoneService/UserDelete" (UserDeleteReq "bob") OtherResp (Some (OtherCode, ex_long_error)) = Some rec /\
  am_kv (write 1000 "0000" rec ex_manager) = mem_empty /\ Stats (write 1000 "0000" rec ex_manager) = (0, 0).
Proof.
  destruct (buildRecord "z" None None "/inapi.ZoneService/UserDelete" (UserDeleteReq "bob") OtherResp (Some (OtherCode, ex_long_error))) as [rec|] eqn:E;
    [|by vm_compute in E].
  exists rec. split; [done|].
  destruct (long_error_unrecorded ex_utf8_codec ex_utf8_laws "z" None None "/inapi.ZoneService/UserDelete" (UserDeleteReq "bob") OtherResp OtherCode
    ex_long_error (ascii_of_nat 195) rec E) with (clock := 1000) (suffix := "0000") (m := ex_manager) as (H1 & _ & H3 & _).
  - vm_compute. reflexivity.
  - vm_compute. reflexivity.
  - vm_compute. reflexivity.
  - vm_compute. discriminate.
  - split; [exact H1|exact H3].
Defined.

(** The mark of a cut detail replaces the first brace, be it inside a string: the result is
    no JSON. *)
Example detail_cut_malformed :
  encodeDetail [("name", JString "bob"); ("description", JString "}"); ("state", JString (times 500 "x"))] =
  "{" +:+ json_string "description" +:+ ":" +:+ dquote +:+ truncated_mark +:+ dquote +:+ "," +:+ json_string "name" +:+ ":" +:+ json_string "bob" +:+ "}".
Proof. vm_compute. reflexivity. Qed.
