(* ===== verification/Metrics.v ===== *)
(** The runtime metrics of replicas, [src/internal/zonelet/metrics.go]: the cache of the
    latest report of each container, and how it is merged into an instance that is
    returned.  The cache is a map under a lock; a handler is one step. *)
From Stdlib Require Import ZArith Lia.
From S2P Require Import Prelude GoStrings AppNames Kv Zone.
Local Open Scope string_scope.
Local Open Scope Z_scope.
Local Open Scope go_scope.

Definition replicaMetricsMaxAge : Z := 120.

(** [inapi.NodeMetrics], without the counts of operations. *)
Record NodeMetrics := {
  nm_Updated : Z; nm_CpuCores : Z; nm_CpuSys : Z; nm_CpuUser : Z; nm_MemTotal : Z; nm_MemUsed : Z; nm_MemAvailable : Z;
  nm_NetRecvBytes : Z; nm_NetSentBytes : Z; nm_DiskReadBytes : Z; nm_DiskWriteBytes : Z;
  nm_DiskTotalBytes : Z; nm_DiskFreeBytes : Z; nm_RestartCount : Z }.

(** No entry of the cache is nil: [store] refuses nil. *)
Abbreviation replicaMetricsCache := (gmap string NodeMetrics).

Definition metrics_store (name : string) (m : option NodeMetrics) (c : replicaMetricsCache) : replicaMetricsCache :=
  match m with
  | Some m => if bool_decide (name = "") then c else <[name := m]> c
  | None => c
  end.
Definition metrics_load (c : replicaMetricsCache) (name : string) : option NodeMetrics := c !! name.
Definition metrics_stale (now maxAge : Z) (m : NodeMetrics) : bool := maxAge <? (now -64 nm_Updated m).
Definition metrics_sweep (now maxAge : Z) (c : replicaMetricsCache) : replicaMetricsCache :=
  filter (fun kv => metrics_stale now maxAge (snd kv) = false) c.

(** [AppReplicaStatus], and [mergeInto]: the replicas' part of the status, [None] when
    the instance is left as it is. *)
Record AppReplicaStatus := { rs_Id : Z; rs_HostId : string; rs_Metrics : option NodeMetrics }.
Definition replica_status (c : replicaMetricsCache) (name : string) (rep : AppDeployReplica) : AppReplicaStatus :=
  {| rs_Id := dr_Id rep; rs_HostId := dr_HostId rep; rs_Metrics := metrics_load c (ContainerName name (dr_Id rep)) |}.
Definition mergeInto (c : replicaMetricsCache) (inst : AppRecord) : option (list AppReplicaStatus) :=
  match ar_Deploy inst with
  | None => None
  | Some d =>
    if (0 <? Z.of_nat (length (ad_Replicas d))) && bool_decide (ar_Name inst <> "")
    then Some (map (replica_status c (ar_Name inst)) (ad_Replicas d)) else None
  end.

(** A sweep keeps exactly the entries that are fresh enough. *)
Lemma metrics_sweep_lookup now maxAge c name m :
  metrics_sweep now maxAge c !! name = Some m <-> c !! name = Some m /\ metrics_stale now maxAge m = false.
Proof. unfold metrics_sweep. by rewrite map_lookup_filter_Some. Qed.
