(* ===== verification/Alerts.v ===== *)
(** The alerts of the zone leader: [src/internal/zonelet/alerts.go], [AlertList] of
    [src/internal/zonelet/service_metrics.go] and the settings of
    [src/internal/config/config.go].

    The leader evaluates each rule over what it has in memory and drives one streak machine
    per rule and target; every transition is written to the database.  A webhook delivery
    is the alert it carries; it ends at some later time ([alertDelivered]). *)
From Stdlib Require Import ZArith Lia.
From S2P Require Import Prelude GoStrings AppNames Ns Kv Ipam Resources Zone Metrics.
Local Open Scope string_scope.
Local Open Scope Z_scope.
Local Open Scope go_scope.

Definition AlertRuleHostDown : string := "host_down".
Definition AlertRuleDiskFull : string := "disk_full".
Definition AlertRuleReplicaCrashloop : string := "replica_crashloop".
Definition AlertStateFiring : string := "firing".
Definition AlertStateResolved : string := "resolved".
Definition AlertPageSizeDefault : Z := 100.
Definition AlertPageSizeMax : Z := 1000.
Definition AlertScanLimit : Z := 4096.
Definition alertResolvedTTLMs : Z := 30 * 86400 * 1000.
Definition alertFiringRefreshSec : Z := 60.
Definition alertNotifyMaxInFlight : Z := 16.

(** [config.AlertsConfig] *)
Record AlertsConfig := {
  ax_HostDownSeconds : Z; ax_DiskFreePercent : Z; ax_CrashloopWindowSeconds : Z; ax_CrashloopRestarts : Z;
  ax_WebhookURL : string }.
Definition HostDownSec (it : AlertsConfig) : Z := if ax_HostDownSeconds it <=? 0 then 30 else ax_HostDownSeconds it.
Definition DiskFreePercentV (it : AlertsConfig) : Z :=
  if (ax_DiskFreePercent it <=? 0) || (100 <=? ax_DiskFreePercent it) then 10 else ax_DiskFreePercent it.
Definition CrashloopWindowSec (it : AlertsConfig) : Z :=
  if ax_CrashloopWindowSeconds it <=? 0 then 600 else ax_CrashloopWindowSeconds it.
Definition CrashloopRestartsV (it : AlertsConfig) : Z :=
  if ax_CrashloopRestarts it <=? 0 then 3 else i32 (ax_CrashloopRestarts it).
Definition Webhook (it : AlertsConfig) : string := ax_WebhookURL it.

(** ** The rules *)

Record alertRuleSpec := { rule_id : string; fireStreak : Z; resolveStreak : Z }.
Definition alertRuleSpecs : list alertRuleSpec :=
  [{| rule_id := AlertRuleHostDown; fireStreak := 1; resolveStreak := 2 |};
   {| rule_id := AlertRuleDiskFull; fireStreak := 2; resolveStreak := 1 |};
   {| rule_id := AlertRuleReplicaCrashloop; fireStreak := 1; resolveStreak := 1 |}].
Definition alertRuleSpecOf (rule : string) : option alertRuleSpec :=
  List.find (fun spec => bool_decide (rule_id spec = rule)) alertRuleSpecs.

(** ** The state of the evaluation *)

Record alertEntry := { ae_alert : Alert; ae_posRun : Z; ae_negRun : Z; ae_lastWriteSec : Z }.
Record restartTracker := { tr_instance : string; tr_seen : bool; tr_lastCount : Z; tr_events : list Z }.

(** [alertsRuntime] with what it acts on: the database, the deliveries in flight and
    those begun. *)
Record alertsRuntime (S : Type) := {
  rt_kv : S; rt_loaded : bool; rt_entries : gmap string alertEntry;
  rt_kvStatus : gmap string (option HostStatus); rt_restarts : gmap string restartTracker;
  rt_inFlight : Z; rt_posts : list Alert }.
Arguments rt_kv {S} a.
Arguments rt_loaded {S} a.
Arguments rt_entries {S} a.
Arguments rt_kvStatus {S} a.
Arguments rt_restarts {S} a.
Arguments rt_inFlight {S} a.
Arguments rt_posts {S} a.

Definition rt_with_entries {S} (m : gmap string alertEntry) (rt : alertsRuntime S) : alertsRuntime S :=
  {| rt_kv := rt_kv rt; rt_loaded := rt_loaded rt; rt_entries := m; rt_kvStatus := rt_kvStatus rt;
     rt_restarts := rt_restarts rt; rt_inFlight := rt_inFlight rt; rt_posts := rt_posts rt |}.
Definition put_entry {S} (id : string) (e : alertEntry) (rt : alertsRuntime S) : alertsRuntime S :=
  rt_with_entries (<[id := e]> (rt_entries rt)) rt.
Definition drop_entry {S} (id : string) (rt : alertsRuntime S) : alertsRuntime S :=
  rt_with_entries (delete id (rt_entries rt)) rt.
Definition rt_with_kv {S} (kv : S) (rt : alertsRuntime S) : alertsRuntime S :=
  {| rt_kv := kv; rt_loaded := rt_loaded rt; rt_entries := rt_entries rt; rt_kvStatus := rt_kvStatus rt;
     rt_restarts := rt_restarts rt; rt_inFlight := rt_inFlight rt; rt_posts := rt_posts rt |}.
Definition rt_with_status {S} (m : gmap string (option HostStatus)) (rt : alertsRuntime S) : alertsRuntime S :=
  {| rt_kv := rt_kv rt; rt_loaded := rt_loaded rt; rt_entries := rt_entries rt; rt_kvStatus := m;
     rt_restarts := rt_restarts rt; rt_inFlight := rt_inFlight rt; rt_posts := rt_posts rt |}.
Definition rt_with_restarts {S} (m : gmap string restartTracker) (rt : alertsRuntime S) : alertsRuntime S :=
  {| rt_kv := rt_kv rt; rt_loaded := rt_loaded rt; rt_entries := rt_entries rt; rt_kvStatus := rt_kvStatus rt;
     rt_restarts := m; rt_inFlight := rt_inFlight rt; rt_posts := rt_posts rt |}.
Definition rt_with_posts {S} (n : Z) (posts : list Alert) (rt : alertsRuntime S) : alertsRuntime S :=
  {| rt_kv := rt_kv rt; rt_loaded := rt_loaded rt; rt_entries := rt_entries rt; rt_kvStatus := rt_kvStatus rt;
     rt_restarts := rt_restarts rt; rt_inFlight := n; rt_posts := posts |}.
(** [reset]: the deliveries are not part of the state that is dropped. *)
Definition alerts_reset {S} (rt : alertsRuntime S) : alertsRuntime S :=
  {| rt_kv := rt_kv rt; rt_loaded := false; rt_entries := ∅; rt_kvStatus := ∅; rt_restarts := ∅;
     rt_inFlight := rt_inFlight rt; rt_posts := rt_posts rt |}.

Definition alert_id (rule target : string) : string := rule +:+ "/" +:+ target.
Definition is_firing (a : Alert) : bool := bool_decide (al_State a = AlertStateFiring).

Definition with_alert (a : Alert) (e : alertEntry) : alertEntry :=
  {| ae_alert := a; ae_posRun := ae_posRun e; ae_negRun := ae_negRun e; ae_lastWriteSec := ae_lastWriteSec e |}.
Definition with_runs (pos neg : Z) (e : alertEntry) : alertEntry :=
  {| ae_alert := ae_alert e; ae_posRun := pos; ae_negRun := neg; ae_lastWriteSec := ae_lastWriteSec e |}.
Definition with_lastWrite (now : Z) (e : alertEntry) : alertEntry :=
  {| ae_alert := ae_alert e; ae_posRun := ae_posRun e; ae_negRun := ae_negRun e; ae_lastWriteSec := now |}.

(** The updates of an alert. *)
Definition touched (now : Z) (message : string) (a : Alert) : Alert :=
  {| al_Zone := al_Zone a; al_Rule := al_Rule a; al_Target := al_Target a; al_State := al_State a;
     al_StartTime := al_StartTime a; al_UpdateTime := now; al_BreachCount := al_BreachCount a;
     al_Message := if bool_decide (message <> "") then message else al_Message a |}.
Definition with_breach (n : Z) (a : Alert) : Alert :=
  {| al_Zone := al_Zone a; al_Rule := al_Rule a; al_Target := al_Target a; al_State := al_State a;
     al_StartTime := al_StartTime a; al_UpdateTime := al_UpdateTime a; al_BreachCount := n; al_Message := al_Message a |}.
Definition fired (now : Z) (a : Alert) : Alert :=
  {| al_Zone := al_Zone a; al_Rule := al_Rule a; al_Target := al_Target a; al_State := AlertStateFiring;
     al_StartTime := now; al_UpdateTime := al_UpdateTime a; al_BreachCount := 1; al_Message := al_Message a |}.
Definition resolved (a : Alert) : Alert :=
  {| al_Zone := al_Zone a; al_Rule := al_Rule a; al_Target := al_Target a; al_State := AlertStateResolved;
     al_StartTime := al_StartTime a; al_UpdateTime := al_UpdateTime a; al_BreachCount := al_BreachCount a; al_Message := al_Message a |}.

Section alerts.
Context {S : Type} `{Kv S zone_value}.
Implicit Types (rt : alertsRuntime S).

(** [alertsWrite]: an error is logged and the state goes on. *)
Definition alertsWrite (a : Alert) (ttlMs : Z) rt : alertsRuntime S :=
  let o := {| prev_version := 0; create_only := false; ttl_ms := if 0 <? ttlMs then ttlMs else 0 |} in
  rt_with_kv (fst (kv_write (rt_kv rt) o (NsZoneletAlert (al_Zone a) (alert_id (al_Rule a) (al_Target a))) a)) rt.

Definition alertNotify (cfg : AlertsConfig) (a : Alert) rt : alertsRuntime S :=
  if bool_decide (Webhook cfg = "") then rt
  else if alertNotifyMaxInFlight <=? rt_inFlight rt then rt
  else rt_with_posts (rt_inFlight rt + 1) (rt_posts rt ++ [a])%list rt.
(** The deferred end of a delivery. *)
Definition alertDelivered rt : alertsRuntime S := rt_with_posts (rt_inFlight rt - 1) (rt_posts rt) rt.

Definition alertResolve (cfg : AlertsConfig) (id : string) (e : alertEntry) (now : Z) (message : string) rt : alertsRuntime S :=
  let a := touched now message (resolved (ae_alert e)) in
  drop_entry id (alertNotify cfg a (alertsWrite a alertResolvedTTLMs rt)).

Definition new_alert_entry (zone rule target : string) : alertEntry :=
  {| ae_alert := {| al_Zone := zone; al_Rule := rule; al_Target := target; al_State := ""; al_StartTime := 0;
                    al_UpdateTime := 0; al_BreachCount := 0; al_Message := "" |};
     ae_posRun := 0; ae_negRun := 0; ae_lastWriteSec := 0 |}.

(** One positive evaluation of an entry that is in the map. *)
Definition eval_positive (cfg : AlertsConfig) (spec : alertRuleSpec) (id : string) (e : alertEntry) (now : Z) (message : string) rt
  : alertsRuntime S :=
  let e := with_runs (ae_posRun e +64 1) 0 (with_alert (touched now message (ae_alert e)) e) in
  if is_firing (ae_alert e) then
    let e := with_alert (with_breach (i32 (al_BreachCount (ae_alert e) + 1)) (ae_alert e)) e in
    if alertFiringRefreshSec <=? (now -64 ae_lastWriteSec e)
    then put_entry id (with_lastWrite now e) (alertsWrite (ae_alert e) 0 rt)
    else put_entry id e rt
  else if fireStreak spec <=? ae_posRun e then
    let a := fired now (ae_alert e) in
    put_entry id (with_lastWrite now (with_alert a e)) (alertNotify cfg a (alertsWrite a 0 rt))
  else put_entry id e rt.

Definition eval_negative (cfg : AlertsConfig) (spec : alertRuleSpec) (id : string) (e : alertEntry) (now : Z) rt : alertsRuntime S :=
  if negb (is_firing (ae_alert e)) then drop_entry id rt
  else
    let e := with_runs 0 (ae_negRun e +64 1) e in
    if resolveStreak spec <=? ae_negRun e then alertResolve cfg id e now "condition cleared" rt
    else put_entry id e rt.

Definition alertEvalCondition (zone : string) (cfg : AlertsConfig) (rule target : string) (positive : bool) (now : Z)
    (message : string) rt : alertsRuntime S :=
  match alertRuleSpecOf rule with
  | None => rt
  | Some spec =>
    let id := alert_id rule target in
    match rt_entries rt !! id with
    | None => if positive then eval_positive cfg spec id (new_alert_entry zone rule target) now message rt else rt
    | Some e => if positive then eval_positive cfg spec id e now message rt else eval_negative cfg spec id e now rt
    end
  end.

(** ** Loading *)

Definition load_item (m : gmap string alertEntry) (item : string * kv_item Alert) : gmap string alertEntry :=
  match it_value (snd item) with
  | None => m
  | Some a =>
    if negb (is_firing a) || bool_decide (al_Rule a = "") || bool_decide (al_Target a = "") then m
    else <[alert_id (al_Rule a) (al_Target a) :=
             {| ae_alert := a; ae_posRun := al_BreachCount a; ae_negRun := 0; ae_lastWriteSec := al_UpdateTime a |}]> m
  end.
Definition alertsLoadFromStore (zone : string) rt : alertsRuntime S * result unit :=
  let rt := rt_with_restarts ∅ (rt_with_status ∅ (rt_with_entries ∅ rt)) in
  let prefix := NsZoneletAlertPrefix zone in
  match kv_range (V := Alert) (rt_kv rt) prefix (range_end prefix) AlertScanLimit with
  | KvErr m => (rt, Err m)
  | KvNotFound => (rt, Ok tt)
  | KvOk items => (rt_with_entries (foldl load_item ∅ items) rt, Ok tt)
  end.

(** ** The rules of hosts *)

Definition alertHostStatus (zone : string) (statuses : gmap string HostStatus) (hostId : string) rt
  : alertsRuntime S * option HostStatus :=
  match statuses !! hostId with
  | Some hs => (rt, Some hs)
  | None =>
    match rt_kvStatus rt !! hostId with
    | Some hs => (rt, hs)
    | None =>
      let hs := match kv_read (V := HostStatus) (rt_kv rt) (NsHostStatus zone hostId) with
                | KvOk it => hs ← it_value it; if 0 <? hs_Updated hs then Some hs else None
                | _ => None
                end in
      (rt_with_status (<[hostId := hs]> (rt_kvStatus rt)) rt, hs)
    end
  end.

Definition down_breach (cfg : AlertsConfig) (now : Z) (hs : option HostStatus) : bool * string :=
  match hs with
  | Some hs =>
    let age := now -64 hs_Updated hs in
    if HostDownSec cfg <? age then (true, "report age " +:+ itoa age +:+ "s > " +:+ itoa (HostDownSec cfg) +:+ "s") else (false, "")
  | None => (false, "")
  end.
Definition disk_breach (cfg : AlertsConfig) (hs : option HostStatus) : bool * string :=
  match hs with
  | Some hs =>
    if (0 <? hs_DiskTotalBytes hs) && ((hs_DiskFreeBytes hs *64 100) <? (DiskFreePercentV cfg *64 hs_DiskTotalBytes hs))
    then (true, "disk free " +:+ PrettyBytes (hs_DiskFreeBytes hs) 1024 +:+ " / " +:+ PrettyBytes (hs_DiskTotalBytes hs) 1024
                +:+ " < " +:+ itoa (DiskFreePercentV cfg) +:+ "%")
    else (false, "")
  | None => (false, "")
  end.

Definition eval_host (zone : string) (cfg : AlertsConfig) (statuses : gmap string HostStatus) (now : Z) rt (kvHost : KvEntry ZoneHost)
  : alertsRuntime S :=
  let id := h_Id (zh_Host (ke_Value kvHost)) in
  if bool_decide (id = "") then rt
  else
    let '(rt, hs) := alertHostStatus zone statuses id rt in
    let '(downBreach, downMsg) := down_breach cfg now hs in
    let rt := alertEvalCondition zone cfg AlertRuleHostDown id downBreach now downMsg rt in
    let '(diskBreach, diskMsg) := disk_breach cfg hs in
    alertEvalCondition zone cfg AlertRuleDiskFull id diskBreach now diskMsg rt.

Context {MR : MapRange}.

Definition sweep_removed (cfg : AlertsConfig) (evaluated : list string) (now : Z) rt (ie : string * alertEntry) : alertsRuntime S :=
  let '(id, e) := ie in
  if bool_decide (al_Rule (ae_alert e) = AlertRuleReplicaCrashloop) then rt
  else if bool_decide (al_Target (ae_alert e) ∈ evaluated) then rt
  else alertResolve cfg id e now "target removed from zone" rt.

(** The ids of the hosts that are evaluated. *)
Definition alert_host_ids (hosts : KvSet ZoneHost) : list string :=
  filter (fun id => id <> "") (map (fun e => h_Id (zh_Host (ke_Value e))) (ks_arr hosts)).

Definition alertsEvalHosts (zone : string) (cfg : AlertsConfig) (hosts : KvSet ZoneHost) (statuses : gmap string HostStatus)
    (now : Z) rt : alertsRuntime S :=
  let rt := foldl (eval_host zone cfg statuses now) rt (ks_arr hosts) in
  foldl (sweep_removed cfg (alert_host_ids hosts) now) rt (map_range (rt_entries rt)).

(** ** The rule of replicas *)

(** A cumulative counter seen again: a step of [n] is [n] events now, a decrease starts
    the window anew. *)
Definition track (now : Z) (count : Z) (tr : restartTracker) : restartTracker :=
  if negb (tr_seen tr) then
    {| tr_instance := tr_instance tr; tr_seen := true; tr_lastCount := count; tr_events := tr_events tr |}
  else if tr_lastCount tr <? count then
    {| tr_instance := tr_instance tr; tr_seen := true; tr_lastCount := count;
       tr_events := (tr_events tr ++ replicate (Z.to_nat (count - tr_lastCount tr)) now)%list |}
  else if count <? tr_lastCount tr then
    {| tr_instance := tr_instance tr; tr_seen := true; tr_lastCount := count; tr_events := [] |}
  else tr.
Definition observe (now : Z) (trackers : gmap string restartTracker) (nm : string * NodeMetrics) : gmap string restartTracker :=
  let '(name, m) := nm in
  match ParseContainerName name with
  | None => trackers
  | Some (instance, _) =>
    let tr := default {| tr_instance := instance; tr_seen := false; tr_lastCount := 0; tr_events := [] |} (trackers !! name) in
    <[name := track now (nm_RestartCount m) tr]> trackers
  end.

Definition fresh_events (now window : Z) (events : list Z) : list Z := filter (fun ts => (now -64 ts) <= window) events.

Definition eval_tracker (zone : string) (cfg : AlertsConfig) (apps : appInstanceSet) (now : Z) rt (nt : string * restartTracker)
  : alertsRuntime S :=
  let '(name, tr) := nt in
  let window := CrashloopWindowSec cfg in
  if bool_decide (is_Some (KvSet_ref apps (tr_instance tr))) then
    let fresh := fresh_events now window (tr_events tr) in
    let tr := {| tr_instance := tr_instance tr; tr_seen := tr_seen tr; tr_lastCount := tr_lastCount tr; tr_events := fresh |} in
    let breach := CrashloopRestartsV cfg <=? Z.of_nat (length fresh) in
    let msg := if breach then itoa (Z.of_nat (length fresh)) +:+ " restarts within " +:+ itoa window +:+ "s" else "" in
    alertEvalCondition zone cfg AlertRuleReplicaCrashloop name breach now msg
      (rt_with_restarts (<[name := tr]> (rt_restarts rt)) rt)
  else
    let rt := rt_with_restarts (delete name (rt_restarts rt)) rt in
    let id := alert_id AlertRuleReplicaCrashloop name in
    match rt_entries rt !! id with
    | Some e => alertResolve cfg id e now "replica removed" rt
    | None => rt
    end.

Definition alertsEvalCrashloop (zone : string) (cfg : AlertsConfig) (metrics : replicaMetricsCache) (apps : appInstanceSet)
    (now : Z) rt : alertsRuntime S :=
  let rt := rt_with_restarts (foldl (observe now) (rt_restarts rt) (map_range metrics)) rt in
  foldl (eval_tracker zone cfg apps now) rt (map_range (rt_restarts rt)).

(** ** One pass *)

(** What a pass reads. *)
Record alert_input := {
  in_now : Z; in_leader : bool; in_cfg : AlertsConfig; in_hosts : KvSet ZoneHost; in_status : gmap string HostStatus;
  in_metrics : replicaMetricsCache; in_apps : appInstanceSet }.

Definition alerts_eval (zone : string) (i : alert_input) rt : alertsRuntime S :=
  if Len (in_hosts i) =? 0 then rt
  else alertsEvalCrashloop zone (in_cfg i) (in_metrics i) (in_apps i) (in_now i)
         (alertsEvalHosts zone (in_cfg i) (in_hosts i) (in_status i) (in_now i) rt).
Definition rt_with_loaded rt : alertsRuntime S :=
  {| rt_kv := rt_kv rt; rt_loaded := true; rt_entries := rt_entries rt; rt_kvStatus := rt_kvStatus rt;
     rt_restarts := ∅; rt_inFlight := rt_inFlight rt; rt_posts := rt_posts rt |}.
Definition alertsRefresh (zone : string) (i : alert_input) rt : alertsRuntime S :=
  if bool_decide (zone = "") then rt
  else if negb (in_leader i) then if rt_loaded rt then alerts_reset rt else rt
  else if rt_loaded rt then alerts_eval zone i rt
  else
    match alertsLoadFromStore zone rt with
    | (rt, Err _) => rt
    | (rt, Ok _) => alerts_eval zone i (rt_with_loaded rt)
    end.

(** ** The listing *)

Record AlertListRequest := { alr_State : string; alr_Rule : string; alr_PageSize : Z; alr_PageToken : string }.

Definition alert_wanted (req : AlertListRequest) (a : Alert) : bool :=
  negb (bool_decide (al_Rule a = "") || bool_decide (al_Target a = "")) &&
  (bool_decide (alr_Rule req = "") || bool_decide (al_Rule a = alr_Rule req)) &&
  (bool_decide (alr_State req = "") || bool_decide (al_State a = alr_State req)) &&
  (bool_decide (alr_PageToken req = "") || negb (String.leb (alert_id (al_Rule a) (al_Target a)) (alr_PageToken req))).
(** The loop: the page so far, and the token when it is full. *)
Fixpoint alert_page (req : AlertListRequest) (pageSize : Z) (page : list Alert) (items : list (string * kv_item Alert)) : list Alert * string :=
  match items with
  | [] => (page, "")
  | item :: items =>
    match it_value (snd item) with
    | Some a =>
      if alert_wanted req a then
        if pageSize <=? Z.of_nat (length page)
        then (page, match last page with Some l => alert_id (al_Rule l) (al_Target l) | None => "" end)
        else alert_page req pageSize (page ++ [a])%list items
      else alert_page req pageSize page items
    | None => alert_page req pageSize page items
    end
  end.
(** The request after the authorisation of the caller. *)
Definition AlertList (zone : string) (leader : bool) (kv : S) (req : AlertListRequest) : result (list Alert * string) :=
  if negb leader then Err "zonelet leader"
  else if bool_decide (alr_State req <> "") && bool_decide (alr_State req <> AlertStateFiring) &&
          bool_decide (alr_State req <> AlertStateResolved) then Err "invalid state filter"
  else
    let pageSize := if alr_PageSize req <=? 0 then AlertPageSizeDefault else alr_PageSize req in
    let pageSize := Z.min pageSize AlertPageSizeMax in
    let prefix := NsZoneletAlertPrefix zone in
    match kv_range (V := Alert) kv prefix (range_end prefix) AlertScanLimit with
    | KvErr m => Err m
    | KvNotFound => Ok ([], "")
    | KvOk items => Ok (alert_page req pageSize [] items)
    end.
End alerts.
