(* ===== verification/AlertsLogic.v ===== *)
(** Theorems about the alerts of the zone leader ([Alerts]): the alert of a host is a
    function of the history of its reports, the database holds what the leader has in
    memory, a new leader resumes from it, and an alert of a replica that is gone when the
    leader changes is resolved by nobody. *)
From Stdlib Require Import ZArith Lia Ascii.
From S2P Require Import Prelude GoStrings AppNames Ns Kv Paging Ipam Resources Zone Metrics Alerts.
Local Open Scope string_scope.
Local Open Scope Z_scope.
Local Open Scope go_scope.

(** ** Streaks *)

(** The [n] evaluations before position [i] all came out as [b]. *)
Definition streak (b : bool) (n i : nat) (h : list bool) : Prop :=
  (n <= i <= length h)%nat /\ forall k, (i - n <= k < i)%nat -> h !! k = Some b.
(** Some streak of [f] positives was not followed by one of [r] negatives. *)
Definition alerting (f r : nat) (h : list bool) : Prop :=
  exists i, streak true f i h /\ forall j, (i < j)%nat -> ~ streak false r j h.

(** The evaluations at the end that came out as [b]. *)
Fixpoint lead (b : bool) (h : list bool) : nat :=
  match h with [] => O | c :: h => if Bool.eqb c b then Datatypes.S (lead b h) else O end.
Definition trail (b : bool) (h : list bool) : nat := lead b (reverse h).

Lemma trail_snoc b c h : trail b (h ++ [c])%list = if Bool.eqb c b then Datatypes.S (trail b h) else O.
Proof. unfold trail. rewrite reverse_snoc. reflexivity. Qed.

Lemma trail_le b h : (trail b h <= length h)%nat.
Proof.
  induction h as [|c h IH] using rev_ind; [done|]. rewrite trail_snoc, length_app. cbn. destruct (Bool.eqb c b); lia.
Qed.

Lemma streak_end b n h : streak b n (length h) h <-> (n <= trail b h)%nat.
Proof.
  revert n. induction h as [|c h IH] using rev_ind; intros n.
  - cbn. split; [by intros [? _]; lia|]. intros Hn. split; [cbn in *; lia|]. intros k. cbn in *. lia.
  - rewrite trail_snoc. rewrite length_app. cbn [length].
    destruct n as [|n].
    { split; [lia|]. intros _. split; [rewrite length_app; cbn; lia|lia]. }
    split.
    + intros [Hl Hk]. assert (Hc : c = b).
      { specialize (Hk (length h) ltac:(lia)). rewrite list_lookup_middle in Hk by done. by injection Hk. }
      subst c. rewrite Bool.eqb_reflx. apply le_n_S, IH. rewrite length_app in Hl. cbn in Hl. split; [lia|].
      intros k Hk'. specialize (Hk k ltac:(lia)). rewrite lookup_app_l in Hk by lia. exact Hk.
    + destruct (Bool.eqb_spec c b) as [->|]; [|lia]. intros Hn. apply le_S_n, IH in Hn as [Hl Hk].
      split; [rewrite length_app; cbn; lia|]. intros k Hk'. destruct (decide (k = length h)) as [->|].
      * by rewrite list_lookup_middle.
      * rewrite lookup_app_l by lia. apply Hk. lia.
Qed.

Lemma streak_before b n i h c : (i <= length h)%nat -> streak b n i (h ++ [c])%list <-> streak b n i h.
Proof.
  intros Hi. unfold streak. rewrite length_app. cbn. split; intros [Hl Hk]; (split; [lia|]); intros k Hk'; specialize (Hk k Hk').
  - rewrite lookup_app_l in Hk by lia. exact Hk.
  - rewrite lookup_app_l by lia. exact Hk.
Qed.

Lemma streak_length b n i h : streak b n i h -> (n <= i <= length h)%nat.
Proof. by intros [? _]. Qed.

(** One more evaluation. *)
Lemma alerting_snoc_true f r h : (0 < f)%nat -> (0 < r)%nat ->
  alerting f r (h ++ [true])%list <-> alerting f r h \/ (f <= Datatypes.S (trail true h))%nat.
Proof.
  intros Hf Hr. assert (Ht : trail true (h ++ [true])%list = Datatypes.S (trail true h)) by (by rewrite trail_snoc).
  assert (He : streak true f (Datatypes.S (length h)) (h ++ [true])%list <-> (f <= Datatypes.S (trail true h))%nat).
  { rewrite <- Ht, <- (streak_end true f). rewrite length_app. cbn [length]. by rewrite Nat.add_1_r. }
  split.
  - intros (i & Hs & Hn). pose proof (streak_length _ _ _ _ Hs) as Hl. rewrite length_app in Hl. cbn in Hl.
    destruct (decide (i = Datatypes.S (length h))) as [->|]; [right; by apply He|left].
    exists i. rewrite streak_before in Hs by lia. split; [done|]. intros j Hj Hs'. apply (Hn j Hj).
    rewrite streak_before; [done|]. apply streak_length in Hs'. lia.
  - intros [(i & Hs & Hn)|Hle].
    + pose proof (streak_length _ _ _ _ Hs) as Hl. exists i. rewrite streak_before by lia. split; [done|]. intros j Hj Hs'.
      pose proof (streak_length _ _ _ _ Hs') as Hl'. rewrite length_app in Hl'. cbn in Hl'.
      destruct (decide (j = Datatypes.S (length h))) as [->|].
      * destruct Hs' as [_ Hk]. specialize (Hk (length h) ltac:(lia)). by rewrite list_lookup_middle in Hk.
      * apply (Hn j Hj). rewrite streak_before in Hs' by lia. exact Hs'.
    + exists (Datatypes.S (length h)). split; [by apply He|]. intros j Hj Hs'. apply streak_length in Hs'.
      rewrite length_app in Hs'. cbn in Hs'. lia.
Qed.

Lemma alerting_snoc_false f r h : (0 < f)%nat -> (0 < r)%nat ->
  alerting f r (h ++ [false])%list <-> alerting f r h /\ (Datatypes.S (trail false h) < r)%nat.
Proof.
  intros Hf Hr. assert (Ht : trail false (h ++ [false])%list = Datatypes.S (trail false h)) by (by rewrite trail_snoc).
  assert (He : streak false r (Datatypes.S (length h)) (h ++ [false])%list <-> (r <= Datatypes.S (trail false h))%nat).
  { rewrite <- Ht, <- (streak_end false r). rewrite length_app. cbn [length]. by rewrite Nat.add_1_r. }
  split.
  - intros (i & Hs & Hn). pose proof (streak_length _ _ _ _ Hs) as Hl. rewrite length_app in Hl. cbn in Hl.
    assert (i <> Datatypes.S (length h)).
    { intros ->. destruct Hs as [_ Hk]. specialize (Hk (length h) ltac:(lia)). by rewrite list_lookup_middle in Hk. }
    rewrite streak_before in Hs by lia. split.
    + exists i. split; [done|]. intros j Hj Hs'. apply (Hn j Hj). rewrite streak_before; [done|]. apply streak_length in Hs'. lia.
    + apply Nat.nle_gt. intros Hle. apply He in Hle. by apply (Hn (Datatypes.S (length h)) ltac:(lia)).
  - intros [(i & Hs & Hn) Hlt]. pose proof (streak_length _ _ _ _ Hs) as Hl. exists i. rewrite streak_before by lia.
    split; [done|]. intros j Hj Hs'. pose proof (streak_length _ _ _ _ Hs') as Hl'. rewrite length_app in Hl'. cbn in Hl'.
    destruct (decide (j = Datatypes.S (length h))) as [->|]; [apply He in Hs'; lia|].
    apply (Hn j Hj). rewrite streak_before in Hs' by lia. exact Hs'.
Qed.

Lemma alerting_nil f r : (0 < f)%nat -> ~ alerting f r [].
Proof. intros Hf (i & Hs & _). apply streak_length in Hs. cbn in Hs. lia. Qed.

(** ** The machine follows the history *)

Section machine.
Context {S : Type} {K : Kv S zone_value}.
Implicit Types (rt : alertsRuntime S).

Lemma entries_notify cfg a rt : rt_entries (alertNotify cfg a rt) = rt_entries rt.
Proof. unfold alertNotify. destruct (bool_decide _); [done|]. by destruct (_ <=? _). Qed.
Lemma loaded_notify cfg a rt : rt_loaded (alertNotify cfg a rt) = rt_loaded rt.
Proof. unfold alertNotify. destruct (bool_decide _); [done|]. by destruct (_ <=? _). Qed.
Lemma restarts_notify cfg a rt : rt_restarts (alertNotify cfg a rt) = rt_restarts rt.
Proof. unfold alertNotify. destruct (bool_decide _); [done|]. by destruct (_ <=? _). Qed.
Lemma kv_notify cfg a rt : rt_kv (alertNotify cfg a rt) = rt_kv rt.
Proof. unfold alertNotify. destruct (bool_decide _); [done|]. by destruct (_ <=? _). Qed.

Lemma entries_resolve cfg id e now msg rt : rt_entries (alertResolve cfg id e now msg rt) = delete id (rt_entries rt).
Proof. unfold alertResolve, drop_entry. cbn. by rewrite entries_notify. Qed.

(** What an evaluation makes of the entry. *)
Lemma entries_positive cfg spec id e now msg rt : exists e',
  rt_entries (eval_positive cfg spec id e now msg rt) = <[id := e']> (rt_entries rt) /\ ae_negRun e' = 0 /\
  ae_posRun e' = (ae_posRun e +64 1) /\
  is_firing (ae_alert e') = is_firing (ae_alert e) || (fireStreak spec <=? (ae_posRun e +64 1)).
Proof.
  unfold eval_positive. cbn [ae_alert with_runs with_alert ae_posRun].
  assert (Ef : is_firing (touched now msg (ae_alert e)) = is_firing (ae_alert e)) by done. rewrite Ef.
  destruct (is_firing (ae_alert e)) eqn:F; cbn [orb].
  - destruct (_ <=? _); (eexists; split; [reflexivity|]); cbn; (split_and!; [done|done|exact F]).
  - destruct (fireStreak spec <=? _) eqn:P.
    + eexists. split; [unfold put_entry; cbn; rewrite entries_notify; reflexivity|]. done.
    + eexists. split; [reflexivity|]. cbn. done.
Qed.

Lemma entries_negative cfg spec id e now rt :
  rt_entries (eval_negative cfg spec id e now rt) =
  if is_firing (ae_alert e) && negb (resolveStreak spec <=? (ae_negRun e +64 1))
  then <[id := with_runs 0 (ae_negRun e +64 1) e]> (rt_entries rt) else delete id (rt_entries rt).
Proof.
  unfold eval_negative. destruct (is_firing (ae_alert e)); cbn [negb andb]; [|done].
  cbn [ae_negRun with_runs]. destruct (_ <=? _); cbn [negb]; [|done]. apply entries_resolve.
Qed.

Lemma entries_eval_other zone cfg rule target pos now msg rt id : id <> alert_id rule target ->
  rt_entries (alertEvalCondition zone cfg rule target pos now msg rt) !! id = rt_entries rt !! id.
Proof.
  intros Hid. unfold alertEvalCondition. destruct (alertRuleSpecOf rule) as [spec|]; [|done].
  destruct (rt_entries rt !! alert_id rule target) as [e|] eqn:E; destruct pos; try done.
  - destruct (entries_positive cfg spec (alert_id rule target) e now msg rt) as (e' & -> & _). by rewrite lookup_insert_ne.
  - rewrite entries_negative. destruct (_ && _); [by rewrite lookup_insert_ne|by rewrite lookup_delete_ne].
  - destruct (entries_positive cfg spec (alert_id rule target) (new_alert_entry zone rule target) now msg rt) as (e' & -> & _).
    by rewrite lookup_insert_ne.
Qed.

Lemma loaded_eval zone cfg rule target pos now msg rt :
  rt_loaded (alertEvalCondition zone cfg rule target pos now msg rt) = rt_loaded rt.
Proof.
  unfold alertEvalCondition. destruct (alertRuleSpecOf rule) as [spec|]; [|done].
  assert (P : forall e, rt_loaded (eval_positive cfg spec (alert_id rule target) e now msg rt) = rt_loaded rt).
  { intros e. unfold eval_positive. case_match; [by case_match|]. case_match; [|done]. cbn. by rewrite loaded_notify. }
  destruct (rt_entries rt !! _); destruct pos; try done.
  unfold eval_negative. case_match; [done|]. case_match; [|done]. unfold alertResolve, drop_entry. cbn. by rewrite loaded_notify.
Qed.

Definition firing_at (id : string) rt : bool :=
  match rt_entries rt !! id with Some e => is_firing (ae_alert e) | None => false end.

(** The entry of a target after the history [h] of its evaluations. *)
Definition tracks (spec : alertRuleSpec) (h : list bool) (id : string) rt : Prop :=
  let f := Z.to_nat (fireStreak spec) in
  let r := Z.to_nat (resolveStreak spec) in
  match rt_entries rt !! id with
  | None => ~ alerting f r h /\ trail true h = O
  | Some e =>
    if is_firing (ae_alert e) then alerting f r h /\ ae_negRun e = Z.of_nat (trail false h) /\ (trail false h < r)%nat
    else ~ alerting f r h /\ ae_posRun e = Z.of_nat (trail true h) /\ (0 < trail true h < f)%nat
  end.

Definition small_streaks (spec : alertRuleSpec) : Prop := 0 < fireStreak spec < 2 ^ 62 /\ 0 < resolveStreak spec < 2 ^ 62.
Lemma rules_small rule spec : alertRuleSpecOf rule = Some spec -> small_streaks spec.
Proof.
  unfold alertRuleSpecOf. intros H%List.find_some. destruct H as [H _]. unfold alertRuleSpecs in H. cbn in H.
  destruct H as [<-|[<-|[<-|[]]]]; unfold small_streaks; cbn; lia.
Qed.

Lemma lead_opposite b h : (0 < lead b h)%nat -> lead (negb b) h = O.
Proof. destruct h as [|c h]; [done|]. cbn. destruct c, b; cbn; lia. Qed.

Lemma tracks_positive cfg spec h id e now msg rt : small_streaks spec ->
  (is_firing (ae_alert e) = true -> alerting (Z.to_nat (fireStreak spec)) (Z.to_nat (resolveStreak spec)) h) ->
  (is_firing (ae_alert e) = false -> ~ alerting (Z.to_nat (fireStreak spec)) (Z.to_nat (resolveStreak spec)) h /\
    ae_posRun e = Z.of_nat (trail true h) /\ (trail true h < Z.to_nat (fireStreak spec))%nat) ->
  tracks spec (h ++ [true])%list id (eval_positive cfg spec id e now msg rt).
Proof.
  intros [Sf Sr] Hfire Hquiet. unfold tracks.
  destruct (entries_positive cfg spec id e now msg rt) as (e' & -> & Hn & Hp & Hf). rewrite lookup_insert_eq.
  rewrite Hf. destruct (is_firing (ae_alert e)); cbn [orb].
  - specialize (Hfire eq_refl). rewrite alerting_snoc_true by lia. rewrite trail_snoc. cbn [Bool.eqb]. rewrite Hn. split_and!; [by left|done|lia].
  - destruct (Hquiet eq_refl) as (Ha & Hpos & Hlt). rewrite Hp, Hpos. rewrite !trail_snoc. cbn [Bool.eqb].
    rewrite i64_id by (unfold in_i64; lia).
    destruct (Z.leb_spec (fireStreak spec) (Z.of_nat (trail true h) + 1)).
    + rewrite alerting_snoc_true by lia. rewrite Hn. split_and!; [right; lia|done|lia].
    + rewrite alerting_snoc_true by lia. split; [|split; lia]. intros [?|?]; [done|lia].
Qed.

Lemma tracks_eval zone cfg rule target pos now msg spec h rt : alertRuleSpecOf rule = Some spec ->
  tracks spec h (alert_id rule target) rt ->
  tracks spec (h ++ [pos])%list (alert_id rule target) (alertEvalCondition zone cfg rule target pos now msg rt).
Proof.
  intros Hs Ht. pose proof (rules_small _ _ Hs) as Hsm. pose proof Hsm as [Sf Sr].
  unfold alertEvalCondition. rewrite Hs.
  unfold tracks in Ht. destruct (rt_entries rt !! alert_id rule target) as [e|] eqn:E; destruct pos.
  - apply tracks_positive; [done| |]; intros F; rewrite F in Ht; [tauto|]. destruct Ht as (? & ? & ?). split_and!; [done|done|lia].
  - unfold tracks. rewrite entries_negative. destruct (is_firing (ae_alert e)) eqn:F; cbn [andb].
    + destruct Ht as (Ha & Hn & Hlt). rewrite Hn. rewrite i64_id by (unfold in_i64; lia).
      destruct (Z.leb_spec (resolveStreak spec) (Z.of_nat (trail false h) + 1)); cbn [negb].
      * rewrite lookup_delete_eq. rewrite alerting_snoc_false, trail_snoc by lia. cbn [Bool.eqb]. split; [|done]. intros [_ ?]. lia.
      * rewrite lookup_insert_eq. cbn [ae_alert with_runs ae_negRun]. rewrite F. rewrite alerting_snoc_false, trail_snoc by lia.
        cbn [Bool.eqb]. split_and!; [done|lia|lia|lia].
    + destruct Ht as (Ha & _). rewrite lookup_delete_eq, alerting_snoc_false, trail_snoc by lia. cbn [Bool.eqb]. tauto.
  - destruct Ht as [Ha Ht]. apply tracks_positive; [done|done|]. intros _. cbn [ae_posRun new_alert_entry]. rewrite Ht. split_and!; [done|done|lia].
  - destruct Ht as [Ha Ht]. unfold tracks. rewrite E, alerting_snoc_false, trail_snoc by lia. cbn [Bool.eqb]. tauto.
Qed.

Lemma tracks_firing spec h id rt : tracks spec h id rt ->
  firing_at id rt = true <-> alerting (Z.to_nat (fireStreak spec)) (Z.to_nat (resolveStreak spec)) h.
Proof.
  unfold tracks, firing_at. destruct (rt_entries rt !! id) as [e|].
  - destruct (is_firing (ae_alert e)); [tauto|]. intros [Ha _]. by split.
  - intros [Ha _]. by split.
Qed.
Lemma tracks_start spec id rt : small_streaks spec -> rt_entries rt !! id = None -> tracks spec [] id rt.
Proof. intros [Hf _] E. unfold tracks. rewrite E. split; [apply alerting_nil; lia|done]. Qed.
Lemma tracks_same spec h id rt rt' : rt_entries rt' !! id = rt_entries rt !! id -> tracks spec h id rt -> tracks spec h id rt'.
Proof. unfold tracks. by intros ->. Qed.
End machine.

(** ** Identifiers *)

Lemma alert_id_cut rule target : s_all (notc "/") rule = true -> cut_at "/" (alert_id rule target) = Some (rule, target).
Proof. intros Hr. unfold alert_id. change ("/" +:+ target) with (String "/"%char target). by apply cut_at_app. Qed.
Definition known_rule (rule : string) : Prop := is_Some (alertRuleSpecOf rule).
Lemma known_cases rule : known_rule rule -> rule = AlertRuleHostDown \/ rule = AlertRuleDiskFull \/ rule = AlertRuleReplicaCrashloop.
Proof.
  intros [spec Hs]. apply List.find_some in Hs as [Hin He]. apply bool_decide_eq_true in He. subst rule.
  unfold alertRuleSpecs in Hin. cbn in Hin. destruct Hin as [<-|[<-|[<-|[]]]]; cbn; tauto.
Qed.
Lemma known_no_slash rule : known_rule rule -> s_all (notc "/") rule = true.
Proof. intros [-> | [-> | ->]]%known_cases; reflexivity. Qed.
Lemma alert_id_inj r1 t1 r2 t2 : known_rule r1 -> known_rule r2 -> alert_id r1 t1 = alert_id r2 t2 -> r1 = r2 /\ t1 = t2.
Proof.
  intros H1%known_no_slash H2%known_no_slash E. pose proof (alert_id_cut r1 t1 H1) as C1. rewrite E, (alert_id_cut r2 t2 H2) in C1.
  injection C1 as -> ->. done.
Qed.
Lemma known_down : known_rule AlertRuleHostDown. Proof. by eexists. Qed.
Lemma known_disk : known_rule AlertRuleDiskFull. Proof. by eexists. Qed.
Lemma known_crash : known_rule AlertRuleReplicaCrashloop. Proof. by eexists. Qed.

(** An alert under its identifier. *)
Definition alert_of (zone id : string) (a : Alert) : Prop :=
  id = alert_id (al_Rule a) (al_Target a) /\ al_Zone a = zone /\ known_rule (al_Rule a) /\ al_Target a <> "".

(** ** What the database holds *)

Section written.
Context {S : Type} {K : Kv S zone_value} {KL : KvLaws K} {KR : KvReliable K} {MR : MapRange} {MRL : MapRangeLaws MR}.
Implicit Types (rt : alertsRuntime S) (kv : S).

Definition stored (zone : string) kv (id : string) : option Alert :=
  match kv_read (V := Alert) kv (NsZoneletAlert zone id) with KvOk it => it_value it | _ => None end.
Definition stored_firing (zone : string) kv (id : string) : bool :=
  match stored zone kv id with Some a => is_firing a | None => false end.

(** Every record of the database is under its identifier. *)
Definition kv_wf (zone : string) kv : Prop := forall id a, stored zone kv id = Some a -> alert_of zone id a.
Definition entries_wf (zone : string) rt : Prop := forall id e, rt_entries rt !! id = Some e -> alert_of zone id (ae_alert e).

Record agrees (zone : string) rt : Prop := {
  ag_kv : kv_wf zone (rt_kv rt);
  ag_entries : entries_wf zone rt;
  ag_same : forall id, firing_at id rt = stored_firing zone (rt_kv rt) id }.

Lemma NsZoneletAlert_inj zone id id' : NsZoneletAlert zone id = NsZoneletAlert zone id' -> id = id'.
Proof. unfold NsZoneletAlert. intros E. do 4 apply (inj _) in E. exact E. Qed.

Lemma stored_write zone id a ttl rt id' : alert_of zone id a ->
  stored zone (rt_kv (alertsWrite a ttl rt)) id' = if decide (id' = id) then Some a else stored zone (rt_kv rt) id'.
Proof.
  intros (-> & <- & _). unfold alertsWrite. set (o := Build_kv_opts _ _ _). cbn [rt_kv rt_with_kv].
  set (key := NsZoneletAlert _ (alert_id _ _)).
  destruct (kv_write_total (V := Alert) (rt_kv rt) o key a eq_refl (Z.le_refl 0)) as (kv' & n & E). rewrite E. cbn [fst].
  destruct (kv_write_ok (V := Alert) _ _ _ _ _ _ E) as (R & Fr & _). unfold stored. destruct (decide _) as [->|Hne].
  - fold key. by rewrite R.
  - rewrite Fr; [done|]. unfold key. intros He. by apply NsZoneletAlert_inj in He.
Qed.

Lemma agrees_at zone rt rt' id : agrees zone rt ->
  (forall id', id' <> id -> rt_entries rt' !! id' = rt_entries rt !! id' /\ stored zone (rt_kv rt') id' = stored zone (rt_kv rt) id') ->
  (forall e, rt_entries rt' !! id = Some e -> alert_of zone id (ae_alert e)) ->
  (forall a, stored zone (rt_kv rt') id = Some a -> alert_of zone id a) ->
  firing_at id rt' = stored_firing zone (rt_kv rt') id -> agrees zone rt'.
Proof.
  intros [Hk He Hs] Hfr He' Hk' Hs'. split.
  - intros id' a. destruct (decide (id' = id)) as [->|Hne]; [apply Hk'|]. rewrite (proj2 (Hfr _ Hne)). apply Hk.
  - intros id' e. destruct (decide (id' = id)) as [->|Hne]; [apply He'|]. rewrite (proj1 (Hfr _ Hne)). apply He.
  - intros id'. destruct (decide (id' = id)) as [->|Hne]; [exact Hs'|]. specialize (Hs id'). unfold firing_at, stored_firing in *.
    by rewrite (proj1 (Hfr _ Hne)), (proj2 (Hfr _ Hne)).
Qed.

Lemma agrees_same zone rt rt' : rt_entries rt' = rt_entries rt -> rt_kv rt' = rt_kv rt -> agrees zone rt -> agrees zone rt'.
Proof.
  intros E1 E2 [Hk He Hs]. split; [by rewrite E2|intros id e; rewrite E1; apply He|].
  intros id. specialize (Hs id). unfold firing_at in *. by rewrite E1, E2.
Qed.

(** A firing alert, or one that is written as it becomes so. *)
Lemma positive_outcome cfg spec id e now msg rt : exists e',
  rt_entries (eval_positive cfg spec id e now msg rt) = <[id := e']> (rt_entries rt) /\
  (forall zone, alert_of zone id (ae_alert e) -> alert_of zone id (ae_alert e')) /\
  ((rt_kv (eval_positive cfg spec id e now msg rt) = rt_kv rt /\ is_firing (ae_alert e') = is_firing (ae_alert e)) \/
   (rt_kv (eval_positive cfg spec id e now msg rt) = rt_kv (alertsWrite (ae_alert e') 0 rt) /\ is_firing (ae_alert e') = true)).
Proof.
  unfold eval_positive. cbn [ae_alert with_runs with_alert ae_posRun].
  assert (Ef : is_firing (touched now msg (ae_alert e)) = is_firing (ae_alert e)) by done. rewrite Ef.
  destruct (is_firing (ae_alert e)) eqn:F.
  - destruct (_ <=? _); (eexists; split; [reflexivity|]; split; [by intros zone (? & ? & ? & ?)|]); [right|left]; done.
  - destruct (fireStreak spec <=? _).
    + eexists. split; [unfold put_entry; cbn; rewrite entries_notify; reflexivity|]. split; [by intros zone (? & ? & ? & ?)|].
      right. cbn. by rewrite kv_notify.
    + eexists. split; [reflexivity|]. split; [by intros zone (? & ? & ? & ?)|]. by left.
Qed.

Lemma agrees_positive zone cfg spec id e now msg rt : agrees zone rt -> alert_of zone id (ae_alert e) ->
  is_firing (ae_alert e) = firing_at id rt -> agrees zone (eval_positive cfg spec id e now msg rt).
Proof.
  intros Ha Hof Hf. destruct (positive_outcome cfg spec id e now msg rt) as (e' & He & Hof' & Hkv).
  specialize (Hof' zone Hof). apply (agrees_at zone rt _ id Ha).
  - intros id' Hne. rewrite He, lookup_insert_ne by done. split; [done|]. destruct Hkv as [[-> _]|[-> _]]; [done|].
    rewrite (stored_write zone id) by done. by rewrite decide_False.
  - intros e0. rewrite He, lookup_insert_eq. by intros [= <-].
  - intros a. destruct Hkv as [[-> _]|[-> _]]; [apply (ag_kv _ _ Ha)|]. rewrite (stored_write zone id) by done.
    rewrite decide_True by done. by intros [= <-].
  - unfold firing_at. rewrite He, lookup_insert_eq. destruct Hkv as [[-> F]|[-> F]].
    + rewrite F, Hf. apply (ag_same _ _ Ha).
    + unfold stored_firing. rewrite (stored_write zone id), decide_True by done. done.
Qed.

Lemma agrees_resolve zone cfg id e now msg rt : agrees zone rt -> alert_of zone id (ae_alert e) ->
  agrees zone (alertResolve cfg id e now msg rt).
Proof.
  intros Ha Hof. assert (Hof' : alert_of zone id (touched now msg (resolved (ae_alert e)))) by (destruct Hof as (? & ? & ? & ?); done).
  assert (Ekv : rt_kv (alertResolve cfg id e now msg rt) = rt_kv (alertsWrite (touched now msg (resolved (ae_alert e))) alertResolvedTTLMs rt))
    by (unfold alertResolve, drop_entry; cbn; by rewrite kv_notify).
  apply (agrees_at zone rt _ id Ha).
  - intros id' Hne. rewrite entries_resolve, lookup_delete_ne by done. split; [done|]. rewrite Ekv, (stored_write zone id) by done.
    by rewrite decide_False.
  - intros e0. rewrite entries_resolve, lookup_delete_eq. done.
  - intros a. rewrite Ekv, (stored_write zone id), decide_True by done. by intros [= <-].
  - unfold firing_at, stored_firing. rewrite entries_resolve, lookup_delete_eq, Ekv, (stored_write zone id), decide_True by done. done.
Qed.

Lemma agrees_eval zone cfg rule target pos now msg rt : target <> "" -> agrees zone rt ->
  agrees zone (alertEvalCondition zone cfg rule target pos now msg rt).
Proof.
  intros Ht Ha. unfold alertEvalCondition. destruct (alertRuleSpecOf rule) as [spec|] eqn:Hs; [|done].
  destruct (rt_entries rt !! alert_id rule target) as [e|] eqn:E; destruct pos; [..|done].
  - apply agrees_positive; [done|by apply (ag_entries _ _ Ha)|]. unfold firing_at. by rewrite E.
  - pose proof (ag_entries _ _ Ha _ _ E) as Hof. unfold eval_negative. destruct (is_firing (ae_alert e)) eqn:F; cbn [negb].
    + destruct (_ <=? _); [apply agrees_resolve; [done|exact Hof]|]. apply (agrees_at zone rt _ (alert_id rule target) Ha).
      * intros id' Hne. cbn. by rewrite lookup_insert_ne.
      * intros e0. cbn. rewrite lookup_insert_eq. by intros [= <-].
      * apply (ag_kv _ _ Ha).
      * unfold firing_at. cbn. rewrite lookup_insert_eq. cbn. rewrite <- (ag_same _ _ Ha). unfold firing_at. by rewrite E.
    + apply (agrees_at zone rt _ (alert_id rule target) Ha).
      * intros id' Hne. cbn. by rewrite lookup_delete_ne.
      * intros e0. cbn. by rewrite lookup_delete_eq.
      * apply (ag_kv _ _ Ha).
      * unfold firing_at. cbn. rewrite lookup_delete_eq, <- (ag_same _ _ Ha). unfold firing_at. by rewrite E, F.
  - apply agrees_positive; [done| |by unfold firing_at; rewrite E]. split_and!; [done|done|by eexists|done].
Qed.
End written.

(** ** Passes *)

Section passes.
Context {S : Type} {K : Kv S zone_value} {KL : KvLaws K} {KR : KvReliable K} {RL : KvRangeLaws K} {MR : MapRange} {MRL : MapRangeLaws MR}.
Implicit Types (rt : alertsRuntime S) (kv : S).

Lemma foldl_keeps {A B} (P : A -> Prop) (f : A -> B -> A) l a : (forall a x, x ∈ l -> P a -> P (f a x)) -> P a -> P (foldl f a l).
Proof.
  revert a. induction l as [|x l IH]; intros a Hf Ha; cbn; [done|]. apply IH.
  - intros a' y Hy. apply Hf. by apply list_elem_of_further.
  - apply Hf; [by apply list_elem_of_here|done].
Qed.

Lemma host_status_same zone statuses id rt rt' hs : alertHostStatus zone statuses id rt = (rt', hs) ->
  rt_entries rt' = rt_entries rt /\ rt_kv rt' = rt_kv rt /\ rt_loaded rt' = rt_loaded rt /\ rt_restarts rt' = rt_restarts rt /\
  (forall hs0, statuses !! id = Some hs0 -> hs = Some hs0).
Proof.
  unfold alertHostStatus. destruct (statuses !! id) as [hs0|]; [intros [= <- <-]; split_and!; try done; congruence|].
  destruct (rt_kvStatus rt !! id); intros [= <- <-]; done.
Qed.

(** The two conditions of a host. *)
Definition host_breach (rule : string) (cfg : AlertsConfig) (now : Z) (hs : option HostStatus) : bool :=
  if bool_decide (rule = AlertRuleHostDown) then fst (down_breach cfg now hs) else fst (disk_breach cfg hs).

Lemma eval_host_unfold zone cfg statuses now rt e : h_Id (zh_Host (ke_Value e)) <> "" -> exists rt0 hs m1 m2,
  rt_entries rt0 = rt_entries rt /\ rt_kv rt0 = rt_kv rt /\ rt_loaded rt0 = rt_loaded rt /\ rt_restarts rt0 = rt_restarts rt /\
  (forall hs0, statuses !! h_Id (zh_Host (ke_Value e)) = Some hs0 -> hs = Some hs0) /\
  eval_host zone cfg statuses now rt e =
    alertEvalCondition zone cfg AlertRuleDiskFull (h_Id (zh_Host (ke_Value e))) (host_breach AlertRuleDiskFull cfg now hs) now m2
      (alertEvalCondition zone cfg AlertRuleHostDown (h_Id (zh_Host (ke_Value e))) (host_breach AlertRuleHostDown cfg now hs) now m1 rt0).
Proof.
  intros Hid. unfold eval_host. rewrite bool_decide_false by done.
  destruct (alertHostStatus zone statuses _ rt) as [rt0 hs] eqn:E. apply host_status_same in E as (E1 & E2 & E3 & E4 & E5).
  exists rt0, hs. unfold host_breach. cbn. destruct (down_breach cfg now hs) as [b1 m1], (disk_breach cfg hs) as [b2 m2].
  exists m1, m2. split_and!; done.
Qed.

Lemma agrees_eval_host zone cfg statuses now rt e : agrees zone rt -> agrees zone (eval_host zone cfg statuses now rt e).
Proof.
  intros Ha. destruct (decide (h_Id (zh_Host (ke_Value e)) = "")) as [Hid|Hid].
  { unfold eval_host. by rewrite bool_decide_true. }
  destruct (eval_host_unfold zone cfg statuses now rt e Hid) as (rt0 & hs & m1 & m2 & E1 & E2 & _ & _ & _ & ->).
  do 2 (apply agrees_eval; [done|]). by apply (agrees_same zone rt).
Qed.

Lemma agrees_hosts zone cfg hosts statuses now rt : agrees zone rt -> agrees zone (alertsEvalHosts zone cfg hosts statuses now rt).
Proof.
  intros Ha. unfold alertsEvalHosts. set (rt1 := foldl (eval_host zone cfg statuses now) rt (ks_arr hosts)).
  assert (Ha1 : agrees zone rt1) by (apply (foldl_keeps (agrees zone)); [intros; by apply agrees_eval_host|done]).
  assert (Hw : forall ie, ie ∈ map_range (rt_entries rt1) -> alert_of zone (fst ie) (ae_alert (snd ie))).
  { intros [id e] Hin%elem_of_map_range. by apply (ag_entries _ _ Ha1). }
  apply (foldl_keeps (agrees zone)); [|done]. intros rt2 [id e] Hin Ha2. cbn. case_bool_decide; [done|]. case_bool_decide; [done|].
  apply agrees_resolve; [done|]. by apply (Hw (id, e)).
Qed.

(** The trackers are named by containers. *)
Definition trackers_wf rt : Prop := forall name tr, rt_restarts rt !! name = Some tr -> name <> "".
Lemma observe_named now trackers nm name tr : observe now trackers nm !! name = Some tr ->
  (exists tr', trackers !! name = Some tr') \/ name = fst nm /\ name <> "".
Proof.
  destruct nm as [name' m]. unfold observe. destruct (ParseContainerName name') as [[instance id]|] eqn:E; [|eauto].
  destruct (decide (name = name')) as [->|]; [|rewrite lookup_insert_ne by done; eauto].
  intros _. right. split; [done|]. by intros ->.
Qed.
Lemma observed_named now trackers l : (forall name tr, trackers !! name = Some tr -> name <> "") ->
  forall name tr, foldl (observe now) trackers l !! name = Some tr -> name <> "".
Proof.
  revert trackers. induction l as [|nm l IH]; intros trackers Ht; [exact Ht|]. cbn. apply IH.
  intros name tr [[tr' Htr]|[_ H]]%observe_named; [by apply (Ht name tr')|done].
Qed.

Lemma agrees_eval_tracker zone cfg apps now rt nt : fst nt <> "" -> agrees zone rt ->
  agrees zone (eval_tracker zone cfg apps now rt nt).
Proof.
  destruct nt as [name tr]. cbn [fst]. intros Hn Ha. unfold eval_tracker. case_bool_decide.
  - apply agrees_eval; [done|]. by apply (agrees_same zone rt).
  - cbn [rt_entries rt_with_restarts]. destruct (rt_entries rt !! _) as [e|] eqn:E.
    + apply agrees_resolve; [by apply (agrees_same zone rt)|]. by apply (ag_entries _ _ Ha).
    + by apply (agrees_same zone rt).
Qed.

(** The trackers after a pass are among those it evaluated. *)
Lemma restarts_eval zone cfg rule target pos now msg rt : rt_restarts (alertEvalCondition zone cfg rule target pos now msg rt) = rt_restarts rt.
Proof.
  unfold alertEvalCondition. destruct (alertRuleSpecOf rule) as [spec|]; [|done].
  assert (P : forall e, rt_restarts (eval_positive cfg spec (alert_id rule target) e now msg rt) = rt_restarts rt).
  { intros e. unfold eval_positive. case_match; [by case_match|]. case_match; [|done]. cbn. by rewrite restarts_notify. }
  destruct (rt_entries rt !! _); destruct pos; try done.
  unfold eval_negative. case_match; [done|]. case_match; [|done]. unfold alertResolve, drop_entry. cbn. by rewrite restarts_notify.
Qed.
Lemma restarts_resolve cfg id e now msg rt : rt_restarts (alertResolve cfg id e now msg rt) = rt_restarts rt.
Proof. unfold alertResolve, drop_entry. cbn. by rewrite restarts_notify. Qed.
Lemma restarts_eval_tracker zone cfg apps now rt nt name : name <> fst nt ->
  rt_restarts (eval_tracker zone cfg apps now rt nt) !! name = rt_restarts rt !! name.
Proof.
  destruct nt as [name' tr]. cbn [fst]. intros Hn. unfold eval_tracker. case_bool_decide.
  - rewrite restarts_eval. cbn. by rewrite lookup_insert_ne.
  - cbn [rt_entries rt_with_restarts]. destruct (rt_entries rt !! _); rewrite ?restarts_resolve; cbn; by rewrite lookup_delete_ne.
Qed.

Lemma restarts_eval_host zone cfg statuses now rt e : rt_restarts (eval_host zone cfg statuses now rt e) = rt_restarts rt.
Proof.
  destruct (decide (h_Id (zh_Host (ke_Value e)) = "")) as [Hid|Hid]; [unfold eval_host; by rewrite bool_decide_true|].
  destruct (eval_host_unfold zone cfg statuses now rt e Hid) as (rt0 & hs & m1 & m2 & _ & _ & _ & E4 & _ & ->).
  by rewrite !restarts_eval.
Qed.
Lemma restarts_hosts zone cfg hosts statuses now rt : rt_restarts (alertsEvalHosts zone cfg hosts statuses now rt) = rt_restarts rt.
Proof.
  unfold alertsEvalHosts. apply (foldl_keeps (fun rt' => rt_restarts rt' = rt_restarts rt)).
  - intros rt' [id e] _ <-. cbn. case_bool_decide; [done|]. case_bool_decide; [done|]. apply restarts_resolve.
  - apply (foldl_keeps (fun rt' => rt_restarts rt' = rt_restarts rt)); [|done]. intros rt' e _ <-. apply restarts_eval_host.
Qed.

Lemma restarts_eval_tracker_some zone cfg apps now rt nt name tr :
  rt_restarts (eval_tracker zone cfg apps now rt nt) !! name = Some tr ->
  (exists tr', rt_restarts rt !! name = Some tr') \/ name = fst nt.
Proof. destruct (decide (name = fst nt)) as [->|Hn]; [by right|]. rewrite restarts_eval_tracker by done. eauto. Qed.

Lemma agrees_crashloop zone cfg metrics apps now rt : agrees zone rt -> trackers_wf rt ->
  agrees zone (alertsEvalCrashloop zone cfg metrics apps now rt) /\ trackers_wf (alertsEvalCrashloop zone cfg metrics apps now rt).
Proof.
  intros Ha Ht. unfold alertsEvalCrashloop. cbn [rt_restarts rt_with_restarts].
  set (trs := foldl (observe now) (rt_restarts rt) (map_range metrics)).
  assert (Hw : forall name tr, trs !! name = Some tr -> name <> "") by (by apply observed_named).
  apply (foldl_keeps (fun rt => agrees zone rt /\ trackers_wf rt)).
  - intros rt2 [name tr] Hin [Ha2 Ht2]. apply elem_of_map_range in Hin. split; [by apply agrees_eval_tracker, Ha2; eapply Hw|].
    intros n t [[t' Hn]|Hn]%restarts_eval_tracker_some; [by apply (Ht2 n t')|]. cbn in Hn. subst n. by eapply Hw.
  - split; [by apply (agrees_same zone rt)|]. exact Hw.
Qed.

Lemma agrees_alerts_eval zone i rt : agrees zone rt -> trackers_wf rt ->
  agrees zone (alerts_eval zone i rt) /\ trackers_wf (alerts_eval zone i rt).
Proof.
  intros Ha Ht. unfold alerts_eval. destruct (_ =? 0); [done|]. apply agrees_crashloop; [by apply agrees_hosts|].
  unfold trackers_wf. by rewrite restarts_hosts.
Qed.

(** ** Loading *)

Definition alert_prefix (zone : string) : string := NsZoneletAlertPrefix zone.
(** The scan of the alerts returns all of them. *)
Definition loads_all (zone : string) kv : Prop :=
  match kv_range (V := Alert) kv (alert_prefix zone) (range_end (alert_prefix zone)) AlertScanLimit with
  | KvOk items => filter (in_range (alert_prefix zone) (range_end (alert_prefix zone))) (kv_entries (V := Alert) kv) = items
  | _ => True
  end.

Lemma NsZoneletAlert_prefix zone t : NsZoneletAlert zone t = alert_prefix zone +:+ t.
Proof. unfold NsZoneletAlert, alert_prefix, NsZoneletAlertPrefix. rewrite !s_app_assoc. done. Qed.

Lemma alert_id_in_range rule target : known_rule rule -> alert_id rule target <> "" /\ String.leb (alert_id rule target) (range_end "") = true.
Proof. intros [-> | [-> | ->]]%known_cases; split; done. Qed.

Lemma scanned zone kv items : kv_wf zone kv ->
  filter (in_range (alert_prefix zone) (range_end (alert_prefix zone))) (kv_entries (V := Alert) kv) = items ->
  (forall k it a, (k, it) ∈ items -> it_value it = Some a -> stored zone kv (alert_id (al_Rule a) (al_Target a)) = Some a) /\
  (forall id a, stored zone kv id = Some a -> exists it, (NsZoneletAlert zone id, it) ∈ items /\ it_value it = Some a).
Proof.
  intros Hwf <-. split.
  - intros k it a [[Hlt Hle] Hin]%list_elem_of_filter Hv. cbn [fst] in Hlt, Hle. destruct (prefix_range _ _ Hlt Hle) as [t ->].
    apply kv_entries_read in Hin. rewrite <- NsZoneletAlert_prefix in Hin.
    assert (Hs : stored zone kv t = Some a) by (unfold stored; by rewrite Hin).
    destruct (Hwf _ _ Hs) as (<- & _). exact Hs.
  - intros id a Hs. pose proof (Hwf _ _ Hs) as (Eid & _ & Hk & _).
    unfold stored in Hs. destruct (kv_read _ _) as [it| |] eqn:E; [|done..]. exists it. split; [|done].
    apply list_elem_of_filter. split; [|by apply kv_entries_read].
    destruct (alert_id_in_range (al_Rule a) (al_Target a) Hk) as [H1 H2]. rewrite <- Eid in H1, H2.
    rewrite NsZoneletAlert_prefix. by apply in_prefix_range.
Qed.

Lemma load_item_spec m item id e : load_item m item !! id = Some e ->
  m !! id = Some e \/ exists a, it_value (snd item) = Some a /\ is_firing a = true /\ id = alert_id (al_Rule a) (al_Target a) /\ ae_alert e = a.
Proof.
  unfold load_item. destruct (it_value (snd item)) as [a|]; [|by left]. destruct (negb (is_firing a) || _ || _) eqn:C; [by left|].
  apply orb_false_iff in C as [C _]. apply orb_false_iff in C as [C _]. apply negb_false_iff in C.
  destruct (decide (id = alert_id (al_Rule a) (al_Target a))) as [->|]; [|rewrite lookup_insert_ne by done; by left].
  rewrite lookup_insert_eq. intros [= <-]. right. by exists a.
Qed.
Lemma load_items_spec items : forall m id e, foldl load_item m items !! id = Some e ->
  m !! id = Some e \/ exists item a, item ∈ items /\ it_value (snd item) = Some a /\ is_firing a = true /\
    id = alert_id (al_Rule a) (al_Target a) /\ ae_alert e = a.
Proof.
  induction items as [|item items IH]; intros m id e; cbn; [by left|]. intros [Hl|(i & a & Hin & R)]%IH.
  - apply load_item_spec in Hl as [?|(a & R)]; [by left|]. right. exists item, a. split; [apply list_elem_of_here|done].
  - right. exists i, a. split; [by apply list_elem_of_further|done].
Qed.
Lemma load_items_keep items id : forall m, is_Some (m !! id) -> is_Some (foldl load_item m items !! id).
Proof.
  induction items as [|item items IH]; intros m Hm; cbn; [done|]. apply IH. unfold load_item.
  destruct (it_value (snd item)) as [a|]; [|done]. destruct (_ || _); [done|].
  destruct (decide (id = alert_id (al_Rule a) (al_Target a))) as [->|]; [by rewrite lookup_insert_eq|by rewrite lookup_insert_ne].
Qed.
Lemma load_items_some items k it a zone id : (k, it) ∈ items -> it_value it = Some a -> is_firing a = true -> alert_of zone id a ->
  forall m, is_Some (foldl load_item m items !! id).
Proof.
  intros Hin Hv Hf (Eid & _ & Hk & Ht). induction items as [|item items IH]; intros m; [by apply elem_of_nil in Hin|].
  cbn. apply elem_of_cons in Hin as [<-|Hin]; [|by apply IH]. apply load_items_keep. unfold load_item. cbn. rewrite Hv, Hf.
  rewrite !bool_decide_false by (try done; intros E; rewrite E in Hk; by apply known_cases in Hk as [?|[?|?]]). cbn.
  rewrite <- Eid. by rewrite lookup_insert_eq.
Qed.

Lemma agrees_load zone rt rt' : rt_loaded rt = false -> kv_wf zone (rt_kv rt) -> loads_all zone (rt_kv rt) ->
  alertsLoadFromStore zone rt = (rt', Ok tt) -> agrees zone (rt_with_loaded rt') /\ trackers_wf (rt_with_loaded rt').
Proof.
  intros _ Hwf Hall Hl. split; [|intros name tr; cbn; done].
  assert (exists items, rt' = rt_with_entries (foldl load_item ∅ items) (rt_with_restarts ∅ (rt_with_status ∅ (rt_with_entries ∅ rt))) /\
    filter (in_range (alert_prefix zone) (range_end (alert_prefix zone))) (kv_entries (V := Alert) (rt_kv rt)) = items) as (items & -> & Hi).
  { unfold alertsLoadFromStore in Hl. cbn [rt_kv rt_with_restarts rt_with_status rt_with_entries] in Hl.
    change (NsZoneletAlertPrefix zone) with (alert_prefix zone) in Hl. unfold loads_all in Hall.
    destruct (kv_range _ _ _ _) as [items| |] eqn:E; [|injection Hl as <-|done].
    - injection Hl as <-. by exists items.
    - exists []. split; [done|]. by apply (kv_range_none (V := Alert) _ _ _ AlertScanLimit). }
  destruct (scanned zone (rt_kv rt) items Hwf Hi) as [Hto Hof].
  split; cbn [rt_kv rt_with_loaded rt_with_entries rt_entries rt_with_restarts rt_with_status].
  - exact Hwf.
  - intros id e [He|([k it] & a & Hin & Hv & Hf & -> & <-)]%load_items_spec; [done|]. cbn in Hv. by apply Hwf, (Hto k it).
  - intros id. unfold firing_at, stored_firing. cbn [rt_entries rt_with_loaded rt_with_entries].
    destruct (foldl load_item ∅ items !! id) as [e|] eqn:E.
    + apply load_items_spec in E as [He|([k it] & a & Hin & Hv & Hf & -> & <-)]; [done|]. cbn in Hv. by rewrite (Hto k it _ Hin Hv).
    + destruct (stored zone (rt_kv rt) id) as [a|] eqn:Hs; [|done]. destruct (Hof _ _ Hs) as (it & Hin & Hv).
      destruct (is_firing a) eqn:Hf; [|done]. pose proof (load_items_some _ _ _ _ _ _ Hin Hv Hf (Hwf _ _ Hs) ∅) as [e He]. congruence.
Qed.

(** ** Runs *)

(** A pass of the server, the end of a delivery, another server in its place, and the
    other writers of the database, which may also expire records that are resolved. *)
Inductive alert_step (zone : string) : alertsRuntime S -> alertsRuntime S -> Prop :=
| step_pass rt i : (rt_loaded rt = false -> loads_all zone (rt_kv rt)) -> alert_step zone rt (alertsRefresh zone i rt)
| step_delivered rt : alert_step zone rt (alertDelivered rt)
| step_switch rt rt' : rt_kv rt' = rt_kv rt -> rt_loaded rt' = false -> alert_step zone rt rt'
| step_store rt kv : (forall id, stored zone kv id = stored zone (rt_kv rt) id \/
    stored zone kv id = None /\ stored_firing zone (rt_kv rt) id = false) -> alert_step zone rt (rt_with_kv kv rt).

Definition alerts_inv (zone : string) rt : Prop :=
  kv_wf zone (rt_kv rt) /\ (rt_loaded rt = true -> agrees zone rt /\ trackers_wf rt).

Lemma loaded_eval_host zone cfg statuses now rt e : rt_loaded (eval_host zone cfg statuses now rt e) = rt_loaded rt.
Proof.
  destruct (decide (h_Id (zh_Host (ke_Value e)) = "")) as [Hid|Hid]; [unfold eval_host; by rewrite bool_decide_true|].
  destruct (eval_host_unfold zone cfg statuses now rt e Hid) as (rt0 & hs & m1 & m2 & _ & _ & E3 & _ & _ & ->).
  by rewrite !loaded_eval.
Qed.
Lemma loaded_resolve cfg id e now msg rt : rt_loaded (alertResolve cfg id e now msg rt) = rt_loaded rt.
Proof. unfold alertResolve, drop_entry. cbn. by rewrite loaded_notify. Qed.
Lemma loaded_alerts_eval zone i rt : rt_loaded (alerts_eval zone i rt) = rt_loaded rt.
Proof.
  unfold alerts_eval. destruct (_ =? 0); [done|]. unfold alertsEvalCrashloop, alertsEvalHosts.
  apply (foldl_keeps (fun rt' => rt_loaded rt' = rt_loaded rt)).
  - intros rt' [name tr] _ <-. unfold eval_tracker. case_bool_decide; [by rewrite loaded_eval|]. cbn.
    destruct (rt_entries rt' !! _); [by rewrite loaded_resolve|done].
  - cbn. apply (foldl_keeps (fun rt' => rt_loaded rt' = rt_loaded rt)).
    + intros rt' [id e] _ <-. cbn. case_bool_decide; [done|]. case_bool_decide; [done|]. apply loaded_resolve.
    + apply (foldl_keeps (fun rt' => rt_loaded rt' = rt_loaded rt)); [|done]. intros rt' e _ <-. apply loaded_eval_host.
Qed.

Lemma load_facts zone rt rt' r : alertsLoadFromStore zone rt = (rt', r) -> rt_kv rt' = rt_kv rt /\ rt_loaded rt' = rt_loaded rt.
Proof. unfold alertsLoadFromStore. cbn. destruct (kv_range _ _ _ _); by intros [= <- <-]. Qed.

Lemma alerts_inv_step zone rt rt' : alert_step zone rt rt' -> alerts_inv zone rt -> alerts_inv zone rt'.
Proof.
  intros Hstep [Hk Hl]. destruct Hstep as [rt i Hall|rt|rt rt' E1 E2|rt kv Hkv].
  - unfold alertsRefresh. case_bool_decide; [by split|]. destruct (in_leader i); cbn [negb].
    + destruct (rt_loaded rt) eqn:L.
      * destruct (Hl eq_refl) as [Ha Ht]. destruct (agrees_alerts_eval zone i rt Ha Ht) as [Ha' Ht'].
        split; [apply (ag_kv _ _ Ha')|done].
      * destruct (alertsLoadFromStore zone rt) as [rt1 [[]|m]] eqn:E.
        -- destruct (agrees_load zone rt rt1 L Hk (Hall eq_refl) E) as [Ha Ht].
           destruct (agrees_alerts_eval zone i _ Ha Ht) as [Ha' Ht']. split; [apply (ag_kv _ _ Ha')|done].
        -- apply load_facts in E as [E1 E2]. split; [by rewrite E1|]. rewrite E2, L. done.
    + destruct (rt_loaded rt) eqn:L; [by split|]. split; [done|]. by rewrite L.
  - split; [done|]. intros L. destruct (Hl L) as [Ha Ht]. split; [by apply (agrees_same zone rt)|done].
  - split; [by rewrite E1|]. by rewrite E2.
  - assert (Hwf : kv_wf zone kv). { intros id a Ha. destruct (Hkv id) as [E|[E _]]; rewrite E in Ha; [by apply Hk|done]. }
    split; [done|]. intros L. destruct (Hl L) as [Ha Ht]. split; [|done]. split; [done|apply (ag_entries _ _ Ha)|].
    intros id. change (firing_at id (rt_with_kv kv rt)) with (firing_at id rt). rewrite (ag_same _ _ Ha). cbn [rt_kv rt_with_kv].
    unfold stored_firing in *. destruct (Hkv id) as [->|[-> ->]]; done.
Qed.
Lemma alerts_inv_steps zone rt rt' : rtc (alert_step zone) rt rt' -> alerts_inv zone rt -> alerts_inv zone rt'.
Proof. induction 1 as [|rt1 rt2 rt3 Hs _ IH]; [done|]. intros Hi. by apply IH, (alerts_inv_step zone rt1). Qed.

(** ** The alerts of one host over the passes *)

Definition host_rule (rule : string) : Prop := rule = AlertRuleHostDown \/ rule = AlertRuleDiskFull.
Lemma host_rule_known rule : host_rule rule -> known_rule rule.
Proof. intros [-> | ->]; [apply known_down|apply known_disk]. Qed.

Lemma eval_host_other zone cfg statuses now rt e rule id : host_rule rule -> h_Id (zh_Host (ke_Value e)) <> id ->
  rt_entries (eval_host zone cfg statuses now rt e) !! alert_id rule id = rt_entries rt !! alert_id rule id.
Proof.
  intros Hr Hne. destruct (decide (h_Id (zh_Host (ke_Value e)) = "")) as [Hid|Hid]; [unfold eval_host; by rewrite bool_decide_true|].
  destruct (eval_host_unfold zone cfg statuses now rt e Hid) as (rt0 & hs & m1 & m2 & E1 & _ & _ & _ & _ & ->).
  rewrite entries_eval_other, entries_eval_other, E1; [done|..];
    (intros [_ ?]%alert_id_inj; [congruence|by apply host_rule_known|]); [apply known_down|apply known_disk].
Qed.

Lemma tracks_eval_host zone cfg statuses now rt e rule spec h id hs : host_rule rule -> alertRuleSpecOf rule = Some spec ->
  h_Id (zh_Host (ke_Value e)) = id -> id <> "" -> statuses !! id = Some hs -> tracks spec h (alert_id rule id) rt ->
  tracks spec (h ++ [host_breach rule cfg now (Some hs)])%list (alert_id rule id) (eval_host zone cfg statuses now rt e).
Proof.
  intros Hr Hs Eid Hid Hst Ht. destruct (eval_host_unfold zone cfg statuses now rt e ltac:(congruence))
    as (rt0 & hs' & m1 & m2 & E1 & _ & _ & _ & E5 & ->).
  rewrite Eid in *. rewrite (E5 _ Hst). apply (tracks_same _ _ _ rt rt0) in Ht; [|by rewrite E1].
  destruct Hr as [-> | ->].
  - eapply tracks_same; [apply entries_eval_other|by apply tracks_eval].
    intros [E _]%alert_id_inj; [done|apply known_down|apply known_disk].
  - apply tracks_eval; [done|]. eapply tracks_same; [apply entries_eval_other|done].
    intros [E _]%alert_id_inj; [done|apply known_disk|apply known_down].
Qed.

Lemma eval_hosts_other zone cfg statuses now rule id arr rt : host_rule rule ->
  (forall e, e ∈ arr -> h_Id (zh_Host (ke_Value e)) <> id) ->
  rt_entries (foldl (eval_host zone cfg statuses now) rt arr) !! alert_id rule id = rt_entries rt !! alert_id rule id.
Proof.
  intros Hr. revert rt. induction arr as [|e arr IH]; intros rt Hne; cbn; [done|]. rewrite IH.
  - apply eval_host_other; [done|]. by apply Hne, list_elem_of_here.
  - intros e' He. by apply Hne, list_elem_of_further.
Qed.

(** A host that is registered once has one place in the list. *)
Lemma host_once hosts id : NoDup (alert_host_ids hosts) -> id ∈ alert_host_ids hosts -> exists l1 e l2, ks_arr hosts = (l1 ++ e :: l2)%list /\
  h_Id (zh_Host (ke_Value e)) = id /\ id <> "" /\ forall e', e' ∈ l1 \/ e' ∈ l2 -> h_Id (zh_Host (ke_Value e')) <> id.
Proof.
  unfold alert_host_ids. intros Hnd [Hid Hin]%list_elem_of_filter. apply list_elem_of_fmap in Hin as (e & -> & He).
  apply list_elem_of_split in He as (l1 & l2 & E). exists l1, e, l2. split_and!; [done|done|done|]. intros e' He' Eid.
  rewrite E, List.map_app in Hnd. cbn in Hnd. rewrite filter_app, filter_cons_True in Hnd by done.
  apply NoDup_app in Hnd as (_ & H1 & [H2 _]%NoDup_cons). destruct He' as [He'|He'].
  - apply (H1 (h_Id (zh_Host (ke_Value e)))); [|apply list_elem_of_here]. apply list_elem_of_filter. split; [done|].
    rewrite <- Eid. by apply (list_elem_of_fmap_2 (fun e : KvEntry ZoneHost => h_Id (zh_Host (ke_Value e)))).
  - apply H2, list_elem_of_filter. split; [done|]. rewrite <- Eid. by apply (list_elem_of_fmap_2 (fun e : KvEntry ZoneHost => h_Id (zh_Host (ke_Value e)))).
Qed.

Lemma entries_sweep cfg evaluated now rt ie id : rt_entries (sweep_removed cfg evaluated now rt ie) !! id = rt_entries rt !! id \/
  fst ie = id /\ al_Target (ae_alert (snd ie)) ∉ evaluated.
Proof.
  destruct ie as [id' e]. cbn. case_bool_decide; [by left|]. case_bool_decide; [by left|].
  destruct (decide (id' = id)) as [->|]; [by right|]. left. rewrite entries_resolve. by rewrite lookup_delete_ne.
Qed.

Lemma entries_eval_tracker zone cfg apps now rt nt rule id : host_rule rule ->
  rt_entries (eval_tracker zone cfg apps now rt nt) !! alert_id rule id = rt_entries rt !! alert_id rule id.
Proof.
  intros Hr. destruct nt as [name tr]. unfold eval_tracker.
  assert (Hne : alert_id rule id <> alert_id AlertRuleReplicaCrashloop name).
  { intros [E _]%alert_id_inj; [by destruct Hr as [-> | ->]|by apply host_rule_known|apply known_crash]. }
  case_bool_decide; [by rewrite entries_eval_other|]. cbn [rt_entries rt_with_restarts].
  destruct (rt_entries rt !! alert_id AlertRuleReplicaCrashloop name); [|done]. rewrite entries_resolve. by rewrite lookup_delete_ne.
Qed.

Lemma tracks_pass zone i rt rule spec h id hs : agrees zone rt -> rt_loaded rt = true -> zone <> "" -> in_leader i = true ->
  host_rule rule -> alertRuleSpecOf rule = Some spec ->
  NoDup (alert_host_ids (in_hosts i)) -> id ∈ alert_host_ids (in_hosts i) -> in_status i !! id = Some hs ->
  tracks spec h (alert_id rule id) rt ->
  tracks spec (h ++ [host_breach rule (in_cfg i) (in_now i) (Some hs)])%list (alert_id rule id) (alertsRefresh zone i rt).
Proof.
  intros Ha L Hz Hlead Hr Hs Hnd Hin Hst Ht. unfold alertsRefresh. rewrite bool_decide_false, Hlead, L by done. cbn [negb].
  destruct (host_once _ _ Hnd Hin) as (l1 & e & l2 & E & Eid & Hid & Hoth).
  unfold alerts_eval. destruct (Z.eqb_spec (Len (in_hosts i)) 0) as [Hl|_].
  { exfalso. unfold Len in Hl. rewrite E, length_app in Hl. cbn in Hl. lia. }
  unfold alertsEvalCrashloop. set (rt1 := alertsEvalHosts _ _ _ _ _ _).
  eapply (tracks_same _ _ _ rt1).
  { apply (foldl_keeps (fun rt' => rt_entries rt' !! alert_id rule id = rt_entries rt1 !! alert_id rule id)); [|done].
    intros rt' nt _ <-. by apply entries_eval_tracker. }
  unfold rt1, alertsEvalHosts. set (rt2 := foldl _ rt (ks_arr (in_hosts i))).
  assert (Ha2 : agrees zone rt2) by (apply (foldl_keeps (agrees zone)); [intros; by apply agrees_eval_host|done]).
  eapply (tracks_same _ _ _ rt2).
  { apply (foldl_keeps (fun rt' => rt_entries rt' !! alert_id rule id = rt_entries rt2 !! alert_id rule id)); [|done].
    intros rt' [id' e'] Hin' <-. destruct (entries_sweep (in_cfg i) (alert_host_ids (in_hosts i)) (in_now i) rt' (id', e') (alert_id rule id)) as [?|[Ei Hn]]; [done|].
    cbn in Ei, Hn. subst id'. apply elem_of_map_range in Hin'. destruct (ag_entries _ _ Ha2 _ _ Hin') as (Ei & _ & Hk & _).
    apply alert_id_inj in Ei as [_ Et]; [exfalso; apply Hn; by rewrite <- Et|by apply host_rule_known|done]. }
  unfold rt2. rewrite E, foldl_app. cbn [foldl].
  eapply tracks_same; [apply eval_hosts_other; [done|by intros; apply Hoth; right]|].
  apply tracks_eval_host; [done|done|done|done|done|].
  eapply tracks_same; [|exact Ht]. apply eval_hosts_other; [done|by intros; apply Hoth; left].
Qed.

Definition alerts_start (zone : string) rt : Prop := (forall id, stored zone (rt_kv rt) id = None) /\ rt_loaded rt = false.
Lemma alerts_start_inv zone rt : alerts_start zone rt -> alerts_inv zone rt.
Proof. intros [Hs Hl]. split; [|by rewrite Hl]. intros id a. by rewrite Hs. Qed.

(** The passes of a leader over a host that reports: pass and report. *)
Definition host_runs (id : string) (runs : list (alert_input * HostStatus)) : Prop :=
  Forall (fun ih => in_leader (fst ih) = true /\ NoDup (alert_host_ids (in_hosts (fst ih))) /\ id ∈ alert_host_ids (in_hosts (fst ih)) /\
                    in_status (fst ih) !! id = Some (snd ih)) runs.
Definition run_passes (zone : string) (inputs : list alert_input) rt : alertsRuntime S :=
  foldl (fun rt i => alertsRefresh zone i rt) rt inputs.
Definition breaches (rule : string) (runs : list (alert_input * HostStatus)) : list bool :=
  map (fun ih => host_breach rule (in_cfg (fst ih)) (in_now (fst ih)) (Some (snd ih))) runs.

Lemma loaded_pass zone i rt : zone <> "" -> in_leader i = true -> rt_loaded rt = true -> rt_loaded (alertsRefresh zone i rt) = true.
Proof. intros Hz Hi L. unfold alertsRefresh. rewrite bool_decide_false, Hi, L by done. cbn. by rewrite loaded_alerts_eval. Qed.

Lemma tracks_runs zone rt rule spec id runs : alerts_inv zone rt -> rt_loaded rt = true -> zone <> "" -> host_rule rule ->
  alertRuleSpecOf rule = Some spec -> rt_entries rt !! alert_id rule id = None -> host_runs id runs ->
  alerts_inv zone (run_passes zone (map fst runs) rt) /\ rt_loaded (run_passes zone (map fst runs) rt) = true /\
  tracks spec (breaches rule runs) (alert_id rule id) (run_passes zone (map fst runs) rt).
Proof.
  intros Hi L Hz Hr Hs E. induction runs as [|[i hs] runs IH] using rev_ind; intros Hruns.
  - split_and!; [done|done|]. apply tracks_start; [by apply (rules_small rule)|done].
  - apply Forall_app in Hruns as [Hruns Hlast]. apply Forall_cons in Hlast as [(Hlead & Hnd & Hin & Hst) _]. cbn in Hlead, Hnd, Hin, Hst.
    destruct (IH Hruns) as (Hi1 & L1 & Ht1). unfold run_passes, breaches in *. rewrite !List.map_app, foldl_app. cbn [map foldl fst snd].
    split_and!.
    + eapply alerts_inv_step; [|exact Hi1]. apply step_pass. by rewrite L1.
    + by apply loaded_pass.
    + apply tracks_pass; try done. by apply (proj2 Hi1).
Qed.

(** ** A replica that is gone when the leader changes *)

Definition unwatched (name : string) rt : Prop :=
  rt_restarts rt !! name = None /\ firing_at (alert_id AlertRuleReplicaCrashloop name) rt = true.

Lemma observed_none now name l : (forall m, (name, m) ∉ l) -> forall trackers, trackers !! name = None ->
  foldl (observe now) trackers l !! name = None.
Proof.
  induction l as [|[n m] l IH]; intros Hl trackers Ht; cbn; [done|]. apply IH; [intros m' Hm; by apply (Hl m'), list_elem_of_further|].
  unfold observe. destruct (ParseContainerName n) as [[instance k]|]; [|done].
  rewrite lookup_insert_ne; [done|]. intros ->. apply (Hl m), list_elem_of_here.
Qed.

Lemma firing_same id rt rt' : rt_entries rt' !! id = rt_entries rt !! id -> firing_at id rt' = firing_at id rt.
Proof. unfold firing_at. by intros ->. Qed.

Lemma eval_host_crash zone cfg statuses now rt e name :
  rt_entries (eval_host zone cfg statuses now rt e) !! alert_id AlertRuleReplicaCrashloop name = rt_entries rt !! alert_id AlertRuleReplicaCrashloop name.
Proof.
  destruct (decide (h_Id (zh_Host (ke_Value e)) = "")) as [Hid|Hid]; [unfold eval_host; by rewrite bool_decide_true|].
  destruct (eval_host_unfold zone cfg statuses now rt e Hid) as (rt0 & hs & m1 & m2 & E1 & _ & _ & _ & _ & ->).
  rewrite entries_eval_other, entries_eval_other, E1; [done|..]; (intros [? _]%alert_id_inj; [done|apply known_crash|]);
    [apply known_down|apply known_disk].
Qed.

Lemma unwatched_pass zone i rt name : agrees zone rt -> rt_loaded rt = true -> in_leader i = true -> in_metrics i !! name = None ->
  unwatched name rt -> unwatched name (alertsRefresh zone i rt).
Proof.
  intros Ha L Hi Hm [Hn Hf]. unfold alertsRefresh. case_bool_decide; [done|]. rewrite Hi, L. cbn [negb].
  unfold alerts_eval. destruct (_ =? 0); [done|]. set (rt1 := alertsEvalHosts _ _ _ _ _ _).
  assert (E1 : rt_entries rt1 !! alert_id AlertRuleReplicaCrashloop name = rt_entries rt !! alert_id AlertRuleReplicaCrashloop name).
  { unfold rt1, alertsEvalHosts. set (rt2 := foldl _ rt _).
    assert (Ha2 : agrees zone rt2) by (apply (foldl_keeps (agrees zone)); [intros; by apply agrees_eval_host|done]).
    apply (foldl_keeps (fun rt' => rt_entries rt' !! alert_id AlertRuleReplicaCrashloop name = rt_entries rt !! alert_id AlertRuleReplicaCrashloop name)).
    - intros rt' [id' e'] Hin' <-. cbn [sweep_removed]. case_bool_decide as Hc; [done|]. case_bool_decide; [done|]. rewrite entries_resolve, lookup_delete_ne; [done|].
      intros ->. apply elem_of_map_range in Hin'. destruct (ag_entries _ _ Ha2 _ _ Hin') as (Ei & _ & Hk & _).
      destruct (alert_id_inj _ _ _ _ known_crash Hk Ei) as [Er _]. congruence.
    - apply (foldl_keeps (fun rt' => rt_entries rt' !! alert_id AlertRuleReplicaCrashloop name = rt_entries rt !! alert_id AlertRuleReplicaCrashloop name)); [|done].
      intros rt' e _ <-. apply eval_host_crash. }
  assert (R1 : rt_restarts rt1 !! name = None) by (unfold rt1; by rewrite restarts_hosts).
  unfold alertsEvalCrashloop. cbn [rt_restarts rt_with_restarts]. set (trs := foldl (observe _) _ _).
  assert (Htrs : trs !! name = None).
  { apply observed_none; [|done]. intros m Hin. apply elem_of_map_range in Hin. congruence. }
  apply (foldl_keeps (unwatched name)).
  - intros rt' [n tr] Hin [Hn' Hf']. apply elem_of_map_range in Hin. assert (Hne : name <> n) by congruence. split.
    + by rewrite restarts_eval_tracker.
    + rewrite <- Hf'. apply firing_same. unfold eval_tracker.
      assert (Hid : alert_id AlertRuleReplicaCrashloop name <> alert_id AlertRuleReplicaCrashloop n).
      { intros [_ ?]%alert_id_inj; [done|apply known_crash..]. }
      case_bool_decide; [by rewrite entries_eval_other|]. cbn [rt_entries rt_with_restarts].
      destruct (rt_entries rt' !! alert_id AlertRuleReplicaCrashloop n); [|done]. rewrite entries_resolve. by rewrite lookup_delete_ne.
  - split; [exact Htrs|]. rewrite <- Hf. by apply firing_same.
Qed.
End passes.

(** C24: The alert of a host is a function of its reports.  From any state a server can
    reach, over passes of the leader in which the host is registered and reports, with no
    entry for the rule at first: the alert is firing, in memory and in the database,
    exactly when some run of as many breaches as the rule fires on was not followed by a
    run of as many healthy evaluations as it resolves on.  This holds for every order in
    which the maps are visited and whatever the other hosts and replicas do. *)
Theorem host_alert_iff (S : Type) (K : Kv S zone_value) (KL : KvLaws K) (KR : KvReliable K) (RL : KvRangeLaws K)
    (MR : MapRange) (MRL : MapRangeLaws MR) (zone rule id : string) (spec : alertRuleSpec) (rt0 rt : alertsRuntime S)
    (runs : list (alert_input * HostStatus)) :
  zone <> "" -> host_rule rule -> alertRuleSpecOf rule = Some spec -> alerts_start zone rt0 -> rtc (alert_step zone) rt0 rt ->
  rt_loaded rt = true -> rt_entries rt !! alert_id rule id = None -> host_runs id runs ->
  let rt' := run_passes zone (map fst runs) rt in
  (firing_at (alert_id rule id) rt' = true <->
   alerting (Z.to_nat (fireStreak spec)) (Z.to_nat (resolveStreak spec)) (breaches rule runs)) /\
  stored_firing zone (rt_kv rt') (alert_id rule id) = firing_at (alert_id rule id) rt'.
Proof.
  intros Hz Hr Hs Hst Hsteps L E Hruns rt'.
  destruct (tracks_runs zone rt rule spec id runs) as (Hi & L' & Ht); try done.
  { eapply alerts_inv_steps; [exact Hsteps|by apply alerts_start_inv]. }
  split; [by apply tracks_firing|]. symmetry. by apply ag_same, (proj2 Hi).
Qed.

(** What the leader has in memory is what the database holds: in every state reached
    by passes, deliveries, changes of the leader and other writers of the database (which
    may let resolved records expire), a leader that has loaded has a firing entry exactly
    for the firing records, under their own identifiers.  The scan of a new leader must
    not be cut at its limit. *)
Theorem alerts_written_through (S : Type) (K : Kv S zone_value) (KL : KvLaws K) (KR : KvReliable K) (RL : KvRangeLaws K)
    (MR : MapRange) (MRL : MapRangeLaws MR) (zone : string) (rt0 rt : alertsRuntime S) :
  alerts_start zone rt0 -> rtc (alert_step zone) rt0 rt -> rt_loaded rt = true ->
  forall id, firing_at id rt = stored_firing zone (rt_kv rt) id /\
    (forall e, rt_entries rt !! id = Some e -> id = alert_id (al_Rule (ae_alert e)) (al_Target (ae_alert e))).
Proof.
  intros Hst Hsteps L id. assert (Hi : alerts_inv zone rt) by (eapply alerts_inv_steps; [exact Hsteps|by apply alerts_start_inv]).
  destruct (proj2 Hi L) as [Ha _]. split; [by apply ag_same|]. intros e He. by apply (ag_entries _ _ Ha) in He as [? _].
Qed.

(** An alert of a crash loop whose container reports to no one when the leader
    changes is resolved by nobody: a new leader has no tracker for the container, so
    however many passes it makes, and although the instance may be gone from the zone, the
    alert stays firing in memory and in the database. *)
Theorem orphan_crashloop_stuck (S : Type) (K : Kv S zone_value) (KL : KvLaws K) (KR : KvReliable K) (RL : KvRangeLaws K)
    (MR : MapRange) (MRL : MapRangeLaws MR) (zone name : string) (rt0 rt : alertsRuntime S) (i0 : alert_input) (later : list alert_input) :
  zone <> "" -> alerts_start zone rt0 -> rtc (alert_step zone) rt0 rt -> rt_loaded rt = false ->
  stored_firing zone (rt_kv rt) (alert_id AlertRuleReplicaCrashloop name) = true ->
  loads_all zone (rt_kv rt) -> snd (alertsLoadFromStore zone rt) = Ok tt ->
  Forall (fun i => in_leader i = true /\ in_metrics i !! name = None) (i0 :: later) ->
  let rt' := run_passes zone (i0 :: later) rt in
  firing_at (alert_id AlertRuleReplicaCrashloop name) rt' = true /\
  stored_firing zone (rt_kv rt') (alert_id AlertRuleReplicaCrashloop name) = true.
Proof.
  intros Hz Hst Hsteps L Hf Hall Hload Hruns rt'.
  assert (Hi : alerts_inv zone rt) by (eapply alerts_inv_steps; [exact Hsteps|by apply alerts_start_inv]).
  destruct (alertsLoadFromStore zone rt) as [rt1 r] eqn:E. cbn in Hload. subst r.
  destruct (agrees_load zone rt rt1 L (proj1 Hi) Hall E) as [Ha1 Ht1].
  assert (Hu : unwatched name (rt_with_loaded rt1)).
  { split; [done|]. rewrite (ag_same _ _ Ha1). cbn. by rewrite (proj1 (load_facts _ _ _ _ E)). }
  assert (H0 : rt' = run_passes zone (i0 :: later) (rt_with_loaded rt1)).
  { apply Forall_cons in Hruns as [[Hl0 _] _]. unfold rt', run_passes. cbn [foldl]. f_equal. unfold alertsRefresh at 1 2.
    rewrite bool_decide_false, Hl0, L, E by done. done. }
  rewrite H0. clear rt' H0.
  assert (P : forall runs, Forall (fun i => in_leader i = true /\ in_metrics i !! name = None) runs ->
    let rt2 := run_passes zone runs (rt_with_loaded rt1) in
    alerts_inv zone rt2 /\ rt_loaded rt2 = true /\ unwatched name rt2).
  { intros runs. induction runs as [|i runs IH] using rev_ind; intros Hr.
    - split_and!; [|done|exact Hu]. split; [apply (ag_kv _ _ Ha1)|done].
    - apply Forall_app in Hr as [Hr [[Hl Hm] _]%Forall_cons]. destruct (IH Hr) as (Hi2 & L2 & Hu2). unfold run_passes in *.
      rewrite foldl_app. cbn [foldl]. split_and!.
      + eapply alerts_inv_step; [|exact Hi2]. apply step_pass. by rewrite L2.
      + by apply loaded_pass.
      + apply unwatched_pass; [by apply (proj2 Hi2)|done..]. }
  destruct (P _ Hruns) as (Hi2 & L2 & _ & Hfire). split; [done|]. rewrite <- (ag_same zone); [done|]. by apply (proj2 Hi2).
Qed.

(** ** A zone with one host *)

Definition ex_cfg : AlertsConfig :=
  {| ax_HostDownSeconds := 0; ax_DiskFreePercent := 0; ax_CrashloopWindowSeconds := 0; ax_CrashloopRestarts := 0; ax_WebhookURL := "" |}.
Definition ex_host : ZoneHost :=
  {| zh_Host := {| h_Id := "h1"; h_PeerAddr := "10.0.0.1:9529"; h_Deploy := None |}; zh_AccessKey := ""; zh_Operate := None; zh_Status := None |}.
Definition ex_hosts : KvSet ZoneHost := KvSet_Store "h1" None ex_host {| ks_idx := ∅; ks_arr := []; ks_version := 0; ks_ready := false |}.
Definition ex_apps : appInstanceSet :=
  KvSet_Store "web" (Some 1)
    {| ai_Id := "a"; ai_Name := "web"; ai_RefByInstances := [];
       ai_Spec := {| sp_Name := "web"; sp_Version := "1"; sp_Resources := None; sp_ServicePorts := []; sp_Depends := [];
                     sp_Packages := []; sp_Configs := []; sp_Tasks := [] |};
       ai_Deploy := {| ad_Action := "start"; ad_Stage := {| Stage.dp_Revision := 1; Stage.dp_Stages := None |};
                       ad_CpuLimit := 0; ad_MemoryLimit := 0; ad_VolumeLimit := 0; ad_ReplicaCap := 0; ad_Replicas := []; ad_Depends := [];
                       ad_Configs := [] |} |} {| ks_idx := ∅; ks_arr := []; ks_version := 0; ks_ready := false |}.
Definition ex_status (updated : Z) : HostStatus :=
  {| hs_HostId := "h1"; hs_Updated := updated; hs_CpuCores := 4; hs_CpuSys := 0; hs_CpuUser := 0; hs_MemTotal := 8; hs_MemUsed := 1;
     hs_MemAvailable := 7; hs_NetRecvBytes := 0; hs_NetSentBytes := 0; hs_DiskReadBytes := 0; hs_DiskWriteBytes := 0;
     hs_DiskTotalBytes := 1000; hs_DiskFreeBytes := 500 |}.
Definition ex_metrics (n : Z) : NodeMetrics :=
  {| nm_Updated := 1; nm_CpuCores := 1; nm_CpuSys := 0; nm_CpuUser := 0; nm_MemTotal := 0; nm_MemUsed := 0; nm_MemAvailable := 0;
     nm_NetRecvBytes := 0; nm_NetSentBytes := 0; nm_DiskReadBytes := 0; nm_DiskWriteBytes := 0; nm_DiskTotalBytes := 0;
     nm_DiskFreeBytes := 0; nm_RestartCount := n |}.
Definition ex_input (now : Z) (updated : Z) (metrics : gmap string NodeMetrics) (apps : appInstanceSet) : alert_input :=
  {| in_now := now; in_leader := true; in_cfg := ex_cfg; in_hosts := ex_hosts; in_status := {[ "h1" := ex_status updated ]};
     in_metrics := metrics; in_apps := apps |}.
Definition no_apps : appInstanceSet := {| ks_idx := ∅; ks_arr := []; ks_version := 0; ks_ready := false |}.
Definition ex_rt0 : alertsRuntime (mem_store zone_value) :=
  {| rt_kv := mem_empty; rt_loaded := false; rt_entries := ∅; rt_kvStatus := ∅; rt_restarts := ∅; rt_inFlight := 0; rt_posts := [] |}.
Definition ex_rt1 := alertsRefresh "z1" (ex_input 1000 990 ∅ no_apps) ex_rt0.

Lemma ex_start : alerts_start "z1" ex_rt0.
Proof. by split. Qed.
Lemma ex_reach1 : rtc (alert_step "z1") ex_rt0 ex_rt1.
Proof. apply rtc_once, step_pass. intros _. vm_compute. reflexivity. Qed.

(** Fresh, stale, fresh: still firing after one healthy evaluation. *)
Definition ex_runs : list (alert_input * HostStatus) :=
  [(ex_input 1005 1000 ∅ no_apps, ex_status 1000); (ex_input 1100 1000 ∅ no_apps, ex_status 1000);
   (ex_input 1105 1104 ∅ no_apps, ex_status 1104)].
Lemma host_alert_iff_witness :
  (firing_at "host_down/h1" (run_passes "z1" (map fst ex_runs) ex_rt1) = true <-> alerting 1 2 [false; true; false]) /\
  stored_firing "z1" (rt_kv (run_passes "z1" (map fst ex_runs) ex_rt1)) "host_down/h1" = true.
Proof.
  assert (Hids : alert_host_ids ex_hosts = ["h1"]) by (vm_compute; reflexivity).
  assert (Hruns : host_runs "h1" ex_runs).
  { unfold host_runs, ex_runs. rewrite !Forall_cons. cbn [fst snd in_hosts in_leader in_status ex_input]. rewrite Hids.
    split_and!; try done; try apply NoDup_singleton; apply list_elem_of_here. }
  destruct (host_alert_iff (mem_store zone_value) _ _ _ _ _ _ "z1" AlertRuleHostDown "h1"
    {| rule_id := AlertRuleHostDown; fireStreak := 1; resolveStreak := 2 |} ex_rt0 ex_rt1 ex_runs
    ltac:(done) (or_introl eq_refl) eq_refl ex_start ex_reach1 eq_refl eq_refl Hruns) as [H1 H2].
  split; [exact H1|]. etransitivity; [exact H2|]. vm_compute. reflexivity.
Defined.

Definition ex_web (n : Z) : gmap string NodeMetrics := {[ "i8k_web_0" := ex_metrics n ]}.
Definition ex_rt3 := run_passes "z1" [ex_input 1000 990 (ex_web 0) ex_apps; ex_input 1005 1000 (ex_web 5) ex_apps] ex_rt0.
Lemma ex_reach3 : rtc (alert_step "z1") ex_rt0 ex_rt3.
Proof.
  eapply rtc_l; [apply step_pass; intros _; vm_compute; reflexivity|]. apply rtc_once. apply step_pass. done.
Qed.

Lemma alerts_written_through_witness :
  firing_at "replica_crashloop/i8k_web_0" ex_rt3 = stored_firing "z1" (rt_kv ex_rt3) "replica_crashloop/i8k_web_0" /\
  firing_at "replica_crashloop/i8k_web_0" ex_rt3 = true.
Proof.
  split; [|vm_compute; reflexivity].
  apply (alerts_written_through (mem_store zone_value) _ _ _ _ _ _ "z1" ex_rt0 ex_rt3 ex_start ex_reach3 eq_refl).
Defined.

Lemma orphan_crashloop_stuck_witness :
  stored_firing "z1" (rt_kv (run_passes "z1" (replicate 5 (ex_input 9000 9000 ∅ no_apps)) (alerts_reset ex_rt3)))
    "replica_crashloop/i8k_web_0" = true.
Proof.
  apply (orphan_crashloop_stuck (mem_store zone_value) _ _ _ _ _ _ "z1" "i8k_web_0" ex_rt0 (alerts_reset ex_rt3)
    (ex_input 9000 9000 ∅ no_apps) (replicate 4 (ex_input 9000 9000 ∅ no_apps))).
  - done.
  - exact ex_start.
  - eapply rtc_r; [exact ex_reach3|]. by apply step_switch.
  - done.
  - vm_compute. reflexivity.
  - vm_compute. reflexivity.
  - vm_compute. reflexivity.
  - repeat constructor.
Defined.
