(* ===== verification/Varint.v ===== *)
(** The variable-length integers of Go's [encoding/binary], which the metrics blocks of
    the zone leader are made of: [PutVarint] and [ReadVarint].  A byte is a [Z] below 256. *)
From Stdlib Require Import ZArith Lia.
From S2P Require Import Prelude.
Local Open Scope Z_scope.
Local Open Scope go_scope.

Definition MaxVarintLen64 : nat := 10.

(** [PutUvarint]: seven bits a byte, the lowest first; ten bytes hold 64 bits. *)
Fixpoint put_uvarint (n : nat) (x : Z) : list Z :=
  match n with
  | O => []
  | S n => if 128 <=? x then (Z.lor (x mod 256) 128 :: put_uvarint n (Z.shiftr x 7))%list else [x]
  end.
Definition PutUvarint (x : Z) : list Z := put_uvarint MaxVarintLen64 x.
(** [uint64(x) << 1], complemented when [x] is negative *)
Definition zigzag (x : Z) : Z := if x <? 0 then u64 (Z.lnot (u64 (Z.shiftl (u64 x) 1))) else u64 (Z.shiftl (u64 x) 1).
Definition PutVarint (x : Z) : list Z := PutUvarint (zigzag x).

(** [ReadUvarint]: [k] bytes are read, [acc] is what they hold. *)
Fixpoint read_uvarint (n : nat) (k : nat) (acc : Z) (b : list Z) : result (Z * list Z) :=
  match n with
  | O => Err "binary: varint overflows a 64-bit integer"
  | S n =>
    match b with
    | [] => Err (if (k =? 0)%nat then "EOF" else "unexpected EOF")
    | c :: b =>
      if c <? 128 then
        if (k =? 9)%nat && (1 <? c) then Err "binary: varint overflows a 64-bit integer"
        else Ok (Z.lor acc (u64 (Z.shiftl c (7 * Z.of_nat k))), b)
      else read_uvarint n (S k) (Z.lor acc (u64 (Z.shiftl (Z.land c 127) (7 * Z.of_nat k)))) b
    end
  end.
Definition ReadUvarint (b : list Z) : result (Z * list Z) := read_uvarint MaxVarintLen64 0 0 b.
Definition unzigzag (ux : Z) : Z := let x := i64 (Z.shiftr ux 1) in if Z.testbit ux 0 then Z.lnot x else x.
Definition ReadVarint (b : list Z) : result (Z * list Z) :=
  let? (ux, b) := ReadUvarint b in
  Ok (unzigzag ux, b).

Example varint_runs :
  map PutVarint [0; -1; 1; 63; - 64; 64; 300; 9223372036854775807; -9223372036854775808] =
  ([0] :: [1] :: [2] :: [126] :: [127] :: [128; 1] :: [216; 4] :: [254; 255; 255; 255; 255; 255; 255; 255; 255; 1] ::
   [255; 255; 255; 255; 255; 255; 255; 255; 255; 1] :: [])%list /\
  ReadVarint [128; 128; 128; 128; 128; 128; 128; 128; 128; 2] = Err "binary: varint overflows a 64-bit integer" /\
  ReadVarint [] = Err "EOF" /\ ReadVarint [128] = Err "unexpected EOF".
Proof. vm_compute. done. Qed.

(** ** Round trip *)

Lemma zigzag_range x : in_u64 (zigzag x).
Proof. unfold zigzag, u64, wrap_u. destruct (x <? 0); apply Z.mod_pos_bound; lia. Qed.

Lemma zigzag_nonneg x : 0 <= x < 2 ^ 63 -> zigzag x = 2 * x.
Proof.
  intros Hx. unfold zigzag, u64, wrap_u. destruct (Z.ltb_spec x 0); [lia|].
  rewrite Z.shiftl_mul_pow2 by lia. rewrite (Z.mod_small x) by lia. rewrite Z.mod_small; lia.
Qed.
Lemma zigzag_neg x : - 2 ^ 63 <= x < 0 -> zigzag x = - 2 * x - 1.
Proof.
  intros Hx. unfold zigzag, u64, wrap_u. destruct (Z.ltb_spec x 0); [|lia].
  rewrite Z.shiftl_mul_pow2 by lia. unfold Z.lnot.
  assert (E1 : x mod 2 ^ 64 = x + 2 ^ 64) by (symmetry; apply Z.mod_unique with (-1); lia). rewrite E1.
  assert (E2 : ((x + 2 ^ 64) * 2 ^ 1) mod 2 ^ 64 = 2 * x + 2 ^ 64) by (symmetry; apply Z.mod_unique with 1; lia). rewrite E2.
  symmetry. apply Z.mod_unique with (-1); lia.
Qed.
Lemma unzigzag_zigzag x : in_i64 x -> unzigzag (zigzag x) = x.
Proof.
  intros Hx. unfold in_i64 in Hx. unfold unzigzag. rewrite Z.shiftr_div_pow2, Z.bit0_odd by lia.
  destruct (Z_lt_le_dec x 0).
  - rewrite zigzag_neg by lia. replace (- 2 * x - 1) with (1 + 2 * (- x - 1)) by lia.
    rewrite Z.odd_add_mul_2. change (Z.odd 1) with true. cbn iota.
    assert (E : (1 + 2 * (- x - 1)) / 2 ^ 1 = - x - 1) by (symmetry; apply Z.div_unique with 1; lia). rewrite E.
    rewrite i64_id by (unfold in_i64; lia). unfold Z.lnot. lia.
  - rewrite zigzag_nonneg by lia. replace (2 * x) with (0 + 2 * x) by lia. rewrite Z.odd_add_mul_2. change (Z.odd 0) with false. cbn iota.
    assert (E : (0 + 2 * x) / 2 ^ 1 = x) by (symmetry; apply Z.div_unique with 0; lia). rewrite E.
    by rewrite i64_id by (unfold in_i64; lia).
Qed.

(** Bits put above what is there already. *)
Lemma lor_above a y k : 0 <= a < 2 ^ k -> 0 <= k -> 0 <= y -> Z.lor a (Z.shiftl y k) = a + y * 2 ^ k.
Proof.
  intros Ha Hk Hy. rewrite <- Z.shiftl_mul_pow2 by done. symmetry. apply Z.add_nocarry_lor, Z.bits_inj'. intros n Hn.
  rewrite Z.land_spec, Z.bits_0. destruct (Z_lt_le_dec n k).
  - by rewrite (Z.shiftl_spec_low y k n) by lia; rewrite andb_false_r.
  - destruct (Z.eq_dec a 0) as [->|]; [by rewrite Z.bits_0|].
    rewrite Z.bits_above_log2; [done|lia|]. assert (Z.log2 a < k) by (apply Z.log2_lt_pow2; lia). lia.
Qed.

Lemma low_byte x : 128 <= x -> Z.land (Z.lor (x mod 256) 128) 127 = x mod 128 /\ (Z.lor (x mod 256) 128 <? 128) = false.
Proof.
  intros Hx. split.
  - change 127 with (Z.ones 7). rewrite Z.land_ones by lia. change (2 ^ 7) with 128.
    apply Z.bits_inj'. intros n Hn. change 128 with (2 ^ 7). change 256 with (2 ^ 8).
    destruct (Z_lt_le_dec n 7).
    + rewrite !Z.mod_pow2_bits_low by lia. rewrite Z.lor_spec, Z.mod_pow2_bits_low by lia. rewrite Z.pow2_bits_false by lia. by rewrite orb_false_r.
    + by rewrite !Z.mod_pow2_bits_high by lia.
  - apply Z.ltb_ge. assert (Hb : Z.testbit (Z.lor (x mod 256) 128) 7 = true).
    { rewrite Z.lor_spec. change 128 with (2 ^ 7). rewrite Z.pow2_bits_true by lia. by rewrite orb_true_r. }
    assert (0 <= Z.lor (x mod 256) 128) by (apply Z.lor_nonneg; split; [apply Z.mod_pos_bound; lia|lia]).
    destruct (Z_lt_le_dec (Z.lor (x mod 256) 128) 128) as [Hlt|]; [|lia]. exfalso.
    destruct (Z.eq_dec (Z.lor (x mod 256) 128) 0) as [E|]; [by rewrite E in Hb|].
    rewrite Z.bits_above_log2 in Hb; [done|done|]. apply Z.log2_lt_pow2; [lia|]. exact Hlt.
Qed.

Lemma read_put_uvarint n k acc x rest : (n + k = 10)%nat -> 0 <= x -> (k = O \/ 0 < x) -> 0 <= acc < 2 ^ (7 * Z.of_nat k) ->
  acc + x * 2 ^ (7 * Z.of_nat k) < 2 ^ 64 ->
  read_uvarint n k acc (put_uvarint n x ++ rest)%list = Ok (acc + x * 2 ^ (7 * Z.of_nat k), rest).
Proof.
  revert k acc x. induction n as [|n IH]; intros k acc x Hnk Hx Hpos Hacc Hlt.
  - exfalso. assert (k = 10%nat) by lia. subst k. change (2 ^ (7 * Z.of_nat 10)) with (2 ^ 70) in *. lia.
  - cbn [put_uvarint]. assert (P : 0 < 2 ^ (7 * Z.of_nat k)) by (apply Z.pow_pos_nonneg; lia).
    destruct (Z.leb_spec 128 x) as [Hge|Hsmall].
    + cbn [app read_uvarint]. destruct (low_byte x Hge) as [-> ->]. rewrite Z.shiftr_div_pow2 by lia. change (2 ^ 7) with 128.
      pose proof (Z.mod_pos_bound x 128 ltac:(lia)) as Hm. pose proof (Z.div_mod x 128 ltac:(lia)) as Hd.
      assert (E7 : 2 ^ (7 * Z.of_nat (S k)) = 128 * 2 ^ (7 * Z.of_nat k)).
      { replace (7 * Z.of_nat (S k)) with (7 + 7 * Z.of_nat k) by lia. rewrite Z.pow_add_r by lia. done. }
      assert (Hs : u64 (Z.shiftl (x mod 128) (7 * Z.of_nat k)) = Z.shiftl (x mod 128) (7 * Z.of_nat k)).
      { unfold u64, wrap_u. rewrite Z.shiftl_mul_pow2 by lia. apply Z.mod_small. nia. }
      rewrite Hs, lor_above by lia. rewrite IH; [f_equal; f_equal; rewrite E7; nia|lia|apply Z.div_pos; lia|right; lia|nia|rewrite E7; nia].
    + cbn [app read_uvarint]. destruct (Z.ltb_spec x 128); [|lia].
      assert (Hs : u64 (Z.shiftl x (7 * Z.of_nat k)) = Z.shiftl x (7 * Z.of_nat k)).
      { unfold u64, wrap_u. rewrite Z.shiftl_mul_pow2 by lia. apply Z.mod_small. nia. }
      rewrite Hs, lor_above by lia. destruct ((k =? 9)%nat && (1 <? x)) eqn:C; [|done]. exfalso.
      apply andb_true_iff in C as [C1%Nat.eqb_eq C2%Z.ltb_lt]. subst k. change (2 ^ (7 * Z.of_nat 9)) with (2 ^ 63) in Hlt. lia.
Qed.

(** What is written is read back, and nothing behind it is touched. *)
Lemma varint_roundtrip x rest : in_i64 x -> ReadVarint (PutVarint x ++ rest)%list = Ok (x, rest).
Proof.
  intros Hx. unfold ReadVarint, ReadUvarint, PutVarint, PutUvarint.
  pose proof (zigzag_range x) as Hz. unfold in_u64 in Hz.
  rewrite read_put_uvarint; [|done|lia|by left|cbn; lia|cbn; lia]. cbn [rbind]. replace (0 + zigzag x * 2 ^ (7 * Z.of_nat 0)) with (zigzag x) by (cbn; lia).
  by rewrite unzigzag_zigzag.
Qed.
