(* ===== verification/Monstore.v ===== *)
(** The metrics history of the zone leader: [src/internal/zonelet/monstore.go],
    [HostMetrics] of [src/internal/zonelet/service_metrics.go] and the settings of
    [src/internal/config/config.go].

    The leader samples the reports of the hosts into a block; when the block's window is
    over it is written, one record for each host and field.  A flush runs beside the loop:
    [monstoreTick] begins it and [mon_flushed] is its end. *)
From Stdlib Require Import ZArith Lia.
From S2P Require Import Prelude GoStrings Ns Kv Zone Varint.
Local Open Scope string_scope.
Local Open Scope Z_scope.
Local Open Scope go_scope.

Definition MonBlockScanLimit : Z := 4096.
Definition HostMetricsMaxPointsDefault : Z := 1000.
Definition HostMetricsMaxPointsMax : Z := 10000.

(** [config.MonstoreConfig] *)
Record MonstoreConfig := { mc_RetentionDays : Z; mc_SampleIntervalSecs : Z }.
Definition Monstore_RetentionMs (it : MonstoreConfig) : Z :=
  if mc_RetentionDays it <=? 0 then 0 else mc_RetentionDays it *64 86400000.
Definition SampleIntervalSec (it : MonstoreConfig) : Z :=
  if mc_SampleIntervalSecs it <=? 0 then 30 else Z.min (Z.max (mc_SampleIntervalSecs it) 10) 3600.

(** ** Samples *)

Definition monHostExtractors : list (HostStatus -> Z) :=
  [fun hs => Z.quot (hs_CpuSys hs +64 hs_CpuUser hs) Window1Min;
   hs_MemUsed; hs_MemAvailable; hs_DiskFreeBytes; hs_DiskTotalBytes;
   fun hs => Z.quot (hs_NetRecvBytes hs) Window1Min; fun hs => Z.quot (hs_NetSentBytes hs) Window1Min;
   fun hs => Z.quot (hs_DiskReadBytes hs) Window1Min; fun hs => Z.quot (hs_DiskWriteBytes hs) Window1Min].

Record monSample := { ms_host : string; ms_ts : Z; ms_values : list Z }.
Definition monSampleOf (hostId : string) (hs : HostStatus) (now : Z) : monSample :=
  {| ms_host := hostId; ms_ts := now; ms_values := map (fun extract => extract hs) monHostExtractors |}.

Definition monBlockStartOf (ts : Z) : Z := ts - Z.rem ts MonBlockSeconds.

(** ** Blocks *)

(** The points of a series, after the header: the time since the point before, the value. *)
Fixpoint encode_points (prev : Z) (points : list (Z * Z)) : list Z :=
  match points with
  | [] => []
  | (ts, v) :: points => (PutVarint (ts -64 prev) ++ PutVarint v ++ encode_points ts points)%list
  end.
(** [ts] and [values] have one length. *)
Definition monEncodeBlock (blockStart : Z) (ts values : list Z) : list Z :=
  (PutVarint (Z.of_nat (length ts)) ++ PutVarint blockStart ++ encode_points blockStart (combine ts values))%list.

(** What a handler makes of a block; a [panic] is not recovered. *)
Inductive decoded :=
| Decoded (blockStart : Z) (points : list (Z * Z))
| DecodeErr (e : string)
| DecodePanic.

Fixpoint decode_points (n : nat) (prev : Z) (b : list Z) : result (list (Z * Z)) :=
  match n with
  | O => Ok []
  | S n =>
    let? (delta, b) := ReadVarint b in
    let? (v, b) := ReadVarint b in
    let? points := decode_points n (prev +64 delta) b in
    Ok ((prev +64 delta, v) :: points)
  end.
(** [make([]int64, 0, count)] refuses a size out of the address space, 2^48 bytes. *)
Definition makeslice_int64 (count : Z) : bool := (0 <=? count) && (count * 8 <=? 2 ^ 48).
Definition monDecodeBlock (b : list Z) : decoded :=
  match ReadVarint b with
  | Err e => DecodeErr e
  | Ok (count, b) =>
    match ReadVarint b with
    | Err e => DecodeErr e
    | Ok (blockStart, b) =>
      if negb (makeslice_int64 count) then DecodePanic
      else match decode_points (Z.to_nat count) blockStart b with
           | Err e => DecodeErr e
           | Ok points => Decoded blockStart points
           end
    end
  end.

(** ** Sampling *)

Record monBlock := { bl_start : Z; bl_samples : list monSample }.
(** [monBuf], and the flushes begun. *)
Record monstoreBuf := { mb_blockStart : Z; mb_samples : list monSample; mb_flights : list monBlock }.
Definition monstoreReset (b : monstoreBuf) : monstoreBuf :=
  {| mb_blockStart := 0; mb_samples := []; mb_flights := mb_flights b |}.

(** A block beyond two flushes in flight is dropped. *)
Definition monFlushAsync (block : monBlock) (b : monstoreBuf) : monstoreBuf :=
  if 2 <=? Z.of_nat (length (mb_flights b)) then b
  else {| mb_blockStart := mb_blockStart b; mb_samples := mb_samples b; mb_flights := (mb_flights b ++ [block])%list |}.

Definition sampled (now : Z) (hs : HostStatus) : list monSample :=
  if bool_decide (hs_HostId hs = "") then [] else [monSampleOf (hs_HostId hs) hs now].

Section monstore.
Context {S : Type} `{Kv S zone_value} {MR : MapRange}.
Implicit Types (kv : S).

Definition mon_rotate (now : Z) (b : monstoreBuf) : monstoreBuf :=
  let b := if mb_blockStart b =? 0
           then {| mb_blockStart := monBlockStartOf now; mb_samples := mb_samples b; mb_flights := mb_flights b |} else b in
  if MonBlockSeconds <=? (now -64 mb_blockStart b) then
    let block := {| bl_start := mb_blockStart b; bl_samples := mb_samples b |} in
    monFlushAsync block {| mb_blockStart := monBlockStartOf now; mb_samples := []; mb_flights := mb_flights b |}
  else b.
Definition monstoreTick (zone : string) (cfg : MonstoreConfig) (leader : bool) (statuses : gmap string HostStatus) (now : Z)
    (b : monstoreBuf) : monstoreBuf :=
  if bool_decide (zone = "") || (Monstore_RetentionMs cfg <=? 0) then b
  else if negb leader then if mb_blockStart b =? 0 then b else monstoreReset b
  else
    let b := mon_rotate now b in
    {| mb_blockStart := mb_blockStart b;
       mb_samples := (mb_samples b ++ concat (map (fun ks => sampled now (snd ks)) (map_range statuses)))%list;
       mb_flights := mb_flights b |}.

(** ** Flushing *)

Definition by_host (samples : list monSample) : gmap string (list monSample) :=
  foldl (fun m s => <[ms_host s := (default [] (m !! ms_host s) ++ [s])%list]> m) ∅ samples.
Definition series_block (blockStart : Z) (f : nat) (samples : list monSample) : list Z :=
  monEncodeBlock blockStart (map ms_ts samples) (map (fun s => nth f (ms_values s) 0) samples).
Definition mon_opts (retention : Z) : kv_opts := {| prev_version := 0; create_only := false; ttl_ms := retention |}.

(** The fields of one host in their order, from the [f]th; [false] when a write failed. *)
Fixpoint flush_fields (zone host : string) (blockStart retention : Z) (samples : list monSample) (f : nat) (fields : list string) kv : S * bool :=
  match fields with
  | [] => (kv, true)
  | field :: fields =>
    match kv_write kv (mon_opts retention) (NsZoneletMonBlock zone host field blockStart) (series_block blockStart f samples) with
    | (kv, KvOk _) => flush_fields zone host blockStart retention samples (Datatypes.S f) fields kv
    | (kv, _) => (kv, false)
    end
  end.
Fixpoint flush_hosts (zone : string) (blockStart retention : Z) (hosts : list (string * list monSample)) kv : S :=
  match hosts with
  | [] => kv
  | (host, samples) :: hosts =>
    match flush_fields zone host blockStart retention samples 0 MonFields kv with
    | (kv, true) => flush_hosts zone blockStart retention hosts kv
    | (kv, false) => kv
    end
  end.
Definition monFlushBlock (zone : string) (block : monBlock) (retention : Z) kv : S :=
  flush_hosts zone (bl_start block) retention (map_range (by_host (bl_samples block))) kv.

(** The oldest flush comes to its end. *)
Definition mon_flushed (zone : string) (cfg : MonstoreConfig) (st : monstoreBuf * S) : monstoreBuf * S :=
  let '(b, kv) := st in
  match mb_flights b with
  | [] => st
  | block :: rest =>
    ({| mb_blockStart := mb_blockStart b; mb_samples := mb_samples b; mb_flights := rest |},
     monFlushBlock zone block (Monstore_RetentionMs cfg) kv)
  end.

(** ** Queries *)

(** The points so far and the last bucket; or the answer, at the limit; or the panic of an
    index below the list. *)
Inductive collected := Collecting (points : list (Z * Z)) (lastBucket : Z) | Full (points : list (Z * Z)) | Panicked.
Definition set_last (p : Z * Z) (l : list (Z * Z)) : list (Z * Z) := (removelast l ++ [p])%list.

Definition collect_point (tsStart tsEnd step limit : Z) (c : collected) (p : Z * Z) : collected :=
  match c with
  | Collecting points lastBucket =>
    let '(ts, v) := p in
    if (0 <? tsStart) && (ts <? tsStart) then c
    else if (0 <? tsEnd) && (tsEnd <? ts) then c
    else if limit <=? Z.of_nat (length points) then Full points
    else if 0 <? step then
      let bucket := Z.quot ts step in
      if bucket =? lastBucket then
        if bool_decide (points = []) then Panicked else Collecting (set_last p points) lastBucket
      else Collecting (points ++ [p])%list bucket
    else Collecting (points ++ [p])%list lastBucket
  | _ => c
  end.
(** A block that does not decode is skipped. *)
Definition collect_block (tsStart tsEnd step limit : Z) (c : collected) (item : string * kv_item (list Z)) : collected :=
  match c with
  | Collecting _ _ =>
    match it_value (snd item) with
    | None => c
    | Some b =>
      match monDecodeBlock b with
      | DecodeErr _ => c
      | DecodePanic => Panicked
      | Decoded _ points => foldl (collect_point tsStart tsEnd step limit) c points
      end
    end
  | _ => c
  end.

Definition query_from (zone host field : string) (tsStart : Z) : string :=
  if 0 <? tsStart then NsZoneletMonBlock zone host field (monBlockStartOf tsStart - MonBlockSeconds)
  else NsZoneletMonBlockPrefix zone host field.
Definition query_to (zone host field : string) (tsEnd : Z) : string :=
  if 0 <? tsEnd then NsZoneletMonBlock zone host field (monBlockStartOf tsEnd +64 2 * MonBlockSeconds)
  else range_end (NsZoneletMonBlockPrefix zone host field).
Definition monQuery (zone host field : string) (tsStart tsEnd step limit : Z) kv : result (list (Z * Z)) :=
  match kv_range (V := list Z) kv (query_from zone host field tsStart) (query_to zone host field tsEnd) MonBlockScanLimit with
  | KvErr m => Err m
  | KvNotFound => Ok []
  | KvOk items =>
    match foldl (collect_block tsStart tsEnd step limit) (Collecting [] (-1)) items with
    | Collecting points _ => Ok points
    | Full points => Ok points
    | Panicked => Err "panic: index out of range"
    end
  end.

Record HostMetricsRequest := { mr_HostId : string; mr_Field : string; mr_StartTime : Z; mr_EndTime : Z; mr_StepSeconds : Z; mr_MaxPoints : Z }.
Fixpoint query_fields (zone : string) (req : HostMetricsRequest) (maxPoints : Z) (fields : list string) kv : result (list (string * list (Z * Z))) :=
  match fields with
  | [] => Ok []
  | field :: fields =>
    let? points := monQuery zone (mr_HostId req) field (mr_StartTime req) (mr_EndTime req) (mr_StepSeconds req) maxPoints kv in
    let? series := query_fields zone req maxPoints fields kv in
    Ok ((field, points) :: series)
  end.
(** The request after the authorisation of the caller. *)
Definition HostMetrics (zone : string) (leader : bool) (req : HostMetricsRequest) kv : result (list (string * list (Z * Z))) :=
  if negb leader then Err "zonelet leader"
  else if bool_decide (mr_HostId req = "") then Err "host_id required"
  else if bool_decide (mr_Field req <> "") && negb (MonFieldValid (mr_Field req)) then Err "invalid field"
  else
    let fields := if bool_decide (mr_Field req <> "") then [mr_Field req] else MonFields in
    let maxPoints := if mr_MaxPoints req <=? 0 then HostMetricsMaxPointsDefault else mr_MaxPoints req in
    query_fields zone req (Z.min maxPoints HostMetricsMaxPointsMax) fields kv.
End monstore.
