(* ===== verification/MonstoreLogic.v ===== *)
(** Theorems about the metrics history ([Monstore]): blocks decode to what was encoded, a
    query thins a series out bucket by bucket, and what the leader samples is what a query
    finds. *)
From Stdlib Require Import ZArith Lia Ascii Sorted.
From S2P Require Import Prelude GoStrings Ns Kv Paging Zone Varint Monstore.
Local Open Scope string_scope.
Local Open Scope Z_scope.
Local Open Scope go_scope.

(** ** Blocks *)

Lemma delta_back prev ts : in_i64 ts -> (prev +64 (ts -64 prev)) = ts.
Proof.
  intros Hts. destruct (i64_ex (ts - prev)) as [k E]. destruct (i64_ex (prev + i64 (ts - prev))) as [k' E'].
  pose proof (i64_range (prev + i64 (ts - prev))) as Hr. unfold in_i64 in *. lia.
Qed.

Lemma decode_encode_points prev points rest : Forall (fun p => in_i64 (fst p) /\ in_i64 (snd p)) points ->
  decode_points (length points) prev (encode_points prev points ++ rest)%list = Ok points.
Proof.
  intros Hp. revert prev. induction Hp as [|[ts v] points [Hts Hv] _ IH]; intros prev; [done|].
  cbn [fst snd] in Hts, Hv. cbn [encode_points length decode_points]. rewrite <- !app_assoc.
  rewrite varint_roundtrip by apply i64_range. cbn [rbind]. rewrite varint_roundtrip by done. cbn [rbind].
  rewrite delta_back by done. rewrite IH. done.
Qed.

Lemma block_roundtrip blockStart ts values : length values = length ts -> Z.of_nat (length ts) <= 2 ^ 45 -> in_i64 blockStart ->
  Forall in_i64 ts -> Forall in_i64 values ->
  monDecodeBlock (monEncodeBlock blockStart ts values) = Decoded blockStart (combine ts values).
Proof.
  intros Hl Hn Hb Hts Hv. unfold monDecodeBlock, monEncodeBlock.
  rewrite varint_roundtrip by (unfold in_i64; lia). rewrite varint_roundtrip by done.
  assert (makeslice_int64 (Z.of_nat (length ts)) = true) as -> by (unfold makeslice_int64; apply andb_true_iff; split; apply Z.leb_le; lia).
  cbn [negb]. rewrite Nat2Z.id.
  assert (Hlen : length (combine ts values) = length ts) by (rewrite length_combine; lia).
  rewrite <- Hlen at 1. rewrite <- (app_nil_r (encode_points _ _)). rewrite decode_encode_points; [done|].
  apply Forall_forall. intros [t v] Hin. rewrite Forall_forall in Hts, Hv. apply list_elem_of_In in Hin. split.
  - apply Hts, list_elem_of_In. by eapply in_combine_l.
  - apply Hv, list_elem_of_In. by eapply in_combine_r.
Qed.

(** ** Thinning a series out *)

Definition in_window (tsStart tsEnd : Z) (p : Z * Z) : bool :=
  negb ((0 <? tsStart) && (fst p <? tsStart)) && negb ((0 <? tsEnd) && (tsEnd <? fst p)).
Definition windowed (tsStart tsEnd : Z) (l : list (Z * Z)) : list (Z * Z) := List.filter (in_window tsStart tsEnd) l.

(** The consecutive points of one bucket, as their first and their last. *)
Definition same_bucket (step : Z) (p q : Z * Z) : bool := Z.quot (fst p) step =? Z.quot (fst q) step.
Definition add_span (step : Z) (bs : list ((Z * Z) * (Z * Z))) (p : Z * Z) : list ((Z * Z) * (Z * Z)) :=
  match last bs with
  | Some (a, b) => if same_bucket step b p then (removelast bs ++ [(a, p)])%list else (bs ++ [(p, p)])%list
  | None => [(p, p)]
  end.
Definition spans (step : Z) (l : list (Z * Z)) : list ((Z * Z) * (Z * Z)) := foldl (add_span step) [] l.
(** The last point of each bucket; at the limit, the first point of the last bucket. *)
Definition thinned (step : Z) (limit : nat) (l : list (Z * Z)) : list (Z * Z) :=
  let bs := spans step l in
  if (length bs <? limit)%nat then map snd bs
  else (take (limit - 1) (map snd bs) ++ map fst (take 1 (drop (limit - 1) bs)))%list.
Definition answer (c : collected) : result (list (Z * Z)) :=
  match c with Collecting points _ => Ok points | Full points => Ok points | Panicked => Err "panic: index out of range" end.

Lemma collect_outside tsStart tsEnd step limit c p : in_window tsStart tsEnd p = false -> collect_point tsStart tsEnd step limit c p = c.
Proof.
  destruct c; try done. destruct p as [ts v]. unfold in_window. cbn [fst collect_point].
  destruct ((0 <? tsStart) && (ts <? tsStart)); [done|]. by destruct ((0 <? tsEnd) && (tsEnd <? ts)).
Qed.
Lemma collect_inside tsStart tsEnd step limit points lb p : in_window tsStart tsEnd p = true ->
  collect_point tsStart tsEnd step limit (Collecting points lb) p =
  if limit <=? Z.of_nat (length points) then Full points
  else if 0 <? step then
    if Z.quot (fst p) step =? lb then
      if bool_decide (points = []) then Panicked else Collecting (set_last p points) lb
    else Collecting (points ++ [p])%list (Z.quot (fst p) step)
  else Collecting (points ++ [p])%list lb.
Proof.
  destruct p as [ts v]. unfold in_window. cbn [fst collect_point].
  destruct ((0 <? tsStart) && (ts <? tsStart)); [done|]. by destruct ((0 <? tsEnd) && (tsEnd <? ts)).
Qed.
Lemma collect_windowed tsStart tsEnd step limit l : forall c,
  foldl (collect_point tsStart tsEnd step limit) c l = foldl (collect_point tsStart tsEnd step limit) c (windowed tsStart tsEnd l).
Proof.
  induction l as [|p l IH]; intros c; [done|]. cbn. destruct (in_window tsStart tsEnd p) eqn:E; cbn; rewrite IH; [done|].
  by rewrite collect_outside.
Qed.

Lemma collect_plain tsStart tsEnd limit l : 0 < limit -> Forall (fun p => in_window tsStart tsEnd p = true) l ->
  exists c, foldl (collect_point tsStart tsEnd 0 limit) (Collecting [] (-1)) l = c /\ answer c = Ok (take (Z.to_nat limit) l) /\
    ((exists lb, c = Collecting l lb) /\ Z.of_nat (length l) <= limit \/ limit < Z.of_nat (length l) /\ c = Full (take (Z.to_nat limit) l)).
Proof.
  intros Hlim. induction l as [|p l IH] using rev_ind; intros Hw.
  - eexists. split; [done|]. cbn. rewrite take_nil. split; [done|]. left. split; [by eexists|cbn; lia].
  - apply Forall_app in Hw as [Hw [Hp _]%Forall_cons]. destruct (IH Hw) as (c & Ec & Ha & Hc). eexists. split; [done|].
    rewrite foldl_app, Ec. cbn [foldl]. rewrite length_app. cbn [length]. destruct Hc as [[[lb ->] Hle]|[Hlt ->]].
    + rewrite collect_inside by done. destruct (Z.leb_spec limit (Z.of_nat (length l))).
      * assert (E : take (Z.to_nat limit) (l ++ [p])%list = l) by (rewrite take_app_le by lia; apply take_ge; lia).
        rewrite E. split; [done|]. right. split; [lia|done].
      * cbn. rewrite take_ge by (rewrite length_app; cbn; lia). split; [done|]. left. split; [by eexists|lia].
    + cbn. assert (E : take (Z.to_nat limit) (l ++ [p])%list = take (Z.to_nat limit) l) by (rewrite take_app_le by lia; done).
      rewrite E. split; [done|]. right. split; [lia|done].
Qed.

Section thin.
Variables (tsStart tsEnd step limit : Z).
Hypotheses (Hstep : 0 < step) (Hlim : 0 < limit).
Let n := Z.to_nat limit.

Definition thin_inv (bs : list ((Z * Z) * (Z * Z))) (c : collected) : Prop :=
  match c with
  | Collecting pts lb => pts = map snd bs /\ (length bs <= n)%nat /\
      lb = match last bs with Some (_, b) => Z.quot (fst b) step | None => -1 end /\
      (length bs = n -> forall a b, last bs = Some (a, b) -> a = b)
  | Full pts => (n <= length bs)%nat /\ pts = (take (n - 1) (map snd bs) ++ map fst (take 1 (drop (n - 1) bs)))%list
  | Panicked => False
  end.

(** What is fixed once the limit is reached. *)
Lemma add_span_prefix bs p : (n <= length bs)%nat ->
  (n <= length (add_span step bs p))%nat /\
  (take (n - 1) (map snd (add_span step bs p)) ++ map fst (take 1 (drop (n - 1) (add_span step bs p))) =
   take (n - 1) (map snd bs) ++ map fst (take 1 (drop (n - 1) bs)))%list.
Proof.
  intros Hn. unfold add_span. destruct (last bs) as [[a b]|] eqn:El; [|apply last_None in El; subst bs; cbn in Hn; lia].
  apply last_Some in El as [bs' ->]. rewrite length_app in Hn. cbn in Hn.
  destruct (same_bucket step b p).
  - rewrite removelast_last, !length_app. cbn [length]. split; [lia|].
    rewrite !List.map_app. rewrite !take_app_le by (rewrite ?length_map; lia). f_equal.
    rewrite !skipn_app. destruct (decide (n - 1 = length bs')%nat) as [->|].
    + rewrite drop_all, Nat.sub_diag. done.
    + assert (drop (n - 1) bs' <> []) by (intros E%(f_equal length); rewrite length_drop in E; cbn in E; lia).
      destruct (drop (n - 1) bs'); done.
  - rewrite !length_app. cbn [length]. split; [lia|]. rewrite !List.map_app, <- !app_assoc. cbn [map app].
    rewrite !take_app_le by (rewrite ?length_map; lia). f_equal.
    rewrite !skipn_app. destruct (decide (n - 1 = length bs')%nat) as [->|].
    + rewrite drop_all, Nat.sub_diag. done.
    + assert (drop (n - 1) bs' <> []) by (intros E%(f_equal length); rewrite length_drop in E; cbn in E; lia).
      destruct (drop (n - 1) bs'); done.
Qed.

Lemma thin_step bs c p : in_window tsStart tsEnd p = true -> 0 <= fst p -> thin_inv bs c ->
  thin_inv (add_span step bs p) (collect_point tsStart tsEnd step limit c p).
Proof.
  intros Hw Hp Hi. destruct c as [pts lb|pts|]; [|cbn in Hi|done].
  - destruct Hi as (-> & Hle & Hlb & Hone). rewrite collect_inside by done. rewrite length_map.
    destruct (Z.leb_spec limit (Z.of_nat (length bs))) as [Hfull|Hroom].
    + assert (Hn : length bs = n) by lia. destruct (add_span_prefix bs p ltac:(lia)) as [Hl E]. cbn. split; [done|]. rewrite E.
      destruct (last bs) as [[a b]|] eqn:El; [|apply last_None in El; subst bs; cbn in Hn; lia].
      pose proof (Hone Hn a b eq_refl) as ->. apply last_Some in El as [bs' ->]. rewrite length_app in Hn. cbn in Hn.
      rewrite List.map_app. replace (n - 1)%nat with (length bs') by lia.
      rewrite take_app_le by (rewrite length_map; lia). rewrite take_ge by (rewrite length_map; lia).
      by rewrite skipn_app, drop_all, Nat.sub_diag.
    + destruct (Z.ltb_spec 0 step); [|lia]. unfold add_span.
      destruct (last bs) as [[a b]|] eqn:El.
      * unfold same_bucket. rewrite (Z.eqb_sym (Z.quot (fst b) step)). rewrite <- Hlb.
        apply last_Some in El as [bs' ->]. rewrite length_app in Hroom. cbn in Hroom.
        destruct (Z.eqb_spec (Z.quot (fst p) step) lb) as [E|E].
        -- rewrite bool_decide_false by (rewrite List.map_app; by destruct (map snd bs')). rewrite removelast_last. unfold thin_inv.
           unfold set_last. rewrite !List.map_app. cbn [map snd]. rewrite removelast_last, last_snoc, length_app. cbn [length].
           split_and!; [done|lia|done|]. intros Hn. lia.
        -- unfold thin_inv. rewrite !List.map_app. cbn [map snd]. rewrite last_snoc, !length_app. cbn [length]. split_and!; [done|lia|done|].
           by intros _ a0 b0 [= <- <-].
      * apply last_None in El. subst bs. rewrite Hlb. cbn [map app].
        assert (0 <= Z.quot (fst p) step) by (apply Z.quot_pos; lia). destruct (Z.eqb_spec (Z.quot (fst p) step) (-1)); [lia|].
        unfold thin_inv. cbn. split_and!; [done|lia|done|]. by intros _ a b [= <- <-].
  - destruct Hi as [Hn ->]. cbn. destruct (add_span_prefix bs p Hn) as [Hl E]. split; [done|]. by rewrite E.
Qed.

Lemma thin_run l : Forall (fun p => in_window tsStart tsEnd p = true /\ 0 <= fst p) l -> forall bs c, thin_inv bs c ->
  thin_inv (foldl (add_span step) bs l) (foldl (collect_point tsStart tsEnd step limit) c l).
Proof. induction 1 as [|p l [Hw Hp] _ IH]; intros bs c Hi; [done|]. cbn. by apply IH, thin_step. Qed.

Lemma thin_answer bs c : thin_inv bs c ->
  answer c = Ok (if (length bs <? n)%nat then map snd bs else (take (n - 1) (map snd bs) ++ map fst (take 1 (drop (n - 1) bs)))%list).
Proof.
  destruct c as [pts lb|pts|]; unfold thin_inv, answer; [|intros [Hn ->]; destruct (Nat.ltb_spec (length bs) n); [lia|done]|done].
  intros (-> & Hle & _ & Hone). destruct (Nat.ltb_spec (length bs) n); [done|]. f_equal.
  assert (Hn : length bs = n) by lia. destruct (last bs) as [[a b]|] eqn:El; [|apply last_None in El; subst bs; cbn in Hn; lia].
  pose proof (Hone Hn a b eq_refl) as ->. apply last_Some in El as [bs' ->]. rewrite length_app in Hn. cbn in Hn.
  rewrite List.map_app. replace (n - 1)%nat with (length bs') by lia.
  rewrite take_app_le by (rewrite length_map; lia). rewrite take_ge by (rewrite length_map; lia).
  by rewrite skipn_app, drop_all, Nat.sub_diag.
Qed.
End thin.

(** What a query answers for the points it scans. *)
Lemma collect_thinned tsStart tsEnd step limit l : 0 < step -> 0 < limit -> Forall (fun p => 0 <= fst p) l ->
  answer (foldl (collect_point tsStart tsEnd step limit) (Collecting [] (-1)) l) = Ok (thinned step (Z.to_nat limit) (windowed tsStart tsEnd l)).
Proof.
  intros Hs Hl Hp. rewrite collect_windowed. unfold thinned. apply (thin_answer step); [done|]. apply thin_run; [done|done| |].
  - apply Forall_forall. intros p Hin. unfold windowed in Hin. apply list_elem_of_In, filter_In in Hin as [Hin Hw].
    apply list_elem_of_In in Hin. rewrite Forall_forall in Hp. split; [done|by apply Hp].
  - cbn. split_and!; [done|lia|done|done].
Qed.

(** ** The keys of a series *)

Lemma mon_key_prefix zone host field b : field <> "" ->
  NsZoneletMonBlock zone host field b = NsZoneletMonBlockPrefix zone host field +:+ MonBlockId b.
Proof. intros Hf. unfold NsZoneletMonBlock, NsZoneletMonBlockPrefix. rewrite bool_decide_false by done. by rewrite !s_app_assoc. Qed.

Lemma slash_app t : "/" +:+ t = String "/"%char t. Proof. reflexivity. Qed.
Lemma two_segments a b c a' b' c' : no_slash a = true -> no_slash b = true -> no_slash a' = true -> no_slash b' = true ->
  a +:+ "/" +:+ b +:+ "/" +:+ c = a' +:+ "/" +:+ b' +:+ "/" +:+ c' -> a = a' /\ b = b' /\ c = c'.
Proof.
  intros Ha Hb Ha' Hb' E. rewrite !slash_app in E. pose proof (f_equal (cut_at "/") E) as E1. rewrite !cut_at_app in E1 by done.
  injection E1 as -> E1. pose proof (f_equal (cut_at "/") E1) as E2. rewrite !cut_at_app in E2 by done. by injection E2 as -> ->.
Qed.

Lemma mon_prefix_continues zone host field h g b t : no_slash host = true -> no_slash field = true -> no_slash h = true -> no_slash g = true ->
  field <> "" -> NsZoneletMonBlock zone h g b = NsZoneletMonBlockPrefix zone host field +:+ t -> h = host /\ g = field /\ MonBlockId b = t.
Proof.
  intros Hh Hf Hh' Hg Hne. unfold NsZoneletMonBlock, NsZoneletMonBlockPrefix. rewrite bool_decide_false by done.
  rewrite !s_app_assoc. intros E. do 4 apply (inj _) in E. by apply two_segments in E.
Qed.
Lemma mon_key_inj zone host field h g b b' : no_slash host = true -> no_slash field = true -> no_slash h = true -> no_slash g = true ->
  field <> "" -> NsZoneletMonBlock zone h g b = NsZoneletMonBlock zone host field b' -> h = host /\ g = field /\ MonBlockId b = MonBlockId b'.
Proof. intros ? ? ? ? Hne. rewrite (mon_key_prefix zone host field) by done. by apply mon_prefix_continues. Qed.

Lemma MonFields_ok : Forall (fun g => no_slash g = true /\ g <> "") MonFields.
Proof. unfold MonFields. repeat constructor; done. Qed.
Lemma MonFields_NoDup : NoDup MonFields.
Proof. unfold MonFields. rewrite !NoDup_cons. split_and!; try set_solver. constructor. Qed.

(** ** Flushes *)

Section history.
Context {S : Type} {K : Kv S zone_value} {KL : KvLaws K} {KR : KvReliable K} {RL : KvRangeLaws K} {MR : MapRange} {MRL : MapRangeLaws MR}.
Implicit Types (kv : S).
Variables (zone : string).

Definition rd kv (k : string) : kv_reply (kv_item (list Z)) := kv_read (V := list Z) kv k.

Lemma block_write kv retention k b : exists kv' n, kv_write kv (mon_opts retention) k b = (kv', KvOk n) /\
  rd kv' k = KvOk (Item n (Some b)) /\ forall k', k' <> k -> rd kv' k' = rd kv k'.
Proof.
  destruct (kv_write_total (V := list Z) kv (mon_opts retention) k b eq_refl (Z.le_refl 0)) as (kv' & n & E). exists kv', n. split; [exact E|].
  destruct (kv_write_ok (V := list Z) _ _ _ _ _ _ E) as (R & Fr & _). by split.
Qed.

Lemma flush_fields_read host blockStart retention ss fields : forall f0 kv, no_slash host = true -> NoDup fields ->
  Forall (fun g => no_slash g = true /\ g <> "") fields -> exists kv',
  flush_fields zone host blockStart retention ss f0 fields kv = (kv', true) /\
  (forall k, (forall g, g ∈ fields -> k <> NsZoneletMonBlock zone host g blockStart) -> rd kv' k = rd kv k) /\
  (forall i g, fields !! i = Some g -> exists n,
     rd kv' (NsZoneletMonBlock zone host g blockStart) = KvOk (Item n (Some (series_block blockStart (f0 + i) ss)))).
Proof.
  induction fields as [|g fields IH]; intros f0 kv Hh Hnd Hok.
  - exists kv. split_and!; [done|done|]. intros i g. by rewrite lookup_nil.
  - apply NoDup_cons in Hnd as [Hg Hnd]. apply Forall_cons in Hok as [[Hns Hne] Hok]. cbn [flush_fields].
    destruct (block_write kv retention (NsZoneletMonBlock zone host g blockStart) (series_block blockStart f0 ss)) as (kv1 & n & -> & R & Fr).
    destruct (IH (Datatypes.S f0) kv1 Hh Hnd Hok) as (kv' & -> & Hsame & Hset). exists kv'. split; [done|].
    assert (Hother : forall g', g' ∈ fields -> NsZoneletMonBlock zone host g blockStart <> NsZoneletMonBlock zone host g' blockStart).
    { intros g' Hin E. rewrite Forall_forall in Hok. destruct (Hok g' Hin). by apply mon_key_inj in E as (_ & -> & _). }
    split.
    + intros k Hk. rewrite Hsame by (intros g' Hin; apply Hk; by apply list_elem_of_further). apply Fr, Hk, list_elem_of_here.
    + intros [|i] g' Hi.
      * injection Hi as <-. exists n. rewrite Nat.add_0_r. by rewrite Hsame.
      * change (fields !! i = Some g') in Hi. destruct (Hset i g' Hi) as [n' Hn']. exists n'. by rewrite Nat.add_succ_r.
Qed.

Lemma flush_hosts_read blockStart retention hosts : forall kv, Forall (fun hs => no_slash (fst hs) = true) hosts -> NoDup (map fst hosts) ->
  let kv' := flush_hosts zone blockStart retention hosts kv in
  (forall k, (forall h g, h ∈ map fst hosts -> g ∈ MonFields -> k <> NsZoneletMonBlock zone h g blockStart) -> rd kv' k = rd kv k) /\
  (forall h ss f g, (h, ss) ∈ hosts -> MonFields !! f = Some g -> exists n,
     rd kv' (NsZoneletMonBlock zone h g blockStart) = KvOk (Item n (Some (series_block blockStart f ss)))).
Proof.
  induction hosts as [|[h ss] hosts IH]; intros kv Hns Hnd; cbn [map fst] in *.
  - split; [done|]. intros h ss f g Hin. by apply elem_of_nil in Hin.
  - apply Forall_cons in Hns as [Hh Hns]. apply NoDup_cons in Hnd as [Hnin Hnd]. cbn [fst] in Hh. cbn [flush_hosts].
    destruct (flush_fields_read h blockStart retention ss MonFields 0 kv Hh MonFields_NoDup MonFields_ok) as (kv1 & -> & Hsame1 & Hset1).
    destruct (IH kv1 Hns Hnd) as [Hsame Hset]. split.
    + intros k Hk. rewrite Hsame, Hsame1; [done| |].
      * intros g Hg. apply Hk; [apply list_elem_of_here|done].
      * intros h' g Hin Hg. apply Hk; [by apply list_elem_of_further|done].
    + intros h' ss' f g Hin Hg. apply elem_of_cons in Hin as [[= -> ->]|Hin]; [|by apply Hset].
      destruct (Hset1 f g Hg) as [n Hn]. exists n. rewrite Hsame; [exact Hn|].
      intros h' g' Hin Hg' E. pose proof MonFields_ok as Hok. rewrite Forall_forall in Hok.
      destruct (Hok g' Hg'), (Hok g (list_elem_of_lookup_2 _ _ _ Hg)).
      assert (no_slash h' = true). { rewrite Forall_forall in Hns. apply list_elem_of_fmap in Hin as ([h0 s0] & -> & Hin). by apply (Hns (h0, s0)). }
      apply mon_key_inj in E as (-> & _ & _); done.
Qed.

(** The samples of a host, in the order they were taken. *)
Definition of_host (host : string) (samples : list monSample) : list monSample := filter (fun s => ms_host s = host) samples.
Lemma by_host_spec samples host : by_host samples !! host = if decide (of_host host samples = []) then None else Some (of_host host samples).
Proof.
  unfold by_host. induction samples as [|s samples IH] using rev_ind; [done|]. rewrite foldl_app. cbn [foldl].
  unfold of_host in *. rewrite filter_app. destruct (decide (ms_host s = host)) as [<-|Hne].
  - rewrite lookup_insert_eq, IH, filter_cons_True by done. cbn.
    destruct (decide (filter (fun s0 => ms_host s0 = ms_host s) samples = [])) as [->|]; cbn; [done|].
    by rewrite decide_False by (by intros [_ ?]%app_nil).
  - rewrite lookup_insert_ne, IH, filter_cons_False by done. cbn. by rewrite app_nil_r.
Qed.

Lemma flush_block_read block retention kv host field f : Forall (fun s => no_slash (ms_host s) = true) (bl_samples block) ->
  no_slash host = true -> MonFields !! f = Some field ->
  let kv' := monFlushBlock zone block retention kv in
  (forall t, t <> MonBlockId (bl_start block) -> rd kv' (NsZoneletMonBlockPrefix zone host field +:+ t) = rd kv (NsZoneletMonBlockPrefix zone host field +:+ t)) /\
  (of_host host (bl_samples block) = [] -> forall t, rd kv' (NsZoneletMonBlockPrefix zone host field +:+ t) = rd kv (NsZoneletMonBlockPrefix zone host field +:+ t)) /\
  (of_host host (bl_samples block) <> [] -> exists n, rd kv' (NsZoneletMonBlock zone host field (bl_start block)) =
     KvOk (Item n (Some (series_block (bl_start block) f (of_host host (bl_samples block)))))).
Proof.
  intros Hns Hh Hf kv'. pose proof MonFields_ok as Hok. rewrite Forall_forall in Hok.
  destruct (Hok field (list_elem_of_lookup_2 _ _ _ Hf)) as [Hfs Hfn].
  assert (Hhosts : Forall (fun hs => no_slash (fst hs) = true) (map_range (by_host (bl_samples block)))).
  { apply Forall_forall. intros [h ss] Hin%elem_of_map_range. rewrite by_host_spec in Hin. destruct (decide _) as [|Hne]; [done|].
    destruct (of_host h (bl_samples block)) as [|s rest] eqn:E; [done|].
    assert (Hs : s ∈ of_host h (bl_samples block)) by (rewrite E; apply list_elem_of_here).
    apply list_elem_of_filter in Hs as [<- Hs]. rewrite Forall_forall in Hns. by apply Hns. }
  destruct (flush_hosts_read (bl_start block) retention (map_range (by_host (bl_samples block))) kv Hhosts (NoDup_map_range _)) as [Hsame Hset].
  assert (Hkey : forall h g, h ∈ map fst (map_range (by_host (bl_samples block))) -> g ∈ MonFields ->
    no_slash h = true /\ no_slash g = true /\ of_host h (bl_samples block) <> []).
  { intros h g Hin Hg. apply list_elem_of_fmap in Hin as ([h0 s0] & -> & Hin). cbn. rewrite Forall_forall in Hhosts. split_and!.
    - by apply (Hhosts (h0, s0)).
    - by apply Hok.
    - apply elem_of_map_range in Hin. rewrite by_host_spec in Hin. by destruct (decide _). }
  split_and!.
  - intros t Ht. apply Hsame. intros h g Hin Hg E. destruct (Hkey h g Hin Hg) as (? & ? & _). symmetry in E.
    apply mon_prefix_continues in E as (_ & _ & E); done.
  - intros Hnil t. apply Hsame. intros h g Hin Hg E. destruct (Hkey h g Hin Hg) as (? & ? & Hne). symmetry in E.
    apply mon_prefix_continues in E as (-> & _ & _); done.
  - intros Hne. apply Hset; [|done]. apply elem_of_map_range. rewrite by_host_spec. by destruct (decide _).
Qed.

(** ** What the database holds of a series *)

Section series.
Variables (host field : string) (f : nat).
Hypotheses (Hhost : no_slash host = true) (Hfield : MonFields !! f = Some field).

Lemma field_ok : no_slash field = true /\ field <> "".
Proof. pose proof MonFields_ok as Hok. rewrite Forall_forall in Hok. apply Hok. by eapply list_elem_of_lookup_2. Qed.

Definition point (s : monSample) : Z * Z := (ms_ts s, nth f (ms_values s) 0).
Definition points_of (bl : monBlock) : list (Z * Z) := map point (of_host host (bl_samples bl)).
Definition key_at (bl : monBlock) : string := NsZoneletMonBlock zone host field (bl_start bl).
Definition held (bl : monBlock) : Prop := of_host host (bl_samples bl) <> [].
#[local] Instance held_dec bl : Decision (held bl).
Proof. unfold held. apply _. Defined.

Record series_inv kv (bls : list monBlock) : Prop := {
  si_read : forall bl, bl ∈ bls -> held bl -> exists n, rd kv (key_at bl) =
    KvOk (Item n (Some (series_block (bl_start bl) f (of_host host (bl_samples bl)))));
  si_only : forall t it, rd kv (NsZoneletMonBlockPrefix zone host field +:+ t) = KvOk it ->
    exists bl, bl ∈ bls /\ held bl /\ t = MonBlockId (bl_start bl) }.

Lemma series_inv_flush kv bls block retention : series_inv kv bls ->
  Forall (fun s => no_slash (ms_host s) = true) (bl_samples block) ->
  (forall bl, bl ∈ bls -> MonBlockId (bl_start bl) <> MonBlockId (bl_start block)) ->
  series_inv (monFlushBlock zone block retention kv) (bls ++ [block])%list.
Proof.
  intros [Hr Ho] Hns Hid. destruct field_ok as [Hfs Hfn].
  destruct (flush_block_read block retention kv host field f Hns Hhost Hfield) as (Hother & Hnil & Hset). split.
  - intros bl Hin Hheld. apply elem_of_app in Hin as [Hin|Hin%list_elem_of_singleton].
    + unfold key_at. rewrite mon_key_prefix, Hother by (done || by apply Hid). rewrite <- mon_key_prefix by done. by apply Hr.
    + subst bl. by apply Hset.
  - intros t it Hread. destruct (decide (held block)) as [Hheld|Hnh].
    + destruct (decide (t = MonBlockId (bl_start block))) as [->|Hne].
      * exists block. split_and!; [apply elem_of_app; right; by apply list_elem_of_singleton|done|done].
      * rewrite Hother in Hread by done. destruct (Ho _ _ Hread) as (bl & Hin & ? & ?). exists bl.
        split_and!; [apply elem_of_app; by left|done|done].
    + assert (E : of_host host (bl_samples block) = []) by (destruct (decide (of_host host (bl_samples block) = [])); [done|by destruct Hnh]).
      rewrite Hnil in Hread by done. destruct (Ho _ _ Hread) as (bl & Hin & ? & ?). exists bl.
      split_and!; [apply elem_of_app; by left|done|done].
Qed.

(** ** The scan of a query *)

Definition block_ok (bl : monBlock) : Prop :=
  0 <= bl_start bl < 2 ^ 39 /\ Z.of_nat (length (bl_samples bl)) <= 2 ^ 45 /\
  Forall (fun s => bl_start bl <= ms_ts s < bl_start bl + MonBlockSeconds /\ Forall in_i64 (ms_values s)) (bl_samples bl).
Definition starts_grow (bls : list monBlock) : Prop := StronglySorted (fun a b => bl_start a < bl_start b) bls.

Lemma combine_points ss : combine (map ms_ts ss) (map (fun s => nth f (ms_values s) 0) ss) = map point ss.
Proof. induction ss as [|s ss IH]; [done|]. cbn. by rewrite IH. Qed.

Lemma series_decodes bl : block_ok bl ->
  monDecodeBlock (series_block (bl_start bl) f (of_host host (bl_samples bl))) = Decoded (bl_start bl) (points_of bl).
Proof.
  intros (Hb & Hn & Hs). unfold series_block, points_of.
  assert (Hof : forall s, s ∈ of_host host (bl_samples bl) -> s ∈ bl_samples bl) by (intros s Hin; by apply list_elem_of_filter in Hin as [_ ?]).
  assert (Hlen : (length (of_host host (bl_samples bl)) <= length (bl_samples bl))%nat) by (unfold of_host; apply length_filter).
  rewrite Forall_forall in Hs. rewrite block_roundtrip; [by rewrite combine_points|..]; rewrite ?length_map.
  - done.
  - lia.
  - unfold in_i64. lia.
  - apply Forall_forall. intros t Hin. apply list_elem_of_fmap in Hin as (s & -> & Hin). destruct (Hs s (Hof s Hin)) as [Ht _].
    unfold MonBlockSeconds in Ht. unfold in_i64. lia.
  - apply Forall_forall. intros v Hin. apply list_elem_of_fmap in Hin as (s & -> & Hin). destruct (Hs s (Hof s Hin)) as [_ Hv].
    destruct (nth_in_or_default f (ms_values s) 0) as [Hi|Hi]; [|rewrite Hi; unfold in_i64; lia].
    rewrite Forall_forall in Hv. by apply Hv, list_elem_of_In.
Qed.

Definition item_at kv (bl : monBlock) : string * kv_item (list Z) :=
  (key_at bl, match rd kv (key_at bl) with KvOk it => it | _ => Item 0 None end).
Definition series_items kv : list (string * kv_item (list Z)) :=
  filter (in_range (NsZoneletMonBlockPrefix zone host field) (range_end (NsZoneletMonBlockPrefix zone host field))) (kv_entries (V := list Z) kv).

Lemma id_in_range b : 0 <= b < 2 ^ 40 -> MonBlockId b <> "" /\ String.leb (MonBlockId b) (range_end "") = true.
Proof.
  intros Hb. rewrite MonBlockId_digits by done. cbn [hexn]. split; [done|].
  set (d := (b / 16 ^ Z.of_nat 9) mod 16). assert (Hd : 0 <= d < 16) by (apply Z.mod_pos_bound; lia).
  change (range_end "") with (String (Ascii.ascii_of_nat 255) ""). unfold String.leb. cbn [String.compare].
  assert (Ascii.compare (hex_digit d) (ascii_of_nat 255) = Lt) as ->; [|done].
  pose proof (hex_digit_spec d Hd) as E. unfold Ascii.compare. apply N.compare_lt_iff. unfold byte_of in E.
  change (N_of_ascii (ascii_of_nat 255)) with 255%N. destruct (d <? 10); lia.
Qed.

Lemma key_order a b : 0 <= bl_start a -> bl_start a < bl_start b -> bl_start b < 2 ^ 40 -> str_lt (key_at a) (key_at b) = true.
Proof.
  intros Ha Hab Hb. destruct field_ok as [_ Hfn]. unfold key_at. rewrite !mon_key_prefix by done. rewrite str_lt_app, !MonBlockId_digits by lia.
  apply hexn_lt; [done|done|]. change (16 ^ Z.of_nat 10) with (2 ^ 40). done.
Qed.

Lemma series_listed kv bls : series_inv kv bls -> starts_grow bls -> Forall block_ok bls ->
  series_items kv = map (item_at kv) (filter held bls).
Proof.
  intros [Hr Ho] Hgrow Hok. destruct field_ok as [_ Hfn]. apply in_order_unique.
  - apply filter_sorted, kv_entries_sorted.
  - assert (Hg : StronglySorted (fun a b => bl_start a < bl_start b) (filter held bls)) by (by apply filter_sorted).
    assert (Hok' : Forall block_ok (filter held bls)).
    { apply Forall_forall. intros bl Hin. apply list_elem_of_filter in Hin as [_ Hin]. rewrite Forall_forall in Hok. by apply Hok. }
    clear Hr Ho. induction Hg as [|a l _ IH Ha]; [constructor|]. apply Forall_cons in Hok' as [Hoa Hok']. cbn. constructor; [by apply IH|].
    apply Forall_forall. intros e Hin. apply list_elem_of_fmap in Hin as (b & -> & Hin). unfold in_order. cbn [fst item_at].
    rewrite Forall_forall in Ha, Hok'. destruct (Hok' b Hin) as (? & _). destruct Hoa as (? & _). apply key_order; [lia|by apply Ha|lia].
  - intros [k it]. unfold series_items. rewrite list_elem_of_filter, kv_entries_read. rewrite list_elem_of_fmap. split.
    + intros [[Hlt Hle] Hread]. cbn [fst] in Hlt, Hle. destruct (prefix_range _ _ Hlt Hle) as [t ->].
      destruct (Ho t it Hread) as (bl & Hin & Hheld & ->). exists bl. rewrite <- mon_key_prefix in * by done.
      split; [|by apply list_elem_of_filter]. unfold item_at. fold (key_at bl). unfold rd, key_at. by rewrite Hread.
    + intros (bl & E & Hin). apply list_elem_of_filter in Hin as [Hheld Hin]. unfold item_at in E. injection E as -> ->.
      destruct (Hr bl Hin Hheld) as [n Hn]. rewrite Hn. split.
      * unfold key_at. rewrite mon_key_prefix by done. rewrite Forall_forall in Hok. destruct (Hok bl Hin) as (Hb & _).
        apply in_prefix_range; apply id_in_range; lia.
      * unfold rd in Hn. exact Hn.
Qed.

End series.
End history.

Section queries.
Context {S : Type} {K : Kv S zone_value} {KL : KvLaws K} {KR : KvReliable K} {RL : KvRangeLaws K} {MR : MapRange} {MRL : MapRangeLaws MR}.
Implicit Types (kv : S).
Variables (zone : string).

(** A range lists all its entries. *)
Definition whole_range kv (lo hi : string) : Prop :=
  match kv_range (V := list Z) kv lo hi MonBlockScanLimit with
  | KvOk items => filter (in_range lo hi) (kv_entries (V := list Z) kv) = items
  | KvNotFound => True
  | KvErr _ => False
  end.
Lemma range_items kv lo hi : whole_range kv lo hi ->
  match kv_range (V := list Z) kv lo hi MonBlockScanLimit with
  | KvOk items => items = filter (in_range lo hi) (kv_entries (V := list Z) kv)
  | KvNotFound => filter (in_range lo hi) (kv_entries (V := list Z) kv) = []
  | KvErr _ => False
  end.
Proof.
  unfold whole_range. destruct (kv_range kv lo hi MonBlockScanLimit) as [items| |] eqn:E; [done| |done].
  intros _. by apply (kv_range_none (V := list Z) _ _ _ MonBlockScanLimit).
Qed.

Lemma collect_done tsStart tsEnd step limit c l : (forall pts lb, c <> Collecting pts lb) -> foldl (collect_point tsStart tsEnd step limit) c l = c.
Proof. intros Hc. induction l as [|p l IH]; [done|]. cbn. destruct c; [by destruct (Hc _ _ eq_refl)|exact IH..]. Qed.
Lemma collect_items_done tsStart tsEnd step limit c l : (forall pts lb, c <> Collecting pts lb) -> foldl (collect_block tsStart tsEnd step limit) c l = c.
Proof. intros Hc. induction l as [|p l IH]; [done|]. cbn. destruct c; [by destruct (Hc _ _ eq_refl)|exact IH..]. Qed.

(** Items that decode are the concatenation of their points. *)
Lemma collect_items tsStart tsEnd step limit items pss : Forall2 (fun item ps => exists b start,
    it_value (snd item) = Some b /\ monDecodeBlock b = Decoded start ps) items pss ->
  forall c, foldl (collect_block tsStart tsEnd step limit) c items = foldl (collect_point tsStart tsEnd step limit) c (concat pss).
Proof.
  induction 1 as [|item ps items pss (b & start & Hv & Hd) _ IH]; intros c; [done|]. cbn [foldl concat]. rewrite foldl_app.
  destruct c as [pts lb|pts|]; [|rewrite collect_items_done, (collect_done _ _ _ _ _ ps), collect_done by done; done..].
  cbn [collect_block]. rewrite Hv, Hd. apply IH.
Qed.

Lemma prefix_le p t u : String.leb t u = true -> String.leb (p +:+ t) (p +:+ u) = true.
Proof. rewrite !str_le_lt, str_lt_app. intros [->|H]; [by left|by right]. Qed.

Lemma minus_lt b b' : b < 0 -> - 2 ^ 39 <= b -> 0 <= b' < 2 ^ 40 -> str_lt (MonBlockId b) (MonBlockId b') = true.
Proof.
  intros Hb _ Hb'. rewrite (MonBlockId_digits b') by done. unfold MonBlockId, fmt_x. destruct (Z.ltb_spec b 0); [|lia].
  cbn [hexn]. set (d := (b' / 16 ^ Z.of_nat 9) mod 16). assert (Hd : 0 <= d < 16) by (apply Z.mod_pos_bound; lia).
  change ("-" +:+ ?x) with (String "-"%char x). unfold str_lt, String.ltb. cbn [String.compare].
  assert (Ascii.compare "-" (hex_digit d) = Lt) as ->; [|done].
  pose proof (hex_digit_spec d Hd) as E. unfold byte_of in E. unfold Ascii.compare. apply N.compare_lt_iff.
  change (N_of_ascii "-") with 45%N. destruct (d <? 10); lia.
Qed.

Section scan.
Variables (host field : string) (f : nat).
Hypotheses (Hhost : no_slash host = true) (Hfield : MonFields !! f = Some field).

Lemma block_start_bounds ts : 0 <= ts -> monBlockStartOf ts <= ts < monBlockStartOf ts + MonBlockSeconds.
Proof. intros Hts. unfold monBlockStartOf, MonBlockSeconds. rewrite Z.rem_mod_nonneg by lia. pose proof (Z.mod_pos_bound ts 600 ltac:(lia)). lia. Qed.
Lemma block_start_nonneg ts : 0 <= ts -> 0 <= monBlockStartOf ts.
Proof.
  intros Hts. unfold monBlockStartOf, MonBlockSeconds. rewrite Z.rem_mod_nonneg by lia.
  pose proof (Z.mod_le ts 600 Hts ltac:(lia)). lia.
Qed.

Lemma query_from_key tsStart : 0 < tsStart -> query_from zone host field tsStart =
  NsZoneletMonBlockPrefix zone host field +:+ MonBlockId (monBlockStartOf tsStart - MonBlockSeconds).
Proof.
  intros H. unfold query_from. destruct (Z.ltb_spec 0 tsStart); [|lia]. apply mon_key_prefix. by apply (field_ok field f Hfield).
Qed.
Lemma query_to_key tsEnd : 0 < tsEnd < 2 ^ 39 -> query_to zone host field tsEnd =
  NsZoneletMonBlockPrefix zone host field +:+ MonBlockId (monBlockStartOf tsEnd + 2 * MonBlockSeconds) /\
  0 <= monBlockStartOf tsEnd + 2 * MonBlockSeconds < 2 ^ 40.
Proof.
  intros H. unfold query_to. destruct (Z.ltb_spec 0 tsEnd); [|lia].
  pose proof (block_start_bounds tsEnd ltac:(lia)). pose proof (block_start_nonneg tsEnd ltac:(lia)). unfold MonBlockSeconds in *.
  rewrite i64_id by (unfold in_i64; lia). split; [|lia]. apply mon_key_prefix. by apply (field_ok field f Hfield).
Qed.

(** The range of a query lies within the series. *)
Lemma query_range_in_series tsStart tsEnd : tsEnd < 2 ^ 39 -> forall e : string * kv_item (list Z),
  in_range (query_from zone host field tsStart) (query_to zone host field tsEnd) e ->
  in_range (NsZoneletMonBlockPrefix zone host field) (range_end (NsZoneletMonBlockPrefix zone host field)) e.
Proof.
  intros Hte [k it] [Hlt Hle]. cbn [fst] in *. split; cbn [fst].
  - destruct (Z_lt_le_dec 0 tsStart).
    + rewrite query_from_key in Hlt by done. eapply str_lt_trans; [|exact Hlt].
      rewrite <- (s_app_nil_r (NsZoneletMonBlockPrefix zone host field)) at 1. rewrite str_lt_app.
      assert (Hne : MonBlockId (monBlockStartOf tsStart - MonBlockSeconds) <> "").
      { unfold MonBlockId, fmt_x. destruct (_ <? 0); [done|]. set (n := Nat.max _ _). assert (Hn : (10 <= n)%nat) by lia. by destruct n; [lia|]. }
      by destruct (MonBlockId _).
    + unfold query_from in Hlt. by destruct (Z.ltb_spec 0 tsStart); [lia|].
  - destruct (Z_lt_le_dec 0 tsEnd).
    + destruct (query_to_key tsEnd ltac:(lia)) as [E Hb]. rewrite E in Hle. apply str_le_lt in Hle. apply str_le_lt.
      destruct (id_in_range _ Hb) as [_ Hid]. apply (prefix_le (NsZoneletMonBlockPrefix zone host field)) in Hid. apply str_le_lt in Hid.
      unfold range_end in *. cbn [String.append] in Hid.
      change (NsZoneletMonBlockPrefix zone host field +:+ "" +:+ ?x) with (NsZoneletMonBlockPrefix zone host field +:+ x) in Hid.
      destruct Hle as [->|Hle]; [exact Hid|]. right. destruct Hid as [<-|Hid]; [done|]. by eapply str_lt_trans.
    + unfold query_to in Hle. by destruct (Z.ltb_spec 0 tsEnd); [lia|].
Qed.

(** A block outside the range has nothing in the window. *)
Lemma block_outside kv tsStart tsEnd bl : tsStart < 2 ^ 39 -> tsEnd < 2 ^ 39 -> block_ok bl -> held host bl ->
  ~ in_range (query_from zone host field tsStart) (query_to zone host field tsEnd) (item_at zone host field kv bl) ->
  windowed tsStart tsEnd (points_of host f bl) = [].
Proof.
  intros Hts Hte (Hb & _ & Hs) Hheld Hout. pose proof (field_ok field f Hfield) as [_ Hfn].
  assert (Hout' : str_lt (query_from zone host field tsStart) (key_at zone host field bl) = false \/
                  String.leb (key_at zone host field bl) (query_to zone host field tsEnd) = false).
  { unfold in_range in Hout. cbn [fst item_at] in Hout. destruct (str_lt _ _); [right|by left]. by destruct (String.leb _ _); [destruct Hout|]. }
  assert (Hpts : forall p, p ∈ points_of host f bl -> bl_start bl <= fst p < bl_start bl + MonBlockSeconds).
  { intros p Hin. unfold points_of in Hin. apply list_elem_of_fmap in Hin as (s & -> & Hin). apply list_elem_of_filter in Hin as [_ Hin].
    rewrite Forall_forall in Hs. cbn. by apply Hs. }
  assert (Hall : forall p, p ∈ points_of host f bl -> in_window tsStart tsEnd p = false).
  { intros p Hin. specialize (Hpts p Hin). unfold in_window. destruct Hout' as [Hlo|Hhi].
    - assert (0 < tsStart).
      { destruct (Z_lt_le_dec 0 tsStart); [done|]. unfold query_from in Hlo. destruct (Z.ltb_spec 0 tsStart); [lia|].
        unfold key_at in Hlo. rewrite mon_key_prefix in Hlo by done. rewrite <- (s_app_nil_r (NsZoneletMonBlockPrefix _ _ _)) in Hlo at 1.
        rewrite str_lt_app in Hlo. destruct (id_in_range (bl_start bl) ltac:(lia)) as [Hne _]. by destruct (MonBlockId (bl_start bl)). }
      rewrite query_from_key in Hlo by done. unfold key_at in Hlo. rewrite mon_key_prefix, str_lt_app in Hlo by done.
      pose proof (block_start_bounds tsStart ltac:(lia)) as Hbs. pose proof (block_start_nonneg tsStart ltac:(lia)).
      destruct (Z_lt_le_dec (monBlockStartOf tsStart - MonBlockSeconds) 0) as [Hneg|Hpos].
      { rewrite minus_lt in Hlo; [done|done|unfold MonBlockSeconds; lia|lia]. }
      assert (Hle : bl_start bl <= monBlockStartOf tsStart - MonBlockSeconds).
      { destruct (Z_le_gt_dec (bl_start bl) (monBlockStartOf tsStart - MonBlockSeconds)); [done|]. unfold MonBlockSeconds in *.
        rewrite !MonBlockId_digits in Hlo by lia. rewrite hexn_lt in Hlo; [done|lia|lia|]. change (16 ^ Z.of_nat 10) with (2 ^ 40). lia. }
      destruct (Z.ltb_spec 0 tsStart); [|lia]. destruct (Z.ltb_spec (fst p) tsStart); [done|lia].
    - assert (0 < tsEnd).
      { destruct (Z_lt_le_dec 0 tsEnd); [done|]. unfold query_to in Hhi. destruct (Z.ltb_spec 0 tsEnd); [lia|].
        unfold key_at in Hhi. rewrite mon_key_prefix in Hhi by done. destruct (id_in_range (bl_start bl) ltac:(lia)) as [_ Hle].
        apply (prefix_le (NsZoneletMonBlockPrefix zone host field)) in Hle. unfold range_end in Hle, Hhi. cbn [String.append] in Hle. 
        change (NsZoneletMonBlockPrefix zone host field +:+ "" +:+ ?x) with (NsZoneletMonBlockPrefix zone host field +:+ x) in Hle. congruence. }
      destruct (query_to_key tsEnd ltac:(lia)) as [E Hq]. rewrite E in Hhi. unfold key_at in Hhi. rewrite mon_key_prefix in Hhi by done.
      pose proof (block_start_bounds tsEnd ltac:(lia)) as Hbs.
      assert (Hgt : monBlockStartOf tsEnd + 2 * MonBlockSeconds < bl_start bl).
      { destruct (Z_lt_le_dec (monBlockStartOf tsEnd + 2 * MonBlockSeconds) (bl_start bl)) as [|Hle]; [done|].
        assert (String.leb (MonBlockId (bl_start bl)) (MonBlockId (monBlockStartOf tsEnd + 2 * MonBlockSeconds)) = true) as Hc.
        { apply str_le_lt. destruct (Z.eq_dec (bl_start bl) (monBlockStartOf tsEnd + 2 * MonBlockSeconds)) as [->|]; [by left|right].
          rewrite !MonBlockId_digits by lia. apply hexn_lt; [lia|lia|]. change (16 ^ Z.of_nat 10) with (2 ^ 40). lia. }
        apply (prefix_le (NsZoneletMonBlockPrefix zone host field)) in Hc. congruence. }
      destruct (Z.ltb_spec 0 tsEnd); [|lia]. unfold MonBlockSeconds in *. destruct (Z.ltb_spec tsEnd (fst p)); [by rewrite andb_false_r|lia]. }
  unfold windowed. clear -Hall. induction (points_of host f bl) as [|p l IH]; [done|]. cbn. rewrite Hall by apply list_elem_of_here.
  apply IH. intros q Hq. by apply Hall, list_elem_of_further.
Qed.

Lemma windowed_app tsStart tsEnd a b : windowed tsStart tsEnd (a ++ b)%list = (windowed tsStart tsEnd a ++ windowed tsStart tsEnd b)%list.
Proof. apply List.filter_app. Qed.

(** The answer of a query for points in order. *)
Definition query_answer (tsStart tsEnd step limit : Z) (l : list (Z * Z)) : list (Z * Z) :=
  if 0 <? step then thinned step (Z.to_nat limit) (windowed tsStart tsEnd l) else take (Z.to_nat limit) (windowed tsStart tsEnd l).

Lemma collect_answer tsStart tsEnd step limit l : 0 <= step -> 0 < limit -> Forall (fun p => 0 <= fst p) l ->
  answer (foldl (collect_point tsStart tsEnd step limit) (Collecting [] (-1)) l) = Ok (query_answer tsStart tsEnd step limit l).
Proof.
  intros Hs Hl Hp. unfold query_answer. destruct (Z.ltb_spec 0 step); [by apply collect_thinned|].
  assert (step = 0) as -> by lia. rewrite collect_windowed.
  destruct (collect_plain tsStart tsEnd limit (windowed tsStart tsEnd l) Hl) as (c & -> & Ha & _); [|exact Ha].
  apply Forall_forall. intros p Hin. unfold windowed in Hin. by apply list_elem_of_In, filter_In in Hin as [_ ?].
Qed.

Lemma query_exact kv bls tsStart tsEnd step limit : series_inv zone host field f kv bls -> starts_grow bls -> Forall block_ok bls ->
  whole_range kv (query_from zone host field tsStart) (query_to zone host field tsEnd) ->
  tsStart < 2 ^ 39 -> tsEnd < 2 ^ 39 -> 0 <= step -> 0 < limit ->
  monQuery zone host field tsStart tsEnd step limit kv = Ok (query_answer tsStart tsEnd step limit (concat (map (points_of host f) bls))).
Proof.
  intros Hinv Hgrow Hok Hw Hts Hte Hs Hl. unfold monQuery.
  set (lo := query_from zone host field tsStart) in *. set (hi := query_to zone host field tsEnd) in *.
  set (sub := filter (fun bl => in_range lo hi (item_at zone host field kv bl)) (filter (held host) bls)).
  assert (Hitems : filter (in_range lo hi) (kv_entries (V := list Z) kv) = map (item_at zone host field kv) sub).
  { assert (E : filter (in_range lo hi) (kv_entries (V := list Z) kv) = filter (in_range lo hi) (series_items zone host field kv)).
    { unfold series_items. rewrite list_filter_filter. apply list_filter_iff. intros e. split; [|by intros [? _]].
      intros He. split; [done|]. by apply (query_range_in_series tsStart tsEnd Hte). }
    rewrite E, (series_listed zone host field f Hfield kv bls Hinv Hgrow Hok). apply filter_map_same. done. }
  assert (Hsub : forall bl, bl ∈ sub -> bl ∈ bls /\ held host bl).
  { intros bl Hin. apply list_elem_of_filter in Hin as [_ Hin]. apply list_elem_of_filter in Hin as [? ?]. done. }
  assert (Hcol : answer (foldl (collect_block tsStart tsEnd step limit) (Collecting [] (-1)) (map (item_at zone host field kv) sub)) =
    Ok (query_answer tsStart tsEnd step limit (concat (map (points_of host f) bls)))).
  { rewrite (collect_items _ _ _ _ _ (map (points_of host f) sub)).
    2:{ clear Hitems. unfold sub in *. revert Hsub. generalize (filter (fun bl => in_range lo hi (item_at zone host field kv bl)) (filter (held host) bls)).
        intros l Hl'. induction l as [|bl l IH]; [constructor|]. cbn [map]. constructor; [|apply IH; intros; apply Hl'; by apply list_elem_of_further].
        destruct (Hl' bl (list_elem_of_here _ _)) as [Hin Hheld]. destruct (si_read _ _ _ _ _ _ Hinv bl Hin Hheld) as [n Hn].
        eexists _, _. unfold item_at. rewrite Hn. split; [done|]. apply series_decodes. rewrite Forall_forall in Hok. by apply Hok. }
    assert (Hpos : forall l, (forall bl, bl ∈ l -> bl ∈ bls) -> Forall (fun p => 0 <= fst p) (concat (map (points_of host f) l))).
    { intros l Hin. apply Forall_concat, Forall_forall. intros ps Hps. apply list_elem_of_fmap in Hps as (bl & -> & Hbl).
      rewrite Forall_forall in Hok. destruct (Hok bl (Hin _ Hbl)) as (Hb & _ & Hss). apply Forall_forall. intros p Hp.
      unfold points_of in Hp. apply list_elem_of_fmap in Hp as (s & -> & Hp). apply list_elem_of_filter in Hp as [_ Hp].
      rewrite Forall_forall in Hss. destruct (Hss s Hp). cbn. lia. }
    rewrite collect_answer; [|done|done|apply Hpos; intros; by apply Hsub].
    f_equal. unfold query_answer.
    assert (Ew : windowed tsStart tsEnd (concat (map (points_of host f) sub)) = windowed tsStart tsEnd (concat (map (points_of host f) bls))); [|by rewrite Ew].
    unfold sub. clear Hitems Hsub Hpos sub Hinv Hgrow. induction Hok as [|bl bls Hbl Hok IH]; [done|]. rewrite filter_cons.
    cbn [map concat]. rewrite windowed_app, <- IH. destruct (decide (held host bl)) as [Hh|Hnh].
    - rewrite filter_cons. destruct (decide (in_range lo hi (item_at zone host field kv bl))) as [Hr|Hr].
      + cbn [map concat]. by rewrite windowed_app.
      + by rewrite (block_outside kv tsStart tsEnd bl).
    - assert (En : points_of host f bl = []); [|by rewrite En].
      unfold points_of. unfold held in Hnh. destruct (of_host host (bl_samples bl)); [done|]. by destruct Hnh. }
  pose proof (range_items kv lo hi Hw) as Hr. destruct (kv_range kv lo hi MonBlockScanLimit) as [items| |]; [|rewrite <- Hitems, Hr in Hcol; exact (eq_sym (eq_sym Hcol))|done].
  subst items. rewrite Hitems. unfold answer in Hcol. by destruct (foldl _ _ _).
Qed.
End scan.

(** ** The history of a leader *)

(** A beat: the clock and the reports. *)
Abbreviation beat := (Z * gmap string HostStatus)%type.
Definition beat_samples (t : beat) : list monSample := concat (map (fun ks => sampled (fst t) (snd ks)) (map_range (snd t))).
Definition report_ok (hs : HostStatus) : Prop :=
  no_slash (hs_HostId hs) = true /\
  Forall in_i64 [hs_MemUsed hs; hs_MemAvailable hs; hs_DiskFreeBytes hs; hs_DiskTotalBytes hs; hs_NetRecvBytes hs; hs_NetSentBytes hs;
                 hs_DiskReadBytes hs; hs_DiskWriteBytes hs].
Definition beat_ok (t : beat) : Prop := MonBlockSeconds <= fst t < 2 ^ 39 /\ forall k hs, snd t !! k = Some hs -> report_ok hs.
Definition sample_ok (s : monSample) : Prop := no_slash (ms_host s) = true /\ Forall in_i64 (ms_values s).

(** Beats of the leader; a flush ends before the next beat. *)
Definition leader_beat (cfg : MonstoreConfig) (st : monstoreBuf * S) (t : beat) : monstoreBuf * S :=
  mon_flushed zone cfg (monstoreTick zone cfg true (snd t) (fst t) (fst st), snd st).
Definition mon_run (cfg : MonstoreConfig) (beats : list beat) (st : monstoreBuf * S) : monstoreBuf * S := foldl (leader_beat cfg) st beats.

Lemma quot_i64 v : in_i64 v -> in_i64 (Z.quot v 60).
Proof.
  unfold in_i64. intros Hv. pose proof (Z.quot_rem v 60 ltac:(lia)). pose proof (Z.rem_bound_abs v 60 ltac:(lia)). destruct (Z_lt_le_dec v 0).
  - assert (Z.quot v 60 <= 0) by (apply Z.quot_le_upper_bound; lia). lia.
  - assert (0 <= Z.quot v 60) by (apply Z.quot_pos; lia). lia.
Qed.
Lemma beat_samples_ok t : beat_ok t -> Forall (fun s => sample_ok s /\ ms_ts s = fst t) (beat_samples t).
Proof.
  intros [_ Hok]. unfold beat_samples. apply Forall_concat, Forall_forall. intros l Hin. apply list_elem_of_fmap in Hin as ([k hs] & -> & Hin).
  apply elem_of_map_range in Hin. destruct (Hok k hs Hin) as [Hns Hv]. unfold sampled. cbn [snd]. case_bool_decide; [constructor|].
  apply Forall_singleton. unfold sample_ok. cbn [ms_host ms_values ms_ts monSampleOf]. split_and!; [done| |done].
  rewrite !Forall_cons in Hv. destruct_and?. cbn [map monHostExtractors]. unfold Window1Min.
  repeat apply Forall_cons_2; try apply Forall_nil_2; try done; apply quot_i64; done || apply i64_range.
Qed.

Record run_inv (host field : string) (f : nat) (seen : list monSample) (now : Z) (st : monstoreBuf * S) (bls : list monBlock) : Prop := {
  ri_seen : seen = (concat (map bl_samples bls) ++ mb_samples (fst st))%list;
  ri_flights : mb_flights (fst st) = [];
  ri_series : series_inv zone host field f (snd st) bls;
  ri_grow : starts_grow bls;
  ri_blocks : Forall block_ok bls;
  ri_before : Forall (fun bl => bl_start bl < mb_blockStart (fst st)) bls;
  ri_open : mb_blockStart (fst st) = 0 /\ bls = [] /\ mb_samples (fst st) = [] \/
            mb_blockStart (fst st) = monBlockStartOf (mb_blockStart (fst st)) /\ 0 < mb_blockStart (fst st) <= now /\ now < 2 ^ 39 /\
            now < mb_blockStart (fst st) + 600;
  ri_samples : Forall (fun s => mb_blockStart (fst st) <= ms_ts s < mb_blockStart (fst st) + MonBlockSeconds /\ sample_ok s) (mb_samples (fst st)) }.

Lemma block_start_idem ts : 0 <= ts -> monBlockStartOf (monBlockStartOf ts) = monBlockStartOf ts.
Proof.
  intros Hts. pose proof (block_start_nonneg ts Hts). unfold monBlockStartOf in *. unfold MonBlockSeconds in *.
  rewrite (Z.rem_mod_nonneg ts) in * by lia. assert (E : Z.rem (ts - ts mod 600) 600 = 0); [|rewrite E; lia].
  rewrite Z.rem_mod_nonneg by lia. pose proof (Z.div_mod ts 600 ltac:(lia)). replace (ts - ts mod 600) with (ts / 600 * 600) by lia.
  apply Z.mod_mul. lia.
Qed.

Lemma starts_grow_snoc bls bl : starts_grow bls -> Forall (fun a => bl_start a < bl_start bl) bls -> starts_grow (bls ++ [bl])%list.
Proof.
  intros Hg Hb. induction Hg as [|a l Hl IH Ha]; cbn; [by repeat constructor|]. apply Forall_cons in Hb as [Hb1 Hb]. constructor; [by apply IH|].
  apply Forall_app. split; [done|]. by apply Forall_singleton.
Qed.

Lemma run_inv_beat cfg host field f seen now st bls t : no_slash host = true -> MonFields !! f = Some field -> zone <> "" ->
  0 < Monstore_RetentionMs cfg -> beat_ok t -> now <= fst t -> Z.of_nat (length (seen ++ beat_samples t)) <= 2 ^ 45 ->
  run_inv host field f seen now st bls -> exists bls', run_inv host field f (seen ++ beat_samples t)%list (fst t) (leader_beat cfg st t) bls'.
Proof.
  intros Hh Hf Hz Hret Hok Hnow Hlen [Hseen Hfl Hser Hgrow Hblk Hbef Hopen Hsmp]. destruct st as [b kv]. cbn [fst snd] in *.
  pose proof (beat_samples_ok t Hok) as Hbs. destruct Hok as [[Ht1 Ht2] Hrep]. unfold MonBlockSeconds in Ht1.
  pose proof (block_start_bounds (fst t) ltac:(lia)) as Hbb. unfold MonBlockSeconds in Hbb. pose proof (block_start_nonneg (fst t) ltac:(lia)).
  pose proof (block_start_idem (fst t) ltac:(lia)) as Hidem.
  unfold leader_beat, monstoreTick. cbn [fst snd]. rewrite bool_decide_false by done. cbn [orb].
  destruct (Z.leb_spec (Monstore_RetentionMs cfg) 0); [lia|]. cbn [negb].
  change (concat (map (fun ks => sampled (fst t) (snd ks)) (map_range (snd t)))) with (beat_samples t).
  assert (Hnew : forall start, start <= fst t < start + MonBlockSeconds ->
    Forall (fun s => start <= ms_ts s < start + MonBlockSeconds /\ sample_ok s) (beat_samples t)).
  { intros start Hstart. eapply Forall_impl; [exact Hbs|]. cbn. intros s [? ->]. done. }
  destruct Hopen as [(Ez & -> & Es)|(Eb & Hb & Hn & _)].
  - (* the first block is opened *)
    exists [].
    assert (Erot : mon_rotate (fst t) b = {| mb_blockStart := monBlockStartOf (fst t); mb_samples := mb_samples b; mb_flights := mb_flights b |}).
    { unfold mon_rotate. rewrite Ez. cbn [Z.eqb mb_blockStart]. rewrite i64_id by (unfold in_i64; lia).
      destruct (Z.leb_spec MonBlockSeconds (fst t - monBlockStartOf (fst t))) as [Hc|]; [unfold MonBlockSeconds in Hc; lia|done]. }
    rewrite Erot. cbn [mb_samples mb_flights mb_blockStart]. unfold mon_flushed. cbn [mb_flights]. rewrite Hfl. cbn in Hseen. rewrite Es in *. subst seen.
    split; cbn [fst snd mb_samples mb_flights mb_blockStart map concat app].
    + done.
    + done.
    + done.
    + done.
    + done.
    + done.
    + right. split; [by rewrite Hidem|lia].
    + apply Hnew. unfold MonBlockSeconds. lia.
  - set (block := {| bl_start := mb_blockStart b; bl_samples := mb_samples b |}).
    assert (Erot : mon_rotate (fst t) b = if 600 <=? fst t - mb_blockStart b
      then {| mb_blockStart := monBlockStartOf (fst t); mb_samples := []; mb_flights := [block] |} else b).
    { unfold mon_rotate. destruct (Z.eqb_spec (mb_blockStart b) 0); [lia|]. rewrite i64_id by (unfold in_i64; lia).
      change MonBlockSeconds with 600. destruct (600 <=? fst t - mb_blockStart b); [|done].
      unfold monFlushAsync. cbn [mb_flights mb_blockStart mb_samples]. by rewrite Hfl. }
    rewrite Erot. destruct (Z.leb_spec 600 (fst t - mb_blockStart b)) as [Hrot|Hrot].
    + (* the block is closed *)
      unfold mon_flushed. cbn [mb_flights mb_blockStart mb_samples app].
      assert (Hlt : mb_blockStart b < monBlockStartOf (fst t)) by lia.
      assert (Hbok : block_ok block).
      { split_and!; cbn; [lia|lia| |].
        - rewrite Hseen, !length_app in Hlen. lia.
        - eapply Forall_impl; [exact Hsmp|]. intros s [? [_ ?]]. done. }
      exists (bls ++ [block])%list. split; cbn [fst snd mb_samples mb_flights mb_blockStart].
      * rewrite Hseen, List.map_app, concat_app. cbn. by rewrite app_nil_r.
      * done.
      * apply series_inv_flush; [done|done|done| |].
        -- eapply Forall_impl; [exact Hsmp|]. intros s [_ [? _]]. done.
        -- intros bl Hin E. rewrite Forall_forall in Hbef, Hblk. specialize (Hbef bl Hin). destruct (Hblk bl Hin) as (Hs & _).
           cbn in E. rewrite !MonBlockId_digits in E by lia.
           apply hexn_inj in E; [lia|change (16 ^ Z.of_nat 10) with (2 ^ 40); lia..].
      * by apply starts_grow_snoc.
      * apply Forall_app. split; [done|]. by apply Forall_singleton.
      * apply Forall_app. split; [eapply Forall_impl; [exact Hbef|]; cbn; intros bl ?; lia|]. apply Forall_singleton. cbn. lia.
      * right. split; [by rewrite Hidem|lia].
      * apply Hnew. unfold MonBlockSeconds. lia.
    + (* the block stays open *)
      exists bls. cbn [mb_samples mb_flights mb_blockStart]. unfold mon_flushed. cbn [mb_flights]. rewrite Hfl.
      split; cbn [fst snd mb_samples mb_flights mb_blockStart].
      * by rewrite Hseen, app_assoc.
      * done.
      * done.
      * done.
      * done.
      * done.
      * right. split; [done|lia].
      * apply Forall_app. split; [done|]. apply Hnew. unfold MonBlockSeconds. lia.
Qed.

Definition series_points (host : string) (f : nat) (samples : list monSample) : list (Z * Z) := map (point f) (of_host host samples).
Lemma series_points_blocks host f bls : concat (map (points_of host f) bls) = series_points host f (concat (map bl_samples bls)).
Proof.
  unfold series_points. induction bls as [|bl bls IH]; [done|]. cbn. unfold of_host. rewrite filter_app, List.map_app. by rewrite IH.
Qed.

Definition run_samples (beats : list beat) : list monSample := concat (map beat_samples beats).
Definition mon_start : monstoreBuf := {| mb_blockStart := 0; mb_samples := []; mb_flights := [] |}.

Lemma run_inv_run cfg host field f kv beats : no_slash host = true -> MonFields !! f = Some field -> zone <> "" ->
  0 < Monstore_RetentionMs cfg -> (forall t it, rd kv (NsZoneletMonBlockPrefix zone host field +:+ t) <> KvOk it) ->
  Forall beat_ok beats -> StronglySorted (fun a b => fst a <= fst b) beats ->
  Z.of_nat (length (run_samples beats)) <= 2 ^ 45 ->
  exists bls, run_inv host field f (run_samples beats) (match last beats with Some t => fst t | None => 0 end) (mon_run cfg beats (mon_start, kv)) bls.
Proof.
  intros Hh Hf Hz Hret Hempty. induction beats as [|t beats IH] using rev_ind; intros Hok Hsort Hlen.
  - exists []. split; cbn [fst snd mon_run foldl mon_start mb_samples mb_flights mb_blockStart]; [done|done| |constructor..|by left|constructor]. split; [by intros bl ?%elem_of_nil|]. intros t it Hr. by destruct (Hempty t it).
  - apply Forall_app in Hok as [Hok [Ht _]%Forall_cons]. apply StronglySorted_app in Hsort as (Hle & Hsort & _).
    assert (E : run_samples (beats ++ [t])%list = (run_samples beats ++ beat_samples t)%list).
    { unfold run_samples. rewrite List.map_app, concat_app. cbn. by rewrite app_nil_r. }
    rewrite E in *. destruct IH as [bls Hinv]; [done|done|rewrite length_app in Hlen; lia|].
    rewrite last_snoc. unfold mon_run in *. rewrite foldl_app. cbn [foldl].
    apply (run_inv_beat cfg host field f _ _ _ bls t) in Hinv; try done.
    destruct (last beats) as [t'|] eqn:El; [|destruct Ht as [[H1 _] _]; unfold MonBlockSeconds in H1; lia].
    apply last_Some in El as [l ->]. apply (Hle t' t); [|by apply list_elem_of_singleton].
    apply elem_of_app. right. by apply list_elem_of_singleton.
Qed.
End queries.


(** A block of metrics decodes to the points that were encoded, whatever 64-bit
    integers they are and in whatever order their times come. *)
Theorem mon_block_roundtrip (blockStart : Z) (ts values : list Z) :
  length values = length ts -> Z.of_nat (length ts) <= 2 ^ 45 -> in_i64 blockStart -> Forall in_i64 ts -> Forall in_i64 values ->
  monDecodeBlock (monEncodeBlock blockStart ts values) = Decoded blockStart (combine ts values).
Proof. apply block_roundtrip. Qed.

Lemma mon_block_roundtrip_witness :
  monDecodeBlock (monEncodeBlock 600 [630; 615; -9223372036854775808] [1; -1; 9223372036854775807]) =
  Decoded 600 [(630, 1); (615, -1); (-9223372036854775808, 9223372036854775807)].
Proof.
  apply (mon_block_roundtrip 600 [630; 615; -9223372036854775808] [1; -1; 9223372036854775807]);
    [done|cbn; lia|unfold in_i64; lia|..]; repeat apply Forall_cons_2; try apply Forall_nil_2; unfold in_i64; lia.
Defined.

(** ** A host sampled three times in two blocks *)

Definition ex_report (mem : Z) : HostStatus :=
  {| hs_HostId := "h1"; hs_Updated := 0; hs_CpuCores := 4; hs_CpuSys := 0; hs_CpuUser := 6000; hs_MemTotal := 8; hs_MemUsed := mem;
     hs_MemAvailable := 7; hs_NetRecvBytes := 0; hs_NetSentBytes := 0; hs_DiskReadBytes := 0; hs_DiskWriteBytes := 0;
     hs_DiskTotalBytes := 1000; hs_DiskFreeBytes := 500 |}.
Definition ex_beats : list (Z * gmap string HostStatus) :=
  map (fun tm => (fst tm, {[ "h1" := ex_report (snd tm) ]})) [(1200, 10); (1230, 20); (1790, 30); (1805, 40)].
Definition ex_moncfg : MonstoreConfig := {| mc_RetentionDays := 7; mc_SampleIntervalSecs := 0 |}.
Definition ex_after : mem_store zone_value := snd (mon_run "z1" ex_moncfg ex_beats (mon_start, mem_empty)).


(** At the limit, the last bucket keeps its first sample. *)
Example limit_keeps_first_of_bucket :
  monQuery "z1" "h1" "mem_used" 0 0 600 10 ex_after = Ok [(1790, 30)] /\
  monQuery "z1" "h1" "mem_used" 0 0 600 1 ex_after = Ok [(1200, 10)].
Proof. vm_compute. done. Qed.

(** The end of a window far in the future is rendered with more digits, or negative, and
    sorts below the blocks. *)
Example far_end_hides_blocks :
  monQuery "z1" "h1" "mem_used" 0 (2 ^ 63 - 1) 0 10 ex_after = Ok [] /\
  monQuery "z1" "h1" "mem_used" 0 (2 ^ 39) 0 10 ex_after = Ok [(1200, 10); (1230, 20); (1790, 30)].
Proof. vm_compute. done. Qed.
