(* ===== verification/Gateway.v ===== *)
(** The ingress of the zone, on the side of the zone leader:
    [src/internal/zonelet/service_gateway.go] and
    [src/internal/zonelet/service_internal_gateway.go].

    An ingress is a domain with its HTTP routes.  [GatewayIngressSet] edits the record,
    [GatewayIngressDeployList] resolves the records to the addresses the gateways serve.
    The list of public suffixes, the international domain names and the URL syntax are
    classes. *)
From Stdlib Require Import ZArith Lia Ascii.
From S2P Require Import Prelude GoStrings Utf8 GoPath Ns Kv Inet StateFlow AppNames AppVersion Ipam Zone.
Local Open Scope string_scope.
Local Open Scope Z_scope.
Local Open Scope go_scope.

Definition GatewayIngressType_Instance : string := "instance".
Definition GatewayIngressType_Upstream : string := "upstream".
Definition GatewayIngressType_Redirect : string := "redirect".
Definition GatewayIngressActionEnable : string := "enable".
Definition GatewayIngressActionDisable : string := "disable".
Definition GatewayIngressActionDelete : string := "delete".
Definition GatewayIngressDeleteDelaySeconds : Z := 10 * 24 * 3600.

(** [golang.org/x/net]: whether the public suffix of a name is managed by ICANN, and the
    error of [idna.ToASCII]. *)
Class DomainLib := { suffix_managed : string -> bool; idna_error : string -> option string }.

(** [net/url]: the parts the program looks at, and what it keeps of the rest. *)
Record Url := { u_Scheme : string; u_Host : string; u_Path : string; u_Rest : string }.
Class UrlLib := { url_Parse : string -> result Url; url_ParseRequestURI : string -> result Url; url_String : Url -> string }.
Definition with_path (p : string) (u : Url) : Url :=
  {| u_Scheme := u_Scheme u; u_Host := u_Host u; u_Path := p; u_Rest := u_Rest u |}.

(** ** Validation *)

Definition label_long (labels : list string) : bool := List.existsb (fun l => 63 <? slen l) labels.
Definition domain_valid `{DomainLib} (domain : string) : result unit :=
  if negb (suffix_managed domain) then Err "Invalid Domain Name (TLD)"
  else match idna_error domain with
  | Some e => Err ("Invalid Domain Name : " +:+ e)
  | None =>
    if 253 <? slen domain then Err "Invalid Domain Name : Total length must not exceed 253 characters"
    else if label_long (split_at "." domain)
    then Err "Invalid Domain Name : Each label (dot-separated segment) must not exceed 63 characters" else Ok tt
  end.

Definition port_valid (s : string) : bool :=
  match atoi_nonneg s with Some port => (80 <=? port) && (port <=? 65505) | None => false end.
Definition instance_target_valid (tgt : IngressTarget) : bool :=
  match split_at ":" (it_Backend tgt) with
  | [name; port] => is_ok (DNSLabelValid name) && port_valid port
  | _ => false
  end.
Definition upstream_target_valid `{Ip6Syntax} (tgt : IngressTarget) : bool :=
  match split_at ":" (it_Backend tgt) with
  | [host; port] => match ParseIP host with Some ip => bool_decide (is_Some (To4 ip)) && port_valid port | None => false end
  | _ => false
  end.
Definition redirect_target `{UrlLib} (tgt : IngressTarget) : result IngressTarget :=
  match url_ParseRequestURI (it_Backend tgt) with
  | Err e => Err ("Invalid Redirect URL or Path: " +:+ e)
  | Ok uri =>
    let p := Clean (u_Path uri) in
    Ok {| it_Backend := url_String (with_path (if bool_decide (p = ".") then "/" else p) uri); it_Weight := it_Weight tgt |}
  end.
Fixpoint redirect_targets `{UrlLib} (l : list IngressTarget) : result (list IngressTarget) :=
  match l with
  | [] => Ok []
  | tgt :: l => let? tgt := redirect_target tgt in let? l := redirect_targets l in Ok (tgt :: l)
  end.

(** One route of the request, as it is stored. *)
Definition route_checked `{Ip6Syntax} `{UrlLib} (route : IngressRoute) : result IngressRoute :=
  let stored targets := {| ir_Path := Clean (ir_Path route); ir_Type := ir_Type route; ir_Action := ir_Action route; ir_Targets := targets |} in
  if bool_decide (ir_Type route = GatewayIngressType_Instance) then
    if forallb instance_target_valid (ir_Targets route) then Ok (stored (ir_Targets route)) else Err "Invalid AppInstance Name:Port"
  else if bool_decide (ir_Type route = GatewayIngressType_Upstream) then
    if forallb upstream_target_valid (ir_Targets route) then Ok (stored (ir_Targets route)) else Err "Invalid IP:Port"
  else if bool_decide (ir_Type route = GatewayIngressType_Redirect) then
    let? targets := redirect_targets (ir_Targets route) in Ok (stored targets)
  else Err "Invalid Route Type".

(** A route replaces the first one of its path, or is added. *)
Fixpoint replace_route (route : IngressRoute) (routes : list IngressRoute) : option (list IngressRoute) :=
  match routes with
  | [] => None
  | a :: rest =>
    if bool_decide (ir_Path route = ir_Path a)
    then Some ({| ir_Path := ir_Path a; ir_Type := ir_Type route; ir_Action := ir_Action route; ir_Targets := ir_Targets route |} :: rest)
    else option_map (cons a) (replace_route route rest)
  end.
Definition put_route (routes : list IngressRoute) (route : IngressRoute) : list IngressRoute :=
  match replace_route route routes with Some l => l | None => (routes ++ [route])%list end.
Fixpoint put_routes `{Ip6Syntax} `{UrlLib} (routes req : list IngressRoute) : result (list IngressRoute) :=
  match req with
  | [] => Ok routes
  | route :: req => let? route := route_checked route in put_routes (put_route routes route) req
  end.

(** [strings.Compare(a.Path, b.Path) > 0] *)
Definition path_after (a b : IngressRoute) : bool := str_lt (ir_Path b) (ir_Path a).

(** [%q] of printable text. *)
Fixpoint quote_body (s : string) : string :=
  match s with
  | "" => ""
  | String c s =>
    (if byte_of c =? 34 then backslash +:+ dquote else if byte_of c =? 92 then backslash +:+ backslash else String c "") +:+ quote_body s
  end.
Definition quoted (s : string) : string := dquote +:+ quote_body s +:+ dquote.

Definition gatewayIngressDeleteEligible (item : GatewayIngress) (updated now : Z) : result unit :=
  if bool_decide (gi_Action item <> GatewayIngressActionDisable)
  then Err "Only a disabled ingress can be deleted, disable it first (action=disable)"
  else
    let elapsed := now -64 updated in
    if elapsed <=? GatewayIngressDeleteDelaySeconds
    then Err ("Ingress " +:+ quoted (gi_Domain item) +:+ " was last operated " +:+ itoa (Z.quot elapsed 86400) +:+
              " day(s) ago, deletion requires more than " +:+ itoa (GatewayIngressDeleteDelaySeconds / 86400) +:+
              " day(s) after the last operation")
    else Ok tt.

(** ** Requests *)

Section requests.
Context {S : Type} {K : Kv S zone_value} {DP : KvDeletePrev K} {SS : SortSlice} {DL : DomainLib} {IP : Ip6Syntax} {UL : UrlLib}.
Implicit Types (kv : S).

Definition ingress_of (zone domain : string) : string := NsZoneletGatewayIngress zone domain.
Definition meta_updated (item : GatewayIngress) : Z := match gi_Meta item with Some m => me_Updated m | None => 0 end.

(** [action=delete], with what was read. *)
Definition ingress_delete (key : string) (rs : kv_reply (kv_item GatewayIngress)) (now : Z) kv : S * result (option GatewayIngress) :=
  match rs with
  | KvNotFound => (kv, Err "Domain Not Found")
  | KvErr m => (kv, Err m)
  | KvOk it =>
    match it_value it with
    | None => (kv, Err "json error")
    | Some prev =>
      match gatewayIngressDeleteEligible prev (meta_updated prev) now with
      | Err e => (kv, Err e)
      | Ok _ =>
        match kv_delete_prev kv key (it_version it) with
        | (kv, KvOk _) => (kv, Ok None)
        | (kv, rs2) => (kv, Err (kv_msg rs2))
        end
      end
    end
  end.

(** The record an edit starts from: a new one unless the read succeeded. *)
Definition edited_item (domain newId : string) (rs : kv_reply (kv_item GatewayIngress)) (now : Z) : result GatewayIngress :=
  match rs with
  | KvOk it =>
    match it_value it with
    | None => Err "json error"
    | Some item =>
      match gi_Meta item with
      | None => Err "metadata not found"
      | Some m => Ok {| gi_Meta := Some {| me_Id := me_Id m; me_Created := me_Created m; me_Updated := me_Updated m; me_Version := it_version it |};
                        gi_Domain := gi_Domain item; gi_Description := gi_Description item; gi_Options := gi_Options item;
                        gi_Action := gi_Action item; gi_Routes := gi_Routes item |}
      end
    end
  | _ => Ok {| gi_Meta := Some {| me_Id := newId; me_Created := now; me_Updated := 0; me_Version := 0 |};
               gi_Domain := domain; gi_Description := ""; gi_Options := None; gi_Action := ""; gi_Routes := [] |}
  end.

Definition ingress_action (action : string) : string :=
  if bool_decide (action = GatewayIngressActionEnable) || bool_decide (action = GatewayIngressActionDisable) then action
  else GatewayIngressActionEnable.
Definition edit_item (req : GatewayIngress) (now : Z) (item : GatewayIngress) : result GatewayIngress :=
  let? routes := put_routes (gi_Routes item) (gi_Routes req) in
  let m := default {| me_Id := ""; me_Created := 0; me_Updated := 0; me_Version := 0 |} (gi_Meta item) in
  Ok {| gi_Meta := Some {| me_Id := me_Id m; me_Created := me_Created m; me_Updated := now; me_Version := me_Version m |};
        gi_Domain := gi_Domain item; gi_Description := gi_Description req;
        gi_Options := match gi_Options req with Some o => Some o | None => gi_Options item end;
        gi_Action := ingress_action (gi_Action req); gi_Routes := sort_slice path_after routes |}.
Definition item_version (item : GatewayIngress) : Z := match gi_Meta item with Some m => me_Version m | None => 0 end.

(** The request after the authorisation of the caller; [newId] is the random identifier of
    a new record. *)
Definition GatewayIngressSet (zone : string) (leader : bool) (req : option GatewayIngress) (now : Z) (newId : string) kv
  : S * result (option GatewayIngress) :=
  if negb leader then (kv, Err "Invalid Zone MainNode Address")
  else match req with
  | None => (kv, Err "Domain Not Found")
  | Some req =>
    if bool_decide (gi_Domain req = "") then (kv, Err "Domain Not Found")
    else
      let domain := trim_space (to_lower (gi_Domain req)) in
      match domain_valid domain with
      | Err e => (kv, Err e)
      | Ok _ =>
        let key := ingress_of zone domain in
        let rs := kv_read (V := GatewayIngress) kv key in
        if bool_decide (gi_Action req = GatewayIngressActionDelete) then ingress_delete key rs now kv
        else match (let? item := edited_item domain newId rs now in edit_item req now item) with
        | Err e => (kv, Err e)
        | Ok item =>
          let o := {| prev_version := item_version item; create_only := false; ttl_ms := 0 |} in
          match kv_write kv o key item with
          | (kv, KvOk _) => (kv, Ok (Some item))
          | (kv, rs2) => (kv, Err (kv_msg rs2))
          end
        end
      end
  end.

Definition GatewayIngressInfo (zone : string) (leader : bool) (name : string) kv : result GatewayIngress :=
  if negb leader then Err "Invalid Zone MainNode Address"
  else match kv_read (V := GatewayIngress) kv (ingress_of zone name) with
  | KvNotFound => Err "Domain Not Found"
  | KvErr m => Err m
  | KvOk it => match it_value it with Some item => Ok item | None => Err "json error" end
  end.

(** [GatewayIngressList]: the records of the range, newest first; [upper] is the upper
    bound the database makes of equal bounds. *)
Definition newer_ingress (a b : GatewayIngress) : bool := meta_updated b <? meta_updated a.
Definition listed_item (e : string * kv_item GatewayIngress) : option GatewayIngress :=
  item ← it_value (snd e); if bool_decide (is_Some (gi_Meta item)) then Some item else None.
Definition GatewayIngressList (zone upper : string) (leader : bool) kv : result (list GatewayIngress) :=
  if negb leader then Err "Invalid Zone MainNode Address"
  else
    let items := match kv_range (V := GatewayIngress) kv (ingress_of zone "") upper 1000 with KvOk items => items | _ => [] end in
    Ok (sort_slice newer_ingress (omap listed_item items)).
End requests.

(** ** Deployment *)

Record DeployRoute := { gr_Type : string; gr_Path : string; gr_Targets : list IngressTarget }.
(** [GatewayIngressDeploy] *)
Record IngressDeploy := { gd_Domain : string; gd_Letsencrypt : bool; gd_Routes : list DeployRoute; gd_Revision : Z }.

(** Targets without duplicates, in their first order. *)
Definition add_target (targets : list IngressTarget) (addr : string) : list IngressTarget :=
  if List.existsb (fun t => bool_decide (it_Backend t = addr)) targets then targets
  else (targets ++ [{| it_Backend := addr; it_Weight := 0 |}])%list.

(** [host.PeerAddr] up to the first colon that is not its first character. *)
Definition peer_host (peerAddr : string) : string :=
  match cut_at ":" peerAddr with
  | Some (ip, _) => if bool_decide (ip = "") then peerAddr else ip
  | None => peerAddr
  end.

Section deployment.
Context {IP : Ip6Syntax} {UL : UrlLib}.

(** The address of one replica, if it serves the port. *)
Definition replica_addr (hosts : KvSet ZoneHost) (appPort : Z) (rep : AppDeployReplica) : option string :=
  if bool_decide (dr_State rep <> "") && bool_decide (dr_State rep <> OpActionStart) then None
  else
    e ← KvSet_Load hosts (dr_HostId rep);
    port ← List.find (fun p => dsp_Port p =? u32 appPort) (dr_ServicePorts rep);
    Some (peer_host (h_PeerAddr (zh_Host (ke_Value e))) +:+ ":" +:+ itoa (dsp_HostPort port)).

(** What the targets of a route become; [None] when the route is passed over at once. *)
Definition instance_targets (apps : gmap string AppRecord) (hosts : KvSet ZoneHost) (route : IngressRoute)
  : result (option (list IngressTarget)) :=
  match ir_Targets route with
  | [] => Ok None
  | tgt :: _ =>
    match split_at ":" (it_Backend tgt) with
    | [] => Ok None
    | name :: ports =>
      match apps !! name with
      | None => Ok None
      | Some app =>
        match ar_Deploy app with
        | None => Err "panic: nil pointer"
        | Some d =>
          if (Z.of_nat (length (ad_Replicas d)) =? 0) || bool_decide (ad_Action d <> OpActionStart) then Ok None
          else match ports with
          | [] => Err "panic: index out of range"
          | port :: _ =>
            match atoi_nonneg port with
            | Some appPort =>
              if (appPort <=? 0) || (65536 <=? appPort) then Ok None
              else Ok (Some (foldl (fun ts rep => match replica_addr hosts appPort rep with
                                                  | Some addr => add_target ts addr | None => ts end) [] (ad_Replicas d)))
            | None => Ok None
            end
          end
        end
      end
    end
  end.

Definition upstream_addr (tgt : IngressTarget) : option string :=
  match split_at ":" (it_Backend tgt) with
  | [host; port] =>
    let hostIp := match ParseIP host with Some ip => ip_string ip | None => "" end in
    match atoi_nonneg port with
    | Some v => if (0 <? v) && (v <? 65536) then Some (hostIp +:+ ":" +:+ itoa v) else None
    | None => None
    end
  | _ => None
  end.
Definition redirect_addr (tgt : IngressTarget) : option string :=
  match url_Parse (it_Backend tgt) with Ok u => Some (url_String u) | Err _ => None end.
Definition add_addrs (f : IngressTarget -> option string) (l : list IngressTarget) : list IngressTarget :=
  foldl (fun ts tgt => match f tgt with Some addr => add_target ts addr | None => ts end) [] l.

(** A type the switch does not know adds no target. *)
Definition route_targets (apps : gmap string AppRecord) (hosts : KvSet ZoneHost) (route : IngressRoute)
  : result (option (list IngressTarget)) :=
  if bool_decide (ir_Type route = GatewayIngressType_Instance) then instance_targets apps hosts route
  else if bool_decide (ir_Type route = GatewayIngressType_Upstream) then Ok (Some (add_addrs upstream_addr (ir_Targets route)))
  else if bool_decide (ir_Type route = GatewayIngressType_Redirect) then Ok (Some (add_addrs redirect_addr (ir_Targets route)))
  else Ok (Some []).

(** A route of a path that is there already takes its place; its targets are emptied even
    when nothing replaces them. *)
Definition set_route_targets (path : string) (f : DeployRoute -> DeployRoute) (routes : list DeployRoute) : list DeployRoute :=
  map (fun a => if bool_decide (gr_Path a = path) then f a else a) routes.
Definition deploy_route (apps : gmap string AppRecord) (hosts : KvSet ZoneHost)
    (routes : list DeployRoute) (route : IngressRoute) : result (list DeployRoute) :=
  if (Z.of_nat (length (ir_Targets route)) =? 0) || bool_decide (ir_Action route <> GatewayIngressActionEnable) then Ok routes
  else
    let known := List.existsb (fun a => bool_decide (gr_Path a = ir_Path route)) routes in
    let? targets := route_targets apps hosts route in
    let targets := default [] targets in
    if known then
      Ok (set_route_targets (ir_Path route)
            (fun a => {| gr_Type := if Z.of_nat (length targets) =? 0 then gr_Type a else ir_Type route; gr_Path := gr_Path a; gr_Targets := targets |})
            routes)
    else if Z.of_nat (length targets) =? 0 then Ok routes
    else Ok (routes ++ [{| gr_Type := ir_Type route; gr_Path := ir_Path route; gr_Targets := targets |}])%list.
Fixpoint deploy_routes (apps : gmap string AppRecord) (hosts : KvSet ZoneHost)
    (routes : list DeployRoute) (l : list IngressRoute) : result (list DeployRoute) :=
  match l with
  | [] => Ok routes
  | route :: l => let? routes := deploy_route apps hosts routes route in deploy_routes apps hosts routes l
  end.

(** [None]: nothing of the domain can be served. *)
Definition deploy_item (apps : gmap string AppRecord) (hosts : KvSet ZoneHost) (e : GatewayIngress * Z)
  : result (option IngressDeploy) :=
  let '(item, version) := e in
  let? routes := deploy_routes apps hosts [] (gi_Routes item) in
  match routes with
  | [] => Ok None
  | _ => Ok (Some {| gd_Domain := gi_Domain item; gd_Letsencrypt := default false (gi_Options item); gd_Routes := routes; gd_Revision := version |})
  end.
Fixpoint deploy_items (apps : gmap string AppRecord) (hosts : KvSet ZoneHost) (l : list (GatewayIngress * Z))
  : result (list IngressDeploy) :=
  match l with
  | [] => Ok []
  | e :: l =>
    let? d := deploy_item apps hosts e in
    let? ds := deploy_items apps hosts l in
    Ok (match d with Some d => d :: ds | None => ds end)
  end.

Context {S : Type} `{Kv S zone_value}.

Definition enabled_item (e : string * kv_item GatewayIngress) : option (GatewayIngress * Z) :=
  item ← it_value (snd e);
  if bool_decide (gi_Action item <> GatewayIngressActionEnable) || (Z.of_nat (length (gi_Routes item)) =? 0) then None
  else Some (item, it_version (snd e)).
Definition load_app (m : gmap string AppRecord) (e : string * kv_item AppRecord) : gmap string AppRecord :=
  match it_value (snd e) with Some app => <[ar_Name app := app]> m | None => m end.
Definition load_apps (zone : string) (kv : S) : gmap string AppRecord :=
  let offset := NsAppInstance zone "" in
  foldl load_app ∅ (match kv_range (V := AppRecord) kv offset (range_end offset) 10000 with KvOk items => items | _ => [] end).
Definition load_ingress (zone : string) (kv : S) : list (GatewayIngress * Z) :=
  let offset := NsZoneletGatewayIngress zone "" in
  omap enabled_item (match kv_range (V := GatewayIngress) kv offset (range_end offset) 10000 with KvOk items => items | _ => [] end).
(** The records a gateway that has [revision] has not seen. *)
Definition unseen (revision : Z) (items : list (GatewayIngress * Z)) : list (GatewayIngress * Z) :=
  filter (fun e => ~ (0 < revision /\ snd e <= revision)) items.

(** The request after the authorisation of the gateway. *)
Definition GatewayIngressDeployList (zone : string) (leader : bool) (hosts : KvSet ZoneHost)
    (revision : Z) (kv : S) : result (list IngressDeploy) :=
  if negb leader then Err "Invalid Zone MainNode Address"
  else
    let items := load_ingress zone kv in
    if Z.of_nat (length items) =? 0 then Ok []
    else deploy_items (load_apps zone kv) hosts (unseen revision items).
End deployment.
