(* ===== verification/GatewayLogic.v ===== *)
(** Theorems about the ingress records ([Gateway]): the routes of a stored ingress are
    valid, distinct and in the order of the gateway, the list for the gateways is exactly
    the enabled routes that lead somewhere, and a read that fails loses the record. *)
From Stdlib Require Import ZArith Lia Ascii Sorted.
From S2P Require Import Prelude GoStrings GoPath Ns Kv Paging Inet AppNames AppVersion Ipam Zone Gateway.
Local Open Scope string_scope.
Local Open Scope Z_scope.
Local Open Scope go_scope.

(** ** The order of routes *)

Lemma str_lt_total s t : str_lt s t = false -> s = t \/ str_lt t s = true.
Proof.
  unfold str_lt, String.ltb. destruct (String.compare s t) eqn:E; try done; intros _.
  - left. by apply String.compare_eq_iff.
  - right. rewrite String.compare_antisym, E. done.
Qed.
Lemma path_after_weak : strict_weak path_after.
Proof.
  unfold path_after. split; [|split].
  - intros x. apply str_lt_irrefl.
  - intros x y z H1 H2. by eapply str_lt_trans.
  - intros x y z H1 H2. destruct (str_lt (ir_Path z) (ir_Path x)) eqn:E; [|done].
    apply str_lt_total in H1 as [H1|H1]; [rewrite H1 in H2; congruence|]. assert (Hxz : str_lt (ir_Path x) (ir_Path z) = true).
    { apply str_lt_total in H2 as [->|H2]; [done|]. by eapply str_lt_trans. }
    pose proof (str_lt_trans _ _ _ Hxz E) as Hc. by rewrite str_lt_irrefl in Hc.
Qed.

Definition descending (l : list IngressRoute) : Prop := StronglySorted (fun a b => path_after a b = true) l.

Lemma sort_distinct `{SortSliceLaws} l : NoDup (map ir_Path l) -> descending (sort_slice path_after l).
Proof.
  intros Hnd. pose proof (sort_slice_sorted _ path_after l path_after_weak) as Hs.
  assert (Hp : NoDup (map ir_Path (sort_slice path_after l))).
  { eapply NoDup_Permutation_proper; [|exact Hnd]. apply fmap_Permutation, sort_slice_perm. }
  revert Hp. induction Hs as [|a l' _ IH Ha]; cbn [map]; [constructor|]. intros [Hin Hp]%NoDup_cons. constructor; [by apply IH|].
  rewrite Forall_forall in Ha |- *. intros b Hb. specialize (Ha b Hb). unfold path_after in *.
  apply str_lt_total in Ha as [E|E]; [|done]. destruct Hin. rewrite E. by apply list_elem_of_fmap_2.
Qed.
Lemma descending_NoDup l : descending l -> NoDup (map ir_Path l).
Proof.
  induction 1 as [|a l _ IH Ha]; cbn [map]; [constructor|]. apply NoDup_cons. split; [|done]. intros (b & E & Hb)%list_elem_of_fmap.
  rewrite Forall_forall in Ha. specialize (Ha b Hb). unfold path_after in Ha. by rewrite E, str_lt_irrefl in Ha.
Qed.

(** ** Stored routes *)

Section stored.
Context {S : Type} {K : Kv S zone_value} {DP : KvDeletePrev K} {KL : KvLaws K} {SS : SortSlice} {SSL : SortSliceLaws SS} {DL : DomainLib} {IP : Ip6Syntax} {UL : UrlLib}.
Implicit Types (kv : S).

Definition route_wf (r : IngressRoute) : Prop :=
  Clean (ir_Path r) = ir_Path r /\
  (ir_Type r = GatewayIngressType_Instance /\ forallb instance_target_valid (ir_Targets r) = true \/
   ir_Type r = GatewayIngressType_Upstream /\ forallb upstream_target_valid (ir_Targets r) = true \/
   ir_Type r = GatewayIngressType_Redirect).
Definition ingress_wf (domain : string) (item : GatewayIngress) : Prop :=
  is_Some (gi_Meta item) /\ gi_Domain item = domain /\
  (gi_Action item = GatewayIngressActionEnable \/ gi_Action item = GatewayIngressActionDisable) /\
  Forall route_wf (gi_Routes item) /\ descending (gi_Routes item).

Lemma route_checked_wf route r : route_checked route = Ok r -> route_wf r.
Proof.
  unfold route_checked. case_bool_decide as E1.
  - destruct (forallb _ _) eqn:F; [|done]. intros [= <-]. split; [apply Clean_idem|]. left. done.
  - case_bool_decide as E2.
    + destruct (forallb _ _) eqn:F; [|done]. intros [= <-]. split; [apply Clean_idem|]. right. left. done.
    + case_bool_decide as E3; [|done]. intros (ts & _ & [= <-])%rbind_ok. split; [apply Clean_idem|]. right. right. done.
Qed.

Lemma replace_route_spec route l : match replace_route route l with
  | Some l' => map ir_Path l' = map ir_Path l /\ (route_wf route -> Forall route_wf l -> Forall route_wf l')
  | None => ir_Path route ∉ map ir_Path l end.
Proof.
  induction l as [|a l IH]; cbn [replace_route map]; [apply not_elem_of_nil|]. case_bool_decide as E.
  - split; [done|]. intros [Hp Ht] [_ Hl]%Forall_cons. constructor; [|done]. split; cbn; [by rewrite <- E|exact Ht].
  - destruct (replace_route route l) as [l'|]; cbn [option_map].
    + destruct IH as [IHp IHw]. cbn. split; [by rewrite IHp|]. intros Hr [Ha Hl]%Forall_cons. constructor; [done|by apply IHw].
    + by apply not_elem_of_cons.
Qed.
Lemma put_route_wf routes route : route_wf route -> Forall route_wf routes -> NoDup (map ir_Path routes) ->
  Forall route_wf (put_route routes route) /\ NoDup (map ir_Path (put_route routes route)).
Proof.
  intros Hr Hw Hnd. unfold put_route. pose proof (replace_route_spec route routes) as Hs. destruct (replace_route route routes) as [l|].
  - destruct Hs as [Ep Ew]. split; [by apply Ew|by rewrite Ep].
  - split; [apply Forall_app; split; [done|by apply Forall_singleton]|]. rewrite List.map_app. cbn [map]. apply NoDup_app. split_and!; [done| |apply NoDup_singleton].
    intros x Hx ->%list_elem_of_singleton. done.
Qed.
Lemma put_routes_wf req : forall routes out, put_routes routes req = Ok out -> Forall route_wf routes -> NoDup (map ir_Path routes) ->
  Forall route_wf out /\ NoDup (map ir_Path out).
Proof.
  induction req as [|route req IH]; intros routes out; cbn [put_routes]; [by intros [= <-]|].
  intros (r & Hr & Hp)%rbind_ok Hw Hnd. apply route_checked_wf in Hr. destruct (put_route_wf routes r Hr Hw Hnd). by eapply IH.
Qed.

Lemma edit_item_wf domain req now item out : ingress_wf domain item \/ (gi_Routes item = [] /\ gi_Domain item = domain) ->
  edit_item req now item = Ok out -> ingress_wf domain out.
Proof.
  intros Hi. unfold edit_item. intros (routes & Hr & [= <-])%rbind_ok.
  assert (Hd : gi_Domain item = domain) by (destruct Hi as [(_ & ? & _)|[_ ?]]; done).
  assert (Hw : Forall route_wf (gi_Routes item) /\ NoDup (map ir_Path (gi_Routes item))).
  { destruct Hi as [(_ & _ & _ & Hw & Hs)|[E _]]; [|rewrite E; by repeat constructor]. split; [done|by apply descending_NoDup]. }
  destruct (put_routes_wf _ _ _ Hr (proj1 Hw) (proj2 Hw)) as [Hw' Hnd]. split_and!; cbn; [by eexists|done| | |by apply sort_distinct].
  - unfold ingress_action. do 2 case_bool_decide; cbn; auto.
  - apply Forall_forall. intros r Hin. apply sort_slice_elem in Hin. rewrite Forall_forall in Hw'. by apply Hw'.
Qed.

(** Every record of an ingress is well-formed and under its domain. *)
Definition ingresses_wf (zone : string) kv : Prop := forall domain it item,
  kv_read (V := GatewayIngress) kv (NsZoneletGatewayIngress zone domain) = KvOk it -> it_value it = Some item -> ingress_wf domain item.

Lemma delete_prev_reads kv k n kv' r : kv_delete_prev kv k n = (kv', r) ->
  (r = KvOk tt -> kv_read (V := GatewayIngress) kv' k = KvNotFound) /\
  (r <> KvOk tt -> kv_read (V := GatewayIngress) kv' k = kv_read (V := GatewayIngress) kv k) /\
  (forall k', k' <> k -> kv_read (V := GatewayIngress) kv' k' = kv_read (V := GatewayIngress) kv k').
Proof.
  intros Hd. destruct (kv_delete_prev_ok _ _ _ _ _ Hd) as (E1 & E2 & E3). cbn [kv_read zone_Kv]. split; [|split].
  - intros Hr. by rewrite (proj1 (E1 Hr)).
  - intros Hr. by rewrite E2.
  - intros k' Hk. by rewrite E3.
Qed.

Lemma ingress_key_inj zone d d' : NsZoneletGatewayIngress zone d = NsZoneletGatewayIngress zone d' -> d = d'.
Proof. unfold NsZoneletGatewayIngress. intros E. do 4 apply (inj _) in E. exact E. Qed.

Lemma ingresses_wf_set zone leader req now newId kv : ingresses_wf zone kv ->
  ingresses_wf zone (fst (GatewayIngressSet zone leader req now newId kv)).
Proof.
  intros Hwf. unfold GatewayIngressSet. destruct leader; cbn [negb]; [|exact Hwf]. destruct req as [req|]; [|exact Hwf].
  case_bool_decide; [exact Hwf|]. destruct (domain_valid _); [|exact Hwf]. set (domain := trim_space _). unfold ingress_of.
  case_bool_decide.
  - unfold ingress_delete. destruct (kv_read _ _) as [it| |] eqn:E; [|exact Hwf..]. destruct (it_value it) as [prev|]; [|exact Hwf].
    destruct (gatewayIngressDeleteEligible _ _ _); [|exact Hwf]. 
    destruct (kv_delete_prev _ _ _) as [kv' r] eqn:Ed. destruct (delete_prev_reads _ _ _ _ _ Ed) as (D1 & D2 & D3).
    assert (Hwf' : ingresses_wf zone kv').
    { intros d it' item Hr Hv. destruct (decide (d = domain)) as [->|Hne].
      - destruct r as [[]| |m]; [by rewrite (D1 eq_refl) in Hr|rewrite D2 in Hr by done; by eapply Hwf..].
      - rewrite D3 in Hr by (intros ?%ingress_key_inj; done). by eapply Hwf. }
    by destruct r.
  - destruct (rbind _ _) as [item|] eqn:E; [|exact Hwf]. apply rbind_ok in E as (item0 & E0 & E1).
    assert (Hitem : ingress_wf domain item).
    { eapply edit_item_wf; [|exact E1]. unfold edited_item in E0. destruct (kv_read _ _) as [it| |] eqn:Er;
        [|injection E0 as <-; by right..]. destruct (it_value it) as [item1|] eqn:Ev; [|done]. pose proof (Hwf _ _ _ Er Ev) as (Hm & Hw).
      destruct (gi_Meta item1); [|done]. injection E0 as <-. left. split; [by eexists|exact Hw]. }
    destruct (kv_write _ _ _ _) as [kv' r] eqn:Ew.
    assert (Hwf' : ingresses_wf zone kv').
    { intros d it' item' Hr Hv. destruct r as [n| |m].
      - destruct (kv_write_ok (V := GatewayIngress) _ _ _ _ _ _ Ew) as (R & Fr & _). destruct (decide (d = domain)) as [->|Hne].
        + rewrite R in Hr. injection Hr as <-. cbn in Hv. by injection Hv as <-.
        + rewrite Fr in Hr by (intros ?%ingress_key_inj; done). by eapply Hwf.
      - rewrite (kv_write_fail (V := GatewayIngress) _ _ _ _ _ _ Ew) in Hr by done. by eapply Hwf.
      - rewrite (kv_write_fail (V := GatewayIngress) _ _ _ _ _ _ Ew) in Hr by done. by eapply Hwf. }
    by destruct r.
Qed.
End stored.

(** ** The list for the gateways *)

Section list.
Context {S : Type} {K : Kv S zone_value} {DP : KvDeletePrev K} {KL : KvLaws K} {RL : KvRangeLaws K} {SS : SortSlice} {SSL : SortSliceLaws SS} {DL : DomainLib}
  {IP : Ip6Syntax} {UL : UrlLib}.
Implicit Types (kv : S) (apps : gmap string AppRecord).

(** An enabled route with an address to go to. *)
Definition served_route apps (hosts : KvSet ZoneHost) (r : IngressRoute) : option DeployRoute :=
  if (Z.of_nat (length (ir_Targets r)) =? 0) || bool_decide (ir_Action r <> GatewayIngressActionEnable) then None
  else match route_targets apps hosts r with
  | Ok (Some (t :: ts)) => Some {| gr_Type := ir_Type r; gr_Path := ir_Path r; gr_Targets := t :: ts |}
  | _ => None
  end.
Definition served_item apps (hosts : KvSet ZoneHost) (e : GatewayIngress * Z) : option IngressDeploy :=
  match omap (served_route apps hosts) (gi_Routes (fst e)) with
  | [] => None
  | routes => Some {| gd_Domain := gi_Domain (fst e); gd_Letsencrypt := default false (gi_Options (fst e)); gd_Routes := routes; gd_Revision := snd e |}
  end.

(** Every instance has a deploy. *)
Definition apps_deployed apps : Prop := forall name app, apps !! name = Some app -> is_Some (ar_Deploy app).

Lemma route_targets_ok apps hosts r : apps_deployed apps -> route_wf r -> exists o, route_targets apps hosts r = Ok o.
Proof.
  intros Ha [_ Ht]. unfold route_targets. case_bool_decide as E1; [|do 2 (case_bool_decide; [by eexists|]); by eexists].
  destruct Ht as [[_ Ht]|[[E2 _]|E2]]; [|rewrite E1 in E2; done..].
  unfold instance_targets. destruct (ir_Targets r) as [|tgt ts]; [by eexists|]. cbn [forallb] in Ht. apply andb_true_iff in Ht as [Ht _].
  unfold instance_target_valid in Ht. destruct (split_at ":" (it_Backend tgt)) as [|name [|port [|]]]; try done.
  destruct (apps !! name) as [app|] eqn:E; [|by eexists]. destruct (Ha _ _ E) as [d Hd]. rewrite Hd.
  destruct (_ || _); [by eexists|]. destruct (atoi_nonneg port); [|by eexists]. destruct (_ || _); by eexists.
Qed.

Lemma deploy_routes_exact apps hosts l : apps_deployed apps -> Forall route_wf l -> NoDup (map ir_Path l) -> forall acc,
  (forall r, r ∈ l -> ir_Path r ∉ map gr_Path acc) ->
  deploy_routes apps hosts acc l = Ok (acc ++ omap (served_route apps hosts) l)%list.
Proof.
  intros Ha. induction l as [|r l IH]; intros Hw Hnd acc Hacc; cbn [deploy_routes]; [by rewrite app_nil_r|].
  apply Forall_cons in Hw as [Hr Hw]. cbn [map] in Hnd. apply NoDup_cons in Hnd as [Hnin Hnd].
  destruct (route_targets_ok apps hosts r Ha Hr) as [o Ho]. unfold deploy_route. cbn [omap list_omap]. unfold served_route at 1. rewrite Ho.
  assert (Hl : forall r', r' ∈ l -> ir_Path r' ∉ map gr_Path acc) by (intros; by apply Hacc, list_elem_of_further).
  destruct ((Z.of_nat (length (ir_Targets r)) =? 0) || _) eqn:C; cbn [rbind]; [by apply IH|].
  assert (Hknown : List.existsb (fun a => bool_decide (gr_Path a = ir_Path r)) acc = false).
  { apply not_true_iff_false. intros (a & Ha' & E)%List.existsb_exists. apply bool_decide_eq_true in E. apply list_elem_of_In in Ha'.
    apply (Hacc r (list_elem_of_here _ _)). rewrite <- E. by apply list_elem_of_fmap_2. }
  rewrite Hknown. destruct o as [[|t ts]|]; cbn [from_option id]; [by apply IH| |by apply IH].
  destruct (Z.eqb_spec (Z.of_nat (length (t :: ts))) 0) as [E0|_]; [cbn in E0; lia|]. cbn [rbind].
  rewrite IH; [by rewrite <- app_assoc|done|done|]. intros r' Hr'. rewrite List.map_app. cbn. intros [Hin|Hin%list_elem_of_singleton]%elem_of_app.
  - by apply (Hl r' Hr').
  - apply Hnin. rewrite <- Hin. by apply list_elem_of_fmap_2.
Qed.

Lemma deploy_items_exact apps hosts l : apps_deployed apps ->
  Forall (fun e => exists domain, ingress_wf domain (fst e)) l -> deploy_items apps hosts l = Ok (omap (served_item apps hosts) l).
Proof.
  intros Ha. induction 1 as [|[item v] l (domain & Hd) _ IH]; [done|]. cbn [deploy_items deploy_item]. destruct Hd as (_ & _ & _ & Hw & Hs).
  cbn [fst] in *. rewrite (deploy_routes_exact apps hosts (gi_Routes item) Ha Hw (descending_NoDup _ Hs) []) by (intros; apply not_elem_of_nil).
  cbn [rbind app]. rewrite IH. cbn [omap list_omap]. unfold served_item at 2. cbn [fst snd].
  destruct (omap (served_route apps hosts) (gi_Routes item)); done.
Qed.

(** What is scanned is under the domains of the zone. *)
Lemma load_ingress_wf zone kv : ingresses_wf zone kv -> Forall (fun e => exists domain, ingress_wf domain (fst e)) (load_ingress zone kv).
Proof.
  intros Hwf. unfold load_ingress. apply Forall_forall. intros [item v] Hin. apply list_elem_of_omap in Hin as ([k it] & Hin & He).
  unfold enabled_item in He. cbn [snd] in He. destruct (it_value it) as [item'|] eqn:Ev; [|done]. cbn in He. destruct (_ || _); [done|]. injection He as -> <-.
  destruct (kv_range _ _ _ _) as [items| |] eqn:Er; [|by apply elem_of_nil in Hin..].
  destruct (kv_range_page (V := GatewayIngress) _ _ _ _ _ (eq_refl : 0 < 10000) Er) as (rest & Ef & _).
  assert (Hf : (k, it) ∈ filter (in_range (NsZoneletGatewayIngress zone "") (range_end (NsZoneletGatewayIngress zone ""))) (kv_entries (V := GatewayIngress) kv)).
  { rewrite Ef. apply elem_of_app. by left. }
  apply list_elem_of_filter in Hf as [[Hlt Hle] Hent]. cbn [fst] in Hlt, Hle. destruct (prefix_range _ _ Hlt Hle) as [t ->].
  exists t. apply (Hwf t it item); [|done]. apply kv_entries_read in Hent.
  assert (E : NsZoneletGatewayIngress zone t = NsZoneletGatewayIngress zone "" +:+ t) by (unfold NsZoneletGatewayIngress; rewrite !s_app_assoc; done).
  by rewrite E.
Qed.

(** A request of a history: who is the leader, the record, the time and the identifier. *)
Record ingress_request := { iq_leader : bool; iq_item : option GatewayIngress; iq_now : Z; iq_newId : string }.
Definition run_sets (zone : string) (reqs : list ingress_request) kv : S :=
  foldl (fun kv q => fst (GatewayIngressSet zone (iq_leader q) (iq_item q) (iq_now q) (iq_newId q) kv)) kv reqs.
Definition no_ingress (zone : string) kv : Prop := forall domain it, kv_read (V := GatewayIngress) kv (NsZoneletGatewayIngress zone domain) <> KvOk it.
Lemma run_sets_wf zone reqs kv : no_ingress zone kv -> ingresses_wf zone (run_sets zone reqs kv).
Proof.
  intros Hno. assert (Hwf : ingresses_wf zone kv) by (intros d it item Hr; by destruct (Hno d it)). clear Hno. unfold run_sets. revert kv Hwf.
  induction reqs as [|q reqs IH]; intros kv Hwf; [done|]. cbn. by apply IH, ingresses_wf_set.
Qed.
End list.

(** C26: Every stored ingress is under its own domain, enabled or disabled, and its routes
    are in strictly descending order of their clean paths - so no path is there twice, and
    a path comes before the paths it continues - with targets that are valid for their
    type, after any history of requests and whatever writes fail. *)
Theorem ingress_records_wf (S : Type) (K : Kv S zone_value) (DP : KvDeletePrev K) (KL : KvLaws K) (SS : SortSlice) (SSL : SortSliceLaws SS) (DL : DomainLib)
    (IP : Ip6Syntax) (UL : UrlLib) (zone : string) (reqs : list ingress_request) (kv : S) :
  no_ingress zone kv -> forall domain it item,
  kv_read (V := GatewayIngress) (run_sets zone reqs kv) (NsZoneletGatewayIngress zone domain) = KvOk it -> it_value it = Some item ->
  ingress_wf domain item.
Proof. intros Hno domain it item. by apply run_sets_wf. Qed.

(** After any history of requests the list for the gateways does not panic, and it is
    exactly the enabled records a gateway has not seen, each with its enabled routes that
    have an address, in the stored order; a record none of whose routes has an address is
    left out. *)
Theorem deploy_list_exact (S : Type) (K : Kv S zone_value) (DP : KvDeletePrev K) (KL : KvLaws K) (RL : KvRangeLaws K) (SS : SortSlice) (SSL : SortSliceLaws SS)
    (DL : DomainLib) (IP : Ip6Syntax) (UL : UrlLib) (zone : string) (reqs : list ingress_request) (kv : S) (hosts : KvSet ZoneHost) (revision : Z) :
  no_ingress zone kv -> let kv' := run_sets zone reqs kv in
  apps_deployed (load_apps zone kv') ->
  GatewayIngressDeployList zone true hosts revision kv' =
    Ok (omap (served_item (load_apps zone kv') hosts) (unseen revision (load_ingress zone kv'))).
Proof.
  intros Hno kv' Ha. unfold GatewayIngressDeployList. cbn [negb]. pose proof (load_ingress_wf zone kv' (run_sets_wf zone reqs kv Hno)) as Hw.
  destruct (Z.eqb_spec (Z.of_nat (length (load_ingress zone kv'))) 0) as [E|_].
  - destruct (load_ingress zone kv'); [done|]. cbn in E. lia.
  - apply deploy_items_exact; [done|]. apply Forall_forall. intros e He. unfold unseen in He. apply list_elem_of_filter in He as [_ He].
    rewrite Forall_forall in Hw. by apply Hw.
Qed.

(** ** A domain with a path of an instance and a path of an address *)

#[local] Existing Instance no_ip6.
Definition ex_domains : DomainLib := {| suffix_managed := fun _ => true; idna_error := fun _ => None |}.
#[local] Existing Instance ex_domains.
Definition ex_urls : UrlLib :=
  {| url_Parse := fun s => Ok {| u_Scheme := "https"; u_Host := s; u_Path := "/"; u_Rest := "" |};
     url_ParseRequestURI := fun s => Ok {| u_Scheme := "https"; u_Host := s; u_Path := "/"; u_Rest := "" |}; url_String := u_Host |}.
#[local] Existing Instance ex_urls.

Definition ex_web : AppRecord :=
  {| ar_Id := "a"; ar_Name := "web"; ar_Spec := None; ar_RefByInstances := [];
     ar_Deploy := Some {| ad_Action := "start"; ad_Stage := {| Stage.dp_Revision := 1; Stage.dp_Stages := None |};
       ad_CpuLimit := 0; ad_MemoryLimit := 0; ad_VolumeLimit := 0; ad_ReplicaCap := 1; ad_Depends := []; ad_Configs := [];
       ad_Replicas := [{| dr_Id := 0; dr_HostId := "h1"; dr_State := ""; dr_VpcIpv4 := "";
                          dr_ServicePorts := [{| dsp_Name := "http"; dsp_Port := 80; dsp_HostPort := 45000 |}] |}] |} |}.
Definition ex_hosts : KvSet ZoneHost :=
  KvSet_Store "h1" None
    {| zh_Host := {| h_Id := "h1"; h_PeerAddr := "10.0.0.1:9529"; h_Deploy := None |}; zh_AccessKey := ""; zh_Operate := None; zh_Status := None |}
    {| ks_idx := ∅; ks_arr := []; ks_version := 0; ks_ready := false |}.
Definition ex_store : mem_store zone_value :=
  fst (kv_write (V := AppRecord) (mem_empty : mem_store zone_value) {| prev_version := 0; create_only := false; ttl_ms := 0 |} (NsAppInstance "z1" "web") ex_web).
Definition ex_route (path type backend : string) : IngressRoute :=
  {| ir_Path := path; ir_Type := type; ir_Action := GatewayIngressActionEnable; ir_Targets := [{| it_Backend := backend; it_Weight := 0 |}] |}.
Definition ex_request (now : Z) (routes : list IngressRoute) : ingress_request :=
  {| iq_leader := true; iq_now := now; iq_newId := "g1";
     iq_item := Some {| gi_Meta := None; gi_Domain := "Example.com"; gi_Description := ""; gi_Options := None; gi_Action := ""; gi_Routes := routes |} |}.
Definition ex_sets : list ingress_request :=
  [ex_request 100 [ex_route "/" "instance" "web:80"]; ex_request 200 [ex_route "/api/" "upstream" "10.0.0.2:8080"; ex_route "/x" "instance" "gone:80"]].

Lemma ex_no_ingress : no_ingress "z1" ex_store.
Proof.
  intros d it. assert (Hne : NsAppInstance "z1" "web" <> NsZoneletGatewayIngress "z1" d) by (unfold NsAppInstance, NsZoneletGatewayIngress; done).
  assert (E : ex_store = {| mem_next := 2; mem_map := <[NsAppInstance "z1" "web" := Item 1 (Some (ZvApp ex_web))]> ∅ |})
    by (vm_compute; reflexivity).
  assert (M : mem_read ex_store (NsZoneletGatewayIngress "z1" d) = KvNotFound).
  { unfold mem_read. rewrite E. cbn [mem_map]. rewrite lookup_insert_ne by exact Hne. by rewrite lookup_empty. }
  unfold kv_read, zone_Kv. cbn [kv_read mem_Kv]. by rewrite M.
Qed.

Definition ex_listed : list IngressDeploy :=
  [{| gd_Domain := "example.com"; gd_Letsencrypt := false; gd_Revision := 3;
      gd_Routes := [{| gr_Type := "upstream"; gr_Path := "/api"; gr_Targets := [{| it_Backend := "10.0.0.2:8080"; it_Weight := 0 |}] |};
                    {| gr_Type := "instance"; gr_Path := "/"; gr_Targets := [{| it_Backend := "10.0.0.1:45000"; it_Weight := 0 |}] |}] |}].
Lemma ex_apps_deployed : apps_deployed (load_apps "z1" (run_sets "z1" ex_sets ex_store)).
Proof.
  assert (E : load_apps "z1" (run_sets "z1" ex_sets ex_store) = {[ "web" := ex_web ]}) by (vm_compute; reflexivity).
  rewrite E. intros name app [_ <-]%lookup_singleton_Some. by eexists.
Qed.

Lemma deploy_list_exact_witness :
  GatewayIngressDeployList "z1" true ex_hosts 0 (run_sets "z1" ex_sets ex_store) = Ok ex_listed.
Proof.
  etransitivity; [apply (deploy_list_exact (mem_store zone_value) _ _ _ _ _ _ _ _ _ "z1" ex_sets ex_store ex_hosts 0 ex_no_ingress ex_apps_deployed)|].
  vm_compute. reflexivity.
Defined.

Definition ex_item : kv_item GatewayIngress :=
  match kv_read (V := GatewayIngress) (run_sets "z1" ex_sets ex_store) (NsZoneletGatewayIngress "z1" "example.com") with
  | KvOk it => it | _ => Item 0 None end.
Definition ex_ingress : GatewayIngress :=
  {| gi_Meta := Some {| me_Id := "g1"; me_Created := 100; me_Updated := 200; me_Version := 2 |}; gi_Domain := "example.com"; gi_Description := "";
     gi_Options := None; gi_Action := "enable";
     gi_Routes := [ex_route "/x" "instance" "gone:80"; ex_route "/api" "upstream" "10.0.0.2:8080"; ex_route "/" "instance" "web:80"] |}.
Lemma ingress_records_wf_witness : ingress_wf "example.com" ex_ingress.
Proof.
  apply (ingress_records_wf (mem_store zone_value) _ _ _ _ _ _ _ _ "z1" ex_sets ex_store ex_no_ingress "example.com" ex_item ex_ingress);
    vm_compute; reflexivity.
Defined.
