(* ===== verification/Ingate.v ===== *)
(** The gateway [src/cmd/ingate/main.go]: its configuration, the routing table of each
    domain and the refresh against the zone.  Requests are in [IngateHttp].

    The routes, proxies and protos the code shares by pointer never change after they are
    made, except the call counters, which are kept beside the routes under the number of
    the route.  The file of the configuration is its list of domains. *)
From Stdlib Require Import ZArith Lia Ascii.
From S2P Require Import Prelude GoStrings GoFloat GoPath AppNames Auth Zone Gateway.
Local Open Scope string_scope.
Local Open Scope Z_scope.
Local Open Scope go_scope.

(** ** Configuration *)

Record ConfigServer := {
  sv_HttpPort : Z; sv_HttpsPort : Z; sv_ReadTimeout : Z; sv_ReadHeaderTimeout : Z; sv_WriteTimeout : Z; sv_WriteByteTimeout : Z;
  sv_IdleTimeout : Z; sv_MaxBodySize : Z; sv_MaxRespSize : Z; sv_ShutdownTimeout : Z; sv_DebugPprofEnable : bool }.
Record ConfigLimit := { li_Rate : Z; li_Burst : Z; li_IpExpireAfter : Z; li_CleanupSeconds : Z }.
Record ConfigZone := { cz_Name : string; cz_Hosts : list string; cz_AK : string }.
(** [md_handler]: the only handler there is has been set. *)
Record ConfigModule := { md_Module : string; md_Domains : list string; md_Options : gmap string string; md_handler : bool }.

(** [ConfigZone.AccessKey] *)
Definition ConfigZone_AccessKey (c : ConfigZone) : result AccessKey :=
  if bool_decide (cz_AK c = "") then Err "access_key not set" else ParseAccessKey (cz_AK c).

Definition gatewayIngressTypeLocalfs : string := "localfs".
Definition gatewayIngressTypeProxy : string := "proxy".
Definition isLocalRouteType (t : string) : bool := bool_decide (t = gatewayIngressTypeLocalfs) || bool_decide (t = gatewayIngressTypeProxy).

Record DomainEntryRoute := {
  er_id : nat; er_Type : string; er_Path : string; er_Urls : list Url; er_reverseProxy : list Url }.
Record DomainEntry := {
  de_Domain : IngressDeploy; de_Routes : list DomainEntryRoute; de_indexRoutes : gmap string DomainEntryRoute;
  de_setupRevision : Z; de_callCount : gmap nat Z }.

Record Config := {
  cf_Server : ConfigServer; cf_Limit : ConfigLimit; cf_Zone : option ConfigZone;
  cf_Modules : list ConfigModule; cf_indexModules : gmap string ConfigModule;
  cf_Domains : list IngressDeploy; cf_indexDomains : gmap string DomainEntry;
  cf_lastRevision : Z; cf_lastFullUpdated : Z }.

Definition confClampInt64 (v def lo hi : Z) : Z := if v <=? 0 then def else Z.min (Z.max v lo) hi.

Definition setup_server (s : ConfigServer) : ConfigServer :=
  let http := sv_HttpPort s =? 0 in
  {| sv_HttpPort := if http then 80 else sv_HttpPort s;
     sv_HttpsPort := if http && (sv_HttpsPort s =? 0) then 443 else sv_HttpsPort s;
     sv_MaxBodySize := confClampInt64 (sv_MaxBodySize s) (Z.shiftl 16 20) (Z.shiftl 8 20) (Z.shiftl 64 20);
     sv_MaxRespSize := confClampInt64 (sv_MaxRespSize s) (Z.shiftl 1 30) (Z.shiftl 16 20) (Z.shiftl 8 30);
     sv_ReadTimeout := confClampInt64 (sv_ReadTimeout s) 61 3 300;
     sv_ReadHeaderTimeout := confClampInt64 (sv_ReadHeaderTimeout s) 10 3 60;
     sv_WriteTimeout := confClampInt64 (sv_WriteTimeout s) 61 3 300;
     sv_WriteByteTimeout := confClampInt64 (sv_WriteByteTimeout s) 60 5 600;
     sv_IdleTimeout := confClampInt64 (sv_IdleTimeout s) 120 10 600;
     sv_ShutdownTimeout := confClampInt64 (sv_ShutdownTimeout s) 30 1 300;
     sv_DebugPprofEnable := sv_DebugPprofEnable s |}.
Definition positive_or (v def : Z) : Z := if v <=? 0 then def else v.
Definition setup_limit (l : ConfigLimit) : ConfigLimit :=
  {| li_Rate := positive_or (li_Rate l) (100 * 1024); li_Burst := positive_or (li_Burst l) (100 * 1024);
     li_IpExpireAfter := positive_or (li_IpExpireAfter l) 60; li_CleanupSeconds := positive_or (li_CleanupSeconds l) 30 |}.

(** A module of a known name with its mandatory option serves its domains; a later module
    takes a domain from an earlier one. *)
Definition setup_module (m : ConfigModule) : ConfigModule :=
  if bool_decide (md_Module m = "DomainSale") && bool_decide (default "" (md_Options m !! "contact_email") <> "")
  then {| md_Module := md_Module m; md_Domains := md_Domains m; md_Options := md_Options m; md_handler := true |} else m.
Definition index_module (idx : gmap string ConfigModule) (m : ConfigModule) : gmap string ConfigModule :=
  if bool_decide (md_Module m = "DomainSale") && bool_decide (default "" (md_Options m !! "contact_email") <> "")
  then foldl (fun idx d => <[to_lower d := setup_module m]> idx) idx (md_Domains m) else idx.

(** The program's globals: the configuration, whether it is connected to the zone, the
    domains a certificate may be asked for, and the domains in the file. *)
Record ingate := { ig_cfg : Config; ig_zoneConn : bool; ig_tlsDomains : list string; ig_file : list IngressDeploy }.

(** The first file that decodes. *)
Fixpoint first_decoded (files : list (result Config)) : result Config :=
  match files with
  | [] => Err "no file"
  | [f] => f
  | Ok c :: _ => Ok c
  | Err _ :: files => first_decoded files
  end.
(** [connect]: the answer of [client.Connect]. *)
Definition initSetup (files : list (result Config)) (connect : string -> AccessKey -> result unit) (connected : bool) (tls : list string)
  : result ingate :=
  let? c := first_decoded files in
  let cfg := {| cf_Server := setup_server (cf_Server c); cf_Limit := setup_limit (cf_Limit c); cf_Zone := cf_Zone c;
                cf_Modules := map setup_module (cf_Modules c); cf_indexModules := foldl index_module ∅ (cf_Modules c);
                cf_Domains := cf_Domains c; cf_indexDomains := ∅;
                cf_lastRevision := cf_lastRevision c; cf_lastFullUpdated := cf_lastFullUpdated c |} in
  let? conn :=
    match cf_Zone c with
    | Some z =>
      match connected, cz_Hosts z with
      | false, host :: _ =>
        if bool_decide (cz_AK z = "") then Ok false
        else match ConfigZone_AccessKey z with
        | Err e => Err ("invalid access key: " +:+ e)
        | Ok ak => match connect host ak with
                   | Err e => Err ("failed to connect to zone leader " +:+ host +:+ ": " +:+ e)
                   | Ok _ => Ok true
                   end
        end
      | _, _ => Ok connected
      end
    | None => Ok connected
    end in
  Ok {| ig_cfg := cfg; ig_zoneConn := conn; ig_tlsDomains := tls; ig_file := cf_Domains c |}.

(** [Config.Domain] and [Config.Module] *)
Definition Config_Domain (c : Config) (name : string) : option DomainEntry := cf_indexDomains c !! name.
Definition Config_Module (c : Config) (domain : string) : option ConfigModule := cf_indexModules c !! domain.
Definition LetsencryptEnabled (e : DomainEntry) : bool := gd_Letsencrypt (de_Domain e).

(** ** Local routes *)

Definition with_routes (routes : list DeployRoute) (d : IngressDeploy) : IngressDeploy :=
  {| gd_Domain := gd_Domain d; gd_Letsencrypt := gd_Letsencrypt d; gd_Routes := routes; gd_Revision := gd_Revision d |}.
Definition append_local (dst : list DeployRoute) (route : DeployRoute) : list DeployRoute :=
  if negb (isLocalRouteType (gr_Type route)) then dst
  else if List.existsb (fun a => bool_decide (gr_Path a = gr_Path route)) dst then dst
  else (dst ++ [route])%list.
Definition appendLocalRoutes (dst src : list DeployRoute) : list DeployRoute := foldl append_local dst src.
Definition mergeLocalRoutes (e : DomainEntry) (domain : IngressDeploy) : IngressDeploy :=
  with_routes (appendLocalRoutes (gd_Routes domain) (gd_Routes (de_Domain e))) domain.
Definition hasLocalRoutes (e : DomainEntry) : bool :=
  List.existsb (fun route => isLocalRouteType (gr_Type route)) (gd_Routes (de_Domain e)).

(** ** Routes *)

(** [url.Hostname]: without a port of digits, without the brackets of an IPv6 address. *)
Definition Hostname (u : Url) : string :=
  let host := match cut_last ":" (u_Host u) with
              | Some (h, port) => if s_all is_digit port then h else u_Host u
              | None => u_Host u
              end in
  match cut_prefix "[" host with
  | Some inner => match cut_last "]" inner with Some (h, "") => h | _ => host end
  | None => host
  end.

Section routes.
Context {UL : UrlLib} {SS : SortSlice}.

Definition parseProxyTarget (backend : string) : result Url :=
  let s := trim_space backend in
  if bool_decide (s = "") then Err "empty backend"
  else
    let? u := url_Parse (if contains s "://" then s else "http://" +:+ s) in
    if bool_decide (u_Scheme u <> "http") && bool_decide (u_Scheme u <> "https") then Err ("unsupported scheme " +:+ u_Scheme u)
    else if bool_decide (Hostname u = "") then Err "missing host"
    else Ok u.

Definition http_url (host : string) : Url := {| u_Scheme := "http"; u_Host := host; u_Path := ""; u_Rest := "" |}.
Definition proxy_target (tg : IngressTarget) : option Url :=
  match parseProxyTarget (it_Backend tg) with Ok u => Some u | Err _ => None end.

(** The route of the number [id] a location becomes; [isdir] is whether a path is a
    directory. *)
Definition entry_route (isdir : string -> bool) (id : nat) (location : DeployRoute) : option DomainEntryRoute :=
  let route urls proxies :=
    Some {| er_id := id; er_Type := gr_Type location; er_Path := gr_Path location; er_Urls := urls; er_reverseProxy := proxies |} in
  match gr_Targets location with
  | [] => None
  | tg :: rest =>
    if bool_decide (gr_Type location = GatewayIngressType_Instance) || bool_decide (gr_Type location = GatewayIngressType_Upstream) then
      let urls := map (fun tg => http_url (it_Backend tg)) (tg :: rest) in route urls urls
    else if bool_decide (gr_Type location = GatewayIngressType_Redirect) then
      match url_Parse (it_Backend tg) with Ok u => route [u] [] | Err _ => None end
    else if bool_decide (gr_Type location = gatewayIngressTypeLocalfs) then
      match rest with
      | [] =>
        let localPath := Clean (it_Backend tg) in
        if (1 <? slen (it_Backend tg)) && isdir localPath
        then route [{| u_Scheme := ""; u_Host := ""; u_Path := localPath; u_Rest := "" |}] [] else route [] []
      | _ => route [] []
      end
    else if bool_decide (gr_Type location = gatewayIngressTypeProxy) then route [] (omap proxy_target (tg :: rest))
    else None
  end.
Fixpoint entry_routes (isdir : string -> bool) (id : nat) (locations : list DeployRoute) : list DomainEntryRoute :=
  match locations with
  | [] => []
  | location :: locations =>
    match entry_route isdir id location with
    | Some route => route :: entry_routes isdir (S id) locations
    | None => entry_routes isdir id locations
    end
  end.
(** The index of routes made one after the other. *)
Definition route_index (routes : list DomainEntryRoute) : gmap string DomainEntryRoute :=
  foldl (fun idx route => <[er_Path route := route]> idx) ∅ routes.

(** [domainFresh]; the domain it keeps is the one it was given, with the local routes. *)
Definition domainFresh (isdir : string -> bool) (e : DomainEntry) (domain : IngressDeploy) : DomainEntry :=
  let domain := mergeLocalRoutes e domain in
  let routes := entry_routes isdir 0 (gd_Routes domain) in
  {| de_Domain := domain; de_Routes := routes; de_indexRoutes := route_index routes;
     de_setupRevision := gd_Revision domain; de_callCount := ∅ |}.

(** The walk up from a path, with fuel for every step. *)
Fixpoint lookup_index (fuel : nat) (idx : gmap string DomainEntryRoute) (tempPath : string) : option DomainEntryRoute :=
  match fuel with
  | O => None
  | S fuel =>
    match idx !! tempPath with
    | Some route => Some route
    | None =>
      if bool_decide (tempPath = "/") || bool_decide (tempPath = ".") || bool_decide (tempPath = "") then None
      else if bool_decide (Dir tempPath = tempPath) then None
      else lookup_index fuel idx (Dir tempPath)
    end
  end.
Definition lookup (e : DomainEntry) (urlPath : string) : option DomainEntryRoute :=
  match lookup_index (S (S (String.length urlPath))) (de_indexRoutes e) urlPath with
  | Some route => Some route
  | None => last (de_Routes e)
  end.

(** [pickProxy]: the target, and the entry with the counter moved. *)
Definition pickProxy (e : DomainEntry) (route : DomainEntryRoute) : DomainEntry * option Url :=
  let n := Z.of_nat (length (er_reverseProxy route)) in
  if n =? 0 then (e, None)
  else
    let c := u64 (default 0 (de_callCount e !! er_id route) + 1) in
    ({| de_Domain := de_Domain e; de_Routes := de_Routes e; de_indexRoutes := de_indexRoutes e; de_setupRevision := de_setupRevision e;
        de_callCount := <[er_id route := c]> (de_callCount e) |},
     er_reverseProxy route !! Z.to_nat (c mod n)).

(** ** Refresh *)

(** [strings.Compare(a.Path, b.Path) > 0] *)
Definition entry_path_after (a b : DomainEntryRoute) : bool := str_lt (er_Path b) (er_Path a).
Definition sort_routes (e : DomainEntry) : DomainEntry :=
  {| de_Domain := de_Domain e; de_Routes := sort_slice entry_path_after (de_Routes e); de_indexRoutes := de_indexRoutes e;
     de_setupRevision := de_setupRevision e; de_callCount := de_callCount e |}.

(** The variables of the loop over the domains; [rf_seen] are the domains it was given,
    as it leaves them. *)
Record refreshing := {
  rf_index : gmap string DomainEntry; rf_lastRevision : Z; rf_newDomains : list IngressDeploy; rf_tlsDomainSet : list string;
  rf_flush : bool; rf_seen : list IngressDeploy }.
Definition new_domain (domain : IngressDeploy) : DomainEntry :=
  {| de_Domain := domain; de_Routes := []; de_indexRoutes := ∅; de_setupRevision := 0; de_callCount := ∅ |}.
Definition refresh_domain (isdir : string -> bool) (st : refreshing) (domain : IngressDeploy) : refreshing :=
  let name := gd_Domain domain in
  let added := bool_decide (is_Some (rf_index st !! name)) in
  let entry := default (new_domain domain) (rf_index st !! name) in
  let fresh := negb added || (de_setupRevision entry <? gd_Revision domain) in
  let entry := if fresh then domainFresh isdir entry domain else entry in
  let domain := mergeLocalRoutes entry domain in
  let lastRevision := Z.max (rf_lastRevision st) (gd_Revision domain) in
  let flush := rf_flush st || fresh in
  match de_Routes entry with
  | [] =>
    {| rf_index := if added then <[name := entry]> (rf_index st) else rf_index st; rf_lastRevision := lastRevision;
       rf_newDomains := rf_newDomains st; rf_tlsDomainSet := rf_tlsDomainSet st; rf_flush := flush; rf_seen := (rf_seen st ++ [domain])%list |}
  | _ =>
    {| rf_index := <[name := sort_routes entry]> (rf_index st); rf_lastRevision := lastRevision;
       rf_newDomains := (rf_newDomains st ++ [domain])%list;
       rf_tlsDomainSet := if gd_Letsencrypt domain && negb (bool_decide (name ∈ rf_tlsDomainSet st))
                          then (rf_tlsDomainSet st ++ [name])%list else rf_tlsDomainSet st;
       rf_flush := flush; rf_seen := (rf_seen st ++ [domain])%list |}
  end.

(** A configured domain that was not pushed: kept when it has local routes, else deleted. *)
Definition evict_domain (st : list IngressDeploy * gmap string DomainEntry) (domain : IngressDeploy)
  : list IngressDeploy * gmap string DomainEntry :=
  let '(newDomains, index) := st in
  if List.existsb (fun a => bool_decide (gd_Domain a = gd_Domain domain)) newDomains then st
  else match index !! gd_Domain domain with
  | Some entry => if hasLocalRoutes entry then (newDomains ++ [domain], index)%list else (newDomains, delete (gd_Domain domain) index)
  | None => st
  end.

Definition with_index (c : Config) (domains : list IngressDeploy) (index : gmap string DomainEntry) (lastRevision : Z) : Config :=
  {| cf_Server := cf_Server c; cf_Limit := cf_Limit c; cf_Zone := cf_Zone c; cf_Modules := cf_Modules c; cf_indexModules := cf_indexModules c;
     cf_Domains := domains; cf_indexDomains := index; cf_lastRevision := lastRevision; cf_lastFullUpdated := cf_lastFullUpdated c |}.
Definition with_full_updated (c : Config) (tn : Z) : Config :=
  {| cf_Server := cf_Server c; cf_Limit := cf_Limit c; cf_Zone := cf_Zone c; cf_Modules := cf_Modules c; cf_indexModules := cf_indexModules c;
     cf_Domains := cf_Domains c; cf_indexDomains := cf_indexDomains c; cf_lastRevision := cf_lastRevision c; cf_lastFullUpdated := tn |}.
Definition set_cfg (c : Config) (g : ingate) : ingate :=
  {| ig_cfg := c; ig_zoneConn := ig_zoneConn g; ig_tlsDomains := ig_tlsDomains g; ig_file := ig_file g |}.

(** What follows once the domains are known; [own]: they are the configured ones
    themselves, [revision]: what was asked for, [written]: whether the file can be
    written. *)
Definition apply_domains (isdir : string -> bool) (written own : bool) (revision : Z) (domains : list IngressDeploy) (g : ingate)
  : ingate * result unit :=
  let c := ig_cfg g in
  let st := foldl (refresh_domain isdir)
    {| rf_index := cf_indexDomains c; rf_lastRevision := cf_lastRevision c; rf_newDomains := []; rf_tlsDomainSet := [];
       rf_flush := false; rf_seen := [] |} domains in
  let configured := if own then rf_seen st else cf_Domains c in
  let count := Z.of_nat (length (rf_newDomains st)) in
  let full := (revision =? 0) && (negb (count =? Z.of_nat (size (rf_index st))) || negb (count =? Z.of_nat (length configured))) in
  let '(configured, index) := if full then foldl evict_domain (rf_newDomains st, rf_index st) configured else (configured, rf_index st) in
  let tls := if (0 <? sv_HttpsPort (cf_Server c)) && negb (bool_decide (ig_tlsDomains g = rf_tlsDomainSet st))
             then rf_tlsDomainSet st else ig_tlsDomains g in
  let flush := rf_flush st || full in
  ({| ig_cfg := with_index c configured index (rf_lastRevision st); ig_zoneConn := ig_zoneConn g; ig_tlsDomains := tls;
      ig_file := if flush && written then configured else ig_file g |},
   if flush && negb written then Err "write" else Ok tt).

(** [float64(a) / float64(b) < 0.5] *)
Definition less_than_half (a b : Z) : bool := f64_gt (F 1 (-1)) (f64_div (f64_of_int a) (f64_of_int b)).

(** [configRefresh]; [own]: called with [cfg.Domains] rather than nil, [tn]: the time,
    [fetch]: the answer of the zone to a revision. *)
Definition configRefresh (isdir : string -> bool) (written own : bool) (tn : Z) (fetch : Z -> result (list IngressDeploy)) (g : ingate)
  : ingate * result unit :=
  let c := ig_cfg g in
  let domains := if own then cf_Domains c else [] in
  if (Z.of_nat (length domains) =? 0) && ig_zoneConn g then
    let full := (cf_lastFullUpdated c +64 600) <? tn in
    let revision := if full then 0 else cf_lastRevision c in
    let g := if full then set_cfg (with_full_updated c tn) g else g in
    match fetch revision with
    | Err e => (g, Err e)
    | Ok items =>
      let n := Z.of_nat (length items) in
      let m := Z.of_nat (length (cf_Domains c)) in
      if n =? 0 then (g, Ok tt)
      else if (revision =? 0) && (0 <? m) && less_than_half n m then (g, Ok tt)
      else apply_domains isdir written false revision items g
    end
  else apply_domains isdir written own 0 domains g.
End routes.
