(* ===== verification/IngateLogic.v ===== *)
(** Theorems about the gateway's configuration ([Ingate]): a request goes to the deepest
    configured path above it, a refresh changes exactly the domains it should, and the
    routes of the operator stay. *)
From Stdlib Require Import ZArith Lia Ascii Sorted.
From S2P Require Import Prelude GoStrings GoFloat GoPath Auth Zone Gateway GatewayLogic Ingate.
Local Open Scope string_scope.
Local Open Scope Z_scope.
Local Open Scope go_scope.

(** ** Paths above a path *)

(** [u] is [p] or continues it with segments. *)
Definition under (p u : string) : Prop := is_rooted p = true /\ (p = "/" \/ u = p \/ exists t, u = p +:+ "/" +:+ t).

Lemma split_at_cat c a b : split_at c (a +:+ String c b) = (split_at c a ++ split_at c b)%list.
Proof.
  induction a as [|d a IH]; [exact (split_at_app c "" b eq_refl)|].
  change (String d a +:+ String c b) with (String d (a +:+ String c b)). cbn [split_at]. rewrite IH. destruct (isc c d); [done|].
  destruct (split_at c a) as [|w ws] eqn:E; [|done]. by destruct a as [|x a]; cbn in E; [|destruct (isc c x), (split_at c a)].
Qed.
Lemma join_split s : join "/" (split_at "/" s) = s.
Proof.
  induction s as [|d s IH]; [done|]. cbn [split_at]. destruct (split_at "/" s) as [|w ws] eqn:E.
  { by destruct s as [|x s]; cbn in E; [|destruct (isc _ x), (split_at _ s)]. }
  destruct (isc "/" d) eqn:C.
  - apply bool_decide_eq_true in C as <-. rewrite join_cons by done. rewrite IH. done.
  - destruct ws as [|w2 ws]; cbn [join] in *; rewrite <- IH; done.
Qed.
Lemma rooted_inv p : is_rooted p = true -> exists p', p = "/" +:+ p'.
Proof.
  destruct p as [|c p]; [done|]. rewrite rooted_char. intros ->%bool_decide_eq_true. by exists p.
Qed.

Lemma under_take p segs : Forall seg_ok segs -> under p (abs segs) <-> exists k, (k <= length segs)%nat /\ p = abs (take k segs).
Proof.
  intros Hs. split.
  - intros [Hp [->|[<-|[t E]]]].
    + exists 0%nat. split; [lia|done].
    + exists (length segs). split; [done|]. by rewrite firstn_all.
    + destruct (rooted_inv _ Hp) as [p' ->]. pose proof (split_abs segs Hs) as Hsp. rewrite E in Hsp.
      change ("/" +:+ t) with (String "/"%char t) in Hsp. rewrite split_at_cat in Hsp.
      change ("/" +:+ p') with ("" +:+ String "/"%char p') in Hsp. rewrite split_at_app in Hsp by done. cbn [app] in Hsp. injection Hsp as Hsp.
      destruct segs as [|s segs].
      * exists 0%nat. split; [lia|]. destruct (split_at "/" p') as [|a [|]] eqn:E1; cbn in Hsp; [| |done].
        -- by destruct p' as [|x p']; cbn in E1; [|destruct (isc _ x), (split_at _ p')].
        -- injection Hsp as -> E2. by destruct t as [|x t]; cbn in E2; [|destruct (isc _ x), (split_at _ t)].
      * exists (length (split_at "/" p')). split; [rewrite <- Hsp, length_app; lia|]. rewrite <- Hsp, take_app_length.
        unfold abs. by rewrite join_split.
  - intros (k & Hk & ->). split; [apply abs_rooted|]. destruct (decide (k = 0%nat)) as [->|Hk0]; [by left|]. right.
    destruct (decide (k = length segs)) as [->|Hne]; [left; by rewrite firstn_all|]. right.
    exists (join "/" (drop k segs)). rewrite <- (take_drop k segs) at 1. unfold abs. rewrite s_app_assoc. f_equal.
    assert (Ht : take k segs <> []) by (intros E; apply (f_equal length) in E; rewrite length_take in E; cbn in E; lia).
    assert (Hd : drop k segs <> []) by (intros E; apply (f_equal length) in E; rewrite length_drop in E; cbn in E; lia).
    revert Ht Hd. generalize (take k segs) as a, (drop k segs) as b. induction a as [|x a IH]; [done|]. intros b _ Hb.
    destruct a as [|y a].
    + cbn [app]. rewrite join_cons by done. done.
    + change ((x :: y :: a) ++ b)%list with (x :: ((y :: a) ++ b))%list. rewrite !join_cons by done. rewrite IH by done. by rewrite !s_app_assoc.
Qed.

Section lookups.
Implicit Types (idx : gmap string DomainEntryRoute).

Lemma abs_length segs : Forall seg_ok segs -> (length segs <= String.length (abs segs))%nat.
Proof.
  intros Hs. unfold abs. change (String.length ("/" +:+ join "/" segs)) with (S (String.length (join "/" segs))).
  induction segs as [|s [|t segs] IH]; [cbn; lia..|]. apply Forall_cons in Hs as [_ Hs]. specialize (IH Hs).
  rewrite join_cons by done. pose proof (slen_app s ("/" +:+ join "/" (t :: segs))) as E. unfold slen in E. cbn [length] in *.
  change (String.length ("/" +:+ join "/" (t :: segs))) with (S (String.length (join "/" (t :: segs)))) in E. lia.
Qed.

(** The walk finds the deepest path above. *)
Lemma lookup_index_spec idx segs : Forall seg_ok segs -> forall fuel, (length segs < fuel)%nat ->
  match lookup_index fuel idx (abs segs) with
  | Some r => exists k, (k <= length segs)%nat /\ idx !! abs (take k segs) = Some r /\
      forall j, (k < j <= length segs)%nat -> idx !! abs (take j segs) = None
  | None => forall j, (j <= length segs)%nat -> idx !! abs (take j segs) = None
  end.
Proof.
  induction segs as [|s segs IH] using rev_ind; intros Hs [|fuel] Hf; [lia| |lia|]; cbn [lookup_index].
  - destruct (idx !! abs []) as [r|] eqn:E; [exists 0%nat; split_and!; [done|done|cbn; lia]|]. rewrite bool_decide_true by done. cbn [orb].
    intros j Hj. by destruct j; [|cbn in Hj; lia].
  - rewrite length_app in *. cbn [length] in *. set (p := abs (segs ++ [s])%list).
    destruct (idx !! p) as [r|] eqn:E.
    { exists (length segs + 1)%nat. split_and!; [lia| |lia]. rewrite firstn_all2 by (rewrite length_app; cbn; lia). done. }
    assert (Hp : p <> "/" /\ p <> "." /\ p <> "" /\ Dir p <> p).
    { unfold p. rewrite Dir_abs by done. apply Forall_app in Hs as [Hs' [Hsok _]%Forall_cons]. pose proof Hsok as (_ & Hne & _).
      assert (Hap : Forall seg_ok (segs ++ [s])%list) by (apply Forall_app; split; [done|by constructor]).
      split_and!.
      - intros E'. change "/" with (abs []) in E'. apply abs_inj in E'; [|done|constructor]. by destruct segs.
      - pose proof (abs_rooted (segs ++ [s])%list) as Hr. intros E'. by rewrite E' in Hr.
      - pose proof (abs_rooted (segs ++ [s])%list) as Hr. intros E'. by rewrite E' in Hr.
      - intros E'. apply abs_inj in E'; [|done..]. apply (f_equal length) in E'. rewrite length_app in E'. cbn in E'. lia. }
    destruct Hp as (H1 & H2 & H3 & H4). rewrite !bool_decide_false by done. cbn [orb].
    assert (Hs' : Forall seg_ok segs) by (by apply Forall_app in Hs as [? _]).
    assert (Ed : Dir p = abs segs) by (apply Dir_abs; done). rewrite Ed. specialize (IH Hs' fuel ltac:(lia)).
    assert (Et : forall j, (j <= length segs)%nat -> take j (segs ++ [s])%list = take j segs) by (intros; by rewrite take_app_le).
    assert (El : take (length segs + 1) (segs ++ [s])%list = (segs ++ [s])%list) by (apply firstn_all2; rewrite length_app; cbn; lia).
    destruct (lookup_index fuel idx (abs segs)) as [r|].
    + destruct IH as (k & Hk & Hr & Hn). exists k. split_and!; [lia|by rewrite Et|]. intros j Hj.
      destruct (decide (j = length segs + 1)%nat) as [->|]; [by rewrite El|]. rewrite Et by lia. apply Hn. lia.
    + intros j Hj. destruct (decide (j = length segs + 1)%nat) as [->|]; [by rewrite El|]. rewrite Et by lia. apply IH. lia.
Qed.

(** The answer to a clean path, in terms of the paths above it. *)
Lemma lookup_spec (e : DomainEntry) segs : Forall seg_ok segs ->
  (exists p r, de_indexRoutes e !! p = Some r /\ under p (abs segs) /\
     (forall q r', de_indexRoutes e !! q = Some r' -> under q (abs segs) -> under q p) /\ lookup e (abs segs) = Some r) \/
  ((forall q r', de_indexRoutes e !! q = Some r' -> ~ under q (abs segs)) /\ lookup e (abs segs) = last (de_Routes e)).
Proof.
  intros Hs. unfold lookup. pose proof (abs_length segs Hs) as Hl.
  pose proof (lookup_index_spec (de_indexRoutes e) segs Hs (S (S (String.length (abs segs)))) ltac:(lia)) as H.
  destruct (lookup_index _ _ _) as [r|]; [left|right].
  - destruct H as (k & Hk & Hr & Hn). exists (abs (take k segs)), r. split_and!; [done|apply under_take; [done|by eexists]| |done].
    intros q r' Hq (j & Hj & ->)%under_take; [|done]. apply under_take; [by apply Forall_take|]. exists j.
    destruct (decide (j <= k)%nat) as [Hjk|Hjk]; [|rewrite Hn in Hq by lia; done]. rewrite length_take, take_take. split; [lia|]. by rewrite Nat.min_l.
  - split; [|done]. intros q r' Hq (j & Hj & ->)%under_take; [|done]. by rewrite H in Hq.
Qed.
End lookups.

(** ** What a refresh does to a domain *)

Section refreshes.
Context {UL : UrlLib} {SS : SortSlice} {SSL : SortSliceLaws SS}.
Implicit Types (isdir : string -> bool) (index : gmap string DomainEntry).

(** The entry of a domain that is pushed: made anew when it is new or its revision is. *)
Definition refreshed isdir (o : option DomainEntry) (domain : IngressDeploy) : DomainEntry :=
  let e := default (new_domain domain) o in
  if negb (bool_decide (is_Some o)) || (de_setupRevision e <? gd_Revision domain) then domainFresh isdir e domain else e.
Definition routes_none (e : DomainEntry) : bool := match de_Routes e with [] => true | _ => false end.
(** A new domain without a usable route is not added. *)
Definition refreshed_at isdir (o : option DomainEntry) (domain : IngressDeploy) : option DomainEntry :=
  let e := refreshed isdir o domain in
  if routes_none e && negb (bool_decide (is_Some o)) then None else Some (sort_routes e).

Lemma sort_routes_nil e : de_Routes e = [] -> sort_routes e = e.
Proof.
  intros E. destruct e as [d rs idx sr cc]. unfold sort_routes. cbn in *. subst rs. f_equal.
  pose proof (sort_slice_perm _ entry_path_after []) as H. by apply Permutation_nil_r in H.
Qed.

Lemma refresh_index isdir st domain name : rf_index (refresh_domain isdir st domain) !! name =
  if decide (name = gd_Domain domain) then refreshed_at isdir (rf_index st !! name) domain else rf_index st !! name.
Proof.
  unfold refresh_domain, refreshed_at. fold (refreshed isdir (rf_index st !! gd_Domain domain) domain).
  set (e := refreshed isdir (rf_index st !! gd_Domain domain) domain).
  assert (Hn : routes_none e = true -> sort_routes e = e) by (unfold routes_none; destruct (de_Routes e) eqn:E; [intros _; by apply sort_routes_nil|done]).
  case_decide as C.
  - subst name. unfold routes_none in *. fold e. destruct (de_Routes e) eqn:E; cbn [rf_index].
    + case_bool_decide as B; cbn [negb andb]; [by rewrite lookup_insert_eq, Hn|]. destruct (rf_index st !! gd_Domain domain) eqn:E2; [|done].
      destruct B. by eexists.
    + by rewrite lookup_insert_eq.
  - destruct (de_Routes e); cbn [rf_index]; [case_bool_decide; [by rewrite lookup_insert_ne|done]|by rewrite lookup_insert_ne].
Qed.
Lemma refresh_new isdir st domain : map gd_Domain (rf_newDomains (refresh_domain isdir st domain)) =
  (map gd_Domain (rf_newDomains st) ++
   (if routes_none (refreshed isdir (rf_index st !! gd_Domain domain) domain) then [] else [gd_Domain domain]))%list.
Proof.
  unfold refresh_domain. fold (refreshed isdir (rf_index st !! gd_Domain domain) domain). unfold routes_none.
  destruct (de_Routes _); cbn [rf_newDomains]; [by rewrite app_nil_r|]. by rewrite List.map_app.
Qed.

Lemma filter_ext_in {A} (P Q : A -> Prop) `{!forall x, Decision (P x)} `{!forall x, Decision (Q x)} (l : list A) :
  (forall x, x ∈ l -> P x <-> Q x) -> filter P l = filter Q l.
Proof.
  induction l as [|a l IH]; intros Heq; [done|]. rewrite !filter_cons, IH by (intros; by apply Heq, list_elem_of_further).
  apply decide_ext, Heq, list_elem_of_here.
Qed.

Definition pushed (name : string) (domains : list IngressDeploy) : option IngressDeploy :=
  List.find (fun d => bool_decide (gd_Domain d = name)) domains.
Lemma pushed_none name domains : name ∉ map gd_Domain domains -> pushed name domains = None.
Proof.
  induction domains as [|d l IH]; [done|]. cbn [map]. intros [Hne Hn]%not_elem_of_cons. unfold pushed. cbn [List.find].
  rewrite bool_decide_false by congruence. by apply IH.
Qed.
(** The domains of a refresh that are served after it. *)
Definition served isdir index (domains : list IngressDeploy) : list string :=
  map gd_Domain (filter (fun d => routes_none (refreshed isdir (index !! gd_Domain d) d) = false) domains).

Lemma refresh_fold_index isdir domains : NoDup (map gd_Domain domains) -> forall st name,
  rf_index (foldl (refresh_domain isdir) st domains) !! name =
  match pushed name domains with Some d => refreshed_at isdir (rf_index st !! name) d | None => rf_index st !! name end.
Proof.
  induction domains as [|d l IH]; intros Hnd st name; [done|]. cbn [map foldl] in *. apply NoDup_cons in Hnd as [Hnin Hnd].
  rewrite IH by done. unfold pushed. cbn [List.find]. fold (pushed name l). rewrite refresh_index. case_decide as C.
  - rewrite bool_decide_true by done. subst name. by rewrite pushed_none.
  - by rewrite bool_decide_false by done.
Qed.
Lemma refresh_fold_new isdir domains : NoDup (map gd_Domain domains) -> forall st,
  map gd_Domain (rf_newDomains (foldl (refresh_domain isdir) st domains)) =
  (map gd_Domain (rf_newDomains st) ++ served isdir (rf_index st) domains)%list.
Proof.
  induction domains as [|d l IH]; intros Hnd st; [by rewrite app_nil_r|]. cbn [map foldl] in *. apply NoDup_cons in Hnd as [Hnin Hnd].
  rewrite IH by done. rewrite refresh_new, <- app_assoc. f_equal. unfold served.
  assert (E : filter (fun d' => routes_none (refreshed isdir (rf_index (refresh_domain isdir st d) !! gd_Domain d') d') = false) l =
              filter (fun d' => routes_none (refreshed isdir (rf_index st !! gd_Domain d') d') = false) l).
  { apply filter_ext_in. intros d' Hd'. rewrite refresh_index. rewrite decide_False; [done|].
    intros E. apply Hnin. rewrite <- E. by apply list_elem_of_fmap_2. }
  rewrite E, filter_cons. destruct (routes_none (refreshed isdir _ d)).
  - by rewrite decide_False.
  - by rewrite decide_True.
Qed.

(** What the deletion of configured domains leaves. *)
Definition kept (o : option DomainEntry) : bool := match o with Some e => hasLocalRoutes e | None => false end.
Lemma evict_index configured : forall newDomains index name,
  snd (foldl evict_domain (newDomains, index) configured) !! name =
  if decide (name ∈ map gd_Domain configured /\ (name ∉ map gd_Domain newDomains) /\ (kept (index !! name)) = false) then None else index !! name.
Proof.
  induction configured as [|d l IH]; intros newDomains index name; cbn [foldl map].
  { rewrite decide_False; [done|]. by intros [?%elem_of_nil _]. }
  unfold evict_domain at 2. destruct (List.existsb _ newDomains) eqn:C.
  - rewrite IH. apply List.existsb_exists in C as (a & Ha & E). apply bool_decide_eq_true in E. apply list_elem_of_In in Ha.
    apply decide_ext. rewrite elem_of_cons. split; [by intuition|]. intros ([->|?] & Hn & ?); [|by intuition]. destruct Hn. rewrite <- E. by apply list_elem_of_fmap_2.
  - assert (Hnin : gd_Domain d ∉ map gd_Domain newDomains).
    { intros (a & E & Ha)%list_elem_of_fmap. apply not_true_iff_false in C. destruct C. apply List.existsb_exists. exists a.
      split; [by apply list_elem_of_In|by apply bool_decide_eq_true]. }
    destruct (index !! gd_Domain d) as [e|] eqn:E; [destruct (hasLocalRoutes e) eqn:L|].
    + rewrite IH, List.map_app. cbn [map]. apply decide_ext. rewrite elem_of_cons, elem_of_app, list_elem_of_singleton. split; [by intuition|].
      intros ([->|?] & Hn & Hk); [by rewrite E in Hk; cbn in Hk; congruence|]. split_and!; [done| |done]. intros [?| ->]; [done|].
      by rewrite E in Hk; cbn in Hk; congruence.
    + rewrite IH. destruct (decide (name = gd_Domain d)) as [->|Hne].
      * rewrite lookup_delete_eq, E. rewrite (decide_True (P := _ /\ _ /\ kept (Some e) = false)) by (split_and!; [apply list_elem_of_here|done|done]).
        by destruct (decide _).
      * rewrite lookup_delete_ne by done. apply decide_ext. rewrite elem_of_cons. by intuition.
    + rewrite IH. destruct (decide (name = gd_Domain d)) as [->|Hne]; [rewrite E; by do 2 destruct (decide _)|].
      apply decide_ext. rewrite elem_of_cons. by intuition.
Qed.

(** The domains of the configuration a refresh deletes: in a full refresh, those that are
    not served and have no route of the operator. *)
Definition replaces (revision : Z) (newDomains : list string) (index : gmap string DomainEntry) (configured : list IngressDeploy) : bool :=
  (revision =? 0) && (negb (Z.of_nat (length newDomains) =? Z.of_nat (size index)) ||
                      negb (Z.of_nat (length newDomains) =? Z.of_nat (length configured))).

Lemma apply_index isdir written revision domains (g : ingate) name : NoDup (map gd_Domain domains) ->
  let c := ig_cfg g in
  let index' := cf_indexDomains (ig_cfg (fst (apply_domains isdir written false revision domains g))) in
  let o := match pushed name domains with Some d => refreshed_at isdir (cf_indexDomains c !! name) d | None => cf_indexDomains c !! name end in
  exists index1, (forall n, index1 !! n = match pushed n domains with Some d => refreshed_at isdir (cf_indexDomains c !! n) d
                                           | None => cf_indexDomains c !! n end) /\
  index' !! name =
    if decide (replaces revision (served isdir (cf_indexDomains c) domains) index1 (cf_Domains c) = true /\
               name ∈ map gd_Domain (cf_Domains c) /\ (name ∉ served isdir (cf_indexDomains c) domains) /\ kept o = false)
    then None else o.
Proof.
  intros Hnd c. set (st0 := {| rf_index := cf_indexDomains c; rf_lastRevision := cf_lastRevision c; rf_newDomains := []; rf_tlsDomainSet := [];
       rf_flush := false; rf_seen := [] |}).
  exists (rf_index (foldl (refresh_domain isdir) st0 domains)). split; [intros n; by rewrite refresh_fold_index|].
  unfold apply_domains. fold c st0. set (st := foldl (refresh_domain isdir) st0 domains).
  pose proof (refresh_fold_new isdir domains Hnd st0) as En. fold st in En. cbn [st0 rf_newDomains rf_index map app] in En.
  assert (Ei : rf_index st !! name = match pushed name domains with Some d => refreshed_at isdir (cf_indexDomains c !! name) d | None => cf_indexDomains c !! name end)
    by (unfold st; by rewrite refresh_fold_index).
  unfold replaces. rewrite <- En, List.length_map. destruct ((revision =? 0) && _) eqn:F.
  - pose proof (evict_index (cf_Domains c) (rf_newDomains st) (rf_index st) name) as Ev.
    destruct (foldl evict_domain _ _) as [configured index]. cbn [fst ig_cfg with_index cf_indexDomains snd] in *. rewrite Ev, Ei.
    apply decide_ext. by intuition.
  - cbn [fst ig_cfg with_index cf_indexDomains]. rewrite Ei. rewrite decide_False; [done|]. by intros [? _].
Qed.

(** ** Every history *)

(** The routing table of an entry is made of its own domain, in descending order. *)
Definition entry_good (name : string) (e : DomainEntry) : Prop :=
  gd_Domain (de_Domain e) = name /\ de_setupRevision e = gd_Revision (de_Domain e) /\
  exists isdir, de_Routes e ≡ₚ entry_routes isdir 0 (gd_Routes (de_Domain e)) /\
    de_indexRoutes e = route_index (entry_routes isdir 0 (gd_Routes (de_Domain e))) /\
    StronglySorted (fun a b => entry_path_after b a = false) (de_Routes e).
Definition index_good index : Prop := forall name e, index !! name = Some e -> entry_good name e.

Lemma entry_path_after_weak : strict_weak entry_path_after.
Proof.
  unfold entry_path_after. split; [|split].
  - intros x. apply str_lt_irrefl.
  - intros x y z H1 H2. by eapply str_lt_trans.
  - intros x y z H1 H2. destruct (str_lt (er_Path z) (er_Path x)) eqn:E; [|done]. destruct (str_lt (er_Path y) (er_Path x)) eqn:E2; [done|].
    destruct (String.compare (er_Path y) (er_Path x)) eqn:C.
    + apply String.compare_eq_iff in C. congruence.
    + unfold str_lt, String.ltb in E2. by rewrite C in E2.
    + assert (Hxy : str_lt (er_Path x) (er_Path y) = true) by (unfold str_lt, String.ltb; by rewrite String.compare_antisym, C).
      by rewrite (str_lt_trans _ _ _ E Hxy) in H2.
Qed.
Lemma sort_routes_good name e : gd_Domain (de_Domain e) = name -> de_setupRevision e = gd_Revision (de_Domain e) ->
  (exists isdir, de_Routes e ≡ₚ entry_routes isdir 0 (gd_Routes (de_Domain e)) /\
     de_indexRoutes e = route_index (entry_routes isdir 0 (gd_Routes (de_Domain e)))) -> entry_good name (sort_routes e).
Proof.
  intros Hn Hr (isdir & Hp & Hi). split_and!; [done..|]. exists isdir. split_and!; [|done|].
  - cbn [sort_routes de_Routes]. rewrite (sort_slice_perm _ entry_path_after (de_Routes e)). exact Hp.
  - apply sort_slice_sorted, entry_path_after_weak.
Qed.
Lemma refreshed_good isdir index domain e : index_good index -> refreshed_at isdir (index !! gd_Domain domain) domain = Some e ->
  entry_good (gd_Domain domain) e.
Proof.
  intros Hg. unfold refreshed_at. destruct (_ && _); [done|]. intros [= <-]. unfold refreshed. destruct (negb _ || _) eqn:C.
  - apply sort_routes_good; [done..|]. exists isdir. done.
  - destruct (index !! gd_Domain domain) as [e0|] eqn:E; [|done]. destruct (Hg _ _ E) as (H1 & H2 & isdir0 & H3 & H4 & _).
    apply sort_routes_good; [done..|]. by exists isdir0.
Qed.
Lemma refresh_fold_good isdir domains : forall st, index_good (rf_index st) -> index_good (rf_index (foldl (refresh_domain isdir) st domains)).
Proof.
  induction domains as [|d l IH]; intros st Hg; [done|]. cbn [foldl]. apply IH. intros name e. rewrite refresh_index. case_decide as C; [|by apply Hg].
  subst name. by apply refreshed_good.
Qed.
Lemma evict_good configured newDomains index : index_good index -> index_good (snd (foldl evict_domain (newDomains, index) configured)).
Proof. intros Hg name e. rewrite evict_index. case_decide; [done|]. by apply Hg. Qed.

Lemma apply_good isdir written own revision domains g : index_good (cf_indexDomains (ig_cfg g)) ->
  index_good (cf_indexDomains (ig_cfg (fst (apply_domains isdir written own revision domains g)))).
Proof.
  intros Hg. unfold apply_domains. set (st := foldl _ _ domains).
  assert (Hst : index_good (rf_index st)) by (by apply refresh_fold_good). destruct (_ && _).
  - set (configured := if own then rf_seen st else cf_Domains (ig_cfg g)). pose proof (evict_good configured (rf_newDomains st) (rf_index st) Hst) as He.
    by destruct (foldl evict_domain _ _).
  - done.
Qed.

(** A refresh, and a proxied request that moves a counter. *)
Inductive gateway_step : ingate -> ingate -> Prop :=
| step_refresh isdir written own tn fetch g : gateway_step g (fst (configRefresh isdir written own tn fetch g))
| step_pick name e route g : cf_indexDomains (ig_cfg g) !! name = Some e ->
    gateway_step g (set_cfg (with_index (ig_cfg g) (cf_Domains (ig_cfg g)) (<[name := fst (pickProxy e route)]> (cf_indexDomains (ig_cfg g)))
                               (cf_lastRevision (ig_cfg g))) g).
Definition gateway_start (g : ingate) : Prop := cf_indexDomains (ig_cfg g) = ∅.

Lemma refresh_good isdir written own tn fetch g : index_good (cf_indexDomains (ig_cfg g)) ->
  index_good (cf_indexDomains (ig_cfg (fst (configRefresh isdir written own tn fetch g)))).
Proof.
  intros Hg. unfold configRefresh. destruct (_ && _); [|by apply apply_good].
  set (g1 := if _ <? tn then set_cfg _ _ else _). assert (Hg1 : index_good (cf_indexDomains (ig_cfg g1))) by (unfold g1; by destruct (_ <? tn)).
  destruct (fetch _) as [items|]; [|done]. destruct (_ =? 0); [done|]. destruct (_ && _); [done|]. by apply apply_good.
Qed.
Lemma pick_good name e route : entry_good name e -> entry_good name (fst (pickProxy e route)).
Proof. intros Hg. unfold pickProxy. by destruct (_ =? 0). Qed.
Lemma reached_good g0 g : gateway_start g0 -> rtc gateway_step g0 g -> index_good (cf_indexDomains (ig_cfg g)).
Proof.
  intros Hs Hr. assert (H0 : index_good (cf_indexDomains (ig_cfg g0))) by (unfold gateway_start in Hs; rewrite Hs; done). clear Hs.
  induction Hr as [g|g1 g2 g3 H12 _ IH]; [done|]. apply IH. destruct H12 as [|name e route g He]; [by apply refresh_good|].
  intros n e'. cbn. intros [[<- <-]|[_ Hl]]%lookup_insert_Some; [by apply pick_good, H0|by apply H0].
Qed.

(** The index of routes made in order: the last one of a path. *)
Lemma route_index_path routes p r : route_index routes !! p = Some r -> er_Path r = p /\ r ∈ routes.
Proof.
  unfold route_index. induction routes as [|a l IH] using rev_ind; [done|]. rewrite foldl_app. cbn [foldl].
  intros [[<- <-]|[_ Hl]]%lookup_insert_Some; rewrite elem_of_app.
  - split; [done|]. right. apply list_elem_of_here.
  - destruct (IH Hl). split; [done|by left].
Qed.
Lemma route_index_in routes r : r ∈ routes -> is_Some (route_index routes !! er_Path r).
Proof.
  unfold route_index. induction routes as [|a l IH] using rev_ind; [by intros ?%elem_of_nil|]. rewrite foldl_app. cbn [foldl].
  intros [Hin| ->%list_elem_of_singleton]%elem_of_app.
  - destruct (decide (er_Path a = er_Path r)) as [->|]; [rewrite lookup_insert_eq; by eexists|]. rewrite lookup_insert_ne by done. by apply IH.
  - rewrite lookup_insert_eq. by eexists.
Qed.
Lemma last_least routes r : StronglySorted (fun a b => entry_path_after b a = false) routes -> last routes = Some r ->
  forall r', r' ∈ routes -> str_lt (er_Path r') (er_Path r) = false.
Proof.
  intros Hs Hl r' Hr'. destruct routes as [|x routes _] using rev_ind; [done|]. rewrite last_snoc in Hl. injection Hl as ->.
  apply elem_of_app in Hr' as [Hr'|Hr'%list_elem_of_singleton]; [|subst; apply str_lt_irrefl].
  apply list_elem_of_split in Hr' as (l1 & l2 & ->). rewrite <- app_assoc in Hs. cbn [app] in Hs. clear -Hs. induction l1 as [|a l1 IH]; cbn [app] in Hs.
  - apply StronglySorted_inv in Hs as [_ Hf]. rewrite Forall_forall in Hf. apply (Hf r). apply elem_of_app. right. apply list_elem_of_here.
  - apply StronglySorted_inv in Hs as [Hs _]. by apply IH.
Qed.

(** The number of served domains tells whether one is missing. *)
Lemma missing_counted isdir index1 index domains name e : NoDup (map gd_Domain domains) ->
  (forall n, index1 !! n = match pushed n domains with Some d => refreshed_at isdir (index !! n) d | None => index !! n end) ->
  index1 !! name = Some e -> (name ∉ served isdir index domains) ->
  (Z.of_nat (length (served isdir index domains)) =? Z.of_nat (size index1)) = false.
Proof.
  intros Hnd H1 He Hn. apply Z.eqb_neq. enough (length (served isdir index domains) < size index1)%nat by lia.
  assert (Hsub : list_to_set (served isdir index domains) ⊆@{gset string} dom index1 ∖ {[name]}).
  { intros n [d [-> Hd]]%elem_of_list_to_set%list_elem_of_fmap. apply list_elem_of_filter in Hd as [Hr Hd]. rewrite elem_of_difference, elem_of_dom, not_elem_of_singleton.
    split.
    - rewrite H1. assert (Ep : pushed (gd_Domain d) domains = Some d).
      { clear -Hnd Hd. induction domains as [|d' l IH]; [by apply elem_of_nil in Hd|]. cbn [map] in Hnd. apply NoDup_cons in Hnd as [Hnin Hnd].
        unfold pushed. cbn [List.find]. apply elem_of_cons in Hd as [->|Hd]; [by rewrite bool_decide_true|].
        rewrite bool_decide_false; [by apply IH|]. intros E. apply Hnin. rewrite E. by apply list_elem_of_fmap_2. }
      rewrite Ep. unfold refreshed_at. rewrite Hr. cbn [andb]. by eexists.
    - intros E. apply Hn. rewrite <- E. apply list_elem_of_fmap_2. by apply list_elem_of_filter. }
  assert (Hs : NoDup (served isdir index domains)).
  { clear -Hnd. unfold served. induction domains as [|d l IH]; [constructor|]. cbn [map] in Hnd. apply NoDup_cons in Hnd as [Hnin Hnd].
    rewrite filter_cons. case_decide; [|by apply IH]. cbn [map]. constructor; [|by apply IH]. intros (d' & E & Hd')%list_elem_of_fmap.
    apply list_elem_of_filter in Hd' as [_ Hd']. apply Hnin. rewrite E. by apply list_elem_of_fmap_2. }
  apply subseteq_size in Hsub. rewrite size_list_to_set in Hsub by done. rewrite size_difference, size_singleton, size_dom in Hsub.
  - assert (size index1 <> 0)%nat by (intros E%map_size_empty_inv; by rewrite E in He). lia.
  - apply singleton_subseteq_l, elem_of_dom. by eexists.
Qed.

Lemma apply_exact isdir written revision domains g name : NoDup (map gd_Domain domains) ->
  let index := cf_indexDomains (ig_cfg g) in
  let o := match pushed name domains with Some d => refreshed_at isdir (index !! name) d | None => index !! name end in
  cf_indexDomains (ig_cfg (fst (apply_domains isdir written false revision domains g))) !! name =
    if decide (revision = 0 /\ name ∈ map gd_Domain (cf_Domains (ig_cfg g)) /\ (name ∉ served isdir index domains) /\ kept o = false)
    then None else o.
Proof.
  intros Hnd index o. destruct (apply_index isdir written revision domains g name Hnd) as (index1 & H1 & ->). change (cf_indexDomains (ig_cfg g)) with index in H1.
  change (cf_indexDomains (ig_cfg g)) with index. change (match pushed name domains with Some d => refreshed_at isdir (index !! name) d | None => index !! name end) with o.
  destruct (decide (revision = 0 /\ _)) as [(-> & Hc & Hn & Hk)|C].
  - destruct (decide _) as [_|C]; [done|]. destruct o as [e|] eqn:Eo; [|done]. destruct C. split; [|done].
    unfold replaces. rewrite (missing_counted isdir index1 index domains name e); [done|done|done| |done]. by rewrite H1.
  - rewrite decide_False; [done|]. intros (Hr & ? & ? & ?). apply C. split; [|done]. unfold replaces in Hr. apply andb_true_iff in Hr as [Hr _]. by apply Z.eqb_eq.
Qed.

(** What a refresh at [tn] asks the zone for. *)
Definition asked (tn : Z) (g : ingate) : Z :=
  if (cf_lastFullUpdated (ig_cfg g) +64 600) <? tn then 0 else cf_lastRevision (ig_cfg g).

(** ** The routes of the operator *)

Lemma append_local_path p src : forall dst,
  filter (fun r => gr_Path r = p) (appendLocalRoutes dst src) =
  match filter (fun r => gr_Path r = p) dst with
  | [] => take 1 (filter (fun r => gr_Path r = p /\ isLocalRouteType (gr_Type r) = true) src)
  | l => l
  end.
Proof.
  induction src as [|a src IH]; intros dst; cbn [appendLocalRoutes foldl].
  - by destruct (filter _ dst).
  - fold (appendLocalRoutes (append_local dst a) src). rewrite IH. unfold append_local. rewrite filter_cons.
    destruct (isLocalRouteType (gr_Type a)) eqn:L; cbn [negb].
    + destruct (List.existsb _ dst) eqn:X.
      * destruct (filter (fun r => gr_Path r = p) dst) eqn:F; [|done]. rewrite decide_False; [done|]. intros [E _].
        apply List.existsb_exists in X as (x & Hx & Ex). apply bool_decide_eq_true in Ex. apply list_elem_of_In in Hx.
        assert (Hin : x ∈ filter (fun r => gr_Path r = p) dst) by (apply list_elem_of_filter; split; [congruence|done]). rewrite F in Hin. by apply elem_of_nil in Hin.
      * rewrite filter_app, filter_cons, filter_nil. case_decide as C.
        -- assert (F : filter (fun r => gr_Path r = p) dst = []).
           { destruct (filter (fun r => gr_Path r = p) dst) as [|x l] eqn:F; [done|]. apply not_true_iff_false in X. destruct X. apply List.existsb_exists. exists x.
             assert (Hin : x ∈ filter (fun r => gr_Path r = p) dst) by (rewrite F; apply list_elem_of_here). apply list_elem_of_filter in Hin as [Ex Hin].
             split; [by apply list_elem_of_In|]. apply bool_decide_eq_true. congruence. }
           rewrite F. cbn [app]. rewrite (decide_True (P := gr_Path a = p /\ true = true)) by done. by rewrite firstn_cons, firstn_O.
        -- rewrite app_nil_r. rewrite (decide_False (P := gr_Path a = p /\ _)) by (by intros [? _]). done.
    + rewrite (decide_False (P := gr_Path a = p /\ _)) by (by intros [_ ?]). done.
Qed.

(** The one route an entry has under a path is the local route [l]. *)
Definition local_at (p : string) (l : DeployRoute) (e : DomainEntry) : Prop :=
  filter (fun r => gr_Path r = p) (gd_Routes (de_Domain e)) = [l].
Definition never_pushes (name p : string) (domains : list IngressDeploy) : Prop :=
  forall d, d ∈ domains -> gd_Domain d = name -> p ∉ map gr_Path (gd_Routes d).

Lemma not_pushed_filter p routes : p ∉ map gr_Path routes -> filter (fun r => gr_Path r = p) routes = [].
Proof.
  intros Hn. induction routes as [|r l IH]; [done|]. cbn [map] in Hn. apply not_elem_of_cons in Hn as [Hne Hn]. rewrite filter_cons, decide_False by done. by apply IH.
Qed.
Lemma local_refresh p l isdir (e : DomainEntry) domain : gr_Path l = p -> isLocalRouteType (gr_Type l) = true ->
  p ∉ map gr_Path (gd_Routes domain) -> local_at p l e -> local_at p l (domainFresh isdir e domain).
Proof.
  intros Hp Hl Hn Ha. unfold local_at, domainFresh. cbn [de_Domain mergeLocalRoutes with_routes gd_Routes].
  rewrite append_local_path, not_pushed_filter by done. unfold local_at in Ha.
  assert (E : filter (fun r => gr_Path r = p /\ isLocalRouteType (gr_Type r) = true) (gd_Routes (de_Domain e)) = [l]).
  { assert (G : forall rs : list DeployRoute, filter (fun r => gr_Path r = p /\ isLocalRouteType (gr_Type r) = true) rs =
        filter (fun r => isLocalRouteType (gr_Type r) = true) (filter (fun r => gr_Path r = p) rs)).
    { induction rs as [|r rs IH]; [done|]. rewrite !filter_cons. case_decide as C.
      - destruct C. rewrite (decide_True (P := gr_Path r = p)) by done. rewrite filter_cons, decide_True by done. by rewrite IH.
      - destruct (decide (gr_Path r = p)); [|done]. rewrite filter_cons, decide_False by tauto. done. }
    rewrite G, Ha, filter_cons, decide_True by done. done. }
  by rewrite E.
Qed.
Definition holds_local (name p : string) (l : DeployRoute) index : Prop := exists e, index !! name = Some e /\ local_at p l e.

Lemma local_fold isdir name p l domains : gr_Path l = p -> isLocalRouteType (gr_Type l) = true -> never_pushes name p domains ->
  forall st, holds_local name p l (rf_index st) -> holds_local name p l (rf_index (foldl (refresh_domain isdir) st domains)).
Proof.
  intros Hp Hl. induction domains as [|d ds IH]; intros Hn st Hh; [done|]. cbn [foldl].
  apply IH; [intros d' Hd'; by apply Hn, list_elem_of_further|]. destruct Hh as (e & He & Ha). unfold holds_local. rewrite refresh_index. case_decide as C; [|by eexists].
  subst name. unfold refreshed_at. rewrite He. rewrite (bool_decide_true (is_Some _)) by (by eexists). cbn [negb]. rewrite andb_false_r.
  eexists. split; [done|]. unfold local_at. cbn [sort_routes de_Domain]. fold (local_at (gr_Path l) l (refreshed isdir (Some e) d)).
  unfold refreshed. rewrite bool_decide_true by (by eexists). cbn [negb orb default]. destruct (_ <? _); subst p; [|done].
  apply local_refresh; [done|done| |done]. apply Hn; [apply list_elem_of_here|done].
Qed.
Lemma local_kept p l (e : DomainEntry) : isLocalRouteType (gr_Type l) = true -> local_at p l e -> hasLocalRoutes e = true.
Proof.
  intros Hl Ha. apply List.existsb_exists. exists l. split; [|done]. apply list_elem_of_In.
  assert (H : l ∈ filter (fun r => gr_Path r = p) (gd_Routes (de_Domain e))) by (rewrite Ha; apply list_elem_of_here). by apply list_elem_of_filter in H as [_ H].
Qed.
Lemma local_apply isdir written own revision name p l domains g : gr_Path l = p -> isLocalRouteType (gr_Type l) = true -> never_pushes name p domains ->
  holds_local name p l (cf_indexDomains (ig_cfg g)) ->
  holds_local name p l (cf_indexDomains (ig_cfg (fst (apply_domains isdir written own revision domains g)))).
Proof.
  intros Hp Hl Hn Hh. unfold apply_domains. set (st := foldl _ _ domains).
  assert (Hst : holds_local name p l (rf_index st)) by (by apply local_fold). destruct (_ && _); [|done].
  set (configured := if own then _ else _). pose proof (evict_index configured (rf_newDomains st) (rf_index st) name) as Ev.
  destruct (foldl evict_domain _ _) as [cs index]. cbn [snd fst ig_cfg with_index cf_indexDomains] in *. destruct Hst as (e & He & Ha).
  exists e. split; [|done]. rewrite Ev, He, decide_False; [done|]. cbn [kept]. intros (_ & _ & Hk). by rewrite (local_kept p l) in Hk.
Qed.

(** One periodic refresh of the gateway. *)
Record round := { ro_isdir : string -> bool; ro_written : bool; ro_tn : Z; ro_fetch : Z -> result (list IngressDeploy) }.
Definition run_round (g : ingate) (r : round) : ingate := fst (configRefresh (ro_isdir r) (ro_written r) false (ro_tn r) (ro_fetch r) g).

Lemma local_round name p l r g : gr_Path l = p -> isLocalRouteType (gr_Type l) = true ->
  (forall rev items, ro_fetch r rev = Ok items -> never_pushes name p items) ->
  holds_local name p l (cf_indexDomains (ig_cfg g)) -> holds_local name p l (cf_indexDomains (ig_cfg (run_round g r))).
Proof.
  intros Hp Hl Hn Hh. unfold run_round, configRefresh. cbn [negb]. destruct (_ && _); [|apply local_apply; [done..|by intros d ?%elem_of_nil|done]].
  set (g1 := if _ <? ro_tn r then set_cfg _ _ else _).
  assert (Hh1 : holds_local name p l (cf_indexDomains (ig_cfg g1))) by (unfold g1; by destruct (_ <? ro_tn r)).
  destruct (ro_fetch r _) as [items|] eqn:E; [|done]. destruct (_ =? 0); [done|]. destruct (_ && _); [done|]. apply local_apply; [done..| |done]. by eapply Hn.
Qed.

Lemma entry_route_of isdir id location r : entry_route isdir id location = Some r -> er_Path r = gr_Path location /\ er_Type r = gr_Type location.
Proof.
  unfold entry_route. destruct (gr_Targets location) as [|tg rest]; [done|]. destruct (_ || _); [by intros [= <-]|].
  case_bool_decide; [destruct (url_Parse _); [by intros [= <-]|done]|].
  case_bool_decide; [destruct rest; [destruct (_ && _)|]; by intros [= <-]|]. case_bool_decide; [by intros [= <-]|done].
Qed.
Lemma entry_route_local isdir id location : isLocalRouteType (gr_Type location) = true -> gr_Targets location <> [] ->
  is_Some (entry_route isdir id location).
Proof.
  intros Hl Ht. unfold entry_route. destruct (gr_Targets location) as [|tg rest]; [done|]. destruct (_ || _); [by eexists|].
  assert (Hnr : gr_Type location <> GatewayIngressType_Redirect) by (intros E; rewrite E in Hl; by vm_compute in Hl).
  rewrite bool_decide_false by done. unfold isLocalRouteType in Hl. case_bool_decide; [destruct rest; [destruct (_ && _)|]; by eexists|].
  cbn [orb] in Hl. rewrite Hl. by eexists.
Qed.
Lemma entry_routes_from isdir locations r : forall id, r ∈ entry_routes isdir id locations ->
  exists location id', location ∈ locations /\ entry_route isdir id' location = Some r.
Proof.
  induction locations as [|a l IH]; intros id; cbn [entry_routes]; [by intros ?%elem_of_nil|]. destruct (entry_route isdir id a) as [r0|] eqn:E.
  - intros [->|Hin]%elem_of_cons; [exists a, id; split; [apply list_elem_of_here|done]|]. destruct (IH _ Hin) as (x & id' & Hx & Ex).
    exists x, id'. split; [by apply list_elem_of_further|done].
  - intros Hin. destruct (IH _ Hin) as (x & id' & Hx & Ex). exists x, id'. split; [by apply list_elem_of_further|done].
Qed.
Lemma entry_routes_in isdir locations location : location ∈ locations -> isLocalRouteType (gr_Type location) = true -> gr_Targets location <> [] ->
  forall id, exists r, r ∈ entry_routes isdir id locations /\ er_Path r = gr_Path location.
Proof.
  intros Hin Hl Ht. induction locations as [|a l IH]; intros id; [by apply elem_of_nil in Hin|]. cbn [entry_routes]. apply elem_of_cons in Hin as [->|Hin].
  - destruct (entry_route_local isdir id a Hl Ht) as [r E]. rewrite E. exists r. split; [apply list_elem_of_here|]. by apply entry_route_of in E as [? _].
  - destruct (entry_route isdir id a); [|exact (IH Hin id)]. destruct (IH Hin (S id)) as (r & Hr & Ep).
    exists r. split; [by apply list_elem_of_further|done].
Qed.

(** A local route that is held is what its path leads to. *)
Lemma local_served name p l e : gr_Path l = p -> isLocalRouteType (gr_Type l) = true -> gr_Targets l <> [] -> entry_good name e -> local_at p l e ->
  exists r isdir id, lookup e p = Some r /\ entry_route isdir id l = Some r.
Proof.
  intros Hp Hl Ht (_ & _ & isdir & _ & Hi & _) Ha. unfold local_at in Ha. assert (Hin : l ∈ gd_Routes (de_Domain e)).
  { assert (H : l ∈ filter (fun r => gr_Path r = p) (gd_Routes (de_Domain e))) by (rewrite Ha; apply list_elem_of_here). by apply list_elem_of_filter in H as [_ H]. }
  destruct (entry_routes_in isdir _ l Hin Hl Ht 0) as (r0 & Hr0 & Ep). destruct (route_index_in _ _ Hr0) as [r Hr]. rewrite Ep, Hp in Hr.
  destruct (route_index_path _ _ _ Hr) as [Er Hrin]. destruct (entry_routes_from _ _ _ _ Hrin) as (loc & id & Hloc & El).
  assert (loc = l) as ->.
  { pose proof (entry_route_of _ _ _ _ El) as [E _]. assert (H : loc ∈ filter (fun r => gr_Path r = p) (gd_Routes (de_Domain e))).
    { apply list_elem_of_filter. split; [congruence|done]. } rewrite Ha in H. by apply list_elem_of_singleton in H. }
  exists r, isdir, id. split; [|done]. unfold lookup. cbn [lookup_index]. by rewrite Hi, Hr.
Qed.

Lemma local_start isdir written tn fetch g d l : gateway_start g -> NoDup (map gd_Domain (cf_Domains (ig_cfg g))) ->
  d ∈ cf_Domains (ig_cfg g) -> isLocalRouteType (gr_Type l) = true -> gr_Targets l <> [] ->
  filter (fun r => gr_Path r = gr_Path l) (gd_Routes d) = [l] ->
  holds_local (gd_Domain d) (gr_Path l) l (cf_indexDomains (ig_cfg (fst (configRefresh isdir written true tn fetch g)))).
Proof.
  intros Hs Hnd Hd Hl Ht Hf. unfold configRefresh. destruct (Z.eqb_spec (Z.of_nat (length (cf_Domains (ig_cfg g)))) 0) as [E|_].
  { destruct (cf_Domains (ig_cfg g)); [by apply elem_of_nil in Hd|cbn in E; lia]. }
  cbn [andb]. unfold apply_domains. set (st := foldl _ _ _). assert (Hst : holds_local (gd_Domain d) (gr_Path l) l (rf_index st)).
  { unfold holds_local, st. rewrite refresh_fold_index by done. cbn [rf_index]. unfold gateway_start in Hs. rewrite Hs, lookup_empty.
    assert (Ep : pushed (gd_Domain d) (cf_Domains (ig_cfg g)) = Some d).
    { clear -Hnd Hd. induction (cf_Domains (ig_cfg g)) as [|d' ds IH]; [by apply elem_of_nil in Hd|]. cbn [map] in Hnd. apply NoDup_cons in Hnd as [Hnin Hnd].
      unfold pushed. cbn [List.find]. apply elem_of_cons in Hd as [->|Hd]; [by rewrite bool_decide_true|].
      rewrite bool_decide_false; [by apply IH|]. intros E. apply Hnin. rewrite E. by apply list_elem_of_fmap_2. }
    rewrite Ep. unfold refreshed_at, refreshed. rewrite bool_decide_false by (by intros []). cbn [negb orb default]. rewrite andb_true_r.
    assert (Ha : local_at (gr_Path l) l (domainFresh isdir (new_domain d) d)).
    { unfold local_at, domainFresh. cbn [de_Domain mergeLocalRoutes with_routes gd_Routes new_domain]. by rewrite append_local_path, Hf. }
    assert (Hin : l ∈ gd_Routes (de_Domain (domainFresh isdir (new_domain d) d))).
    { assert (H : l ∈ filter (fun r => gr_Path r = gr_Path l) (gd_Routes (de_Domain (domainFresh isdir (new_domain d) d)))) by (rewrite Ha; apply list_elem_of_here).
      by apply list_elem_of_filter in H as [_ H]. }
    destruct (entry_routes_in isdir _ l Hin Hl Ht 0) as (r & Hr & _). unfold routes_none. change (de_Routes (domainFresh isdir (new_domain d) d))
      with (entry_routes isdir 0 (gd_Routes (de_Domain (domainFresh isdir (new_domain d) d)))).
    destruct (entry_routes isdir 0 _); [by apply elem_of_nil in Hr|]. by eexists. }
  destruct (_ && _); [|done]. set (configured := rf_seen st).
  pose proof (evict_index configured (rf_newDomains st) (rf_index st) (gd_Domain d)) as Ev.
  destruct (foldl evict_domain _ _) as [cs index]. cbn [snd fst ig_cfg with_index cf_indexDomains] in *. destruct Hst as (e & He & Ha).
  exists e. split; [|done]. rewrite Ev, He, decide_False; [done|]. cbn [kept]. intros (_ & _ & Hk). by rewrite (local_kept (gr_Path l) l) in Hk.
Qed.
End refreshes.

(** C29: In every state of the gateway, after any refreshes and requests, a request goes to
    the deepest of the routes of its domain whose path is above the request's: every other
    route above the request is above that one.  When none is above, it goes to the route
    with the least path; a domain without routes answers nothing. *)
Theorem request_takes_deepest_route (UL : UrlLib) (SS : SortSlice) (SSL : SortSliceLaws SS) (g0 g : ingate) (name u : string) (e : DomainEntry) :
  gateway_start g0 -> rtc gateway_step g0 g -> Config_Domain (ig_cfg g) name = Some e -> is_rooted u = true ->
  match lookup e (Clean u) with
  | Some r => r ∈ de_Routes e /\
      ((under (er_Path r) (Clean u) /\ forall r', r' ∈ de_Routes e -> under (er_Path r') (Clean u) -> under (er_Path r') (er_Path r)) \/
       ((forall r', r' ∈ de_Routes e -> ~ under (er_Path r') (Clean u)) /\ forall r', r' ∈ de_Routes e -> str_lt (er_Path r') (er_Path r) = false))
  | None => de_Routes e = []
  end.
Proof.
  intros Hs Hr He Hu. destruct (reached_good g0 g Hs Hr name e He) as (_ & _ & isdir & Hp & Hi & Hsort). destruct (Clean_abs u Hu) as (segs & Hok & ->).
  assert (Hkey : forall r', r' ∈ de_Routes e -> exists r2, de_indexRoutes e !! er_Path r' = Some r2).
  { intros r' Hr'. rewrite Hi. apply route_index_in. by rewrite <- Hp. }
  destruct (lookup_spec e segs Hok) as [(p & r & Hpr & Hup & Hmax & ->)|[Hnone ->]].
  - rewrite Hi in Hpr. destruct (route_index_path _ _ _ Hpr) as [<- Hin]. split; [by rewrite Hp|]. left. split; [done|].
    intros r' Hr' Hu'. destruct (Hkey _ Hr') as [r2 H2]. by eapply Hmax.
  - destruct (last (de_Routes e)) as [r|] eqn:El; [|by apply last_None in El]. split; [by apply last_Some_elem_of in El|]. right. split.
    + intros r' Hr' Hu'. destruct (Hkey _ Hr') as [r2 H2]. by eapply Hnone.
    + by apply last_least.
Qed.

(** What a refresh of the gateway does to the domains, exactly, when the answer of the
    zone is taken.  A pushed domain that is new or has a newer revision gets the routes of
    the push and the operator's; one of a revision the gateway has keeps its routes, and
    one without a usable route is not added.  A full refresh deletes the configured domains
    that are not served and have no route of the operator; every other domain is as it was. *)
Theorem refresh_exact (UL : UrlLib) (SS : SortSlice) (SSL : SortSliceLaws SS) (isdir : string -> bool) (written : bool) (tn : Z)
    (fetch : Z -> result (list IngressDeploy)) (items : list IngressDeploy) (g : ingate) (name : string) :
  ig_zoneConn g = true -> fetch (asked tn g) = Ok items -> items <> [] -> NoDup (map gd_Domain items) ->
  (asked tn g = 0 -> cf_Domains (ig_cfg g) <> [] ->
   less_than_half (Z.of_nat (length items)) (Z.of_nat (length (cf_Domains (ig_cfg g)))) = false) ->
  let index := cf_indexDomains (ig_cfg g) in
  let o := match pushed name items with Some d => refreshed_at isdir (index !! name) d | None => index !! name end in
  Config_Domain (ig_cfg (fst (configRefresh isdir written false tn fetch g))) name =
    if decide (asked tn g = 0 /\ name ∈ map gd_Domain (cf_Domains (ig_cfg g)) /\ (name ∉ served isdir index items) /\ kept o = false)
    then None else o.
Proof.
  intros Hc Hf Hne Hnd Hskip index o. unfold configRefresh, Config_Domain. rewrite Hc. cbn [length Z.of_nat Z.eqb andb]. fold (asked tn g). rewrite Hf.
  set (g1 := if _ <? tn then set_cfg _ _ else _). assert (Eg : cf_indexDomains (ig_cfg g1) = index /\ cf_Domains (ig_cfg g1) = cf_Domains (ig_cfg g))
    by (unfold g1; by destruct (_ <? tn)). destruct Eg as [Ei Ed].
  destruct (Z.eqb_spec (Z.of_nat (length items)) 0) as [E|_]; [destruct items; [done|cbn in E; lia]|].
  assert (Es : (asked tn g =? 0) && (0 <? Z.of_nat (length (cf_Domains (ig_cfg g)))) &&
               less_than_half (Z.of_nat (length items)) (Z.of_nat (length (cf_Domains (ig_cfg g)))) = false).
  { destruct (Z.eqb_spec (asked tn g) 0) as [E|]; [|done]. destruct (Z.ltb_spec 0 (Z.of_nat (length (cf_Domains (ig_cfg g))))) as [L|]; [|done].
    cbn [andb]. apply Hskip; [done|]. intros E2. rewrite E2 in L. cbn in L. lia. }
  rewrite Es. pose proof (apply_exact isdir written (asked tn g) items g1 name Hnd) as Ha. cbn zeta in Ha. rewrite Ei, Ed in Ha. exact Ha.
Qed.

(** The routes of the operator stay.  A local route that is in the file when the gateway
    starts is what its path leads to after any number of refreshes, whatever the zone
    answers or fails to answer and whether or not the file can be written, as long as the
    zone pushes no route of that path for the domain. *)
Theorem local_route_stays (UL : UrlLib) (SS : SortSlice) (SSL : SortSliceLaws SS) (isdir : string -> bool) (written : bool) (tn : Z)
    (fetch : Z -> result (list IngressDeploy)) (rounds : list round) (g : ingate) (d : IngressDeploy) (l : DeployRoute) :
  gateway_start g -> NoDup (map gd_Domain (cf_Domains (ig_cfg g))) -> d ∈ cf_Domains (ig_cfg g) ->
  isLocalRouteType (gr_Type l) = true -> gr_Targets l <> [] -> filter (fun r => gr_Path r = gr_Path l) (gd_Routes d) = [l] ->
  Forall (fun r => forall rev items, ro_fetch r rev = Ok items -> never_pushes (gd_Domain d) (gr_Path l) items) rounds ->
  exists e r isdir' id,
    Config_Domain (ig_cfg (foldl run_round (fst (configRefresh isdir written true tn fetch g)) rounds)) (gd_Domain d) = Some e /\
    lookup e (gr_Path l) = Some r /\ entry_route isdir' id l = Some r.
Proof.
  intros Hs Hnd Hd Hl Ht Hf Hr. pose proof (local_start isdir written tn fetch g d l Hs Hnd Hd Hl Ht Hf) as H0.
  set (g0 := fst (configRefresh isdir written true tn fetch g)) in *.
  assert (Hg0 : index_good (cf_indexDomains (ig_cfg g0))) by (apply refresh_good; unfold gateway_start in Hs; rewrite Hs; done).
  clearbody g0. revert g0 H0 Hg0. induction Hr as [|r rounds Hrr _ IH]; intros g0 H0 Hg0.
  - destruct H0 as (e & He & Ha). destruct (local_served _ _ l e eq_refl Hl Ht (Hg0 _ _ He) Ha) as (r & isdir' & id & H1 & H2).
    exists e, r, isdir', id. done.
  - cbn [foldl]. apply IH; [by apply local_round|]. by apply refresh_good.
Qed.

(** A push of a revision the gateway has leaves the routes as they were: since the revision
    of a domain is the version of its ingress record, the address of a replica that moved
    never reaches a running gateway. *)
Lemma same_revision_keeps_routes {UL : UrlLib} {SS : SortSlice} {SSL : SortSliceLaws SS} isdir (e : DomainEntry) (domain : IngressDeploy) :
  gd_Revision domain <= de_setupRevision e ->
  exists e', refreshed_at isdir (Some e) domain = Some e' /\ de_Routes e' ≡ₚ de_Routes e /\ de_indexRoutes e' = de_indexRoutes e.
Proof.
  intros Hle. unfold refreshed_at, refreshed. rewrite !bool_decide_true by (by eexists). cbn [negb orb default id].
  rewrite (proj2 (Z.ltb_ge _ _)) by exact Hle. rewrite andb_false_r. eexists. split; [done|]. split; [apply sort_slice_perm|done].
Qed.

(** ** A gateway with a domain of its operator, and the zone's routes for it *)

#[local] Existing Instance ex_urls.
Definition ex_files : DeployRoute := {| gr_Type := "localfs"; gr_Path := "/files"; gr_Targets := [{| it_Backend := "/srv/files"; it_Weight := 0 |}] |}.
Definition ex_own (name : string) : IngressDeploy := {| gd_Domain := name; gd_Letsencrypt := true; gd_Routes := [ex_files]; gd_Revision := 0 |}.
Definition ex_gateway_config : Config :=
  {| cf_Server := {| sv_HttpPort := 80; sv_HttpsPort := 443; sv_ReadTimeout := 61; sv_ReadHeaderTimeout := 10; sv_WriteTimeout := 61;
       sv_WriteByteTimeout := 60; sv_IdleTimeout := 120; sv_MaxBodySize := 16777216; sv_MaxRespSize := 1073741824; sv_ShutdownTimeout := 30;
       sv_DebugPprofEnable := false |};
     cf_Limit := {| li_Rate := 102400; li_Burst := 102400; li_IpExpireAfter := 60; li_CleanupSeconds := 30 |}; cf_Zone := None; cf_Modules := [];
     cf_indexModules := ∅; cf_Domains := [ex_own "example.com"; ex_own "own.org"]; cf_indexDomains := ∅; cf_lastRevision := 0; cf_lastFullUpdated := 0 |}.
Definition ex_gateway : ingate := {| ig_cfg := ex_gateway_config; ig_zoneConn := true; ig_tlsDomains := []; ig_file := cf_Domains ex_gateway_config |}.
Definition ex_round : round := {| ro_isdir := fun _ => true; ro_written := true; ro_tn := 2000; ro_fetch := fun _ => Ok ex_listed |}.
Definition ex_loaded : ingate := fst (configRefresh (fun _ => true) true true 1000 (ro_fetch ex_round) ex_gateway).
Definition ex_refreshed : ingate := run_round ex_loaded ex_round.
Definition ex_entry : DomainEntry := default (new_domain (ex_own "example.com")) (Config_Domain (ig_cfg ex_refreshed) "example.com").
Lemma ex_refreshed_reached : rtc gateway_step ex_gateway ex_refreshed.
Proof. eapply rtc_l; [apply step_refresh|]. apply rtc_once, step_refresh. Qed.

Lemma request_takes_deepest_route_witness :
  option_map er_Path (lookup ex_entry (Clean "/api//v1/../x")) = Some "/api" /\
  match lookup ex_entry (Clean "/api//v1/../x") with
  | Some r => r ∈ de_Routes ex_entry /\
      ((under (er_Path r) (Clean "/api//v1/../x") /\
        forall r', r' ∈ de_Routes ex_entry -> under (er_Path r') (Clean "/api//v1/../x") -> under (er_Path r') (er_Path r)) \/
       ((forall r', r' ∈ de_Routes ex_entry -> ~ under (er_Path r') (Clean "/api//v1/../x")) /\
        forall r', r' ∈ de_Routes ex_entry -> str_lt (er_Path r') (er_Path r) = false))
  | None => de_Routes ex_entry = []
  end.
Proof.
  split; [vm_compute; reflexivity|].
  apply (request_takes_deepest_route ex_urls _ _ ex_gateway ex_refreshed "example.com" "/api//v1/../x" ex_entry eq_refl ex_refreshed_reached);
    vm_compute; reflexivity.
Defined.

(** The pushed domain has its new routes beside the operator's; the operator's own domain is
    not deleted by the full refresh. *)
Lemma refresh_exact_witness :
  option_map (fun e => map er_Path (de_Routes e)) (Config_Domain (ig_cfg ex_refreshed) "example.com") = Some ["/files"; "/api"; "/"] /\
  option_map (fun e => map er_Path (de_Routes e)) (Config_Domain (ig_cfg ex_refreshed) "own.org") = Some ["/files"].
Proof.
  change ex_refreshed with (fst (configRefresh (fun _ => true) true false 2000 (ro_fetch ex_round) ex_loaded)).
  assert (Hc : ig_zoneConn ex_loaded = true) by (vm_compute; reflexivity).
  assert (Hs : asked 2000 ex_loaded = 0 -> cf_Domains (ig_cfg ex_loaded) <> [] ->
    less_than_half (Z.of_nat (length ex_listed)) (Z.of_nat (length (cf_Domains (ig_cfg ex_loaded)))) = false) by (intros _ _; vm_compute; reflexivity).
  assert (Hn : NoDup (map gd_Domain ex_listed)) by (unfold ex_listed; cbn [map]; apply NoDup_singleton).
  assert (Hne : ex_listed <> []) by (by unfold ex_listed).
  split; (rewrite (refresh_exact ex_urls _ _ (fun _ => true) true 2000 (ro_fetch ex_round) ex_listed ex_loaded _ Hc eq_refl Hne Hn Hs);
    vm_compute; reflexivity).
Defined.

Lemma local_route_stays_witness : exists e r isdir' id,
  Config_Domain (ig_cfg (foldl run_round ex_loaded [ex_round; ex_round])) "own.org" = Some e /\
  lookup e "/files" = Some r /\ entry_route isdir' id ex_files = Some r.
Proof.
  apply (local_route_stays ex_urls _ _ (fun _ => true) true 1000 (ro_fetch ex_round) [ex_round; ex_round] ex_gateway (ex_own "own.org") ex_files);
    [done| |apply list_elem_of_further, list_elem_of_here|done|done|done|].
  - repeat constructor; cbn; set_solver.
  - assert (Hn : forall rev items, ro_fetch ex_round rev = Ok items -> never_pushes "own.org" "/files" items).
    { intros rev items [= <-] d ->%list_elem_of_singleton. done. }
    by repeat constructor.
Defined.

(** A domain that is pushed between two full refreshes and withdrawn before the second is
    not in the configured list, which only a full refresh replaces: it is served for ever. *)
Definition ex_late : IngressDeploy := {| gd_Domain := "late.com"; gd_Letsencrypt := false; gd_Revision := 9;
  gd_Routes := [{| gr_Type := "upstream"; gr_Path := "/"; gr_Targets := [{| it_Backend := "10.0.0.9:80"; it_Weight := 0 |}] |}] |}.
Definition ex_late_round (tn : Z) (items : list IngressDeploy) : round :=
  {| ro_isdir := fun _ => true; ro_written := true; ro_tn := tn; ro_fetch := fun _ => Ok items |}.
Example withdrawn_domain_served :
  let g := foldl run_round ex_loaded [ex_round; ex_late_round 2010 [ex_late]; ex_late_round 2700 ex_listed; ex_late_round 3400 ex_listed] in
  is_Some (Config_Domain (ig_cfg g) "late.com") /\ ig_file g = cf_Domains (ig_cfg g) /\ map gd_Domain (ig_file g) = ["example.com"; "own.org"].
Proof. vm_compute. split; [by eexists|done]. Qed.
(** After a refresh that brings one domain, no certificate may be asked for any other: the
    whitelist is made of the domains of that refresh alone, and the operator's own domains
    are in none. *)
Definition ex_secure : IngressDeploy := {| gd_Domain := "safe.com"; gd_Letsencrypt := true; gd_Revision := 4; gd_Routes := gd_Routes ex_late |}.
Example refresh_narrows_certificates :
  let g1 := run_round ex_loaded (ex_late_round 2000 [ex_secure]) in
  ig_tlsDomains ex_loaded = ["example.com"; "own.org"] /\ ig_tlsDomains g1 = ["safe.com"] /\
  asked 2010 g1 = 4 /\ ig_tlsDomains (run_round g1 (ex_late_round 2010 [ex_late])) = [].
Proof. vm_compute. done. Qed.
