(* ===== verification/IngateWriter.v ===== *)
(** The response path of the gateway in [src/cmd/ingate/main.go]: the throttled writer, the
    streaming writer with its size cap and compression, and the limiters of the clients.

    Beneath is the connection to the client as [net/http] has it: the header map until it
    is sent, informational replies, the status, and the bytes the connection takes before
    it breaks.  [compress/gzip] and the wait of [x/time/rate] are classes. *)
From Stdlib Require Import ZArith Lia Ascii.
From S2P Require Import Prelude GoStrings GoPath Ingate.
Local Open Scope string_scope.
Local Open Scope Z_scope.
Local Open Scope go_scope.

(** ** The client *)

(** [http.Header] under canonical keys. *)
Abbreviation header := (gmap string (list string)).
Definition hdr_get (k : string) (h : header) : string := match h !! k with Some (v :: _) => v | _ => "" end.
Definition hdr_set (k v : string) (h : header) : header := <[k := [v]]> h.
Definition hdr_del (k : string) (h : header) : header := delete k h.

(** [cl_room]: the bytes the connection takes before it breaks, if it does; [cl_gone]: the context of the request is
    done; [cl_sent]: the status and the header that were sent. *)
Record client := {
  cl_header : header; cl_sent : option (Z * header); cl_infos : list Z; cl_body : string; cl_flushes : nat; cl_room : option Z; cl_gone : bool }.
Definition cl_with_header (h : header) (c : client) : client :=
  {| cl_header := h; cl_sent := cl_sent c; cl_infos := cl_infos c; cl_body := cl_body c; cl_flushes := cl_flushes c; cl_room := cl_room c; cl_gone := cl_gone c |}.
(** An informational status is sent at once and is not the status of the response. *)
Definition client_WriteHeader (code : Z) (c : client) : client :=
  match cl_sent c with
  | Some _ => c
  | None =>
    if (100 <=? code) && (code <=? 199) && negb (code =? 101) then
      {| cl_header := cl_header c; cl_sent := None; cl_infos := (cl_infos c ++ [code])%list; cl_body := cl_body c; cl_flushes := cl_flushes c;
         cl_room := cl_room c; cl_gone := cl_gone c |}
    else
      {| cl_header := cl_header c; cl_sent := Some (code, cl_header c); cl_infos := cl_infos c; cl_body := cl_body c; cl_flushes := cl_flushes c;
         cl_room := cl_room c; cl_gone := cl_gone c |}
  end.
Definition client_Write (p : string) (c : client) : client * Z * bool :=
  let c := client_WriteHeader 200 c in
  let n := match cl_room c with Some room => Z.min (slen p) (Z.max 0 room) | None => slen p end in
  ({| cl_header := cl_header c; cl_sent := cl_sent c; cl_infos := cl_infos c; cl_body := cl_body c +:+ String.substring 0 (Z.to_nat n) p;
      cl_flushes := cl_flushes c; cl_room := option_map (fun room => room - n) (cl_room c); cl_gone := cl_gone c |}, n, n =? slen p).
Definition client_Flush (c : client) : client :=
  let c := client_WriteHeader 200 c in
  {| cl_header := cl_header c; cl_sent := cl_sent c; cl_infos := cl_infos c; cl_body := cl_body c; cl_flushes := S (cl_flushes c);
     cl_room := cl_room c; cl_gone := cl_gone c |}.

(** [rate.Limiter.WaitN]: it refuses more than the burst, and a context that is done. *)
Definition WaitN (burst n : Z) (c : client) : bool := (n <=? burst) && negb (cl_gone c).

(** ** The throttled writer *)

Definition chunkSize : Z := Z.shiftl 4 10.
(** The loop from byte [i]: the bytes written, and whether there was no error.  The
    deadline of a chunk has no effect beside breaking the connection. *)
Fixpoint throttled_from (fuel : nat) (burst : Z) (p : string) (i n : Z) (c : client) : client * Z * bool :=
  match fuel with
  | O => (c, n, true)
  | S fuel =>
    if i <? slen p then
      let e := if slen p <? i + chunkSize then slen p else i + chunkSize in
      if negb (WaitN burst (e - i) c) then (c, n, false)
      else
        let '(c, m, ok) := client_Write (String.substring (Z.to_nat i) (Z.to_nat (e - i)) p) c in
        if ok then throttled_from fuel burst p (i + chunkSize) (n + m) c else (c, n + m, false)
    else (c, n, true)
  end.
Definition throttled_Write (burst : Z) (p : string) (c : client) : client * Z * bool :=
  throttled_from (S (String.length p)) burst p 0 0 c.

(** ** Compression *)

(** [gzip.Writer]: what a call hands to the writer beneath, and the decoder. *)
Class Gzip := {
  gz : Type; gz_new : gz; gz_write : gz -> string -> gz * string; gz_flush : gz -> gz * string; gz_close : gz -> string;
  gunzip : string -> option string }.
Inductive gz_op := GzWrite (b : string) | GzFlush.
Definition gz_step `{Gzip} (g : gz) (o : gz_op) : gz * string := match o with GzWrite b => gz_write g b | GzFlush => gz_flush g end.
Fixpoint gz_run `{Gzip} (g : gz) (ops : list gz_op) : string :=
  match ops with [] => gz_close g | o :: ops => let '(g, out) := gz_step g o in out +:+ gz_run g ops end.
Fixpoint gz_input (ops : list gz_op) : string :=
  match ops with [] => "" | GzWrite b :: ops => b +:+ gz_input ops | GzFlush :: ops => gz_input ops end.
(** What was written comes out, however it was cut and flushed. *)
Class GzipLaws (G : Gzip) := { gunzip_run : forall ops, gunzip (gz_run gz_new ops) = Some (gz_input ops) }.

(** ** The streaming writer *)

Definition skipGzipExts : list string := [".jpg"; ".jpeg"; ".png"; ".gif"; ".webp"; ".mp4"; ".mp3"; ".zip"; ".gz"; ".rar"; ".pdf"].
Definition gzipMinSize : Z := 1024.

Section writer.
Context {G : Gzip} (version : string) (burst : Z).

Record respWriter := {
  rw_client : client; rw_requestPath : string; rw_statusCode : Z; rw_writeSize : Z; rw_compSize : Z; rw_respMaxSize : Z;
  rw_gzipAccept : bool; rw_gzipWriter : option gz; rw_headerDone : bool; rw_capChecked : bool; rw_capExempt : bool; rw_buf : string }.
Implicit Types (w : respWriter).

Definition rw_with_client (c : client) w : respWriter :=
  {| rw_client := c; rw_requestPath := rw_requestPath w; rw_statusCode := rw_statusCode w; rw_writeSize := rw_writeSize w;
     rw_compSize := rw_compSize w; rw_respMaxSize := rw_respMaxSize w; rw_gzipAccept := rw_gzipAccept w; rw_gzipWriter := rw_gzipWriter w;
     rw_headerDone := rw_headerDone w; rw_capChecked := rw_capChecked w; rw_capExempt := rw_capExempt w; rw_buf := rw_buf w |}.
Definition rw_with_gzip (g : option gz) w : respWriter :=
  {| rw_client := rw_client w; rw_requestPath := rw_requestPath w; rw_statusCode := rw_statusCode w; rw_writeSize := rw_writeSize w;
     rw_compSize := rw_compSize w; rw_respMaxSize := rw_respMaxSize w; rw_gzipAccept := rw_gzipAccept w; rw_gzipWriter := g;
     rw_headerDone := rw_headerDone w; rw_capChecked := rw_capChecked w; rw_capExempt := rw_capExempt w; rw_buf := rw_buf w |}.
Definition rw_with_buf (b : string) w : respWriter :=
  {| rw_client := rw_client w; rw_requestPath := rw_requestPath w; rw_statusCode := rw_statusCode w; rw_writeSize := rw_writeSize w;
     rw_compSize := rw_compSize w; rw_respMaxSize := rw_respMaxSize w; rw_gzipAccept := rw_gzipAccept w; rw_gzipWriter := rw_gzipWriter w;
     rw_headerDone := rw_headerDone w; rw_capChecked := rw_capChecked w; rw_capExempt := rw_capExempt w; rw_buf := b |}.
Definition rw_with_sizes (writeSize compSize : Z) w : respWriter :=
  {| rw_client := rw_client w; rw_requestPath := rw_requestPath w; rw_statusCode := rw_statusCode w; rw_writeSize := writeSize;
     rw_compSize := compSize; rw_respMaxSize := rw_respMaxSize w; rw_gzipAccept := rw_gzipAccept w; rw_gzipWriter := rw_gzipWriter w;
     rw_headerDone := rw_headerDone w; rw_capChecked := rw_capChecked w; rw_capExempt := rw_capExempt w; rw_buf := rw_buf w |}.
Definition rw_done w : respWriter :=
  {| rw_client := rw_client w; rw_requestPath := rw_requestPath w; rw_statusCode := rw_statusCode w; rw_writeSize := rw_writeSize w;
     rw_compSize := rw_compSize w; rw_respMaxSize := rw_respMaxSize w; rw_gzipAccept := rw_gzipAccept w; rw_gzipWriter := rw_gzipWriter w;
     rw_headerDone := true; rw_capChecked := rw_capChecked w; rw_capExempt := rw_capExempt w; rw_buf := rw_buf w |}.
Definition rw_header w : header := cl_header (rw_client w).

Definition setProxyBadge (h : header) : header := hdr_set "X-Proxy" ("InnerStack/" +:+ version) h.

(** [writeBody] without compression, and the writer beneath the gzip stream, which counts
    the same way: the bytes go to the throttled writer. *)
Definition counted_Write (b : string) w : respWriter * Z * bool :=
  let '(c, n, ok) := throttled_Write burst b (rw_client w) in
  (rw_with_sizes (rw_writeSize w) (rw_compSize w +64 n) (rw_with_client c w), n, ok).
(** The error of a gzip stream is that of its first failed write. *)
Definition writeBody (b : string) w : respWriter * bool :=
  match rw_gzipWriter w with
  | Some g =>
    let '(g, out) := gz_write g b in
    let '(w, _, ok) := counted_Write out (rw_with_gzip (Some g) w) in (w, ok)
  | None => let '(w, _, ok) := counted_Write b w in (w, ok)
  end.

Definition gzipEligible w : bool :=
  let h := rw_header w in
  let contentType := hdr_get "Content-Type" h in
  if negb (rw_gzipAccept w) then false
  else if bool_decide (hdr_get "Content-Encoding" h <> "") || bool_decide (hdr_get "Content-Range" h <> "") then false
  else if contains contentType "text/event-stream" || contains contentType "image/" || contains contentType "video/" then false
  else if bool_decide (to_lower (Ext (rw_requestPath w)) ∈ skipGzipExts) then false
  else true.

(** [commit]: the header, what is done before the buffered bytes, and all of it. *)
Definition committed_header (gzipOn : bool) (h : header) : header :=
  let h := setProxyBadge h in
  if gzipOn then hdr_set "Content-Encoding" "gzip" (hdr_del "Content-Length" h) else h.
Definition commit_head (gzipOn : bool) w : respWriter :=
  let w := rw_with_client (cl_with_header (committed_header gzipOn (rw_header w)) (rw_client w)) w in
  let w := rw_done (if gzipOn then rw_with_gzip (Some gz_new) w else w) in
  rw_with_client (client_WriteHeader (if 0 <? rw_statusCode w then rw_statusCode w else 200) (rw_client w)) w.
Definition commit (gzipOn : bool) w : respWriter * bool :=
  let w := commit_head gzipOn w in
  if bool_decide (rw_buf w = "") then (w, true)
  else let '(w, ok) := writeBody (rw_buf w) w in (rw_with_buf "" w, ok).

(** [Write]: [None] is the panic that aborts the response. *)
Definition rw_checked w : respWriter :=
  if rw_capChecked w then w
  else {| rw_client := rw_client w; rw_requestPath := rw_requestPath w; rw_statusCode := rw_statusCode w; rw_writeSize := rw_writeSize w;
          rw_compSize := rw_compSize w; rw_respMaxSize := rw_respMaxSize w; rw_gzipAccept := rw_gzipAccept w; rw_gzipWriter := rw_gzipWriter w;
          rw_headerDone := rw_headerDone w; rw_capChecked := true;
          rw_capExempt := contains (hdr_get "Content-Type" (rw_header w)) "text/event-stream"; rw_buf := rw_buf w |}.
Definition over_cap (n : Z) w : bool := (0 <? rw_respMaxSize w) && negb (rw_capExempt w) && (rw_respMaxSize w <? (rw_writeSize w +64 n)).
Definition respWriter_Write (b : string) w : option (respWriter * bool) :=
  let w := rw_checked w in
  if over_cap (slen b) w then None
  else
    let w := rw_with_sizes (rw_writeSize w +64 slen b) (rw_compSize w) w in
    if rw_headerDone w then Some (writeBody b w)
    else
      let w := rw_with_buf (rw_buf w +:+ b) w in
      if slen (rw_buf w) <? gzipMinSize then Some (w, true) else Some (commit (gzipEligible w) w).

Definition respWriter_WriteHeader (code : Z) w : respWriter :=
  if rw_statusCode w =? 0 then
    {| rw_client := rw_client w; rw_requestPath := rw_requestPath w; rw_statusCode := code; rw_writeSize := rw_writeSize w;
       rw_compSize := rw_compSize w; rw_respMaxSize := rw_respMaxSize w; rw_gzipAccept := rw_gzipAccept w; rw_gzipWriter := rw_gzipWriter w;
       rw_headerDone := rw_headerDone w; rw_capChecked := rw_capChecked w; rw_capExempt := rw_capExempt w; rw_buf := rw_buf w |}
  else w.

Definition respWriter_Flush w : respWriter :=
  let w := if rw_headerDone w then w else fst (commit (gzipEligible w) w) in
  let w := match rw_gzipWriter w with
           | Some g => let '(g, out) := gz_flush g in fst (fst (counted_Write out (rw_with_gzip (Some g) w)))
           | None => w
           end in
  rw_with_client (client_Flush (rw_client w)) w.

Definition finish w : respWriter :=
  let w := match rw_gzipWriter w with
           | Some g => rw_with_gzip None (fst (fst (counted_Write (gz_close g) w)))
           | None => w
           end in
  if rw_headerDone w then w
  else
    let h := if 0 <? slen (rw_buf w) then hdr_set "Content-Length" (itoa (slen (rw_buf w))) (rw_header w) else rw_header w in
    fst (commit false (rw_with_client (cl_with_header h (rw_client w)) w)).

Definition new_respWriter (requestPath : string) (respMaxSize : Z) (gzipAccept : bool) (c : client) : respWriter :=
  {| rw_client := c; rw_requestPath := requestPath; rw_statusCode := 0; rw_writeSize := 0; rw_compSize := 0; rw_respMaxSize := respMaxSize;
     rw_gzipAccept := gzipAccept; rw_gzipWriter := None; rw_headerDone := false; rw_capChecked := false; rw_capExempt := false; rw_buf := "" |}.
End writer.

(** ** The limiters of the clients *)

(** A limiter is the number of the order it was made in. *)
Record ipLimiterEntry := { le_limiter : nat; le_lastActive : Z }.
Record limiters := { lm_made : nat; lm_entries : gmap string ipLimiterEntry }.
Definition ipLimiter (now : Z) (ip : string) (l : limiters) : limiters * nat :=
  match lm_entries l !! ip with
  | Some e => ({| lm_made := lm_made l; lm_entries := <[ip := {| le_limiter := le_limiter e; le_lastActive := now |}]> (lm_entries l) |}, le_limiter e)
  | None =>
    ({| lm_made := S (lm_made l); lm_entries := <[ip := {| le_limiter := lm_made l; le_lastActive := now |}]> (lm_entries l) |}, lm_made l)
  end.
(** One tick of [ipLimiterCleaner]. *)
Definition ipLimiterCleaner (now : Z) (cfg : ConfigLimit) (l : limiters) : limiters :=
  let ttl := now -64 li_IpExpireAfter cfg in
  {| lm_made := lm_made l; lm_entries := filter (fun e => ~ le_lastActive (snd e) < ttl) (lm_entries l) |}.
