(* ===== verification/IngateWriterLogic.v ===== *)
(** Theorems about the response path of the gateway ([IngateWriter]): the client gets what
    was written, whole and with the first status, however it was cut, flushed and
    compressed, and a response over the size cap is aborted. *)
From Stdlib Require Import ZArith Lia Ascii.
From S2P Require Import Prelude GoStrings GoPath Ingate IngateWriter.
Local Open Scope string_scope.
Local Open Scope Z_scope.
Local Open Scope go_scope.

(** ** The throttled writer *)

Lemma substring_all s : String.substring 0 (String.length s) s = s.
Proof. induction s as [|a s IH]; cbn; [done|by rewrite IH]. Qed.
Lemma substring_cat s : forall i n, (i + n <= String.length s)%nat ->
  String.substring 0 i s +:+ String.substring i n s = String.substring 0 (i + n) s.
Proof.
  induction s as [|a s IH]; intros [|i] n Hle; cbn in *; [by destruct n|lia|by destruct n|]. f_equal. apply IH. lia.
Qed.
Lemma substring_length s : forall i n, (i + n <= String.length s)%nat -> String.length (String.substring i n s) = n.
Proof.
  induction s as [|a s IH]; intros [|i] n Hle; cbn in *; [destruct n; [done|lia]|lia| |apply IH; lia].
  destruct n as [|n]; cbn; [done|]. f_equal. apply (IH 0%nat). lia.
Qed.

(** A connection that takes every byte. *)
Definition intact (c : client) : Prop := cl_gone c = false /\ cl_room c = None.
Definition appended (p : string) (c : client) : client :=
  {| cl_header := cl_header c; cl_sent := cl_sent c; cl_infos := cl_infos c; cl_body := cl_body c +:+ p; cl_flushes := cl_flushes c;
     cl_room := cl_room c; cl_gone := cl_gone c |}.
Lemma appended_app p q c : appended q (appended p c) = appended (p +:+ q) c.
Proof. unfold appended. cbn. by rewrite s_app_assoc. Qed.
Lemma client_write_intact p c : intact c -> is_Some (cl_sent c) -> client_Write p c = (appended p c, slen p, true).
Proof.
  intros [_ Hr] [s Hs]. unfold client_Write, client_WriteHeader. rewrite Hs, Hr. rewrite Z.eqb_refl. unfold appended. rewrite Hr, Hs.
  unfold slen. by rewrite Nat2Z.id, substring_all.
Qed.

(** The loop writes everything: enough fuel is more than the chunks. *)
Lemma throttled_from_intact burst p : chunkSize <= burst -> forall fuel (i : nat) c, intact c -> is_Some (cl_sent c) ->
  (i <= String.length p)%nat -> (String.length p - i < fuel)%nat ->
  exists q, String.substring 0 i p +:+ q = p /\ throttled_from fuel burst p (Z.of_nat i) (Z.of_nat i) c = (appended q c, slen p, true).
Proof.
  intros Hb. assert (Hk : chunkSize = 4096) by reflexivity. rewrite Hk in Hb. induction fuel as [|fuel IH]; intros i c Hi Hs Hle Hf; [lia|]. cbn [throttled_from].
  unfold slen in *. destruct (Z.ltb_spec (Z.of_nat i) (Z.of_nat (String.length p))) as [Hlt|Hge].
  - set (e := if _ <? Z.of_nat i + chunkSize then _ else _).
    assert (He : Z.of_nat i < e <= Z.of_nat (String.length p) /\ e - Z.of_nat i <= 4096 /\ (e = Z.of_nat (String.length p) \/ e = Z.of_nat i + 4096)).
    { unfold e. rewrite Hk. destruct (Z.ltb_spec (Z.of_nat (String.length p)) (Z.of_nat i + 4096)); lia. }
    unfold WaitN. rewrite (proj1 Hi). rewrite (proj2 (Z.leb_le _ _)) by lia. cbn [negb andb]. rewrite Nat2Z.id.
    set (chunk := String.substring i (Z.to_nat (e - Z.of_nat i)) p). rewrite client_write_intact by done. cbn [fst snd].
    assert (Hl : String.length chunk = Z.to_nat (e - Z.of_nat i)) by (apply substring_length; lia). unfold slen. rewrite Hl.
    assert (Hsub : String.substring 0 i p +:+ chunk = String.substring 0 (i + Z.to_nat (e - Z.of_nat i)) p) by (apply substring_cat; lia).
    destruct He as (He1 & He2 & [He|He]).
    + destruct fuel as [|fuel]; [lia|]. cbn [throttled_from]. unfold slen. rewrite Hk. rewrite (proj2 (Z.ltb_ge _ _)) by lia. exists chunk. split.
      * rewrite Hsub. replace (i + Z.to_nat (e - Z.of_nat i))%nat with (String.length p) by lia. apply substring_all.
      * f_equal. f_equal. lia.
    + replace (Z.of_nat i + chunkSize) with (Z.of_nat (i + Z.to_nat (e - Z.of_nat i))) by lia.
      replace (Z.of_nat i + Z.of_nat (Z.to_nat (e - Z.of_nat i))) with (Z.of_nat (i + Z.to_nat (e - Z.of_nat i))) by lia.
      destruct (IH (i + Z.to_nat (e - Z.of_nat i))%nat (appended chunk c)) as (q & Hq & ->); [done|done|lia|lia|].
      exists (chunk +:+ q). rewrite appended_app. split; [|done]. rewrite <- s_app_assoc, Hsub. exact Hq.
  - exists "". rewrite s_app_nil_r. replace i with (String.length p) by lia. rewrite substring_all. split; [done|]. f_equal. f_equal.
    unfold appended. rewrite s_app_nil_r. by destruct c.
Qed.
Lemma throttled_intact burst p c : chunkSize <= burst -> intact c -> is_Some (cl_sent c) -> throttled_Write burst p c = (appended p c, slen p, true).
Proof.
  intros Hb Hi Hs. destruct (throttled_from_intact burst p Hb (S (String.length p)) 0 c Hi Hs ltac:(lia) ltac:(lia)) as (q & Hq & E).
  unfold throttled_Write. change (Z.of_nat 0) with 0 in E. rewrite E. assert (q = p) as -> by (revert Hq; by destruct p). done.
Qed.

(** ** What a handler does with the streaming writer *)

(** A change of the header map, a status, some bytes, a flush. *)
Inductive resp_op := OpHeader (f : header -> header) | OpStatus (code : Z) | OpWrite (b : string) | OpFlush.
Fixpoint op_input (ops : list resp_op) : string :=
  match ops with [] => "" | OpWrite b :: ops => b +:+ op_input ops | _ :: ops => op_input ops end.

Lemma gz_input_snoc `{Gzip} ops b : gz_input (ops ++ [GzWrite b])%list = gz_input ops +:+ b.
Proof. induction ops as [|[b'|] ops IH]; cbn; [by rewrite s_app_nil_r|by rewrite IH, s_app_assoc|done]. Qed.
Lemma gz_input_flush `{Gzip} ops : gz_input (ops ++ [GzFlush])%list = gz_input ops.
Proof. induction ops as [|[b'|] ops IH]; cbn; [done|by rewrite IH|done]. Qed.

Section responses.
Context {G : Gzip} (version : string) (burst : Z).

Definition run_op (o : resp_op) (w : respWriter) : option respWriter :=
  match o with
  | OpHeader f => Some (rw_with_client (cl_with_header (f (rw_header w)) (rw_client w)) w)
  | OpStatus code => Some (respWriter_WriteHeader code w)
  | OpWrite b => option_map fst (respWriter_Write version burst b w)
  | OpFlush => Some (respWriter_Flush version burst w)
  end.
(** [None]: the response was aborted. *)
Fixpoint run_ops (ops : list resp_op) (w : respWriter) : option respWriter :=
  match ops with [] => Some w | o :: ops => w ← run_op o w; run_ops ops w end.

Context {GL : GzipLaws G} (Hb : chunkSize <= burst) (code : Z) (Hcode : 200 <= code) (cap : Z) (accept : bool).

Definition badge : string := "InnerStack/" +:+ version.
Definition streaming (input : string) (w : respWriter) : Prop :=
  rw_headerDone w = true /\ rw_buf w = "" /\ exists h, cl_sent (rw_client w) = Some (code, h) /\ hdr_get "X-Proxy" h = badge /\
    ((rw_gzipWriter w = None /\ cl_body (rw_client w) = input) \/
     (accept = true /\ hdr_get "Content-Encoding" h = "gzip" /\ h !! "Content-Length" = None /\
      exists g ops, rw_gzipWriter w = Some g /\ gz_input ops = input /\
        forall rest, cl_body (rw_client w) +:+ gz_run g rest = gz_run gz_new (ops ++ rest)%list)).
Definition buffering (input : string) (w : respWriter) : Prop :=
  rw_headerDone w = false /\ rw_gzipWriter w = None /\ rw_buf w = input /\ cl_sent (rw_client w) = None /\ cl_body (rw_client w) = "".
Definition common (w : respWriter) : Prop :=
  intact (rw_client w) /\ rw_statusCode w = code /\ rw_respMaxSize w = cap /\ rw_gzipAccept w = accept.

Lemma hdr_get_set k v h : hdr_get k (hdr_set k v h) = v.
Proof. unfold hdr_get, hdr_set. by rewrite lookup_insert_eq. Qed.
Lemma hdr_get_set_ne k k' v h : k <> k' -> hdr_get k (hdr_set k' v h) = hdr_get k h.
Proof. intros Hne. unfold hdr_get, hdr_set. by rewrite lookup_insert_ne. Qed.

Lemma counted_intact b w : intact (rw_client w) -> is_Some (cl_sent (rw_client w)) ->
  counted_Write burst b w = (rw_with_sizes (rw_writeSize w) (rw_compSize w +64 slen b) (rw_with_client (appended b (rw_client w)) w), slen b, true).
Proof. intros Hi Hs. unfold counted_Write. by rewrite throttled_intact. Qed.

(** Writing through. *)
Lemma writeBody_streaming input b w : common w -> streaming input w ->
  let w' := fst (writeBody burst b w) in
  common w' /\ streaming (input +:+ b) w' /\ rw_writeSize w' = rw_writeSize w /\ rw_capChecked w' = rw_capChecked w /\
  rw_capExempt w' = rw_capExempt w /\ cl_sent (rw_client w') = cl_sent (rw_client w) /\
  (rw_gzipWriter w = None -> rw_gzipWriter w' = None).
Proof.
  intros (Hi & Hst & Hcap & Hacc) (Hd & Hbuf & h & Hs & Hbad & Hz). unfold writeBody.
  destruct Hz as [[Hg Hbody]|(Ha & Hce & Hcl & g & ops & Hg & Hin & Hrun)]; rewrite Hg.
  - rewrite counted_intact by (done || by eexists). cbn [fst]. split; [by split|]. split; [|done]. split; [done|]. split; [done|].
    exists h. split; [done|]. split; [done|]. left. split; [done|]. cbn. by rewrite Hbody.
  - destruct (gz_write g b) as [g' out] eqn:Eg. rewrite counted_intact by (done || by eexists). cbn [fst]. split; [by split|].
    split; [|done]. split; [done|]. split; [done|]. exists h. split; [done|]. split; [done|]. right. split; [done|]. split; [done|]. split; [done|].
    exists g', (ops ++ [GzWrite b])%list. split; [done|]. split; [by rewrite gz_input_snoc, Hin|].
    intros rest. cbn [rw_client rw_with_client rw_with_sizes appended cl_body rw_with_gzip]. rewrite <- app_assoc. cbn [app].
    rewrite <- Hrun. cbn [gz_run gz_step]. rewrite Eg. by rewrite s_app_assoc.
Qed.

(** The state between the header and the buffered bytes. *)
Lemma commit_head_eq on w : common w -> cl_sent (rw_client w) = None ->
  commit_head version on w =
  rw_done (rw_with_gzip (if on then Some gz_new else rw_gzipWriter w)
    (rw_with_client (let h := committed_header version on (rw_header w) in
       {| cl_header := h; cl_sent := Some (code, h); cl_infos := cl_infos (rw_client w); cl_body := cl_body (rw_client w);
          cl_flushes := cl_flushes (rw_client w); cl_room := cl_room (rw_client w); cl_gone := cl_gone (rw_client w) |}) w)).
Proof.
  intros (Hi & Hst & _) Hs. unfold commit_head. set (h := committed_header _ _ _). destruct w as [c rp st ws cs cap' acc g d ck ce b].
  cbn [rw_client rw_statusCode] in *. subst st.
  assert (E : client_WriteHeader code (cl_with_header h c) =
    {| cl_header := h; cl_sent := Some (code, h); cl_infos := cl_infos c; cl_body := cl_body c; cl_flushes := cl_flushes c; cl_room := cl_room c; cl_gone := cl_gone c |}).
  { unfold client_WriteHeader. cbn [cl_with_header cl_sent]. rewrite Hs. rewrite (proj2 (Z.leb_gt code 199)) by lia. by rewrite andb_false_r. }
  destruct on; cbn [rw_done rw_with_gzip rw_with_client rw_statusCode rw_client rw_gzipWriter]; rewrite (proj2 (Z.ltb_lt 0 code)) by lia; by rewrite E.
Qed.
Lemma committed_badge on h : hdr_get "X-Proxy" (committed_header version on h) = badge.
Proof.
  unfold committed_header, setProxyBadge. destruct on; [|apply hdr_get_set]. rewrite hdr_get_set_ne by done.
  unfold hdr_get, hdr_del. rewrite lookup_delete_ne by done. apply hdr_get_set.
Qed.

(** Committing what is buffered. *)
Lemma commit_buffering input on w : common w -> buffering input w -> (on = true -> accept = true) ->
  let w' := fst (commit version burst on w) in
  common w' /\ streaming input w' /\ rw_writeSize w' = rw_writeSize w /\ rw_capChecked w' = rw_capChecked w /\ rw_capExempt w' = rw_capExempt w /\
  cl_sent (rw_client w') = Some (code, committed_header version on (rw_header w)) /\ (on = false -> rw_gzipWriter w' = None).
Proof.
  intros Hc (Hd & Hg & Hbuf & Hs & Hbody) Hon. unfold commit. rewrite commit_head_eq by done. set (h := committed_header _ _ _).
  set (w1 := rw_done _). assert (Hc1 : common w1) by exact Hc.
  assert (Hst1 : streaming "" (rw_with_buf "" w1)).
  { split; [done|]. split; [done|]. exists h. split; [done|]. split; [apply committed_badge|]. cbn [w1 rw_gzipWriter rw_client rw_with_buf rw_done rw_with_gzip rw_with_client cl_body].
    destruct on; [right|left; by rewrite Hg, Hbody]. split; [by apply Hon|]. unfold h, committed_header. split; [apply hdr_get_set|].
    split; [unfold hdr_set, hdr_del; rewrite lookup_insert_ne by done; by rewrite lookup_delete_eq|]. exists gz_new, []. split; [done|]. split; [done|]. intros rest. by rewrite Hbody. }
  change (rw_buf w1) with (rw_buf w). rewrite Hbuf. case_bool_decide as Ei.
  - cbn [fst]. assert (Ew : rw_with_buf "" w1 = w1) by (rewrite <- Ei, <- Hbuf; done). rewrite Ew in Hst1. rewrite Ei. split; [done|]. split; [done|].
    split_and!; [done..|]. intros ->. cbn. exact Hg.
  - assert (Hwb : writeBody burst input w1 = (let '(w', ok) := writeBody burst input (rw_with_buf "" w1) in (rw_with_buf input w', ok))).
    { unfold writeBody. cbn [rw_gzipWriter rw_with_buf]. destruct (rw_gzipWriter w1); [destruct (gz_write _ _)|];
        unfold counted_Write; cbn [rw_client rw_with_buf rw_with_gzip]; destruct (throttled_Write _ _ _) as [[? ?] ?];
        rewrite <- Hbuf; reflexivity. }
    destruct (writeBody_streaming "" input (rw_with_buf "" w1) Hc1 Hst1) as (C & S & M1 & M2 & M3 & M4 & M5). rewrite Hwb.
    destruct (writeBody burst input (rw_with_buf "" w1)) as [w2 ok]. cbn [fst] in *.
    assert (Er : rw_with_buf "" (rw_with_buf input w2) = w2) by (destruct S as (_ & Sb & _); rewrite <- Sb; by destruct w2). rewrite Er.
    split; [done|]. split; [done|]. split_and!; [done..|]. intros ->. apply M5. cbn. exact Hg.
Qed.

(** The state between two steps: what was written is buffered, or on its way. *)
Definition delivering (input : string) (w : respWriter) : Prop :=
  common w /\ rw_writeSize w = slen input /\ (cap <= 0 \/ rw_capExempt w = true \/ slen input <= cap) /\
  (buffering input w \/ streaming input w).

Lemma eligible_accept w : common w -> gzipEligible w = true -> accept = true.
Proof. intros (_ & _ & _ & Ha). unfold gzipEligible. rewrite Ha. by destruct accept. Qed.

Lemma write_delivers input b w w' : delivering input w -> slen (input +:+ b) < 2 ^ 63 ->
  run_op (OpWrite b) w = Some w' -> delivering (input +:+ b) w'.
Proof.
  intros (Hc & Hn & _ & Hw) Hlt. cbn [run_op]. unfold respWriter_Write. set (w0 := rw_checked w).
  assert (Hc0 : common w0) by (unfold w0, rw_checked; by destruct (rw_capChecked w)).
  assert (Hn0 : rw_writeSize w0 = slen input) by (unfold w0, rw_checked; by destruct (rw_capChecked w)).
  assert (Hw0 : buffering input w0 \/ streaming input w0) by (unfold w0, rw_checked; by destruct (rw_capChecked w)).
  clearbody w0. clear Hc Hn Hw. pose proof (slen_app input b) as Ha. assert (0 <= slen input /\ 0 <= slen b) as [? ?] by (unfold slen; lia).
  assert (E64 : rw_writeSize w0 +64 slen b = slen (input +:+ b)) by (rewrite Hn0, Ha; apply i64_id; unfold in_i64; lia).
  unfold over_cap. destruct (_ && _ && _) eqn:Ov; [done|]. rewrite E64 in *.
  assert (Hcap : cap <= 0 \/ rw_capExempt w0 = true \/ slen (input +:+ b) <= cap).
  { destruct Hc0 as (_ & _ & Hcap & _). rewrite Hcap in Ov. destruct (Z.ltb_spec 0 cap); [|left; lia]. destruct (rw_capExempt w0); [by right; left|].
    right; right. cbn [andb negb] in Ov. by apply Z.ltb_ge in Ov. }
  destruct Hw0 as [Hbf|Hst].
  - assert (Hd : rw_headerDone w0 = false) by apply Hbf. cbn [rw_headerDone rw_with_sizes]. rewrite Hd.
    set (w1 := rw_with_buf _ _). assert (Hb1 : buffering (input +:+ b) w1) 
      by (destruct Hbf as (B1 & B2 & B3 & B4 & B5); split; [exact B1|split; [exact B2|split; [cbn; by rewrite B3|split; [exact B4|exact B5]]]]).
    assert (Hc1 : common w1) by exact Hc0. destruct (_ <? gzipMinSize); cbn [option_map fst]; intros [= <-].
    + split; [done|]. split; [done|]. split; [done|]. by left.
    + destruct (commit_buffering _ (gzipEligible w1) w1 Hc1 Hb1 (eligible_accept w1 Hc1)) as (C & S & M1 & M2 & M3 & _).
      split; [done|]. split; [by rewrite M1|]. split; [by rewrite M3|]. by right.
  - assert (Hd : rw_headerDone w0 = true) by apply Hst. cbn [rw_headerDone rw_with_sizes]. rewrite Hd. cbn [option_map]. intros [= <-].
    destruct (writeBody_streaming input b (rw_with_sizes (slen (input +:+ b)) (rw_compSize w0) w0) Hc0 Hst) as (C & S & M1 & M2 & M3 & _).
    split; [done|]. split; [by rewrite M1|]. split; [by rewrite M3|]. by right.
Qed.
Lemma write_aborts input b w : delivering input w -> slen (input +:+ b) < 2 ^ 63 -> run_op (OpWrite b) w = None -> 0 < cap < slen (input +:+ b).
Proof.
  intros ((_ & _ & Hcap & _) & Hn & _) Hlt. cbn [run_op]. unfold respWriter_Write, over_cap.
  assert (Hm : rw_writeSize (rw_checked w) = slen input /\ rw_respMaxSize (rw_checked w) = cap) by (unfold rw_checked; by destruct (rw_capChecked w)).
  destruct Hm as [-> ->]. pose proof (slen_app input b) as Ha. assert (0 <= slen input /\ 0 <= slen b) as [? ?] by (unfold slen; lia).
  rewrite i64_id by (unfold in_i64; lia). rewrite <- Ha. destruct (Z.ltb_spec 0 cap), (rw_capExempt (rw_checked w)), (Z.ltb_spec cap (slen (input +:+ b))); cbn [andb negb];
    try (destruct (rw_headerDone _); [done|]; destruct (_ <? gzipMinSize); done). done.
Qed.

Lemma flush_delivers input w : delivering input w -> delivering input (respWriter_Flush version burst w).
Proof.
  intros (Hc & Hn & Hcap & Hw). unfold respWriter_Flush. set (w1 := if rw_headerDone w then w else _).
  assert (H1 : common w1 /\ streaming input w1 /\ rw_writeSize w1 = rw_writeSize w /\ rw_capExempt w1 = rw_capExempt w).
  { unfold w1. destruct Hw as [Hbf|Hst].
    - assert (Hd : rw_headerDone w = false) by apply Hbf. rewrite Hd.
      destruct (commit_buffering _ (gzipEligible w) w Hc Hbf (eligible_accept w Hc)) as (C & S & M1 & M2 & M3 & _). done.
    - assert (Hd : rw_headerDone w = true) by apply Hst. by rewrite Hd. }
  clearbody w1. destruct H1 as (Hc1 & Hs1 & M1 & M3). set (w2 := match rw_gzipWriter w1 with Some _ => _ | None => _ end).
  assert (H2 : common w2 /\ streaming input w2 /\ rw_writeSize w2 = rw_writeSize w1 /\ rw_capExempt w2 = rw_capExempt w1).
  { unfold w2. destruct Hs1 as (Hd & Hbuf & h & Hs & Hbad & Hz). destruct Hz as [[Hg Hbody]|(Ha & Hce & Hcl & g & ops & Hg & Hin & Hrun)]; rewrite Hg.
    - split; [done|]. split; [|done]. split; [done|]. split; [done|]. exists h. split; [done|]. split; [done|]. by left.
    - destruct (gz_flush g) as [g' out] eqn:Eg. rewrite counted_intact by (apply Hc1 || by eexists). cbn [fst]. split; [exact Hc1|]. split; [|done].
      split; [done|]. split; [done|]. exists h. split; [done|]. split; [done|]. right. split; [done|]. split; [done|]. split; [done|].
      exists g', (ops ++ [GzFlush])%list. split; [done|]. split; [by rewrite gz_input_flush|].
      intros rest. cbn [rw_client rw_with_client rw_with_sizes appended cl_body rw_with_gzip]. rewrite <- app_assoc. cbn [app].
      rewrite <- Hrun. cbn [gz_run gz_step]. rewrite Eg. by rewrite s_app_assoc. }
  clearbody w2. destruct H2 as (Hc2 & Hs2 & M1' & M3').
  assert (Hf : exists n, client_Flush (rw_client w2) = {| cl_header := cl_header (rw_client w2); cl_sent := cl_sent (rw_client w2);
     cl_infos := cl_infos (rw_client w2); cl_body := cl_body (rw_client w2); cl_flushes := n; cl_room := cl_room (rw_client w2); cl_gone := cl_gone (rw_client w2) |}).
  { destruct Hs2 as (_ & _ & h & Hs & _). unfold client_Flush, client_WriteHeader. rewrite Hs. rewrite Hs. by eexists. }
  destruct Hf as [n ->]. split; [exact Hc2|]. split; [cbn; by rewrite M1', M1|]. split; [cbn; by rewrite M3', M3|]. right. exact Hs2.
Qed.

Lemma status_kept c w : common w -> respWriter_WriteHeader c w = w.
Proof. intros (_ & Hs & _). unfold respWriter_WriteHeader. rewrite Hs. by rewrite (proj2 (Z.eqb_neq _ _)) by lia. Qed.

Lemma run_delivers ops : forall input w w', delivering input w -> slen (input +:+ op_input ops) < 2 ^ 63 ->
  run_ops ops w = Some w' -> delivering (input +:+ op_input ops) w'.
Proof.
  induction ops as [|o ops IH]; intros input w w' Hd Hlt; cbn [run_ops].
  - intros [= <-]. cbn [op_input]. by rewrite s_app_nil_r.
  - destruct (run_op o w) as [w1|] eqn:E; [|done]. cbn [mbind option_bind]. intros Hr. destruct o as [f|c|b|]; cbn [op_input] in *.
    + injection E as <-. refine (IH input _ w' _ Hlt Hr). exact Hd.
    + injection E as <-. rewrite status_kept in Hr by apply Hd. by apply (IH input w w').
    + rewrite <- s_app_assoc in *. eapply IH; [|exact Hlt|exact Hr]. apply (write_delivers input b w); [done| |done].
      rewrite slen_app in Hlt. assert (0 <= slen (op_input ops)) by (unfold slen; lia). lia.
    + injection E as <-. refine (IH input _ w' _ Hlt Hr). by apply flush_delivers.
Qed.
Lemma run_aborts ops : forall input w, delivering input w -> slen (input +:+ op_input ops) < 2 ^ 63 ->
  run_ops ops w = None -> 0 < cap < slen (input +:+ op_input ops).
Proof.
  induction ops as [|o ops IH]; intros input w Hd Hlt; cbn [run_ops]; [done|].
  destruct (run_op o w) as [w1|] eqn:E; cbn [mbind option_bind].
  - intros Hr. assert (Hx : exists input', delivering input' w1 /\ input' +:+ op_input ops = input +:+ op_input (o :: ops)).
    { assert (H1 : run_ops [o] w = Some w1) by (cbn [run_ops]; rewrite E; done). exists (input +:+ op_input [o]). split.
      - eapply run_delivers; [exact Hd| |exact H1]. destruct o as [f|c|b|]; cbn [op_input] in *; rewrite ?s_app_nil_r; rewrite slen_app in Hlt;
          try rewrite slen_app in Hlt; try rewrite slen_app; assert (0 <= slen (op_input ops)) by (unfold slen; lia); lia.
      - destruct o as [f|c|b|]; cbn [op_input]; rewrite ?s_app_nil_r; [done..|by rewrite s_app_assoc|done]. }
    destruct Hx as (input' & Hd' & Ei). rewrite <- Ei in *. by eapply IH.
  - intros _. destruct o as [f|c|b|]; try done. cbn [op_input] in *. rewrite <- s_app_assoc in *. rewrite slen_app in Hlt |- *.
    assert (0 <= slen (op_input ops)) by (unfold slen; lia). destruct (write_aborts input b w Hd ltac:(lia) E). lia.
Qed.

(** What the client has in the end. *)
Definition delivered (input : string) (c : client) : Prop :=
  exists h, cl_sent c = Some (code, h) /\ hdr_get "X-Proxy" h = badge /\
    (cl_body c = input \/
     (accept = true /\ hdr_get "Content-Encoding" h = "gzip" /\ h !! "Content-Length" = None /\ gunzip (cl_body c) = Some input)).
Lemma finish_delivers input w : delivering input w -> delivered input (rw_client (finish version burst w)).
Proof.
  intros (Hc & Hn & Hcap & [Hbf|Hst]); unfold finish.
  - destruct Hbf as (Hd & Hg & Hbuf & Hs & Hbody). rewrite Hg, Hd. set (h := if 0 <? _ then _ else _). set (w1 := rw_with_client _ w).
    assert (Hb1 : buffering input w1) by done. assert (Hc1 : common w1) by exact Hc.
    destruct (commit_buffering input false w1 Hc1 Hb1 ltac:(done)) as (C & S & _ & _ & _ & Hsent & Hng).
    destruct S as (_ & _ & h' & Hs' & Hbad & [[_ Hbd]|(_ & _ & _ & g & ops & Hg' & _)]); [|by rewrite Hng in Hg'].
    exists h'. split; [done|]. split; [done|]. by left.
  - destruct Hst as (Hd & Hbuf & h & Hs & Hbad & Hz). destruct Hz as [[Hg Hbody]|(Ha & Hce & Hcl & g & ops & Hg & Hin & Hrun)]; rewrite Hg.
    + rewrite Hd. exists h. split; [done|]. split; [done|]. by left.
    + rewrite counted_intact by (apply Hc || by eexists). cbn [fst rw_headerDone rw_with_gzip rw_with_sizes rw_with_client]. rewrite Hd.
      exists h. split; [done|]. split; [done|]. right. split; [done|]. split; [done|]. split; [done|]. cbn [rw_client rw_with_gzip rw_with_sizes rw_with_client appended cl_body].
      specialize (Hrun []). cbn [gz_run] in Hrun. rewrite Hrun, app_nil_r, gunzip_run. by rewrite Hin.
Qed.

(** A short response that is never flushed goes out in one piece with its length. *)
Lemma short_buffered ops : forall input w w', delivering input w -> buffering input w -> OpFlush ∉ ops -> slen (input +:+ op_input ops) < gzipMinSize ->
  run_ops ops w = Some w' -> buffering (input +:+ op_input ops) w' /\ common w'.
Proof.
  assert (Hk : gzipMinSize = 1024) by reflexivity.
  induction ops as [|o ops IH]; intros input w w' Hd Hbf Hnf Hlt; cbn [run_ops].
  - intros [= <-]. cbn [op_input]. rewrite s_app_nil_r. split; [done|apply Hd].
  - apply not_elem_of_cons in Hnf as [Hno Hnf]. destruct (run_op o w) as [w1|] eqn:E; [|done]. cbn [mbind option_bind]. intros Hr.
    destruct o as [f|c|b|]; cbn [op_input] in *; [| | |done].
    + injection E as <-. by apply (IH input (rw_with_client (cl_with_header (f (rw_header w)) (rw_client w)) w) w').
    + injection E as <-. rewrite status_kept in Hr by apply Hd. by apply (IH input w w').
    + rewrite <- s_app_assoc in *. assert (Hlt1 : slen (input +:+ b) < 1024).
      { rewrite slen_app in Hlt. assert (0 <= slen (op_input ops)) by (unfold slen; lia). lia. }
      assert (Hd1 : delivering (input +:+ b) w1) by (apply (write_delivers input b w); [done|lia|done]).
      apply (IH (input +:+ b) w1); [done| |done|done|done]. cbn [run_op] in E. unfold respWriter_Write in E.
      destruct (over_cap _ _); [done|]. set (w0 := rw_checked w) in E.
      assert (Hb0 : buffering input w0) by (unfold w0, rw_checked; by destruct (rw_capChecked w)). clearbody w0.
      destruct Hb0 as (H1 & H2 & H3 & H4 & H5). cbn [rw_headerDone rw_with_sizes] in E. rewrite H1 in E. cbn [rw_buf rw_with_sizes rw_with_buf] in E. rewrite H3 in E.
      rewrite Hk, (proj2 (Z.ltb_lt _ _)) in E by lia. injection E as <-. by split_and!.
Qed.
End responses.

(** C27: The client gets what the handler wrote.  However a response with a status is cut
    into writes and flushed, on a connection that holds and with a burst of at least a
    chunk, the client has the status, the badge of the gateway, and the body: as written, or
    compressed by the gateway, and then only for a client that accepts it, announced and
    without a length of the plain text.  A response that stays short and unflushed has the
    exact length.  Only a response over the size cap is aborted, and unless it is an event
    stream no other is delivered. *)
Theorem response_delivered (G : Gzip) (GL : GzipLaws G) (version : string) (burst cap code : Z) (path : string) (accept : bool)
    (c0 : client) (ops : list resp_op) :
  chunkSize <= burst -> 200 <= code -> intact c0 -> cl_sent c0 = None -> cl_body c0 = "" -> slen (op_input ops) < 2 ^ 63 ->
  match run_ops version burst (OpStatus code :: ops) (new_respWriter path cap accept c0) with
  | Some w =>
    delivered version code accept (op_input ops) (rw_client (finish version burst w)) /\
    (cap <= 0 \/ rw_capExempt w = true \/ slen (op_input ops) <= cap) /\
    (OpFlush ∉ ops -> slen (op_input ops) < gzipMinSize -> op_input ops <> "" ->
     cl_body (rw_client (finish version burst w)) = op_input ops /\
     exists h, cl_sent (rw_client (finish version burst w)) = Some (code, h) /\ hdr_get "Content-Length" h = itoa (slen (op_input ops)))
  | None => 0 < cap < slen (op_input ops)
  end.
Proof.
  intros Hb Hcode Hi Hs Hbody Hlt. cbn [run_ops run_op mbind option_bind]. set (w0 := respWriter_WriteHeader code _).
  assert (Hbf : buffering "" w0) by (split_and!; done).
  assert (Hd0 : delivering version code cap accept "" w0).
  { split; [split; [exact Hi|split; [done|split; done]]|]. split; [done|]. split; [change (slen "") with 0; lia|]. by left. }
  destruct (run_ops version burst ops w0) as [w|] eqn:E.
  - pose proof (run_delivers version burst Hb code Hcode cap accept ops "" w0 w Hd0 Hlt E) as Hd.
    change ("" +:+ op_input ops) with (op_input ops) in Hd. split; [by eapply finish_delivers|].
    split; [apply Hd|]. intros Hnf Hshort Hne. destruct (short_buffered version burst Hb code Hcode cap accept ops "" w0 w Hd0 Hbf Hnf Hshort E) as [Hbw Hcw].
    destruct Hbw as (H1 & H2 & H3 & H4 & H5). unfold finish. rewrite H2, H1, H3. change ("" +:+ op_input ops) with (op_input ops).
    assert (Hpos : 0 < slen (op_input ops)) by (destruct (op_input ops); [done|unfold slen; cbn; lia]). rewrite (proj2 (Z.ltb_lt _ _) Hpos).
    set (w1 := rw_with_client _ w). assert (Hb1 : buffering (op_input ops) w1) by (split_and!; done). assert (Hc1 : common code cap accept w1) by exact Hcw.
    destruct (commit_buffering version burst Hb code Hcode cap accept _ false w1 Hc1 Hb1 ltac:(done)) as (_ & S & _ & _ & _ & Hsent & Hng).
    destruct S as (_ & _ & _ & _ & _ & [[_ Hbd]|(_ & _ & _ & g & o & Hg' & _)]); [|by rewrite Hng in Hg']. split; [done|].
    eexists. split; [exact Hsent|]. unfold committed_header, setProxyBadge. rewrite hdr_get_set_ne by done. apply hdr_get_set.
  - by apply (run_aborts version burst Hb code Hcode cap accept ops "" w0 Hd0 Hlt).
Qed.

(** A burst below the size of a chunk stops every longer write before its first byte: the
    configured burst is not raised to the chunks. *)
Lemma small_burst_refuses burst p c : 0 < slen p -> burst < Z.min chunkSize (slen p) -> throttled_Write burst p c = (c, 0, false).
Proof.
  intros Hp Hb. unfold throttled_Write. cbn [throttled_from]. rewrite (proj2 (Z.ltb_lt _ _) Hp). unfold WaitN.
  set (e := if _ <? _ then _ else _). assert (E : e - 0 = Z.min chunkSize (slen p)).
  { unfold e. change (0 + chunkSize) with chunkSize. destruct (Z.ltb_spec (slen p) chunkSize); lia. }
  rewrite E. by rewrite (proj2 (Z.leb_gt _ _) Hb).
Qed.

(** ** A compression that only announces itself *)

Definition stored_gzip : Gzip :=
  {| gz := bool; gz_new := false; gz_write started b := (true, (if started then "" else "gz") +:+ b);
     gz_flush started := (true, if started then "" else "gz"); gz_close started := if started then "" else "gz";
     gunzip s := match s with String "g" (String "z" rest) => Some rest | _ => None end |}.
#[local] Existing Instance stored_gzip.
Lemma stored_gzip_laws : GzipLaws stored_gzip.
Proof.
  constructor. assert (H : forall ops, gz_run (H := stored_gzip) true ops = gz_input ops).
  { induction ops as [|[b|] ops IH]; cbn; [done|by rewrite IH|by rewrite IH]. }
  intros [|[b|] ops]; cbn; [done|by rewrite H|by rewrite H].
Qed.

Definition ex_client : client :=
  {| cl_header := <["Content-Type" := ["text/plain"]]> ∅; cl_sent := None; cl_infos := []; cl_body := ""; cl_flushes := 0; cl_room := None; cl_gone := false |}.
Definition ex_ops : list resp_op := [OpWrite "one "; OpFlush; OpWrite "two"].
Definition ex_outcome (ops : list resp_op) (w : respWriter) : option (option Z * string * string) :=
  option_map (fun w => let c := rw_client (finish "2.0.0" 102400 w) in (option_map fst (cl_sent c), cl_body c, default "" (option_map (fun s => hdr_get "Content-Encoding" (snd s)) (cl_sent c))))
    (run_ops "2.0.0" 102400 ops w).
Lemma response_delivered_witness :
  ex_outcome (OpStatus 200 :: ex_ops) (new_respWriter "/a.txt" 100 true ex_client) = Some (Some 200, "gzone two", "gzip") /\
  match run_ops "2.0.0" 102400 (OpStatus 200 :: ex_ops) (new_respWriter "/a.txt" 100 true ex_client) with
  | Some w =>
    delivered "2.0.0" 200 true "one two" (rw_client (finish "2.0.0" 102400 w)) /\
    (100 <= 0 \/ rw_capExempt w = true \/ slen "one two" <= 100) /\
    (OpFlush ∉ ex_ops -> slen "one two" < gzipMinSize -> "one two" <> "" ->
     cl_body (rw_client (finish "2.0.0" 102400 w)) = "one two" /\
     exists h, cl_sent (rw_client (finish "2.0.0" 102400 w)) = Some (200, h) /\ hdr_get "Content-Length" h = itoa (slen "one two"))
  | None => 0 < 100 < slen "one two"
  end.
Proof.
  split; [vm_compute; reflexivity|].
  apply (response_delivered stored_gzip stored_gzip_laws "2.0.0" 102400 100 200 "/a.txt" true ex_client ex_ops); [vm_compute; done|lia|done..|vm_compute; done].
Defined.

(** An informational reply of the upstream takes the place of the status that follows it:
    the client gets 200 for a 404. *)
Example early_hints_lose_status :
  ex_outcome [OpStatus 103; OpStatus 404; OpWrite "no"] (new_respWriter "/a.txt" 100 false ex_client) = Some (Some 200, "no", "").
Proof. vm_compute. reflexivity. Qed.

(** A limiter is forgotten while a long transfer still uses it: the next request of the
    client gets a full new one. *)
Example active_limiter_forgotten :
  let cfg := {| li_Rate := 102400; li_Burst := 102400; li_IpExpireAfter := 60; li_CleanupSeconds := 30 |} in
  let '(l, first) := ipLimiter 1000 "10.0.0.7" {| lm_made := 0; lm_entries := ∅ |} in
  first = 0%nat /\ snd (ipLimiter 1070 "10.0.0.7" (ipLimiterCleaner 1070 cfg l)) = 1%nat.
Proof. vm_compute. done. Qed.
