(* ===== verification/IngateHttp.v ===== *)
(** What the gateway does with a request, [src/cmd/ingate/main.go]: the two entries, local
    files, tunnels, proxied and redirected routes.  The answer says who serves the request;
    the bytes of it are in [IngateWriter].  Metrics and the log are left out. *)
From Stdlib Require Import ZArith Lia Ascii.
From S2P Require Import Prelude GoStrings GoPath AppNames Inet Zone Gateway Ingate IngateWriter.
Local Open Scope string_scope.
Local Open Scope Z_scope.
Local Open Scope go_scope.

Record request := {
  rq_Host : string; rq_Path : string; rq_Header : header; rq_RemoteAddr : string; rq_TLS : bool; rq_hijackable : bool }.

Inductive response :=
| Html (code : Z)                          (* a builtin page *)
| Text (code : Z)                          (* http.Error *)
| Acme                                     (* the handler of the certificate manager *)
| ModulePage (m : ConfigModule)
| File (root rel : string)                 (* http.ServeContent *)
| Redirect (location : string)
| Proxied (target : Url)
| Tunnel (target : Url)
| Aborted.                                 (* a panic: the connection is closed *)

(** [httpguts.HeaderValuesContainsToken], and opening below a root: whether the file is a
    directory, [None] if it cannot be opened. *)
Class HttpEnv := { has_token : list string -> string -> bool; open_below : string -> string -> option bool }.

Definition last_index (c : ascii) (s : string) : Z := match cut_last c s with Some (a, _) => slen a | None => - 1 end.
Definition stripHostPort (host : string) : string :=
  let i := last_index ":" host in
  if last_index "]" host <? i then String.substring 0 (Z.to_nat i) host else host.

(** [ipAddress] *)
Definition first_of (s : string) : string := match split_at "," s with a :: _ => a | [] => "" end.
Definition ipAddress `{Ip6Syntax} (r : request) : string :=
  let ip := default "" (SplitHostPort (rq_RemoteAddr r)) in
  let xff := hdr_get "X-Forwarded-For" (rq_Header r) in
  let xri := hdr_get "X-Real-Ip" (rq_Header r) in
  let ip := if bool_decide (xff <> "") then first_of xff else if bool_decide (xri <> "") then first_of xri else ip in
  match ParseIP ip with Some _ => ip | None => "127.0.0.0" end.

(** The [Director] of a proxy: what it sets beside the target. *)
Definition proxy_director (r : request) : header :=
  hdr_set "X-Forwarded-Proto" (if rq_TLS r then "https" else "http")
    (hdr_set "X-Real-Ip" (default (rq_RemoteAddr r) (SplitHostPort (rq_RemoteAddr r))) (rq_Header r)).

Definition trim_prefix (p s : string) : string := default s (cut_prefix p s).
(** The path a local route opens below its root; an error is a refusal. *)
Definition localfs_path (route : DomainEntryRoute) (urlPath : string) : result string :=
  let relPath := Clean (trim_prefix "/" (trim_prefix (er_Path route) urlPath)) in
  if is_rooted relPath || has_prefix relPath ".." then Err "forbidden" else Ok relPath.

Section handlers.
Context {UL : UrlLib} {HE : HttpEnv}.

Definition set_entry (name : string) (e : DomainEntry) (g : ingate) : ingate :=
  set_cfg (with_index (ig_cfg g) (cf_Domains (ig_cfg g)) (<[name := e]> (cf_indexDomains (ig_cfg g))) (cf_lastRevision (ig_cfg g))) g.
(** The next target of a route of the domain. *)
Definition pick_target (name : string) (e : DomainEntry) (route : DomainEntryRoute) (g : ingate) : ingate * option Url :=
  let '(e, u) := pickProxy e route in (set_entry name e g, u).

Definition localfsServe (g : ingate) (r : request) (urlPath : string) : option response :=
  match Config_Domain (ig_cfg g) (rq_Host r) with
  | None => None
  | Some domain =>
    match lookup domain urlPath with
    | None => None
    | Some route =>
      if bool_decide (er_Type route <> gatewayIngressTypeLocalfs) then None
      else Some
        match er_Urls route with
        | [] => Html 404
        | root :: _ =>
          match localfs_path route urlPath with
          | Err _ => Html 403
          | Ok relPath =>
            match open_below (u_Path root) relPath with
            | None => Html 404
            | Some true => Html 403
            | Some false => File (u_Path root) relPath
            end
          end
        end
    end
  end.

Definition upgradeRequestType (h : header) : string :=
  if has_token (default [] (h !! "Connection")) "Upgrade" then hdr_get "Upgrade" h else "".
Definition proxyTunnelServe (g : ingate) (r : request) (urlPath : string) : ingate * option response :=
  if bool_decide (upgradeRequestType (rq_Header r) = "") then (g, None)
  else match Config_Domain (ig_cfg g) (rq_Host r) with
  | None => (g, None)
  | Some domain =>
    match lookup domain urlPath with
    | None => (g, None)
    | Some route =>
      if bool_decide (er_Type route <> gatewayIngressTypeProxy) then (g, None)
      else match pick_target (rq_Host r) domain route g with
      | (g, None) => (g, Some (Text 502))
      | (g, Some u) => (g, Some (if rq_hijackable r then Tunnel u else Text 501))
      end
    end
  end.

(** The handler inside [rootHandler]. *)
Definition route_request (g : ingate) (r : request) (urlPath : string) : ingate * response :=
  match Config_Domain (ig_cfg g) (rq_Host r) with
  | None => (g, Html 403)
  | Some domain =>
    match lookup domain urlPath with
    | None => (g, Html 404)
    | Some route =>
      if bool_decide (er_Type route = GatewayIngressType_Instance) || bool_decide (er_Type route = GatewayIngressType_Upstream) ||
         bool_decide (er_Type route = gatewayIngressTypeProxy) then
        match pick_target (rq_Host r) domain route g with
        | (g, Some u) => (g, Proxied u)
        | (g, None) => (g, Text 502)
        end
      else if bool_decide (er_Type route = GatewayIngressType_Redirect) then
        match er_Urls route with
        | u :: _ => (g, Redirect (url_String u))
        | [] => (g, Aborted)
        end
      else (g, Html 404)
    end
  end.

Definition with_host (host : string) (r : request) : request :=
  {| rq_Host := host; rq_Path := rq_Path r; rq_Header := rq_Header r; rq_RemoteAddr := rq_RemoteAddr r; rq_TLS := rq_TLS r; rq_hijackable := rq_hijackable r |}.
Definition rootHandler (g : ingate) (r : request) : ingate * response :=
  let r := with_host (stripHostPort (rq_Host r)) r in
  let urlPath := Clean (rq_Path r) in
  match localfsServe g r urlPath with
  | Some res => (g, res)
  | None =>
    match proxyTunnelServe g r urlPath with
    | (g, Some res) => (g, res)
    | (g, None) => route_request g r urlPath
    end
  end.

(** The entry of plain HTTP. *)
Definition ServeHTTP (g : ingate) (r : request) : ingate * response :=
  let r := with_host (stripHostPort (rq_Host r)) r in
  match Config_Domain (ig_cfg g) (rq_Host r) with
  | None =>
    match Config_Module (ig_cfg g) (rq_Host r) with
    | Some m => (g, ModulePage m)
    | None => (g, Html 404)
    end
  | Some domain =>
    if (0 <? sv_HttpsPort (cf_Server (ig_cfg g))) && LetsencryptEnabled domain then (g, Acme) else rootHandler g r
  end.

(** The page of the module, for which the template gets these values. *)
Definition ServiceContext_Option (options : gmap string string) (name : string) : string := default "" (options !! name).
Definition module_DomainSale_params (m : ConfigModule) (r : request) : gmap string string :=
  <["domain_name" := rq_Host r]> (<["contact_email" := ServiceContext_Option (md_Options m) "contact_email"]> ∅).
End handlers.
