(* ===== verification/IngateHttpLogic.v ===== *)
(** Theorems about requests to the gateway ([IngateHttp]): an answer comes from the routes of
    the request's own domain, a local file is below the root of its route, and the targets
    of a route take turns. *)
From Stdlib Require Import ZArith Lia Ascii.
From S2P Require Import Prelude GoStrings GoPath AppNames Inet Zone Gateway GatewayLogic Ingate IngateLogic IngateWriter IngateHttp.
Local Open Scope string_scope.
Local Open Scope Z_scope.
Local Open Scope go_scope.

Section requests.
Context {UL : UrlLib} {SS : SortSlice} {SSL : SortSliceLaws SS} {HE : HttpEnv}.

Lemma lookup_index_in fuel idx p r : lookup_index fuel idx p = Some r -> exists q, idx !! q = Some r.
Proof.
  revert p. induction fuel as [|fuel IH]; intros p; cbn [lookup_index]; [done|]. destruct (idx !! p) as [r'|] eqn:E; [intros [= <-]; by exists p|].
  destruct (_ || _); [done|]. destruct (bool_decide _); [done|]. apply IH.
Qed.
(** A route that is found is made of a location of the domain. *)
Lemma lookup_location name e p r : entry_good name e -> lookup e p = Some r ->
  exists isdir id location, location ∈ gd_Routes (de_Domain e) /\ entry_route isdir id location = Some r.
Proof.
  intros (_ & _ & isdir & Hp & Hi & _) Hl. assert (Hin : r ∈ entry_routes isdir 0 (gd_Routes (de_Domain e))).
  { unfold lookup in Hl. destruct (lookup_index _ _ _) as [r'|] eqn:E.
    - injection Hl as ->. apply lookup_index_in in E as [q Hq]. rewrite Hi in Hq. by apply route_index_path in Hq as [_ ?].
    - apply last_Some_elem_of in Hl. by rewrite <- Hp. }
  destruct (entry_routes_from _ _ _ _ Hin) as (location & id & H1 & H2). by exists isdir, id, location.
Qed.

(** The targets of a route, by its type. *)
Definition target_of (location : DeployRoute) (u : Url) : Prop := exists tg, tg ∈ gr_Targets location /\
  (u = http_url (it_Backend tg) /\ (gr_Type location = GatewayIngressType_Instance \/ gr_Type location = GatewayIngressType_Upstream) \/
   proxy_target tg = Some u /\ gr_Type location = gatewayIngressTypeProxy).
Lemma entry_route_target isdir id location r u : entry_route isdir id location = Some r -> u ∈ er_reverseProxy r -> target_of location u.
Proof.
  unfold entry_route, target_of. destruct (gr_Targets location) as [|tg rest] eqn:Et; [done|]. destruct (_ || _) eqn:C.
  - intros [= <-]. cbn [er_reverseProxy]. change (http_url (it_Backend tg) :: _) with (map (fun tg => http_url (it_Backend tg)) (tg :: rest)).
    intros (x & -> & Hx)%list_elem_of_fmap. exists x. split; [done|]. left. split; [done|].
    apply orb_true_iff in C as [C|C]; apply bool_decide_eq_true in C; auto.
  - clear C. case_bool_decide; [destruct (url_Parse _); [intros [= <-] Hu; by apply elem_of_nil in Hu|done]|].
    case_bool_decide; [destruct rest; [destruct (_ && _)|]; intros [= <-] Hu; by apply elem_of_nil in Hu|].
    case_bool_decide; [|done]. intros [= <-] Hu. change (u ∈ omap proxy_target (tg :: rest)) in Hu. apply list_elem_of_omap in Hu as (x & Hx & E). exists x. split; [done|]. by right.
Qed.
Lemma entry_route_files isdir id location r root urls : entry_route isdir id location = Some r -> er_Type r = gatewayIngressTypeLocalfs ->
  er_Urls r = root :: urls -> exists tg, gr_Targets location = [tg] /\ u_Path root = Clean (it_Backend tg) /\ isdir (u_Path root) = true.
Proof.
  intros E Ht. pose proof (entry_route_of _ _ _ _ E) as [_ El]. rewrite Ht in El. revert E. unfold entry_route. rewrite <- El.
  destruct (gr_Targets location) as [|tg rest]; [done|]. rewrite !(bool_decide_false (gatewayIngressTypeLocalfs = _)) by done. cbn [orb].
  rewrite bool_decide_true by done. destruct rest; [|by intros [= <-]]. destruct (_ && _) eqn:C; [|by intros [= <-]]. intros [= <-]. cbn [er_Urls].
  intros [= <- _]. exists tg. cbn [u_Path]. apply andb_true_iff in C as [_ C]. done.
Qed.
Lemma entry_route_redirect isdir id location r : entry_route isdir id location = Some r -> er_Type r = GatewayIngressType_Redirect ->
  exists tg rest u, gr_Targets location = tg :: rest /\ url_Parse (it_Backend tg) = Ok u /\ er_Urls r = [u].
Proof.
  intros E Ht. pose proof (entry_route_of _ _ _ _ E) as [_ El]. rewrite Ht in El. revert E. unfold entry_route. rewrite <- El.
  destruct (gr_Targets location) as [|tg rest]; [done|]. rewrite (bool_decide_false (_ = GatewayIngressType_Instance)) by done.
  rewrite (bool_decide_false (_ = GatewayIngressType_Upstream)) by done. cbn [orb]. rewrite bool_decide_true by done.
  destruct (url_Parse (it_Backend tg)) as [u|] eqn:Eu; [|done]. intros [= <-]. by exists tg, rest, u.
Qed.

(** A path below a root has only plain segments. *)
Definition plain_path (rel : string) : Prop := rel = "." \/ exists segs, segs <> [] /\ Forall seg_ok segs /\ rel = join "/" segs.
Lemma localfs_plain route urlPath rel : localfs_path route urlPath = Ok rel -> plain_path rel.
Proof.
  unfold localfs_path. set (s := trim_prefix _ _). destruct (_ || _) eqn:C; [done|]. intros [= <-]. apply orb_false_iff in C as [C1 C2].
  unfold Clean in *. destruct (is_rooted s) eqn:Hr; [by rewrite rooted_slash in C1|].
  pose proof (clean_rel_shape (split_at "/" s) 0 [] (split_at_no _ _) (Forall_nil_2 _)) as Hc. cbn [replicate app] in Hc. change (reverse []) with (@nil string) in Hc.
  change ([] ++ [])%list with (@nil string) in Hc. destruct (clean_segments false [] (split_at "/" s)) as [|x segs] eqn:E; [by left|]. right.
  destruct Hc as (n & l & El & Hl). destruct n as [|n]; cbn [replicate app] in El.
  - exists (x :: segs). split; [done|]. split; [by rewrite El|done].
  - injection El as -> _. exfalso. destruct segs; cbn in C2; by destruct (join _ _) || done.
Qed.

(** What an answer of a domain says of the domain's own locations. *)
Definition answer_ok (d : IngressDeploy) (res : response) : Prop :=
  match res with
  | Proxied u | Tunnel u => exists location, location ∈ gd_Routes d /\ target_of location u
  | File root rel => plain_path rel /\ open_below root rel = Some false /\
      exists location tg, location ∈ gd_Routes d /\ gr_Type location = gatewayIngressTypeLocalfs /\ gr_Targets location = [tg] /\ root = Clean (it_Backend tg)
  | Redirect l => exists location tg rest u, location ∈ gd_Routes d /\ gr_Type location = GatewayIngressType_Redirect /\
      gr_Targets location = tg :: rest /\ url_Parse (it_Backend tg) = Ok u /\ l = url_String u
  | Html code => code = 403 \/ code = 404
  | Text code => code = 501 \/ code = 502
  | _ => False
  end.

Lemma pick_in e route u : snd (pickProxy e route) = Some u -> u ∈ er_reverseProxy route.
Proof. unfold pickProxy. destruct (_ =? 0); [done|]. cbn. apply list_elem_of_lookup_2. Qed.

Lemma localfs_ok g r urlPath e res : index_good (cf_indexDomains (ig_cfg g)) -> Config_Domain (ig_cfg g) (rq_Host r) = Some e ->
  localfsServe g r urlPath = Some res -> answer_ok (de_Domain e) res.
Proof.
  intros Hg He. unfold localfsServe. rewrite He. destruct (lookup e urlPath) as [route|] eqn:El; [|done]. case_bool_decide as Et; [done|].
  assert (Ht : er_Type route = gatewayIngressTypeLocalfs) by (destruct (decide (er_Type route = gatewayIngressTypeLocalfs)); [done|by destruct Et]). intros [= <-].
  destruct (lookup_location _ e _ _ (Hg _ _ He) El) as (isdir & id & location & Hin & Eloc). destruct (er_Urls route) as [|root urls] eqn:Eu; [by right|].
  destruct (localfs_path route urlPath) as [rel|] eqn:Ep; [|by left]. destruct (open_below _ _) as [[]|] eqn:Eo; [by left| |by right].
  destruct (entry_route_files _ _ _ _ _ _ Eloc Ht Eu) as (tg & H1 & H2 & _). split; [by eapply localfs_plain|]. split; [done|].
  exists location, tg. split; [done|]. split; [|done]. pose proof (entry_route_of _ _ _ _ Eloc) as [_ H]. congruence.
Qed.
Lemma tunnel_ok g r urlPath e g' res : index_good (cf_indexDomains (ig_cfg g)) -> Config_Domain (ig_cfg g) (rq_Host r) = Some e ->
  proxyTunnelServe g r urlPath = (g', Some res) -> answer_ok (de_Domain e) res.
Proof.
  intros Hg He. unfold proxyTunnelServe. case_bool_decide; [done|]. rewrite He. destruct (lookup e urlPath) as [route|] eqn:El; [|done].
  case_bool_decide; [done|]. unfold pick_target. pose proof (pick_in e route) as Hpick. destruct (pickProxy e route) as [e' [u|]]; [|intros [= _ <-]; by right].
  destruct (lookup_location _ e _ _ (Hg _ _ He) El) as (isdir & id & location & Hin & Eloc).
  intros [= _ <-]. destruct (rq_hijackable r); [|by left]. exists location. split; [done|]. eapply entry_route_target; [done|by apply Hpick].
Qed.
Lemma route_ok g r urlPath e : index_good (cf_indexDomains (ig_cfg g)) -> Config_Domain (ig_cfg g) (rq_Host r) = Some e ->
  answer_ok (de_Domain e) (snd (route_request g r urlPath)).
Proof.
  intros Hg He. unfold route_request. rewrite He. destruct (lookup e urlPath) as [route|] eqn:El; [|by right].
  destruct (lookup_location _ e _ _ (Hg _ _ He) El) as (isdir & id & location & Hin & Eloc).
  destruct (_ || _ || _).
  - unfold pick_target. pose proof (pick_in e route) as Hpick. destruct (pickProxy e route) as [e' [u|]]; [|by right].
    exists location. split; [done|]. eapply entry_route_target; [done|by apply Hpick].
  - case_bool_decide as Et; [|by right]. destruct (entry_route_redirect _ _ _ _ Eloc Et) as (tg & rest & u & H1 & H2 & ->).
    exists location, tg, rest, u. split; [done|]. split; [|done]. pose proof (entry_route_of _ _ _ _ Eloc) as [_ H]. congruence.
Qed.
Lemma tunnel_passes g r urlPath g' : proxyTunnelServe g r urlPath = (g', None) -> g' = g.
Proof.
  unfold proxyTunnelServe. case_bool_decide; [by intros [= <-]|]. destruct (Config_Domain _ _); [|by intros [= <-]].
  destruct (lookup _ _); [|by intros [= <-]]. case_bool_decide; [by intros [= <-]|]. by destruct (pick_target _ _ _ _) as [? []].
Qed.

(** ** Turns *)

Fixpoint picks (n : nat) (e : DomainEntry) (route : DomainEntryRoute) : list (option Url) :=
  match n with O => [] | S n => let '(e, u) := pickProxy e route in u :: picks n e route end.
Lemma picks_lookup route n : er_reverseProxy route <> [] -> forall e c, default 0 (de_callCount e !! er_id route) = c -> 0 <= c -> c + Z.of_nat n < 2 ^ 64 ->
  forall i, (i < n)%nat -> picks n e route !! i = Some (er_reverseProxy route !! ((Z.to_nat c + 1 + i) mod length (er_reverseProxy route))%nat).
Proof.
  intros Hne. induction n as [|n IH]; intros e c Hc H0 Hlt i Hi; [lia|]. cbn [picks]. unfold pickProxy. rewrite Hc.
  destruct (Z.eqb_spec (Z.of_nat (length (er_reverseProxy route))) 0) as [E|Hlen]; [destruct (er_reverseProxy route); [done|cbn in E; lia]|].
  rewrite (u64_id (c + 1)) by (unfold in_u64; lia). destruct i as [|i].
  - cbn [lookup list_lookup]. f_equal. f_equal. rewrite Z2Nat.inj_mod by lia. rewrite Nat2Z.id. replace (Z.to_nat (c + 1)) with (Z.to_nat c + 1 + 0)%nat by lia. done.
  - match goal with |- (_ :: ?l) !! S i = ?x => change (l !! i = x) end. rewrite (IH _ (c + 1)); [| |lia|lia|lia].
    + f_equal. f_equal. f_equal. lia.
    + cbn [de_callCount]. by rewrite lookup_insert_eq.
Qed.
Lemma length_picks n : forall e route, length (picks n e route) = n.
Proof. induction n as [|n IH]; intros e route; [done|]. cbn [picks]. destruct (pickProxy e route). cbn. by rewrite IH. Qed.
Lemma rotate_perm {A} n (l : list A) : rotate n l ≡ₚ l.
Proof. unfold rotate. rewrite Permutation_app_comm. by rewrite take_drop. Qed.
Lemma picks_rotate e route c : er_reverseProxy route <> [] -> default 0 (de_callCount e !! er_id route) = c -> 0 <= c ->
  c + Z.of_nat (length (er_reverseProxy route)) < 2 ^ 64 ->
  picks (length (er_reverseProxy route)) e route = Some <$> rotate (Z.to_nat c + 1) (er_reverseProxy route).
Proof.
  intros Hne Hc H0 Hlt. apply list_eq. intros i. destruct (decide (i < length (er_reverseProxy route))%nat) as [Hi|Hi].
  - rewrite (picks_lookup route _ Hne e c) by done. rewrite list_lookup_fmap, lookup_rotate_r by done. unfold rotate_nat_add.
    rewrite Nat2Z.inj_add. rewrite <- Nat2Z.inj_add, <- Nat2Z.inj_add, <- Nat2Z.inj_mod, Nat2Z.id.
    destruct (lookup_lt_is_Some_2 (er_reverseProxy route) ((Z.to_nat c + 1 + i) mod length (er_reverseProxy route))%nat) as [x Hx];
      [apply Nat.mod_upper_bound; destruct (er_reverseProxy route); done|]. by rewrite Hx.
  - rewrite (lookup_ge_None_2 (picks _ _ _)) by (rewrite length_picks; lia). symmetry. apply lookup_ge_None_2. rewrite length_fmap, length_rotate. lia.
Qed.
End requests.

(** C28: An answer comes from the routes of the request's own domain.  In every state of the
    gateway, a request is proxied or tunnelled only to a target of a location of its domain
    whose type asks for it, redirected only where one says, and a file is served only below
    the directory of a local location, by a path of plain segments; the handler never
    panics, and a host without a domain is refused. *)
Theorem answers_from_own_domain (UL : UrlLib) (SS : SortSlice) (SSL : SortSliceLaws SS) (HE : HttpEnv) (g0 g : ingate) (r : request) :
  gateway_start g0 -> rtc gateway_step g0 g ->
  match Config_Domain (ig_cfg g) (stripHostPort (rq_Host r)) with
  | Some e => answer_ok (de_Domain e) (snd (rootHandler g r))
  | None => snd (rootHandler g r) = Html 403
  end.
Proof.
  intros Hs Hr. pose proof (reached_good g0 g Hs Hr) as Hg. unfold rootHandler. set (r' := with_host _ r). set (urlPath := Clean (rq_Path r')).
  change (stripHostPort (rq_Host r)) with (rq_Host r'). destruct (Config_Domain (ig_cfg g) (rq_Host r')) as [e|] eqn:He.
  - destruct (localfsServe g r' urlPath) as [res|] eqn:E1; [by apply (localfs_ok g r' urlPath)|].
    destruct (proxyTunnelServe g r' urlPath) as [g' [res|]] eqn:E2; [by apply (tunnel_ok g r' urlPath e g')|].
    apply tunnel_passes in E2 as ->. by apply route_ok.
  - assert (E1 : localfsServe g r' urlPath = None) by (unfold localfsServe; by rewrite He).
    assert (E2 : proxyTunnelServe g r' urlPath = (g, None)) by (unfold proxyTunnelServe; rewrite He; by destruct (bool_decide _)).
    rewrite E1, E2. unfold route_request. by rewrite He.
Qed.

(** The targets of a route take turns: of as many requests in a row as the route has
    targets, each target gets exactly one, whatever was requested before. *)
Theorem targets_take_turns (e : DomainEntry) (route : DomainEntryRoute) :
  er_reverseProxy route <> [] -> 0 <= default 0 (de_callCount e !! er_id route) ->
  default 0 (de_callCount e !! er_id route) + Z.of_nat (length (er_reverseProxy route)) < 2 ^ 64 ->
  picks (length (er_reverseProxy route)) e route ≡ₚ map Some (er_reverseProxy route).
Proof.
  intros Hne H0 Hlt. rewrite (picks_rotate e route _ Hne eq_refl H0 Hlt). apply fmap_Permutation, rotate_perm.
Qed.

(** ** Requests to the gateway of the operator's domains *)

#[local] Existing Instance ex_urls.
Definition ex_http : HttpEnv := {| has_token vs t := List.existsb (fun v => bool_decide (v = t)) vs; open_below root rel := if bool_decide (rel = ".") then Some true else Some false |}.
#[local] Existing Instance ex_http.
Definition ex_get (host path : string) : request :=
  {| rq_Host := host; rq_Path := path; rq_Header := ∅; rq_RemoteAddr := "10.0.0.7:55000"; rq_TLS := false; rq_hijackable := true |}.
Lemma answers_from_own_domain_witness :
  snd (rootHandler ex_refreshed (ex_get "own.org:8080" "/files/a/../b//c")) = File "/srv/files" "b/c" /\
  snd (rootHandler ex_refreshed (ex_get "example.com" "/x")) = Proxied (http_url "10.0.0.1:45000") /\
  exists e, Config_Domain (ig_cfg ex_refreshed) "own.org" = Some e /\
    answer_ok (de_Domain e) (snd (rootHandler ex_refreshed (ex_get "own.org:8080" "/files/a/../b//c"))).
Proof.
  split; [vm_compute; reflexivity|]. split; [vm_compute; reflexivity|].
  pose proof (answers_from_own_domain ex_urls _ _ ex_http ex_gateway ex_refreshed (ex_get "own.org:8080" "/files/a/../b//c") eq_refl ex_refreshed_reached) as H.
  assert (E : stripHostPort (rq_Host (ex_get "own.org:8080" "/files/a/../b//c")) = "own.org") by (vm_compute; reflexivity).
  assert (Hs : is_Some (Config_Domain (ig_cfg ex_refreshed) "own.org")) by (vm_compute; by eexists).
  rewrite E in H. clear E. destruct (Config_Domain (ig_cfg ex_refreshed) "own.org") as [e|]; [exists e; split; [reflexivity|exact H]|by destruct Hs].
Defined.

Definition ex_turns : DomainEntryRoute :=
  {| er_id := 0; er_Type := "upstream"; er_Path := "/"; er_Urls := []; er_reverseProxy := [http_url "a:1"; http_url "b:2"; http_url "c:3"] |}.
Lemma targets_take_turns_witness :
  picks 3 (new_domain ex_late) ex_turns = [Some (http_url "b:2"); Some (http_url "c:3"); Some (http_url "a:1")] /\
  picks 3 (new_domain ex_late) ex_turns ≡ₚ [Some (http_url "a:1"); Some (http_url "b:2"); Some (http_url "c:3")].
Proof.
  split; [vm_compute; reflexivity|]. change 3%nat with (length (er_reverseProxy ex_turns)).
  change [Some (http_url "a:1"); Some (http_url "b:2"); Some (http_url "c:3")] with (map Some (er_reverseProxy ex_turns)).
  apply (targets_take_turns (new_domain ex_late) ex_turns); [done|vm_compute; done|vm_compute; done].
Defined.

(** A client chooses its limiter by a header. *)
#[local] Existing Instance no_ip6.
Example forwarded_header_chooses_limiter :
  let r := {| rq_Host := "example.com"; rq_Path := "/"; rq_Header := <["X-Forwarded-For" := ["1.2.3.4"]]> ∅; rq_RemoteAddr := "10.0.0.7:55000";
              rq_TLS := true; rq_hijackable := true |} in
  ipAddress r = "1.2.3.4" /\ ipAddress (ex_get "example.com" "/") = "10.0.0.7".
Proof. vm_compute. done. Qed.
