(* ===== verification/Dns.v ===== *)
(** The name server, [src/internal/indns/]: the records it serves from its configuration
    directory ([config/config.go]), the resolver that asks the upstream servers
    ([server/resolver.go]) and what is done with a request ([server/server.go]).  The DNS
    library and what the network answers are the classes [DnsLib] and [Upstream]; a
    [net.IP] is the list of its bytes, a nil one the empty list. *)
From Stdlib Require Import ZArith Lia Ascii.
From S2P Require Import Prelude GoStrings GoPath Inet.
Local Open Scope string_scope.
Local Open Scope Z_scope.
Local Open Scope go_scope.

(** ** What is used of [github.com/miekg/dns] *)

Class DnsLib := {
  Msg : Type;
  RR : Type;
  TypeA : Z;
  RcodeSuccess : Z;
  IsFqdn : string -> bool;
  msg_Id : Msg -> Z;
  msg_Rcode : Msg -> Z;
  msg_Question : Msg -> list (string * Z);      (* name and type *)
  msg_Answer : Msg -> list RR;
  set_Id : Z -> Msg -> Msg;
  set_Answer : list RR -> Msg -> Msg;
  SetReply : Msg -> Msg;                        (* of the request, on a new message *)
  failure : Msg -> Msg;                         (* what [HandleFailed] writes for the request *)
  rr_Ttl : RR -> Z;
  rr_A : string -> Z -> list Z -> RR }.         (* name, time to live, address *)

Class DnsLaws (D : DnsLib) := {
  IsFqdn_dot s : IsFqdn s = true -> exists t, s = t +:+ ".";
  SetReply_Id m : msg_Id (SetReply m) = msg_Id m;
  failure_Id m : msg_Id (failure m) = msg_Id m;
  set_Answer_Id rrs m : msg_Id (set_Answer rrs m) = msg_Id m;
  set_Id_Id i m : msg_Id (set_Id i m) = i;
  set_Id_Answer i m : msg_Answer (set_Id i m) = msg_Answer m;
  set_Answer_Answer rrs m : msg_Answer (set_Answer rrs m) = rrs }.

(** ** The records, [ConfigRecordManager] *)

Record ConfigZoneRecord := { zr_Name : string; zr_IPs : list (list Z) }.
Record ConfigRecordEntry := { re_Version : Z; re_IPs : list (list Z) }.
Record ConfigRecordManager := { rm_version : Z; rm_items : gmap string ConfigRecordEntry }.
Definition new_records : ConfigRecordManager := {| rm_version := 0; rm_items := ∅ |}.

Definition Records_Get (name : string) (it : ConfigRecordManager) : list (list Z) :=
  match rm_items it !! name with Some rc => re_IPs rc | None => [] end.

(** [IP.Equal]: an IPv4 address and the IPv6 form of it are equal. *)
Definition IP_Equal (a b : list Z) : bool :=
  if bool_decide (length a = length b) then bool_decide (a = b)
  else if bool_decide (length a = 4%nat /\ length b = 16%nat) then bool_decide (take 12 b = v4_in_v6 /\ a = drop 12 b)
  else if bool_decide (length a = 16%nat /\ length b = 4%nat) then bool_decide (take 12 a = v4_in_v6 /\ drop 12 a = b)
  else false.
Definition ips_equal (ips1 ips2 : list (list Z)) : bool :=
  bool_decide (length ips1 = length ips2) &&
  forallb (fun v1 => List.existsb (fun v2 => IP_Equal v1 v2) ips2) ips1.

(** Nothing is put into the map of the addresses seen. *)
Definition ip_sets (ips : list (list Z)) : list (list Z) := List.filter (fun v => negb (bool_decide (v = []))) ips.

Definition Records_set (name : string) (ips : list (list Z)) (it : ConfigRecordManager) : ConfigRecordManager :=
  let ipSets := ip_sets ips in
  let rc := default {| re_Version := 0; re_IPs := [] |} (rm_items it !! name) in
  let it := {| rm_version := rm_version it; rm_items := <[name := rc]> (rm_items it) |} in
  if bool_decide (ipSets = []) && (re_Version rc =? 0) then it
  else if ips_equal (re_IPs rc) ipSets then it
  else let version := rm_version it +64 1 in
       {| rm_version := version; rm_items := <[name := {| re_Version := version; re_IPs := ipSets |}]> (rm_items it) |}.

Definition setZone (v : list ConfigZoneRecord) (it : ConfigRecordManager) : ConfigRecordManager :=
  fold_left (fun it r => Records_set (zr_Name r) (zr_IPs r) it) v it.

(** [parseFile]; a file is what decoding it gives. *)
Definition dns_parseFile (path : string) (file : option (list ConfigZoneRecord)) (it : ConfigRecordManager) : ConfigRecordManager :=
  if bool_decide (Ext path <> ".toml") then it
  else match file with Some cfg => setZone cfg it | None => it end.

(** The walk of [watcher]: an entry without a file is skipped, a file that does not decode
    ends the walk. *)
Inductive walk_entry := WalkOther | WalkFile (file : option (list ConfigZoneRecord)).
Fixpoint walk_directory (entries : list walk_entry) (it : ConfigRecordManager) : ConfigRecordManager :=
  match entries with
  | [] => it
  | WalkOther :: rest => walk_directory rest it
  | WalkFile None :: _ => it
  | WalkFile (Some cfg) :: rest => walk_directory rest (setZone cfg it)
  end.

(** One event of the watcher: the file is read for a creation and again for a write. *)
Record fs_event := { ev_Name : string; ev_Create : bool; ev_Write : bool; ev_first : option (list ConfigZoneRecord); ev_second : option (list ConfigZoneRecord) }.
Definition watch_event (ev : fs_event) (it : ConfigRecordManager) : ConfigRecordManager :=
  let it := if ev_Create ev then dns_parseFile (ev_Name ev) (ev_first ev) it else it in
  if ev_Write ev then dns_parseFile (ev_Name ev) (ev_second ev) it else it.

(** ** The resolver *)

Section resolver.
Context {D : DnsLib}.

Record ResolverRecordEntry := { ce_msg : Msg; ce_ttl : Z }.
Record Resolver := {
  rs_servers : gset string; rs_nameservers : list string; rs_caches : gmap string ResolverRecordEntry;
  rs_hit : Z; rs_mis : Z; rs_err : Z }.
Definition empty_resolver : Resolver :=
  {| rs_servers := ∅; rs_nameservers := []; rs_caches := ∅; rs_hit := 0; rs_mis := 0; rs_err := 0 |}.
Definition with_counters (hit mis err : Z) (it : Resolver) : Resolver :=
  {| rs_servers := rs_servers it; rs_nameservers := rs_nameservers it; rs_caches := rs_caches it; rs_hit := hit; rs_mis := mis; rs_err := err |}.
Definition with_cached (qName : string) (e : ResolverRecordEntry) (it : Resolver) : Resolver :=
  {| rs_servers := rs_servers it; rs_nameservers := rs_nameservers it; rs_caches := <[qName := e]> (rs_caches it);
     rs_hit := rs_hit it; rs_mis := rs_mis it; rs_err := rs_err it |}.

(** [strconv.Atoi], where only a positive result is used. *)
Definition atoi_positive (s : string) : option Z :=
  match s with
  | String "+" digits => parse_uint 63 digits
  | _ => parse_uint 63 s
  end.
(** The port of an address of two parts, 53 otherwise. *)
Definition server_port (ipp : list string) : Z :=
  match ipp with
  | [_; p] => match atoi_positive p with
              | Some v => if (0 <? v) && (v <? 65536) then v else 53
              | None => 53
              end
  | _ => 53
  end.
Definition addServer `{Ip6Syntax} (nameserver : string) (it : Resolver) : Resolver :=
  let ipp := split_at ":" nameserver in
  match ParseIP (default "" (head ipp)) with
  | None => it
  | Some ip =>
    let addr := ip_string ip +:+ ":" +:+ itoa (server_port ipp) in
    if bool_decide (addr ∈ rs_servers it) then it
    else {| rs_servers := {[addr]} ∪ rs_servers it; rs_nameservers := (rs_nameservers it ++ [addr])%list; rs_caches := rs_caches it;
            rs_hit := rs_hit it; rs_mis := rs_mis it; rs_err := rs_err it |}
  end.

Fixpoint tabs_to_spaces (s : string) : string :=
  match s with
  | EmptyString => ""
  | String c rest => String (if isc c (ascii_of_nat 9) then " "%char else c) (tabs_to_spaces rest)
  end.
(** One line of [parseFile] of the resolver. *)
Definition resolv_line `{Ip6Syntax} (it : Resolver) (line : string) : Resolver :=
  let line := tabs_to_spaces (trim_space line) in
  if negb (has_prefix line "nameserver") then it
  else match split_at " " line with
       | [_; server] => addServer server it
       | _ => it
       end.
Definition resolv_parseFile `{Ip6Syntax} (bs : option string) (it : Resolver) : Resolver :=
  match bs with
  | None => it
  | Some bs => fold_left resolv_line (split_at (ascii_of_nat 10) bs) it
  end.
Definition NewResolver `{Ip6Syntax} (name_servers : list string) (resolv_conf : option string) : Resolver :=
  resolv_parseFile resolv_conf (fold_left (fun it v => addServer v it) name_servers empty_resolver).

(** ** A lookup *)

(** [Client.Exchange]: what a nameserver answers to a request sent over a network at a time
    in milliseconds, and how many it takes; [None] is an error. *)
Class Upstream := Exchange : string -> string -> Msg -> Z -> option (Z * Msg).

Definition netTimeout : Z := 3000.
Definition stagger : Z := 500.

(** The channel of the replies on their way, each with the time it arrives: the first to
    arrive, if it does by the deadline. *)
Fixpoint earliest (replies : list (Z * Msg)) : option (Z * Msg) :=
  match replies with
  | [] => None
  | (t, m) :: rest =>
    match earliest rest with
    | Some (t', m') => if t' <? t then Some (t', m') else Some (t, m)
    | None => Some (t, m)
    end
  end.
Definition receive (replies : list (Z * Msg)) (deadline : Z) : option (Z * Msg) :=
  match earliest replies with
  | Some (t, m) => if t <=? deadline then Some (t, m) else None
  | None => None
  end.

(** [lookupAction] started at a time: the reply it will put in the channel. *)
Definition lookupAction `{Upstream} (network nameserver : string) (req : Msg) (t : Z) : list (Z * Msg) :=
  match Exchange network nameserver req t with
  | Some (latency, msg) => if msg_Rcode msg =? RcodeSuccess then [(t + latency, msg)] else []
  | None => []
  end.
(** The loop over the nameservers from a time, and the wait after the last one. *)
Fixpoint ask `{Upstream} (network : string) (req : Msg) (servers : list string) (replies : list (Z * Msg)) (t : Z) : option (Z * Msg) :=
  match servers with
  | [] => receive replies (t + netTimeout)
  | v :: rest =>
    let replies := (replies ++ lookupAction network v req t)%list in
    match receive replies (t + stagger) with
    | Some hit => Some hit
    | None => ask network req rest replies (t + stagger)
    end
  end.

(** How long a reply is kept, in seconds. *)
Definition answer_ttl (answer : list RR) : Z :=
  let ttl := fold_left (fun ttl v => if (0 <? rr_Ttl v) && (rr_Ttl v <? ttl) then rr_Ttl v else ttl) answer 10 in
  if ttl <? 600 then 600 else if 86400 <? ttl then 86400 else ttl.
Definition cached_reply (qName : string) (tn : Z) (it : Resolver) : option Msg :=
  match rs_caches it !! qName with
  | Some p => if tn <? ce_ttl p then Some (ce_msg p) else None
  | None => None
  end.

(** [Lookup] of a request for a name that arrives at a time, in milliseconds. *)
Definition Lookup `{Upstream} (network : string) (qName : string) (req : Msg) (now : Z) (it : Resolver) : Resolver * result Msg :=
  if bool_decide (rs_nameservers it = []) then (it, Err "no nameserver found")
  else match cached_reply qName (u32 (now `div` 1000)) it with
  | Some hit => (with_counters (u64 (rs_hit it + 1)) (rs_mis it) (rs_err it) it, Ok (set_Id (msg_Id req) hit))
  | None =>
    match ask network req (rs_nameservers it) [] now with
    | None => (with_counters (rs_hit it) (rs_mis it) (u64 (rs_err it + 1)) it, Err "timeout")
    | Some (t, hit) =>
      let ttl := u32 (answer_ttl (msg_Answer hit) + u32 (t `div` 1000)) in
      (with_counters (rs_hit it) (u64 (rs_mis it + 1)) (rs_err it) (with_cached qName {| ce_msg := hit; ce_ttl := ttl |} it), Ok hit)
    end
  end.

(** ** A request *)

Definition unFqdn (s : string) : string := if IsFqdn s then String.substring 0 (String.length s - 1) s else s.

(** [action]: the message written. *)
Definition dns_action `{Upstream} (network : string) (req : Msg) (now : Z) (records : ConfigRecordManager) (it : Resolver) : Resolver * Msg :=
  match msg_Question req with
  | [] => (it, failure req)
  | (qName0, qtype) :: _ =>
    if negb (qtype =? TypeA) then (it, failure req)
    else
      let ips := Records_Get (unFqdn qName0) records in
      if 0 <? Z.of_nat (length ips) then (it, set_Answer (map (rr_A qName0 10) ips) (SetReply req))
      else match Lookup network qName0 req now it with
           | (it, Ok mesg) => (it, mesg)
           | (it, Err _) => (it, failure req)
           end
  end.

(** The server as its goroutines see it: requests and configuration events, one after the
    other; a request over one of the two networks. *)
Record dns_server := { sv_records : ConfigRecordManager; sv_resolver : Resolver }.
Inductive dns_event := DnsQuery (network : string) (req : Msg) (now : Z) | DnsFile (ev : fs_event).
Definition dns_Start `{Ip6Syntax} (entries : list walk_entry) (name_servers : list string) (resolv_conf : option string) : dns_server :=
  {| sv_records := walk_directory entries new_records; sv_resolver := NewResolver name_servers resolv_conf |}.
Definition dns_step `{Upstream} (s : dns_server) (e : dns_event) : dns_server :=
  match e with
  | DnsQuery network req now =>
    {| sv_records := sv_records s; sv_resolver := fst (dns_action network req now (sv_records s) (sv_resolver s)) |}
  | DnsFile ev => {| sv_records := watch_event ev (sv_records s); sv_resolver := sv_resolver s |}
  end.
Definition dns_run `{Upstream} (events : list dns_event) (s : dns_server) : dns_server := fold_left dns_step events s.
End resolver.
