(* ===== verification/DnsLogic.v ===== *)
(** The name server: a lookup returns the first reply to arrive, every reply comes from the
    records or from an upstream reply to the same name that is no older than ten minutes,
    and the addresses served are addresses of the files. *)
From Stdlib Require Import ZArith Lia Ascii.
From S2P Require Import Prelude GoStrings GoPath Inet Dns.
Local Open Scope string_scope.
Local Open Scope Z_scope.
Local Open Scope go_scope.

Section race.
Context {D : DnsLib} {U : Upstream}.

(** No reply arrives before it was asked for. *)
Definition Causal : Prop := forall network server req t latency m, Exchange network server req t = Some (latency, m) -> 0 <= latency.

(** The replies of all servers, each asked [stagger] after the one before. *)
Fixpoint all_replies (network : string) (req : Msg) (servers : list string) (t : Z) : list (Z * Msg) :=
  match servers with
  | [] => []
  | v :: rest => (lookupAction network v req t ++ all_replies network req rest (t + stagger))%list
  end.

Lemma earliest_elem l t m : earliest l = Some (t, m) -> (t, m) ∈ l.
Proof.
  revert t m. induction l as [|[u n] l IH]; intros t m H; [done|]. cbn in H.
  destruct (earliest l) as [[t' m']|]; [destruct (t' <? u)|]; simplify_eq; rewrite elem_of_cons; auto.
Qed.
Lemma earliest_le l t m u n : earliest l = Some (t, m) -> (u, n) ∈ l -> t <= u.
Proof.
  revert t m. induction l as [|[v k] l IH]; intros t m H Hin; [by apply elem_of_nil in Hin|]. cbn in H.
  apply elem_of_cons in Hin as [E|Hin].
  - injection E as <- <-. destruct (earliest l) as [[t' m']|]; [destruct (t' <? _) eqn:E|]; simplify_eq; lia.
  - destruct (earliest l) as [[t' m']|] eqn:E; [|destruct l as [|[w y] l]; [by apply elem_of_nil in Hin|]; cbn in E; repeat case_match; done].
    pose proof (IH t' m' eq_refl Hin). destruct (t' <? v) eqn:E'; simplify_eq; lia.
Qed.
Lemma earliest_none l : earliest l = None -> l = [].
Proof. destruct l as [|[t m] l]; [done|]. cbn. by repeat case_match. Qed.

(** Replies that arrive later than those there do not change which is the first. *)
Lemma earliest_app l l' t m : earliest l = Some (t, m) -> (forall u n, (u, n) ∈ l' -> t <= u) -> earliest (l ++ l') = Some (t, m).
Proof.
  revert t m. induction l as [|[v k] l IH]; intros t m H Hl; [done|]. cbn in H |- *.
  destruct (earliest l) as [[t' m']|] eqn:E.
  - destruct (t' <? v) eqn:Ev; simplify_eq.
    + rewrite (IH t m eq_refl Hl). by rewrite Ev.
    + destruct (earliest (l ++ l')) as [[t2 m2]|] eqn:E2; [|done].
      destruct (t2 <? t) eqn:Et; [exfalso|done]. apply earliest_elem, elem_of_app in E2 as [E2|E2].
      * pose proof (earliest_le _ _ _ _ _ E E2). lia.
      * specialize (Hl _ _ E2). lia.
  - apply earliest_none in E. simplify_eq. cbn [app].
    destruct (earliest l') as [[t2 m2]|] eqn:E2; [|done]. apply earliest_elem in E2. specialize (Hl _ _ E2).
    destruct (t2 <? t) eqn:Et; [lia|done].
Qed.
Lemma receive_elem l d t m : receive l d = Some (t, m) -> (t, m) ∈ l /\ t <= d.
Proof. unfold receive. intros H. repeat case_match; simplify_eq. split; [by apply earliest_elem|lia]. Qed.

Lemma all_replies_after network req servers t u n : Causal -> (u, n) ∈ all_replies network req servers t -> t <= u.
Proof.
  intros HC. revert t. induction servers as [|v servers IH]; intros t Hin; cbn in Hin; [by apply elem_of_nil in Hin|].
  apply elem_of_app in Hin as [Hin|Hin].
  - unfold lookupAction in Hin. repeat case_match; try (by apply elem_of_nil in Hin).
    apply list_elem_of_singleton in Hin. simplify_eq. match goal with H : Exchange _ _ _ _ = _ |- _ => apply HC in H end. lia.
  - apply IH in Hin. unfold stagger in Hin. lia.
Qed.

Lemma ask_first network req servers replies t : Causal ->
  ask network req servers replies t =
  receive (replies ++ all_replies network req servers t) (t + stagger * Z.of_nat (length servers) + netTimeout).
Proof.
  intros HC. revert replies t. induction servers as [|v servers IH]; intros replies t.
  - cbn [ask all_replies length]. rewrite app_nil_r. f_equal. unfold stagger. lia.
  - cbn [ask all_replies]. rewrite app_assoc. set (queue := (replies ++ lookupAction network v req t)%list).
    unfold receive at 1. destruct (earliest queue) as [[u m]|] eqn:E; [destruct (u <=? t + stagger) eqn:Eu|].
    + unfold receive. rewrite (earliest_app _ _ u m E).
      * destruct (Z.leb_spec u (t + stagger * Z.of_nat (length (v :: servers)) + netTimeout)) as [|Hd]; [done|].
        cbn [length] in Hd. unfold stagger, netTimeout in *. lia.
      * intros w n Hw. apply all_replies_after in Hw; [lia|done].
    + rewrite IH. f_equal. cbn [length]. unfold stagger. lia.
    + rewrite IH. f_equal. cbn [length]. unfold stagger. lia.
Qed.
End race.

Section lookups.
Context {D : DnsLib} {U : Upstream}.

(** A nameserver of a list that answers a request in time if the servers are asked one after
    the other: the reply and when it arrives. *)
Definition offers (network : string) (req : Msg) (servers : list string) (now t : Z) (m : Msg) : Prop :=
  exists i server latency, servers !! i = Some server /\ Exchange network server req (now + stagger * Z.of_nat i) = Some (latency, m) /\
    msg_Rcode m = RcodeSuccess /\ t = now + stagger * Z.of_nat i + latency.

Lemma elem_lookupAction network v req now t m :
  (t, m) ∈ lookupAction network v req now <->
  exists latency, Exchange network v req now = Some (latency, m) /\ msg_Rcode m = RcodeSuccess /\ t = now + latency.
Proof.
  unfold lookupAction. destruct (Exchange network v req now) as [[latency n]|] eqn:E.
  - destruct (Z.eqb_spec (msg_Rcode n) RcodeSuccess) as [Hr|Hr].
    + rewrite list_elem_of_singleton. split.
      * intros [= -> ->]. eauto.
      * intros (l' & H & _ & ->). by simplify_eq.
    + split; [intros H; by apply elem_of_nil in H|]. intros (l' & H & ? & _). by simplify_eq.
  - split; [intros H; by apply elem_of_nil in H|]. intros (l' & H & _). done.
Qed.
Lemma elem_all_replies network req servers now t m :
  (t, m) ∈ all_replies network req servers now <-> offers network req servers now t m.
Proof.
  revert now. induction servers as [|v servers IH]; intros now; cbn [all_replies].
  - split; [intros H; by apply elem_of_nil in H|]. intros (i & s & l & H & _). done.
  - rewrite elem_of_app, elem_lookupAction, IH. unfold offers. split.
    + intros [(l & H1 & H2 & ->)|(i & s & l & H1 & H2 & H3 & ->)].
      * exists 0%nat, v, l. rewrite Z.mul_0_r, Z.add_0_r. done.
      * exists (S i), s, l. replace (now + stagger * Z.of_nat (S i)) with (now + stagger + stagger * Z.of_nat i) by lia. done.
    + intros ([|i] & s & l & H1 & H2 & H3 & ->); cbn in H1.
      * simplify_eq. rewrite Z.mul_0_r, Z.add_0_r in *. eauto.
      * right. exists i, s, l. replace (now + stagger + stagger * Z.of_nat i) with (now + stagger * Z.of_nat (S i)) by lia. done.
Qed.

(** The time a lookup waits at most. *)
Definition deadline (servers : list string) (now : Z) : Z := now + stagger * Z.of_nat (length servers) + netTimeout.

Lemma ask_spec network req servers now : Causal ->
  match ask network req servers [] now with
  | Some (t, m) => offers network req servers now t m /\ t <= deadline servers now /\ forall t' m', offers network req servers now t' m' -> t <= t'
  | None => forall t m, offers network req servers now t m -> deadline servers now < t
  end.
Proof.
  intros HC. rewrite (ask_first network req servers [] now HC). cbn [app]. fold (deadline servers now).
  unfold receive. destruct (earliest _) as [[t m]|] eqn:E; [destruct (Z.leb_spec t (deadline servers now)) as [Hd|Hd]|].
  - repeat split; [by apply elem_all_replies, earliest_elem|done|]. intros t' m' H. apply elem_all_replies in H. by eapply earliest_le.
  - intros t' m' H. apply elem_all_replies in H. pose proof (earliest_le _ _ _ _ _ E H). lia.
  - intros t m H. apply elem_all_replies in H. rewrite (earliest_none _ E) in H. by apply elem_of_nil in H.
Qed.

(** ** What the cache holds *)

(** A reply that a nameserver sent, arriving at a time, to a request for the addresses of a name. *)
Definition obtained (servers : list string) (q : string) (t : Z) (m : Msg) : Prop :=
  exists network server req start latency rest, server ∈ servers /\ msg_Question req = (q, TypeA) :: rest /\
    Exchange network server req start = Some (latency, m) /\ msg_Rcode m = RcodeSuccess /\ t = start + latency.
Lemma offers_obtained network req servers q rest now t m : msg_Question req = (q, TypeA) :: rest ->
  offers network req servers now t m -> obtained servers q t m.
Proof.
  intros Hq (i & server & latency & Hi & HE & Hr & ->). exists network, server, req, (now + stagger * Z.of_nat i), latency, rest.
  split; [by eapply list_elem_of_lookup_2|]. done.
Qed.

Lemma answer_ttl_600 answer : answer_ttl answer = 600.
Proof.
  unfold answer_ttl. set (f := fun ttl v => _). assert (H : forall l a, a <= 10 -> fold_left f l a <= 10).
  { intros l. induction l as [|v l IH]; intros a Ha; [done|]. cbn. apply IH. unfold f. destruct (_ && _) eqn:E; lia. }
  specialize (H answer 10 ltac:(lia)). destruct (_ <? 600) eqn:E; lia.
Qed.

(** A time whose seconds, and ten minutes more, fit in 32 bits. *)
Definition clock_ok (t : Z) : Prop := 0 <= t < 1000 * (2 ^ 32 - 600).
Lemma clock_u32 t : clock_ok t -> u32 (t `div` 1000) = t `div` 1000.
Proof.
  intros [H1 H2]. apply u32_id. unfold in_u32. pose proof (Z.div_pos t 1000 H1 ltac:(lia)).
  pose proof (Z.div_lt_upper_bound t 1000 (2 ^ 32 - 600) ltac:(lia) H2). lia.
Qed.
Lemma clock_expiry t : clock_ok t -> u32 (600 + u32 (t `div` 1000)) = 600 + t `div` 1000.
Proof.
  intros H. rewrite (clock_u32 t H). destruct H as [H1 H2]. apply u32_id. unfold in_u32.
  pose proof (Z.div_pos t 1000 H1 ltac:(lia)). pose proof (Z.div_lt_upper_bound t 1000 (2 ^ 32 - 600) ltac:(lia) H2). lia.
Qed.

Definition cache_ok (servers : list string) (it : Resolver) : Prop :=
  rs_nameservers it = servers /\
  forall q e, rs_caches it !! q = Some e -> exists t, obtained servers q t (ce_msg e) /\ ce_ttl e = 600 + t `div` 1000.

(** A query the clock allows. *)
Definition query_ok (servers : list string) (now : Z) : Prop := clock_ok now /\ clock_ok (deadline servers now).

Lemma cache_ok_cached servers it q tn m : cache_ok servers it -> cached_reply q tn it = Some m ->
  exists t, obtained servers q t m /\ tn < t `div` 1000 + 600.
Proof.
  intros [_ HC] H. unfold cached_reply in H. destruct (rs_caches it !! q) as [e|] eqn:E; [|done].
  destruct (Z.ltb_spec tn (ce_ttl e)) as [Hl|]; [|done]. simplify_eq. destruct (HC _ _ E) as (t & Ho & Ht). exists t. split; [done|lia].
Qed.

(** What a lookup returns and leaves. *)
Lemma Lookup_ok network q req rest now servers it : Causal -> msg_Question req = (q, TypeA) :: rest -> query_ok servers now -> cache_ok servers it ->
  cache_ok servers (fst (Lookup network q req now it)) /\
  forall mesg, snd (Lookup network q req now it) = Ok mesg ->
    exists t m, obtained servers q t m /\ now `div` 1000 < t `div` 1000 + 600 /\ (mesg = m \/ mesg = set_Id (msg_Id req) m).
Proof.
  intros HCa Hq [Hn Hd] HC. unfold Lookup. case_bool_decide as Hs; [done|].
  destruct (cached_reply _ _ _) as [hit|] eqn:E.
  { split; [exact HC|]. intros mesg [= <-]. destruct (cache_ok_cached _ _ _ _ _ HC E) as (t & Ho & Ht). rewrite (clock_u32 now Hn) in Ht. eauto 6. }
  pose proof (ask_spec network req (rs_nameservers it) now HCa) as Hask. pose proof HC as [Hns HCc].
  rewrite Hns in Hask |- *.
  destruct (ask _ _ _ _ _) as [[t hit]|]; [|split; [exact HC|done]].
  destruct Hask as (Ho & Hle & _).
  assert (Hge : now <= t).
  { destruct Ho as (i & s & l & _ & HE & _ & ->). apply HCa in HE. unfold stagger. lia. }
  assert (Hc : clock_ok t) by (destruct Hn, Hd; split; lia). apply (offers_obtained _ _ _ _ _ _ _ _ Hq) in Ho.
  split.
  - split; [done|]. intros q' e. cbn. rewrite answer_ttl_600, (clock_expiry t Hc). intros [(-> & <-)|(Hne & He)]%lookup_insert_Some; [|by apply HCc].
    exists t. done.
  - intros mesg [= <-]. exists t, hit. split; [done|]. split; [|by left]. pose proof (Z.div_le_mono now t 1000 ltac:(lia) Hge). lia.
Qed.

Definition event_ok (servers : list string) (e : dns_event) : Prop := match e with DnsQuery _ _ now => query_ok servers now | DnsFile _ => True end.

Lemma dns_step_ok servers s e : Causal -> event_ok servers e -> cache_ok servers (sv_resolver s) -> cache_ok servers (sv_resolver (dns_step s e)).
Proof.
  intros HCa He HC. destruct e as [network req now|ev]; [|exact HC]. cbn. unfold dns_action.
  destruct (msg_Question req) as [|[q ty] rest] eqn:Hq; [exact HC|]. destruct (Z.eqb_spec ty TypeA) as [->|]; [|exact HC]. cbn [negb].
  case_match; [exact HC|]. pose proof (Lookup_ok network q req rest now servers (sv_resolver s) HCa Hq He HC) as [H1 _].
  destruct (Lookup network q req now (sv_resolver s)) as [it [mesg|x]]; exact H1.
Qed.
Lemma dns_run_ok servers events s : Causal -> Forall (event_ok servers) events -> cache_ok servers (sv_resolver s) ->
  cache_ok servers (sv_resolver (dns_run events s)).
Proof.
  intros HCa He. revert s. induction He as [|e events He _ IH]; intros s HC; [done|]. cbn. apply IH. by apply dns_step_ok.
Qed.
End lookups.

(** ** Properties *)

Section properties.
Context {D : DnsLib} {U : Upstream} {IP : Ip6Syntax}.

(** A name that is not in the cache is answered with the upstream reply that arrives first.
    With the nameservers asked half a second apart, [Lookup] returns a message exactly when some
    server answers with success within three seconds after the last is asked; the message
    arrives no later than any other, and is then in the cache for that name. *)
Theorem lookup_first_reply (network q : string) (req : Msg) (now : Z) (it : Resolver) :
  Causal -> rs_nameservers it <> [] -> cached_reply q (u32 (now `div` 1000)) it = None ->
  let servers := rs_nameservers it in
  match Lookup network q req now it with
  | (it', Ok mesg) => exists t, offers network req servers now t mesg /\ t <= deadline servers now /\
      (forall t' m', offers network req servers now t' m' -> t <= t') /\ ce_msg <$> rs_caches it' !! q = Some mesg
  | (it', Err e) => e = "timeout" /\ (forall t m, offers network req servers now t m -> deadline servers now < t) /\ rs_caches it' = rs_caches it
  end.
Proof.
  intros HC Hs Hc servers. unfold Lookup. rewrite bool_decide_false, Hc by done.
  pose proof (ask_spec network req servers now HC) as Hask. fold servers.
  destruct (ask network req servers [] now) as [[t hit]|]; [|done].
  destruct Hask as (Ho & Hle & Hm). exists t. split; [done|]. split; [done|]. split; [done|]. cbn. by rewrite lookup_insert_eq.
Qed.

Lemma addServer_no_cache v it : rs_caches (addServer v it) = rs_caches it.
Proof. unfold addServer. by repeat case_match. Qed.
Lemma fold_no_cache {A} (f : Resolver -> A -> Resolver) l it :
  (forall it x, rs_caches (f it x) = rs_caches it) -> rs_caches (fold_left f l it) = rs_caches it.
Proof. intros Hf. revert it. induction l as [|x l IH]; intros it; [done|]. cbn. by rewrite IH, Hf. Qed.
Lemma resolv_line_no_cache it line : rs_caches (resolv_line it line) = rs_caches it.
Proof. unfold resolv_line. repeat case_match; try done. apply addServer_no_cache. Qed.
Lemma NewResolver_no_cache name_servers conf : rs_caches (NewResolver name_servers conf) = ∅.
Proof.
  unfold NewResolver, resolv_parseFile.
  destruct conf; rewrite ?fold_no_cache; auto using addServer_no_cache, resolv_line_no_cache.
Qed.

(** C30: Where an answer comes from.  After any sequence of requests and configuration events, the
    message written for a request for the addresses of a name either carries the configured
    addresses of that name, with a time to live of ten seconds, or is a failure, or is what one of
    the nameservers sent to a request for the same name, received less than ten minutes ago or
    later. *)
Theorem dns_reply_provenance (entries : list walk_entry) (name_servers : list string) (resolv_conf : option string)
    (events : list dns_event) (network : string) (req : Msg) (now : Z) (q : string) (rest : list (string * Z)) :
  let s0 := dns_Start entries name_servers resolv_conf in
  let servers := rs_nameservers (sv_resolver s0) in
  let s := dns_run events s0 in
  let ips := Records_Get (unFqdn q) (sv_records s) in
  let mesg := snd (dns_action network req now (sv_records s) (sv_resolver s)) in
  Causal -> Forall (event_ok servers) events -> query_ok servers now -> msg_Question req = (q, TypeA) :: rest ->
  (ips <> [] /\ mesg = set_Answer (map (rr_A q 10) ips) (SetReply req)) \/
  (ips = [] /\ mesg = failure req) \/
  (ips = [] /\ exists t m, obtained servers q t m /\ now `div` 1000 < t `div` 1000 + 600 /\ (mesg = m \/ mesg = set_Id (msg_Id req) m)).
Proof.
  intros s0 servers s ips mesg HCa He Hn Hq.
  assert (HC : cache_ok servers (sv_resolver s)).
  { apply dns_run_ok; [done..|]. split; [done|]. intros q' e. cbn. by rewrite NewResolver_no_cache. }
  subst mesg. unfold dns_action. rewrite Hq, Z.eqb_refl. cbn [negb]. fold ips. destruct ips as [|ip ips]; [|by left].
  right. cbn [length Z.of_nat Z.ltb Z.compare]. pose proof (Lookup_ok network q req rest now servers (sv_resolver s) HCa Hq Hn HC) as [_ HL].
  destruct (Lookup network q req now (sv_resolver s)) as [it [m|x]]; cbn [snd] in *.
  - right. split; [done|]. by apply HL.
  - by left.
Qed.
End properties.

(** ** Records *)

(** An address is served only while it is in the last file that named its record. *)
Definition records_ok (it : ConfigRecordManager) : Prop :=
  in_i64 (rm_version it) /\ 0 <= rm_version it /\
  forall name rc, rm_items it !! name = Some rc -> 0 <= re_Version rc <= rm_version it /\ (re_Version rc = 0 -> re_IPs rc = []).

Lemma Records_set_ok name ips it : records_ok it -> rm_version it < 2 ^ 63 - 1 -> records_ok (Records_set name ips it).
Proof.
  intros (H1 & H2 & H3) Hv. unfold Records_set.
  assert (Hrc : forall rc, rc = default {| re_Version := 0; re_IPs := [] |} (rm_items it !! name) -> 0 <= re_Version rc <= rm_version it /\ (re_Version rc = 0 -> re_IPs rc = [])).
  { intros rc ->. destruct (rm_items it !! name) as [rc|] eqn:E; [by apply (H3 name)|]. cbn. split; [lia|done]. }
  set (rc := default _ _) in *. specialize (Hrc rc eq_refl).
  assert (Hkeep : records_ok {| rm_version := rm_version it; rm_items := <[name := rc]> (rm_items it) |}).
  { split; [done|]. split; [done|]. intros n c. cbn. intros [(-> & <-)|(_ & Hc)]%lookup_insert_Some; [done|by apply (H3 n)]. }
  case_match; [done|]. case_match; [done|]. cbn [rm_version rm_items].
  assert (E : rm_version it +64 1 = rm_version it + 1) by (apply i64_id; unfold in_i64 in *; lia). rewrite E.
  split; [unfold in_i64 in *; cbn; lia|]. split; [cbn; lia|]. cbn. intros n c [(-> & <-)|(_ & Hc)]%lookup_insert_Some; cbn.
  - split; [lia|]. intros ?. lia.
  - apply lookup_insert_Some in Hc as [(-> & <-)|(_ & Hc)]; [destruct Hrc; split; [lia|done]|]. destruct (H3 n c Hc). split; [lia|done].
Qed.

(** Every address served for a name after it is set is one of those given, and there are as many. *)
Lemma Records_set_served name ips it : records_ok it ->
  let served := Records_Get name (Records_set name ips it) in
  length served = length (ip_sets ips) /\ forall a, a ∈ served -> exists b, b ∈ ips /\ IP_Equal a b = true.
Proof.
  intros (_ & _ & H3) served. subst served. unfold Records_set, Records_Get.
  assert (Hrefl : forall a, IP_Equal a a = true) by (intros a; unfold IP_Equal; by rewrite !bool_decide_true).
  assert (Hin : forall b, b ∈ ip_sets ips -> b ∈ ips).
  { intros b Hb. unfold ip_sets in Hb. apply list_elem_of_In, filter_In in Hb as [Hb _]. by apply list_elem_of_In. }
  set (rc := default _ _).
  destruct (bool_decide (ip_sets ips = []) && (re_Version rc =? 0)) eqn:E.
  - cbn. rewrite lookup_insert_eq. cbn. apply andb_true_iff in E as [E Ev]. apply bool_decide_eq_true in E. rewrite E.
    assert (Hrc : re_IPs rc = []).
    { subst rc. destruct (rm_items it !! name) as [rc|] eqn:El; [|done]. cbn in *. destruct (H3 name rc El) as [_ H]. apply H. lia. }
    rewrite Hrc. split; [done|]. intros a Ha. by apply elem_of_nil in Ha.
  - cbn [rm_items]. destruct (ips_equal (re_IPs rc) (ip_sets ips)) eqn:Eq; cbn [rm_items]; rewrite lookup_insert_eq; cbn.
    + unfold ips_equal in Eq. apply andb_true_iff in Eq as [El Eq]. apply bool_decide_eq_true in El. split; [done|]. intros a Ha.
      rewrite forallb_forall in Eq. apply list_elem_of_In, Eq, existsb_exists in Ha as (b & Hb & E'). apply list_elem_of_In in Hb. eauto.
    + split; [done|]. intros a Ha. eauto.
Qed.

(** The addresses that are set are not always those served: the comparison looks from the served
    list to the given one only. *)
Definition ip4 (a b c d : Z) : list Z := [a; b; c; d].
Example changed_address_ignored :
  let it := Records_set "db" [ip4 10 0 0 1; ip4 10 0 0 1] new_records in
  Records_Get "db" (Records_set "db" [ip4 10 0 0 1; ip4 10 0 0 2] it) = [ip4 10 0 0 1; ip4 10 0 0 1].
Proof. reflexivity. Qed.
Example duplicate_addresses_served : Records_Get "db" (Records_set "db" [ip4 10 0 0 1; ip4 10 0 0 1] new_records) = [ip4 10 0 0 1; ip4 10 0 0 1].
Proof. reflexivity. Qed.
(** A file that does not decode keeps the files after it from being loaded. *)
Example bad_file_hides_the_next :
  Records_Get "db" (walk_directory [WalkFile None; WalkFile (Some [{| zr_Name := "db"; zr_IPs := [ip4 10 0 0 1] |}])] new_records) = [].
Proof. reflexivity. Qed.

(** ** A concrete server *)

Module Example.
Record message := { m_Id : Z; m_Rcode : Z; m_Question : list (string * Z); m_Answer : list (string * Z * list Z) }.
#[local] Instance lib : DnsLib := {|
  Msg := message; RR := string * Z * list Z; TypeA := 1; RcodeSuccess := 0;
  IsFqdn := fun s => match cut_last "." s with Some (_, "") => true | _ => false end;
  msg_Id := m_Id; msg_Rcode := m_Rcode; msg_Question := m_Question; msg_Answer := m_Answer;
  set_Id := fun i m => {| m_Id := i; m_Rcode := m_Rcode m; m_Question := m_Question m; m_Answer := m_Answer m |};
  set_Answer := fun rrs m => {| m_Id := m_Id m; m_Rcode := m_Rcode m; m_Question := m_Question m; m_Answer := rrs |};
  SetReply := fun m => {| m_Id := m_Id m; m_Rcode := 0; m_Question := m_Question m; m_Answer := [] |};
  failure := fun m => {| m_Id := m_Id m; m_Rcode := 2; m_Question := m_Question m; m_Answer := [] |};
  rr_Ttl := fun r => snd (fst r); rr_A := fun name ttl ip => (name, ttl, ip) |}.
Definition reply (m : message) (a : list Z) : message := {| m_Id := m_Id m; m_Rcode := 0; m_Question := m_Question m; m_Answer := [("", 30, a)] |}.
(** The first server takes 1.2 seconds, the second 0.1. *)
#[local] Instance upstream : Upstream := fun _ server req _ =>
  if bool_decide (server = "10.0.0.1:53") then Some (1200, reply req (ip4 1 1 1 1))
  else if bool_decide (server = "10.0.0.2:5353") then Some (100, reply req (ip4 2 2 2 2)) else None.
#[local] Existing Instance no_ip6.
Lemma upstream_causal : Causal.
Proof. intros network server req t latency m. unfold Exchange, upstream. repeat case_bool_decide; intros [=]; lia. Qed.

Definition query (i : Z) (name : string) : message := {| m_Id := i; m_Rcode := 0; m_Question := [(name, 1)]; m_Answer := [] |}.
Definition zone (ips : list (list Z)) : option (list ConfigZoneRecord) := Some [{| zr_Name := "db.local"; zr_IPs := ips |}].
Definition servers_conf : option string := Some ("# comment" +:+ String (ascii_of_nat 10) ("nameserver 10.0.0.2:5353" +:+ String (ascii_of_nat 10) "")).
Definition start := dns_Start [WalkFile (zone [ip4 10 0 0 9])] ["10.0.0.1"; "fe80::1"; "10.0.0.1:53"] servers_conf.

Example start_servers : rs_nameservers (sv_resolver start) = ["10.0.0.1:53"; "10.0.0.2:5353"].
Proof. vm_compute. reflexivity. Qed.

Lemma lookup_first_reply_witness :
  let it := sv_resolver start in
  let req := query 7 "go.dev." in
  exists t, offers "udp" req (rs_nameservers it) 5000 t (reply req (ip4 2 2 2 2)) /\ t = 5600 /\
    snd (Lookup "udp" "go.dev." req 5000 it) = Ok (reply req (ip4 2 2 2 2)).
Proof.
  intros it req. assert (E : snd (Lookup "udp" "go.dev." req 5000 it) = Ok (reply req (ip4 2 2 2 2))) by (vm_compute; reflexivity).
  assert (Hs : rs_nameservers it <> []) by (subst it; by rewrite start_servers).
  assert (Hc : cached_reply "go.dev." (u32 (5000 `div` 1000)) it = None) by (vm_compute; reflexivity).
  pose proof (lookup_first_reply "udp" "go.dev." req 5000 it upstream_causal Hs Hc) as H.
  cbv zeta in H. destruct (Lookup _ _ _ _ _) as [it' r]. cbn [snd] in E. subst r.
  destruct H as (t & Ho & _ & _ & _). exists 5600. split; [|split; reflexivity].
  exists 1%nat, "10.0.0.2:5353", 100. repeat split; vm_compute; reflexivity.
Defined.

Lemma dns_reply_provenance_witness :
  let events := [DnsQuery "tcp" (query 3 "go.dev.") 5000; DnsFile {| ev_Name := "/etc/z.toml"; ev_Create := true; ev_Write := false; ev_first := zone [ip4 10 0 0 8]; ev_second := None |}] in
  let s := dns_run events start in
  let req := query 7 "go.dev." in
  snd (dns_action "udp" req 300000 (sv_records s) (sv_resolver s)) = set_Id 7 (reply (query 3 "go.dev.") (ip4 2 2 2 2)) /\
  exists t m, obtained (rs_nameservers (sv_resolver start)) "go.dev." t m /\ 300 < t `div` 1000 + 600.
Proof.
  intros events s req. split; [vm_compute; reflexivity|].
  pose proof (dns_reply_provenance [WalkFile (zone [ip4 10 0 0 9])] ["10.0.0.1"; "fe80::1"; "10.0.0.1:53"] servers_conf events "udp" req 300000 "go.dev." []
    upstream_causal) as H.
  assert (Hq : forall now, 0 <= now <= 300000 -> query_ok (rs_nameservers (sv_resolver start)) now).
  { intros now Hn. unfold query_ok, deadline, clock_ok. rewrite start_servers. cbn. unfold stagger, netTimeout. lia. }
  destruct H as [[H _]|[[_ H]|[_ H]]].
  - constructor; [apply Hq; lia|]. constructor; done.
  - apply Hq. lia.
  - reflexivity.
  - exfalso. apply H. vm_compute. reflexivity.
  - exfalso. vm_compute in H. discriminate H.
  - destruct H as (t & m & Ho & Ht & _). exists t, m. split; [exact Ho|exact Ht].
Defined.
(** The answer a truncated message got over one network is given over the other: the cache knows
    the name only. *)
Example cache_ignores_network :
  let s := dns_run [DnsQuery "udp" (query 3 "go.dev.") 5000] start in
  forall network, snd (dns_action network (query 4 "go.dev.") 6000 (sv_records s) (sv_resolver s)) = set_Id 4 (reply (query 3 "go.dev.") (ip4 2 2 2 2)).
Proof. intros s network. vm_compute. reflexivity. Qed.
End Example.
