(* ===== verification/InConf.v ===== *)
(** What a replica reads of its own configuration, [src/pkg/inconf/inconf.go]: the lookups
    by name, the flattened parameters ([VarParams]) and the rendering of texts with them
    ([RenderWithExpand]).  The instance is what the host wrote into [app_replica.json]; the
    lists of it hold no nil. *)
From Stdlib Require Import ZArith Lia Ascii.
From S2P Require Import Prelude GoStrings AppNames Zone.
Local Open Scope string_scope.
Local Open Scope Z_scope.
Local Open Scope go_scope.

(** ** The instance, as the agent reads it *)

Inductive ConfItem := Conf { ci_Name : string; ci_Value : string; ci_Type : string; ci_Items : list ConfItem }.
Record ConfReplica := { cr_Id : Z; cr_HostId : string; cr_HostIpv4 : string; cr_VpcIpv4 : string; cr_ServicePorts : list AppDeployServicePort }.
Record ConfDepend := { cd_SpecName : string; cd_InstanceName : string; cd_Configs : list ConfItem; cd_Replicas : list ConfReplica }.
Record AgentTask := {
  at_Name : string; at_WorkingDir : string; at_RunUser : string; at_DependsOn : list string;
  at_OnStartup : bool; at_OnShutdown : bool; at_IntervalSeconds : Z; at_Cron : string; at_Script : string }.
Record HostletStatusEndpoint := { he_Url : string; he_SecretKey : string }.
Record AppReplicaInstance := {
  ap_Name : string; ap_Tasks : list AgentTask; ap_Packages : list string;
  ap_Revision : Z; ap_ReplicaCap : Z; ap_Configs : list ConfItem; ap_Depends : list ConfDepend; ap_Replicas : list ConfReplica;
  ap_Replica : ConfReplica; ap_ZoneBaseDomain : string; ap_HostletEndpoint : option HostletStatusEndpoint }.

(** ** Lookups *)

Definition prefixMatch (s1 s2 : string) : bool :=
  if (0 <? slen s1) && bool_decide (s1 = s2) then true
  else match s_last s2 with
  | Some "*"%char => (1 <? slen s2) && has_prefix s1 (String.substring 0 (String.length s2 - 1) s2)
  | _ => false
  end.

Definition find_conf (name : string) (items : list ConfItem) : option ConfItem := List.find (fun i => bool_decide (ci_Name i = name)) items.
(** The first of the items of a name that has the sub-item. *)
Fixpoint find_sub (name sub : string) (items : list ConfItem) : option ConfItem :=
  match items with
  | [] => None
  | i :: rest =>
    if bool_decide (ci_Name i = name) then
      match find_conf sub (ci_Items i) with Some x => Some x | None => find_sub name sub rest end
    else find_sub name sub rest
  end.
Definition helper_ConfigItem (app : AppReplicaInstance) (name : string) : option ConfItem :=
  match split_at "." name with
  | [] => None
  | [n] => find_conf n (ap_Configs app)
  | n :: sub :: _ => find_sub n sub (ap_Configs app)
  end.
Definition helper_ConfigValue (app : AppReplicaInstance) (name : string) : string :=
  match helper_ConfigItem app name with Some item => ci_Value item | None => "" end.
Definition helper_ConfigValueOK (app : AppReplicaInstance) (name : string) : string * bool :=
  match helper_ConfigItem app name with Some item => (ci_Value item, true) | None => ("", false) end.

Definition findArrayGroupItem (cfgItem : option ConfItem) (keyName keyValue : string) : option ConfItem :=
  match cfgItem with
  | None => None
  | Some c => List.find (fun g => List.existsb (fun v => bool_decide (ci_Name v = keyName) && bool_decide (ci_Value v = keyValue)) (ci_Items g)) (ci_Items c)
  end.
Definition helper_ConfigArrayGroup (app : AppReplicaInstance) (name keyName keyValue : string) : option ConfItem :=
  findArrayGroupItem (helper_ConfigItem app name) keyName keyValue.
(** [appConfigItemHelper.ConfigItem] *)
Definition item_ConfigItem (item : ConfItem) (name : string) : option ConfItem :=
  if bool_decide (ci_Name item = name) then Some item else find_conf name (ci_Items item).

Definition port_matches (name : string) (port : Z) (v : AppDeployServicePort) : bool :=
  negb ((0 <? port) && negb (dsp_Port v =? port)) &&
  negb (negb (bool_decide (name = "")) && negb (prefixMatch (dsp_Name v) name) && negb (bool_decide (dsp_Name v = name))).
Fixpoint first_port (p : AppDeployServicePort -> bool) (reps : list ConfReplica) : option (ConfReplica * AppDeployServicePort) :=
  match reps with
  | [] => None
  | rep :: rest => match List.find p (cr_ServicePorts rep) with Some v => Some (rep, v) | None => first_port p rest end
  end.
Definition helper_Service (app : AppReplicaInstance) (name : string) (port : Z) : option AppDeployServicePort :=
  snd <$> first_port (port_matches name port) (ap_Replicas app).

(** [FindService]: queries of the form [name=..;port=..]; a part of another form is skipped,
    a port that is no number is 0, one out of range the nearest integer. *)
Definition digits_value (s : string) : Z := match dec_acc s 0 with Some n => Z.of_N n | None => 0 end.
Definition atoi_value (s : string) : Z :=
  match s with
  | String "-" digits => Z.max (- 2 ^ 63) (- digits_value digits)
  | String "+" digits => Z.min (2 ^ 63 - 1) (digits_value digits)
  | _ => Z.min (2 ^ 63 - 1) (digits_value s)
  end.
Definition query_part (q : string * Z) (qv : string) : string * Z :=
  match split_at "=" qv with
  | [k; v] => if bool_decide (k = "name") then (v, snd q) else if bool_decide (k = "port") then (fst q, atoi_value v) else q
  | _ => q
  end.
Fixpoint helper_FindService (app : AppReplicaInstance) (qs : list string) : option AppDeployServicePort :=
  match qs with
  | [] => None
  | q :: rest =>
    let '(name, port) := fold_left query_part (split_at ";" q) ("", 0) in
    match helper_Service app name (u32 port) with Some srv => Some srv | None => helper_FindService app rest end
  end.

Definition helper_Depend (app : AppReplicaInstance) (name : string) : option ConfDepend :=
  List.find (fun dep => bool_decide (cd_SpecName dep = name)) (ap_Depends app).
Definition depend_ConfigItem (dep : ConfDepend) (name : string) : option ConfItem := find_conf name (cd_Configs dep).
Definition depend_ConfigArrayGroup (dep : ConfDepend) (name keyName keyValue : string) : option ConfItem :=
  findArrayGroupItem (depend_ConfigItem dep name) keyName keyValue.
Definition depend_Service (dep : ConfDepend) (name : string) : option (ConfReplica * AppDeployServicePort) :=
  first_port (fun v => bool_decide (dsp_Name v = name)) (cd_Replicas dep).

(** ** The parameters *)

Fixpoint replace_char (c d : ascii) (s : string) : string :=
  match s with EmptyString => "" | String x rest => String (if isc c x then d else x) (replace_char c d rest) end.
Definition keyenc (k : string) : string := replace_char "-" "_" (replace_char "/" "." k).

Definition params := list (string * string).
(** [addrExport], [endpointExport] *)
Definition addrExport (prefix host : string) (port : Z) : params :=
  [(prefix +:+ "_addr", host +:+ ":" +:+ itoa port); (prefix +:+ "_host", host); (prefix +:+ "_port", itoa port)].
Definition endpointExport (prefix appName specName : string) (port : Z) : params :=
  [(prefix +:+ "_addr", appName +:+ "." +:+ specName +:+ ":" +:+ itoa port); (prefix +:+ "_host", appName +:+ "." +:+ specName);
   (prefix +:+ "_port", itoa port)].

Definition config_params (prefix : string) (item : ConfItem) : params :=
  if bool_decide (ci_Name item = "") then []
  else let cfgName := prefix +:+ keyenc (ci_Name item) in
       (cfgName, ci_Value item) :: map (fun item2 => (cfgName +:+ "." +:+ keyenc (ci_Name item2), ci_Value item2)) (ci_Items item).

(** Where a replica is reached from inside the zone: its address in the VPC, else the port of
    its host, else the loopback. *)
Definition internal_params (key : string) (rep : ConfReplica) (sp : AppDeployServicePort) : params :=
  if bool_decide (cr_VpcIpv4 rep <> "") then addrExport key (cr_VpcIpv4 rep) (dsp_Port sp)
  else if (0 <? dsp_HostPort sp) && bool_decide (cr_HostIpv4 rep <> "") then addrExport key (cr_HostIpv4 rep) (dsp_HostPort sp)
  else addrExport key "127.0.0.1" (dsp_Port sp).
Definition port_params (prefix appName zoneDomain : string) (rep : ConfReplica) (sp : AppDeployServicePort) : params :=
  if (dsp_Port sp <? 1) || (65535 <? dsp_Port sp) then []
  else (internal_params (prefix +:+ dsp_Name sp +:+ ".internal") rep sp ++
        (if bool_decide (zoneDomain <> "") then endpointExport (prefix +:+ dsp_Name sp +:+ ".service") appName zoneDomain (dsp_Port sp) else []))%list.

Definition depend_params (zoneDomain : string) (dep : ConfDepend) : params :=
  if bool_decide (cd_SpecName dep = "") then []
  else (concat (map (config_params ("deps." +:+ cd_SpecName dep +:+ ".cfg.")) (cd_Configs dep)) ++
        concat (map (fun rep => concat (map (port_params ("deps." +:+ cd_SpecName dep +:+ ".net.") (cd_InstanceName dep) zoneDomain rep) (cr_ServicePorts rep)))
                  (cd_Replicas dep)))%list.

Definition package_params (name : string) : params := [("ipk." +:+ replace_char "-" "_" name +:+ ".path", "/usr/innerstack/" +:+ name)].

(** The assignments of [VarParams], in order. *)
Definition var_assignments (app : AppReplicaInstance) : params :=
  ([("app.name", ap_Name app); ("app.replica.rep_id", itoa (cr_Id (ap_Replica app))); ("app.deploy.replica_cap", itoa (ap_ReplicaCap app))] ++
   concat (map (depend_params (ap_ZoneBaseDomain app)) (ap_Depends app)) ++
   concat (map (config_params "self.cfg.") (ap_Configs app)) ++
   concat (map (port_params "self.net." (ap_Name app) (ap_ZoneBaseDomain app) (ap_Replica app)) (cr_ServicePorts (ap_Replica app))) ++
   concat (map package_params (ap_Packages app)))%list.
Definition assign_all (l : params) (sets : gmap string string) : gmap string string := fold_left (fun sets kv => <[kv.1 := kv.2]> sets) l sets.
Definition VarParams (app : AppReplicaInstance) : gmap string string := assign_all (var_assignments app) ∅.

(** ** Rendering *)

(** What a place holder becomes. *)
Definition substitute (sets : gmap string string) (key : string) : string :=
  match sets !! key with Some val => val | None => "${" +:+ key +:+ "}" end.

(** [ReplaceAllStringFunc] with the expression [${], one or more characters other than [}],
    and [}]: [st] is the key read so far after an opening. *)
Fixpoint expand (sets : gmap string string) (st : option string) (text : string) : string :=
  match text with
  | EmptyString => match st with Some key => "${" +:+ key | None => "" end
  | String c rest =>
    match st with
    | None =>
      match rest with
      | String d rest' => if isc "$" c && isc "{" d then expand sets (Some "") rest' else String c (expand sets None rest)
      | EmptyString => String c ""
      end
    | Some key =>
      if isc "}" c then
        if bool_decide (key = "") then "${}" +:+ expand sets None rest else substitute sets key +:+ expand sets None rest
      else expand sets (Some (key +:+ String c "")) rest
    end
  end.
Definition RenderWithExpand (text : string) (sets : gmap string string) : string := expand sets None text.

(** [FileRender]: the text written for a source that could be read. *)
Definition FileRender (src : option string) (sets : gmap string string) : result string :=
  match src with None => Err "open" | Some text => Ok (RenderWithExpand text sets) end.

Example render_runs :
  let sets := {[ "a" := "1"; "b.c" := "${a}" ]} in
  map (fun t => RenderWithExpand t sets) ["x${a}y"; "${b.c}"; "${}${a}"; "${zz}"; "$${a}"; "${a"; "${x${a}"; "$a{a}"] =
  ["x1y"; "${a}"; "${}1"; "${zz}"; "$1"; "${a"; "${x${a}"; "$a{a}"].
Proof. vm_compute. reflexivity. Qed.
