(* ===== verification/InConfLogic.v ===== *)
(** Rendering replaces exactly the place holders of a text, from left to right, and a place
    holder of a configuration field becomes the value of the field. *)
From Stdlib Require Import ZArith Lia Ascii.
From S2P Require Import Prelude GoStrings AppNames Zone InConf.
Local Open Scope string_scope.

(** A text cut into characters and place holders. *)
Inductive piece := Lit (c : ascii) | Var (key : string).
Definition key_ok (key : string) : Prop := key <> "" /\ s_all (notc "}") key = true.
Definition print_piece (p : piece) : string := match p with Lit c => String c "" | Var key => "${" +:+ key +:+ "}" end.
Definition render_piece (sets : gmap string string) (p : piece) : string := match p with Lit c => String c "" | Var key => substitute sets key end.
Definition cat (l : list string) : string := foldr (fun s acc => s +:+ acc) "" l.
Definition print_pieces (l : list piece) : string := cat (map print_piece l).

(** A place holder starts the text. *)
Definition opens (text : string) : Prop := exists key rest, key_ok key /\ text = "${" +:+ key +:+ "}" +:+ rest.
(** Where a character stands, no place holder starts. *)
Definition leftmost (l : list piece) : Prop := forall l1 c l2, l = (l1 ++ Lit c :: l2)%list -> ~ opens (print_pieces (Lit c :: l2)).

Lemma print_cons p l : print_pieces (p :: l) = print_piece p +:+ print_pieces l.
Proof. done. Qed.
Lemma opens_cons c rest : opens (String c rest) -> c = "$"%char /\ exists rest', rest = String "{" rest'.
Proof. intros (key & r & _ & E). cbn in E. injection E as -> E. eauto. Qed.
Lemma leftmost_nil : leftmost [].
Proof. intros [|] c l2 E; discriminate. Qed.
Lemma leftmost_lit c l : ~ opens (String c (print_pieces l)) -> leftmost l -> leftmost (Lit c :: l).
Proof. intros Hc Hl [|p l1] d l2 E; injection E as E1 E2; subst; [exact Hc|]. by apply (Hl l1 d l2). Qed.
Lemma leftmost_var key l : leftmost l -> leftmost (Var key :: l).
Proof. intros Hl [|p l1] d l2 E; injection E as E1 E2; [done|]. by apply (Hl l1 d l2). Qed.

(** The characters of a text without a closing bracket. *)
Fixpoint lits (s : string) : list piece := match s with EmptyString => [] | String c s => Lit c :: lits s end.
Lemma print_lits s : print_pieces (lits s) = s.
Proof. induction s as [|c s IH]; [done|]. cbn. f_equal. exact IH. Qed.
Lemma render_lits sets s : cat (map (render_piece sets) (lits s)) = s.
Proof. induction s as [|c s IH]; [done|]. cbn. f_equal. exact IH. Qed.
Lemma opens_closed s : opens s -> s_all (notc "}") s = false.
Proof.
  intros (key & rest & [_ Hk] & ->). change ("${" +:+ key +:+ "}" +:+ rest) with (String "$" (String "{" (key +:+ String "}" rest))). cbn.
  rewrite s_all_app. cbn. by rewrite andb_false_r.
Qed.
Lemma leftmost_lits s : s_all (notc "}") s = true -> leftmost (lits s).
Proof.
  induction s as [|c s IH]; intros Hs; [apply leftmost_nil|]. cbn [lits]. apply leftmost_lit.
  - rewrite print_lits. intros Ho. apply opens_closed in Ho. by rewrite Hs in Ho.
  - apply IH. cbn in Hs. by apply andb_true_iff in Hs as [_ Hs].
Qed.

Definition piece_ok (p : piece) : Prop := match p with Var key => key_ok key | Lit _ => True end.
Lemma lits_ok s : Forall piece_ok (lits s).
Proof. induction s; cbn; by constructor. Qed.
Record cut_of (text : string) (l : list piece) : Prop := {
  cut_print : print_pieces l = text;
  cut_vars : Forall piece_ok l;
  cut_leftmost : leftmost l }.
Definition pending (st : option string) : string := match st with Some key => "${" +:+ key | None => "" end.

Lemma cut_lit c text l : ~ opens (String c text) -> cut_of text l -> cut_of (String c text) (Lit c :: l).
Proof.
  intros Ho [Hp Hv Hl]. constructor.
  - rewrite print_cons, Hp. done.
  - by constructor.
  - apply leftmost_lit; [by rewrite Hp|done].
Qed.
Lemma cut_var key text l : key_ok key -> cut_of text l -> cut_of ("${" +:+ key +:+ "}" +:+ text) (Var key :: l).
Proof.
  intros Hk [Hp Hv Hl]. constructor.
  - rewrite print_cons, Hp. cbn [print_piece]. by rewrite !s_app_assoc.
  - by constructor.
  - by apply leftmost_var.
Qed.

(** The scan cuts what is pending and the text that follows. *)
Lemma expand_cut n text st : (String.length text <= n)%nat -> (forall key, st = Some key -> s_all (notc "}") key = true) ->
  exists l, cut_of (pending st +:+ text) l /\ forall sets, expand sets st text = cat (map (render_piece sets) l).
Proof.
  revert text st. induction n as [|n IH]; intros text st Hn Hst.
  - destruct text; [|cbn in Hn; lia]. rewrite s_app_nil_r. destruct st as [key|].
    + exists (lits ("${" +:+ key)). split; [|intros sets; by rewrite render_lits].
      constructor; [apply print_lits|apply lits_ok|apply leftmost_lits; cbn; by apply Hst].
    + exists []. split; [|done]. split; [done|constructor|apply leftmost_nil].
  - destruct text as [|c rest]; [apply IH; [cbn; lia|done]|]. cbn in Hn. destruct st as [key|]; cbn [expand pending].
    + destruct (isc "}" c) eqn:Ec.
      * apply bool_decide_eq_true in Ec as <-. case_bool_decide as Hk.
        -- subst key. destruct (IH rest None ltac:(lia) ltac:(done)) as (l & Hl & Hr).
           exists (Lit "$" :: Lit "{" :: Lit "}" :: l). split; [|intros sets; by rewrite Hr]. cbn.
           apply cut_lit.
           { intros (key & r & [Hne Hk] & E). destruct key as [|d key]; [done|]. injection E as <- E. by cbn in Hk. }
           apply cut_lit; [intros [? _]%opens_cons; done|]. apply cut_lit; [intros [? _]%opens_cons; done|]. exact Hl.
        -- destruct (IH rest None ltac:(lia) ltac:(done)) as (l & Hl & Hr).
           exists (Var key :: l). split; [|intros sets; by rewrite Hr].
           replace (("${" +:+ key) +:+ String "}" rest) with ("${" +:+ key +:+ "}" +:+ rest) by (by rewrite s_app_assoc).
           apply cut_var; [split; [done|by apply Hst]|exact Hl].
      * destruct (IH rest (Some (key +:+ String c "")) ltac:(lia)) as (l & Hl & Hr).
        { intros k [= <-]. rewrite s_all_app, (Hst key eq_refl). cbn [s_all]. unfold notc. by rewrite Ec. }
        exists l. split; [|exact Hr].
        replace (("${" +:+ key) +:+ String c rest) with (("${" +:+ (key +:+ String c "")) +:+ rest) by (by rewrite !s_app_assoc). exact Hl.
    + destruct rest as [|d rest'].
      * exists [Lit c]. split; [|done]. apply cut_lit; [intros [_ [r E]]%opens_cons; done|]. split; [done|constructor|apply leftmost_nil].
      * destruct (isc "$" c && isc "{" d) eqn:Eo.
        -- apply andb_true_iff in Eo as [E1 E2]. apply bool_decide_eq_true in E1 as <-. apply bool_decide_eq_true in E2 as <-.
           destruct (IH rest' (Some "") ltac:(cbn in Hn; lia)) as (l & Hl & Hr); [by intros k [= <-]|]. exists l. split; [exact Hl|exact Hr].
        -- destruct (IH (String d rest') None ltac:(lia) ltac:(done)) as (l & Hl & Hr).
           exists (Lit c :: l). split; [|intros sets; cbn [map render_piece]; rewrite Hr; done]. apply cut_lit; [|exact Hl].
           intros [-> [r E]]%opens_cons. injection E as -> E. cbn in Eo. discriminate.
Qed.

(** C34: Rendering replaces the place holders of a text and nothing else.  Every text is cut, in one
    way for all parameters, into characters and place holders [${key}], the key not empty and
    without a closing bracket, so that no place holder starts where a character stands; the
    rendered text has each place holder of a known parameter replaced by its value, which is not
    rendered again, and everything else as it was. *)
Theorem render_exact (text : string) :
  exists l, print_pieces l = text /\ Forall piece_ok l /\ leftmost l /\
    forall sets, RenderWithExpand text sets = cat (map (render_piece sets) l).
Proof.
  destruct (expand_cut (String.length text) text None ltac:(lia) ltac:(done)) as (l & [Hp Hv Hl] & Hr). eauto.
Qed.

(** There is one such cut. *)
Lemma print_key_split key key' a b : s_all (notc "}") key = true -> s_all (notc "}") key' = true ->
  key +:+ String "}" a = key' +:+ String "}" b -> key = key' /\ a = b.
Proof.
  intros H H' E. apply (f_equal (cut_at "}")) in E. rewrite !cut_at_app in E by done. by simplify_eq.
Qed.
Lemma print_var key l : print_pieces (Var key :: l) = "${" +:+ key +:+ String "}" (print_pieces l).
Proof. rewrite print_cons. cbn [print_piece]. by rewrite !s_app_assoc. Qed.
Lemma cut_unique text l l' : cut_of text l -> cut_of text l' -> l = l'.
Proof.
  intros [<- Hv Hl] [E Hv' Hl']. revert l' E Hv' Hl'. induction l as [|p l IH]; intros [|p' l'] E Hv' Hl'.
  - done.
  - destruct p'; rewrite ?print_var in E; cbn in E; discriminate.
  - destruct p; rewrite ?print_var in E; cbn in E; discriminate.
  - apply Forall_cons in Hv as [Hp Hv]. apply Forall_cons in Hv' as [Hp' Hv'].
    assert (Ht : forall q m, leftmost (q :: m) -> leftmost m) by (intros q m H l1 c l2 ->; apply (H (q :: l1) c l2); done).
    destruct p as [c|key], p' as [c'|key'].
    + rewrite !print_cons in E. cbn in E. injection E as -> E. f_equal. eauto.
    + exfalso. apply (Hl [] c l eq_refl). rewrite <- E. exists key', (print_pieces l'). split; [exact Hp'|]. by rewrite print_var.
    + exfalso. apply (Hl' [] c' l' eq_refl). rewrite E. exists key, (print_pieces l). split; [exact Hp|]. by rewrite print_var.
    + rewrite !print_var in E. change ("${" +:+ key' +:+ String "}" (print_pieces l')) with (String "$" (String "{" (key' +:+ String "}" (print_pieces l')))) in E.
      change ("${" +:+ key +:+ String "}" (print_pieces l)) with (String "$" (String "{" (key +:+ String "}" (print_pieces l)))) in E.
      injection E as E. destruct Hp as [_ Hp], Hp' as [_ Hp']. destruct (print_key_split _ _ _ _ Hp' Hp E) as [-> E']. f_equal. eauto.
Qed.

(** ** Parameters *)

Lemma assign_app (l1 l2 : params) sets : assign_all (l1 ++ l2)%list sets = assign_all l2 (assign_all l1 sets).
Proof. apply fold_left_app. Qed.
Lemma assign_all_other l sets k : (forall v, (k, v) ∉ l) -> assign_all l sets !! k = sets !! k.
Proof.
  revert sets. induction l as [|[k' v'] l IH]; intros sets H; [done|]. cbn.
  assert (Hne : k' <> k) by (intros ->; apply (H v'); left).
  rewrite <- (lookup_insert_ne sets k' k v') by done. apply IH. intros v Hv. apply (H v). by right.
Qed.
Lemma assign_one l sets k v : NoDup (map fst l) -> (k, v) ∈ l -> assign_all l sets !! k = Some v.
Proof.
  revert sets. induction l as [|[k' v'] l IH]; intros sets Hn Hin; [by apply elem_of_nil in Hin|]. cbn.
  apply NoDup_cons in Hn as [Hk Hn]. apply elem_of_cons in Hin as [E|Hin].
  - simplify_eq. fold (assign_all l (<[k' := v']> sets)). rewrite assign_all_other; [apply lookup_insert_eq|].
    intros w Hw. apply Hk. apply list_elem_of_fmap. by exists (k', w).
  - by apply IH.
Qed.

(** The keys an assignment list can have. *)
Definition keys_under (prefix : string) (l : params) : Prop := Forall (fun kv => exists rest, kv.1 = prefix +:+ rest) l.
Lemma keys_under_concat {A} prefix (f : A -> params) l : (forall x, keys_under prefix (f x)) -> keys_under prefix (concat (map f l)).
Proof. intros Hf. induction l as [|x l IH]; cbn; [constructor|]. apply Forall_app. split; [apply Hf|exact IH]. Qed.
Lemma port_params_under prefix appName dom rep sp : keys_under prefix (port_params prefix appName dom rep sp).
Proof.
  unfold port_params, internal_params, addrExport, endpointExport.
  repeat case_match; cbn; repeat constructor; rewrite ?s_app_assoc; cbn [fst]; rewrite ?s_app_assoc; eexists; reflexivity.
Qed.
Lemma package_params_under name : keys_under "ipk." (package_params name).
Proof. unfold package_params. repeat constructor. eexists. reflexivity. Qed.
Lemma keys_under_other prefix l k v : keys_under prefix l -> (forall rest, k <> prefix +:+ rest) -> (k, v) ∉ l.
Proof. intros H Hk Hin. destruct (proj1 (Forall_forall _ _) H _ Hin) as [rest E]. by apply (Hk rest). Qed.

(** A field of the instance is the parameter of its encoded name, when the encoded names are distinct. *)
Lemma field_param app item :
  item ∈ ap_Configs app -> ci_Name item <> "" -> NoDup (map fst (concat (map (config_params "self.cfg.") (ap_Configs app)))) ->
  VarParams app !! ("self.cfg." +:+ keyenc (ci_Name item)) = Some (ci_Value item).
Proof.
  intros Hin Hne Hnd. unfold VarParams, var_assignments. rewrite !assign_app.
  rewrite assign_all_other; [|intros v; apply (keys_under_other "ipk."); [apply keys_under_concat, package_params_under|by intros rest [=]]].
  rewrite assign_all_other; [|intros v; apply (keys_under_other "self.net."); [apply keys_under_concat; intros sp; apply port_params_under|by intros rest [=]]].
  apply assign_one; [exact Hnd|]. apply list_elem_of_In, in_concat. exists (config_params "self.cfg." item).
  split; [apply in_map; by apply list_elem_of_In|]. unfold config_params. rewrite bool_decide_false by done. by left.
Qed.

Lemma expand_plain sets pre text : s_all (notc "$") pre = true -> expand sets None (pre +:+ text) = pre +:+ expand sets None text.
Proof.
  induction pre as [|c pre IH]; intros H; [done|]. cbn in H. apply andb_true_iff in H as [Hc H]. unfold notc in Hc. apply negb_true_iff in Hc.
  change (String c pre +:+ text) with (String c (pre +:+ text)). change (String c pre +:+ expand sets None text) with (String c (pre +:+ expand sets None text)).
  rewrite <- (IH H). cbn [expand]. destruct (pre +:+ text) as [|d rest]; [done|]. by rewrite Hc.
Qed.
Lemma expand_key sets key acc text : s_all (notc "}") key = true -> acc +:+ key <> "" ->
  expand sets (Some acc) (key +:+ String "}" text) = substitute sets (acc +:+ key) +:+ expand sets None text.
Proof.
  revert acc. induction key as [|c key IH]; intros acc H Hne.
  - cbn. rewrite s_app_nil_r in *. by rewrite bool_decide_false.
  - cbn in H. apply andb_true_iff in H as [Hc H]. unfold notc in Hc. apply negb_true_iff in Hc.
    change (String c key +:+ String "}" text) with (String c (key +:+ String "}" text)). cbn [expand]. rewrite Hc.
    assert (E : acc +:+ String c key = (acc +:+ String c "") +:+ key) by (by rewrite s_app_assoc). rewrite E. apply IH; [done|]. by rewrite <- E.
Qed.
Lemma keyenc_no_bracket name : s_all (notc "}") name = true -> s_all (notc "}") (keyenc name) = true.
Proof.
  unfold keyenc. induction name as [|c name IH]; [done|]. cbn. intros [Hc H]%andb_true_iff. rewrite (IH H), andb_true_r.
  destruct (isc "/" c) eqn:E1; [cbn; destruct (isc "-" "."); done|]. destruct (isc "-" c); [done|exact Hc].
Qed.

(** A place holder of a field is rendered as the value of the field. *)
Lemma field_rendered app item pre post :
  item ∈ ap_Configs app -> ci_Name item <> "" -> NoDup (map fst (concat (map (config_params "self.cfg.") (ap_Configs app)))) ->
  s_all (notc "}") (ci_Name item) = true -> s_all (notc "$") pre = true ->
  RenderWithExpand (pre +:+ "${self.cfg." +:+ keyenc (ci_Name item) +:+ String "}" post) (VarParams app) =
  pre +:+ ci_Value item +:+ RenderWithExpand post (VarParams app).
Proof.
  intros Hin Hne Hnd Hb Hp. unfold RenderWithExpand. rewrite expand_plain by done. f_equal.
  set (key := "self.cfg." +:+ keyenc (ci_Name item)).
  change (expand (VarParams app) (Some "") (key +:+ String "}" post) = ci_Value item +:+ expand (VarParams app) None post).
  rewrite expand_key; [|subst key; cbn; by apply keyenc_no_bracket|done]. f_equal. change ("" +:+ key) with key. unfold substitute.
  pose proof (field_param app item Hin Hne Hnd) as E. fold key in E. by rewrite E.
Qed.

(** Two fields whose names differ in the character that is encoded share a parameter: the last wins. *)
Example encoded_names_collide :
  let app := {| ap_Name := "web"; ap_Tasks := []; ap_Packages := []; ap_Revision := 1; ap_ReplicaCap := 1;
    ap_Configs := [Conf "max-users" "10" "" []; Conf "max_users" "99" "" []]; ap_Depends := []; ap_Replicas := [];
    ap_Replica := {| cr_Id := 0; cr_HostId := "h"; cr_HostIpv4 := ""; cr_VpcIpv4 := ""; cr_ServicePorts := [] |}; ap_ZoneBaseDomain := "";
    ap_HostletEndpoint := None |} in
  VarParams app !! ("self.cfg." +:+ keyenc "max-users") = Some "99".
Proof. vm_compute. reflexivity. Qed.
