(* ===== verification/AgentTask.v ===== *)
(** The tasks of a replica, as the agent in its container runs them:
    [src/internal/inagent/task/task.go], with the loop of
    [src/internal/inagent/daemon/daemon.go] that drives it.

    A pass over the tasks ([Run]) and the end of a process, which a goroutine of its own
    records, interleave: a trace is a sequence of visits of one task by a pass and of ends.
    The status of a task is reached by its name only, so the pointer the goroutine holds is
    the entry of that name.  Processes, the cron library and the log are outside. *)
From Stdlib Require Import ZArith Lia Ascii.
From S2P Require Import Prelude GoStrings Stage InConf.
Local Open Scope string_scope.
Local Open Scope Z_scope.
Local Open Scope go_scope.

(** [CronParse]: the next time after one that a schedule matches, in seconds; [None] when
    neither form of the expression parses.  Starting a process may fail. *)
Class Cron := CronNext : string -> option (Z -> Z).
Record shell_command := { cm_Stdin : string; cm_Dir : string; cm_Uid : Z }.
Class Shell := sh_Start : shell_command -> bool.

Definition minRetryIntervalSeconds : Z := 10.
Definition execRunning : string := "running".
Definition execExited : string := "existed".
Definition HomeDir : string := "/home/action".
Definition DefaultUserID : Z := 2048.

Record executorStatus := {
  es_Updated : Z; es_State : string; es_ExecWindow : Z; es_DoneUpdated : Z; es_FailUpdated : Z; es_FailMessage : string;
  es_Cmd : option shell_command; es_Output : string }.
Definition new_status (updated : Z) : executorStatus :=
  {| es_Updated := updated; es_State := ""; es_ExecWindow := 0; es_DoneUpdated := 0; es_FailUpdated := 0; es_FailMessage := "";
     es_Cmd := None; es_Output := "" |}.
Definition with_window (w : Z) (es : executorStatus) : executorStatus :=
  {| es_Updated := es_Updated es; es_State := es_State es; es_ExecWindow := w; es_DoneUpdated := es_DoneUpdated es;
     es_FailUpdated := es_FailUpdated es; es_FailMessage := es_FailMessage es; es_Cmd := es_Cmd es; es_Output := es_Output es |}.
Definition with_updated (t : Z) (es : executorStatus) : executorStatus :=
  {| es_Updated := t; es_State := es_State es; es_ExecWindow := es_ExecWindow es; es_DoneUpdated := es_DoneUpdated es;
     es_FailUpdated := es_FailUpdated es; es_FailMessage := es_FailMessage es; es_Cmd := es_Cmd es; es_Output := es_Output es |}.
Definition with_state (st : string) (es : executorStatus) : executorStatus :=
  {| es_Updated := es_Updated es; es_State := st; es_ExecWindow := es_ExecWindow es; es_DoneUpdated := es_DoneUpdated es;
     es_FailUpdated := es_FailUpdated es; es_FailMessage := es_FailMessage es; es_Cmd := es_Cmd es; es_Output := es_Output es |}.
Definition with_cmd (c : option shell_command) (es : executorStatus) : executorStatus :=
  {| es_Updated := es_Updated es; es_State := es_State es; es_ExecWindow := es_ExecWindow es; es_DoneUpdated := es_DoneUpdated es;
     es_FailUpdated := es_FailUpdated es; es_FailMessage := es_FailMessage es; es_Cmd := c; es_Output := es_Output es |}.
Definition with_result (done fail : Z) (es : executorStatus) : executorStatus :=
  {| es_Updated := es_Updated es; es_State := es_State es; es_ExecWindow := es_ExecWindow es; es_DoneUpdated := done;
     es_FailUpdated := fail; es_FailMessage := es_FailMessage es; es_Cmd := es_Cmd es; es_Output := es_Output es |}.
Definition with_failure (msg output : string) (es : executorStatus) : executorStatus :=
  {| es_Updated := es_Updated es; es_State := es_State es; es_ExecWindow := es_ExecWindow es; es_DoneUpdated := es_DoneUpdated es;
     es_FailUpdated := es_FailUpdated es; es_FailMessage := msg; es_Cmd := es_Cmd es; es_Output := output |}.

Abbreviation statuses := (gmap string executorStatus).

Definition dependAllow (task : AgentTask) (st : statuses) : bool :=
  forallb (fun name => match st !! name with Some es => es_ExecWindow es <=? es_DoneUpdated es | None => false end) (at_DependsOn task).

(** ** One task *)

(** The command of a script: what is written to the shell, where, and as whom. *)
Definition nl : string := String (ascii_of_nat 10) "".
Definition working_dir (task : AgentTask) : string := if bool_decide (at_WorkingDir task = "") then HomeDir else at_WorkingDir task.
Definition run_uid (task : AgentTask) : Z := if bool_decide (at_RunUser task = "root") then 0 else DefaultUserID.
Definition async_command (task : AgentTask) (script : string) : shell_command :=
  {| cm_Stdin := "set -e" +:+ nl +:+ "set -o pipefail" +:+ nl +:+ script +:+ nl +:+ "exit" +:+ nl; cm_Dir := working_dir task; cm_Uid := run_uid task |}.
Definition sync_command (task : AgentTask) (script : string) : shell_command :=
  {| cm_Stdin := "set -e" +:+ nl +:+ script +:+ nl +:+ "exit" +:+ nl; cm_Dir := working_dir task; cm_Uid := run_uid task |}.

(** What an action came to: nothing was started, a command was, or starting it failed. *)
Inductive action_result := Idle | Started (c : shell_command) | StartFailed.
Definition started_cmd (r : action_result) : option shell_command := match r with Started c => Some c | _ => None end.

Section tasks.
Context {CR : Cron} {SH : Shell}.

(** [taskCmd], which [taskAsyncAction] calls only when no command is there. *)
Definition taskCmd (task : AgentTask) (es : executorStatus) (script : string) : executorStatus * action_result :=
  let c := async_command task script in
  if sh_Start c then (with_cmd (Some c) es, Started c) else (with_cmd None es, StartFailed).

Definition taskAsyncAction (task : AgentTask) (es : executorStatus) (sets : gmap string string) (tn : Z) : executorStatus * action_result :=
  if es_ExecWindow es <=? es_DoneUpdated es then (es, Idle)
  else match es_Cmd es with
  | Some _ => ((if es_Updated es +64 60 <? tn then with_updated tn es else es), Idle)
  | None =>
    let script := trim_space (at_Script task) in
    if bool_decide (script = "") then (es, Idle)
    else taskCmd task (with_updated tn (with_state execRunning es)) (RenderWithExpand script sets)
  end.

(** The status of a task when a pass comes to it, and its window after the triggers have been
    looked at; [None] is a task without a trigger. *)
Definition task_status (task : AgentTask) (st : statuses) (tn now : Z) : executorStatus :=
  match st !! at_Name task with
  | Some es => es
  | None => let es := new_status now in if at_OnStartup task || (0 <? at_IntervalSeconds task) then with_window tn es else es
  end.
Definition task_trigger (task : AgentTask) (es : executorStatus) (tn now : Z) : option executorStatus :=
  let lastUpdated := Z.max (es_DoneUpdated es) (es_FailUpdated es) in
  let retry := Z.max (es_ExecWindow es +64 minRetryIntervalSeconds) tn in
  if at_OnStartup task then
    Some (if (0 <? es_ExecWindow es) && (es_DoneUpdated es =? 0) && (es_ExecWindow es <=? es_FailUpdated es) then with_window retry es else es)
  else if 0 <? at_IntervalSeconds task then
    Some (if lastUpdated +64 at_IntervalSeconds task <=? tn then with_window retry es else es)
  else if bool_decide (at_Cron task <> "") then
    Some (if (es_ExecWindow es =? 0) || (es_ExecWindow es <=? lastUpdated) then
            match CronNext (at_Cron task) with Some next => with_window (Z.max (next now) lastUpdated) es | None => es end
          else es)
  else None.

(** One turn of the loop of [Run], for a pass that began at [tn]; it is [now]. *)
Definition visit_task (app : AppReplicaInstance) (task : AgentTask) (tn now : Z) (st : statuses) : statuses * action_result :=
  if at_OnShutdown task then (st, Idle)
  else
    let es := task_status task st tn now in
    let st := <[at_Name task := es]> st in
    match task_trigger task es tn now with
    | None => (st, Idle)
    | Some es =>
      let st := <[at_Name task := es]> st in
      if (es_ExecWindow es =? 0) || (tn <? es_ExecWindow es) then (st, Idle)
      else if es_ExecWindow es <=? es_DoneUpdated es then (st, Idle)
      else if negb (dependAllow task st) then (st, Idle)
      else
        let '(es, r) := taskAsyncAction task es (VarParams app) now in
        let es := match r with StartFailed => with_result 0 (Z.max now (es_ExecWindow es)) es | _ => es end in
        (<[at_Name task := es]> st, r)
    end.

(** ** The end of a process *)

(** A process exits with a status, is killed by a signal, or is reaped by [ReapOrphans] before
    [Wait] gets its state. *)
Inductive outcome := ExitOk | ExitError (message output : string) | Killed | Reaped.
Definition wait_done (name : string) (o : outcome) (now : Z) (st : statuses) : statuses :=
  match st !! name with
  | None => st
  | Some es =>
    match es_Cmd es with
    | None => st
    | Some _ =>
      match o with
      | Killed | Reaped => st
      | ExitOk =>
        let es := with_result (Z.max now (es_ExecWindow es)) 0 (with_state execExited es) in
        <[name := with_updated now (with_cmd None es)]> st
      | ExitError message output =>
        let output := trim_space output in
        let msg := if bool_decide (output <> "") then "process error " +:+ message +:+ ", output: " +:+ output else "process error " +:+ message in
        let es := with_result 0 (Z.max now (es_ExecWindow es)) (with_failure msg output (with_state execExited es)) in
        <[name := with_updated now (with_cmd None es)]> st
      end
    end
  end.

(** ** A pass *)

(** What happens around each visit: the clock, and the processes that end before the next one. *)
Definition pause := (Z * list (string * outcome * Z))%type.
Definition ends (l : list (string * outcome * Z)) (st : statuses) : statuses := fold_left (fun st e => wait_done e.1.1 e.1.2 e.2 st) l st.
Fixpoint run_tasks (app : AppReplicaInstance) (tasks : list AgentTask) (tn : Z) (pauses : list pause) (st : statuses) : statuses * list (string * shell_command) :=
  match tasks with
  | [] => (st, [])
  | task :: rest =>
    let '(now, ended) := default (tn, []) (head pauses) in
    let '(st, r) := visit_task app task tn now st in
    let '(st, more) := run_tasks app rest tn (tail pauses) (ends ended st) in
    (st, (match started_cmd r with Some c => [(at_Name task, c)] | None => [] end ++ more)%list)
  end.

(** [appReplicaInstance] and [execStatuses]. *)
Record task_runner := { tr_app : option AppReplicaInstance; tr_statuses : statuses }.
Definition Run (app : AppReplicaInstance) (tn : Z) (pauses : list pause) (r : task_runner) : task_runner * list (string * shell_command) :=
  if bool_decide (ap_Tasks app = []) then (r, [])
  else let '(st, started) := run_tasks app (ap_Tasks app) tn pauses (tr_statuses r) in
       ({| tr_app := Some app; tr_statuses := st |}, started).

(** [Kill]: the tasks whose process is killed, and the commands of the shutdown tasks that are
    started, one after the other.  The status of a killed task stays as it is ([wait_done]). *)
Definition kill_targets (tasks : list AgentTask) (st : statuses) : list string :=
  omap (fun t => match st !! at_Name t with Some es => (fun _ => at_Name t) <$> es_Cmd es | None => None end) tasks.
Definition taskSyncAction (task : AgentTask) (sets : gmap string string) : option shell_command :=
  let script := trim_space (at_Script task) in
  if bool_decide (script = "") then None
  else let c := sync_command task (RenderWithExpand script sets) in if sh_Start c then Some c else None.
Definition Kill (r : task_runner) : list string * list (string * shell_command) :=
  match tr_app r with
  | None => ([], [])
  | Some app =>
    if bool_decide (ap_Tasks app = []) then ([], [])
    else (kill_targets (ap_Tasks app) (tr_statuses r),
          omap (fun t => if at_OnShutdown t then (fun c => (at_Name t, c)) <$> taskSyncAction t (VarParams app) else None) (ap_Tasks app))
  end.

(** ** What is reported *)

Inductive startup_class := StFailed | StSucceeded | StRunning | StPending.
Definition startup_class_of (st : statuses) (t : AgentTask) : startup_class :=
  match st !! at_Name t with
  | None => StPending
  | Some es =>
    if (0 <? es_FailUpdated es) && (es_DoneUpdated es <? es_FailUpdated es) then StFailed
    else if 0 <? es_DoneUpdated es then StSucceeded
    else if bool_decide (es_State es = execRunning) then StRunning else StPending
  end.
Definition is_class (c : startup_class) (c' : startup_class) : bool :=
  match c, c' with StFailed, StFailed | StSucceeded, StSucceeded | StRunning, StRunning | StPending, StPending => true | _, _ => false end.
Definition count_class (c : startup_class) (st : statuses) (tasks : list AgentTask) : Z :=
  Z.of_nat (length (List.filter (fun t => is_class c (startup_class_of st t)) tasks)).
Definition OnStartupAggregate (tasks : list AgentTask) (st : statuses) : string * string :=
  let startup := List.filter at_OnStartup tasks in
  let n := Z.of_nat (length startup) in
  let pending := count_class StPending st startup in
  let running := count_class StRunning st startup in
  let failed := count_class StFailed st startup in
  (* the first failed task that has a name *)
  let failedName := default "" (at_Name <$> List.find (fun t => is_class StFailed (startup_class_of st t) && negb (bool_decide (at_Name t = ""))) startup) in
  if n =? 0 then (AppStageStateSuccess, "")
  else if 0 <? failed then
    (AppStageStateFailed, itoa failed +:+ "/" +:+ itoa n +:+ " tasks failed (first: " +:+ failedName +:+ ")")
  else if (0 <? running) || (0 <? pending) then
    (AppStageStateRunning, itoa (n - pending) +:+ "/" +:+ itoa n +:+ " tasks running")
  else (AppStageStateSuccess, itoa n +:+ "/" +:+ itoa n +:+ " tasks done").

(** How long the loop of the agent waits after a pass, in nanoseconds, at a time in
    nanoseconds: the last task with a schedule that parses decides. *)
Definition tick_duration (tasks : list AgentTask) (now : Z) : Z :=
  fold_left (fun dur t =>
    match (if bool_decide (at_Cron t <> "") then CronNext (at_Cron t) else None) with
    | Some next => Z.max 1000000000 (Z.quot (Z.abs (now - next (now `div` 1000000000) * 1000000000)) 2)
    | None => dur
    end) tasks 10000000000.
End tasks.
