(* ===== verification/AgentTaskLogic.v ===== *)
(** The tasks of a replica: a task has one process at a time, a startup task runs until it
    succeeds and not again, after the startup tasks it depends on; what is reported of the
    startup tasks is what happened; a failed one is retried within ten seconds. *)
From Stdlib Require Import ZArith Lia Ascii.
From S2P Require Import Prelude GoStrings Stage InConf AgentTask.
Local Open Scope string_scope.
Local Open Scope Z_scope.
Local Open Scope go_scope.

(** ** Traces *)

Inductive task_event := Visit (task : AgentTask) (tn now : Z) | End_of (name : string) (o : outcome) (now : Z).
Inductive log_entry := LStart (name : string) | LOk (name : string) | LFail (name : string).
Definition entry_name (e : log_entry) : string := match e with LStart n | LOk n | LFail n => n end.
#[export] Instance log_entry_eq_dec : EqDecision log_entry.
Proof. solve_decision. Defined.

Definition visit_log (name : string) (r : action_result) : list log_entry :=
  match r with Idle => [] | Started _ => [LStart name] | StartFailed => [LFail name] end.
(** The end of a process is recorded for a task that has one, unless it was killed or reaped. *)
Definition end_log (name : string) (o : outcome) (st : statuses) : list log_entry :=
  match st !! name with
  | Some es => match es_Cmd es, o with
               | Some _, ExitOk => [LOk name]
               | Some _, ExitError _ _ => [LFail name]
               | _, _ => []
               end
  | None => []
  end.

Section trace.
Context {CR : Cron} {SH : Shell}.
Variable app : AppReplicaInstance.

Definition event_step (st : statuses) (ev : task_event) : statuses * list log_entry :=
  match ev with
  | Visit task tn now => let '(st', r) := visit_task app task tn now st in (st', visit_log (at_Name task) r)
  | End_of name o now => (wait_done name o now st, end_log name o st)
  end.
Fixpoint run_trace (evs : list task_event) (st : statuses) : statuses * list log_entry :=
  match evs with
  | [] => (st, [])
  | ev :: evs => let '(st, l) := event_step st ev in let '(st, l') := run_trace evs st in (st, (l ++ l')%list)
  end.

(** A pass over the tasks is such a trace. *)
Fixpoint pass_events (tasks : list AgentTask) (tn : Z) (pauses : list pause) : list task_event :=
  match tasks with
  | [] => []
  | task :: rest =>
    let '(now, ended) := default (tn, []) (head pauses) in
    (Visit task tn now :: map (fun e => End_of e.1.1 e.1.2 e.2) ended ++ pass_events rest tn (tail pauses))%list
  end.
Lemma run_trace_app evs1 evs2 st :
  run_trace (evs1 ++ evs2) st =
  let '(st1, l1) := run_trace evs1 st in let '(st2, l2) := run_trace evs2 st1 in (st2, (l1 ++ l2)%list).
Proof.
  revert st. induction evs1 as [|ev evs1 IH]; intros st; cbn.
  - by destruct (run_trace evs2 st).
  - destruct (event_step st ev) as [st1 l1]. rewrite IH. destruct (run_trace evs1 st1) as [st2 l2]. destruct (run_trace evs2 st2) as [st3 l3].
    by rewrite app_assoc.
Qed.
Lemma run_trace_ends l st : fst (run_trace (map (fun e => End_of e.1.1 e.1.2 e.2) l) st) = ends l st.
Proof.
  revert st. induction l as [|e l IH]; intros st; [done|]. cbn. specialize (IH (wait_done e.1.1 e.1.2 e.2 st)).
  destruct (run_trace _ _) as [st' l']. exact IH.
Qed.
Lemma run_tasks_trace tasks tn pauses st :
  fst (run_tasks app tasks tn pauses st) = fst (run_trace (pass_events tasks tn pauses) st).
Proof.
  revert pauses st. induction tasks as [|task tasks IH]; intros pauses st; [done|]. cbn.
  destruct (default (tn, []) (head pauses)) as [now ended]. cbn. destruct (visit_task app task tn now st) as [st1 r].
  specialize (IH (tail pauses) (ends ended st1)). destruct (run_tasks app tasks tn (tail pauses) (ends ended st1)) as [st2 more]. cbn in IH.
  rewrite run_trace_app. pose proof (run_trace_ends ended st1) as He. destruct (run_trace (map _ ended) st1) as [st3 l3]. cbn in He. subst st3.
  destruct (run_trace (pass_events tasks tn (tail pauses)) (ends ended st1)) as [st4 l4]. exact IH.
Qed.

(** ** One visit *)

(** What a visit leaves of its task, by what it did. *)
Record visited (task : AgentTask) (tn now : Z) (st st' : statuses) (r : action_result) : Prop := {
  vi_other : forall name, name <> at_Name task -> st' !! name = st !! name;
  vi_idle : r = Idle -> at_OnShutdown task = true /\ st' = st \/
    exists es, st' !! at_Name task = Some es /\
      es_DoneUpdated es = es_DoneUpdated (task_status task st tn now) /\ es_FailUpdated es = es_FailUpdated (task_status task st tn now) /\
      es_Cmd es = es_Cmd (task_status task st tn now) /\
      es_ExecWindow es = es_ExecWindow (default (task_status task st tn now) (task_trigger task (task_status task st tn now) tn now));
  vi_acts : r <> Idle -> at_OnShutdown task = false /\ exists es es', task_trigger task (task_status task st tn now) tn now = Some es /\
      st' !! at_Name task = Some es' /\ es_ExecWindow es' = es_ExecWindow es /\ es_Cmd es = None /\ es_DoneUpdated es < es_ExecWindow es <= tn /\
      dependAllow task (<[at_Name task := es]> st) = true /\
      match r with
      | Started c => es_Cmd es' = Some c /\ es_DoneUpdated es' = es_DoneUpdated es /\ es_FailUpdated es' = es_FailUpdated es /\ es_State es' = execRunning
      | _ => es_Cmd es' = None /\ es_DoneUpdated es' = 0 /\ es_FailUpdated es' = Z.max now (es_ExecWindow es)
      end }.

Lemma task_trigger_keeps task es tn now es' : task_trigger task es tn now = Some es' ->
  es_DoneUpdated es' = es_DoneUpdated es /\ es_FailUpdated es' = es_FailUpdated es /\ es_Cmd es' = es_Cmd es /\ es_State es' = es_State es.
Proof. unfold task_trigger. intros H. repeat case_match; simplify_eq; done. Qed.

Lemma dependAllow_keeps task st st' : (forall n, (fun es => (es_ExecWindow es, es_DoneUpdated es)) <$> st !! n = (fun es => (es_ExecWindow es, es_DoneUpdated es)) <$> st' !! n) ->
  dependAllow task st = dependAllow task st'.
Proof.
  intros H. unfold dependAllow. induction (at_DependsOn task) as [|d deps IH]; [done|]. cbn [forallb]. f_equal; [|exact IH].
  specialize (H d). destruct (st !! d), (st' !! d); cbn in H; simplify_eq; [|done]. congruence.
Qed.

Lemma visit_task_spec task tn now st :
  visited task tn now st (fst (visit_task app task tn now st)) (snd (visit_task app task tn now st)).
Proof.
  unfold visit_task. destruct (at_OnShutdown task) eqn:Eoff.
  { split; [done|by left|done]. }
  set (es0 := task_status task st tn now). destruct (task_trigger task es0 tn now) as [es|] eqn:Et.
  2:{ cbn [fst snd]. split; [intros n Hn; by rewrite lookup_insert_ne| |done]. intros _. right. exists es0. fold es0. rewrite lookup_insert_eq, Et. done. }
  rewrite insert_insert_eq. destruct (task_trigger_keeps _ _ _ _ _ Et) as (Hd & Hf & Hc & Hs).
  assert (Hidle : visited task tn now st (<[at_Name task := es]> st) Idle).
  { split; [intros n Hn; by rewrite lookup_insert_ne| |done]. intros _. right. exists es. fold es0. rewrite lookup_insert_eq, Et. done. }
  destruct ((es_ExecWindow es =? 0) || (tn <? es_ExecWindow es)) eqn:Ew; [exact Hidle|].
  destruct (es_ExecWindow es <=? es_DoneUpdated es) eqn:Edone; [exact Hidle|].
  destruct (dependAllow task (<[at_Name task := es]> st)) eqn:Edep; cbn [negb]; [|exact Hidle].
  unfold taskAsyncAction. rewrite Edone. destruct (es_Cmd es) as [c0|] eqn:Ec.
  { cbn [fst snd]. rewrite insert_insert_eq. split; [intros n Hn; by rewrite lookup_insert_ne| |done]. intros _. right. fold es0. rewrite Et.
    eexists. rewrite lookup_insert_eq. split; [done|]. rewrite <- Hc. destruct (_ <? now); cbn; rewrite ?Ec; done. }
  case_bool_decide as Escript.
  { cbn [fst snd]. rewrite insert_insert_eq. exact Hidle. }
  unfold taskCmd. destruct (sh_Start _) eqn:Esh; cbn [fst snd]; rewrite insert_insert_eq.
  all: split; [intros n Hn; by rewrite lookup_insert_ne|done|]; intros _; split; [done|].
  all: exists es; eexists; rewrite lookup_insert_eq; fold es0; split; [done|]; split; [done|]; cbn; repeat split; try done; lia.
Qed.

(** ** Logs *)

Definition is_start (n : string) (e : log_entry) : bool := match e with LStart m => bool_decide (m = n) | _ => false end.
Definition is_end (n : string) (e : log_entry) : bool := match e with LOk m | LFail m => bool_decide (m = n) | _ => false end.
(** Whether the log leaves a process of the task running. *)
Definition runs (n : string) (log : list log_entry) : bool :=
  fold_left (fun b e => if is_start n e then true else if is_end n e then false else b) log false.

Definition one_at_a_time (log : list log_entry) : Prop :=
  forall l1 l2 l3 n, log = (l1 ++ LStart n :: l2 ++ LStart n :: l3)%list -> LOk n ∈ l2 \/ LFail n ∈ l2.
Definition not_again (spec : list AgentTask) (log : list log_entry) : Prop :=
  forall l1 l2 t, t ∈ spec -> at_OnStartup t = true -> log = (l1 ++ LOk (at_Name t) :: l2)%list -> LStart (at_Name t) ∉ l2.
Definition after_dependencies (spec : list AgentTask) (log : list log_entry) : Prop :=
  forall l1 l2 t d, t ∈ spec -> d ∈ spec -> at_OnStartup d = true -> at_Name d ∈ at_DependsOn t ->
    log = (l1 ++ LStart (at_Name t) :: l2)%list -> LOk (at_Name d) ∈ l1.

Lemma runs_snoc n log e : runs n (log ++ [e])%list = if is_start n e then true else if is_end n e then false else runs n log.
Proof. unfold runs. by rewrite fold_left_app. Qed.
Lemma runs_ended n l1 l2 : runs n (l1 ++ LStart n :: l2)%list = false -> LOk n ∈ l2 \/ LFail n ∈ l2.
Proof.
  induction l2 as [|e l2 IH] using rev_ind.
  - rewrite runs_snoc. cbn. by rewrite bool_decide_true.
  - rewrite app_comm_cons, app_assoc, runs_snoc. destruct (is_start n e); [done|]. destruct (is_end n e) eqn:E.
    + intros _. destruct e; cbn in E; try done; apply bool_decide_eq_true in E as ->; [left|right]; apply elem_of_app; right; by left.
    + intros H. destruct (IH H); [left|right]; apply elem_of_app; by left.
Qed.
Lemma snoc_inv {A} (log l1 l2 : list A) (e x : A) : (log ++ [e] = l1 ++ x :: l2)%list ->
  (l2 = [] /\ x = e /\ l1 = log) \/ exists l2', l2 = (l2' ++ [e])%list /\ log = (l1 ++ x :: l2')%list.
Proof.
  destruct l2 as [|y l2 _] using rev_ind; intros E.
  - left. apply app_inj_tail in E as [-> ->]. done.
  - right. rewrite app_comm_cons, app_assoc in E. apply app_inj_tail in E as [-> ->]. eauto.
Qed.

Lemma one_snoc log e : one_at_a_time log -> (forall n, e = LStart n -> runs n log = false) -> one_at_a_time (log ++ [e])%list.
Proof.
  intros H He l1 l2 l3 n E. rewrite app_comm_cons, app_assoc in E. apply snoc_inv in E as [(-> & <- & E)|(l3' & -> & E)].
  - apply (runs_ended n l1). rewrite E. by apply He.
  - rewrite <- app_assoc in E. by apply (H l1 l2 l3' n).
Qed.
Lemma not_again_snoc spec log e : not_again spec log ->
  (forall t, t ∈ spec -> at_OnStartup t = true -> e = LStart (at_Name t) -> LOk (at_Name t) ∉ log) -> not_again spec (log ++ [e])%list.
Proof.
  intros H He l1 l2 t Ht Hs E. apply snoc_inv in E as [(-> & _ & _)|(l2' & -> & E)]; [apply not_elem_of_nil|].
  intros Hin. apply elem_of_app in Hin as [Hin|Hin%list_elem_of_singleton].
  - by apply (H l1 l2' t Ht Hs E).
  - apply (He t Ht Hs (eq_sym Hin)). rewrite E. apply elem_of_app. right. by left.
Qed.
Lemma after_deps_snoc spec log e : after_dependencies spec log ->
  (forall t d, t ∈ spec -> d ∈ spec -> at_OnStartup d = true -> at_Name d ∈ at_DependsOn t -> e = LStart (at_Name t) -> LOk (at_Name d) ∈ log) ->
  after_dependencies spec (log ++ [e])%list.
Proof.
  intros H He l1 l2 t d Ht Hd Hs Hin E. apply snoc_inv in E as [(-> & E & ->)|(l2' & -> & E)]; [by apply (He t d)|]. by apply (H l1 l2' t d).
Qed.

(** ** The invariant *)

Section spec.
Variable spec : list AgentTask.
Hypothesis Hspec : NoDup (map at_Name spec).

Lemma spec_inj t t' : t ∈ spec -> t' ∈ spec -> at_Name t = at_Name t' -> t = t'.
Proof.
  clear -Hspec. induction spec as [|a l IH]; intros Ht Ht' E; [by apply elem_of_nil in Ht|]. cbn in Hspec. apply NoDup_cons in Hspec as [Ha Hl].
  apply elem_of_cons in Ht as [->|Ht], Ht' as [->|Ht']; [done| | |by apply IH].
  - exfalso. apply Ha, list_elem_of_fmap. by exists t'.
  - exfalso. apply Ha, list_elem_of_fmap. by exists t.
Qed.

(** A startup task: its window has opened, its last results are those of the log. *)
Record startup_ok (B : Z) (n : string) (log : list log_entry) (es : executorStatus) : Prop := {
  su_window : 0 < es_ExecWindow es <= B;
  su_done : 0 <= es_DoneUpdated es /\ (LOk n ∈ log <-> 0 < es_DoneUpdated es);
  su_over : 0 < es_DoneUpdated es -> es_ExecWindow es <= es_DoneUpdated es /\ es_Cmd es = None /\ es_FailUpdated es = 0;
  su_fail : 0 <= es_FailUpdated es /\ (LFail n ∈ log /\ (LOk n ∉ log) <-> 0 < es_FailUpdated es) }.
Definition startup_entry (B : Z) (log : list log_entry) (st : statuses) (t : AgentTask) : Prop :=
  match st !! at_Name t with
  | None => (LOk (at_Name t) ∉ log) /\ (LFail (at_Name t) ∉ log)
  | Some es => startup_ok B (at_Name t) log es
  end.
Record tasks_inv (B : Z) (st : statuses) (log : list log_entry) : Prop := {
  ti_runs : forall n, runs n log = true <-> exists es c, st !! n = Some es /\ es_Cmd es = Some c;
  ti_one : one_at_a_time log;
  ti_again : not_again spec log;
  ti_after : after_dependencies spec log;
  ti_startup : forall t, t ∈ spec -> at_OnStartup t = true -> startup_entry B log st t }.

Definition event_ok (T : Z) (ev : task_event) : Prop := match ev with Visit t tn _ => t ∈ spec /\ 0 < tn <= T | End_of _ _ _ => True end.

Lemma startup_ok_log B B' n log log' es : B <= B' -> (LOk n ∈ log <-> LOk n ∈ log') -> (LFail n ∈ log <-> LFail n ∈ log') ->
  startup_ok B n log es -> startup_ok B' n log' es.
Proof. intros HB H1 H2 [W D O F]. split; [lia|by rewrite <- H1|done|by rewrite <- H1, <- H2]. Qed.
Lemma startup_entry_other B B' log e st st' t : B <= B' -> entry_name e <> at_Name t -> st' !! at_Name t = st !! at_Name t ->
  startup_entry B log st t -> startup_entry B' (log ++ [e])%list st' t.
Proof.
  intros HB He Hst H. unfold startup_entry in *. rewrite Hst.
  assert (H1 : LOk (at_Name t) ∈ log <-> LOk (at_Name t) ∈ (log ++ [e])%list).
  { rewrite elem_of_app, list_elem_of_singleton. split; [by left|]. intros [?|<-]; [done|]. by cbn in He. }
  assert (H2 : LFail (at_Name t) ∈ log <-> LFail (at_Name t) ∈ (log ++ [e])%list).
  { rewrite elem_of_app, list_elem_of_singleton. split; [by left|]. intros [?|<-]; [done|]. by cbn in He. }
  destruct (st !! at_Name t); [by eapply startup_ok_log|]. by rewrite <- H1, <- H2.
Qed.
Lemma startup_entry_same B B' log st st' t : B <= B' -> st' !! at_Name t = st !! at_Name t -> startup_entry B log st t -> startup_entry B' log st' t.
Proof. intros HB Hst H. unfold startup_entry in *. rewrite Hst. destruct (st !! at_Name t); [|done]. by eapply startup_ok_log. Qed.

(** What the trigger makes of the status of a startup task. *)
Lemma startup_triggered B log st t tn now : at_OnStartup t = true -> startup_entry B log st t -> 0 < tn <= B -> B + 10 < 2 ^ 63 ->
  exists es, task_trigger t (task_status t st tn now) tn now = Some es /\ startup_ok (B + 10) (at_Name t) log es /\
    es_DoneUpdated es = es_DoneUpdated (task_status t st tn now) /\ es_FailUpdated es = es_FailUpdated (task_status t st tn now) /\
    es_Cmd es = es_Cmd (task_status t st tn now).
Proof.
  intros Hs He Htn HB. assert (H0 : startup_ok B (at_Name t) log (task_status t st tn now)).
  { unfold startup_entry in He. unfold task_status. destruct (st !! at_Name t) as [es|]; [exact He|]. rewrite Hs. destruct He as [H1 H2].
    split; cbn; [lia|split; [lia|split; [done|lia]]|lia|split; [lia|split; [by intros [? _]|lia]]]. }
  set (es := task_status t st tn now) in *. unfold task_trigger. rewrite Hs. eexists. split; [done|].
  destruct ((0 <? es_ExecWindow es) && (es_DoneUpdated es =? 0) && (es_ExecWindow es <=? es_FailUpdated es)) eqn:E; cbn.
  - split; [|done]. destruct H0 as [W D O F].
    assert (Ew : es_ExecWindow es +64 minRetryIntervalSeconds = es_ExecWindow es + 10) by (apply i64_id; unfold in_i64, minRetryIntervalSeconds; lia).
    split; cbn; rewrite ?Ew; [lia|done| |done]. intros ?. lia.
  - split; [|done]. eapply startup_ok_log; [|done|done|exact H0]. lia.
Qed.

(** No visit touches the processes of other tasks, nor a process of its own that runs. *)
Lemma status_cmd task st tn now : es_Cmd (task_status task st tn now) = (st !! at_Name task) ≫= es_Cmd.
Proof. unfold task_status. destruct (st !! at_Name task); [done|]. cbn. by destruct (_ || _). Qed.
Lemma has_cmd (st : statuses) (n : string) : (exists es c, st !! n = Some es /\ es_Cmd es = Some c) <-> exists c, (st !! n) ≫= es_Cmd = Some c.
Proof. destruct (st !! n) as [es|]; cbn; split; [intros (? & c & [= <-] & ?); eauto|intros [c ?]; eauto|by intros (? & ? & ? & _)|by intros [? ?]]. Qed.
Lemma runs_cmd B st log n : tasks_inv B st log -> runs n log = true <-> exists c, (st !! n) ≫= es_Cmd = Some c.
Proof. intros [H _ _ _ _]. by rewrite H, has_cmd. Qed.

Lemma visit_idle B st log task tn now st' : tasks_inv B st log -> task ∈ spec -> 0 < tn <= B -> B + 10 < 2 ^ 63 ->
  visited task tn now st st' Idle -> tasks_inv (B + 10) st' log.
Proof.
  intros HI Ht Htn HB [Ho Hi _]. destruct (Hi eq_refl) as [(Hoff & ->)|(es & He & Hd & Hf & Hc & Hw)].
  { destruct HI as [R O A D S]. split; [done..|]. intros t Hin Hs. eapply startup_entry_same; [|done|by apply S]. lia. }
  assert (Hcmd : forall n, (st' !! n) ≫= es_Cmd = (st !! n) ≫= es_Cmd).
  { intros n. destruct (decide (n = at_Name task)) as [->|Hn]; [|by rewrite Ho]. rewrite He. cbn. by rewrite Hc, status_cmd. }
  destruct HI as [R O A D S]. split; [|done..|].
  - intros n. by rewrite R, !has_cmd, Hcmd.
  - intros t Hin Hs. destruct (decide (at_Name t = at_Name task)) as [E|Hn].
    + apply (spec_inj _ _ Hin Ht) in E as ->. destruct (startup_triggered B log st task tn now Hs (S task Ht Hs) Htn HB) as (es1 & Et & Hok & Ed & Ef & Ec).
      rewrite Et in Hw. cbn in Hw. unfold startup_entry. rewrite He. destruct Hok as [W Dn Ov Fl].
      assert (Hd' : es_DoneUpdated es = es_DoneUpdated es1) by congruence. assert (Hf' : es_FailUpdated es = es_FailUpdated es1) by congruence.
      assert (Hc' : es_Cmd es = es_Cmd es1) by congruence.
      split; rewrite ?Hd', ?Hf', ?Hc', ?Hw; done.
    + eapply startup_entry_same; [|by apply Ho|by apply S]. lia.
Qed.

Lemma startup_allowed B log st task es d : tasks_inv B st log -> d ∈ spec -> at_OnStartup d = true -> at_Name d ∈ at_DependsOn task ->
  dependAllow task (<[at_Name task := es]> st) = true -> es_DoneUpdated es < es_ExecWindow es -> LOk (at_Name d) ∈ log.
Proof.
  intros HI Hd Hs Hin Hall Hlt. unfold dependAllow in Hall. rewrite forallb_forall in Hall. apply list_elem_of_In in Hin. specialize (Hall _ Hin).
  destruct (decide (at_Name d = at_Name task)) as [E|Hn].
  - rewrite E, lookup_insert_eq in Hall. lia.
  - rewrite lookup_insert_ne in Hall by done. pose proof (ti_startup _ _ _ HI d Hd Hs) as He. unfold startup_entry in He.
    destruct (st !! at_Name d) as [ed|]; [|done]. destruct He as [W Dn _ _]. apply Dn. lia.
Qed.

(** A visit that does something: the log grows by a start or by a failed start. *)
Lemma visit_acts B st log task tn now st' r : tasks_inv B st log -> task ∈ spec -> 0 < tn <= B -> B + 10 < 2 ^ 63 -> r <> Idle ->
  visited task tn now st st' r -> tasks_inv (B + 10) st' (log ++ visit_log (at_Name task) r)%list.
Proof.
  intros HI Ht Htn HB Hr [Ho _ Ha]. destruct (Ha Hr) as (Hoff & es & es' & Et & He' & Hw & Hc & Hlt & Hall & Hact). clear Ha.
  assert (Hcmd0 : (st !! at_Name task) ≫= es_Cmd = None).
  { rewrite <- (status_cmd task st tn now). destruct (task_trigger_keeps _ _ _ _ _ Et) as (_ & _ & E & _). congruence. }
  assert (Hnr : runs (at_Name task) log = false).
  { apply not_true_is_false. rewrite (runs_cmd B st log _ HI), Hcmd0. by intros [? ?]. }
  set (e := match r with Started _ => LStart (at_Name task) | _ => LFail (at_Name task) end).
  assert (El : visit_log (at_Name task) r = [e]) by (destruct r; done). rewrite El.
  assert (Hnok : at_OnStartup task = true -> (LOk (at_Name task) ∉ log) /\ startup_ok (B + 10) (at_Name task) log es).
  { intros Hs. destruct (startup_triggered B log st task tn now Hs (ti_startup _ _ _ HI task Ht Hs) Htn HB) as (es1 & Et1 & Hok & _).
    rewrite Et in Et1. injection Et1 as <-. split; [|exact Hok]. destruct Hok as [W Dn Ov _]. intros Hin. apply Dn in Hin. apply Ov in Hin. lia. }
  pose proof HI as [R O A D S]. split.
  - intros n. rewrite runs_snoc, has_cmd. destruct (decide (n = at_Name task)) as [->|Hn].
    + rewrite He'. cbn. destruct r as [|c|]; [done| |]; subst e; cbn; rewrite bool_decide_true by done.
      * destruct Hact as (-> & _). split; [by eauto|done].
      * destruct Hact as (-> & _). split; [done|by intros [? ?]].
    + rewrite Ho, <- has_cmd, <- R by done. destruct r; [done| |]; subst e; cbn; rewrite bool_decide_false by done; done.
  - apply one_snoc; [done|]. intros n E. destruct r; [done| |]; subst e; [|done]. by injection E as <-.
  - apply not_again_snoc; [done|]. intros t Hin Hs E. destruct r; [done| |]; subst e; [|done]. injection E as E. apply (spec_inj _ _ Ht Hin) in E as <-. exact (proj1 (Hnok Hs)).
  - apply after_deps_snoc; [done|]. intros t d Hin Hd Hs Hdep E. destruct r; [done| |]; subst e; [|done]. injection E as E. apply (spec_inj _ _ Ht Hin) in E as <-.
    eapply startup_allowed; try done. lia.
  - intros t Hin Hs. destruct (decide (at_Name t = at_Name task)) as [E|Hn].
    + apply (spec_inj _ _ Hin Ht) in E as ->. destruct (Hnok Hs) as [Hno [W Dn Ov Fl]]. unfold startup_entry. rewrite He'.
      assert (Hd0 : es_DoneUpdated es = 0).
      { destruct Dn as [Hd0 Hd1]. destruct (Z.eq_dec (es_DoneUpdated es) 0) as [|Hne]; [done|]. exfalso. apply Hno, Hd1. lia. }
      destruct r as [|c|]; [done| |]; subst e.
      * destruct Hact as (Hc' & Hd' & Hf' & _). split; rewrite ?Hw, ?Hd', ?Hf', ?elem_of_app, ?list_elem_of_singleton; [lia| | |].
        -- split; [lia|]. split; [intros [?|?]; done|lia].
        -- intros ?. lia.
        -- destruct Fl as [F0 F1]. split; [done|]. rewrite <- F1. split.
           ++ intros [[?|?] H2]; [|done]. split; [done|]. intros ?. apply H2. by left.
           ++ intros [H1 H2]. split; [by left|]. intros [?|?]; done.
      * destruct Hact as (Hc' & Hd' & Hf'). split; rewrite ?Hw, ?Hd', ?Hf', ?elem_of_app, ?list_elem_of_singleton; [lia| | |].
        -- split; [done|]. split; [intros [?|?]; done|lia].
        -- intros ?. lia.
        -- split; [lia|]. split; [lia|]. intros _. split; [by right|]. intros [?|?]; done.
    + eapply startup_entry_other; [| |by apply Ho|by apply S]; [lia|]. destruct r; [done| |]; subst e; cbn; congruence.
Qed.

(** The end of a process that is recorded. *)
Lemma end_recorded B st log name es c e es' : tasks_inv B st log -> st !! name = Some es -> es_Cmd es = Some c ->
  (e = LOk name /\ (0 < es_ExecWindow es -> 0 < es_DoneUpdated es' /\ es_ExecWindow es <= es_DoneUpdated es') /\ es_FailUpdated es' = 0 \/
   e = LFail name /\ es_DoneUpdated es' = 0 /\ (0 < es_ExecWindow es -> 0 < es_FailUpdated es')) ->
  es_Cmd es' = None -> es_ExecWindow es' = es_ExecWindow es ->
  tasks_inv B (<[name := es']> st) (log ++ [e])%list.
Proof.
  intros HI He Hc Hcase Hc' Hw'. pose proof HI as [R O A D S].
  assert (Hend : is_end name e = true /\ (forall n, is_start n e = false) /\ entry_name e = name).
  { destruct Hcase as [(-> & _)|(-> & _)]; cbn; rewrite bool_decide_true by done; done. }
  destruct Hend as (Hend & Hns & Hname). split.
  - intros n. rewrite runs_snoc, Hns, has_cmd. destruct (decide (n = name)) as [->|Hn].
    + rewrite Hend, lookup_insert_eq. cbn. rewrite Hc'. split; [done|by intros [? ?]].
    + rewrite lookup_insert_ne, <- has_cmd, <- R by done. destruct e; cbn in *; subst; rewrite ?bool_decide_false by done; done.
  - apply one_snoc; [done|]. intros n ->. specialize (Hns n). cbn in Hns. by rewrite bool_decide_true in Hns.
  - apply not_again_snoc; [done|]. intros t _ _ ->. specialize (Hns (at_Name t)). cbn in Hns. by rewrite bool_decide_true in Hns.
  - apply after_deps_snoc; [done|]. intros t d _ _ _ _ ->. specialize (Hns (at_Name t)). cbn in Hns. by rewrite bool_decide_true in Hns.
  - intros t Hin Hs. destruct (decide (at_Name t = name)) as [E|Hn].
    + clear Hname; subst name. specialize (S t Hin Hs). unfold startup_entry in *. rewrite lookup_insert_eq. rewrite He in S. destruct S as [W Dn Ov Fl].
      assert (Hno : LOk (at_Name t) ∉ log) by (intros Hin'; apply Dn in Hin'; apply Ov in Hin'; destruct Hin' as (_ & ? & _); congruence).
      destruct Hcase as [(-> & Hd & Hf)|(-> & Hd & Hf)]; (split; rewrite ?elem_of_app, ?list_elem_of_singleton, ?Hw'; [lia| | |]).
      * split; [lia|]. split; [lia|]. intros _. by right.
      * intros _. split; [lia|]. done.
      * rewrite Hf. split; [done|]. split; [|lia]. intros [_ H]. exfalso. apply H. by right.
      * rewrite Hd. split; [done|]. split; [intros [?|?]; done|lia].
      * lia.
      * split; [lia|]. split; [lia|]. intros _. split; [by right|]. intros [?|?]; done.
    + eapply (startup_entry_other B B); [done|by rewrite Hname| |by apply S]. by rewrite lookup_insert_ne.
Qed.
Lemma end_step B st log name o now : tasks_inv B st log -> tasks_inv B (wait_done name o now st) (log ++ end_log name o st)%list.
Proof.
  intros HI. unfold wait_done, end_log. destruct (st !! name) as [es|] eqn:He; [|by rewrite app_nil_r].
  destruct (es_Cmd es) as [c|] eqn:Hc; [|by rewrite app_nil_r]. destruct o; [| |by rewrite app_nil_r..].
  - eapply end_recorded; [done..| |done|done]. left. cbn. split; [done|]. split; [lia|done].
  - eapply end_recorded; [done..| |done|done]. right. cbn. split; [done|]. split; [done|lia].
Qed.

Lemma tasks_inv_mono B B' st log : B <= B' -> tasks_inv B st log -> tasks_inv B' st log.
Proof. intros HB [R O A D S]. split; [done..|]. intros t Hin Hs. by eapply startup_entry_same; [| |apply S]. Qed.

Lemma event_inv T B st log ev : tasks_inv B st log -> event_ok T ev -> T <= B -> B + 10 < 2 ^ 63 ->
  tasks_inv (B + 10) (fst (event_step st ev)) (log ++ snd (event_step st ev))%list.
Proof.
  intros HI Hev HT HB. destruct ev as [task tn now|name o now]; cbn.
  - destruct Hev as [Ht Htn]. pose proof (visit_task_spec task tn now st) as Hv.
    destruct (visit_task app task tn now st) as [st' r]. cbn in *. destruct r as [|c|].
    + cbn. rewrite app_nil_r. eapply visit_idle; eauto. lia.
    + eapply (visit_acts B st log task tn now st' (Started c)); eauto. lia.
    + eapply (visit_acts B st log task tn now st' StartFailed); eauto. lia.
  - apply (tasks_inv_mono B); [lia|]. by apply end_step.
Qed.

Lemma trace_inv T evs : forall B st log, tasks_inv B st log -> Forall (event_ok T) evs -> T <= B -> B + 10 * Z.of_nat (length evs) < 2 ^ 63 ->
  tasks_inv (B + 10 * Z.of_nat (length evs)) (fst (run_trace evs st)) (log ++ snd (run_trace evs st))%list.
Proof.
  induction evs as [|ev evs IH]; intros B st log HI Hall HT HB.
  - cbn in *. rewrite app_nil_r, Z.add_0_r. exact HI.
  - apply Forall_cons in Hall as [Hev Hall]. cbn [length] in HB |- *. cbn [run_trace].
    pose proof (event_inv T B st log ev HI Hev HT ltac:(lia)) as H1. destruct (event_step st ev) as [st1 l1]. cbn [fst snd] in H1.
    specialize (IH (B + 10) st1 (log ++ l1)%list H1 Hall ltac:(lia) ltac:(lia)). destruct (run_trace evs st1) as [st2 l2]. cbn [fst snd] in IH |- *.
    rewrite <- app_assoc in IH. eapply tasks_inv_mono; [|exact IH]. lia.
Qed.
Lemma empty_inv B : tasks_inv B ∅ [].
Proof.
  split.
  - intros n. cbn. split; [done|]. intros (es & c & H & _). by rewrite lookup_empty in H.
  - intros l1 l2 l3 n E. by destruct l1.
  - intros l1 l2 t _ _ E. by destruct l1.
  - intros l1 l2 t d _ _ _ _ E. by destruct l1.
  - intros t _ _. unfold startup_entry. rewrite lookup_empty. split; apply not_elem_of_nil.
Qed.
(** The clock and the number of events leave the windows in 64 bits. *)
Definition trace_ok (T : Z) (evs : list task_event) : Prop := Forall (event_ok T) evs /\ 0 <= T /\ T + 10 * Z.of_nat (length evs) < 2 ^ 63.
Lemma reached_inv T evs : trace_ok T evs ->
  tasks_inv (T + 10 * Z.of_nat (length evs)) (fst (run_trace evs ∅)) (snd (run_trace evs ∅)).
Proof. intros (Hall & H0 & HB). apply (trace_inv T evs T ∅ [] (empty_inv T) Hall); [lia|exact HB]. Qed.
End spec.
End trace.

(** ** Properties *)

Section properties.
Context {CR : Cron} {SH : Shell}.
Variable app : AppReplicaInstance.

(** C31: In any interleaving of passes over the tasks and ends of their processes, between two starts
    of a task its process has ended; a startup task that succeeded is not started again; and a
    task is started only after every startup task it depends on has succeeded. *)
Theorem startup_tasks_ordered (spec : list AgentTask) (T : Z) (evs : list task_event) :
  NoDup (map at_Name spec) -> trace_ok spec T evs ->
  let log := snd (run_trace app evs ∅) in
  one_at_a_time log /\ not_again spec log /\ after_dependencies spec log.
Proof. intros Hn Ht. destruct (reached_inv app spec Hn T evs Ht) as [_ H1 H2 H3 _]. done. Qed.

Lemma count_class_pos c st tasks : (0 <? count_class c st tasks) = true <-> exists t, t ∈ tasks /\ is_class c (startup_class_of st t) = true.
Proof.
  unfold count_class. split.
  - intros H. destruct (List.filter _ tasks) as [|t l] eqn:E; [done|]. exists t. rewrite list_elem_of_In. apply (proj1 (filter_In (fun t => is_class c (startup_class_of st t)) t tasks)). rewrite E. by left.
  - intros (t & Ht & Hc). destruct (List.filter _ tasks) as [|t' l] eqn:E; [|done].
    assert (Hin : In t (List.filter (fun t => is_class c (startup_class_of st t)) tasks)) by (apply filter_In; split; [by apply list_elem_of_In|done]).
    by rewrite E in Hin.
Qed.
Lemma elem_of_startup t tasks : t ∈ List.filter at_OnStartup tasks <-> t ∈ tasks /\ at_OnStartup t = true.
Proof. by rewrite !list_elem_of_In, filter_In. Qed.

(** The class of a startup task, by the log. *)
Lemma class_by_log B log st t : startup_entry B log st t ->
  (is_class StFailed (startup_class_of st t) = true <-> LFail (at_Name t) ∈ log /\ (LOk (at_Name t) ∉ log)) /\
  (is_class StSucceeded (startup_class_of st t) = true <-> LOk (at_Name t) ∈ log).
Proof.
  unfold startup_entry, startup_class_of. destruct (st !! at_Name t) as [es|]; [|intros [H1 H2]; cbn; split; split; [done|by intros [? _]|done|done]].
  intros [W [D0 D1] Ov [F0 F1]]. rewrite F1, D1. destruct ((0 <? es_FailUpdated es) && (es_DoneUpdated es <? es_FailUpdated es)) eqn:E1.
  { cbn. split; split; [lia|done|done|]. intros H. apply Ov in H. lia. }
  destruct (0 <? es_DoneUpdated es) eqn:E2.
  { cbn. split; split; [done|lia|lia|done]. }
  case_bool_decide; cbn; split; split; try done; lia.
Qed.

(** The state of the startup tasks that is reported is what happened to them.  After any
    interleaving it is success exactly when each of them has succeeded, and failed exactly when one
    of them has failed and not succeeded since; it is running otherwise. *)
Theorem startup_report_exact (spec : list AgentTask) (T : Z) (evs : list task_event) :
  NoDup (map at_Name spec) -> trace_ok spec T evs ->
  let '(st, log) := run_trace app evs ∅ in
  let reported := fst (OnStartupAggregate spec st) in
  (reported = AppStageStateSuccess <-> forall t, t ∈ spec -> at_OnStartup t = true -> LOk (at_Name t) ∈ log) /\
  (reported = AppStageStateFailed <-> exists t, t ∈ spec /\ at_OnStartup t = true /\ LFail (at_Name t) ∈ log /\ (LOk (at_Name t) ∉ log)) /\
  (reported = AppStageStateSuccess \/ reported = AppStageStateFailed \/ reported = AppStageStateRunning).
Proof.
  intros Hn Ht. destruct (reached_inv app spec Hn T evs Ht) as [_ _ _ _ HS]. destruct (run_trace app evs ∅) as [st log]. cbn [fst snd] in HS.
  intros reported.
  assert (Hcl : forall t, t ∈ List.filter at_OnStartup spec ->
    (is_class StFailed (startup_class_of st t) = true <-> LFail (at_Name t) ∈ log /\ (LOk (at_Name t) ∉ log)) /\
    (is_class StSucceeded (startup_class_of st t) = true <-> LOk (at_Name t) ∈ log)).
  { intros t Hin. apply elem_of_startup in Hin as [Hin Hs]. eapply class_by_log. by apply HS. }
  subst reported. unfold OnStartupAggregate. destruct (Z.of_nat _ =? 0) eqn:E0.
  { assert (E : List.filter at_OnStartup spec = []) by (destruct (List.filter at_OnStartup spec); done). rewrite E in Hcl. cbn [fst].
    assert (Hno : forall t, t ∈ spec -> at_OnStartup t = true -> False).
    { intros t Hin Hs. assert (H : t ∈ List.filter at_OnStartup spec) by by apply elem_of_startup. rewrite E in H. by apply elem_of_nil in H. }
    split; [split; [intros _ t Hin Hs; by destruct (Hno t)|done]|]. split; [|by left]. split; [done|]. intros (t & Hin & Hs & _). by destruct (Hno t). }
  destruct (0 <? count_class StFailed st (List.filter at_OnStartup spec)) eqn:Ef; cbn [fst].
  { apply count_class_pos in Ef as (t & Hin & Hc). pose proof Hin as Hin'. apply elem_of_startup in Hin' as [Hi Hs]. apply (Hcl t Hin) in Hc.
    split; [split; [done|intros H; exfalso; destruct Hc as [_ Hc]; by apply Hc, H]|]. split; [|by right; left]. split; [|done]. intros _. by exists t. }
  assert (Hnf : ~ exists t, t ∈ spec /\ at_OnStartup t = true /\ LFail (at_Name t) ∈ log /\ (LOk (at_Name t) ∉ log)).
  { intros (t & Hin & Hs & Hc). assert (H : t ∈ List.filter at_OnStartup spec) by by apply elem_of_startup. apply (Hcl t H) in Hc.
    assert (Hp : (0 <? count_class StFailed st (List.filter at_OnStartup spec)) = true) by (apply count_class_pos; eauto). congruence. }
  destruct ((0 <? count_class StRunning st _) || _) eqn:Er; cbn [fst].
  { split; [|split; [split; [done|by intros ?%Hnf]|by right; right]]. split; [done|]. intros H. exfalso.
    apply orb_true_iff in Er as [Er|Er]; apply count_class_pos in Er as (t & Hin & Hc); pose proof Hin as Hin'; apply elem_of_startup in Hin' as [Hi Hs];
      specialize (H t Hi Hs); apply (Hcl t Hin) in H; destruct (startup_class_of st t); done. }
  split; [|split; [split; [done|by intros ?%Hnf]|by left]]. split; [|done]. intros _ t Hi Hs.
  assert (Hin : t ∈ List.filter at_OnStartup spec) by by apply elem_of_startup. apply orb_false_iff in Er as [Er Ep]. apply (Hcl t Hin).
  assert (Hc : forall c, (0 <? count_class c st (List.filter at_OnStartup spec)) = false -> is_class c (startup_class_of st t) = false).
  { intros c Hc. apply not_true_is_false. intros H. rewrite <- not_true_iff_false in Hc. apply Hc, count_class_pos. eauto. }
  pose proof (Hc _ Ef). pose proof (Hc _ Er). pose proof (Hc _ Ep). by destruct (startup_class_of st t).
Qed.

Lemma dependAllow_insert task st n es : n ∉ at_DependsOn task -> dependAllow task (<[n := es]> st) = dependAllow task st.
Proof.
  intros Hn. unfold dependAllow. revert Hn. induction (at_DependsOn task) as [|d deps IH]; intros Hn; [done|]. cbn [forallb].
  apply not_elem_of_cons in Hn as [Hd Hn]. rewrite (IH Hn). by rewrite lookup_insert_ne.
Qed.
Lemma dependAllow_no_self task st es : st !! at_Name task = Some es -> es_DoneUpdated es < es_ExecWindow es -> dependAllow task st = true ->
  at_Name task ∉ at_DependsOn task.
Proof.
  intros He Hlt Hall Hin. unfold dependAllow in Hall. rewrite forallb_forall in Hall. apply list_elem_of_In in Hin. specialize (Hall _ Hin).
  rewrite He in Hall. lia.
Qed.

(** The command a task is started with. *)
Definition task_command (task : AgentTask) : shell_command := async_command task (RenderWithExpand (trim_space (at_Script task)) (VarParams app)).
(** A startup task that is to run: not done, without a process, with a script that can be started. *)
Record startable (task : AgentTask) : Prop := {
  sb_startup : at_OnStartup task = true; sb_on : at_OnShutdown task = false;
  sb_script : trim_space (at_Script task) <> ""; sb_shell : sh_Start (task_command task) = true }.

Lemma startup_window_open task es tn now st : startable task -> st !! at_Name task = Some es -> es_Cmd es = None -> es_DoneUpdated es = 0 ->
  dependAllow task st = true -> 0 < es_ExecWindow es <= tn -> es_FailUpdated es < es_ExecWindow es ->
  snd (visit_task app task tn now st) = Started (task_command task).
Proof.
  intros [Hs Hoff Hsc Hsh] He Hc Hd Hall Hw Hf. assert (Hself := dependAllow_no_self task st es He ltac:(lia) Hall).
  unfold visit_task. rewrite Hoff. unfold task_status. rewrite He. unfold task_trigger. rewrite Hs.
  replace ((0 <? es_ExecWindow es) && (es_DoneUpdated es =? 0) && (es_ExecWindow es <=? es_FailUpdated es)) with false by lia.
  rewrite insert_insert_eq, (dependAllow_insert task st (at_Name task) es Hself), Hall.
  replace ((es_ExecWindow es =? 0) || (tn <? es_ExecWindow es)) with false by lia. replace (es_ExecWindow es <=? es_DoneUpdated es) with false by lia.
  cbn [negb]. unfold taskAsyncAction. replace (es_ExecWindow es <=? es_DoneUpdated es) with false by lia. rewrite Hc, bool_decide_false by done.
  unfold taskCmd. fold (task_command task). by rewrite Hsh.
Qed.

(** A startup task is started again soon after it failed.  If it has no process and has not
    succeeded, its dependencies have, and its window opened and its last failure happened before a
    visit, then that visit starts it, or any visit from ten seconds later on that finds its status
    unchanged and its dependencies still done. *)
Theorem startup_task_retried (task : AgentTask) (es : executorStatus) (st : statuses) (tn now : Z) :
  startable task -> st !! at_Name task = Some es -> es_Cmd es = None -> es_DoneUpdated es = 0 -> dependAllow task st = true ->
  0 < es_ExecWindow es <= tn -> es_FailUpdated es <= tn -> tn + 10 < 2 ^ 63 ->
  let '(st', r) := visit_task app task tn now st in
  r = Started (task_command task) \/
  r = Idle /\ forall st2 tn2 now2, tn + 10 <= tn2 -> st2 !! at_Name task = st' !! at_Name task -> dependAllow task st2 = true ->
    snd (visit_task app task tn2 now2 st2) = Started (task_command task).
Proof.
  intros Hst He Hc Hd Hall Hw Hf Htn. pose proof (startup_window_open task es tn now st Hst He Hc Hd Hall Hw) as Hopen.
  destruct (Z.lt_ge_cases (es_FailUpdated es) (es_ExecWindow es)) as [Hlt|Hge].
  { specialize (Hopen Hlt). destruct (visit_task app task tn now st) as [st' r]. left. exact Hopen. }
  clear Hopen. pose proof Hst as [Hs Hoff Hsc Hsh]. assert (Hself := dependAllow_no_self task st es He ltac:(lia) Hall).
  destruct (visit_task app task tn now st) as [st' r] eqn:E.
  unfold visit_task in E. rewrite Hoff in E. unfold task_status in E. rewrite He in E. unfold task_trigger in E. rewrite Hs in E.
  replace ((0 <? es_ExecWindow es) && (es_DoneUpdated es =? 0) && (es_ExecWindow es <=? es_FailUpdated es)) with true in E by lia.
  assert (Ew : es_ExecWindow es +64 minRetryIntervalSeconds = es_ExecWindow es + 10) by (apply i64_id; unfold in_i64, minRetryIntervalSeconds; lia).
  rewrite Ew in E. set (es1 := with_window (Z.max (es_ExecWindow es + 10) tn) es) in E.
  assert (E1 : es_ExecWindow es1 = Z.max (es_ExecWindow es + 10) tn) by done. rewrite insert_insert_eq in E.
  destruct ((es_ExecWindow es1 =? 0) || (tn <? es_ExecWindow es1)) eqn:Eopen.
  - injection E as <- <-. right. split; [done|]. intros st2 tn2 now2 Htn2 He2 Hall2. rewrite lookup_insert_eq in He2.
    apply (startup_window_open task es1); [done|done|done|done|done|lia|]. change (es_FailUpdated es < es_ExecWindow es1). lia.
  - left. rewrite (dependAllow_insert task st (at_Name task) es1 Hself), Hall in E. cbn [negb] in E. unfold taskAsyncAction in E.
    replace (es_ExecWindow es1 <=? es_DoneUpdated es1) with false in E by (change (es_DoneUpdated es1) with (es_DoneUpdated es); lia).
    change (es_Cmd es1) with (es_Cmd es) in E. rewrite Hc, bool_decide_false in E by done. unfold taskCmd in E. fold (task_command task) in E.
    rewrite Hsh in E. by injection E as _ <-.
Qed.

(** ** Where tasks do not run *)

(** A task whose process was killed, or reaped before [Wait] saw it, keeps its command, and is never
    started again. *)
Lemma lost_process_blocks task st es c tn now name o t : st !! at_Name task = Some es -> es_Cmd es = Some c -> o = Killed \/ o = Reaped ->
  snd (visit_task app task tn now (wait_done name o t st)) = Idle.
Proof.
  intros He Hc Ho. assert (Hw : wait_done name o t st = st) by (unfold wait_done; destruct Ho as [-> | ->]; by repeat case_match). rewrite Hw.
  pose proof (visit_task_spec app task tn now st) as [_ _ Ha]. destruct (snd (visit_task app task tn now st)) as [|c'|] eqn:E; [done| |].
  all: exfalso; destruct (Ha ltac:(done)) as (_ & es1 & es2 & Et & _ & _ & Hc1 & _);
    destruct (task_trigger_keeps _ _ _ _ _ Et) as (_ & _ & E1 & _); rewrite status_cmd, He in E1; cbn in E1; congruence.
Qed.

(** A task with an interval that is visited every ten seconds, or more often, is never started: each
    visit puts its window ten seconds further. *)
Lemma interval_visit task es st tn now : at_OnStartup task = false -> at_OnShutdown task = false -> 0 < at_IntervalSeconds task <= tn ->
  task_status task st tn now = es -> es_DoneUpdated es = 0 -> es_FailUpdated es = 0 -> 0 < tn <= es_ExecWindow es -> es_ExecWindow es + 10 < 2 ^ 63 ->
  visit_task app task tn now st = (<[at_Name task := with_window (es_ExecWindow es + 10) es]> st, Idle).
Proof.
  intros Hs Hoff Hi He Hd Hf Hw HB. unfold visit_task. rewrite Hoff, He. unfold task_trigger. rewrite Hs, Hd, Hf.
  replace (0 <? at_IntervalSeconds task) with true by lia.
  assert (E0 : Z.max 0 0 +64 at_IntervalSeconds task = at_IntervalSeconds task) by (apply i64_id; unfold in_i64; lia). rewrite E0.
  replace (at_IntervalSeconds task <=? tn) with true by lia.
  assert (Ew : es_ExecWindow es +64 minRetryIntervalSeconds = es_ExecWindow es + 10) by (apply i64_id; unfold in_i64, minRetryIntervalSeconds; lia).
  rewrite Ew, Z.max_l by lia. rewrite insert_insert_eq. cbn [es_ExecWindow with_window].
  by replace ((es_ExecWindow es + 10 =? 0) || (tn <? es_ExecWindow es + 10)) with true by lia.
Qed.
Fixpoint close_visits (prev : Z) (times : list (Z * Z)) : Prop :=
  match times with [] => True | (tn, _) :: rest => 0 < tn <= prev + 10 /\ close_visits tn rest end.
Lemma interval_task_starves task times st tn0 now0 : at_OnStartup task = false -> at_OnShutdown task = false -> 0 < at_IntervalSeconds task ->
  st !! at_Name task = None -> at_IntervalSeconds task <= tn0 -> Forall (fun t => at_IntervalSeconds task <= t.1) times -> close_visits tn0 times ->
  tn0 + 10 * (Z.of_nat (length times) + 1) < 2 ^ 63 ->
  snd (run_trace app (Visit task tn0 now0 :: map (fun t => Visit task t.1 t.2) times) st) = [].
Proof.
  intros Hs Hoff Hi Hnone H0 Hall Hclose HB. cbn [run_trace event_step].
  rewrite (interval_visit task (with_window tn0 (new_status now0)) st tn0 now0); [|done|done|lia| |done|done|cbn; lia|cbn; lia].
  2:{ unfold task_status. rewrite Hnone. replace (0 <? at_IntervalSeconds task) with true by lia. by rewrite orb_true_r. }
  cbn [visit_log es_ExecWindow with_window].
  assert (Hrun : forall times prev st es, Forall (fun t => at_IntervalSeconds task <= t.1) times -> close_visits prev times ->
    st !! at_Name task = Some es -> es_DoneUpdated es = 0 -> es_FailUpdated es = 0 -> prev + 10 <= es_ExecWindow es ->
    es_ExecWindow es + 10 * Z.of_nat (length times) < 2 ^ 63 ->
    snd (run_trace app (map (fun t => Visit task t.1 t.2) times) st) = []).
  { clear - Hs Hoff Hi. intros times. induction times as [|[tn now] times IH]; intros prev st es Hall Hclose He Hd Hf Hw HB; [done|].
    apply Forall_cons in Hall as [Ht Hall]. destruct Hclose as [Hp Hclose]. cbn [length] in HB. cbn [map run_trace event_step fst snd] in *.
    rewrite (interval_visit task es st tn now); [|done|done|lia|unfold task_status; by rewrite He|done|done|lia|lia]. cbn [visit_log].
    specialize (IH tn (<[at_Name task := with_window (es_ExecWindow es + 10) es]> st) _ Hall Hclose (lookup_insert_eq _ _ _) Hd Hf). cbn in IH.
    destruct (run_trace app (map _ times) _) as [st' l']. cbn in IH |- *. apply IH; lia. }
  specialize (Hrun times tn0 _ _ Hall Hclose (lookup_insert_eq st (at_Name task) (with_window (tn0 + 10) (with_window tn0 (new_status now0)))) eq_refl eq_refl).
  cbn in Hrun. destruct (run_trace app (map _ times) _) as [st' l']. cbn in Hrun |- *. apply Hrun; lia.
Qed.
End properties.

(** ** A concrete replica *)

Module Boot.
#[local] Instance no_cron : Cron := fun _ => None.
#[local] Instance any_shell : Shell := fun _ => true.
Definition task (name script : string) (startup : bool) (deps : list string) : AgentTask :=
  {| at_Name := name; at_WorkingDir := ""; at_RunUser := ""; at_DependsOn := deps; at_OnStartup := startup; at_OnShutdown := false;
     at_IntervalSeconds := if startup then 0 else 60; at_Cron := ""; at_Script := script |}.
Definition initdb := task "initdb" "initdb ${self.cfg.dir}" true [].
Definition serve := task "serve" "serve" true ["initdb"].
Definition spec := [serve; initdb].
Definition app : AppReplicaInstance :=
  {| ap_Name := "pg"; ap_Tasks := spec; ap_Packages := []; ap_Revision := 1; ap_ReplicaCap := 1; ap_Configs := [Conf "dir" "/data" "" []];
     ap_Depends := []; ap_Replicas := [];
     ap_Replica := {| cr_Id := 0; cr_HostId := "h"; cr_HostIpv4 := ""; cr_VpcIpv4 := ""; cr_ServicePorts := [] |}; ap_ZoneBaseDomain := "";
     ap_HostletEndpoint := None |}.
(** The first try of [initdb] fails, the second succeeds, then [serve] runs. *)
Definition events : list task_event :=
  [Visit serve 100 100; Visit initdb 100 100; End_of "initdb" (ExitError "exit status 1" "no space") 103;
   Visit serve 110 110; Visit initdb 110 110; End_of "initdb" ExitOk 112; Visit serve 120 120; Visit initdb 120 120; End_of "serve" ExitOk 121;
   Visit serve 130 130; Visit initdb 130 130].

Example boot_log : snd (run_trace app events ∅) = [LStart "initdb"; LFail "initdb"; LStart "initdb"; LOk "initdb"; LStart "serve"; LOk "serve"].
Proof. vm_compute. reflexivity. Qed.
Lemma spec_names : NoDup (map at_Name spec).
Proof. repeat constructor; rewrite ?list_elem_of_singleton; [done|apply not_elem_of_nil]. Qed.
Lemma events_ok : trace_ok spec 200 events.
Proof.
  split; [|split; [lia|cbn; lia]]. unfold events. repeat constructor; try done; cbn; split; try lia; unfold spec; rewrite !elem_of_cons; auto.
Qed.

Lemma startup_tasks_ordered_witness :
  trace_ok spec 200 events /\ after_dependencies spec (snd (run_trace app events ∅)) /\ LStart "serve" ∈ snd (run_trace app events ∅).
Proof.
  split; [exact events_ok|]. split; [apply (startup_tasks_ordered app spec 200 events spec_names events_ok)|].
  rewrite boot_log, !elem_of_cons. tauto.
Defined.
Lemma startup_report_exact_witness :
  fst (OnStartupAggregate spec (fst (run_trace app events ∅))) = AppStageStateSuccess /\
  forall t, t ∈ spec -> at_OnStartup t = true -> LOk (at_Name t) ∈ snd (run_trace app events ∅).
Proof.
  assert (E : fst (OnStartupAggregate spec (fst (run_trace app events ∅))) = AppStageStateSuccess) by (vm_compute; reflexivity).
  split; [exact E|]. pose proof (startup_report_exact app spec 200 events spec_names events_ok) as H.
  destruct (run_trace app events ∅) as [st log]. destruct H as (H & _ & _). exact (proj1 H E).
Defined.

Definition failed_status : executorStatus :=
  {| es_Updated := 103; es_State := execExited; es_ExecWindow := 100; es_DoneUpdated := 0; es_FailUpdated := 103;
     es_FailMessage := "process error exit status 1, output: no space"; es_Cmd := None; es_Output := "no space" |}.
Lemma startup_task_retried_witness :
  let st := {[ "initdb" := failed_status ]} in
  snd (visit_task app initdb 105 105 st) = Idle /\
  snd (visit_task app initdb 115 115 (fst (visit_task app initdb 105 105 st))) = Started (task_command app initdb) /\
  cm_Stdin (task_command app initdb) = "set -e" +:+ nl +:+ "set -o pipefail" +:+ nl +:+ "initdb /data" +:+ nl +:+ "exit" +:+ nl.
Proof.
  intros st. assert (E : snd (visit_task app initdb 105 105 st) = Idle) by (vm_compute; reflexivity). split; [exact E|].
  split; [|vm_compute; reflexivity].
  pose proof (startup_task_retried app initdb failed_status st 105 105) as H. destruct (visit_task app initdb 105 105 st) as [st' r] eqn:Ev.
  cbn [fst snd] in *. subst r. destruct H as [H|[_ H]].
  - split; [reflexivity|reflexivity|vm_compute; discriminate|reflexivity].
  - reflexivity.
  - reflexivity.
  - reflexivity.
  - reflexivity.
  - cbn. lia.
  - cbn. lia.
  - lia.
  - discriminate H.
  - apply (H st' 115 115); [lia|reflexivity|]. reflexivity.
Defined.

(** A startup task without a script never succeeds, and keeps the report at running and the tasks
    that depend on it waiting. *)
Example empty_script_waits :
  let spec := [task "prepare" "" true []; task "serve" "serve" true ["prepare"]] in
  let evs := concat (map (fun t => map (fun task => Visit task t t) spec) [100; 110; 120; 130]) in
  let '(st, log) := run_trace app evs ∅ in
  log = [] /\ OnStartupAggregate spec st = (AppStageStateRunning, "0/2 tasks running").
Proof. vm_compute. split; reflexivity. Qed.
(** A task that is killed once is never started again. *)
Example killed_task_stays :
  snd (run_trace app [Visit initdb 100 100; End_of "initdb" Killed 101; Visit initdb 200 200; Visit initdb 90000 90000] ∅) = [LStart "initdb"].
Proof. vm_compute. reflexivity. Qed.
(** Visited every ten seconds for an hour, a task of every minute is not run. *)
Example interval_task_waits :
  snd (run_trace app (map (fun k => Visit (task "rotate" "rotate" false []) (1000 + 10 * Z.of_nat k) 0) (seq 0 360)) ∅) = [].
Proof. vm_compute. reflexivity. Qed.
(** The last task with a schedule decides how long the loop waits: with a daily task the agent looks
    at its tasks again after half a day. *)
Example daily_task_slows_the_loop :
  let every (p : Z) : Z -> Z := fun t => (t / p + 1) * p in
  let cron : Cron := fun s => if bool_decide (s = "* * * * *") then Some (every 60) else if bool_decide (s = "@daily") then Some (every 86400) else None in
  let with_cron (s : string) := {| at_Name := s; at_WorkingDir := ""; at_RunUser := ""; at_DependsOn := []; at_OnStartup := false; at_OnShutdown := false;
    at_IntervalSeconds := 0; at_Cron := s; at_Script := "x" |} in
  @tick_duration cron [with_cron "* * * * *"; with_cron "@daily"] (60 * 1000000000) = (86340 * 1000000000) / 2.
Proof. vm_compute. reflexivity. Qed.
End Boot.
