(* ===== verification/AgentStatus.v ===== *)
(** The progress the agent of a replica reports to its host: the reporter
    ([src/internal/inagent/status/reporter.go]), one turn of the agent's loop
    ([src/internal/inagent/daemon/daemon.go]), and the end of it on the host with the
    secrets of the replicas ([src/internal/hostlet/inagent_api.go], [EnsureSecretKey] of
    [src/internal/hostlet/hoststatus/hoststatus.go]).

    Times are nanoseconds, those of a stage milliseconds; a turn reads the clock once for
    the reporter.  A report arrives as it was sent, or not at all. *)
From Stdlib Require Import ZArith Lia Ascii.
From S2P Require Import Prelude GoStrings AppNames Stage InConf AgentTask.
Local Open Scope string_scope.
Local Open Scope Z_scope.
Local Open Scope go_scope.

(** ** The reporter *)

Definition second : Z := 1000000000.
Definition heartbeatInterval : Z := 30 * second.
Definition retryBackoffBase : Z := 1 * second.
Definition retryBackoffMax : Z := 60 * second.
(** The zero [time.Time]. *)
Definition zero_time : Z := - 62135596800 * second.

Record reporter := {
  rp_stages : list AppDeployStage; rp_dirty : bool; rp_lastFlush : Z; rp_fails : Z; rp_retryAt : Z; rp_revision : Z }.
Definition new_reporter : reporter :=
  {| rp_stages := []; rp_dirty := false; rp_lastFlush := zero_time; rp_fails := 0; rp_retryAt := zero_time; rp_revision := 0 |}.
Definition with_stages (stages : list AppDeployStage) (dirty : bool) (r : reporter) : reporter :=
  {| rp_stages := stages; rp_dirty := dirty; rp_lastFlush := rp_lastFlush r; rp_fails := rp_fails r; rp_retryAt := rp_retryAt r; rp_revision := rp_revision r |}.

Definition retryBackoff (n : Z) : Z :=
  if n <=? 0 then 0 else Z.min (i64 (Z.shiftl retryBackoffBase (Z.min (n - 1) 6))) retryBackoffMax.

Definition SetRevision (rev : Z) (r : reporter) : reporter :=
  if rp_revision r =? rev then r
  else {| rp_stages := []; rp_dirty := true; rp_lastFlush := rp_lastFlush r; rp_fails := rp_fails r; rp_retryAt := rp_retryAt r; rp_revision := rev |}.

(** [child], and an update through the pointer it returns. *)
Definition on_child (name : string) (f : AppDeployStage -> AppDeployStage) (stages : list AppDeployStage) : list AppDeployStage :=
  upd_first (fun c => bool_decide (sname c = name)) (new_child name AppStageOwnerInagent) f stages.
Definition child_of (name : string) (stages : list AppDeployStage) : AppDeployStage :=
  default (new_child name AppStageOwnerInagent) (List.find (fun c => bool_decide (sname c = name)) stages).
Definition set_owner (owner : string) (d : stage_data) : stage_data :=
  {| st_Name := st_Name d; st_Owner := owner; st_Revision := st_Revision d; st_State := st_State d; st_Attempt := st_Attempt d;
     st_Attrs := st_Attrs d; st_Message := st_Message d; st_Created := st_Created d; st_Finished := st_Finished d |}.
Definition stage_transition (state msg : string) (now : Z) (d : stage_data) : stage_data :=
  if bool_decide (state = AppStageStateRunning) then SetRunning now msg d
  else if bool_decide (state = AppStageStateSuccess) then SetSuccess now msg d
  else if bool_decide (state = AppStageStateFailed) then SetFailed now msg d else d.

(** [apply] at a time in milliseconds. *)
Definition apply_stage (name state msg : string) (now : Z) (r : reporter) : reporter :=
  let d := sdata (child_of name (rp_stages r)) in
  if bool_decide (st_State d = state) && bool_decide (st_Message d = msg) && (st_Revision d =? rp_revision r)
  then with_stages (on_child name id (rp_stages r)) (rp_dirty r) r
  else with_stages (on_child name (on_data (fun d => set_revision (rp_revision r) (stage_transition state msg now (set_owner AppStageOwnerInagent d)))) (rp_stages r)) true r.

Definition AppDeployStageNameInagentBoot : string := "inagent_boot".
Definition AppDeployStageNameSpecLoad : string := "spec_load".
Definition AppDeployStageNameTaskRun : string := "task_run".
Definition SetBoot (now : Z) (r : reporter) : reporter :=
  let d := sdata (child_of AppDeployStageNameInagentBoot (rp_stages r)) in
  if bool_decide (st_State d = AppStageStateSuccess) && (st_Revision d =? rp_revision r)
  then with_stages (on_child AppDeployStageNameInagentBoot id (rp_stages r)) (rp_dirty r) r
  else with_stages (on_child AppDeployStageNameInagentBoot
                      (on_data (fun d => set_revision (rp_revision r) (SetInstant now "" (set_owner AppStageOwnerInagent d)))) (rp_stages r)) true r.
Definition SetSpecLoad (state msg : string) (now : Z) (r : reporter) : reporter := apply_stage AppDeployStageNameSpecLoad state msg now r.
Definition SetTaskRun (state msg : string) (now : Z) (r : reporter) : reporter := apply_stage AppDeployStageNameTaskRun state msg now r.

(** ** Sending *)

Record InagentStatusReport := { ir_InstanceName : string; ir_ReplicaId : Z; ir_Updated : Z; ir_Stages : list AppDeployStage }.
Definition StatusOK : Z := 200.

Definition postFailed (now : Z) (r : reporter) : reporter :=
  let fails := rp_fails r +64 1 in
  {| rp_stages := rp_stages r; rp_dirty := rp_dirty r; rp_lastFlush := rp_lastFlush r; rp_fails := fails; rp_retryAt := now + retryBackoff fails;
     rp_revision := rp_revision r |}.
Definition posted (now : Z) (r : reporter) : reporter :=
  {| rp_stages := rp_stages r; rp_dirty := false; rp_lastFlush := now; rp_fails := 0; rp_retryAt := zero_time; rp_revision := rp_revision r |}.
Definition flush_due (now : Z) (r : reporter) : bool :=
  negb (negb (rp_dirty r) && (now - rp_lastFlush r <? heartbeatInterval)) && negb (now <? rp_retryAt r).

(** What a host answers to a report that comes with a secret: a status, or nothing at all. *)
Definition post_fn := InagentStatusReport -> string -> option Z.
(** [Flush]; [url_ok] tells the addresses [http.NewRequest] takes. *)
Definition reporter_Flush (url_ok : string -> bool) (post : post_fn) (endpoint : option HostletStatusEndpoint) (instanceName : string) (repId now : Z) (r : reporter)
  : reporter * option InagentStatusReport :=
  match endpoint with
  | None => (r, None)
  | Some e =>
    if bool_decide (he_Url e = "") then (r, None)
    else if negb (flush_due now r) then (r, None)
    else
      let report := {| ir_InstanceName := instanceName; ir_ReplicaId := repId; ir_Updated := now `div` 1000000; ir_Stages := rp_stages r |} in
      if negb (url_ok (he_Url e)) then (r, None)
      else match post report (he_SecretKey e) with
           | Some status => if status =? StatusOK then (posted now r, Some report) else (postFailed now r, Some report)
           | None => (postFailed now r, Some report)
           end
  end.

(** ** The loop of the agent *)

(** [specRefresh]: the file as it decodes over what was read before, whether it has an
    instance, a spec, resources and a deploy, and the replica it is for; the last is the first
    one of this host and number, or else the one that was there. *)
Record spec_file := { sf_app : AppReplicaInstance; sf_complete : bool; sf_Replica : option ConfReplica }.
Definition with_replica (rep : ConfReplica) (a : AppReplicaInstance) : AppReplicaInstance :=
  {| ap_Name := ap_Name a; ap_Tasks := ap_Tasks a; ap_Packages := ap_Packages a; ap_Revision := ap_Revision a; ap_ReplicaCap := ap_ReplicaCap a;
     ap_Configs := ap_Configs a; ap_Depends := ap_Depends a; ap_Replicas := ap_Replicas a; ap_Replica := rep;
     ap_ZoneBaseDomain := ap_ZoneBaseDomain a; ap_HostletEndpoint := ap_HostletEndpoint a |}.
Definition specRefresh `{Cron} (hostId : string) (repId : Z) (file : option spec_file) (now : Z) : option (AppReplicaInstance * Z) :=
  match file with
  | None => None
  | Some f =>
    if negb (sf_complete f) then None
    else
      let found := List.find (fun v => bool_decide (cr_HostId v = hostId) && (cr_Id v =? repId)) (ap_Replicas (sf_app f)) in
      match (match found with Some v => Some v | None => sf_Replica f end) with
      | None => None
      | Some rep => Some (with_replica rep (sf_app f), tick_duration (ap_Tasks (sf_app f)) now)
      end
  end.

(** What [run] requires of its environment: the host, the instance, and the number of the replica. *)
Definition ObjectIdValid (s : string) : bool := (12 <=? slen s) && (slen s <=? 16) && s_all (fun c => is_digit c || ((97 <=? byte_of c) && (byte_of c <=? 102))) s.
Definition agent_env (APP_HOST_ID APP_NAME APP_REP_ID : string) : result (string * string * Z) :=
  let hostId := trim_space APP_HOST_ID in
  let appName := trim_space APP_NAME in
  if negb (ObjectIdValid hostId) then Err "ENV APP_HOST_ID Not Match"
  else match DNSLabelValid appName with
  | Err e => Err ("ENV APP_NAME Not Match : " +:+ e)
  | Ok _ =>
    if bool_decide (APP_REP_ID = "") then Err "ENV APP_REP_ID Not Set"
    else match parse_int APP_REP_ID with
    | Some v => if (v <? 0) || (256 <=? v) then Err "ENV APP_REP_ID Not Valid" else Ok (hostId, appName, v)
    | None => Err "ENV APP_REP_ID Not Valid"
    end
  end.

Record agent := { ag_runner : task_runner; ag_reporter : reporter }.
Definition new_agent : agent := {| ag_runner := {| tr_app := None; tr_statuses := ∅ |}; ag_reporter := new_reporter |}.

Section loop.
Context {CR : Cron} {SH : Shell}.
Variables (url_ok : string -> bool) (hostId appName : string) (repId : Z).

(** A turn at a time [now]: the agent, how long it waits, and what it sent; [None] is a panic,
    the endpoint of the instance being read when there is none. *)
Definition agent_tick (post : post_fn) (file : option spec_file) (now : Z) (pauses : list pause) (a : agent) : option (agent * Z * option InagentStatusReport) :=
  let ms := now `div` 1000000 in
  match specRefresh hostId repId file now with
  | None => None
  | Some (app, dur) =>
    let r := SetSpecLoad AppStageStateSuccess "" ms (SetBoot ms (SetRevision (ap_Revision app) (ag_reporter a))) in
    let runner := fst (Run app (now `div` second) pauses (ag_runner a)) in
    let '(st, msg) := OnStartupAggregate (ap_Tasks app) (tr_statuses runner) in
    let r := SetTaskRun st msg ms r in
    let '(r, report) := reporter_Flush url_ok post (ap_HostletEndpoint app) appName repId now r in
    Some ({| ag_runner := runner; ag_reporter := r |}, dur, report)
  end.
End loop.

(** ** The host *)

Record host_api := { ha_secrets : gmap string string; ha_entries : gmap string ReplicaStageEntry }.

Definition SecretKey (containerName : string) (h : host_api) : string := default "" (ha_secrets h !! containerName).
Definition SetSecretKey (containerName secret : string) (h : host_api) : host_api :=
  {| ha_secrets := <[containerName := secret]> (ha_secrets h); ha_entries := ha_entries h |}.
Definition DeleteSecretKey (containerName : string) (h : host_api) : host_api :=
  {| ha_secrets := delete containerName (ha_secrets h); ha_entries := ha_entries h |}.
(** [EnsureSecretKey]: [draw] is the random secret that is drawn if there is none. *)
Definition EnsureSecretKey (containerName draw : string) (h : host_api) : host_api * string * bool :=
  let s := SecretKey containerName h in
  if bool_decide (s <> "") then (h, s, false) else (SetSecretKey containerName draw h, draw, true).

Definition InagentStatusPath : string := "/in/api/v2/hostlet/inagent/status".
Definition inagentEndpointURL (addr : string) (port : Z) : string :=
  if bool_decide (addr = "") || (port =? 0) then "" else "http://" +:+ addr +:+ ":" +:+ itoa port +:+ InagentStatusPath.
(** [ensureHostletEndpoint]: the endpoint written into the file of the replica, if there is an
    address; the flag says that the secrets are saved. *)
Definition ensureHostletEndpoint (addr : string) (port : Z) (name : string) (repId : Z) (draw : string) (h : host_api)
  : host_api * option HostletStatusEndpoint * bool :=
  let url := inagentEndpointURL addr port in
  if bool_decide (url = "") then (h, None, false)
  else let '(h, secret, changed) := EnsureSecretKey (ContainerName name repId) draw h in
       (h, Some {| he_Url := url; he_SecretKey := secret |}, changed).

(** An update through the entry of a replica, which is made if it is not there. *)
Definition replica_entry (name : string) (repId : Z) (h : host_api) : ReplicaStageEntry :=
  default (new_entry repId) (ha_entries h !! ReplicaStageKey name repId).
Definition put_entry_of (name : string) (repId : Z) (e : ReplicaStageEntry) (h : host_api) : host_api :=
  {| ha_secrets := ha_secrets h; ha_entries := <[ReplicaStageKey name repId := e]> (ha_entries h) |}.

Definition StatusBadRequest : Z := 400.
Definition StatusUnauthorized : Z := 401.
Definition StatusMethodNotAllowed : Z := 405.
Definition mergeInagentStatus (report : InagentStatusReport) (secret : string) (h : host_api) : host_api * Z :=
  if bool_decide (ir_InstanceName report = "") then (h, StatusBadRequest)
  else
    let want := SecretKey (ContainerName (ir_InstanceName report) (ir_ReplicaId report)) h in
    if bool_decide (want = "") || bool_decide (secret = "") || negb (bool_decide (secret = want)) then (h, StatusUnauthorized)
    else
      let e := MergeInagent (ir_Stages report) (replica_entry (ir_InstanceName report) (ir_ReplicaId report) h) in
      (put_entry_of (ir_InstanceName report) (ir_ReplicaId report) e h, StatusOK).
(** [httpsrvInagentStatus]: a request by its method and the report it decodes to. *)
Definition httpsrvInagentStatus (is_post : bool) (report : option InagentStatusReport) (secret : string) (h : host_api) : host_api * Z :=
  if negb is_post then (h, StatusMethodNotAllowed)
  else match report with
       | None => (h, StatusBadRequest)
       | Some report => mergeInagentStatus report secret h
       end.
