(* ===== verification/AgentStatusLogic.v ===== *)
(** What the agent reports arrives: a turn of its loop whose report the host accepts leaves
    the host with the agent's stages, and the host accepts a report for a replica only
    with the secret of that replica.  The waits between failed posts are bounded. *)
From Stdlib Require Import ZArith Lia Ascii.
From S2P Require Import Prelude GoStrings AppNames Stage InConf AgentTask AgentStatus.
Local Open Scope string_scope.
Local Open Scope Z_scope.
Local Open Scope go_scope.

(** ** Waits *)

Lemma backoff_bounds n : 1 <= n -> second <= retryBackoff n <= retryBackoffMax.
Proof.
  intros Hn. unfold retryBackoff. replace (n <=? 0) with false by lia.
  assert (H : 0 <= Z.min (n - 1) 6 <= 6) by lia. generalize dependent (Z.min (n - 1) 6). intros k Hk.
  assert (Hc : k = 0 \/ k = 1 \/ k = 2 \/ k = 3 \/ k = 4 \/ k = 5 \/ k = 6) by lia.
  decompose [or] Hc; subst; vm_compute; split; discriminate.
Qed.
Example backoff_runs : map (fun n => retryBackoff n / second) [0; 1; 2; 3; 4; 5; 6; 7; 8; 1000] = [0; 1; 2; 4; 8; 16; 32; 60; 60; 60].
Proof. vm_compute. reflexivity. Qed.

(** ** Names of replicas *)

Lemma numbered_inj c n r n' r' : is_digit c = false -> 0 <= r -> 0 <= r' ->
  n +:+ String c (itoa r) = n' +:+ String c (itoa r') -> n = n' /\ r = r'.
Proof.
  intros Hc Hr Hr' E. apply (f_equal (cut_last c)) in E. rewrite !cut_last_app in E by (by apply itoa_no).
  injection E as -> E. split; [done|]. by apply itoa_inj.
Qed.
Lemma container_name_inj n r n' r' : 0 <= r -> 0 <= r' -> ContainerName n r = ContainerName n' r' -> n = n' /\ r = r'.
Proof.
  intros Hr Hr' E. unfold ContainerName in E. apply (numbered_inj "_" n r n' r'); [done..|].
  change (String "i" (String "8" (String "k" (String "_" (n +:+ String "_" (itoa r))))) =
          String "i" (String "8" (String "k" (String "_" (n' +:+ String "_" (itoa r')))))) in E. by injection E.
Qed.
Lemma stage_key_inj n r n' r' : 0 <= r -> 0 <= r' -> ReplicaStageKey n r = ReplicaStageKey n' r' -> n = n' /\ r = r'.
Proof. intros Hr Hr' E. by apply (numbered_inj "/" n r n' r'). Qed.

(** ** Secrets *)

(** What happens on the host: the endpoint of a replica is written, a report comes in. *)
Inductive host_event :=
| HEndpoint (addr : string) (port : Z) (name : string) (repId : Z) (draw : string)
| HReport (report : InagentStatusReport) (secret : string).
Definition host_event_step (h : host_api) (ev : host_event) : host_api :=
  match ev with
  | HEndpoint addr port name repId draw => fst (fst (ensureHostletEndpoint addr port name repId draw h))
  | HReport report secret => fst (mergeInagentStatus report secret h)
  end.
Definition new_host_api : host_api := {| ha_secrets := ∅; ha_entries := ∅ |}.
Definition host_events_run (evs : list host_event) : host_api := fold_left host_event_step evs new_host_api.
Definition draws (evs : list host_event) : list string := omap (fun ev => match ev with HEndpoint _ _ _ _ d => Some d | _ => None end) evs.

(** Containers do not share a secret, and every secret was drawn. *)
Record secrets_ok (drawn : list string) (h : host_api) : Prop := {
  so_drawn : forall c s, ha_secrets h !! c = Some s -> s ∈ drawn;
  so_inj : forall c c' s, ha_secrets h !! c = Some s -> ha_secrets h !! c' = Some s -> c = c' }.

Lemma merge_secrets report secret h : ha_secrets (fst (mergeInagentStatus report secret h)) = ha_secrets h.
Proof. unfold mergeInagentStatus. by repeat case_match. Qed.
Lemma secrets_ok_mono drawn d h : secrets_ok drawn h -> secrets_ok (drawn ++ d)%list h.
Proof. intros [H1 H2]. split; [|done]. intros c s Hs. apply elem_of_app. left. by eapply H1. Qed.
Lemma set_secret_ok drawn c d h : secrets_ok drawn h -> d ∉ drawn -> secrets_ok (drawn ++ [d])%list (SetSecretKey c d h).
Proof.
  intros [H1 H2] Hd. split; cbn.
  - intros c' s [(_ & <-)|(_ & Hs)]%lookup_insert_Some; apply elem_of_app; [right; by left|left; by eapply H1].
  - intros c1 c2 s [(<- & <-)|(N1 & E1)]%lookup_insert_Some [(<- & E)|(N2 & E2)]%lookup_insert_Some.
    + done.
    + exfalso. apply Hd. by eapply H1.
    + subst s. exfalso. apply Hd. by eapply H1.
    + by eapply H2.
Qed.
Lemma host_events_secrets evs : forall drawn h, secrets_ok drawn h -> NoDup (drawn ++ draws evs)%list ->
  secrets_ok (drawn ++ draws evs)%list (fold_left host_event_step evs h).
Proof.
  induction evs as [|ev evs IH]; intros drawn h Hok Hnd; [by rewrite app_nil_r|]. cbn [fold_left]. destruct ev as [addr port name repId d|report secret].
  - change (draws (HEndpoint addr port name repId d :: evs)) with ([d] ++ draws evs)%list in *. rewrite app_assoc in Hnd |- *. apply IH; [|exact Hnd].
    assert (Hd : d ∉ drawn). { intros Hin. rewrite <- app_assoc in Hnd. apply NoDup_app in Hnd as (_ & Hnd & _). apply (Hnd d Hin). by left. }
    cbn. unfold ensureHostletEndpoint, EnsureSecretKey.
    case_bool_decide; [by apply secrets_ok_mono|]. case_bool_decide; [by apply secrets_ok_mono|]. by apply set_secret_ok.
  - apply IH; [|exact Hnd]. destruct Hok as [H1 H2]. cbn [host_event_step]. split; rewrite merge_secrets; done.
Qed.
Lemma SecretKey_some c h s : SecretKey c h = s -> s <> "" -> ha_secrets h !! c = Some s.
Proof. unfold SecretKey. destruct (ha_secrets h !! c); cbn; congruence. Qed.

(** C32: The host takes a report for a replica only with the secret of that replica.  After any
    endpoints written and reports received, the secrets drawn at random being distinct, a report is
    accepted exactly when it names an instance and comes with the secret of its container, which no
    other replica has; accepted, it changes the stages of that replica only; refused, it changes
    nothing. *)
Theorem report_only_for_itself (evs : list host_event) (report : InagentStatusReport) (secret : string) :
  NoDup (draws evs) -> 0 <= ir_ReplicaId report ->
  let h := host_events_run evs in
  let own := SecretKey (ContainerName (ir_InstanceName report) (ir_ReplicaId report)) h in
  let '(h', code) := mergeInagentStatus report secret h in
  (code = StatusOK <-> ir_InstanceName report <> "" /\ secret <> "" /\ secret = own) /\
  (code = StatusOK -> forall name repId, 0 <= repId -> SecretKey (ContainerName name repId) h = secret ->
     name = ir_InstanceName report /\ repId = ir_ReplicaId report) /\
  (forall name repId, 0 <= repId -> (name, repId) <> (ir_InstanceName report, ir_ReplicaId report) ->
     replica_entry name repId h' = replica_entry name repId h) /\
  (code <> StatusOK -> h' = h).
Proof.
  intros Hnd Hr h own. assert (Hok : secrets_ok (draws evs) h) by (apply (host_events_secrets evs [] new_host_api); [split; cbn; intros *; by rewrite lookup_empty|exact Hnd]).
  unfold mergeInagentStatus. fold own. case_bool_decide as Hn.
  { split; [split; [done|by intros [? _]]|]. done. }
  destruct (bool_decide (own = "") || bool_decide (secret = "") || negb (bool_decide (secret = own))) eqn:E.
  { split; [|done]. split; [done|]. intros (_ & Hs & ->). rewrite (bool_decide_false (own = "")), (bool_decide_true (own = own)) in E by done. done. }
  apply orb_false_iff in E as [E E3]. apply orb_false_iff in E as [E1 E2]. apply bool_decide_eq_false in E1, E2. apply negb_false_iff, bool_decide_eq_true in E3.
  split; [done|]. split; [|split; [|done]].
  - intros _ name repId Hr' Hs. apply container_name_inj; [done..|]. apply (so_inj _ _ Hok _ _ secret); [by apply SecretKey_some|].
    apply SecretKey_some; [by rewrite E3|done].
  - intros name repId Hr' Hne. unfold replica_entry, put_entry_of. cbn. rewrite lookup_insert_ne; [done|].
    intros Heq. apply Hne. apply stage_key_inj in Heq as [-> ->]; done.
Qed.

(** ** Stages of the agent *)

Definition has_name (name : string) (c : AppDeployStage) : bool := bool_decide (sname c = name).
Lemma find_upd_first_other (p q : AppDeployStage -> bool) fresh f cs :
  (forall c, p c = true -> q c = false /\ q (f c) = false) -> q (f fresh) = false -> List.find q (upd_first p fresh f cs) = List.find q cs.
Proof.
  intros Hpq Hf. induction cs as [|c cs IH]; cbn; [by rewrite Hf|]. destruct (p c) eqn:E; cbn; [by destruct (Hpq c E) as [-> ->]|by rewrite IH].
Qed.
Lemma has_name_same name c : has_name name c = true <-> sname c = name.
Proof. apply bool_decide_eq_true. Qed.
Lemma find_named_child name owner f n : (forall c, sname (f c) = sname c) ->
  List.find (has_name name) (schildren (Child name owner f n)) = Some (f (default (new_child name owner) (List.find (has_name name) (schildren n)))).
Proof.
  intros Hf. destruct n as [d cs]. cbn [Child schildren].
  rewrite (find_upd_first (has_name name)).
  - by destruct (List.find (has_name name) cs).
  - apply has_name_same. by rewrite Hf.
  - intros c Hc. apply has_name_same in Hc. apply has_name_same. by rewrite Hf.
Qed.
Lemma find_other_child name name' owner f n : name <> name' -> (forall c, sname (f c) = sname c) ->
  List.find (has_name name') (schildren (Child name owner f n)) = List.find (has_name name') (schildren n).
Proof.
  intros Hne Hf. destruct n as [d cs]. cbn [Child schildren]. apply (find_upd_first_other (has_name name)).
  - intros c Hc. apply has_name_same in Hc. unfold has_name. rewrite Hf, Hc. by rewrite bool_decide_false.
  - unfold has_name. rewrite Hf. by apply bool_decide_false.
Qed.

(** What a report makes of the stages of an entry. *)
Definition reported_as (s c : AppDeployStage) : Prop :=
  st_State (sdata c) = st_State (sdata s) /\ st_Message (sdata c) = st_Message (sdata s) /\ st_Revision (sdata c) = st_Revision (sdata s) /\
  st_Attempt (sdata c) = st_Attempt (sdata s) /\ st_Created (sdata c) = st_Created (sdata s) /\ st_Finished (sdata c) = st_Finished (sdata s).
Definition merge_one (rev : Z) (n s : AppDeployStage) : AppDeployStage :=
  if stale_report rev s then n else Child (sname s) AppStageOwnerInagent (on_data (set_reported (sdata s))) n.
Lemma on_data_name f c : (forall d, st_Name (f d) = st_Name d) -> sname (on_data f c) = sname c.
Proof. intros Hf. destruct c. apply Hf. Qed.
Lemma merge_other rev l n name : name ∉ map sname l -> List.find (has_name name) (schildren (foldl (merge_one rev) n l)) = List.find (has_name name) (schildren n).
Proof.
  revert n. induction l as [|s l IH]; intros n Hn; [done|]. cbn in Hn. apply not_elem_of_cons in Hn as [Hs Hn]. cbn [foldl]. rewrite (IH _ Hn).
  unfold merge_one. destruct (stale_report rev s); [done|]. apply find_other_child; [done|]. intros c. by apply on_data_name.
Qed.
Lemma merge_found rev l n s : NoDup (map sname l) -> s ∈ l -> stale_report rev s = false ->
  exists c, List.find (has_name (sname s)) (schildren (foldl (merge_one rev) n l)) = Some c /\ reported_as s c.
Proof.
  revert n. induction l as [|x l IH]; intros n Hnd Hin Hst; [by apply elem_of_nil in Hin|]. cbn in Hnd. apply NoDup_cons in Hnd as [Hx Hnd].
  cbn [foldl]. apply elem_of_cons in Hin as [->|Hin]; [|by apply IH].
  rewrite (merge_other rev l _ (sname x) Hx). unfold merge_one. rewrite Hst, find_named_child by (intros c; by apply on_data_name).
  eexists. split; [done|]. by destruct (default _ _).
Qed.

(** The reporter holds each stage of the agent at most once, and no other. *)
Definition reporter_ok (r : reporter) : Prop := NoDup (map sname (rp_stages r)) /\ Forall (fun s => sname s ∈ AppDeployStageInagentNames) (rp_stages r).
Lemma on_child_names name f stages : (forall c, sname (f c) = sname c) ->
  map sname (on_child name f stages) = if bool_decide (name ∈ map sname stages) then map sname stages else (map sname stages ++ [name])%list.
Proof. intros Hf. unfold on_child. by apply upd_first_names. Qed.
Lemma on_child_ok name f r dirty : name ∈ AppDeployStageInagentNames -> (forall c, sname (f c) = sname c) -> reporter_ok r ->
  reporter_ok (with_stages (on_child name f (rp_stages r)) dirty r).
Proof.
  intros Hn Hf [Hnd Hall]. unfold reporter_ok. cbn. rewrite on_child_names by done. split.
  - case_bool_decide as Hin; [done|]. apply NoDup_app. split; [done|]. split; [|apply NoDup_singleton].
    intros x Hx E. apply list_elem_of_singleton in E as ->. done.
  - apply (Forall_map sname (fun n => n ∈ AppDeployStageInagentNames)). rewrite on_child_names by done.
    apply (Forall_map sname (fun n => n ∈ AppDeployStageInagentNames)) in Hall. case_bool_decide; [done|]. apply Forall_app. split; [done|]. by constructor.
Qed.
Lemma transition_name state msg now d : st_Name (stage_transition state msg now d) = st_Name d.
Proof. unfold stage_transition. by repeat case_match. Qed.
Lemma apply_stage_ok name state msg now r : name ∈ AppDeployStageInagentNames -> reporter_ok r -> reporter_ok (apply_stage name state msg now r).
Proof.
  intros Hn Hr. unfold apply_stage. case_match; [by apply on_child_ok|]. apply on_child_ok; [done| |done].
  intros c. apply on_data_name. intros d. cbn. by rewrite transition_name.
Qed.
Lemma SetBoot_ok now r : reporter_ok r -> reporter_ok (SetBoot now r).
Proof.
  intros Hr. unfold SetBoot. assert (Hn : AppDeployStageNameInagentBoot ∈ AppDeployStageInagentNames) by (left).
  case_match; [by apply on_child_ok|]. apply on_child_ok; [done| |done]. intros c. by apply on_data_name.
Qed.
Lemma SetRevision_ok rev r : reporter_ok r -> reporter_ok (SetRevision rev r).
Proof. intros Hr. unfold SetRevision. case_match; [done|]. split; constructor. Qed.

Lemma child_of_set name f stages : (forall c, sname (f c) = sname c) -> child_of name (on_child name f stages) = f (child_of name stages).
Proof.
  intros Hf. unfold child_of, on_child. rewrite (find_upd_first (has_name name)).
  - by destruct (List.find _ stages).
  - apply has_name_same. by rewrite Hf.
  - intros c Hc. apply has_name_same in Hc. apply has_name_same. by rewrite Hf.
Qed.
Lemma child_of_other name name' f stages : name <> name' -> (forall c, sname (f c) = sname c) -> child_of name' (on_child name f stages) = child_of name' stages.
Proof.
  intros Hne Hf. unfold child_of, on_child. rewrite (find_upd_first_other (has_name name)); [done| |].
  - intros c Hc. apply has_name_same in Hc. rewrite Hf, Hc. by rewrite bool_decide_false.
  - rewrite Hf. by apply bool_decide_false.
Qed.
Lemma child_of_elem name f stages : (forall c, sname (f c) = sname c) -> child_of name (on_child name f stages) ∈ on_child name f stages.
Proof.
  intros Hf. unfold child_of. destruct (List.find _ (on_child name f stages)) as [c|] eqn:E; [apply find_some in E as [E _]; by apply list_elem_of_In|].
  exfalso. unfold on_child in E. rewrite (find_upd_first (has_name name)) in E; [done| |].
  - apply has_name_same. by rewrite Hf.
  - intros c Hc. apply has_name_same in Hc. apply has_name_same. by rewrite Hf.
Qed.
Lemma child_of_name name stages : sname (child_of name stages) = name.
Proof. unfold child_of. destruct (List.find _ stages) as [c|] eqn:E; [|done]. apply find_some in E as [_ E]. by apply has_name_same in E. Qed.

(** A stage that a setter leaves in the reporter. *)
Definition reports (r : reporter) (name state : string) : Prop :=
  let c := child_of name (rp_stages r) in c ∈ rp_stages r /\ st_State (sdata c) = state /\ st_Revision (sdata c) = rp_revision r.
Lemma sdata_on_data f c : sdata (on_data f c) = f (sdata c).
Proof. by destruct c. Qed.
Lemma apply_stage_reports name state msg now r :
  state = AppStageStateRunning \/ state = AppStageStateSuccess \/ state = AppStageStateFailed -> reports (apply_stage name state msg now r) name state.
Proof.
  intros Hs. unfold reports, apply_stage. destruct (_ && _ && _) eqn:E; cbn [rp_stages rp_revision with_stages].
  - apply andb_true_iff in E as [E E3]. apply andb_true_iff in E as [E1 E2]. apply bool_decide_eq_true in E1.
    split; [by apply child_of_elem|]. rewrite child_of_set by done. cbn [id]. split; [done|lia].
  - assert (Hf : forall c, sname (on_data (fun d => set_revision (rp_revision r) (stage_transition state msg now (set_owner AppStageOwnerInagent d))) c) = sname c).
    { intros c. apply on_data_name. intros d. cbn. by rewrite transition_name. }
    split; [by apply child_of_elem|]. rewrite child_of_set by exact Hf. rewrite sdata_on_data. split; [|done].
    unfold stage_transition. destruct Hs as [-> | [-> | ->]]; reflexivity.
Qed.
Lemma SetBoot_reports now r : reports (SetBoot now r) AppDeployStageNameInagentBoot AppStageStateSuccess.
Proof.
  unfold reports, SetBoot. destruct (_ && _) eqn:E; cbn [rp_stages rp_revision with_stages].
  - apply andb_true_iff in E as [E1 E2]. apply bool_decide_eq_true in E1.
    split; [by apply child_of_elem|]. rewrite child_of_set by done. cbn [id]. split; [done|lia].
  - split; [apply child_of_elem; intros c; by apply on_data_name|]. rewrite child_of_set by (intros c; by apply on_data_name). by rewrite sdata_on_data.
Qed.
Lemma on_child_keeps name name' f r dirty state : name <> name' -> (forall c, sname (f c) = sname c) -> reports r name' state ->
  reports (with_stages (on_child name f (rp_stages r)) dirty r) name' state.
Proof.
  intros Hne Hf (Hin & Hs & Hr). unfold reports. cbn [rp_stages rp_revision with_stages]. cbv zeta. rewrite child_of_other by done. split; [|done].
  apply list_elem_of_In. unfold on_child. apply list_elem_of_In in Hin. pose proof (child_of_name name' (rp_stages r)) as Hname.
  clear Hs Hr. revert Hin Hname. generalize (child_of name' (rp_stages r)). intros c. induction (rp_stages r) as [|x l IH]; intros Hin Hname; [done|]. cbn.
  destruct Hin as [E|Hin].
  - rewrite bool_decide_false by congruence. by left.
  - case_bool_decide; right; [done|by apply IH].
Qed.
Lemma apply_stage_keeps name name' state msg now r state' : name <> name' -> reports r name' state' -> reports (apply_stage name state msg now r) name' state'.
Proof.
  intros Hne Hr. unfold apply_stage. case_match; apply on_child_keeps; try done. intros c. apply on_data_name. intros d. cbn. by rewrite transition_name.
Qed.
Lemma apply_stage_revision name state msg now r : rp_revision (apply_stage name state msg now r) = rp_revision r.
Proof. unfold apply_stage. by case_match. Qed.

(** ** One turn, to the host *)

Section turn.
Context {CR : Cron} {SH : Shell}.

Lemma aggregate_state tasks st : let s := fst (OnStartupAggregate tasks st) in s = AppStageStateRunning \/ s = AppStageStateSuccess \/ s = AppStageStateFailed.
Proof. cbv zeta. unfold OnStartupAggregate. repeat case_match; cbn; auto. Qed.

(** The reporter after the setters of a turn. *)
Definition turn_reporter (app : AppReplicaInstance) (state msg : string) (ms : Z) (r : reporter) : reporter :=
  SetTaskRun state msg ms (SetSpecLoad AppStageStateSuccess "" ms (SetBoot ms (SetRevision (ap_Revision app) r))).
Lemma turn_reporter_ok app state msg ms r : reporter_ok r -> reporter_ok (turn_reporter app state msg ms r).
Proof.
  intros Hr. apply apply_stage_ok; [do 2 right; by left|]. apply apply_stage_ok; [right; by left|]. by apply SetBoot_ok, SetRevision_ok.
Qed.
Lemma turn_reporter_revision app state msg ms r : rp_revision (turn_reporter app state msg ms r) = ap_Revision app.
Proof.
  unfold turn_reporter, SetTaskRun, SetSpecLoad. rewrite !apply_stage_revision.
  assert (H : rp_revision (SetRevision (ap_Revision app) r) = ap_Revision app) by (unfold SetRevision; case_match; [lia|done]).
  unfold SetBoot. by case_match.
Qed.
(** What the turn reports: the agent is up, the file was read, and how the startup tasks are. *)
Definition turn_states (state : string) : list (string * string) :=
  [(AppDeployStageNameInagentBoot, AppStageStateSuccess); (AppDeployStageNameSpecLoad, AppStageStateSuccess); (AppDeployStageNameTaskRun, state)].
Lemma turn_reports app state msg ms r name st :
  state = AppStageStateRunning \/ state = AppStageStateSuccess \/ state = AppStageStateFailed -> (name, st) ∈ turn_states state ->
  reports (turn_reporter app state msg ms r) name st.
Proof.
  intros Hs Hin. unfold turn_states in Hin. rewrite !elem_of_cons in Hin. destruct Hin as [E|[E|[E|E]]]; [| | |by apply elem_of_nil in E].
  - injection E as -> ->. unfold turn_reporter, SetTaskRun, SetSpecLoad. do 2 (apply apply_stage_keeps; [done|]). apply SetBoot_reports.
  - injection E as -> ->. apply apply_stage_keeps; [done|]. apply apply_stage_reports. auto.
  - injection E as -> ->. by apply apply_stage_reports.
Qed.

(** A report that is accepted, in the entry of its replica. *)
Lemma accepted_entry report secret h : snd (mergeInagentStatus report secret h) = StatusOK ->
  replica_entry (ir_InstanceName report) (ir_ReplicaId report) (fst (mergeInagentStatus report secret h)) =
  MergeInagent (ir_Stages report) (replica_entry (ir_InstanceName report) (ir_ReplicaId report) h).
Proof.
  unfold mergeInagentStatus. case_match; [done|]. case_match; [done|]. intros _. unfold replica_entry at 1, put_entry_of. cbn. by rewrite lookup_insert_eq.
Qed.
Lemma merged_stage e l s : NoDup (map sname l) -> s ∈ l -> stale_report (en_Revision e) s = false ->
  exists c, List.find (has_name (sname s)) (schildren (en_Stage (MergeInagent l e))) = Some c /\ reported_as s c.
Proof. intros Hnd Hin Hst. unfold MergeInagent. cbn [en_Stage]. by apply (merge_found (en_Revision e) l _ s). Qed.

Lemma Flush_sent url_ok post endpoint name repId now r r' report : reporter_Flush url_ok post endpoint name repId now r = (r', Some report) ->
  report = {| ir_InstanceName := name; ir_ReplicaId := repId; ir_Updated := now `div` 1000000; ir_Stages := rp_stages r |} /\
  rp_stages r' = rp_stages r /\
  exists e, endpoint = Some e /\ (post report (he_SecretKey e) = Some StatusOK -> rp_dirty r' = false).
Proof.
  unfold reporter_Flush. intros H. destruct endpoint as [e|]; [|done]. do 3 (case_match; [done|]). destruct (post _ _) as [status|] eqn:E.
  - destruct (Z.eqb_spec status StatusOK) as [->|Hs]; injection H as <- <-; split; try done; split; try done; exists e; split; try done.
    rewrite E. intros [=]. by destruct Hs.
  - injection H as <- <-. split; [done|]. split; [done|]. exists e. split; [done|]. by rewrite E.
Qed.

(** C33: A turn of the agent whose report the host accepts makes the host show it.  If the entry of
    the replica is not of a later revision, then after the turn the host has, with the revision of
    the instance the agent read, the stages that the agent is up and has read its file, and one with
    the state the startup tasks are in after the pass of that turn; and the agent has nothing left
    to send. *)
Theorem tick_reaches_host (url_ok : string -> bool) (hostId appName : string) (repId : Z) (h : host_api) (file : option spec_file) (now : Z) (pauses : list pause)
    (a a' : agent) (dur : Z) (report : InagentStatusReport) (app : AppReplicaInstance) (endpoint : HostletStatusEndpoint) :
  reporter_ok (ag_reporter a) -> specRefresh hostId repId file now = Some (app, dur) -> ap_HostletEndpoint app = Some endpoint ->
  agent_tick url_ok hostId appName repId (fun rep secret => Some (snd (mergeInagentStatus rep secret h))) file now pauses a = Some (a', dur, Some report) ->
  snd (mergeInagentStatus report (he_SecretKey endpoint) h) = StatusOK ->
  en_Revision (replica_entry appName repId h) <= ap_Revision app ->
  let e := replica_entry appName repId (fst (mergeInagentStatus report (he_SecretKey endpoint) h)) in
  (forall name state, (name, state) ∈ turn_states (fst (OnStartupAggregate (ap_Tasks app) (tr_statuses (ag_runner a')))) ->
     exists c, List.find (has_name name) (schildren (en_Stage e)) = Some c /\ st_State (sdata c) = state /\ st_Revision (sdata c) = ap_Revision app) /\
  rp_dirty (ag_reporter a') = false /\ reporter_ok (ag_reporter a').
Proof.
  intros Hr Hsp Hep Htick Hacc Hrev e. unfold agent_tick in Htick. rewrite Hsp, Hep in Htick.
  set (runner := fst (Run app (now `div` second) pauses (ag_runner a))) in Htick.
  destruct (OnStartupAggregate (ap_Tasks app) (tr_statuses runner)) as [st msg] eqn:Eagg. fold (turn_reporter app st msg (now `div` 1000000) (ag_reporter a)) in Htick.
  set (r1 := turn_reporter app st msg (now `div` 1000000) (ag_reporter a)) in Htick.
  destruct (reporter_Flush _ _ _ _ _ _ r1) as [r' rep] eqn:Ef. injection Htick as <- ->. cbn [ag_runner ag_reporter].
  apply Flush_sent in Ef as (Erep & Est & ep & [= <-] & Hclean). rewrite Eagg. cbn [fst].
  assert (Hok : reporter_ok r1) by by apply turn_reporter_ok.
  split; [|split; [apply Hclean; by rewrite Hacc|unfold reporter_ok; by rewrite Est]].
  intros name state Hin. assert (Hst : st = AppStageStateRunning \/ st = AppStageStateSuccess \/ st = AppStageStateFailed).
  { pose proof (aggregate_state (ap_Tasks app) (tr_statuses runner)) as H. by rewrite Eagg in H. }
  pose proof (turn_reports app st msg (now `div` 1000000) (ag_reporter a) name state Hst Hin) as (Hc & Hs & Hv). fold r1 in Hc, Hs, Hv.
  assert (Hv1 : rp_revision r1 = ap_Revision app) by apply turn_reporter_revision.
  subst e. assert (Ename : ir_InstanceName report = appName /\ ir_ReplicaId report = repId /\ ir_Stages report = rp_stages r1) by (by rewrite Erep).
  destruct Ename as (En & Ei & Es). rewrite <- En, <- Ei, (accepted_entry report _ h Hacc), Es, En, Ei.
  destruct (merged_stage (replica_entry appName repId h) (rp_stages r1) _ (proj1 Hok) Hc) as (c & Hfind & Hrep).
  { unfold stale_report. rewrite child_of_name, Hv, Hv1. rewrite bool_decide_false; [cbn; lia|].
    intros ->. unfold turn_states in Hin. rewrite !elem_of_cons in Hin. destruct Hin as [E|[E|[E|E]]]; [done..|by apply elem_of_nil in E]. }
  rewrite child_of_name in Hfind. exists c. split; [exact Hfind|]. destruct Hrep as (H1 & _ & H2 & _). split; [by rewrite H1|by rewrite H2, Hv].
Qed.
End turn.

(** ** Examples *)

Module Turn.
#[local] Instance no_cron : Cron := fun _ => None.
#[local] Instance any_shell : Shell := fun _ => true.
Definition boot : AgentTask :=
  {| at_Name := "boot"; at_WorkingDir := ""; at_RunUser := "root"; at_DependsOn := []; at_OnStartup := true; at_OnShutdown := false;
     at_IntervalSeconds := 0; at_Cron := ""; at_Script := "setup" |}.
Definition rep : ConfReplica := {| cr_Id := 0; cr_HostId := "h1"; cr_HostIpv4 := "10.0.0.1"; cr_VpcIpv4 := ""; cr_ServicePorts := [] |}.
Definition written (ep : option HostletStatusEndpoint) : AppReplicaInstance :=
  {| ap_Name := "web"; ap_Tasks := [boot]; ap_Packages := []; ap_Revision := 3; ap_ReplicaCap := 1; ap_Configs := []; ap_Depends := [];
     ap_Replicas := [rep]; ap_Replica := rep; ap_ZoneBaseDomain := ""; ap_HostletEndpoint := ep |}.
Definition endpoints : list host_event := [HEndpoint "10.0.0.1" 9534 "web" 0 "s1"; HEndpoint "10.0.0.1" 9534 "db" 0 "s2"].
Definition host : host_api := host_events_run endpoints.
Definition own : HostletStatusEndpoint := {| he_Url := inagentEndpointURL "10.0.0.1" 9534; he_SecretKey := "s1" |}.
Definition file : option spec_file := Some {| sf_app := written (Some own); sf_complete := true; sf_Replica := None |}.
Definition at_ : Z := 1700000000 * second.
Definition turn := agent_tick (fun _ => true) "h1" "web" 0 (fun r secret => Some (snd (mergeInagentStatus r secret host))) file at_ [(1700000000, [("boot", ExitOk, 1700000001)])] new_agent.
Definition sent : InagentStatusReport :=
  {| ir_InstanceName := "web"; ir_ReplicaId := 0; ir_Updated := at_ `div` 1000000;
     ir_Stages := match turn with Some (a, _, _) => rp_stages (ag_reporter a) | None => [] end |}.
Definition after : agent := match turn with Some (a, _, _) => a | None => new_agent end.

Lemma report_only_for_itself_witness :
  snd (mergeInagentStatus sent "s1" host) = StatusOK /\ snd (mergeInagentStatus sent "s2" host) <> StatusOK.
Proof.
  assert (Hnd : NoDup (draws endpoints)) by (repeat constructor; rewrite ?list_elem_of_singleton; [done|apply not_elem_of_nil]).
  assert (Hr : 0 <= ir_ReplicaId sent) by (cbn; lia).
  split; [vm_compute; reflexivity|].
  pose proof (report_only_for_itself endpoints sent "s2" Hnd Hr) as H. cbv zeta in H. change (host_events_run endpoints) with host in H. destruct (mergeInagentStatus sent "s2" host) as [h' code].
  cbn [snd]. destruct H as (_ & H & _). intros Hc. destruct (H Hc "db" 0 ltac:(lia) eq_refl) as [E _]. discriminate E.
Defined.

Lemma tick_reaches_host_witness :
  exists c, List.find (has_name "task_run") (schildren (en_Stage (replica_entry "web" 0 (fst (mergeInagentStatus sent "s1" host))))) = Some c /\
    st_State (sdata c) = "success" /\ st_Revision (sdata c) = 3.
Proof.
  assert (Ht : turn = Some (after, 10 * second, Some sent)) by (vm_compute; reflexivity).
  pose proof (tick_reaches_host (fun _ => true) "h1" "web" 0 host file at_ [(1700000000, [("boot", ExitOk, 1700000001)])] new_agent after (10 * second) sent
    (written (Some own)) own) as H.
  destruct H as (H & _).
  - split; constructor.
  - vm_compute. reflexivity.
  - reflexivity.
  - exact Ht.
  - vm_compute. reflexivity.
  - vm_compute. discriminate.
  - apply (H "task_run" "success"). replace (fst (OnStartupAggregate _ _)) with "success" by (vm_compute; reflexivity).
    right. right. left.
Defined.

Example env_runs :
  let env rep := agent_env " 0123456789ab " "web-1" rep in
  map env ["0"; "255"; "256"; "-1"; "+7"; "x"; ""] =
  [Ok ("0123456789ab", "web-1", 0); Ok ("0123456789ab", "web-1", 255); Err "ENV APP_REP_ID Not Valid"; Err "ENV APP_REP_ID Not Valid";
   Ok ("0123456789ab", "web-1", 7); Err "ENV APP_REP_ID Not Valid"; Err "ENV APP_REP_ID Not Set"].
Proof. vm_compute. reflexivity. Qed.
(** The agent has no instance to take the endpoint from when the file does not decode. *)
Example bad_file_panics : agent_tick (fun _ => true) "h1" "web" 0 (fun _ _ => Some 200) None at_ [] new_agent = None.
Proof. reflexivity. Qed.
(** A report that names a stage of the host overwrites it. *)
Example agent_overwrites_host_stage :
  let e := stageName "container_start" (SetSuccess 5 "") (new_entry 0) in
  let s := Stage {| st_Name := "container_start"; st_Owner := "inagent"; st_Revision := 0; st_State := "failed"; st_Attempt := 0; st_Attrs := ∅;
                    st_Message := "no"; st_Created := 0; st_Finished := 0 |} [] in
  (st_State ∘ sdata) <$> List.find (has_name "container_start") (schildren (en_Stage (MergeInagent [s] e))) = Some "failed".
Proof. vm_compute. reflexivity. Qed.
(** The message of a failure outlives it: a later success without a message keeps it, and is set again
    at each turn. *)
Example failure_message_stays :
  let r := SetSpecLoad "failed" "spec refresh failed" 1 new_reporter in
  let r := with_stages (rp_stages (SetSpecLoad "success" "" 2 r)) false r in
  let r' := SetSpecLoad "success" "" 9 r in
  map (fun s => (st_State (sdata s), st_Message (sdata s), st_Finished (sdata s))) (rp_stages r') = [("success", "spec refresh failed", 9)] /\ rp_dirty r' = true.
Proof. vm_compute. split; reflexivity. Qed.
End Turn.
