(* ===== verification/Leader.v ===== *)
(** The leader of a zone: the lease the hosts of the zone compete for
    ([leaderRefresh] of [src/internal/zonelet/task_leader.go]) and what a host takes
    itself for meanwhile ([src/internal/status/status.go]).

    The lease is one item of the store, written with a time to live and only over nothing
    or over the host's own value.  The store is not part of the repository: [Lease] is
    what the code calls, [LeaseLaws] what it relies on, [lease_mem] a store that has it.
    A pass of [leaderRefresh] is cut where it waits for the store, so that [leader_step]
    interleaves the passes of the hosts call by call; times are milliseconds. *)
From Stdlib Require Import ZArith Lia.
From stdpp Require Import functions.
From S2P Require Import Prelude GoStrings Ns Kv Auth Zone Users AgentStatus.
Local Open Scope string_scope.
Local Open Scope Z_scope.
Local Open Scope go_scope.

(** ** The store of the lease *)

(** An item: its value, [Meta.Version], [Meta.Updated] and [Meta.Expired]. *)
Record lease_item := { li_value : string; li_version : Z; li_updated : Z; li_expired : Z }.

(** [lease_at] is the last item written at a key, expired or not; a read and a write take
    place at a time of the store.  A write has a value, a [SetPrevChecksum] and a
    [SetTTL]. *)
Class Lease (S : Type) := {
  lease_at : S -> string -> option lease_item;
  lease_read : S -> Z -> string -> kv_reply (list lease_item);
  lease_write : S -> Z -> string -> string -> string -> Z -> S * kv_reply lease_item }.

(** A write takes place only over an expired item or over one of the value [prev]; one
    that is not acknowledged may have taken place, or not. *)
Definition lease_written {S} `{Lease S} (s s' : S) (t : Z) (k v prev : string) (ttl : Z) (it : lease_item) : Prop :=
  lease_at s' k = Some it /\ li_value it = v /\ li_updated it = t /\ li_expired it = t + ttl /\
  (forall old, lease_at s k = Some old -> t < li_expired old -> li_value old = prev).
Class LeaseLaws {S} (L : Lease S) := {
  lease_read_ok : forall s t k it items, lease_read s t k = KvOk (it :: items) ->
    lease_at s k = Some it /\ t < li_expired it;
  lease_write_ok : forall s t k v prev ttl s' it, lease_write s t k v prev ttl = (s', KvOk it) ->
    lease_written s s' t k v prev ttl it;
  lease_write_other : forall s t k v prev ttl s' r, lease_write s t k v prev ttl = (s', r) ->
    lease_at s' k = lease_at s k \/ exists it, lease_written s s' t k v prev ttl it }.

(** ** What a host knows *)

Definition ZoneletLeaderTTL : Z := 12000.
Record leader_status := { ZoneletLeader : string; ZoneletLeaderUpdated : Z; ZoneletLeaderVersion : Z }.
Definition leader_unknown : leader_status :=
  {| ZoneletLeader := ""; ZoneletLeaderUpdated := 0; ZoneletLeaderVersion := 0 |}.

Definition IsZoneletLeader (hostId : string) (tn : Z) (st : leader_status) : bool :=
  bool_decide (ZoneletLeader st = hostId) && (tn <? ZoneletLeaderUpdated st + ZoneletLeaderTTL).

(** [IsZonelet]: an address of [ZoneHosts] is that of the host. *)
Definition IsZonelet (zone lanAddr : string) (zoneHosts : list string) : bool :=
  negb (bool_decide (zone = "")) && existsb (fun v => String.prefix (lanAddr +:+ ":") v) zoneHosts.

(** ** [leaderRefresh] *)

(** The three replies a pass may wait for, and what it does with each. *)
Definition on_renewed (rs : kv_reply lease_item) (st : leader_status) : leader_status :=
  match rs with
  | KvOk it => {| ZoneletLeader := ZoneletLeader st; ZoneletLeaderUpdated := li_updated it; ZoneletLeaderVersion := li_version it |}
  | _ => st
  end.
Definition on_claimed (hostId : string) (rs : kv_reply lease_item) (st : leader_status) : leader_status * bool :=
  match rs with
  | KvOk it => ({| ZoneletLeader := hostId; ZoneletLeaderUpdated := li_updated it; ZoneletLeaderVersion := li_version it |}, true)
  | _ => (st, false)
  end.
(** An item that was read: whether it is news, and the status after it. *)
Definition leader_news (it : lease_item) (st : leader_status) : bool :=
  ObjectIdValid (li_value it) &&
  (negb (bool_decide (li_value it = ZoneletLeader st)) || (ZoneletLeaderVersion st <? li_version it)).
Definition on_seen (it : lease_item) (st : leader_status) : leader_status * bool :=
  let force := leader_news it st in
  ({| ZoneletLeader := if force then li_value it else ZoneletLeader st;
      ZoneletLeaderUpdated := li_updated it;
      ZoneletLeaderVersion := if force then li_version it else ZoneletLeaderVersion st |}, force).

(** [None]: the pass goes on to claim the lease. *)
Definition on_read (rs : kv_reply (list lease_item)) (st : leader_status) : option (leader_status * bool) :=
  match rs with
  | KvNotFound => None
  | KvOk (it :: _) => Some (on_seen it st)
  | _ => Some (st, false)
  end.

Section pass.
Context {L : Type} `{Lease L} {A : Type} `{Kv A zone_value}.
Variables (zone hostId : string).

(** Both writers: the lease of the host, over nothing or over its own. *)
Definition lease_take (t : Z) (s : L) : L * kv_reply lease_item :=
  lease_write s t (NsZoneletLeader zone) hostId hostId ZoneletLeaderTTL.

(** A pass that begins at [tn] of the clock of the host and whose calls the store answers
    at [t1] and [t2]: the status, [forceRefresh], and the store. *)
Definition leader_pass (tn t1 t2 : Z) (st : leader_status) (s : L) : leader_status * bool * L :=
  if bool_decide (zone = "") then (st, false, s)
  else if IsZoneletLeader hostId tn st then
    let '(s, rs) := lease_take t1 s in (on_renewed rs st, false, s)
  else match on_read (lease_read s t1 (NsZoneletLeader zone)) st with
  | Some (st, force) => (st, force, s)
  | None => let '(s, rs) := lease_take t2 s in let '(st, force) := on_claimed hostId rs st in (st, force, s)
  end.

(** With the keys, which are read again when the leader is news. *)
Definition leaderRefresh (tn t1 t2 : Z) (st : leader_status) (s : L) (a : authn A)
  : bool * leader_status * L * authn A :=
  let '(st, force, s) := leader_pass tn t1 t2 st s in
  (force, st, s, if force then RefreshAccessKeysFromDB zone a else a).
End pass.

(** ** The hosts of a zone *)

(** Where a pass of a host is: between passes, or at a call that is still to reach the
    store, or whose reply is still to reach the host. *)
Inductive leader_pc : Type :=
| LpIdle
| LpRenew
| LpRenewed (rs : kv_reply lease_item)
| LpRead
| LpReadDone (rs : kv_reply (list lease_item))
| LpClaim
| LpClaimed (rs : kv_reply lease_item).

Record leader_node := { ln_status : leader_status; ln_pc : leader_pc }.
Definition leader_boot : leader_node := {| ln_status := leader_unknown; ln_pc := LpIdle |}.
Record leader_world (L : Type) := { lw_now : Z; lw_store : L; lw_nodes : string -> leader_node }.
Arguments lw_now {L} l.
Arguments lw_store {L} l.
Arguments lw_nodes {L} l.

Section world.
Context {L : Type} `{Lease L}.
Variable zone : string.
(** How far the clock of a host is ahead of that of the store. *)
Variable skew : string -> Z.

Definition set_node (h : string) (st : leader_status) (pc : leader_pc) (w : leader_world L) : leader_world L :=
  {| lw_now := lw_now w; lw_store := lw_store w; lw_nodes := <[h := {| ln_status := st; ln_pc := pc |}]> (lw_nodes w) |}.
Definition with_lease (s : L) (w : leader_world L) : leader_world L :=
  {| lw_now := lw_now w; lw_store := s; lw_nodes := lw_nodes w |}.
Definition node_is_leader (h : string) (w : leader_world L) : bool :=
  IsZoneletLeader h (lw_now w + skew h) (ln_status (lw_nodes w h)).

(** [ls_stray]: a write of the host arrives late, or again, or of a process that is gone.
    [ls_restart]: the process starts again, with nothing known. *)
Inductive leader_step : leader_world L -> leader_world L -> Prop :=
| ls_tick d w : 0 <= d -> leader_step w {| lw_now := lw_now w + d; lw_store := lw_store w; lw_nodes := lw_nodes w |}
| ls_begin h w st : ObjectIdValid h = true -> lw_nodes w h = {| ln_status := st; ln_pc := LpIdle |} ->
    leader_step w (set_node h st (if node_is_leader h w then LpRenew else LpRead) w)
| ls_renew h w st s rs : lw_nodes w h = {| ln_status := st; ln_pc := LpRenew |} ->
    lease_take zone h (lw_now w) (lw_store w) = (s, rs) -> leader_step w (set_node h st (LpRenewed rs) (with_lease s w))
| ls_renewed h w st rs : lw_nodes w h = {| ln_status := st; ln_pc := LpRenewed rs |} ->
    leader_step w (set_node h (on_renewed rs st) LpIdle w)
| ls_read h w st : lw_nodes w h = {| ln_status := st; ln_pc := LpRead |} ->
    leader_step w (set_node h st (LpReadDone (lease_read (lw_store w) (lw_now w) (NsZoneletLeader zone))) w)
| ls_seen h w st rs st' force : lw_nodes w h = {| ln_status := st; ln_pc := LpReadDone rs |} ->
    on_read rs st = Some (st', force) -> leader_step w (set_node h st' LpIdle w)
| ls_absent h w st rs : lw_nodes w h = {| ln_status := st; ln_pc := LpReadDone rs |} ->
    on_read rs st = None -> leader_step w (set_node h st LpClaim w)
| ls_claim h w st s rs : lw_nodes w h = {| ln_status := st; ln_pc := LpClaim |} ->
    lease_take zone h (lw_now w) (lw_store w) = (s, rs) -> leader_step w (set_node h st (LpClaimed rs) (with_lease s w))
| ls_claimed h w st rs : lw_nodes w h = {| ln_status := st; ln_pc := LpClaimed rs |} ->
    leader_step w (set_node h (fst (on_claimed h rs st)) LpIdle w)
| ls_stray h w s rs : ObjectIdValid h = true ->
    lease_take zone h (lw_now w) (lw_store w) = (s, rs) -> leader_step w (with_lease s w)
| ls_restart h w : leader_step w (set_node h leader_unknown LpIdle w).

(** No lease was ever taken. *)
Definition leader_start (w : leader_world L) : Prop :=
  lease_at (lw_store w) (NsZoneletLeader zone) = None /\ forall h, lw_nodes w h = leader_boot.
End world.

(** ** A store in memory *)

Abbreviation lease_mem := (gmap string lease_item).
Definition lease_live (t : Z) (it : option lease_item) : option lease_item :=
  match it with Some it => if t <? li_expired it then Some it else None | None => None end.
#[export] Instance lease_mem_Lease : Lease lease_mem := {|
  lease_at := fun s k => s !! k;
  lease_read := fun s t k => match lease_live t (s !! k) with Some it => KvOk [it] | None => KvNotFound end;
  lease_write := fun s t k v prev ttl =>
    if match lease_live t (s !! k) with Some old => bool_decide (li_value old = prev) | None => true end
    then let it := {| li_value := v; li_version := (match s !! k with Some old => li_version old | None => 0 end) + 1;
                      li_updated := t; li_expired := t + ttl |} in
         (<[k := it]> s, KvOk it)
    else (s, KvErr "prev checksum conflict") |}.
#[export] Instance lease_mem_laws : LeaseLaws lease_mem_Lease.
Proof.
  assert (W : forall (s s' : lease_mem) t k v prev ttl it, lease_write s t k v prev ttl = (s', KvOk it) ->
      lease_written s s' t k v prev ttl it).
  { cbn. intros s s' t k v prev ttl it E. destruct (match lease_live _ _ with Some _ => _ | None => _ end) eqn:G; [|done].
    injection E as <- <-. unfold lease_written. cbn. rewrite lookup_insert_eq.
    do 4 (split; [done|]). intros old E Hlt. rewrite E in G. cbn in G.
    rewrite (proj2 (Z.ltb_lt _ _) Hlt) in G. by apply bool_decide_eq_true in G. }
  split.
  - cbn. intros s t k it items E. destruct (s !! k) as [x|]; cbn in E; [|done].
    destruct (Z.ltb_spec t (li_expired x)); [|done]. by injection E as <- <-.
  - intros s t k v prev ttl s' it. apply W.
  - intros s t k v prev ttl s' [it| |m] E.
    + right. exists it. by apply W.
    + cbn in E. destruct (match lease_live _ _ with Some _ => _ | None => _ end); done.
    + left. cbn in E. destruct (match lease_live _ _ with Some _ => _ | None => _ end); [done|]. by injection E as <- <-.
Defined.
