(* ===== verification/LeaderLogic.v ===== *)
(** A zone has one leader: of the hosts whose passes interleave call by call, with writes
    that are lost, late or repeated and with restarts, no two take themselves for the
    leader at once, as long as no clock of a host is behind that of the store.  The pass of
    a host by itself: a lease that ran out is taken over at once, and one that is held is
    followed. *)
From Stdlib Require Import ZArith Lia.
From stdpp Require Import functions.
From S2P Require Import Prelude GoStrings Ns Kv Auth Zone Users AgentStatus Leader.
Local Open Scope string_scope.
Local Open Scope Z_scope.
Local Open Scope go_scope.

(** * The invariant *)

Section inv.
Context {L : Type} `{LL : LeaseLaws L}.
Variable zone : string.

Definition lease_key : string := NsZoneletLeader zone.

(** A hold on the lease of the time [u]: over, or the lease is the host's own and no older. *)
Definition holds (s : L) (now : Z) (h : string) (u : Z) : Prop :=
  u + ZoneletLeaderTTL <= now \/
  exists it, lease_at s lease_key = Some it /\ li_value it = h /\ u <= li_updated it.
Definition lease_wf (s : L) (now : Z) : Prop :=
  forall it, lease_at s lease_key = Some it ->
    ObjectIdValid (li_value it) = true /\ li_updated it <= now /\ li_expired it = li_updated it + ZoneletLeaderTTL.
Definition node_ok (s : L) (now : Z) (h : string) (n : leader_node) : Prop :=
  (ZoneletLeader (ln_status n) = h -> holds s now h (ZoneletLeaderUpdated (ln_status n))) /\
  match ln_pc n with
  | LpRenewed (KvOk it) | LpClaimed (KvOk it) => holds s now h (li_updated it)
  | LpReadDone (KvOk (it :: _)) => ObjectIdValid (li_value it) = true /\ (li_value it = h -> holds s now h (li_updated it))
  | _ => True
  end.
Definition world_ok (w : leader_world L) : Prop :=
  lease_wf (lw_store w) (lw_now w) /\
  forall h, (ln_pc (lw_nodes w h) = LpIdle \/ ObjectIdValid h = true) /\
    (ObjectIdValid h = true -> node_ok (lw_store w) (lw_now w) h (lw_nodes w h)).

Lemma holds_later s now now' h u : now <= now' -> holds s now h u -> holds s now' h u.
Proof. intros Ht [Hu|Hs]; [left; lia | by right]. Qed.

(** A write by any valid host keeps every hold. *)
Lemma holds_take s now h0 s' rs h u : lease_wf s now -> lease_take zone h0 now s = (s', rs) ->
  holds s now h u -> holds s' now h u.
Proof.
  intros WF E [Hu|(it & Hat & Hv & Hu)]; [by left|]. unfold lease_take in E.
  destruct (lease_write_other _ _ _ _ _ _ _ _ E) as [Hs|(it' & Hat' & Hv' & Hup & _ & Hold)].
  - right. exists it. unfold lease_key. by rewrite Hs.
  - destruct (WF it Hat) as (_ & Hle & Hex). destruct (Z.lt_ge_cases now (li_expired it)) as [Hlt|Hge].
    + right. exists it'. rewrite Hup, Hv', <- (Hold it Hat Hlt). split_and!; [done|done|lia].
    + left. lia.
Qed.
Lemma wf_take s now h0 s' rs : ObjectIdValid h0 = true -> lease_wf s now -> lease_take zone h0 now s = (s', rs) ->
  lease_wf s' now.
Proof.
  intros Hid WF E it Hat. unfold lease_take in E.
  destruct (lease_write_other _ _ _ _ _ _ _ _ E) as [Hs|(it' & Hat' & Hv' & Hup & Hex & _)].
  - apply WF. unfold lease_key in *. by rewrite <- Hs.
  - unfold lease_key in Hat. rewrite Hat' in Hat. injection Hat as <-. rewrite Hv', Hup, Hex. split_and!; [done|lia|done].
Qed.
Lemma taken_holds s now h s' it : lease_take zone h now s = (s', KvOk it) -> holds s' now h (li_updated it).
Proof.
  intros E. destruct (lease_write_ok _ _ _ _ _ _ _ _ E) as (Hat & Hv & _). right. exists it. split_and!; [done|done|lia].
Qed.

(** What a host makes of a reply. *)
Lemma seen_holds s now h it st : ObjectIdValid (li_value it) = true ->
  (li_value it = h -> holds s now h (li_updated it)) ->
  ZoneletLeader (fst (on_seen it st)) = h -> holds s now h (ZoneletLeaderUpdated (fst (on_seen it st))).
Proof.
  intros Hid Hh. unfold on_seen, leader_news. cbn [fst ZoneletLeader ZoneletLeaderUpdated]. rewrite Hid.
  case_bool_decide as Hv; cbn [andb negb orb]; [|apply Hh].
  destruct (_ <? _); intros E; apply Hh; congruence.
Qed.

Lemma node_ok_later s now s' now' h n : (forall u, holds s now h u -> holds s' now' h u) ->
  node_ok s now h n -> node_ok s' now' h n.
Proof.
  intros M (Hst & Hpc). split; [auto|]. clear Hst.
  destruct (ln_pc n) as [| |[]| |[[]| |]| |[]]; try done; try (by apply M). destruct Hpc. auto.
Qed.

(** One host moves, the others keep what they have. *)
Lemma world_ok_set w h0 st pc : world_ok w -> (pc = LpIdle \/ ObjectIdValid h0 = true) ->
  (ObjectIdValid h0 = true -> node_ok (lw_store w) (lw_now w) h0 {| ln_status := st; ln_pc := pc |}) ->
  world_ok (set_node h0 st pc w).
Proof.
  intros [WF N] Hpc H0. split; [done|]. intros h. cbn [set_node lw_nodes lw_store lw_now].
  destruct (decide (h = h0)) as [->|Hne]; [rewrite fn_lookup_insert; auto | rewrite fn_lookup_insert_ne; auto].
Qed.
Lemma world_ok_take w h0 s rs : ObjectIdValid h0 = true -> world_ok w ->
  lease_take zone h0 (lw_now w) (lw_store w) = (s, rs) -> world_ok (with_lease s w).
Proof.
  intros Hid [WF N] E. split; [eapply wf_take; eauto|]. intros h. destruct (N h) as [Hpc Hn]. split; [done|]. intros Hh.
  eapply node_ok_later; [|by apply Hn]. intros u. by eapply holds_take.
Qed.

(** The node that moves, as the invariant has it. *)
Lemma world_node w h st pc : world_ok w -> lw_nodes w h = {| ln_status := st; ln_pc := pc |} ->
  (pc = LpIdle \/ ObjectIdValid h = true) /\
  (ObjectIdValid h = true -> node_ok (lw_store w) (lw_now w) h {| ln_status := st; ln_pc := pc |}).
Proof. intros [_ N] E. pose proof (N h) as Nh. by rewrite E in Nh. Qed.

(** The calls, and their replies. *)
Lemma took_ok w h st pc s rs : world_ok w -> lw_nodes w h = {| ln_status := st; ln_pc := pc |} -> pc <> LpIdle ->
  lease_take zone h (lw_now w) (lw_store w) = (s, rs) ->
  world_ok (set_node h st (LpRenewed rs) (with_lease s w)) /\ world_ok (set_node h st (LpClaimed rs) (with_lease s w)).
Proof.
  intros W E Hpc Et. destruct (world_node _ _ _ _ W E) as [[?|Hid] Hn]; [done|]. destruct (Hn Hid) as [Hst _].
  assert (Hl : ZoneletLeader st = h -> holds s (lw_now w) h (ZoneletLeaderUpdated st)).
  { intros Hl. eapply holds_take; [apply W|done|auto]. }
  split; (apply world_ok_set; [by eapply world_ok_take|by right|]; intros _; split; [done|]; cbn [ln_pc];
          destruct rs; [by eapply taken_holds|done|done]).
Qed.
Lemma read_ok w h st : world_ok w -> lw_nodes w h = {| ln_status := st; ln_pc := LpRead |} ->
  world_ok (set_node h st (LpReadDone (lease_read (lw_store w) (lw_now w) (NsZoneletLeader zone))) w).
Proof.
  intros W E. destruct (world_node _ _ _ _ W E) as [[?|Hid] Hn]; [done|]. destruct (Hn Hid) as [Hst _].
  apply world_ok_set; [done|by right|]. intros _. split; [done|]. cbn [ln_pc].
  destruct (lease_read _ _ _) as [[|it items]| |] eqn:Er; [done| |done..].
  destruct (lease_read_ok _ _ _ _ _ Er) as [Hat _]. destruct (proj1 W it Hat) as (Hv & _). split; [done|]. intros Hh.
  right. exists it. split_and!; [done|done|lia].
Qed.
Lemma idle_ok w h st pc st' : world_ok w -> lw_nodes w h = {| ln_status := st; ln_pc := pc |} ->
  (node_ok (lw_store w) (lw_now w) h {| ln_status := st; ln_pc := pc |} ->
   ZoneletLeader st' = h -> holds (lw_store w) (lw_now w) h (ZoneletLeaderUpdated st')) ->
  world_ok (set_node h st' LpIdle w).
Proof.
  intros W E Hst. destruct (world_node _ _ _ _ W E) as [_ Hn]. apply world_ok_set; [done|by left|]. intros Hid.
  split; [by apply Hst, Hn|done].
Qed.

Lemma unknown_holds s now h : ObjectIdValid h = true -> ZoneletLeader leader_unknown = h -> holds s now h 0.
Proof. intros Hid E. cbn in E. subst h. by vm_compute in Hid. Qed.

Lemma step_ok skew w w' : leader_step zone skew w w' -> world_ok w -> world_ok w'.
Proof.
  intros St W. destruct St as [d w Hd|h w st Hid E|h w st s rs E Et|h w st rs E|h w st E|h w st rs st' force E Er|h w st rs E Er
    |h w st s rs E Et|h w st rs E|h w s rs Hid Et|h w].
  - destruct W as [WF N]. split; cbn [lw_now lw_store lw_nodes].
    + intros it Hat. destruct (WF it Hat) as (? & ? & ?). split_and!; [done|lia|done].
    + intros h. destruct (N h) as [Hpc Hn]. split; [done|]. intros Hh. eapply node_ok_later; [|by apply Hn].
      intros u. apply holds_later. lia.
  - destruct (world_node _ _ _ _ W E) as [_ Hn]. destruct (Hn Hid) as [Hst _]. apply world_ok_set; [done|by right|].
    intros _. split; [done|]. cbn [ln_pc]. by destruct (node_is_leader _ _ _).
  - by eapply took_ok.
  - eapply idle_ok; [done..|]. intros [Hst Hpc]. destruct rs; cbn [on_renewed ln_status ln_pc ZoneletLeader ZoneletLeaderUpdated] in *; auto.
  - by apply read_ok.
  - eapply idle_ok; [done..|]. intros [Hst Hpc]. destruct rs as [[|it items]| |m]; cbn [on_read ln_status ln_pc] in *;
      [by injection Er as <- _| |done|by injection Er as <- _].
    destruct Hpc as [Hv Hh]. replace st' with (fst (on_seen it st)) by (by destruct (on_seen it st); injection Er as -> _).
    by apply seen_holds.
  - destruct (world_node _ _ _ _ W E) as [[?|Hid] Hn]; [done|]. destruct (Hn Hid) as [Hst _]. apply world_ok_set; [done|by right|].
    intros _. by split.
  - by eapply took_ok.
  - eapply idle_ok; [done..|]. intros [Hst Hpc].
    destruct rs; cbn [on_claimed fst ln_status ln_pc ZoneletLeader ZoneletLeaderUpdated] in *; auto.
  - by eapply world_ok_take.
  - apply world_ok_set; [done|by left|]. intros Hid. split; [by apply unknown_holds|done].
Qed.

Lemma start_ok w : leader_start zone w -> world_ok w.
Proof.
  intros [Hat Hn]. split.
  - intros it E. unfold lease_key in E. by rewrite Hat in E.
  - intros h. rewrite Hn. split; [by left|]. intros Hid. split; [by apply unknown_holds|done].
Qed.

Lemma steps_ok skew w w' : rtc (leader_step zone skew) w w' -> world_ok w -> world_ok w'.
Proof. induction 1 as [w|w w1 w' St _ IH]; [done|]. intros W. apply IH. by eapply step_ok. Qed.

Lemma leader_of_lease skew w h : world_ok w -> ObjectIdValid h = true -> 0 <= skew h -> node_is_leader skew h w = true ->
  exists it, lease_at (lw_store w) lease_key = Some it /\ li_value it = h.
Proof.
  intros [_ N] Hid Hs E. unfold node_is_leader, IsZoneletLeader in E. apply andb_true_iff in E as [El Et].
  apply bool_decide_eq_true in El. apply Z.ltb_lt in Et. destruct (proj2 (N h) Hid) as [Hst _].
  destruct (Hst El) as [Hu|(it & Hat & Hv & _)]; [lia|by exists it].
Qed.
End inv.

(** * One leader *)

(** C35: whatever the interleaving of the passes of the hosts of a zone with the writes of
    the lease that are lost, late or repeated and with restarts, from a zone that never had
    a leader: two hosts that take themselves for the leader at one moment are one host,
    provided that no clock of a host is behind that of the store. *)
Theorem single_leader {L} `{LL : LeaseLaws L} zone skew (w w' : leader_world L) h1 h2
  (Hstart : leader_start zone w) (Hrun : rtc (leader_step zone skew) w w')
  (Hclock : forall h, 0 <= skew h)
  (Hid1 : ObjectIdValid h1 = true) (Hid2 : ObjectIdValid h2 = true)
  (Hl1 : node_is_leader skew h1 w' = true) (Hl2 : node_is_leader skew h2 w' = true) : h1 = h2.
Proof.
  assert (W : world_ok zone w') by (eapply steps_ok; [done|by apply start_ok]).
  destruct (leader_of_lease zone skew w' h1) as (it1 & E1 & <-); [done..|].
  destruct (leader_of_lease zone skew w' h2) as (it2 & E2 & <-); [done..|]. congruence.
Qed.

(** * The pass of one host *)

Section pass.
Context {L : Type} `{LL : LeaseLaws L}.
Variables (zone h : string).
Hypothesis Hzone : zone <> "".

Lemma pass_zone tn t1 t2 st (s : L) : leader_pass zone h tn t1 t2 st s =
  if IsZoneletLeader h tn st then
    let '(s, rs) := lease_take zone h t1 s in (on_renewed rs st, false, s)
  else match on_read (lease_read s t1 (NsZoneletLeader zone)) st with
  | Some (st, force) => (st, force, s)
  | None => let '(s, rs) := lease_take zone h t2 s in let '(st, force) := on_claimed h rs st in (st, force, s)
  end.
Proof. unfold leader_pass. by rewrite bool_decide_eq_false_2. Qed.

(** A leader that renews leads on for the whole time to live after the write; the status
    changes by the renewal only. *)
Theorem renewed_leads_on tn t1 t2 st (s s' : L) it t :
  IsZoneletLeader h tn st = true -> lease_take zone h t1 s = (s', KvOk it) -> t < t1 + ZoneletLeaderTTL ->
  exists st', leader_pass zone h tn t1 t2 st s = (st', false, s') /\ IsZoneletLeader h t st' = true.
Proof.
  intros Hl E Ht. rewrite pass_zone, Hl, E. eexists. split; [done|].
  unfold lease_take in E. destruct (lease_write_ok _ _ _ _ _ _ _ _ E) as (_ & _ & Hu & _).
  apply andb_true_iff in Hl as [El _]. unfold IsZoneletLeader. cbn [on_renewed ZoneletLeader ZoneletLeaderUpdated].
  rewrite El, Hu. apply Z.ltb_lt in Ht. by rewrite Ht.
Qed.

(** A lease that ran out: the pass of the first host whose write gets through makes it the
    leader, its keys are read again. *)
Theorem expired_lease_taken tn t1 t2 st (s s' : L) it t :
  IsZoneletLeader h tn st = false -> lease_read s t1 (NsZoneletLeader zone) = KvNotFound ->
  lease_take zone h t2 s = (s', KvOk it) -> t < t2 + ZoneletLeaderTTL ->
  exists st', leader_pass zone h tn t1 t2 st s = (st', true, s') /\ IsZoneletLeader h t st' = true.
Proof.
  intros Hl Er E Ht. rewrite pass_zone, Hl, Er. cbn [on_read]. rewrite E. eexists. split; [done|].
  unfold lease_take in E. destruct (lease_write_ok _ _ _ _ _ _ _ _ E) as (_ & _ & Hu & _).
  unfold IsZoneletLeader. cbn [on_claimed fst ZoneletLeader ZoneletLeaderUpdated].
  rewrite Hu, bool_decide_eq_true_2 by done. apply Z.ltb_lt in Ht. by rewrite Ht.
Qed.

(** A lease another host holds is followed, and is not touched. *)
Theorem held_lease_followed tn t1 t2 st (s : L) it items :
  IsZoneletLeader h tn st = false -> lease_read s t1 (NsZoneletLeader zone) = KvOk (it :: items) ->
  ObjectIdValid (li_value it) = true -> li_value it <> h ->
  exists st' force, leader_pass zone h tn t1 t2 st s = (st', force, s) /\ ZoneletLeader st' = li_value it /\
    forall t, IsZoneletLeader h t st' = false.
Proof.
  intros Hl Er Hid Hne. rewrite pass_zone, Hl, Er. cbn [on_read]. do 2 eexists. split; [done|].
  assert (E : ZoneletLeader (fst (on_seen it st)) = li_value it).
  { unfold on_seen, leader_news. cbn [fst ZoneletLeader]. rewrite Hid. case_bool_decide as Hv; cbn [negb andb orb]; [|done].
    by destruct (_ <? _). }
  cbn [fst on_seen ZoneletLeader] in *. split; [done|]. intros t. unfold IsZoneletLeader. cbn [ZoneletLeader].
  by rewrite E, bool_decide_eq_false_2.
Qed.
(** Each renewal the host sees is news to it, although the leader is the same: a host that
    follows reads its keys again after every renewal. *)
Theorem renewal_is_news tn t1 t2 st (s : L) it items :
  IsZoneletLeader h tn st = false -> lease_read s t1 (NsZoneletLeader zone) = KvOk (it :: items) ->
  ObjectIdValid (li_value it) = true -> ZoneletLeader st = li_value it -> ZoneletLeaderVersion st < li_version it ->
  exists st', leader_pass zone h tn t1 t2 st s = (st', true, s).
Proof.
  intros Hl Er Hid Hv Hn. rewrite pass_zone, Hl, Er. cbn [on_read]. eexists. unfold on_seen at 1.
  replace (leader_news it st) with true; [done|]. unfold leader_news. rewrite Hid.
  apply Z.ltb_lt in Hn. rewrite Hn. by destruct (bool_decide _).
Qed.
End pass.

(** * Runs *)

Definition hostA : string := "aaaaaaaaaaaa".
Definition hostB : string := "bbbbbbbbbbbb".
Definition world_0 : leader_world lease_mem := {| lw_now := 20000; lw_store := ∅; lw_nodes := fun _ => leader_boot |}.

(** The pass of a host with nothing between its calls, as steps. *)
Lemma pass_claim_steps skew (w : leader_world lease_mem) h st s it : ObjectIdValid h = true ->
  lw_nodes w h = {| ln_status := st; ln_pc := LpIdle |} -> node_is_leader skew h w = false ->
  lease_read (lw_store w) (lw_now w) (NsZoneletLeader "z") = KvNotFound ->
  lease_take "z" h (lw_now w) (lw_store w) = (s, KvOk it) ->
  exists w', rtc (leader_step "z" skew) w w' /\ lw_now w' = lw_now w /\ lw_store w' = s /\
    lw_nodes w' h = {| ln_status := fst (on_claimed h (KvOk it) st); ln_pc := LpIdle |} /\
    forall h', h' <> h -> lw_nodes w' h' = lw_nodes w h'.
Proof.
  intros Hid En Hl Er Et. eexists. split.
  - eapply rtc_l; [by eapply (ls_begin _ _ h)|]. rewrite Hl.
    eapply rtc_l; [eapply (ls_read _ _ h); apply fn_lookup_insert|].
    eapply rtc_l; [eapply (ls_absent _ _ h); [apply fn_lookup_insert|]; cbn [set_node lw_store lw_now]; by rewrite Er|].
    eapply rtc_l; [eapply (ls_claim _ _ h); [apply fn_lookup_insert|exact Et]|].
    eapply rtc_l; [eapply (ls_claimed _ _ h); apply fn_lookup_insert|]. apply rtc_refl.
  - cbn [set_node with_lease lw_now lw_store lw_nodes]. do 2 (split; [done|]). split; [apply fn_lookup_insert|].
    intros h' Hne. by rewrite !fn_lookup_insert_ne.
Qed.

Lemma claim_at skew (w : leader_world lease_mem) h st : ObjectIdValid h = true ->
  lw_nodes w h = {| ln_status := st; ln_pc := LpIdle |} -> node_is_leader skew h w = false ->
  lease_live (lw_now w) (lw_store w !! NsZoneletLeader "z") = None ->
  exists w', rtc (leader_step "z" skew) w w' /\ lw_now w' = lw_now w /\
    (forall h', h' <> h -> lw_nodes w' h' = lw_nodes w h') /\
    (exists st', lw_nodes w' h = {| ln_status := st'; ln_pc := LpIdle |} /\ ZoneletLeader st' = h /\ ZoneletLeaderUpdated st' = lw_now w) /\
    exists it, lw_store w' !! NsZoneletLeader "z" = Some it /\ li_expired it = lw_now w + ZoneletLeaderTTL.
Proof.
  intros Hid En Hl El. set (it := {| li_value := h; li_version := match lw_store w !! NsZoneletLeader "z" with Some old => li_version old | None => 0 end + 1; li_updated := lw_now w; li_expired := lw_now w + ZoneletLeaderTTL |}).
  destruct (pass_claim_steps skew w h st (<[NsZoneletLeader "z" := it]> (lw_store w)) it Hid En Hl) as (w' & R & Hn & Hs & Hh & Ho).
  - cbn [lease_read lease_mem_Lease]. by rewrite El.
  - unfold lease_take. cbn [lease_write lease_mem_Lease]. rewrite El. reflexivity.
  - exists w'. do 3 (split; [done|]). split; [by eexists|]. exists it. split; [|done]. rewrite Hs. apply lookup_insert_eq.
Qed.

Lemma claim_first skew : exists w, rtc (leader_step "z" skew) world_0 w /\ lw_now w = 20000 /\
  (forall h', h' <> hostA -> lw_nodes w h' = leader_boot) /\
  (exists st', lw_nodes w hostA = {| ln_status := st'; ln_pc := LpIdle |} /\ ZoneletLeader st' = hostA /\ ZoneletLeaderUpdated st' = 20000) /\
  exists it, lw_store w !! NsZoneletLeader "z" = Some it /\ li_expired it = 32000.
Proof. by apply (claim_at skew world_0 hostA leader_unknown). Qed.

Example single_leader_witness : exists w', rtc (leader_step "z" (fun _ => 0)) world_0 w' /\
  node_is_leader (fun _ => 0) hostA w' = true /\
  forall h2, ObjectIdValid h2 = true -> node_is_leader (fun _ => 0) h2 w' = true -> hostA = h2.
Proof.
  destruct (claim_first (fun _ => 0)) as (w & R & Hn & _ & (st & Hs & El & Eu) & _). exists w.
  assert (Hl : node_is_leader (fun _ => 0) hostA w = true).
  { unfold node_is_leader, IsZoneletLeader. rewrite Hs. cbn [ln_status]. rewrite El, Eu, Hn. reflexivity. }
  split; [done|]. split; [done|]. intros h2 Hid Hl2.
  apply (single_leader "z" (fun _ => 0) world_0 w hostA h2); try done.
Defined.

(** A clock that is behind that of the store: the host leads on while the next one leads. *)
Definition behind (h : string) : Z := if bool_decide (h = hostA) then -1000 else 0.
Theorem clock_behind_two_leaders : exists w', rtc (leader_step "z" behind) world_0 w' /\
  node_is_leader behind hostA w' = true /\ node_is_leader behind hostB w' = true.
Proof.
  destruct (claim_first behind) as (w & R & Hn & Ho & (st & Hs & El & Eu) & (it & Hit & Hx)).
  pose (w1 := {| lw_now := lw_now w + 12000; lw_store := lw_store w; lw_nodes := lw_nodes w |}).
  destruct (claim_at behind w1 hostB leader_unknown) as (w2 & R2 & Hn2 & Ho2 & (st2 & Hs2 & El2 & Eu2) & _).
  - done.
  - by apply Ho.
  - unfold node_is_leader, w1. cbn [lw_nodes]. by rewrite Ho.
  - unfold w1. cbn [lw_now lw_store]. rewrite Hit. cbn [lease_live]. by rewrite Hx, Hn.
  - exists w2. split; [|split].
    + etrans; [exact R|]. eapply rtc_l; [by apply (ls_tick _ _ 12000)|]. exact R2.
    + unfold node_is_leader, IsZoneletLeader. rewrite Ho2 by done. unfold w1. cbn [lw_nodes]. rewrite Hs. cbn [ln_status].
      rewrite El, Eu, Hn2. unfold w1. cbn [lw_now]. rewrite Hn. reflexivity.
    + unfold node_is_leader, IsZoneletLeader. rewrite Hs2. cbn [ln_status]. rewrite El2, Eu2, Hn2. unfold w1. cbn [lw_now]. rewrite Hn. reflexivity.
Qed.

(** The time of an item is taken whatever its value: under a holder whose id is not one, a
    host that led before takes itself for the leader again. *)
Theorem invalid_holder_revives zone h tn t1 t2 {L} `{Lease L} (s : L) it items v u :
  zone <> "" -> ObjectIdValid (li_value it) = false -> lease_read s t1 (NsZoneletLeader zone) = KvOk (it :: items) ->
  IsZoneletLeader h tn {| ZoneletLeader := h; ZoneletLeaderUpdated := u; ZoneletLeaderVersion := v |} = false ->
  exists st', leader_pass zone h tn t1 t2 {| ZoneletLeader := h; ZoneletLeaderUpdated := u; ZoneletLeaderVersion := v |} s = (st', false, s) /\
    forall t, t < li_updated it + ZoneletLeaderTTL -> IsZoneletLeader h t st' = true.
Proof.
  intros Hz Hid Er Hl. unfold leader_pass. rewrite bool_decide_eq_false_2, Hl, Er by done. cbn [on_read].
  unfold on_seen, leader_news. rewrite Hid. cbn [andb]. eexists. split; [done|]. intros t Ht.
  unfold IsZoneletLeader. cbn [ZoneletLeader ZoneletLeaderUpdated]. rewrite bool_decide_eq_true_2 by done. by apply Z.ltb_lt.
Qed.
