(* ===== verification/ZoneReport.v ===== *)
(** The report of a host to the leader of its zone, every few seconds, and what the host
    is told to run: [HostStatusUpdate] and [mergeHostReplicaStages] of
    [src/internal/zonelet/service_internal.go].

    The handler works on the sets of the leader through the pointers they hand out, as
    the scheduler pass does, and is one step here; a message of the wire has no nil
    element in a list, and a clone has an empty message where the original has nil. *)
From Stdlib Require Import ZArith Lia.
From S2P Require Import Prelude GoStrings Inet Ns Kv Ipam Stage StateFlow SpecConfig Zone Auth Packages Metrics Refresh AgentStatus.
Local Open Scope string_scope.
Local Open Scope Z_scope.

(** [HostReplicaStageReport], and the request. *)
Record HostReplicaStageReport := { hr_InstanceName : string; hr_ReplicaId : Z; hr_Stages : list AppDeployStage }.
Record HostStatusUpdateRequest := {
  hu_Host : option Host; hu_Status : option HostStatus;
  hu_ReplicaStages : list HostReplicaStageReport; hu_ReplicaMetrics : gmap string (option NodeMetrics) }.

(** A dependency as it is handed out: with the settings and the placed replicas of the
    instance, each with its address if one is known, or [None] as it is recorded. *)
Record HostDepend := {
  dh_Depend : AppDeployDepend;
  dh_Found : option (list (option AppDeployConfigItem) * list (AppDeployReplica * option string)) }.
Record HostInstance := { hi_App : AppInstance; hi_Depends : list HostDepend }.
Record HostStatusUpdateResponse := {
  hu_VpcBridgeIp : string; hu_VpcInstanceCidr : string; hu_ZoneNetworkMap : option (ZoneNetworkMap NetHost);
  hu_AppInstances : list HostInstance }.

Section report.
Context `{Ip6Syntax} {S : Type} `{Kv S zone_value} `{MapRange}.
Context (zone : string).

(** ** What the host is told *)

(** The address of a host: in the network of the zone, or that of its peer address. *)
Definition depend_addr (z : zonelet S) (hostId : string) : option string :=
  match HostPeerIp (zl_net z) hostId with
  | Some ip => Some ip
  | None =>
    match KvSet_Load (zl_hosts z) hostId with
    | Some e =>
      let addr := h_PeerAddr (zh_Host (ke_Value e)) in
      if bool_decide (addr = "") then None
      else match ParsePrivateAddress addr with Ok ip => Some (IP4ToString ip) | Err _ => None end
    | None => None
    end
  end.
Definition depend_replicas (z : zonelet S) (reps : list AppDeployReplica) : list (AppDeployReplica * option string) :=
  map (fun rep => (rep, depend_addr z (dr_HostId rep))) (List.filter (fun rep => negb (unplaced rep)) reps).
Definition host_depend (z : zonelet S) (dep : option AppDeployDepend) : HostDepend :=
  let dep := default {| dd_SpecName := ""; dd_InstanceName := "" |} dep in
  {| dh_Depend := dep;
     dh_Found := match KvSet_Load (zl_apps z) (dd_InstanceName dep) with
                 | Some e =>
                   let d := ai_Deploy (ke_Value e) in
                   if bool_decide (ad_Configs d = []) then None else Some (ad_Configs d, depend_replicas z (ad_Replicas d))
                 | None => None
                 end |}.
Definition runs_on (hostId : string) (app : AppInstance) : bool :=
  existsb (fun rep => bool_decide (dr_HostId rep = hostId)) (ad_Replicas (ai_Deploy app)).
Definition host_instances (z : zonelet S) (hostId : string) : list HostInstance :=
  map (fun app => {| hi_App := app; hi_Depends := map (host_depend z) (ad_Depends (ai_Deploy app)) |})
      (List.filter (runs_on hostId) (map ke_Value (ks_arr (zl_apps z)))).

(** ** What the leader learns *)

Definition set_status (st : gmap string HostStatus) (z : zonelet S) : zonelet S :=
  {| zl_kv := zl_kv z; zl_net := zl_net z; zl_hosts := zl_hosts z; zl_operate := zl_operate z; zl_apps := zl_apps z;
     zl_status := st; zl_force := zl_force z; zl_lastRefreshed := zl_lastRefreshed z;
     zl_bumped := zl_bumped z; zl_allocs := zl_allocs z |}.
Definition put_record {V} `{ZoneVal V} (key : string) (v : V) : pass S unit := fun z =>
  match kv_write (zl_kv z) kv_default key v with
  | (s, KvOk _) => (set_store z s, Ok tt)
  | (s, rs) => (set_store z s, Err (kv_msg rs))
  end.
Definition set_PeerAddr (addr : string) (h : ZoneHost) : ZoneHost :=
  {| zh_Host := {| h_Id := h_Id (zh_Host h); h_PeerAddr := addr; h_Deploy := h_Deploy (zh_Host h) |};
     zh_AccessKey := zh_AccessKey h; zh_Operate := zh_Operate h; zh_Status := zh_Status h |}.
(** A new peer address of the host, which the entry of the set has even if the write fails. *)
Definition update_peer (i : nat) (host : ZoneHost) (addr : string) : pass S unit :=
  if bool_decide (addr = "") || bool_decide (addr = h_PeerAddr (zh_Host host)) then skip
  else match ParsePrivateAddress addr with
  | Err _ => skip
  | Ok _ =>
    _ ← modify (upd_host i (set_PeerAddr addr));
    put_record (NsHostInfo zone (h_Id (zh_Host host))) (set_PeerAddr addr host)
  end.

(** One report of [mergeHostReplicaStages]: the entry of the instance, unless it is deleted. *)
Definition flush_entry (i : nat) : pass S unit := fun z =>
  match Flush (zl_kv z) zone i (zl_apps z) with
  | (s, apps, r) => (set_apps (set_store z s) apps, r)
  end.
Definition merge_report (rpt : HostReplicaStageReport) : pass S unit :=
  z ← get;
  if bool_decide (hr_InstanceName rpt = "") then skip else
  match KvSet_ref (zl_apps z) (hr_InstanceName rpt) with
  | None => skip
  | Some i =>
    match app_at z i with
    | None => skip
    | Some app =>
      if is_deleted app then skip else
      let '(dp, changed) := Stage.mergeHostReplicaStages (ad_Stage (ai_Deploy app)) (hr_ReplicaId rpt) (hr_Stages rpt) in
      _ ← modify (upd_app i (on_deploy (on_stage (fun _ => dp))));
      if changed then logged (flush_entry i) else skip
    end
  end.
Definition merge_reports (reports : list HostReplicaStageReport) : pass S unit := for_each reports merge_report.

Definition merge_metrics (reports : gmap string (option NodeMetrics)) (c : replicaMetricsCache) : replicaMetricsCache :=
  foldr (fun kv c => metrics_store (fst kv) (snd kv) c) c (map_to_list reports).

(** ** The handler *)

Definition report_valid (who : caller) (req : HostStatusUpdateRequest) (z : zonelet S) : result (Host * HostStatus) :=
  if negb (cl_leader who && ks_ready (zl_apps z)) then Err "zonelet leader not ready" else
  match hu_Host req, hu_Status req with
  | Some host, Some st =>
    if negb (ObjectIdValid (h_Id host)) then Err "invalid host_id"
    else let? _ := authAllow (cl_key who) (AuthScope_Host_Write +:+ ":" +:+ h_Id host) in Ok (host, st)
  | _, _ => Err "bad request"
  end.

Definition report_response (z : zonelet S) (hostId : string) (deploy : option HostDeploy) : HostStatusUpdateResponse :=
  {| hu_VpcBridgeIp := match deploy with Some d => hd_VpcBridgeIp d | None => "" end;
     hu_VpcInstanceCidr := match deploy with Some d => hd_VpcInstanceCidr d | None => "" end;
     hu_ZoneNetworkMap := if nm_ready (zl_net z) then snapshot (nm_heap (zl_net z)) <$> nm_Map (zl_net z) else None;
     hu_AppInstances := host_instances z hostId |}.

(** The writes: the status, then the peer address, with what the host is to do, then the stages. *)
Definition report_pass (host : Host) (st : HostStatus) (reports : list HostReplicaStageReport) : pass S HostStatusUpdateResponse :=
  _ ← put_record (NsHostStatus zone (h_Id host)) st;
  _ ← modify (fun z => set_status (<[h_Id host := st]> (zl_status z)) z);
  z ← get;
  let known := KvSet_ref (zl_hosts z) (h_Id host) in
  let cached := i ← known; host_at z i in
  _ ← match known, cached with
      | Some i, Some h => update_peer i h (h_PeerAddr host)
      | _, _ => skip
      end;
  z ← get;
  let resp := report_response z (h_Id host) (h ← cached; h_Deploy (zh_Host h)) in
  _ ← merge_reports reports;
  mret resp.
Definition HostStatusUpdate (who : caller) (now : Z) (req : HostStatusUpdateRequest) (z : zonelet S) (c : replicaMetricsCache)
  : zonelet S * replicaMetricsCache * result HostStatusUpdateResponse :=
  match report_valid who req z with
  | Err e => (z, c, Err e)
  | Ok (host, st) =>
    match report_pass host st (hu_ReplicaStages req) z with
    | (z, Err e) => (z, c, Err e)
    | (z, Ok resp) => (z, metrics_sweep now replicaMetricsMaxAge (merge_metrics (hu_ReplicaMetrics req) c), Ok resp)
    end
  end.
End report.
