(* ===== verification/ZoneReportLogic.v ===== *)
(** The report of a host changes the leader's view of that host, and of the instances it
    names the stages only; what the host is told is what the leader holds. *)
From Stdlib Require Import ZArith Lia.
From S2P Require Import Prelude GoStrings Inet Ns Kv Ipam Stage StateFlow SpecConfig Zone Auth Packages Metrics Refresh RefreshLogic RefreshPlace RefreshDeleted AgentStatus ZoneReport.
Local Open Scope string_scope.
Local Open Scope Z_scope.

(** * What a report leaves alone *)

(** An instance without its stages. *)
Definition shape (a : AppInstance) : AppInstance :=
  on_deploy (on_stage (fun dp => {| dp_Revision := dp_Revision dp; dp_Stages := None |})) a.
Definition reportable (named : list string) (a : AppInstance) : Prop := is_deleted a = false /\ ai_Name a ∈ named.

Section frame.
Context `{Ip6Syntax} {S : Type} `{KvLaws S zone_value} `{MapRange}.
Context (zone hostId addr : string) (named : list string).
Implicit Types z : zonelet S.

(** Of a cached host only the reporting one may change, and of that the peer address only,
    to the one it reports. *)
Definition host_kept (e e' : KvEntry ZoneHost) : Prop :=
  ke_Meta e' = ke_Meta e /\ set_PeerAddr "" (ke_Value e') = set_PeerAddr "" (ke_Value e) /\
  (h_Id (zh_Host (ke_Value e)) <> hostId -> e' = e) /\
  (h_PeerAddr (zh_Host (ke_Value e')) = h_PeerAddr (zh_Host (ke_Value e)) \/ h_PeerAddr (zh_Host (ke_Value e')) = addr).

Definition entry_kept (e e' : KvEntry AppInstance) : Prop :=
  shape (ke_Value e') = shape (ke_Value e) /\ (~ reportable named (ke_Value e) -> e' = e).
(** The records a report may write. *)
Definition reported_key z (k : string) : Prop :=
  k = NsHostStatus zone hostId \/ k = NsHostInfo zone hostId \/
  exists e, e ∈ ks_arr (zl_apps z) /\ reportable named (ke_Value e) /\ k = NsAppInstance zone (ai_Name (ke_Value e)).
Record report_frame z z' : Prop := {
  rf_apps : Forall2 entry_kept (ks_arr (zl_apps z)) (ks_arr (zl_apps z'));
  rf_idx : ks_idx (zl_apps z') = ks_idx (zl_apps z) /\ with_arr (zl_hosts z') [] = with_arr (zl_hosts z) [];
  rf_hosts : Forall2 host_kept (ks_arr (zl_hosts z)) (ks_arr (zl_hosts z'));
  rf_rest : (zl_net z', zl_operate z', zl_bumped z', zl_allocs z', zl_force z', zl_lastRefreshed z') =
            (zl_net z, zl_operate z, zl_bumped z, zl_allocs z, zl_force z, zl_lastRefreshed z);
  rf_status : forall id, id <> hostId -> zl_status z' !! id = zl_status z !! id;
  rf_store : forall k, ~ reported_key z k -> kv_read (V := zone_value) (zl_kv z') k = kv_read (zl_kv z) k }.

(** The indexes of the sets name their entries. *)
Definition sets_ok z : Prop :=
  (forall n i a, ks_idx (zl_apps z) !! n = Some i -> app_at z i = Some a -> ai_Name a = n) /\
  (forall n i h, ks_idx (zl_hosts z) !! n = Some i -> host_at z i = Some h -> h_Id (zh_Host h) = n).

Lemma shape_name a a' : shape a' = shape a -> ai_Name a' = ai_Name a /\ is_deleted a' = is_deleted a.
Proof. intros E. split; [exact (f_equal ai_Name E)|]. unfold is_deleted. by rewrite (f_equal (fun a => ad_Action (ai_Deploy a)) E : ad_Action (ai_Deploy a') = _). Qed.
Lemma reportable_shape a a' : shape a' = shape a -> reportable named a' <-> reportable named a.
Proof. intros [E1 E2]%shape_name. unfold reportable. by rewrite E1, E2. Qed.

#[local] Instance entry_kept_trans : Transitive entry_kept.
Proof.
  intros e1 e2 e3 [A1 B1] [A2 B2]. split; [congruence|]. intros Hn. rewrite B2; [by apply B1|]. by rewrite (reportable_shape _ _ A1).
Qed.
Lemma host_kept_refl e : host_kept e e.
Proof. split_and!; [done..|by left]. Qed.
#[local] Instance host_kept_trans : Transitive host_kept.
Proof.
  intros e1 e2 e3 (M1 & V1 & K1 & P1) (M2 & V2 & K2 & P2). split_and!; [congruence|congruence| |].
  - intros Hne. rewrite K2; [by apply K1|]. by rewrite K1.
  - destruct P2 as [->|P2]; [exact P1|by right].
Qed.
Lemma Forall2_refl_of {A} (R : A -> A -> Prop) l : (forall x, R x x) -> Forall2 R l l.
Proof. intros Hr. induction l; by constructor. Qed.
Lemma frame_refl z : report_frame z z.
Proof. split; try done; apply Forall2_refl_of; [done|apply host_kept_refl]. Qed.
Lemma reported_key_frame z z' k : report_frame z z' -> reported_key z' k -> reported_key z k.
Proof.
  intros F [?|[?|(e & He & Hr & ->)]]; [by left|by right; left|]. right. right.
  apply list_elem_of_lookup in He as [i Ei]. destruct (Forall2_lookup_r _ _ _ _ _ (rf_apps _ _ F) Ei) as (e0 & E0 & [Ksh _]).
  exists e0. split; [by eapply list_elem_of_lookup_2|]. split; [by apply (reportable_shape _ _ Ksh)|]. by rewrite (proj1 (shape_name _ _ Ksh)).
Qed.
Lemma frame_trans z1 z2 z3 : report_frame z1 z2 -> report_frame z2 z3 -> report_frame z1 z3.
Proof.
  intros F1 F2. split.
  - etrans; [apply F1|apply F2].
  - destruct (rf_idx _ _ F1), (rf_idx _ _ F2). split; congruence.
  - etrans; [apply F1|apply F2].
  - by rewrite (rf_rest _ _ F2), (rf_rest _ _ F1).
  - intros id Hid. by rewrite (rf_status _ _ F2), (rf_status _ _ F1).
  - intros k Hk. rewrite (rf_store _ _ F2), (rf_store _ _ F1); [done|done|]. intros C. by apply Hk, (reported_key_frame _ _ _ F1).
Qed.
Lemma sets_ok_frame z z' : report_frame z z' -> sets_ok z -> sets_ok z'.
Proof.
  intros F [A B]. destruct (rf_idx _ _ F) as [I1 I2]. split.
  - intros n i a Hn Ha. rewrite I1 in Hn. unfold app_at in Ha. apply fmap_Some in Ha as (e' & Ee & ->).
    destruct (Forall2_lookup_r _ _ _ _ _ (rf_apps _ _ F) Ee) as (e & E0 & [Ksh _]).
    rewrite (proj1 (shape_name _ _ Ksh)). apply (A n i); [done|]. unfold app_at. by rewrite E0.
  - intros n i h Hn Ha. assert (I3 : ks_idx (zl_hosts z') = ks_idx (zl_hosts z)) by (exact (f_equal ks_idx I2)). rewrite I3 in Hn.
    unfold host_at in Ha. apply fmap_Some in Ha as (e' & Ee & ->).
    destruct (Forall2_lookup_r _ _ _ _ _ (rf_hosts _ _ F) Ee) as (e & E0 & _ & Ksh & _).
    rewrite <- (B n i (ke_Value e)); [exact (f_equal (fun h => h_Id (zh_Host h)) Ksh)|done|]. unfold host_at. by rewrite E0.
Qed.

(** A computation of the report. *)
Definition framed {A} (m : pass S A) : Prop := forall z, sets_ok z -> report_frame z (fst (m z)).
Lemma framed_bind {A B} (m : pass S A) (k : A -> pass S B) : framed m -> (forall a, framed (k a)) -> framed (m ≫= k).
Proof.
  intros Hm Hk z Hz. unfold mbind, pass_bind. specialize (Hm z Hz). destruct (m z) as [z1 [a|e]]; cbn [fst] in *; [|done].
  eapply frame_trans; [done|]. apply Hk. by eapply sets_ok_frame.
Qed.
Lemma framed_ret {A} (a : A) : framed (mret a).
Proof. intros z _. apply frame_refl. Qed.
Lemma framed_each {A} (l : list A) body : (forall x, x ∈ l -> framed (body x)) -> framed (for_each l body).
Proof.
  induction l as [|x l IH]; intros Hb; [apply framed_ret|]. apply framed_bind; [apply Hb; set_solver|intros _]. apply IH. set_solver.
Qed.

Lemma framed_put {V} `{ZoneVal V} k (v : V) : k = NsHostStatus zone hostId \/ k = NsHostInfo zone hostId -> framed (put_record k v).
Proof.
  intros Hk z _. unfold put_record. destruct (kv_write _ _ _ _) as [s rs] eqn:Ew.
  assert (F : report_frame z (set_store z s)).
  { destruct (frame_refl z). split; try done. intros k' Hk'. eapply write_other; [exact Ew|]. intros ->. apply Hk'. unfold reported_key. tauto. }
  destruct rs; exact F.
Qed.

(** Entries that change at one position. *)
Lemma kept_at (l : list (KvEntry AppInstance)) i e e' : l !! i = Some e -> reportable named (ke_Value e) ->
  shape (ke_Value e') = shape (ke_Value e) -> Forall2 entry_kept l (<[i := e']> l).
Proof.
  intros Ei Hr Hs. apply Forall2_same_length_lookup_2; [by rewrite length_insert|]. intros j x y Ex Ey.
  destruct (decide (i = j)) as [<-|Hj].
  - rewrite list_lookup_insert_eq in Ey by (by eapply lookup_lt_Some). injection Ey as <-. rewrite Ei in Ex. injection Ex as <-. by split.
  - rewrite list_lookup_insert_ne in Ey by done. simplify_eq. by split.
Qed.
Lemma frame_entry z z' i e e' : ks_arr (zl_apps z) !! i = Some e -> reportable named (ke_Value e) ->
  shape (ke_Value e') = shape (ke_Value e) ->
  (zl_apps z', zl_hosts z', zl_net z', zl_operate z', zl_bumped z', zl_allocs z', zl_status z', zl_force z', zl_lastRefreshed z') =
  (with_arr (zl_apps z) (<[i := e']> (ks_arr (zl_apps z))), zl_hosts z, zl_net z, zl_operate z, zl_bumped z, zl_allocs z, zl_status z,
   zl_force z, zl_lastRefreshed z) ->
  (forall k, k <> NsAppInstance zone (ai_Name (ke_Value e)) -> kv_read (V := zone_value) (zl_kv z') k = kv_read (zl_kv z) k) ->
  report_frame z z'.
Proof.
  intros Ei Hr Hs [= Ea Eh En Eo Eb El Es Ef Et] Hk. split.
  - rewrite Ea. by eapply kept_at.
  - by rewrite Ea, Eh.
  - rewrite Eh. apply Forall2_refl_of, host_kept_refl.
  - congruence.
  - intros id _. by rewrite Es.
  - intros k Hn. apply Hk. intros ->. apply Hn. right. right. exists e. split; [by eapply list_elem_of_lookup_2|done].
Qed.

Lemma upd_app_insert i f z e : ks_arr (zl_apps z) !! i = Some e ->
  zl_apps (upd_app i f z) = with_arr (zl_apps z) (<[i := Entry (ke_Meta e) (f (ke_Value e))]> (ks_arr (zl_apps z))).
Proof.
  intros Ei. unfold upd_app. cbn [zl_apps set_apps]. f_equal.
  apply list_eq. intros j. rewrite list_lookup_alter. destruct (decide (i = j)) as [<-|Hj].
  - by rewrite list_lookup_insert_eq, Ei by (by eapply lookup_lt_Some).
  - by rewrite list_lookup_insert_ne.
Qed.

Lemma framed_flush i z : sets_ok z -> (forall a, app_at z i = Some a -> reportable named a) -> report_frame z (fst (flush_entry zone i z)).
Proof.
  intros _ Hr. unfold flush_entry, Flush. destruct (ks_arr (zl_apps z) !! i) as [e|] eqn:Ei; [|by destruct (frame_refl z)].
  specialize (Hr (ke_Value e)). unfold app_at in Hr. rewrite Ei in Hr. specialize (Hr eq_refl).
  destruct (kv_write _ _ _ _) as [s rs] eqn:Ew.
  assert (Hk : forall k, k <> NsAppInstance zone (ai_Name (ke_Value e)) -> kv_read (V := zone_value) s k = kv_read (zl_kv z) k)
    by (intros k Hk; eapply write_other; [exact Ew|done]).
  destruct rs as [v| |m]; cbn [fst].
  - by apply (frame_entry z _ i e (Entry (Some v) (ke_Value e))).
  - apply (frame_entry z _ i e e); try done. cbn. rewrite list_insert_id by done. by destruct (zl_apps z).
  - apply (frame_entry z _ i e e); try done. cbn. rewrite list_insert_id by done. by destruct (zl_apps z).
Qed.

Lemma framed_merge rpt : hr_InstanceName rpt ∈ named -> framed (merge_report zone rpt).
Proof.
  intros Hn z Hz. unfold merge_report. rewrite get_unfold. case_bool_decide; [apply frame_refl|].
  destruct (KvSet_ref _ _) as [i|] eqn:Er; [|apply frame_refl]. destruct (app_at z i) as [a|] eqn:Ea; [|apply frame_refl].
  destruct (is_deleted a) eqn:Ed; [apply frame_refl|].
  destruct (Stage.mergeHostReplicaStages _ _ _) as [dp ch] eqn:Em.
  assert (Hrev : dp_Revision dp = dp_Revision (ad_Stage (ai_Deploy a))) by (unfold Stage.mergeHostReplicaStages in Em; by injection Em as <- _).
  assert (Hr : reportable named a) by (split; [done|]; by rewrite (proj1 Hz _ _ _ Er Ea)).
  rewrite modify_unfold. set (f := on_deploy _). set (z1 := upd_app i f z).
  assert (Hs : shape (f a) = shape a) by (unfold shape, f, on_deploy, on_stage; cbn [ai_Id ai_Name ai_Spec ai_Deploy ai_RefByInstances ad_Action ad_Stage ad_CpuLimit ad_MemoryLimit ad_VolumeLimit ad_ReplicaCap ad_Replicas ad_Depends ad_Configs]; by rewrite Hrev).
  assert (F1 : report_frame z z1).
  { unfold app_at in Ea. apply fmap_Some in Ea as (e & Ei & ->). apply (frame_entry z z1 i e (Entry (ke_Meta e) (f (ke_Value e)))); [done|done|exact Hs| |done].
    unfold z1 at 1. by rewrite (upd_app_insert _ _ _ _ Ei). }
  destruct ch; [|exact F1]. eapply frame_trans; [exact F1|]. apply framed_flush; [by eapply sets_ok_frame|].
  intros a' Ea'. unfold app_at in Ea, Ea'. apply fmap_Some in Ea as (e & Ei & ->). unfold z1 in Ea'. rewrite (upd_app_insert _ _ _ _ Ei) in Ea'.
  cbn in Ea'. rewrite list_lookup_insert_eq in Ea' by (by eapply lookup_lt_Some). injection Ea' as <-. by apply (reportable_shape _ _ Hs).
Qed.

Lemma peer_frame i host z : h_Id (zh_Host host) = hostId -> host_at z i = Some host -> sets_ok z ->
  report_frame z (fst (update_peer zone i host addr z)).
Proof.
  intros Hid Hat Hz. unfold update_peer. destruct (_ || _); [apply frame_refl|]. destruct (ParsePrivateAddress addr); [|apply frame_refl].
  rewrite modify_unfold. set (z1 := upd_host i (set_PeerAddr addr) z).
  assert (F1 : report_frame z z1).
  { destruct (frame_refl z). split; try done. cbn. apply Forall2_same_length_lookup_2; [by rewrite length_alter|]. intros k e e' Ek Ek'.
    destruct (decide (i = k)) as [->|Hik]; [rewrite list_lookup_alter_eq, Ek in Ek'|rewrite list_lookup_alter_ne, Ek in Ek' by done];
      injection Ek' as <-; [|apply host_kept_refl]. unfold host_at in Hat. rewrite Ek in Hat. injection Hat as Hat. split_and!; [done|by destruct (ke_Value e) as [[]]| |by right].
    intros Hne. destruct Hne. by rewrite Hat. }
  eapply frame_trans; [exact F1|]. rewrite Hid. apply framed_put; [by right|]. by eapply sets_ok_frame.
Qed.

Lemma framed_pass host st reports : h_Id host = hostId -> h_PeerAddr host = addr -> (forall rpt, rpt ∈ reports -> hr_InstanceName rpt ∈ named) ->
  framed (report_pass zone host st reports).
Proof.
  intros Hid Had Hn. unfold report_pass. apply framed_bind; [apply framed_put; left; by rewrite Hid|intros _].
  apply framed_bind.
  { intros z _. destruct (frame_refl z). split; try done. intros id Hne. cbn. rewrite Hid. by rewrite lookup_insert_ne. }
  intros _ z Hz. rewrite get_unfold. cbv zeta.
  match goal with |- context [mbind _ ?m z] => set (peer := m) end.
  assert (Fp : report_frame z (fst (peer z))).
  { unfold peer. destruct (KvSet_ref _ _) as [i|] eqn:Er; [|apply frame_refl]. cbn. destruct (host_at z i) as [h|] eqn:Eh; [|apply frame_refl].
    rewrite Had. apply peer_frame; [by rewrite (proj2 Hz _ _ _ Er Eh)|done|done]. }
  rewrite (bind_unfold peer). destruct (peer z) as [zp [[]|e]]; cbn [fst] in *; [|done]. eapply frame_trans; [exact Fp|].
  assert (Hzp : sets_ok zp) by (by eapply sets_ok_frame). clear peer Fp. rewrite get_unfold. refine (framed_bind _ _ _ _ zp Hzp).
  - apply framed_each. intros rpt Hr. by apply framed_merge, Hn.
  - intros _. apply framed_ret.
Qed.

(** ** What the host is told *)

Lemma runs_on_iff h a : runs_on h a = true <-> exists rep, rep ∈ ad_Replicas (ai_Deploy a) /\ dr_HostId rep = h.
Proof.
  unfold runs_on. rewrite List.existsb_exists. split; intros (rep & H1' & H2'); exists rep.
  - apply list_elem_of_In in H1'. by apply bool_decide_eq_true in H2'.
  - split; [by apply list_elem_of_In|by apply bool_decide_eq_true].
Qed.
Lemma told_instances z h a : a ∈ map hi_App (host_instances z h) <->
  a ∈ map ke_Value (ks_arr (zl_apps z)) /\ exists rep, rep ∈ ad_Replicas (ai_Deploy a) /\ dr_HostId rep = h.
Proof.
  unfold host_instances. rewrite List.map_map, List.map_id, !list_elem_of_In, List.filter_In, runs_on_iff. done.
Qed.
(** A dependency as it must be handed out: with the settings of the instance it is on, and its
    placed replicas in order at the addresses [addr_of]; without both when there is no such
    instance or it has no settings. *)
Definition told_depend (apps : appInstanceSet) (addr_of : string -> option string) (d : HostDepend) : Prop :=
  match KvSet_Load apps (dd_InstanceName (dh_Depend d)) with
  | Some e =>
    let dep := ai_Deploy (ke_Value e) in
    (ad_Configs dep = [] -> dh_Found d = None) /\
    (ad_Configs dep <> [] -> exists reps, dh_Found d = Some (ad_Configs dep, reps) /\
       map fst reps = filter (fun rep => dr_HostId rep <> "") (ad_Replicas dep) /\
       forall rep ip, (rep, ip) ∈ reps -> ip = addr_of (dr_HostId rep))
  | None => dh_Found d = None
  end.
Lemma placed_filter (l : list AppDeployReplica) : List.filter (fun rep => negb (unplaced rep)) l = filter (fun rep => dr_HostId rep <> "") l.
Proof.
  induction l as [|rep l IH]; [done|]. rewrite filter_cons. cbn [List.filter]. unfold unplaced at 1.
  destruct (decide (dr_HostId rep = "")) as [E|E].
  - rewrite bool_decide_eq_true_2, decide_False by (done || by intros ?). exact IH.
  - rewrite bool_decide_eq_false_2, decide_True by done. cbn. by rewrite IH.
Qed.
Lemma told_depends z h hi : hi ∈ host_instances z h ->
  map dh_Depend (hi_Depends hi) = map (default {| dd_SpecName := ""; dd_InstanceName := "" |}) (ad_Depends (ai_Deploy (hi_App hi))) /\
  Forall (told_depend (zl_apps z) (depend_addr z)) (hi_Depends hi).
Proof.
  intros Hi. unfold host_instances in Hi. apply list_elem_of_In, in_map_iff in Hi as (a & <- & _). cbn [hi_Depends hi_App].
  rewrite List.map_map. split; [done|]. apply Forall_forall. intros d (o & -> & _)%list_elem_of_fmap.
  unfold told_depend, host_depend. cbn [dh_Found dh_Depend].
  destruct (KvSet_Load _ _) as [e|]; [|done]. cbv zeta. split; intros Hc.
  - by rewrite bool_decide_eq_true_2.
  - rewrite bool_decide_eq_false_2 by done. eexists. split; [done|]. unfold depend_replicas. rewrite placed_filter. split.
    + rewrite List.map_map. apply List.map_id.
    + by intros rep ip (rep' & [= -> ->] & _)%list_elem_of_fmap.
Qed.
End frame.

Section report.
Context `{Ip6Syntax} {S : Type} `{KvLaws S zone_value} `{MapRange}.
Context (zone : string).
Implicit Types z : zonelet S.

Lemma report_valid_ok who req z host st : report_valid who req z = Ok (host, st) ->
  cl_leader who = true /\ hu_Host req = Some host /\ hu_Status req = Some st /\ ObjectIdValid (h_Id host) = true /\
  authAllow (cl_key who) (AuthScope_Host_Write +:+ ":" +:+ h_Id host) = Ok tt.
Proof.
  unfold report_valid. destruct (cl_leader who); [|done]. cbn [andb]. destruct (ks_ready _); [|done]. cbn [negb].
  destruct (hu_Host req) as [h|]; [|done]. destruct (hu_Status req) as [s|]; [|done].
  destruct (ObjectIdValid (h_Id h)) eqn:Ev; [|done]. cbn [negb].
  destruct (authAllow _ _) as [[]|] eqn:Ea; [|done]. intros [= <- <-]. done.
Qed.

Lemma keeps_apps_peer i host addr z : zl_apps (fst (update_peer zone i host addr z)) = zl_apps z.
Proof.
  unfold update_peer. destruct (_ || _); [done|]. destruct (ParsePrivateAddress addr); [|done]. rewrite modify_unfold.
  unfold put_record. by destruct (kv_write _ _ _ _) as [s [| |]].
Qed.
Lemma put_record_apps {V} `{ZoneVal V} k (v : V) z : zl_apps (fst (put_record k v z)) = zl_apps z.
Proof. unfold put_record. by destruct (kv_write _ _ _ _) as [s [| |]]. Qed.

(** The stages of a report change neither the hosts nor the network. *)
Lemma merge_reports_hosts l z : (zl_net (fst (merge_reports zone l z)), zl_hosts (fst (merge_reports zone l z))) = (zl_net z, zl_hosts z).
Proof.
  unfold merge_reports. revert z. induction l as [|rpt l IH]; intros z; [done|].
  assert (Hone : (zl_net (fst (merge_report zone rpt z)), zl_hosts (fst (merge_report zone rpt z))) = (zl_net z, zl_hosts z)).
  { unfold merge_report. rewrite get_unfold. case_bool_decide; [done|]. destruct (KvSet_ref _ _) as [i|]; [|done].
    destruct (app_at z i) as [a|]; [|done]. destruct (is_deleted a); [done|]. destruct (Stage.mergeHostReplicaStages _ _ _) as [dp ch].
    rewrite modify_unfold. destruct ch; [|done]. unfold logged, flush_entry. by destruct (Flush _ _ _ _) as [[s it] [u|e]]. }
  cbn [for_each]. rewrite bind_unfold. destruct (merge_report zone rpt z) as [z1 [[]|e]]; [|exact Hone]. rewrite IH. exact Hone.
Qed.
Lemma depend_addr_same z z' id : (zl_net z', zl_hosts z') = (zl_net z, zl_hosts z) -> depend_addr z' id = depend_addr z id.
Proof. intros [= En Eh]. unfold depend_addr. by rewrite En, Eh. Qed.

(** The answer is made of a state that has the instances of the leader before the report,
    and the hosts of the leader after it. *)
Lemma report_pass_response host st reports z z' resp : report_pass zone host st reports z = (z', Ok resp) ->
  exists z1, zl_apps z1 = zl_apps z /\ (forall id, depend_addr z1 id = depend_addr z' id) /\ hu_AppInstances resp = host_instances z1 (h_Id host).
Proof.
  unfold report_pass. rewrite bind_unfold. pose proof (put_record_apps (NsHostStatus zone (h_Id host)) st z) as A1.
  destruct (put_record _ _ _) as [z1 [[]|]]; [|done]. cbn [fst] in A1. rewrite modify_unfold, get_unfold. cbv zeta.
  rewrite bind_unfold. set (z2 := set_status _ z1). set (m := match KvSet_ref _ _ with Some _ => _ | None => _ end).
  assert (A2 : zl_apps (fst (m z2)) = zl_apps z).
  { unfold m. destruct (KvSet_ref _ _) as [i|]; [|done]. destruct (_ ≫= _); [|done]. by rewrite keeps_apps_peer. }
  destruct (m z2) as [z3 [[]|]]; [|done]. cbn [fst] in A2. rewrite get_unfold, bind_unfold. pose proof (merge_reports_hosts reports z3) as Hm.
  destruct (merge_reports _ _ _) as [z4 [[]|]]; [|done]. intros [= <- <-]. exists z3. cbn [fst] in Hm. split; [done|]. split; [|done].
  intros id. symmetry. by apply depend_addr_same.
Qed.

(** The metrics of a container that is not reported stay, unless they are stale. *)
Lemma merge_metrics_other reports c name : reports !! name = None -> merge_metrics reports c !! name = c !! name.
Proof.
  intros Hn. unfold merge_metrics. assert (Hl : forall l, (forall kv, kv ∈ l -> reports !! fst kv = Some (snd kv)) ->
    foldr (fun kv c => metrics_store (fst kv) (snd kv) c) c l !! name = c !! name).
  { induction l as [|kv l IH]; intros Hl; [done|]. cbn [foldr]. rewrite <- IH by (intros; apply Hl; by right). unfold metrics_store.
    destruct (snd kv) as [m|] eqn:Em; [|done]. case_bool_decide; [done|]. apply lookup_insert_ne. intros E.
    specialize (Hl kv ltac:(by left)). by rewrite E, Hn in Hl. }
  apply Hl. intros [k v] Hin. by apply elem_of_map_to_list in Hin.
Qed.
Definition metrics_kept (now : Z) (c c' : replicaMetricsCache) (name : string) : Prop :=
  c' !! name = c !! name \/ exists m, c !! name = Some m /\ metrics_stale now replicaMetricsMaxAge m = true /\ c' !! name = None.
Lemma sweep_kept now reports c name : reports !! name = None ->
  metrics_kept now c (metrics_sweep now replicaMetricsMaxAge (merge_metrics reports c)) name.
Proof.
  intros Hn. pose proof (merge_metrics_other reports c name Hn) as E. unfold metrics_kept.
  destruct (c !! name) as [m|] eqn:Ec.
  - destruct (metrics_stale now replicaMetricsMaxAge m) eqn:Es.
    + right. exists m. split_and!; [done|done|]. apply eq_None_not_Some. intros [m' [E1 E2]%metrics_sweep_lookup]. congruence.
    + left. by apply metrics_sweep_lookup.
  - left. apply eq_None_not_Some. intros [m' [E1 E2]%metrics_sweep_lookup]. congruence.
Qed.

(** C36: a report of a host, accepted or not, changes of the leader's view
    - of the instances only the stages of those it names that are not deleted: no replica,
      no placement, no setting, no revision;
    - of the cached hosts only the peer address of this host, to the one it reports;
    - of the database only the status and the record of this host and the records of those
      instances, and of the cached statuses only that of this host;
    - of the cached metrics only those of the containers it reports on and those that are
      stale;
    and nothing of the network and the rest.  Without the right for that host it changes
    nothing at all. *)
Theorem report_changes_stages_only who now req z c z' c' r host
  (Hsets : sets_ok z) (Hnames : NoDup (map (ai_Name ∘ ke_Value) (ks_arr (zl_apps z))))
  (Hhost : hu_Host req = Some host) (Hrun : HostStatusUpdate zone who now req z c = (z', c', r)) :
  let named := map hr_InstanceName (hu_ReplicaStages req) in
  (authAllow (cl_key who) (AuthScope_Host_Write +:+ ":" +:+ h_Id host) <> Ok tt -> z' = z /\ c' = c) /\
  (length (ks_arr (zl_apps z')) = length (ks_arr (zl_apps z)) /\
   forall i e, ks_arr (zl_apps z) !! i = Some e -> exists e', ks_arr (zl_apps z') !! i = Some e' /\
    shape (ke_Value e') = shape (ke_Value e) /\
    (is_deleted (ke_Value e) = true \/ ai_Name (ke_Value e) ∉ named ->
     e' = e /\ let k := NsAppInstance zone (ai_Name (ke_Value e)) in kv_read (V := zone_value) (zl_kv z') k = kv_read (zl_kv z) k)) /\
  (Forall2 (host_kept (h_Id host) (h_PeerAddr host)) (ks_arr (zl_hosts z)) (ks_arr (zl_hosts z')) /\
   with_arr (zl_hosts z') [] = with_arr (zl_hosts z) []) /\
  (forall id, id <> h_Id host -> zl_status z' !! id = zl_status z !! id) /\
  (forall k, k <> NsHostStatus zone (h_Id host) -> k <> NsHostInfo zone (h_Id host) ->
    (forall e, e ∈ ks_arr (zl_apps z) -> reportable named (ke_Value e) -> k <> NsAppInstance zone (ai_Name (ke_Value e))) ->
    kv_read (V := zone_value) (zl_kv z') k = kv_read (zl_kv z) k) /\
  (forall name, hu_ReplicaMetrics req !! name = None -> metrics_kept now c c' name) /\
  (zl_net z', zl_operate z', zl_force z', zl_lastRefreshed z', zl_bumped z', zl_allocs z') =
  (zl_net z, zl_operate z, zl_force z, zl_lastRefreshed z, zl_bumped z, zl_allocs z).
Proof.
  intros named.
  assert (F : report_frame zone (h_Id host) (h_PeerAddr host) named z z' /\
    (authAllow (cl_key who) (AuthScope_Host_Write +:+ ":" +:+ h_Id host) <> Ok tt -> z' = z /\ c' = c) /\
    (forall name, hu_ReplicaMetrics req !! name = None -> metrics_kept now c c' name)).
  { unfold HostStatusUpdate in Hrun. destruct (report_valid who req z) as [[host' st]|e] eqn:Ev.
    - destruct (report_valid_ok _ _ _ _ _ Ev) as (_ & Eh & _ & _ & Ea). rewrite Hhost in Eh. injection Eh as <-.
      split; [|split; [by intros C; destruct (C Ea)|]].
      + pose proof (framed_pass zone (h_Id host) (h_PeerAddr host) named host st (hu_ReplicaStages req) eq_refl eq_refl) as Fp.
        specialize (Fp ltac:(intros rpt Hr; by apply list_elem_of_fmap_2) z Hsets).
        destruct (report_pass _ _ _ _ _) as [z1 [resp|e]]; by injection Hrun as <- _ _.
      + intros name Hn. destruct (report_pass _ _ _ _ _) as [z1 [resp|e]]; injection Hrun as _ <- _; [by apply sweep_kept|by left].
    - injection Hrun as <- <- _. split; [apply frame_refl|]. split; [done|]. by left. }
  destruct F as (F & Hno & Hme). pose proof (rf_store _ _ _ _ _ _ F) as Fs. split; [done|]. split_and!.
  - symmetry. eapply Forall2_length, F.
  - intros i e Ei. destruct (Forall2_lookup_l _ _ _ _ _ (rf_apps _ _ _ _ _ _ F) Ei) as (e' & Ee' & [Es Ek]).
    exists e'. do 2 (split; [done|]). intros Hor. assert (Hn : ~ reportable named (ke_Value e)).
    { intros [Hd Hin]. destruct Hor as [Hor|Hor]; [by rewrite Hd in Hor|done]. }
    split; [by apply Ek|]. apply Fs. intros [C|[C|(e2 & He2 & Hr2 & C)]]; [discriminate C|discriminate C|].
    apply app_key_inj in C. apply Hn. apply list_elem_of_lookup in He2 as [j Ej].
    assert (i = j) as <- by (eapply NoDup_lookup; [exact Hnames| |]; rewrite list_lookup_fmap; [by rewrite Ei|rewrite Ej; cbn; by rewrite C]).
    rewrite Ei in Ej. by injection Ej as ->.
  - apply F.
  - apply F.
  - apply F.
  - intros k Hk1 Hk2 Hk3. apply Fs. intros [C|[C|(e & He & Hr & C)]]; [done|done|by apply (Hk3 e)].
  - done.
  - pose proof (rf_rest _ _ _ _ _ _ F) as E. by injection E as -> -> -> -> -> ->.
Qed.

End report.

(** * Reports again and again *)

Section again.
Context {S : Type} `{KvLaws S zone_value}.
Context (zone : string).

Lemma with_same (it : appInstanceSet) i e : ks_arr it !! i = Some e -> with_arr it (<[i := e]> (ks_arr it)) = it.
Proof. intros Ei. unfold with_arr. rewrite list_insert_id by done. by destruct it. Qed.

(** Merging a report again changes nothing and writes nothing: so does the next report after
    one whose write failed, although the database does not have it. *)
Theorem merged_report_is_final (z z' : zonelet S) r rpt :
  NoDup (map sname (hr_Stages rpt)) -> Forall (fun s => is_relayed (sname s) = true) (hr_Stages rpt) ->
  merge_report zone rpt z = (z', r) -> merge_report zone rpt z' = (z', Ok tt).
Proof.
  intros Hnd Hrel E. unfold merge_report in E. rewrite get_unfold in E.
  unfold merge_report. rewrite get_unfold. case_bool_decide as Hn; [by injection E as <- _|].
  destruct (KvSet_ref (zl_apps z) (hr_InstanceName rpt)) as [i|] eqn:Er; [|injection E as <- _; by rewrite Er].
  destruct (app_at z i) as [a|] eqn:Ea; [|injection E as <- _; by rewrite Er, Ea].
  destruct (is_deleted a) eqn:Ed; [injection E as <- _; by rewrite Er, Ea, Ed|].
  destruct (merge_report_exact (ad_Stage (ai_Deploy a)) (hr_ReplicaId rpt) (hr_Stages rpt) Hnd Hrel) as (_ & _ & _ & Hfin).
  destruct (Stage.mergeHostReplicaStages _ _ _) as [dp ch]. cbn [fst] in Hfin. rewrite modify_unfold in E.
  set (f := on_deploy (on_stage (fun _ => dp))) in *. set (z1 := upd_app i f z) in *.
  assert (Hz1 : app_at z1 i = Some (f a) /\ KvSet_ref (zl_apps z1) (hr_InstanceName rpt) = Some i).
  { split; [|done]. unfold app_at in *. unfold z1, upd_app. cbn. rewrite list_lookup_alter_eq. by destruct (_ !! i) as [e|]; [injection Ea as <-|]. }
  assert (G : app_at z' i = Some (f a) /\ KvSet_ref (zl_apps z') (hr_InstanceName rpt) = Some i).
  { clearbody z1. destruct ch; [|by injection E as <- _]. injection E as <- _. unfold flush_entry, Flush. destruct Hz1 as [E1 E2].
    unfold app_at in *. destruct (ks_arr (zl_apps z1) !! i) as [e|] eqn:Ei; [|done].
    destruct (kv_write _ _ _ _) as [s [v| |m]]; cbn; [|by rewrite Ei..].
    rewrite list_lookup_insert_eq by (by eapply lookup_lt_Some). done. }
  destruct G as [G1 G2]. rewrite G2, G1. change (is_deleted (f a)) with (is_deleted a). rewrite Ed.
  change (ad_Stage (ai_Deploy (f a))) with dp. rewrite Hfin, modify_unfold. unfold app_at in G1.
  destruct (ks_arr (zl_apps z') !! i) as [e|] eqn:Ei; [|done]. injection G1 as Ge.
  unfold skip, mret, pass_ret. f_equal. unfold upd_app.
  replace (alter _ i (ks_arr (zl_apps z'))) with (ks_arr (zl_apps z')).
  - unfold set_apps, with_arr. by destruct z' as [? ? ? ? []].
  - apply list_eq. intros j. destruct (decide (i = j)) as [<-|]; [|by rewrite list_lookup_alter_ne].
    rewrite list_lookup_alter_eq, Ei. cbn. rewrite Ge. destruct e as [m v]. cbn in *. by subst v.
Qed.
End again.

(** * A zone with a host *)

Section example.
Local Existing Instance no_ip6.

Definition ex_host : string := "aaaaaaaaaaaa".
Definition ex_db_app : AppInstance :=
  on_deploy (fun d => {| ad_Action := ad_Action d; ad_Stage := ad_Stage d; ad_CpuLimit := ad_CpuLimit d;
     ad_MemoryLimit := ad_MemoryLimit d; ad_VolumeLimit := ad_VolumeLimit d; ad_ReplicaCap := ad_ReplicaCap d;
     ad_Replicas := ad_Replicas d; ad_Depends := ad_Depends d; ad_Configs := [None] |})
    (ex_app "db" "start" 2 [ex_rep 0 ex_host [ex_port 80 20000]; ex_rep 1 "" []]).
Definition ex_web_app : AppInstance :=
  on_deploy (fun d => {| ad_Action := ad_Action d; ad_Stage := ad_Stage d; ad_CpuLimit := ad_CpuLimit d;
     ad_MemoryLimit := ad_MemoryLimit d; ad_VolumeLimit := ad_VolumeLimit d; ad_ReplicaCap := ad_ReplicaCap d;
     ad_Replicas := ad_Replicas d; ad_Depends := [Some {| dd_SpecName := "db"; dd_InstanceName := "db" |}]; ad_Configs := [] |})
    (ex_app "web" "start" 1 [ex_rep 0 ex_host []]).
Definition ex_old_app : AppInstance := ex_app "old" "delete" 1 [ex_rep 0 ex_host []].
Definition ex_zone : zonelet (mem_store zone_value) :=
  {| zl_kv := ex_db; zl_net := NewNetworkManager;
     zl_hosts := {| ks_idx := {[ ex_host := 0%nat ]}; ks_arr := [Entry (Some 2) (ex_zhost ex_host "192.168.1.10:9529")];
                    ks_version := 2; ks_ready := true |};
     zl_operate := empty_set;
     zl_apps := {| ks_idx := {[ "db" := 0%nat; "old" := 1%nat; "web" := 2%nat ]};
                   ks_arr := [Entry (Some 4) ex_db_app; Entry (Some 5) ex_old_app; Entry (Some 6) ex_web_app];
                   ks_version := 6; ks_ready := true |};
     zl_status := ∅; zl_force := false; zl_lastRefreshed := 0; zl_bumped := ∅; zl_allocs := 0 |}.
Definition ex_caller : caller :=
  {| cl_key := Some {| ak_Id := "k"; ak_Secret := "s"; ak_User := ""; ak_Type := "Host"; ak_State := ""; ak_Scopes := ["host:rw:" +:+ ex_host] |};
     cl_leader := true |}.
Definition ex_stage (name owner : string) : AppDeployStage := Stage (set_revision 1 (set_end AppStageStateFailed 9 "no" (new_data name owner))) [].
Definition ex_request (stages : list AppDeployStage) : HostStatusUpdateRequest :=
  {| hu_Host := Some {| h_Id := ex_host; h_PeerAddr := "192.168.1.11:9529"; h_Deploy := None |}; hu_Status := Some ex_status;
     hu_ReplicaStages := [{| hr_InstanceName := "db"; hr_ReplicaId := 0; hr_Stages := stages |}]; hu_ReplicaMetrics := ∅ |}.
Definition ex_reported := HostStatusUpdate "z1" ex_caller 100 (ex_request [ex_stage "image_pull" "hostlet"]) ex_zone ∅.

(** What the host is told: the three instances, the dependency with the placed replica of
    the database at the peer address that has just been reported. *)
Example ex_told : option_map (fun resp => map (fun hi => (ai_Name (hi_App hi),
      map (fun d => option_map (fun f => map (fun ra => (dr_Id (fst ra), snd ra)) (snd f)) (dh_Found d)) (hi_Depends hi)))
    (hu_AppInstances resp)) (match snd ex_reported with Ok r => Some r | Err _ => None end) =
  Some [("db", []); ("old", []); ("web", [Some [(0, Some "192.168.1.11")]])].
Proof. vm_compute. reflexivity. Qed.

Lemma ex_sets_ok : sets_ok ex_zone.
Proof.
  split.
  - intros n i a Hn Ha. cbn [ex_zone zl_apps ks_idx] in Hn.
    repeat (apply lookup_insert_Some in Hn as [[<- <-]|[_ Hn]]; [cbn in Ha; by injection Ha as <-|]).
    apply lookup_singleton_Some in Hn as [<- <-]. cbn in Ha. by injection Ha as <-.
  - intros n i h Hn Hh. cbn [ex_zone zl_hosts ks_idx] in Hn. apply lookup_singleton_Some in Hn as [<- <-]. cbn in Hh. by injection Hh as <-.
Qed.
Lemma ex_zone_names : NoDup (map (ai_Name ∘ ke_Value) (ks_arr (zl_apps ex_zone))).
Proof. apply (bool_decide_unpack _). vm_compute. exact I. Qed.

Example report_changes_stages_only_witness :
  let z' := fst (fst ex_reported) in
  exists e', ks_arr (zl_apps z') !! 0%nat = Some e' /\ shape (ke_Value e') = shape ex_db_app.
Proof.
  destruct (report_changes_stages_only "z1" ex_caller 100 (ex_request [ex_stage "image_pull" "hostlet"]) ex_zone ∅
    (fst (fst ex_reported)) (snd (fst ex_reported)) (snd ex_reported)
    {| h_Id := ex_host; h_PeerAddr := "192.168.1.11:9529"; h_Deploy := None |} ex_sets_ok ex_zone_names eq_refl) as (_ & (_ & He) & _).
  - change (HostStatusUpdate _ _ _ _ _ _) with ex_reported. by destruct ex_reported as [[] ].
  - destruct (He 0%nat (Entry (Some 4) ex_db_app) eq_refl) as (e' & E1 & E2 & _). by exists e'.
Defined.


(** A report may name a stage of the zone: it is overwritten, owner apart. *)
Example report_overwrites_zone_stage :
  let root := Child "replica" "" (fun _ => Child "schedule" AppStageOwnerZonelet (on_data (SetSuccess 5 "")) (new_replica 0)) (new_child "deploy" "") in
  let dp := {| dp_Revision := 1; dp_Stages := Some root |} in
  let shown dp := map (fun c => (sname c, st_Owner (sdata c), st_State (sdata c))) (schildren (replica_node 0 (StagesRoot dp))) in
  shown dp = [("schedule", "zonelet", "success")] /\
  shown (fst (Stage.mergeHostReplicaStages dp 0 [ex_stage "schedule" "hostlet"])) = [("schedule", "zonelet", "failed")].
Proof. vm_compute. split; reflexivity. Qed.

(** A dependency without settings is handed out without its replicas. *)
Example depend_without_configs : forall z : zonelet (mem_store zone_value),
  KvSet_Load (zl_apps z) "db" = Some (Entry (Some 4) (ex_app "db" "start" 1 [ex_rep 0 ex_host []])) ->
  dh_Found (host_depend z (Some {| dd_SpecName := "db"; dd_InstanceName := "db" |})) = None.
Proof. intros z E. unfold host_depend. cbn [from_option dh_Found]. unfold id. cbn [dd_InstanceName]. by rewrite E. Qed.
End example.
