(* ===== verification/ZoneService.v ===== *)
(** The requests on a zone as a whole and on its hosts: [src/internal/zonelet/service.go]
    (initialising a zone, its record and its networks, joining and listing hosts), the
    answer of a host that joins ([HostInit] of [src/internal/hostlet/service.go]), the
    connections to hosts ([src/internal/client]), and the logs of a replica, which the
    leader fetches from the host ([service_logs.go]).

    What a host answers, writing the settings file, and the validator of addresses are the
    class [PeerLib]; a handler is one step. *)
From Stdlib Require Import ZArith Lia Ascii.
From S2P Require Import Prelude GoStrings AppNames Inet Ns Kv Ipam Stage Zone Auth Packages Users Refresh Metrics AgentStatus Deploy ZoneReport.
Local Open Scope string_scope.
Local Open Scope Z_scope.

(** * Networks *)

(** [net.IPNet]: the masked address and the mask, of 4 or of 16 bytes. *)
Record IPNet := { in_IP : list Z; in_Mask : list Z }.
(** [net.CIDRMask] of 4 and of 16 bytes *)
Definition mask_byte (n : Z) : Z := if n <=? 0 then 0 else if 8 <=? n then 255 else 256 - 2 ^ (8 - n).
Definition CIDRMask (n : Z) (bytes : nat) : list Z := map (fun i => mask_byte (n - 8 * Z.of_nat i)) (seq 0 bytes).
Definition land_bytes : list Z -> list Z -> list Z := zip_with Z.land.
(** [IP.To4] of an address of either length *)
Definition to4 (ip : list Z) : option (list Z) := if bool_decide (length ip = 4%nat) then Some ip else To4 ip.
(** [networkNumberAndMask], and [IPNet.Contains] *)
Definition number_and_mask (n : IPNet) : list Z * list Z :=
  match to4 (in_IP n) with
  | Some b => (b, if bool_decide (length (in_Mask n) = 16%nat) then drop 12 (in_Mask n) else in_Mask n)
  | None => (in_IP n, in_Mask n)
  end.
Definition net_contains (n : IPNet) (ip : list Z) : bool :=
  let '(nn, m) := number_and_mask n in
  let ip := default ip (to4 ip) in
  bool_decide (length ip = length nn) && bool_decide (land_bytes nn m = land_bytes ip m).
Definition cidrsOverlap (a b : IPNet) : bool := net_contains a (in_IP b) || net_contains b (in_IP a).

Section networks.
Context `{Ip6Syntax}.

(** [net.ParseCIDR] with its network *)
Definition ParseCIDR_net (s : string) : option (list Z * IPNet * Z) :=
  match ParseCIDR s, cut_at "/" s with
  | Some ip, Some (addr, mask) =>
    let n := default 0 (parse_uint 32 mask) in
    Some (match ip_kind addr, To4 ip with
          | Some "."%char, Some ip4 => (ip, {| in_IP := land_bytes ip4 (CIDRMask n 4); in_Mask := CIDRMask n 4 |}, n)
          | _, _ => (ip, {| in_IP := land_bytes ip (CIDRMask n 16); in_Mask := CIDRMask n 16 |}, n)
          end)
  | _, _ => None
  end.
Definition validatePrivateCIDR (cidr fieldName : string) (requiredPrefixLen : Z) : result IPNet :=
  match ParseCIDR_net cidr with
  | None => Err ("invalid " +:+ fieldName)
  | Some (ip, ipNet, prefixLen) =>
    match To4 ip with
    | None => Err (fieldName +:+ " must be an IPv4 CIDR")
    | Some _ =>
      match ParsePrivateIP (ip_string ip) with
      | Err _ => Err (fieldName +:+ " must be a private network address (RFC 1918)")
      | Ok _ =>
        if negb (prefixLen =? requiredPrefixLen) then Err (fieldName +:+ " must be a /" +:+ itoa requiredPrefixLen +:+ " network")
        else Ok ipNet
      end
    end
  end.
End networks.

(** * State *)

(** The settings of a server that the requests read and write. *)
Record zone_settings := {
  gs_ZoneName : string; gs_ZoneHosts : list string; gs_LanAddr : string; gs_PeerPort : Z; gs_HostId : string; gs_AccessKey : string }.
Definition with_zone_name (name : string) (hosts : list string) (g : zone_settings) : zone_settings :=
  {| gs_ZoneName := name; gs_ZoneHosts := hosts; gs_LanAddr := gs_LanAddr g; gs_PeerPort := gs_PeerPort g;
     gs_HostId := gs_HostId g; gs_AccessKey := gs_AccessKey g |}.

(** [client.Connect]: the connections by address and id of the key.  A new one may be
    refused; nothing forces one. *)
Record client_conn := { cc_addr : string; cc_key : option AccessKey }.
Record HostInitRequest := { hi_ZoneName : string; hi_ZoneHosts : list string }.
Record HostInitResponse := { hp_HostId : string; hp_Status : option HostStatus }.
Record ContainerLogsRequest := { lq_Container : string; lq_Tail : Z; lq_StartTime : Z }.
Class PeerLib := {
  Ip4AddrValid : string -> result unit;
  NewClient : string -> option AccessKey -> result unit;
  (* the calls of a host over a connection *)
  peer_HostInit : client_conn -> HostInitRequest -> result HostInitResponse;
  peer_ContainerLogs : client_conn -> ContainerLogsRequest -> result (list string * bool);
  (* the settings written to their file *)
  config_Flush : zone_settings -> result unit }.
Definition conn_key (addr : string) (ak : option AccessKey) : string :=
  addr +:+ match ak with Some k => "." +:+ ak_Id k | None => "" end.
Definition Connect `{PeerLib} (addr : string) (ak : option AccessKey) (conns : gmap string client_conn)
  : gmap string client_conn * result client_conn :=
  match conns !! conn_key addr ak with
  | Some c => (conns, Ok c)
  | None =>
    match NewClient addr ak with
    | Err e => (conns, Err e)
    | Ok _ => let c := {| cc_addr := addr; cc_key := ak |} in (<[conn_key addr ak := c]> conns, Ok c)
    end
  end.

Record zone_server (S : Type) := {
  zs_zone : zonelet S; zs_keys : AccessKeyManager; zs_settings : zone_settings; zs_conns : gmap string client_conn }.
Arguments zs_zone {S} z.
Arguments zs_keys {S} z.
Arguments zs_settings {S} z.
Arguments zs_conns {S} z.

(** * The requests *)

Record ZoneSetRequest := { zq_VpcBridgeCidr : string; zq_VpcInstanceCidr : string; zq_VpcNetworkDomain : string }.
Record HostJoinRequest := { jq_Addr : string; jq_AccessKey : string }.
Record AppLogsRequest := { aq_Name : string; aq_ReplicaId : Z; aq_Tail : Z; aq_StartTime : Z }.
Definition AuthScope_Host_Read : string := "host:ro".
Definition create_opts : kv_opts := {| prev_version := 0; create_only := true; ttl_ms := 0 |}.

Section server.
Context `{Ip6Syntax} `{PeerLib} {S : Type} `{Kv S zone_value} `{MapRange}.
Abbreviation zserver := (zone_server S).
Implicit Types s : zserver.

Definition with_settings (g : zone_settings) s : zserver :=
  {| zs_zone := zs_zone s; zs_keys := zs_keys s; zs_settings := g; zs_conns := zs_conns s |}.
Definition with_zone (z : zonelet S) s : zserver :=
  {| zs_zone := z; zs_keys := zs_keys s; zs_settings := zs_settings s; zs_conns := zs_conns s |}.
Definition with_conns (c : gmap string client_conn) s : zserver :=
  {| zs_zone := zs_zone s; zs_keys := zs_keys s; zs_settings := zs_settings s; zs_conns := c |}.
(** [Zonelet_ForceRefresh.Store(true)] *)
Definition force_refresh s : zserver := with_zone (set_force (zs_zone s) true (zl_lastRefreshed (zs_zone s))) s.
Definition zname s : string := gs_ZoneName (zs_settings s).
(** A record written, and the reply. *)
Definition put {V} `{ZoneVal V} (o : kv_opts) (key : string) (v : V) s : zserver * result unit :=
  match kv_write (zl_kv (zs_zone s)) o key v with
  | (kv, KvOk _) => (with_zone (set_store (zs_zone s) kv) s, Ok tt)
  | (kv, rs) => (with_zone (set_store (zs_zone s) kv) s, Err (kv_msg rs))
  end.

(** [ZoneInit]: the settings have the zone from before its record is written. *)
Definition init_request (who : caller) (name : string) s : result string :=
  let? _ := authAllow (cl_key who) AuthScope_Zone_Write in
  let name := to_lower name in
  let? _ := NameValid name in
  if negb (bool_decide (zname s = "")) || negb (bool_decide (gs_ZoneHosts (zs_settings s) = []))
  then Err "System already initialized" else Ok name.
Definition peer_addr (g : zone_settings) : string := gs_LanAddr g +:+ ":" +:+ itoa (gs_PeerPort g).
Definition own_host (g : zone_settings) : ZoneHost :=
  {| zh_Host := {| h_Id := gs_HostId g; h_PeerAddr := peer_addr g; h_Deploy := None |};
     zh_AccessKey := gs_AccessKey g; zh_Operate := None; zh_Status := None |}.
Definition ZoneInit (who : caller) (reqName : string) s : zserver * result unit :=
  match init_request who reqName s with
  | Err e => (s, Err e)
  | Ok name =>
    let g := with_zone_name name [peer_addr (zs_settings s)] (zs_settings s) in
    let s := with_settings g s in
    let zone := {| zn_Name := name; zn_Hosts := gs_ZoneHosts g; zn_VpcBridgeCidr := ""; zn_VpcInstanceCidr := ""; zn_VpcNetworkDomain := "" |} in
    match put create_opts (NsZoneletInfo name) zone s with
    | (s, Err e) => (s, Err e)
    | (s, Ok _) =>
      match config_Flush g with
      | Err e => (s, Err e)
      | Ok _ =>
        match put create_opts (NsHostInfo name (gs_HostId g)) (own_host g) s with
        | (s, Err e) => (s, Err e)
        | (s, Ok _) => (force_refresh s, Ok tt)
        end
      end
    end
  end.

(** The record of the zone. *)
Definition read_zone (missing : string) s : result Zone :=
  match kv_read (V := Zone) (zl_kv (zs_zone s)) (NsZoneletInfo (zname s)) with
  | KvOk it => match it_value it with Some z => Ok z | None => Err "json" end
  | KvNotFound => Err missing
  | KvErr m => Err m
  end.
Definition ZoneInfo (who : caller) s : result (Zone * option (ZoneNetworkMap NetHost)) :=
  let? _ := allow_leader who AuthScope_Zone_Read in
  let? zone := read_zone "System uninitialized" s in
  let nm := zl_net (zs_zone s) in
  Ok (zone, if nm_ready nm then snapshot (nm_heap nm) <$> nm_Map nm else None).

(** [ZoneSet] *)
Definition set_valid (who : caller) (req : ZoneSetRequest) s : result unit :=
  if negb (cl_leader who) then Err "zonelet leader" else
  let? _ := authAllow (cl_key who) AuthScope_Zone_Write in
  if bool_decide (zname s = "") then Err "zone not initialized" else
  if bool_decide (zq_VpcBridgeCidr req = "") || bool_decide (zq_VpcInstanceCidr req = "") || bool_decide (zq_VpcNetworkDomain req = "")
  then Err "vpc_bridge_cidr, vpc_instance_cidr, and vpc_network_domain are all required" else
  let? bridgeNet := validatePrivateCIDR (zq_VpcBridgeCidr req) "vpc_bridge_cidr" 24 in
  let? instanceNet := validatePrivateCIDR (zq_VpcInstanceCidr req) "vpc_instance_cidr" 16 in
  if cidrsOverlap bridgeNet instanceNet then Err "vpc_bridge_cidr and vpc_instance_cidr must not overlap" else Ok tt.
Definition set_vpc (name : string) (req : ZoneSetRequest) (zone : Zone) : Zone :=
  {| zn_Name := if bool_decide (zn_Name zone = "") then name else zn_Name zone; zn_Hosts := zn_Hosts zone;
     zn_VpcBridgeCidr := zq_VpcBridgeCidr req; zn_VpcInstanceCidr := zq_VpcInstanceCidr req; zn_VpcNetworkDomain := zq_VpcNetworkDomain req |}.
Definition ZoneSet (who : caller) (now : Z) (req : ZoneSetRequest) s : zserver * result Zone :=
  match (let? _ := set_valid who req s in read_zone "zone not found" s) with
  | Err e => (s, Err e)
  | Ok zone =>
    let zone := set_vpc (zname s) req zone in
    match put kv_default (NsZoneletInfo (zn_Name zone)) zone s with
    | (s, Err e) => (s, Err e)
    | (s, Ok _) =>
      let z := zs_zone s in
      match ZoneSetup (zl_kv z) now (zl_net z) (zn_Name zone) (zn_VpcBridgeCidr zone) (zn_VpcInstanceCidr zone) (zn_VpcNetworkDomain zone) with
      | (kv, nm, Err e) => (with_zone (set_net z kv nm) s, Err ("zone VPC setup failed: " +:+ e))
      | (kv, nm, Ok _) => (force_refresh (with_zone (set_net z kv nm) s), Ok zone)
      end
    end
  end.

(** [HostJoin]: the host is told its zone, its record is written, and its key is saved for
    it; that the key was saved is not looked at. *)
Definition join_valid (who : caller) (req : HostJoinRequest) : result AccessKey :=
  let? _ := authAllow (cl_key who) AuthScope_Host_Write in
  let? _ := Ip4AddrValid (jq_Addr req) in
  match ParseAccessKey (jq_AccessKey req) with
  | Err e => Err ("invalid access_key: " +:+ e)
  | Ok ak => if cl_leader who then Ok ak else Err "zonelet leader"
  end.
Definition joined_host (id addr : string) (ak : AccessKey) : ZoneHost :=
  {| zh_Host := {| h_Id := id; h_PeerAddr := addr; h_Deploy := None |}; zh_AccessKey := Export (Some ak);
     zh_Operate := None; zh_Status := None |}.
Definition host_key (id : string) (ak : AccessKey) : AccessKey :=
  set_scopes AccessKey_Type_Host [AuthScope_Host_Write +:+ ":" +:+ id; AuthScope_Package_Read] ak.
Definition save_key (ak : AccessKey) s : zserver :=
  let '(_, a) := SaveAccessKey (zname s) ak {| au_kv := zl_kv (zs_zone s); au_keys := zs_keys s |} in
  {| zs_zone := set_store (zs_zone s) (au_kv a); zs_keys := au_keys a; zs_settings := zs_settings s; zs_conns := zs_conns s |}.
Definition HostJoin (who : caller) (req : HostJoinRequest) s : zserver * result (option HostStatus) :=
  match join_valid who req with
  | Err e => (s, Err e)
  | Ok ak =>
    match Connect (jq_Addr req) (Some ak) (zs_conns s) with
    | (_, Err e) => (s, Err e)
    | (conns, Ok conn) =>
      let s := with_conns conns s in
      match peer_HostInit conn {| hi_ZoneName := zname s; hi_ZoneHosts := gs_ZoneHosts (zs_settings s) |} with
      | Err e => (s, Err ("failed to join host: " +:+ e))
      | Ok resp =>
        let id := hp_HostId resp in
        match put create_opts (NsHostInfo (zname s) id) (joined_host id (jq_Addr req) ak) s with
        | (s, Err e) => (s, Err e)
        | (s, Ok _) =>
          if negb (ObjectIdValid id) then (s, Err "invalid host_id") else
          (force_refresh (save_key (host_key id ak) s), Ok (hp_Status resp))
        end
      end
    end
  end.

(** [HostList], without the access keys and with what the leader knows of the hosts. *)
Definition shown_host (z : zonelet S) (host : ZoneHost) : ZoneHost :=
  let id := h_Id (zh_Host host) in
  {| zh_Host := zh_Host host; zh_AccessKey := "";
     zh_Operate := match KvSet_Load (zl_operate z) id with Some e => Some (ke_Value e) | None => zh_Operate host end;
     zh_Status := match zl_status z !! id with Some st => Some st | None => zh_Status host end |}.
Definition HostList (who : caller) s : result (list ZoneHost) :=
  let? _ := allow_leader who AuthScope_Host_Read in
  let items := range_items (A := ZoneHost) (zl_kv (zs_zone s)) (NsHostInfo (zname s) "") Zonelet_MaxHosts in
  Ok (map (shown_host (zs_zone s)) (omap (fun item => it_value (snd item)) items)).

(** [AppLogs]: the replica that is asked for, or the first that is placed, and its host. *)
Definition logs_replica (req : AppLogsRequest) (reps : list AppDeployReplica) : option AppDeployReplica :=
  List.find (fun r => negb (unplaced r) && ((aq_ReplicaId req =? 0) || (dr_Id r =? aq_ReplicaId req))) reps.
Definition AppLogs (who : caller) (req : AppLogsRequest) s : zserver * result (list string * bool * string) :=
  match (let? _ := allow_leader who AuthScope_App_Read in if bool_decide (aq_Name req = "") then Err "name required" else Ok tt) with
  | Err e => (s, Err e)
  | Ok _ =>
    match KvSet_Load (zl_apps (zs_zone s)) (aq_Name req) with
    | None => (s, Err "app instance not found")
    | Some app =>
      match logs_replica req (ad_Replicas (ai_Deploy (ke_Value app))) with
      | None => (s, Err "no placed replica")
      | Some rep =>
        match KvSet_Load (zl_hosts (zs_zone s)) (dr_HostId rep) with
        | None => (s, Err "replica host not found")
        | Some e =>
          let host := ke_Value e in
          let addr := h_PeerAddr (zh_Host host) in
          if bool_decide (addr = "") || bool_decide (zh_AccessKey host = "") then (s, Err "replica host address unknown") else
          match ParseAccessKey (zh_AccessKey host) with
          | Err e => (s, Err e)
          | Ok ak =>
            match Connect addr (Some ak) (zs_conns s) with
            | (_, Err e) => (s, Err e)
            | (conns, Ok conn) =>
              (with_conns conns s,
               let? lines := peer_ContainerLogs conn {| lq_Container := ContainerName (aq_Name req) (dr_Id rep);
                                                        lq_Tail := aq_Tail req; lq_StartTime := aq_StartTime req |} in
               Ok (lines, dr_HostId rep))
            end
          end
        end
      end
    end
  end.
End server.

(** * The host *)

(** [HostInit] of a host, which only its own key may ask for. *)
Definition HostInit `{PeerLib} (key : option AccessKey) (req : HostInitRequest) (st : option HostStatus) (g : zone_settings)
  : zone_settings * result HostInitResponse :=
  if negb (context_Allow key [AuthScope_Host_Write +:+ ":" +:+ gs_HostId g])
  then (g, Err ("auth fail: caller not authorized for host " +:+ gs_HostId g)) else
  let answer g := (g, Ok {| hp_HostId := gs_HostId g; hp_Status := st |}) in
  if bool_decide (hi_ZoneHosts req = []) then answer g else
  let g := with_zone_name (gs_ZoneName g) (hi_ZoneHosts req) g in
  match config_Flush g with Err e => (g, Err e) | Ok _ => answer g end.

(** [ContainerLogs] of a host: the lines the driver gives, cut at a line to a mebibyte. *)
Definition appLogsMaxBytes : Z := 2 ^ 20.
Definition AppLogsTailDefault : Z := 200.
Definition AppLogsTailMax : Z := 5000.
Definition logs_tail (tail : Z) : Z :=
  let tail := if tail =? 0 then AppLogsTailDefault else tail in
  if AppLogsTailMax <? tail then AppLogsTailMax else tail.
Fixpoint cut_lines (size : Z) (lines : list string) : list string * bool :=
  match lines with
  | [] => ([], false)
  | line :: rest =>
    let size := size + slen line + 1 in
    if appLogsMaxBytes <? size then ([], true)
    else let '(kept, cut) := cut_lines size rest in (line :: kept, cut)
  end.
Definition ContainerLogs (driver : option (string -> Z -> Z -> result (list string))) (key : option AccessKey) (hostId : string)
  (req : ContainerLogsRequest) : result (list string * bool) :=
  if negb (context_Allow key [AuthScope_Host_Write +:+ ":" +:+ hostId])
  then Err ("auth fail: caller not authorized for host " +:+ hostId) else
  if negb (ContainerNameValid (lq_Container req)) then Err "bad request: invalid container name" else
  match driver with
  | None => Err "container driver not ready"
  | Some run => let? lines := run (lq_Container req) (logs_tail (lq_Tail req)) (lq_StartTime req) in Ok (cut_lines 0 lines)
  end.
