(* ===== verification/ZoneServiceLogic.v ===== *)
(** The requests on a zone and its hosts: two networks of the settings overlap exactly if
    they share an address; a host that joined may report for itself, with its own key, and
    for no other host. *)
From Stdlib Require Import ZArith Lia Ascii.
From S2P Require Import Prelude GoStrings AppNames Inet Ns Kv Ipam Stage Zone Auth Packages Users Refresh RefreshDeleted Metrics AgentStatus AuditCollect Deploy ZoneReport ZoneReportLogic ZoneService.
Local Open Scope string_scope.
Local Open Scope Z_scope.

(** * Networks that overlap *)

(** A network of IPv4 of the length [n], around an address. *)
Definition net4 (ip : list Z) (n : Z) : IPNet := {| in_IP := land_bytes ip (CIDRMask n 4); in_Mask := CIDRMask n 4 |}.
Definition ip4 (ip : list Z) : Prop := length ip = 4%nat.

Lemma length_mask n k : length (CIDRMask n k) = k.
Proof. unfold CIDRMask. by rewrite List.length_map, length_seq. Qed.
Lemma length_land a b k : length a = k -> length b = k -> length (land_bytes a b) = k.
Proof. intros <- E. unfold land_bytes. rewrite length_zip_with. lia. Qed.

Lemma land_bytes_idem a m : length a = length m -> land_bytes (land_bytes a m) m = land_bytes a m.
Proof.
  revert m. induction a as [|x a IH]; intros [|y m] E; try done. cbn. rewrite <- Z.land_assoc, Z.land_diag. f_equal.
  apply IH. by injection E.
Qed.
(** A shorter mask after a longer one. *)
Lemma land_bytes_sub x m m' : length x = length m -> length m = length m' -> land_bytes m m' = m' ->
  land_bytes (land_bytes x m) m' = land_bytes x m'.
Proof.
  revert m m'. induction x as [|a x IH]; intros [|b m] [|c m'] E1 E2 E3; try done. cbn in *.
  injection E3 as E3 E4. rewrite <- Z.land_assoc, E3. f_equal. apply IH; [by injection E1|by injection E2|done].
Qed.

Lemma mask_byte_sub n m : n <= m -> Z.land (mask_byte m) (mask_byte n) = mask_byte n.
Proof.
  intros Hnm. unfold mask_byte. destruct (Z.leb_spec n 0); [by rewrite Z.land_0_r|].
  destruct (Z.leb_spec m 0); [lia|]. destruct (Z.leb_spec 8 m).
  - destruct (Z.leb_spec 8 n); [done|]. assert (Hn : n = 1 \/ n = 2 \/ n = 3 \/ n = 4 \/ n = 5 \/ n = 6 \/ n = 7) by lia.
    by repeat destruct Hn as [->|Hn]; [..|subst n].
  - destruct (Z.leb_spec 8 n); [lia|]. assert (Hn : n = 1 \/ n = 2 \/ n = 3 \/ n = 4 \/ n = 5 \/ n = 6 \/ n = 7) by lia.
    assert (Hm : m = 1 \/ m = 2 \/ m = 3 \/ m = 4 \/ m = 5 \/ m = 6 \/ m = 7) by lia.
    repeat destruct Hn as [->|Hn]; try subst n; repeat destruct Hm as [->|Hm]; try subst m; first [done|lia].
Qed.
Lemma mask_sub n m : n <= m -> land_bytes (CIDRMask m 4) (CIDRMask n 4) = CIDRMask n 4.
Proof.
  intros Hnm. unfold CIDRMask. cbn [map seq zip_with land_bytes]. unfold land_bytes. cbn [zip_with].
  by rewrite !mask_byte_sub by lia.
Qed.

Lemma contains_net4 ip n x : ip4 ip -> ip4 x -> net_contains (net4 ip n) x = bool_decide (land_bytes ip (CIDRMask n 4) = land_bytes x (CIDRMask n 4)).
Proof.
  intros Hip Hx. unfold net_contains, number_and_mask, net4. cbn [in_IP in_Mask].
  assert (Hl : length (land_bytes ip (CIDRMask n 4)) = 4%nat) by (apply length_land; [done|apply length_mask]).
  unfold to4 at 1. rewrite bool_decide_eq_true_2 by done. rewrite length_mask. rewrite (bool_decide_eq_false_2 (4%nat = 16%nat)) by done.
  replace (default x (to4 x)) with x by (unfold to4; by rewrite bool_decide_eq_true_2).
  unfold ip4 in *. rewrite bool_decide_eq_true_2 by congruence. cbn [andb]. by rewrite land_bytes_idem by (rewrite Hip; apply eq_sym, length_mask).
Qed.

(** two networks of IPv4, of any lengths, overlap by [cidrsOverlap] exactly if some
    address is in both. *)
Theorem overlap_iff_common_address a n b m : ip4 a -> ip4 b ->
  cidrsOverlap (net4 a n) (net4 b m) = true <->
  exists x, ip4 x /\ net_contains (net4 a n) x = true /\ net_contains (net4 b m) x = true.
Proof.
  intros Ha Hb. assert (Hla : forall ip k, ip4 ip -> ip4 (land_bytes ip (CIDRMask k 4))) by (intros; apply length_land; [done|apply length_mask]).
  assert (Hin : forall ip k, ip4 ip -> net_contains (net4 ip k) (land_bytes ip (CIDRMask k 4)) = true).
  { intros ip k Hip. rewrite contains_net4 by auto. apply bool_decide_eq_true_2. rewrite land_bytes_idem; [done|].
    rewrite length_mask. exact Hip. }
  assert (Hsub : forall ip k ip' k', ip4 ip -> ip4 ip' -> k <= k' -> forall x, ip4 x -> net_contains (net4 ip k) x = true ->
    net_contains (net4 ip' k') x = true -> net_contains (net4 ip k) (in_IP (net4 ip' k')) = true).
  { intros ip k ip' k' Hip Hip' Hk x Hx Hc Hc'. cbn [in_IP net4]. rewrite contains_net4 in * by auto.
    apply bool_decide_eq_true in Hc, Hc'. apply bool_decide_eq_true_2.
    rewrite Hc', Hc. symmetry. apply land_bytes_sub; [rewrite length_mask; exact Hx|by rewrite !length_mask|by apply mask_sub]. }
  unfold cidrsOverlap. rewrite orb_true_iff. split.
  - intros [Hc|Hc]; cbn [in_IP net4] in Hc; [exists (land_bytes b (CIDRMask m 4))|exists (land_bytes a (CIDRMask n 4))]; auto.
  - intros (x & Hx & Hca & Hcb). destruct (Z.le_ge_cases n m); [left|right]; by eapply Hsub.
Qed.
Example overlap_iff_common_address_witness :
  cidrsOverlap (net4 [10;8;3;0] 24) (net4 [10;8;0;0] 16) = true /\
  exists x, ip4 x /\ net_contains (net4 [10;8;3;0] 24) x = true /\ net_contains (net4 [10;8;0;0] 16) x = true.
Proof.
  split; [reflexivity|]. apply (overlap_iff_common_address [10;8;3;0] 24 [10;8;0;0] 16); reflexivity.
Defined.

(** * The key of a host *)

Lemma list_ascii_inj a b : String.list_ascii_of_string a = String.list_ascii_of_string b -> a = b.
Proof. intros E. rewrite <- (String.string_of_list_ascii_of_string a), E. apply String.string_of_list_ascii_of_string. Qed.
Lemma length_list_ascii a : length (String.list_ascii_of_string a) = String.length a.
Proof. induction a as [|c a IH]; [done|]. cbn. by rewrite IH. Qed.

(** The end of a text that is longer. *)
Lemma suffix_of_app (p x b t : string) : p +:+ x = b +:+ t -> (String.length t <= String.length x)%nat -> exists u, x = u +:+ t.
Proof.
  intros E Hl. apply (f_equal String.list_ascii_of_string) in E. rewrite !list_ascii_app in E.
  apply app_eq_inv in E as [(k & E1 & E2)|(k & E1 & E2)].
  - exists "". assert (k = []) as ->.
    { apply (f_equal length) in E2. rewrite length_app, !length_list_ascii in E2. apply nil_length_inv. lia. }
    by apply list_ascii_inj.
  - exists (String.string_of_list_ascii k). apply list_ascii_inj. by rewrite list_ascii_app, String.list_ascii_of_string_of_list_ascii.
Qed.

Lemma substring_split s : forall n, (n <= String.length s)%nat ->
  String.substring 0 n s +:+ String.substring n (String.length s - n) s = s.
Proof.
  induction s as [|c s IH]; intros [|n] Hn; cbn in *; [done|lia| |].
  - f_equal. clear. induction s as [|c s IH]; [done|]. cbn. by rewrite IH.
  - f_equal. apply IH. lia.
Qed.
Lemma cut_suffix_Some suf s b : cut_suffix suf s = Some b -> s = b +:+ suf.
Proof.
  unfold cut_suffix. destruct (Nat.leb_spec (String.length suf) (String.length s)) as [Hl|]; [|done]. cbn [andb].
  case_bool_decide as E; [|done]. intros [= <-]. rewrite <- E at 2.
  rewrite <- (substring_split s (String.length s - String.length suf)) at 1 by lia. do 2 f_equal. lia.
Qed.

(** No id of a host ends like a scope. *)
Lemma id_no_scope_end id p b t : ObjectIdValid id = true -> p +:+ id = b +:+ String ":" t -> (String.length t < 4)%nat -> False.
Proof.
  unfold ObjectIdValid. intros Hv E Ht. apply andb_true_iff in Hv as [Hv Hall]. apply andb_true_iff in Hv as [Hl _].
  apply Z.leb_le in Hl. unfold slen in Hl. destruct (suffix_of_app _ _ _ _ E) as (u & ->); [cbn; lia|].
  rewrite s_all_app in Hall. apply andb_true_iff in Hall as [_ Hall]. cbn in Hall. done.
Qed.

Definition host_scope (id : string) : string := AuthScope_Host_Write +:+ ":" +:+ id.
Lemma host_scope_match id id' : ObjectIdValid id = true -> ObjectIdValid id' = true ->
  scopeMatch [host_scope id; AuthScope_Package_Read] (host_scope id') = true <-> id' = id.
Proof.
  intros Hv Hv'. cbn [scopeMatch]. rewrite (bool_decide_eq_false_2 (host_scope id = "*")) by done.
  assert (Ei : forall a b, host_scope a = host_scope b -> a = b) by (intros a b; unfold host_scope; intros E%(inj (String.append _)); by apply (inj (String.append _)) in E).
  case_bool_decide as E; [split; [by intros _; apply Ei|done]|].
  split; [|by intros ->]. intros Hm. exfalso.
  destruct (cut_suffix ":rw" (host_scope id)) as [b|] eqn:Ec.
  - apply cut_suffix_Some in Ec. eapply (id_no_scope_end id (AuthScope_Host_Write +:+ ":") b "rw"); [done|exact Ec|cbn; lia].
  - revert Hm. rewrite (bool_decide_eq_false_2 (AuthScope_Package_Read = "*")) by done.
    rewrite (bool_decide_eq_false_2 (AuthScope_Package_Read = host_scope id')) by done. by vm_compute (cut_suffix ":rw" AuthScope_Package_Read).
Qed.
Lemma host_key_allows id id' ak : ObjectIdValid id = true -> ObjectIdValid id' = true ->
  authAllow (Some (host_key id ak)) (host_scope id') = Ok tt <-> id' = id.
Proof.
  intros Hv Hv'. unfold authAllow, context_Allow, AccessKey_Allow, host_key. cbn [ak_Scopes set_scopes].
  unfold scopes_allow. cbn [length Nat.ltb Nat.leb forallb]. rewrite andb_true_r, <- (host_scope_match id id' Hv Hv').
  fold (host_scope id). by destruct (scopeMatch _ _).
Qed.

Lemma parsed_key_named s ak : ParseAccessKey s = Ok ak -> ak_Id ak <> "" /\ ak_Secret ak <> "".
Proof.
  unfold ParseAccessKey. destruct (cut_prefix _ _) as [rest|]; [|done]. destruct (cut_at _ _) as [[id secret]|]; [|done].
  destruct (akIdValid id) eqn:Ei; [|done]. destruct (akSecretValid secret) eqn:Es; [|done]. intros [= <-]. cbn [ak_Id ak_Secret].
  split; intros ->; discriminate.
Qed.

Section join.
Context `{Ip6Syntax} `{PeerLib} {S : Type} {K : Kv S zone_value} `{!KvLaws K} `{!KvReliable K} `{MapRange}.
Implicit Types s : zone_server S.

Lemma put_ok {V} `{ZoneVal V} o k (v : V) s s' : put o k v s = (s', Ok tt) ->
  exists kv n, kv_write (zl_kv (zs_zone s)) o k v = (kv, KvOk n) /\ s' = with_zone (set_store (zs_zone s) kv) s.
Proof. unfold put. destruct (kv_write _ _ _ _) as [kv [n| |]] eqn:E; intros [= <-]. by exists kv, n. Qed.

(** Saving a key of a host, in a store that takes it. *)
Lemma save_key_ok ak s : ak_Id ak <> "" -> ak_Secret ak <> "" ->
  Key (ak_Id ak) (zs_keys (save_key ak s)) = Some ak /\
  (exists n, kv_read (V := AccessKey) (zl_kv (zs_zone (save_key ak s))) (NsZoneletAccessKey (zname s) (ak_Id ak)) = KvOk (Item n (Some ak))) /\
  forall k, k <> NsZoneletAccessKey (zname s) (ak_Id ak) ->
    kv_read (V := zone_value) (zl_kv (zs_zone (save_key ak s))) k = kv_read (zl_kv (zs_zone s)) k.
Proof.
  intros Hi Hs. unfold save_key, SaveAccessKey. cbn [au_kv au_keys]. rewrite bool_decide_eq_false_2 by tauto.
  destruct (kv_write_total (K := zone_Kv (V := AccessKey)) (zl_kv (zs_zone s)) kv_default (NsZoneletAccessKey (zname s) (ak_Id ak)) ak eq_refl ltac:(done))
    as (kv & n & E). rewrite E. cbn [au_kv au_keys zs_keys zs_zone zl_kv set_store]. split.
  - unfold Key, Key_Set. cbn [km_items set_items]. apply lookup_insert_eq.
  - destruct (kv_write_ok _ _ _ _ _ _ E) as (R & _). split; [by exists n|]. intros k Hk. eapply write_other; [exact E|done].
Qed.

(** a host that joined has its record, with its address, and the key that was given for
    it, in the store and at once in the key manager: with it the host may report for
    itself, and for no other host, and only a caller with the right for all hosts could
    join it. *)
Theorem joined_host_reports who req s s' st (Hjoin : HostJoin who req s = (s', Ok st)) :
  exists id ak k,
    ParseAccessKey (jq_AccessKey req) = Ok ak /\ authAllow (cl_key who) AuthScope_Host_Write = Ok tt /\ cl_leader who = true /\
    (exists n, kv_read (V := ZoneHost) (zl_kv (zs_zone s')) (NsHostInfo (zname s) id) = KvOk (Item n (Some (joined_host id (jq_Addr req) ak)))) /\
    kv_read (V := ZoneHost) (zl_kv (zs_zone s)) (NsHostInfo (zname s) id) = KvNotFound /\
    (exists n, kv_read (V := AccessKey) (zl_kv (zs_zone s')) (NsZoneletAccessKey (zname s) (ak_Id ak)) = KvOk (Item n (Some k))) /\
    Key (ak_Id ak) (zs_keys s') = Some k /\ ak_Secret k = ak_Secret ak /\
    forall id', ObjectIdValid id' = true -> authAllow (Some k) (AuthScope_Host_Write +:+ ":" +:+ id') = Ok tt <-> id' = id.
Proof.
  unfold HostJoin in Hjoin. destruct (join_valid who req) as [ak|] eqn:Ev; [|done].
  unfold join_valid in Ev. destruct (authAllow _ _) as [[]|] eqn:Ea; [|done]. destruct (Ip4AddrValid _) as [[]|]; [|done].
  destruct (ParseAccessKey _) as [ak'|] eqn:Ep; [|done]. destruct (cl_leader who) eqn:El; [|done]. injection Ev as ->.
  destruct (Connect _ _ _) as [conns [conn|]]; [|done]. destruct (peer_HostInit _ _) as [resp|]; [|done].
  set (id := hp_HostId resp) in *. set (s0 := with_conns conns s) in *.
  destruct (put create_opts _ _ s0) as [s1 [[]|]] eqn:Eput; [|done]. destruct (ObjectIdValid id) eqn:Hid; [|done]. injection Hjoin as <- _.
  apply put_ok in Eput as (kv & n & Ew & ->). destruct (parsed_key_named _ _ Ep) as [Hn1 Hn2].
  destruct (kv_write_ok _ _ _ _ _ _ Ew) as (Rd & _ & _ & _ & Hco & _).
  set (s1 := with_zone _ s0). destruct (save_key_ok (host_key id ak) s1 Hn1 Hn2) as (Hk & Hr & Ho).
  exists id, ak, (host_key id ak). do 3 (split; [done|]). split; [|split; [by apply Hco|split; [exact Hr|split; [exact Hk|split; [done|]]]]].
  - exists n. cbn [zs_zone force_refresh with_zone set_force zl_kv]. rewrite <- Rd. cbn [kv_read zone_Kv].
    f_equal. apply Ho. intros C. unfold NsHostInfo, NsZoneletAccessKey in C. discriminate C.
  - intros id' Hid'. by apply host_key_allows.
Qed.
End join.

(** * The settings of the zone *)

Section zone.
Context `{Ip6Syntax} `{PeerLib} {S : Type} {K : Kv S zone_value} `{MapRange}.
Implicit Types s : zone_server S.

(** In dotted syntax the network is that of its four bytes. *)
Definition dotted (cidr : string) : Prop := exists addr mask, cut_at "/" cidr = Some (addr, mask) /\ ip_kind addr = Some "."%char.
Lemma validate_net4 cidr field n net : dotted cidr -> validatePrivateCIDR cidr field n = Ok net ->
  exists ip, ip4 ip /\ net = net4 ip n /\ exists full, ParseCIDR cidr = Some full /\ To4 full = Some ip /\ is_Some (match ParsePrivateIP (ip_string full) with Ok x => Some x | Err _ => None end).
Proof.
  intros (addr & mask & Ec & Ek). unfold validatePrivateCIDR, ParseCIDR_net. rewrite Ec.
  destruct (ParseCIDR cidr) as [full|]; [|done]. rewrite Ek. destruct (To4 full) as [ip|] eqn:E4; [|by rewrite E4].
  rewrite E4. destruct (ParsePrivateIP (ip_string full)) as [x|] eqn:Ex; [|done]. destruct (Z.eqb_spec (default 0 (parse_uint 32 mask)) n) as [->|]; [|done].
  cbn [negb]. intros [= <-]. exists ip. split; [|split; [done|]].
  - unfold To4 in E4. case_bool_decide as Hb; [|done]. injection E4 as <-. unfold ip4. rewrite length_drop. by rewrite (proj1 Hb).
  - exists full. rewrite Ex. split_and!; [done|done|by eexists].
Qed.

(** The networks of a zone that are accepted, in dotted syntax, are a private /24 and a
    private /16 with no address in common; they are set all three together, and only for a
    caller with the right to, on the leader. *)
Theorem zone_networks_disjoint who now req s s' zone (Hset : ZoneSet who now req s = (s', Ok zone)) :
  cl_leader who = true /\ authAllow (cl_key who) AuthScope_Zone_Write = Ok tt /\
  (zn_VpcBridgeCidr zone, zn_VpcInstanceCidr zone, zn_VpcNetworkDomain zone) =
    (zq_VpcBridgeCidr req, zq_VpcInstanceCidr req, zq_VpcNetworkDomain req) /\
  zl_force (zs_zone s') = true /\
  (dotted (zq_VpcBridgeCidr req) -> dotted (zq_VpcInstanceCidr req) -> exists a b,
    validatePrivateCIDR (zq_VpcBridgeCidr req) "vpc_bridge_cidr" 24 = Ok (net4 a 24) /\
    validatePrivateCIDR (zq_VpcInstanceCidr req) "vpc_instance_cidr" 16 = Ok (net4 b 16) /\
    forall x, ip4 x -> ~ (net_contains (net4 a 24) x = true /\ net_contains (net4 b 16) x = true)).
Proof.
  unfold ZoneSet in Hset. destruct (set_valid who req s) as [[]|] eqn:Ev; [|done].
  destruct (read_zone _ s) as [z0|]; [|done]. cbn [rbind] in Hset. cbv zeta in Hset. destruct (put kv_default _ _ s) as [s1 [[]|]]; [|done].
  destruct (ZoneSetup _ _ _ _ _ _ _) as [[kv nm] [[]|]]; [|done]. injection Hset as <- <-.
  unfold set_valid in Ev. destruct (cl_leader who); [|done]. cbn [negb] in Ev. destruct (authAllow _ _) as [[]|] eqn:Ea; [|done].
  cbn [rbind] in Ev. destruct (bool_decide (zname s = "")); [done|]. destruct (_ || _ || _); [done|].
  destruct (validatePrivateCIDR _ "vpc_bridge_cidr" 24) as [na|] eqn:E1; [|done]. cbn [rbind] in Ev.
  destruct (validatePrivateCIDR _ "vpc_instance_cidr" 16) as [nb|] eqn:E2; [|done]. cbn [rbind] in Ev.
  destruct (cidrsOverlap na nb) eqn:Eo; [done|]. do 4 (split; [done|]). intros D1 D2.
  destruct (validate_net4 _ _ _ _ D1 E1) as (a & Ha & -> & _). destruct (validate_net4 _ _ _ _ D2 E2) as (b & Hb & -> & _).
  exists a, b. do 2 (split; [done|]). intros x Hx [Hxa Hxb].
  enough (cidrsOverlap (net4 a 24) (net4 b 16) = true) by congruence.
  unfold cidrsOverlap. rewrite (contains_net4 b 16) by (try done; by apply length_land, length_mask).
  cbn [in_IP net4]. rewrite contains_net4 in Hxa, Hxb by done. apply bool_decide_eq_true in Hxa, Hxb.
  apply orb_true_iff. right. apply bool_decide_eq_true_2. rewrite Hxb. rewrite Hxa.
  symmetry. apply land_bytes_sub; [by rewrite length_mask|by rewrite !length_mask|by apply mask_sub].
Qed.

(** After a request that passed its checks, whether it succeeded or not, the zone has its
    name in the settings, and every later request is refused and changes nothing. *)
Theorem zone_init_once who name who2 name2 s s' r n :
  init_request who name s = Ok n -> ZoneInit who name s = (s', r) ->
  zname s' = n /\ n <> "" /\ gs_ZoneHosts (zs_settings s') = [peer_addr (zs_settings s)] /\
  exists e, ZoneInit who2 name2 s' = (s', Err e).
Proof.
  intros Ei E. unfold ZoneInit in E. rewrite Ei in E. set (g := with_zone_name _ _ _) in *.
  assert (Hg : zs_settings s' = g).
  { unfold put in E. destruct (kv_write _ _ _ _) as [kv [v| |]]; [|by injection E as <- _..].
    destruct (config_Flush g); [|by injection E as <- _]. destruct (kv_write _ _ _ _) as [kv2 [v2| |]]; by injection E as <- _. }
  assert (Hn : n <> "").
  { unfold init_request in Ei. destruct (authAllow _ _); [|done]. destruct (NameValid _) as [[]|] eqn:Ev; [|done].
    destruct (_ || _); [done|]. injection Ei as <-. intros C. rewrite C in Ev. discriminate Ev. }
  unfold zname. rewrite Hg. do 3 (split; [done|]). unfold ZoneInit.
  destruct (init_request who2 name2 s') as [n2|e] eqn:E2; [|by exists e]. exfalso.
  unfold init_request in E2. destruct (authAllow _ _); [|done]. destruct (NameValid _); [|done].
  unfold zname in E2. rewrite Hg in E2. cbn [gs_ZoneName g with_zone_name] in E2. by rewrite bool_decide_eq_false_2 in E2.
Qed.
End zone.

(** * The logs of a container *)

(** The lines that are kept are the most that fit, with their ends, into a mebibyte. *)
Theorem cut_lines_spec lines : forall size kept cut, cut_lines size lines = (kept, cut) -> size <= appLogsMaxBytes ->
  exists rest, lines = (kept ++ rest)%list /\ (cut = false <-> rest = []) /\
    size + foldr (fun l n => slen l + 1 + n) 0 kept <= appLogsMaxBytes /\
    forall line rest', rest = line :: rest' -> appLogsMaxBytes < size + foldr (fun l n => slen l + 1 + n) 0 kept + (slen line + 1).
Proof.
  induction lines as [|l lines IH]; intros size kept cut E Hs; cbn [cut_lines] in E.
  - injection E as <- <-. exists []. cbn. split_and!; [done|done|lia|done].
  - destruct (Z.ltb_spec appLogsMaxBytes (size + slen l + 1)) as [Hlt|Hge].
    + injection E as <- <-. exists (l :: lines). cbn. split_and!; [done|done|lia|]. intros ? ? [= <- _]. lia.
    + destruct (cut_lines _ lines) as [k c] eqn:Ec. injection E as <- <-.
      destruct (IH _ _ _ Ec Hge) as (rest & -> & Hc & Hle & Hgt). exists rest. cbn [app foldr]. split_and!; [done|done|lia|].
      intros line rest' Hr. specialize (Hgt _ _ Hr). lia.
Qed.

(** * A zone with one host that joins *)

Section example.
Local Existing Instance no_ip6.

Definition ex_peer_id : string := "bbbbbbbbbbbb".
Definition peer_of (id : string) : PeerLib := {|
  Ip4AddrValid := fun s => if bool_decide (s = "") then Err "required" else Ok tt;
  NewClient := fun _ _ => Ok tt;
  peer_HostInit := fun _ _ => Ok {| hp_HostId := id; hp_Status := None |};
  peer_ContainerLogs := fun _ _ => Ok ([], false);
  config_Flush := fun _ => Ok tt |}.
Definition ex_settings (zone : string) (hosts : list string) : zone_settings :=
  {| gs_ZoneName := zone; gs_ZoneHosts := hosts; gs_LanAddr := "192.168.1.10"; gs_PeerPort := 9529; gs_HostId := ex_host;
     gs_AccessKey := "ak_0123456789ab_0123456789abcdef" |}.
Definition ex_server (zone : string) (hosts : list string) (kv : mem_store zone_value) : zone_server (mem_store zone_value) :=
  {| zs_zone := set_store ex_zone kv; zs_keys := NewAccessKeyManager; zs_settings := ex_settings zone hosts; zs_conns := ∅ |}.
Definition ex_admin : caller :=
  {| cl_key := Some {| ak_Id := "k"; ak_Secret := "s"; ak_User := ""; ak_Type := "User"; ak_State := ""; ak_Scopes := ["*"] |}; cl_leader := true |}.
Definition ex_join : HostJoinRequest := {| jq_Addr := "192.168.1.12:9529"; jq_AccessKey := "ak_ba9876543210_fedcba9876543210" |}.
Definition ex_joined := HostJoin (H0 := peer_of ex_peer_id) ex_admin ex_join (ex_server "z1" ["192.168.1.10:9529"] ex_db).

Example joined_host_reports_witness : exists k, Key "ba9876543210" (zs_keys (fst ex_joined)) = Some k /\
  authAllow (Some k) "host:rw:bbbbbbbbbbbb" = Ok tt /\ authAllow (Some k) "host:rw:aaaaaaaaaaaa" <> Ok tt.
Proof.
  destruct ex_joined as [s' [st|e]] eqn:E; [|by vm_compute in E].
  destruct (joined_host_reports (H0 := peer_of ex_peer_id) ex_admin ex_join (ex_server "z1" ["192.168.1.10:9529"] ex_db) s' st E)
    as (id & ak & k & Hp & _ & _ & _ & _ & _ & Hk & _ & Hall).
  assert (Eid : ak_Id ak = "ba9876543210") by (vm_compute in Hp; by injection Hp as <-). rewrite Eid in Hk.
  exists k. split; [exact Hk|].
  assert (Hb : authAllow (Some k) "host:rw:bbbbbbbbbbbb" = Ok tt).
  { assert (Es : zs_keys s' = zs_keys (fst ex_joined)) by (by rewrite E). rewrite Es in Hk. vm_compute in Hk. injection Hk as <-. reflexivity. }
  split; [exact Hb|]. intros C. apply (Hall "aaaaaaaaaaaa" eq_refl) in C. apply (Hall "bbbbbbbbbbbb" eq_refl) in Hb. congruence.
Defined.

Definition ex_set : ZoneSetRequest := {| zq_VpcBridgeCidr := "10.9.0.0/24"; zq_VpcInstanceCidr := "10.8.0.0/16"; zq_VpcNetworkDomain := "zone.local" |}.
Definition ex_set_done := ZoneSet ex_admin 100 ex_set (ex_server "z1" ["192.168.1.10:9529"] ex_db).
Example zone_networks_disjoint_witness : exists zone, snd ex_set_done = Ok zone /\
  exists a b, validatePrivateCIDR "10.9.0.0/24" "vpc_bridge_cidr" 24 = Ok (net4 a 24) /\
    validatePrivateCIDR "10.8.0.0/16" "vpc_instance_cidr" 16 = Ok (net4 b 16) /\
    forall x, ip4 x -> ~ (net_contains (net4 a 24) x = true /\ net_contains (net4 b 16) x = true).
Proof.
  destruct ex_set_done as [s' [zone|e]] eqn:E; [|by vm_compute in E]. exists zone. split; [done|].
  destruct (zone_networks_disjoint ex_admin 100 ex_set (ex_server "z1" ["192.168.1.10:9529"] ex_db) s' zone E) as (_ & _ & _ & _ & H').
  apply H'; eexists _, _; split; reflexivity.
Defined.
Example overlapping_refused : snd (ZoneSet ex_admin 100 {| zq_VpcBridgeCidr := "10.8.4.0/24"; zq_VpcInstanceCidr := "10.8.0.0/16"; zq_VpcNetworkDomain := "d" |}
  (ex_server "z1" [] ex_db)) = Err "vpc_bridge_cidr and vpc_instance_cidr must not overlap".
Proof. vm_compute. reflexivity. Qed.

(** A host whose id is no id is refused, and its record stays. *)
Example refused_host_stays :
  let r := HostJoin (H0 := peer_of "x") ex_admin ex_join (ex_server "z1" [] ex_db) in
  snd r = Err "invalid host_id" /\ kv_ok (kv_read (V := ZoneHost) (zl_kv (zs_zone (fst r))) (NsHostInfo "z1" "x")) = true.
Proof. vm_compute. split; reflexivity. Qed.

(** The record of the zone is there already: the request fails, and has named the zone. *)
Example failed_init_names_zone :
  let r := ZoneInit (H0 := peer_of "x") ex_admin "Z1a" (ex_server "" [] (ex_put mem_empty (NsZoneletInfo "z1a",
    {| zn_Name := "z1a"; zn_Hosts := []; zn_VpcBridgeCidr := ""; zn_VpcInstanceCidr := ""; zn_VpcNetworkDomain := "" |}))) in
  snd r = Err "version conflict" /\ zname (fst r) = "z1a" /\
  snd (ZoneInit (H0 := peer_of "x") ex_admin "other" (fst r)) = Err "System already initialized".
Proof. vm_compute. split_and!; reflexivity. Qed.

(** Replica 0 cannot be asked for: the number means the first replica that is placed. *)
Example replica_zero_not_asked : logs_replica {| aq_Name := "web"; aq_ReplicaId := 0; aq_Tail := 0; aq_StartTime := 0 |}
  [ex_rep 1 ex_host []; ex_rep 0 ex_host []] = Some (ex_rep 1 ex_host []).
Proof. reflexivity. Qed.
End example.

(** An address of IPv4 in the syntax of IPv6 has a mask of 128 bits: a /24 of it is the
    network of no address of IPv4, and overlaps nothing. *)
Definition mapped_ip6 : Ip6Syntax :=
  {| parse_ip6 := fun s => if bool_decide (s = "::ffff:10.8.4.0") then Some (v4_in_v6 ++ [10; 8; 4; 0])%list else None; string_ip6 := fun _ => "" |}.
Example mapped_cidr_escapes : match validatePrivateCIDR (H := mapped_ip6) "::ffff:10.8.4.0/24" "f" 24, validatePrivateCIDR (H := mapped_ip6) "10.8.0.0/16" "f" 16 with
  | Ok a, Ok b => cidrsOverlap a b = false
  | _, _ => False
  end.
Proof. vm_compute. reflexivity. Qed.

(** A connection is found by the id of its key: with a new secret the old one is used. *)
Example new_secret_old_connection (P : PeerLib) addr k k' conns conns' c : ak_Id k' = ak_Id k ->
  Connect addr (Some k) conns = (conns', Ok c) -> Connect addr (Some k') conns' = (conns', Ok c).
Proof.
  unfold Connect. intros Ei. replace (conn_key addr (Some k')) with (conn_key addr (Some k)) by (unfold conn_key; by rewrite Ei).
  destruct (conns !! _) as [c0|] eqn:E; [intros [= <- <-]; by rewrite E|]. destruct (NewClient _ _); [|done].
  intros [= <- <-]. by rewrite lookup_insert_eq.
Qed.
