(* ===== verification/Counter.v ===== *)
(** The sliding counters of a host, [src/internal/inutil/stat.go]: a ring of one sample a
    second of a value that only grows, and the increment of it over the last seconds, which
    the rates of hosts and replicas are made of.

    A read or a write outside the ring is a panic, [None] here. *)
From Stdlib Require Import ZArith Lia.
From S2P Require Import Prelude.
Local Open Scope Z_scope.
Local Open Scope go_scope.


Record SlidingCounter := { sc_samples : list Z; sc_lastSeconds : Z; sc_lastValue : Z; sc_size : Z }.

(** The ring has [maxSeconds] samples, its size is at least a minute. *)
Definition NewSlidingCounter (maxSeconds : Z) : SlidingCounter :=
  {| sc_samples := replicate (Z.to_nat maxSeconds) 0; sc_lastSeconds := 0; sc_lastValue := 0; sc_size := Z.max 60 maxSeconds |}.

Definition sample (i : Z) (c : SlidingCounter) : option Z := if i <? 0 then None else sc_samples c !! Z.to_nat i.
Definition put_sample (i v : Z) (samples : list Z) : option (list Z) :=
  if (i <? 0) || (Z.of_nat (length samples) <=? i) then None else Some (<[Z.to_nat i := v]> samples).
(** Seconds [from .. from + n - 1] have one value. *)
Fixpoint fill (size v from : Z) (n : nat) (samples : list Z) : option (list Z) :=
  match n with
  | O => Some samples
  | S n => s ← put_sample (Z.rem from size) v samples; fill size v (from + 1) n s
  end.
Definition with_samples (s : list Z) (c : SlidingCounter) : SlidingCounter :=
  {| sc_samples := s; sc_lastSeconds := sc_lastSeconds c; sc_lastValue := sc_lastValue c; sc_size := sc_size c |}.

(** The first value, or one that is smaller than the last, starts the ring again. *)
Definition restart (t totalValue : Z) (c : SlidingCounter) : option SlidingCounter :=
  if (sc_lastSeconds c =? 0) || (totalValue <? sc_lastValue c) then
    s ← fill (sc_size c) totalValue 0 (Z.to_nat (sc_size c)) (sc_samples c);
    Some {| sc_samples := s; sc_lastSeconds := t; sc_lastValue := totalValue; sc_size := sc_size c |}
  else Some c.
Definition Record_ (t totalValue : Z) (c : SlidingCounter) : option SlidingCounter :=
  c ← restart t totalValue c;
  if t =? sc_lastSeconds c then
    s ← put_sample (Z.rem t (sc_size c)) totalValue (sc_samples c);
    Some (with_samples s c)
  else
    s ← fill (sc_size c) (sc_lastValue c) (sc_lastSeconds c + 1) (Z.to_nat (t - sc_lastSeconds c - 1)) (sc_samples c);
    s ← put_sample (Z.rem t (sc_size c)) totalValue s;
    Some {| sc_samples := s; sc_lastSeconds := t; sc_lastValue := totalValue; sc_size := sc_size c |}.
Definition Delta (t seconds : Z) (c : SlidingCounter) : option Z :=
  let seconds := if sc_size c <? seconds then sc_size c else seconds in
  a ← sample (Z.rem t (sc_size c)) c;
  b ← sample (Z.rem (t - seconds) (sc_size c)) c;
  Some (Z.max 0 (a -64 b)).

(** [GroupSlidingCounter]: counters by name, made when they are asked for. *)
Record GroupSlidingCounter := { gc_metrics : gmap string SlidingCounter; gc_size : Z }.
Definition NewGroupSlidingCounter (maxSeconds : Z) : GroupSlidingCounter :=
  {| gc_metrics := ∅; gc_size := Z.max 60 maxSeconds |}.
Definition Counter (name : string) (g : GroupSlidingCounter) : SlidingCounter :=
  match gc_metrics g !! name with Some c => c | None => NewSlidingCounter (gc_size g) end.
(** [g.Counter(name).Record(v)] *)
Definition group_record (name : string) (t v : Z) (g : GroupSlidingCounter) : option GroupSlidingCounter :=
  c ← Record_ t v (Counter name g);
  Some {| gc_metrics := <[name := c]> (gc_metrics g); gc_size := gc_size g |}.

(** * The increment over the last seconds *)

(** The value at a time, of records with the newest first: that of the last record before,
    or of the first there is. *)
Fixpoint as_of (records : list (Z * Z)) (t : Z) : Z :=
  match records with
  | [] => 0
  | (t0, v) :: older => if (t0 <=? t) || bool_decide (older = []) then v else as_of older t
  end.
(** Times that grow and values that do not fall, from a first time that is not zero. *)
Fixpoint growing (records : list (Z * Z)) : Prop :=
  match records with
  | [] => True
  | (t, v) :: older => 0 < t /\ 0 <= v < 2 ^ 63 /\ growing older /\
      match older with [] => True | (t0, v0) :: _ => t0 < t /\ v0 <= v end
  end.
Fixpoint recorded (records : list (Z * Z)) (c : SlidingCounter) : option SlidingCounter :=
  match records with
  | [] => Some c
  | (t, v) :: older => c ← recorded older c; Record_ t v c
  end.

Section ring.
Variable size : Z.
Hypothesis Hsize : 60 <= size.

Definition ring (s : list Z) : Prop := Z.of_nat (length s) = size.

Lemma rem_small t : 0 <= t -> 0 <= Z.rem t size < size.
Proof. intros Ht. apply Z.rem_bound_pos; lia. Qed.
Lemma put_sample_ok i v s : ring s -> 0 <= i < size -> put_sample i v s = Some (<[Z.to_nat i := v]> s).
Proof.
  intros Hs Hi. unfold put_sample. unfold ring in Hs. destruct (Z.ltb_spec i 0); [lia|]. destruct (Z.leb_spec (Z.of_nat (length s)) i); [lia|done].
Qed.

(** What a fill leaves: the value at the seconds it goes over, the old sample elsewhere. *)
Definition filled (from : Z) (n : nat) (r : Z) : Prop := exists k, (k < n)%nat /\ Z.rem (from + Z.of_nat k) size = r.
#[local] Instance filled_dec from n r : Decision (filled from n r).
Proof.
  refine (cast_if (decide (Exists (fun k => Z.rem (from + Z.of_nat k) size = r) (seq 0 n)))); rewrite Exists_exists in *.
  - destruct e as (k & Hk & E). exists k. apply elem_of_seq in Hk. split; [lia|done].
  - intros (k & Hk & E). apply n0. exists k. rewrite elem_of_seq. split; [lia|done].
Defined.
Lemma fill_ok v n : forall from s, ring s -> 0 <= from ->
  exists s', fill size v from n s = Some s' /\ ring s' /\
    forall r, 0 <= r < size ->
      (filled from n r -> s' !! Z.to_nat r = Some v) /\ (~ filled from n r -> s' !! Z.to_nat r = s !! Z.to_nat r).
Proof.
  induction n as [|n IH]; intros from s Hs Hf; cbn [fill].
  - exists s. split_and!; [done|done|]. intros r Hr. split; [intros (k & Hk & _); lia|done].
  - rewrite put_sample_ok by (auto using rem_small). cbn. set (s1 := <[_ := v]> s).
    destruct (IH (from + 1) s1) as (s' & E & Hs' & Hl); [unfold s1, ring; by rewrite length_insert|lia|].
    exists s'. split_and!; [done|done|]. intros r Hr. destruct (Hl r Hr) as [H1 H2].
    assert (Hrem := rem_small from Hf). split.
    + intros (k & Hk & Ek). destruct (decide (filled (from + 1) n r)) as [Hd|Hd]; [by apply H1|].
      destruct k as [|k]; [|exfalso; apply Hd; exists k; split; [lia|rewrite <- Ek; f_equal; lia]].
      rewrite H2 by done. unfold s1. replace (Z.to_nat r) with (Z.to_nat (Z.rem from size)) by (rewrite <- Ek; do 2 f_equal; lia).
      apply list_lookup_insert_eq. unfold ring in Hs. lia.
    + intros Hn. rewrite H2 by (intros (k & Hk & Ek); apply Hn; exists (S k); split; [lia|rewrite <- Ek; f_equal; lia]).
      unfold s1. apply list_lookup_insert_ne. intros E'. apply Hn. exists 0%nat. split; [lia|]. rewrite Z.add_0_r. lia.
Qed.

(** Two seconds less than a round apart have places of their own. *)
Lemma rem_apart a b : 0 <= a < b -> b - a < size -> Z.rem a size <> Z.rem b size.
Proof.
  intros Hab Hd E. rewrite !Z.rem_mod_nonneg in E by lia.
  assert (Hz : (b - a) mod size = 0) by (rewrite Zminus_mod, E, Z.sub_diag; by apply Z.mod_0_l; lia).
  rewrite Z.mod_small in Hz by lia. lia.
Qed.

(** The ring after some records. *)
Definition shows (records : list (Z * Z)) (c : SlidingCounter) : Prop :=
  ring (sc_samples c) /\ sc_size c = size /\
  match records with
  | [] => sc_lastSeconds c = 0
  | (t, v) :: _ => sc_lastSeconds c = t /\ sc_lastValue c = v /\
      forall u, 0 <= u <= t -> t - size < u -> sc_samples c !! Z.to_nat (Z.rem u size) = Some (as_of records u)
  end.

Lemma shows_first t v c : 0 < t -> shows [] c -> exists c', Record_ t v c = Some c' /\ shows [(t, v)] c'.
Proof.
  intros Ht (Hr & Hsz & Hl). unfold Record_, restart. rewrite Hl, Hsz. cbn [Z.eqb orb].
  destruct (fill_ok v (Z.to_nat size) 0 (sc_samples c) Hr) as (s & E & Hs & Hall); [lia|]. rewrite E. cbn [mbind option_bind sc_lastSeconds].
  rewrite Z.eqb_refl. cbn [sc_size sc_samples]. rewrite put_sample_ok by (auto using rem_small with lia). cbn.
  eexists. split; [done|]. split; [unfold ring in *; cbn; by rewrite length_insert|]. split; [done|]. cbn. do 2 (split; [done|]).
  intros u Hu _. rewrite orb_true_r. pose proof (rem_small u ltac:(lia)) as Hru. pose proof (rem_small t ltac:(lia)) as Hrt.
  unfold ring in Hs. destruct (decide (Z.rem u size = Z.rem t size)) as [->|Hne]; [apply list_lookup_insert_eq; lia|].
  rewrite list_lookup_insert_ne by lia. apply Hall; [lia|]. exists (Z.to_nat (Z.rem u size)). split; [lia|].
  rewrite Z.add_0_l, Z2Nat.id by lia. apply Z.rem_small. lia.
Qed.

Lemma shows_next t v t0 v0 older c : 0 < t0 < t -> v0 <= v -> shows ((t0, v0) :: older) c ->
  exists c', Record_ t v c = Some c' /\ shows ((t, v) :: (t0, v0) :: older) c'.
Proof.
  intros Ht Hv (Hr & Hsz & Hl & Hlv & Hall). unfold Record_, restart. rewrite Hl, Hlv, Hsz.
  destruct (Z.eqb_spec t0 0); [lia|]. destruct (Z.ltb_spec v v0); [lia|]. cbn [orb mbind option_bind].
  rewrite Hl, Hlv, Hsz. destruct (Z.eqb_spec t t0); [lia|].
  destruct (fill_ok v0 (Z.to_nat (t - t0 - 1)) (t0 + 1) (sc_samples c) Hr) as (s & E & Hs & Hf); [lia|]. rewrite E. cbn [mbind option_bind].
  rewrite put_sample_ok by (auto using rem_small with lia). cbn [mbind option_bind]. eexists. split; [done|].
  split; [unfold ring in *; cbn; by rewrite length_insert|]. split; [done|]. cbn [sc_lastSeconds sc_lastValue sc_samples]. do 2 (split; [done|]).
  intros u Hu Hw. pose proof (rem_small u ltac:(lia)) as Hru. pose proof (rem_small t ltac:(lia)) as Hrt. unfold ring in Hs.
  cbn [as_of]. destruct (Z.leb_spec t u) as [Hle|Hlt].
  - replace u with t by lia. cbn [orb]. apply list_lookup_insert_eq. lia.
  - rewrite bool_decide_eq_false_2 by done. cbn [orb]. rewrite list_lookup_insert_ne by (pose proof (rem_apart u t); lia).
    destruct (Hf (Z.rem u size) Hru) as [H1 H2]. destruct (Z.leb_spec t0 u) as [Hge|Hlt0].
    + cbn [orb]. destruct (decide (u = t0)) as [->|Hne].
      * rewrite H2; [|intros (k & Hk & Ek); symmetry in Ek; apply rem_apart in Ek; [done|lia|lia]].
        rewrite Hall by lia. cbn [as_of]. by rewrite Z.leb_refl.
      * apply H1. exists (Z.to_nat (u - t0 - 1)). split; [lia|]. f_equal. lia.
    + rewrite H2; [|intros (k & Hk & Ek); symmetry in Ek; apply rem_apart in Ek; [done|lia|lia]].
      rewrite Hall by lia. cbn [as_of]. destruct (Z.leb_spec t0 u); [lia|done].
Qed.

Lemma shows_all records : growing records -> exists c, recorded records (NewSlidingCounter size) = Some c /\ shows records c.
Proof.
  induction records as [|[t v] older IH]; cbn [growing recorded].
  - intros _. eexists. split; [done|]. split; [unfold ring; cbn; rewrite length_replicate; lia|]. cbn. lia.
  - intros (Ht & Hv & Hg & Hlast). destruct (IH Hg) as (c & E & Hs). rewrite E. cbn [mbind option_bind].
    destruct older as [|[t0 v0] older]; [by apply shows_first|]. apply shows_next; [|lia|done]. destruct Hg as (? & _). lia.
Qed.

Lemma as_of_range records u : growing records -> 0 <= as_of records u < 2 ^ 63.
Proof.
  induction records as [|[t v] older IH]; cbn [growing as_of]; [lia|]. intros (_ & Hv & Hg & _). destruct (_ || _); [done|auto].
Qed.
Lemma as_of_le records t v u : growing ((t, v) :: records) -> as_of ((t, v) :: records) u <= v.
Proof.
  revert t v. induction records as [|[t0 v0] older IH]; intros t v; cbn [growing as_of].
  - intros _. rewrite orb_true_r. lia.
  - intros (_ & _ & Hg & _ & Hv). destruct (t <=? u); cbn [orb]; [lia|]. rewrite bool_decide_eq_false_2 by done.
    specialize (IH t0 v0 Hg). cbn [as_of] in IH. lia.
Qed.
End ring.

(** of a value that does not fall, recorded once in a second at most, however long the
    gaps, the increment over the last seconds, fewer than the ring has, is the value of the
    last record less the value that was the last one that many seconds ago. *)
Theorem delta_exact size records t v seconds
  (Hsize : 60 <= size) (Hgrow : growing ((t, v) :: records)) (Hsec : 0 <= seconds < size) (Hback : seconds <= t) :
  exists c, recorded ((t, v) :: records) (NewSlidingCounter size) = Some c /\
    Delta t seconds c = Some (v - as_of ((t, v) :: records) (t - seconds)).
Proof.
  destruct (shows_all size Hsize _ Hgrow) as (c & E & (Hr & Hsz & _ & _ & Hall)). exists c. split; [exact E|].
  assert (Ht : 0 < t) by apply Hgrow. unfold Delta. rewrite Hsz. destruct (Z.ltb_spec size seconds); [lia|].
  assert (Hs : forall u, 0 <= u <= t -> t - size < u -> sample (Z.rem u size) c = Some (as_of ((t, v) :: records) u)).
  { intros u H1 H2. unfold sample. pose proof (rem_small size Hsize u ltac:(lia)). destruct (Z.ltb_spec (Z.rem u size) 0); [lia|]. by apply Hall. }
  rewrite !Hs by lia. cbn [mbind option_bind]. f_equal. cbn [as_of]. rewrite Z.leb_refl. cbn [orb].
  pose proof (as_of_range ((t, v) :: records) (t - seconds) Hgrow) as Hb. pose proof (as_of_le records t v (t - seconds) Hgrow) as Hle.
  cbn [as_of] in Hb, Hle. rewrite i64_id; [lia|]. unfold in_i64. destruct Hgrow as (_ & Hv & _). lia.
Qed.
Example delta_exact_witness : exists c, recorded [(1000, 90); (950, 70); (930, 10)] (NewSlidingCounter 900) = Some c /\
  Delta 1000 60 c = Some (90 - 10).
Proof. apply (delta_exact 900 [(950, 70); (930, 10)] 1000 90 60); cbn; lia. Defined.

(** Over the whole ring the increment is nothing. *)
Theorem delta_of_ring_zero size records t v seconds : 60 <= size -> growing ((t, v) :: records) -> size <= seconds -> size <= t ->
  exists c, recorded ((t, v) :: records) (NewSlidingCounter size) = Some c /\ Delta t seconds c = Some 0.
Proof.
  intros Hsize Hgrow Hs Ht. destruct (shows_all size Hsize _ Hgrow) as (c & E & (Hr & Hsz & _ & _ & Hall)). exists c. split; [exact E|].
  unfold Delta. rewrite Hsz. replace (if size <? seconds then size else seconds) with size by (destruct (Z.ltb_spec size seconds); lia).
  assert (Er : Z.rem (t - size) size = Z.rem t size).
  { rewrite !Z.rem_mod_nonneg by lia. rewrite <- (Z.mod_add (t - size) 1 size) by lia. f_equal. lia. }
  rewrite Er. unfold sample. pose proof (rem_small size Hsize t ltac:(lia)). destruct (Z.ltb_spec (Z.rem t size) 0); [lia|].
  rewrite (Hall t) by lia. cbn [mbind option_bind]. by rewrite Z.sub_diag.
Qed.

(** A second record of a second is not remembered as the last value: the seconds after it
    show the first. *)
Example second_record_forgotten :
  match (c ← recorded [(102, 50); (100, 40); (100, 10)] (NewSlidingCounter 60); Delta 102 1 c) with Some d => d | None => -1 end = 40.
Proof. vm_compute. reflexivity. Qed.
(** Between two seconds the ring shows what was there a round ago. *)
Example late_read_shows_old_sample :
  match (c ← recorded [(161, 70); (101, 60); (100, 5)] (NewSlidingCounter 60); Delta 162 1 c) with Some d => d | None => -1 end = 0 /\
  match (c ← recorded [(100, 40); (99, 10)] (NewSlidingCounter 60); Delta 101 1 c) with Some d => d | None => -1 end = 0.
Proof. vm_compute. split; reflexivity. Qed.
(** A counter of less than a minute has a ring that is too short. *)
Example short_counter_panics : Record_ 100 1 (NewSlidingCounter 30) = None.
Proof. vm_compute. reflexivity. Qed.
