(* ===== verification/HostPoll.v ===== *)
(** The turn of a host every three seconds, [statusRefresh] of
    [src/internal/hostlet/task_status.go]: it measures the host, reports to the leader, and
    takes over what the leader answers: the instances, the containers that are wanted, and
    the network of the zone.

    The report and its answer are two steps, [poll_begin] and [poll_end]: the handler of the
    agents' reports runs in between.  What the operating system answers is an argument. *)
From Stdlib Require Import ZArith Lia.
From S2P Require Import Prelude GoStrings GoPath AppNames Inet Ns Kv Ipam Stage Zone Auth Packages Metrics Refresh Hostlet Counter ZoneReport.
Local Open Scope string_scope.
Local Open Scope Z_scope.
Local Open Scope go_scope.

(** ** Measuring *)

Record PartitionStat := { pt_Device : string; pt_Mountpoint : string }.
(** [diskDevName] on Linux *)
Definition mount_after (a b : PartitionStat) : bool := str_lt (pt_Mountpoint b) (pt_Mountpoint a).
Definition mounts (path : string) (p : PartitionStat) : bool := has_prefix (pt_Device p) "/dev/" && has_prefix path (pt_Mountpoint p).
Definition dev_name (device : string) : string := String.substring 5 (String.length device - 5) device.
Definition diskDevName `{SortSlice} (pls : list PartitionStat) (path : string) : string * string :=
  match List.find (mounts (Clean path)) (sort_slice mount_after pls) with
  | Some v => (dev_name (pt_Device v), pt_Mountpoint v)
  | None => ("", "")
  end.

(** What the system tells: memory, network, processor times in ms, the partitions, the
    counters of a device and the space of a mount point. *)
Record readings := {
  rd_cores : Z; rd_mem : option (Z * Z * Z); rd_net : option (Z * Z); rd_cpu : option (Z * Z);
  rd_parts : list PartitionStat; rd_io : string -> option (Z * Z); rd_usage : string -> option (Z * Z) }.
Record host_meter := { mt_status : HostStatus; mt_counter : GroupSlidingCounter; mt_diskFreshed : Z }.

(** [Counter(name).Record(v)] and its [Delta] over a minute, read in the same second. *)
Definition rate (name : string) (t v : Z) (g : GroupSlidingCounter) : option (Z * GroupSlidingCounter) :=
  g ← group_record name t v g;
  d ← Delta t Zone.Window1Min (Counter name g);
  Some (d, g).
Definition rates (a b : string) (t : Z) (v : Z * Z) (g : GroupSlidingCounter) : option (Z * Z * GroupSlidingCounter) :=
  '(x, g) ← rate a t (fst v) g;
  '(y, g) ← rate b t (snd v) g;
  Some (x, y, g).

Definition with_mem (m : Z * Z * Z) (s : HostStatus) : HostStatus :=
  {| hs_HostId := hs_HostId s; hs_Updated := hs_Updated s; hs_CpuCores := hs_CpuCores s; hs_CpuSys := hs_CpuSys s; hs_CpuUser := hs_CpuUser s;
     hs_MemTotal := fst (fst m); hs_MemUsed := snd (fst m); hs_MemAvailable := snd m;
     hs_NetRecvBytes := hs_NetRecvBytes s; hs_NetSentBytes := hs_NetSentBytes s; hs_DiskReadBytes := hs_DiskReadBytes s;
     hs_DiskWriteBytes := hs_DiskWriteBytes s; hs_DiskTotalBytes := hs_DiskTotalBytes s; hs_DiskFreeBytes := hs_DiskFreeBytes s |}.
Definition with_net (r w : Z) (s : HostStatus) : HostStatus :=
  {| hs_HostId := hs_HostId s; hs_Updated := hs_Updated s; hs_CpuCores := hs_CpuCores s; hs_CpuSys := hs_CpuSys s; hs_CpuUser := hs_CpuUser s;
     hs_MemTotal := hs_MemTotal s; hs_MemUsed := hs_MemUsed s; hs_MemAvailable := hs_MemAvailable s;
     hs_NetRecvBytes := r; hs_NetSentBytes := w; hs_DiskReadBytes := hs_DiskReadBytes s;
     hs_DiskWriteBytes := hs_DiskWriteBytes s; hs_DiskTotalBytes := hs_DiskTotalBytes s; hs_DiskFreeBytes := hs_DiskFreeBytes s |}.
Definition with_cpu (sys user : Z) (s : HostStatus) : HostStatus :=
  {| hs_HostId := hs_HostId s; hs_Updated := hs_Updated s; hs_CpuCores := hs_CpuCores s; hs_CpuSys := sys; hs_CpuUser := user;
     hs_MemTotal := hs_MemTotal s; hs_MemUsed := hs_MemUsed s; hs_MemAvailable := hs_MemAvailable s;
     hs_NetRecvBytes := hs_NetRecvBytes s; hs_NetSentBytes := hs_NetSentBytes s; hs_DiskReadBytes := hs_DiskReadBytes s;
     hs_DiskWriteBytes := hs_DiskWriteBytes s; hs_DiskTotalBytes := hs_DiskTotalBytes s; hs_DiskFreeBytes := hs_DiskFreeBytes s |}.
Definition with_io (r w : Z) (s : HostStatus) : HostStatus :=
  {| hs_HostId := hs_HostId s; hs_Updated := hs_Updated s; hs_CpuCores := hs_CpuCores s; hs_CpuSys := hs_CpuSys s; hs_CpuUser := hs_CpuUser s;
     hs_MemTotal := hs_MemTotal s; hs_MemUsed := hs_MemUsed s; hs_MemAvailable := hs_MemAvailable s;
     hs_NetRecvBytes := hs_NetRecvBytes s; hs_NetSentBytes := hs_NetSentBytes s; hs_DiskReadBytes := r;
     hs_DiskWriteBytes := w; hs_DiskTotalBytes := hs_DiskTotalBytes s; hs_DiskFreeBytes := hs_DiskFreeBytes s |}.
Definition with_space (total free : Z) (s : HostStatus) : HostStatus :=
  {| hs_HostId := hs_HostId s; hs_Updated := hs_Updated s; hs_CpuCores := hs_CpuCores s; hs_CpuSys := hs_CpuSys s; hs_CpuUser := hs_CpuUser s;
     hs_MemTotal := hs_MemTotal s; hs_MemUsed := hs_MemUsed s; hs_MemAvailable := hs_MemAvailable s;
     hs_NetRecvBytes := hs_NetRecvBytes s; hs_NetSentBytes := hs_NetSentBytes s; hs_DiskReadBytes := hs_DiskReadBytes s;
     hs_DiskWriteBytes := hs_DiskWriteBytes s; hs_DiskTotalBytes := total; hs_DiskFreeBytes := free |}.
Definition with_cores (n : Z) (s : HostStatus) : HostStatus :=
  {| hs_HostId := hs_HostId s; hs_Updated := hs_Updated s; hs_CpuCores := n; hs_CpuSys := hs_CpuSys s; hs_CpuUser := hs_CpuUser s;
     hs_MemTotal := hs_MemTotal s; hs_MemUsed := hs_MemUsed s; hs_MemAvailable := hs_MemAvailable s;
     hs_NetRecvBytes := hs_NetRecvBytes s; hs_NetSentBytes := hs_NetSentBytes s; hs_DiskReadBytes := hs_DiskReadBytes s;
     hs_DiskWriteBytes := hs_DiskWriteBytes s; hs_DiskTotalBytes := hs_DiskTotalBytes s; hs_DiskFreeBytes := hs_DiskFreeBytes s |}.

Definition measure_net (tn : Z) (r : readings) (m : host_meter) : option host_meter :=
  match rd_net r with
  | None => Some m
  | Some v =>
    '(a, b, g) ← rates "net/rb" "net/sb" tn v (mt_counter m);
    Some {| mt_status := with_net a b (mt_status m); mt_counter := g; mt_diskFreshed := mt_diskFreshed m |}
  end.
Definition measure_cpu (tn : Z) (r : readings) (m : host_meter) : option host_meter :=
  match rd_cpu r with
  | None => Some m
  | Some v =>
    '(a, b, g) ← rates "cpu/sys" "cpu/user" tn v (mt_counter m);
    Some {| mt_status := with_cpu a b (mt_status m); mt_counter := g; mt_diskFreshed := mt_diskFreshed m |}
  end.
Definition measure_disk `{SortSlice} (tn : Z) (appPath : string) (r : readings) (m : host_meter) : option host_meter :=
  let '(dev, mnt) := diskDevName (rd_parts r) appPath in
  if bool_decide (dev = "") then Some m else
  m ← match rd_io r dev with
      | None => Some m
      | Some v =>
        '(a, b, g) ← rates "fs/sp/rb" "fs/sp/wb" tn v (mt_counter m);
        Some {| mt_status := with_io a b (mt_status m); mt_counter := g; mt_diskFreshed := mt_diskFreshed m |}
      end;
  if (hs_DiskTotalBytes (mt_status m) =? 0) || (mt_diskFreshed m +64 1800 <? tn) then
    Some {| mt_status := match rd_usage r mnt with Some (total, free) => with_space total free (mt_status m) | None => mt_status m end;
            mt_counter := mt_counter m; mt_diskFreshed := tn |}
  else Some m.
Definition measure `{SortSlice} (tn : Z) (appPath : string) (r : readings) (m : host_meter) : option host_meter :=
  let st := if hs_Updated (mt_status m) =? 0 then with_cores (rd_cores r) (mt_status m) else mt_status m in
  let st := match rd_mem r with Some v => with_mem v st | None => st end in
  let m := {| mt_status := st; mt_counter := mt_counter m; mt_diskFreshed := mt_diskFreshed m |} in
  m ← measure_net tn r m; m ← measure_cpu tn r m; measure_disk tn appPath r m.

(** ** Reporting *)

(** The settings of a host that the turn reads and writes. *)
Record host_settings := {
  hc_ZoneHosts : list string; hc_HostId : string; hc_LanAddr : string; hc_PeerPort : Z;
  hc_VpcBridgeIP : string; hc_VpcInstanceCIDR : string; hc_VpcNetworkDomain : string }.
(** A host: its records, the instances of [ActiveAppList], the network it knows of, and the
    metrics of its replicas. *)
Record host_node := {
  hn_let : hostlet; hn_active : gmap string HostInstance; hn_settings : host_settings;
  hn_network : ZoneNetworkMap NetHost; hn_stats : gmap string (option NodeMetrics); hn_ready : bool }.

Section poll.
Context `{MapRange}.

(** [buildReplicaStageReports] *)
Definition stage_report (kv : string * ReplicaStageEntry) : option HostReplicaStageReport :=
  stages ← SnapshotIfDirty (snd kv);
  '(name, repId) ← ParseReplicaStageKey (fst kv);
  Some {| hr_InstanceName := name; hr_ReplicaId := repId; hr_Stages := stages |}.
Definition buildReplicaStageReports (entries : gmap string ReplicaStageEntry) : list HostReplicaStageReport :=
  omap stage_report (map_range entries).
Definition known_metrics (stats : gmap string (option NodeMetrics)) : gmap string (option NodeMetrics) :=
  filter (fun kv => is_Some (snd kv)) stats.

(** The request, and whom it goes to; nobody, as long as the host is in no zone. *)
Definition poll_begin (st : HostStatus) (n : host_node) : option (string * HostStatusUpdateRequest) :=
  let g := hn_settings n in
  match hc_ZoneHosts g with
  | [] => None
  | addr :: _ =>
    if bool_decide (addr = "") then None else
    Some (addr, {| hu_Host := Some {| h_Id := hc_HostId g; h_PeerAddr := hc_LanAddr g +:+ ":" +:+ itoa (hc_PeerPort g); h_Deploy := None |};
                   hu_Status := Some st; hu_ReplicaStages := buildReplicaStageReports (hl_stages (hn_let n));
                   hu_ReplicaMetrics := known_metrics (hn_stats n) |})
  end.

(** ** The answer *)

Definition instance_names (hostId : string) (hi : HostInstance) : list string :=
  map (fun rep => ContainerName (ai_Name (hi_App hi)) (dr_Id rep))
      (List.filter (fun rep => bool_decide (dr_HostId rep = hostId)) (ad_Replicas (ai_Deploy (hi_App hi)))).
Definition desired_names (hostId : string) (apps : list HostInstance) : gset string :=
  list_to_set (apps ≫= instance_names hostId).
Definition store_active (apps : list HostInstance) (active : gmap string HostInstance) : gmap string HostInstance :=
  foldl (fun m hi => <[ai_Name (hi_App hi) := hi]> m) active apps.

(** A setting the leader gives, unless it gives none or the same; the file is written when
    one changed. *)
Definition given (new old : string) : string := if bool_decide (new = "") then old else new.
Definition newer_network (resp : HostStatusUpdateResponse) (n : host_node) : option (ZoneNetworkMap NetHost) :=
  m ← hu_ZoneNetworkMap resp;
  if zm_Revision (hn_network n) <? zm_Revision m then Some m else None.
Definition answered_settings (resp : HostStatusUpdateResponse) (n : host_node) : host_settings :=
  let g := hn_settings n in
  {| hc_ZoneHosts := hc_ZoneHosts g; hc_HostId := hc_HostId g; hc_LanAddr := hc_LanAddr g; hc_PeerPort := hc_PeerPort g;
     hc_VpcBridgeIP := given (hu_VpcBridgeIp resp) (hc_VpcBridgeIP g);
     hc_VpcInstanceCIDR := given (hu_VpcInstanceCidr resp) (hc_VpcInstanceCIDR g);
     hc_VpcNetworkDomain := match newer_network resp n with Some m => given (zm_Domain m) (hc_VpcNetworkDomain g) | None => hc_VpcNetworkDomain g end |}.
(** Whether the settings are written to their file. *)
Definition settings_changed (resp : HostStatusUpdateResponse) (n : host_node) : bool :=
  let g := hn_settings n in let g' := answered_settings resp n in
  negb (bool_decide ((hc_VpcBridgeIP g', hc_VpcInstanceCIDR g', hc_VpcNetworkDomain g') =
                     (hc_VpcBridgeIP g, hc_VpcInstanceCIDR g, hc_VpcNetworkDomain g))).

(** All entries are clean after an answer, also those that changed since the request. *)
Definition poll_end (answer : result HostStatusUpdateResponse) (now : Z) (n : host_node) : host_node * result unit :=
  match answer with
  | Err e =>
    ({| hn_let := set_desired (hn_let n) (SetFailedSync (hl_desired (hn_let n))); hn_active := hn_active n; hn_settings := hn_settings n;
        hn_network := hn_network n; hn_stats := hn_stats n; hn_ready := hn_ready n |}, Err e)
  | Ok resp =>
    let apps := hu_AppInstances resp in
    let h := set_stages (hn_let n) (ClearDirty <$> hl_stages (hn_let n)) in
    ({| hn_let := set_desired h (Replace (desired_names (hc_HostId (hn_settings n)) apps) now);
        hn_active := store_active apps (hn_active n); hn_settings := answered_settings resp n;
        hn_network := default (hn_network n) (newer_network resp n); hn_stats := hn_stats n; hn_ready := true |}, Ok tt)
  end.

(** A turn with nothing in between; a connection that fails leaves the host as it is. *)
Definition statusRefresh (dial : string -> result unit) (call : HostStatusUpdateRequest -> result HostStatusUpdateResponse)
  (st : HostStatus) (now : Z) (n : host_node) : host_node * result unit :=
  match poll_begin st n with
  | None => (n, Ok tt)
  | Some (addr, req) =>
    match dial addr with
    | Err e => (n, Err e)
    | Ok _ => poll_end (call req) now n
    end
  end.
End poll.
