(* ===== verification/HostPollLogic.v ===== *)
(** A turn of a host: after a report the leader accepted, the containers the host wants are
    exactly those of the replicas the leader has placed on it, so no sweep touches one of
    them; the device that is measured is the one mounted deepest above the path; and what
    falls short: the time of a report is never set, and progress made while a report is
    under way is not reported. *)
From Stdlib Require Import ZArith Lia Sorted.
From S2P Require Import Prelude GoStrings GoPath AppNames Inet Ns Kv Ipam Stage Zone Auth Packages Metrics Refresh RefreshDeleted Alerts Hostlet Counter ZoneReport ZoneReportLogic HostPoll.
Local Open Scope string_scope.
Local Open Scope Z_scope.
Local Open Scope go_scope.

(** * The containers that are wanted *)

Section wanted.
Context `{Ip6Syntax} {S : Type} `{KvLaws S zone_value} `{MapRange}.
Implicit Types z : zonelet S.

(** The containers of the replicas a leader has placed on a host. *)
Definition placed_names (z : zonelet S) (hostId : string) (name : string) : Prop :=
  exists a rep, a ∈ map ke_Value (ks_arr (zl_apps z)) /\ rep ∈ ad_Replicas (ai_Deploy a) /\ dr_HostId rep = hostId /\
    name = ContainerName (ai_Name a) (dr_Id rep).

Lemma desired_names_elem hostId apps name : name ∈ desired_names hostId apps <->
  exists hi rep, hi ∈ apps /\ rep ∈ ad_Replicas (ai_Deploy (hi_App hi)) /\ dr_HostId rep = hostId /\
    name = ContainerName (ai_Name (hi_App hi)) (dr_Id rep).
Proof.
  unfold desired_names. rewrite elem_of_list_to_set, list_elem_of_bind. unfold instance_names. split.
  - intros (hi & Hn & Hhi). apply list_elem_of_In, in_map_iff in Hn as (rep & <- & Hr). apply filter_In in Hr as [Hr Hh].
    exists hi, rep. split_and!; [done|by apply list_elem_of_In|by apply bool_decide_eq_true in Hh|done].
  - intros (hi & rep & Hhi & Hr & Hh & ->). exists hi. split; [|done]. apply list_elem_of_In, in_map_iff. exists rep. split; [done|].
    apply filter_In. split; [by apply list_elem_of_In|by apply bool_decide_eq_true].
Qed.

(** The leader answers a report, and the host takes the answer over. *)
Lemma answered_desired zone who now req z c z' c' resp now2 n n' host :
  hu_Host req = Some host -> h_Id host = hc_HostId (hn_settings n) ->
  HostStatusUpdate zone who now req z c = (z', c', Ok resp) -> poll_end (Ok resp) now2 n = (n', Ok tt) ->
  hl_desired (hn_let n') = Replace (ds_names (hl_desired (hn_let n'))) now2 /\
  forall name, name ∈ ds_names (hl_desired (hn_let n')) <-> placed_names z (hc_HostId (hn_settings n)) name.
Proof.
  intros Eh Eid E Ep. unfold HostStatusUpdate in E. destruct (report_valid who req z) as [[host' st]|e] eqn:Ev; [|done].
  destruct (report_valid_ok _ _ _ _ _ Ev) as (_ & Eh' & _). rewrite Eh in Eh'. injection Eh' as <-.
  destruct (report_pass _ _ _ _ _) as [z1 [resp'|e]] eqn:Epass; [|done]. injection E as _ _ <-.
  destruct (report_pass_response _ _ _ _ _ _ _ Epass) as (z2 & E2 & _ & Er). injection Ep as <-. split; [done|].
  intros name. cbn [hn_let hl_desired set_desired Replace ds_names]. rewrite desired_names_elem, Er, <- Eid.
  unfold placed_names. split.
  - intros (hi & rep & Hhi & Hr & Hh & ->). exists (hi_App hi), rep. split_and!; [|done..].
    rewrite <- E2. by apply (told_instances z2 (h_Id host)), list_elem_of_fmap_2.
  - intros (a & rep & Ha & Hr & Hh & ->). rewrite <- E2 in Ha.
    assert (Hin : a ∈ map hi_App (host_instances z2 (h_Id host))) by (apply told_instances; split; [done|by exists rep]).
    apply list_elem_of_fmap in Hin as (hi & -> & Hhi). by exists hi, rep.
Qed.
End wanted.

(** C38: a turn of a host whose report the leader accepted leaves the host wanting exactly
    the containers of the replicas the leader has placed on it, and the sweep of orphaned
    containers that follows stops, removes or archives none of them. *)
Theorem placed_containers_spared `{Ip6Syntax} {S : Type} `{KvLaws S zone_value} `{MapRangeLaws} `{HostEnv}
    zone who now (z : zonelet S) c z' c' resp st addr req n n' now2 now3 new
  (Hreq : poll_begin st n = Some (addr, req))
  (Hcall : HostStatusUpdate zone who now req z c = (z', c', Ok resp))
  (Hend : poll_end (Ok resp) now2 n = (n', Ok tt))
  (Hsweep : hl_hist (containerOrphanSweep now3 (hn_let n')) = (new ++ hl_hist (hn_let n'))%list) :
  (forall name, name ∈ ds_names (hl_desired (hn_let n')) <-> placed_names z (hc_HostId (hn_settings n)) name) /\
  forall name ok, placed_names z (hc_HostId (hn_settings n)) name ->
    ((EStop name, ok) ∉ new) /\ ((ERemove name, ok) ∉ new) /\ ((EArchive name, ok) ∉ new) /\ ((EQuotaCleanup name, ok) ∉ new).
Proof.
  assert (Hh : exists host, hu_Host req = Some host /\ h_Id host = hc_HostId (hn_settings n)).
  { unfold poll_begin in Hreq. destruct (hc_ZoneHosts _) as [|a l]; [done|]. destruct (bool_decide _); [done|].
    injection Hreq as _ <-. eexists. split; [done|done]. }
  destruct Hh as (host & Eh & Eid). destruct (answered_desired _ _ _ _ _ _ _ _ _ _ _ _ _ Eh Eid Hcall Hend) as [_ Hd].
  split; [done|]. intros name ok Hp. apply Hd in Hp.
  pose proof (sweep_spares_desired (hn_let n') now3 new Hsweep) as Hall. rewrite Forall_forall in Hall.
  split_and!; intros Hin; specialize (Hall _ Hin); cbn in Hall; tauto.
Qed.

(** * The device that is measured *)

(** Of two beginnings of a text the longer one is greater. *)
Lemma longer_prefix_greater p a b : String.prefix a p = true -> String.prefix b p = true ->
  (String.length a < String.length b)%nat -> str_lt a b = true.
Proof.
  revert a b. induction p as [|c p IH]; intros a b Ha Hb Hl.
  - destruct b; [cbn in Hl; lia|done].
  - destruct a as [|d a]; destruct b as [|e b]; cbn in *; [lia|done|lia|].
    destruct (Ascii.ascii_dec d c) as [->|]; [|done]. destruct (Ascii.ascii_dec e c) as [->|]; [|done].
    change (str_lt ((String c "") +:+ a) ((String c "") +:+ b) = true). rewrite str_lt_app. apply IH; [done|done|lia].
Qed.

Lemma mount_after_weak : strict_weak mount_after.
Proof.
  unfold mount_after. split_and!.
  - intros x. apply str_lt_irrefl.
  - intros x y w Hxy Hyw. by eapply str_lt_trans.
  - intros x y w Hxy Hyw. destruct (str_lt (pt_Mountpoint w) (pt_Mountpoint x)) eqn:E; [|done]. exfalso.
    destruct (str_lt (pt_Mountpoint y) (pt_Mountpoint w)) eqn:E2; [|].
    + rewrite (str_lt_trans _ _ _ E2 E) in Hxy. done.
    + destruct (decide (pt_Mountpoint y = pt_Mountpoint w)) as [Eq|Hne]; [by rewrite Eq, E in Hxy|].
      assert (Hle : String.leb (pt_Mountpoint w) (pt_Mountpoint y) = true).
      { destruct (String.leb_total (pt_Mountpoint w) (pt_Mountpoint y)) as [?|Hl]; [done|].
        apply str_le_lt in Hl as [?|Hl]; [done|]. by rewrite Hl in E2. }
      apply str_le_lt in Hle as [?|Hle]; [by destruct Hne|]. congruence.
Qed.

(** The device that is found is one of [/dev], it is mounted above the path, and no device
    is mounted above it deeper. *)
Theorem deepest_device_measured `{SortSliceLaws} pls path dev mnt : diskDevName pls path = (dev, mnt) -> dev <> "" ->
  exists p, p ∈ pls /\ mounts (Clean path) p = true /\ (dev_name (pt_Device p), pt_Mountpoint p) = (dev, mnt) /\
    forall q, q ∈ pls -> mounts (Clean path) q = true -> (String.length (pt_Mountpoint q) <= String.length mnt)%nat.
Proof.
  unfold diskDevName. destruct (List.find _ _) as [p|] eqn:Ef; [|by intros [= <- _]]. intros [= <- <-] _.
  pose proof (sort_slice_sorted _ mount_after pls mount_after_weak) as Hs. pose proof (sort_slice_perm _ mount_after pls) as Hp.
  assert (Hpin : p ∈ pls /\ mounts (Clean path) p = true).
  { apply find_some in Ef as [Hin Hm]. split; [|done]. rewrite <- Hp. by apply list_elem_of_In. }
  exists p. destruct Hpin as [Hin Hm]. split_and!; [done|done|done|]. intros q Hq Hmq. rewrite <- Hp in Hq. clear Hp Hin.
  induction Hs as [|x l Hs IH Hx]; [by apply not_elem_of_nil in Hq|]. cbn in Ef.
  destruct (mounts (Clean path) x) eqn:Emx.
  - injection Ef as ->. apply elem_of_cons in Hq as [->|Hq]; [done|]. rewrite Forall_forall in Hx. specialize (Hx q Hq).
    unfold mount_after in Hx. destruct (Nat.le_gt_cases (String.length (pt_Mountpoint q)) (String.length (pt_Mountpoint p))); [done|].
    unfold mounts in Hm, Hmq. apply andb_true_iff in Hm as [_ Hm], Hmq as [_ Hmq].
    pose proof (longer_prefix_greater _ _ _ Hm Hmq ltac:(lia)). congruence.
  - apply IH; [done|]. apply elem_of_cons in Hq as [->|?]; [congruence|done].
Qed.
(** A mount point needs not end where a segment of the path does. *)
Example mount_inside_a_name : diskDevName [{| pt_Device := "/dev/sda1"; pt_Mountpoint := "/" |}; {| pt_Device := "/dev/sdb1"; pt_Mountpoint := "/opt/inner" |}]
  "/opt/innerstack" = ("sdb1", "/opt/inner").
Proof. vm_compute. reflexivity. Qed.

(** * What falls short *)

(** No measurement sets the time of the status. *)
Lemma measure_unstamped `{SortSlice} tn path r m m' : measure tn path r m = Some m' -> hs_Updated (mt_status m') = hs_Updated (mt_status m).
Proof.
  unfold measure. set (m0 := {| mt_status := _; mt_counter := _; mt_diskFreshed := _ |}).
  assert (E0 : hs_Updated (mt_status m0) = hs_Updated (mt_status m)).
  { unfold m0. cbn [mt_status]. destruct (rd_mem r); destruct (_ =? 0); done. }
  rewrite <- E0. clearbody m0. intros E.
  apply bind_Some in E as (m1 & E1 & E). apply bind_Some in E as (m2 & E2 & E).
  assert (H1' : hs_Updated (mt_status m1) = hs_Updated (mt_status m0)).
  { unfold measure_net in E1. destruct (rd_net r); [|by injection E1 as <-]. apply bind_Some in E1 as ([[a b] g] & _ & E1). by injection E1 as <-. }
  assert (H2' : hs_Updated (mt_status m2) = hs_Updated (mt_status m1)).
  { unfold measure_cpu in E2. destruct (rd_cpu r); [|by injection E2 as <-]. apply bind_Some in E2 as ([[a b] g] & _ & E2). by injection E2 as <-. }
  rewrite <- H1', <- H2'. clear -E. unfold measure_disk in E. destruct (diskDevName _ _) as [dev mnt]. destruct (bool_decide _); [by injection E as <-|].
  apply bind_Some in E as (m3 & E3 & E). assert (H3' : hs_Updated (mt_status m3) = hs_Updated (mt_status m2)).
  { destruct (rd_io r dev); [|by injection E3 as <-]. apply bind_Some in E3 as ([[a b] g] & _ & E3). by injection E3 as <-. }
  rewrite <- H3'. destruct (_ || _); [|by injection E as <-]. injection E as <-. cbn [mt_status]. by destruct (rd_usage r mnt) as [[]|].
Qed.

(** The status of a host starts with no time, and whatever is measured, the leader takes
    every host that reports for one whose last report is as old as the time itself: the
    alert of a host that is down is due for each of them. *)
Theorem reporting_host_counts_as_down `{SortSlice} (turns : list (Z * readings)) path m m' cfg now :
  hs_Updated (mt_status m) = 0 ->
  foldl (fun o tr => m ← o; measure (fst tr) path (snd tr) m) (Some m) turns = Some m' ->
  HostDownSec cfg < now < 2 ^ 63 -> 0 <= now ->
  fst (down_breach cfg now (Some (mt_status m'))) = true.
Proof.
  intros H0 E Hnow Hpos. assert (E0 : hs_Updated (mt_status m') = 0).
  { revert m H0 E. induction turns as [|[t r] turns IH]; intros m H0 E; cbn [foldl] in E; [by injection E as <-|].
    cbn [mbind option_bind fst snd] in E. destruct (measure t path r m) as [m1|] eqn:Em.
    - apply (IH m1); [|done]. by rewrite (measure_unstamped _ _ _ _ _ Em).
    - exfalso. clear -E. induction turns; cbn in E; [done|auto]. }
  unfold down_breach. rewrite E0, Z.sub_0_r. rewrite i64_id by (unfold in_i64; lia).
  destruct (Z.ltb_spec (HostDownSec cfg) now); [done|lia].
Qed.

(** Whatever the entries are when the answer arrives, changed since the request or not,
    nothing of them is reported any more. *)
Theorem progress_during_poll_lost `{MapRangeLaws} resp now n n' :
  poll_end (Ok resp) now n = (n', Ok tt) -> buildReplicaStageReports (hl_stages (hn_let n')) = [].
Proof.
  intros [= <-]. cbn [hn_let hl_stages set_desired set_stages]. unfold buildReplicaStageReports.
  assert (Hl : forall kv, kv ∈ map_range (ClearDirty <$> hl_stages (hn_let n)) -> stage_report kv = None).
  { intros [k e] Hin. rewrite map_range_perm in Hin. apply elem_of_map_to_list in Hin. apply lookup_fmap_Some in Hin as (e0 & <- & _). done. }
  induction (map_range _) as [|kv l IH]; [done|]. cbn. rewrite Hl by left. apply IH. intros x Hx. apply Hl. by right.
Qed.

(** * A host of the zone *)

Section example.
Local Existing Instances no_ip6 calm_env.

Definition ex_node : host_node :=
  {| hn_let := ex_hostlet; hn_active := ∅;
     hn_settings := {| hc_ZoneHosts := ["192.168.1.1:9529"]; hc_HostId := ex_host; hc_LanAddr := "192.168.1.11"; hc_PeerPort := 9529;
                       hc_VpcBridgeIP := ""; hc_VpcInstanceCIDR := ""; hc_VpcNetworkDomain := "" |};
     hn_network := emptyMap; hn_stats := ∅; hn_ready := false |}.
Definition ex_poll := match poll_begin ex_status ex_node with Some ar => ar | None => ("", ex_request []) end.
Definition ex_answer := HostStatusUpdate "z1" ex_caller 100 (snd ex_poll) ex_zone ∅.
Definition ex_polled (resp : HostStatusUpdateResponse) : host_node := fst (poll_end (Ok resp) 1000 ex_node).

Example ex_wanted : match snd ex_answer with
  | Ok resp => bool_decide (ds_names (hl_desired (hn_let (ex_polled resp))) = {[ "i8k_db_0"; "i8k_old_0"; "i8k_web_0" ]})
  | Err _ => false
  end = true.
Proof. vm_compute. reflexivity. Qed.

Lemma ex_db_placed : placed_names ex_zone ex_host "i8k_db_0".
Proof.
  exists ex_db_app, (ex_rep 0 ex_host [ex_port 80 20000]). split_and!; [left|left|done|reflexivity].
Qed.
Example placed_containers_spared_witness : exists resp new, snd ex_answer = Ok resp /\
  hl_hist (containerOrphanSweep 1001 (hn_let (ex_polled resp))) = (new ++ hl_hist (hn_let (ex_polled resp)))%list /\
  ((EStop "i8k_db_0", true) ∉ new).
Proof.
  destruct ex_answer as [[z' c'] [resp|e]] eqn:E; [|by vm_compute in E].
  destruct (poll_end (Ok resp) 1000 ex_node) as [n' [[]|]] eqn:En; [|done].
  assert (Hnew : exists new, hl_hist (containerOrphanSweep 1001 (hn_let (ex_polled resp))) = (new ++ hl_hist (hn_let (ex_polled resp)))%list).
  { assert (Er : resp = match snd ex_answer with Ok r => r | Err _ => resp end) by (by rewrite E).
    exists (hl_hist (containerOrphanSweep 1001 (hn_let (ex_polled resp)))). rewrite Er. vm_compute. reflexivity. }
  destruct Hnew as (new & Hnew). exists resp, new. split; [done|]. split; [exact Hnew|].
  assert (Ep : poll_begin ex_status ex_node = Some (fst ex_poll, snd ex_poll)) by reflexivity.
  unfold ex_polled in Hnew. rewrite En in Hnew.
  apply (placed_containers_spared "z1" ex_caller 100 ex_zone ∅ z' c' resp ex_status (fst ex_poll) (snd ex_poll) ex_node n' 1000 1001 new Ep E En Hnew).
  exact ex_db_placed.
Defined.
End example.
