(* ===== verification/Sha1.v ===== *)
(** SHA-1 over strings of bytes, as [crypto/sha1] computes it; the padding and the words are
    those of [Sha256].  The test vectors at the end are those of FIPS 180-4. *)
From Stdlib Require Import ZArith.
From S2P Require Import Prelude GoStrings Ns Sha256.
Local Open Scope string_scope.
Local Open Scope Z_scope.

Definition rotl (n x : Z) : Z := Z.lor (u32 (Z.shiftl x n)) (Z.shiftr x (32 - n)).
Definition sha1_H0 : list Z := [0x67452301; 0xefcdab89; 0x98badcfe; 0x10325476; 0xc3d2e1f0].

(** The schedule, newest word first: [t] more words after the sixteen of the block. *)
Fixpoint sha1_schedule (t : nat) (ws : list Z) : list Z :=
  match t with
  | O => ws
  | S t => sha1_schedule t (rotl 1 (Z.lxor (Z.lxor (nth 2 ws 0) (nth 7 ws 0)) (Z.lxor (nth 13 ws 0) (nth 15 ws 0))) :: ws)
  end.

(** The function and the constant of round [i]. *)
Definition sha1_f (i : Z) (b c d : Z) : Z * Z :=
  if i <? 20 then (sha_Ch b c d, 0x5a827999)
  else if i <? 40 then (Z.lxor (Z.lxor b c) d, 0x6ed9eba1)
  else if i <? 60 then (sha_Maj b c d, 0x8f1bbcdc)
  else (Z.lxor (Z.lxor b c) d, 0xca62c1d6).
Definition sha1_round (v : list Z) (iw : nat * Z) : list Z :=
  match v with
  | [a; b; c; d; e] =>
    let '(f, k) := sha1_f (Z.of_nat (fst iw)) b c d in
    [word_add (word_add (rotl 5 a) f) (word_add (word_add e k) (snd iw)); a; rotl 30 b; c; d]
  | _ => v
  end.
Definition sha1_block (hs block : list Z) : list Z :=
  zip_with word_add hs (foldl sha1_round hs (zip (seq 0 80) (rev (sha1_schedule 64 (rev block))))).
Fixpoint sha1_blocks (n : nat) (hs ws : list Z) : list Z :=
  match n with
  | O => hs
  | S n => sha1_blocks n (sha1_block hs (take 16 ws)) (drop 16 ws)
  end.

(** [fmt.Sprintf] of [sha1.Sum(b)] in hexadecimal *)
Definition sha1_hex (s : string) : string :=
  let ws := be_words (sha_pad (string_bytes s)) in
  foldr (fun w acc => hexn 8 w +:+ acc) "" (sha1_blocks (Nat.div (length ws) 16) sha1_H0 ws).

Example sha1_empty : sha1_hex "" = "da39a3ee5e6b4b0d3255bfef95601890afd80709".
Proof. vm_compute. reflexivity. Qed.
Example sha1_abc : sha1_hex "abc" = "a9993e364706816aba3e25717850c26c9cd0d89d".
Proof. vm_compute. reflexivity. Qed.
Example sha1_two_blocks : sha1_hex "abcdbcdecdefdefgefghfghighijhijkijkljklmklmnlmnomnopnopq" =
  "84983e441c3bd26ebaae4aa1f95129e5e54670f1".
Proof. vm_compute. reflexivity. Qed.
