(* ===== verification/Quota.v ===== *)
(** Disk quotas of a host, [src/internal/hostlet/xfsquota.go]: a project number for every
    container, the file [/etc/projects] that maps the numbers to directories, and the cycle
    that sets the limits of running containers and lifts those of the others.

    The command [xfs_quota], the file system and the table of mounts are outside: each
    command and each written file is a [quota_effect] in the history of the host, newest first,
    and the environment decides what comes of it ([QuotaEnv]).  A pointer to a project is
    the first project with its number or its name.  The operating system is Linux. *)
From Stdlib Require Import ZArith Lia Ascii.
From S2P Require Import Prelude GoStrings GoPath GoFloat AppNames StateFlow Zone Sha1.
Local Open Scope string_scope.
Local Open Scope Z_scope.
Local Open Scope go_scope.

(** * Data *)

Record QuotaProject := { qp_Id : Z; qp_Mnt : string; qp_Name : string; qp_Soft : Z; qp_Hard : Z; qp_Used : Z }.
Record QuotaConfig := {
  qc_path : string; qc_syncMapsSum : string; qc_Items : list QuotaProject; qc_Updated : Z; qc_IdOffset : Z;
  qc_MountPoints : list string }.

(** The commands, with the text of the [limit] and [project] sub-commands as arguments. *)
Inductive quota_cmd :=
| CVersion
| CReport (mnt : string)
| CPath (mnt : string)
| CDf (mnt : string)
| CInit (id : Z) (mnt : string)
| CAssign (dir : string) (id : Z) (mnt : string)
| CLimit (soft hard id : Z) (mnt : string)
| CClear (id : Z) (mnt : string).
Inductive quota_effect :=
| QRun (c : quota_cmd)
| QShell (c : quota_cmd)
| QProjects (text : string)
| QSave (path : string) (c : QuotaConfig).
Abbreviation quota_history := (list (quota_effect * bool)).

Inductive dir_stat := DirThere | DirGone | DirUnknown.
Record quota_partition := { qt_Mountpoint : string; qt_Fstype : string }.

(** What an effect comes to, what a command writes, whether a shell can be started, what is
    known of a directory, the mounted partitions, and what the saved file sets. *)
Class QuotaEnv := {
  qe_ok : quota_history -> quota_effect -> bool;
  qe_text : quota_history -> quota_cmd -> string;
  qe_shell : quota_history -> bool;
  qe_stat : quota_history -> string -> dir_stat;
  qe_parts : quota_history -> list quota_partition;
  qe_saved : quota_history -> string -> option QuotaConfig }.

(** The settings of the host. *)
Record quota_settings := { qg_Prefix : string; qg_AppPath : string; qg_HostId : string }.

(** [quotaConfig], [quotaInited], [quotaRefreshed]. *)
Record quota := { qs_config : QuotaConfig; qs_inited : bool; qs_refreshed : Z; qs_hist : quota_history }.

Definition with_config (c : QuotaConfig) (q : quota) : quota :=
  {| qs_config := c; qs_inited := qs_inited q; qs_refreshed := qs_refreshed q; qs_hist := qs_hist q |}.
Definition with_hist (h : quota_history) (q : quota) : quota :=
  {| qs_config := qs_config q; qs_inited := qs_inited q; qs_refreshed := qs_refreshed q; qs_hist := h |}.
Definition with_items (l : list QuotaProject) (c : QuotaConfig) : QuotaConfig :=
  {| qc_path := qc_path c; qc_syncMapsSum := qc_syncMapsSum c; qc_Items := l; qc_Updated := qc_Updated c;
     qc_IdOffset := qc_IdOffset c; qc_MountPoints := qc_MountPoints c |}.
Definition q_items (q : quota) : list QuotaProject := qc_Items (qs_config q).
Definition set_items (l : list QuotaProject) (q : quota) : quota := with_config (with_items l (qs_config q)) q.

Definition with_limits (soft hard : Z) (p : QuotaProject) : QuotaProject :=
  {| qp_Id := qp_Id p; qp_Mnt := qp_Mnt p; qp_Name := qp_Name p; qp_Soft := soft; qp_Hard := hard; qp_Used := qp_Used p |}.
Definition with_mnt (mnt : string) (p : QuotaProject) : QuotaProject :=
  {| qp_Id := qp_Id p; qp_Mnt := mnt; qp_Name := qp_Name p; qp_Soft := qp_Soft p; qp_Hard := qp_Hard p; qp_Used := qp_Used p |}.
Definition with_used (used : Z) (p : QuotaProject) : QuotaProject :=
  {| qp_Id := qp_Id p; qp_Mnt := qp_Mnt p; qp_Name := qp_Name p; qp_Soft := qp_Soft p; qp_Hard := qp_Hard p; qp_Used := used |}.

(** * Projects *)

Definition goes_by (name : string) (p : QuotaProject) : bool := bool_decide (qp_Name p = name).
Definition has_id (id : Z) (p : QuotaProject) : bool := qp_Id p =? id.
Definition Fetch (name : string) (l : list QuotaProject) : option QuotaProject := List.find (goes_by name) l.
Definition FetchById (id : Z) (l : list QuotaProject) : option QuotaProject := List.find (has_id id) l.
Definition Has (id : Z) (l : list QuotaProject) : bool := existsb (has_id id) l.

(** A write through a pointer to the first project that satisfies [p]. *)
Fixpoint update_first (p : QuotaProject -> bool) (f : QuotaProject -> QuotaProject) (l : list QuotaProject) : list QuotaProject :=
  match l with
  | [] => []
  | v :: l => if p v then f v :: l else v :: update_first p f l
  end.

Fixpoint Remove (name : string) (l : list QuotaProject) : list QuotaProject :=
  match l with
  | [] => []
  | v :: l => if goes_by name v then l else v :: Remove name l
  end.

(** The first number from [i] on that no project has. *)
Fixpoint free_id (n : nat) (i : Z) (l : list QuotaProject) : option Z :=
  match n with
  | O => None
  | S n => if Has i l then free_id n (i + 1) l else Some i
  end.
Definition id_offset (c : QuotaConfig) : Z := if (qc_IdOffset c <? 100) || (100000 <=? qc_IdOffset c) then 100 else qc_IdOffset c.

(** [None]: every number is taken. *)
Definition FetchOrCreate (mnt name : string) (c : QuotaConfig) : QuotaConfig * option QuotaProject :=
  let mnt := if bool_decide (mnt = "") || bool_decide (mnt = "/") then "/opt" else mnt in
  match Fetch name (qc_Items c) with
  | Some v => (c, Some v)
  | None =>
    let off := id_offset c in
    let at_offset off l := {| qc_path := qc_path c; qc_syncMapsSum := qc_syncMapsSum c; qc_Items := l; qc_Updated := qc_Updated c;
                              qc_IdOffset := off; qc_MountPoints := qc_MountPoints c |} in
    match free_id (Z.to_nat (110000 - off + 1)) off (qc_Items c) with
    | None => (at_offset off (qc_Items c), None)
    | Some id =>
      let p := {| qp_Id := id; qp_Mnt := mnt; qp_Name := name; qp_Soft := 0; qp_Hard := 0; qp_Used := 0 |} in
      (at_offset (id + 1) (qc_Items c ++ [p])%list, Some p)
    end
  end.

(** [quotaCtrNameMatch]: the last segment, if it is the name of a container. *)
Definition quotaCtrNameMatch (dir : string) : option string :=
  match cut_last "/" dir with
  | Some (String _ _, String c name) => if ContainerNameValid (String c name) then Some (String c name) else None
  | _ => None
  end.

(** The text of [/etc/projects]. *)
Definition project_line (appPath : string) (v : QuotaProject) : string :=
  if qp_Id v <? 1 then "" else itoa (qp_Id v) +:+ ":" +:+ Clean (appPath +:+ "/" +:+ qp_Name v) +:+ String "010" "".
Definition project_lines (appPath : string) (l : list QuotaProject) : string :=
  foldr (fun v acc => project_line appPath v +:+ acc) "" l.

Section env.
Context {QE : QuotaEnv}.
Context (g : quota_settings).

(** * Effects *)

Definition perform (e : quota_effect) (q : quota) : quota * bool :=
  let ok := qe_ok (qs_hist q) e in (with_hist ((e, ok) :: qs_hist q) q, ok).
Definition exec (c : quota_cmd) (q : quota) : quota * bool := perform (QRun c) q.
(** [sh -c "... exit 0"]: the error that is seen is that of the shell. *)
Definition shell (c : quota_cmd) (q : quota) : quota * bool :=
  if qe_shell (qs_hist q) then (fst (perform (QShell c) q), true) else (q, false).

Definition SyncVendor (q : quota) : quota * result unit :=
  let maps := project_lines (qg_AppPath g) (q_items q) in
  let sum := sha1_hex maps in
  if bool_decide (sum = qc_syncMapsSum (qs_config q)) then (q, Ok tt) else
  let '(q, ok) := perform (QProjects maps) q in
  if ok then
    let c := qs_config q in
    (with_config {| qc_path := qc_path c; qc_syncMapsSum := sum; qc_Items := qc_Items c; qc_Updated := qc_Updated c;
                    qc_IdOffset := qc_IdOffset c; qc_MountPoints := qc_MountPoints c |} q, Ok tt)
  else (q, Err "write /etc/projects").

(** A file without a name cannot be written. *)
Definition Sync (now : Z) (q : quota) : quota * result unit :=
  let c := qs_config q in
  let c := {| qc_path := qc_path c; qc_syncMapsSum := qc_syncMapsSum c; qc_Items := qc_Items c; qc_Updated := now;
              qc_IdOffset := qc_IdOffset c; qc_MountPoints := qc_MountPoints c |} in
  let q := with_config c q in
  if bool_decide (qc_path c = "") then (q, Err "open : no such file or directory") else
  let '(q, ok) := perform (QSave (qc_path c) c) q in
  (q, if ok then Ok tt else Err "write").

(** [quotaCleanupContainer], after a container is destroyed. *)
Definition quotaCleanupContainer (now : Z) (containerName : string) (q : quota) : quota :=
  if negb (qs_inited q) then q else
  match Fetch containerName (q_items q) with
  | None => q
  | Some p =>
    let q := fst (exec (CLimit 0 0 (qp_Id p) (qp_Mnt p)) q) in
    let q := fst (exec (CClear (qp_Id p) (qp_Mnt p)) q) in
    let q := set_items (Remove containerName (q_items q)) q in
    fst (Sync now (fst (SyncVendor q)))
  end.

(** * Initialisation *)

Definition part_after (a b : quota_partition) : bool := str_lt (qt_Mountpoint b) (qt_Mountpoint a).
Definition part_eligible (d : quota_partition) : bool :=
  (has_prefix (qt_Mountpoint d) "/data/" || has_prefix (qt_Mountpoint d) "/opt" || has_prefix (qg_AppPath g) (qt_Mountpoint d)) &&
  negb (contains (qt_Mountpoint d) "/opt/docker/" || contains (qt_Mountpoint d) "devicemapper") &&
  bool_decide (qt_Fstype d = "xfs").
Fixpoint quota_mounts (l : list quota_partition) (q : quota) : quota * list string :=
  match l with
  | [] => (q, [])
  | d :: l =>
    if part_eligible d then
      let '(q, ok) := exec (CReport (qt_Mountpoint d)) q in
      let '(q, ms) := quota_mounts l q in
      (q, if ok then qt_Mountpoint d :: ms else ms)
    else quota_mounts l q
  end.

Definition inited (q : quota) : quota :=
  {| qs_config := qs_config q; qs_inited := true; qs_refreshed := qs_refreshed q; qs_hist := qs_hist q |}.
(** It is tried once, whatever comes of it. *)
Definition quotaKeeperInit `{SortSlice} (now : Z) (q : quota) : quota * result unit :=
  if qs_inited q then (q, Ok tt) else
  let '(q, ok) := exec CVersion q in
  if negb ok then (inited q, Err "command xfs_quota not found") else
  let '(q, ms) := quota_mounts (sort_slice part_after (qe_parts (qs_hist q))) q in
  match ms with
  | [] => (inited q, Err "no XFS quota-capable mount point found")
  | _ =>
    let path := qg_Prefix g +:+ "/etc/hostlet_vol_quota.json" in
    let c := default (qs_config q) (qe_saved (qs_hist q) path) in
    let c := {| qc_path := path; qc_syncMapsSum := qc_syncMapsSum (qs_config q); qc_Items := qc_Items c; qc_Updated := qc_Updated c;
                qc_IdOffset := qc_IdOffset c; qc_MountPoints := ms |} in
    ({| qs_config := c; qs_inited := true; qs_refreshed := now; qs_hist := qs_hist q |}, Ok tt)
  end.

(** * What the kernel reports *)

(** The numbers of the containers, and the mount points of the numbers. *)
Record quota_scan := { sn_path : gmap string Z; sn_mnt : gmap Z string; sn_items : list QuotaProject }.

(** Runs of spaces become one. *)
Fixpoint one_space (s : string) : string :=
  match s with
  | String " " ((String " " _) as s') => one_space s'
  | String c s' => String c (one_space s')
  | "" => ""
  end.
Definition out_lines (out : string) : list string := split_at "010" (one_space out).
Definition drop_last (s : string) : string := String.substring 0 (String.length s - 1) s.

(** A line of the command [path]: container and number. *)
Definition path_line (v : string) : option (string * Z) :=
  match split_at " " (trim_space v) with
  | [v0; v1; _; v3; v4] =>
    if (slen v0 <? 2) || bool_decide (v0 = "[000]") || negb (bool_decide (v3 = "(project")) || (slen v4 <? 2) then None else
    match parse_int_w 32 (drop_last v4) with
    | Some id => if id <? 100 then None else match quotaCtrNameMatch v1 with Some name => Some (name, id) | None => None end
    | None => None
    end
  | _ => None
  end.
Definition scan_path (mnt : string) (sn : quota_scan) (v : string) : quota_scan :=
  match path_line v with
  | Some (name, id) => {| sn_path := <[name := id]> (sn_path sn); sn_mnt := sn_mnt sn; sn_items := sn_items sn |}
  | None => sn
  end.

(** The container a line of the command [df] is about, and what becomes of its project. *)
Definition df_update (mnt : string) (v : string) : option (string * (QuotaProject -> QuotaProject)) :=
  let v := trim_space v in
  match split_at " " v with
  | [_; _; v2; _; _; v5] =>
    name ← quotaCtrNameMatch v5;
    Some (name, fun p => with_mnt mnt (match parse_int_w 64 v2 with Some used => with_used (used *64 1024) p | None => p end))
  | vs =>
    if (2 <? Z.of_nat (length vs)) && contains v "project quota flag not set" then
      name ← quotaCtrNameMatch (List.last vs "");
      Some (name, fun p => with_mnt mnt (with_limits 0 0 (with_used 0 p)))
    else None
  end.
Definition scan_df (mnt : string) (sn : quota_scan) (v : string) : quota_scan :=
  match df_update mnt v with
  | None => sn
  | Some (name, f) =>
    match sn_path sn !! name with
    | None => sn
    | Some id =>
      if (id <? 100) || negb (Has id (sn_items sn)) then sn else
      {| sn_path := sn_path sn; sn_mnt := <[id := mnt]> (sn_mnt sn); sn_items := update_first (has_id id) f (sn_items sn) |}
    end
  end.

Definition scan_mount (mnt : string) (sn : quota_scan) (q : quota) : quota * result quota_scan :=
  let out := qe_text (qs_hist q) (CPath mnt) in
  let '(q, ok) := exec (CPath mnt) q in
  if negb ok then (q, Err "[xfsquota] path query failed") else
  let sn := foldl (scan_path mnt) sn (out_lines out) in
  let out := qe_text (qs_hist q) (CDf mnt) in
  let q := fst (exec (CDf mnt) q) in
  (q, Ok (foldl (scan_df mnt) sn (out_lines out))).
(** The projects are written through pointers, so what was read stays if a later mount fails. *)
Fixpoint scan_mounts (ms : list string) (sn : quota_scan) (q : quota) : quota * result quota_scan :=
  match ms with
  | [] => (q, Ok sn)
  | mnt :: ms =>
    let '(q, r) := scan_mount mnt sn q in
    match r with
    | Err e => (q, Err e)
    | Ok sn => scan_mounts ms sn (set_items (sn_items sn) q)
    end
  end.
Definition init_project (sn : quota_scan) (q : quota) (kv : string * Z) : quota :=
  match sn_mnt sn !! snd kv with
  | Some mnt => if bool_decide (mnt = "") then q else fst (exec (CInit (snd kv) mnt) q)
  | None => q
  end.
Definition scan_kernel `{MapRange} (q : quota) : quota * result unit :=
  let '(q, r) := scan_mounts (qc_MountPoints (qs_config q)) {| sn_path := ∅; sn_mnt := ∅; sn_items := q_items q |} q in
  match r with
  | Err e => (q, Err e)
  | Ok sn => (foldl (init_project sn) q (map_range (sn_path sn)), Ok tt)
  end.

(** * Projects without a directory *)

Definition is_gone (h : quota_history) (v : QuotaProject) : bool :=
  match qe_stat h (Clean (qg_AppPath g +:+ "/" +:+ qp_Name v)) with DirGone => true | _ => false end.
Definition remove_stale (q : quota) (v : QuotaProject) : quota :=
  let q := if negb (bool_decide (qp_Mnt v = "")) && (100 <=? qp_Id v) then
             fst (exec (CClear (qp_Id v) (qp_Mnt v)) (fst (exec (CLimit 0 0 (qp_Id v) (qp_Mnt v)) q)))
           else q in
  set_items (Remove (qp_Name v) (q_items q)) q.
Definition remove_gone (q : quota) : quota * result unit :=
  let dels := List.filter (is_gone (qs_hist q)) (q_items q) in
  let q := foldl remove_stale q dels in
  match dels with [] => (q, Ok tt) | _ => SyncVendor q end.

(** * Limits of running containers *)

(** Within one percent. *)
Definition near_limit (v volLimit : Z) : bool :=
  let d := f64_div (f64_of_int (v -64 volLimit)) (f64_of_int volLimit) in
  f64_gt d (F (- f_man f64_0_01) (f_exp f64_0_01)) && f64_lt d f64_0_01.
Definition vol_limit (d : AppDeploy) : Z := Z.max (ad_VolumeLimit d) (Z.shiftl 100 20).
(** [ContainerBaseDir] *)
Definition ContainerBaseDir (base name : string) : string :=
  if bool_decide (base = "") then Clean name else Clean (base +:+ "/" +:+ name).

Definition set_limit (ctrName ctrDir : string) (volLimit : Z) (p : QuotaProject) (q : quota) : quota :=
  if near_limit (qp_Soft p) volLimit && near_limit (qp_Hard p) volLimit then q else
  let '(q, r) := SyncVendor q in
  match r with
  | Err _ => q
  | Ok _ =>
    let '(q, ok) := shell (CAssign ctrDir (qp_Id p) (qp_Mnt p)) q in
    if negb ok then q else
    let '(q, ok) := shell (CLimit volLimit volLimit (qp_Id p) (qp_Mnt p)) q in
    if negb ok then q else
    set_items (update_first (goes_by ctrName) (with_limits volLimit volLimit) (q_items q)) q
  end.
Definition limit_replica (name : string) (d : AppDeploy) (q : quota) (rep : AppDeployReplica) : quota :=
  if bool_decide (dr_HostId rep = "") || negb (bool_decide (dr_HostId rep = qg_HostId g)) then q else
  let ctrName := ContainerName name (dr_Id rep) in
  let ctrDir := ContainerBaseDir (qg_AppPath g) ctrName in
  match qe_stat (qs_hist q) ctrDir with
  | DirThere =>
    let '(c, p) := FetchOrCreate "" ctrName (qs_config q) in
    let q := with_config c q in
    match p with
    | None => q
    | Some p => set_limit ctrName ctrDir (vol_limit d) p q
    end
  | _ => q
  end.
Definition limit_app (q : quota) (kv : string * AppRecord) : quota :=
  let app := snd kv in
  match ar_Spec app, ar_Deploy app with
  | Some _, Some d =>
    if bool_decide (ad_Replicas d = []) || negb (bool_decide (ad_Action d = OpActionStart)) then q else
    foldl (limit_replica (ar_Name app) d) q (ad_Replicas d)
  | _, _ => q
  end.

(** * Limits of the others *)

Definition holds_container (ctrName : string) (kv : string * AppRecord) : bool :=
  let app := snd kv in
  match ar_Deploy app with
  | Some d =>
    bool_decide (ad_Action d = OpActionStart) &&
    existsb (fun rep => bool_decide (dr_HostId rep = qg_HostId g) && bool_decide (ContainerName (ar_Name app) (dr_Id rep) = ctrName)) (ad_Replicas d)
  | None => false
  end.
Definition container_active `{MapRange} (active : gmap string AppRecord) (ctrName : string) : bool :=
  existsb (holds_container ctrName) (map_range active).

(** The projects after the pass, and whether one was lifted. *)
Fixpoint lift_limits `{MapRange} (active : gmap string AppRecord) (l : list QuotaProject) (q : quota) : quota * list QuotaProject * bool :=
  match l with
  | [] => (q, [], false)
  | v :: l =>
    let '(q, v, one) :=
      if (qp_Soft v <? 1) || container_active active (qp_Name v) then (q, v, false) else
      let '(q, ok) := exec (CLimit 0 0 (qp_Id v) (qp_Mnt v)) q in
      if negb ok then (q, v, false) else
      let '(q, ok) := exec (CClear (qp_Id v) (qp_Mnt v)) q in
      if negb ok then (q, v, false) else (q, with_limits 0 0 v, true) in
    let '(q, vs, cleaned) := lift_limits active l q in
    (q, v :: vs, one || cleaned)
  end.

(** * The cycle *)

Definition quota_cycle `{MapRange} (tn : Z) (active : gmap string AppRecord) (q : quota) : quota * result unit :=
  let '(q, r) := scan_kernel q in
  match r with Err e => (q, Err e) | Ok _ =>
  let '(q, r) := remove_gone q in
  match r with Err e => (q, Err e) | Ok _ =>
  let '(q, r) := Sync tn q in
  match r with Err e => (q, Err e) | Ok _ =>
  let '(q, r) := Sync tn (foldl limit_app q (map_range active)) in
  match r with Err e => (q, Err e) | Ok _ =>
  let '(q, vs, cleaned) := lift_limits active (q_items q) q in
  let q := set_items vs q in
  let '(q, r) := if cleaned then Sync tn q else (q, Ok tt) in
  match r with Err e => (q, Err e) | Ok _ =>
  ({| qs_config := qs_config q; qs_inited := qs_inited q; qs_refreshed := tn; qs_hist := qs_hist q |}, Ok tt)
  end end end end end.

Definition xfsQuotaRefresh `{SortSlice} `{MapRange} (tn : Z) (active : gmap string AppRecord) (q : quota) : quota * result unit :=
  let '(q, r) := quotaKeeperInit tn q in
  match r with
  | Err _ => (q, Ok tt)
  | Ok _ => if (0 <? qs_refreshed q) && (tn -64 qs_refreshed q <? 10) then (q, Ok tt) else quota_cycle tn active q
  end.
End env.
