(* ===== verification/QuotaLogic.v ===== *)
(** Disk quotas: the numbers of the projects stay apart, a cycle in which no command fails
    leaves every running container limited and no other one, and what falls short: a limit
    that is refused counts as set, and a start without quotas fails in every later turn.

    The functions of a cycle are broken down to steps on the projects and the history
    ([qstep]), and the invariants are shown of the steps. *)
From Stdlib Require Import ZArith Lia Ascii.
From S2P Require Import Prelude GoStrings GoPath GoFloat AppNames StateFlow Stage Zone Sha1 Quota.
Local Open Scope string_scope.
Local Open Scope Z_scope.
Local Open Scope go_scope.

(** * Projects *)

(** No two projects share a number or a name, and the numbers are in range. *)
Record quota_wf (l : list QuotaProject) : Prop := {
  qw_ids : NoDup (map qp_Id l);
  qw_names : NoDup (map qp_Name l);
  qw_range : Forall (fun p => 100 <= qp_Id p <= 110000) l }.

Lemma Has_spec i l : Has i l = true <-> i ∈ map qp_Id l.
Proof.
  unfold Has. rewrite existsb_exists. rewrite list_elem_of_In, in_map_iff. unfold has_id. split.
  - intros (p & Hp & E). apply Z.eqb_eq in E. by exists p.
  - intros (p & <- & Hp). exists p. split; [done|lia].
Qed.

Lemma Fetch_some name l p : Fetch name l = Some p -> p ∈ l /\ qp_Name p = name.
Proof.
  intros E. apply find_some in E as [Hin E]. split; [by apply list_elem_of_In|]. by apply bool_decide_eq_true in E.
Qed.
Lemma Fetch_none name l : Fetch name l = None -> name ∉ map qp_Name l.
Proof.
  intros E Hin. apply list_elem_of_In, in_map_iff in Hin as (p & <- & Hp). apply (find_none _ _ E) in Hp.
  by apply bool_decide_eq_false in Hp.
Qed.

Lemma free_id_spec n i l : match free_id n i l with
  | Some j => i <= j < i + Z.of_nat n /\ (j ∉ map qp_Id l) /\ forall k, i <= k < j -> k ∈ map qp_Id l
  | None => forall k, i <= k < i + Z.of_nat n -> k ∈ map qp_Id l
  end.
Proof.
  revert i. induction n as [|n IH]; intros i; cbn [free_id]; [lia|].
  destruct (Has i l) eqn:E.
  - apply Has_spec in E. specialize (IH (i + 1)). destruct (free_id n (i + 1) l) as [j|].
    + destruct IH as (? & ? & Hk). split_and!; [lia|lia|done|]. intros k Hk'. destruct (decide (k = i)) as [->|]; [done|apply Hk; lia].
    + intros k Hk. destruct (decide (k = i)) as [->|]; [done|apply IH; lia].
  - split_and!; [lia|lia| |lia]. intros Hin. apply Has_spec in Hin. congruence.
Qed.

(** As many different numbers need as many projects. *)
Lemma taken_length l i n : (forall k, i <= k < i + Z.of_nat n -> k ∈ map qp_Id l) -> (n <= length l)%nat.
Proof.
  intros Hk. rewrite <- (length_map qp_Id l).
  assert (Hs : seqZ i (Z.of_nat n) ⊆+ map qp_Id l).
  { apply NoDup_submseteq; [apply NoDup_seqZ|]. intros x Hx. apply elem_of_seqZ in Hx. by apply Hk. }
  apply submseteq_length in Hs. rewrite length_seqZ in Hs. lia.
Qed.

Lemma id_offset_range c : 100 <= id_offset c < 100000.
Proof. unfold id_offset. destruct (Z.ltb_spec (qc_IdOffset c) 100), (Z.leb_spec 100000 (qc_IdOffset c)); cbn; lia. Qed.

(** A project that is created has a number of its own, the first free one from the offset
    on; it cannot be created exactly if all of them are taken, which takes more than ten
    thousand projects. *)
Theorem FetchOrCreate_spec mnt name c : match FetchOrCreate mnt name c with
  | (c', Some p) =>
    (c' = c /\ Fetch name (qc_Items c) = Some p) \/
    ((name ∉ map qp_Name (qc_Items c)) /\ qc_Items c' = (qc_Items c ++ [p])%list /\ qp_Name p = name /\ qp_Soft p = 0 /\ qp_Hard p = 0 /\
     (qp_Id p ∉ map qp_Id (qc_Items c)) /\ id_offset c <= qp_Id p <= 110000 /\ qc_IdOffset c' = qp_Id p + 1 /\
     (forall k, id_offset c <= k < qp_Id p -> k ∈ map qp_Id (qc_Items c)) /\
     qp_Mnt p = if bool_decide (mnt = "") || bool_decide (mnt = "/") then "/opt" else mnt)
  | (c', None) =>
    qc_Items c' = qc_Items c /\ (name ∉ map qp_Name (qc_Items c)) /\ 10000 < Z.of_nat (length (qc_Items c)) /\
    forall k, id_offset c <= k <= 110000 -> k ∈ map qp_Id (qc_Items c)
  end.
Proof.
  unfold FetchOrCreate. pose proof (id_offset_range c) as Ho.
  destruct (Fetch name (qc_Items c)) as [v|] eqn:Ef; [by left|]. pose proof (Fetch_none _ _ Ef) as Hn.
  pose proof (free_id_spec (Z.to_nat (110000 - id_offset c + 1)) (id_offset c) (qc_Items c)) as Hs.
  rewrite Z2Nat.id in Hs by lia. destruct (free_id _ _ _) as [j|]; cbn.
  - right. destruct Hs as (? & ? & ?). split_and!; first [done|lia].
  - split_and!; [done|done| |intros k Hk; apply Hs; lia].
    pose proof (taken_length (qc_Items c) (id_offset c) (Z.to_nat (110000 - id_offset c + 1))) as Hl.
    rewrite Z2Nat.id in Hl by lia. specialize (Hl Hs). lia.
Qed.

Lemma update_first_map {A} (pr : QuotaProject -> A) t f l : (forall p, pr (f p) = pr p) -> map pr (update_first t f l) = map pr l.
Proof. intros Hf. induction l as [|v l IH]; cbn; [done|]. destruct (t v); cbn; [by rewrite Hf|by rewrite IH]. Qed.

Lemma Remove_sublist name l : sublist (Remove name l) l.
Proof.
  induction l as [|v l IH]; cbn; [constructor|]. destruct (goes_by name v); [by apply sublist_cons|by apply sublist_skip].
Qed.
Lemma Remove_elem name l p : p ∈ Remove name l -> p ∈ l.
Proof. intros Hp. by eapply elem_of_submseteq, sublist_submseteq, Remove_sublist. Qed.
Lemma Remove_other name l p : p ∈ l -> qp_Name p <> name -> p ∈ Remove name l.
Proof.
  induction l as [|v l IH]; cbn; intros Hin Hn; [done|]. unfold goes_by. case_bool_decide as E; apply elem_of_cons in Hin as [->|Hin].
  - done.
  - done.
  - by left.
  - right. by apply IH.
Qed.
Lemma Remove_gone name l p : NoDup (map qp_Name l) -> p ∈ Remove name l -> qp_Name p <> name.
Proof.
  induction l as [|v l IH]; cbn; intros Hnd Hp; [by apply not_elem_of_nil in Hp|]. apply NoDup_cons in Hnd as [Hv Hnd].
  unfold goes_by in Hp. case_bool_decide as E.
  - intros <-. rewrite E in Hv. destruct Hv. by apply list_elem_of_fmap_2.
  - apply elem_of_cons in Hp as [->|Hp]; [done|by apply IH].
Qed.

Lemma quota_wf_sublist l l' : sublist l' l -> quota_wf l -> quota_wf l'.
Proof.
  intros Hs [Hi Hn Hr]. split.
  - eapply sublist_NoDup; [exact Hi|]. by apply (fmap_sublist qp_Id).
  - eapply sublist_NoDup; [exact Hn|]. by apply (fmap_sublist qp_Name).
  - rewrite Forall_forall in *. intros p Hp. apply Hr. by eapply elem_of_submseteq, sublist_submseteq.
Qed.
Lemma quota_wf_same l l' : map qp_Id l' = map qp_Id l -> map qp_Name l' = map qp_Name l -> quota_wf l -> quota_wf l'.
Proof.
  intros Ei En [Hi Hn Hr]. split; [by rewrite Ei|by rewrite En|].
  assert (Hr' : Forall (fun i => 100 <= i <= 110000) (map qp_Id l)) by (by apply Forall_map).
  rewrite <- Ei in Hr'. by apply Forall_map in Hr'.
Qed.
Lemma quota_wf_snoc l p : qp_Id p ∉ map qp_Id l -> qp_Name p ∉ map qp_Name l -> 100 <= qp_Id p <= 110000 ->
  quota_wf l -> quota_wf (l ++ [p]).
Proof.
  intros Hi Hn Hr [Wi Wn Wr]. split; rewrite ?map_app.
  - apply NoDup_app. split_and!; [done| |cbn; apply NoDup_singleton]. intros x Hx Hx'. apply list_elem_of_singleton in Hx' as ->. done.
  - apply NoDup_app. split_and!; [done| |cbn; apply NoDup_singleton]. intros x Hx Hx'. apply list_elem_of_singleton in Hx' as ->. done.
  - apply Forall_app. split; [done|by constructor].
Qed.
Lemma wf_same_name l p p' : quota_wf l -> p ∈ l -> p' ∈ l -> qp_Name p = qp_Name p' -> p = p'.
Proof.
  intros W Hp Hp' E. apply list_elem_of_lookup in Hp as (i & Hi), Hp' as (j & Hj).
  assert (i = j) as ->; [|congruence]. eapply (NoDup_lookup (qp_Name <$> l)); [by apply W|..]; rewrite list_lookup_fmap, ?Hi, ?Hj; cbn; by rewrite ?E.
Qed.

(** * Steps *)

(** What a command does to the quotas of a file system: the soft and hard limit of a
    project, and the directory that counts for it. *)
Definition limit_effect (e : quota_effect) : option (string * Z * (Z * Z)) :=
  match e with
  | QRun (CLimit soft hard id mnt) | QShell (CLimit soft hard id mnt) => Some (mnt, id, (soft, hard))
  | _ => None
  end.
Definition dir_effect (e : quota_effect) : option (string * Z * option string) :=
  match e with
  | QRun (CAssign dir id mnt) | QShell (CAssign dir id mnt) => Some (mnt, id, Some dir)
  | QRun (CClear id mnt) | QShell (CClear id mnt) => Some (mnt, id, None)
  | _ => None
  end.
(** The last effect of a kind on a project of a file system. *)
Fixpoint last_effect {A} (f : quota_effect -> option (string * Z * A)) (none : A) (h : quota_history) (mnt : string) (id : Z) : A :=
  match h with
  | [] => none
  | (e, ok) :: h =>
    match f e with
    | Some (m, i, a) => if ok && bool_decide (m = mnt) && (i =? id) then a else last_effect f none h mnt id
    | None => last_effect f none h mnt id
    end
  end.
(** The limits of a project in the file system that is mounted at [mnt], and its directory. *)
Abbreviation fs_limit := (last_effect limit_effect (0, 0)).
Abbreviation fs_dir := (last_effect dir_effect None).
Definition quiet (e : quota_effect) : Prop := limit_effect e = None /\ dir_effect e = None.

(** A project after a scan: its limits stay or are forgotten. *)
Definition scanned (p p' : QuotaProject) : Prop :=
  qp_Id p' = qp_Id p /\ qp_Name p' = qp_Name p /\
  (qp_Soft p' = qp_Soft p /\ qp_Hard p' = qp_Hard p \/ qp_Soft p' = 0 /\ qp_Hard p' = 0).
(** All of a project but what it uses. *)
Definition settings (p : QuotaProject) : Z * string * string * Z * Z := (qp_Id p, qp_Mnt p, qp_Name p, qp_Soft p, qp_Hard p).

(** A file that is saved holds the projects. *)
Definition saves (l : list QuotaProject) (e : quota_effect) : Prop := match e with QSave _ c => qc_Items c = l | _ => True end.

(** What the steps may do: the names that may be removed, the changes of a scan, and where
    the containers are. *)
Record step_rules := {
  may_remove : string -> Prop;
  may_scan : QuotaProject -> QuotaProject -> Prop;
  scan_scanned : forall p p', may_scan p p' -> scanned p p';
  ctr_base : string }.
Definition any_scan (base : string) (R : string -> Prop) : step_rules :=
  {| may_remove := R; may_scan := scanned; scan_scanned := fun _ _ H => H; ctr_base := base |}.
Definition still_scan (base : string) (R : string -> Prop) : step_rules :=
  {| may_remove := R; may_scan := fun p p' => scanned p p' /\ settings p' = settings p; scan_scanned := fun _ _ H => proj1 H; ctr_base := base |}.

(** The steps on the projects and the history. *)
Inductive qstep (R : step_rules) : list QuotaProject * quota_history -> list QuotaProject * quota_history -> Prop :=
| qs_quiet l h e ok : quiet e -> saves l e -> qstep R (l, h) (l, (e, ok) :: h)
| qs_scan l l' h : Forall2 (may_scan R) l l' -> qstep R (l, h) (l', h)
| qs_remove l h h' p ok ok' : p ∈ l -> may_remove R (qp_Name p) ->
    (h' = h /\ (qp_Mnt p = "" \/ qp_Id p < 100) \/
     h' = (QRun (CClear (qp_Id p) (qp_Mnt p)), ok') :: (QRun (CLimit 0 0 (qp_Id p) (qp_Mnt p)), ok) :: h) ->
    qstep R (l, h) (Remove (qp_Name p) l, h')
| qs_create l h p : (qp_Id p ∉ map qp_Id l) -> (qp_Name p ∉ map qp_Name l) -> 100 <= qp_Id p <= 110000 -> qp_Soft p = 0 -> qp_Hard p = 0 ->
    qp_Mnt p <> "" -> qstep R (l, h) ((l ++ [p])%list, h)
| qs_assign l h p ok : p ∈ l ->
    qstep R (l, h) (l, (QShell (CAssign (ContainerBaseDir (ctr_base R) (qp_Name p)) (qp_Id p) (qp_Mnt p)), ok) :: h)
| qs_limit l h p n ok ok' : p ∈ l -> 0 <= n ->
    qstep R (l, h) (update_first (goes_by (qp_Name p)) (with_limits n n) l,
      (QShell (CLimit n n (qp_Id p) (qp_Mnt p)), ok') ::
      (QShell (CAssign (ContainerBaseDir (ctr_base R) (qp_Name p)) (qp_Id p) (qp_Mnt p)), ok) :: h)
| qs_lift l1 l2 h p : qstep R ((l1 ++ p :: l2)%list, h)
    ((l1 ++ with_limits 0 0 p :: l2)%list, (QRun (CClear (qp_Id p) (qp_Mnt p)), true) :: (QRun (CLimit 0 0 (qp_Id p) (qp_Mnt p)), true) :: h)
| qs_fail l h h' : Exists (fun x => snd x = false) h' -> Forall (saves l ∘ fst) h' -> qstep R (l, h) (l, (h' ++ h)%list).

Lemma scanned_ids l l' : Forall2 scanned l l' -> map qp_Id l' = map qp_Id l /\ map qp_Name l' = map qp_Name l.
Proof. induction 1 as [|x y l l' (Hi & Hn & _) _ [IHi IHn]]; cbn; [done|]. by rewrite Hi, Hn, IHi, IHn. Qed.

Lemma wf_step R x y : qstep R x y -> quota_wf (fst x) -> quota_wf (fst y).
Proof.
  destruct 1; cbn [fst]; intros W.
  - done.
  - destruct (scanned_ids l l'); [eapply Forall2_impl; [exact H|apply scan_scanned]|]. by eapply quota_wf_same.
  - eapply quota_wf_sublist; [apply Remove_sublist|done].
  - by apply quota_wf_snoc.
  - done.
  - eapply quota_wf_same; [| |done]; by apply update_first_map.
  - eapply quota_wf_same; [| |done]; rewrite !map_app; done.
  - done.
Qed.

Definition no_failure (h : quota_history) : Prop := Forall (fun x => snd x = true) h.

Lemma wf_same_id l p p' : quota_wf l -> p ∈ l -> p' ∈ l -> qp_Id p = qp_Id p' -> p = p'.
Proof.
  intros W Hp Hp' E. apply list_elem_of_lookup in Hp as (i & Hi), Hp' as (j & Hj).
  assert (i = j) as ->; [|congruence]. eapply (NoDup_lookup (qp_Id <$> l)); [by apply W|..]; rewrite list_lookup_fmap, ?Hi, ?Hj; cbn; by rewrite ?E.
Qed.

(** An update through a name leaves the projects of other names, and changes one project. *)
Lemma update_first_elem name f l p : NoDup (map qp_Name l) -> (forall p, qp_Name (f p) = qp_Name p) -> p ∈ update_first (goes_by name) f l ->
  (p ∈ l /\ qp_Name p <> name) \/ exists v, v ∈ l /\ qp_Name v = name /\ p = f v.
Proof.
  intros Hnd Hf. induction l as [|v l IH]; cbn; [by intros Hp%not_elem_of_nil|]. apply NoDup_cons in Hnd as [Hv Hnd].
  unfold goes_by at 1. case_bool_decide as E; intros [->|Hp]%elem_of_cons.
  - right. exists v. split_and!; [by left|done|done].
  - left. split; [by right|]. intros <-. destruct Hv. rewrite E. by apply list_elem_of_fmap_2.
  - left. split; [by left|done].
  - destruct (IH Hnd Hp) as [[? ?]|(w & ? & ? & ?)]; [left|right; exists w]; split_and!; try done; by right.
Qed.

Lemma update_first_hit name f l p : NoDup (map qp_Name l) -> p ∈ l -> qp_Name p = name -> f p ∈ update_first (goes_by name) f l.
Proof.
  intros Hnd Hp Hn. induction l as [|v l IH]; [by apply not_elem_of_nil in Hp|]. apply NoDup_cons in Hnd as [Hv Hnd]. cbn.
  unfold goes_by at 1. case_bool_decide as E; apply elem_of_cons in Hp as [->|Hp].
  - by left.
  - destruct Hv. rewrite E, <- Hn. by apply list_elem_of_fmap_2.
  - done.
  - right. by apply IH.
Qed.
Lemma update_first_miss name f l p : p ∈ l -> qp_Name p <> name -> p ∈ update_first (goes_by name) f l.
Proof.
  intros Hp Hn. induction l as [|v l IH]; [by apply not_elem_of_nil in Hp|]. cbn. unfold goes_by at 1.
  case_bool_decide as E; apply elem_of_cons in Hp as [->|Hp]; [done|by right|by left|right; by apply IH].
Qed.

(** ** The projects and the file systems *)

Lemma last_none {A} (f : quota_effect -> option (string * Z * A)) none e ok h mnt id : f e = None ->
  last_effect f none ((e, ok) :: h) mnt id = last_effect f none h mnt id.
Proof. intros E. cbn. by rewrite E. Qed.
Lemma last_hit {A} (f : quota_effect -> option (string * Z * A)) none e h mnt id a : f e = Some (mnt, id, a) ->
  last_effect f none ((e, true) :: h) mnt id = a.
Proof. intros E. cbn. by rewrite E, bool_decide_true, Z.eqb_refl. Qed.
Lemma last_miss {A} (f : quota_effect -> option (string * Z * A)) none e ok h mnt id m i a : f e = Some (m, i, a) -> (i = id -> m <> mnt) ->
  last_effect f none ((e, ok) :: h) mnt id = last_effect f none h mnt id.
Proof.
  intros E Hne. cbn. rewrite E. destruct (ok && _ && _) eqn:Ec; [|done]. apply andb_true_iff in Ec as [[_ Em%bool_decide_eq_true]%andb_true_iff Ei].
  apply Z.eqb_eq in Ei. by destruct (Hne Ei).
Qed.

(** The file systems have the limits that the projects record, on the directories of their
    containers, and no others. *)
Record quota_true (base : string) (l : list QuotaProject) (h : quota_history) : Prop := {
  qt_even : forall p, p ∈ l -> qp_Hard p = qp_Soft p /\ 0 <= qp_Soft p /\ qp_Mnt p <> "";
  qt_limits : forall p, p ∈ l -> fs_limit h (qp_Mnt p) (qp_Id p) = (qp_Soft p, qp_Hard p);
  qt_dirs : forall p, p ∈ l -> qp_Soft p <> 0 -> fs_dir h (qp_Mnt p) (qp_Id p) = Some (ContainerBaseDir base (qp_Name p));
  qt_others : forall mnt id, (forall p, p ∈ l -> qp_Id p = id -> qp_Mnt p <> mnt) -> fs_limit h mnt id = (0, 0) }.

(** One project is limited anew, or goes without a limit. *)
Lemma true_at base l h l' h' p soft (kept : bool) : quota_wf l -> quota_true base l h -> p ∈ l ->
  (forall q, q ∈ l' <-> (q ∈ l /\ qp_Id q <> qp_Id p) \/ (kept = true /\ q = with_limits soft soft p)) ->
  (kept = false -> soft = 0) -> 0 <= soft ->
  (forall m i, (i = qp_Id p -> m <> qp_Mnt p) -> fs_limit h' m i = fs_limit h m i /\ fs_dir h' m i = fs_dir h m i) ->
  fs_limit h' (qp_Mnt p) (qp_Id p) = (soft, soft) ->
  (soft <> 0 -> fs_dir h' (qp_Mnt p) (qp_Id p) = Some (ContainerBaseDir base (qp_Name p))) -> quota_true base l' h'.
Proof.
  intros W [Te Tl Td To] Hp Hl Hk Hs Hframe Hlim Hdir.
  assert (Hold : forall q, q ∈ l -> qp_Id q <> qp_Id p -> (qp_Id q = qp_Id p -> qp_Mnt q <> qp_Mnt p)) by (intros q _ Hne E; by destruct Hne).
  split.
  - intros q [[Hq _]|[_ ->]]%Hl; [by apply Te|]. split_and!; [done|done|by apply (Te p Hp)].
  - intros q [[Hq Hn]|[_ ->]]%Hl; [|done]. destruct (Hframe (qp_Mnt q) (qp_Id q)) as [-> _]; [by apply Hold|by apply Tl].
  - intros q [[Hq Hn]|[_ ->]]%Hl Hsq; [|by apply Hdir]. destruct (Hframe (qp_Mnt q) (qp_Id q)) as [_ ->]; [by apply Hold|by apply Td].
  - intros m i Hno. destruct (decide (i = qp_Id p /\ m = qp_Mnt p)) as [[-> ->]|Hne].
    + rewrite Hlim. destruct kept; [|by rewrite Hk]. exfalso. apply (Hno (with_limits soft soft p)); [apply Hl; by right|done|done].
    + destruct (Hframe m i) as [-> _]; [intros E Em; by apply Hne|]. apply To. intros q Hq E Em. destruct (decide (qp_Id q = qp_Id p)) as [Ei|Ei].
      * rewrite (wf_same_id _ _ _ W Hq Hp Ei) in E, Em. by apply Hne.
      * apply (Hno q); [apply Hl; by left|done|done].
Qed.
Lemma fs_frame p e1 ok1 e2 ok2 h m i : (i = qp_Id p -> m <> qp_Mnt p) ->
  (forall a, limit_effect e1 = Some a -> fst a = (qp_Mnt p, qp_Id p)) -> (forall a, limit_effect e2 = Some a -> fst a = (qp_Mnt p, qp_Id p)) ->
  (forall a, dir_effect e1 = Some a -> fst a = (qp_Mnt p, qp_Id p)) -> (forall a, dir_effect e2 = Some a -> fst a = (qp_Mnt p, qp_Id p)) ->
  fs_limit ((e1, ok1) :: (e2, ok2) :: h) m i = fs_limit h m i /\ fs_dir ((e1, ok1) :: (e2, ok2) :: h) m i = fs_dir h m i.
Proof.
  intros Hne L1 L2 D1 D2.
  assert (Hone : forall A (f : quota_effect -> option (string * Z * A)) none e ok h, (forall a, f e = Some a -> fst a = (qp_Mnt p, qp_Id p)) ->
    last_effect f none ((e, ok) :: h) m i = last_effect f none h m i).
  { intros A f none e ok h' Hf. destruct (f e) as [[[m' i'] a]|] eqn:E; [|by apply last_none]. eapply last_miss; [exact E|].
    specialize (Hf _ eq_refl). cbn in Hf. injection Hf as -> ->. intros Ei Em. by apply (Hne (eq_sym Ei)). }
  split; rewrite !Hone by done; done.
Qed.

Lemma with_limits_same p : qp_Hard p = qp_Soft p -> with_limits (qp_Soft p) (qp_Soft p) p = p.
Proof. intros E. unfold with_limits. rewrite <- E at 2. by destruct p. Qed.
Lemma wf_but l p q : quota_wf l -> p ∈ l -> q ∈ l <-> (q ∈ l /\ qp_Id q <> qp_Id p) \/ q = p.
Proof.
  intros W Hp. split; [|by intros [[? ?]| ->]]. intros Hq. destruct (decide (qp_Id q = qp_Id p)) as [E|]; [right; by apply (wf_same_id l)|by left].
Qed.

Lemma true_scan base l l' h : Forall2 (fun p p' => settings p' = settings p) l l' -> quota_true base l h -> quota_true base l' h.
Proof.
  intros Hs [Te Tl Td To].
  assert (Hback : forall q, q ∈ l' -> exists p, p ∈ l /\ settings q = settings p).
  { intros q (i & Hi)%list_elem_of_lookup. destruct (Forall2_lookup_r _ _ _ _ _ Hs Hi) as (p & Hp & E). exists p. split; [by eapply list_elem_of_lookup_2|done]. }
  split.
  - intros q (p & Hp & [= Ei Em En Es Eh])%Hback. rewrite Es, Eh, Em. by apply Te.
  - intros q (p & Hp & [= Ei Em En Es Eh])%Hback. rewrite Ei, Em, Es, Eh. by apply Tl.
  - intros q (p & Hp & [= Ei Em En Es Eh])%Hback. rewrite Ei, Em, Es, En. by apply Td.
  - intros m i Hno. apply To. intros p (j & Hj)%list_elem_of_lookup. destruct (Forall2_lookup_l _ _ _ _ _ Hs Hj) as (q & Hq & [= Ei Em _ _ _]).
    rewrite <- Ei, <- Em. apply Hno. by eapply list_elem_of_lookup_2.
Qed.
Lemma true_create base l h p : quota_wf l -> qp_Id p ∉ map qp_Id l -> qp_Soft p = 0 -> qp_Hard p = 0 -> qp_Mnt p <> "" ->
  quota_true base l h -> quota_true base (l ++ [p]) h.
Proof.
  intros W Hi Hs Hh Hm [Te Tl Td To]. split.
  - intros q [Hq|Hq%list_elem_of_singleton]%elem_of_app; [by apply Te|]. subst q. rewrite Hs, Hh. done.
  - intros q [Hq|Hq%list_elem_of_singleton]%elem_of_app; [by apply Tl|]. subst q. rewrite Hs, Hh. apply To.
    intros q Hq E. destruct Hi. rewrite <- E. by apply list_elem_of_fmap_2.
  - intros q [Hq|Hq%list_elem_of_singleton]%elem_of_app; [by apply Td|]. by subst q.
  - intros m i Hno. apply To. intros q Hq. apply Hno. apply elem_of_app. by left.
Qed.

Lemma update_first_set l p n q : quota_wf l -> p ∈ l ->
  q ∈ update_first (goes_by (qp_Name p)) (with_limits n n) l <-> (q ∈ l /\ qp_Id q <> qp_Id p) \/ (true = true /\ q = with_limits n n p).
Proof.
  intros W Hp. split.
  - intros [[Hq Hn]|(v & Hv & En & ->)]%update_first_elem; [| |apply W|done].
    + left. split; [done|]. intros E. apply Hn. by rewrite (wf_same_id _ _ _ W Hq Hp E).
    + right. split; [done|]. by rewrite (wf_same_name _ _ _ W Hv Hp En).
  - intros [[Hq Hn]|[_ ->]].
    + apply update_first_miss; [done|]. intros E. apply Hn. by rewrite (wf_same_name _ _ _ W Hq Hp E).
    + apply update_first_hit; [apply W|done|done].
Qed.
Lemma Remove_set l p q : quota_wf l -> p ∈ l -> q ∈ Remove (qp_Name p) l <-> q ∈ l /\ qp_Id q <> qp_Id p.
Proof.
  intros W Hp. split.
  - intros Hq. pose proof (Remove_elem _ _ _ Hq) as Hq'. split; [done|]. intros E. apply (Remove_gone _ _ _ (qw_names _ W) Hq).
    by rewrite (wf_same_id _ _ _ W Hq' Hp E).
  - intros [Hq Hn]. apply Remove_other; [done|]. intros E. apply Hn. by rewrite (wf_same_name _ _ _ W Hq Hp E).
Qed.
Lemma lift_set l1 p l2 q : quota_wf (l1 ++ p :: l2) -> q ∈ (l1 ++ with_limits 0 0 p :: l2)%list <->
  (q ∈ (l1 ++ p :: l2)%list /\ qp_Id q <> qp_Id p) \/ (true = true /\ q = with_limits 0 0 p).
Proof.
  intros [W _ _]. rewrite map_app in W. cbn in W. apply NoDup_app in W as (_ & W1 & W2). apply NoDup_cons in W2 as [W2 _].
  assert (N1 : q ∈ l1 -> qp_Id q <> qp_Id p) by (intros Hq E; apply (W1 (qp_Id q)); [by apply list_elem_of_fmap_2|rewrite E; by left]).
  assert (N2 : q ∈ l2 -> qp_Id q <> qp_Id p) by (intros Hq E; apply W2; rewrite <- E; by apply list_elem_of_fmap_2).
  rewrite !elem_of_app, !elem_of_cons. split; [intros [Hq|[->|Hq]]|intros [[[Hq|[->|Hq]] Hn]|[_ ->]]]; tauto.
Qed.

Lemma true_step R x y : qstep R x y -> (forall p p', may_scan R p p' -> settings p' = settings p) ->
  no_failure (snd y) -> quota_wf (fst x) -> quota_true (ctr_base R) (fst x) (snd x) -> quota_true (ctr_base R) (fst y) (snd y).
Proof.
  destruct 1 as [l h e ok [El Ed] _|l l' h Hs|l h h' p ok ok' Hp _ Hh|l h p Hi _ _ Hz Hz' Hm|l h p ok Hp|l h p n ok ok' Hp Hn|l1 l2 h p|l h h' Hx _];
    cbn [fst snd]; intros Hsc Hok W T.
  - destruct T as [Te Tl Td To]. split; [done|..]; intros; rewrite ?(last_none limit_effect), ?(last_none dir_effect) by done; by auto.
  - eapply true_scan; [|exact T]. eapply Forall2_impl; [exact Hs|]. apply Hsc.
  - destruct Hh as [[-> Hbad]| ->].
    { exfalso. destruct (qt_even _ _ _ T p Hp) as (_ & _ & Hm). destruct Hbad as [|Hid]; [done|].
      pose proof (qw_range _ W) as Hr. rewrite Forall_forall in Hr. specialize (Hr p Hp). cbn in Hr. lia. }
    inversion_clear Hok as [|? ? Ho1 Hok']. inversion_clear Hok' as [|? ? Ho2 _]. cbn in Ho1, Ho2. subst ok ok'.
    apply (true_at _ l h _ _ p 0 false); [done|done|done| |done|done| | |done].
    + intros q. rewrite Remove_set by done. intuition done.
    + intros m i Hne. apply (fs_frame p); [done|..]; by intros a [= <-].
    + rewrite (last_none limit_effect) by done. by apply last_hit.
  - by apply true_create.
  - inversion_clear Hok as [|? ? Ho _]. cbn in Ho. subst ok. destruct T as [Te Tl Td To]. split; [done|..].
    + intros q Hq. rewrite (last_none limit_effect) by done. by apply Tl.
    + intros q Hq Hsq. destruct (decide (qp_Id q = qp_Id p)) as [E|E].
      * rewrite (wf_same_id _ _ _ W Hq Hp E). by apply last_hit.
      * erewrite (last_miss dir_effect) by (done || (intros E'; by destruct E)). by apply Td.
    + intros m i Hno. rewrite (last_none limit_effect) by done. by apply To.
  - inversion_clear Hok as [|? ? Ho1 Hok']. inversion_clear Hok' as [|? ? Ho2 _]. cbn in Ho1, Ho2. subst ok ok'.
    apply (true_at _ l h _ _ p n true); [done|done|done| |done|done| | |].
    + intros q. by apply update_first_set.
    + intros m i Hne. apply (fs_frame p); [done|..]; by intros a [= <-].
    + by apply last_hit.
    + intros _. rewrite (last_none dir_effect) by done. by apply last_hit.
  - apply (true_at _ (l1 ++ p :: l2) h _ _ p 0 true); [done|done|apply elem_of_app; right; by left| |done|done| | |done].
    + intros q. by apply lift_set.
    + intros m i Hne. apply (fs_frame p); [done|..]; by intros a [= <-].
    + rewrite (last_none limit_effect) by done. by apply last_hit.
  - exfalso. apply Forall_app in Hok as [Hok _]. apply Exists_exists in Hx as (x & Hx & E). rewrite Forall_forall in Hok. specialize (Hok x Hx). congruence.
Qed.

(** A project stays, with its number, unless it may be removed. *)
Lemma kept_step R x y name id : qstep R x y -> ~ may_remove R name ->
  (exists p, p ∈ fst x /\ qp_Name p = name /\ qp_Id p = id) -> exists p, p ∈ fst y /\ qp_Name p = name /\ qp_Id p = id.
Proof.
  destruct 1 as [l h e ok He _|l l' h Hs|l h h' p ok ok' Hp Hr Hh|l h p _ _ _ Hz _ _|l h p ok Hp|l h p n ok ok' Hp _|l1 l2 h p|l h h' Hx _]; cbn [fst snd];
    intros Hn (q & Hq & En & Ei).
  - by exists q.
  - apply list_elem_of_lookup in Hq as (i & Hi). destruct (Forall2_lookup_l _ _ _ _ _ Hs Hi) as (q' & Hq' & Hsc). apply scan_scanned in Hsc as (Ei' & En' & _).
    exists q'. split; [by eapply list_elem_of_lookup_2|]. by rewrite Ei', En'.
  - exists q. split_and!; [|done|done]. apply Remove_other; [done|]. intros E. apply Hn. congruence.
  - exists q. split; [|done]. apply elem_of_app. by left.
  - by exists q.
  - clear Hp. induction l as [|v l IH]; [by apply not_elem_of_nil in Hq|]. cbn. apply elem_of_cons in Hq as [->|Hq].
    + destruct (goes_by _ _); [exists (with_limits n n v)|exists v]; (split; [by left|done]).
    + destruct (goes_by _ _); [exists q; split; [by right|done]|]. destruct (IH Hq) as (w & Hw & E). exists w. split; [by right|done].
  - apply elem_of_app in Hq as [Hq|Hq]; [exists q; split; [apply elem_of_app; by left|done]|].
    apply elem_of_cons in Hq as [->|Hq].
    + exists (with_limits 0 0 p). split; [apply elem_of_app; right; by left|done].
    + exists q. split; [apply elem_of_app; right; by right|done].
  - by exists q.
Qed.

(** * The functions as steps *)

Section steps.
Context {QE : QuotaEnv} {SS : SortSlice} {MR : MapRange} {MRL : MapRangeLaws MR}.
Context (g : quota_settings).
Implicit Types q : quota.

Definition view (q : quota) : list QuotaProject * quota_history := (q_items q, qs_hist q).
Definition qsteps (R : step_rules) (q q' : quota) : Prop := rtc (qstep R) (view q) (view q').

Lemma qsteps_refl R q : qsteps R q q.
Proof. apply rtc_refl. Qed.
Lemma qsteps_trans R q1 q2 q3 : qsteps R q1 q2 -> qsteps R q2 q3 -> qsteps R q1 q3.
Proof. unfold qsteps. intros H1 H2. by etrans. Qed.
Lemma qsteps_same R q q' : view q' = view q -> qsteps R q q'.
Proof. unfold qsteps. intros ->. apply rtc_refl. Qed.
Lemma qsteps_one R q q' : qstep R (view q) (view q') -> qsteps R q q'.
Proof. apply rtc_once. Qed.

Lemma effect_quiet R e q : quiet e -> saves (q_items q) e -> qsteps R q (fst (perform e q)).
Proof. intros E Es. apply qsteps_one. by apply qs_quiet. Qed.

Lemma SyncVendor_items q : q_items (fst (SyncVendor g q)) = q_items q.
Proof. unfold SyncVendor. case_bool_decide; [done|]. cbn. by destruct (qe_ok _ _). Qed.
Lemma SyncVendor_steps R q : qsteps R q (fst (SyncVendor g q)).
Proof.
  unfold SyncVendor. case_bool_decide; [apply qsteps_refl|]. set (e := QProjects _).
  pose proof (effect_quiet R e q (conj eq_refl eq_refl) I) as Hs. destruct (perform e q) as [q1 ok]. cbn in Hs.
  destruct ok; cbn [fst]; [|done]. eapply qsteps_trans; [exact Hs|by apply qsteps_same].
Qed.
Lemma Sync_steps R now q : qsteps R q (fst (Sync now q)).
Proof.
  unfold Sync. cbn zeta. set (q0 := with_config _ q). case_bool_decide; cbn [fst]; [by apply qsteps_same|].
  set (e := QSave _ _). pose proof (effect_quiet R e q0 (conj eq_refl eq_refl) eq_refl) as Hs. destruct (perform e q0) as [q1 ok]. cbn in *.
  eapply qsteps_trans; [|exact Hs]. by apply qsteps_same.
Qed.
Lemma Sync_items now q : q_items (fst (Sync now q)) = q_items q.
Proof. unfold Sync. case_bool_decide; done. Qed.

Lemma cleanup_steps now name q : qsteps (any_scan (qg_AppPath g) (eq name)) q (quotaCleanupContainer g now name q).
Proof.
  unfold quotaCleanupContainer. destruct (qs_inited q); cbn [negb]; [|apply qsteps_refl].
  destruct (Fetch name (q_items q)) as [p|] eqn:Ef; [|apply qsteps_refl]. apply Fetch_some in Ef as [Hp <-].
  eapply qsteps_trans; [|apply Sync_steps]. eapply qsteps_trans; [|apply SyncVendor_steps].
  apply qsteps_one. eapply qs_remove; [done|done|]. by right.
Qed.

(** ** The scan *)

Lemma scanned_refl l : Forall2 scanned l l.
Proof. induction l; constructor; [|done]. by split_and!; [..|left]. Qed.
Lemma scanned_trans l1 l2 l3 : Forall2 scanned l1 l2 -> Forall2 scanned l2 l3 -> Forall2 scanned l1 l3.
Proof.
  intros H12 H23. revert l1 H12. induction H23 as [|y z l2 l3 (Hi & Hn & Hs) _ IH]; intros l1 H12; inversion H12 as [|x ? l ? (Hi' & Hn' & Hs')]; subst; [constructor|].
  constructor; [|by apply IH]. split_and!; [congruence..|]. destruct Hs as [[? ?]|?]; [|by right].
  destruct Hs' as [[? ?]|[? ?]]; [left|right]; split; congruence.
Qed.
Lemma scanned_update t f l : (forall p, scanned p (f p)) -> Forall2 scanned l (update_first t f l).
Proof.
  intros Hf. induction l as [|v l IH]; cbn; [constructor|]. destruct (t v); constructor; [done|apply scanned_refl| |done].
  by split_and!; [..|left].
Qed.
Lemma df_update_scanned mnt v name f : df_update mnt v = Some (name, f) -> forall p, scanned p (f p).
Proof.
  assert (Hflag : forall (vs : list string) (n : option string), (if (2 <? Z.of_nat (length vs)) && contains (trim_space v) "project quota flag not set" then
      name ← n; Some (name, fun p => with_mnt mnt (with_limits 0 0 (with_used 0 p))) else None) = Some (name, f) -> forall p, scanned p (f p)).
  { intros vs n E p. destruct (_ && _); [|done]. destruct n; [|done]. injection E as _ <-. by split_and!; [..|right]. }
  unfold df_update. intros E.
  destruct (split_at _ _) as [|v0 [|v1 [|v2 [|v3 [|v4 [|v5 [|v6 l]]]]]]]; try by eapply Hflag, E.
  intros p. destruct (quotaCtrNameMatch v5); [|done]. injection E as _ <-. destruct (parse_int_w _ _); by split_and!; [..|left].
Qed.
Lemma scan_df_scanned mnt sn v : Forall2 scanned (sn_items sn) (sn_items (scan_df mnt sn v)).
Proof.
  unfold scan_df. destruct (df_update mnt v) as [[name f]|] eqn:E; [|apply scanned_refl].
  destruct (sn_path sn !! name); [|apply scanned_refl]. destruct (_ || _); [apply scanned_refl|]. cbn.
  apply scanned_update. by eapply df_update_scanned.
Qed.
Lemma scan_path_items mnt sn v : sn_items (scan_path mnt sn v) = sn_items sn.
Proof. unfold scan_path. by destruct (path_line v) as [[]|]. Qed.

(** What a scan comes to: projects with other limits or other uses, and commands that only
    read or set up directories again. *)
Definition calm (x : quota_effect * bool) : Prop := quiet (fst x) /\ forall l, saves l (fst x).
Definition scan_view (q q' : quota) : Prop :=
  Forall2 scanned (q_items q) (q_items q') /\ exists new, qs_hist q' = (new ++ qs_hist q)%list /\ Forall calm new.
Lemma scan_view_refl q : scan_view q q.
Proof. split; [apply scanned_refl|]. by exists []. Qed.
Lemma scan_view_trans q1 q2 q3 : scan_view q1 q2 -> scan_view q2 q3 -> scan_view q1 q3.
Proof.
  intros [S1 (n1 & E1 & C1)] [S2 (n2 & E2 & C2)]. split; [by eapply scanned_trans|]. exists (n2 ++ n1)%list.
  split; [by rewrite E2, E1, app_assoc|]. by apply Forall_app.
Qed.
Lemma scan_view_effect c q : calm (QRun c, true) -> scan_view q (fst (exec c q)).
Proof. intros C. split; [apply scanned_refl|]. eexists [_]. split; [done|]. by constructor. Qed.
Lemma scan_view_items l q : Forall2 scanned (q_items q) l -> scan_view q (set_items l q).
Proof. intros Hs. split; [exact Hs|]. by exists []. Qed.
Lemma scan_view_steps R q q' : scan_view q q' -> Forall2 (may_scan R) (q_items q) (q_items q') -> qsteps R q q'.
Proof.
  intros [_ (new & E & C)] Hs. unfold qsteps, view. rewrite E.
  assert (Hq : rtc (qstep R) (q_items q, qs_hist q) (q_items q, (new ++ qs_hist q)%list)).
  { clear E. induction C as [|[e ok] new [Ce Cs] _ IH]; [apply rtc_refl|]. eapply rtc_r; [exact IH|]. by apply qs_quiet. }
  eapply rtc_r; [exact Hq|]. by apply qs_scan.
Qed.

Lemma scan_lines_scanned mnt sn pls dls :
  Forall2 scanned (sn_items sn) (sn_items (foldl (scan_df mnt) (foldl (scan_path mnt) sn pls) dls)).
Proof.
  assert (Ep : sn_items (foldl (scan_path mnt) sn pls) = sn_items sn).
  { revert sn. induction pls as [|v pls IH]; intros sn; cbn; [done|]. by rewrite IH, scan_path_items. }
  rewrite <- Ep. generalize (foldl (scan_path mnt) sn pls). clear. induction dls as [|v dls IH]; intros sn; cbn; [apply scanned_refl|].
  eapply scanned_trans; [apply scan_df_scanned|apply IH].
Qed.
Lemma scan_mount_view mnt sn q : q_items q = sn_items sn ->
  match scan_mount mnt sn q with
  | (q', Ok sn') => scan_view q (set_items (sn_items sn') q')
  | (q', Err _) => scan_view q q'
  end.
Proof.
  intros Ei. unfold scan_mount. cbn zeta. assert (Hs : scan_view q (fst (exec (CPath mnt) q))) by (by apply scan_view_effect).
  destruct (exec (CPath mnt) q) as [q1 ok] eqn:E1. cbn [fst] in Hs. destruct ok; cbn [negb]; [|done].
  assert (Ei1 : q_items q1 = q_items q) by (unfold exec, perform in E1; by injection E1 as <- _).
  eapply scan_view_trans; [exact Hs|]. eapply scan_view_trans; [by apply (scan_view_effect (CDf mnt))|].
  apply scan_view_items. change (q_items (fst (exec (CDf mnt) q1))) with (q_items q1). rewrite Ei1, Ei. apply scan_lines_scanned.
Qed.
Lemma scan_mounts_view ms sn q : q_items q = sn_items sn -> scan_view q (fst (scan_mounts ms sn q)).
Proof.
  revert sn q. induction ms as [|mnt ms IH]; intros sn q Ei; cbn [scan_mounts]; [apply scan_view_refl|].
  pose proof (scan_mount_view mnt sn q Ei) as Hs. destruct (scan_mount mnt sn q) as [q1 [sn1|e]]; [|done].
  eapply scan_view_trans; [exact Hs|]. by apply IH.
Qed.
Lemma foldl_qsteps {A} R (f : quota -> A -> quota) : (forall q x, qsteps R q (f q x)) -> forall l q, qsteps R q (foldl f q l).
Proof. intros Hf l. induction l as [|x l IH]; intros q; cbn; [apply qsteps_refl|]. eapply qsteps_trans; [apply Hf|apply IH]. Qed.
Lemma scan_kernel_view q : scan_view q (fst (scan_kernel q)).
Proof.
  unfold scan_kernel. set (sn0 := {| sn_path := ∅; sn_mnt := ∅; sn_items := q_items q |}).
  pose proof (scan_mounts_view (qc_MountPoints (qs_config q)) sn0 q eq_refl) as Hs.
  destruct (scan_mounts _ _ _) as [q1 [sn|e]]; cbn [fst] in *; [|done].
  eapply scan_view_trans; [exact Hs|]. generalize (map_range (sn_path sn)). intros l. generalize q1. clear. induction l as [|kv l IH]; intros q; cbn [foldl]; [apply scan_view_refl|].
  eapply scan_view_trans; [|apply IH]. unfold init_project. destruct (_ !! _); [|apply scan_view_refl].
  case_bool_decide; [apply scan_view_refl|by apply scan_view_effect].
Qed.
(** The scan as a step. *)
Definition scan_allowed (R : step_rules) (q : quota) : Prop := Forall2 (may_scan R) (q_items q) (q_items (fst (scan_kernel q))).
Lemma scan_kernel_steps R q : scan_allowed R q -> qsteps R q (fst (scan_kernel q)).
Proof. apply scan_view_steps, scan_kernel_view. Qed.
Lemma any_scan_allowed base rm q : scan_allowed (any_scan base rm) q.
Proof. apply scan_kernel_view. Qed.
Lemma still_scan_allowed base rm q : map settings (q_items (fst (scan_kernel q))) = map settings (q_items q) -> scan_allowed (still_scan base rm) q.
Proof.
  intros E. destruct (scan_kernel_view q) as [Hs _]. unfold scan_allowed. revert E. induction Hs as [|p p' l l' Hp _ IH]; intros E; [constructor|].
  cbn in E. injection E as E0 E'. constructor; [split; [done|]|by apply IH]. unfold settings. congruence.
Qed.

(** ** Projects without a directory *)

Definition gone_dir (name : string) : Prop := exists h, qe_stat h (Clean (qg_AppPath g +:+ "/" +:+ name)) = DirGone.

Lemma remove_stale_steps R q v : v ∈ q_items q -> may_remove R (qp_Name v) -> qsteps R q (remove_stale q v).
Proof.
  intros Hv Hr. apply qsteps_one. unfold remove_stale, view. cbn zeta. destruct (_ && _) eqn:E.
  - eapply qs_remove; [done|done|]. by right.
  - eapply (qs_remove _ _ _ _ _ true true); [done|done|]. left. split; [done|]. apply andb_false_iff in E as [E|E]; [left|right; lia].
    by apply negb_false_iff, bool_decide_eq_true in E.
Qed.
Lemma remove_stale_items q v : q_items (remove_stale q v) = Remove (qp_Name v) (q_items q).
Proof. unfold remove_stale. by destruct (_ && _). Qed.
Lemma remove_all_steps R dels q : (forall v, v ∈ dels -> v ∈ q_items q /\ may_remove R (qp_Name v)) -> NoDup (map qp_Name dels) ->
  qsteps R q (foldl remove_stale q dels).
Proof.
  revert q. induction dels as [|v dels IH]; intros q Hd Hn; cbn; [apply qsteps_refl|].
  apply NoDup_cons in Hn as [Hv Hn]. destruct (Hd v) as [Hvi Hvr]; [by left|].
  eapply qsteps_trans; [by apply remove_stale_steps|]. apply IH; [|done]. intros w Hw. rewrite remove_stale_items.
  destruct (Hd w) as [Hwi Hwr]; [by right|]. split; [|done]. apply Remove_other; [done|]. intros E. apply Hv. rewrite <- E.
  by apply list_elem_of_fmap_2.
Qed.
Lemma remove_gone_steps R q : (forall name, gone_dir name -> may_remove R name) -> quota_wf (q_items q) ->
  qsteps R q (fst (remove_gone g q)).
Proof.
  intros HR W. unfold remove_gone. cbn zeta. set (dels := List.filter _ _).
  assert (Hs : qsteps R q (foldl remove_stale q dels)).
  { apply remove_all_steps.
    - intros v Hv. apply list_elem_of_In, filter_In in Hv as [Hv Hg]. split; [by apply list_elem_of_In|]. apply HR. exists (qs_hist q).
      unfold is_gone in Hg. by destruct (qe_stat _ _).
    - eapply sublist_NoDup; [apply (qw_names _ W)|]. apply (fmap_sublist qp_Name). unfold dels. clear.
      induction (q_items q) as [|v l IH]; cbn; [constructor|]. destruct (is_gone _ _ _); by constructor. }
  destruct dels; cbn [fst]; [done|]. eapply qsteps_trans; [exact Hs|apply SyncVendor_steps].
Qed.
(** ** Limits *)

Lemma set_limit_steps R ctrName vol p q : ctr_base R = qg_AppPath g -> 0 <= vol -> p ∈ q_items q -> qp_Name p = ctrName ->
  qsteps R q (set_limit g ctrName (ContainerBaseDir (qg_AppPath g) ctrName) vol p q).
Proof.
  intros Hb Hv Hp <-. unfold set_limit. destruct (_ && _); [apply qsteps_refl|].
  pose proof (SyncVendor_steps R q) as Hs. pose proof (SyncVendor_items q) as Hi.
  destruct (SyncVendor g q) as [q1 [u|e]]; cbn [fst] in *; [|done]. eapply qsteps_trans; [exact Hs|]. rewrite <- Hi in Hp. clear Hs Hi.
  unfold shell at 1. destruct (qe_shell (qs_hist q1)); cbn [negb fst]; [|apply qsteps_refl].
  rewrite <- Hb. unfold shell. destruct (qe_shell _); cbn; apply qsteps_one; [by apply (qs_limit _ _ _ p)|by apply (qs_assign _ _ _ p)].
Qed.

Lemma create_steps R name c p q : FetchOrCreate "" name (qs_config q) = (c, p) -> qsteps R q (with_config c q) /\
  match p with Some p => p ∈ qc_Items c /\ qp_Name p = name | None => qc_Items c = q_items q end.
Proof.
  intros E. pose proof (FetchOrCreate_spec "" name (qs_config q)) as Hf. rewrite E in Hf. destruct p as [p|].
  - destruct Hf as [[-> Hf]|(Hn & Hi & En & Es & Eh & Hid & Hr & _ & _ & Hm)].
    + apply Fetch_some in Hf. split; [by apply qsteps_same|done].
    + split; [|split; [rewrite Hi; apply elem_of_app; right; by left|done]]. apply qsteps_one. unfold view.
      change (q_items (with_config c q)) with (qc_Items c). rewrite Hi. apply qs_create; [done|by rewrite En|pose proof (id_offset_range (qs_config q)); lia|done|done|by rewrite Hm].
  - destruct Hf as (Hi & _). split; [|done]. apply qsteps_same. unfold view, q_items. cbn. by rewrite Hi.
Qed.
Lemma limit_replica_steps R name d q rep : ctr_base R = qg_AppPath g -> qsteps R q (limit_replica g name d q rep).
Proof.
  intros Hb. unfold limit_replica. destruct (_ || _); [apply qsteps_refl|]. destruct (qe_stat _ _); try apply qsteps_refl.
  destruct (FetchOrCreate "" _ (qs_config q)) as [c p] eqn:E. destruct (create_steps R _ _ _ _ E) as [Hs Hp].
  destruct p as [p|]; [|done]. destruct Hp as [Hp En]. eapply qsteps_trans; [exact Hs|]. apply set_limit_steps; [done| |done|done].
  unfold vol_limit. change (Z.shiftl 100 20) with 104857600. lia.
Qed.
Lemma limit_app_steps R q kv : ctr_base R = qg_AppPath g -> qsteps R q (limit_app g q kv).
Proof.
  intros Hb. unfold limit_app. destruct (ar_Spec (snd kv)), (ar_Deploy (snd kv)); try apply qsteps_refl. destruct (_ || _); [apply qsteps_refl|].
  apply foldl_qsteps. intros. by apply limit_replica_steps.
Qed.

(** ** The others *)

Lemma exec_config c q : qs_config (fst (exec c q)) = qs_config q.
Proof. done. Qed.
Lemma lift_limits_steps R active l pre q q' l' b : lift_limits g active l q = (q', l', b) ->
  qsteps R (set_items (pre ++ l) q) (set_items (pre ++ l') q').
Proof.
  revert pre q q' l' b. induction l as [|v l IH]; intros pre q q' l' b E; cbn [lift_limits] in E; [injection E as <- <- _; apply qsteps_refl|].
  assert (Hone : forall q1 v1 one, (if (qp_Soft v <? 1) || container_active g active (qp_Name v) then (q, v, false) else
      let '(q, ok) := exec (CLimit 0 0 (qp_Id v) (qp_Mnt v)) q in
      if negb ok then (q, v, false) else
      let '(q, ok) := exec (CClear (qp_Id v) (qp_Mnt v)) q in
      if negb ok then (q, v, false) else (q, with_limits 0 0 v, true)) = (q1, v1, one) ->
      qsteps R (set_items (pre ++ v :: l) q) (set_items (pre ++ v1 :: l) q1)).
  { intros q1 v1 one. destruct (_ || _); [intros [= <- <- _]; apply qsteps_refl|]. unfold exec, perform.
    set (e1 := QRun _). set (e2 := QRun _). destruct (qe_ok (qs_hist q) e1) eqn:E1; cbn [negb].
    - destruct (qe_ok _ e2) eqn:E2; cbn [negb]; intros [= <- <- _]; apply qsteps_one; unfold view; cbn.
      + cbn in E2. try rewrite E1. try rewrite E2. apply qs_lift.
      + cbn in E2. try rewrite E1. try rewrite E2. apply (qs_fail _ _ _ [(e2, false); (e1, true)]); [by left|by repeat constructor].
    - intros [= <- <- _]. apply qsteps_one. apply (qs_fail _ _ _ [(e1, false)]); [by left|by repeat constructor]. }
  destruct (if _ || _ then _ else _) as [[q1 v1] one]. specialize (Hone _ _ _ eq_refl).
  destruct (lift_limits g active l q1) as [[q2 vs] cl] eqn:El. injection E as <- <- _.
  eapply qsteps_trans; [exact Hone|]. specialize (IH (pre ++ [v1])%list _ _ _ _ El). by rewrite <- !app_assoc in IH.
Qed.

(** ** The cycle *)

Lemma qsteps_wf R q q' : qsteps R q q' -> quota_wf (q_items q) -> quota_wf (q_items q').
Proof. unfold qsteps. change (q_items q) with (fst (view q)). change (q_items q') with (fst (view q')). induction 1; eauto using wf_step. Qed.

Lemma set_items_own q : view (set_items (q_items q) q) = view q.
Proof. done. Qed.
Lemma quota_cycle_steps R tn active q : ctr_base R = qg_AppPath g -> scan_allowed R q -> (forall name, gone_dir name -> may_remove R name) -> quota_wf (q_items q) ->
  qsteps R q (fst (quota_cycle g tn active q)).
Proof.
  intros Hb Hsc HR W. unfold quota_cycle.
  pose proof (scan_kernel_steps R q Hsc) as Hs. destruct (scan_kernel q) as [q1 [u1|e]]; cbn [fst] in *; [|done].
  pose proof (qsteps_wf _ _ _ Hs W) as W1. pose proof (remove_gone_steps R q1 HR W1) as H1.
  destruct (remove_gone g q1) as [q2 [u2|e]]; cbn [fst] in H1; [|by eapply qsteps_trans].
  pose proof (qsteps_trans _ _ _ _ Hs H1) as H2. pose proof (Sync_steps R tn q2) as H3.
  destruct (Sync tn q2) as [q3 [u3|e]]; cbn [fst] in H3; [|by eapply qsteps_trans].
  pose proof (qsteps_trans _ _ _ _ H2 H3) as H4.
  pose proof (foldl_qsteps R (limit_app g) (fun q kv => limit_app_steps R q kv Hb) (map_range active) q3) as H5.
  pose proof (qsteps_trans _ _ _ _ H4 H5) as H6. pose proof (Sync_steps R tn (foldl (limit_app g) q3 (map_range active))) as H7.
  destruct (Sync tn (foldl _ _ _)) as [q5 [u5|e]]; cbn [fst] in H7; [|by eapply qsteps_trans].
  pose proof (qsteps_trans _ _ _ _ H6 H7) as H8.
  destruct (lift_limits g active (q_items q5) q5) as [[q6 vs] cl] eqn:El.
  pose proof (lift_limits_steps R active (q_items q5) [] q5 q6 vs cl El) as H9. cbn [app] in H9.
  assert (H10 : qsteps R q (set_items vs q6)) by (eapply qsteps_trans; [exact H8|]; exact H9).
  destruct cl; [|cbn [fst]; eapply qsteps_trans; [exact H10|by apply qsteps_same]].
  pose proof (Sync_steps R tn (set_items vs q6)) as H11. destruct (Sync tn (set_items vs q6)) as [q7 [u7|e]]; cbn [fst] in *.
  - eapply qsteps_trans; [exact H10|]. eapply qsteps_trans; [exact H11|by apply qsteps_same].
  - by eapply qsteps_trans.
Qed.
End steps.

(** * Numbers *)

(** Every file that was saved holds projects with numbers of their own. *)
Definition saved_wf (h : quota_history) : Prop :=
  Forall (fun x => match fst x with QSave _ c => quota_wf (qc_Items c) | _ => True end) h.

Lemma saved_step R x y : qstep R x y -> quota_wf (fst x) -> saved_wf (snd x) -> saved_wf (snd y).
Proof.
  destruct 1 as [l h e ok He Hs|l l' h Hs|l h h' p ok ok' Hp Hr Hh|l h p _ _ _ _ _ _|l h p ok Hp|l h p n ok ok' Hp _|l1 l2 h p|l h h' _ Hx]; cbn [fst snd]; intros W A.
  - constructor; [|done]. cbn. destruct e; [done..|]. cbn in Hs. by rewrite Hs.
  - done.
  - destruct Hh as [[-> _]| ->]; [done|]. by repeat (constructor; [done|]).
  - done.
  - by constructor.
  - by repeat (constructor; [done|]).
  - by repeat (constructor; [done|]).
  - apply Forall_app. split; [|done]. eapply Forall_impl; [exact Hx|]. intros [e ok] Hs. cbn in *. destruct e; [done..|]. cbn in Hs. by rewrite Hs.
Qed.

Section numbers.
Context {QE : QuotaEnv} {SS : SortSlice} {MR : MapRange} {MRL : MapRangeLaws MR}.
Context (g : quota_settings).

(** The quotas of a host: a turn of the refresh, and the cleanup of a destroyed container. *)
Inductive quota_event :=
| EvTurn (tn : Z) (active : gmap string AppRecord)
| EvCleanup (now : Z) (name : string).
Definition quota_do (q : quota) (ev : quota_event) : quota :=
  match ev with
  | EvTurn tn active => fst (xfsQuotaRefresh g tn active q)
  | EvCleanup now name => quotaCleanupContainer g now name q
  end.
Definition quota_new : quota :=
  {| qs_config := {| qc_path := ""; qc_syncMapsSum := ""; qc_Items := []; qc_Updated := 0; qc_IdOffset := 0; qc_MountPoints := [] |};
     qs_inited := false; qs_refreshed := 0; qs_hist := [] |}.
Definition quota_run (q : quota) (l : list quota_event) : quota := foldl quota_do q l.

Definition sound (q : quota) : Prop := quota_wf (q_items q) /\ saved_wf (qs_hist q).
Lemma qsteps_sound R q q' : qsteps R q q' -> sound q -> sound q'.
Proof.
  unfold qsteps, sound. change (q_items q) with (fst (view q)). change (q_items q') with (fst (view q')).
  change (qs_hist q) with (snd (view q)). change (qs_hist q') with (snd (view q')).
  induction 1 as [|x y z Hxy _ IH]; [done|]. intros [W A]. apply IH. split; [by eapply wf_step|by eapply saved_step].
Qed.

Lemma exec_sound c q : sound q -> sound (fst (exec c q)).
Proof. intros [W A]. split; [done|]. by constructor. Qed.
Lemma quota_mounts_sound l q : sound q -> sound (fst (quota_mounts g l q)).
Proof.
  revert q. induction l as [|d l IH]; intros q Hq; cbn [quota_mounts]; [done|]. destruct (part_eligible g d); [|by apply IH].
  pose proof (exec_sound (CReport (qt_Mountpoint d)) q Hq) as H1. destruct (exec _ q) as [q1 ok]. specialize (IH q1 H1).
  by destruct (quota_mounts g l q1) as [q2 ms].
Qed.
Lemma init_sound tn q : (forall h path c, qe_saved h path = Some c -> quota_wf (qc_Items c)) -> sound q -> sound (fst (quotaKeeperInit g tn q)).
Proof.
  intros Hsaved Hq. unfold quotaKeeperInit. destruct (qs_inited q); [done|].
  pose proof (exec_sound CVersion q Hq) as H1. destruct (exec CVersion q) as [q1 ok]. cbn [fst] in H1. destruct ok; cbn [negb]; [|done].
  pose proof (quota_mounts_sound (sort_slice part_after (qe_parts (qs_hist q1))) q1 H1) as H2.
  destruct (quota_mounts _ _ q1) as [q2 ms]. cbn [fst] in H2. destruct ms; [done|]. cbn [fst]. split; [|apply H2]. cbn.
  destruct (qe_saved _ _) eqn:E; cbn; [by eapply Hsaved|apply H2].
Qed.
(** The quotas stay initialised. *)
Lemma SyncVendor_inited q : qs_inited (fst (SyncVendor g q)) = qs_inited q.
Proof. unfold SyncVendor. case_bool_decide; [done|]. unfold perform. by destruct (qe_ok _ _). Qed.
Lemma Sync_inited now q : qs_inited (fst (Sync now q)) = qs_inited q.
Proof. unfold Sync. case_bool_decide; [done|]. done. Qed.
Lemma foldl_inited {A} (f : quota -> A -> quota) l q : (forall q x, qs_inited (f q x) = qs_inited q) -> qs_inited (foldl f q l) = qs_inited q.
Proof. intros Hf. revert q. induction l as [|x l IH]; intros q; cbn; [done|]. by rewrite IH. Qed.
Lemma scan_mounts_inited ms sn q : qs_inited (fst (scan_mounts ms sn q)) = qs_inited q.
Proof.
  revert sn q. induction ms as [|mnt ms IH]; intros sn q; cbn [scan_mounts]; [done|]. unfold scan_mount, exec, perform.
  destruct (qe_ok _ (QRun (CPath mnt))); cbn; [|done]. by rewrite IH.
Qed.
Lemma limit_replica_inited name d q rep : qs_inited (limit_replica g name d q rep) = qs_inited q.
Proof.
  unfold limit_replica. destruct (_ || _); [done|]. destruct (qe_stat _ _); try done. destruct (FetchOrCreate _ _ _) as [c [p|]]; [|done].
  unfold set_limit. destruct (_ && _); [done|]. pose proof (SyncVendor_inited (with_config c q)) as Hs.
  destruct (SyncVendor g _) as [q1 [u|e]]; [|done]. unfold shell. destruct (qe_shell (qs_hist q1)); cbn [negb fst]; [|done].
  by destruct (qe_shell _).
Qed.
Lemma lift_limits_inited active l q q' vs b : lift_limits g active l q = (q', vs, b) -> qs_inited q' = qs_inited q.
Proof.
  revert q q' vs b. induction l as [|v l IH]; intros q q' vs b; cbn [lift_limits]; [by intros [= <- _ _]|].
  destruct (if _ || _ then _ else _) as [[q1 v1] one] eqn:E1.
  destruct (lift_limits g active l q1) as [[q2 vs2] cl] eqn:E2. intros [= <- _ _]. rewrite (IH _ _ _ _ E2). revert E1.
  destruct (_ || _); [by intros [= <- _ _]|]. unfold exec, perform. destruct (qe_ok _ _); cbn [negb]; [|by intros [= <- _ _]].
  destruct (qe_ok _ _); cbn [negb]; by intros [= <- _ _].
Qed.
Lemma refresh_inited tn active q : qs_inited (fst (xfsQuotaRefresh g tn active q)) = true.
Proof.
  assert (Hi : qs_inited (fst (quotaKeeperInit g tn q)) = true).
  { unfold quotaKeeperInit. destruct (qs_inited q) eqn:E; [done|]. destruct (exec CVersion q) as [q1 ok]. destruct ok; [|done].
    cbn [negb]. by destruct (quota_mounts _ _ _) as [q2 [|m ms]]. }
  unfold xfsQuotaRefresh. destruct (quotaKeeperInit g tn q) as [q0 [u|e]]; cbn [fst] in Hi; [|done]. destruct (_ && _); [done|].
  rewrite <- Hi. clear. unfold quota_cycle.
  assert (E1 : qs_inited (fst (scan_kernel q0)) = qs_inited q0).
  { unfold scan_kernel. pose proof (scan_mounts_inited (qc_MountPoints (qs_config q0)) {| sn_path := ∅; sn_mnt := ∅; sn_items := q_items q0 |} q0) as Hs.
    destruct (scan_mounts _ _ _) as [q1 [sn|e]]; [|done]. cbn [fst] in *. rewrite foldl_inited; [done|]. intros q x. unfold init_project.
    destruct (_ !! _); [|done]. by case_bool_decide. }
  destruct (scan_kernel q0) as [q1 [u1|e]]; cbn [fst] in E1; [|done].
  assert (E2 : qs_inited (fst (remove_gone g q1)) = qs_inited q1).
  { unfold remove_gone. assert (Hf : forall l, qs_inited (foldl remove_stale q1 l) = qs_inited q1).
    { intros l. apply foldl_inited. intros q x. unfold remove_stale. by destruct (_ && _). }
    destruct (List.filter _ _); [done|]. by rewrite SyncVendor_inited, Hf. }
  destruct (remove_gone g q1) as [q2 [u2|e]]; cbn [fst] in E2; [|by rewrite <- E1].
  pose proof (Sync_inited tn q2) as E3. destruct (Sync tn q2) as [q3 [u3|e]]; cbn [fst] in E3; [|cbn [fst]; congruence].
  pose proof (Sync_inited tn (foldl (limit_app g) q3 (map_range active))) as E4.
  rewrite foldl_inited in E4.
  2: { intros q [k a]. unfold limit_app. cbn [snd]. destruct (ar_Spec a), (ar_Deploy a); try done. destruct (_ || _); [done|].
       apply foldl_inited. intros. apply limit_replica_inited. }
  destruct (Sync tn (foldl _ _ _)) as [q4 [u4|e]]; cbn [fst] in E4; [|cbn [fst]; congruence].
  destruct (lift_limits g active (q_items q4) q4) as [[q5 vs] cl] eqn:El. apply lift_limits_inited in El.
  destruct cl; [|cbn; congruence]. pose proof (Sync_inited tn (set_items vs q5)) as E6.
  destruct (Sync tn (set_items vs q5)) as [q6 [u6|e]]; cbn [fst] in *; cbn; cbn in E6; congruence.
Qed.
Lemma refresh_steps tn active q : quota_wf (q_items (fst (quotaKeeperInit g tn q))) ->
  qsteps (any_scan (qg_AppPath g) (gone_dir g)) (fst (quotaKeeperInit g tn q)) (fst (xfsQuotaRefresh g tn active q)).
Proof.
  intros W. unfold xfsQuotaRefresh. destruct (quotaKeeperInit g tn q) as [q1 [u|e]]; cbn [fst] in *; [|apply qsteps_refl].
  destruct (_ && _); [apply qsteps_refl|]. apply quota_cycle_steps; [done|apply any_scan_allowed|done|done].
Qed.
Lemma qsteps_kept R q q' name id : qsteps R q q' -> ~ may_remove R name ->
  (exists p, p ∈ q_items q /\ qp_Name p = name /\ qp_Id p = id) -> exists p, p ∈ q_items q' /\ qp_Name p = name /\ qp_Id p = id.
Proof.
  unfold qsteps. change (q_items q) with (fst (view q)). change (q_items q') with (fst (view q')). intros Hs Hn.
  induction Hs as [|x y z Hxy _ IH]; [done|]. intros Hp. apply IH. by eapply kept_step.
Qed.

(** Before the first turn there are no projects. *)
Definition begun (q : quota) : Prop := sound q /\ (qs_inited q = false -> q_items q = []).
Definition soundly_saved : Prop := forall h path c, qe_saved h path = Some c -> quota_wf (qc_Items c).

Lemma quota_do_begun q ev : soundly_saved -> begun q -> begun (quota_do q ev).
Proof.
  intros Hsaved [Hs Hn]. destruct ev as [tn active|now name]; cbn [quota_do].
  - pose proof (init_sound tn q Hsaved Hs) as Hi. split; [eapply qsteps_sound; [apply refresh_steps, Hi|exact Hi]|]. intros E. by rewrite refresh_inited in E.
  - split; [eapply qsteps_sound; [apply cleanup_steps|done]|]. unfold quotaCleanupContainer. destruct (qs_inited q) eqn:Ei; cbn [negb]; [|by auto].
    destruct (Fetch _ _); [|by rewrite Ei]. rewrite Sync_inited, SyncVendor_inited. cbn. by rewrite Ei.
Qed.
Lemma quota_do_kept q ev p : begun q -> p ∈ q_items q -> ~ gone_dir g (qp_Name p) -> (forall now, ev <> EvCleanup now (qp_Name p)) ->
  exists p', p' ∈ q_items (quota_do q ev) /\ qp_Name p' = qp_Name p /\ qp_Id p' = qp_Id p.
Proof.
  intros [[W _] Hb] Hp Hg He. destruct ev as [tn active|now name]; cbn [quota_do].
  - assert (Hi : qs_inited q = true). { destruct (qs_inited q); [done|]. rewrite Hb in Hp by done. by apply not_elem_of_nil in Hp. }
    pose proof (refresh_steps tn active q) as Hr. assert (Ei : fst (quotaKeeperInit g tn q) = q) by (unfold quotaKeeperInit; by rewrite Hi).
    rewrite Ei in Hr. eapply qsteps_kept; [by apply Hr|exact Hg|by exists p].
  - eapply qsteps_kept; [apply cleanup_steps| |by exists p]. cbn. intros E. apply (He now). by rewrite E.
Qed.
Lemma cleanup_gone now name q : begun q -> name ∉ map qp_Name (q_items (quotaCleanupContainer g now name q)).
Proof.
  intros [[W _] Hb]. unfold quotaCleanupContainer. destruct (qs_inited q) eqn:Ei; cbn [negb]; [|rewrite Hb by done; apply not_elem_of_nil].
  destruct (Fetch name (q_items q)) as [p|] eqn:Ef; [|by apply Fetch_none]. rewrite Sync_items, SyncVendor_items.
  change (q_items (set_items ?l _)) with l. intros (v & -> & Hv)%list_elem_of_fmap. by apply (Remove_gone _ _ _ (qw_names _ W) Hv).
Qed.
Lemma quota_run_begun q l : soundly_saved -> begun q -> begun (quota_run q l).
Proof. intros Hsaved. revert q. induction l as [|ev l IH]; intros q Hq; [done|]. apply IH. by apply quota_do_begun. Qed.
Lemma quota_new_begun : begun quota_new.
Proof. split; [|done]. split; [|constructor]. split; constructor. Qed.
End numbers.

(** C40: in every run of a host - turns of the refresh and cleanups of destroyed containers in
    any order, with commands and writes that fail - that starts with no project or with those
    of a file that was saved soundly, no two projects have the same number or the same
    container, the numbers are between 100 and 110000, and so it is in every file that is
    saved.  Whatever comes next, a container keeps its number until it is cleaned up itself
    or its directory is missing; a cleanup leaves its container without a project. *)
Theorem quota_numbers_apart {QE : QuotaEnv} {SS : SortSlice} {MR : MapRange} {MRL : MapRangeLaws MR} (g : quota_settings) l
  (Hsaved : soundly_saved) :
  let q := quota_run g quota_new l in
  quota_wf (q_items q) /\ saved_wf (qs_hist q) /\
  (forall p l', p ∈ q_items q -> ~ gone_dir g (qp_Name p) -> (forall now, EvCleanup now (qp_Name p) ∉ l') ->
    exists p', p' ∈ q_items (quota_run g q l') /\ qp_Name p' = qp_Name p /\ qp_Id p' = qp_Id p) /\
  (forall now name, name ∉ map qp_Name (q_items (quotaCleanupContainer g now name q))).
Proof.
  intros q. assert (Hq : begun q) by (by apply quota_run_begun, quota_new_begun). split_and!; [apply Hq|apply Hq| |intros; by apply cleanup_gone].
  clearbody q. intros p l' Hp Hg. revert p q Hq Hp Hg. clear l. induction l' as [|ev l' IH]; intros p q Hq Hp Hg He; [by exists p|].
  destruct (quota_do_kept g q ev p Hq Hp Hg) as (p1 & Hp1 & En & Ei); [intros now ->; apply (He now); by left|].
  destruct (IH p1 (quota_do g q ev)) as (p' & Hp' & En' & Ei'); [by apply quota_do_begun|done|by rewrite En|intros now; rewrite En; intros Hin; apply (He now); by right|].
  exists p'. split; [exact Hp'|]. by rewrite En', Ei'.
Qed.

(** * Limits *)

Lemma f64_round_opp m e : f64_round (- m) e = F (- f_man (f64_round m e)) (f_exp (f64_round m e)).
Proof. unfold f64_round. rewrite Z.abs_opp, Z.sgn_opp. destruct (_ <=? 0); cbn; [done|]. f_equal. lia. Qed.
Lemma f64_div_opp m e : m <> 0 -> f64_div (F (- m) e) (F m e) = F (- 2 ^ 52) (- 52).
Proof.
  intros Hm. unfold f64_div. cbn [f_man f_exp]. rewrite Z.abs_opp, Z.sgn_opp.
  set (L := Z.log2 (Z.abs m)). assert (HL : 0 <= L) by apply Z.log2_nonneg.
  replace (Z.abs m * 2 ^ (L + 57) / Z.abs m) with (2 ^ (L + 57)) by (rewrite Z.mul_comm, Z.div_mul; lia).
  replace (Z.abs m * 2 ^ (L + 57) mod Z.abs m) with 0 by (rewrite Z.mul_comm, Z.mod_mul; lia).
  rewrite Z.eqb_refl, Z.add_0_r.
  assert (Hs : - Z.sgn m * Z.sgn m = -1) by (destruct m; cbn; lia). rewrite Hs.
  replace (-1 * (2 * 2 ^ (L + 57))) with (- 2 ^ (L + 58)) by (replace (L + 58) with (Z.succ (L + 57)) by lia; rewrite Z.pow_succ_r; lia).
  rewrite f64_round_opp. unfold f64_round. assert (Hp : 0 < 2 ^ (L + 58)) by (apply Z.pow_pos_nonneg; lia).
  rewrite (Z.abs_eq (2 ^ (L + 58))) by lia. rewrite Z.log2_pow2 by lia. rewrite Z.sgn_pos by lia.
  destruct (Z.leb_spec (L + 58 + 1 - 53) 0); [lia|]. cbn [f_man f_exp]. f_equal; [|lia].
  unfold rne. rewrite Z.shiftr_div_pow2 by lia. rewrite <- Z.pow_sub_r by lia.
  replace (2 ^ (L + 58) mod 2 ^ (L + 58 + 1 - 53)) with 0.
  2: { symmetry. apply Z.mod_divide; [lia|]. exists (2 ^ 52). rewrite <- Z.pow_add_r by lia. f_equal. lia. }
  assert (Hd : 0 < 2 ^ (L + 58 + 1 - 53 - 1)) by (apply Z.pow_pos_nonneg; lia).
  rewrite (proj2 (Z.compare_lt_iff 0 (2 ^ (L + 58 + 1 - 53 - 1)))) by lia.
  replace (L + 58 - (L + 58 + 1 - 53)) with 52 by lia. lia.
Qed.
Lemma f64_div_zero y : f_man (f64_div (F 0 0) y) = 0.
Proof.
  unfold f64_div. cbn [f_man f_exp]. change (Z.sgn 0) with 0. by rewrite !Z.mul_0_l.
Qed.

Lemma vol_limit_range d : in_i64 (ad_VolumeLimit d) -> 2 ^ 20 < vol_limit d < 2 ^ 63.
Proof. unfold in_i64, vol_limit. change (Z.shiftl 100 20) with 104857600. lia. Qed.

(** A limit is near itself, no limit is near none. *)
Lemma near_itself v : near_limit v v = true.
Proof.
  unfold near_limit. rewrite Z.sub_diag. change (i64 0) with 0.
  change (f64_of_int 0) with (F 0 0). pose proof (f64_div_zero (f64_of_int v)) as Hz. destruct (f64_div _ _) as [m e]. cbn in Hz. subst m.
  unfold f64_lt, f64_gt. cbn. apply andb_true_iff. split.
  - apply Z.ltb_lt. match goal with |- context [_ * 2 ^ ?k] => assert (0 < 2 ^ k) by (apply Z.pow_pos_nonneg; lia) end. lia.
  - apply Z.ltb_lt. match goal with |- context [_ * 2 ^ ?k] => assert (0 < 2 ^ k) by (apply Z.pow_pos_nonneg; lia) end. lia.
Qed.
Lemma f64_of_int_man v : 0 < v -> f_man (f64_of_int v) <> 0.
Proof.
  intros Hv. unfold f64_of_int, f64_round. rewrite (Z.abs_eq v) by lia. rewrite Z.sgn_pos by lia.
  destruct (Z.leb_spec (Z.log2 v + 1 - 53) 0) as [Hd|Hd]; cbn; [lia|].
  set (d := Z.log2 v + 1 - 53) in *. pose proof (rne_bound v d) as B.
  assert (2 ^ Z.log2 v <= v) by (apply Z.log2_spec; lia).
  assert (2 ^ d <= 2 ^ Z.log2 v) by (apply Z.pow_le_mono_r; lia).
  intros E. assert (rne v d = 0) by lia. rewrite H1 in B. lia.
Qed.
Lemma none_not_near v : 0 < v < 2 ^ 63 -> near_limit 0 v = false.
Proof.
  intros Hv. unfold near_limit.
  assert (E : 0 -64 v = - v). { rewrite Z.sub_0_l. apply i64_id. unfold in_i64. lia. }
  rewrite E. unfold f64_of_int at 1. rewrite f64_round_opp. fold (f64_of_int v). pose proof (f64_of_int_man v ltac:(lia)) as Hm.
  destruct (f64_of_int v) as [m e]. cbn [f_man f_exp] in *. rewrite f64_div_opp by done. vm_compute. done.
Qed.

Section limits.
Context {QE : QuotaEnv} {SS : SortSlice} {MR : MapRange} {MRL : MapRangeLaws MR}.
Context (g : quota_settings).
Implicit Types q : quota.

(** The history only grows. *)
Lemma qstep_hist R x y : qstep R x y -> exists new, snd y = (new ++ snd x)%list.
Proof.
  destruct 1 as [l h e ok He _|l l' h Hs|l h h' p ok ok' Hp Hr Hh|l h p _ _ _ _ _ _|l h p ok Hp|l h p n ok ok' Hp _|l1 l2 h p|l h h' Hx _]; cbn [snd];
    try (exists []; done); try (by eexists [_]); try (by eexists [_; _]); [|by exists h'].
  destruct Hh as [[-> _]| ->]; [by exists []|by eexists [_; _]].
Qed.
Lemma qsteps_hist R q q' : qsteps R q q' -> exists new, qs_hist q' = (new ++ qs_hist q)%list.
Proof.
  unfold qsteps. change (qs_hist q) with (snd (view q)). change (qs_hist q') with (snd (view q')).
  induction 1 as [|x y z Hxy _ [new E]]; [by exists []|]. destruct (qstep_hist _ _ _ Hxy) as [new' E']. exists (new ++ new')%list.
  by rewrite E, E', app_assoc.
Qed.
Lemma qsteps_no_failure R q q' : qsteps R q q' -> no_failure (qs_hist q') -> no_failure (qs_hist q).
Proof. intros (new & ->)%qsteps_hist. by intros [_ ?]%Forall_app. Qed.
Lemma qsteps_true R q q' : (forall p p', may_scan R p p' -> settings p' = settings p) -> qsteps R q q' -> no_failure (qs_hist q') ->
  quota_wf (q_items q) -> quota_true (ctr_base R) (q_items q) (qs_hist q) -> quota_true (ctr_base R) (q_items q') (qs_hist q').
Proof.
  intros Hsc. unfold qsteps. change (qs_hist q) with (snd (view q)). change (qs_hist q') with (snd (view q')).
  change (q_items q) with (fst (view q)). change (q_items q') with (fst (view q')).
  induction 1 as [|x y z Hxy Hyz IH]; [done|]. intros Hok W A. apply IH; [done|by eapply wf_step|]. eapply true_step; [done|done| |done|done].
  clear - Hyz Hok. induction Hyz as [|x y z Hxy _ IH]; [done|]. destruct (qstep_hist _ _ _ Hxy) as [new E]. specialize (IH Hok).
  unfold no_failure in IH. rewrite E in IH. by apply Forall_app in IH as [_ IH].
Qed.

(** Nothing is removed. *)
Definition no_removal : step_rules := any_scan (qg_AppPath g) (fun _ => False).
Lemma replica_kept name d q rep : qsteps no_removal q (limit_replica g name d q rep).
Proof. by apply limit_replica_steps. Qed.
Lemma app_kept q kv : qsteps no_removal q (limit_app g q kv).
Proof. by apply limit_app_steps. Qed.

(** Without removals the projects do not become fewer. *)
Lemma qsteps_length q q' : qsteps no_removal q q' -> (length (q_items q) <= length (q_items q'))%nat.
Proof.
  assert (Hu : forall t f (l : list QuotaProject), length (update_first t f l) = length l).
  { intros t f l. induction l as [|v l IH]; cbn; [done|]. destruct (t v); cbn; congruence. }
  unfold qsteps. change (q_items q) with (fst (view q)). change (q_items q') with (fst (view q')).
  induction 1 as [|x y z Hxy _ IH]; [done|]. etrans; [|exact IH].
  destruct Hxy as [| ? ? ? Hs| | | | | |]; cbn [fst]; rewrite ?Hu, ?length_app; cbn; try lia; try done.
  by apply Forall2_length in Hs as ->.
Qed.

(** The container has a project with the limit. *)
Definition limited (q : quota) (name : string) (vol : Z) : Prop :=
  exists p, p ∈ q_items q /\ qp_Name p = name /\ near_limit (qp_Soft p) vol = true /\ near_limit (qp_Hard p) vol = true.

Context (Hshell : forall h, qe_shell h = true).

Lemma SyncVendor_ok q q' r : SyncVendor g q = (q', r) -> no_failure (qs_hist q') -> r = Ok tt.
Proof.
  unfold SyncVendor. case_bool_decide; [by intros [= _ <-]|]. unfold perform. set (e := QProjects _).
  destruct (qe_ok (qs_hist q) e) eqn:E; [by intros [= _ <-]|]. intros [= <- <-] Hok. by inversion Hok.
Qed.
(** What is left of setting a limit when nothing fails. *)
Lemma set_limit_items ctrName ctrDir vol p q : p ∈ q_items q -> qp_Name p = ctrName -> no_failure (qs_hist (set_limit g ctrName ctrDir vol p q)) ->
  q_items (set_limit g ctrName ctrDir vol p q) =
  if near_limit (qp_Soft p) vol && near_limit (qp_Hard p) vol then q_items q else update_first (goes_by ctrName) (with_limits vol vol) (q_items q).
Proof.
  intros Hp Hn. unfold set_limit. destruct (_ && _); [done|]. pose proof (SyncVendor_items g q) as Hi.
  destruct (SyncVendor g q) as [q1 r] eqn:Es. cbn [fst] in Hi. intros Hok.
  assert (r = Ok tt) as ->.
  { eapply SyncVendor_ok; [exact Es|]. destruct r; [|done]. unfold shell in Hok. rewrite Hshell in Hok. cbn in Hok. rewrite Hshell in Hok.
    cbn in Hok. by do 2 apply Forall_inv_tail in Hok. }
  unfold shell. rewrite Hshell. cbn. rewrite Hshell. cbn. change (q_items (set_items ?l ?q)) with l.
  by rewrite <- Hi.
Qed.

Lemma set_limit_limited ctrName ctrDir vol p q : quota_wf (q_items q) -> p ∈ q_items q -> qp_Name p = ctrName ->
  no_failure (qs_hist (set_limit g ctrName ctrDir vol p q)) -> limited (set_limit g ctrName ctrDir vol p q) ctrName vol.
Proof.
  intros W Hp Hn Hok. unfold limited. rewrite (set_limit_items _ _ _ _ _ Hp Hn Hok). destruct (_ && _) eqn:E.
  - apply andb_true_iff in E as [? ?]. by exists p.
  - exists (with_limits vol vol p). split_and!; [apply update_first_hit; [apply W|done|done]|done|apply near_itself..].
Qed.

Lemma limit_replica_cases name d q rep (P : quota -> Prop) :
  P q -> (forall c p, dr_HostId rep = qg_HostId g -> dr_HostId rep <> "" ->
    FetchOrCreate "" (ContainerName name (dr_Id rep)) (qs_config q) = (c, p) ->
    P (match p with
       | None => with_config c q
       | Some p => set_limit g (ContainerName name (dr_Id rep)) (ContainerBaseDir (qg_AppPath g) (ContainerName name (dr_Id rep))) (vol_limit d) p (with_config c q)
       end)) -> P (limit_replica g name d q rep).
Proof.
  intros Hq Hp. unfold limit_replica. case_bool_decide as E1; [done|]. case_bool_decide as E2; [|done]. cbn [negb orb].
  destruct (qe_stat _ _); try done. destruct (FetchOrCreate _ _ _) as [c p]. specialize (Hp c p E2 E1 eq_refl). by destruct p.
Qed.

Lemma limited_stays name d q rep ctrName vol : quota_wf (q_items q) -> no_failure (qs_hist (limit_replica g name d q rep)) ->
  (dr_HostId rep = qg_HostId g -> dr_HostId rep <> "" -> ContainerName name (dr_Id rep) = ctrName -> vol = vol_limit d) -> limited q ctrName vol ->
  limited (limit_replica g name d q rep) ctrName vol.
Proof.
  intros W. apply (limit_replica_cases name d q rep (fun q' => no_failure (qs_hist q') -> _ -> limited q ctrName vol -> limited q' ctrName vol)); [done|].
  intros c p Eh Ehn Ec Hok Hv (v & Hvin & Hvn & Hvl).
  pose proof (FetchOrCreate_spec "" (ContainerName name (dr_Id rep)) (qs_config q)) as Hf. rewrite Ec in Hf.
  destruct (create_steps no_removal _ _ _ _ Ec) as [Hs Hp]. pose proof (qsteps_wf _ _ _ Hs W) as W'.
  assert (Hvc : v ∈ q_items (with_config c q)).
  { change (q_items (with_config c q)) with (qc_Items c). destruct p as [p|].
    - destruct Hf as [[-> _]|(_ & -> & _)]; [done|]. apply elem_of_app. by left.
    - by rewrite Hp. }
  destruct p as [p|]; [|by exists v]. destruct Hp as [Hp Hn].
  destruct (decide (ContainerName name (dr_Id rep) = ctrName)) as [Ee|Hne].
  - rewrite (Hv Eh Ehn Ee), <- Ee. by apply set_limit_limited.
  - exists v. split; [|done]. rewrite (set_limit_items _ _ _ p) by done. destruct (_ && _); [done|]. apply update_first_miss; [done|congruence].
Qed.
Lemma limit_replica_limited name d q rep : quota_wf (q_items q) -> no_failure (qs_hist (limit_replica g name d q rep)) ->
  dr_HostId rep = qg_HostId g -> dr_HostId rep <> "" ->
  (forall h, qe_stat h (ContainerBaseDir (qg_AppPath g) (ContainerName name (dr_Id rep))) = DirThere) ->
  Z.of_nat (length (q_items (limit_replica g name d q rep))) <= 10000 ->
  limited (limit_replica g name d q rep) (ContainerName name (dr_Id rep)) (vol_limit d).
Proof.
  intros W Hok Hh Hne Hd Hl. unfold limit_replica in *. rewrite (bool_decide_eq_false_2 (dr_HostId rep = "")) in * by done.
  rewrite (bool_decide_eq_true_2 (dr_HostId rep = qg_HostId g)) in * by done. cbn [negb orb] in *. rewrite Hd in *.
  destruct (FetchOrCreate _ _ _) as [c p] eqn:Ec. pose proof (FetchOrCreate_spec "" (ContainerName name (dr_Id rep)) (qs_config q)) as Hf.
  rewrite Ec in Hf. destruct (create_steps no_removal _ _ _ _ Ec) as [Hs Hp]. destruct p as [p|].
  - destruct Hp as [Hp Hn]. apply set_limit_limited; [by eapply qsteps_wf|done..].
  - destruct Hf as (Hi & _ & Hlen & _). change (q_items (with_config c q)) with (qc_Items c) in Hl. rewrite Hi in Hl. lia.
Qed.

(** All replicas of the instances. *)
Definition wants (kv : string * AppRecord) (name : string) (vol : Z) : Prop :=
  exists sp d rep, ar_Spec (snd kv) = Some sp /\ ar_Deploy (snd kv) = Some d /\ ad_Action d = OpActionStart /\ rep ∈ ad_Replicas d /\
    dr_HostId rep = qg_HostId g /\ dr_HostId rep <> "" /\ name = ContainerName (ar_Name (snd kv)) (dr_Id rep) /\ vol = vol_limit d.

(** A fold keeps what one of its steps establishes and the others leave. *)
Lemma foldl_limited {A} (f : quota -> A -> quota) (ok : A -> Prop) name vol l1 x l2 q :
  (forall q x, qsteps no_removal q (f q x)) ->
  (forall q x, ok x -> quota_wf (q_items q) -> no_failure (qs_hist (f q x)) -> limited q name vol -> limited (f q x) name vol) ->
  (forall q, quota_wf (q_items q) -> no_failure (qs_hist (f q x)) -> Z.of_nat (length (q_items (f q x))) <= 10000 -> limited (f q x) name vol) ->
  (forall y, y ∈ l2 -> ok y) -> quota_wf (q_items q) -> no_failure (qs_hist (foldl f q (l1 ++ x :: l2))) ->
  Z.of_nat (length (q_items (foldl f q (l1 ++ x :: l2)))) <= 10000 -> limited (foldl f q (l1 ++ x :: l2)) name vol.
Proof.
  intros Hs Hstay Hx. rewrite foldl_app. cbn [foldl]. set (q1 := foldl f q l1). intros Hok2 W Hnf Hlen.
  assert (W1 : quota_wf (q_items q1)) by (eapply qsteps_wf; [apply (foldl_qsteps _ f Hs)|done]).
  assert (W2 : quota_wf (q_items (f q1 x))) by (by eapply qsteps_wf).
  pose proof (foldl_qsteps _ f Hs l2 (f q1 x)) as Hrest.
  assert (Hl : limited (f q1 x) name vol).
  { apply Hx; [done|by eapply qsteps_no_failure|]. apply qsteps_length in Hrest. lia. }
  clear Hx Hrest Hlen. revert W2 Hnf Hl Hok2. generalize (f q1 x). induction l2 as [|y l2 IH]; intros q2 W2 Hnf Hl Hok2; [done|]. cbn [foldl] in *.
  apply IH; [by eapply qsteps_wf|done| |intros; apply Hok2; by right].
  apply Hstay; [apply Hok2; by left|done| |done]. eapply qsteps_no_failure; [|exact Hnf]. apply (foldl_qsteps _ f Hs).
Qed.

Lemma limit_app_stays kv name vol q : (forall vol', wants kv name vol' -> vol' = vol) -> quota_wf (q_items q) ->
  no_failure (qs_hist (limit_app g q kv)) -> limited q name vol -> limited (limit_app g q kv) name vol.
Proof.
  intros Hv W. unfold limit_app. destruct (ar_Spec (snd kv)) as [sp|] eqn:Es, (ar_Deploy (snd kv)) as [d|] eqn:Ed; try done.
  destruct (_ || _) eqn:Ec; [done|]. apply orb_false_iff in Ec as [_ Ec]. apply negb_false_iff, bool_decide_eq_true in Ec.
  assert (Hr : forall rep, rep ∈ ad_Replicas d -> dr_HostId rep = qg_HostId g -> dr_HostId rep <> "" -> ContainerName (ar_Name (snd kv)) (dr_Id rep) = name -> vol = vol_limit d).
  { intros rep Hr Hh Hn En. symmetry. apply Hv. by exists sp, d, rep. }
  clear Ec Hv. revert q W Hr. induction (ad_Replicas d) as [|rep l IH]; intros q W Hr Hnf Hl; [done|]. cbn [foldl] in *.
  pose proof (foldl_qsteps no_removal (limit_replica g (ar_Name (snd kv)) d) (replica_kept _ d) l (limit_replica g (ar_Name (snd kv)) d q rep)) as Hs.
  apply IH; [eapply qsteps_wf; [apply replica_kept|done]|intros r Hr'; apply Hr; by right|done|].
  apply limited_stays; [done|by eapply qsteps_no_failure|intros ? ? ?; eapply Hr; [by left|done..]|done].
Qed.
Lemma limit_app_limited kv name vol q : wants kv name vol -> (forall h, qe_stat h (ContainerBaseDir (qg_AppPath g) name) = DirThere) ->
  quota_wf (q_items q) -> no_failure (qs_hist (limit_app g q kv)) -> Z.of_nat (length (q_items (limit_app g q kv))) <= 10000 ->
  limited (limit_app g q kv) name vol.
Proof.
  intros (sp & d & rep & Es & Ed & Ea & Hrep & Hh & Hn & -> & ->) Hdir W. unfold limit_app. rewrite Es, Ed.
  rewrite (bool_decide_eq_false_2 (ad_Replicas d = [])) by (intros E; rewrite E in Hrep; by apply not_elem_of_nil in Hrep).
  rewrite (bool_decide_eq_true_2 _ Ea). cbn [negb orb]. apply list_elem_of_split in Hrep as (l1 & l2 & ->).
  apply (foldl_limited _ (fun _ => True)); try done.
  - intros. apply replica_kept.
  - intros. by apply limited_stays.
  - intros. by apply limit_replica_limited.
Qed.

(** The pass over all instances. *)
Lemma pass_limited active name vol k a q : active !! k = Some a -> wants (k, a) name vol ->
  (forall k a k' a' name v v', active !! k = Some a -> active !! k' = Some a' -> wants (k, a) name v -> wants (k', a') name v' -> v = v') ->
  (forall h, qe_stat h (ContainerBaseDir (qg_AppPath g) name) = DirThere) -> quota_wf (q_items q) ->
  no_failure (qs_hist (foldl (limit_app g) q (map_range active))) -> Z.of_nat (length (q_items (foldl (limit_app g) q (map_range active)))) <= 10000 ->
  limited (foldl (limit_app g) q (map_range active)) name vol.
Proof.
  intros Hk Hw Huniq Hdir W. assert (Hin : (k, a) ∈ map_range active) by (by apply elem_of_map_range).
  assert (Hall : forall kv, kv ∈ map_range active -> forall vol', wants kv name vol' -> vol' = vol).
  { intros [k' a'] Hkv vol' Hw'. apply elem_of_map_range in Hkv. symmetry. exact (Huniq _ _ _ _ _ _ _ Hk Hkv Hw Hw'). }
  revert Hall. apply list_elem_of_split in Hin as (l1 & l2 & ->). intros Hall.
  apply (foldl_limited _ (fun kv => forall vol', wants kv name vol' -> vol' = vol)); try done.
  - intros. apply app_kept.
  - intros. by apply limit_app_stays.
  - intros. by apply (limit_app_limited (k, a)).
  - intros y Hy. apply Hall. apply elem_of_app. right. by right.
Qed.

(** ** The others *)

Definition lifted active (v : QuotaProject) : QuotaProject :=
  if (qp_Soft v <? 1) || container_active g active (qp_Name v) then v else with_limits 0 0 v.
Lemma lift_limits_items active l q q' l' b : lift_limits g active l q = (q', l', b) -> no_failure (qs_hist q') -> l' = map (lifted active) l.
Proof.
  revert q q' l' b. induction l as [|v l IH]; intros q q' l' b E Hok; cbn [lift_limits] in E; [by injection E as _ <- _|].
  cbn [map]. unfold lifted at 1. destruct (_ || _).
  - destruct (lift_limits g active l q) as [[q2 vs] cl] eqn:El. injection E as <- <- _. f_equal. by eapply IH.
  - unfold exec, perform in E. set (e1 := QRun _) in E. set (e2 := QRun _) in E.
    assert (Hfail : forall q1 q2 vs cl, lift_limits g active l q1 = (q2, vs, cl) -> no_failure (qs_hist q2) -> no_failure (qs_hist q1)).
    { intros q1 q2 vs cl El Hq2. pose proof (lift_limits_steps g no_removal active l [] q1 q2 vs cl El) as Hs.
      by apply (qsteps_no_failure _ _ _ Hs) in Hq2. }
    destruct (qe_ok (qs_hist q) e1) eqn:E1; cbn [negb] in E.
    + destruct (qe_ok _ e2) eqn:E2 in E; cbn [negb] in E; destruct (lift_limits _ _ l _) as [[q2 vs] cl] eqn:El; injection E as <- <- _.
      * f_equal. by eapply IH.
      * specialize (Hfail _ _ _ _ El Hok). inversion Hfail as [|? ? Hx _]. cbn in Hx. cbn in E2. congruence.
    + destruct (lift_limits _ _ l _) as [[q2 vs] cl] eqn:El. injection E as <- <- _.
      specialize (Hfail _ _ _ _ El Hok). inversion Hfail as [|? ? Hx _]. cbn in Hx. congruence.
Qed.

Lemma wants_active active k a name vol : active !! k = Some a -> wants (k, a) name vol -> container_active g active name = true.
Proof.
  intros Hk (sp & d & rep & Es & Ed & Ea & Hrep & Hh & Hn & En & _). unfold container_active. apply existsb_exists. exists (k, a).
  split; [by apply list_elem_of_In, elem_of_map_range|]. unfold holds_container. rewrite Ed, (bool_decide_eq_true_2 _ Ea). cbn [andb].
  apply existsb_exists. exists rep. split; [by apply list_elem_of_In|]. by rewrite !bool_decide_eq_true_2.
Qed.

(** The parts of a cycle that went through. *)
Lemma quota_cycle_ok R tn active q q' : ctr_base R = qg_AppPath g -> scan_allowed R q -> (forall name, gone_dir g name -> may_remove R name) ->
  quota_cycle g tn active q = (q', Ok tt) -> quota_wf (q_items q) ->
  exists q3 q5 q6 vs cl, qsteps R q q3 /\ q5 = fst (Sync tn (foldl (limit_app g) q3 (map_range active))) /\
    lift_limits g active (q_items q5) q5 = (q6, vs, cl) /\ q_items q' = vs /\ exists new, qs_hist q' = (new ++ qs_hist q6)%list.
Proof.
  intros Hb Hsc HR. unfold quota_cycle. intros E W.
  pose proof (scan_kernel_steps R q Hsc) as H1. destruct (scan_kernel q) as [q1 [u1|e]]; [|done]. cbn [fst] in H1.
  pose proof (remove_gone_steps g R q1 HR (qsteps_wf _ _ _ H1 W)) as H2. destruct (remove_gone g q1) as [q2 [u2|e]]; [|done]. cbn [fst] in H2.
  pose proof (Sync_steps R tn q2) as H3. destruct (Sync tn q2) as [q3 [u3|e]]; [|done]. cbn [fst] in H3.
  exists q3. destruct (Sync tn (foldl _ _ _)) as [q5 [u5|e]] eqn:E5; [|done]. exists q5. destruct (lift_limits g active (q_items q5) q5) as [[q6 vs] cl] eqn:El.
  exists q6, vs, cl. split; [by eapply qsteps_trans; [|eapply qsteps_trans]|]. split; [done|]. split; [done|].
  destruct cl.
  - pose proof (Sync_items tn (set_items vs q6)) as Hi. pose proof (Sync_steps R tn (set_items vs q6)) as Hs.
    destruct (Sync tn (set_items vs q6)) as [q7 [u7|e]]; [|done]. injection E as <-. cbn [fst] in *. split; [exact Hi|]. apply qsteps_hist in Hs. exact Hs.
  - injection E as <-. split; [done|]. by exists [].
Qed.

(** A cycle keeps the file systems in step with the projects when its scan finds them as
    they are recorded. *)
Lemma quota_cycle_true tn active q q' : quota_wf (q_items q) -> quota_true (qg_AppPath g) (q_items q) (qs_hist q) ->
  map settings (q_items (fst (scan_kernel q))) = map settings (q_items q) ->
  quota_cycle g tn active q = (q', Ok tt) -> no_failure (qs_hist q') -> quota_true (qg_AppPath g) (q_items q') (qs_hist q').
Proof.
  intros W T Hscan E Hok. set (R := still_scan (qg_AppPath g) (gone_dir g)).
  pose proof (quota_cycle_steps g R tn active q eq_refl (still_scan_allowed _ _ _ Hscan) (fun _ H => H) W) as Hs. rewrite E in Hs.
  by apply (qsteps_true R q q' (fun _ _ H => proj2 H) Hs).
Qed.
End limits.


(** * Runs *)

Section runs.
Context (refuse : quota_effect -> bool) (text : quota_cmd -> string) (mounts : list quota_partition).
(** Effects fail if they are refused; every directory is there. *)
Definition ex_env : QuotaEnv := {| qe_ok := fun _ e => negb (refuse e); qe_text := fun _ => text; qe_shell := fun _ => true; qe_stat := fun _ _ => DirThere;
  qe_parts := fun _ => mounts; qe_saved := fun _ _ => None |}.
End runs.

Definition ex_g : quota_settings := {| qg_Prefix := "/opt/innerstack"; qg_AppPath := "/data/apps"; qg_HostId := "h1" |}.
Definition ex_start : quota :=
  {| qs_config := {| qc_path := ""; qc_syncMapsSum := ""; qc_Items := []; qc_Updated := 0; qc_IdOffset := 0; qc_MountPoints := [] |};
     qs_inited := false; qs_refreshed := 0; qs_hist := [] |}.
Definition ex_replica : AppDeployReplica := {| dr_Id := 0; dr_HostId := "h1"; dr_State := ""; dr_VpcIpv4 := ""; dr_ServicePorts := [] |}.
Definition ex_record (action : string) : AppRecord :=
  {| ar_Id := "a1"; ar_Name := "web";
     ar_Spec := Some {| sp_Name := "web"; sp_Version := "1.0"; sp_Resources := None; sp_ServicePorts := []; sp_Depends := []; sp_Packages := []; sp_Configs := []; sp_Tasks := [] |};
     ar_Deploy := Some {| ad_Action := action; ad_Stage := {| dp_Revision := 1; dp_Stages := None |}; ad_CpuLimit := 100; ad_MemoryLimit := 2 ^ 28;
                          ad_VolumeLimit := 2 ^ 30; ad_ReplicaCap := 1; ad_Replicas := [ex_replica]; ad_Depends := []; ad_Configs := [] |};
     ar_RefByInstances := [] |}.
Definition ex_active (action : string) : gmap string AppRecord := {[ "web" := ex_record action ]}.
Definition ex_mounts : list quota_partition := [{| qt_Mountpoint := "/data/apps"; qt_Fstype := "xfs" |}; {| qt_Mountpoint := "/"; qt_Fstype := "ext4" |}].
Definition ex_nl : string := String "010" "".
Definition ex_text (c : quota_cmd) : string :=
  match c with
  | CPath _ => "[000] /data/apps  /dev/sdb1 (uquota, pquota)" +:+ ex_nl +:+ "[001] /data/apps/i8k_web_0   /dev/sdb1 (project 100)" +:+ ex_nl
  | CDf _ => "Filesystem  1K-blocks  Used  Available  Use%  Pathname" +:+ ex_nl +:+ "/dev/sdb1  1048576  8  1048568  1%  /data/apps/i8k_web_0" +:+ ex_nl
  | _ => ""
  end.
Definition ex_all : QuotaEnv := ex_env (fun _ => false) ex_text ex_mounts.
(** The limits that were set, newest first: command, and whether it went through. *)
Definition limit_events (h : quota_history) : quota_history := List.filter (fun x => match limit_effect (fst x) with Some _ => true | None => false end) h.

Definition ex_turn (E : QuotaEnv) (tn : Z) (action : string) (q : quota) : quota := fst (xfsQuotaRefresh ex_g tn (ex_active action) q).
Definition ex_first : quota := ex_turn ex_all 100 "start" ex_start.
Definition ex_second : quota := ex_turn ex_all 110 "start" ex_first.

(** The first turn within ten seconds of the start does nothing; the next one makes the
    project and sets its limit, a later one reads what is used, and when the instance is
    stopped the limit is lifted and the project stays. *)
Example quota_story :
  q_items ex_first = [] /\
  q_items ex_second = [{| qp_Id := 100; qp_Mnt := "/opt"; qp_Name := "i8k_web_0"; qp_Soft := 2 ^ 30; qp_Hard := 2 ^ 30; qp_Used := 0 |}] /\
  q_items (ex_turn ex_all 120 "start" ex_second) =
    [{| qp_Id := 100; qp_Mnt := "/data/apps"; qp_Name := "i8k_web_0"; qp_Soft := 2 ^ 30; qp_Hard := 2 ^ 30; qp_Used := 8192 |}] /\
  q_items (ex_turn ex_all 120 "stop" ex_second) =
    [{| qp_Id := 100; qp_Mnt := "/data/apps"; qp_Name := "i8k_web_0"; qp_Soft := 0; qp_Hard := 0; qp_Used := 8192 |}].
Proof. split_and!; vm_compute; reflexivity. Qed.

(** A project is made for [/opt]: with the containers in [/data/apps] the limit is set in
    the wrong file system, and when the right one is known it counts as set. *)
Example limit_in_wrong_file_system :
  limit_events (qs_hist (ex_turn ex_all 130 "start" (ex_turn ex_all 120 "start" ex_second))) =
    [(QShell (CLimit (2 ^ 30) (2 ^ 30) 100 "/opt"), true)] /\
  map qp_Mnt (q_items (ex_turn ex_all 120 "start" ex_second)) = ["/data/apps"].
Proof. split; vm_compute; reflexivity. Qed.

(** The shell ends with [exit 0]: a limit that is refused counts as set and is not tried
    again. *)
Definition ex_refusing : QuotaEnv := ex_env (fun e => match e with QShell _ => true | _ => false end) ex_text ex_mounts.
Example refused_limit_counts :
  let q := ex_turn ex_refusing 110 "start" (ex_turn ex_refusing 100 "start" ex_start) in
  map qp_Soft (q_items q) = [2 ^ 30] /\ fs_limit (qs_hist q) "/opt" 100 = (0, 0) /\
  limit_events (qs_hist (ex_turn ex_refusing 120 "start" q)) = limit_events (qs_hist q).
Proof. split_and!; vm_compute; reflexivity. Qed.

(** On a host without the command, or without a file system for it, the first turn gives up
    quietly; all later ones take the quotas for initialised and fail. *)
Theorem failed_init_fails_later {QE : QuotaEnv} {SS : SortSlice} {MR : MapRange} (g : quota_settings) tn tn' active active' q e q1
  (Hstart : qs_inited q = false) (Hconfig : qs_config q = qs_config ex_start) (Hfresh : qs_refreshed q = 0)
  (Hfail : quotaKeeperInit g tn q = (q1, Err e)) :
  xfsQuotaRefresh g tn active q = (q1, Ok tt) /\ snd (xfsQuotaRefresh g tn' active' q1) = Err "open : no such file or directory".
Proof.
  assert (Hm : forall l q', qs_config (fst (quota_mounts g l q')) = qs_config q' /\ qs_refreshed (fst (quota_mounts g l q')) = qs_refreshed q').
  { induction l as [|d l IH]; intros q'; cbn [quota_mounts]; [done|]. destruct (part_eligible g d); [|apply IH]. unfold exec, perform.
    destruct (quota_mounts g l _) as [q2 ms] eqn:E. pose proof (IH (with_hist ((QRun (CReport (qt_Mountpoint d)), qe_ok (qs_hist q') (QRun (CReport (qt_Mountpoint d)))) :: qs_hist q') q')) as IH'.
    rewrite E in IH'. exact IH'. }
  assert (Hq1 : qs_inited q1 = true /\ qs_config q1 = qs_config ex_start /\ qs_refreshed q1 = 0).
  { unfold quotaKeeperInit in Hfail. rewrite Hstart in Hfail. unfold exec, perform in Hfail.
    destruct (qe_ok (qs_hist q) (QRun CVersion)); cbn [negb] in Hfail; [|injection Hfail as <- _; done].
    match type of Hfail with context [quota_mounts g ?l ?q'] => pose proof (Hm l q') as Hm'; destruct (quota_mounts g l q') as [q2 [|m ms]] end; [|done].
    injection Hfail as <- _. cbn in *. destruct Hm' as [-> ->]. done. }
  split; [unfold xfsQuotaRefresh; by rewrite Hfail|]. destruct Hq1 as (Hi & Hc & Hr). unfold xfsQuotaRefresh, quotaKeeperInit. rewrite Hi, Hr. cbn [Z.ltb Z.compare andb].
  assert (Hq : q_items q1 = []) by (unfold q_items; by rewrite Hc).
  assert (Hscan : scan_kernel q1 = (q1, Ok tt)).
  { unfold scan_kernel. rewrite Hc. cbn. f_equal. generalize (map_range (∅ : gmap string Z)). intros l. by induction l. }
  assert (Hgone : remove_gone g q1 = (q1, Ok tt)) by (unfold remove_gone; by rewrite Hq).
  unfold quota_cycle. rewrite Hscan, Hgone. unfold Sync. rewrite Hc. done.
Qed.
Definition ex_no_command : QuotaEnv := ex_env (fun e => match e with QRun CVersion => true | _ => false end) ex_text ex_mounts.
Example failed_init_example :
  snd (xfsQuotaRefresh (QE := ex_no_command) ex_g 110 (ex_active "start") (ex_turn ex_no_command 100 "start" ex_start)) =
  Err "open : no such file or directory".
Proof. vm_compute. reflexivity. Qed.

Definition ex_project : QuotaProject := {| qp_Id := 100; qp_Mnt := "/opt"; qp_Name := "i8k_web_0"; qp_Soft := 2 ^ 30; qp_Hard := 2 ^ 30; qp_Used := 0 |}.
Definition ex_events : list quota_event := [EvTurn 100 (ex_active "start"); EvTurn 110 (ex_active "start")].
Lemma quota_numbers_apart_witness :
  let q := quota_run (QE := ex_all) ex_g quota_new ex_events in
  quota_wf (q_items q) /\ saved_wf (qs_hist q) /\
  (exists p', p' ∈ q_items (quota_run (QE := ex_all) ex_g q [EvCleanup 115 "i8k_db_0"; EvTurn 120 (ex_active "stop")]) /\ qp_Name p' = "i8k_web_0" /\ qp_Id p' = 100) /\
  ("i8k_web_0" ∉ map qp_Name (q_items (quotaCleanupContainer (QE := ex_all) ex_g 130 "i8k_web_0" q))).
Proof.
  destruct (quota_numbers_apart (QE := ex_all) ex_g ex_events ltac:(done)) as (W & A & K & C). split_and!; [exact W|exact A| |apply C].
  apply (K ex_project).
  - replace (q_items (quota_run (QE := ex_all) ex_g quota_new ex_events)) with [ex_project] by (vm_compute; reflexivity). by left.
  - by intros [h Hh].
  - intros now [E|[E|E%not_elem_of_nil]%elem_of_cons]%elem_of_cons; [by injection E|discriminate E|done].
Defined.

Lemma ex_one_instance k a k' a' name v v' : ex_active "start" !! k = Some a -> ex_active "start" !! k' = Some a' ->
  wants ex_g (k, a) name v -> wants ex_g (k', a') name v' -> v = v'.
Proof.
  unfold ex_active. intros [<- <-]%lookup_singleton_Some [<- <-]%lookup_singleton_Some (? & ? & ? & ? & Ed & _ & _ & _ & _ & _ & ->) (? & ? & ? & ? & Ed' & _ & _ & _ & _ & _ & ->).
  cbn in *. congruence.
Qed.
Definition ex_cycle : quota := fst (quota_cycle (QE := ex_all) ex_g 110 (ex_active "start") ex_first).
