(* ===== verification/GoFloatText.v ===== *)
(** [strconv.FormatFloat(v, 'f', -1, 64)]: the shortest decimal that reads back as the float,
    without an exponent.  A finite float is a decimal with finitely many digits; they are
    rounded to one digit, two digits, and so on, until the result reads back. *)
From Stdlib Require Import ZArith Lia SpecFloat.
From S2P Require Import Prelude GoStrings GoFloat.
Local Open Scope string_scope.
Local Open Scope Z_scope.

(** Same value. *)
Definition f64_eqb (x y : float64) : bool := negb (f64_gt x y) && negb (f64_gt y x).

(** [|x| = n * 10^e] exactly. *)
Definition f64_decimal (x : float64) : Z * Z :=
  if 0 <=? f_exp x then (Z.abs (f_man x) * 2 ^ f_exp x, 0) else (Z.abs (f_man x) * 5 ^ (- f_exp x), f_exp x).
(** The float nearest to [n * 10^e]. *)
Definition f64_of_decimal (n e : Z) : float64 :=
  if 0 <=? e then f64_round (n * 10 ^ e) 0 else f64_div (F n 0) (F (10 ^ (- e)) 0).

Definition ten_round (n t : Z) : Z :=
  let q := n / 10 ^ t in
  let r := 2 * (n mod 10 ^ t) in
  match r ?= 10 ^ t with Lt => q | Eq => if Z.odd q then q + 1 else q | Gt => q + 1 end.
(** [t] digits are dropped, or fewer if what is left reads back as something else. *)
Fixpoint shortest (x : float64) (n e : Z) (t : nat) : Z * Z :=
  match t with
  | O => (n, e)
  | S t' =>
    let q := ten_round n (Z.of_nat t) in
    if f64_eqb (f64_of_decimal q (e + Z.of_nat t)) x then (q, e + Z.of_nat t) else shortest x n e t'
  end.

Fixpoint zeros (n : nat) : string := match n with O => "" | S n => "0" +:+ zeros n end.
Definition decimal_text (d e : Z) : string :=
  if 0 <=? e then itoa d +:+ zeros (Z.to_nat e)
  else
    let s := itoa d in
    let k := Z.to_nat (- e) in
    let s := zeros (S k - String.length s) +:+ s in
    String.substring 0 (String.length s - k) s +:+ "." +:+ String.substring (String.length s - k) k s.
Definition FormatFloat (x : float64) : string :=
  if f_man x =? 0 then "0" else
  let '(n, e) := f64_decimal x in
  let abs := F (Z.abs (f_man x)) (f_exp x) in
  let '(d, e) := shortest abs n e (Nat.pred (String.length (itoa n))) in
  (if f_man x <? 0 then "-" else "") +:+ decimal_text d e.

Example format_integers : map (fun z => FormatFloat (f64_of_int z)) [0; 1; -7; 60; 1048576; 9007199254740993; 2 ^ 63] =
  ["0"; "1"; "-7"; "60"; "1048576"; "9007199254740992"; "9223372036854776000"].
Proof. vm_compute. reflexivity. Qed.
Example format_fractions : map FormatFloat [f64_0_01; f64_1_1; f64_div (f64_of_int 1) (f64_of_int 3); f64_div (f64_of_int 5) (f64_of_int 10000);
    f64_add f64_0_01 (f64_mul f64_3_0 f64_0_01); F 1 (-20)] =
  ["0.01"; "1.1"; "0.3333333333333333"; "0.0005"; "0.04"; "0.00000095367431640625"].
Proof. vm_compute. reflexivity. Qed.
