(* ===== verification/MetricRegistry.v ===== *)
(** The registry of metrics of a process, [src/pkg/inmetrics]: counters, gauges and histograms
    by name and label, the text they are exported in ([prometheus.go]), and the metrics of the
    control plane that live there ([src/internal/metrics]).

    The values are finite floats.  A metric is shared between its map and the registry, which
    only grows: a pointer is a position.  A panic of [register] is an error. *)
From Stdlib Require Import ZArith Lia Ascii.
From S2P Require Import Prelude GoStrings GoFloat AppNames GoFloatText.
Local Open Scope string_scope.
Local Open Scope Z_scope.
Local Open Scope go_scope.

(** * Metrics *)

Record Label := { lb_Name : string; lb_Item : string }.
#[export] Instance Label_eq_dec : EqDecision Label.
Proof. solve_decision. Defined.
#[export] Instance Label_countable : Countable Label.
Proof. exact (inj_countable' (fun l => (lb_Name l, lb_Item l)) (fun p => {| lb_Name := fst p; lb_Item := snd p |}) ltac:(by intros [])). Defined.

Inductive metricType := metricTypeInvalid | metricTypeCounter | metricTypeGauge | metricTypeHistogram.
#[export] Instance metricType_eq_dec : EqDecision metricType.
Proof. solve_decision. Defined.

Record metric := {
  m_typ : metricType; m_name : string; m_help : string; m_id : Z; m_labels : Label;
  m_fvalue : float64; m_bounds : list float64; m_counts : list Z }.
Record metricMapConfig := { mc_typ : metricType; mc_name : string; mc_help : string; mc_bounds : list float64 }.
Record metricMap := { mm_config : metricMapConfig; mm_metrics : gmap Label nat }.
Record registry := { reg_names : gset string; reg_metrics : list metric; reg_nextID : Z }.

Fixpoint ascending (l : list float64) : bool :=
  match l with
  | x :: ((y :: _) as l') => f64_lt x y && ascending l'
  | _ => true
  end.

Definition register (typ : metricType) (name help : string) (bounds : list float64) (r : registry) : result (registry * metricMap) :=
  if bool_decide (name = "") then Err "panic: inmetrics: empty metric name"
  else if bool_decide (typ = metricTypeInvalid) then Err "panic: inmetrics: invalid metric type"
  else if negb (ascending bounds) then Err "panic: inmetrics: non-ascending histogram bounds"
  else if bool_decide (name ∈ reg_names r) then Err "panic: inmetrics: metric already exists"
  else Ok ({| reg_names := {[ name ]} ∪ reg_names r; reg_metrics := reg_metrics r; reg_nextID := reg_nextID r |},
           {| mm_config := {| mc_typ := typ; mc_name := name; mc_help := help; mc_bounds := bounds |}; mm_metrics := ∅ |}).

Definition newMetric (cfg : metricMapConfig) (l : Label) (r : registry) : registry * nat :=
  let id := u64 (reg_nextID r + 1) in
  let m := {| m_typ := mc_typ cfg; m_name := mc_name cfg; m_help := mc_help cfg; m_id := id; m_labels := l; m_fvalue := F 0 0;
              m_bounds := mc_bounds cfg;
              m_counts := if bool_decide (mc_typ cfg = metricTypeHistogram) then replicate (S (length (mc_bounds cfg))) 0 else [] |} in
  ({| reg_names := reg_names r; reg_metrics := (reg_metrics r ++ [m])%list; reg_nextID := id |}, length (reg_metrics r)).
Definition metric_get (l : Label) (mm : metricMap) (r : registry) : registry * metricMap * nat :=
  match mm_metrics mm !! l with
  | Some i => (r, mm, i)
  | None =>
    let '(r, i) := newMetric (mm_config mm) l r in
    (r, {| mm_config := mm_config mm; mm_metrics := <[l := i]> (mm_metrics mm) |}, i)
  end.

Definition with_value (v : float64) (m : metric) : metric :=
  {| m_typ := m_typ m; m_name := m_name m; m_help := m_help m; m_id := m_id m; m_labels := m_labels m; m_fvalue := v;
     m_bounds := m_bounds m; m_counts := m_counts m |}.
Definition with_counts (c : list Z) (m : metric) : metric :=
  {| m_typ := m_typ m; m_name := m_name m; m_help := m_help m; m_id := m_id m; m_labels := m_labels m; m_fvalue := m_fvalue m;
     m_bounds := m_bounds m; m_counts := c |}.

Definition metric_Add (v : float64) (m : metric) : metric := with_value (f64_add (m_fvalue m) v) m.
Definition metric_Set (v : float64) (m : metric) : metric := with_value v m.

(** [sort.SearchFloat64s]: the first position whose bound is not below the value. *)
Fixpoint SearchFloat64s (bounds : list float64) (v : float64) : nat :=
  match bounds with
  | b :: bounds => if f64_lt b v then S (SearchFloat64s bounds v) else O
  | [] => O
  end.
Definition bucket_of (bounds : list float64) (v : float64) : nat :=
  match bounds with
  | [] => O
  | b :: _ =>
    if f64_lt v b then O else
    let idx := SearchFloat64s bounds v in
    match bounds !! idx with Some b => if f64_eqb v b then S idx else idx | None => idx end
  end.
Definition metric_Put (v : float64) (m : metric) : metric :=
  let idx := bucket_of (m_bounds m) v in
  let m := with_counts (alter (fun n => u64 (n + 1)) idx (m_counts m)) m in
  if f64_eqb v (F 0 0) then m else with_value (f64_add (m_fvalue m) v) m.

(** The operations of the maps: [Add] and [Set] of counters and gauges, [Add] of histograms. *)
Definition on_metric (f : metric -> metric) (l : Label) (mr : metricMap * registry) : metricMap * registry :=
  let '(r, mm, i) := metric_get l (fst mr) (snd mr) in
  (mm, {| reg_names := reg_names r; reg_metrics := alter f i (reg_metrics r); reg_nextID := reg_nextID r |}).
Definition map_Add (name item : string) (v : float64) := on_metric (metric_Add v) {| lb_Name := name; lb_Item := item |}.
Definition map_Set (name item : string) (v : float64) := on_metric (metric_Set v) {| lb_Name := name; lb_Item := item |}.
Definition histogram_Add (name item : string) (v : float64) := on_metric (metric_Put v) {| lb_Name := name; lb_Item := item |}.

Definition RegisterCounterMap (name help : string) := register metricTypeCounter name help [].
Definition RegisterGaugeMap (name help : string) := register metricTypeGauge name help [].
Definition RegisterHistogramMap (name help : string) (buckets : list float64) := register metricTypeHistogram name help buckets.

Fixpoint grow (count : nat) (start factor : float64) : list float64 :=
  match count with O => [] | S n => start :: grow n (f64_mul start factor) factor end.
Definition NewBuckets (start factor : float64) (count : Z) : result (list float64) :=
  if count <? 1 then Err "panic: NewBuckets needs a positive count"
  else if negb (f64_gt start (F 0 0)) then Err "panic: NewBuckets needs a positive start value"
  else if negb (f64_gt factor (F 1 0)) then Err "panic: NewBuckets needs a factor greater than 1"
  else Ok (grow (Z.to_nat count) start factor).

(** [RegisterComplexMap]: three metrics under one name, kept for the next call. *)
Record complexMap := { cx_counter : metricMap; cx_gauge : metricMap; cx_histogram : metricMap }.
Definition RegisterComplexMap (name help : string) (buckets : list float64) (cache : gmap string complexMap) (r : registry) :
  result (registry * gmap string complexMap * complexMap) :=
  match cache !! name with
  | Some m => Ok (r, cache, m)
  | None =>
    let? x := register metricTypeCounter (name +:+ "_counter") help [] r in
    let? y := register metricTypeGauge (name +:+ "_gauge") help [] (fst x) in
    let? z := register metricTypeHistogram (name +:+ "_histogram") help buckets (fst y) in
    let m := {| cx_counter := snd x; cx_gauge := snd y; cx_histogram := snd z |} in
    Ok (fst z, <[name := m]> cache, m)
  end.
(** [h] is a duration in nanoseconds: [Seconds] adds the whole seconds and the rest. *)
Definition duration_Seconds (h : Z) : float64 :=
  f64_add (f64_of_int (Z.quot h 1000000000)) (f64_div (f64_of_int (Z.rem h 1000000000)) (f64_of_int 1000000000)).
Definition complex_Add (name item : string) (c g : float64) (h : Z) (m : complexMap) (r : registry) : complexMap * registry :=
  let l := {| lb_Name := name; lb_Item := item |} in
  let '(cm, r) := if f64_gt c (F 0 0) then on_metric (metric_Add c) l (cx_counter m, r) else (cx_counter m, r) in
  let '(gm, r) := if f64_eqb g (F 0 0) then (cx_gauge m, r) else on_metric (metric_Add g) l (cx_gauge m, r) in
  let '(hm, r) := if 0 <=? h then on_metric (metric_Put (duration_Seconds h)) l (cx_histogram m, r) else (cx_histogram m, r) in
  ({| cx_counter := cm; cx_gauge := gm; cx_histogram := hm |}, r).

(** * The text *)

Definition nl : string := String "010" "".
Definition quote : string := String "034" "".
Definition escape_char (c : ascii) : string :=
  if isc "\" c then "\\" else if isc "010" c then "\n" else if isc "034" c then "\" +:+ quote else String c "".
Fixpoint EscapeLabel (v : string) : string :=
  match v with "" => "" | String c v => escape_char c +:+ EscapeLabel v end.

Definition metric_before (a b : metric) : bool :=
  str_lt (m_name a) (m_name b) || (bool_decide (m_name a = m_name b) && (m_id a <? m_id b)).
(** Labels sorted by their names, [item] before [name], and the bound of a bucket. *)
Definition writeLabels (l : Label) (le : option string) : string :=
  "{item=" +:+ quote +:+ EscapeLabel (lb_Item l) +:+ quote +:+ ",name=" +:+ quote +:+ EscapeLabel (lb_Name l) +:+ quote +:+
  match le with Some le => ",le=" +:+ quote +:+ le +:+ quote | None => "" end +:+ "}".
Definition writeEntry (name : string) (value : float64) (suffix : string) (l : Label) (le : option string) : string :=
  name +:+ suffix +:+ writeLabels l le +:+ " " +:+ FormatFloat value +:+ nl.

(** The cumulated counts of a histogram, one for every bound and one for all. *)
Fixpoint cumulate (count : Z) (counts : list Z) : list Z :=
  match counts with [] => [] | n :: counts => let count := u64 (count + n) in count :: cumulate count counts end.
Definition bucket_lines (m : metric) : string :=
  let cum := cumulate 0 (m_counts m) in
  foldr (fun bn acc => writeEntry (m_name m) (f64_of_int (snd bn)) "_bucket" (m_labels m) (Some (FormatFloat (fst bn))) +:+ acc) "" (zip (m_bounds m) cum).
Definition histogram_lines (m : metric) : string :=
  let total := f64_of_int (List.last (cumulate 0 (m_counts m)) 0) in
  bucket_lines m +:+ writeEntry (m_name m) total "_bucket" (m_labels m) (Some "+Inf") +:+
  writeEntry (m_name m) (m_fvalue m) "_sum" (m_labels m) None +:+ writeEntry (m_name m) total "_count" (m_labels m) None.
Definition metric_type_text (t : metricType) : string :=
  match t with metricTypeHistogram => "histogram" | metricTypeCounter => "counter" | _ => "gauge" end.
Definition translateMetricGroup (group : list metric) : string :=
  match group with
  | [] => ""
  | head :: _ =>
    (if bool_decide (m_help head = "") then "" else "# HELP " +:+ m_name head +:+ " " +:+ m_help head +:+ nl) +:+
    "# TYPE " +:+ m_name head +:+ " " +:+ metric_type_text (m_typ head) +:+ nl +:+
    (if bool_decide (m_typ head = metricTypeHistogram) then join nl (map histogram_lines group)
     else foldr (fun m acc => writeEntry (m_name m) (m_fvalue m) "" (m_labels m) None +:+ acc) "" group) +:+ nl
  end.
(** Runs of metrics of one name. *)
Fixpoint groups (ms : list metric) : list (list metric) :=
  match ms with
  | [] => []
  | m :: ms =>
    match groups ms with
    | ((m' :: _) as g) :: gs => if bool_decide (m_name m = m_name m') then (m :: g) :: gs else [m] :: g :: gs
    | gs => [m] :: gs
    end
  end.
Definition writePrometheusText (ms : list metric) : string :=
  foldr (fun g acc => translateMetricGroup g +:+ acc) "" (groups (insertion_sort metric_before ms)).
(** [WriteTo] *)
Definition WriteTo (r : registry) : string := writePrometheusText (reg_metrics r).

(** * The metrics of the control plane *)

Record process_metrics := {
  pm_rpcTotal : metricMap; pm_rpcLatency : metricMap; pm_goGoroutines : metricMap; pm_goHeapBytes : metricMap;
  pm_goGCCycles : metricMap; pm_auditRecords : metricMap; pm_role : metricMap; pm_registry : registry }.
Definition f64_0_0005 : float64 := f64_div (f64_of_int 5) (f64_of_int 10000).
Definition f64_1_5 : float64 := F 3 (-1).
Definition init_metrics (r : registry) : result process_metrics :=
  let? a := RegisterCounterMap "innerstack_rpc_total" "gRPC unary calls by method and result" r in
  let? buckets := NewBuckets f64_0_0005 f64_1_5 24 in
  let? b := RegisterHistogramMap "innerstack_rpc_latency_seconds" "gRPC unary latency in seconds" buckets (fst a) in
  let? c := RegisterGaugeMap "innerstack_go_goroutines" "Number of goroutines" (fst b) in
  let? d := RegisterGaugeMap "innerstack_go_heap_bytes" "Go heap allocation in bytes" (fst c) in
  let? e := RegisterCounterMap "innerstack_go_gc_cycles_total" "Completed GC cycles" (fst d) in
  let? f := RegisterCounterMap "innerstack_audit_records_total" "Audit records written or dropped" (fst e) in
  let? g := RegisterGaugeMap "innerstack_role" "Zonelet role of this process (1 = active)" (fst f) in
  Ok {| pm_rpcTotal := snd a; pm_rpcLatency := snd b; pm_goGoroutines := snd c; pm_goHeapBytes := snd d; pm_goGCCycles := snd e;
        pm_auditRecords := snd f; pm_role := snd g; pm_registry := fst g |}.

(** [methodName]: what follows [/inapi.], or all but a leading slash. *)
Fixpoint cut_after (sep s : string) : option string :=
  match cut_prefix sep s with
  | Some rest => Some rest
  | None => match s with "" => None | String _ s => cut_after sep s end
  end.
Definition methodName (fullMethod : string) : string :=
  match cut_after "/inapi." fullMethod with
  | Some method => method
  | None => match fullMethod with String "/" s => s | _ => fullMethod end
  end.
(** [UnaryInterceptor] after the handler: the kind of its outcome, and its time. *)
Definition UnaryInterceptor (fullMethod kind : string) (seconds : float64) (p : process_metrics) : process_metrics :=
  let method := methodName fullMethod in
  let '(total, r) := map_Add method kind (F 1 0) (pm_rpcTotal p, pm_registry p) in
  let '(latency, r) := histogram_Add method "latency" seconds (pm_rpcLatency p, r) in
  {| pm_rpcTotal := total; pm_rpcLatency := latency; pm_goGoroutines := pm_goGoroutines p; pm_goHeapBytes := pm_goHeapBytes p;
     pm_goGCCycles := pm_goGCCycles p; pm_auditRecords := pm_auditRecords p; pm_role := pm_role p; pm_registry := r |}.
Definition runtimeRefresh (goroutines heap gcs : Z) (p : process_metrics) : process_metrics :=
  let '(a, r) := map_Set "go" "goroutines" (f64_of_int goroutines) (pm_goGoroutines p, pm_registry p) in
  let '(b, r) := map_Set "go" "heap_alloc" (f64_of_int heap) (pm_goHeapBytes p, r) in
  let '(c, r) := map_Set "go" "gc_cycles" (f64_of_int gcs) (pm_goGCCycles p, r) in
  {| pm_rpcTotal := pm_rpcTotal p; pm_rpcLatency := pm_rpcLatency p; pm_goGoroutines := a; pm_goHeapBytes := b;
     pm_goGCCycles := c; pm_auditRecords := pm_auditRecords p; pm_role := pm_role p; pm_registry := r |}.
Definition renderProcess (leader : bool) (audit : option (Z * Z)) (p : process_metrics) : process_metrics :=
  let '(role, r) := map_Set "zonelet" "leader" (F (if leader then 1 else 0) 0) (pm_role p, pm_registry p) in
  let '(role, r) := map_Set "zonelet" "standby" (F (if leader then 0 else 1) 0) (role, r) in
  let '(records, r) :=
    match audit with
    | Some (written, dropped) => map_Set "audit" "dropped" (f64_of_int dropped) (map_Set "audit" "written" (f64_of_int written) (pm_auditRecords p, r))
    | None => (pm_auditRecords p, r)
    end in
  {| pm_rpcTotal := pm_rpcTotal p; pm_rpcLatency := pm_rpcLatency p; pm_goGoroutines := pm_goGoroutines p; pm_goHeapBytes := pm_goHeapBytes p;
     pm_goGCCycles := pm_goGCCycles p; pm_auditRecords := records; pm_role := role; pm_registry := r |}.
