(* ===== verification/MetricsPage.v ===== *)
(** The pages of metrics: the endpoints and the writer of families ([src/internal/metricspage]),
    and what the leader and a host contribute ([metrics_export.go] of [src/internal/zonelet]
    and [src/internal/hostlet]).

    A section renders the state [W] of the process into text. *)
From Stdlib Require Import ZArith Lia.
From S2P Require Import Prelude GoStrings GoFloat GoFloatText StateFlow Zone Metrics Hostlet MetricRegistry.
Local Open Scope string_scope.
Local Open Scope Z_scope.
Local Open Scope go_scope.

(** * Endpoints *)

Record Section_ (W : Type) := { se_Name : string; se_Render : option (W -> string) }.
Arguments se_Name {W} _. Arguments se_Render {W} _.
Record pages (W : Type) := { pg_enabled : bool; pg_token : string; pg_main : list (Section_ W); pg_replicas : list (Section_ W) }.
Arguments pg_enabled {W} _. Arguments pg_token {W} _. Arguments pg_main {W} _. Arguments pg_replicas {W} _.

Section endpoints.
Context {W : Type}.

Definition metrics_Setup (on : bool) (authToken : string) (p : pages W) : pages W :=
  {| pg_enabled := on; pg_token := authToken; pg_main := pg_main p; pg_replicas := pg_replicas p |}.
Definition addSection (s : Section_ W) (dst : list (Section_ W)) : list (Section_ W) :=
  match se_Render s with
  | Some _ => if bool_decide (se_Name s = "") then dst else (dst ++ [s])%list
  | None => dst
  end.
Definition metrics_Register (s : Section_ W) (p : pages W) : pages W :=
  {| pg_enabled := pg_enabled p; pg_token := pg_token p; pg_main := addSection s (pg_main p); pg_replicas := pg_replicas p |}.
Definition RegisterReplicas (s : Section_ W) (p : pages W) : pages W :=
  {| pg_enabled := pg_enabled p; pg_token := pg_token p; pg_main := pg_main p; pg_replicas := addSection s (pg_replicas p) |}.

(** Status and body. *)
Definition render_section (w : W) (s : Section_ W) : string :=
  "# section: " +:+ se_Name s +:+ nl +:+ match se_Render s with Some f => f w | None => "" end.
Definition serve (replicas : bool) (authorization : string) (w : W) (p : pages W) : Z * string :=
  let sections := if replicas then pg_replicas p else pg_main p in
  if negb (pg_enabled p) then (404, "404 page not found" +:+ nl)
  else if negb (bool_decide (pg_token p = "")) && negb (bool_decide (authorization = "Bearer " +:+ pg_token p)) then (401, "unauthorized" +:+ nl)
  else match sections with
       | [] => (404, "no metrics sections registered" +:+ nl)
       | _ => (200, foldr (fun s acc => render_section w s +:+ acc) "" sections)
       end.
End endpoints.

(** * Families *)

Record family := { fa_metric : string; fa_help : string; fa_lines : list string }.
Abbreviation FamilyWriter := (list family).

Definition gauge_line (metric name item : string) (v : float64) : string :=
  metric +:+ "{name=" +:+ quote +:+ EscapeLabel name +:+ quote +:+ ",item=" +:+ quote +:+ EscapeLabel item +:+ quote +:+ "} " +:+ FormatFloat v.
Definition add_line (line : string) (f : family) : family :=
  {| fa_metric := fa_metric f; fa_help := fa_help f; fa_lines := (fa_lines f ++ [line])%list |}.
Fixpoint add_to_family (metric help line : string) (fw : FamilyWriter) : FamilyWriter :=
  match fw with
  | [] => [{| fa_metric := metric; fa_help := help; fa_lines := [line] |}]
  | f :: fw => if bool_decide (fa_metric f = metric) then add_line line f :: fw else f :: add_to_family metric help line fw
  end.
(** A call of [Gauge]. *)
Record gauge := { ga_metric : string; ga_help : string; ga_name : string; ga_item : string; ga_value : float64 }.
Definition Gauge (fw : FamilyWriter) (g : gauge) : FamilyWriter :=
  add_to_family (ga_metric g) (ga_help g) (gauge_line (ga_metric g) (ga_name g) (ga_item g) (ga_value g)) fw.
Definition family_text (f : family) : string :=
  "# HELP " +:+ fa_metric f +:+ " " +:+ fa_help f +:+ nl +:+ "# TYPE " +:+ fa_metric f +:+ " gauge" +:+ nl +:+
  foldr (fun l acc => l +:+ nl +:+ acc) "" (fa_lines f).
Definition Flush (fw : FamilyWriter) : string := foldr (fun f acc => family_text f +:+ acc) "" fw.
Definition write_gauges (gs : list gauge) : string := Flush (foldl Gauge [] gs).

Definition int_gauge (metric help name item : string) (v : Z) : gauge :=
  {| ga_metric := metric; ga_help := help; ga_name := name; ga_item := item; ga_value := f64_of_int v |}.
Definition per_window (v : Z) : Z := Z.quot v Window1Min.

(** [WriteReplicaGauges] *)
Definition replica_gauges (name : string) (m : option NodeMetrics) : list gauge :=
  match m with
  | None => []
  | Some m =>
    if bool_decide (name = "") then [] else
    let io := int_gauge "innerstack_replica_io_bytes_per_sec" "Replica IO bytes per second (1min window)" name in
    [int_gauge "innerstack_replica_cpu_millicores" "Replica CPU usage in millicores" name "used" (per_window (nm_CpuUser m +64 nm_CpuSys m));
     int_gauge "innerstack_replica_memory_bytes" "Replica memory usage in bytes" name "used" (nm_MemUsed m);
     io "net_recv" (per_window (nm_NetRecvBytes m)); io "net_sent" (per_window (nm_NetSentBytes m));
     io "disk_read" (per_window (nm_DiskReadBytes m)); io "disk_write" (per_window (nm_DiskWriteBytes m))]
  end.

(** * The leader *)

Definition host_known (hs : HostStatus) : bool := negb (bool_decide (hs_HostId hs = "")).
Definition host_age (now : Z) (hs : HostStatus) : Z := now -64 hs_Updated hs.
Definition host_is_stale (now freshLimit : Z) (hs : HostStatus) : bool := freshLimit <? host_age now hs.
Definition count_if {A} (p : A -> bool) (l : list A) : Z := Z.of_nat (length (List.filter p l)).
Definition deleting (a : AppInstance) : bool := bool_decide (ad_Action (ai_Deploy a) = OpActionDelete).
Definition shown_state (rep : AppDeployReplica) : string := if bool_decide (dr_State rep = "") then "placed" else dr_State rep.
Definition count_state (m : gmap string Z) (state : string) : gmap string Z := <[state := default 0 (m !! state) + 1]> m.
Definition replica_states (apps : list AppInstance) : gmap string Z :=
  foldl (fun m a => if deleting a then m else foldl (fun m rep => count_state m (shown_state rep)) m (ad_Replicas (ai_Deploy a))) ∅ apps.

Section zonelet.
Context `{MapRange}.

Definition zonelet_gauges (zone : string) (now freshLimit : Z) (status : gmap string HostStatus) (apps : list AppInstance) : list gauge :=
  let hosts := List.filter host_known (map snd (map_range status)) in
  (map (fun hs => int_gauge "innerstack_host_report_age_seconds" "Seconds since the host's last status report" (hs_HostId hs) "age" (host_age now hs)) hosts ++
   [int_gauge "innerstack_zone_hosts" "Zone hosts by report freshness" zone "total" (Z.of_nat (length hosts));
    int_gauge "innerstack_zone_hosts" "Zone hosts by report freshness" zone "fresh" (count_if (fun hs => negb (host_is_stale now freshLimit hs)) hosts);
    int_gauge "innerstack_zone_hosts" "Zone hosts by report freshness" zone "stale" (count_if (host_is_stale now freshLimit) hosts);
    int_gauge "innerstack_app_instances" "App instances in the zone" zone "total" (count_if (fun a => negb (deleting a)) apps);
    int_gauge "innerstack_app_instances" "App instances in the zone" zone "deleted" (count_if deleting apps)] ++
   map (fun kv => int_gauge "innerstack_app_replicas" "App replicas in the zone by desired state" zone (fst kv) (snd kv)) (map_range (replica_states apps)))%list.
Definition renderZoneletMetrics (leader : bool) (zone : string) (now freshLimit : Z) (status : gmap string HostStatus) (apps : list AppInstance) : string :=
  if negb leader || bool_decide (zone = "") then write_gauges [] else write_gauges (zonelet_gauges zone now freshLimit status apps).
Definition renderZoneReplicaMetrics (leader : bool) (c : replicaMetricsCache) : string :=
  if negb leader then "" else write_gauges (map_range c ≫= fun kv => replica_gauges (fst kv) (Some (snd kv))).

(** * A host *)

Definition host_gauges (id : string) (uptime : Z) (hs : HostStatus) : list gauge :=
  [int_gauge "innerstack_host_cpu_millicores" "Host CPU usage in millicores" id "used" (per_window (hs_CpuSys hs +64 hs_CpuUser hs));
   {| ga_metric := "innerstack_host_cpu_millicores"; ga_help := "Host CPU usage in millicores"; ga_name := id; ga_item := "total";
      ga_value := f64_mul (f64_of_int (hs_CpuCores hs)) (f64_of_int 1000) |};
   int_gauge "innerstack_host_memory_bytes" "Host memory in bytes" id "total" (hs_MemTotal hs);
   int_gauge "innerstack_host_memory_bytes" "Host memory in bytes" id "used" (hs_MemUsed hs);
   int_gauge "innerstack_host_memory_bytes" "Host memory in bytes" id "available" (hs_MemAvailable hs);
   int_gauge "innerstack_host_disk_bytes" "Host data disk in bytes" id "total" (hs_DiskTotalBytes hs);
   int_gauge "innerstack_host_disk_bytes" "Host data disk in bytes" id "free" (hs_DiskFreeBytes hs);
   int_gauge "innerstack_host_disk_io_bytes_per_sec" "Host disk IO bytes per second (1min window)" id "read" (per_window (hs_DiskReadBytes hs));
   int_gauge "innerstack_host_disk_io_bytes_per_sec" "Host disk IO bytes per second (1min window)" id "write" (per_window (hs_DiskWriteBytes hs));
   int_gauge "innerstack_host_net_bytes_per_sec" "Host network bytes per second (1min window)" id "recv" (per_window (hs_NetRecvBytes hs));
   int_gauge "innerstack_host_net_bytes_per_sec" "Host network bytes per second (1min window)" id "sent" (per_window (hs_NetSentBytes hs));
   int_gauge "innerstack_host_uptime_seconds" "Host uptime in seconds" id "uptime" uptime].
Definition container_states (containers : gmap string ContainerInfo) : gmap string Z :=
  foldl (fun m kv => count_state m (ci_State (snd kv))) ∅ (map_range containers).
(** [slices.Sorted(maps.Keys(states))] *)
Definition sorted_states (states : gmap string Z) : list (string * Z) := insertion_sort (fun a b => str_lt (fst a) (fst b)) (map_range states).
Definition renderHostletMetrics (hostId driver : string) (uptime : Z) (hs : HostStatus) (drivers : gmap string Z)
  (containers : gmap string ContainerInfo) (stats : gmap string (option NodeMetrics)) : string :=
  if bool_decide (hostId = "") then "" else
  write_gauges
    (host_gauges hostId uptime hs ++
     map (fun kv => int_gauge "innerstack_host_containers" "Containers per driver" hostId (fst kv) (snd kv)) (map_range drivers) ++
     (if bool_decide (driver = "") then []
      else map (fun kv => int_gauge "innerstack_container_states" "Local container count by state" driver (fst kv) (snd kv))
             (sorted_states (container_states containers))) ++
     (map_range stats ≫= fun kv => replica_gauges (fst kv) (snd kv)))%list.
End zonelet.
