(* ===== verification/MetricsPageLogic.v ===== *)
(** The pages of metrics: the counts of a histogram are exact, every family is written once
    with all its samples, a label reads back from its escaped form, the totals of a zone are
    those of its records, and what falls short: a value on a bound of a bucket is not counted
    below it. *)
From Stdlib Require Import ZArith Lia Ascii.
From S2P Require Import Prelude GoStrings GoFloat GoFloatText StateFlow Zone Metrics Hostlet MetricRegistry MetricsPage.
Local Open Scope string_scope.
Local Open Scope Z_scope.

(** * Order of floats *)

(** The comparison at any exponent below both. *)
Lemma f64_lt_at x y e : e <= f_exp x -> e <= f_exp y ->
  f64_lt x y = (f_man x * 2 ^ (f_exp x - e) <? f_man y * 2 ^ (f_exp y - e)).
Proof.
  intros Hx Hy. unfold f64_lt, f64_gt. set (mn := Z.min (f_exp y) (f_exp x)).
  assert (Hm : e <= mn) by lia. assert (P : 0 < 2 ^ (mn - e)) by (apply Z.pow_pos_nonneg; lia).
  replace (2 ^ (f_exp x - e)) with (2 ^ (f_exp x - mn) * 2 ^ (mn - e)) by (rewrite <- Z.pow_add_r by lia; f_equal; lia).
  replace (2 ^ (f_exp y - e)) with (2 ^ (f_exp y - mn) * 2 ^ (mn - e)) by (rewrite <- Z.pow_add_r by lia; f_equal; lia).
  rewrite !Z.mul_assoc. set (a := f_man x * _). set (b := f_man y * _). clearbody a b.
  destruct (Z.ltb_spec a b), (Z.ltb_spec (a * 2 ^ (mn - e)) (b * 2 ^ (mn - e))); try done; nia.
Qed.
Definition common (x y z : float64) : Z := Z.min (f_exp x) (Z.min (f_exp y) (f_exp z)).
Lemma f64_lt_trans x y z : f64_lt x y = true -> f64_lt y z = true -> f64_lt x z = true.
Proof. rewrite !(f64_lt_at _ _ (common x y z)) by (unfold common; lia). rewrite !Z.ltb_lt. lia. Qed.
Lemma f64_le_lt_trans x y z : f64_lt y x = false -> f64_lt y z = true -> f64_lt x z = true.
Proof. rewrite !(f64_lt_at _ _ (common x y z)) by (unfold common; lia). rewrite !Z.ltb_lt, !Z.ltb_ge. lia. Qed.
Lemma f64_lt_asym x y : f64_lt x y = true -> f64_lt y x = false.
Proof. rewrite !(f64_lt_at _ _ (common x y y)) by (unfold common; lia). rewrite !Z.ltb_lt, !Z.ltb_ge. lia. Qed.
Lemma f64_eqb_lt x y : f64_eqb x y = negb (f64_lt x y) && negb (f64_lt y x).
Proof. unfold f64_eqb, f64_lt. by rewrite andb_comm. Qed.

(** * Histograms *)

Lemma ascending_head b l k c : ascending (b :: l) = true -> l !! k = Some c -> f64_lt b c = true.
Proof.
  revert b k. induction l as [|d l IH]; intros b k Ha Hk; [done|]. cbn in Ha. apply andb_true_iff in Ha as [Hbd Ha].
  destruct k as [|k]; cbn in Hk; [by injection Hk as ->|]. eapply f64_lt_trans; [exact Hbd|]. by eapply IH.
Qed.
Lemma ascending_tail b l : ascending (b :: l) = true -> ascending l = true.
Proof. destruct l; cbn; [done|]. by intros [_ ?]%andb_true_iff. Qed.

(** The bucket as a scan: the first bound above the value. *)
Fixpoint first_above (bounds : list float64) (v : float64) : nat :=
  match bounds with [] => O | b :: bounds => if f64_lt v b then O else S (first_above bounds v) end.
Lemma first_above_all bounds v : (forall k c, bounds !! k = Some c -> f64_lt v c = true) -> first_above bounds v = O.
Proof. destruct bounds as [|b l]; intros Hb; cbn; [done|]. by rewrite (Hb 0%nat b). Qed.
Lemma bucket_first_above bounds v : ascending bounds = true -> bucket_of bounds v = first_above bounds v.
Proof.
  intros Ha.
  assert (Hs : forall l, ascending l = true ->
    match l !! SearchFloat64s l v with Some b => if f64_eqb v b then S (SearchFloat64s l v) else SearchFloat64s l v | None => SearchFloat64s l v end = first_above l v).
  { induction l as [|b l IH]; intros Hl; [done|]. cbn [SearchFloat64s first_above]. destruct (f64_lt b v) eqn:Ebv.
    - rewrite (f64_lt_asym _ _ Ebv). cbn [lookup list_lookup]. rewrite <- (IH (ascending_tail _ _ Hl)).
      change (list_lookup (SearchFloat64s l v) l) with (l !! SearchFloat64s l v). destruct (l !! _); [|done]. by destruct (f64_eqb v f).
    - cbn. rewrite f64_eqb_lt, Ebv. destruct (f64_lt v b) eqn:Evb; cbn; [done|]. symmetry. f_equal. apply first_above_all.
      intros k c Hk. eapply f64_le_lt_trans; [exact Ebv|]. by eapply ascending_head. }
  destruct bounds as [|b l]; [done|]. unfold bucket_of. cbn [first_above]. destruct (f64_lt v b) eqn:E; [done|].
  rewrite (Hs (b :: l) Ha). cbn. by rewrite E.
Qed.
(** A value is below a bound exactly if its bucket is not after it. *)
Lemma bucket_spec bounds v k b : ascending bounds = true -> bounds !! k = Some b -> f64_lt v b = bool_decide (bucket_of bounds v <= k)%nat.
Proof.
  intros Ha. rewrite bucket_first_above by done. revert k. induction bounds as [|c l IH]; intros k Hk; [done|]. cbn [first_above].
  destruct k as [|k]; cbn in Hk.
  - injection Hk as ->. destruct (f64_lt v b); [by rewrite bool_decide_eq_true_2 by lia|by rewrite bool_decide_eq_false_2 by lia].
  - destruct (f64_lt v c) eqn:E.
    + rewrite bool_decide_eq_true_2 by lia. eapply f64_lt_trans; [exact E|]. by eapply ascending_head.
    + rewrite (IH (ascending_tail _ _ Ha) k Hk). apply bool_decide_ext. lia.
Qed.
Lemma bucket_range bounds v : ascending bounds = true -> (bucket_of bounds v <= length bounds)%nat.
Proof. intros Ha. rewrite bucket_first_above by done. clear. induction bounds as [|b l IH]; cbn; [lia|]. destruct (f64_lt v b); lia. Qed.

(** The counts after some observations. *)
Definition bucket_count (bounds : list float64) (vs : list float64) (k : nat) : Z :=
  count_if (fun v => bool_decide (bucket_of bounds v = k)) vs.
Definition counts_of (bounds vs : list float64) : list Z :=
  map (fun k => u64 (bucket_count bounds vs k)) (seq 0 (S (length bounds))).

Lemma count_if_app {A} (p : A -> bool) l l' : count_if p (l ++ l') = count_if p l + count_if p l'.
Proof. unfold count_if. rewrite List.filter_app, length_app. lia. Qed.
Lemma u64_add_l a b : u64 (u64 a + b) = u64 (a + b).
Proof. unfold u64, wrap_u. by rewrite Zplus_mod_idemp_l. Qed.
Lemma u64_add_r a b : u64 (a + u64 b) = u64 (a + b).
Proof. unfold u64, wrap_u. by rewrite Zplus_mod_idemp_r. Qed.

Lemma counts_put bounds vs v : ascending bounds = true ->
  alter (fun n => u64 (n + 1)) (bucket_of bounds v) (counts_of bounds vs) = counts_of bounds (vs ++ [v]).
Proof.
  intros Ha. pose proof (bucket_range bounds v Ha) as Hr. apply list_eq. intros k. unfold counts_of.
  change (map ?f ?l) with (f <$> l). rewrite list_lookup_fmap.
  destruct (decide (k = bucket_of bounds v)) as [->|Hk].
  - rewrite list_lookup_alter_eq, list_lookup_fmap, lookup_seq_lt by lia. cbn. f_equal. rewrite u64_add_l. f_equal.
    unfold bucket_count. rewrite count_if_app. f_equal. unfold count_if. cbn. by rewrite bool_decide_eq_true_2.
  - rewrite list_lookup_alter_ne, list_lookup_fmap by done. destruct (seq 0 _ !! k) as [j|] eqn:Ej; [|done]. cbn. f_equal. f_equal.
    apply lookup_seq in Ej as [-> _]. unfold bucket_count. rewrite count_if_app. unfold count_if at 3. cbn.
    rewrite bool_decide_eq_false_2 by lia. cbn. lia.
Qed.

Lemma cumulate_lookup c l k : (k < length l)%nat -> cumulate c l !! k = Some (u64 (c + foldr Z.add 0 (take (S k) l))).
Proof.
  revert c k. induction l as [|n l IH]; intros c k Hk; cbn in Hk; [lia|]. cbn [cumulate]. destruct k as [|k]; cbn [lookup list_lookup].
  - cbn. rewrite take_0. cbn. do 2 f_equal. lia.
  - change (list_lookup k ?x) with (x !! k). rewrite IH by lia. cbn [take foldr]. rewrite u64_add_l. do 2 f_equal. lia.
Qed.
Lemma cumulate_length c l : length (cumulate c l) = length l.
Proof. revert c. induction l as [|n l IH]; intros c; cbn; [done|]. by rewrite IH. Qed.

Lemma count_upto bounds vs k : u64 (foldr Z.add 0 (map (fun k => u64 (bucket_count bounds vs k)) (seq 0 k))) =
  u64 (count_if (fun v => bool_decide (bucket_of bounds v < k)%nat) vs).
Proof.
  induction k as [|k IH].
  - cbn. f_equal. unfold count_if. rewrite (List.filter_ext _ (fun _ => false)); [by induction vs|]. intros v. by apply bool_decide_eq_false_2; lia.
  - rewrite seq_S, map_app, foldr_app. cbn [map foldr].
    assert (Hf : forall l (a : Z), foldr Z.add a l = foldr Z.add 0 l + a) by (induction l as [|x l IHl]; intros a; cbn; [lia|rewrite IHl; lia]).
    change (0 + k)%nat with k. rewrite Hf, <- u64_add_l, IH, Z.add_0_r, u64_add_l, u64_add_r. f_equal. unfold bucket_count, count_if. clear.
    induction vs as [|v vs IHv]; [done|]. cbn.
    destruct (decide (bucket_of bounds v < k)%nat) as [H1|H1].
    + rewrite (bool_decide_eq_true_2 (bucket_of bounds v < k)%nat) by done.
      rewrite (bool_decide_eq_true_2 (bucket_of bounds v < S k)%nat) by lia.
      rewrite (bool_decide_eq_false_2 (bucket_of bounds v = k)) by lia. cbv match; cbn [length]; lia.
    + rewrite (bool_decide_eq_false_2 (bucket_of bounds v < k)%nat) by done.
      destruct (decide (bucket_of bounds v = k)) as [H2|H2].
      * rewrite (bool_decide_eq_true_2 (bucket_of bounds v < S k)%nat) by lia. rewrite (bool_decide_eq_true_2 (bucket_of bounds v = k)) by done. cbv match; cbn [length]; lia.
      * rewrite (bool_decide_eq_false_2 (bucket_of bounds v < S k)%nat) by lia. rewrite (bool_decide_eq_false_2 (bucket_of bounds v = k)) by done. cbv match; lia.
Qed.

(** What is written for a bound is the number of values below it; for all, that of all. *)
Lemma cumulated_counts bounds vs k b : ascending bounds = true -> bounds !! k = Some b ->
  cumulate 0 (counts_of bounds vs) !! k = Some (u64 (count_if (fun v => f64_lt v b) vs)).
Proof.
  intros Ha Hk. pose proof (lookup_lt_Some _ _ _ Hk) as Hl. rewrite cumulate_lookup by (unfold counts_of; rewrite length_map, length_seq; lia).
  f_equal. rewrite Z.add_0_l. unfold counts_of. change (map ?f ?l) with (f <$> l). rewrite <- fmap_take. rewrite take_seq.
  replace (S k `min` S (length bounds))%nat with (S k) by lia. change (?f <$> ?l) with (map f l). rewrite count_upto. f_equal. unfold count_if. f_equal. f_equal.
  apply List.filter_ext. intros v. rewrite (bucket_spec bounds v k b Ha Hk). apply bool_decide_ext. lia.
Qed.
Lemma last_at {A} (l : list A) k x d : l !! k = Some x -> length l = S k -> List.last l d = x.
Proof.
  revert k. induction l as [|y l IH]; intros k Hk Hl; [done|]. destruct k as [|k]; cbn in Hk, Hl.
  - destruct l; [by injection Hk|done].
  - destruct l as [|z l]; [done|]. change (List.last (z :: l) d = x). eapply IH; [exact Hk|]. lia.
Qed.
Lemma cumulated_total bounds vs : ascending bounds = true -> List.last (cumulate 0 (counts_of bounds vs)) 0 = u64 (Z.of_nat (length vs)).
Proof.
  intros Ha. assert (Hl : length (counts_of bounds vs) = S (length bounds)) by (unfold counts_of; by rewrite length_map, length_seq).
  eapply (last_at _ (length bounds)); [|by rewrite cumulate_length].
  rewrite cumulate_lookup by lia. f_equal. rewrite Z.add_0_l, take_ge by lia. unfold counts_of. rewrite count_upto. f_equal.
  unfold count_if. f_equal. rewrite (List.filter_ext _ (fun _ => true)); [clear; induction vs as [|v vs IH]; cbn; [done|by rewrite IH]|].
  intros v. apply bool_decide_eq_true_2. pose proof (bucket_range bounds v Ha). lia.
Qed.

(** Observations on one map, and the values of a label among them. *)
Definition observation := (string * string * float64)%type.
Definition observe_one (mr : metricMap * registry) (o : observation) : metricMap * registry := histogram_Add (fst (fst o)) (snd (fst o)) (snd o) mr.
Definition obs_label (o : observation) : Label := {| lb_Name := fst (fst o); lb_Item := snd (fst o) |}.
Definition values (l : Label) (os : list observation) : list float64 := map snd (List.filter (fun o => bool_decide (obs_label o = l)) os).

Record histogram_state (bounds : list float64) (os : list observation) (mm : metricMap) (r : registry) : Prop := {
  ht_typ : mc_typ (mm_config mm) = metricTypeHistogram;
  ht_bounds : mc_bounds (mm_config mm) = bounds;
  ht_none : forall l, mm_metrics mm !! l = None -> values l os = [];
  ht_some : forall l i, mm_metrics mm !! l = Some i -> exists m, reg_metrics r !! i = Some m /\ m_labels m = l /\ m_bounds m = bounds /\
    m_counts m = counts_of bounds (values l os) }.

Lemma values_snoc l os o : values l (os ++ [o]) = (values l os ++ if bool_decide (obs_label o = l) then [snd o] else [])%list.
Proof. unfold values. rewrite List.filter_app, map_app. cbn. by destruct (bool_decide _). Qed.
Lemma counts_of_nil bounds : counts_of bounds [] = replicate (S (length bounds)) 0.
Proof.
  unfold counts_of. apply list_eq. intros k. change (map ?f ?l) with (f <$> l). rewrite list_lookup_fmap.
  destruct (decide (k < S (length bounds))%nat) as [Hk|Hk].
  - rewrite lookup_seq_lt, lookup_replicate_2 by done. done.
  - rewrite lookup_seq_ge by lia. symmetry. apply lookup_ge_None. rewrite length_replicate. lia.
Qed.
Lemma Put_counts v m : m_counts (metric_Put v m) = alter (fun n => u64 (n + 1)) (bucket_of (m_bounds m) v) (m_counts m) /\
  m_labels (metric_Put v m) = m_labels m /\ m_bounds (metric_Put v m) = m_bounds m.
Proof. unfold metric_Put. by destruct (f64_eqb v (F 0 0)). Qed.

Lemma observe_state bounds os mm r o mm' r' : ascending bounds = true -> histogram_state bounds os mm r -> observe_one (mm, r) o = (mm', r') ->
  histogram_state bounds (os ++ [o]) mm' r'.
Proof.
  intros Ha [Ht Hb Hn Hs] E. unfold observe_one, histogram_Add, on_metric in E. fold (obs_label o) in E. unfold metric_get in E. cbn [fst snd] in E.
  destruct (mm_metrics mm !! obs_label o) as [i|] eqn:El.
  - injection E as <- <-. split; [done|done| |].
    + intros l Hl. rewrite values_snoc, (Hn l Hl). by rewrite bool_decide_eq_false_2 by congruence.
    + intros l j Hj. cbn [reg_metrics]. rewrite values_snoc. destruct (Hs l j Hj) as (m & Hm & El' & Eb & Ec). case_bool_decide as Eo.
      * assert (j = i) as -> by congruence. destruct (Put_counts (snd o) m) as (Pc & Pl & Pb). exists (metric_Put (snd o) m). rewrite list_lookup_alter_eq, Hm. split_and!; [done|congruence|congruence|].
        by rewrite Pc, Eb, Ec, counts_put.
      * rewrite list_lookup_alter_ne; [exists m; by rewrite app_nil_r|]. intros <-. destruct (Hs _ _ El) as (m' & Hm' & El'' & _). congruence.
  - unfold newMetric in E. rewrite Ht, Hb in E. rewrite bool_decide_eq_true_2 in E by done. injection E as <- <-. split; [done|done| |].
    + intros l Hl. cbn in Hl. apply lookup_insert_None in Hl as [Hl Hne]. rewrite values_snoc, (Hn l Hl). by rewrite bool_decide_eq_false_2.
    + intros l j Hj. cbn [mm_metrics reg_metrics] in *. rewrite values_snoc. apply lookup_insert_Some in Hj as [[<- <-]|[Hne Hj]].
      * set (m0 := {| m_typ := _ |}). destruct (Put_counts (snd o) m0) as (Pc & Pl & Pb). exists (metric_Put (snd o) m0).
        rewrite list_lookup_alter_eq, lookup_app_r, Nat.sub_diag by lia. split_and!; [done|by rewrite Pl|by rewrite Pb|].
        rewrite Pc. assert (Em : m_counts m0 = counts_of bounds []) by (by rewrite counts_of_nil). rewrite Em. change (m_bounds m0) with bounds.
        rewrite (Hn _ El), bool_decide_eq_true_2 by done. by apply counts_put.
      * destruct (Hs l j Hj) as (m & Hm & El' & Eb & Ec). exists m. pose proof (lookup_lt_Some _ _ _ Hm).
        rewrite list_lookup_alter_ne, lookup_app_l by lia. rewrite bool_decide_eq_false_2, app_nil_r by done. done.
Qed.

(** A histogram that was registered, after any observations: the number that is written for
    a bound is that of the values below it, and the total is that of all values. *)
Theorem histogram_counts_exact name help bounds r r0 mm0 os mm r' :
  RegisterHistogramMap name help bounds r = Ok (r0, mm0) -> foldl observe_one (mm0, r0) os = (mm, r') ->
  forall l, match mm_metrics mm !! l with
  | None => values l os = []
  | Some i => exists m, reg_metrics r' !! i = Some m /\ m_labels m = l /\ m_bounds m = bounds /\
      (forall k b, bounds !! k = Some b -> cumulate 0 (m_counts m) !! k = Some (u64 (count_if (fun v => f64_lt v b) (values l os)))) /\
      List.last (cumulate 0 (m_counts m)) 0 = u64 (Z.of_nat (length (values l os)))
  end.
Proof.
  unfold RegisterHistogramMap, register. intros E Eo l. destruct (bool_decide (name = "")); [done|].
  destruct (bool_decide (metricTypeHistogram = _)); [done|].
  destruct (ascending bounds) eqn:Ha; [|done]. cbn in E. destruct (bool_decide _); [done|]. injection E as <- <-.
  assert (Hst : forall os0 os mm0 r0, histogram_state bounds os0 mm0 r0 -> foldl observe_one (mm0, r0) os = (mm, r') -> histogram_state bounds (os0 ++ os) mm r').
  { intros os0 os1. revert os0. induction os1 as [|o os1 IH]; intros os0 mm1 r1 Hs Ef; cbn [foldl] in Ef; [injection Ef as <- <-; by rewrite app_nil_r|].
    destruct (observe_one (mm1, r1) o) as [mm2 r2] eqn:E2. replace (os0 ++ o :: os1)%list with ((os0 ++ [o]) ++ os1)%list by (by rewrite <- app_assoc).
    eapply IH; [|exact Ef]. by eapply observe_state. }
  match type of Eo with foldl _ (?a, ?b) _ = _ =>
    assert (H0 : histogram_state bounds [] a b) by (split; [done|done|done|intros ? ?; cbn; by rewrite lookup_empty]) end.
  specialize (Hst _ _ _ _ H0 Eo). cbn [app] in Hst. destruct Hst as [_ _ Hn Hs].
  destruct (mm_metrics mm !! l) as [i|] eqn:El; [|by apply Hn]. destruct (Hs l i El) as (m & Hm & Hl & Hb & Hc). exists m. rewrite Hc.
  split_and!; [done|done|done| |by apply cumulated_total]. intros k b Hk. by apply cumulated_counts.
Qed.

(** A value on a bound is not counted below it, although the label [le] says at most. *)
Example value_on_bound :
  match RegisterHistogramMap "h" "" [F 1 0; F 2 0] {| reg_names := ∅; reg_metrics := []; reg_nextID := 0 |} with
  | Ok (r, mm) => map m_counts (reg_metrics (snd (observe_one (mm, r) ("a", "b", F 1 0)))) = [[0; 1; 0]]
  | Err _ => False
  end.
Proof. vm_compute. reflexivity. Qed.

(** * Families *)

(** The first sample of every metric, and the families as they should be. *)
Fixpoint firsts (gs : list gauge) (seen : gset string) : list gauge :=
  match gs with
  | [] => []
  | g :: gs => if bool_decide (ga_metric g ∈ seen) then firsts gs seen else g :: firsts gs ({[ ga_metric g ]} ∪ seen)
  end.
Definition line_of (g : gauge) : string := gauge_line (ga_metric g) (ga_name g) (ga_item g) (ga_value g).
Definition family_of (gs : list gauge) (g : gauge) : family :=
  {| fa_metric := ga_metric g; fa_help := ga_help g;
     fa_lines := map line_of (List.filter (fun h => bool_decide (ga_metric h = ga_metric g)) gs) |}.

Lemma firsts_snoc gs g seen : firsts (gs ++ [g]) seen =
  (firsts gs seen ++ if bool_decide (ga_metric g ∈ seen \/ ga_metric g ∈ map ga_metric gs) then [] else [g])%list.
Proof.
  revert seen. induction gs as [|h gs IH]; intros seen; cbn [app firsts].
  - cbn. destruct (decide (ga_metric g ∈ seen)) as [Hs|Hs].
    + by rewrite !bool_decide_eq_true_2 by (try left; done).
    + rewrite !bool_decide_eq_false_2; [done| |done]. intros [?|Hi]; [done|]. by apply not_elem_of_nil in Hi.
  - case_bool_decide as Hh; rewrite IH; cbn [app map];
      match goal with |- context [if bool_decide ?P then [] else _] => match goal with |- _ = ?r => match r with context [if bool_decide ?Q then [] else _] =>
        rewrite (bool_decide_ext P Q); [done|] end end end; rewrite ?elem_of_cons, ?elem_of_union, ?elem_of_singleton;
      split; intros Hx; intuition congruence.
Qed.
Lemma firsts_unseen gs seen g : g ∈ firsts gs seen -> (ga_metric g ∉ seen) /\ g ∈ gs.
Proof.
  revert seen. induction gs as [|h gs IH]; intros seen; cbn [firsts]; [by intros ?%not_elem_of_nil|]. case_bool_decide as Hh.
  - intros Hg. destruct (IH _ Hg). split; [done|by right].
  - intros [->|Hg]%elem_of_cons; [split; [done|by left]|]. destruct (IH _ Hg) as [Hu Hin]. split; [set_solver|by right].
Qed.
Lemma firsts_nodup gs seen : NoDup (map ga_metric (firsts gs seen)).
Proof.
  revert seen. induction gs as [|h gs IH]; intros seen; cbn [firsts]; [constructor|]. case_bool_decide as Hh; [done|]. cbn. constructor; [|done].
  intros (g & E & Hg)%list_elem_of_fmap. apply firsts_unseen in Hg as [Hu _]. set_solver.
Qed.
Lemma firsts_all gs seen g : g ∈ gs -> (ga_metric g ∉ seen) -> ga_metric g ∈ map ga_metric (firsts gs seen).
Proof.
  revert seen. induction gs as [|h gs IH]; intros seen Hg Hu; [by apply not_elem_of_nil in Hg|]. cbn [firsts].
  apply elem_of_cons in Hg as [->|Hg].
  - rewrite bool_decide_eq_false_2 by done. by left.
  - case_bool_decide as Hh; [by apply IH|]. cbn. destruct (decide (ga_metric g = ga_metric h)) as [->|Hne]; [by left|].
    right. apply IH; [done|set_solver].
Qed.

Lemma add_to_family_new metric help line fw : metric ∉ map fa_metric fw ->
  add_to_family metric help line fw = (fw ++ [{| fa_metric := metric; fa_help := help; fa_lines := [line] |}])%list.
Proof.
  induction fw as [|f fw IH]; cbn; [done|]. intros [Hne Hn]%not_elem_of_cons. rewrite bool_decide_eq_false_2 by done. by rewrite IH.
Qed.
Lemma add_to_family_old metric help line fw : NoDup (map fa_metric fw) -> metric ∈ map fa_metric fw ->
  add_to_family metric help line fw = map (fun f => if bool_decide (fa_metric f = metric) then add_line line f else f) fw.
Proof.
  induction fw as [|f fw IH]; cbn; intros Hnd Hin; [by apply not_elem_of_nil in Hin|]. apply NoDup_cons in Hnd as [Hf Hnd].
  case_bool_decide as E.
  - f_equal. subst metric. clear IH Hin Hnd. induction fw as [|h fw IH]; cbn in *; [done|]. apply not_elem_of_cons in Hf as [Hne Hf].
    rewrite bool_decide_eq_false_2 by done. f_equal. by apply IH.
  - apply elem_of_cons in Hin as [?|Hin]; [congruence|]. by rewrite IH.
Qed.

(** The writer holds, for every metric in the order of its first sample, one family with the
    lines of all its samples in their order, whatever came in between. *)
Theorem families_exact gs : foldl Gauge [] gs = map (family_of gs) (firsts gs ∅).
Proof.
  induction gs as [|g gs IH] using rev_ind; [done|]. rewrite foldl_app, IH, firsts_snoc. cbn [foldl]. unfold Gauge. fold (line_of g).
  assert (Em : map fa_metric (map (family_of gs) (firsts gs ∅)) = map ga_metric (firsts gs ∅)) by (rewrite map_map; done).
  destruct (decide (ga_metric g ∈ map ga_metric gs)) as [Hin|Hin].
  - rewrite bool_decide_eq_true_2 by (by right). rewrite app_nil_r. rewrite add_to_family_old; [|rewrite Em; apply firsts_nodup|].
    + rewrite map_map. apply map_ext. intros h. unfold family_of. rewrite List.filter_app, map_app. cbn.
      destruct (decide (ga_metric h = ga_metric g)) as [E|E].
      * rewrite !bool_decide_eq_true_2 by congruence. done.
      * rewrite !bool_decide_eq_false_2 by congruence. cbn. by rewrite app_nil_r.
    + rewrite Em. apply list_elem_of_fmap in Hin as (h & Eh & Hh). rewrite Eh. apply firsts_all; [done|set_solver].
  - rewrite bool_decide_eq_false_2 by (intros [?|?]; [set_solver|done]). rewrite add_to_family_new.
    + rewrite map_app. cbn. f_equal.
      * apply map_ext_in. intros h Hh. apply list_elem_of_In, firsts_unseen in Hh as [_ Hh]. unfold family_of. rewrite List.filter_app. cbn.
        rewrite bool_decide_eq_false_2, app_nil_r; [done|]. intros E. apply Hin. rewrite E. by apply list_elem_of_fmap_2.
      * unfold family_of. rewrite List.filter_app, map_app. cbn. rewrite bool_decide_eq_true_2 by done.
        replace (List.filter _ gs) with (@nil gauge); [done|]. symmetry. clear - Hin. induction gs as [|h gs IH]; [done|]. cbn in *.
        apply not_elem_of_cons in Hin as [Hne Hin]. rewrite bool_decide_eq_false_2 by congruence. by apply IH.
    + rewrite Em. intros (h & Eh & Hh)%list_elem_of_fmap. apply firsts_unseen in Hh as [_ Hh]. apply Hin. rewrite Eh. by apply list_elem_of_fmap_2.
Qed.

(** * Labels *)

(** The value of a label as a reader of the format takes it. *)
Fixpoint unescape (s : string) : string :=
  match s with
  | String "\" (String c s) => String (if isc "n" c then "010" else c)%char (unescape s)
  | String c s => String c (unescape s)
  | "" => ""
  end.
(** An escaped label is on one line, has no quote that ends it, and reads back. *)
Theorem label_reads_back v : unescape (EscapeLabel v) = v /\ s_all (notc "010") (EscapeLabel v) = true.
Proof.
  induction v as [|c v [IH IHl]]; [done|]. cbn [EscapeLabel]. unfold escape_char. destruct (isc "\" c) eqn:E1.
  - apply bool_decide_eq_true in E1 as <-. cbn. by rewrite IH, IHl.
  - destruct (isc "010" c) eqn:E2.
    + apply bool_decide_eq_true in E2 as <-. cbn. by rewrite IH, IHl.
    + destruct (isc "034" c) eqn:E3.
      * apply bool_decide_eq_true in E3 as <-. cbn. by rewrite IH, IHl.
      * split; [|cbn; unfold notc at 1; by rewrite E2, IHl].
        apply bool_decide_eq_false in E1. destruct c as [[] [] [] [] [] [] [] []]; first [by cbn; rewrite IH|by destruct E1].
Qed.

(** * Access and totals *)

(** Nothing is rendered unless the export is on and the token, if there is one, is given. *)
Theorem pages_guarded {W} replicas auth (w : W) (p : pages W) : fst (serve replicas auth w p) = 200 ->
  pg_enabled p = true /\ (pg_token p = "" \/ auth = "Bearer " +:+ pg_token p).
Proof.
  unfold serve. destruct (pg_enabled p); [|done]. cbn [negb]. case_bool_decide as E1; cbn [negb andb]; [by split; [|left]|].
  case_bool_decide as E2; cbn [negb]; [by split; [|right]|done].
Qed.

Lemma count_state_lookup m s t : default 0 (count_state m s !! t) = default 0 (m !! t) + (if bool_decide (s = t) then 1 else 0).
Proof.
  unfold count_state. case_bool_decide as E; [subst; by rewrite lookup_insert_eq|]. rewrite lookup_insert_ne by done. lia.
Qed.
Lemma count_states_lookup reps m t :
  default 0 (foldl (fun m rep => count_state m (shown_state rep)) m reps !! t) =
  default 0 (m !! t) + count_if (fun rep => bool_decide (shown_state rep = t)) reps.
Proof.
  revert m. induction reps as [|rep reps IH]; intros m; cbn [foldl]; [unfold count_if; cbn; lia|]. rewrite IH, count_state_lookup.
  unfold count_if. cbn. case_bool_decide; cbn [length]; lia.
Qed.
(** The number shown for a state is that of the replicas in it, of the instances that are
    not being deleted; a replica without a state is shown as placed. *)
Theorem replica_states_exact apps t : default 0 (replica_states apps !! t) =
  count_if (fun rep => bool_decide (shown_state rep = t)) (List.filter (fun a => negb (deleting a)) apps ≫= fun a => ad_Replicas (ai_Deploy a)).
Proof.
  unfold replica_states. assert (H : forall m, default 0 (foldl (fun m a => if deleting a then m else
      foldl (fun m rep => count_state m (shown_state rep)) m (ad_Replicas (ai_Deploy a))) m apps !! t) = default 0 (m !! t) +
    count_if (fun rep => bool_decide (shown_state rep = t)) (List.filter (fun a => negb (deleting a)) apps ≫= fun a => ad_Replicas (ai_Deploy a))).
  { induction apps as [|a apps IH]; intros m; cbn [foldl List.filter]; [unfold count_if; cbn; lia|]. rewrite IH. destruct (deleting a); cbn [negb]; [done|].
    rewrite count_states_lookup. cbn. rewrite count_if_app. lia. }
  rewrite H, lookup_empty. cbn. lia.
Qed.
(** Hosts are fresh or stale. *)
Theorem hosts_fresh_or_stale now limit hosts :
  count_if (fun hs => negb (host_is_stale now limit hs)) hosts + count_if (host_is_stale now limit) hosts = Z.of_nat (length hosts).
Proof. unfold count_if. induction hosts as [|h hosts IH]; cbn; [done|]. destruct (host_is_stale now limit h); cbn [negb length]; lia. Qed.

(** The text of a small registry. *)
Example registry_text :
  match RegisterCounterMap "c" "calls" {| reg_names := ∅; reg_metrics := []; reg_nextID := 0 |} with
  | Ok (r, cm) =>
    match RegisterHistogramMap "a" "" [F 1 (-1); F 1 0] r with
    | Ok (r, hm) =>
      let '(cm, r) := map_Add "m" "ok" (F 2 0) (cm, r) in
      let '(hm, r) := observe_one (hm, r) ("m", "t", F 3 (-2)) in
      split_at "010" (WriteTo r) =
        ["# TYPE a histogram";
         "a_bucket{item=" +:+ quote +:+ "t" +:+ quote +:+ ",name=" +:+ quote +:+ "m" +:+ quote +:+ ",le=" +:+ quote +:+ "0.5" +:+ quote +:+ "} 0";
         "a_bucket{item=" +:+ quote +:+ "t" +:+ quote +:+ ",name=" +:+ quote +:+ "m" +:+ quote +:+ ",le=" +:+ quote +:+ "1" +:+ quote +:+ "} 1";
         "a_bucket{item=" +:+ quote +:+ "t" +:+ quote +:+ ",name=" +:+ quote +:+ "m" +:+ quote +:+ ",le=" +:+ quote +:+ "+Inf" +:+ quote +:+ "} 1";
         "a_sum{item=" +:+ quote +:+ "t" +:+ quote +:+ ",name=" +:+ quote +:+ "m" +:+ quote +:+ "} 0.75";
         "a_count{item=" +:+ quote +:+ "t" +:+ quote +:+ ",name=" +:+ quote +:+ "m" +:+ quote +:+ "} 1"; "";
         "# HELP c calls"; "# TYPE c counter";
         "c{item=" +:+ quote +:+ "ok" +:+ quote +:+ ",name=" +:+ quote +:+ "m" +:+ quote +:+ "} 2"; ""; ""]
    | Err _ => False
    end
  | Err _ => False
  end.
Proof. vm_compute. reflexivity. Qed.
Example process_metrics_register : is_ok (init_metrics {| reg_names := ∅; reg_metrics := []; reg_nextID := 0 |}) = true.
Proof. vm_compute. reflexivity. Qed.
Example method_names : map methodName ["/inapi.ZoneService/ZoneInit"; "/other.Package/Method"] = ["ZoneService/ZoneInit"; "other.Package/Method"].
Proof. vm_compute. reflexivity. Qed.
