(* ===== verification/HostNetwork.v ===== *)
(** The network of a host, [src/internal/hostlet/task_network.go] and
    [src/internal/hostlet/network/network.go]: the VXLAN device of the zone, the forwarding
    entries and routes to the other hosts of the zone's map, and the names of the instances
    for the name server.

    The kernel's devices and the commands [bridge] and [ip] are outside: each call is an
    [net_effect] in the history of the host, newest first, and the environment decides what
    comes of it ([NetEnv]).  What the kernel then has is read off the history
    ([fdb_after], [routes_after]).  The operating system is Linux.

    Theorems: a turn that succeeds on a newer map of the zone leaves a forwarding entry and
    a route to every other host of the map, as long as the device was not made anew; and
    what falls short: it is made anew whenever it is looked at, and then the entries that
    were there before stay away. *)
From Stdlib Require Import ZArith Lia Ascii.
From S2P Require Import Prelude GoStrings Inet Ipam.
Local Open Scope string_scope.
Local Open Scope Z_scope.

(** * Data *)

(** [LinkInfo]; addresses have four bytes. *)
Record LinkInfo := { lk_Name : string; lk_Index : Z; lk_Type : string; lk_Addrs : list (list Z); lk_VxlanId : Z; lk_VtepDevIndex : Z }.

Inductive net_effect :=
| NLinkDel (name : string)
| NLinkAdd (name : string) (vid vtep : Z)
| NAddrReplace (name : string) (ip : list Z)
| NLinkSetUp (name : string)
| NFdbDel (name dst : string)
| NFdbAdd (name dst : string)
| NRoute (vpc via : string)
| NDnsFile (text : string).
#[export] Instance net_effect_eq_dec : EqDecision net_effect.
Proof. solve_decision. Defined.
Abbreviation net_history := (list (net_effect * bool)).

(** Whether an effect succeeds, the devices that are listed, the device of a name, and the
    forwarding entries as [bridge] prints them. *)
Class NetEnv := {
  ne_ok : net_history -> net_effect -> bool;
  ne_links : net_history -> option (list LinkInfo);
  ne_byname : net_history -> string -> option LinkInfo;
  ne_fdb : net_history -> string -> option string }.

Record net_settings := { ns_VpcBridgeIP : string; ns_LanAddr : string; ns_DnsServers : list string }.

(** The variables of the two files: the bridge address that is set up, the address of the
    host, the revisions that were handled, the known devices and forwarding entries. *)
Record host_network := {
  nt_bridge : string; nt_peer : list Z; nt_dnsRev : Z; nt_mapRev : Z;
  nt_links : list LinkInfo; nt_fdb : gmap string string; nt_hist : net_history }.
Definition no_network : host_network :=
  {| nt_bridge := ""; nt_peer := []; nt_dnsRev := 0; nt_mapRev := 0; nt_links := []; nt_fdb := ∅; nt_hist := [] |}.

Definition with_nt_hist (h : net_history) (n : host_network) : host_network :=
  {| nt_bridge := nt_bridge n; nt_peer := nt_peer n; nt_dnsRev := nt_dnsRev n; nt_mapRev := nt_mapRev n;
     nt_links := nt_links n; nt_fdb := nt_fdb n; nt_hist := h |}.
Definition with_nt_links (l : list LinkInfo) (n : host_network) : host_network :=
  {| nt_bridge := nt_bridge n; nt_peer := nt_peer n; nt_dnsRev := nt_dnsRev n; nt_mapRev := nt_mapRev n;
     nt_links := l; nt_fdb := nt_fdb n; nt_hist := nt_hist n |}.
Definition with_nt_fdb (f : gmap string string) (n : host_network) : host_network :=
  {| nt_bridge := nt_bridge n; nt_peer := nt_peer n; nt_dnsRev := nt_dnsRev n; nt_mapRev := nt_mapRev n;
     nt_links := nt_links n; nt_fdb := f; nt_hist := nt_hist n |}.
Definition with_nt_dnsRev (r : Z) (n : host_network) : host_network :=
  {| nt_bridge := nt_bridge n; nt_peer := nt_peer n; nt_dnsRev := r; nt_mapRev := nt_mapRev n;
     nt_links := nt_links n; nt_fdb := nt_fdb n; nt_hist := nt_hist n |}.
Definition with_nt_mapRev (r : Z) (n : host_network) : host_network :=
  {| nt_bridge := nt_bridge n; nt_peer := nt_peer n; nt_dnsRev := nt_dnsRev n; nt_mapRev := r;
     nt_links := nt_links n; nt_fdb := nt_fdb n; nt_hist := nt_hist n |}.
Definition with_nt_peer (ip : list Z) (n : host_network) : host_network :=
  {| nt_bridge := nt_bridge n; nt_peer := ip; nt_dnsRev := nt_dnsRev n; nt_mapRev := nt_mapRev n;
     nt_links := nt_links n; nt_fdb := nt_fdb n; nt_hist := nt_hist n |}.
Definition with_nt_bridge (b : string) (n : host_network) : host_network :=
  {| nt_bridge := b; nt_peer := nt_peer n; nt_dnsRev := nt_dnsRev n; nt_mapRev := nt_mapRev n;
     nt_links := nt_links n; nt_fdb := nt_fdb n; nt_hist := nt_hist n |}.

Definition hostNetworkVxlanIdDefault : Z := 10.
Definition vxlanForwardMacAddrDefault : string := "00:00:00:00:00:00".
Definition vxlan_name (vid : Z) : string := "invpc2_vxlan." +:+ itoa vid.

(** [networkRefresh] and what it calls. *)
Section env.
Context {I6 : Ip6Syntax} {NE : NetEnv} {MR : MapRange}.

Definition net_act (e : net_effect) (n : host_network) : host_network * bool :=
  let ok := ne_ok (nt_hist n) e in (with_nt_hist ((e, ok) :: nt_hist n) n, ok).
Definition net_try (msg : string) (e : net_effect) (n : host_network) : host_network * result unit :=
  let '(n, ok) := net_act e n in (n, if ok then Ok tt else Err msg).

(** * Devices *)

(** The devices are listed once, unless none was found. *)
Definition links_init (n : host_network) : host_network :=
  match nt_links n with
  | [] => match ne_links (nt_hist n) with Some ls => with_nt_links ls n | None => n end
  | _ => n
  end.
Definition owns_addr (ip : list Z) (l : LinkInfo) : bool := existsb (fun a => bool_decide (ip = a)) (lk_Addrs l).
Definition GetLinkByIp (ip : list Z) (n : host_network) : host_network * option LinkInfo :=
  let n := links_init n in (n, List.find (owns_addr ip) (nt_links n)).
Definition IpString (l : LinkInfo) : string := match lk_Addrs l with a :: _ => IP4ToString a | [] => "" end.

(** The index of the lower device is compared with that of the device itself: the variable
    [devLink] of the function is hidden by the one of the branch. *)
Definition vxlan_differs (vid : Z) (l : LinkInfo) : bool :=
  negb (bool_decide (lk_Type l = "vxlan")) || negb (lk_VxlanId l =? vid) || negb (lk_VtepDevIndex l =? lk_Index l).
Definition vxlan_create (name : string) (vid : Z) (ip : list Z) (dev : LinkInfo) (n : host_network) : host_network * result unit :=
  let '(n, r) := net_try "link add" (NLinkAdd name vid (lk_Index dev)) n in
  match r with Err e => (n, Err e) | Ok _ =>
  let '(n, r) := net_try "addr replace" (NAddrReplace name ip) n in
  match r with Err e => (n, Err e) | Ok _ => net_try "link set up" (NLinkSetUp name) n end end.
Definition VxlanSetup (ip : list Z) (vid : Z) (devIP : list Z) (n : host_network) : host_network * result unit :=
  let '(n, dev) := GetLinkByIp devIP n in
  match dev with
  | None => (n, Err "peer network not ready")
  | Some dev =>
    let name := vxlan_name vid in
    match ne_byname (nt_hist n) name with
    | None => vxlan_create name vid ip dev n
    | Some l =>
      if vxlan_differs vid l then
        let '(n, r) := net_try "link del" (NLinkDel name) n in
        match r with Err e => (n, Err e) | Ok _ => vxlan_create name vid ip dev n end
      else if owns_addr ip l then (n, Ok tt) else vxlan_create name vid ip dev n
    end
  end.

(** * Entries and routes *)

(** The destinations of the default address on the device. *)
Definition fdb_line (name v : string) : option string :=
  let vs := split_at " " v in
  if (Z.of_nat (length vs) <? 7) || negb (bool_decide (nth 0 vs "" = vxlanForwardMacAddrDefault)) || negb (bool_decide (nth 2 vs "" = name))
  then None else Some (nth 4 vs "").
Definition VxlanForwardList (vid : Z) (n : host_network) : result (gmap string string) :=
  match ne_fdb (nt_hist n) (vxlan_name vid) with
  | None => Err "bridge fdb show"
  | Some out =>
    Ok (foldl (fun m v => match fdb_line (vxlan_name vid) v with Some dst => <[dst := vxlanForwardMacAddrDefault]> m | None => m end) ∅
          (split_at "010" (trim_space out)))
  end.
Definition VxlanForward (vid : Z) (dst : string) (n : host_network) : host_network * result unit :=
  match nt_fdb n !! dst with
  | Some _ => (n, Ok tt)
  | None =>
    let name := vxlan_name vid in
    let n := fst (net_act (NFdbDel name dst) n) in
    let '(n, r) := net_try "bridge fdb add" (NFdbAdd name dst) n in
    match r with
    | Err e => (n, Err e)
    | Ok _ => (with_nt_fdb (<[dst := name]> (nt_fdb n)) n, Ok tt)
    end
  end.
Definition RouteReplace (vpc via : string) (n : host_network) : host_network * result unit := net_try "ip route replace" (NRoute vpc via) n.

(** [network.ParsePrivateIP], which nothing calls: an address without four bytes panics. *)
Definition network_ParsePrivateIP (s : string) : result (list Z) :=
  match ParseIP s with
  | None => Err "invalid ip address"
  | Some ip =>
    match To4 ip with
    | None => Err "panic: index out of range"
    | Some ip =>
      let a := nth 0 ip 0 in let b := nth 1 ip 0 in
      if (a =? 10) || ((a =? 172) && (16 <=? b) && (b <=? 31)) || ((a =? 192) && (b =? 168)) then Ok ip else Err "invalid private ip address"
    end
  end.

(** * The turn *)

Definition dns_record (domain : string) (kv : Z * string) : string :=
  let q := String "034" "" in let nl := String "010" "" in
  "[[records]]" +:+ nl +:+ "name = " +:+ q +:+ snd kv +:+ "." +:+ domain +:+ q +:+ nl +:+ "ips = [" +:+ q +:+ Uint32ToIpv4 (fst kv) +:+ q +:+ "]" +:+ nl.
Definition dns_conf (m : ZoneNetworkMap NetHost) : string :=
  foldr (fun kv acc => dns_record (zm_Domain m) kv +:+ acc) "" (map_range (zm_Instance m)).
Definition dns_refresh (g : net_settings) (m : ZoneNetworkMap NetHost) (n : host_network) : host_network * result unit :=
  if negb (bool_decide (ns_DnsServers g = [])) && (nt_dnsRev n <? zm_Revision m) then
    let '(n, r) :=
      if bool_decide (zm_Instance m = ∅) then (n, Ok tt)
      else if 10 <? slen (dns_conf m) then net_try "write" (NDnsFile (dns_conf m)) n else (n, Ok tt) in
    match r with Err e => (n, Err e) | Ok _ => (with_nt_dnsRev (zm_Revision m) n, Ok tt) end
  else (n, Ok tt).

(** The address of the host, without a port. *)
Definition lan_host (addr : string) : string := match cut_at ":" addr with Some (String c s, _) => String c s | _ => addr end.
Definition peer_refresh (g : net_settings) (n : host_network) : host_network * result unit :=
  match nt_peer n with
  | [] => match ParsePrivateIP (lan_host (ns_LanAddr g)) with Err e => (n, Err e) | Ok ip => (with_nt_peer ip n, Ok tt) end
  | _ => (n, Ok tt)
  end.
Definition bridge_refresh (g : net_settings) (n : host_network) : host_network * result unit :=
  if bool_decide (nt_bridge n = ns_VpcBridgeIP g) then (n, Ok tt) else
  match ParsePrivateIP (ns_VpcBridgeIP g) with
  | Err e => (n, Err e)
  | Ok ip =>
    let '(n, r) := VxlanSetup ip hostNetworkVxlanIdDefault (nt_peer n) n in
    match r with Err e => (n, Err e) | Ok _ => (with_nt_bridge (ns_VpcBridgeIP g) n, Ok tt) end
  end.
Fixpoint reach_hosts (l : list (Z * NetHost)) (n : host_network) : host_network * result unit :=
  match l with
  | [] => (n, Ok tt)
  | (bridge, host) :: l =>
    if nh_Peer host =? BytesToUint32 (nt_peer n) then reach_hosts l n else
    let '(n, r) := VxlanForward hostNetworkVxlanIdDefault (Uint32ToIpv4 (nh_Peer host)) n in
    match r with Err e => (n, Err e) | Ok _ =>
    let '(n, r) := RouteReplace (Uint32ToIpv4 (nh_Instance host)) (Uint32ToIpv4 bridge) n in
    match r with Err e => (n, Err e) | Ok _ => reach_hosts l n end end
  end.
Definition map_refresh (m : ZoneNetworkMap NetHost) (n : host_network) : host_network * result unit :=
  if nt_mapRev n <? zm_Revision m then
    let '(n, r) := reach_hosts (map_range (zm_BridgeHost m)) n in
    match r with Err e => (n, Err e) | Ok _ => (with_nt_mapRev (zm_Revision m) n, Ok tt) end
  else (n, Ok tt).

Definition networkRefresh (g : net_settings) (m : ZoneNetworkMap NetHost) (n : host_network) : host_network * result unit :=
  let '(n, r) := dns_refresh g m n in
  match r with Err e => (n, Err e) | Ok _ =>
  if bool_decide (ns_VpcBridgeIP g = "") || bool_decide (zm_BridgeHost m = ∅) then (n, Ok tt) else
  let '(n, r) := peer_refresh g n in
  match r with Err e => (n, Err e) | Ok _ =>
  let '(n, r) := bridge_refresh g n in
  match r with Err e => (n, Err e) | Ok _ => map_refresh m n end end end.
End env.

(** * What the kernel has *)

(** The destinations that are forwarded to: a device that is deleted takes its entries along. *)
Fixpoint fdb_after (h : net_history) : gset string :=
  match h with
  | [] => ∅
  | (e, ok) :: h =>
    if ok then
      match e with
      | NFdbAdd _ dst => {[ dst ]} ∪ fdb_after h
      | NFdbDel _ dst => fdb_after h ∖ {[ dst ]}
      | NLinkDel _ => ∅
      | _ => fdb_after h
      end
    else fdb_after h
  end.
(** The routes, by network; they lead through the device. *)
Fixpoint routes_after (h : net_history) : gmap string string :=
  match h with
  | [] => ∅
  | (e, ok) :: h =>
    if ok then match e with NRoute vpc via => <[vpc := via]> (routes_after h) | NLinkDel _ => ∅ | _ => routes_after h end
    else routes_after h
  end.


Section network.
Context {I6 : Ip6Syntax} {NE : NetEnv} {MR : MapRange} {MRL : MapRangeLaws MR}.
Implicit Types n : host_network.

(** The entries the host remembers are in the kernel. *)
Definition fdb_true (n : host_network) : Prop := forall dst, is_Some (nt_fdb n !! dst) -> dst ∈ fdb_after (nt_hist n).
(** What comes before the entries leaves alone what is remembered of them. *)
Definition fdb_kept (n n' : host_network) : Prop := nt_fdb n' = nt_fdb n /\ nt_mapRev n' = nt_mapRev n.
Lemma fdb_kept_trans n1 n2 n3 : fdb_kept n1 n2 -> fdb_kept n2 n3 -> fdb_kept n1 n3.
Proof. intros [F1 R1] [F2 R2]. split; congruence. Qed.
Lemma net_try_kept msg e n : fdb_kept n (fst (net_try msg e n)).
Proof. done. Qed.
Lemma vxlan_create_kept name vid ip dev n : fdb_kept n (fst (vxlan_create name vid ip dev n)).
Proof. unfold vxlan_create, net_try, net_act. cbn. destruct (ne_ok _ _); [|done]. destruct (ne_ok _ _); [|done]. done. Qed.
Lemma VxlanSetup_kept ip vid devIP n : fdb_kept n (fst (VxlanSetup ip vid devIP n)).
Proof.
  unfold VxlanSetup, GetLinkByIp. assert (Hi : fdb_kept n (links_init n)).
  { unfold links_init. destruct (nt_links n); [|done]. by destruct (ne_links _). }
  destruct (List.find _ _) as [dev|]; [|done]. eapply fdb_kept_trans; [exact Hi|]. generalize (links_init n). intros n1.
  destruct (ne_byname _ _) as [l|]; [|apply vxlan_create_kept]. destruct (vxlan_differs vid l).
  - pose proof (net_try_kept "link del" (NLinkDel (vxlan_name vid)) n1) as Hk. destruct (net_try _ _ n1) as [n2 [u2|e]]; [|done].
    eapply fdb_kept_trans; [exact Hk|apply vxlan_create_kept].
  - destruct (owns_addr ip l); [done|apply vxlan_create_kept].
Qed.
Lemma bridge_refresh_kept g n : fdb_kept n (fst (bridge_refresh g n)).
Proof.
  unfold bridge_refresh. case_bool_decide; [done|]. destruct (ParsePrivateIP _) as [ip|e]; [|done].
  pose proof (VxlanSetup_kept ip hostNetworkVxlanIdDefault (nt_peer n) n) as Hk. destruct (VxlanSetup _ _ _ n) as [n1 [u1|e]]; [|done].
  eapply fdb_kept_trans; [exact Hk|done].
Qed.
Lemma dns_refresh_kept g m n : fdb_kept n (fst (dns_refresh g m n)) /\ nt_bridge (fst (dns_refresh g m n)) = nt_bridge n /\
  fdb_after (nt_hist (fst (dns_refresh g m n))) = fdb_after (nt_hist n).
Proof.
  unfold dns_refresh. destruct (_ && _); [|done]. case_bool_decide; [done|]. destruct (10 <? _); [|done].
  unfold net_try, net_act. cbn. by destruct (ne_ok _ _).
Qed.
Lemma peer_refresh_kept g n : fdb_kept n (fst (peer_refresh g n)) /\ nt_bridge (fst (peer_refresh g n)) = nt_bridge n /\
  nt_hist (fst (peer_refresh g n)) = nt_hist n.
Proof. unfold peer_refresh. destruct (nt_peer n); [|done]. by destruct (ParsePrivateIP _). Qed.

(** The hosts that are reached: the host itself, and those with an entry and a route. *)
Definition reached (n : host_network) (kv : Z * NetHost) : Prop :=
  nh_Peer (snd kv) = BytesToUint32 (nt_peer n) \/
  (Uint32ToIpv4 (nh_Peer (snd kv)) ∈ fdb_after (nt_hist n) /\
   routes_after (nt_hist n) !! Uint32ToIpv4 (nh_Instance (snd kv)) = Some (Uint32ToIpv4 (fst kv))).

Lemma VxlanForward_ok vid dst n n' : VxlanForward vid dst n = (n', Ok tt) -> fdb_true n ->
  fdb_true n' /\ (dst ∈ fdb_after (nt_hist n')) /\ (forall d, d ∈ fdb_after (nt_hist n) -> d ∈ fdb_after (nt_hist n')) /\
  routes_after (nt_hist n') = routes_after (nt_hist n) /\ nt_peer n' = nt_peer n /\ nt_mapRev n' = nt_mapRev n.
Proof.
  unfold VxlanForward. destruct (nt_fdb n !! dst) as [w|] eqn:Ef.
  - intros [= <-] T. split_and!; try done. apply T. by exists w.
  - unfold net_try, net_act. cbn. set (ok1 := ne_ok _ (NFdbDel _ _)). destruct (ne_ok _ (NFdbAdd _ _)) eqn:E; [|done]. intros [= <-] T. cbn.
    assert (Hd : forall d, d ∈ fdb_after (nt_hist n) -> d ∈ ({[ dst ]} ∪ (if ok1 then fdb_after (nt_hist n) ∖ {[ dst ]} else fdb_after (nt_hist n)) : gset string)).
    { intros d Hd. destruct (decide (d = dst)) as [->|]; [set_solver|]. destruct ok1; set_solver. }
    split_and!; [|set_solver|exact Hd|by destruct ok1|done|done].
    intros d [w Hw]. cbn in *. destruct (decide (d = dst)) as [->|Hne]; [set_solver|].
    rewrite lookup_insert_ne in Hw by done. apply Hd, T. by exists w.
Qed.
Lemma RouteReplace_ok vpc via n n' : RouteReplace vpc via n = (n', Ok tt) -> fdb_after (nt_hist n') = fdb_after (nt_hist n) /\
  routes_after (nt_hist n') = <[vpc := via]> (routes_after (nt_hist n)) /\ nt_peer n' = nt_peer n /\ nt_fdb n' = nt_fdb n /\ nt_mapRev n' = nt_mapRev n.
Proof. unfold RouteReplace, net_try, net_act. destruct (ne_ok _ _) eqn:E; [|done]. by intros [= <-]. Qed.

Definition net_of (kv : Z * NetHost) : string := Uint32ToIpv4 (nh_Instance (snd kv)).
Lemma reach_hosts_ok l n n' : reach_hosts l n = (n', Ok tt) -> fdb_true n -> NoDup (map net_of l) ->
  fdb_true n' /\ (forall kv, kv ∈ l -> reached n' kv) /\ (forall d, d ∈ fdb_after (nt_hist n) -> d ∈ fdb_after (nt_hist n')) /\
  (forall net, (net ∉ map net_of l) -> routes_after (nt_hist n') !! net = routes_after (nt_hist n) !! net) /\ nt_peer n' = nt_peer n /\ nt_mapRev n' = nt_mapRev n.
Proof.
  revert n. induction l as [|[b h] l IH]; intros n; cbn [reach_hosts]; [intros [= <-] T _; split_and!; try done; by intros kv ?%not_elem_of_nil|].
  intros E T [Hb Hnd]%NoDup_cons. destruct (Z.eqb_spec (nh_Peer h) (BytesToUint32 (nt_peer n))) as [Eo|Eo].
  - destruct (IH _ E T Hnd) as (T' & Hr & Hd & Hn & Hp & Hm). split_and!; try done.
    + intros kv [->|Hkv]%elem_of_cons; [left; cbn; congruence|by apply Hr].
    + intros net [Hne Hnet]%not_elem_of_cons. by apply Hn.
  - destruct (VxlanForward _ _ n) as [n1 [[]|e]] eqn:E1; [|done]. destruct (RouteReplace _ _ n1) as [n2 [[]|e]] eqn:E2; [|done].
    destruct (VxlanForward_ok _ _ _ _ E1 T) as (T1 & Hin & Hd1 & Hr1 & Hp1 & Hm1). destruct (RouteReplace_ok _ _ _ _ E2) as (Ef & Er & Hp2 & Hf2 & Hm2).
    assert (T2 : fdb_true n2) by (intros d Hd; rewrite Ef; apply T1; by rewrite <- Hf2).
    destruct (IH _ E T2 Hnd) as (T' & Hr & Hd & Hn & Hp & Hm). split_and!; try done; try congruence.
    + intros kv [->|Hkv]%elem_of_cons; [|by apply Hr]. right. cbn [fst snd]. split; [apply Hd; by rewrite Ef|].
      change (Uint32ToIpv4 (nh_Instance h)) with (net_of (b, h)) at 1. rewrite Hn by done. rewrite Er. apply lookup_insert_eq.
    + intros d Hdn. apply Hd. rewrite Ef. by apply Hd1.
    + intros net [Hne Hnet]%not_elem_of_cons. rewrite Hn by done. rewrite Er, lookup_insert_ne by done. by rewrite Hr1.
Qed.
End network.

(** A turn that succeeds on a newer map, when the host remembers no forwarding entries or its
    device is the one they were made on, leaves an entry and a route to every other host of
    the map, and what it remembers of the entries true; the map counts as handled only then. *)
Theorem hosts_reached {I6 : Ip6Syntax} {NE : NetEnv} {MR : MapRange} {MRL : MapRangeLaws MR} g (m : ZoneNetworkMap NetHost) n n' :
  networkRefresh g m n = (n', Ok tt) -> ns_VpcBridgeIP g <> "" -> nt_mapRev n < zm_Revision m ->
  (nt_fdb n = ∅ \/ (fdb_true n /\ nt_bridge n = ns_VpcBridgeIP g)) ->
  (forall b h b' h', zm_BridgeHost m !! b = Some h -> zm_BridgeHost m !! b' = Some h' ->
    Uint32ToIpv4 (nh_Instance h) = Uint32ToIpv4 (nh_Instance h') -> b = b') ->
  (forall b h, zm_BridgeHost m !! b = Some h -> reached n' (b, h)) /\
  (zm_BridgeHost m <> ∅ -> nt_mapRev n' = zm_Revision m /\ fdb_true n').
Proof.
  intros E Hbr Hrev Hold Hapart. unfold networkRefresh in E. rewrite (bool_decide_eq_false_2 (ns_VpcBridgeIP g = "")) in E by done. cbn [orb] in E.
  destruct (dns_refresh_kept g m n) as ([F1 R1] & B1 & H1). destruct (dns_refresh g m n) as [n1 [u1|e]]; [|done]. cbn [fst] in *.
  case_bool_decide as Em; [rewrite Em; split; [intros b h; by rewrite lookup_empty|done]|].
  destruct (peer_refresh_kept g n1) as ([F2 R2] & B2 & H2). destruct (peer_refresh g n1) as [n2 [u2|e]]; [|done]. cbn [fst] in *.
  destruct (bridge_refresh_kept g n2) as [F3 R3]. destruct (bridge_refresh g n2) as [n3 [u3|e]] eqn:E3; [|done]. cbn [fst] in *.
  assert (T3 : fdb_true n3).
  { intros d Hd. rewrite F3, F2, F1 in Hd. destruct Hold as [Hz|[T Hb]]; [rewrite Hz, lookup_empty in Hd; by destruct Hd|].
    unfold bridge_refresh in E3. rewrite bool_decide_eq_true_2 in E3 by congruence. injection E3 as <-. rewrite H2, H1. by apply T. }
  unfold map_refresh in E. rewrite R3, R2, R1 in E. destruct (Z.ltb_spec (nt_mapRev n) (zm_Revision m)) as [_|?]; [|lia].
  destruct (reach_hosts _ n3) as [n4 [[]|e]] eqn:E4; [|done]. injection E as <-.
  assert (Hnd : NoDup (map net_of (map_range (zm_BridgeHost m)))).
  { apply (NoDup_fmap_2_strong net_of).
    - intros [b h] [b' h'] Hb Hb' En. apply elem_of_map_range in Hb, Hb'. assert (b = b') as -> by (by eapply Hapart). congruence.
    - rewrite map_range_perm. apply NoDup_map_to_list. }
  destruct (reach_hosts_ok _ _ _ E4 T3 Hnd) as (T4 & Hr & _). split; [|done]. intros b h Hb. apply (Hr (b, h)). by apply elem_of_map_range.
Qed.
(** A turn that fails leaves the map to be handled by the next one. *)
Theorem failed_turn_repeated {I6 : Ip6Syntax} {NE : NetEnv} {MR : MapRange} g (m : ZoneNetworkMap NetHost) n n' e :
  networkRefresh g m n = (n', Err e) -> nt_mapRev n' = nt_mapRev n.
Proof.
  unfold networkRefresh. destruct (dns_refresh_kept g m n) as ([_ R1] & _). destruct (dns_refresh g m n) as [n1 [u1|e1]]; cbn [fst] in *; [|congruence].
  destruct (_ || _); [done|]. destruct (peer_refresh_kept g n1) as ([_ R2] & _). destruct (peer_refresh g n1) as [n2 [u2|e2]]; cbn [fst] in *; [|congruence].
  destruct (bridge_refresh_kept g n2) as [_ R3]. destruct (bridge_refresh g n2) as [n3 [u3|e3]]; cbn [fst] in *; [|congruence].
  unfold map_refresh. destruct (_ <? _); [|done].
  assert (Hl : forall l n0, nt_mapRev (fst (reach_hosts l n0)) = nt_mapRev n0).
  { induction l as [|[b h] l IH]; intros n0; cbn [reach_hosts]; [done|]. destruct (_ =? _); [apply IH|]. unfold VxlanForward, RouteReplace, net_try, net_act.
    destruct (nt_fdb n0 !! _); cbn; [|destruct (ne_ok _ (NFdbAdd _ _)); [|done]]; cbn; destruct (ne_ok _ (NRoute _ _)); try done; by rewrite IH. }
  pose proof (Hl (map_range (zm_BridgeHost m)) n3) as Hr. destruct (reach_hosts _ n3) as [n4 [u4|e4]]; [done|]. cbn [fst] in *. intros [= <- _]. congruence.
Qed.

(** * A host and its neighbour *)

(** Everything succeeds; a device of the zone is there as it was made, number 5 on device 2. *)
Definition ex_lan : LinkInfo := {| lk_Name := "eth0"; lk_Index := 2; lk_Type := "device"; lk_Addrs := [[10; 0; 0; 1]]; lk_VxlanId := 0; lk_VtepDevIndex := 0 |}.
Definition ex_vxlan : LinkInfo :=
  {| lk_Name := vxlan_name 10; lk_Index := 5; lk_Type := "vxlan"; lk_Addrs := [[172; 16; 1; 1]]; lk_VxlanId := 10; lk_VtepDevIndex := 2 |}.
Definition ex_net_env : NetEnv :=
  {| ne_ok := fun _ _ => true; ne_links := fun _ => Some [ex_lan]; ne_byname := fun _ _ => Some ex_vxlan;
     ne_fdb := fun _ _ => Some ("00:00:00:00:00:00 dev invpc2_vxlan.10 dst 10.0.0.2 self permanent") |}.
Definition ex_net_settings (bridge : string) : net_settings := {| ns_VpcBridgeIP := bridge; ns_LanAddr := "10.0.0.1:9529"; ns_DnsServers := ["10.0.0.1"] |}.
Definition ex_zone_map (rev : Z) (hosts : gmap Z NetHost) (names : gmap Z string) : ZoneNetworkMap NetHost :=
  {| zm_BridgeCidr := "172.16.0.0/16"; zm_InstanceCidr := "172.17.0.0/16"; zm_Domain := "zone"; zm_BridgeHost := hosts; zm_Instance := names;
     zm_Updated := 0; zm_Revision := rev |}.
Definition ex_neighbour : NetHost := {| nh_Id := "h2"; nh_Bridge := 0xac100201; nh_Instance := 0xac110200; nh_Peer := 0x0a000002 |}.
Definition ex_hosts : gmap Z NetHost := {[ 0xac100201 := ex_neighbour ]}.
Definition ex_refresh (bridge : string) (m : ZoneNetworkMap NetHost) (n : host_network) : host_network :=
  fst (networkRefresh (I6 := no_ip6) (NE := ex_net_env) (ex_net_settings bridge) m n).
Definition ex_net1 : host_network := ex_refresh "172.16.1.1" (ex_zone_map 1 ex_hosts {[ 0xac110105 := "web-0" ]}) no_network.

Example neighbour_reached :
  fdb_after (nt_hist ex_net1) = {[ "10.0.0.2" ]} /\ routes_after (nt_hist ex_net1) !! "172.17.2.0" = Some "172.16.2.1" /\ nt_mapRev ex_net1 = 1.
Proof. split_and!; vm_compute; reflexivity. Qed.

(** The device that is there as it should be is deleted all the same: the index of the
    device below it is compared with its own. *)
Example right_device_deleted : existsb (fun x => bool_decide (fst x = NLinkDel (vxlan_name 10))) (nt_hist ex_net1) = true.
Proof. vm_compute. reflexivity. Qed.

(** When the bridge gets another address the device is made anew without its entries; the
    host takes them for present, also on newer maps. *)
Definition ex_net2 : host_network := ex_refresh "172.16.9.1" (ex_zone_map 2 ex_hosts ∅) ex_net1.
Example entries_lost_with_bridge :
  nt_mapRev ex_net2 = 2 /\ fdb_after (nt_hist ex_net2) = ∅ /\ fdb_after (nt_hist (ex_refresh "172.16.9.1" (ex_zone_map 3 ex_hosts ∅) ex_net2)) = ∅.
Proof. split_and!; vm_compute; reflexivity. Qed.

(** The entry of a host that left the zone stays, and so do the names of the last instances
    when none is left. *)
Example departed_host_stays :
  fdb_after (nt_hist (ex_refresh "172.16.1.1" (ex_zone_map 2 {[ 0xac100301 := {| nh_Id := "h3"; nh_Bridge := 0xac100301; nh_Instance := 0xac110300; nh_Peer := 0x0a000003 |} ]} ∅) ex_net1)) =
  {[ "10.0.0.2"; "10.0.0.3" ]}.
Proof. vm_compute. reflexivity. Qed.
Definition ex_names_written (h : net_history) : nat := length (List.filter (fun x => match fst x with NDnsFile _ => true | _ => false end) h).
Example last_names_stay :
  ex_names_written (nt_hist ex_net1) = 1%nat /\ ex_names_written (nt_hist (ex_refresh "172.16.1.1" (ex_zone_map 2 ex_hosts ∅) ex_net1)) = 1%nat /\
  nt_dnsRev (ex_refresh "172.16.1.1" (ex_zone_map 2 ex_hosts ∅) ex_net1) = 2.
Proof. split_and!; vm_compute; reflexivity. Qed.

Example ipv6_address_panics :
  network_ParsePrivateIP (I6 := {| parse_ip6 := fun _ => Some (repeat 1 16); string_ip6 := fun _ => "" |}) "1:2::3" = Err "panic: index out of range".
Proof. vm_compute. reflexivity. Qed.
Example entries_listed : VxlanForwardList (NE := ex_net_env) 10 no_network = Ok {[ "10.0.0.2" := vxlanForwardMacAddrDefault ]}.
Proof. vm_compute. reflexivity. Qed.
