(* ===== verification/Archive.v ===== *)
(** The archive of a package, [src/internal/pkgbuild]: how the tree of a build becomes an
    archive ([createTar], [createArchive] and [writeIPK] of [builder.go]), and how it is
    extracted into a directory of a host ([extract.go]), with the confined file operations of
    [os.Root] that this uses.

    The formats of JSON, tar and compression are a class ([ArchiveLib], with its laws).
    A directory is a map of paths, lists of segments below its root; modes and times of files
    are left out, and so is what an operation that fails on the way leaves half done.

    Theorems: a build directory without links is extracted as it was, an archive reads back
    as it was written, extracting again changes nothing; and what falls short: archives with
    links cannot be extracted, names that begin with two dots are refused, and a link that
    is placed through another one can point outside. *)
From Stdlib Require Import ZArith Lia Ascii.
From S2P Require Import Prelude GoStrings GoPath Sha256 Base64 Varint.
Local Open Scope string_scope.
Local Open Scope Z_scope.

(** * Data *)

Inductive tar_type := TypeDir | TypeReg | TypeSymlink | TypeOther.
Record tar_entry := { te_Name : string; te_Typeflag : tar_type; te_Linkname : string; te_Content : string }.
#[export] Instance tar_type_eq_dec : EqDecision tar_type.
Proof. solve_decision. Defined.

(** The header of an archive: the parts of [inapi.Package] that the archive sets or reads. *)
Record ArchiveHeader := {
  ah_Name : string; ah_Version : string; ah_Os : string; ah_Arch : string;
  ah_Size : Z; ah_Checksum : string; ah_Compress : string; ah_Built : Z }.

(** [al_unmarshal] reads the compression, empty without a release; [al_untar] reads the
    entries up to the end or to the first that is broken. *)
Class ArchiveLib := {
  al_marshal : ArchiveHeader -> string;
  al_unmarshal : string -> option string;
  al_tar : list tar_entry -> string;
  al_untar : string -> list tar_entry * option string;
  al_zip : string -> string -> string;
  al_unzip : string -> string -> option string }.
Class ArchiveLaws (L : ArchiveLib) := {
  al_header : forall h, al_unmarshal (al_marshal h) = Some (ah_Compress h);
  al_entries : forall es, al_untar (al_tar es) = (es, None);
  al_packed : forall a s, a = "gzip" \/ a = "xz" -> al_unzip a (al_zip a s) = Some s }.

(** * Packing *)

(** What the build directory holds; children are named. *)
Inductive build_tree :=
| BDir (children : list (string * build_tree))
| BFile (content : string)
| BLink (target : string).

Definition rel_name (path : list string) : string := match path with [] => "." | _ => join "/" path end.
Definition name_before {A} (a b : string * A) : bool := str_lt (fst a) (fst b).
(** [filepath.WalkDir]: a directory before its children, which come sorted.  The header of a
    link is made without its target. *)
Fixpoint createTar (path : list string) (t : build_tree) : list tar_entry :=
  match t with
  | BFile content => [{| te_Name := rel_name path; te_Typeflag := TypeReg; te_Linkname := ""; te_Content := content |}]
  | BLink _ => [{| te_Name := rel_name path; te_Typeflag := TypeSymlink; te_Linkname := ""; te_Content := "" |}]
  | BDir children =>
    {| te_Name := rel_name path; te_Typeflag := TypeDir; te_Linkname := ""; te_Content := "" |} ::
    (insertion_sort name_before (map (fun c => (fst c, createTar (path ++ [fst c]) (snd c))) children) ≫= snd)
  end.

Definition PackageMagic : string := "IPK1".
(** Four bytes, little-endian. *)
Definition byte_char (z : Z) : ascii := ascii_of_N (Z.to_N (Z.land z 255)).
Definition le_32 (n : Z) : string :=
  String (byte_char n) (String (byte_char (Z.shiftr n 8)) (String (byte_char (Z.shiftr n 16)) (String (byte_char (Z.shiftr n 24)) ""))).
Definition writeIPK (header data : string) : string := PackageMagic +:+ le_32 (u32 (slen header)) +:+ header +:+ data.

(** The name of an archive. *)
Definition targetPath (outputDir name version os arch : string) : string :=
  let name := name +:+ "_" +:+ version +:+ "_" +:+ os +:+ "_" +:+ arch in
  if bool_decide (outputDir = "") then name else Clean (outputDir +:+ "/" +:+ name).

Section lib.
Context {L : ArchiveLib}.

Definition archive_algo (compress : string) : string := if bool_decide (compress = "gzip") then "gzip" else "xz".
Definition archive_header (algo name version os arch : string) (now : Z) (data : string) : ArchiveHeader :=
  {| ah_Name := name; ah_Version := version; ah_Os := os; ah_Arch := arch; ah_Size := slen data;
     ah_Checksum := "sha256:" +:+ sha256_hex data; ah_Compress := algo; ah_Built := now |}.
Definition createArchive (compress name version os arch : string) (now : Z) (tree : build_tree) : string :=
  let tar := al_tar (createTar [] tree) in
  let algo := archive_algo compress in
  let data := al_zip algo tar in
  writeIPK (al_marshal (archive_header algo name version os arch now data)) data.
End lib.

(** Which files of a package directory are taken over: none of these names, nothing below
    [.git]. *)
Definition base_name (path : string) : string := match cut_last "/" path with Some (_, b) => b | None => path end.
Definition shouldIgnore (path : string) : bool :=
  bool_decide (base_name path ∈ [".git"; ".gitignore"; ".gitmodules"; ".DS_Store"; ".build_tempdir"; "ipk.toml"]) || contains path "/.git/".

(** * The confined directory *)

Inductive node := NDir | NFile (content : string) | NLink (target : string).
#[export] Instance node_eq_dec : EqDecision node.
Proof. solve_decision. Defined.
Abbreviation tree_fs := (gmap (list string) node).

(** The links that are followed on one path. *)
Definition rootMaxLinks : nat := 8.

(** The place of a path: links are followed, the last segment's only if [follow]; a [..]
    at the root and an absolute link leave the directory; with [make] directories that are
    missing are made, without it only the last segment may be missing. *)
Fixpoint root_walk (make follow : bool) (links : nat) : list string -> list string -> tree_fs -> result (tree_fs * list string) :=
  fix go (cur segs : list string) (fs : tree_fs) {struct segs} : result (tree_fs * list string) :=
    match segs with
    | [] => Ok (fs, cur)
    | s :: rest =>
      if bool_decide (s = "") || bool_decide (s = ".") then go cur rest fs
      else if bool_decide (s = "..") then
        match cur with [] => Err "path escapes from parent" | _ => go (removelast cur) rest fs end
      else
        let p := (cur ++ [s])%list in
        match fs !! p with
        | None =>
          if make then go p rest (<[p := NDir]> fs)
          else match rest with [] => Ok (fs, p) | _ => Err "no such file or directory" end
        | Some NDir => go p rest fs
        | Some (NFile _) => match rest with [] => if make then Err "not a directory" else Ok (fs, p) | _ => Err "not a directory" end
        | Some (NLink target) =>
          if negb follow && bool_decide (rest = []) then Ok (fs, p)
          else if is_rooted target then Err "path escapes from parent"
          else match links with
               | O => Err "too many levels of symbolic links"
               | S links => root_walk make follow links cur (split_at "/" target ++ rest) fs
               end
        end
    end.

Definition root_MkdirAll (name : string) (fs : tree_fs) : tree_fs * result unit :=
  match root_walk true true rootMaxLinks [] (split_at "/" name) fs with
  | Ok (fs, _) => (fs, Ok tt)
  | Err e => (fs, Err e)
  end.
(** Open with [O_CREATE|O_WRONLY|O_TRUNC], and write. *)
Definition root_WriteFile (name content : string) (fs : tree_fs) : tree_fs * result unit :=
  match root_walk false true rootMaxLinks [] (split_at "/" name) fs with
  | Err e => (fs, Err e)
  | Ok (_, p) =>
    match p, fs !! p with
    | [], _ | _, Some NDir => (fs, Err "is a directory")
    | _, _ => (<[p := NFile content]> fs, Ok tt)
    end
  end.
Definition root_Lstat (name : string) (fs : tree_fs) : result node :=
  match root_walk false false rootMaxLinks [] (split_at "/" name) fs with
  | Err e => Err e
  | Ok (_, []) => Ok NDir
  | Ok (_, p) => match fs !! p with Some n => Ok n | None => Err "no such file or directory" end
  end.
(** Of a link. *)
Definition root_Remove (name : string) (fs : tree_fs) : tree_fs * result unit :=
  match root_walk false false rootMaxLinks [] (split_at "/" name) fs with
  | Err e => (fs, Err e)
  | Ok (_, p) => (delete p fs, Ok tt)
  end.
Definition root_Symlink (target name : string) (fs : tree_fs) : tree_fs * result unit :=
  if bool_decide (target = "") then (fs, Err "no such file or directory") else
  match root_walk false false rootMaxLinks [] (split_at "/" name) fs with
  | Err e => (fs, Err e)
  | Ok (_, p) =>
    match p, fs !! p with
    | [], _ | _, Some _ => (fs, Err "file exists")
    | _, None => (<[p := NLink target]> fs, Ok tt)
    end
  end.

(** * Extracting *)

Definition withinTarget (absTarget p : string) : bool := bool_decide (p = absTarget) || has_prefix p (absTarget +:+ "/").
Definition link_place (absTarget name linkname : string) : string := Clean (absTarget +:+ "/" +:+ Dir name +:+ "/" +:+ linkname).
Definition extract_link (absTarget name linkname : string) (fs : tree_fs) : tree_fs * result unit :=
  if is_rooted linkname then (fs, Err "symlink with absolute linkname rejected")
  else if negb (withinTarget absTarget (link_place absTarget name linkname)) then (fs, Err "symlink path traversal detected")
  else
    let '(fs, r) := match root_Lstat name fs with Ok (NLink _) => root_Remove name fs | _ => (fs, Ok tt) end in
    match r with Err e => (fs, Err e) | Ok _ => root_Symlink linkname name fs end.
Definition name_ok (name : string) : bool := negb (is_rooted name || has_prefix name "..").
Definition extract_entry (absTarget : string) (e : tar_entry) (fs : tree_fs) : tree_fs * result unit :=
  let name := Clean (te_Name e) in
  if negb (name_ok name) then (fs, Err ("path traversal detected: " +:+ te_Name e)) else
  match te_Typeflag e with
  | TypeDir => root_MkdirAll name fs
  | TypeReg =>
    let '(fs, r) := root_MkdirAll (Dir name) fs in
    match r with Err e => (fs, Err e) | Ok _ => root_WriteFile name (te_Content e) fs end
  | TypeSymlink => extract_link absTarget name (te_Linkname e) fs
  | TypeOther => (fs, Ok tt)
  end.
Fixpoint extract_entries (absTarget : string) (es : list tar_entry) (fs : tree_fs) : tree_fs * result unit :=
  match es with
  | [] => (fs, Ok tt)
  | e :: es =>
    let '(fs, r) := extract_entry absTarget e fs in
    match r with Err e => (fs, Err e) | Ok _ => extract_entries absTarget es fs end
  end.

Definition le_value (s : string) : option (Z * string) :=
  match s with
  | String a (String b (String c (String d s))) =>
    Some (Z.lor (Z.lor (byte_of a) (Z.shiftl (byte_of b) 8)) (Z.lor (Z.shiftl (byte_of c) 16) (Z.shiftl (byte_of d) 24)), s)
  | _ => None
  end.
(** Header and data of an archive. *)
Definition read_ipk (file : string) : result (string * string) :=
  if slen file <? 4 then Err "failed to read magic number"
  else if negb (has_prefix file PackageMagic) then Err "invalid ipk file: bad magic number (expected IPK1)"
  else
    match le_value (String.substring 4 (String.length file - 4) file) with
    | None => Err "failed to read header length"
    | Some (n, rest) =>
      if slen rest <? n then Err "failed to read header block"
      else Ok (String.substring 0 (Z.to_nat n) rest, String.substring (Z.to_nat n) (String.length rest - Z.to_nat n) rest)
    end.

Section extract.
Context {L : ArchiveLib}.

Definition open_tar (compress data : string) : result string :=
  if bool_decide (compress = "gzip") || bool_decide (compress = "xz") then
    match al_unzip compress data with Some tar => Ok tar | None => Err "failed to create reader" end
  else Ok data.
(** [Extract] of a file into an existing directory. *)
Definition Extract (file absTarget : string) (fs : tree_fs) : tree_fs * result unit :=
  match
    let? hd := read_ipk file in
    match al_unmarshal (fst hd) with
    | None => Err "failed to parse header block"
    | Some compress => open_tar compress (snd hd)
    end
  with
  | Err e => (fs, Err e)
  | Ok tar =>
    let '(es, broken) := al_untar tar in
    let '(fs, r) := extract_entries absTarget es fs in
    match r, broken with
    | Err e, _ => (fs, Err e)
    | Ok _, Some e => (fs, Err e)
    | Ok _, None => (fs, Ok tt)
    end
  end.
End extract.


(** * Paths *)

Definition clean_name (s : string) : Prop := seg_ok s.
Definition path_ok (path : list string) : Prop := Forall seg_ok path.

Lemma seg_no_slash s : seg_ok s -> s_all (notc "/") s = true.
Proof. by intros (? & _). Qed.
Lemma clean_rel_id segs : forall out, Forall seg_ok segs -> clean_segments false out segs = (reverse out ++ segs)%list.
Proof.
  induction segs as [|s segs IH]; intros out Hs; cbn [clean_segments]; [by rewrite app_nil_r|].
  apply Forall_cons in Hs as [(H1 & H2 & H3 & H4) Hs]. rewrite !bool_decide_false by done. cbn [orb]. rewrite IH by done.
  by rewrite reverse_cons, <- app_assoc.
Qed.
Lemma join_not_rooted path : path_ok path -> is_rooted (join "/" path) = false.
Proof.
  destruct path as [|s path]; intros Hp; [done|]. apply Forall_cons in Hp as [(H1 & H2 & _) _]. destruct s as [|c s]; [done|].
  assert (Hc : isc "/" c = false) by (cbn in H1; apply andb_true_iff in H1 as [H1 _]; by apply negb_true_iff).
  destruct path as [|t path]; [cbn [join]|change (join "/" (String c s :: t :: path)) with (String c (s +:+ "/" +:+ join "/" (t :: path)))]; by rewrite rooted_char.
Qed.
Lemma split_join path : path_ok path -> path <> [] -> split_at "/" (join "/" path) = path.
Proof. intros Hp Hne. apply split_at_join; [done|]. eapply Forall_impl; [exact Hp|]. apply seg_no_slash. Qed.
Lemma Clean_rel_name path : path_ok path -> Clean (rel_name path) = rel_name path.
Proof.
  intros Hp. destruct path as [|s path]; [done|]. cbn [rel_name]. unfold Clean. rewrite join_not_rooted, split_join by done.
  by rewrite clean_rel_id.
Qed.
Lemma Dir_rel_name path s : path_ok (path ++ [s]) -> Dir (rel_name (path ++ [s])) = rel_name path.
Proof.
  intros Hp. apply Forall_app in Hp as [Hp [(Hn & Hs) _]%Forall_cons]. unfold rel_name at 1.
  replace (match (path ++ [s])%list with [] => "." | _ => join "/" (path ++ [s]) end) with (join "/" (path ++ [s])) by (by destruct path).
  unfold Dir. destruct path as [|a path].
  - cbn. assert (cut_last "/" s = None) as ->; [|done]. clear - Hn. induction s as [|c s IH]; [done|]. cbn in *. apply andb_true_iff in Hn as [Hc Hn].
    rewrite IH by done. apply negb_true_iff in Hc. by rewrite Hc.
  - rewrite join_snoc by done. change ("/" +:+ s) with (String "/"%char s). rewrite cut_last_app by done.
    change (join "/" (a :: path)) with (rel_name (a :: path)).
    assert (Hc : split_at "/" (rel_name (a :: path) +:+ "/") = ((a :: path) ++ [""])%list).
    { cbn [rel_name]. pose proof (join_snoc (a :: path) "" ltac:(done)) as Hj. change ("/" +:+ "") with "/" in Hj. rewrite <- Hj.
      apply split_at_join; [done|]. apply Forall_app. split; [eapply Forall_impl; [exact Hp|apply seg_no_slash]|by repeat constructor]. }
    unfold Clean. rewrite Hc. assert (Hr : is_rooted (rel_name (a :: path) +:+ "/") = false).
    { pose proof (join_not_rooted (a :: path) Hp) as Hr. cbn [rel_name]. destruct (join "/" (a :: path)) as [|c j] eqn:Ej; [|change (String c j +:+ "/") with (String c (j +:+ "/")); rewrite rooted_char in Hr; by rewrite rooted_char].
      apply Forall_cons in Hp as [(_ & Ha & _) _]. destruct a; [done|]. by destruct path. }
    rewrite Hr. assert (Hcs : forall l out, Forall seg_ok l -> clean_segments false out (l ++ [""])%list = (reverse out ++ l)%list).
    { induction l as [|x l IH]; intros out Hl; cbn [app clean_segments]; [by rewrite app_nil_r|]. apply Forall_cons in Hl as [(H1 & H2 & H3 & H4) Hl].
      rewrite !bool_decide_false by done. cbn [orb]. rewrite IH by done. by rewrite reverse_cons, <- app_assoc. }
    by rewrite Hcs.
Qed.

(** A name is refused for its first segment only. *)
Lemma name_ok_rel s path : path_ok (s :: path) -> name_ok (rel_name (s :: path)) = negb (has_prefix s "..").
Proof.
  intros Hp. unfold name_ok. cbn [rel_name]. rewrite join_not_rooted by done. cbn [orb]. f_equal.
  apply Forall_cons in Hp as [(H1 & H2 & H3 & H4) Hp]. destruct path as [|t path]; [done|]. rewrite join_cons by done.
  unfold has_prefix. destruct s as [|c [|d s]]; [done| |];
    change (String.prefix ".." (String c ?x)) with (if ascii_dec "." c then String.prefix "." x else false); cbn [String.append String.prefix].
  - by destruct (ascii_dec "." c).
  - destruct (ascii_dec "." c); [|done]. destruct (ascii_dec "." d); [by destruct s|done].
Qed.

(** * Walking *)

Lemma root_walk_cons make follow n cur s rest fs : seg_ok s ->
  root_walk make follow n cur (s :: rest) fs =
  match fs !! (cur ++ [s])%list with
  | None => if make then root_walk make follow n (cur ++ [s]) rest (<[(cur ++ [s])%list := NDir]> fs)
            else match rest with [] => Ok (fs, (cur ++ [s])%list) | _ => Err "no such file or directory" end
  | Some NDir => root_walk make follow n (cur ++ [s]) rest fs
  | Some (NFile _) => match rest with [] => if make then Err "not a directory" else Ok (fs, (cur ++ [s])%list) | _ => Err "not a directory" end
  | Some (NLink target) =>
    if negb follow && bool_decide (rest = []) then Ok (fs, (cur ++ [s])%list)
    else if is_rooted target then Err "path escapes from parent"
    else match n with
         | O => Err "too many levels of symbolic links"
         | S n => root_walk make follow n cur (split_at "/" target ++ rest) fs
         end
  end.
Proof.
  intros (H1 & H2 & H3 & H4). destruct n; cbn [root_walk]; rewrite !bool_decide_false by done; reflexivity.
Qed.

(** The path and all that leads to it are directories. *)
Definition dirs_to (fs : tree_fs) (path : list string) : Prop := forall a b, path = (a ++ b)%list -> a <> [] -> fs !! a = Some NDir.
Lemma walk_dirs make follow n path : forall cur rest fs, path_ok path ->
  (forall a b, path = (a ++ b)%list -> a <> [] -> fs !! (cur ++ a)%list = Some NDir) ->
  root_walk make follow n cur (path ++ rest) fs = root_walk make follow n (cur ++ path) rest fs.
Proof.
  induction path as [|s path IH]; intros cur rest fs Hp Hd; cbn [app]; [by rewrite app_nil_r|].
  apply Forall_cons in Hp as [Hs Hp]. rewrite root_walk_cons by done. rewrite (Hd [s] path) by done. rewrite IH; [by rewrite <- app_assoc|done|].
  intros a b E Ha. rewrite <- app_assoc. apply (Hd (s :: a) b); [by rewrite E|done].
Qed.
Lemma split_rel_name path : path_ok path -> split_at "/" (rel_name path) = match path with [] => ["."] | _ => path end.
Proof. intros Hp. destruct path; [done|]. by apply split_join. Qed.
Lemma root_walk_nil make follow n cur fs : root_walk make follow n cur [] fs = Ok (fs, cur).
Proof. by destruct n. Qed.
Lemma root_walk_dot make follow n cur fs : root_walk make follow n cur ["."] fs = Ok (fs, cur).
Proof. by destruct n. Qed.

Lemma MkdirAll_dirs path fs : path_ok path -> dirs_to fs path -> root_MkdirAll (rel_name path) fs = (fs, Ok tt).
Proof.
  intros Hp Hd. unfold root_MkdirAll. rewrite split_rel_name by done. destruct path as [|s path]; [by rewrite root_walk_dot|].
  pose proof (walk_dirs true true rootMaxLinks (s :: path) [] [] fs Hp Hd) as Hw. rewrite app_nil_r in Hw. by rewrite Hw, root_walk_nil.
Qed.
Lemma MkdirAll_new path s fs : path_ok (path ++ [s]) -> dirs_to fs path -> fs !! (path ++ [s])%list = None ->
  root_MkdirAll (rel_name (path ++ [s])) fs = (<[(path ++ [s])%list := NDir]> fs, Ok tt).
Proof.
  intros Hp Hd Hn. unfold root_MkdirAll. rewrite split_rel_name by done.
  replace (match (path ++ [s])%list with [] => ["."] | _ => (path ++ [s])%list end) with (path ++ [s])%list by (by destruct path).
  apply Forall_app in Hp as [Hp [Hs _]%Forall_cons]. rewrite walk_dirs by done. cbn [app]. rewrite root_walk_cons by done. by rewrite Hn, root_walk_nil.
Qed.
Lemma WriteFile_new path s content fs : path_ok (path ++ [s]) -> dirs_to fs path -> fs !! (path ++ [s])%list = None ->
  root_WriteFile (rel_name (path ++ [s])) content fs = (<[(path ++ [s])%list := NFile content]> fs, Ok tt).
Proof.
  intros Hp Hd Hn. unfold root_WriteFile. rewrite split_rel_name by done.
  replace (match (path ++ [s])%list with [] => ["."] | _ => (path ++ [s])%list end) with (path ++ [s])%list by (by destruct path).
  apply Forall_app in Hp as [Hp [Hs _]%Forall_cons]. rewrite walk_dirs by done. cbn [app]. rewrite root_walk_cons by done. rewrite Hn.
  assert (Hne : (path ++ [s])%list <> []) by (by destruct path). destruct (path ++ [s])%list; [done|]. by rewrite Hn.
Qed.

(** * What is packed is what is extracted *)

(** The node of a tree at a path. *)
Fixpoint tree_lookup (q : list string) (t : build_tree) : option node :=
  match q, t with
  | [], BDir _ => Some NDir
  | [], BFile c => Some (NFile c)
  | [], BLink l => Some (NLink l)
  | s :: q, BDir children => match List.find (fun c => bool_decide (fst c = s)) children with Some c => tree_lookup q (snd c) | None => None end
  | _ :: _, _ => None
  end.
(** A tree without links whose names are names. *)
Inductive packable : build_tree -> Prop :=
| packable_file c : packable (BFile c)
| packable_dir children : NoDup (map fst children) -> Forall seg_ok (map fst children) ->
    (forall n t, (n, t) ∈ children -> packable t) -> packable (BDir children).

(** The tree [t] has come to the path; everything else is as it was. *)
Definition placed (path : list string) (t : build_tree) (fs fs' : tree_fs) : Prop :=
  (forall q, fs' !! (path ++ q)%list = tree_lookup q t) /\ (forall p, ~ (exists q, p = (path ++ q)%list) -> fs' !! p = fs !! p).

Lemma extract_entries_app a es es' fs : extract_entries a (es ++ es') fs =
  let '(fs, r) := extract_entries a es fs in match r with Err e => (fs, Err e) | Ok _ => extract_entries a es' fs end.
Proof.
  revert fs. induction es as [|e es IH]; intros fs; cbn [app extract_entries]; [done|]. by destruct (extract_entry a e fs) as [fs1 [u|m]].
Qed.
Lemma list_app_cons_inj {A} (p : list A) x y q q' : (p ++ x :: q)%list = (p ++ y :: q')%list -> x = y /\ q = q'.
Proof. intros E. apply app_inv_head in E. by injection E. Qed.

(** The children of a directory, one after the other. *)
Lemma extract_children a path l : forall fs,
  (forall n t fs, (n, t) ∈ l -> dirs_to fs path -> (forall q, fs !! (path ++ n :: q)%list = None) ->
     exists fs', extract_entries a (createTar (path ++ [n]) t) fs = (fs', Ok tt) /\ placed (path ++ [n]) t fs fs') ->
  NoDup (map fst l) -> dirs_to fs path -> (forall n t q, (n, t) ∈ l -> fs !! (path ++ n :: q)%list = None) ->
  exists fs', extract_entries a (map (fun c => (fst c, createTar (path ++ [fst c]) (snd c))) l ≫= snd) fs = (fs', Ok tt) /\
    (forall n t q, (n, t) ∈ l -> fs' !! (path ++ n :: q)%list = tree_lookup q t) /\
    (forall p, ~ (exists n q, n ∈ map fst l /\ p = (path ++ n :: q)%list) -> fs' !! p = fs !! p).
Proof.
  induction l as [|[n t] l IH]; intros fs Hx Hnd Hd Hnone; cbn [map].
  - exists fs. split_and!; [done|by intros ? ? ? ?%not_elem_of_nil|done].
  - apply NoDup_cons in Hnd as [Hn Hnd]. cbn [fst snd] in *.
    destruct (Hx n t fs) as (fs1 & E1 & P1 & O1); [by left|done|intros q; eapply Hnone; by left|].
    assert (Hd1 : dirs_to fs1 path).
    { intros b c Eb Hb. rewrite O1; [by eapply Hd|]. intros [q Eq]. rewrite Eb, <- app_assoc in Eq.
      assert (El : length b = length (b ++ c ++ [n] ++ q)%list) by (rewrite <- !app_assoc in Eq; by rewrite <- Eq at 1).
      rewrite !length_app in El. cbn in El. lia. }
    destruct (IH fs1) as (fs' & E' & P' & O').
    { intros n' t' fs0 Hin. apply Hx. by right. }
    { done. } { done. }
    { intros n' t' q Hin. rewrite O1; [eapply Hnone; by right|]. intros [q' Eq]. rewrite <- app_assoc in Eq. cbn in Eq.
      apply list_app_cons_inj in Eq as [-> _]. apply Hn. apply list_elem_of_fmap. by exists (n, t'). }
    exists fs'. split_and!.
    + cbn. rewrite extract_entries_app, E1. exact E'.
    + intros n' t' q [[= -> ->]|Hin]%elem_of_cons; [|by apply P'].
      rewrite O'; [specialize (P1 q); by rewrite <- app_assoc in P1|]. intros (m & q' & Hm & Eq). apply list_app_cons_inj in Eq as [-> _]. done.
    + intros p Hp. rewrite O', O1; [done| |].
      * intros [q Eq]. apply Hp. exists n, q. split; [by left|]. by rewrite Eq, <- app_assoc.
      * intros (m & q & Hm & Eq). apply Hp. exists m, q. split; [by right|done].
Qed.

Lemma find_child children n t : NoDup (map fst children) -> (n, t) ∈ children ->
  List.find (fun c : string * build_tree => bool_decide (fst c = n)) children = Some (n, t).
Proof.
  induction children as [|[m u] l IH]; intros Hnd Hin; [by apply not_elem_of_nil in Hin|]. apply NoDup_cons in Hnd as [Hm Hnd]. cbn [List.find fst].
  apply elem_of_cons in Hin as [[= -> ->]|Hin]; [by rewrite bool_decide_true|]. rewrite bool_decide_false; [by apply IH|].
  intros ->. apply Hm. apply list_elem_of_fmap. by exists (n, t).
Qed.
Lemma find_no_child children n : n ∉ map fst children -> List.find (fun c : string * build_tree => bool_decide (fst c = n)) children = None.
Proof.
  induction children as [|[m u] l IH]; intros Hn; [done|]. cbn [map fst] in Hn. apply not_elem_of_cons in Hn as [Hm Hn]. cbn [List.find fst].
  rewrite bool_decide_false; [by apply IH|congruence].
Qed.

(** An entry below the directory. *)
Definition top_ok (path : list string) : Prop := match path with [] => False | s :: _ => has_prefix s ".." = false end.
Lemma name_ok_path path : path_ok path -> top_ok path -> name_ok (rel_name path) = true.
Proof. destruct path as [|s path]; [done|]. intros Hp Ht. rewrite name_ok_rel by done. cbn in Ht. by rewrite Ht. Qed.
Lemma top_ok_app p q : top_ok p -> top_ok (p ++ q).
Proof. by destruct p. Qed.
Lemma dirs_to_snoc fs path n : dirs_to fs path -> dirs_to (<[(path ++ [n])%list := NDir]> fs) (path ++ [n]).
Proof.
  intros Hd a b E Ha. destruct (decide (a = (path ++ [n])%list)) as [->|Hne]; [by rewrite lookup_insert_eq|]. rewrite lookup_insert_ne by done.
  destruct b as [|x b] using rev_ind; [by rewrite app_nil_r in E|]. rewrite app_assoc in E. apply app_inj_tail in E as [E _]. by eapply Hd.
Qed.
Lemma app_below {A} (p : list A) x q : (p ++ x :: q)%list <> p.
Proof. intros E. apply (f_equal length) in E. rewrite length_app in E. cbn in E. lia. Qed.

Lemma sort_children path children : exists l, l ≡ₚ children /\
  insertion_sort name_before (map (fun c => (fst c, createTar (path ++ [fst c]) (snd c))) children) =
  map (fun c => (fst c, createTar (path ++ [fst c]) (snd c))) l.
Proof.
  pose proof (sort_slice_perm _ name_before (map (fun c => (fst c, createTar (path ++ [fst c]) (snd c))) children)) as Hs.
  apply Permutation_map_inv in Hs as (l & E & Hl). exists l. by split.
Qed.

Lemma extract_tree a t : packable t -> forall path n fs, path_ok (path ++ [n]) -> top_ok (path ++ [n]) -> dirs_to fs path ->
  (forall q, fs !! (path ++ n :: q)%list = None) ->
  exists fs', extract_entries a (createTar (path ++ [n]) t) fs = (fs', Ok tt) /\ placed (path ++ [n]) t fs fs'.
Proof.
  induction 1 as [c|children Hnd Hok Hch IH]; intros path n fs Hp Ht Hd Hnone.
  - assert (Hp' : path_ok path) by (by apply Forall_app in Hp as [Hp _]).
    exists (<[(path ++ [n])%list := NFile c]> fs). cbn [createTar extract_entries]. unfold extract_entry. cbn [te_Name te_Typeflag te_Content].
    rewrite Clean_rel_name, name_ok_path, Dir_rel_name, MkdirAll_dirs, WriteFile_new by (done || apply (Hnone [])). split; [done|]. split.
    + intros [|s q]; [by rewrite app_nil_r, lookup_insert_eq|]. rewrite lookup_insert_ne by (apply not_eq_sym, app_below). rewrite <- app_assoc. apply Hnone.
    + intros p Hq. apply lookup_insert_ne. intros <-. apply Hq. exists []. by rewrite app_nil_r.
  - set (p := (path ++ [n])%list) in *. set (fs1 := <[p := NDir]> fs).
    destruct (sort_children p children) as (l & Hl & El).
    assert (Hin : forall m, m ∈ map fst l <-> m ∈ map fst children) by (intros m; by rewrite Hl).
    destruct (extract_children a p l fs1) as (fs' & E & P & O).
    { intros m t fs0 Hm Hd0 Hn0. apply (IH m t); try done; [by rewrite <- Hl| |by apply top_ok_app].
      apply Forall_app. split; [done|]. apply Forall_singleton. rewrite Forall_forall in Hok. apply Hok. rewrite <- Hin. apply list_elem_of_fmap. by exists (m, t). }
    { by rewrite Hl. }
    { by apply dirs_to_snoc. }
    { intros m t q _. unfold fs1. rewrite lookup_insert_ne by (apply not_eq_sym, app_below). unfold p. rewrite <- app_assoc. apply Hnone. }
    exists fs'. split.
    + cbn [createTar extract_entries]. unfold extract_entry at 1. cbn [te_Name te_Typeflag]. rewrite Clean_rel_name, name_ok_path by done.
      cbn [negb]. unfold p at 1. rewrite MkdirAll_new by (done || apply (Hnone [])). rewrite El. exact E.
    + split.
      * intros [|m q]; cbn [tree_lookup].
        { rewrite app_nil_r, O; [apply lookup_insert_eq|]. intros (m & q & _ & Eq). symmetry in Eq. by apply app_below in Eq. }
        destruct (decide (m ∈ map fst children)) as [Hm|Hm].
        { apply list_elem_of_fmap in Hm as ([m' t] & -> & Hm). cbn [fst]. rewrite (find_child _ _ t) by done. apply P. by rewrite Hl. }
        rewrite find_no_child by done. rewrite O.
        { unfold fs1. rewrite lookup_insert_ne by (apply not_eq_sym, app_below). unfold p. rewrite <- app_assoc. apply Hnone. }
        intros (m' & q' & Hm' & Eq). apply list_app_cons_inj in Eq as [-> _]. by apply Hm, Hin.
      * intros x Hx. rewrite O.
        { unfold fs1. apply lookup_insert_ne. intros <-. apply Hx. exists []. by rewrite app_nil_r. }
        intros (m & q & _ & ->). apply Hx. by exists (m :: q).
Qed.

(** * Reading an archive *)

Lemma byte_char_value z : byte_of (byte_char z) = z mod 256.
Proof.
  unfold byte_of, byte_char. change 255 with (Z.ones 8). rewrite Z.land_ones by lia. change (2 ^ 8) with 256.
  pose proof (Z.mod_pos_bound z 256 ltac:(lia)). rewrite N_ascii_embedding by lia. lia.
Qed.
Lemma le_32_value n s : 0 <= n < 2 ^ 32 -> le_value (le_32 n +:+ s) = Some (n, s).
Proof.
  intros Hn. cbn [le_32 String.append le_value]. do 2 f_equal. rewrite !byte_char_value, !Z.shiftr_div_pow2 by lia.
  change (2 ^ 8) with 256. change (2 ^ 16) with 65536. change (2 ^ 24) with 16777216. change (2 ^ 32) with 4294967296 in Hn.
  assert (Hb : forall z, 0 <= z mod 256 < 256) by (intros; apply Z.mod_pos_bound; lia).
  pose proof (Hb n). pose proof (Hb (n / 256)). pose proof (Hb (n / 65536)). pose proof (Hb (n / 16777216)).
  rewrite (lor_above (n mod 256) _ 8) by lia.
  replace (Z.lor (Z.shiftl ((n / 65536) mod 256) 16) (Z.shiftl ((n / 16777216) mod 256) 24)) with (Z.shiftl ((n / 65536) mod 256 + (n / 16777216) mod 256 * 256) 16).
  - rewrite lor_above by lia. change (2 ^ 8) with 256. change (2 ^ 16) with 65536.
    pose proof (Z.div_mod n 256 ltac:(lia)). pose proof (Z.div_mod (n / 256) 256 ltac:(lia)). pose proof (Z.div_mod (n / 65536) 256 ltac:(lia)).
    rewrite !Z.div_div in * by lia. change (256 * 256) with 65536 in *. change (65536 * 256) with 16777216 in *.
    rewrite (Z.mod_small (n / 16777216) 256); [lia|]. split; [apply Z.div_pos; lia|]. apply Z.div_lt_upper_bound; lia.
  - rewrite <- (lor_above _ _ 8) by lia. rewrite Z.shiftl_lor, Z.shiftl_shiftl by lia. done.
Qed.
Lemma substring_app_l a b : String.substring 0 (String.length a) (a +:+ b) = a.
Proof. induction a as [|c a IH]; [by destruct b|]. cbn [String.length String.append String.substring]. by rewrite IH. Qed.
Lemma substring_app_r a b : String.substring (String.length a) (String.length (a +:+ b) - String.length a) (a +:+ b) = b.
Proof.
  induction a as [|c a IH]; cbn [String.length String.append Nat.sub String.substring]; [|exact IH]. rewrite Nat.sub_0_r.
  induction b as [|c b IH]; [done|]. cbn [String.length String.substring]. by rewrite IH.
Qed.
Lemma read_writeIPK header data : slen header < 2 ^ 32 -> read_ipk (writeIPK header data) = Ok (header, data).
Proof.
  intros Hh. assert (Hl : 0 <= slen header) by (unfold slen; lia). unfold read_ipk, writeIPK.
  rewrite (proj2 (Z.ltb_ge _ _)) by (rewrite slen_app; change (slen PackageMagic) with 4; unfold slen; lia).
  assert (has_prefix (PackageMagic +:+ le_32 (u32 (slen header)) +:+ header +:+ data) PackageMagic = true) as -> by (unfold has_prefix; cbn; by destruct header).
  cbn [negb]. pose proof (substring_app_r PackageMagic (le_32 (u32 (slen header)) +:+ header +:+ data)) as Hs.
  change (String.length PackageMagic) with 4%nat in Hs. rewrite Hs.
  unfold u32, wrap_u. rewrite Z.mod_small by lia. rewrite le_32_value by done.
  rewrite (proj2 (Z.ltb_ge _ _)) by (rewrite slen_app; unfold slen; lia).
  unfold slen. rewrite Nat2Z.id, substring_app_l, substring_app_r. done.
Qed.

(** * Extracting again *)

Lemma WriteFile_same path s content fs : path_ok (path ++ [s]) -> dirs_to fs path -> fs !! (path ++ [s])%list = Some (NFile content) ->
  root_WriteFile (rel_name (path ++ [s])) content fs = (fs, Ok tt).
Proof.
  intros Hp Hd Hn. unfold root_WriteFile. rewrite split_rel_name by done.
  replace (match (path ++ [s])%list with [] => ["."] | _ => (path ++ [s])%list end) with (path ++ [s])%list by (by destruct path).
  apply Forall_app in Hp as [Hp [Hs _]%Forall_cons]. rewrite walk_dirs by done. cbn [app]. rewrite root_walk_cons by done. rewrite Hn.
  assert (Hne : (path ++ [s])%list <> []) by (by destruct path). destruct (path ++ [s])%list; [done|]. rewrite Hn. by rewrite insert_id.
Qed.
Lemma extract_same a es fs : (forall e, e ∈ es -> extract_entry a e fs = (fs, Ok tt)) -> extract_entries a es fs = (fs, Ok tt).
Proof.
  induction es as [|e es IH]; intros He; cbn [extract_entries]; [done|]. rewrite He by left. apply IH. intros e' Hin. apply He. by right.
Qed.
Lemma dirs_to_end fs path n : dirs_to fs path -> fs !! (path ++ [n])%list = Some NDir -> dirs_to fs (path ++ [n]).
Proof.
  intros Hd Hn a b E Ha. destruct b as [|x b] using rev_ind; [by rewrite app_nil_r in E; subst|]. rewrite app_assoc in E.
  apply app_inj_tail in E as [E _]. by eapply Hd.
Qed.

(** The entries of a tree that is in place change nothing. *)
Lemma same_tree a t : packable t -> forall path n fs, path_ok (path ++ [n]) -> top_ok (path ++ [n]) -> dirs_to fs path ->
  (forall q, fs !! ((path ++ [n]) ++ q)%list = tree_lookup q t) -> extract_entries a (createTar (path ++ [n]) t) fs = (fs, Ok tt).
Proof.
  induction 1 as [c|children Hnd Hok Hch IH]; intros path n fs Hp Ht Hd Hsame.
  - assert (Hp' : path_ok path) by (by apply Forall_app in Hp as [Hp _]). pose proof (Hsame []) as H0. rewrite app_nil_r in H0. cbn in H0.
    cbn [createTar extract_entries]. unfold extract_entry. cbn [te_Name te_Typeflag te_Content].
    rewrite Clean_rel_name, name_ok_path, Dir_rel_name, MkdirAll_dirs, WriteFile_same by done. done.
  - set (p := (path ++ [n])%list) in *. pose proof (Hsame []) as H0. rewrite app_nil_r in H0. cbn in H0.
    assert (Hd' : dirs_to fs p) by (by apply dirs_to_end). destruct (sort_children p children) as (l & Hl & El).
    cbn [createTar extract_entries]. unfold extract_entry at 1. cbn [te_Name te_Typeflag]. rewrite Clean_rel_name, name_ok_path, MkdirAll_dirs by done.
    cbn [negb]. rewrite El. clear El. assert (Hin : forall c, c ∈ l -> c ∈ children) by (intros c; by rewrite Hl). clear Hl.
    induction l as [|[m t] l IHl]; [done|]. cbn. rewrite extract_entries_app, (IH m t); [apply IHl; intros; apply Hin; by right|by apply Hin; left| |by apply top_ok_app|done|].
    + apply Forall_app. split; [done|]. apply Forall_singleton. rewrite Forall_forall in Hok. apply Hok. apply list_elem_of_fmap. exists (m, t). split; [done|]. apply Hin. left.
    + intros q. rewrite <- app_assoc. cbn [app]. rewrite Hsame. cbn [tree_lookup]. rewrite (find_child _ _ t); [done|done|]. apply Hin. left.
Qed.

(** * From build to host *)

Section restored.
Context {L : ArchiveLib} {LL : ArchiveLaws L}.

(** What [Extract] does with an archive of a tree is to extract its entries. *)
Lemma extract_archive h algo es a fs : algo = "gzip" \/ algo = "xz" -> ah_Compress h = algo -> slen (al_marshal h) < 2 ^ 32 ->
  Extract (writeIPK (al_marshal h) (al_zip algo (al_tar es))) a fs = extract_entries a es fs.
Proof.
  intros Ha Hc Hl. unfold Extract. rewrite read_writeIPK by done. cbn [rbind fst snd]. rewrite al_header, Hc. unfold open_tar.
  assert (bool_decide (algo = "gzip") || bool_decide (algo = "xz") = true) as -> by (by destruct Ha as [-> | ->]).
  rewrite al_packed, al_entries by done. by destruct (extract_entries a es fs) as [fs' [[]|e]].
Qed.

Lemma root_entry a fs : extract_entry a {| te_Name := rel_name []; te_Typeflag := TypeDir; te_Linkname := ""; te_Content := "" |} fs = (fs, Ok tt).
Proof. reflexivity. Qed.

(** The names of the build directory itself: none begins with two dots. *)
Definition plain_names (children : list (string * build_tree)) : Prop := forall n t, (n, t) ∈ children -> has_prefix n ".." = false.

Lemma extract_root a children fs : packable (BDir children) -> plain_names children ->
  (forall n t q, (n, t) ∈ children -> fs !! (n :: q) = None) ->
  exists fs', extract_entries a (createTar [] (BDir children)) fs = (fs', Ok tt) /\
    (forall n t q, (n, t) ∈ children -> fs' !! (n :: q) = tree_lookup q t) /\
    (forall p, ~ (exists n q, n ∈ map fst children /\ p = n :: q) -> fs' !! p = fs !! p).
Proof.
  intros Hp Hpl Hn. inversion Hp as [|? Hnd Hok Hch E]; subst. destruct (sort_children [] children) as (l & Hl & El).
  destruct (extract_children a [] l fs) as (fs' & E & P & O).
  { intros n t fs0 Hin Hd H0. rewrite Hl in Hin. apply extract_tree; [by eapply Hch| | |done|done].
    - apply Forall_singleton. rewrite Forall_forall in Hok. apply Hok. apply list_elem_of_fmap. by exists (n, t).
    - by apply (Hpl n t). }
  { by rewrite Hl. } { by intros b c [-> _]%eq_sym%app_eq_nil ?. } { intros n t q Hin. rewrite Hl in Hin. by apply (Hn n t). }
  exists fs'. split_and!.
  - cbn [createTar extract_entries]. rewrite root_entry, El. exact E.
  - intros n t q Hin. apply P. by rewrite Hl.
  - intros p Hnp. apply O. intros (n & q & Hm & ->). apply Hnp. exists n, q. by rewrite <- Hl.
Qed.

(** The header is within its length field. *)
Definition header_fits (compress name version os arch : string) (now : Z) (tree : build_tree) : Prop :=
  let algo := archive_algo compress in
  slen (al_marshal (archive_header algo name version os arch now (al_zip algo (al_tar (createTar [] tree))))) < 2 ^ 32.
Lemma algo_known compress : archive_algo compress = "gzip" \/ archive_algo compress = "xz".
Proof. unfold archive_algo. case_bool_decide; [by left|by right]. Qed.

(** C16: A build directory without links comes to the host as it was packed, whatever the order
    and the compression: every path of it has its node, no path of it has another, and what
    the directory held beside it is untouched.  The header must fit its length field. *)
Theorem packed_tree_restored compress name version os arch now children a fs :
  packable (BDir children) -> plain_names children -> (forall n t q, (n, t) ∈ children -> fs !! (n :: q) = None) ->
  header_fits compress name version os arch now (BDir children) ->
  exists fs', Extract (createArchive compress name version os arch now (BDir children)) a fs = (fs', Ok tt) /\
    (forall n t q, (n, t) ∈ children -> fs' !! (n :: q) = tree_lookup q t) /\
    (forall p, ~ (exists n q, n ∈ map fst children /\ p = n :: q) -> fs' !! p = fs !! p).
Proof.
  intros Hp Hpl Hn Hh. unfold createArchive. rewrite extract_archive; [by apply extract_root|apply algo_known|done|exact Hh].
Qed.

(** Extracting the same archive again changes nothing. *)
Theorem extraction_idempotent compress name version os arch now children a fs :
  packable (BDir children) -> plain_names children -> (forall n t q, (n, t) ∈ children -> fs !! (n :: q) = tree_lookup q t) ->
  header_fits compress name version os arch now (BDir children) ->
  Extract (createArchive compress name version os arch now (BDir children)) a fs = (fs, Ok tt).
Proof.
  intros Hp Hpl Hn Hh. unfold createArchive. rewrite extract_archive; [|apply algo_known|done|exact Hh].
  inversion Hp as [|? Hnd Hok Hch E]; subst. destruct (sort_children [] children) as (l & Hl & El).
  cbn [createTar extract_entries]. rewrite root_entry, El. assert (Hin : forall c, c ∈ l -> c ∈ children) by (intros c; by rewrite Hl). clear El Hl.
  induction l as [|[m t] l IHl]; [done|]. assert (Hm : (m, t) ∈ children) by (apply Hin; left).
  pose proof (same_tree a t (Hch _ _ Hm) [] m fs) as Hs. cbn [app] in Hs.
  cbn. rewrite extract_entries_app, Hs; [apply IHl; intros; apply Hin; by right| | | |].
  - apply Forall_singleton. rewrite Forall_forall in Hok. apply Hok. apply list_elem_of_fmap. by exists (m, t).
  - by apply (Hpl m t).
  - by intros b c [-> _]%eq_sym%app_eq_nil ?.
  - intros q. by apply Hn.
Qed.

(** The checksum that the header carries plays no part: archives whose headers agree on the
    compression extract alike. *)
Theorem checksum_not_verified h h' data a fs : ah_Compress h = ah_Compress h' -> slen (al_marshal h) < 2 ^ 32 -> slen (al_marshal h') < 2 ^ 32 ->
  Extract (writeIPK (al_marshal h) data) a fs = Extract (writeIPK (al_marshal h') data) a fs.
Proof. intros Hc H1 H2. unfold Extract. rewrite !read_writeIPK by done. cbn [rbind fst snd]. by rewrite !al_header, Hc. Qed.
End restored.

(** * A format *)

(** The fields of the entries in order, each in Base64 before a dot. *)
Definition type_name (t : tar_type) : string := match t with TypeDir => "d" | TypeReg => "r" | TypeSymlink => "l" | TypeOther => "o" end.
Definition type_of (s : string) : tar_type := if bool_decide (s = "d") then TypeDir else if bool_decide (s = "r") then TypeReg else if bool_decide (s = "l") then TypeSymlink else TypeOther.
Definition entry_fields (e : tar_entry) : list string := [te_Name e; type_name (te_Typeflag e); te_Linkname e; te_Content e].
Fixpoint fields_entries (l : list string) : list tar_entry :=
  match l with n :: t :: k :: c :: l => {| te_Name := n; te_Typeflag := type_of t; te_Linkname := k; te_Content := c |} :: fields_entries l | _ => [] end.
#[local] Instance plain_lib : ArchiveLib := {|
  al_marshal := ah_Compress;
  al_unmarshal := Some;
  al_tar es := join "." (map bytesEncode (es ≫= entry_fields));
  al_untar s := (fields_entries (map (fun f => default "" (bytesDecode f)) (split_at "." s)), None);
  al_zip _ s := s;
  al_unzip _ s := Some s |}.
Lemma fields_read es : fields_entries (es ≫= entry_fields) = es.
Proof. induction es as [|[n t k c] es IH]; [done|]. cbn in *. rewrite IH. by destruct t. Qed.
Lemma fields_decode l : map (fun f => default "" (bytesDecode f)) (map bytesEncode l) = l.
Proof. induction l as [|x l IH]; [done|]. cbn [map]. by rewrite bytesDecode_encode, IH. Qed.
#[local] Instance plain_laws : ArchiveLaws plain_lib.
Proof.
  split; [done| |done]. intros es. cbn [al_untar al_tar plain_lib]. f_equal. destruct es as [|e es]; [done|].
  rewrite split_at_join, fields_decode, fields_read; [done|by destruct e|].
  apply Forall_forall. intros x (y & -> & _)%list_elem_of_fmap. apply bytesEncode_no_dot.
Qed.

Lemma packed_tree_restored_witness :
  let tree := [("bin", BDir [("sub", BDir []); ("app", BFile "x")]); ("a..b", BFile "y")] in
  exists fs', Extract (createArchive "gzip" "p" "1.0" "linux" "amd64" 7 (BDir tree)) "/opt/p" {[ ["old"] := NFile "z" ]} = (fs', Ok tt) /\
    (forall n t q, (n, t) ∈ tree -> fs' !! (n :: q) = tree_lookup q t) /\
    (forall p, ~ (exists n q, n ∈ map fst tree /\ p = n :: q) -> fs' !! p = ({[ ["old"] := NFile "z" ]} : tree_fs) !! p).
Proof.
  intros tree. apply (packed_tree_restored "gzip" "p" "1.0" "linux" "amd64" 7 tree "/opt/p").
  - constructor; [apply (bool_decide_unpack _); vm_compute; exact I|repeat apply Forall_cons_2; try apply Forall_nil_2; split_and!; done|].
    intros n t [[= -> ->]|[[= -> ->]|[]%not_elem_of_nil]%elem_of_cons]%elem_of_cons; [|constructor].
    constructor; [apply (bool_decide_unpack _); vm_compute; exact I|repeat apply Forall_cons_2; try apply Forall_nil_2; split_and!; done|].
    intros n t [[= -> ->]|[[= -> ->]|[]%not_elem_of_nil]%elem_of_cons]%elem_of_cons; [|constructor].
    constructor; [constructor|constructor|]. by intros n t ?%not_elem_of_nil.
  - by intros n t [[= -> ->]|[[= -> ->]|[]%not_elem_of_nil]%elem_of_cons]%elem_of_cons.
  - intros n t q [[= -> ->]|[[= -> ->]|[]%not_elem_of_nil]%elem_of_cons]%elem_of_cons; apply lookup_singleton_ne; congruence.
  - vm_compute. done.
Defined.

(** * What falls short *)

(** A tree with a link: its entry has no target, and extraction fails there. *)
Example link_not_extracted :
  let tree := BDir [("bin", BDir [("app", BFile "x"); ("run", BLink "app")]); ("lib", BFile "y")] in
  createTar [] tree !! 3%nat = Some {| te_Name := "bin/run"; te_Typeflag := TypeSymlink; te_Linkname := ""; te_Content := "" |} /\
  exists fs, extract_entries "/opt/p" (createTar [] tree) ∅ = (fs, Err "no such file or directory") /\ fs !! ["lib"] = None.
Proof. split; [reflexivity|]. eexists. split; vm_compute; reflexivity. Qed.

(** A file of the root directory whose name begins with two dots is refused as a traversal. *)
Example dotted_name_refused :
  exists fs, extract_entries "/opt/p" (createTar [] (BDir [("..data", BFile "x")])) ∅ = (fs, Err "path traversal detected: ..data").
Proof. eexists. vm_compute. reflexivity. Qed.

Definition dir_entry (name : string) : tar_entry := {| te_Name := name; te_Typeflag := TypeDir; te_Linkname := ""; te_Content := "" |}.
Definition link_entry (name target : string) : tar_entry := {| te_Name := name; te_Typeflag := TypeSymlink; te_Linkname := target; te_Content := "" |}.
Definition file_entry (name content : string) : tar_entry := {| te_Name := name; te_Typeflag := TypeReg; te_Linkname := ""; te_Content := content |}.

(** Links that lead outside are refused by their text, also absolute ones; a link that is
    placed through another link is judged at the wrong place: [two] is the directory itself,
    so the link lands there and leads two levels above it. *)
Example link_judged_by_text :
  snd (extract_entries "/opt/p" [link_entry "x" "../evil"] ∅) = Err "symlink path traversal detected" /\
  snd (extract_entries "/opt/p" [link_entry "x" "/etc"] ∅) = Err "symlink with absolute linkname rejected" /\
  (let '(fs, r) := extract_entries "/opt/p" [dir_entry "deep/one"; link_entry "deep/one/two" "../.."; link_entry "deep/one/two/z" "../../.."] ∅ in
   r = Ok tt /\ fs !! ["z"] = Some (NLink "../../..") /\
   snd (root_WriteFile "z/passwd" "x" fs) = Err "path escapes from parent").
Proof. vm_compute. done. Qed.

(** A file is not written through a link that leads outside, and links of an earlier
    extraction are replaced. *)
Example planted_link_not_followed :
  snd (extract_entries "/opt/p" [file_entry "x/f" "evil"] {[ ["x"] := NLink "/outside" ]}) = Err "path escapes from parent" /\
  fst (extract_entries "/opt/p" [file_entry "app" "v2"; link_entry "run" "app"] {[ ["run"] := NLink "old" ]}) !! ["run"] = Some (NLink "app").
Proof. split; vm_compute; reflexivity. Qed.
